(* ===== verification/_CoqProject ===== *)
-Q . S2P
Prelude.v
Defs.v
ListHead.v
Bitmap.v
Buddy.v
Pmm.v
Paging.v
PagingSpace.v
PagingPmm.v
Capability.v
Sched.v
IpcTag.v
Ipc.v
Endpoint.v
Vmm.v
VmmSpace.v
VmmRegion.v
VmmLife.v
VmmClone.v
VmmSpec.v
Uaccess.v
ByteMem.v
KString.v
Printf.v
LibcString.v
LibcStdlib.v
LibcHeap.v
LibcStdio.v
LibcStdioSpec.v
Slab.v
SlabInv.v
SlabSpec.v
SlabPmm.v
Server.v
Ramfs.v
RamfsInv.v
RamfsSpec.v
Vfs.v
VfsSpec.v
Pid.v
Process.v
ProcessTable.v
ProcessFrame.v
ProcessInv.v
ProcessLife.v
ProcessCreate.v
ProcessFork.v
ProcessSpec.v
ProcessExample.v
Spinlock.v
Rwlock.v
PageBytes.v
Elf.v
Exec.v
ExecPages.v
ExecSegment.v
ExecStack.v
ExecSpec.v
VmmSpaces.v
Ext2.v
Ext2Spec.v
Syscall.v
SyscallTable.v
SyscallSpec.v
Manifest.v
Shell.v
ShellSpec.v
