(* ===== verification/Prelude.v ===== *)
(** * Ocean: a verification of the kernel, the C library and the file servers

    Ocean is a small microkernel operating system for x86-64 written in C.  The kernel
    (src/kernel/) manages physical memory, page tables and address spaces, schedules threads,
    and passes messages between processes over endpoints under the control of capabilities;
    everything else (file systems, drivers, the process, memory and VFS servers) runs as
    user programs on a C library (src/lib/libc/).  This library models the kernel, the C
    library, the file servers and the shell as Rocq functions, translated definition by
    definition from the C source, and proves what makes each part correct.  Definitions keep
    the C names.

    ** How the code is modelled

    - A value of an unsigned C type is its number in [Z]; wrap-around is written out ([u8] to
      [u64], [lnotw] for the complement).  Signed overflow is undefined and is a failure.
    - A structure is a [Record], an enum an [Inductive] or its numbers, an array a list indexed
      by [zget] and [zset], a heap of structures a map from addresses.  Memory that the code
      addresses byte by byte or word by word is a map ([ByteMem], [Paging]).
    - State is passed explicitly; a function that can perform an undefined access (out of an
      array's range, through a dangling or unmapped pointer) returns [option], and [None] is
      that access.  Every theorem that says what a call returns therefore also says that it
      makes no such access.  C error codes are ordinary results.
    - A doubly-linked list is the sequence of its entries; [ListHead] proves that the pointer
      operations of list.h implement those on sequences.
    - A counted loop is [for_range]; other loops have fuel that is proved to be enough for the
      claims that rely on it (the length of a list, the number of page-table entries, the size
      of the mapped memory: every round of the loop uses up one of them).
    - Spinlocks make the operations under them atomic.  A call that blocks is split where the
      thread sleeps into the part before and the part after it is woken.
    - Console output ([kprintf] calls) is left out unless the function is about output;
      hardware effects (CR3 writes, TLB flushes, context switches, zeroing of pages) are logged.

    ** The files

    - [Prelude]: widths, bits, arrays, loops, tactics and the hint database [ocean]; [Defs]:
      the constants and macros of kernel/include/ocean/defs.h and pmm.h.
    - [ListHead]: kernel/include/ocean/list.h on a heap of nodes.
    - Physical memory: [Bitmap] (kernel/mm/bitmap.c), [Buddy] (kernel/mm/buddy.c), [Pmm]
      (kernel/mm/pmm.c).
    - Virtual memory: [Paging], [PagingSpace] (kernel/arch/x86_64/mm/paging.c) over the
      interface [PageAllocator] with its laws; [PagingPmm] shows that [Pmm] satisfies the
      laws and states the theorems.  [Vmm] holds the code of kernel/mm/vmm.c, fault.c and
      kernel/proc/ipc_window.c; [VmmSpace], [VmmRegion], [VmmLife], [VmmClone] its
      invariants; [VmmSpec] the theorems; [Uaccess] is kernel/mm/uaccess.c.
    - Kernel heap: [Slab] (kernel/mm/slab.c) over the interface [KernelPages], [SlabInv] its
      invariant, [SlabSpec] the theorems, [SlabPmm] the instance for [Pmm].
    - [Capability] (kernel/ipc/capability.c), [Sched] (kernel/sched/core.c), [IpcTag] (the
      macros of ipc.h and ipc_proto.h), [Ipc] (kernel/ipc/message.c), [Endpoint]
      (kernel/ipc/endpoint.c).
    - Strings and output: [ByteMem], [KString] (kernel/lib/string.c), [Printf]
      (kernel/lib/printf.c), [LibcString], [LibcStdlib] and [LibcHeap] (lib/libc/src/string.c
      and stdlib.c), [LibcStdio] with its theorems in [LibcStdioSpec] (lib/libc/src/stdio.c).
    - Locks: [Spinlock] (ticket locks) and [Rwlock] (reader-writer locks, saved interrupt
      state, atomic counters) of kernel/include/ocean/spinlock.h and defs.h.
    - Processes (kernel/proc/process.c, files.c): [Pid] the identifiers, [Process] the code,
      [ProcessTable], [ProcessFrame], [ProcessInv], [ProcessLife], [ProcessCreate] and
      [ProcessFork] the invariant and the lemmas of each operation, [ProcessSpec] the
      theorems, [ProcessExample] the states of their witnesses.  They use the interfaces
      [KernelHeap] and [AddressSpaces]; [VmmSpaces] implements the latter with vmm.c over page
      tables and proves its laws.
    - Program loading (kernel/proc/exec.c): [PageBytes] the bytes of mapped pages, [Elf] the
      headers, [Exec] the code, [ExecPages], [ExecSegment] and [ExecStack] the lemmas,
      [ExecSpec] the theorems.
    - System calls (kernel/syscall/dispatch.c): [Syscall] the handlers of console, files and
      exec, [SyscallTable] the table, the conversion of arguments and the wrappers of
      lib/libocean, [SyscallSpec] the theorems.
    - Servers: [Server] what they share; [Ramfs], [RamfsInv], [RamfsSpec] (fs/ramfs/main.c);
      [Vfs], [VfsSpec] (servers/vfs/main.c); [Ext2], [Ext2Spec] (fs/ext2/main.c) over the
      interface [BlockSource] of the blocks that are read.
    - [Manifest] (include/ocean/userspace_manifest.h), [Shell], [ShellSpec]
      (servers/sh/main.c).

    ** What the theorems show

    - Memory: the buddy allocator hands out aligned, pairwise disjoint blocks and takes them
      back, as long as the page array has an entry for every buddy it looks at; zones and page array stay consistent from boot on; allocation by address and its
      inverse restore the set of free pages.  The kernel heap built on it hands out disjoint
      objects whatever the history of kmalloc and kfree.
    - Page tables and address spaces: map, unmap and range operations change exactly the
      translations they name, also when they fail; regions, VMAs and page contents stay
      consistent; spaces are isolated from each other; a clone equals its parent and shares
      nothing; creating, using and destroying a space leaks no page.
    - User access: a copy touches only memory whose every byte the process may access.
    - Capabilities: rights are never amplified by copying and minting; slots are found, filled
      and emptied as documented.
    - Scheduling: the best ready thread runs, every ready thread of the best priority gets its
      turn, wake-ups queue a thread once.
    - IPC: what every path of send, receive, call and reply does to messages, waiters and call
      links; calls are answered with the server's reply; ending an endpoint leaves nobody
      waiting on it, and ending a thread releases the caller and the server it is recorded with.
    - Strings, output and the C heap: memory moves are right for every overlap, searches and
      comparisons meet their definitions, formatted output never leaves its buffer, printing
      and parsing are inverse, both string libraries agree; the regions malloc hands out are
      disjoint and inside the heap, realloc keeps their contents.  The C library's printf
      prints the text that C gives a format, for the directives that it supports.
    - Locks: the events of every run of the ticket lock are those of a queue, served in order of
      arrival; a writer excludes everybody.
    - Processes: fork copies the parent, exit hands the children over and wakes the parent,
      wait returns an ended child and gives its resources back; a parent that sleeps in wait
      gets the exit code of the child that ends.
    - Loading: a page-aligned segment's pages hold the bytes of the file and zeros behind them; a
      program made of such segments, off the stack, is replaced completely or not at all; its
      stack holds exactly its arguments.
    - System calls: what a wrapper sends is what the handler receives; files of boot modules
      behave as an abstract table of open files; exec copies all arguments first.
    - File servers: every history of requests is answered as by an abstract file system or name
      space (for mounts at paths other than the root, none below another); ext2 returns exactly the bytes of a file, and resolves paths segment by segment.
    - Shell: lines are cut in place as the quoting rules say, and quoting is reversible.

    A finding (PROJECT.json) that a theorem proves is stated as the theorem: it says what the
    code does.

    ** Not modelled

    Boot code and the console (limine protocol structures, early console, GDT, IDT, timer and
    assembly stubs), syscall_init and the ATA driver configure and drive hardware.  Of the
    system calls, the handlers that only pass IPC arguments on to [Ipc] and [Endpoint] are
    modelled up to the arguments they receive.  The block, process, memory and init servers are
    prototypes that answer a self-test from tables of their own; the programs in bin/ are loops
    over system calls and printf.  The texts that the shell's built-in commands print are left
    out.  kernel/ipc/test.c is test code.  SMP is not modelled: the kernel starts one CPU. *)
From Stdlib Require Export ZArith Lia.
From stdpp Require Export base option numbers list gmap.

Global Set Default Goal Selector "!".
#[export] Set Default Proof Using "Type".
Global Open Scope Z_scope.

(** ** Fixed-width unsigned integers

    A C value of type u8, u32 or u64 is its mathematical value, an element of [Z]; every
    operation that can leave the width is followed by the wrap-around written out here. *)

Definition wrap (w x : Z) : Z := x mod 2 ^ w.
Definition u8 (x : Z) : Z := wrap 8 x.
Definition u16 (x : Z) : Z := wrap 16 x.
Definition u32 (x : Z) : Z := wrap 32 x.
Definition u64 (x : Z) : Z := wrap 64 x.

(** [~x] at width [w]. *)
Definition lnotw (w x : Z) : Z := Z.lxor x (Z.ones w).

(** The value [x] fits an unsigned type of width [w]. *)
Definition fits (w x : Z) : Prop := 0 <= x < 2 ^ w.

#[export] Instance fits_dec w x : Decision (fits w x).
Proof. unfold fits. apply _. Defined.

(** C's truth value of an integer. *)
Definition ztrue (x : Z) : bool := negb (x =? 0).

(** ** C arrays indexed by an unsigned value.  Out of range there is no value: an access there
    is undefined behaviour in C and a failure ([None]) of the model. *)

Definition zget {A} (l : list A) (i : Z) : option A :=
  if decide (0 <= i) then l !! Z.to_nat i else None.

Definition zset {A} (l : list A) (i : Z) (x : A) : option (list A) :=
  _ ← zget l i; Some (<[Z.to_nat i := x]> l).

Definition zupd {A} (l : list A) (i : Z) (f : A -> A) : option (list A) :=
  x ← zget l i; Some (<[Z.to_nat i := f x]> l).

Definition zlen {A} (l : list A) : Z := Z.of_nat (length l).

(** ** Counted loops.  [for (i = a; i < b; i++) body] is [for_range (Z.to_nat (b - a)) a body];
    the body may fail (undefined behaviour). *)

Fixpoint for_range {S} (n : nat) (i : Z) (body : Z -> S -> option S) (s : S) : option S :=
  match n with
  | O => Some s
  | Datatypes.S n' => s' ← body i s; for_range n' (i + 1) body s'
  end.

(** The same loop with an early [return]: [inl s] goes on with state [s], [inr r] returns [r]. *)
Fixpoint for_return {S R} (n : nat) (i : Z) (body : Z -> S -> option (S + R)) (s : S)
  : option (S + R) :=
  match n with
  | O => Some (inl s)
  | Datatypes.S n' =>
      c ← body i s;
      match c with
      | inl s' => for_return n' (i + 1) body s'
      | inr r => Some (inr r)
      end
  end.

(** The number of [k] in [0, n) with [f k]. *)
Fixpoint count_true (f : Z -> bool) (n : nat) : Z :=
  match n with
  | O => 0
  | Datatypes.S n' => count_true f n' + Z.b2z (f (Z.of_nat n'))
  end.

(** ** Lemmas on widths *)

Lemma wrap_small w x : fits w x -> wrap w x = x.
Proof. unfold fits, wrap. intros H. by apply Z.mod_small. Qed.

Lemma wrap_fits w x : 0 <= w -> fits w (wrap w x).
Proof. unfold fits, wrap. intros H. apply Z.mod_pos_bound. lia. Qed.

Lemma u64_small x : 0 <= x < 2 ^ 64 -> u64 x = x.
Proof. apply wrap_small. Qed.

Lemma u32_small x : 0 <= x < 2 ^ 32 -> u32 x = x.
Proof. apply wrap_small. Qed.

Lemma u64_range x : 0 <= u64 x < 2 ^ 64.
Proof. apply (wrap_fits 64). lia. Qed.

Lemma u32_range x : 0 <= u32 x < 2 ^ 32.
Proof. apply (wrap_fits 32). lia. Qed.

(** ** Bits *)

(** A number below [2 ^ w] has no bit at or above [w], and conversely. *)
Lemma testbit_above w x i : fits w x -> 0 <= w <= i -> Z.testbit x i = false.
Proof.
  intros [H0 H1] [Hw Hi]. destruct (decide (x = 0)) as [->|Hx]; [apply Z.bits_0|].
  apply Z.bits_above_log2; [lia|]. apply Z.log2_lt_pow2; [lia|].
  eapply Z.lt_le_trans; [exact H1|]. apply Z.pow_le_mono_r; lia.
Qed.

Lemma fits_testbit w x :
  0 <= w -> 0 <= x -> (forall i, w <= i -> Z.testbit x i = false) -> fits w x.
Proof.
  intros Hw Hx H. split; [done|]. destruct (decide (x = 0)) as [->|]; [lia|].
  destruct (Z.lt_ge_cases x (2 ^ w)) as [|Hge]; [done|].
  assert (w <= Z.log2 x) by (apply Z.log2_le_pow2; lia).
  exfalso. pose proof (Z.bit_log2 x ltac:(lia)) as Hb. by rewrite H in Hb.
Qed.

Lemma lnotw_testbit w x i :
  0 <= i -> 0 <= w -> Z.testbit (lnotw w x) i = xorb (Z.testbit x i) (bool_decide (i < w)).
Proof.
  intros Hi Hw. unfold lnotw. rewrite Z.lxor_spec. f_equal.
  destruct (decide (i < w)) as [H|H].
  - rewrite bool_decide_true by done. by apply Z.ones_spec_low.
  - rewrite bool_decide_false by done. apply Z.ones_spec_high. lia.
Qed.

Lemma pow2_testbit n i : 0 <= n -> Z.testbit (Z.shiftl 1 n) i = bool_decide (i = n).
Proof.
  intros Hn. rewrite Z.shiftl_1_l. destruct (decide (i = n)) as [->|H].
  - rewrite bool_decide_true by done. apply Z.pow2_bits_true. lia.
  - rewrite bool_decide_false by done. apply Z.pow2_bits_false. congruence.
Qed.

(** [x & (1 << n)] is non-zero exactly when bit [n] of [x] is set. *)
Lemma ztrue_land_bit x n : 0 <= n -> ztrue (Z.land x (Z.shiftl 1 n)) = Z.testbit x n.
Proof.
  intros Hn. unfold ztrue. destruct (Z.testbit x n) eqn:E.
  - apply negb_true_iff, Z.eqb_neq. intros Hz.
    assert (Z.testbit (Z.land x (Z.shiftl 1 n)) n = true) as Ht.
    { rewrite Z.land_spec, E, pow2_testbit by done. by rewrite bool_decide_true. }
    by rewrite Hz, Z.bits_0 in Ht.
  - apply negb_false_iff, Z.eqb_eq, Z.bits_inj'. intros i Hi.
    rewrite Z.bits_0, Z.land_spec, pow2_testbit by done.
    destruct (decide (i = n)) as [->|]; [by rewrite E|].
    rewrite bool_decide_false by done. apply andb_false_r.
Qed.

(** ** Aligned addresses *)

(** [x & (2^k - 1)] is the remainder, [x & ~(2^k - 1)] the largest multiple below. *)
Lemma land_ones_mod x k : 0 <= k -> Z.land x (2 ^ k - 1) = x mod 2 ^ k.
Proof. intros Hk. rewrite <- Z.land_ones, Z.ones_equiv by done. done. Qed.

Lemma land_lnotw_ones x k w :
  0 <= k <= w -> fits w x -> Z.land x (lnotw w (2 ^ k - 1)) = x - x mod 2 ^ k.
Proof.
  intros Hk Hx.
  assert (Z.land x (lnotw w (2 ^ k - 1)) = Z.ldiff x (Z.ones k)) as ->.
  { apply Z.bits_inj'. intros i Hi.
    rewrite Z.land_spec, Z.ldiff_spec, lnotw_testbit by lia.
    replace (2 ^ k - 1) with (Z.ones k) by (rewrite Z.ones_equiv; lia).
    destruct (decide (i < w)).
    - rewrite bool_decide_true by done. by rewrite xorb_true_r.
    - by rewrite (testbit_above w x i) by (done || lia). }
  rewrite Z.ldiff_ones_r by lia. rewrite Z.shiftr_div_pow2, Z.shiftl_mul_pow2 by lia.
  pose proof (Z.div_mod x (2 ^ k) ltac:(apply Z.pow_nonzero; lia)). lia.
Qed.

(** ** Arrays *)

Lemma zget_Some {A} (l : list A) i : is_Some (zget l i) <-> 0 <= i < zlen l.
Proof.
  unfold zget, zlen. case_decide as H.
  - rewrite lookup_lt_is_Some. lia.
  - split; [by intros []|lia].
Qed.

Lemma zget_lookup {A} (l : list A) i x : zget l i = Some x -> 0 <= i /\ l !! Z.to_nat i = Some x.
Proof. unfold zget. case_decide; [by split|done]. Qed.

Lemma zget_nat {A} (l : list A) (i : nat) : zget l (Z.of_nat i) = l !! i.
Proof. unfold zget. rewrite decide_True by lia. by rewrite Nat2Z.id. Qed.

Lemma zget_range {A} (l : list A) i x : zget l i = Some x -> 0 <= i < zlen l.
Proof. intros H. apply zget_Some. eauto. Qed.

Lemma zupd_ok {A} (l : list A) i f x :
  zget l i = Some x -> zupd l i f = Some (<[Z.to_nat i := f x]> l).
Proof. unfold zupd. by intros ->. Qed.

Lemma zupd_Some {A} (l : list A) i f : 0 <= i < zlen l -> is_Some (zupd l i f).
Proof. intros [x Hx]%zget_Some. rewrite (zupd_ok _ _ _ _ Hx). eauto. Qed.

Lemma zupd_length {A} (l l' : list A) i f : zupd l i f = Some l' -> zlen l' = zlen l.
Proof.
  unfold zupd, zlen. intros H. destruct (zget l i); simplify_eq/=. by rewrite length_insert.
Qed.

Lemma zset_zupd {A} (l : list A) i x : zset l i x = zupd l i (fun _ => x).
Proof. done. Qed.

(** What an update leaves behind: the new value at its index, the old ones elsewhere. *)
Lemma zget_zupd {A} (l l' : list A) i f j :
  zupd l i f = Some l' -> zget l' j = if decide (j = i) then f <$> zget l j else zget l j.
Proof.
  unfold zupd. destruct (zget l i) as [x|] eqn:E; [|done]. intros [= <-].
  pose proof (zget_range _ _ _ E) as Hr. apply zget_lookup in E as [Hi E].
  case_decide as H; [subst j|]; unfold zget.
  - rewrite !decide_True by done. rewrite E. simpl. apply list_lookup_insert_eq.
    apply lookup_lt_Some in E. lia.
  - case_decide; [|done]. apply list_lookup_insert_ne. lia.
Qed.

(** ** Lengths *)

Lemma zlen_app {A} (l1 l2 : list A) : zlen (l1 ++ l2) = zlen l1 + zlen l2.
Proof. unfold zlen. rewrite length_app. lia. Qed.

Lemma zlen_cons {A} (x : A) l : zlen (x :: l) = zlen l + 1.
Proof. unfold zlen. cbn [length]. lia. Qed.

Lemma zlen_replicate {A} n (x : A) : zlen (replicate n x) = Z.of_nat n.
Proof. unfold zlen. by rewrite length_replicate. Qed.

Lemma zlen_to_nat {A} (l : list A) : Z.to_nat (zlen l) = length l.
Proof. unfold zlen. apply Nat2Z.id. Qed.

Lemma zlen_nonneg {A} (l : list A) : 0 <= zlen l.
Proof. unfold zlen. lia. Qed.

(** ** Counted loops *)

Section loops.
  Context {S R : Type}.
  Implicit Types (s : S) (n : nat) (i : Z).

  (** An invariant indexed by the loop counter carries over the whole loop, which then never
      fails. *)
Lemma for_range_ind (P : Z -> S -> Prop) n i body s :
    P i s ->
    (forall j s0, i <= j < i + Z.of_nat n -> P j s0 ->
       exists s1, body j s0 = Some s1 /\ P (j + 1) s1) ->
    exists s', for_range n i body s = Some s' /\ P (i + Z.of_nat n) s'.
  Proof.
    revert i s. induction n as [|n IH]; intros i s H0 Hstep.
    - exists s. split; [done|]. by replace (i + Z.of_nat 0) with i by lia.
    - destruct (Hstep i s) as (s1 & Hb & H1); [lia|done|].
      destruct (IH (i + 1) s1 H1) as (s' & Hl & H').
      { intros j s0 Hj. apply Hstep. lia. }
      exists s'. simpl. rewrite Hb. split; [done|].
      by replace (i + Z.of_nat (Datatypes.S n)) with (i + 1 + Z.of_nat n) by lia.
  Qed.

Lemma for_return_ind (P : Z -> S -> Prop) (Q : R -> Prop) n i
      (body : Z -> S -> option (S + R)) s :
    P i s ->
    (forall j s0, i <= j < i + Z.of_nat n -> P j s0 ->
       (exists s1, body j s0 = Some (inl s1) /\ P (j + 1) s1) \/
       (exists r, body j s0 = Some (inr r) /\ Q r)) ->
    (exists s', for_return n i body s = Some (inl s') /\ P (i + Z.of_nat n) s') \/
    (exists r, for_return n i body s = Some (inr r) /\ Q r).
  Proof.
    revert i s. induction n as [|n IH]; intros i s H0 Hstep.
    - left. exists s. split; [done|]. by replace (i + Z.of_nat 0) with i by lia.
    - destruct (Hstep i s) as [(s1 & Hb & H1)|(r & Hb & HQ)]; [lia|done| |].
      + simpl. rewrite Hb. simpl.
        replace (i + Z.of_nat (Datatypes.S n)) with (i + 1 + Z.of_nat n) by lia.
        apply IH; [done|]. intros j s0 Hj. apply Hstep. lia.
      + right. exists r. simpl. by rewrite Hb.
  Qed.
End loops.

(** ** Counting *)

Lemma count_true_ext f g n :
  (forall k, 0 <= k < Z.of_nat n -> f k = g k) -> count_true f n = count_true g n.
Proof.
  induction n as [|n IH]; intros H; simpl; [done|].
  rewrite IH, (H (Z.of_nat n)) by (intros; try apply H; lia). done.
Qed.

Lemma count_true_add f n m :
  count_true f (n + m) = count_true f n + count_true (fun k => f (Z.of_nat n + k)) m.
Proof.
  induction m as [|m IH]; simpl; [rewrite Nat.add_0_r; lia|].
  rewrite Nat.add_succ_r. simpl. rewrite IH, Nat2Z.inj_add. lia.
Qed.

Lemma count_true_bound f n : 0 <= count_true f n <= Z.of_nat n.
Proof. induction n as [|n IH]; simpl count_true; [lia|]. destruct (f _); simpl Z.b2z; lia. Qed.

Lemma count_true_negb f n : count_true (fun k => negb (f k)) n = Z.of_nat n - count_true f n.
Proof. induction n as [|n IH]; simpl count_true; [lia|]. rewrite IH. destruct (f _); simpl Z.b2z; lia. Qed.

Lemma count_true_const f n b :
  (forall k, 0 <= k < Z.of_nat n -> f k = b) -> count_true f n = Z.b2z b * Z.of_nat n.
Proof.
  induction n as [|n IH]; intros H; simpl count_true; [lia|].
  rewrite IH, H by (intros; try apply H; lia). lia.
Qed.

(** ** Automation *)

Create HintDb ocean.
#[export] Hint Resolve wrap_fits u64_range u32_range : ocean.
#[export] Hint Extern 2 (_ <= _) => lia : ocean.
#[export] Hint Extern 2 (_ < _) => lia : ocean.

(** Open the binds of a hypothesis [e = Some _]. *)
Ltac inv_bind H :=
  repeat match type of H with
  | mbind _ ?e = Some _ => destruct e eqn:?; simpl in H; [|discriminate H]
  | (match ?e with Some _ => _ | None => _ end) = Some _ => destruct e eqn:?; [|discriminate H]
  end.

(** Linear arithmetic with division and remainder by constants. *)
Ltac divlia := Z.to_euclidean_division_equations; lia.

(** ** Sequences without repetition *)

(** Distinct naturals below [n] are at most [n]. *)
Lemma NoDup_bounded_length (l : list Z) (n : Z) :
  0 <= n -> NoDup l -> (forall x, x ∈ l -> 0 <= x < n) -> zlen l <= n.
Proof.
  intros Hn Hnd Hb. assert (l ⊆+ seqZ 0 n) as Hs.
  { apply NoDup_submseteq; [done|]. intros x Hx. apply elem_of_seqZ. specialize (Hb x Hx). lia. }
  apply submseteq_length in Hs. rewrite length_seqZ in Hs. unfold zlen. lia.
Qed.

(** Removing one element of a sequence without repetition shortens it by one. *)
Lemma filter_ne_id (l : list Z) t : t ∉ l -> filter (fun x => x ≠ t) l = l.
Proof.
  induction l as [|a l IH]; [done|]. intros [Ha Hl]%not_elem_of_cons.
  rewrite filter_cons_True by congruence. by rewrite IH.
Qed.

Lemma filter_ne_length (l : list Z) (x : Z) :
  NoDup l -> x ∈ l -> zlen (filter (fun y => y ≠ x) l) = zlen l - 1.
Proof.
  unfold zlen. induction l as [|y l IH]; intros Hnd Hx; [by apply not_elem_of_nil in Hx|].
  apply NoDup_cons in Hnd as [Hy Hnd]. destruct (decide (y = x)) as [->|Hne].
  - rewrite filter_cons_False by (intros []; done).
    assert (filter (fun z => z ≠ x) l = l) as ->; [|simpl; lia].
    clear -Hy. induction l as [|z l IH]; [done|].
    rewrite filter_cons_True by set_solver. f_equal. apply IH. set_solver.
  - rewrite filter_cons_True by done. simpl.
    apply elem_of_cons in Hx as [->|Hx]; [done|]. specialize (IH Hnd Hx). lia.
Qed.

(** Wrapped sums compose. *)
Lemma u64_add_l a b : u64 (u64 a + b) = u64 (a + b).
Proof. unfold u64, wrap. by rewrite Zplus_mod_idemp_l. Qed.

Lemma u64_sub_l a b : u64 (u64 a - b) = u64 (a - b).
Proof. unfold u64, wrap. by rewrite Zminus_mod_idemp_l. Qed.

Lemma u64_idemp a : u64 (u64 a) = u64 a.
Proof. unfold u64, wrap. by rewrite Zmod_mod. Qed.

(** ** Bit sets kept in 64-bit words *)

(** Bit [i] of the words [b]. *)
Definition wbit (b : list Z) (i : Z) : bool := Z.testbit (default 0 (zget b (i / 64))) (i mod 64).

(** [f] writes bit [n] of a word to [v]. *)
Definition writes_bit (f : Z -> Z) (n : Z) (v : bool) : Prop :=
  forall w k, 0 <= k < 64 -> Z.testbit (f w) k = if decide (k = n) then v else Z.testbit w k.

Lemma wbit_upd b b' i f v j :
  0 <= i -> 0 <= j -> zupd b (i / 64) f = Some b' -> writes_bit f (i mod 64) v ->
  wbit b' j = if decide (j = i) then v else wbit b j.
Proof.
  intros Hi Hj E Hf. unfold wbit. rewrite (zget_zupd _ _ _ _ _ E).
  assert (is_Some (zget b (i / 64))) as [w Hw].
  { unfold zupd in E. destruct (zget b (i / 64)); [by eexists|done]. }
  destruct (decide (j / 64 = i / 64)) as [Hd|Hd].
  - rewrite Hd, Hw. simpl. rewrite Hf by divlia. repeat case_decide; try done; exfalso; divlia.
  - rewrite (decide_False (P := j = i)) by (intros ->; done). done.
Qed.

Lemma or_writes n : 0 <= n -> writes_bit (fun w => Z.lor w (Z.shiftl 1 n)) n true.
Proof.
  intros Hn w k Hk. rewrite Z.lor_spec, pow2_testbit by done. case_decide as E.
  - rewrite bool_decide_true by done. apply orb_true_r.
  - rewrite bool_decide_false by done. apply orb_false_r.
Qed.

Lemma andnot_writes n :
  0 <= n < 64 -> writes_bit (fun w => Z.land w (lnotw 64 (Z.shiftl 1 n))) n false.
Proof.
  intros Hn w k Hk. rewrite Z.land_spec, lnotw_testbit, pow2_testbit by lia.
  rewrite (bool_decide_true (k < 64)) by lia. case_decide as E.
  - rewrite bool_decide_true by done. apply andb_false_r.
  - rewrite bool_decide_false by done. apply andb_true_r.
Qed.

Lemma or_fits n w : 0 <= n < 64 -> fits 64 w -> fits 64 (Z.lor w (Z.shiftl 1 n)).
Proof.
  intros Hn Hw. apply fits_testbit; [lia|apply Z.lor_nonneg; split; [apply Hw|by apply Z.shiftl_nonneg]|].
  intros i Hi. rewrite Z.lor_spec, pow2_testbit, (testbit_above 64 w i) by (done || lia).
  by rewrite bool_decide_false by lia.
Qed.

Lemma land_fits w x y : 0 <= w -> fits w x -> fits w (Z.land x y).
Proof.
  intros Hw Hx. apply fits_testbit; [done|apply Z.land_nonneg; left; apply Hx|].
  intros i Hi. rewrite Z.land_spec, (testbit_above w x i) by (done || lia). done.
Qed.

(** [for_return] as a search: it returns the first index accepted, or runs through. *)
Lemma for_return_find {R} n i (p : Z -> option R) :
  (exists j r, for_return n i (fun k (_ : unit) => Some (match p k with Some r => inr r | None => inl tt end))
       tt = Some (inr r) /\ i <= j < i + Z.of_nat n /\ p j = Some r /\
       forall k, i <= k < j -> p k = None) \/
  (for_return n i (fun k (_ : unit) => Some (match p k with Some r => inr r | None => inl tt end)) tt
     = Some (inl tt) /\ forall k, i <= k < i + Z.of_nat n -> p k = None).
Proof.
  revert i. induction n as [|n IH]; intros i; cbn [for_return mbind option_bind].
  - right. split; [done|lia].
  - destruct (p i) as [r|] eqn:E.
    + left. exists i, r. split; [done|]. split; [lia|]. split; [done|lia].
    + destruct (IH (i + 1)) as [(j & r & E1 & Hj & Hp & Hk)|[E1 Hk]].
      * left. exists j, r. split; [done|]. split; [lia|]. split; [done|]. intros k Hk'.
        destruct (decide (k = i)) as [->|]; [done|apply Hk; lia].
      * right. split; [done|]. intros k Hk'. destruct (decide (k = i)) as [->|]; [done|apply Hk; lia].
Qed.

Lemma for_return_ext {S R} n i (f g : Z -> S -> option (S + R)) s :
  (forall k s, i <= k < i + Z.of_nat n -> f k s = g k s) -> for_return n i f s = for_return n i g s.
Proof.
  revert i s. induction n as [|n IH]; intros i s H; cbn [for_return]; [done|].
  rewrite H by lia. destruct (g i s) as [[s'|r]|]; cbn [mbind option_bind]; [|done..].
  apply IH. intros k s0 Hk. apply H. lia.
Qed.

Lemma zset_Some {A} (l : list A) i x : 0 <= i < zlen l -> is_Some (zset l i x).
Proof. intros H. rewrite zset_zupd. by apply zupd_Some. Qed.

Lemma zget_zset {A} (l l' : list A) i x j :
  zset l i x = Some l' -> zget l' j = if decide (j = i) then Some x else zget l j.
Proof.
  intros E. pose proof E as E'. rewrite zset_zupd in E. rewrite (zget_zupd _ _ _ _ _ E).
  case_decide as H; [subst|done]. unfold zset in E'. by destruct (zget l i).
Qed.

Lemma zset_length {A} (l l' : list A) i x : zset l i x = Some l' -> zlen l' = zlen l.
Proof. rewrite zset_zupd. apply zupd_length. Qed.

(** ** Regions held by a client of an allocator: pointer and size *)

Definition no_overlap (x y : Z * Z) : Prop := x.1 + x.2 <= y.1 \/ y.1 + y.2 <= x.1.

Definition drop_held (p : Z) (held : list (Z * Z)) : list (Z * Z) := filter (fun x => x.1 ≠ p) held.

Lemma drop_held_elem p held x : x ∈ drop_held p held <-> x ∈ held /\ x.1 ≠ p.
Proof. unfold drop_held. rewrite list_elem_of_filter. tauto. Qed.

Lemma drop_held_nodup p held : NoDup held.*1 -> NoDup (drop_held p held).*1.
Proof.
  unfold drop_held. induction held as [|[q n] held IH]; intros Hnd; [done|]. rewrite fmap_cons in Hnd.
  apply NoDup_cons in Hnd as [Hq Hnd]. rewrite filter_cons. case_decide; [|by apply IH].
  rewrite fmap_cons. constructor; [|by apply IH]. intros (x & E & Hx)%list_elem_of_fmap.
  apply list_elem_of_filter in Hx as [_ Hx]. apply Hq. apply list_elem_of_fmap. by exists x.
Qed.

(** ** Sums over lists *)

Section counting.
Context {A : Type} (w : A -> nat).

Fixpoint tally (l : list A) : nat := match l with [] => 0%nat | x :: l' => (w x + tally l')%nat end.

Lemma tally_insert l i x y : l !! i = Some x -> (tally (<[i := y]> l) + w x = tally l + w y)%nat.
Proof using.
  revert i. induction l as [|a l IH]; intros [|i] H; [done|done|injection H as ->; cbn; lia|].
  specialize (IH i H). change (<[S i := y]> (a :: l)) with (a :: <[i := y]> l). cbn [tally]. lia.
Qed.
End counting.
