(* ===== verification/Defs.v ===== *)
(** * Constants and macros (kernel/include/ocean/defs.h, pmm.h)

    Page sizes, alignment macros, bit macros and the conversions between physical addresses and
    page frame numbers, at the 64-bit width of the C expressions. *)
From S2P Require Import Prelude.

(** ** The code *)

Definition PAGE_SHIFT : Z := 12.
Definition PAGE_SIZE : Z := Z.shiftl 1 PAGE_SHIFT.

Definition ALIGN_UP (x a : Z) : Z := Z.land (u64 (x + (a - 1))) (lnotw 64 (a - 1)).
Definition ALIGN_DOWN (x a : Z) : Z := Z.land x (lnotw 64 (a - 1)).
Definition IS_ALIGNED (x a : Z) : bool := Z.land x (a - 1) =? 0.

Definition PAGE_ALIGN (x : Z) : Z := ALIGN_UP x PAGE_SIZE.
Definition PAGE_ALIGN_DOWN (x : Z) : Z := ALIGN_DOWN x PAGE_SIZE.

Definition BIT (n : Z) : Z := u64 (Z.shiftl 1 n).
Definition SET_BIT (x n : Z) : Z := Z.lor x (BIT n).
Definition CLEAR_BIT (x n : Z) : Z := Z.land x (lnotw 64 (BIT n)).
Definition TEST_BIT (x n : Z) : bool := ztrue (Z.land x (BIT n)).

Definition PFN_TO_PHYS (pfn : Z) : Z := u64 (Z.shiftl pfn PAGE_SHIFT).
Definition PHYS_TO_PFN (phys : Z) : Z := Z.shiftr phys PAGE_SHIFT.

(** Error codes returned by the kernel's functions. *)
Definition EPERM := 1.
Definition ENOENT := 2.
Definition ESRCH := 3.
Definition EBADF := 9.
Definition ECHILD := 10.
Definition ENOMEM := 12.
Definition EFAULT := 14.
Definition EINVAL := 22.
Definition EMFILE := 24.
Definition ENAMETOOLONG := 36.
Definition ENOSYS := 38.

(** ** Alignment *)

Lemma PAGE_SIZE_val : PAGE_SIZE = 4096.
Proof. done. Qed.

Lemma ALIGN_DOWN_spec x k :
  0 <= k <= 64 -> fits 64 x -> ALIGN_DOWN x (2 ^ k) = x - x mod 2 ^ k.
Proof. intros Hk Hx. apply land_lnotw_ones; [lia|done]. Qed.

(** Rounding up, while the sum does not leave 64 bits. *)
Lemma ALIGN_UP_spec x k :
  0 <= k <= 64 -> 0 <= x -> x + (2 ^ k - 1) < 2 ^ 64 ->
  ALIGN_UP x (2 ^ k) = x + (2 ^ k - 1) - (x + (2 ^ k - 1)) mod 2 ^ k.
Proof.
  intros Hk Hx Hb. assert (0 < 2 ^ k) by (apply Z.pow_pos_nonneg; lia).
  unfold ALIGN_UP. rewrite u64_small by lia. apply land_lnotw_ones; [lia|]. unfold fits. lia.
Qed.

Lemma PAGE_ALIGN_DOWN_spec x : fits 64 x -> PAGE_ALIGN_DOWN x = x - x mod 4096.
Proof. intros Hx. apply (ALIGN_DOWN_spec x 12); [lia|done]. Qed.

Lemma PAGE_ALIGN_spec x :
  0 <= x -> x + 4095 < 2 ^ 64 -> PAGE_ALIGN x = x + 4095 - (x + 4095) mod 4096.
Proof. intros Hx Hb. apply (ALIGN_UP_spec x 12); lia. Qed.

Lemma PHYS_TO_PFN_div x : PHYS_TO_PFN x = x / 4096.
Proof. unfold PHYS_TO_PFN, PAGE_SHIFT. by rewrite Z.shiftr_div_pow2. Qed.

Lemma PFN_TO_PHYS_mul p : 0 <= p < 2 ^ 52 -> PFN_TO_PHYS p = p * 4096.
Proof.
  intros Hp. unfold PFN_TO_PHYS, PAGE_SHIFT. rewrite Z.shiftl_mul_pow2 by lia.
  rewrite u64_small; lia.
Qed.

Lemma pfn_down x : fits 64 x -> PHYS_TO_PFN (PAGE_ALIGN_DOWN x) = x / 4096.
Proof. intros Hx. rewrite PHYS_TO_PFN_div, PAGE_ALIGN_DOWN_spec by done. divlia. Qed.

Lemma pfn_up x : 0 <= x -> x + 4095 < 2 ^ 64 -> PHYS_TO_PFN (PAGE_ALIGN x) = (x + 4095) / 4096.
Proof. intros Hx Hb. rewrite PHYS_TO_PFN_div, PAGE_ALIGN_spec by done. divlia. Qed.
