(* ===== verification/ListHead.v ===== *)
(** * Circular doubly-linked lists (kernel/include/ocean/list.h)

    The heap of [struct list_head] nodes is a finite map from addresses to the two pointers of a
    node.  Every function of list.h is the sequence of pointer writes the C code performs; an
    access through an address where no node lives fails.  [is_list h hd xs] is the abstraction:
    the ring anchored at the head [hd] carries the entries [xs], in order.  The theorems show
    that each operation implements the corresponding operation on sequences and leaves every
    node that is not an argument or a neighbour untouched; the other components of the
    development use lists at that level. *)
From S2P Require Import Prelude.

(** ** The code *)

Record list_head := mk_node { next : Z; prev : Z }.

Abbreviation heap := (gmap Z list_head).

Definition NULL : Z := 0.

Definition get_next (h : heap) (p : Z) : option Z := next <$> h !! p.
Definition get_prev (h : heap) (p : Z) : option Z := prev <$> h !! p.

Definition set_next (h : heap) (p v : Z) : option heap :=
  n ← h !! p; Some (<[p := mk_node v (prev n)]> h).
Definition set_prev (h : heap) (p v : Z) : option heap :=
  n ← h !! p; Some (<[p := mk_node (next n) v]> h).

Definition INIT_LIST_HEAD (h : heap) (list : Z) : option heap :=
  h ← set_next h list list;
  set_prev h list list.

Definition __list_add (h : heap) (new prev next : Z) : option heap :=
  h ← set_prev h next new;
  h ← set_next h new next;
  h ← set_prev h new prev;
  set_next h prev new.

Definition list_add (h : heap) (new head : Z) : option heap :=
  n ← get_next h head;
  __list_add h new head n.

Definition list_add_tail (h : heap) (new head : Z) : option heap :=
  p ← get_prev h head;
  __list_add h new p head.

Definition __list_del (h : heap) (prev next : Z) : option heap :=
  h ← set_prev h next prev;
  set_next h prev next.

Definition list_del (h : heap) (entry : Z) : option heap :=
  p ← get_prev h entry;
  n ← get_next h entry;
  h ← __list_del h p n;
  h ← set_next h entry NULL;
  set_prev h entry NULL.

Definition list_del_init (h : heap) (entry : Z) : option heap :=
  p ← get_prev h entry;
  n ← get_next h entry;
  h ← __list_del h p n;
  INIT_LIST_HEAD h entry.

Definition list_replace (h : heap) (old new : Z) : option heap :=
  n ← get_next h old;
  h ← set_next h new n;
  n ← get_next h new;
  h ← set_prev h n new;
  p ← get_prev h old;
  h ← set_prev h new p;
  p ← get_prev h new;
  set_next h p new.

Definition list_replace_init (h : heap) (old new : Z) : option heap :=
  h ← list_replace h old new;
  INIT_LIST_HEAD h old.

Definition list_move (h : heap) (list head : Z) : option heap :=
  p ← get_prev h list;
  n ← get_next h list;
  h ← __list_del h p n;
  list_add h list head.

Definition list_move_tail (h : heap) (list head : Z) : option heap :=
  p ← get_prev h list;
  n ← get_next h list;
  h ← __list_del h p n;
  list_add_tail h list head.

Definition list_empty (h : heap) (head : Z) : option bool :=
  n ← get_next h head;
  Some (n =? head).

Definition list_is_singular (h : heap) (head : Z) : option bool :=
  e ← list_empty h head;
  n ← get_next h head;
  p ← get_prev h head;
  Some (negb e && (n =? p)).

Definition list_first_entry_or_null (h : heap) (ptr : Z) : option Z :=
  pos ← get_next h ptr;
  Some (if pos =? ptr then NULL else pos).

(** [list_for_each (pos, head) acc := pos :: acc]: the entries a traversal visits, with fuel for
    the number of steps. *)
Fixpoint list_for_each_from (fuel : nat) (h : heap) (pos head : Z) : option (list Z) :=
  if decide (pos = head) then Some [] else
  match fuel with
  | O => None
  | S fuel' =>
      n ← get_next h pos;
      rest ← list_for_each_from fuel' h n head;
      Some (pos :: rest)
  end.

Definition list_for_each (fuel : nat) (h : heap) (head : Z) : option (list Z) :=
  pos ← get_next h head;
  list_for_each_from fuel h pos head.

(** [list_for_each_entry_reverse]: the same traversal through the [prev] pointers. *)
Fixpoint list_for_each_rev_from (fuel : nat) (h : heap) (pos head : Z) : option (list Z) :=
  if decide (pos = head) then Some [] else
  match fuel with
  | O => None
  | S fuel' =>
      p ← get_prev h pos;
      rest ← list_for_each_rev_from fuel' h p head;
      Some (pos :: rest)
  end.

Definition list_for_each_reverse (fuel : nat) (h : heap) (head : Z) : option (list Z) :=
  pos ← get_prev h head;
  list_for_each_rev_from fuel h pos head.

(** ** The abstraction *)

(** [b] follows [a]. *)
Definition link (h : heap) (a b : Z) : Prop := get_next h a = Some b /\ get_prev h b = Some a.

(** Consecutive nodes of [l] are linked. *)
Fixpoint path (h : heap) (l : list Z) : Prop :=
  match l with
  | a :: ((b :: _) as t) => link h a b /\ path h t
  | _ => True
  end.

(** The ring at [hd] carries [xs]. *)
Definition is_list (h : heap) (hd : Z) (xs : list Z) : Prop :=
  NoDup (hd :: xs) /\ path h (hd :: xs ++ [hd]).

(** Nodes outside [l] are the same in both heaps. *)
Definition frame (h h' : heap) (l : list Z) : Prop := forall x, x ∉ l -> h' !! x = h !! x.

(** ** Pointer writes *)

Lemma set_next_ok h p v :
  is_Some (h !! p) ->
  exists h', set_next h p v = Some h' /\
    (forall x, get_next h' x = if decide (x = p) then Some v else get_next h x) /\
    (forall x, get_prev h' x = get_prev h x) /\ frame h h' [p].
Proof.
  intros [n Hn]. unfold set_next. rewrite Hn. simpl. eexists. split; [done|].
  unfold get_next, get_prev, frame. repeat split; intros x.
  - rewrite lookup_insert. repeat case_decide; congruence || done.
  - rewrite lookup_insert. case_decide as E; [subst; by rewrite Hn|done].
  - intros Hx. rewrite lookup_insert_ne; set_solver.
Qed.

Lemma set_prev_ok h p v :
  is_Some (h !! p) ->
  exists h', set_prev h p v = Some h' /\
    (forall x, get_prev h' x = if decide (x = p) then Some v else get_prev h x) /\
    (forall x, get_next h' x = get_next h x) /\ frame h h' [p].
Proof.
  intros [n Hn]. unfold set_prev. rewrite Hn. simpl. eexists. split; [done|].
  unfold get_next, get_prev, frame. repeat split; intros x.
  - rewrite lookup_insert. repeat case_decide; congruence || done.
  - rewrite lookup_insert. case_decide as E; [subst; by rewrite Hn|done].
  - intros Hx. rewrite lookup_insert_ne; set_solver.
Qed.

Lemma next_alive h p : is_Some (get_next h p) <-> is_Some (h !! p).
Proof. unfold get_next. by rewrite fmap_is_Some. Qed.

Lemma prev_alive h p : is_Some (get_prev h p) <-> is_Some (h !! p).
Proof. unfold get_prev. by rewrite fmap_is_Some. Qed.

Lemma link_alive h a b : link h a b -> is_Some (h !! a) /\ is_Some (h !! b).
Proof. intros [H1 H2]. split; [apply next_alive|apply prev_alive]; eauto. Qed.

(** The nodes of [removelast l] are nodes of [l]. *)
Lemma removelast_subset (l : list Z) : removelast l ⊆ l.
Proof. induction l as [|a [|b l] IH]; [set_solver..|]. simpl in *. set_solver. Qed.

(** ** Paths *)

Lemma path_app h l1 a b l2 :
  path h (l1 ++ a :: b :: l2) <-> path h (l1 ++ [a]) /\ link h a b /\ path h (b :: l2).
Proof.
  induction l1 as [|x l1 IH]; [simpl; tauto|].
  destruct l1 as [|y l1]; [simpl; simpl in IH; tauto|].
  change (path h ((x :: y :: l1) ++ a :: b :: l2))
    with (link h x y /\ path h ((y :: l1) ++ a :: b :: l2)).
  change (path h ((x :: y :: l1) ++ [a])) with (link h x y /\ path h ((y :: l1) ++ [a])).
  tauto.
Qed.

(** A path depends on the [next] of all but its last node, the [prev] of all but its first. *)
Lemma path_ext h h' l :
  (forall x, x ∈ removelast l -> get_next h' x = get_next h x) ->
  (forall x, x ∈ tail l -> get_prev h' x = get_prev h x) ->
  path h l -> path h' l.
Proof.
  induction l as [|a [|b l] IH]; [done..|]. intros Hn Hp [[H1 H2] Hr]. split.
  - split; [rewrite Hn|rewrite Hp]; [done|simpl; set_solver|done|simpl; set_solver].
  - apply IH; [| |done].
    + intros x Hx. apply Hn. simpl. simpl in Hx. set_solver.
    + intros x Hx. apply Hp. simpl. simpl in Hx. set_solver.
Qed.

(** ** Rings

    Around a gap between [xs] and [ys], the last node [a] of [hd :: xs] is linked to the first
    node [b] of [ys ++ [hd]]. *)

Definition gap (hd : Z) (xs ys l1 : list Z) (a b : Z) (l2 : list Z) : Prop :=
  hd :: xs = l1 ++ [a] /\ ys ++ [hd] = b :: l2.

Lemma gap_exists hd xs ys : exists l1 a b l2, gap hd xs ys l1 a b l2.
Proof.
  destruct (exists_last (l := hd :: xs) ltac:(done)) as (l1 & a & E1).
  destruct (ys ++ [hd]) as [|b l2] eqn:E2; [by destruct ys|].
  exists l1, a, b, l2. done.
Qed.

Lemma gap_path h hd xs ys l1 a b l2 :
  gap hd xs ys l1 a b l2 ->
  (path h (hd :: (xs ++ ys) ++ [hd]) <->
   path h (hd :: xs) /\ link h a b /\ path h (ys ++ [hd])).
Proof.
  intros [E1 E2]. rewrite E1, E2, <- path_app.
  replace (hd :: (xs ++ ys) ++ [hd]) with (l1 ++ a :: b :: l2); [done|].
  rewrite <- app_assoc, E2, app_comm_cons, E1, <- app_assoc. done.
Qed.

(** Distinctness of the ends of the gap from everything a path on either side depends on. *)
Lemma gap_fresh hd xs ys l1 a b l2 :
  gap hd xs ys l1 a b l2 -> NoDup (hd :: xs ++ ys) ->
  (a ∉ removelast (hd :: xs) /\ a ∉ removelast (ys ++ [hd])) /\
  (b ∉ tail (hd :: xs) /\ b ∉ tail (ys ++ [hd])) /\
  a ∈ hd :: xs /\ b ∈ ys ++ [hd].
Proof.
  intros [E1 E2] Hnd.
  assert (a ∈ hd :: xs) as Ha by (rewrite E1; set_solver).
  assert (b ∈ ys ++ [hd]) as Hb by (rewrite E2; set_solver).
  rewrite removelast_last. rewrite app_comm_cons in Hnd.
  apply NoDup_app in Hnd as (Hn1 & Hd & Hn2).
  assert (NoDup (ys ++ [hd])) as Hn3.
  { apply NoDup_app. repeat split; [done| |apply NoDup_singleton]. set_solver. }
  split; [split|split; [split|done]].
  - rewrite E1, removelast_last. rewrite E1 in Hn1. apply NoDup_app in Hn1. set_solver.
  - by apply Hd.
  - simpl. apply NoDup_cons in Hn1 as [Hh _]. set_solver.
  - rewrite E2. simpl. rewrite E2 in Hn3. by apply NoDup_cons in Hn3 as [? _].
Qed.

(** Relinking the ends of a gap, when no other pointer the ring depends on has changed. *)
Lemma gap_relink h h' hd xs ys l1 a b l2 :
  gap hd xs ys l1 a b l2 -> NoDup (hd :: xs ++ ys) ->
  path h (hd :: xs) -> path h (ys ++ [hd]) -> link h' a b ->
  (forall x, x ∈ hd :: xs ++ ys -> x ≠ a -> get_next h' x = get_next h x) ->
  (forall x, x ∈ hd :: xs ++ ys -> x ≠ b -> get_prev h' x = get_prev h x) ->
  is_list h' hd (xs ++ ys).
Proof.
  intros Hg Hnd Hp1 Hp2 Hl Hn Hp. split; [done|].
  destruct (gap_fresh _ _ _ _ _ _ _ Hg Hnd) as ((Ha1 & Ha2) & (Hb1 & Hb2) & _).
  apply (gap_path h' _ _ _ _ _ _ _ Hg). split; [|split; [done|]].
  - apply (path_ext h); [| |done].
    + intros x Hx. apply Hn; [|by intros ->].
      pose proof (removelast_subset (hd :: xs)). set_solver.
    + intros x Hx. apply Hp; [|by intros ->]. simpl in Hx. set_solver.
  - apply (path_ext h); [| |done].
    + intros x Hx. apply Hn; [|by intros ->]. rewrite removelast_last in Hx. set_solver.
    + intros x Hx. apply Hp; [|by intros ->].
      assert (tail (ys ++ [hd]) ⊆ ys ++ [hd]) by (destruct ys; set_solver). set_solver.
Qed.

(** ** What each operation does to the sequence *)

Lemma path_alive h l a : path h l -> a ∈ l -> (1 < length l)%nat -> is_Some (h !! a).
Proof.
  induction l as [|x [|y l] IH]; simpl; [lia..|]. intros [Hl Hp] Ha _.
  destruct (link_alive _ _ _ Hl) as [Hx Hy].
  apply elem_of_cons in Ha as [->|Ha]; [done|].
  destruct l as [|z l]; [|apply IH; [done|done|simpl; lia]].
  apply list_elem_of_singleton in Ha as ->. done.
Qed.

Lemma list_alive h hd xs a : is_list h hd xs -> a ∈ hd :: xs -> is_Some (h !! a).
Proof.
  intros [_ Hp] Ha. apply (path_alive _ _ _ Hp); [set_solver|].
  simpl. rewrite length_app. simpl. lia.
Qed.

Ltac heap_solve :=
  repeat match goal with
  | H : forall x, get_next ?h x = _ |- context [get_next ?h _] => rewrite H
  | H : forall x, get_prev ?h x = _ |- context [get_prev ?h _] => rewrite H
  end; repeat case_decide; try done; try congruence.

(** Inserting [new] into a gap of the ring. *)
Lemma list_add_core h hd xs ys l1 a b l2 new :
  gap hd xs ys l1 a b l2 -> is_list h hd (xs ++ ys) ->
  new ∉ hd :: xs ++ ys -> is_Some (h !! new) ->
  exists h', __list_add h new a b = Some h' /\ is_list h' hd (xs ++ new :: ys) /\
    frame h h' [new; a; b].
Proof.
  intros Hg Hl Hnew Hsome. pose proof Hl as [Hnd Hp].
  destruct (gap_fresh _ _ _ _ _ _ _ Hg Hnd) as ((Ha1 & Ha2) & (Hb1 & Hb2) & Ha & Hb).
  apply (gap_path h _ _ _ _ _ _ _ Hg) in Hp as (Hp1 & [Hab Hba] & Hp2).
  assert (a ≠ new) by (intros ->; set_solver).
  assert (b ≠ new) by (intros ->; set_solver).
  unfold __list_add.
  destruct (set_prev_ok h b new) as (h1 & -> & P1 & N1 & F1); [apply prev_alive; eauto|].
  simpl. destruct (set_next_ok h1 new b) as (h2 & -> & N2 & P2 & F2).
  { rewrite F1 by set_solver. done. }
  simpl. destruct (set_prev_ok h2 new a) as (h3 & -> & P3 & N3 & F3).
  { apply next_alive. rewrite N2, decide_True by done. eauto. }
  simpl. destruct (set_next_ok h3 a new) as (h4 & -> & N4 & P4 & F4).
  { apply next_alive. rewrite N3, N2, N1. case_decide; [done|]. eauto. }
  exists h4. split; [done|]. split.
  2: { intros x Hx. rewrite F4, F3, F2, F1 by set_solver. done. }
  destruct (gap_exists hd (xs ++ [new]) ys) as (m1 & c & d & m2 & Hg').
  destruct Hg as [E1 E2]. destruct (id Hg') as [F5 F6].
  rewrite E2 in F6. injection F6 as <- <-.
  rewrite app_comm_cons, E1 in F5. apply app_inj_tail in F5 as [<- <-].
  replace (xs ++ new :: ys) with ((xs ++ [new]) ++ ys) by (by rewrite <- app_assoc).
  split.
  { rewrite <- app_assoc. simpl. rewrite app_comm_cons. rewrite app_comm_cons in Hnd, Hnew.
    apply NoDup_app in Hnd as (? & ? & ?). apply NoDup_app. split; [done|].
    split; [set_solver|]. apply NoDup_cons. set_solver. }
  apply (gap_path h4 _ _ _ _ _ _ _ Hg'). split; [|split].
  - rewrite app_comm_cons, E1, <- app_assoc. apply path_app.
    split; [|split; [split|done]]; [|heap_solve..]. rewrite <- E1.
    apply (path_ext h); [| |done].
    + intros x Hx. pose proof (removelast_subset (hd :: xs)). heap_solve; set_solver.
    + intros x Hx. simpl in Hx. heap_solve; set_solver.
  - split; heap_solve.
  - apply (path_ext h); [| |done].
    + intros x Hx. rewrite removelast_last in Hx, Ha2. heap_solve; set_solver.
    + intros x Hx. assert (tail (ys ++ [hd]) ⊆ ys ++ [hd]) by (destruct ys; set_solver).
      heap_solve; set_solver.
Qed.

(** Taking [e] out: its neighbours become adjacent, and nothing else changes. *)
Lemma list_del_core h hd xs ys e p n :
  is_list h hd (xs ++ e :: ys) -> get_prev h e = Some p -> get_next h e = Some n ->
  exists h', __list_del h p n = Some h' /\ is_list h' hd (xs ++ ys) /\
    frame h h' [p; n] /\ e ≠ p /\ e ≠ n /\ p ∈ hd :: xs ++ ys /\ n ∈ hd :: xs ++ ys.
Proof.
  intros Hl Hpe Hne. pose proof Hl as [Hnd Hp].
  destruct (gap_exists hd xs ys) as (l1 & a & b & l2 & Hg).
  assert (NoDup (hd :: xs ++ ys) /\ e ∉ hd :: xs ++ ys) as [Hnd' He].
  { rewrite app_comm_cons in Hnd |- *. apply NoDup_app in Hnd as (H1 & H2 & H3).
    apply NoDup_cons in H3 as [H3 H4]. split; [apply NoDup_app; set_solver|set_solver]. }
  destruct (gap_fresh _ _ _ _ _ _ _ Hg Hnd') as ((Ha1 & Ha2) & (Hb1 & Hb2) & Ha & Hb).
  assert (path h (hd :: xs) /\ link h a e /\ link h e b /\ path h (ys ++ [hd]))
    as (Hp1 & [Hae Hea] & [Heb Hbe] & Hp2).
  { destruct Hg as [E1 E2]. rewrite E1, E2.
    replace (hd :: (xs ++ e :: ys) ++ [hd]) with (l1 ++ a :: e :: b :: l2) in Hp.
    2: { rewrite <- app_assoc, app_comm_cons, E1. simpl. rewrite E2, <- app_assoc. done. }
    apply path_app in Hp as (? & ? & [? ?]). done. }
  simplify_eq.
  unfold __list_del.
  destruct (set_prev_ok h n p) as (h1 & -> & P1 & N1 & F1); [apply prev_alive; eauto|].
  simpl. destruct (set_next_ok h1 p n) as (h2 & -> & N2 & P2 & F2).
  { apply next_alive. rewrite N1. eauto. }
  exists h2. split; [done|]. split; [|split; [|set_solver]].
  - apply (gap_relink h h2 _ _ _ _ _ _ _ Hg); [done..|split; heap_solve| |];
      intros x Hx Hne'; heap_solve.
  - intros x Hx. rewrite F2, F1 by set_solver. done.
Qed.

(** A ring none of whose nodes is written stays as it is. *)
Lemma frame_list h h' l hd ys :
  frame h h' l -> (forall x, x ∈ hd :: ys -> x ∉ l) -> is_list h hd ys -> is_list h' hd ys.
Proof.
  intros Hf Hd [Hnd Hp]. split; [done|].
  apply (path_ext h); [| |done]; intros x Hx; unfold get_next, get_prev; rewrite Hf; try done;
    apply Hd.
  - pose proof (removelast_subset (hd :: ys ++ [hd])). set_solver.
  - simpl in Hx. set_solver.
Qed.

Lemma init_list_ok h l :
  is_Some (h !! l) ->
  exists h', INIT_LIST_HEAD h l = Some h' /\ is_list h' l [] /\ frame h h' [l].
Proof.
  intros Hl. unfold INIT_LIST_HEAD.
  destruct (set_next_ok h l l) as (h1 & -> & N1 & P1 & F1); [done|].
  simpl. destruct (set_prev_ok h1 l l) as (h2 & -> & P2 & N2 & F2).
  { apply next_alive. rewrite N1, decide_True by done. eauto. }
  exists h2. split; [done|]. split.
  - split; [apply NoDup_singleton|]. split; [split; heap_solve|done].
  - intros x Hx. by rewrite F2, F1.
Qed.

(** The pointers of the head itself. *)
Lemma head_next h hd xs : is_list h hd xs -> get_next h hd = Some (default hd (head xs)).
Proof. intros [_ Hp]. destruct xs as [|x xs]; simpl in Hp; by destruct Hp as [[? _] _]. Qed.

Lemma head_prev h hd xs : is_list h hd xs -> get_prev h hd = Some (default hd (last xs)).
Proof.
  intros [_ Hp]. destruct (gap_exists hd xs []) as (l1 & a & b & l2 & Hg).
  rewrite <- (app_nil_r xs) in Hp. apply (gap_path h _ _ _ _ _ _ _ Hg) in Hp as (_ & [_ H] & _).
  destruct Hg as [E1 [= -> _]]. rewrite H. f_equal.
  apply (f_equal last) in E1. rewrite last_snoc, last_cons in E1.
  destruct (last xs); by injection E1.
Qed.

Lemma list_add_ok h hd xs new :
  is_list h hd xs -> new ∉ hd :: xs -> is_Some (h !! new) ->
  exists h', list_add h new hd = Some h' /\ is_list h' hd (new :: xs) /\
    frame h h' (new :: hd :: xs).
Proof.
  intros Hl Hn Hs. unfold list_add. rewrite (head_next _ _ _ Hl). simpl.
  assert (gap hd [] xs [] hd (default hd (head xs)) (tail (xs ++ [hd]))) as Hg.
  { split; [done|]. by destruct xs. }
  destruct (list_add_core h hd [] xs _ _ _ _ new Hg) as (h' & E & Hl' & Hf); [done..|].
  exists h'. split; [done|]. split; [done|]. intros x Hx. apply Hf.
  destruct xs; simpl in *; set_solver.
Qed.

Lemma list_add_tail_ok h hd xs new :
  is_list h hd xs -> new ∉ hd :: xs -> is_Some (h !! new) ->
  exists h', list_add_tail h new hd = Some h' /\ is_list h' hd (xs ++ [new]) /\
    frame h h' (new :: hd :: xs).
Proof.
  intros Hl Hn Hs. unfold list_add_tail. rewrite (head_prev _ _ _ Hl). simpl.
  destruct (gap_exists hd xs []) as (l1 & a & b & l2 & Hg).
  assert (a = default hd (last xs)) as Ea.
  { destruct Hg as [E1 _]. apply (f_equal last) in E1. rewrite last_snoc, last_cons in E1.
    destruct (last xs); by injection E1. }
  destruct (id Hg) as [E1 [= <- _]].
  assert (a ∈ hd :: xs) by (rewrite E1; set_solver).
  destruct (list_add_core h hd xs [] _ _ _ _ new Hg) as (h' & E & Hl' & Hf);
    [by rewrite app_nil_r|by rewrite app_nil_r|done|].
  rewrite <- Ea. exists h'. split; [done|]. split; [done|].
  intros x Hx. apply Hf. set_solver.
Qed.

(** [list_add] pushes the entry in front of the sequence and [list_add_tail] behind it;
    neither touches a ring that shares no node with the one it works on. *)
Theorem list_add_refines h hd xs new hd' ys :
  is_list h hd xs -> is_list h hd' ys -> new ∉ hd :: xs -> is_Some (h !! new) ->
  (forall x, x ∈ hd' :: ys -> x ∉ new :: hd :: xs) ->
  (exists h', list_add h new hd = Some h' /\ is_list h' hd (new :: xs) /\ is_list h' hd' ys) /\
  (exists h', list_add_tail h new hd = Some h' /\ is_list h' hd (xs ++ [new]) /\
     is_list h' hd' ys).
Proof.
  intros Hl Hl' Hn Hs Hd.
  destruct (list_add_ok h hd xs new Hl Hn Hs) as (h1 & E1 & L1 & F1).
  destruct (list_add_tail_ok h hd xs new Hl Hn Hs) as (h2 & E2 & L2 & F2).
  split; [exists h1|exists h2]; split; [done| |done|]; split; try done;
    by eapply frame_list.
Qed.

(** [list_del] and [list_del_init] remove exactly the given entry, wherever it stands in
    the sequence, and keep the order of the others; [list_del_init] leaves the entry as an empty
    ring, on which [list_empty] answers true, while [list_del] poisons both its pointers with
    NULL. *)
Theorem list_del_refines h hd xs e ys :
  is_list h hd (xs ++ e :: ys) ->
  (exists h', list_del_init h e = Some h' /\ is_list h' hd (xs ++ ys) /\ is_list h' e [] /\
     list_empty h' e = Some true) /\
  (exists h', list_del h e = Some h' /\ is_list h' hd (xs ++ ys) /\
     h' !! e = Some (mk_node NULL NULL)).
Proof.
  intros Hl.
  destruct (list_alive _ _ _ e Hl) as [[n p] He]; [set_solver|].
  assert (get_next h e = Some n) as Hn by (unfold get_next; by rewrite He).
  assert (get_prev h e = Some p) as Hp by (unfold get_prev; by rewrite He).
  destruct (list_del_core _ _ _ _ _ _ _ Hl Hp Hn) as (h1 & E1 & L1 & F1 & Hep & Hen & Hpi & Hni).
  assert (is_Some (h1 !! e)) as Hs by (rewrite F1, He by set_solver; eauto).
  assert (e ∉ hd :: xs ++ ys) as Hout.
  { destruct Hl as [Hnd _]. rewrite app_comm_cons in Hnd. apply NoDup_app in Hnd as (_ & H1 & H2).
    apply NoDup_cons in H2 as [H2 _]. set_solver. }
  unfold list_del_init, list_del. rewrite Hn, Hp. simpl. rewrite E1. simpl. split.
  - destruct (init_list_ok h1 e Hs) as (h2 & E2 & L2 & F2). exists h2. rewrite E2.
    split; [done|]. split; [|split; [done|]].
    + eapply frame_list; [done| |done]. set_solver.
    + unfold list_empty. rewrite (head_next _ _ _ L2). simpl. by rewrite Z.eqb_refl.
  - destruct (set_next_ok h1 e NULL Hs) as (h2 & -> & N2 & P2 & F2). simpl.
    destruct (set_prev_ok h2 e NULL) as (h3 & -> & P3 & N3 & F3).
    { apply next_alive. rewrite N2, decide_True by done. eauto. }
    exists h3. split; [done|]. split.
    + eapply (frame_list h1); [|exact (fun x Hx => ltac:(set_solver) : x ∉ [e])|done].
      intros x Hx. by rewrite F3, F2.
    + specialize (N3 e). specialize (P3 e). rewrite N2, decide_True in N3 by done.
      rewrite decide_True in P3 by done. unfold get_next, get_prev in N3, P3.
      destruct (h3 !! e) as [[]|]; naive_solver.
Qed.

Lemma for_each_from_ok h hd xs a fuel :
  path h (a :: xs ++ [hd]) -> hd ∉ xs -> (length xs <= fuel)%nat ->
  exists n, get_next h a = Some n /\ list_for_each_from fuel h n hd = Some xs.
Proof.
  revert a fuel. induction xs as [|x xs IH]; intros a fuel Hp Hd Hf.
  - destruct Hp as [[Hn _] _]. exists hd. split; [done|].
    destruct fuel; simpl; by rewrite decide_True.
  - destruct Hp as [[Hn _] Hp]. exists x. split; [done|]. destruct fuel as [|fuel]; simpl in *; [lia|].
    rewrite decide_False by set_solver.
    destruct (IH x fuel) as (n & -> & Hl); [done|set_solver|lia|]. simpl. by rewrite Hl.
Qed.

Lemma for_each_rev_from_ok h hd xs b fuel :
  path h (hd :: xs ++ [b]) -> hd ∉ xs -> (length xs <= fuel)%nat ->
  exists p, get_prev h b = Some p /\ list_for_each_rev_from fuel h p hd = Some (reverse xs).
Proof.
  revert b fuel. induction xs as [|x xs IH] using rev_ind; intros b fuel Hp Hd Hf.
  - destruct Hp as [[_ Hb] _]. exists hd. split; [done|].
    destruct fuel; simpl; by rewrite decide_True.
  - rewrite length_app in Hf. simpl in Hf. destruct fuel as [|fuel]; [lia|].
    rewrite <- app_assoc, app_comm_cons in Hp.
    apply (path_app h (hd :: xs) x b []) in Hp as (Hp & [_ Hb] & _).
    exists x. split; [done|]. simpl. rewrite decide_False by set_solver.
    destruct (IH x fuel) as (n & -> & Hl); [done|set_solver|lia|]. simpl. rewrite Hl. simpl.
    by rewrite reverse_snoc.
Qed.

(** On a well-formed ring the traversal macros terminate after one step per entry and visit
    exactly the entries, in order (in reverse order for the reverse traversal); [list_empty],
    [list_is_singular] and [list_first_entry_or_null] answer as the sequence says. *)
Theorem list_traversal_refines h hd xs fuel :
  is_list h hd xs -> (length xs <= fuel)%nat ->
  list_for_each fuel h hd = Some xs /\
  list_for_each_reverse fuel h hd = Some (reverse xs) /\
  list_empty h hd = Some (bool_decide (xs = [])) /\
  list_is_singular h hd = Some (bool_decide (length xs = 1%nat)) /\
  list_first_entry_or_null h hd = Some (default NULL (head xs)).
Proof.
  intros Hl Hf. pose proof Hl as [Hnd Hp]. apply NoDup_cons in Hnd as [Hd Hnd].
  unfold list_for_each, list_for_each_reverse, list_is_singular, list_empty,
    list_first_entry_or_null.
  destruct (for_each_from_ok h hd xs hd fuel) as (n & E1 & L1); [done..|].
  destruct (for_each_rev_from_ok h hd xs hd fuel) as (p & E2 & L2); [done..|].
  rewrite E1, E2. simpl. rewrite L1, L2.
  rewrite (head_next _ _ _ Hl) in E1. rewrite (head_prev _ _ _ Hl) in E2.
  injection E1 as <-. injection E2 as <-. split; [done|]. split; [done|].
  destruct xs as [|x xs]; simpl.
  - by rewrite Z.eqb_refl.
  - assert (x =? hd = false) as -> by (apply Z.eqb_neq; set_solver).
    split; [done|]. split; [|done]. f_equal. simpl. apply eq_bool_prop_intro.
    rewrite bool_decide_spec, Is_true_true, Z.eqb_eq.
    rewrite last_cons. apply NoDup_cons in Hnd as [Hx _].
    destruct xs as [|y xs]; [done|]. split; [|simpl; lia].
    intros E. exfalso. destruct (last (y :: xs)) as [z|] eqn:Ez; [|by apply last_None in Ez].
    simpl in E. subst z.
    apply last_Some_elem_of in Ez. set_solver.
Qed.

(** [list_move] and [list_move_tail] take an entry off one ring and put it at the front or
    at the end of another, keeping the order of both. *)
Theorem list_move_refines h hd xs e ys hd' zs :
  is_list h hd (xs ++ e :: ys) -> is_list h hd' zs ->
  (forall x, x ∈ hd' :: zs -> x ∉ hd :: xs ++ e :: ys) ->
  (exists h', list_move h e hd' = Some h' /\ is_list h' hd (xs ++ ys) /\
     is_list h' hd' (e :: zs)) /\
  (exists h', list_move_tail h e hd' = Some h' /\ is_list h' hd (xs ++ ys) /\
     is_list h' hd' (zs ++ [e])).
Proof.
  intros Hl Hl' Hd.
  destruct (list_alive _ _ _ e Hl) as [[n p] He]; [set_solver|].
  assert (get_next h e = Some n) as Hn by (unfold get_next; by rewrite He).
  assert (get_prev h e = Some p) as Hp by (unfold get_prev; by rewrite He).
  destruct (list_del_core _ _ _ _ _ _ _ Hl Hp Hn) as (h1 & E1 & L1 & F1 & Hep & Hen & Hpi & Hni).
  assert (is_Some (h1 !! e)) as Hs by (rewrite F1, He by set_solver; eauto).
  assert (is_list h1 hd' zs) as L2.
  { eapply frame_list; [done| |done]. intros x Hx Hin. apply (Hd x Hx). set_solver. }
  assert (e ∉ hd :: xs ++ ys) as Hout.
  { destruct Hl as [Hnd _]. rewrite app_comm_cons in Hnd. apply NoDup_app in Hnd as (_ & H1 & H2).
    apply NoDup_cons in H2 as [H2 _]. set_solver. }
  assert (e ∉ hd' :: zs) as Hout'.
  { intros Hin. apply (Hd e Hin). set_solver. }
  assert (forall x, x ∈ hd :: xs ++ ys -> x ∉ e :: hd' :: zs) as Hdis.
  { intros x Hx Hin. apply elem_of_cons in Hin as [->|Hin]; [done|]. apply (Hd x Hin). set_solver. }
  unfold list_move, list_move_tail. rewrite Hn, Hp. simpl. rewrite E1. simpl. split.
  - destruct (list_add_ok h1 hd' zs e L2 Hout' Hs) as (h2 & E2 & L3 & F2).
    exists h2. split; [done|]. split; [by apply (frame_list h1 h2 _ _ _ F2 Hdis)|done].
  - destruct (list_add_tail_ok h1 hd' zs e L2 Hout' Hs) as (h2 & E2 & L3 & F2).
    exists h2. split; [done|]. split; [by apply (frame_list h1 h2 _ _ _ F2 Hdis)|done].
Qed.

(** ** Witnesses: a ring 10 -> 20 -> 30 -> 10, an empty ring 40 and a detached node 50. *)

Definition ring_example : heap :=
  {[ 10 := mk_node 20 30; 20 := mk_node 30 10; 30 := mk_node 10 20;
     40 := mk_node 40 40; 50 := mk_node NULL NULL ]}.

Lemma ring_example_lists : is_list ring_example 10 [20; 30] /\ is_list ring_example 40 [].
Proof.
  split; (split; [by apply (bool_decide_unpack _); vm_compute|]); repeat split; reflexivity.
Defined.

Lemma list_add_refines_witness :
  (exists h', list_add ring_example 50 10 = Some h' /\ is_list h' 10 [50; 20; 30] /\
     is_list h' 40 []) /\
  (exists h', list_add_tail ring_example 50 10 = Some h' /\ is_list h' 10 [20; 30; 50] /\
     is_list h' 40 []).
Proof.
  apply (list_add_refines ring_example 10 [20; 30] 50 40 []).
  - apply ring_example_lists.
  - apply ring_example_lists.
  - by apply (bool_decide_unpack _); vm_compute.
  - by eexists.
  - set_solver by lia.
Defined.

Lemma list_del_refines_witness :
  (exists h', list_del_init ring_example 20 = Some h' /\ is_list h' 10 [30] /\
     is_list h' 20 [] /\ list_empty h' 20 = Some true) /\
  (exists h', list_del ring_example 20 = Some h' /\ is_list h' 10 [30] /\
     h' !! 20 = Some (mk_node NULL NULL)).
Proof. apply (list_del_refines ring_example 10 [] 20 [30]). apply ring_example_lists. Defined.

Lemma list_traversal_refines_witness :
  list_for_each 2 ring_example 10 = Some [20; 30] /\
  list_for_each_reverse 2 ring_example 10 = Some [30; 20] /\
  list_empty ring_example 10 = Some false /\
  list_is_singular ring_example 10 = Some false /\
  list_first_entry_or_null ring_example 10 = Some 20.
Proof.
  apply (list_traversal_refines ring_example 10 [20; 30] 2); [apply ring_example_lists|simpl; lia].
Defined.

Lemma list_move_refines_witness :
  (exists h', list_move ring_example 20 40 = Some h' /\ is_list h' 10 [30] /\
     is_list h' 40 [20]) /\
  (exists h', list_move_tail ring_example 20 40 = Some h' /\ is_list h' 10 [30] /\
     is_list h' 40 [20]).
Proof.
  apply (list_move_refines ring_example 10 [] 20 [30] 40 []).
  - apply ring_example_lists.
  - apply ring_example_lists.
  - set_solver by lia.
Defined.
