(* ===== verification/Bitmap.v ===== *)
(** * Memory bitmap (kernel/mm/bitmap.c)

    One bit per page frame, 1 for used or reserved.  The global [mem_bitmap] is a record; the
    array [bits] is the memory handed to [mem_bitmap_init].  The spinlock serialises the callers
    and is not part of the state.  Accesses outside the array fail. *)
From S2P Require Import Prelude Defs.

(** ** The code *)

Record mem_bitmap := mk_bitmap {
  bits : list Z;       (* u64 words *)
  nr_bits : Z;
  nr_words : Z;
  base_pfn : Z
}.

Definition with_bits (bm : mem_bitmap) (b : list Z) : mem_bitmap :=
  mk_bitmap b (nr_bits bm) (nr_words bm) (base_pfn bm).

(** [(pfn_t)-1] and [~0ULL]. *)
Definition NO_PFN : Z := 2 ^ 64 - 1.
Definition ALL_ONES : Z := 2 ^ 64 - 1.

Definition word_index (bm : mem_bitmap) (pfn : Z) : Z := u64 (pfn - base_pfn bm) / 64.
Definition bit_index (bm : mem_bitmap) (pfn : Z) : Z := u64 (pfn - base_pfn bm) mod 64.

Definition bitmap_test_bit (bm : mem_bitmap) (pfn : Z) : option bool :=
  w ← zget (bits bm) (word_index bm pfn);
  Some (ztrue (Z.land (Z.shiftr w (bit_index bm pfn)) 1)).

Definition bitmap_set_bit (bm : mem_bitmap) (pfn : Z) : option mem_bitmap :=
  b ← zupd (bits bm) (word_index bm pfn) (fun w => Z.lor w (Z.shiftl 1 (bit_index bm pfn)));
  Some (with_bits bm b).

Definition bitmap_clear_bit (bm : mem_bitmap) (pfn : Z) : option mem_bitmap :=
  b ← zupd (bits bm) (word_index bm pfn)
        (fun w => Z.land w (lnotw 64 (Z.shiftl 1 (bit_index bm pfn))));
  Some (with_bits bm b).

(** The guard of the range loops: [pfn] lies in the pages the bitmap tracks. *)
Definition bitmap_tracks (bm : mem_bitmap) (pfn : Z) : bool :=
  (base_pfn bm <=? pfn) && (pfn <? u64 (base_pfn bm + nr_bits bm)).

Definition bitmap_set_range (bm : mem_bitmap) (start_pfn nr_pages : Z) : option mem_bitmap :=
  let end_pfn := u64 (start_pfn + nr_pages) in
  for_range (Z.to_nat (end_pfn - start_pfn)) start_pfn
    (fun pfn bm => if bitmap_tracks bm pfn then bitmap_set_bit bm pfn else Some bm) bm.

Definition bitmap_clear_range (bm : mem_bitmap) (start_pfn nr_pages : Z) : option mem_bitmap :=
  let end_pfn := u64 (start_pfn + nr_pages) in
  for_range (Z.to_nat (end_pfn - start_pfn)) start_pfn
    (fun pfn bm => if bitmap_tracks bm pfn then bitmap_clear_bit bm pfn else Some bm) bm.

(** [while (tmp) { set_bits += tmp & 1; tmp >>= 1; }]; a 64-bit word is 0 after 64 shifts. *)
Fixpoint popcount_loop (fuel : nat) (tmp set_bits : Z) : Z :=
  match fuel with
  | O => set_bits
  | S fuel' =>
      if tmp =? 0 then set_bits
      else popcount_loop fuel' (Z.shiftr tmp 1) (u64 (set_bits + Z.land tmp 1))
  end.

Definition bitmap_count_free (bm : mem_bitmap) : option Z :=
  count ← for_range (Z.to_nat (nr_words bm)) 0
    (fun i count =>
       word ← zget (bits bm) i;
       let set_bits := popcount_loop 64 word 0 in
       Some (u64 (count + u64 (64 - set_bits)))) 0;
  let extra_bits := u64 (u64 (nr_words bm * 64) - nr_bits bm) in
  Some (u64 (count - extra_bits)).

(** Body of the inner loop of [bitmap_find_free]: bit [j] of word number [i]. *)
Definition find_free_bit (bm : mem_bitmap) (i word j : Z) (_ : unit) : option (unit + Z) :=
  if ztrue (Z.land word (Z.shiftl 1 j)) then Some (inl tt)
  else
    let pfn := u64 (base_pfn bm + i * 64 + j) in
    if pfn <? u64 (base_pfn bm + nr_bits bm) then Some (inr pfn) else Some (inl tt).

(** Body of the outer loop: word number [i]. *)
Definition find_free_word (bm : mem_bitmap) (i : Z) (_ : unit) : option (unit + Z) :=
  word ← zget (bits bm) i;
  if word =? ALL_ONES then Some (inl tt) else for_return 64 0 (find_free_bit bm i word) tt.

Definition bitmap_find_free (bm : mem_bitmap) : option Z :=
  r ← for_return (Z.to_nat (nr_words bm)) 0 (find_free_word bm) tt;
  Some (match r with inr pfn => pfn | inl _ => NO_PFN end).

(** Body of the loop of [bitmap_find_free_range]; the state is [(count, range_start)]. *)
Definition find_range_step (bm : mem_bitmap) (nr_pages pfn : Z) (s : Z * Z)
  : option (Z * Z + Z) :=
  let '(count, range_start) := s in
  used ← bitmap_test_bit bm pfn;
  if negb used then
    let range_start := if count =? 0 then pfn else range_start in
    let count := u64 (count + 1) in
    if nr_pages <=? count then Some (inr range_start) else Some (inl (count, range_start))
  else Some (inl (0, range_start)).

Definition bitmap_find_free_range (bm : mem_bitmap) (nr_pages : Z) : option Z :=
  let start := base_pfn bm in
  let fin := u64 (base_pfn bm + nr_bits bm) in
  r ← for_return (Z.to_nat (fin - start)) start (find_range_step bm nr_pages) (0, 0);
  Some (match r with inr pfn => pfn | inl _ => NO_PFN end).

(** [memset(bits, 0xFF, nr_words * 8)] over the memory the caller provides. *)
Definition mem_bitmap_init (max_pfn : Z) (bitmap_memory : list Z) : option mem_bitmap :=
  let words := u64 (max_pfn + 63) / 64 in
  if decide (words <= zlen bitmap_memory) then
    Some (mk_bitmap (replicate (Z.to_nat words) ALL_ONES ++ drop (Z.to_nat words) bitmap_memory)
            max_pfn words 0)
  else None.

Definition mem_bitmap_mark_usable (bm : mem_bitmap) (start fin : Z) : option mem_bitmap :=
  let start_pfn := PHYS_TO_PFN (PAGE_ALIGN start) in
  let end_pfn := PHYS_TO_PFN (PAGE_ALIGN_DOWN fin) in
  if end_pfn <=? start_pfn then Some bm
  else bitmap_clear_range bm start_pfn (u64 (end_pfn - start_pfn)).

Definition mem_bitmap_mark_reserved (bm : mem_bitmap) (start fin : Z) : option mem_bitmap :=
  let start_pfn := PHYS_TO_PFN (PAGE_ALIGN_DOWN start) in
  let end_pfn := PHYS_TO_PFN (PAGE_ALIGN fin) in
  if end_pfn <=? start_pfn then Some bm
  else bitmap_set_range bm start_pfn (u64 (end_pfn - start_pfn)).

Definition mem_bitmap_is_usable (bm : mem_bitmap) (pfn : Z) : option bool :=
  if (pfn <? base_pfn bm) || (u64 (base_pfn bm + nr_bits bm) <=? pfn) then Some false
  else negb <$> bitmap_test_bit bm pfn.

Definition mem_bitmap_alloc_page (bm : mem_bitmap) : option (Z * mem_bitmap) :=
  pfn ← bitmap_find_free bm;
  if decide (pfn ≠ NO_PFN) then
    bm' ← bitmap_set_bit bm pfn; Some (pfn, bm')
  else Some (pfn, bm).

Definition mem_bitmap_alloc_pages (bm : mem_bitmap) (nr_pages : Z) : option (Z * mem_bitmap) :=
  pfn ← bitmap_find_free_range bm nr_pages;
  if decide (pfn ≠ NO_PFN) then
    bm' ← bitmap_set_range bm pfn nr_pages; Some (pfn, bm')
  else Some (pfn, bm).

Definition mem_bitmap_free_page (bm : mem_bitmap) (pfn : Z) : option mem_bitmap :=
  if (pfn <? base_pfn bm) || (u64 (base_pfn bm + nr_bits bm) <=? pfn) then Some bm
  else bitmap_clear_bit bm pfn.

Definition mem_bitmap_free_pages (bm : mem_bitmap) (start_pfn nr_pages : Z)
  : option mem_bitmap :=
  bitmap_clear_range bm start_pfn nr_pages.

Definition mem_bitmap_size_for (max_pfn : Z) : Z :=
  let nr_words := u64 (max_pfn + 63) / 64 in
  u64 (nr_words * 8).

(** The four numbers [mem_bitmap_dump_stats] prints: total, free and used pages, bytes. *)
Definition mem_bitmap_dump_stats (bm : mem_bitmap) : option (Z * Z * Z * Z) :=
  free ← bitmap_count_free bm;
  Some (nr_bits bm, free, u64 (nr_bits bm - free), u64 (nr_words bm * 8)).

(** ** Well-formed bitmaps and what they say about a page *)

Record bm_wf (bm : mem_bitmap) : Prop := {
  wf_base : 0 <= base_pfn bm;
  wf_nr_bits : 0 <= nr_bits bm;
  wf_words : nr_words bm = (nr_bits bm + 63) / 64;
  wf_no_wrap : base_pfn bm + 64 * nr_words bm < 2 ^ 64 - 1;
  wf_array : nr_words bm <= zlen (bits bm);
  wf_width : Forall (fits 64) (bits bm)
}.

(** Pages whose bit exists in the array, the padding of the last word included. *)
Definition has_bit (bm : mem_bitmap) (p : Z) : Prop :=
  base_pfn bm <= p < base_pfn bm + 64 * nr_words bm.

Definition tracked (bm : mem_bitmap) (p : Z) : Prop :=
  base_pfn bm <= p < base_pfn bm + nr_bits bm.

(** Bit of page [p]. *)
Definition used (bm : mem_bitmap) (p : Z) : bool :=
  Z.testbit (default 0 (zget (bits bm) ((p - base_pfn bm) / 64))) ((p - base_pfn bm) mod 64).

(** [bm'] is [bm] with other words. *)
Definition same_shape (bm bm' : mem_bitmap) : Prop :=
  nr_bits bm' = nr_bits bm /\ nr_words bm' = nr_words bm /\ base_pfn bm' = base_pfn bm.

#[export] Instance tracked_dec bm p : Decision (tracked bm p).
Proof. unfold tracked. apply _. Defined.

(** ** One bit *)

Lemma index_ok bm p :
  bm_wf bm -> has_bit bm p ->
  word_index bm p = (p - base_pfn bm) / 64 /\ bit_index bm p = (p - base_pfn bm) mod 64 /\
  exists w, zget (bits bm) ((p - base_pfn bm) / 64) = Some w /\ fits 64 w.
Proof.
  intros [H1 H2 H3 H4 H5 H6] Hp. unfold has_bit in Hp. unfold word_index, bit_index.
  rewrite u64_small by lia. split; [done|]. split; [done|].
  destruct (proj2 (zget_Some (bits bm) ((p - base_pfn bm) / 64))) as [w Hw]; [divlia|].
  exists w. split; [done|]. apply zget_lookup in Hw as [_ Hw].
  by eapply Forall_lookup_1 in H6.
Qed.

Lemma tracked_has_bit bm p : bm_wf bm -> tracked bm p -> has_bit bm p.
Proof. intros [H1 H2 H3 H4 H5 H6]. unfold tracked, has_bit. divlia. Qed.

Lemma tracks_tracked bm p : bm_wf bm -> bitmap_tracks bm p = bool_decide (tracked bm p).
Proof.
  intros [H1 H2 H3 H4 H5 H6]. unfold bitmap_tracks, tracked. rewrite u64_small by divlia.
  apply eq_bool_prop_intro. rewrite bool_decide_spec, andb_True, !Is_true_true.
  rewrite Z.leb_le, Z.ltb_lt. done.
Qed.

Lemma test_bit_ok bm p : bm_wf bm -> has_bit bm p -> bitmap_test_bit bm p = Some (used bm p).
Proof.
  intros Hwf Hp. destruct (index_ok bm p Hwf Hp) as (E1 & E2 & w & Hw & _).
  unfold bitmap_test_bit, used. rewrite E1, E2, Hw. simpl. f_equal.
  pose proof (ztrue_land_bit (Z.shiftr w ((p - base_pfn bm) mod 64)) 0 ltac:(lia)) as H.
  change (Z.shiftl 1 0) with 1 in H. rewrite H, Z.shiftr_spec by lia. done.
Qed.

(** Rewriting one word with a function that acts on one bit only. *)
Lemma upd_bit_ok bm p (f : Z -> Z) (b : bool) :
  bm_wf bm -> has_bit bm p ->
  (forall w, fits 64 w -> fits 64 (f w) /\
     forall i, 0 <= i < 64 ->
       Z.testbit (f w) i = if decide (i = bit_index bm p) then b else Z.testbit w i) ->
  exists l, zupd (bits bm) (word_index bm p) f = Some l /\ bm_wf (with_bits bm l) /\
    forall q, has_bit bm q ->
      used (with_bits bm l) q = if decide (q = p) then b else used bm q.
Proof.
  intros Hwf Hp Hf. destruct (index_ok bm p Hwf Hp) as (E1 & E2 & w & Hw & Hfit).
  destruct (Hf w Hfit) as [Hfw Hbit].
  rewrite E1. rewrite (zupd_ok _ _ _ _ Hw). eexists. split; [done|]. split.
  - destruct Hwf as [H1 H2 H3 H4 H5 H6]. split; simpl; try done.
    + unfold zlen in *. by rewrite length_insert.
    + by apply Forall_insert.
  - intros q Hq. destruct (index_ok bm q Hwf Hq) as (_ & _ & v & Hv & _).
    unfold used. simpl.
    rewrite (zget_zupd _ _ _ _ _ (zupd_ok _ _ f _ Hw)).
    unfold has_bit in Hp, Hq. case_decide as Ew.
    + rewrite Hv. simpl. rewrite Ew, Hw in Hv. injection Hv as <-.
      rewrite Hbit by (apply Z.mod_pos_bound; lia). rewrite E2.
      repeat case_decide; try done; divlia.
    + rewrite decide_False by (intros ->; done). done.
Qed.

Lemma set_bit_ok bm p :
  bm_wf bm -> has_bit bm p ->
  exists bm', bitmap_set_bit bm p = Some bm' /\ bm_wf bm' /\ same_shape bm bm' /\
    forall q, has_bit bm q -> used bm' q = if decide (q = p) then true else used bm q.
Proof.
  intros Hwf Hp. pose proof (index_ok bm p Hwf Hp) as (_ & E2 & _).
  assert (0 <= bit_index bm p < 64) as Hb by (rewrite E2; apply Z.mod_pos_bound; lia).
  destruct (upd_bit_ok bm p (fun w => Z.lor w (Z.shiftl 1 (bit_index bm p))) true Hwf Hp)
    as (l & E & Hl & Hu).
  { intros w Hw.
    assert (forall i, Z.testbit (Z.lor w (Z.shiftl 1 (bit_index bm p))) i =
      Z.testbit w i || bool_decide (i = bit_index bm p)) as Hbits.
    { intros i. rewrite Z.lor_spec, pow2_testbit by lia. done. }
    split.
    - apply fits_testbit; [lia| |].
      + apply Z.lor_nonneg. split; [apply Hw|apply Z.shiftl_nonneg; lia].
      + intros i Hi. rewrite Hbits, (testbit_above 64), bool_decide_false by (done || lia). done.
    - intros i Hi. rewrite Hbits. case_decide; [rewrite bool_decide_true by done; apply orb_true_r|].
      rewrite bool_decide_false by done. apply orb_false_r. }
  unfold bitmap_set_bit. rewrite E. by exists (with_bits bm l).
Qed.

Lemma clear_bit_ok bm p :
  bm_wf bm -> has_bit bm p ->
  exists bm', bitmap_clear_bit bm p = Some bm' /\ bm_wf bm' /\ same_shape bm bm' /\
    forall q, has_bit bm q -> used bm' q = if decide (q = p) then false else used bm q.
Proof.
  intros Hwf Hp. pose proof (index_ok bm p Hwf Hp) as (_ & E2 & _).
  assert (0 <= bit_index bm p < 64) as Hb by (rewrite E2; apply Z.mod_pos_bound; lia).
  destruct (upd_bit_ok bm p (fun w => Z.land w (lnotw 64 (Z.shiftl 1 (bit_index bm p)))) false
    Hwf Hp) as (l & E & Hl & Hu).
  { intros w Hw.
    assert (forall i, 0 <= i -> Z.testbit (Z.land w (lnotw 64 (Z.shiftl 1 (bit_index bm p)))) i =
      Z.testbit w i && xorb (bool_decide (i = bit_index bm p)) (bool_decide (i < 64))) as Hbits.
    { intros i Hi. rewrite Z.land_spec, lnotw_testbit, pow2_testbit by lia. done. }
    split.
    - apply fits_testbit; [lia| |].
      + apply Z.land_nonneg. left. apply Hw.
      + intros i Hi. rewrite Hbits, (testbit_above 64) by (done || lia). done.
    - intros i Hi. rewrite Hbits, (bool_decide_true (i < 64)) by lia.
      case_decide; [rewrite bool_decide_true by done; apply andb_false_r|].
      rewrite bool_decide_false by done. apply andb_true_r. }
  unfold bitmap_clear_bit. rewrite E. by exists (with_bits bm l).
Qed.

Lemma same_shape_trans bm1 bm2 bm3 :
  same_shape bm1 bm2 -> same_shape bm2 bm3 -> same_shape bm1 bm3.
Proof. unfold same_shape. intuition congruence. Qed.

Lemma same_shape_tracked bm bm' p : same_shape bm bm' -> tracked bm' p <-> tracked bm p.
Proof. intros (E1 & E2 & E3). unfold tracked. by rewrite E1, E3. Qed.

Lemma same_shape_has_bit bm bm' p : same_shape bm bm' -> has_bit bm' p <-> has_bit bm p.
Proof. intros (E1 & E2 & E3). unfold has_bit. by rewrite E2, E3. Qed.

(** ** Ranges *)

(** What a pass over [start, start + n) that writes [b] leaves behind: pages in the range and
    tracked read [b], every other bit (padding included) is as before. *)
Definition range_written (bm bm' : mem_bitmap) (b : bool) (start fin : Z) : Prop :=
  bm_wf bm' /\ same_shape bm bm' /\
  forall q, has_bit bm q ->
    used bm' q = if decide (start <= q < fin /\ tracked bm q) then b else used bm q.

Section range.
  Context (write : mem_bitmap -> Z -> option mem_bitmap) (b : bool).
  Context (write_ok : forall bm p, bm_wf bm -> has_bit bm p ->
    exists bm', write bm p = Some bm' /\ bm_wf bm' /\ same_shape bm bm' /\
      forall q, has_bit bm q -> used bm' q = if decide (q = p) then b else used bm q).

Lemma range_ok bm start n :
    bm_wf bm -> 0 <= start -> 0 <= n -> start + n < 2 ^ 64 ->
    exists bm', for_range (Z.to_nat (u64 (start + n) - start)) start
      (fun pfn bm => if bitmap_tracks bm pfn then write bm pfn else Some bm) bm = Some bm' /\
      range_written bm bm' b start (start + n).
  Proof using write_ok.
    intros Hwf Hs Hn Hb. rewrite u64_small by lia.
    destruct (for_range_ind (fun j bm' => range_written bm bm' b start j)
      (Z.to_nat (start + n - start)) start
      (fun pfn bm => if bitmap_tracks bm pfn then write bm pfn else Some bm) bm)
      as (bm' & E & H).
    - split; [done|]. split; [done|]. intros q Hq. by rewrite decide_False by lia.
    - intros j bm1 Hj (W1 & S1 & U1). rewrite (tracks_tracked bm1 j W1).
      destruct (decide (tracked bm1 j)) as [Ht|Ht].
      + rewrite bool_decide_true by done.
        destruct (write_ok bm1 j W1 (tracked_has_bit _ _ W1 Ht)) as (bm2 & E2 & W2 & S2 & U2).
        exists bm2. split; [done|]. split; [done|]. split; [by eapply same_shape_trans|].
        intros q Hq. rewrite U2, U1 by (done || by apply (same_shape_has_bit _ _ _ S1)).
        apply (same_shape_tracked bm bm1) in Ht; [|done].
        unfold tracked in *. repeat case_decide; try done; exfalso; lia.
      + rewrite bool_decide_false by done. exists bm1. split; [done|]. split; [done|].
        split; [done|]. intros q Hq. rewrite U1 by done.
        rewrite (same_shape_tracked bm bm1) in Ht by done.
        unfold tracked in *. repeat case_decide; try done; exfalso; lia.
    - exists bm'. split; [done|]. by replace (start + Z.of_nat (Z.to_nat (start + n - start)))
        with (start + n) in H by lia.
  Qed.
End range.

Lemma set_range_ok bm start n :
  bm_wf bm -> 0 <= start -> 0 <= n -> start + n < 2 ^ 64 ->
  exists bm', bitmap_set_range bm start n = Some bm' /\
    range_written bm bm' true start (start + n).
Proof. apply range_ok. apply set_bit_ok. Qed.

Lemma clear_range_ok bm start n :
  bm_wf bm -> 0 <= start -> 0 <= n -> start + n < 2 ^ 64 ->
  exists bm', bitmap_clear_range bm start n = Some bm' /\
    range_written bm bm' false start (start + n).
Proof. apply range_ok. apply clear_bit_ok. Qed.

Lemma mark_range_ok bm start fin :
  bm_wf bm -> 0 <= start -> start + 4095 < 2 ^ 64 -> 0 <= fin -> fin + 4095 < 2 ^ 64 ->
  (exists bm', mem_bitmap_mark_usable bm start fin = Some bm' /\ bm_wf bm' /\ same_shape bm bm' /\
     forall q, tracked bm q ->
       used bm' q = if decide (start <= q * 4096 /\ (q + 1) * 4096 <= fin)
                    then false else used bm q) /\
  (exists bm', mem_bitmap_mark_reserved bm start fin = Some bm' /\ bm_wf bm' /\
     same_shape bm bm' /\
     forall q, tracked bm q ->
       used bm' q = if decide (q * 4096 < fin /\ start < (q + 1) * 4096)
                    then true else used bm q).
Proof.
  intros Hwf Hs Hs' Hf Hf'. unfold mem_bitmap_mark_usable, mem_bitmap_mark_reserved.
  rewrite !pfn_up, !pfn_down by (unfold fits; lia). split.
  - destruct (Z.leb_spec (fin / 4096) ((start + 4095) / 4096)) as [Hle|Hlt].
    + exists bm. split; [done|]. split; [done|]. split; [done|].
      intros q Hq. rewrite decide_False; [done|]. intros [H1 H2]. divlia.
    + rewrite u64_small by divlia.
      destruct (clear_range_ok bm ((start + 4095) / 4096) (fin / 4096 - (start + 4095) / 4096))
        as (bm' & E & W & S & U); [done|divlia..|].
      exists bm'. split; [done|]. split; [done|]. split; [done|].
      intros q Hq. rewrite U by by apply tracked_has_bit.
      clear E W S U. repeat case_decide; try done; exfalso; unfold tracked in *; divlia.
  - destruct (Z.leb_spec ((fin + 4095) / 4096) (start / 4096)) as [Hle|Hlt].
    + exists bm. split; [done|]. split; [done|]. split; [done|].
      intros q Hq. rewrite decide_False; [done|]. intros [H1 H2]. divlia.
    + rewrite u64_small by divlia.
      destruct (set_range_ok bm (start / 4096) ((fin + 4095) / 4096 - start / 4096))
        as (bm' & E & W & S & U); [done|divlia..|].
      exists bm'. split; [done|]. split; [done|]. split; [done|].
      intros q Hq. rewrite U by by apply tracked_has_bit.
      clear E W S U. repeat case_decide; try done; exfalso; unfold tracked in *; divlia.
Qed.

(** [mem_bitmap_mark_usable] frees exactly the tracked pages that lie wholly inside the
    physical range, [mem_bitmap_mark_reserved] takes exactly those that meet it; neither ever
    reads or writes outside the bitmap's words. *)
Theorem mark_range_spec bm start fin :
  bm_wf bm -> 0 <= start -> start + 4095 < 2 ^ 64 -> 0 <= fin -> fin + 4095 < 2 ^ 64 ->
  (exists bm', mem_bitmap_mark_usable bm start fin = Some bm' /\ bm_wf bm' /\ same_shape bm bm' /\
     forall q, tracked bm q ->
       used bm' q = if decide (start <= q * 4096 /\ (q + 1) * 4096 <= fin)
                    then false else used bm q) /\
  (exists bm', mem_bitmap_mark_reserved bm start fin = Some bm' /\ bm_wf bm' /\
     same_shape bm bm' /\
     forall q, tracked bm q ->
       used bm' q = if decide (q * 4096 < fin /\ start < (q + 1) * 4096)
                    then true else used bm q).
Proof. apply mark_range_ok. Qed.

(** ** Searching *)

Lemma used_word bm i j w :
  zget (bits bm) i = Some w -> 0 <= j < 64 -> used bm (base_pfn bm + i * 64 + j) = Z.testbit w j.
Proof.
  intros Hw Hj. unfold used.
  replace ((base_pfn bm + i * 64 + j - base_pfn bm) / 64) with i by divlia.
  replace ((base_pfn bm + i * 64 + j - base_pfn bm) mod 64) with j by divlia.
  by rewrite Hw.
Qed.

(** The lowest free tracked page. *)
Definition first_free (bm : mem_bitmap) (p : Z) : Prop :=
  tracked bm p /\ used bm p = false /\ forall q, tracked bm q -> q < p -> used bm q = true.

Definition no_free_below (bm : mem_bitmap) (b : Z) : Prop :=
  forall q, tracked bm q -> q < b -> used bm q = true.

Lemma find_free_bits_ok bm i w :
  bm_wf bm -> 0 <= i < nr_words bm -> zget (bits bm) i = Some w ->
  no_free_below bm (base_pfn bm + i * 64) ->
  (exists s, for_return 64 0 (find_free_bit bm i w) tt = Some (inl s) /\ no_free_below bm (base_pfn bm + i * 64 + 64)) \/
  (exists p, for_return 64 0 (find_free_bit bm i w) tt = Some (inr p) /\ first_free bm p).
Proof.
  intros Hwf Hi Hw Hbelow.
  apply (for_return_ind (fun j (_ : unit) => no_free_below bm (base_pfn bm + i * 64 + j))).
  - intros q Hq Hlt. apply Hbelow; [done|lia].
  - intros j [] Hj Hno. unfold find_free_bit. rewrite ztrue_land_bit by lia.
    pose proof (used_word bm i j w Hw ltac:(lia)) as Hu.
    destruct Hwf as [H1 H2 H3 H4 H5 H6]. rewrite !u64_small by divlia.
    destruct (Z.testbit w j); [|destruct (Z.ltb_spec (base_pfn bm + i * 64 + j)
      (base_pfn bm + nr_bits bm)) as [Hlt|Hge]].
    + left. exists tt. split; [done|]. intros q Hq Hlt.
      destruct (decide (q = base_pfn bm + i * 64 + j)) as [->|]; [done|].
      apply Hno; [done|lia].
    + right. eexists. split; [done|]. split; [unfold tracked; lia|]. split; done.
    + left. exists tt. split; [done|]. intros q Hq Hlt. unfold tracked in Hq.
      apply Hno; [unfold tracked; lia|lia].
Qed.

Lemma find_free_word_ok bm i :
  bm_wf bm -> 0 <= i < nr_words bm -> no_free_below bm (base_pfn bm + i * 64) ->
  (exists s, find_free_word bm i tt = Some (inl s) /\ no_free_below bm (base_pfn bm + i * 64 + 64)) \/
  (exists p, find_free_word bm i tt = Some (inr p) /\ first_free bm p).
Proof.
  intros Hwf Hi Hno.
  destruct (proj2 (zget_Some (bits bm) i)) as [w Hw]; [destruct Hwf; lia|].
  unfold find_free_word. rewrite Hw. simpl.
  destruct (Z.eqb_spec w ALL_ONES) as [->|Hne]; [|by apply find_free_bits_ok].
  left. exists tt. split; [done|]. intros q Hq Hlt.
  destruct (decide (q < base_pfn bm + i * 64)) as [|Hge]; [by apply Hno|].
  replace q with (base_pfn bm + i * 64 + (q - base_pfn bm - i * 64)) by lia.
  rewrite (used_word bm i _ _ Hw) by lia.
  unfold ALL_ONES. replace (2 ^ 64 - 1) with (Z.ones 64) by done. apply Z.ones_spec_low. lia.
Qed.

Lemma find_free_ok bm :
  bm_wf bm ->
  exists p, bitmap_find_free bm = Some p /\ ((first_free bm p /\ p ≠ NO_PFN) \/ (p = NO_PFN /\ forall q, tracked bm q -> used bm q = true)).
Proof.
  intros Hwf. unfold bitmap_find_free.
  destruct (for_return_ind (fun i (_ : unit) => no_free_below bm (base_pfn bm + i * 64))
    (first_free bm) (Z.to_nat (nr_words bm)) 0 (find_free_word bm) tt)
    as [([] & -> & H)|(p & -> & H)]; simpl.
  - intros q Hq Hlt. unfold tracked in Hq. lia.
  - intros i [] Hi Hno. replace (base_pfn bm + (i + 1) * 64) with (base_pfn bm + i * 64 + 64) by lia.
    apply find_free_word_ok; [done|lia|done].
  - exists NO_PFN. split; [done|]. right. split; [done|].
    intros q Hq. apply H; [done|]. unfold tracked in Hq. destruct Hwf. divlia.
  - exists p. split; [done|]. left. split; [done|].
    destruct H as [Ht _]. unfold tracked in Ht. unfold NO_PFN. destruct Hwf. divlia.
Qed.

(** [mem_bitmap_alloc_page] hands out the lowest free page and marks it used, leaving every
    other page alone; it answers (pfn_t)-1 exactly when no tracked page is free. *)
Theorem bitmap_alloc_page_spec bm :
  bm_wf bm ->
  (exists p bm', mem_bitmap_alloc_page bm = Some (p, bm') /\ first_free bm p /\ p ≠ NO_PFN /\
     bm_wf bm' /\ same_shape bm bm' /\
     forall q, has_bit bm q -> used bm' q = if decide (q = p) then true else used bm q) \/
  (mem_bitmap_alloc_page bm = Some (NO_PFN, bm) /\ forall q, tracked bm q -> used bm q = true).
Proof.
  intros Hwf. unfold mem_bitmap_alloc_page.
  destruct (find_free_ok bm Hwf) as (p & -> & [[Hf Hne]|[-> Hall]]); simpl.
  - left. rewrite decide_True by done.
    destruct (set_bit_ok bm p Hwf) as (bm' & -> & W & S & U); [by apply tracked_has_bit, Hf|].
    exists p, bm'. done.
  - right. done.
Qed.

(** [n] consecutive tracked free pages from [p] on. *)
Definition free_run (bm : mem_bitmap) (p n : Z) : Prop :=
  base_pfn bm <= p /\ p + n <= base_pfn bm + nr_bits bm /\
  forall q, p <= q < p + n -> used bm q = false.

(** The search loop at page [j]: [count] free pages end just before [j], started at
    [range_start], no longer run ends there, and no run of [n] pages fits below [j]. *)
Definition range_search (bm : mem_bitmap) (n j : Z) (s : Z * Z) : Prop :=
  let '(count, range_start) := s in
  0 <= count < n /\ count <= j - base_pfn bm /\
  (forall q, j - count <= q < j -> used bm q = false) /\
  (count = 0 \/ range_start = j - count) /\
  (base_pfn bm < j - count -> used bm (j - count - 1) = true) /\
  forall p, free_run bm p n -> j < p + n.

Lemma find_range_step_ok bm n j s :
  bm_wf bm -> 0 < n < 2 ^ 64 -> tracked bm j -> range_search bm n j s ->
  (exists s', find_range_step bm n j s = Some (inl s') /\ range_search bm n (j + 1) s') \/
  (exists p, find_range_step bm n j s = Some (inr p) /\ free_run bm p n /\
     forall p', free_run bm p' n -> p <= p').
Proof.
  intros Hwf Hn Ht. destruct s as [count rs]. intros (Hc & Hj & Hfree & Hrs & Hmax & Hno).
  unfold find_range_step. rewrite test_bit_ok by (done || by apply tracked_has_bit). simpl.
  unfold tracked in Ht. destruct (used bm j) eqn:Hu; simpl.
  - left. eexists. split; [done|]. split; [lia|]. split; [lia|].
    split; [lia|]. split; [by left|]. split.
    + intros _. by replace (j + 1 - 0 - 1) with j by lia.
    + intros p Hp. specialize (Hno p Hp). destruct (decide (p <= j)); [|lia].
      exfalso. destruct Hp as (_ & _ & Hp). rewrite Hp in Hu; [done|lia].
  - rewrite u64_small by lia.
    assert ((if count =? 0 then j else rs) = j - count) as ->.
    { destruct (Z.eqb_spec count 0); lia. }
    destruct (Z.leb_spec n (count + 1)) as [Hle|Hlt].
    + right. eexists. split; [done|]. split.
      * split; [lia|]. split; [lia|]. intros q Hq. destruct (decide (q = j)) as [->|]; [done|].
        apply Hfree. lia.
      * intros p' Hp'. specialize (Hno p' Hp'). lia.
    + left. eexists. split; [done|]. split; [lia|]. split; [lia|]. split.
      { intros q Hq. destruct (decide (q = j)) as [->|]; [done|]. apply Hfree. lia. }
      split; [right; lia|]. split.
      * intros Hb. replace (j + 1 - (count + 1) - 1) with (j - count - 1) by lia. apply Hmax. lia.
      * intros p Hp. specialize (Hno p Hp). destruct (decide (p + n = j + 1)); [|lia].
        exfalso. destruct Hp as (Hp1 & _ & Hp). specialize (Hmax ltac:(lia)).
        rewrite Hp in Hmax by lia. done.
Qed.

Lemma find_free_range_ok bm n :
  bm_wf bm -> 0 < n < 2 ^ 64 ->
  exists p, bitmap_find_free_range bm n = Some p /\
    ((p ≠ NO_PFN /\ free_run bm p n /\ forall p', free_run bm p' n -> p <= p') \/
     (p = NO_PFN /\ forall p', ~ free_run bm p' n)).
Proof.
  intros Hwf Hn. unfold bitmap_find_free_range. pose proof Hwf as [H1 H2 H3 H4 H5 H6].
  rewrite u64_small by divlia.
  destruct (for_return_ind (range_search bm n)
    (fun p => free_run bm p n /\ forall p', free_run bm p' n -> p <= p')
    (Z.to_nat (base_pfn bm + nr_bits bm - base_pfn bm)) (base_pfn bm)
    (find_range_step bm n) (0, 0)) as [([c r] & -> & H)|(p & -> & H)]; simpl.
  - split; [lia|]. split; [lia|]. split; [lia|]. split; [by left|]. split; [lia|].
    intros p (Hp & _). lia.
  - intros j s Hj Hs. apply find_range_step_ok; [done..|unfold tracked; lia|done].
  - exists NO_PFN. split; [done|]. right. split; [done|]. intros p' Hp'.
    destruct H as (_ & _ & _ & _ & _ & H). specialize (H p' Hp'). destruct Hp' as (_ & Hp' & _). lia.
  - exists p. split; [done|]. left. split; [|done].
    destruct H as [(Hp1 & Hp2 & _) _]. unfold NO_PFN. divlia.
Qed.

(** [mem_bitmap_alloc_pages] finds the lowest run of [n] free pages and marks exactly that
    run used; it answers (pfn_t)-1 and changes nothing exactly when there is no such run.  The
    pages it hands out were all free. *)
Theorem bitmap_alloc_pages_spec bm n :
  bm_wf bm -> 0 < n < 2 ^ 64 ->
  (exists p bm', mem_bitmap_alloc_pages bm n = Some (p, bm') /\ free_run bm p n /\
     (forall p', free_run bm p' n -> p <= p') /\ bm_wf bm' /\ same_shape bm bm' /\
     forall q, tracked bm q -> used bm' q = if decide (p <= q < p + n) then true else used bm q) \/
  (mem_bitmap_alloc_pages bm n = Some (NO_PFN, bm) /\ forall p, ~ free_run bm p n).
Proof.
  intros Hwf Hn. unfold mem_bitmap_alloc_pages.
  destruct (find_free_range_ok bm n Hwf Hn) as (p & -> & [(Hne & Hr & Hmin)|[-> Hno]]); simpl.
  - left. rewrite decide_True by done.
    assert (0 <= p /\ p + n < 2 ^ 64) as [Hp0 Hp1].
    { destruct Hr as (H1 & H2 & _). destruct Hwf. divlia. }
    destruct (set_range_ok bm p n Hwf) as (bm' & -> & W & S & U); [lia..|].
    exists p, bm'. repeat (split; [done|]). intros q Hq.
    rewrite U by by apply tracked_has_bit. repeat case_decide; try done; exfalso; intuition lia.
  - right. done.
Qed.

(** ** Counting *)

Lemma popcount_ok fuel w acc :
  fits (Z.of_nat fuel) w -> 0 <= acc -> acc + Z.of_nat fuel < 2 ^ 64 ->
  popcount_loop fuel w acc = acc + count_true (Z.testbit w) fuel.
Proof.
  revert w acc. induction fuel as [|fuel IH]; intros w acc Hw Ha Hb; simpl popcount_loop.
  - simpl. lia.
  - destruct (Z.eqb_spec w 0) as [->|Hne].
    + rewrite (count_true_const _ _ false) by (intros; apply Z.bits_0). simpl. lia.
    + assert (Z.land w 1 = Z.b2z (Z.testbit w 0)) as ->.
      { change (Z.land w 1) with (Z.land w (2 ^ 1 - 1)).
        rewrite land_ones_mod, Z.bit0_mod by lia. done. }
      assert (0 <= Z.b2z (Z.testbit w 0) <= 1) by (destruct (Z.testbit w 0); simpl; lia).
      rewrite u64_small by lia. rewrite IH; [|split|lia|lia].
      * change (S fuel) with (1 + fuel)%nat. rewrite count_true_add. cbn [count_true].
        change (Z.of_nat 1) with 1. change (Z.of_nat 0) with 0.
        rewrite (count_true_ext (Z.testbit (Z.shiftr w 1)) (fun k => Z.testbit w (1 + k))); [lia|].
        intros k Hk. rewrite Z.shiftr_spec by lia. f_equal. lia.
      * apply Z.shiftr_nonneg, Hw.
      * destruct Hw as [Hw0 Hw1]. rewrite Z.shiftr_div_pow2 by lia.
        rewrite Nat2Z.inj_succ, Z.pow_succ_r in Hw1 by lia. change (2 ^ 1) with 2. divlia.
Qed.

(** The number of free tracked pages. *)
Definition free_count (bm : mem_bitmap) : Z :=
  count_true (fun k => negb (used bm (base_pfn bm + k))) (Z.to_nat (nr_bits bm)).

(** The bits of the last word beyond the tracked pages are set: [mem_bitmap_init] sets them and
    no operation changes them. *)
Definition padding_set (bm : mem_bitmap) : Prop :=
  forall q, has_bit bm q -> ~ tracked bm q -> used bm q = true.

Lemma count_words_ok bm :
  bm_wf bm ->
  for_range (Z.to_nat (nr_words bm)) 0
    (fun i count =>
       word ← zget (bits bm) i;
       let set_bits := popcount_loop 64 word 0 in
       Some (u64 (count + u64 (64 - set_bits)))) 0
  = Some (count_true (fun k => negb (used bm (base_pfn bm + k))) (Z.to_nat (64 * nr_words bm))).
Proof.
  intros Hwf.
  destruct (for_range_ind (fun i count =>
    count = count_true (fun k => negb (used bm (base_pfn bm + k))) (Z.to_nat (64 * i)))
    (Z.to_nat (nr_words bm)) 0 (fun i count =>
       word ← zget (bits bm) i;
       let set_bits := popcount_loop 64 word 0 in
       Some (u64 (count + u64 (64 - set_bits)))) 0) as (c & -> & ->); [done| |].
  - intros i c Hi ->. pose proof Hwf as [H1 H2 H3 H4 H5 H6].
    destruct (proj2 (zget_Some (bits bm) i)) as [w Hw]; [lia|].
    assert (fits 64 w) as Hfit.
    { apply zget_lookup in Hw as [_ Hw']. by eapply Forall_lookup_1 in H6. }
    rewrite Hw. cbn [mbind option_bind]. eexists. split; [done|].
    rewrite popcount_ok by (done || lia).
    pose proof (count_true_bound (Z.testbit w) 64) as Hb.
    pose proof (count_true_bound (fun k => negb (used bm (base_pfn bm + k)))
      (Z.to_nat (64 * i))) as Hb'.
    rewrite (u64_small (64 - _)), u64_small by lia.
    replace (Z.to_nat (64 * (i + 1))) with (Z.to_nat (64 * i) + 64)%nat by lia.
    rewrite count_true_add. f_equal.
    transitivity (count_true (fun k => negb (Z.testbit w k)) 64); [rewrite count_true_negb; lia|].
    apply count_true_ext. intros k Hk. f_equal. rewrite <- (used_word bm i k w Hw) by lia. f_equal. lia.
  - assert (0 <= nr_words bm) by (destruct Hwf; divlia). do 2 f_equal. lia.
Qed.

(** [bitmap_count_free] subtracts the padding bits of the last word although they are set
    and were never counted: on every bitmap built by [mem_bitmap_init] and the marking
    operations it reports the number of free pages minus the padding (modulo 2^64).  The count is
    right exactly when the number of pages is a multiple of 64. *)
Theorem count_free_undercounts bm :
  bm_wf bm -> padding_set bm ->
  bitmap_count_free bm = Some (u64 (free_count bm - (64 * nr_words bm - nr_bits bm))) /\
  (bitmap_count_free bm = Some (free_count bm) <-> nr_bits bm mod 64 = 0).
Proof.
  intros Hwf Hpad. unfold bitmap_count_free. rewrite count_words_ok by done. simpl.
  pose proof Hwf as [H1 H2 H3 H4 H5 H6].
  assert (count_true (fun k => negb (used bm (base_pfn bm + k))) (Z.to_nat (64 * nr_words bm))
    = free_count bm) as ->.
  { replace (Z.to_nat (64 * nr_words bm)) with
      (Z.to_nat (nr_bits bm) + Z.to_nat (64 * nr_words bm - nr_bits bm))%nat by divlia.
    rewrite count_true_add. unfold free_count.
    rewrite (count_true_const (fun k => negb (used bm (base_pfn bm + (_ + k)))) _ false);
      [simpl; lia|].
    intros k Hk. rewrite Hpad; [done|unfold has_bit; divlia|unfold tracked; lia]. }
  pose proof (count_true_bound (fun k => negb (used bm (base_pfn bm + k)))
    (Z.to_nat (nr_bits bm))) as Hb. fold (free_count bm) in Hb.
  rewrite (u64_small (nr_words bm * 64)) by divlia.
  rewrite (u64_small (nr_words bm * 64 - nr_bits bm)) by divlia.
  replace (nr_words bm * 64) with (64 * nr_words bm) by lia. split; [done|].
  split; intros H.
  - assert (u64 (free_count bm - (64 * nr_words bm - nr_bits bm)) = free_count bm) as E
      by congruence.
    unfold u64, wrap in E. change (2 ^ 64) with 18446744073709551616 in *. divlia.
  - f_equal. rewrite u64_small; [|divlia]. divlia.
Qed.

Lemma bitmap_init_ok max_pfn mem :
  0 <= max_pfn -> max_pfn + 64 < 2 ^ 60 ->
  zlen mem * 8 = mem_bitmap_size_for max_pfn -> Forall (fits 64) mem ->
  exists bm, mem_bitmap_init max_pfn mem = Some bm /\ bm_wf bm /\ padding_set bm /\
    nr_bits bm = max_pfn /\ base_pfn bm = 0 /\ zlen (bits bm) = nr_words bm /\
    forall q, has_bit bm q -> used bm q = true.
Proof.
  intros H0 Hb Hlen Hmem. unfold mem_bitmap_init, mem_bitmap_size_for in *.
  rewrite (u64_small (max_pfn + 63)) in * by lia. rewrite u64_small in Hlen by divlia.
  rewrite decide_True by lia. eexists. split; [done|].
  rewrite drop_ge by (unfold zlen in Hlen; lia). rewrite app_nil_r.
  assert (forall q, 0 <= q < 64 * ((max_pfn + 63) / 64) ->
    used (mk_bitmap (replicate (Z.to_nat ((max_pfn + 63) / 64)) ALL_ONES) max_pfn
      ((max_pfn + 63) / 64) 0) q = true) as Hu.
  { intros q Hq. unfold used. simpl. unfold zget. rewrite decide_True by divlia.
    rewrite lookup_replicate_2 by divlia. simpl. unfold ALL_ONES.
    replace (2 ^ 64 - 1) with (Z.ones 64) by done. apply Z.ones_spec_low. divlia. }
  split; [split; simpl; try done; try lia|].
  - divlia.
  - unfold zlen. rewrite length_replicate. divlia.
  - apply Forall_replicate. done.
  - split; [intros q Hq _; by apply Hu|]. split; [done|]. split; [done|]. split; [|done].
    unfold zlen. simpl. rewrite length_replicate. divlia.
Qed.

(** After [mem_bitmap_init] every page is reserved, the padding is set, and the bitmap is
    well formed; the memory [mem_bitmap_size_for] asks for is what the bitmap occupies. *)
Theorem bitmap_init_spec max_pfn mem :
  0 <= max_pfn -> max_pfn + 64 < 2 ^ 60 ->
  zlen mem * 8 = mem_bitmap_size_for max_pfn -> Forall (fits 64) mem ->
  exists bm, mem_bitmap_init max_pfn mem = Some bm /\ bm_wf bm /\ padding_set bm /\
    nr_bits bm = max_pfn /\ base_pfn bm = 0 /\ zlen (bits bm) = nr_words bm /\
    forall q, has_bit bm q -> used bm q = true.
Proof. apply bitmap_init_ok. Qed.

(** ** Witnesses: 70 pages, the first four and those of the second word used. *)

Definition bm_example : mem_bitmap := mk_bitmap [15; ALL_ONES] 70 2 0.

Lemma bm_example_wf : bm_wf bm_example.
Proof.
  split; simpl; try done; try lia. by repeat constructor.
Defined.

Lemma bm_example_padding : padding_set bm_example.
Proof.
  intros q Hq Ht. unfold has_bit, tracked in *. simpl in *. unfold used. simpl.
  replace ((q - 0) / 64) with 1 by divlia.
  unfold zget. simpl. unfold ALL_ONES. replace (2 ^ 64 - 1) with (Z.ones 64) by done.
  apply Z.ones_spec_low. apply Z.mod_pos_bound. lia.
Defined.

Lemma mark_range_spec_witness :
  (exists bm', mem_bitmap_mark_usable bm_example 4097 20000 = Some bm' /\ bm_wf bm' /\
     same_shape bm_example bm' /\
     forall q, tracked bm_example q ->
       used bm' q = if decide (4097 <= q * 4096 /\ (q + 1) * 4096 <= 20000)
                    then false else used bm_example q) /\
  (exists bm', mem_bitmap_mark_reserved bm_example 4097 20000 = Some bm' /\ bm_wf bm' /\
     same_shape bm_example bm' /\
     forall q, tracked bm_example q ->
       used bm' q = if decide (q * 4096 < 20000 /\ 4097 < (q + 1) * 4096)
                    then true else used bm_example q).
Proof. apply (mark_range_spec bm_example 4097 20000); [apply bm_example_wf|lia..]. Defined.

Lemma bitmap_alloc_page_spec_witness :
  (exists p bm', mem_bitmap_alloc_page bm_example = Some (p, bm') /\ first_free bm_example p /\
     p ≠ NO_PFN /\ bm_wf bm' /\ same_shape bm_example bm' /\
     forall q, has_bit bm_example q ->
       used bm' q = if decide (q = p) then true else used bm_example q) \/
  (mem_bitmap_alloc_page bm_example = Some (NO_PFN, bm_example) /\
     forall q, tracked bm_example q -> used bm_example q = true).
Proof. apply (bitmap_alloc_page_spec bm_example). apply bm_example_wf. Defined.

Lemma bitmap_alloc_pages_spec_witness :
  (exists p bm', mem_bitmap_alloc_pages bm_example 8 = Some (p, bm') /\ free_run bm_example p 8 /\
     (forall p', free_run bm_example p' 8 -> p <= p') /\ bm_wf bm' /\ same_shape bm_example bm' /\
     forall q, tracked bm_example q ->
       used bm' q = if decide (p <= q < p + 8) then true else used bm_example q) \/
  (mem_bitmap_alloc_pages bm_example 8 = Some (NO_PFN, bm_example) /\
     forall p, ~ free_run bm_example p 8).
Proof. apply (bitmap_alloc_pages_spec bm_example 8); [apply bm_example_wf|lia]. Defined.

(** 60 pages are free; the count comes out as 2. *)
Lemma count_free_undercounts_witness :
  bitmap_count_free bm_example = Some 2 /\ free_count bm_example = 60 /\
  bitmap_count_free bm_example =
    Some (u64 (free_count bm_example - (64 * nr_words bm_example - nr_bits bm_example))).
Proof.
  split; [vm_compute; reflexivity|]. split; [vm_compute; reflexivity|].
  apply (count_free_undercounts bm_example bm_example_wf bm_example_padding).
Defined.

Lemma bitmap_init_spec_witness :
  exists bm, mem_bitmap_init 70 [0; 0] = Some bm /\ bm_wf bm /\ padding_set bm /\
    nr_bits bm = 70 /\ base_pfn bm = 0 /\ zlen (bits bm) = nr_words bm /\
    forall q, has_bit bm q -> used bm q = true.
Proof. apply (bitmap_init_spec 70 [0; 0]); [lia|lia|reflexivity|by repeat constructor]. Defined.
