(* ===== verification/Buddy.v ===== *)
(** * Buddy allocator (kernel/mm/buddy.c, struct page and struct zone of pmm.h)

    A [struct page *] is the page's index in [pmm.page_array] (its page frame number).  The free
    list of an area is the sequence of page frame numbers linked through [page->buddy_list]; ListHead.v
    shows that [list_add] and [list_del] act on that sequence as [cons] and removal.  The model
    fails where the C code would corrupt memory: an access to a page beyond the array, linking a
    page that is already linked, unlinking a page that is not on the list.  The zone's spinlock
    serialises the operations and is not part of the state; the fields of [struct page] that no
    function of the kernel reads ([refcount], [mapcount], [private], [virtual]) are left out. *)
From S2P Require Import Prelude Defs.

(** ** The code *)

Definition MAX_ORDER : Z := 11.

Definition PG_RESERVED : Z := Z.shiftl 1 0.
Definition PG_BUDDY : Z := Z.shiftl 1 1.
Definition PG_SLAB : Z := Z.shiftl 1 2.
Definition PG_COMPOUND : Z := Z.shiftl 1 3.
Definition PG_HEAD : Z := Z.shiftl 1 4.
Definition PG_TAIL : Z := Z.shiftl 1 5.
Definition PG_KERNEL : Z := Z.shiftl 1 10.

Record page := mk_page {
  pg_flags : Z;              (* u32 flags *)
  pg_order : Z;              (* u32 order *)
  pg_zone_id : Z;            (* u8 zone_id *)
  pg_head : option Z         (* struct page *head; None is NULL *)
}.

Record free_area := mk_area {
  free_list : list Z;
  nr_free : Z
}.

Record zone := mk_zone {
  start_pfn : Z;
  end_pfn : Z;
  present_pages : Z;
  free_pages : Z;
  areas : list free_area;    (* free_area[MAX_ORDER] *)
  alloc_count : Z;
  free_count : Z
}.

Definition page_set_flag (flag : Z) (p : page) : page :=
  mk_page (Z.lor (pg_flags p) flag) (pg_order p) (pg_zone_id p) (pg_head p).
Definition page_clear_flag (flag : Z) (p : page) : page :=
  mk_page (Z.land (pg_flags p) (lnotw 32 flag)) (pg_order p) (pg_zone_id p) (pg_head p).
Definition page_set_order (order : Z) (p : page) : page :=
  mk_page (pg_flags p) order (pg_zone_id p) (pg_head p).
Definition page_set_head (head : option Z) (p : page) : page :=
  mk_page (pg_flags p) (pg_order p) (pg_zone_id p) head.
Definition page_has (flag : Z) (p : page) : bool := ztrue (Z.land (pg_flags p) flag).

Definition with_areas (z : zone) (l : list free_area) : zone :=
  mk_zone (start_pfn z) (end_pfn z) (present_pages z) (free_pages z) l
    (alloc_count z) (free_count z).
Definition with_free_pages (z : zone) (n : Z) : zone :=
  mk_zone (start_pfn z) (end_pfn z) (present_pages z) (u64 n) (areas z)
    (alloc_count z) (free_count z).
Definition count_alloc (z : zone) : zone :=
  mk_zone (start_pfn z) (end_pfn z) (present_pages z) (free_pages z) (areas z)
    (u64 (alloc_count z + 1)) (free_count z).
Definition count_free (z : zone) : zone :=
  mk_zone (start_pfn z) (end_pfn z) (present_pages z) (free_pages z) (areas z)
    (alloc_count z) (u64 (free_count z + 1)).

Definition buddy_pfn (pfn order : Z) : Z := Z.lxor pfn (Z.shiftl 1 order).
Definition combined_pfn (pfn order : Z) : Z := Z.land pfn (lnotw 64 (Z.shiftl 1 order)).

(** The page is only read after the zone bounds have been checked. *)
Definition page_is_buddy (z : zone) (pa : list page) (buddy order : Z) : option bool :=
  if (buddy <? start_pfn z) || (end_pfn z <=? buddy) then Some false
  else
    pg ← zget pa buddy;
    if negb (page_has PG_BUDDY pg) then Some false
    else Some (pg_order pg =? order).

(** The page is linked on some free list of the zone. *)
Definition linked (z : zone) (p : Z) : bool :=
  existsb (fun a => bool_decide (p ∈ free_list a)) (areas z).

Definition add_to_free_area (pa : list page) (z : zone) (pg area order : Z)
  : option (list page * zone) :=
  if linked z pg then None else
  a ← zget (areas z) area;
  l ← zset (areas z) area (mk_area (pg :: free_list a) (u64 (nr_free a + 1)));
  pa ← zupd pa pg (fun p => page_set_flag PG_BUDDY (page_set_order order p));
  Some (pa, with_areas z l).

Definition remove_from_free_area (pa : list page) (z : zone) (pg area : Z)
  : option (list page * zone) :=
  a ← zget (areas z) area;
  if decide (pg ∈ free_list a) then
    l ← zset (areas z) area (mk_area (filter (fun x => x ≠ pg) (free_list a)) (u64 (nr_free a - 1)));
    pa ← zupd pa pg (page_clear_flag PG_BUDDY);
    Some (pa, with_areas z l)
  else None.

(** [while (high > low)], with [n = high - low] iterations left. *)
Fixpoint expand_loop (n : nat) (pa : list page) (z : zone) (pg size high : Z)
  : option (list page * zone) :=
  match n with
  | O => Some (pa, z)
  | S n' =>
      let high := high - 1 in
      let size := Z.shiftr size 1 in
      '(pa, z) ← add_to_free_area pa z (pg + size) high high;
      expand_loop n' pa (with_free_pages z (free_pages z + Z.shiftl 1 high)) pg size high
  end.

Definition expand (pa : list page) (z : zone) (pg low high : Z) : option (list page * zone) :=
  expand_loop (Z.to_nat (high - low)) pa z pg (u32 (Z.shiftl 1 high)) high.

(** The scan [for (current_order = order; current_order < MAX_ORDER; current_order++)]. *)
Fixpoint alloc_scan (n : nat) (pa : list page) (z : zone) (order current_order : Z)
  : option (option Z * list page * zone) :=
  match n with
  | O => Some (None, pa, z)
  | S n' =>
      area ← zget (areas z) current_order;
      match free_list area with
      | [] => alloc_scan n' pa z order (current_order + 1)
      | pg :: _ =>
          '(pa, z) ← remove_from_free_area pa z pg current_order;
          '(pa, z) ← (if order <? current_order then expand pa z pg order current_order
                      else Some (pa, z));
          Some (Some pg, pa,
                count_alloc (with_free_pages z (free_pages z - Z.shiftl 1 order)))
      end
  end.

(** The result is the allocated page, or [None] for NULL. *)
Definition buddy_alloc_pages (pa : list page) (z : zone) (order : Z)
  : option (option Z * list page * zone) :=
  if MAX_ORDER <=? order then Some (None, pa, z)
  else alloc_scan (Z.to_nat (MAX_ORDER - order)) pa z order order.

(** [while (order < MAX_ORDER - 1)], at most [n] more iterations: the block after coalescing. *)
Fixpoint coalesce (n : nat) (pa : list page) (z : zone) (pfn order : Z)
  : option (list page * zone * Z * Z) :=
  match n with
  | O => Some (pa, z, pfn, order)
  | S n' =>
      let b := buddy_pfn pfn order in
      mergeable ← page_is_buddy z pa b order;
      if (mergeable : bool) then
        '(pa, z) ← remove_from_free_area pa z b order;
        coalesce n' pa z (combined_pfn pfn order) (order + 1)
      else Some (pa, z, pfn, order)
  end.

Definition buddy_free_pages (pa : list page) (z : zone) (pg order : Z)
  : option (list page * zone) :=
  if MAX_ORDER <=? order then Some (pa, z) else
  '(pa, z, pfn, order) ← coalesce (Z.to_nat (MAX_ORDER - 1 - order)) pa z pg order;
  '(pa, z) ← add_to_free_area pa z pfn order order;
  Some (pa, count_free (with_free_pages z (free_pages z + Z.shiftl 1 order))).

Definition buddy_init_zone (z : zone) : zone :=
  with_areas z (replicate (Z.to_nat MAX_ORDER) (mk_area [] 0)).

(** [for (order = MAX_ORDER - 1; order > 0; order--)]: the largest aligned block that fits. *)
Fixpoint pick_order (order : nat) (pfn fin : Z) : Z :=
  match order with
  | O => 0
  | S o' =>
      let block_pages := Z.shiftl 1 (Z.of_nat order) in
      if ztrue (Z.land pfn (block_pages - 1)) then pick_order o' pfn fin
      else if fin <? u64 (pfn + block_pages) then pick_order o' pfn fin
      else Z.of_nat order
  end.

(** [while (pfn < end_pfn)]; every iteration adds at least one page, so [end_pfn - start_pfn]
    iterations are enough.  Running out of them fails. *)
Fixpoint add_pages_loop (n : nat) (pa : list page) (z : zone) (pfn fin : Z)
  : option (list page * zone) :=
  if fin <=? pfn then Some (pa, z) else
  match n with
  | O => None
  | S n' =>
      let order := pick_order (Z.to_nat (MAX_ORDER - 1)) pfn fin in
      '(pa, z) ← add_to_free_area pa z pfn order order;
      add_pages_loop n' pa (with_free_pages z (free_pages z + Z.shiftl 1 order))
        (u64 (pfn + Z.shiftl 1 order)) fin
  end.

Definition buddy_add_pages (pa : list page) (z : zone) (start nr_pages : Z)
  : option (list page * zone) :=
  let fin := u64 (start + nr_pages) in
  add_pages_loop (Z.to_nat (fin - start)) pa z start fin.

(** What [buddy_verify_integrity] reports through kprintf. *)
Inductive integrity_error :=
  | MissingFlag (pg order : Z)
  | WrongOrder (pg pg_order order : Z)
  | WrongCount (order count nr_free : Z).

Definition verify_page (pa : list page) (order : Z) (pg : Z) : option (list integrity_error) :=
  p ← zget pa pg;
  Some ((if page_has PG_BUDDY p then [] else [MissingFlag pg order]) ++
        (if pg_order p =? order then [] else [WrongOrder pg (pg_order p) order])).

Definition verify_area (pa : list page) (order : Z) (a : free_area)
  : option (list integrity_error) :=
  errs ← mapM (verify_page pa order) (free_list a);
  let count := zlen (free_list a) in
  Some (concat errs ++ (if count =? nr_free a then [] else [WrongCount order count (nr_free a)])).

Definition buddy_verify_integrity (pa : list page) (z : zone) : option (list integrity_error) :=
  errs ← mapM (fun order => a ← zget (areas z) order; verify_area pa order a)
           (seqZ 0 MAX_ORDER);
  Some (concat errs).

(** The rows of [buddy_dump_free_areas]: order, pages per block, free blocks. *)
Definition buddy_dump_free_areas (z : zone) : option (list (Z * Z * Z)) :=
  mapM (fun order => a ← zget (areas z) order; Some (order, Z.shiftl 1 order, nr_free a))
    (seqZ 0 MAX_ORDER).

(** ** The abstract state of a zone

    [on_list z o p]: a free block of [2^o] pages starts at page [p].  [free_at z q]: page [q]
    belongs to a free block. *)

Definition on_list (z : zone) (o p : Z) : Prop :=
  exists a, zget (areas z) o = Some a /\ p ∈ free_list a.

Definition in_block (p o q : Z) : Prop := p <= q < p + 2 ^ o.

Definition free_at (z : zone) (q : Z) : Prop := exists o p, on_list z o p /\ in_block p o q.

Definition is_buddy_page (pa : list page) (p o : Z) : Prop :=
  exists pg, zget pa p = Some pg /\ page_has PG_BUDDY pg = true /\ pg_order pg = o.

(** The part of the zone the page array covers ends here. *)
Definition zone_limit (pa : list page) (z : zone) : Z := Z.min (end_pfn z) (zlen pa).

(** A block of order [o] at [p] that lies in the zone and in the page array and is naturally
    aligned. *)
Definition block_ok (pa : list page) (z : zone) (p o : Z) : Prop :=
  0 <= o < MAX_ORDER /\ start_pfn z <= p /\ p + 2 ^ o <= zone_limit pa z /\ (2 ^ o | p).

Ltac blia := unfold zone_limit in *; lia.

(** The page array has an entry for every buddy that a free looks at: it reaches to the end of the
    zone, or its length is a multiple of the largest block. *)
Definition array_covers (n fin : Z) : Prop := fin <= n \/ (2 ^ (MAX_ORDER - 1) | n).
Definition covered (pa : list page) (z : zone) : Prop := array_covers (zlen pa) (end_pfn z).

(** The invariant of a zone over the page array. *)
Record zone_inv (pa : list page) (z : zone) : Prop := {
  zi_areas : zlen (areas z) = MAX_ORDER;
  zi_bounds : 0 <= start_pfn z /\ zlen pa < 2 ^ 52;
  zi_block : forall o p, on_list z o p -> block_ok pa z p o /\ is_buddy_page pa p o;
  zi_flag : forall p o, start_pfn z <= p < end_pfn z -> is_buddy_page pa p o -> on_list z o p;
  zi_lists : forall o a, zget (areas z) o = Some a ->
    NoDup (free_list a) /\ nr_free a = zlen (free_list a);
  zi_disjoint : forall o p o' p' q, on_list z o p -> on_list z o' p' ->
    in_block p o q -> in_block p' o' q -> o = o' /\ p = p'
}.

(** The number of pages on the free lists, and the weight of the lists from order [k] on. *)
Fixpoint weigh (k : Z) (l : list free_area) : Z :=
  match l with
  | [] => 0
  | a :: t => 2 ^ k * zlen (free_list a) + weigh (k + 1) t
  end.

Definition total_free (z : zone) : Z := weigh 0 (areas z).

(** Fields of a zone the free lists do not touch. *)
Definition same_zone (z z' : zone) : Prop :=
  start_pfn z' = start_pfn z /\ end_pfn z' = end_pfn z /\ present_pages z' = present_pages z.

(** Pages outside [p, p + n) are unchanged, and nothing but flags and order ever changes. *)
Definition pages_frame (pa pa' : list page) (lo hi : Z) : Prop :=
  zlen pa' = zlen pa /\
  (forall q, ~ (lo <= q < hi) -> zget pa' q = zget pa q) /\
  (forall q, pg_zone_id <$> zget pa' q = pg_zone_id <$> zget pa q).

(** ** Arithmetic of blocks *)

Lemma pow2_pos o : 0 <= o -> 0 < 2 ^ o.
Proof. intros. apply Z.pow_pos_nonneg; blia. Qed.

Lemma shl1 o : 0 <= o -> Z.shiftl 1 o = 2 ^ o.
Proof. intros. rewrite Z.shiftl_mul_pow2; blia. Qed.

Lemma pow2_le_1024 o : 0 <= o < MAX_ORDER -> 1 <= 2 ^ o <= 1024.
Proof.
  unfold MAX_ORDER. intros H. pose proof (pow2_pos o ltac:(blia)).
  pose proof (Z.pow_le_mono_r 2 o 10 ltac:(blia) ltac:(blia)). blia.
Qed.

Lemma aligned_testbit p o i : 0 <= o -> (2 ^ o | p) -> i < o -> Z.testbit p i = false.
Proof.
  intros Ho [k ->] Hi. destruct (decide (0 <= i)); [|by apply Z.testbit_neg_r; blia].
  apply Z.mul_pow2_bits_low. blia.
Qed.

(** The buddy of an aligned block is the block of the same size next to it, on the side given by
    bit [o]; clearing that bit gives the lower of the two. *)
Lemma buddy_spec p o :
  0 <= o -> 0 <= p < 2 ^ 64 -> (2 ^ o | p) -> o < 64 ->
  (buddy_pfn p o = p + 2 ^ o /\ combined_pfn p o = p /\ (2 ^ (o + 1) | p)) \/
  (buddy_pfn p o = p - 2 ^ o /\ combined_pfn p o = p - 2 ^ o /\ (2 ^ (o + 1) | p - 2 ^ o)).
Proof.
  intros Ho Hp [k ->] Ho64. pose proof (pow2_pos o Ho) as Hpos.
  unfold buddy_pfn, combined_pfn. rewrite shl1 by done.
  assert (0 <= k) as Hk by nia.
  assert (forall i, 0 <= i -> Z.testbit (2 ^ o) i = bool_decide (i = o)) as Hbit.
  { intros i Hi. rewrite <- shl1 by done. by apply pow2_testbit. }
  assert (Z.land (k * 2 ^ o) (lnotw 64 (2 ^ o)) = Z.ldiff (k * 2 ^ o) (2 ^ o)) as ->.
  { apply Z.bits_inj'. intros i Hi. rewrite Z.land_spec, Z.ldiff_spec, lnotw_testbit by blia.
    destruct (decide (i < 64)).
    - rewrite (bool_decide_true (i < 64)) by done. by rewrite xorb_true_r.
    - rewrite (testbit_above 64 _ i) by (unfold fits; blia). done. }
  rewrite Z.pow_add_r by blia. change (2 ^ 1) with 2.
  assert (Z.testbit (k * 2 ^ o) o = Z.odd k) as Hodd.
  { rewrite Z.mul_pow2_bits by blia. rewrite Z.sub_diag. apply Z.bit0_odd. }
  destruct (Z.odd k) eqn:Ek.
  - right. apply Z.odd_spec in Ek as [m ->].
    assert (Z.ldiff ((2 * m + 1) * 2 ^ o) (2 ^ o) = (2 * m + 1) * 2 ^ o - 2 ^ o) as E.
    { rewrite (Z.sub_nocarry_ldiff _ (2 ^ o)); [done|].
      apply Z.bits_inj'. intros i Hi. rewrite Z.bits_0, Z.ldiff_spec, Hbit by done.
      case_bool_decide; [|done]. subst. by rewrite Hodd. }
    rewrite E. split; [|split; [done|]].
    + transitivity (Z.ldiff ((2 * m + 1) * 2 ^ o) (2 ^ o)); [|done].
      apply Z.bits_inj'. intros i Hi. rewrite Z.lxor_spec, Z.ldiff_spec, Hbit by done.
      case_bool_decide; [subst; by rewrite Hodd|]. by rewrite xorb_false_r, andb_true_r.
    + exists m. blia.
  - left. assert (Z.even k = true) as Ev by (rewrite <- Z.negb_odd, Ek; done).
    apply Z.even_spec in Ev as [m ->].
    split; [|split].
    + rewrite <- Z.add_nocarry_lxor; [done|].
      apply Z.bits_inj'. intros i Hi. rewrite Z.bits_0, Z.land_spec, Hbit by done.
      case_bool_decide; [subst; by rewrite Hodd|apply andb_false_r].
    + apply Z.bits_inj'. intros i Hi. rewrite Z.ldiff_spec, Hbit by done.
      case_bool_decide; [subst; by rewrite Hodd|apply andb_true_r].
    + exists m. blia.
Qed.

(** ** Linking and unlinking one block *)

Lemma on_list_zset z ix a l o q :
  zset (areas z) ix a = Some l ->
  on_list (with_areas z l) o q <-> if decide (o = ix) then q ∈ free_list a else on_list z o q.
Proof.
  rewrite zset_zupd. intros E. unfold on_list. simpl.
  setoid_rewrite (zget_zupd _ _ _ _ _ E).
  case_decide as Ho; [subst o|done].
  assert (is_Some (zget (areas z) ix)) as [b Hb].
  { unfold zupd in E. destruct (zget (areas z) ix); [eauto|done]. }
  rewrite Hb. simpl. split; [intros (? & [= <-] & ?); done|eauto].
Qed.

Lemma weigh_insert k l (i : nat) a a' :
  l !! i = Some a ->
  weigh k (<[i := a']> l) =
    weigh k l + 2 ^ (k + Z.of_nat i) * (zlen (free_list a') - zlen (free_list a)).
Proof.
  revert k i. induction l as [|b l IH]; intros k i Hi; [done|].
  destruct i as [|i].
  - replace (k + Z.of_nat 0) with k by blia. simpl in Hi |- *. injection Hi as ->. ring.
  - replace (k + Z.of_nat (S i)) with (k + 1 + Z.of_nat i) by blia.
    simpl in Hi |- *. rewrite (IH (k + 1) i Hi). ring.
Qed.

Lemma total_free_zset z o a a' l :
  zget (areas z) o = Some a -> zset (areas z) o a' = Some l ->
  total_free (with_areas z l) =
    total_free z + 2 ^ o * (zlen (free_list a') - zlen (free_list a)).
Proof.
  intros Ha Hl. unfold zset in Hl. rewrite Ha in Hl. injection Hl as <-.
  apply zget_lookup in Ha as [Ho Ha]. unfold total_free. simpl.
  rewrite (weigh_insert _ _ _ _ _ Ha), Z2Nat.id by done. done.
Qed.

Lemma linked_spec z p : linked z p = true <-> exists o, on_list z o p.
Proof.
  unfold linked. rewrite existsb_exists. split.
  - intros (a & Ha & Hp). rewrite bool_decide_eq_true in Hp.
    apply list_elem_of_In, list_elem_of_lookup in Ha as [i Hi].
    exists (Z.of_nat i), a. by rewrite zget_nat.
  - intros (o & a & Ha & Hp). apply zget_lookup in Ha as [_ Ha]. exists a.
    split; [apply list_elem_of_In, list_elem_of_lookup; eauto|by rewrite bool_decide_eq_true].
Qed.

Lemma area_exists pa z o : zone_inv pa z -> 0 <= o < MAX_ORDER -> exists a, zget (areas z) o = Some a.
Proof. intros Hi Ho. apply zget_Some. by rewrite (zi_areas _ _ Hi). Qed.

(** A free list holds no more blocks than there are pages. *)
Lemma free_list_length pa z o a :
  zone_inv pa z -> zget (areas z) o = Some a -> zlen (free_list a) <= zlen pa.
Proof.
  intros Hi Ha. apply NoDup_bounded_length; [unfold zlen; blia|by apply (zi_lists _ _ Hi o)|].
  intros x Hx. destruct (zi_block _ _ Hi o x) as [(Ho & ? & ? & _) _]; [by exists a|].
  pose proof (zi_bounds _ _ Hi). pose proof (pow2_le_1024 o Ho). blia.
Qed.

Lemma has_buddy_set p o : page_has PG_BUDDY (page_set_flag PG_BUDDY (page_set_order o p)) = true.
Proof.
  unfold page_has, PG_BUDDY. rewrite ztrue_land_bit by blia. simpl pg_flags.
  rewrite Z.lor_spec, pow2_testbit by blia. apply orb_true_r.
Qed.

Lemma has_buddy_clear p : page_has PG_BUDDY (page_clear_flag PG_BUDDY p) = false.
Proof.
  unfold page_has, PG_BUDDY. rewrite ztrue_land_bit by blia. simpl pg_flags.
  rewrite Z.land_spec, lnotw_testbit, pow2_testbit by blia. apply andb_false_r.
Qed.

(** Which pages look like free blocks after one page's metadata was rewritten. *)
Lemma is_buddy_upd pa pa' p f q o :
  zupd pa p f = Some pa' -> q ≠ p -> is_buddy_page pa' q o <-> is_buddy_page pa q o.
Proof.
  intros E Hq. unfold is_buddy_page. rewrite (zget_zupd _ _ _ _ _ E), decide_False by done. done.
Qed.

Lemma pages_frame_upd pa pa' p f lo hi :
  zupd pa p f = Some pa' -> lo <= p < hi -> (forall g, pg_zone_id (f g) = pg_zone_id g) ->
  pages_frame pa pa' lo hi.
Proof.
  intros E Hp Hf. split; [by eapply zupd_length|]. split; intros q; rewrite (zget_zupd _ _ _ _ _ E).
  - intros Hq. rewrite decide_False; [done|]. by intros ->.
  - case_decide; [|done]. destruct (zget pa q); simpl; [by rewrite Hf|done].
Qed.

Lemma pages_frame_refl pa lo hi : pages_frame pa pa lo hi.
Proof. done. Qed.

Lemma pages_frame_trans pa1 pa2 pa3 lo hi :
  pages_frame pa1 pa2 lo hi -> pages_frame pa2 pa3 lo hi -> pages_frame pa1 pa3 lo hi.
Proof.
  intros (A1 & A2 & A3) (B1 & B2 & B3). split; [congruence|].
  split; intros q; [intros Hq; by rewrite B2, A2|by rewrite B3, A3].
Qed.

Lemma block_ok_ext pa pa' z z' p o :
  zlen pa' = zlen pa -> start_pfn z' = start_pfn z -> end_pfn z' = end_pfn z ->
  block_ok pa z p o -> block_ok pa' z' p o.
Proof. intros E1 E2 E3. unfold block_ok, zone_limit. by rewrite E1, E2, E3. Qed.

(** The effect of linking: one more block. *)
Lemma add_to_free_area_ok pa z p o :
  zone_inv pa z -> block_ok pa z p o -> (forall q, in_block p o q -> ~ free_at z q) ->
  exists pa' l, add_to_free_area pa z p o o = Some (pa', with_areas z l) /\
    zone_inv pa' (with_areas z l) /\
    (forall o' q, on_list (with_areas z l) o' q <-> on_list z o' q \/ (o' = o /\ q = p)) /\
    pages_frame pa pa' (start_pfn z) (end_pfn z) /\
    total_free (with_areas z l) = total_free z + 2 ^ o.
Proof.
  intros Hi Hb Hfree. pose proof Hb as (Ho & Hlo & Hhi & Hal). pose proof (pow2_le_1024 o Ho) as Hpow.
  assert (in_block p o p) as Hpp by (unfold in_block; blia).
  assert (forall o', ~ on_list z o' p) as Hnot.
  { intros o' Hon. apply (Hfree p Hpp). exists o', p. split; [done|].
    destruct (zi_block _ _ Hi _ _ Hon) as [(Ho' & _) _]. pose proof (pow2_le_1024 o' Ho').
    unfold in_block. blia. }
  unfold add_to_free_area.
  destruct (linked z p) eqn:El; [apply linked_spec in El as [o' ?]; by apply Hnot in H|].
  destruct (area_exists pa z o Hi Ho) as [a Ha]. rewrite Ha. simpl.
  destruct (zi_lists _ _ Hi _ _ Ha) as [Hnd Hcnt].
  assert (p ∉ free_list a) as Hpa by (intros ?; apply (Hnot o); exists a; done).
  assert (u64 (nr_free a + 1) = zlen (p :: free_list a)) as Hcnt'.
  { pose proof (free_list_length _ _ _ _ Hi Ha) as Hlen. pose proof (zi_bounds _ _ Hi). rewrite Hcnt. unfold zlen in *. simpl length.
    rewrite u64_small; blia. }
  destruct (zset (areas z) o (mk_area (p :: free_list a) (u64 (nr_free a + 1)))) as [l|] eqn:El'.
  2: { unfold zset in El'. by rewrite Ha in El'. }
  destruct (zupd_Some pa p (fun g => page_set_flag PG_BUDDY (page_set_order o g))) as [pa' Hpa'].
  { pose proof (zi_bounds _ _ Hi). blia. }
  simpl. rewrite Hpa'. simpl. exists pa', l. split; [done|].
  assert (forall o' q, on_list (with_areas z l) o' q <-> on_list z o' q \/ (o' = o /\ q = p)) as Hon.
  { intros o' q. rewrite (on_list_zset _ _ _ _ _ _ El'). case_decide as E; simpl.
    - subst o'. rewrite elem_of_cons. unfold on_list. rewrite Ha. naive_solver.
    - naive_solver. }
  split; [|split; [done|split; [apply (pages_frame_upd _ _ _ _ _ _ Hpa'); [blia|done]|]]].
  2: { rewrite (total_free_zset _ _ _ _ _ Ha El'). unfold zlen. simpl length. blia. }
  destruct (zupd_Some pa p (fun g => g)) as [? Hg]; [pose proof (zi_bounds _ _ Hi); blia|].
  assert (is_buddy_page pa' p o) as Hnew.
  { unfold is_buddy_page. rewrite (zget_zupd _ _ _ _ _ Hpa'), decide_True by done.
    unfold zupd in Hg. destruct (zget pa p) as [g|]; [|done].
    eexists. split; [done|]. split; [apply has_buddy_set|done]. }
  split.
  - simpl. unfold zlen. rewrite zset_zupd in El'. apply zupd_length in El'. unfold zlen in El'.
    rewrite El'. apply (zi_areas _ _ Hi).
  - simpl. rewrite (zupd_length _ _ _ _ Hpa'). apply (zi_bounds _ _ Hi).
  - intros o' q Hq. apply Hon in Hq as [Hq|[-> ->]]; [|split; [|done]].
    2: by apply (block_ok_ext pa _ z); [by eapply zupd_length|..].
    destruct (zi_block _ _ Hi _ _ Hq) as [Hbk Hbd].
    split; [by apply (block_ok_ext pa _ z); [by eapply zupd_length|..]|].
    apply (is_buddy_upd _ _ _ _ _ _ Hpa'); [|done]. intros ->. by apply (Hnot o').
  - simpl. intros q o' Hq Hbd. apply Hon. destruct (decide (q = p)) as [->|Hne].
    + right. split; [|done]. destruct Hnew as (g & Hg1 & _ & Hg2), Hbd as (g' & Hg1' & _ & Hg2').
      congruence.
    + left. apply (zi_flag _ _ Hi); [done|]. by apply (is_buddy_upd _ _ _ _ _ _ Hpa').
  - simpl. intros o' a' Ha'. rewrite zset_zupd in El'. rewrite (zget_zupd _ _ _ _ _ El') in Ha'.
    case_decide as E; [|by apply (zi_lists _ _ Hi o')].
    subst o'. rewrite Ha in Ha'. injection Ha' as <-. simpl. split; [by apply NoDup_cons|done].
  - intros o1 p1 o2 p2 q H1 H2 B1 B2.
    apply Hon in H1 as [H1|[-> ->]], H2 as [H2|[-> ->]].
    + by apply (zi_disjoint _ _ Hi o1 p1 o2 p2 q).
    + exfalso. apply (Hfree q B2). by exists o1, p1.
    + exfalso. apply (Hfree q B1). by exists o2, p2.
    + done.
Qed.

(** The effect of unlinking: one block less. *)
Lemma remove_from_free_area_ok pa z p o :
  zone_inv pa z -> on_list z o p ->
  exists pa' l, remove_from_free_area pa z p o = Some (pa', with_areas z l) /\
    zone_inv pa' (with_areas z l) /\
    (forall o' q, on_list (with_areas z l) o' q <-> on_list z o' q /\ ~ (o' = o /\ q = p)) /\
    pages_frame pa pa' (start_pfn z) (end_pfn z) /\
    total_free (with_areas z l) = total_free z - 2 ^ o.
Proof.
  intros Hi Hp. pose proof (zi_block _ _ Hi _ _ Hp) as [(Ho & Hlo & Hhi & Hal) Hbp].
  pose proof (pow2_le_1024 o Ho) as Hpow. pose proof Hp as (a & Ha & Hin).
  unfold remove_from_free_area. rewrite Ha. simpl. rewrite decide_True by done.
  destruct (zi_lists _ _ Hi _ _ Ha) as [Hnd Hcnt].
  assert (u64 (nr_free a - 1) = zlen (filter (fun x => x ≠ p) (free_list a))) as Hcnt'.
  { pose proof (free_list_length _ _ _ _ Hi Ha) as Hlen. pose proof (zi_bounds _ _ Hi). pose proof (filter_ne_length _ _ Hnd Hin) as Hf.
    rewrite Hcnt, Hf. unfold zlen in *. rewrite u64_small; blia. }
  destruct (zset (areas z) o (mk_area (filter (fun x => x ≠ p) (free_list a)) (u64 (nr_free a - 1))))
    as [l|] eqn:El'.
  2: { unfold zset in El'. by rewrite Ha in El'. }
  destruct (zupd_Some pa p (page_clear_flag PG_BUDDY)) as [pa' Hpa'].
  { pose proof (zi_bounds _ _ Hi). blia. }
  simpl. rewrite Hpa'. simpl. exists pa', l. split; [done|].
  assert (forall o' q, on_list (with_areas z l) o' q <-> on_list z o' q /\ ~ (o' = o /\ q = p)) as Hon.
  { intros o' q. rewrite (on_list_zset _ _ _ _ _ _ El'). case_decide as E; simpl.
    - subst o'. rewrite list_elem_of_filter. unfold on_list. rewrite Ha. naive_solver.
    - naive_solver. }
  split; [|split; [done|split; [apply (pages_frame_upd _ _ _ _ _ _ Hpa'); [blia|done]|]]].
  2: { rewrite (total_free_zset _ _ _ _ _ Ha El'). simpl free_list.
       rewrite (filter_ne_length _ _ Hnd Hin). blia. }
  assert (forall o', ~ is_buddy_page pa' p o') as Hgone.
  { intros o' (g & Hg & Hf & _). rewrite (zget_zupd _ _ _ _ _ Hpa'), decide_True in Hg by done.
    destruct (zget pa p); simplify_eq/=. by rewrite has_buddy_clear in Hf. }
  split.
  - simpl. unfold zlen. rewrite zset_zupd in El'. apply zupd_length in El'. unfold zlen in El'.
    rewrite El'. apply (zi_areas _ _ Hi).
  - simpl. rewrite (zupd_length _ _ _ _ Hpa'). apply (zi_bounds _ _ Hi).
  - intros o' q Hq. apply Hon in Hq as [Hq Hne].
    destruct (zi_block _ _ Hi _ _ Hq) as [Hbk Hbd].
    split; [by apply (block_ok_ext pa _ z); [by eapply zupd_length|..]|].
    apply (is_buddy_upd _ _ _ _ _ _ Hpa'); [|done]. intros ->. apply Hne. split; [|done].
    destruct Hbp as (g & Hg1 & _ & Hg2), Hbd as (g' & Hg1' & _ & Hg2'). congruence.
  - simpl. intros q o' Hq Hbd. destruct (decide (q = p)) as [->|Hne]; [by apply Hgone in Hbd|].
    apply Hon. split; [|naive_solver]. apply (zi_flag _ _ Hi); [done|].
    by apply (is_buddy_upd _ _ _ _ _ _ Hpa').
  - simpl. intros o' a' Ha'. rewrite zset_zupd in El'. rewrite (zget_zupd _ _ _ _ _ El') in Ha'.
    case_decide as E; [|by apply (zi_lists _ _ Hi o')].
    subst o'. rewrite Ha in Ha'. injection Ha' as <-. simpl. split; [by apply NoDup_filter|done].
  - intros o1 p1 o2 p2 q H1 H2 B1 B2.
    apply Hon in H1 as [H1 _], H2 as [H2 _]. by apply (zi_disjoint _ _ Hi o1 p1 o2 p2 q).
Qed.

(** ** Steps of the allocator *)

(** A step that keeps the invariant, the zone's bounds, and all pages outside the zone. *)
Definition zstep (pa : list page) (z : zone) (pa' : list page) (z' : zone) : Prop :=
  zone_inv pa' z' /\ same_zone z z' /\ pages_frame pa pa' (start_pfn z) (end_pfn z).

Lemma zstep_refl pa z : zone_inv pa z -> zstep pa z pa z.
Proof. done. Qed.

Lemma zstep_trans pa1 z1 pa2 z2 pa3 z3 :
  zstep pa1 z1 pa2 z2 -> zstep pa2 z2 pa3 z3 -> zstep pa1 z1 pa3 z3.
Proof.
  intros (A1 & (A2 & A3 & A4) & A5) (B1 & (B2 & B3 & B4) & B5).
  split; [done|]. split; [unfold same_zone; intuition congruence|].
  rewrite A2, A3 in B5. by eapply pages_frame_trans.
Qed.

(** Statistics do not matter to the lists. *)
Definition same_lists (z z' : zone) : Prop := areas z' = areas z /\ same_zone z z'.

Lemma same_lists_on z z' o p : same_lists z z' -> on_list z' o p <-> on_list z o p.
Proof. intros [E _]. unfold on_list. by rewrite E. Qed.

Lemma same_lists_free z z' q : same_lists z z' -> free_at z' q <-> free_at z q.
Proof. intros H. unfold free_at. by setoid_rewrite (same_lists_on _ _ _ _ H). Qed.

Lemma same_lists_inv pa z z' : same_lists z z' -> zone_inv pa z -> zone_inv pa z'.
Proof.
  intros HS [H1 H2 H3 H4 H5 H6]. pose proof HS as [E (E1 & E2 & E3)].
  assert (forall o p, on_list z' o p <-> on_list z o p) as Hon by (intros; by apply same_lists_on).
  split.
  - by rewrite E.
  - by rewrite E1.
  - intros o p Hp. apply Hon in Hp. destruct (H3 o p Hp) as [HB ?].
    split; [by apply (block_ok_ext pa _ z)|done].
  - intros p o. rewrite E1, E2. intros Hp Hb. apply Hon. by apply H4.
  - rewrite E. done.
  - intros o p o' p' q Ha Hb. apply Hon in Ha, Hb. by apply H6.
Qed.

Lemma same_lists_zstep pa z z' : zone_inv pa z -> same_lists z z' -> zstep pa z pa z'.
Proof. intros Hi HS. split; [by eapply same_lists_inv|]. split; [apply HS|apply pages_frame_refl]. Qed.

Lemma free_at_add z z' p o :
  (forall o' q, on_list z' o' q <-> on_list z o' q \/ (o' = o /\ q = p)) ->
  forall q, free_at z' q <-> free_at z q \/ in_block p o q.
Proof. intros Hon q. unfold free_at. setoid_rewrite Hon. naive_solver. Qed.

Lemma free_at_remove pa z z' p o :
  zone_inv pa z -> on_list z o p ->
  (forall o' q, on_list z' o' q <-> on_list z o' q /\ ~ (o' = o /\ q = p)) ->
  forall q, free_at z' q <-> free_at z q /\ ~ in_block p o q.
Proof.
  intros Hi Hp Hon q. unfold free_at. setoid_rewrite Hon. split.
  - intros (o' & p' & (H1 & H2) & Hb). split; [eauto|]. intros Hb'. apply H2.
    by apply (zi_disjoint _ _ Hi o' p' o p q).
  - intros ((o' & p' & H1 & Hb) & Hn). exists o', p'. split; [|done]. split; [done|].
    intros [-> ->]. done.
Qed.

(** Splitting a block down from order [o + n] to order [o]: the upper halves become free blocks,
    the lowest [2^o] pages stay out of the lists. *)
Lemma expand_loop_ok n pa z p o :
  zone_inv pa z -> 0 <= o -> block_ok pa z p (o + Z.of_nat n) ->
  (forall q, in_block p (o + Z.of_nat n) q -> ~ free_at z q) ->
  exists pa' z', expand_loop n pa z p (2 ^ (o + Z.of_nat n)) (o + Z.of_nat n) = Some (pa', z') /\
    zstep pa z pa' z' /\
    (forall q, free_at z' q <->
       free_at z q \/ (in_block p (o + Z.of_nat n) q /\ ~ in_block p o q)) /\
    total_free z' = total_free z + 2 ^ (o + Z.of_nat n) - 2 ^ o /\
    u64 (free_pages z') = u64 (free_pages z + 2 ^ (o + Z.of_nat n) - 2 ^ o) /\
    alloc_count z' = alloc_count z /\ free_count z' = free_count z.
Proof.
  revert pa z. induction n as [|n IH]; intros pa z Hi Ho Hb Hfree.
  - exists pa, z. replace (o + Z.of_nat 0) with o in * by blia. simpl. split; [done|].
    split; [by apply zstep_refl|]. split; [intros q; tauto|].
    replace (free_pages z + 2 ^ o - 2 ^ o) with (free_pages z) by blia.
    split; [blia|done].
  - replace (o + Z.of_nat (S n)) with (o + Z.of_nat n + 1) in * by blia.
    set (h := o + Z.of_nat n) in *. assert (0 <= h) by blia. pose proof (pow2_pos h) as Hpos.
    cbn [expand_loop]. replace (h + 1 - 1) with h by blia. rewrite Z.shiftr_div_pow2 by blia.
    assert (2 ^ (h + 1) = 2 ^ h * 2) as E2 by (rewrite Z.pow_add_r by blia; done).
    change (2 ^ 1) with 2. rewrite E2, Z.div_mul, shl1 by blia.
    destruct Hb as (Hb1 & Hb2 & Hb3 & [k Hk]). rewrite E2 in Hb3, Hk.
    destruct (add_to_free_area_ok pa z (p + 2 ^ h) h) as (pa1 & l1 & E1 & I1 & On1 & F1 & T1); [done| | |].
    { split; [unfold MAX_ORDER in *; blia|]. split; [blia|]. split; [blia|]. exists (2 * k + 1). blia. }
    { intros q Hq. apply Hfree. unfold in_block in *. blia. }
    rewrite E1. simpl.
    set (z1 := with_free_pages (with_areas z l1) (free_pages z + 2 ^ h)).
    assert (same_lists (with_areas z l1) z1) as HS by done.
    pose proof (free_at_add _ _ _ _ On1) as Hfa.
    destruct (IH pa1 z1) as (pa2 & z2 & E3 & S2 & Fr & T2 & P2 & C1 & C2).
    { by apply (same_lists_inv _ _ _ HS). }
    { done. }
    { apply (block_ok_ext pa _ z); [apply F1|done|done|]. split; [unfold MAX_ORDER in *; blia|].
      split; [done|]. split; [blia|]. exists (2 * k). blia. }
    { intros q Hq. rewrite (same_lists_free _ _ _ HS), Hfa.
      intros [Hf|Hf]; [|unfold in_block in *; blia]. apply (Hfree q); [unfold in_block in *; blia|done]. }
    exists pa2, z2. split; [done|]. split; [|split; [|split; [|split]]].
    + eapply zstep_trans; [|exact S2]. eapply zstep_trans; [|by apply (same_lists_zstep _ (with_areas z l1))].
      split; [done|]. split; [done|done].
    + intros q. rewrite Fr, (same_lists_free _ _ _ HS), Hfa. unfold in_block.
      assert (2 ^ o <= 2 ^ h) by (apply Z.pow_le_mono_r; blia). rewrite E2.
      destruct (decide (p <= q < p + 2 ^ h)); destruct (decide (p + 2 ^ h <= q < p + 2 ^ h + 2 ^ h));
        intuition blia.
    + rewrite T2. change (total_free z1) with (total_free (with_areas z l1)). rewrite T1. blia.
    + rewrite P2. simpl. rewrite <- Z.add_sub_assoc, u64_add_l. f_equal. blia.
    + by rewrite C1, C2.
Qed.

(** ** Allocation *)

(** [p] is the block of [2^o] pages an allocation hands out of the zone [z], leaving [z']; it was
    cut from the first block of the smallest sufficient order [c]. *)
Record allocated (pa : list page) (z z' : zone) (p o c : Z) : Prop := {
  al_block : block_ok pa z p o;
  al_source : o <= c < MAX_ORDER /\ on_list z c p;
  al_smallest : forall o' p', o <= o' < c -> ~ on_list z o' p';
  al_was_free : forall q, in_block p o q -> free_at z q;
  al_rest : forall q, free_at z' q <-> free_at z q /\ ~ in_block p o q;
  al_total : total_free z' = total_free z - 2 ^ o;
  al_counter : free_pages z' = u64 (free_pages z + 2 ^ c - 2 ^ (o + 1));
  al_stats : alloc_count z' = u64 (alloc_count z + 1) /\ free_count z' = free_count z
}.

(** One block taken off list [c] and split. *)
Lemma take_block_ok pa z p o c a :
  zone_inv pa z -> 0 <= o <= c -> zget (areas z) c = Some a -> head (free_list a) = Some p ->
  exists pa1 z1 pa2 z2,
    remove_from_free_area pa z p c = Some (pa1, z1) /\
    (if o <? c then expand pa1 z1 p o c else Some (pa1, z1)) = Some (pa2, z2) /\
    zstep pa z pa2 z2 /\ block_ok pa z p o /\ on_list z c p /\
    (forall q, in_block p o q -> free_at z q) /\
    (forall q, free_at z2 q <-> free_at z q /\ ~ in_block p o q) /\
    total_free z2 = total_free z - 2 ^ o /\
    u64 (free_pages z2) = u64 (free_pages z + 2 ^ c - 2 ^ o) /\
    alloc_count z2 = alloc_count z /\ free_count z2 = free_count z.
Proof.
  intros Hi Ho Ha Hhd.
  assert (on_list z c p) as Hp.
  { exists a. split; [done|]. destruct (free_list a); [done|]. injection Hhd as ->. set_solver. }
  destruct (zi_block _ _ Hi _ _ Hp) as [(Hc1 & Hc2 & Hc3 & [k Hk]) _].
  assert (2 ^ c = 2 ^ (c - o) * 2 ^ o) as Ec by (rewrite <- Z.pow_add_r by blia; f_equal; blia).
  pose proof (pow2_pos (c - o)). pose proof (pow2_pos o).
  assert (2 ^ o <= 2 ^ c) by (apply Z.pow_le_mono_r; blia).
  destruct (remove_from_free_area_ok pa z p c Hi Hp) as (pa1 & l1 & E1 & I1 & On1 & F1 & T1).
  pose proof (free_at_remove _ _ _ _ _ Hi Hp On1) as Hfr.
  destruct (expand_loop_ok (Z.to_nat (c - o)) pa1 (with_areas z l1) p o) as
    (pa2 & z2 & E2 & S2 & Fr & T2 & P2 & C1 & C2); [done|blia| | |].
  { replace (o + Z.of_nat (Z.to_nat (c - o))) with c by blia.
    apply (block_ok_ext pa _ z); [apply F1|done|done|]. split; [done|]. split; [done|].
    split; [done|]. by exists k. }
  { replace (o + Z.of_nat (Z.to_nat (c - o))) with c by blia. intros q Hq Hf. by apply Hfr in Hf as [_ ?]. }
  replace (o + Z.of_nat (Z.to_nat (c - o))) with c in * by blia.
  exists pa1, (with_areas z l1), pa2, z2. split; [done|]. split.
  { destruct (Z.ltb_spec o c) as [Hlt|Hge].
    - unfold expand. rewrite shl1, u32_small by (pose proof (pow2_le_1024 c Hc1); blia). done.
    - replace c with o in * by blia. replace (Z.to_nat (o - o)) with 0%nat in E2 by blia. done. }
  split; [eapply zstep_trans; [|exact S2]; split; [done|]; split; done|].
  assert (block_ok pa z p o) as Hb.
  { split; [unfold MAX_ORDER in *; blia|]. split; [done|]. split; [blia|]. exists (k * 2 ^ (c - o)). blia. }
  split; [done|]. split; [done|]. split; [|split; [|split; [|split]]].
  - intros q Hq. exists c, p. split; [done|]. unfold in_block in *. blia.
  - intros q. rewrite Fr, Hfr. split.
    + intros [[Hf Hn]|[Hb1 Hb2]].
      * split; [done|]. intros Hq. apply Hn. unfold in_block in *. blia.
      * split; [|done]. by exists c, p.
    + intros [Hf Hn]. destruct (decide (p <= q < p + 2 ^ c)); [by right|]. left. done.
  - rewrite T2, T1. blia.
  - by rewrite P2.
  - by rewrite C1, C2.
Qed.

Lemma alloc_scan_ok n pa z o c :
  zone_inv pa z -> 0 <= o <= c -> c + Z.of_nat n = MAX_ORDER ->
  (forall o' p', o <= o' < c -> ~ on_list z o' p') ->
  (exists p pa' z' c', alloc_scan n pa z o c = Some (Some p, pa', z') /\
     allocated pa z z' p o c' /\ zstep pa z pa' z') \/
  (alloc_scan n pa z o c = Some (None, pa, z) /\ forall o' p', o <= o' -> ~ on_list z o' p').
Proof.
  revert c. induction n as [|n IH]; intros c Hi Ho Hn Hno.
  - right. split; [done|]. intros o' p' Ho' Hon.
    destruct (zi_block _ _ Hi _ _ Hon) as [(Hb & _) _]. apply (Hno o' p'); [blia|done].
  - destruct (area_exists pa z c Hi) as [a Ha]; [blia|]. cbn [alloc_scan]. rewrite Ha. simpl.
    destruct (free_list a) as [|p l] eqn:El.
    + apply IH; [done|blia|blia|]. intros o' p' Ho'.
      destruct (decide (o' = c)) as [->|]; [|apply Hno; blia].
      intros (a' & Ha' & Hin). rewrite Ha in Ha'. injection Ha' as <-. rewrite El in Hin. set_solver.
    + left. destruct (take_block_ok pa z p o c a) as
        (pa1 & z1 & pa2 & z2 & E1 & E2 & S & B & Hon & Hf & Hr & T & P & C1 & C2);
        [done|done|done|by rewrite El|].
      rewrite E1. simpl. rewrite E2. simpl.
      set (z3 := count_alloc (with_free_pages z2 (free_pages z2 - Z.shiftl 1 o))).
      assert (same_lists z2 z3) as HS by done.
      exists p, pa2, z3, c. split; [done|]. split.
      * split; [done|split; [blia|done]|done|done| |by rewrite <- T| |by simpl; rewrite C1, C2].
        -- intros q. rewrite (same_lists_free _ _ _ HS). apply Hr.
        -- simpl. rewrite shl1, Z.pow_add_r by blia. rewrite <- u64_sub_l, P, u64_sub_l.
           f_equal. change (2 ^ 1) with 2. blia.
      * eapply zstep_trans; [exact S|]. apply same_lists_zstep; [apply S|done].
Qed.

(** Allocation is safe: under the zone invariant [buddy_alloc_pages] never touches memory
    outside its arrays, and it either hands out a naturally aligned block of [2^order] pages of
    the zone, all of which were free, none of which is free afterwards, while every other page
    keeps its status, the block coming from a list of the smallest order that can serve the
    request; or it returns NULL without changing anything, exactly when no free block is large
    enough.  The invariant is preserved and pages outside the zone are untouched. *)
Theorem buddy_alloc_spec pa z order :
  zone_inv pa z -> 0 <= order < MAX_ORDER ->
  (exists p pa' z' c, buddy_alloc_pages pa z order = Some (Some p, pa', z') /\
     allocated pa z z' p order c /\ zstep pa z pa' z') \/
  (buddy_alloc_pages pa z order = Some (None, pa, z) /\
     forall o' p', order <= o' -> ~ on_list z o' p').
Proof.
  intros Hi Ho. unfold buddy_alloc_pages. destruct (Z.leb_spec MAX_ORDER order); [blia|].
  apply alloc_scan_ok; [done|blia|blia|blia].
Qed.

(** ** Freeing *)

(** The buddy of a block is below the end of the zone or of the array. *)
Lemma buddy_below pa z p o :
  zone_inv pa z -> covered pa z -> block_ok pa z p o -> o < MAX_ORDER - 1 -> buddy_pfn p o < end_pfn z -> buddy_pfn p o < zlen pa.
Proof.
  intros Hi [Hc|[m Hc] ] (Ho & H1 & H2 & H3) Hlt Hb; [blia|]. pose proof (pow2_le_1024 o Ho). pose proof (zi_bounds _ _ Hi) as (? & ?).
  destruct (buddy_spec p o) as [(Eb & Ec & [k Hd])|(Eb & Ec & _)]; [blia|blia|done|unfold MAX_ORDER in *; blia| |blia].
  rewrite Eb. assert (2 ^ (MAX_ORDER - 1) = 2 ^ (MAX_ORDER - 2 - o) * 2 ^ (o + 1)) as E1.
  { rewrite <- Z.pow_add_r by (unfold MAX_ORDER in *; lia). f_equal. lia. }
  rewrite Z.pow_add_r in E1, Hd by lia. change (2 ^ 1) with 2 in *. set (x := 2 ^ o) in *. set (y := 2 ^ (MAX_ORDER - 2 - o)) in *.
  assert (zlen pa = m * y * (x * 2)) as E2 by (rewrite Hc, E1; ring). assert (p < zlen pa) as E3 by blia.
  assert (0 < x) by (unfold x; lia). clearbody x y. assert (k < m * y) by nia. nia.
Qed.

(** The test of [page_is_buddy] never reads outside the array and is true exactly for the free
    blocks of that order. *)
Lemma page_is_buddy_ok pa z b o :
  zone_inv pa z -> (b < end_pfn z -> b < zlen pa) ->
  exists r, page_is_buddy z pa b o = Some r /\ (r = true <-> on_list z o b).
Proof.
  intros Hi B2. unfold page_is_buddy. pose proof (zi_bounds _ _ Hi) as (B1 & _).
  destruct (Z.ltb_spec b (start_pfn z)); simpl; [|destruct (Z.leb_spec (end_pfn z) b); simpl].
  - exists false. split; [done|]. split; [done|]. intros Hon.
    destruct (zi_block _ _ Hi _ _ Hon) as [(_ & ? & _) _]. blia.
  - exists false. split; [done|]. split; [done|]. intros Hon.
    destruct (zi_block _ _ Hi _ _ Hon) as [(Ho & _ & ? & _) _]. pose proof (pow2_le_1024 o Ho). blia.
  - destruct (proj2 (zget_Some pa b)) as [g Hg]; [blia|]. rewrite Hg. simpl.
    assert (on_list z o b <-> page_has PG_BUDDY g = true /\ pg_order g = o) as Hiff.
    { split.
      - intros Hon. destruct (zi_block _ _ Hi _ _ Hon) as [_ (g' & Hg' & ?)]. congruence.
      - intros [? ?]. apply (zi_flag _ _ Hi); [blia|]. by exists g. }
    destruct (page_has PG_BUDDY g); simpl.
    + exists (pg_order g =? o). split; [done|]. rewrite Hiff, Z.eqb_eq. tauto.
    + exists false. split; [done|]. split; [done|]. by intros [? _]%Hiff.
Qed.

(** The buddy of a block of the zone, when it is free, forms with it a block of the next order. *)
Lemma merge_ok pa z p o :
  zone_inv pa z -> block_ok pa z p o -> o < MAX_ORDER - 1 -> on_list z o (buddy_pfn p o) ->
  block_ok pa z (combined_pfn p o) (o + 1) /\
  forall q, in_block (combined_pfn p o) (o + 1) q <->
    in_block p o q \/ in_block (buddy_pfn p o) o q.
Proof.
  intros Hi (Ho & H1 & H2 & H3) Hlt Hon. pose proof (pow2_le_1024 o Ho).
  destruct (zi_block _ _ Hi _ _ Hon) as [(_ & B1 & B2 & _) _].
  pose proof (zi_bounds _ _ Hi) as (? & ?).
  assert (2 ^ (o + 1) = 2 ^ o * 2) as E2 by (rewrite Z.pow_add_r by blia; done).
  destruct (buddy_spec p o) as [(Eb & Ec & Hd)|(Eb & Ec & Hd)];
    [blia|blia|done|unfold MAX_ORDER in *; blia| |];
    rewrite Eb in B1, B2; rewrite Eb, Ec; unfold block_ok, in_block; rewrite E2;
    rewrite E2 in Hd;
    (split; [split; [blia|]; split; [blia|]; split; [blia|]; done|intros q; blia]).
Qed.

(** The block [p, o] has become, by merging with free buddies, the block [p', o'], which is still
    off the lists of [z'] and can not be merged further. *)
Record coalesced (pa : list page) (z z' : zone) (p o p' o' : Z) : Prop := {
  co_block : block_ok pa z' p' o';
  co_order : o <= o';
  co_contains : forall q, in_block p o q -> in_block p' o' q;
  co_off : forall q, in_block p' o' q -> ~ free_at z' q;
  co_cover : forall q, free_at z' q \/ in_block p' o' q <-> free_at z q \/ in_block p o q;
  co_maximal : o' = MAX_ORDER - 1 \/ ~ on_list z' o' (buddy_pfn p' o');
  co_total : total_free z' + 2 ^ o' = total_free z + 2 ^ o;
  co_stats : free_pages z' = free_pages z /\ alloc_count z' = alloc_count z /\
    free_count z' = free_count z
}.

Lemma coalesce_ok n pa z p o :
  zone_inv pa z -> covered pa z -> block_ok pa z p o -> (forall q, in_block p o q -> ~ free_at z q) ->
  o + Z.of_nat n = MAX_ORDER - 1 ->
  exists pa' z' p' o', coalesce n pa z p o = Some (pa', z', p', o') /\
    coalesced pa z z' p o p' o' /\ zstep pa z pa' z'.
Proof.
  revert pa z p o. induction n as [|n IH]; intros pa z p o Hi Hcv Hb Hoff Hn.
  - exists pa, z, p, o. split; [done|]. split; [|by apply zstep_refl].
    split; try done. left. simpl in Hn. blia.
  - cbn [coalesce]. destruct (page_is_buddy_ok pa z (buddy_pfn p o) o Hi (buddy_below pa z p o Hi Hcv Hb ltac:(lia))) as (r & -> & Hr). simpl.
    destruct r.
    2: { exists pa, z, p, o. split; [done|]. split; [|by apply zstep_refl].
         split; try done. right. intros Hon. by apply Hr in Hon. }
    assert (on_list z o (buddy_pfn p o)) as Hon by by apply Hr.
    destruct (merge_ok pa z p o Hi Hb) as [Hb' Hcov]; [blia|done|].
    destruct (remove_from_free_area_ok pa z _ o Hi Hon) as (pa1 & l1 & E1 & I1 & On1 & F1 & T1).
    pose proof (free_at_remove _ _ _ _ _ Hi Hon On1) as Hfr. rewrite E1. simpl.
    destruct (IH pa1 (with_areas z l1) (combined_pfn p o) (o + 1)) as
      (pa2 & z2 & p2 & o2 & E2 & HC & S2); [done| | | |blia|].
    { unfold covered. simpl. by rewrite (proj1 F1). }
    { by apply (block_ok_ext pa _ z); [apply F1|..]. }
    { intros q Hq Hf. apply Hfr in Hf as [Hf Hn']. apply Hcov in Hq as [Hq|Hq]; [|done].
      by apply (Hoff q). }
    exists pa2, z2, p2, o2. split; [done|]. split.
    2: { eapply zstep_trans; [|exact S2]. split; [done|]. split; done. }
    destruct HC as [C1 C2 C0 C3 C4 C5 C6 C7]. split; try done; [|blia| | |].
    { by apply (block_ok_ext pa1 _ z2); [symmetry; apply F1|..]. }
    + intros q Hq. apply C0, Hcov. by left.
    + intros q. rewrite C4, Hfr, Hcov.
      assert (in_block (buddy_pfn p o) o q -> free_at z q) by (intros; by exists o, (buddy_pfn p o)).
      destruct (decide (buddy_pfn p o <= q < buddy_pfn p o + 2 ^ o)); unfold in_block in *; tauto.
    + rewrite C6, T1, Z.pow_add_r by (destruct Hb; blia). change (2 ^ 1) with 2. blia.
Qed.

(** What a free leaves behind. *)
Record freed (pa : list page) (z z' : zone) (p o p' o' : Z) : Prop := {
  fr_merged : block_ok pa z' p' o' /\ o <= o' /\ on_list z' o' p';
  fr_contains : forall q, in_block p o q -> in_block p' o' q;
  fr_free : forall q, free_at z' q <-> free_at z q \/ in_block p o q;
  fr_maximal : o' = MAX_ORDER - 1 \/ ~ on_list z' o' (buddy_pfn p' o');
  fr_total : total_free z' = total_free z + 2 ^ o;
  fr_counter : free_pages z' = u64 (free_pages z + 2 ^ o');
  fr_stats : free_count z' = u64 (free_count z + 1) /\ alloc_count z' = alloc_count z
}.

Lemma buddy_free_ok pa z p o :
  zone_inv pa z -> covered pa z -> block_ok pa z p o -> (forall q, in_block p o q -> ~ free_at z q) ->
  exists pa' z' p' o', buddy_free_pages pa z p o = Some (pa', z') /\
    freed pa z z' p o p' o' /\ zstep pa z pa' z'.
Proof.
  intros Hi Hcv Hb Hoff. unfold buddy_free_pages. pose proof Hb as (Ho & _).
  destruct (Z.leb_spec MAX_ORDER o); [blia|].
  destruct (coalesce_ok (Z.to_nat (MAX_ORDER - 1 - o)) pa z p o) as
    (pa1 & z1 & p' & o' & E1 & [C1 C2 C0 C3 C4 C5 C6 (C7 & C8 & C9)] & S1); [done|done|done|done|blia|].
  rewrite E1. simpl.
  destruct (add_to_free_area_ok pa1 z1 p' o') as (pa2 & l2 & E2 & I2 & On2 & F2 & T2);
    [apply S1|apply (block_ok_ext pa _ z1); [apply S1|done..]|done|].
  rewrite E2. simpl. pose proof (free_at_add _ _ _ _ On2) as Hfa.
  set (z3 := count_free (with_free_pages (with_areas z1 l2) (free_pages z1 + Z.shiftl 1 o'))).
  assert (same_lists (with_areas z1 l2) z3) as HS by done.
  exists pa2, z3, p', o'. split; [done|]. split.
  - split.
    + split; [done|]. split; [done|]. apply (same_lists_on _ _ _ _ HS), On2. by right.
    + done.
    + intros q. rewrite (same_lists_free _ _ _ HS), Hfa. apply C4.
    + destruct C5 as [|C5]; [by left|]. right. rewrite (same_lists_on _ _ _ _ HS), On2.
      intros [?|[_ E]]; [done|].
      pose proof (zi_bounds _ _ Hi). destruct S1 as (_ & (B1 & B2 & _) & _).
      destruct C1 as (? & ? & ? & ?). pose proof (pow2_le_1024 o' ltac:(done)).
      destruct (buddy_spec p' o') as [(Eb & _)|(Eb & _)];
        [blia|blia|done|unfold MAX_ORDER in *; blia|blia|blia].
    + change (total_free z3) with (total_free (with_areas z1 l2)). rewrite T2, C6. done.
    + simpl. rewrite shl1, C7 by (destruct C1; blia). done.
    + simpl. by rewrite C8, C9.
  - eapply zstep_trans; [exact S1|]. eapply zstep_trans; [split; [exact I2|split; [done|exact F2]]|].
    apply same_lists_zstep; done.
Qed.

(** ** Adding memory *)

Lemma pick_order_ok n pfn fin :
  0 <= pfn < fin -> fin < 2 ^ 52 -> Z.of_nat n < MAX_ORDER ->
  let o := pick_order n pfn fin in 0 <= o < MAX_ORDER /\ (2 ^ o | pfn) /\ pfn + 2 ^ o <= fin.
Proof.
  intros Hp Hf. induction n as [|n IH]; intros Hn.
  - simpl. split; [unfold MAX_ORDER; blia|]. split; [exists pfn; blia|]. blia.
  - cbn [pick_order]. rewrite shl1, land_ones_mod by blia.
    pose proof (pow2_le_1024 (Z.of_nat (S n)) ltac:(blia)) as Hb.
    unfold ztrue. destruct (Z.eqb_spec (pfn mod 2 ^ Z.of_nat (S n)) 0) as [E|]; simpl negb; cbv iota;
      [|apply IH; blia].
    rewrite u64_small by blia. destruct (Z.ltb_spec fin (pfn + 2 ^ Z.of_nat (S n))); [apply IH; blia|].
    split; [blia|]. split; [|done]. apply Z.mod_divide; [blia|done].
Qed.

Lemma add_pages_loop_ok n pa z pfn fin :
  zone_inv pa z -> start_pfn z <= pfn -> pfn <= fin -> fin <= zone_limit pa z ->
  fin - pfn <= Z.of_nat n -> (forall q, pfn <= q < fin -> ~ free_at z q) ->
  exists pa' z', add_pages_loop n pa z pfn fin = Some (pa', z') /\ zstep pa z pa' z' /\
    (forall q, free_at z' q <-> free_at z q \/ pfn <= q < fin) /\
    total_free z' = total_free z + (fin - pfn) /\
    u64 (free_pages z') = u64 (free_pages z + (fin - pfn)).
Proof.
  revert pa z pfn. induction n as [|n IH]; intros pa z pfn Hi Hlo Hle Hhi Hn Hoff; cbn [add_pages_loop].
  - destruct (Z.leb_spec fin pfn); [|blia]. exists pa, z. split; [done|].
    split; [by apply zstep_refl|]. split; [intros q; intuition blia|].
    replace (fin - pfn) with 0 by blia. rewrite !Z.add_0_r. done.
  - pose proof (zi_bounds _ _ Hi) as (Z1 & Z3).
    destruct (Z.leb_spec fin pfn).
    { exists pa, z. split; [done|]. split; [by apply zstep_refl|].
      split; [intros q; intuition blia|].
      replace (fin - pfn) with 0 by blia. rewrite !Z.add_0_r. done. }
    pose proof (pick_order_ok (Z.to_nat (MAX_ORDER - 1)) pfn fin ltac:(blia) ltac:(blia)
      ltac:(unfold MAX_ORDER; blia)) as (Ho & Hal & Hfit).
    set (o := pick_order (Z.to_nat (MAX_ORDER - 1)) pfn fin) in *.
    pose proof (pow2_le_1024 o Ho) as Hpow.
    destruct (add_to_free_area_ok pa z pfn o) as (pa1 & l1 & E1 & I1 & On1 & F1 & T1); [done| | |].
    { split; [done|]. split; [done|]. split; [blia|done]. }
    { intros q Hq. apply Hoff. unfold in_block in Hq. blia. }
    rewrite E1. simpl. rewrite shl1, u64_small by blia.
    set (z1 := with_free_pages (with_areas z l1) (free_pages z + 2 ^ o)).
    assert (same_lists (with_areas z l1) z1) as HS by done.
    pose proof (free_at_add _ _ _ _ On1) as Hfa.
    pose proof (proj1 F1) as Hlen1.
    destruct (IH pa1 z1 (pfn + 2 ^ o)) as (pa2 & z2 & E2 & S2 & Fr & T2 & P2);
      [by apply (same_lists_inv _ _ _ HS)|simpl; blia|blia|unfold zone_limit in *; simpl; lia|blia| |].
    { intros q Hq. rewrite (same_lists_free _ _ _ HS), Hfa. unfold in_block.
      intros [Hf|Hf]; [|blia]. apply (Hoff q); [blia|done]. }
    exists pa2, z2. split; [done|]. split; [|split; [|split]].
    + eapply zstep_trans; [|exact S2].
      eapply zstep_trans; [|by apply (same_lists_zstep _ (with_areas z l1))]. split; [done|]. split; done.
    + intros q. rewrite Fr, (same_lists_free _ _ _ HS), Hfa. unfold in_block.
      split; [intuition blia|]. intros [?|?]; [tauto|].
      destruct (decide (q < pfn + 2 ^ o)); [left; right; blia|right; blia].
    + rewrite T2. change (total_free z1) with (total_free (with_areas z l1)). rewrite T1. blia.
    + rewrite P2. simpl. rewrite u64_add_l. f_equal. blia.
Qed.

(** Only the metadata of the added pages is written. *)
Lemma add_pages_frame n pa z pfn fin pa' z' :
  0 <= pfn -> fin < 2 ^ 52 -> add_pages_loop n pa z pfn fin = Some (pa', z') ->
  forall q, ~ (pfn <= q < fin) -> zget pa' q = zget pa q.
Proof.
  revert pa z pfn. induction n as [|n IH]; intros pa z pfn Hp Hf; cbn [add_pages_loop];
    (destruct (Z.leb_spec fin pfn); [by intros [= <- <-]|]); [done|].
  pose proof (pick_order_ok (Z.to_nat (MAX_ORDER - 1)) pfn fin ltac:(lia) Hf
    ltac:(unfold MAX_ORDER; lia)) as (Ho & _ & Hfit).
  set (o := pick_order _ pfn fin) in *. pose proof (pow2_le_1024 o Ho).
  unfold add_to_free_area. destruct (linked z pfn); [done|].
  destruct (zget (areas z) o) as [a|]; [|done]. cbn [mbind option_bind].
  destruct (zset (areas z) o _) as [l|]; [|done]. cbn [mbind option_bind].
  destruct (zupd pa pfn _) as [pa1|] eqn:E; [|done]. cbn [mbind option_bind].
  rewrite shl1, (u64_small (pfn + 2 ^ o)) by lia. intros HE q Hq.
  rewrite (IH _ _ (pfn + 2 ^ o) ltac:(lia) Hf HE) by lia. rewrite (zget_zupd _ _ _ _ _ E).
  rewrite decide_False; [done|]. lia.
Qed.

(** [buddy_add_pages] terminates and puts exactly the pages [start, start + n) on the free
    lists, cut into naturally aligned blocks; the zone's page counter grows by [n]. *)
Theorem buddy_add_pages_spec pa z start n :
  zone_inv pa z -> start_pfn z <= start -> 0 <= n -> start + n <= zone_limit pa z ->
  (forall q, start <= q < start + n -> ~ free_at z q) ->
  exists pa' z', buddy_add_pages pa z start n = Some (pa', z') /\ zstep pa z pa' z' /\
    (forall q, free_at z' q <-> free_at z q \/ start <= q < start + n) /\
    total_free z' = total_free z + n /\
    u64 (free_pages z') = u64 (free_pages z + n).
Proof.
  intros Hi Hlo Hn Hhi Hoff. pose proof (zi_bounds _ _ Hi) as (Z1 & Z3).
  unfold buddy_add_pages. rewrite u64_small by blia.
  destruct (add_pages_loop_ok (Z.to_nat (start + n - start)) pa z start (start + n)) as
    (pa' & z' & E & S & F & T & P); [done|done|blia|done|blia|done|].
  exists pa', z'. split; [done|]. split; [done|]. split; [done|].
  replace (start + n - start) with n in T, P by blia. done.
Qed.

(** On a zone that satisfies the invariant the integrity check of the kernel reads only
    valid pages and reports no error. *)
Theorem buddy_verify_clean pa z :
  zone_inv pa z -> buddy_verify_integrity pa z = Some [].
Proof.
  intros Hi. unfold buddy_verify_integrity.
  assert (mapM (fun order => a ← zget (areas z) order; verify_area pa order a) (seqZ 0 MAX_ORDER)
    = Some (replicate (Z.to_nat MAX_ORDER) [])) as ->; [|done].
  apply mapM_Some_2. change (replicate (Z.to_nat MAX_ORDER) []) with
    ((fun _ : Z => @nil integrity_error) <$> seqZ 0 MAX_ORDER).
  apply Forall2_fmap_r, Forall_Forall2_diag, Forall_forall. intros o Ho. simpl.
  apply elem_of_seqZ in Ho.
  destruct (area_exists pa z o Hi) as [a Ha]; [blia|]. rewrite Ha. simpl.
  destruct (zi_lists _ _ Hi _ _ Ha) as [_ Hc]. unfold verify_area.
  assert (mapM (verify_page pa o) (free_list a) = Some ((fun _ => []) <$> free_list a)) as ->.
  { apply mapM_Some_2, Forall2_fmap_r, Forall_Forall2_diag, Forall_forall. intros p Hp. simpl.
    destruct (zi_block _ _ Hi o p) as [_ (g & Hg & Hf & Hord)]; [by exists a|].
    unfold verify_page. rewrite Hg. simpl. rewrite Hf, Hord, Z.eqb_refl. done. }
  simpl. rewrite Hc, Z.eqb_refl, app_nil_r. f_equal.
  clear. induction (free_list a) as [|x l IH]; [done|exact IH].
Qed.

(** ** Histories

    A client's view: the zone, the page array, and the blocks it holds.  Every call either
    allocates a block, fails to, or frees one of the held blocks. *)

Record client := mk_client {
  cl_pages : list page;
  cl_zone : zone;
  cl_live : list (Z * Z)       (* first page and order of each block held *)
}.

Inductive buddy_step : client -> client -> Prop :=
  | step_alloc pa z live order p pa' z' :
      0 <= order ->
      buddy_alloc_pages pa z order = Some (Some p, pa', z') ->
      buddy_step (mk_client pa z live) (mk_client pa' z' ((p, order) :: live))
  | step_null pa z live order pa' z' :
      0 <= order ->
      buddy_alloc_pages pa z order = Some (None, pa', z') ->
      buddy_step (mk_client pa z live) (mk_client pa' z' live)
  | step_free pa z l1 p order l2 pa' z' :
      buddy_free_pages pa z p order = Some (pa', z') ->
      buddy_step (mk_client pa z (l1 ++ (p, order) :: l2)) (mk_client pa' z' (l1 ++ l2)).

(** [q] belongs to the held blocks [live]. *)
Definition held (live : list (Z * Z)) (q : Z) : Prop :=
  exists p o, (p, o) ∈ live /\ in_block p o q.

(** Held blocks do not overlap. *)
Fixpoint apart (live : list (Z * Z)) : Prop :=
  match live with
  | [] => True
  | (p, o) :: t => (forall q, in_block p o q -> ~ held t q) /\ apart t
  end.

(** What holds in every reachable state, [managed] being the pages the zone started with. *)
Record client_inv (managed : Z -> Prop) (c : client) : Prop := {
  ci_zone : zone_inv (cl_pages c) (cl_zone c);
  ci_covered : covered (cl_pages c) (cl_zone c);
  ci_blocks : forall p o, (p, o) ∈ cl_live c -> block_ok (cl_pages c) (cl_zone c) p o;
  ci_apart : apart (cl_live c);
  ci_excl : forall q, held (cl_live c) q -> ~ free_at (cl_zone c) q;
  ci_all : forall q, free_at (cl_zone c) q \/ held (cl_live c) q <-> managed q
}.

Lemma held_cons p o live q : held ((p, o) :: live) q <-> in_block p o q \/ held live q.
Proof. unfold held. setoid_rewrite elem_of_cons. naive_solver. Qed.

Lemma held_app l1 l2 q : held (l1 ++ l2) q <-> held l1 q \/ held l2 q.
Proof. unfold held. setoid_rewrite elem_of_app. naive_solver. Qed.

Lemma apart_middle l1 p o l2 :
  apart (l1 ++ (p, o) :: l2) ->
  apart (l1 ++ l2) /\ forall q, in_block p o q -> ~ held (l1 ++ l2) q.
Proof.
  induction l1 as [|[p' o'] l1 IH]; simpl; [tauto|].
  intros [H1 H2]. destruct (IH H2) as [H3 H4]. split; [split; [|done]|].
  - intros q Hq. specialize (H1 q Hq). rewrite held_app, held_cons in H1. rewrite held_app. tauto.
  - intros q Hq. rewrite held_cons. intros [Hq'|Hq']; [|by apply (H4 q)].
    apply (H1 q Hq'). rewrite held_app, held_cons. tauto.
Qed.

Lemma zstep_block pa z pa' z' p o : zstep pa z pa' z' -> block_ok pa z p o -> block_ok pa' z' p o.
Proof.
  intros (_ & (E1 & E2 & _) & (E3 & _)). unfold block_ok, zone_limit. by rewrite E1, E2, E3.
Qed.

Lemma zstep_covered pa z pa' z' : zstep pa z pa' z' -> covered pa z -> covered pa' z'.
Proof. intros (_ & (E1 & E2 & _) & (E3 & _)). unfold covered. by rewrite E2, E3. Qed.

Lemma alloc_free_inv managed pa z live p o c pa' z' :
  client_inv managed (mk_client pa z live) -> allocated pa z z' p o c -> zstep pa z pa' z' ->
  client_inv managed (mk_client pa' z' ((p, o) :: live)).
Proof.
  intros [I1 I0 I2 I3 I4 I5] [A1 A2 A3 A4 A5 A6 A7 A8] S. pose proof S as (S1 & S2 & S3). simpl in *.
  split; simpl; [done|by eapply zstep_covered| | | |].
  - intros p' o' [[= -> ->]|Hin]%elem_of_cons; (eapply zstep_block; [done|]); [done|by apply I2].
  - split; [|done]. intros q Hq Hh. by apply (I4 q Hh), A4.
  - intros q. rewrite held_cons, A5. intros [Hq|Hq] [Hf Hn]; [done|]. by apply (I4 q).
  - intros q. rewrite held_cons, A5, <- I5. split; [intros [[? _]|[?|?]]; auto|].
    intros [Hf|?]; [|auto]. destruct (decide (p <= q < p + 2 ^ o)); [right; left; done|].
    left. done.
Qed.

Lemma free_block_inv managed pa z l1 p o l2 pa' z' p' o' :
  client_inv managed (mk_client pa z (l1 ++ (p, o) :: l2)) -> freed pa z z' p o p' o' ->
  zstep pa z pa' z' -> client_inv managed (mk_client pa' z' (l1 ++ l2)).
Proof.
  intros [I1 I0 I2 I3 I4 I5] [F1 F2 F3 F4 F5 F6 F7] S. pose proof S as (S1 & S2 & S3). simpl in *.
  destruct (apart_middle _ _ _ _ I3) as [H1 H2].
  split; simpl; [done|by eapply zstep_covered| |done| |].
  - intros p1 o1 Hin. eapply zstep_block; [done|]. apply I2. set_solver.
  - intros q Hq. rewrite F3. intros [Hf|Hb]; [|by apply (H2 q)].
    apply (I4 q); [|done]. rewrite held_app in *. rewrite held_cons. tauto.
  - intros q. rewrite F3, <- I5, !held_app, held_cons. tauto.
Qed.

Lemma client_step_inv managed c c' :
  client_inv managed c -> buddy_step c c' -> client_inv managed c'.
Proof.
  intros Hc Hs. destruct Hs as [pa z live o p pa' z' Ho E|pa z live o pa' z' Ho E|pa z l1 p o l2 pa' z' E].
  - pose proof (ci_zone _ _ Hc) as Hi. simpl in Hi. unfold buddy_alloc_pages in E.
    destruct (Z.leb_spec MAX_ORDER o); [done|].
    destruct (alloc_scan_ok (Z.to_nat (MAX_ORDER - o)) pa z o o Hi) as
      [(p1 & pa1 & z1 & c1 & E1 & HA & HS)|[E1 _]]; [blia|blia|blia| |congruence].
    rewrite E in E1. injection E1 as <- <- <-. by eapply alloc_free_inv.
  - pose proof (ci_zone _ _ Hc) as Hi. simpl in Hi. unfold buddy_alloc_pages in E.
    destruct (Z.leb_spec MAX_ORDER o); [by injection E as <- <-|].
    destruct (alloc_scan_ok (Z.to_nat (MAX_ORDER - o)) pa z o o Hi) as
      [(p1 & pa1 & z1 & c1 & E1 & HA & HS)|[E1 _]]; [blia|blia|blia|congruence|].
    rewrite E in E1. by injection E1 as -> ->.
  - pose proof (ci_zone _ _ Hc) as Hi. simpl in Hi.
    destruct (buddy_free_ok pa z p o Hi (ci_covered _ _ Hc)) as (pa1 & z1 & p1 & o1 & E1 & HF & HS).
    + apply (ci_blocks _ _ Hc). simpl. set_solver.
    + intros q Hq. apply (ci_excl _ _ Hc). simpl. rewrite held_app, held_cons. tauto.
    + rewrite E in E1. injection E1 as <- <-. by eapply free_block_inv.
Qed.

(** C1.  No page is ever handed out twice or lost, in a zone that meets the allocator's invariant and
    whose buddies all have an entry in the page array (the array reaches the end of the zone, or its
    length is a multiple of the largest block): after any sequence of allocations (of any order,
    failing ones included) and frees of held blocks, starting with nothing held, the held blocks are
    aligned, pairwise disjoint and disjoint from the free lists, and the free and held pages together
    are exactly the pages the zone started with.  In each such state every allocation and every free
    of a held block runs to completion.  Without the condition on the page array, which [init_zones]
    does not ensure, a free may look at a buddy past the end of the array: see
    [free_reads_past_array]. *)
Theorem buddy_history_safe pa z c :
  zone_inv pa z -> covered pa z -> rtc buddy_step (mk_client pa z []) c ->
  client_inv (free_at z) c /\
  (forall order, 0 <= order ->
     is_Some (buddy_alloc_pages (cl_pages c) (cl_zone c) order)) /\
  (forall p o, (p, o) ∈ cl_live c ->
     is_Some (buddy_free_pages (cl_pages c) (cl_zone c) p o)).
Proof.
  intros Hi Hcv Hr.
  assert (client_inv (free_at z) c) as Hc.
  { remember (mk_client pa z []) as c0 eqn:E0.
    assert (client_inv (free_at z) c0) as H0.
    { subst c0. split; simpl; [done|done|set_solver|done| |].
      - intros q (p & o & Hin & _). set_solver.
      - intros q. split; [intros [?|(p & o & Hin & _)]; [done|set_solver]|auto]. }
    clear E0 Hi Hcv. induction Hr as [|c1 c2 c3 Hs Hr IH]; [done|]. apply IH.
    by eapply client_step_inv. }
  split; [done|]. pose proof (ci_zone _ _ Hc) as Hz. split.
  - intros o Ho. unfold buddy_alloc_pages. destruct (Z.leb_spec MAX_ORDER o); [eauto|].
    destruct (alloc_scan_ok (Z.to_nat (MAX_ORDER - o)) _ _ o o Hz) as
      [(p1 & pa1 & z1 & c1 & -> & _)|[-> _]]; [blia|blia|blia|eauto|eauto].
  - intros p o Hin. destruct (buddy_free_ok _ _ p o Hz (ci_covered _ _ Hc)) as (pa1 & z1 & p1 & o1 & -> & _);
      [| |eauto].
    + by apply (ci_blocks _ _ Hc).
    + intros q Hq. apply (ci_excl _ _ Hc). by exists p, o.
Qed.

(** Freeing a block just allocated gives back the same set of free pages; the block ends up
    inside a free block that cannot be merged any further. *)
Theorem buddy_alloc_free_roundtrip pa z order p pa1 z1 :
  zone_inv pa z -> covered pa z -> 0 <= order < MAX_ORDER ->
  buddy_alloc_pages pa z order = Some (Some p, pa1, z1) ->
  exists pa2 z2 p' o', buddy_free_pages pa1 z1 p order = Some (pa2, z2) /\
    (forall q, free_at z2 q <-> free_at z q) /\ total_free z2 = total_free z /\
    on_list z2 o' p' /\ (forall q, in_block p order q -> in_block p' o' q) /\
    (o' = MAX_ORDER - 1 \/ ~ on_list z2 o' (buddy_pfn p' o')) /\ zone_inv pa2 z2.
Proof.
  intros Hi Hcv Ho E. unfold buddy_alloc_pages in E. destruct (Z.leb_spec MAX_ORDER order); [blia|].
  destruct (alloc_scan_ok (Z.to_nat (MAX_ORDER - order)) pa z order order Hi) as
    [(p' & pa' & z' & c & E' & [A1 A2 A3 A4 A5 A6 A7 A8] & S)|[E' _]]; [blia|blia|blia| |congruence].
  rewrite E in E'. injection E' as <- <- <-.
  destruct (buddy_free_ok pa1 z1 p order) as (pa2 & z2 & p' & o' & E2 & [(F1 & F1' & F1'') F2 F3 F4 F5 F6 F7] & S2).
  - apply S.
  - by eapply zstep_covered.
  - by eapply zstep_block.
  - intros q Hq. rewrite A5. tauto.
  - exists pa2, z2, p', o'. split; [done|]. split; [|split; [blia|]].
    + intros q. rewrite F3, A5. split; [intros [[? _]|?]; auto|].
      intros Hf. destruct (decide (p <= q < p + 2 ^ order)); [by right|by left].
    + split; [done|]. split; [done|]. split; [done|]. apply S2.
Qed.

(** The statistic [zone->free_pages] drifts away from the number of pages on the free
    lists: an allocation that splits a block of order [c] leaves it too large by [2^c - 2^order],
    and a free that coalesces up to order [o'] by [2^o' - 2^o]; it stays exact only when no block
    is split or merged. *)
Theorem free_pages_counter_drifts pa z :
  zone_inv pa z -> covered pa z ->
  (forall order p pa' z', 0 <= order < MAX_ORDER ->
     buddy_alloc_pages pa z order = Some (Some p, pa', z') ->
     exists c, order <= c < MAX_ORDER /\ on_list z c p /\
       free_pages z' = u64 (free_pages z - total_free z + total_free z' + (2 ^ c - 2 ^ order))) /\
  (forall p o, block_ok pa z p o -> (forall q, in_block p o q -> ~ free_at z q) ->
     exists pa' z' p' o', buddy_free_pages pa z p o = Some (pa', z') /\ o <= o' /\
       on_list z' o' p' /\
       free_pages z' = u64 (free_pages z - total_free z + total_free z' + (2 ^ o' - 2 ^ o))).
Proof.
  intros Hi Hcv. split.
  - intros order p pa1 z1 Ho E. unfold buddy_alloc_pages in E.
    destruct (Z.leb_spec MAX_ORDER order); [blia|].
    destruct (alloc_scan_ok (Z.to_nat (MAX_ORDER - order)) pa z order order Hi) as
      [(p' & pa' & z' & c & E' & [A1 A2 A3 A4 A5 A6 A7 A8] & S)|[E' _]]; [blia|blia|blia| |congruence].
    rewrite E in E'. injection E' as <- <- <-. exists c. split; [blia|]. split; [apply A2|].
    rewrite A7, A6. f_equal. rewrite Z.pow_add_r by blia. change (2 ^ 1) with 2. blia.
  - intros p o Hb Hoff.
    destruct (buddy_free_ok pa z p o Hi Hcv Hb Hoff) as (pa' & z' & p' & o' & E & [(F1 & F1' & F1'') F2 F3 F4 F5 F6 F7] & S).
    exists pa', z', p', o'. split; [done|]. split; [done|]. split; [done|].
    rewrite F6, F5. f_equal. blia.
Qed.

(** [page_is_buddy] checks the zone's bounds, not the length of the page array: when the
    zone reaches beyond the array, freeing a block whose buddy lies in the zone but not in the
    array reads past the end of [page_array]. *)
Theorem free_reads_past_array pa z p o :
  0 <= o < MAX_ORDER - 1 -> start_pfn z <= buddy_pfn p o < end_pfn z ->
  zlen pa <= buddy_pfn p o ->
  buddy_free_pages pa z p o = None.
Proof.
  intros Ho Hz Hl. unfold buddy_free_pages. destruct (Z.leb_spec MAX_ORDER o); [blia|].
  destruct (Z.to_nat (MAX_ORDER - 1 - o)) as [|n] eqn:En; [blia|]. cbn [coalesce].
  unfold page_is_buddy. destruct (Z.ltb_spec (buddy_pfn p o) (start_pfn z)); [blia|].
  destruct (Z.leb_spec (end_pfn z) (buddy_pfn p o)); [blia|]. simpl.
  destruct (zget pa (buddy_pfn p o)) eqn:Eg; [|done]. apply zget_range in Eg. blia.
Qed.

(** ** A fresh zone *)

Lemma init_area z o a : zget (areas (buddy_init_zone z)) o = Some a -> a = mk_area [] 0.
Proof. intros Ha. apply zget_lookup in Ha as [_ Ha]. by apply lookup_replicate in Ha as [-> _]. Qed.

Lemma init_on_list z o p : ~ on_list (buddy_init_zone z) o p.
Proof.
  intros (a & Ha & Hp). apply init_area in Ha as ->. set_solver.
Qed.

Lemma init_free_at z q : ~ free_at (buddy_init_zone z) q.
Proof. intros (o & p & Hon & _). by apply init_on_list in Hon. Qed.

Lemma buddy_init_inv pa z :
  0 <= start_pfn z -> zlen pa < 2 ^ 52 ->
  (forall p g, start_pfn z <= p < end_pfn z -> zget pa p = Some g -> page_has PG_BUDDY g = false) ->
  zone_inv pa (buddy_init_zone z).
Proof.
  intros H1 H3 Hf. split.
  - done.
  - done.
  - intros o p Hon. by apply init_on_list in Hon.
  - intros p o Hp (g & Hg & Hb & _). by rewrite (Hf p g) in Hb.
  - intros o a Ha. apply init_area in Ha as ->. split; [apply NoDup_nil_2|done].
  - intros o p o' p' q Hon. by apply init_on_list in Hon.
Qed.

(** ** Witnesses: a zone of eleven pages, nine of them (2 to 10) given to the allocator. *)

Definition ex_pages : list page := replicate 11 (mk_page 0 0 0 None).
Definition ex_zone : zone := buddy_init_zone (mk_zone 0 11 0 0 [] 0 0).
Definition ex_state : list page * zone :=
  default (ex_pages, ex_zone) (buddy_add_pages ex_pages ex_zone 2 9).

Lemma ex_zone_inv : zone_inv ex_pages ex_zone.
Proof.
  apply buddy_init_inv; simpl; try done. intros p g _ Hg. apply zget_lookup in Hg as [_ Hg].
  apply lookup_replicate in Hg as [-> _]. done.
Defined.

Lemma ex_limit : zone_limit ex_pages ex_zone = 11.
Proof. reflexivity. Qed.

Lemma ex_state_ok :
  zone_inv ex_state.1 ex_state.2 /\ covered ex_state.1 ex_state.2 /\
  forall q, free_at ex_state.2 q <-> 2 <= q < 11.
Proof.
  destruct (add_pages_loop_ok 9 ex_pages ex_zone 2 11) as (pa & z & E & S & F & _);
    [apply ex_zone_inv|rewrite ?ex_limit; simpl; lia..|intros q _; apply init_free_at|].
  assert (ex_state = (pa, z)) as ->.
  { unfold ex_state, buddy_add_pages. rewrite u64_small by blia.
    change (Z.to_nat (2 + 9 - 2)) with 9%nat. change (2 + 9) with 11. by rewrite E. }
  simpl. split; [apply S|]. split; [eapply zstep_covered; [exact S|by left]|]. intros q. rewrite F. split; [|by right].
  intros [Hf|?]; [exfalso; exact (init_free_at _ _ Hf)|assumption].
Defined.

Lemma buddy_alloc_spec_witness :
  (exists p pa' z' c, buddy_alloc_pages ex_state.1 ex_state.2 1 = Some (Some p, pa', z') /\
     allocated ex_state.1 ex_state.2 z' p 1 c /\ zstep ex_state.1 ex_state.2 pa' z') \/
  (buddy_alloc_pages ex_state.1 ex_state.2 1 = Some (None, ex_state.1, ex_state.2) /\
     forall o' p', 1 <= o' -> ~ on_list ex_state.2 o' p').
Proof.
  apply (buddy_alloc_spec ex_state.1 ex_state.2 1); [exact (proj1 ex_state_ok)|unfold MAX_ORDER; lia].
Defined.

Lemma buddy_add_pages_spec_witness :
  exists pa' z', buddy_add_pages ex_pages ex_zone 2 9 = Some (pa', z') /\
    zstep ex_pages ex_zone pa' z' /\
    (forall q, free_at z' q <-> free_at ex_zone q \/ 2 <= q < 2 + 9) /\
    total_free z' = total_free ex_zone + 9 /\ u64 (free_pages z') = u64 (free_pages ex_zone + 9).
Proof.
  apply (buddy_add_pages_spec ex_pages ex_zone 2 9);
    [apply ex_zone_inv|rewrite ?ex_limit; simpl; lia..|intros q _; apply init_free_at].
Defined.

Lemma buddy_verify_clean_witness : buddy_verify_integrity ex_state.1 ex_state.2 = Some [].
Proof. apply (buddy_verify_clean ex_state.1 ex_state.2). exact (proj1 ex_state_ok). Defined.

(** One page allocated (page 10, the only block of order 0), then a pair (pages 2 and 3). *)
Definition ex_alloc1 : list page * zone :=
  match buddy_alloc_pages ex_state.1 ex_state.2 0 with
  | Some (_, pa, z) => (pa, z) | None => ex_state end.

Definition ex_client : client := mk_client ex_alloc1.1 ex_alloc1.2 [(10, 0)].

Lemma buddy_history_safe_witness :
  client_inv (free_at ex_state.2) ex_client /\
  (forall order, 0 <= order ->
     is_Some (buddy_alloc_pages (cl_pages ex_client) (cl_zone ex_client) order)) /\
  (forall p o, (p, o) ∈ cl_live ex_client ->
     is_Some (buddy_free_pages (cl_pages ex_client) (cl_zone ex_client) p o)).
Proof.
  apply (buddy_history_safe ex_state.1 ex_state.2 ex_client).
  - exact (proj1 ex_state_ok).
  - exact (proj1 (proj2 ex_state_ok)).
  - apply rtc_once.
    exact (step_alloc ex_state.1 ex_state.2 [] 0 10 ex_alloc1.1 ex_alloc1.2 ltac:(lia)
             ltac:(vm_compute; reflexivity)).
Defined.

Lemma buddy_alloc_free_roundtrip_witness :
  exists pa2 z2 p' o', buddy_free_pages ex_alloc1.1 ex_alloc1.2 10 0 = Some (pa2, z2) /\
    (forall q, free_at z2 q <-> free_at ex_state.2 q) /\ total_free z2 = total_free ex_state.2 /\
    on_list z2 o' p' /\ (forall q, in_block 10 0 q -> in_block p' o' q) /\
    (o' = MAX_ORDER - 1 \/ ~ on_list z2 o' (buddy_pfn p' o')) /\ zone_inv pa2 z2.
Proof.
  apply (buddy_alloc_free_roundtrip ex_state.1 ex_state.2 0 10).
  - exact (proj1 ex_state_ok).
  - exact (proj1 (proj2 ex_state_ok)).
  - unfold MAX_ORDER. blia.
  - vm_compute. reflexivity.
Defined.

(** Taking one page out of a single free block of 8 pages (pages 0 to 7) makes the counter jump
    from 8 to 14 while 7 pages remain. *)
Definition ex8 : list page * zone :=
  default (ex_pages, ex_zone) (buddy_add_pages ex_pages ex_zone 0 8).

Lemma ex8_ok : zone_inv ex8.1 ex8.2 /\ covered ex8.1 ex8.2.
Proof.
  destruct (add_pages_loop_ok 8 ex_pages ex_zone 0 8) as (pa & z & E & S & _);
    [apply ex_zone_inv|rewrite ?ex_limit; simpl; lia..|intros q _; apply init_free_at|].
  assert (ex8 = (pa, z)) as ->; [|split; [apply S|eapply zstep_covered; [exact S|by left] ] ].
  unfold ex8, buddy_add_pages. rewrite u64_small by blia.
  change (Z.to_nat (0 + 8 - 0)) with 8%nat. change (0 + 8) with 8. by rewrite E.
Defined.

Lemma free_pages_counter_drifts_witness :
  free_pages ex8.2 = 8 /\ total_free ex8.2 = 8 /\
  (forall p pa' z', buddy_alloc_pages ex8.1 ex8.2 0 = Some (Some p, pa', z') ->
     free_pages z' = 14 /\ total_free z' = 7 /\
     exists c, 0 <= c < MAX_ORDER /\ on_list ex8.2 c p /\
       free_pages z' = u64 (free_pages ex8.2 - total_free ex8.2 + total_free z' + (2 ^ c - 2 ^ 0))).
Proof.
  split; [vm_compute; reflexivity|]. split; [vm_compute; reflexivity|]. intros p pa' z' E.
  split; [|split; [|apply (proj1 (free_pages_counter_drifts ex8.1 ex8.2 (proj1 ex8_ok) (proj2 ex8_ok)) 0 p pa' z');
    [unfold MAX_ORDER; blia|exact E]]].
  - revert E. vm_compute. intros [= <- <- <-]. reflexivity.
  - revert E. vm_compute. intros [= <- <- <-]. reflexivity.
Defined.

(** Three pages, but a zone that ends at 4096, as the DMA zone always does: page 2's buddy is
    page 3. *)
Lemma free_reads_past_array_witness :
  buddy_free_pages (replicate 3 (mk_page 0 0 0 None))
    (buddy_init_zone (mk_zone 0 4096 0 0 [] 0 0)) 2 0 = None.
Proof.
  apply (free_reads_past_array (replicate 3 (mk_page 0 0 0 None))
    (buddy_init_zone (mk_zone 0 4096 0 0 [] 0 0)) 2 0).
  - unfold MAX_ORDER. blia.
  - vm_compute. split; [discriminate|reflexivity].
  - vm_compute. discriminate.
Defined.
