(* ===== verification/Pmm.v ===== *)
(** * Physical memory manager (kernel/mm/pmm.c)

    The global state: the page array, the three zones, the boot-time bump allocator, the memory
    bitmap, and the log of the [memset] calls on physical memory (its contents are not modelled).
    Pointers returned to the kernel are virtual addresses in the higher-half direct map; 0 is
    NULL.  kprintf output is left out. *)
From S2P Require Import Prelude Defs Bitmap Buddy.

(** ** The code *)

Definition ZONE_DMA : Z := 0.
Definition ZONE_DMA32 : Z := 1.
Definition ZONE_NORMAL : Z := 2.
Definition MAX_ZONES : Z := 3.

Definition ZONE_DMA_END : Z := 16 * 1024 * 1024.
Definition ZONE_DMA32_END : Z := 4 * 1024 * 1024 * 1024.

Definition GFP_KERNEL : Z := 0x00.
Definition GFP_DMA : Z := 0x02.
Definition GFP_DMA32 : Z := 0x04.
Definition GFP_ZERO : Z := 0x08.

Definition LIMINE_MEMMAP_USABLE : Z := 0.
Definition LIMINE_MEMMAP_ACPI_RECLAIMABLE : Z := 2.
Definition LIMINE_MEMMAP_BOOTLOADER_RECLAIMABLE : Z := 5.
Definition LIMINE_MEMMAP_KERNEL_AND_MODULES : Z := 6.

Record memmap_entry := mk_entry { me_base : Z; me_length : Z; me_type : Z }.

Record boot_allocator := mk_boot_alloc { ba_base : Z; ba_current : Z; ba_end : Z }.

Record pmm_state := mk_pmm {
  page_array : list page;
  page_array_va : Z;           (* the pointer pmm.page_array *)
  page_array_pfns : Z;
  zones : list zone;
  pmm_total_pages : Z;
  pmm_free_pages : Z;
  pmm_reserved_pages : Z;
  hhdm_offset : Z;
  initialized : bool;
  boot_alloc : boot_allocator;
  bitmap : mem_bitmap;
  zeroed : list (Z * Z)        (* memset(addr, 0, len) calls, latest first *)
}.

Definition with_pages (st : pmm_state) (pa : list page) : pmm_state :=
  mk_pmm pa (page_array_va st) (page_array_pfns st) (zones st) (pmm_total_pages st)
    (pmm_free_pages st) (pmm_reserved_pages st) (hhdm_offset st) (initialized st)
    (boot_alloc st) (bitmap st) (zeroed st).
Definition with_array (st : pmm_state) (pa : list page) (va pfns : Z) : pmm_state :=
  mk_pmm pa va pfns (zones st) (pmm_total_pages st)
    (pmm_free_pages st) (pmm_reserved_pages st) (hhdm_offset st) (initialized st)
    (boot_alloc st) (bitmap st) (zeroed st).
Definition with_zones (st : pmm_state) (zs : list zone) : pmm_state :=
  mk_pmm (page_array st) (page_array_va st) (page_array_pfns st) zs (pmm_total_pages st)
    (pmm_free_pages st) (pmm_reserved_pages st) (hhdm_offset st) (initialized st)
    (boot_alloc st) (bitmap st) (zeroed st).
Definition with_totals (st : pmm_state) (total free reserved : Z) : pmm_state :=
  mk_pmm (page_array st) (page_array_va st) (page_array_pfns st) (zones st) total free reserved
    (hhdm_offset st) (initialized st) (boot_alloc st) (bitmap st) (zeroed st).
Definition with_boot_alloc (st : pmm_state) (ba : boot_allocator) : pmm_state :=
  mk_pmm (page_array st) (page_array_va st) (page_array_pfns st) (zones st) (pmm_total_pages st)
    (pmm_free_pages st) (pmm_reserved_pages st) (hhdm_offset st) (initialized st)
    ba (bitmap st) (zeroed st).
Definition with_bitmap (st : pmm_state) (bm : mem_bitmap) : pmm_state :=
  mk_pmm (page_array st) (page_array_va st) (page_array_pfns st) (zones st) (pmm_total_pages st)
    (pmm_free_pages st) (pmm_reserved_pages st) (hhdm_offset st) (initialized st)
    (boot_alloc st) bm (zeroed st).
Definition set_initialized (st : pmm_state) : pmm_state :=
  mk_pmm (page_array st) (page_array_va st) (page_array_pfns st) (zones st) (pmm_total_pages st)
    (pmm_free_pages st) (pmm_reserved_pages st) (hhdm_offset st) true
    (boot_alloc st) (bitmap st) (zeroed st).
Definition log_zero (st : pmm_state) (addr len : Z) : pmm_state :=
  mk_pmm (page_array st) (page_array_va st) (page_array_pfns st) (zones st) (pmm_total_pages st)
    (pmm_free_pages st) (pmm_reserved_pages st) (hhdm_offset st) (initialized st)
    (boot_alloc st) (bitmap st) ((addr, len) :: zeroed st).

Definition phys_to_virt (st : pmm_state) (phys : Z) : Z := u64 (phys + hhdm_offset st).
Definition virt_to_phys (st : pmm_state) (virt : Z) : Z := u64 (virt - hhdm_offset st).
Definition page_to_phys (pg : Z) : Z := PFN_TO_PHYS pg.

(** The result is the virtual address, 0 when the region is exhausted. *)
Definition boot_alloc_pages (st : pmm_state) (nr_pages : Z) : Z * pmm_state :=
  let ba := boot_alloc st in
  let addr := PAGE_ALIGN (ba_current ba) in
  let size := u64 (nr_pages * PAGE_SIZE) in
  if ba_end ba <? u64 (addr + size) then (0, st)
  else (phys_to_virt st addr,
        with_boot_alloc st (mk_boot_alloc (ba_base ba) (u64 (addr + size)) (ba_end ba))).

Definition pfn_to_zone_type (pfn : Z) : Z :=
  let addr := PFN_TO_PHYS pfn in
  if addr <? ZONE_DMA_END then ZONE_DMA
  else if addr <? ZONE_DMA32_END then ZONE_DMA32
  else ZONE_NORMAL.

Definition fresh_zone (start fin : Z) : zone :=
  buddy_init_zone (mk_zone start fin 0 0 [] 0 0).

Definition init_zones (st : pmm_state) : pmm_state :=
  with_zones st
    [fresh_zone 0 (PHYS_TO_PFN ZONE_DMA_END);
     fresh_zone (PHYS_TO_PFN ZONE_DMA_END) (PHYS_TO_PFN ZONE_DMA32_END);
     fresh_zone (PHYS_TO_PFN ZONE_DMA32_END) (page_array_pfns st)].

(** sizeof(struct page) *)
Definition SIZEOF_PAGE : Z := 64.

Definition init_page_array (st : pmm_state) (max_pfn : Z) : pmm_state :=
  let array_size := u64 (max_pfn * SIZEOF_PAGE) in
  let array_pages := PAGE_ALIGN array_size / PAGE_SIZE in
  let '(va, st) := boot_alloc_pages st array_pages in
  if va =? 0 then with_array st [] 0 (page_array_pfns st)
  else with_array st
         ((fun pfn => mk_page PG_RESERVED 0 (pfn_to_zone_type pfn) None) <$> seqZ 0 max_pfn)
         va max_pfn.

(** [zone->present_pages += n] *)
Definition add_present (n : Z) (z : zone) : zone :=
  mk_zone (start_pfn z) (end_pfn z) (u64 (present_pages z + n)) (free_pages z) (areas z)
    (alloc_count z) (free_count z).

(** End of a run: hand it to the buddy allocator of its zone. *)
Definition add_run (st : pmm_state) (zone_id run_start run_length : Z) : option pmm_state :=
  z ← zget (zones st) zone_id;
  '(pa, z) ← buddy_add_pages (page_array st) z run_start run_length;
  zs ← zset (zones st) zone_id (add_present run_length z);
  Some (with_zones (with_pages st pa) zs).

(** Body of the loop of [add_usable_memory]; the state carries the current run. *)
Definition usable_step (pfn : Z) (s : pmm_state * Z * Z * Z) : option (pmm_state * Z * Z * Z) :=
  let '(st, run_start, run_length, current_zone) := s in
  pg ← zget (page_array st) pfn;
  let zone := pfn_to_zone_type pfn in
  let is_usable := negb (page_has PG_RESERVED pg) in
  if is_usable && (zone =? current_zone) then
    Some (st, if run_length =? 0 then pfn else run_start, u64 (run_length + 1), current_zone)
  else
    st ← (if 0 <? run_length then add_run st current_zone run_start run_length else Some st);
    if is_usable then Some (st, pfn, 1, zone) else Some (st, run_start, 0, current_zone).

Definition add_usable_memory (st : pmm_state) : option pmm_state :=
  '(st, run_start, run_length, current_zone) ←
    for_range (Z.to_nat (page_array_pfns st)) 0 usable_step (st, 0, 0, ZONE_DMA);
  if 0 <? run_length then add_run st current_zone run_start run_length else Some st.

(** The scan of the memory map: (max_addr, base and size of the largest usable region). *)
Definition scan_entry (s : Z * Z * Z) (e : memmap_entry) : Z * Z * Z :=
  let '(max_addr, base, size) := s in
  let max_addr :=
    if (me_type e =? LIMINE_MEMMAP_USABLE) ||
       (me_type e =? LIMINE_MEMMAP_BOOTLOADER_RECLAIMABLE) ||
       (me_type e =? LIMINE_MEMMAP_ACPI_RECLAIMABLE) ||
       (me_type e =? LIMINE_MEMMAP_KERNEL_AND_MODULES)
    then let entry_end := u64 (me_base e + me_length e) in
         if max_addr <? entry_end then entry_end else max_addr
    else max_addr in
  if (me_type e =? LIMINE_MEMMAP_USABLE) && (size <? me_length e)
  then (max_addr, me_base e, me_length e)
  else (max_addr, base, size).

Definition mark_entry (bm : mem_bitmap) (e : memmap_entry) : option mem_bitmap :=
  if (me_type e =? LIMINE_MEMMAP_USABLE) ||
     (me_type e =? LIMINE_MEMMAP_BOOTLOADER_RECLAIMABLE)
  then mem_bitmap_mark_usable bm (me_base e) (u64 (me_base e + me_length e))
  else Some bm.

Fixpoint mark_entries (bm : mem_bitmap) (l : list memmap_entry) : option mem_bitmap :=
  match l with
  | [] => Some bm
  | e :: t => bm ← mark_entry bm e; mark_entries bm t
  end.

(** Body of the loop that clears PG_RESERVED on usable pages and counts. *)
Definition unreserve_step (pfn : Z) (st : pmm_state) : option pmm_state :=
  usable ← mem_bitmap_is_usable (bitmap st) pfn;
  if (usable : bool) then
    pa ← zupd (page_array st) pfn (page_clear_flag PG_RESERVED);
    Some (with_totals (with_pages st pa) (u64 (pmm_total_pages st + 1))
            (u64 (pmm_free_pages st + 1)) (pmm_reserved_pages st))
  else Some (with_totals st (u64 (pmm_total_pages st + 1)) (pmm_free_pages st)
               (u64 (pmm_reserved_pages st + 1))).

Definition pmm_get_free_pages (st : pmm_state) : Z :=
  fold_left (fun total z => u64 (total + free_pages z)) (zones st) 0.

Definition pmm_get_total_pages (st : pmm_state) : Z := pmm_total_pages st.

(** The state before [pmm_init]: the zero-initialised global. *)
Definition pmm_zero : pmm_state :=
  mk_pmm [] 0 0 [] 0 0 0 0 false (mk_boot_alloc 0 0 0) (mk_bitmap [] 0 0 0) [].

(** [pmm_init]; [boot] is what [get_boot_info] returns: the HHDM offset and the memory map.  The
    memory of the bitmap holds arbitrary words [mem]. *)
Definition pmm_init (boot : option (Z * list memmap_entry)) (mem : list Z) : option pmm_state :=
  match boot with
  | None => Some pmm_zero
  | Some (hhdm, memmap) =>
      let st := mk_pmm [] 0 0 [] 0 0 0 hhdm false (mk_boot_alloc 0 0 0) (mk_bitmap [] 0 0 0) [] in
      let '(max_addr, base, size) := fold_left scan_entry memmap (0, 0, 0) in
      let max_pfn := PHYS_TO_PFN max_addr in
      let st := with_boot_alloc st (mk_boot_alloc base base (u64 (base + size))) in
      let bitmap_size := mem_bitmap_size_for max_pfn in
      let '(bitmap_mem, st) := boot_alloc_pages st (u64 (bitmap_size + PAGE_SIZE - 1) / PAGE_SIZE) in
      if bitmap_mem =? 0 then Some st else
      bm ← mem_bitmap_init max_pfn mem;
      bm ← mark_entries bm memmap;
      bm ← mem_bitmap_mark_reserved bm (ba_base (boot_alloc st)) (ba_current (boot_alloc st));
      let st := init_page_array st max_pfn in
      let page_array_phys := virt_to_phys st (page_array_va st) in
      let page_array_size := u64 (max_pfn * SIZEOF_PAGE) in
      bm ← mem_bitmap_mark_reserved bm page_array_phys (u64 (page_array_phys + page_array_size));
      let st := with_bitmap st bm in
      st ← for_range (Z.to_nat max_pfn) 0 unreserve_step st;
      let st := init_zones st in
      st ← add_usable_memory st;
      let st := with_totals st (pmm_total_pages st) (pmm_get_free_pages st) (pmm_reserved_pages st) in
      Some (set_initialized st)
  end.

(** [for (zone_id = start_zone; zone_id >= 0; zone_id--)], [n] zones left to try, the next one
    being [n - 1]. *)
Fixpoint try_zones (n : nat) (st : pmm_state) (order : Z) : option (option Z * pmm_state) :=
  match n with
  | O => Some (None, st)
  | S n' =>
      let zone_id := Z.of_nat n' in
      z ← zget (zones st) zone_id;
      if free_pages z <? Z.shiftl 1 order then try_zones n' st order
      else
        '(pg, pa, z) ← buddy_alloc_pages (page_array st) z order;
        zs ← zset (zones st) zone_id z;
        let st := with_zones (with_pages st pa) zs in
        match pg with
        | Some p => Some (Some p, st)
        | None => try_zones n' st order
        end
  end.

(** [memset(phys_to_virt(page_to_phys(page)), 0, (1UL << order) * PAGE_SIZE)] under GFP_ZERO *)
Definition zero_block (st : pmm_state) (pg order gfp_flags : Z) : pmm_state :=
  if ztrue (Z.land gfp_flags GFP_ZERO)
  then log_zero st (phys_to_virt st (page_to_phys pg)) (u64 (Z.shiftl 1 order * PAGE_SIZE))
  else st.

(** Head and tails of a compound page. *)
Definition mark_compound (pa : list page) (pg order : Z) : option (list page) :=
  pa ← zupd pa pg (fun p => page_set_order order (page_set_flag (Z.lor PG_HEAD PG_COMPOUND) p));
  for_range (Z.to_nat (Z.shiftl 1 order - 1)) 1
    (fun i pa => zupd pa (pg + i)
       (fun p => page_set_head (Some pg) (page_set_flag (Z.lor PG_TAIL PG_COMPOUND) p))) pa.

Definition clear_compound (pa : list page) (pg order : Z) : option (list page) :=
  pa ← zupd pa pg (page_clear_flag (Z.lor PG_HEAD PG_COMPOUND));
  for_range (Z.to_nat (Z.shiftl 1 order - 1)) 1
    (fun i pa => zupd pa (pg + i)
       (fun p => page_set_head None (page_clear_flag (Z.lor PG_TAIL PG_COMPOUND) p))) pa.

Definition alloc_pages (st : pmm_state) (order gfp_flags : Z) : option (option Z * pmm_state) :=
  if negb (initialized st) then Some (None, st) else
  let start_zone :=
    if ztrue (Z.land gfp_flags GFP_DMA) then ZONE_DMA
    else if ztrue (Z.land gfp_flags GFP_DMA32) then ZONE_DMA32
    else ZONE_NORMAL in
  '(pg, st) ← try_zones (Z.to_nat (start_zone + 1)) st order;
  match pg with
  | None => Some (None, st)
  | Some p =>
      pa ← zupd (page_array st) p (page_clear_flag PG_BUDDY);
      pa ← (if ztrue (Z.land gfp_flags GFP_KERNEL) then zupd pa p (page_set_flag PG_KERNEL)
            else Some pa);
      let st := zero_block (with_pages st pa) p order gfp_flags in
      if 0 <? order then
        pa ← mark_compound (page_array st) p order;
        Some (Some p, with_pages st pa)
      else Some (Some p, st)
  end.

Definition alloc_page (st : pmm_state) (gfp_flags : Z) := alloc_pages st 0 gfp_flags.

Definition pmm_free_block (st : pmm_state) (pg : option Z) (order : Z) : option pmm_state :=
  match pg with
  | None => Some st
  | Some p =>
      if negb (initialized st) then Some st else
      g ← zget (page_array st) p;
      let zone_type := pg_zone_id g in
      z ← zget (zones st) zone_type;
      pa ← (if 0 <? order then clear_compound (page_array st) p order else Some (page_array st));
      pa ← zupd pa p (page_clear_flag PG_KERNEL);
      '(pa, z) ← buddy_free_pages pa z p order;
      zs ← zset (zones st) zone_type z;
      Some (with_zones (with_pages st pa) zs)
  end.

Definition pmm_free_page (st : pmm_state) (pg : option Z) := pmm_free_block st pg 0.

(** The convenience wrappers return virtual addresses, 0 for NULL. *)
Definition get_free_pages (st : pmm_state) (order gfp_flags : Z) : option (Z * pmm_state) :=
  '(pg, st) ← alloc_pages st order gfp_flags;
  match pg with
  | None => Some (0, st)
  | Some p => Some (phys_to_virt st (page_to_phys p), st)
  end.

Definition get_free_page (st : pmm_state) (gfp_flags : Z) := get_free_pages st 0 gfp_flags.
Definition get_zeroed_page (st : pmm_state) (gfp_flags : Z) :=
  get_free_page st (Z.lor gfp_flags GFP_ZERO).

Definition alloc_pages_zone (st : pmm_state) (zone_id order gfp_flags : Z)
  : option (option Z * pmm_state) :=
  if MAX_ZONES <=? zone_id then Some (None, st) else
  z ← zget (zones st) zone_id;
  '(pg, pa, z) ← buddy_alloc_pages (page_array st) z order;
  zs ← zset (zones st) zone_id z;
  let st := with_zones (with_pages st pa) zs in
  match pg with
  | None => Some (None, st)
  | Some p =>
      pa ← zupd (page_array st) p (page_clear_flag PG_BUDDY);
      Some (Some p, zero_block (with_pages st pa) p order gfp_flags)
  end.

Definition pmm_reserve_range (st : pmm_state) (start fin : Z) : option pmm_state :=
  let start_pfn := PHYS_TO_PFN (PAGE_ALIGN_DOWN start) in
  let end_pfn := PHYS_TO_PFN (PAGE_ALIGN fin) in
  pa ← for_range (Z.to_nat (Z.min end_pfn (page_array_pfns st) - start_pfn)) start_pfn
         (fun pfn pa => zupd pa pfn (page_set_flag PG_RESERVED)) (page_array st);
  bm ← mem_bitmap_mark_reserved (bitmap st) start fin;
  Some (with_bitmap (with_pages st pa) bm).

Definition pmm_verify_integrity (st : pmm_state) : option (list integrity_error) :=
  errs ← mapM (fun z => if 0 <? present_pages z then buddy_verify_integrity (page_array st) z
                        else Some []) (zones st);
  Some (concat errs).

Definition virt_to_page (st : pmm_state) (addr : Z) : option Z :=
  let pfn := PHYS_TO_PFN (virt_to_phys st addr) in
  if page_array_pfns st <=? pfn then None else Some pfn.

Definition simple_get_free_page (st : pmm_state) := get_free_page st GFP_KERNEL.
Definition simple_get_free_pages (st : pmm_state) (order : Z) := get_free_pages st order GFP_KERNEL.

Definition simple_free_page (st : pmm_state) (addr : Z) : option pmm_state :=
  if addr =? 0 then Some st else
  match virt_to_page st addr with
  | Some p => pmm_free_page st (Some p)
  | None => Some st
  end.

Definition simple_free_pages (st : pmm_state) (addr order : Z) : option pmm_state :=
  if addr =? 0 then Some st else
  match virt_to_page st addr with
  | Some p => pmm_free_block st (Some p) order
  | None => Some st
  end.

(** ** The abstract state and the invariant *)

(** Page [q] is on a free list of some zone. *)
Definition pmm_free_at (st : pmm_state) (q : Z) : Prop :=
  exists i z, zget (zones st) i = Some z /\ free_at z q.

(** The page frames a zone id stands for. *)
Definition zone_lo (i : Z) : Z :=
  if i =? 0 then 0 else if i =? 1 then PHYS_TO_PFN ZONE_DMA_END else PHYS_TO_PFN ZONE_DMA32_END.
Definition zone_hi (st : pmm_state) (i : Z) : Z :=
  if i =? 0 then PHYS_TO_PFN ZONE_DMA_END
  else if i =? 1 then PHYS_TO_PFN ZONE_DMA32_END else page_array_pfns st.

Record pmm_inv (st : pmm_state) : Prop := {
  pi_zones : zlen (zones st) = MAX_ZONES;
  pi_pfns : page_array_pfns st = zlen (page_array st);
  pi_bounds : forall i z, zget (zones st) i = Some z ->
    start_pfn z = zone_lo i /\ end_pfn z = zone_hi st i;
  pi_zone : forall i z, zget (zones st) i = Some z -> zone_inv (page_array st) z;
  pi_ids : forall q g, zget (page_array st) q = Some g -> pg_zone_id g = pfn_to_zone_type q
}.

(** A block that an allocation may hand out: aligned, inside its zone and the page array. *)
Definition pmm_block (st : pmm_state) (p o : Z) : Prop :=
  exists z, zget (zones st) (pfn_to_zone_type p) = Some z /\ block_ok (page_array st) z p o.

(** The buddies of the zone's page frames are all described by the page array. *)
Definition pmm_covered (st : pmm_state) (p : Z) : Prop :=
  array_covers (page_array_pfns st) (zone_hi st (pfn_to_zone_type p)).

(** Compound page metadata: head at [p], tails behind it. *)
Definition compound (pa : list page) (p o : Z) : Prop :=
  (exists g, zget pa p = Some g /\ page_has PG_HEAD g = true /\ page_has PG_COMPOUND g = true /\
     pg_order g = o) /\
  forall q, p < q < p + 2 ^ o -> exists g, zget pa q = Some g /\ page_has PG_TAIL g = true /\
    page_has PG_COMPOUND g = true /\ pg_head g = Some p.

(** Rewriting of page metadata in [lo, hi) that never creates a free block's mark. *)
Definition quiet (pa pa' : list page) (lo hi : Z) : Prop :=
  pages_frame pa pa' lo hi /\
  forall q g g', zget pa q = Some g -> zget pa' q = Some g' ->
    page_has PG_BUDDY g = false -> page_has PG_BUDDY g' = false.

(** ** Page metadata *)

Lemma page_has_bit n p : 0 <= n -> page_has (Z.shiftl 1 n) p = Z.testbit (pg_flags p) n.
Proof. intros Hn. by apply ztrue_land_bit. Qed.

Lemma zone_type_cases q :
  (q < 4096 /\ pfn_to_zone_type q = 0) \/ (4096 <= q < 1048576 /\ pfn_to_zone_type q = 1) \/
  (1048576 <= q /\ pfn_to_zone_type q = 2) \/ ~ 0 <= q < 2 ^ 52.
Proof.
  destruct (decide (0 <= q < 2 ^ 52)) as [H|H]; [|tauto].
  unfold pfn_to_zone_type, PFN_TO_PHYS, PAGE_SHIFT, ZONE_DMA_END, ZONE_DMA32_END.
  rewrite Z.shiftl_mul_pow2 by lia. change (2 ^ 12) with 4096.
  rewrite u64_small by lia.
  destruct (Z.ltb_spec (q * 4096) (16 * 1024 * 1024)); [left; split; [lia|done]|].
  destruct (Z.ltb_spec (q * 4096) (4 * 1024 * 1024 * 1024)); [right; left|do 2 right; left];
    (split; [lia|done]).
Qed.

(** ** Framing between zones *)

Lemma quiet_refl pa lo hi : quiet pa pa lo hi.
Proof. split; [apply pages_frame_refl|]. congruence. Qed.

Lemma quiet_trans pa1 pa2 pa3 lo hi :
  quiet pa1 pa2 lo hi -> quiet pa2 pa3 lo hi -> quiet pa1 pa3 lo hi.
Proof.
  intros [F1 Q1] [F2 Q2]. split; [by eapply pages_frame_trans|]. intros q g g' Hg Hg' Hb.
  pose proof (zget_range _ _ _ Hg). destruct (proj2 (zget_Some pa2 q)) as [g2 Hg2].
  { pose proof (proj1 F1). lia. }
  eauto.
Qed.

Lemma quiet_upd pa pa' p f lo hi :
  zupd pa p f = Some pa' -> lo <= p < hi -> (forall g, pg_zone_id (f g) = pg_zone_id g) ->
  (forall g, page_has PG_BUDDY g = false -> page_has PG_BUDDY (f g) = false) ->
  quiet pa pa' lo hi.
Proof.
  intros E Hp Hz Hb. split; [by eapply pages_frame_upd|]. intros q g g' Hg Hg' Hf.
  rewrite (zget_zupd _ _ _ _ _ E) in Hg'. case_decide; [|congruence].
  rewrite Hg in Hg'. injection Hg' as <-. auto.
Qed.

(** The invariant of a zone depends only on the free-block marks of its own pages. *)
Lemma zone_inv_frame pa pa' z :
  zone_inv pa z -> zlen pa' = zlen pa ->
  (forall q o, start_pfn z <= q < end_pfn z -> is_buddy_page pa' q o <-> is_buddy_page pa q o) ->
  zone_inv pa' z.
Proof.
  intros [H1 H2 H3 H4 H5 H6] Hl Hb. split; [done|by rewrite Hl| | |done|done].
  - intros o p Hon. destruct (H3 o p Hon) as [HB HP]. split; [by apply (block_ok_ext pa _ z)|].
    apply Hb; [|done]. destruct HB as (Ho & ? & ? & _). pose proof (pow2_pos o). blia.
  - intros p o Hp HP. apply H4; [done|]. by apply Hb.
Qed.

Lemma zone_inv_outside pa pa' z lo hi :
  zone_inv pa z -> pages_frame pa pa' lo hi -> end_pfn z <= lo \/ hi <= start_pfn z ->
  zone_inv pa' z.
Proof.
  intros Hi (Hl & Hf & _) Hd. eapply zone_inv_frame; [done..|]. intros q o Hq.
  unfold is_buddy_page. rewrite Hf; [done|]. lia.
Qed.

Lemma is_buddy_free pa z p o :
  zone_inv pa z -> start_pfn z <= p < end_pfn z -> is_buddy_page pa p o -> free_at z p.
Proof.
  intros Hi Hp HP. pose proof (zi_flag _ _ Hi _ _ Hp HP) as Hon. exists o, p. split; [done|].
  destruct (zi_block _ _ Hi _ _ Hon) as [(Ho & _) _]. unfold in_block. pose proof (pow2_pos o). lia.
Qed.

Lemma zone_inv_quiet pa pa' z lo hi :
  zone_inv pa z -> quiet pa pa' lo hi -> (forall q, lo <= q < hi -> ~ free_at z q) ->
  zone_inv pa' z.
Proof.
  intros Hi [(Hl & Hf & _) Hq] Hoff. eapply zone_inv_frame; [done..|]. intros q o Hzone.
  destruct (decide (lo <= q < hi)) as [Hin|Hout]; [|unfold is_buddy_page; by rewrite Hf].
  assert (forall o, ~ is_buddy_page pa q o) as Hno.
  { intros o' Hb. by apply (Hoff q Hin), (is_buddy_free pa z q o'). }
  split; intros HP; [|by destruct (Hno o)]. destruct HP as (g' & Hg' & Hb' & Ho).
  destruct (proj2 (zget_Some pa q)) as [g Hg]; [apply zget_range in Hg'; lia|].
  destruct (page_has PG_BUDDY g) eqn:Eb; [destruct (Hno (pg_order g)); by exists g|].
  by rewrite (Hq q g g') in Hb'.
Qed.

Section Zones.
Context (st : pmm_state) (Hinv : pmm_inv st).

Lemma pi_disjoint i z j z' :
  zget (zones st) i = Some z -> zget (zones st) j = Some z' -> i ≠ j ->
  end_pfn z' <= start_pfn z \/ end_pfn z <= start_pfn z'.
Proof using Hinv.
  intros Hz Hz' Hne. pose proof (pi_zones _ Hinv) as Hl.
  pose proof (zget_range _ _ _ Hz). pose proof (zget_range _ _ _ Hz'). rewrite Hl in *.
  destruct (pi_bounds _ Hinv _ _ Hz) as [E1 E2], (pi_bounds _ Hinv _ _ Hz') as [E3 E4].
  unfold zone_lo, zone_hi, MAX_ZONES in *.
  change (PHYS_TO_PFN ZONE_DMA_END) with 4096 in *.
  change (PHYS_TO_PFN ZONE_DMA32_END) with 1048576 in *.
  assert (i = 0 \/ i = 1 \/ i = 2) as [->|[->| ->]] by lia;
    assert (j = 0 \/ j = 1 \/ j = 2) as [->|[->| ->]] by lia; simpl in *; lia.
Qed.

(** A page of a zone has the zone's type. *)
Lemma pi_type i z q :
  zget (zones st) i = Some z -> start_pfn z <= q < zone_limit (page_array st) z ->
  pfn_to_zone_type q = i.
Proof using Hinv.
  intros Hz Hq. pose proof (zget_range _ _ _ Hz) as Hr. rewrite (pi_zones _ Hinv) in Hr.
  destruct (pi_bounds _ Hinv _ _ Hz) as [E1 E2].
  pose proof (zi_bounds _ _ (pi_zone _ Hinv _ _ Hz)) as [B1 B2].
  unfold zone_limit, zone_lo, zone_hi, MAX_ZONES in *.
  change (PHYS_TO_PFN ZONE_DMA_END) with 4096 in *.
  change (PHYS_TO_PFN ZONE_DMA32_END) with 1048576 in *.
  assert (i = 0 \/ i = 1 \/ i = 2) as [->|[->| ->]] by lia; simpl in *;
    destruct (zone_type_cases q) as [[? ?]|[[? ?]|[[? ?]|?]]]; lia.
Qed.

(** Replacing one zone after an operation on it keeps the invariant, and the free pages change
    only as that zone's do. *)
Lemma zone_step_inv i z pa' z' zs :
  zget (zones st) i = Some z -> zone_inv pa' z' ->
  start_pfn z' = start_pfn z -> end_pfn z' = end_pfn z ->
  pages_frame (page_array st) pa' (start_pfn z) (end_pfn z) -> zset (zones st) i z' = Some zs ->
  pmm_inv (with_zones (with_pages st pa') zs).
Proof using Hinv.
  intros Hz Hi S1 S2 Hf Hs. pose proof Hf as (Hl & _ & Hid).
  rewrite zset_zupd in Hs.
  split; simpl.
  - rewrite (zupd_length _ _ _ _ Hs). apply Hinv.
  - rewrite Hl. apply Hinv.
  - intros j y. rewrite (zget_zupd _ _ _ _ _ Hs). case_decide as E; [subst j|apply Hinv].
    rewrite Hz. simpl. intros [= <-]. rewrite S1, S2. by apply Hinv.
  - intros j y. rewrite (zget_zupd _ _ _ _ _ Hs). case_decide as E; [subst j|].
    + rewrite Hz. simpl. by intros [= <-].
    + intros Hy. eapply zone_inv_outside; [by eapply Hinv|done|].
      destruct (pi_disjoint i z j y) as [?|?]; auto.
  - intros q g Hg. specialize (Hid q). rewrite Hg in Hid. simpl in Hid.
    destruct (zget (page_array st) q) as [g0|] eqn:E; [|done]. injection Hid as ->.
    by apply Hinv.
Qed.

Lemma zone_step_free i z pa' z' zs q :
  zget (zones st) i = Some z -> zset (zones st) i z' = Some zs ->
  pmm_free_at (with_zones (with_pages st pa') zs) q <->
    free_at z' q \/ exists j y, j ≠ i /\ zget (zones st) j = Some y /\ free_at y q.
Proof using Type.
  intros Hz Hs. rewrite zset_zupd in Hs. unfold pmm_free_at. simpl. split.
  - intros (j & y & Hy & Hf). rewrite (zget_zupd _ _ _ _ _ Hs) in Hy. case_decide as E.
    + subst j. rewrite Hz in Hy. injection Hy as <-. by left.
    + right. by exists j, y.
  - intros [Hf|(j & y & Hne & Hy & Hf)].
    + exists i, z'. by rewrite (zget_zupd _ _ _ _ _ Hs), decide_True, Hz.
    + exists j, y. by rewrite (zget_zupd _ _ _ _ _ Hs), decide_False.
Qed.

Lemma free_in_zone i z q : zget (zones st) i = Some z -> free_at z q ->
  start_pfn z <= q < zone_limit (page_array st) z.
Proof using Hinv.
  intros Hz (o & p & Hon & Hq). pose proof (pi_zone _ Hinv _ _ Hz) as Hi.
  destruct (zi_block _ _ Hi _ _ Hon) as [(Ho & ? & ? & _) _]. unfold in_block in Hq. lia.
Qed.

Lemma quiet_step_inv pa' lo hi :
  quiet (page_array st) pa' lo hi -> (forall q, lo <= q < hi -> ~ pmm_free_at st q) ->
  pmm_inv (with_pages st pa').
Proof using Hinv.
  intros Hq Hoff. pose proof Hq as [(Hl & _ & Hid) _]. split; simpl.
  - apply Hinv.
  - rewrite Hl. apply Hinv.
  - apply Hinv.
  - intros j y Hy. eapply zone_inv_quiet; [by eapply Hinv|done|]. intros q Hr Hf.
    apply (Hoff q Hr). by exists j, y.
  - intros q g Hg. specialize (Hid q). rewrite Hg in Hid. simpl in Hid.
    destruct (zget (page_array st) q) as [g0|] eqn:E; [|done]. injection Hid as ->.
    by apply Hinv.
Qed.

End Zones.

(** ** Allocation *)

(** [alloc_pages] picks this zone first. *)
Definition start_zone (gfp_flags : Z) : Z :=
  if ztrue (Z.land gfp_flags GFP_DMA) then ZONE_DMA
  else if ztrue (Z.land gfp_flags GFP_DMA32) then ZONE_DMA32 else ZONE_NORMAL.

(** A zone can serve a request: its counter says so and a large enough block is free. *)
Definition can_serve (st : pmm_state) (i order : Z) : Prop :=
  exists z, zget (zones st) i = Some z /\ 2 ^ order <= free_pages z /\
    exists o p, order <= o /\ on_list z o p.

(** A block left the free lists of zone [i]; all else but page metadata is as before. *)
Record taken (st st' : pmm_state) (i p o : Z) : Prop := {
  tk_inv : pmm_inv st';
  tk_zone : pfn_to_zone_type p = i;
  tk_block : pmm_block st' p o;
  tk_free : forall q, in_block p o q -> pmm_free_at st q;
  tk_rest : forall q, pmm_free_at st' q <-> pmm_free_at st q /\ ~ in_block p o q;
  tk_same : zlen (page_array st') = zlen (page_array st) /\
    hhdm_offset st' = hhdm_offset st /\ initialized st' = initialized st /\
    page_array_pfns st' = page_array_pfns st
}.

Lemma zone_take st i z pa' z' zs p o c :
  pmm_inv st -> zget (zones st) i = Some z -> allocated (page_array st) z z' p o c ->
  zstep (page_array st) z pa' z' -> zset (zones st) i z' = Some zs ->
  taken st (with_zones (with_pages st pa') zs) i p o.
Proof.
  intros Hinv Hz Ha Hs Hzs. pose proof (al_block _ _ _ _ _ _ Ha) as Hb.
  pose proof Hs as (_ & (S1 & S2 & _) & (Hl & _)).
  assert (forall q, in_block p o q -> start_pfn z <= q < zone_limit (page_array st) z) as Hin.
  { intros q Hq. destruct Hb as (? & ? & ? & _). unfold in_block in Hq. lia. }
  assert (pfn_to_zone_type p = i) as Ht.
  { apply (pi_type st Hinv i z); [done|]. apply Hin. unfold in_block. destruct Hb as (? & _).
    pose proof (pow2_pos o). lia. }
  split.
  - by apply (zone_step_inv st Hinv i z pa' z'); try apply Hs.
  - done.
  - exists z'. rewrite Ht. simpl. rewrite zset_zupd in Hzs.
    rewrite (zget_zupd _ _ _ _ _ Hzs), decide_True, Hz by done. split; [done|].
    by apply (block_ok_ext (page_array st) _ z).
  - intros q Hq. exists i, z. split; [done|]. by apply (al_was_free _ _ _ _ _ _ Ha).
  - intros q. rewrite (zone_step_free st i z pa' z' zs q Hz Hzs), (al_rest _ _ _ _ _ _ Ha). split.
    + intros [[Hf Hn]|(j & y & Hne & Hy & Hf)]; [split; [by exists i, z|done]|].
      split; [by exists j, y|]. intros Hq. apply Hne.
      rewrite <- (pi_type st Hinv j y q Hy (free_in_zone st Hinv j y q Hy Hf)).
      by apply (pi_type st Hinv i z q Hz), Hin.
    + intros [(j & y & Hy & Hf) Hn]. destruct (decide (j = i)) as [->|]; [left|right; by exists j, y].
      rewrite Hz in Hy. injection Hy as <-. done.
  - done.
Qed.

Lemma zone_exists st i : pmm_inv st -> 0 <= i < MAX_ZONES -> exists z, zget (zones st) i = Some z.
Proof. intros Hinv Hi. apply zget_Some. by rewrite (pi_zones _ Hinv). Qed.

Lemma zset_same {A} (l : list A) i x : zget l i = Some x -> zset l i x = Some l.
Proof.
  intros H. unfold zset. rewrite H. simpl. f_equal. apply zget_lookup in H as [_ H].
  by apply list_insert_id.
Qed.

Lemma with_same st : with_zones (with_pages st (page_array st)) (zones st) = st.
Proof. by destruct st. Qed.

(** [buddy_alloc_pages] on one of the zones of a good state. *)
Lemma zone_alloc_cases st i z order :
  pmm_inv st -> zget (zones st) i = Some z -> 0 <= order < MAX_ORDER ->
  (exists p pa' z' zs, buddy_alloc_pages (page_array st) z order = Some (Some p, pa', z') /\
     zset (zones st) i z' = Some zs /\ (exists o p, order <= o /\ on_list z o p) /\
     taken st (with_zones (with_pages st pa') zs) i p order) \/
  (buddy_alloc_pages (page_array st) z order = Some (None, page_array st, z) /\
     zset (zones st) i z = Some (zones st) /\ forall o p, order <= o -> ~ on_list z o p).
Proof.
  intros Hinv Hz Ho. unfold buddy_alloc_pages. destruct (Z.leb_spec MAX_ORDER order); [lia|].
  destruct (alloc_scan_ok (Z.to_nat (MAX_ORDER - order)) (page_array st) z order order) as
    [(p & pa' & z' & c & E & A & S)|[E Hno]]; [by eapply pi_zone|lia|lia|lia| |].
  - left. destruct (zupd_Some (zones st) i (fun _ => z')) as [zs Hzs]; [by eapply zget_range|].
    rewrite <- zset_zupd in Hzs. exists p, pa', z', zs. split; [done|]. split; [done|].
    split; [exists c, p; split; [|apply A]; apply A|]. by eapply zone_take.
  - right. split; [done|]. split; [by apply zset_same|done].
Qed.

Lemma try_zones_ok n st order :
  pmm_inv st -> 0 <= order < MAX_ORDER -> Z.of_nat n <= MAX_ZONES ->
  (exists i p st', try_zones n st order = Some (Some p, st') /\ 0 <= i < Z.of_nat n /\
     can_serve st i order /\ (forall j, i < j < Z.of_nat n -> ~ can_serve st j order) /\
     taken st st' i p order /\ zeroed st' = zeroed st) \/
  (try_zones n st order = Some (None, st) /\
     forall j, 0 <= j < Z.of_nat n -> ~ can_serve st j order).
Proof.
  intros Hinv Ho. induction n as [|n IH]; intros Hn; cbn [try_zones]; [right; split; [done|lia]|].
  destruct (zone_exists st (Z.of_nat n) Hinv) as [z Hz]; [lia|]. rewrite Hz. cbn [mbind option_bind].
  rewrite shl1 by lia.
  assert (~ can_serve st (Z.of_nat n) order ->
    (exists i p st', try_zones n st order = Some (Some p, st') /\ 0 <= i < Z.of_nat (S n) /\
      can_serve st i order /\ (forall j, i < j < Z.of_nat (S n) -> ~ can_serve st j order) /\
      taken st st' i p order /\ zeroed st' = zeroed st) \/
    (try_zones n st order = Some (None, st) /\
      forall j, 0 <= j < Z.of_nat (S n) -> ~ can_serve st j order)) as Hnext.
  { intros Hno. destruct IH as [(i & p & st' & E & Hi & Hc & Hj & HT)|[E Hj]]; [lia| |].
    - left. exists i, p, st'. split; [done|]. split; [lia|]. split; [done|]. split; [|done].
      intros j Hjr. destruct (decide (j = Z.of_nat n)) as [->|]; [done|]. apply Hj. lia.
    - right. split; [done|]. intros j Hjr. destruct (decide (j = Z.of_nat n)) as [->|]; [done|].
      apply Hj. lia. }
  destruct (Z.ltb_spec (free_pages z) (2 ^ order)).
  { apply Hnext. intros (z' & Hz' & Hle & _). rewrite Hz in Hz'. injection Hz' as <-. lia. }
  destruct (zone_alloc_cases st (Z.of_nat n) z order Hinv Hz Ho) as
    [(p & pa' & z' & zs & E & Hzs & Hbig & HT)|(E & Hzs & Hno)]; rewrite E; cbn [mbind option_bind];
    rewrite Hzs; cbn [mbind option_bind].
  - left. exists (Z.of_nat n), p, (with_zones (with_pages st pa') zs). split; [done|].
    split; [lia|]. split; [by exists z|]. split; [lia|done].
  - rewrite with_same. apply Hnext.
    intros (z' & Hz' & _ & o & p & Hop & Hon). rewrite Hz in Hz'. injection Hz' as <-. by eapply Hno.
Qed.

Lemma set_flag_has fl n g : page_has (Z.shiftl 1 n) (page_set_flag fl g) =
  page_has (Z.shiftl 1 n) g || ztrue (Z.land fl (Z.shiftl 1 n)).
Proof.
  destruct (decide (0 <= n)) as [Hn|Hn].
  - rewrite !page_has_bit, ztrue_land_bit by done. simpl. apply Z.lor_spec.
  - unfold page_has. simpl. replace (Z.shiftl 1 n) with 0; [by rewrite !Z.land_0_r|].
    rewrite Z.shiftl_div_pow2 by lia. symmetry. apply Z.div_small.
    assert (2 ^ 1 <= 2 ^ (- n)) by (apply Z.pow_le_mono_r; lia). lia.
Qed.

Lemma clear_flag_has fl n g : 0 <= n -> page_has (Z.shiftl 1 n) g = false ->
  page_has (Z.shiftl 1 n) (page_clear_flag fl g) = false.
Proof.
  intros Hn. rewrite !page_has_bit by done. simpl. rewrite Z.land_spec. by intros ->.
Qed.

(** The loops over the pages of a block: they stay in the block and only rewrite metadata. *)
Lemma block_loop_ok pa p o f (P : page -> Prop) :
  0 <= o < MAX_ORDER -> 0 <= p -> p + 2 ^ o <= zlen pa ->
  (forall g, pg_zone_id (f g) = pg_zone_id g) ->
  (forall g, page_has PG_BUDDY g = false -> page_has PG_BUDDY (f g) = false) ->
  (forall g, P (f g)) ->
  exists pa', for_range (Z.to_nat (Z.shiftl 1 o - 1)) 1 (fun i pa => zupd pa (p + i) f) pa = Some pa' /\
    quiet pa pa' p (p + 2 ^ o) /\ zget pa' p = zget pa p /\
    (forall q, p < q < p + 2 ^ o -> exists g, zget pa' q = Some g /\ P g).
Proof.
  intros Ho Hp Hlen Hz Hb HP. rewrite shl1 by lia. pose proof (pow2_le_1024 o Ho).
  destruct (for_range_ind (fun i pa' => quiet pa pa' p (p + 2 ^ o) /\ zget pa' p = zget pa p /\
      forall q, p < q < p + i -> exists g, zget pa' q = Some g /\ P g)
    (Z.to_nat (2 ^ o - 1)) 1 (fun i pa => zupd pa (p + i) f) pa) as (pa' & E & Q & E0 & HQ).
  - split; [apply quiet_refl|]. split; [done|lia].
  - intros i pa1 Hi (Q & E0 & HQ). pose proof (proj1 (proj1 Q)) as Hl.
    destruct (zupd_Some pa1 (p + i) f) as [pa2 E]; [lia|]. exists pa2. split; [done|].
    split; [eapply quiet_trans; [done|]; eapply quiet_upd; [done|lia|done..]|].
    split; [rewrite (zget_zupd _ _ _ _ _ E), decide_False by lia; done|].
    intros q Hq. rewrite (zget_zupd _ _ _ _ _ E). case_decide as Eq.
    + subst q. destruct (proj2 (zget_Some pa1 (p + i))) as [g ->]; [lia|]. simpl. by eexists.
    + apply HQ. lia.
  - exists pa'. split; [done|]. split; [done|]. split; [done|]. intros q Hq. apply HQ. lia.
Qed.

Lemma mark_compound_ok pa p o :
  0 <= o < MAX_ORDER -> 0 <= p -> p + 2 ^ o <= zlen pa ->
  exists pa', mark_compound pa p o = Some pa' /\ quiet pa pa' p (p + 2 ^ o) /\ compound pa' p o.
Proof.
  intros Ho Hp Hl. pose proof (pow2_le_1024 o Ho). unfold mark_compound.
  set (f := fun g => page_set_order o (page_set_flag (Z.lor PG_HEAD PG_COMPOUND) g)).
  destruct (zupd_Some pa p f) as [pa1 E1]; [lia|]. rewrite E1. cbn [mbind option_bind].
  assert (quiet pa pa1 p (p + 2 ^ o)) as Q1.
  { eapply quiet_upd; [done|lia|done|]. intros g Hg. unfold f.
    change (page_has PG_BUDDY (page_set_flag (Z.lor PG_HEAD PG_COMPOUND) g) = false).
    unfold PG_BUDDY in *. by rewrite set_flag_has, Hg. }
  destruct (block_loop_ok pa1 p o
    (fun g => page_set_head (Some p) (page_set_flag (Z.lor PG_TAIL PG_COMPOUND) g))
    (fun g => page_has PG_TAIL g = true /\ page_has PG_COMPOUND g = true /\ pg_head g = Some p))
    as (pa2 & E2 & Q2 & E0 & HT); [done|done|by rewrite (proj1 (proj1 Q1))|done| | |].
  { intros g Hg.
    change (page_has PG_BUDDY (page_set_flag (Z.lor PG_TAIL PG_COMPOUND) g) = false).
    unfold PG_BUDDY in *. by rewrite set_flag_has, Hg. }
  { intros g. split; [|split; [|done]].
    - change (page_has PG_TAIL (page_set_flag (Z.lor PG_TAIL PG_COMPOUND) g) = true).
      unfold PG_TAIL at 1. rewrite set_flag_has. apply orb_true_r.
    - change (page_has PG_COMPOUND (page_set_flag (Z.lor PG_TAIL PG_COMPOUND) g) = true).
      unfold PG_COMPOUND at 1. rewrite set_flag_has. apply orb_true_r. }
  rewrite E2. exists pa2. split; [done|]. split; [by eapply quiet_trans|]. split; [|done].
  rewrite E0, (zget_zupd _ _ _ _ _ E1), decide_True by done.
  destruct (proj2 (zget_Some pa p)) as [g ->]; [lia|]. exists (f g). split; [done|].
  split; [|split; [|done]].
  - change (page_has PG_HEAD (page_set_flag (Z.lor PG_HEAD PG_COMPOUND) g) = true).
    unfold PG_HEAD at 1. rewrite set_flag_has. apply orb_true_r.
  - change (page_has PG_COMPOUND (page_set_flag (Z.lor PG_HEAD PG_COMPOUND) g) = true).
    unfold PG_COMPOUND at 1. rewrite set_flag_has. apply orb_true_r.
Qed.

Lemma clear_compound_ok pa p o :
  0 <= o < MAX_ORDER -> 0 <= p -> p + 2 ^ o <= zlen pa ->
  exists pa', clear_compound pa p o = Some pa' /\ quiet pa pa' p (p + 2 ^ o).
Proof.
  intros Ho Hp Hl. pose proof (pow2_le_1024 o Ho). unfold clear_compound.
  destruct (zupd_Some pa p (page_clear_flag (Z.lor PG_HEAD PG_COMPOUND))) as [pa1 E1]; [lia|].
  rewrite E1. cbn [mbind option_bind].
  assert (quiet pa pa1 p (p + 2 ^ o)) as Q1.
  { eapply quiet_upd; [done|lia|done|]. intros g. by apply clear_flag_has. }
  destruct (block_loop_ok pa1 p o
    (fun g => page_set_head None (page_clear_flag (Z.lor PG_TAIL PG_COMPOUND) g))
    (fun _ => True)) as (pa2 & E2 & Q2 & _); [done|done|by rewrite (proj1 (proj1 Q1))|done| |done|].
  { intros g. apply (clear_flag_has (Z.lor PG_TAIL PG_COMPOUND) 1). lia. }
  rewrite E2. exists pa2. split; [done|]. by eapply quiet_trans.
Qed.

Lemma taken_quiet st st1 i p o pa' :
  taken st st1 i p o -> quiet (page_array st1) pa' p (p + 2 ^ o) ->
  taken st (with_pages st1 pa') i p o.
Proof.
  intros [T1 T2 (z & Tz & Tb) T4 T5 (T6 & T7)] HQ. pose proof (proj1 (proj1 HQ)) as Hl. split.
  - eapply quiet_step_inv; [done..|]. intros q Hq Hf. apply T5 in Hf as [_ Hn]. by apply Hn.
  - done.
  - exists z. split; [done|]. by apply (block_ok_ext (page_array st1) _ z).
  - done.
  - done.
  - simpl. by rewrite Hl.
Qed.

Lemma pmm_block_range st p o : pmm_inv st -> pmm_block st p o ->
  0 <= o < MAX_ORDER /\ 0 <= p /\ p + 2 ^ o <= zlen (page_array st) /\ zlen (page_array st) < 2 ^ 52.
Proof.
  intros Hinv (z & Hz & Ho & Hlo & Hhi & _).
  pose proof (zi_bounds _ _ (pi_zone _ Hinv _ _ Hz)) as [? ?]. unfold zone_limit in Hhi. lia.
Qed.

(** The log of zeroed memory after an allocation. *)
Definition zero_log (st : pmm_state) (p order gfp_flags : Z) : list (Z * Z) :=
  if ztrue (Z.land gfp_flags GFP_ZERO)
  then (phys_to_virt st (page_to_phys p), 2 ^ order * PAGE_SIZE) :: zeroed st else zeroed st.

(** Everything [alloc_pages] does to the page it picked. *)
Lemma setup_block_ok st st1 i p order gfp_flags :
  taken st st1 i p order -> zeroed st1 = zeroed st ->
  exists st2,
    (pa ← zupd (page_array st1) p (page_clear_flag PG_BUDDY);
     pa ← (if ztrue (Z.land gfp_flags GFP_KERNEL) then zupd pa p (page_set_flag PG_KERNEL)
           else Some pa);
     let st := zero_block (with_pages st1 pa) p order gfp_flags in
     if 0 <? order then
       pa ← mark_compound (page_array st) p order; Some (Some p, with_pages st pa)
     else Some (Some p, st)) = Some (Some p, st2) /\
    taken st st2 i p order /\ (0 < order -> compound (page_array st2) p order) /\
    zeroed st2 = zero_log st p order gfp_flags.
Proof.
  intros HT Hzero. destruct (pmm_block_range st1 p order) as (Ho & Hp & Hlen & H52);
    [apply HT|apply HT|]. pose proof (pow2_le_1024 order Ho).
  destruct (zupd_Some (page_array st1) p (page_clear_flag PG_BUDDY)) as [pa1 E1]; [lia|].
  rewrite E1. cbn [mbind option_bind].
  change (Z.land gfp_flags GFP_KERNEL) with (Z.land gfp_flags 0). rewrite Z.land_0_r.
  cbn [ztrue Z.eqb negb mbind option_bind].
  assert (taken st (with_pages st1 pa1) i p order) as HT1.
  { apply taken_quiet; [done|]. eapply quiet_upd; [done|lia|done|]. intros g _. apply has_buddy_clear. }
  assert (forall s, page_array (zero_block s p order gfp_flags) = page_array s) as Epa.
  { intros s. unfold zero_block. by destruct (ztrue _). }
  assert (taken st (zero_block (with_pages st1 pa1) p order gfp_flags) i p order /\
    zeroed (zero_block (with_pages st1 pa1) p order gfp_flags) = zero_log st p order gfp_flags) as [HT2 Hz2].
  { unfold zero_block, zero_log, phys_to_virt. destruct (ztrue _); [|done]. split.
    - destruct HT1 as [[] ? ? ? ? ?]. by split; [split|..].
    - simpl. rewrite Hzero. do 2 f_equal; [by rewrite (proj1 (proj2 (tk_same _ _ _ _ _ HT)))|].
      rewrite shl1 by lia. apply u64_small. unfold PAGE_SIZE, PAGE_SHIFT.
      change (Z.shiftl 1 12) with 4096. lia. }
  cbv zeta. rewrite Epa. destruct (Z.ltb_spec 0 order) as [Hpos|Hpos].
  - destruct (mark_compound_ok pa1 p order) as (pa2 & E2 & Q2 & C2); [done|done| |].
    { by rewrite (zupd_length _ _ _ _ E1). }
    simpl page_array. rewrite E2. cbn [mbind option_bind]. eexists. split; [done|].
    split; [apply taken_quiet; [done|]; by rewrite Epa|]. done.
  - eexists. split; [done|]. split; [done|]. split; [lia|done].
Qed.

Lemma alloc_pages_ok st order gfp_flags :
  pmm_inv st -> initialized st = true -> 0 <= order < MAX_ORDER ->
  (exists i p st', alloc_pages st order gfp_flags = Some (Some p, st') /\
     0 <= i <= start_zone gfp_flags /\ can_serve st i order /\
     (forall j, i < j <= start_zone gfp_flags -> ~ can_serve st j order) /\
     taken st st' i p order /\ (0 < order -> compound (page_array st') p order) /\
     zeroed st' = zero_log st p order gfp_flags) \/
  (alloc_pages st order gfp_flags = Some (None, st) /\
     forall j, 0 <= j <= start_zone gfp_flags -> ~ can_serve st j order).
Proof.
  intros Hinv Hini Ho. unfold alloc_pages. rewrite Hini. cbn [negb]. fold (start_zone gfp_flags).
  assert (0 <= start_zone gfp_flags < MAX_ZONES) as Hsz.
  { unfold start_zone. destruct (ztrue _); [done|]. by destruct (ztrue _). }
  destruct (try_zones_ok (Z.to_nat (start_zone gfp_flags + 1)) st order) as
    [(i & p & st1 & E & Hi & Hc & Hj & HT & Hz)|[E Hj]]; [done|done|lia| |]; rewrite E;
    cbn [mbind option_bind].
  - left. destruct (setup_block_ok st st1 i p order gfp_flags HT Hz) as (st2 & E2 & HT2 & Hcomp & Hlog).
    exists i, p, st2. split; [exact E2|]. split; [lia|]. split; [done|]. split; [|done].
    intros j Hjr. apply Hj. lia.
  - right. split; [done|]. intros j Hjr. apply Hj. lia.
Qed.

(** C16.  The page allocator: on a good state [alloc_pages] runs without touching memory outside
    its tables and either hands out an aligned block of [2^order] free pages from the highest
    zone, not above the one the flags ask for, whose counter and free lists can serve it, removes
    exactly that block from the free pages, marks it as a compound page when it has several pages
    and zeroes exactly it when asked to; or returns NULL, changing nothing, exactly when no zone
    it may use can serve the request.  The invariant of all zones is preserved. *)
Theorem alloc_pages_spec st order gfp_flags :
  pmm_inv st -> initialized st = true -> 0 <= order < MAX_ORDER ->
  (exists i p st', alloc_pages st order gfp_flags = Some (Some p, st') /\
     0 <= i <= start_zone gfp_flags /\ can_serve st i order /\
     (forall j, i < j <= start_zone gfp_flags -> ~ can_serve st j order) /\
     taken st st' i p order /\ (0 < order -> compound (page_array st') p order) /\
     zeroed st' = zero_log st p order gfp_flags) \/
  (alloc_pages st order gfp_flags = Some (None, st) /\
     forall j, 0 <= j <= start_zone gfp_flags -> ~ can_serve st j order).
Proof. apply alloc_pages_ok. Qed.

(** ** Freeing *)

Lemma pmm_free_ok st p o :
  pmm_inv st -> initialized st = true -> pmm_block st p o -> pmm_covered st p ->
  (forall q, in_block p o q -> ~ pmm_free_at st q) ->
  exists st', pmm_free_block st (Some p) o = Some st' /\ pmm_inv st' /\
    initialized st' = true /\ forall q, pmm_free_at st' q <-> pmm_free_at st q \/ in_block p o q.
Proof.
  intros Hinv Hini Hb Hcov Hoff. destruct (pmm_block_range st p o Hinv Hb) as (Ho & Hp & Hlen & H52).
  pose proof (pow2_le_1024 o Ho). destruct Hb as (z & Hz & Hb). unfold pmm_free_block.
  rewrite Hini. cbn [negb]. destruct (proj2 (zget_Some (page_array st) p)) as [g Hg]; [lia|].
  rewrite Hg. cbn [mbind option_bind]. rewrite (pi_ids _ Hinv _ _ Hg), Hz. cbn [mbind option_bind].
  assert (exists pa1, (if 0 <? o then clear_compound (page_array st) p o else Some (page_array st))
    = Some pa1 /\ quiet (page_array st) pa1 p (p + 2 ^ o)) as (pa1 & E1 & Q1).
  { destruct (0 <? o); [by apply clear_compound_ok|]. eexists. split; [done|]. apply quiet_refl. }
  rewrite E1. cbn [mbind option_bind]. pose proof (proj1 (proj1 Q1)) as Hl1.
  destruct (zupd_Some pa1 p (page_clear_flag PG_KERNEL)) as [pa2 E2]; [lia|].
  rewrite E2. cbn [mbind option_bind].
  assert (quiet (page_array st) pa2 p (p + 2 ^ o)) as Q2.
  { eapply quiet_trans; [exact Q1|]. eapply quiet_upd; [done|lia|done|]. intros g0.
    by apply clear_flag_has. }
  pose proof (proj1 (proj1 Q2)) as Hl2.
  pose proof (quiet_step_inv st Hinv pa2 p (p + 2 ^ o) Q2 Hoff) as Hinv2.
  set (st2 := with_pages st pa2) in *.
  destruct (pi_bounds _ Hinv2 _ _ Hz) as [_ Hend].
  destruct (buddy_free_ok pa2 z p o) as (pa' & z' & p' & o' & E & F & S).
  - by apply (pi_zone _ Hinv2 _ _ Hz).
  - unfold covered. rewrite Hend, Hl2, <- (pi_pfns _ Hinv). apply Hcov.
  - by apply (block_ok_ext (page_array st) _ z).
  - intros q Hq Hf. apply (Hoff q Hq). by exists (pfn_to_zone_type p), z.
  - rewrite E. cbn [mbind option_bind].
    destruct (zupd_Some (zones st) (pfn_to_zone_type p) (fun _ => z')) as [zs Hzs];
      [by eapply zget_range|]. rewrite <- zset_zupd in Hzs. rewrite Hzs. cbn [mbind option_bind].
    eexists. split; [done|]. split; [by apply (zone_step_inv st2 Hinv2 _ z pa' z' zs Hz); try apply S|].
    split; [done|]. intros q.
    etransitivity; [apply (zone_step_free st2 _ z pa' z' zs q Hz Hzs)|].
    rewrite (fr_free _ _ _ _ _ _ _ F). split.
    + intros [[Hf|Hq]|(j & y & _ & Hy & Hf)];
        [left; by exists (pfn_to_zone_type p), z|by right|left; by exists j, y].
    + intros [(j & y & Hy & Hf)|Hq]; [|by left; right].
      destruct (decide (j = pfn_to_zone_type p)) as [->|]; [|right; by exists j, y].
      change (zones st2) with (zones st) in *. left; left. congruence.
Qed.

(** C17.  [free_pages] takes back any block that is aligned, inside its zone and not free: it runs
    without undefined behaviour when the page array covers the zone (it reaches the zone's end, or its
    length is a multiple of the largest block), frees exactly the pages of the block, and preserves the invariant of every zone. *)
Theorem pmm_free_spec st p o :
  pmm_inv st -> initialized st = true -> pmm_block st p o -> pmm_covered st p ->
  (forall q, in_block p o q -> ~ pmm_free_at st q) ->
  exists st', pmm_free_block st (Some p) o = Some st' /\ pmm_inv st' /\
    initialized st' = true /\ forall q, pmm_free_at st' q <-> pmm_free_at st q \/ in_block p o q.
Proof. apply pmm_free_ok. Qed.

Lemma virt_to_page_phys st p :
  0 <= p < page_array_pfns st -> page_array_pfns st < 2 ^ 52 ->
  virt_to_page st (phys_to_virt st (page_to_phys p)) = Some p.
Proof.
  intros Hp H52. unfold virt_to_page, virt_to_phys, phys_to_virt, page_to_phys.
  rewrite PFN_TO_PHYS_mul, u64_sub_l by lia.
  replace (p * 4096 + hhdm_offset st - hhdm_offset st) with (p * 4096) by lia.
  rewrite u64_small, PHYS_TO_PFN_div, Z.div_mul by lia.
  by destruct (Z.leb_spec (page_array_pfns st) p); [lia|].
Qed.

(** Memory obtained by address and given back by address: [simple_free_pages] finds the
    block of the pointer [simple_get_free_pages] returned and restores the set of free pages. *)
Theorem simple_pages_roundtrip st order va st1 :
  pmm_inv st -> initialized st = true -> 0 <= order < MAX_ORDER ->
  (forall p, virt_to_page st va = Some p -> pmm_covered st p) ->
  simple_get_free_pages st order = Some (va, st1) -> va ≠ 0 ->
  exists st2, simple_free_pages st1 va order = Some st2 /\ pmm_inv st2 /\
    (forall q, pmm_free_at st2 q <-> pmm_free_at st q).
Proof.
  intros Hinv Hini Ho Hcov E Hva. unfold simple_get_free_pages, get_free_pages in E.
  destruct (alloc_pages_ok st order GFP_KERNEL Hinv Hini Ho) as
    [(i & p & s2 & E1 & Hi & _ & _ & HT2 & _)|[E1 _]]; rewrite E1 in E; cbn [mbind option_bind] in E;
    [|congruence]. injection E as <- <-.
  pose proof HT2 as [T1 T2 T3 T4 T5 (T6 & T7 & T8 & T9)].
  destruct (pmm_block_range s2 p order T1 T3) as (_ & Hp & Hlen & H52). pose proof (pow2_pos order).
  unfold simple_free_pages. destruct (Z.eqb_spec (phys_to_virt s2 (page_to_phys p)) 0); [done|].
  rewrite virt_to_page_phys by (rewrite (pi_pfns _ T1); lia).
  destruct (pmm_free_ok s2 p order) as (st2 & E3 & I3 & _ & F3); [done|congruence|done| | |].
  - unfold pmm_covered, zone_hi in *. rewrite T9. apply Hcov. unfold phys_to_virt. rewrite T7.
    apply virt_to_page_phys; rewrite (pi_pfns _ Hinv); lia.
  - intros q Hq [_ Hn]%T5. done.
  - exists st2. split; [done|]. split; [done|]. intros q. rewrite F3, T5. split.
    + intros [[? _]|Hq]; auto.
    + intros Hf. destruct (decide (p <= q < p + 2 ^ order)); [by right|left; split; [done|]].
      unfold in_block. done.
Qed.

(** ** Boot: handing the usable pages to the zones *)

(** Page [q] exists and is not reserved. *)
Definition usable (pa : list page) (q : Z) : Prop :=
  exists g, zget pa q = Some g /\ page_has PG_RESERVED g = false.

Lemma add_present_inv pa n z : zone_inv pa z -> zone_inv pa (add_present n z).
Proof. intros []. by split. Qed.

Lemma add_run_ok st i run_start n :
  pmm_inv st -> 0 <= i < MAX_ZONES -> 0 < n -> 0 <= run_start ->
  (forall q, run_start <= q < run_start + n ->
     q < zlen (page_array st) /\ pfn_to_zone_type q = i /\ ~ pmm_free_at st q) ->
  exists st', add_run st i run_start n = Some st' /\ pmm_inv st' /\
    (forall q, pmm_free_at st' q <-> pmm_free_at st q \/ run_start <= q < run_start + n) /\
    (forall q, ~ (run_start <= q < run_start + n) ->
       zget (page_array st') q = zget (page_array st) q) /\
    zlen (page_array st') = zlen (page_array st) /\ page_array_pfns st' = page_array_pfns st.
Proof.
  intros Hinv Hi Hn Hs Hrun. destruct (zone_exists st i Hinv Hi) as [z Hz].
  pose proof (pi_zone _ Hinv _ _ Hz) as Hzi. pose proof (zi_bounds _ _ Hzi) as [B1 B2].
  destruct (Hrun run_start) as (L1 & T1 & _); [lia|].
  destruct (Hrun (run_start + n - 1)) as (L2 & T2 & _); [lia|].
  assert (start_pfn z <= run_start /\ run_start + n <= zone_limit (page_array st) z) as [Hlo Hhi].
  { destruct (pi_bounds _ Hinv _ _ Hz) as [-> E2]. unfold zone_limit. rewrite E2.
    unfold zone_lo, zone_hi. rewrite (pi_pfns _ Hinv).
    change (PHYS_TO_PFN ZONE_DMA_END) with 4096. change (PHYS_TO_PFN ZONE_DMA32_END) with 1048576.
    destruct (zone_type_cases run_start) as [[? ?]|[[? ?]|[[? ?]|?]]];
      destruct (zone_type_cases (run_start + n - 1)) as [[? ?]|[[? ?]|[[? ?]|?]]]; try lia;
      first [replace i with 0 by lia|replace i with 1 by lia|replace i with 2 by lia];
      simpl; lia. }
  unfold add_run, buddy_add_pages. rewrite Hz. cbn [mbind option_bind].
  assert (zone_limit (page_array st) z <= zlen (page_array st)) by (unfold zone_limit; lia).
  rewrite u64_small by lia.
  destruct (add_pages_loop_ok (Z.to_nat (run_start + n - run_start)) (page_array st) z run_start
    (run_start + n)) as (pa' & z1 & E & S & F & _); [done|lia|lia|lia|lia| |].
  { intros q Hq Hf. destruct (Hrun q Hq) as (_ & _ & Hno). apply Hno. by exists i, z. }
  rewrite E. cbn [mbind option_bind].
  destruct (zupd_Some (zones st) i (fun _ => add_present n z1)) as [zs Hzs]; [by eapply zget_range|].
  rewrite <- zset_zupd in Hzs. rewrite Hzs. cbn [mbind option_bind].
  eexists. split; [done|]. split; [|split; [|split]].
  - destruct S as (S1 & (S2 & S3 & _) & S5).
    by apply (zone_step_inv st Hinv i z pa' (add_present n z1) zs); [|apply add_present_inv|..].
  - intros q. rewrite (zone_step_free st i z pa' _ zs q Hz Hzs).
    change (free_at (add_present n z1) q) with (free_at z1 q). rewrite F. split.
    + intros [[Hf|Hq]|(j & y & _ & Hy & Hf)]; [left; by exists i, z|by right|left; by exists j, y].
    + intros [(j & y & Hy & Hf)|Hq]; [|by left; right].
      destruct (decide (j = i)) as [->|]; [left; left; congruence|right; by exists j, y].
  - by eapply (add_pages_frame _ _ _ _ _ _ _ Hs); [|exact E]; lia.
  - by split; [apply S|].
Qed.

(** The state of the scan before page [j]: the pages before the current run have been handed to
    the zones if usable, those of the run are usable and of the run's zone. *)
Record scanned (pa0 : list page) (j : Z) (st : pmm_state) (run_start run_length cz : Z) : Prop := {
  sc_inv : pmm_inv st;
  sc_len : zlen (page_array st) = zlen pa0 /\ 0 <= run_length <= j /\ 0 <= cz < MAX_ZONES;
  sc_run : 0 < run_length -> run_start = j - run_length;
  sc_usable : forall q, j - run_length <= q < j -> usable pa0 q /\ pfn_to_zone_type q = cz;
  sc_rest : forall q, j - run_length <= q -> zget (page_array st) q = zget pa0 q;
  sc_free : forall q, pmm_free_at st q <-> 0 <= q < j - run_length /\ usable pa0 q
}.

Lemma zone_type_range q : 0 <= pfn_to_zone_type q < MAX_ZONES.
Proof.
  unfold pfn_to_zone_type, MAX_ZONES, ZONE_DMA, ZONE_DMA32, ZONE_NORMAL.
  destruct (_ <? _); [lia|]. destruct (_ <? _); lia.
Qed.

(** Handing over the current run. *)
Lemma flush_run_ok pa0 j st rs rl cz :
  scanned pa0 j st rs rl cz -> j <= zlen pa0 ->
  exists st', (if 0 <? rl then add_run st cz rs rl else Some st) = Some st' /\ pmm_inv st' /\
    zlen (page_array st') = zlen pa0 /\
    (forall q, j <= q -> zget (page_array st') q = zget pa0 q) /\
    forall q, pmm_free_at st' q <-> 0 <= q < j /\ usable pa0 q.
Proof.
  intros [H1 (H2 & H2' & H2'') H3 H4 H5 H6] Hj. destruct (Z.ltb_spec 0 rl) as [Hp|Hp].
  - specialize (H3 Hp). destruct (add_run_ok st cz rs rl) as (st' & E & I & F & Fr & L & _);
      [done|done|done|lia| |].
    { intros q Hq. split; [lia|]. split; [apply H4; lia|]. rewrite H6. lia. }
    exists st'. split; [done|]. split; [done|]. split; [lia|]. split.
    + intros q Hq. rewrite Fr by lia. apply H5. lia.
    + intros q. rewrite F, H6. split.
      * intros [[? ?]|Hq]; [split; [lia|done]|]. split; [lia|]. apply H4. lia.
      * intros [? ?]. destruct (decide (q < j - rl)); [left; split; [lia|done]|right; lia].
  - exists st. split; [done|]. split; [done|]. split; [done|]. split.
    + intros q Hq. apply H5. lia.
    + intros q. rewrite H6. split; (intros [? ?]; split; [lia|done]).
Qed.

Lemma usable_step_ok pa0 j st rs rl cz :
  zlen pa0 < 2 ^ 52 -> 0 <= j < zlen pa0 -> scanned pa0 j st rs rl cz ->
  exists st' rs' rl' cz', usable_step j (st, rs, rl, cz) = Some (st', rs', rl', cz') /\
    scanned pa0 (j + 1) st' rs' rl' cz'.
Proof.
  intros H52 Hj HS. pose proof HS as [H1 (H2 & H2' & H2'') H3 H4 H5 H6].
  unfold usable_step. destruct (proj2 (zget_Some pa0 j) Hj) as [g Hg].
  rewrite H5, Hg by lia. cbn [mbind option_bind].
  assert (usable pa0 j <-> page_has PG_RESERVED g = false) as Hu.
  { split; [intros (g' & Hg' & ?); congruence|]. by exists g. }
  destruct (negb (page_has PG_RESERVED g) && (pfn_to_zone_type j =? cz)) eqn:Ec.
  - apply andb_true_iff in Ec as [Eu%negb_true_iff Et%Z.eqb_eq]. rewrite u64_small by lia.
    do 4 eexists. split; [done|]. replace (j + 1 - (rl + 1)) with (j - rl) in * by lia. split.
    + done.
    + lia.
    + intros _. destruct (Z.eqb_spec rl 0); lia.
    + intros q Hq. destruct (decide (q = j)) as [->|]; [split; [by apply Hu|done]|apply H4; lia].
    + intros q Hq. apply H5. lia.
    + intros q. rewrite H6. split; (intros [? ?]; split; [lia|done]).
  - destruct (flush_run_ok pa0 j st rs rl cz HS) as (st' & E & I & L & Fr & F); [lia|].
    rewrite E. cbn [mbind option_bind]. destruct (page_has PG_RESERVED g) eqn:Er; cbn [negb].
    + do 4 eexists. split; [done|]. split; [done|lia|lia|lia| |].
      * intros q Hq. apply Fr. lia.
      * intros q. rewrite F. split; [intros [? ?]; split; [lia|done]|].
        intros [? Hq]. destruct (decide (q = j)) as [->|]; [by apply Hu in Hq|split; [lia|done]].
    + do 4 eexists. split; [done|]. split.
      * done.
      * pose proof (zone_type_range j). lia.
      * lia.
      * intros q Hq. assert (q = j) as -> by lia. split; [by apply Hu|done].
      * intros q Hq. apply Fr. lia.
      * intros q. rewrite F. split; (intros [? ?]; split; [lia|done]).
Qed.

Lemma add_usable_ok st :
  pmm_inv st -> zlen (page_array st) < 2 ^ 52 -> (forall q, ~ pmm_free_at st q) ->
  exists st', add_usable_memory st = Some st' /\ pmm_inv st' /\
    zlen (page_array st') = zlen (page_array st) /\
    forall q, pmm_free_at st' q <-> usable (page_array st) q.
Proof.
  intros Hinv H52 Hno. unfold add_usable_memory. rewrite (pi_pfns _ Hinv).
  destruct (for_range_ind (fun j '(s, rs, rl, cz) => 0 <= j /\ scanned (page_array st) j s rs rl cz)
    (Z.to_nat (zlen (page_array st))) 0 usable_step (st, 0, 0, ZONE_DMA))
    as ([[[s rs] rl] cz] & E & Hj & HS).
  - split; [done|]. split; [done|unfold MAX_ZONES, ZONE_DMA; lia|lia|lia|done|].
    intros q. split; [by intros ?%Hno|lia].
  - intros j [[[s rs] rl] cz] Hj [_ HS].
    destruct (usable_step_ok (page_array st) j s rs rl cz) as (s' & rs' & rl' & cz' & E & HS');
      [done|lia|done|]. exists (s', rs', rl', cz'). split; [done|]. split; [lia|done].
  - rewrite E. cbn [mbind option_bind].
    destruct (flush_run_ok _ _ _ _ _ _ HS) as (st' & E' & I & L & _ & F); [unfold zlen; lia|].
    exists st'. split; [done|]. split; [done|]. split; [done|]. intros q. rewrite F. split; [tauto|].
    intros Hu. split; [|done]. destruct Hu as (g & Hg & _). apply zget_range in Hg. lia.
Qed.

(** ** Boot: the whole initialisation *)

Definition entry_ok (e : memmap_entry) : Prop :=
  0 <= me_base e /\ 0 <= me_length e /\ me_base e + me_length e < 2 ^ 47.

(** The page lies wholly inside an entry the boot loader calls usable or reclaimable. *)
Definition offered (l : list memmap_entry) (q : Z) : Prop :=
  exists e, e ∈ l /\
    (me_type e = LIMINE_MEMMAP_USABLE \/ me_type e = LIMINE_MEMMAP_BOOTLOADER_RECLAIMABLE) /\
    me_base e <= q * 4096 /\ (q + 1) * 4096 <= me_base e + me_length e.

(** The page meets the byte range [lo, hi). *)
Definition meets (q lo hi : Z) : Prop := q * 4096 < hi /\ lo < (q + 1) * 4096.

Lemma scan_bounds l s :
  Forall entry_ok l ->
  (let '(m, b, n) := s in 0 <= m < 2 ^ 47 /\ 0 <= b /\ 0 <= n /\ b + n < 2 ^ 47) ->
  let '(m, b, n) := fold_left scan_entry l s in 0 <= m < 2 ^ 47 /\ 0 <= b /\ 0 <= n /\ b + n < 2 ^ 47.
Proof.
  intros Hl. revert s. induction Hl as [|e l (E1 & E2 & E3) Hl IH]; intros s Hs; simpl; [done|].
  apply IH. destruct s as [[m b] n]. unfold scan_entry.
  assert (0 <= (if m <? u64 (me_base e + me_length e) then u64 (me_base e + me_length e) else m)
    < 2 ^ 47) as Hm.
  { rewrite u64_small by lia. destruct (_ <? _); lia. }
  destruct (_ || _); destruct (_ && _); lia.
Qed.

Lemma mark_entries_ok l bm :
  bm_wf bm -> Forall entry_ok l ->
  exists bm', mark_entries bm l = Some bm' /\ bm_wf bm' /\ same_shape bm bm' /\
    forall q, tracked bm q -> used bm' q = false <-> offered l q \/ used bm q = false.
Proof.
  intros Hwf Hl. revert bm Hwf. induction Hl as [|e l (E1 & E2 & E3) Hl IH]; intros bm Hwf.
  - exists bm. split; [done|]. split; [done|]. split; [done|]. intros q _. split; [by right|].
    intros [(e & He & _)|?]; [|done]. by apply elem_of_nil in He.
  - cbn [mark_entries]. unfold mark_entry. rewrite u64_small by lia.
    assert (forall q, offered (e :: l) q <-> offered l q \/ ((me_type e =? LIMINE_MEMMAP_USABLE) ||
      (me_type e =? LIMINE_MEMMAP_BOOTLOADER_RECLAIMABLE) = true /\
      me_base e <= q * 4096 /\ (q + 1) * 4096 <= me_base e + me_length e)) as Ho.
    { intros q. unfold offered. setoid_rewrite elem_of_cons. rewrite orb_true_iff, !Z.eqb_eq. split.
      - intros (e' & [->|He] & HH); [by right|left; by exists e'].
      - intros [(e' & He & HH)|HH]; [exists e'; auto|exists e; auto]. }
    destruct ((me_type e =? _) || (me_type e =? _)); cbn [mbind option_bind].
    + destruct (mark_range_ok bm (me_base e) (me_base e + me_length e)) as
        [(bm1 & E & W1 & S1 & U1) _]; [done|lia..|]. rewrite E. cbn [mbind option_bind].
      destruct (IH bm1 W1) as (bm2 & EE & W2 & S2 & U2). exists bm2. split; [done|]. split; [done|].
      split; [by eapply same_shape_trans|]. intros q Hq.
      rewrite U2 by by apply (same_shape_tracked bm). rewrite Ho, U1 by done. case_decide; tauto.
    + destruct (IH bm Hwf) as (bm2 & EE & W2 & S2 & U2). exists bm2. split; [done|]. split; [done|].
      split; [done|]. intros q Hq. rewrite U2, Ho by done. split; [tauto|]. intros [[?|[? _]]|?]; auto.
      done.
Qed.

Lemma is_usable_ok bm q : bm_wf bm -> tracked bm q ->
  mem_bitmap_is_usable bm q = Some (negb (used bm q)).
Proof.
  intros Hwf Hq. pose proof Hwf as [H1 H2 H3 H4 H5 H6]. unfold mem_bitmap_is_usable.
  pose proof Hq as [Hlo Hhi]. rewrite u64_small by divlia.
  destruct (Z.ltb_spec q (base_pfn bm)); [lia|].
  destruct (Z.leb_spec (base_pfn bm + nr_bits bm) q); [lia|]. cbn [orb].
  rewrite test_bit_ok by (done || by apply tracked_has_bit). done.
Qed.

(** What the page array holds once the scan has reached page [j]. *)
Definition boot_page (bm : mem_bitmap) (j q : Z) : page :=
  mk_page (if (q <? j) && negb (used bm q) then 0 else PG_RESERVED) 0 (pfn_to_zone_type q) None.

Lemma unreserve_ok n st :
  bm_wf (bitmap st) -> nr_bits (bitmap st) = n -> base_pfn (bitmap st) = 0 -> 0 <= n ->
  zlen (page_array st) = n ->
  (forall q, 0 <= q < n -> zget (page_array st) q = Some (boot_page (bitmap st) 0 q)) ->
  exists st', for_range (Z.to_nat n) 0 unreserve_step st = Some st' /\
    zlen (page_array st') = n /\ page_array_pfns st' = page_array_pfns st /\
    forall q, 0 <= q < n -> zget (page_array st') q = Some (boot_page (bitmap st) n q).
Proof.
  intros Hwf Hn Hb Hn0 Hlen Hpa.
  destruct (for_range_ind (fun j s => 0 <= j /\ zlen (page_array s) = n /\ bitmap s = bitmap st /\
      page_array_pfns s = page_array_pfns st /\
      forall q, 0 <= q < n -> zget (page_array s) q = Some (boot_page (bitmap st) j q))
    (Z.to_nat n) 0 unreserve_step st) as (st' & E & _ & L & _ & P & H).
  - done.
  - intros j s Hj (_ & L & B & P & H). unfold unreserve_step. rewrite B, is_usable_ok;
      [|done|unfold tracked; lia]. cbn [mbind option_bind].
    destruct (used (bitmap st) j) eqn:Eu; cbn [negb].
    + eexists. split; [done|]. repeat (split; [lia||done|]). intros q Hq. simpl. rewrite H by done.
      unfold boot_page. do 2 f_equal. destruct (decide (q = j)) as [->|]; [rewrite Eu; by rewrite !andb_false_r|].
      by replace (q <? j + 1) with (q <? j) by lia.
    + destruct (zupd_Some (page_array s) j (page_clear_flag PG_RESERVED)) as [pa E]; [lia|].
      rewrite E. cbn [mbind option_bind]. eexists. split; [done|]. split; [lia|].
      split; [simpl; by rewrite (zupd_length _ _ _ _ E)|]. split; [done|]. split; [done|].
      intros q Hq. simpl. rewrite (zget_zupd _ _ _ _ _ E), !H by done. case_decide as Ej.
      * subst q. simpl. unfold boot_page, page_clear_flag. rewrite Eu. simpl.
        rewrite Z.ltb_irrefl. simpl. by replace (j <? j + 1) with true by lia.
      * unfold boot_page. by replace (q <? j + 1) with (q <? j) by lia.
  - exists st'. split; [done|]. split; [done|]. split; [done|].
    by replace (0 + Z.of_nat (Z.to_nat n)) with n in H by lia.
Qed.

Lemma init_zones_ok st :
  page_array_pfns st = zlen (page_array st) -> zlen (page_array st) < 2 ^ 52 ->
  (forall q g, zget (page_array st) q = Some g ->
     page_has PG_BUDDY g = false /\ pg_zone_id g = pfn_to_zone_type q) ->
  pmm_inv (init_zones st) /\ forall q, ~ pmm_free_at (init_zones st) q.
Proof.
  intros Hp Hl Hpa.
  assert (forall i z, zget (zones (init_zones st)) i = Some z ->
    z = fresh_zone (zone_lo i) (zone_hi st i) /\ 0 <= zone_lo i) as Hz.
  { intros i z Hz. pose proof (zget_range _ _ _ Hz) as Hr.
    change (zlen (zones (init_zones st))) with 3 in Hr.
    assert (i = 0 \/ i = 1 \/ i = 2) as [->|[->| ->]] by lia; by injection Hz as <-. }
  split; [split|].
  - done.
  - done.
  - intros i z Hi. by destruct (Hz i z Hi) as [-> _].
  - intros i z Hi. destruct (Hz i z Hi) as [-> H0]. apply buddy_init_inv; [done|done|].
    intros p g _ Hg. by destruct (Hpa p g Hg).
  - intros q g Hg. by destruct (Hpa q g Hg).
  - intros q (i & z & Hi & Hf). destruct (Hz i z Hi) as [-> _]. by apply init_free_at in Hf.
Qed.

Lemma boot_alloc_ok st n :
  0 <= ba_current (boot_alloc st) < 2 ^ 47 -> 0 <= n < 2 ^ 47 ->
  PAGE_ALIGN (ba_current (boot_alloc st)) + n * 4096 <= ba_end (boot_alloc st) ->
  boot_alloc_pages st n =
    (phys_to_virt st (PAGE_ALIGN (ba_current (boot_alloc st))),
     with_boot_alloc st (mk_boot_alloc (ba_base (boot_alloc st))
       (PAGE_ALIGN (ba_current (boot_alloc st)) + n * 4096) (ba_end (boot_alloc st)))).
Proof.
  intros Hc Hn He. unfold boot_alloc_pages. rewrite PAGE_SIZE_val.
  pose proof (PAGE_ALIGN_spec (ba_current (boot_alloc st)) ltac:(lia) ltac:(lia)).
  rewrite (u64_small (n * 4096)) by lia. rewrite u64_small by divlia.
  by destruct (Z.ltb_spec (ba_end (boot_alloc st)) (PAGE_ALIGN (ba_current (boot_alloc st)) + n * 4096)); [lia|].
Qed.

(** What the boot code computes from the memory map: the number of page frames, the region of
    the boot allocator, and the ends of the bitmap and of the page array in that region. *)
Definition scan (memmap : list memmap_entry) : Z * Z * Z := fold_left scan_entry memmap (0, 0, 0).
Definition boot_max_pfn (memmap : list memmap_entry) : Z := PHYS_TO_PFN (scan memmap).1.1.
Definition boot_base (memmap : list memmap_entry) : Z := (scan memmap).1.2.
Definition boot_size (memmap : list memmap_entry) : Z := (scan memmap).2.
Definition pages_for (bytes : Z) : Z := (bytes + 4095) / 4096.
Definition bitmap_end (memmap : list memmap_entry) : Z :=
  PAGE_ALIGN (boot_base memmap) + pages_for (mem_bitmap_size_for (boot_max_pfn memmap)) * 4096.
Definition array_end (memmap : list memmap_entry) : Z :=
  bitmap_end memmap + boot_max_pfn memmap * SIZEOF_PAGE.

(** The machine can boot: sane entries, a direct map that does not wrap, a region large enough
    for the bitmap and the page array. *)
Record bootable (hhdm : Z) (memmap : list memmap_entry) (mem : list Z) : Prop := {
  bo_entries : Forall entry_ok memmap;
  bo_hhdm : 0 < hhdm /\ hhdm + 2 ^ 47 <= 2 ^ 64;
  bo_mem : zlen mem * 8 = mem_bitmap_size_for (boot_max_pfn memmap) /\ Forall (fits 64) mem;
  bo_room : bitmap_end memmap + pages_for (boot_max_pfn memmap * SIZEOF_PAGE) * 4096
              <= boot_base memmap + boot_size memmap
}.

Lemma pmm_inv_ext st st' :
  zones st' = zones st -> page_array st' = page_array st ->
  page_array_pfns st' = page_array_pfns st -> pmm_inv st -> pmm_inv st'.
Proof.
  intros E1 E2 E3 [H1 H2 H3 H4 H5]. split; rewrite ?E1, ?E2, ?E3; try done.
  intros i z Hz. unfold zone_hi. rewrite E3. by apply H3.
Qed.

Lemma boot_array_get bm n q g :
  zget ((fun pfn => mk_page PG_RESERVED 0 (pfn_to_zone_type pfn) None) <$> seqZ 0 n) q = Some g <->
  0 <= q < n /\ g = boot_page bm 0 q.
Proof.
  unfold zget, boot_page. case_decide as Hq; [|split; [done|lia]].
  rewrite list_lookup_fmap. destruct (decide (q < n)) as [Hn|Hn].
  - rewrite (lookup_seqZ_lt 0 n (Z.to_nat q)) by lia. simpl.
    replace (0 + Z.of_nat (Z.to_nat q)) with q by lia.
    replace (q <? 0) with false by lia. simpl. split; [intros [= <-]; split; [lia|done]|by intros [_ ->]].
  - rewrite (lookup_seqZ_ge 0 n (Z.to_nat q)) by lia. simpl. split; [done|lia].
Qed.

(** The last part of [pmm_init]: from the finished bitmap to the zones. *)
Lemma boot_finish_ok st n :
  bm_wf (bitmap st) -> nr_bits (bitmap st) = n -> base_pfn (bitmap st) = 0 -> 0 <= n < 2 ^ 52 ->
  page_array_pfns st = n ->
  page_array st = (fun pfn => mk_page PG_RESERVED 0 (pfn_to_zone_type pfn) None) <$> seqZ 0 n ->
  exists st1 st2, for_range (Z.to_nat n) 0 unreserve_step st = Some st1 /\
    add_usable_memory (init_zones st1) = Some st2 /\ pmm_inv st2 /\
    forall q, pmm_free_at st2 q <-> 0 <= q < n /\ used (bitmap st) q = false.
Proof.
  intros Hwf Hn Hb Hn0 Hp Hpa.
  assert (zlen (page_array st) = n) as Hlen.
  { rewrite Hpa. unfold zlen. rewrite length_fmap, length_seqZ. lia. }
  destruct (unreserve_ok n st) as (st1 & E1 & L1 & P1 & G1); [done|done|done|lia|done| |].
  { intros q Hq. rewrite Hpa. by apply (boot_array_get (bitmap st)). }
  destruct (init_zones_ok st1) as [I1 F1]; [lia|lia| |].
  { intros q g Hg. pose proof (zget_range _ _ _ Hg). rewrite G1 in Hg by lia. injection Hg as <-.
    unfold boot_page. simpl. split; [|done]. by destruct (_ && _). }
  destruct (add_usable_ok (init_zones st1)) as (st2 & E2 & I2 & L2 & F2); [done|simpl; lia|done|].
  exists st1, st2. split; [done|]. split; [done|]. split; [done|]. intros q. rewrite F2.
  unfold usable. simpl. split.
  - intros (g & Hg & Hr). pose proof (zget_range _ _ _ Hg) as Hq. rewrite L1 in Hq.
    rewrite G1 in Hg by done. injection Hg as <-. split; [done|].
    unfold boot_page in Hr. replace (q <? n) with true in Hr by lia. by destruct (used (bitmap st) q).
  - intros [Hq Hu]. exists (boot_page (bitmap st) n q). split; [by apply G1|].
    unfold boot_page. replace (q <? n) with true by lia. by rewrite Hu.
Qed.

Lemma init_page_array_ok st N :
  0 <= ba_current (boot_alloc st) < 2 ^ 47 -> ba_current (boot_alloc st) mod 4096 = 0 ->
  0 <= N < 2 ^ 38 -> 0 < hhdm_offset st -> hhdm_offset st + 2 ^ 47 <= 2 ^ 64 ->
  ba_current (boot_alloc st) + pages_for (N * SIZEOF_PAGE) * 4096 <= ba_end (boot_alloc st) ->
  let st' := init_page_array st N in
  page_array st' = ((fun pfn => mk_page PG_RESERVED 0 (pfn_to_zone_type pfn) None) <$> seqZ 0 N) /\
  page_array_pfns st' = N /\ virt_to_phys st' (page_array_va st') = ba_current (boot_alloc st).
Proof.
  intros Hc Hal HN H0 Hw Hr. unfold SIZEOF_PAGE in *. unfold init_page_array.
  pose proof (PAGE_ALIGN_spec (ba_current (boot_alloc st)) ltac:(lia) ltac:(lia)) as Ec.
  replace (PAGE_ALIGN (ba_current (boot_alloc st))) with (ba_current (boot_alloc st)) in * by divlia.
  unfold SIZEOF_PAGE. rewrite (u64_small (N * 64)) by lia.
  rewrite (PAGE_ALIGN_spec (N * 64)), PAGE_SIZE_val by lia.
  replace ((N * 64 + 4095 - (N * 64 + 4095) mod 4096) / 4096) with (pages_for (N * 64))
    by (unfold pages_for; divlia).
  assert (0 <= pages_for (N * 64) < 2 ^ 33) by (unfold pages_for; divlia).
  assert (PAGE_ALIGN (ba_current (boot_alloc st)) = ba_current (boot_alloc st)) as Ea
    by (rewrite PAGE_ALIGN_spec by lia; divlia).
  rewrite boot_alloc_ok by (rewrite ?Ea; lia). rewrite Ea. unfold phys_to_virt.
  rewrite u64_small by lia.
  destruct (Z.eqb_spec (ba_current (boot_alloc st) + hhdm_offset st) 0); [lia|].
  split; [done|]. split; [done|]. unfold virt_to_phys. cbn [hhdm_offset with_array with_boot_alloc page_array_va].
  rewrite u64_small; lia.
Qed.

(** The bitmap after the entries and the two reserved ranges were marked. *)
Lemma boot_bitmap_ok memmap mem N lo mid hi :
  Forall entry_ok memmap -> 0 <= N < 2 ^ 38 ->
  zlen mem * 8 = mem_bitmap_size_for N -> Forall (fits 64) mem ->
  0 <= lo < 2 ^ 51 -> 0 <= mid < 2 ^ 51 -> 0 <= hi < 2 ^ 51 ->
  exists bm0 bm1 bm2 bm3, mem_bitmap_init N mem = Some bm0 /\ mark_entries bm0 memmap = Some bm1 /\
    mem_bitmap_mark_reserved bm1 lo mid = Some bm2 /\ mem_bitmap_mark_reserved bm2 mid hi = Some bm3 /\
    bm_wf bm3 /\ nr_bits bm3 = N /\ base_pfn bm3 = 0 /\
    forall q, 0 <= q < N ->
      used bm3 q = false <-> offered memmap q /\ ~ meets q lo mid /\ ~ meets q mid hi.
Proof.
  intros He HN Hm Hmw H1 H2 H3.
  destruct (bitmap_init_ok N mem) as (bm0 & E0 & W0 & _ & N0 & B0 & _ & U0); [lia|lia|done|done|].
  destruct (mark_entries_ok memmap bm0 W0 He) as (bm1 & E1 & W1 & S1 & U1).
  destruct (mark_range_ok bm1 lo mid) as [_ (bm2 & E2 & W2 & S2 & U2)]; [done|lia..|].
  destruct (mark_range_ok bm2 mid hi) as [_ (bm3 & E3 & W3 & S3 & U3)]; [done|lia..|].
  exists bm0, bm1, bm2, bm3. do 5 (split; [done|]).
  split; [by rewrite (proj1 S3), (proj1 S2), (proj1 S1)|].
  split; [by rewrite (proj2 (proj2 S3)), (proj2 (proj2 S2)), (proj2 (proj2 S1))|].
  intros q Hq. assert (tracked bm0 q) as Ht by (unfold tracked; rewrite N0, B0; lia).
  pose proof (proj2 (same_shape_tracked _ _ q S1) Ht) as Ht1.
  pose proof (proj2 (same_shape_tracked _ _ q S2) Ht1) as Ht2.
  rewrite U3, U2 by done. specialize (U1 q Ht). rewrite (U0 q (tracked_has_bit _ _ W0 Ht)) in U1.
  fold (meets q mid hi). fold (meets q lo mid). unfold meets.
  repeat case_decide; split; (discriminate || tauto || idtac); intros; intuition discriminate.
Qed.

Lemma pmm_init_ok hhdm memmap mem :
  bootable hhdm memmap mem ->
  exists st, pmm_init (Some (hhdm, memmap)) mem = Some st /\ initialized st = true /\ pmm_inv st /\
    forall q, pmm_free_at st q <->
      0 <= q < boot_max_pfn memmap /\ offered memmap q /\
      ~ meets q (boot_base memmap) (bitmap_end memmap) /\
      ~ meets q (bitmap_end memmap) (array_end memmap).
Proof.
  intros [He (Hh1 & Hh2) (Hm & Hmw) Hroom].
  pose proof (scan_bounds memmap (0, 0, 0) He ltac:(cbn; lia)) as Hsc. fold (scan memmap) in Hsc.
  unfold pmm_init. fold (scan memmap). cbv zeta.
  unfold bitmap_end, array_end, bitmap_end, boot_base, boot_size, boot_max_pfn in *.
  destruct (scan memmap) as [[m b] n] eqn:Es. cbn [fst snd] in *. destruct Hsc as (Hm50 & Hb & Hn & Hbn).
  set (N := PHYS_TO_PFN m) in *.
  assert (0 <= N < 2 ^ 38) as HN by (unfold N; rewrite PHYS_TO_PFN_div; divlia).
  pose proof (PAGE_ALIGN_spec b ltac:(lia) ltac:(lia)) as Eb.
  assert (0 <= mem_bitmap_size_for N < 2 ^ 40) as Hbs.
  { unfold mem_bitmap_size_for. rewrite (u64_small (N + 63)) by lia. rewrite u64_small; divlia. }
  set (bs := mem_bitmap_size_for N) in *.
  rewrite PAGE_SIZE_val, (u64_small (bs + 4096 - 1)) by lia.
  replace ((bs + 4096 - 1) / 4096) with (pages_for bs) by (unfold pages_for; f_equal; lia).
  assert (0 <= pages_for bs < 2 ^ 29) as Hpb by (unfold pages_for; divlia).
  assert (0 <= pages_for (N * SIZEOF_PAGE) < 2 ^ 33) as Hpa by (unfold pages_for, SIZEOF_PAGE; divlia).
  rewrite (u64_small (b + n)) by lia.
  rewrite boot_alloc_ok; cbn [boot_alloc with_boot_alloc ba_current ba_base ba_end]; [|lia|lia|lia].
  set (be := PAGE_ALIGN b + pages_for bs * 4096) in *.
  unfold phys_to_virt at 1. cbn [hhdm_offset with_boot_alloc].
  rewrite (u64_small (PAGE_ALIGN b + hhdm)) by divlia.
  destruct (Z.eqb_spec (PAGE_ALIGN b + hhdm) 0); [divlia|].
  assert (be mod 4096 = 0) as Hal by (unfold be; divlia).
  assert (0 <= be) as Hbe by (unfold be; divlia).
  assert (N * SIZEOF_PAGE <= pages_for (N * SIZEOF_PAGE) * 4096) as Hfit by (unfold pages_for; divlia).
  unfold SIZEOF_PAGE in Hfit.
  destruct (boot_bitmap_ok memmap mem N b be (be + N * SIZEOF_PAGE)) as
    (bm0 & bm1 & bm2 & bm3 & E0 & E1 & E2 & E3 & W3 & N3 & B3 & U3);
    [done|done|done|done|lia|lia|unfold SIZEOF_PAGE; lia|].
  rewrite E0. cbn [mbind option_bind]. rewrite E1. cbn [mbind option_bind]. rewrite E2.
  cbn [mbind option_bind].
  match goal with |- context [init_page_array ?s N] => set (s0 := s) end.
  destruct (init_page_array_ok s0 N) as (P1 & P2 & P3);
    [subst s0; cbn [boot_alloc with_boot_alloc ba_current ba_end hhdm_offset]; done || lia..|].
  rewrite P3. replace (ba_current (boot_alloc s0)) with be by done.
  rewrite (u64_small (N * SIZEOF_PAGE)), (u64_small (be + N * SIZEOF_PAGE))
    by (unfold SIZEOF_PAGE; lia).
  rewrite E3. cbn [mbind option_bind].
  destruct (boot_finish_ok (with_bitmap (init_page_array s0 N) bm3) N) as
    (st1 & st2 & EE1 & EE2 & I2 & F2); [done|done|done|lia|done|done|].
  rewrite EE1. cbn [mbind option_bind]. rewrite EE2. cbn [mbind option_bind].
  eexists. split; [done|]. split; [done|]. split; [by eapply pmm_inv_ext, I2|].
  intros q. transitivity (pmm_free_at st2 q); [done|]. rewrite F2. cbn [bitmap with_bitmap].
  split; [intros [Hq Hu]; split; [done|]; by apply U3|]. intros (Hq & HH). split; [done|]. by apply U3.
Qed.

(** C12.  Boot: on a sane memory map [pmm_init] succeeds, and the pages the allocator then
    manages are exactly the page frames that lie wholly inside a usable or reclaimable entry and
    meet neither the bitmap nor the page array; all zones satisfy their invariant. *)
Theorem pmm_init_spec hhdm memmap mem :
  bootable hhdm memmap mem ->
  exists st, pmm_init (Some (hhdm, memmap)) mem = Some st /\ initialized st = true /\ pmm_inv st /\
    forall q, pmm_free_at st q <->
      0 <= q < boot_max_pfn memmap /\ offered memmap q /\
      ~ meets q (boot_base memmap) (bitmap_end memmap) /\
      ~ meets q (bitmap_end memmap) (array_end memmap).
Proof. apply pmm_init_ok. Qed.

(** ** Witnesses: a machine with sixteen page frames, all usable *)

Definition ex_map : list memmap_entry := [mk_entry 0 65536 LIMINE_MEMMAP_USABLE].
Definition ex_hhdm : Z := 0xffff800000000000.

Lemma ex_bootable : bootable ex_hhdm ex_map [0].
Proof.
  split.
  - repeat constructor; simpl; lia.
  - done.
  - split; [reflexivity|by repeat constructor].
  - vm_compute. discriminate.
Qed.

Definition ex_pmm : pmm_state := default pmm_zero (pmm_init (Some (ex_hhdm, ex_map)) [0]).

Lemma ex_pmm_ok : pmm_inv ex_pmm /\ initialized ex_pmm = true.
Proof.
  destruct (pmm_init_ok ex_hhdm ex_map [0] ex_bootable) as (st & E & Hi & Hinv & _).
  assert (ex_pmm = st) as -> by (unfold ex_pmm; rewrite E; reflexivity).
  exact (conj Hinv Hi).
Qed.

Lemma pmm_init_spec_witness :
  exists st, pmm_init (Some (ex_hhdm, ex_map)) [0] = Some st /\ initialized st = true /\ pmm_inv st /\
    forall q, pmm_free_at st q <->
      0 <= q < 16 /\ offered ex_map q /\ ~ meets q 0 4096 /\ ~ meets q 4096 (4096 + 1024).
Proof. apply (pmm_init_spec ex_hhdm ex_map [0]). exact ex_bootable. Defined.

Lemma alloc_pages_spec_witness :
  (exists i p st', alloc_pages ex_pmm 2 GFP_ZERO = Some (Some p, st') /\
     0 <= i <= start_zone GFP_ZERO /\ can_serve ex_pmm i 2 /\
     (forall j, i < j <= start_zone GFP_ZERO -> ~ can_serve ex_pmm j 2) /\
     taken ex_pmm st' i p 2 /\ (0 < 2 -> compound (page_array st') p 2) /\
     zeroed st' = zero_log ex_pmm p 2 GFP_ZERO) \/
  (alloc_pages ex_pmm 2 GFP_ZERO = Some (None, ex_pmm) /\
     forall j, 0 <= j <= start_zone GFP_ZERO -> ~ can_serve ex_pmm j 2).
Proof.
  apply (alloc_pages_spec ex_pmm 2 GFP_ZERO); 
    [exact (proj1 ex_pmm_ok)|exact (proj2 ex_pmm_ok)|unfold MAX_ORDER; lia].
Defined.

(** A machine whose page array covers the DMA zone: 4096 page frames, the first 64 free. *)
Definition ex_array : list page := replicate 4096 (mk_page 0 0 0 None).
Definition ex_fresh : pmm_state :=
  init_zones (mk_pmm ex_array 4096 4096 [] 0 0 0 ex_hhdm true (mk_boot_alloc 0 0 0)
    (mk_bitmap [] 0 0 0) []).
Definition ex_full : pmm_state := default ex_fresh (add_run ex_fresh 0 0 64).

Lemma ex_full_ok :
  pmm_inv ex_full /\ initialized ex_full = true /\ forall q, pmm_free_at ex_full q <-> 0 <= q < 64.
Proof.
  destruct (init_zones_ok (mk_pmm ex_array 4096 4096 [] 0 0 0 ex_hhdm true (mk_boot_alloc 0 0 0)
    (mk_bitmap [] 0 0 0) [])) as [Hinv Hno]; [reflexivity|reflexivity| |].
  { intros q g Hg. pose proof (zget_range _ _ _ Hg) as Hr. apply zget_lookup in Hg as [_ Hg].
    apply lookup_replicate in Hg as [-> Hq]. split; [reflexivity|]. simpl.
    destruct (zone_type_cases q) as [[_ ?]|[[? _]|[[? _]|?]]]; [done|..]; lia. }
  destruct (add_run_ok ex_fresh 0 0 64 Hinv) as (st & E & I & F & _); [done|done|done| |].
  { intros q Hq. split; [change (zlen (page_array ex_fresh)) with 4096; lia|]. split; [|apply Hno].
    destruct (zone_type_cases q) as [[_ ?]|[[? _]|[[? _]|?]]]; [done|..]; lia. }
  assert (initialized ex_full = true) as Hi by (vm_compute; reflexivity).
  assert (ex_full = st) as Es by (unfold ex_full; rewrite E; reflexivity).
  rewrite Es in Hi |- *. split; [exact I|]. split; [exact Hi|]. intros q. rewrite F. split.
  - intros [Hf|Hq]; [by apply Hno in Hf|exact Hq].
  - intros Hq. by right.
Qed.

(** A pointer to sixteen pages and the state after taking them. *)
Definition ex_taken : Z * pmm_state := default (0, ex_full) (simple_get_free_pages ex_full 4).

Lemma simple_pages_roundtrip_witness :
  ex_taken.1 = ex_hhdm /\
  exists st2, simple_free_pages ex_taken.2 ex_taken.1 4 = Some st2 /\ pmm_inv st2 /\
    (forall q, pmm_free_at st2 q <-> pmm_free_at ex_full q).
Proof.
  assert (simple_get_free_pages ex_full 4 = Some ex_taken) as E by (vm_compute; reflexivity).
  assert (ex_taken.1 = ex_hhdm) as Ev by (vm_compute; reflexivity).
  split; [exact Ev|].
  apply (simple_pages_roundtrip ex_full 4 ex_taken.1 ex_taken.2).
  - exact (proj1 ex_full_ok).
  - exact (proj1 (proj2 ex_full_ok)).
  - unfold MAX_ORDER. lia.
  - intros p Hp. rewrite Ev in Hp. assert (p = 0) as -> by (vm_compute in Hp; congruence).
    left. vm_compute. discriminate.
  - rewrite E. by destruct ex_taken.
  - rewrite Ev. discriminate.
Defined.

Definition ex_zone0 : zone := default (fresh_zone 0 0) (zget (zones ex_full) 0).

Lemma pmm_free_spec_witness :
  exists st', pmm_free_block ex_full (Some 64) 4 = Some st' /\ pmm_inv st' /\
    initialized st' = true /\ forall q, pmm_free_at st' q <-> pmm_free_at ex_full q \/ in_block 64 4 q.
Proof.
  apply (pmm_free_spec ex_full 64 4).
  - exact (proj1 ex_full_ok).
  - exact (proj1 (proj2 ex_full_ok)).
  - exists ex_zone0. split; [vm_compute; reflexivity|]. split; [unfold MAX_ORDER; lia|].
    split; [vm_compute; discriminate|]. split; [vm_compute; discriminate|exists 4; reflexivity].
  - left. vm_compute. discriminate.
  - intros q Hq Hf. apply (proj2 (proj2 ex_full_ok)) in Hf. unfold in_block in Hq. lia.
Defined.
