(* ===== verification/Paging.v ===== *)
(** * Page tables (kernel/arch/x86_64/mm/paging.c, kernel/include/ocean/vmm.h)

    Memory is seen through the direct map: a page of memory is 512 words at a kernel virtual
    address, and a pointer to a table entry is the address of its page and an index.  The page
    allocator is used through an interface, [PageAllocator], whose laws the physical memory
    manager of Pmm.v satisfies (PagingPmm.v).  TLB flushes and writes of CR3 are logged.  The
    loops over addresses compare and step at 64 bits; a loop that would not end before its bound
    (an end near 2^64) has no result. *)
From S2P Require Import Prelude Defs.

(** ** What paging needs of the page allocator *)

Class PageAllocator (S : Type) := {
  simple_get_free_page : S -> option (Z * S);   (* an address, 0 for NULL *)
  simple_free_page : S -> Z -> option S;
  boot_hhdm : S -> Z;
  pa_ok : S -> Prop;
  pa_free : S -> Z -> Prop;                     (* the page frame is free *)
  pa_managed : S -> Z -> Prop                   (* the page frame may be handed out *)
}.

Definition hhdm_page {S} `{PageAllocator S} (s : S) (f : Z) : Z := f * 4096 + boot_hhdm s.

Record same_memory {S} `{PageAllocator S} (s s' : S) : Prop := {
  sm_hhdm : boot_hhdm s' = boot_hhdm s;
  sm_managed : forall f, pa_managed s' f <-> pa_managed s f
}.

Class PageAllocatorLaws (S : Type) `{PageAllocator S} := {
  pa_hhdm_ok : forall s, pa_ok s -> 0 < boot_hhdm s /\ boot_hhdm s mod 4096 = 0 /\ boot_hhdm s < 2 ^ 64;
  pa_frame_ok : forall s f, pa_ok s -> pa_managed s f -> 0 <= f < 2 ^ 40 /\ hhdm_page s f < 2 ^ 64;
  pa_get_ok : forall s, pa_ok s ->
    simple_get_free_page s = Some (0, s) \/
    exists f s', simple_get_free_page s = Some (hhdm_page s f, s') /\ pa_ok s' /\ same_memory s s' /\
      pa_managed s f /\ pa_free s f /\ forall q, pa_free s' q <-> pa_free s q /\ q ≠ f;
  pa_put_ok : forall s f, pa_ok s -> pa_managed s f -> ~ pa_free s f ->
    exists s', simple_free_page s (hhdm_page s f) = Some s' /\ pa_ok s' /\ same_memory s s' /\
      forall q, pa_free s' q <-> pa_free s q \/ q = f
}.

(** ** The code *)

Definition PTE_PRESENT : Z := Z.shiftl 1 0.
Definition PTE_WRITABLE : Z := Z.shiftl 1 1.
Definition PTE_USER : Z := Z.shiftl 1 2.
Definition PTE_HUGE : Z := Z.shiftl 1 7.
Definition PTE_COW : Z := Z.shiftl 1 9.
Definition PTE_NX : Z := Z.shiftl 1 63.
Definition PTE_ADDR_MASK : Z := 0x000FFFFFFFFFF000.

Definition PML4_INDEX (addr : Z) : Z := Z.land (Z.shiftr addr 39) 0x1FF.
Definition PDPT_INDEX (addr : Z) : Z := Z.land (Z.shiftr addr 30) 0x1FF.
Definition PD_INDEX (addr : Z) : Z := Z.land (Z.shiftr addr 21) 0x1FF.
Definition PT_INDEX (addr : Z) : Z := Z.land (Z.shiftr addr 12) 0x1FF.
Definition PT_ENTRIES : Z := 512.

(** A page filled by [memset(page, 0, PAGE_SIZE)]. *)
Definition zero_page : list Z := replicate 512 0.

(** [while (addr < fin)] in steps of a page; [inr] is an early return. *)
Fixpoint page_loop {St R} (n : nat) (addr fin : Z) (body : Z -> St -> option (St + R)) (s : St)
  : option (St + R) :=
  if addr <? fin then
    match n with
    | O => None
    | S n' =>
        r ← body addr s;
        match r with
        | inl s' => page_loop n' (u64 (addr + PAGE_SIZE)) fin body s'
        | inr r => Some (inr r)
        end
    end
  else Some (inl s).

(** The number of rounds from [addr] to [fin] without wrap-around. *)
Definition pages_in (addr fin : Z) : nat := Z.to_nat ((fin - addr + 4095) / 4096).

Section code.
Context {S : Type} `{PageAllocator S}.

Record mmu := mk_mmu {
  frames_of : S;                 (* the page allocator *)
  mem : gmap Z (list Z);         (* the words of the pages, by kernel virtual address *)
  kernel_pml4 : Z;
  flushed : list Z;              (* pages flushed from the TLB, latest first *)
  cr3 : Z
}.

Definition with_frames_of (st : mmu) (s : S) : mmu :=
  mk_mmu s (mem st) (kernel_pml4 st) (flushed st) (cr3 st).
Definition with_mem (st : mmu) (m : gmap Z (list Z)) : mmu :=
  mk_mmu (frames_of st) m (kernel_pml4 st) (flushed st) (cr3 st).
Definition tlb_flush_page (st : mmu) (addr : Z) : mmu :=
  mk_mmu (frames_of st) (mem st) (kernel_pml4 st) (addr :: flushed st) (cr3 st).
Definition write_cr3 (st : mmu) (phys : Z) : mmu :=
  mk_mmu (frames_of st) (mem st) (kernel_pml4 st) (flushed st) phys.

Definition phys_to_virt_local (st : mmu) (phys : Z) : Z := u64 (phys + boot_hhdm (frames_of st)).
Definition virt_to_phys_local (st : mmu) (virt : Z) : Z := u64 (virt - boot_hhdm (frames_of st)).

(** [t[i]] and [t[i] = e] for the page at [t]. *)
Definition load (st : mmu) (t i : Z) : option Z := l ← mem st !! t; zget l i.
Definition store (st : mmu) (t i e : Z) : option mmu :=
  l ← mem st !! t; l ← zset l i e; Some (with_mem st (<[t := l]> (mem st))).

Definition alloc_pt_page (st : mmu) : option (Z * mmu) :=
  '(page, s) ← simple_get_free_page (frames_of st);
  let st := with_frames_of st s in
  Some (page, if negb (page =? 0) then with_mem st (<[page := zero_page]> (mem st)) else st).

Definition free_pt_page (st : mmu) (page : Z) : option mmu :=
  s ← simple_free_page (frames_of st) page; Some (with_frames_of st s).

(** One level of the walk: the table behind entry [i] of table [t]; [huge] says whether the code
    looks for a huge page at this level. *)
Definition next_table (huge : bool) (st : mmu) (t i : Z) (create : bool) : option (option Z * mmu) :=
  e ← load st t i;
  if negb (ztrue (Z.land e PTE_PRESENT)) then
    if negb create then Some (None, st) else
    '(page, st) ← alloc_pt_page st;
    if page =? 0 then Some (None, st) else
    st ← store st t i (Z.lor (Z.lor (Z.lor (virt_to_phys_local st page) PTE_PRESENT) PTE_WRITABLE) PTE_USER);
    Some (Some page, st)
  else if huge && ztrue (Z.land e PTE_HUGE) then Some (None, st)
  else Some (Some (phys_to_virt_local st (Z.land e PTE_ADDR_MASK)), st).

(** The result is NULL or a pointer to an entry. *)
Definition get_or_create_pte (st : mmu) (pml4 virt : Z) (create : bool) : option (option (Z * Z) * mmu) :=
  '(pdpt, st) ← next_table false st pml4 (PML4_INDEX virt) create;
  match pdpt with None => Some (None, st) | Some pdpt =>
  '(pd, st) ← next_table true st pdpt (PDPT_INDEX virt) create;
  match pd with None => Some (None, st) | Some pd =>
  '(pt, st) ← next_table true st pd (PD_INDEX virt) create;
  match pt with None => Some (None, st) | Some pt =>
  Some (Some (pt, PT_INDEX virt), st)
  end end end.

Definition paging_get_pte (st : mmu) (pml4 virt : Z) : option (option (Z * Z) * mmu) :=
  get_or_create_pte st pml4 virt false.

Definition paging_map (st : mmu) (pml4 virt phys flags : Z) : option (Z * mmu) :=
  '(pte, st) ← get_or_create_pte st pml4 virt true;
  match pte with
  | None => Some (-1, st)
  | Some (t, i) =>
      e ← load st t i;
      let st := if ztrue (Z.land e PTE_PRESENT) then tlb_flush_page st virt else st in
      st ← store st t i (Z.lor (Z.lor (Z.land phys PTE_ADDR_MASK) flags) PTE_PRESENT);
      Some (0, tlb_flush_page st virt)
  end.

Definition paging_unmap (st : mmu) (pml4 virt : Z) : option (Z * mmu) :=
  '(pte, st) ← paging_get_pte st pml4 virt;
  match pte with
  | None => Some (-1, st)
  | Some (t, i) =>
      e ← load st t i;
      if negb (ztrue (Z.land e PTE_PRESENT)) then Some (-1, st) else
      st ← store st t i 0;
      Some (0, tlb_flush_page st virt)
  end.

Definition paging_unmap_range (st : mmu) (pml4 virt size : Z) : option (Z * mmu) :=
  let fin := u64 (virt + size) in
  r ← page_loop (pages_in virt fin) virt fin
        (fun addr st => '(_, st) ← paging_unmap st pml4 addr; Some (inl st)) st;
  match r with inl st => Some (0, st) | inr r => Some (r, st) end.

(** The loop carries the physical address; on failure the pages mapped so far are unmapped. *)
Definition paging_map_range (st : mmu) (pml4 virt phys size flags : Z) : option (Z * mmu) :=
  let fin := u64 (virt + size) in
  r ← page_loop (pages_in virt fin) virt fin
        (fun addr (s : mmu * Z) =>
           let '(st, phys) := s in
           '(ret, st) ← paging_map st pml4 addr phys flags;
           if negb (ret =? 0) then
             r ← page_loop (R := Z) (pages_in virt addr) virt addr
                   (fun rb st => '(_, st) ← paging_unmap st pml4 rb; Some (inl st)) st;
             match r with inl st => Some (inr st) | inr _ => None end
           else Some (inl (st, u64 (phys + PAGE_SIZE)))) (st, phys);
  match r with
  | inl (st, _) => Some (0, st)
  | inr st => Some (-1, st)
  end.

Definition paging_get_phys (st : mmu) (pml4 virt : Z) : option Z :=
  '(pte, _) ← paging_get_pte st pml4 virt;
  match pte with
  | None => Some (u64 (-1))
  | Some (t, i) =>
      e ← load st t i;
      Some (if negb (ztrue (Z.land e PTE_PRESENT)) then u64 (-1)
            else Z.lor (Z.land e PTE_ADDR_MASK) (Z.land virt (PAGE_SIZE - 1)))
  end.

Definition paging_create_pml4 (st : mmu) : option (Z * mmu) :=
  '(new_pml4, st) ← alloc_pt_page st;
  if new_pml4 =? 0 then Some (0, st) else
  st ← (if negb (kernel_pml4 st =? 0) then
          for_range 256 256 (fun i st => e ← load st (kernel_pml4 st) i; store st new_pml4 i e) st
        else Some st);
  Some (new_pml4, st).

(** The entry [e] of a page directory or below it points to a table. *)
Definition points_to_table (e : Z) : bool :=
  ztrue (Z.land e PTE_PRESENT) && negb (ztrue (Z.land e PTE_HUGE)).

Definition destroy_pd (st : mmu) (pd : Z) : option mmu :=
  st ← for_range 512 0 (fun k st =>
         e ← load st pd k;
         if points_to_table e then free_pt_page st (phys_to_virt_local st (Z.land e PTE_ADDR_MASK))
         else Some st) st;
  free_pt_page st pd.

Definition destroy_pdpt (st : mmu) (pdpt : Z) : option mmu :=
  st ← for_range 512 0 (fun j st =>
         e ← load st pdpt j;
         if points_to_table e then destroy_pd st (phys_to_virt_local st (Z.land e PTE_ADDR_MASK))
         else Some st) st;
  free_pt_page st pdpt.

Definition paging_destroy_pml4 (st : mmu) (pml4 : Z) : option mmu :=
  if pml4 =? 0 then Some st else
  st ← for_range 256 0 (fun i st =>
         e ← load st pml4 i;
         if ztrue (Z.land e PTE_PRESENT)
         then destroy_pdpt st (phys_to_virt_local st (Z.land e PTE_ADDR_MASK))
         else Some st) st;
  free_pt_page st pml4.

Definition paging_init (st : mmu) : mmu :=
  mk_mmu (frames_of st) (mem st) (phys_to_virt_local st (Z.land (cr3 st) PTE_ADDR_MASK)) (flushed st) (cr3 st).

End code.

Arguments mmu S : clear implicits.

(** ** Entries *)

Lemma addr_mask_testbit i : 0 <= i -> Z.testbit PTE_ADDR_MASK i = bool_decide (12 <= i < 52).
Proof.
  intros Hi. change PTE_ADDR_MASK with (Z.shiftl (Z.ones 40) 12). rewrite Z.shiftl_spec by done.
  destruct (decide (12 <= i < 52)) as [Hin|Hout].
  - rewrite bool_decide_true by done. apply Z.ones_spec_low. lia.
  - rewrite bool_decide_false by done. destruct (decide (i < 12)).
    + apply Z.testbit_neg_r. lia.
    + apply Z.ones_spec_high. lia.
Qed.

(** A frame number and an address without page offset. *)
Lemma frame_testbit f i : 0 <= f < 2 ^ 40 -> 0 <= i ->
  Z.testbit (f * 4096) i = bool_decide (12 <= i < 52) && Z.testbit f (i - 12).
Proof.
  intros Hf Hi. change 4096 with (2 ^ 12). rewrite <- Z.shiftl_mul_pow2, Z.shiftl_spec by lia.
  destruct (decide (12 <= i < 52)) as [Hin|Hout]; [by rewrite bool_decide_true|].
  rewrite bool_decide_false by done. simpl. destruct (decide (i < 12)).
  - apply Z.testbit_neg_r. lia.
  - apply (testbit_above 40); [done|lia].
Qed.

Lemma mask_frame f : 0 <= f < 2 ^ 40 -> Z.land (f * 4096) PTE_ADDR_MASK = f * 4096.
Proof.
  intros Hf. apply Z.bits_inj'. intros i Hi. rewrite Z.land_spec, addr_mask_testbit, frame_testbit by done.
  by destruct (bool_decide (12 <= i < 52)), (Z.testbit f (i - 12)).
Qed.

(** The flags of an entry lie outside the address bits. *)
Definition flag_bits (flags : Z) : Prop := fits 64 flags /\ Z.land flags PTE_ADDR_MASK = 0.

Lemma flag_bits_test flags i : flag_bits flags -> 12 <= i < 52 -> Z.testbit flags i = false.
Proof.
  intros [_ H] Hi. apply (f_equal (fun x => Z.testbit x i)) in H.
  rewrite Z.land_spec, addr_mask_testbit, bool_decide_true, andb_true_r, Z.bits_0 in H by lia. done.
Qed.

Lemma entry_addr f flags : 0 <= f < 2 ^ 40 -> flag_bits flags ->
  Z.land (Z.lor (f * 4096) flags) PTE_ADDR_MASK = f * 4096.
Proof.
  intros Hf Hg. rewrite Z.land_lor_distr_l, mask_frame by done. destruct Hg as [_ ->]. apply Z.lor_0_r.
Qed.

Lemma entry_flag f flags n : 0 <= f < 2 ^ 40 -> 0 <= n < 12 ->
  ztrue (Z.land (Z.lor (f * 4096) flags) (Z.shiftl 1 n)) = ztrue (Z.land flags (Z.shiftl 1 n)).
Proof.
  intros Hf Hn. rewrite !ztrue_land_bit by lia. rewrite Z.lor_spec, frame_testbit by lia.
  by rewrite bool_decide_false by lia.
Qed.

(** An address in frame [f]. *)
Lemma frame_offset f d : 0 <= f < 2 ^ 40 -> 0 <= d < 4096 -> Z.lor (f * 4096) d = f * 4096 + d.
Proof.
  intros Hf Hd. symmetry. rewrite Z.add_nocarry_lxor, Z.lxor_lor; [done| |];
    (apply Z.bits_inj'; intros i Hi; rewrite Z.land_spec, frame_testbit, Z.bits_0 by done;
     destruct (decide (i < 12)); [by rewrite bool_decide_false by lia|];
     rewrite (testbit_above 12 d i) by (unfold fits; lia); by rewrite andb_false_r).
Qed.

Lemma lor_fits w x y : 0 <= w -> fits w x -> fits w y -> fits w (Z.lor x y).
Proof.
  intros Hw Hx Hy. apply fits_testbit; [done|apply Z.lor_nonneg; split; [apply Hx|apply Hy]|].
  intros i Hi. rewrite Z.lor_spec, (testbit_above w x i), (testbit_above w y i) by (done || lia). done.
Qed.

Lemma frame_fits f : 0 <= f < 2 ^ 40 -> fits 64 (f * 4096).
Proof. unfold fits. lia. Qed.

Lemma flag_bits_lor a b : flag_bits a -> flag_bits b -> flag_bits (Z.lor a b).
Proof.
  intros [A1 A2] [B1 B2]. split; [by apply lor_fits|]. by rewrite Z.land_lor_distr_l, A2, B2.
Qed.

(** ** Indices of a user address *)

Definition user_addr (v : Z) : Prop := 0 <= v < 2 ^ 47.

(** The page a virtual address lies in. *)
Definition vpage (v : Z) : Z := v / 4096.

Lemma index_mod v n : 0 <= n -> Z.land (Z.shiftr v n) 0x1FF = (v / 2 ^ n) mod 512.
Proof. intros Hn. rewrite Z.shiftr_div_pow2 by done. exact (land_ones_mod (v / 2 ^ n) 9 ltac:(lia)). Qed.

Definition path (v : Z) : list Z := [PML4_INDEX v; PDPT_INDEX v; PD_INDEX v].

Lemma index_range v n : 0 <= n -> 0 <= Z.land (Z.shiftr v n) 0x1FF < 512.
Proof. intros Hn. rewrite index_mod by done. apply Z.mod_pos_bound. lia. Qed.

Lemma pml4_user v : user_addr v -> PML4_INDEX v < 256.
Proof. intros Hv. unfold PML4_INDEX. rewrite index_mod by lia. unfold user_addr in Hv. divlia. Qed.

(** Two user addresses with the same indices lie in the same page. *)
Lemma same_indices v v' :
  user_addr v -> user_addr v' -> path v = path v' -> PT_INDEX v = PT_INDEX v' -> vpage v = vpage v'.
Proof.
  intros Hv Hv' E E1. unfold path in E. injection E as E4 E3 E2.
  unfold PML4_INDEX, PDPT_INDEX, PD_INDEX, PT_INDEX, user_addr, vpage in *. rewrite !index_mod in * by lia.
  change (2 ^ 39) with 549755813888 in *. change (2 ^ 30) with 1073741824 in *.
  change (2 ^ 21) with 2097152 in *. change (2 ^ 12) with 4096 in *. divlia.
Qed.

Lemma same_page v v' : vpage v = vpage v' -> path v = path v' /\ PT_INDEX v = PT_INDEX v'.
Proof.
  intros E. unfold path, PML4_INDEX, PDPT_INDEX, PD_INDEX, PT_INDEX, vpage in *. rewrite !index_mod by lia.
  assert (forall k, 0 <= k -> v / 2 ^ (12 + k) = v' / 2 ^ (12 + k)) as Hk.
  { intros k Hk. rewrite Z.pow_add_r by lia. rewrite <- !Z.div_div by lia. change (2 ^ 12) with 4096. by rewrite E. }
  pose proof (Hk 27 ltac:(lia)) as H39. pose proof (Hk 18 ltac:(lia)) as H30.
  pose proof (Hk 9 ltac:(lia)) as H21. pose proof (Hk 0 ltac:(lia)) as H12.
  change (12 + 27) with 39 in H39. change (12 + 18) with 30 in H30. change (12 + 9) with 21 in H21.
  change (12 + 0) with 12 in H12. by rewrite H39, H30, H21, H12.
Qed.

(** ** The tree of tables below a PML4 *)

#[local] Set Default Proof Using "All".

Section proofs.
Context {S : Type} `{PA : PageAllocator S} {PAL : PageAllocatorLaws S}.
Implicit Types (st : mmu S) (own : gmap Z (list Z)).

(** A page that the allocator handed out, at address [t] of the direct map. *)
Definition held_page (s : S) (t : Z) : Prop :=
  exists f, t = hhdm_page s f /\ pa_managed s f /\ ~ pa_free s f.

Definition table_words (l : list Z) : Prop := zlen l = 512 /\ Forall (fits 64) l.

Definition present (e : Z) : Prop := ztrue (Z.land e PTE_PRESENT) = true.
Definition is_huge (e : Z) : Prop := ztrue (Z.land e PTE_HUGE) = true.
Definition target st (e : Z) : Z := phys_to_virt_local st (Z.land e PTE_ADDR_MASK).

(** The user half: below the PML4, every table is reached along one path of indices.  [own] gives
    the path of each table, the root's is empty. *)
Record tree st (root : Z) own : Prop := {
  tr_alloc : pa_ok (frames_of st);
  tr_root : own !! root = Some [];
  tr_table : forall t p, own !! t = Some p -> (length p <= 3)%nat /\ held_page (frames_of st) t /\
    exists l, mem st !! t = Some l /\ table_words l;
  tr_entry : forall t p i e, own !! t = Some p -> (length p < 3)%nat -> (p = [] -> i < 256) ->
    load st t i = Some e -> present e -> (p = [] \/ ~ is_huge e) -> own !! target st e = Some (p ++ [i])
}.

(** The walk without creation, as a function: the table at the end of a path. *)
Fixpoint walk st (huge : bool) (t : Z) (p : list Z) : option Z :=
  match p with
  | [] => Some t
  | i :: p =>
      e ← load st t i;
      if ztrue (Z.land e PTE_PRESENT) && negb (huge && ztrue (Z.land e PTE_HUGE))
      then walk st true (target st e) p else None
  end.

(** The entry that translates [v], 0 if there is none. *)
Definition pte_at st (root v : Z) : Z :=
  match walk st false root (path v) with
  | Some t => default 0 (load st t (PT_INDEX v))
  | None => 0
  end.

(** The translation of [v]: the entry if it is present. *)
Definition translation st (root v : Z) : option Z :=
  let e := pte_at st root v in if ztrue (Z.land e PTE_PRESENT) then Some e else None.

Lemma load_ok st root own t p i :
  tree st root own -> own !! t = Some p -> 0 <= i < 512 -> exists e, load st t i = Some e /\ fits 64 e.
Proof.
  intros T Ht Hi. destruct (tr_table _ _ _ T _ _ Ht) as (_ & _ & l & Hl & [Ll Fl]).
  unfold load. rewrite Hl. cbn [mbind option_bind]. destruct (proj2 (zget_Some l i)) as [e He]; [lia|].
  exists e. split; [done|]. apply zget_lookup in He as [_ He]. by eapply Forall_lookup_1.
Qed.

(** Without creation a level of the walk is a step of [walk]. *)
Lemma next_table_find st root own t p i huge :
  tree st root own -> own !! t = Some p -> (length p < 3)%nat -> (p = [] -> i < 256) -> 0 <= i < 512 ->
  huge = bool_decide (p ≠ []) ->
  exists r, next_table huge st t i false = Some (r, st) /\
    (forall q, walk st huge t (i :: q) = match r with Some t' => walk st true t' q | None => None end) /\
    (forall t', r = Some t' -> own !! t' = Some (p ++ [i])).
Proof.
  intros T Ht Hl Hi Hr Hh. destruct (load_ok st root own t p i T Ht Hr) as (e & He & _).
  unfold next_table. cbn [walk]. rewrite He. cbn [mbind option_bind].
  destruct (ztrue (Z.land e PTE_PRESENT)) eqn:Ep; cbn [negb andb].
  - destruct (huge && ztrue (Z.land e PTE_HUGE)) eqn:Eh; cbn [negb].
    + exists None. by split.
    + eexists. split; [done|]. split; [done|]. intros t' [= <-].
      apply (tr_entry _ _ _ T t p i e); try done. destruct (decide (p = [])) as [|Hp]; [by left|]. right.
      intros Hu. unfold is_huge in Hu. rewrite Hu, andb_true_r in Eh. rewrite Hh, bool_decide_true in Eh by done. done.
  - exists None. by split.
Qed.

Lemma get_pte_ok st root own v :
  tree st root own -> user_addr v ->
  get_or_create_pte st root v false = Some ((fun t => (t, PT_INDEX v)) <$> walk st false root (path v), st) /\
  forall t, walk st false root (path v) = Some t -> own !! t = Some (path v).
Proof.
  intros T Hv. pose proof (pml4_user v Hv) as H4. unfold path, get_or_create_pte.
  pose proof (index_range v 39 ltac:(lia)). pose proof (index_range v 30 ltac:(lia)). pose proof (index_range v 21 ltac:(lia)).
  destruct (next_table_find st root own root [] (PML4_INDEX v) false) as (r1 & E1 & W1 & O1);
    [done|apply T|simpl; lia|done|done|done|]. rewrite E1, W1. cbn [mbind option_bind].
  destruct r1 as [t1|]; [|done]. specialize (O1 t1 eq_refl).
  destruct (next_table_find st root own t1 [PML4_INDEX v] (PDPT_INDEX v) true) as (r2 & E2 & W2 & O2);
    [done|done|simpl; lia|done|done|by rewrite bool_decide_true|]. rewrite E2, W2. cbn [mbind option_bind].
  destruct r2 as [t2|]; [|done]. specialize (O2 t2 eq_refl).
  destruct (next_table_find st root own t2 [PML4_INDEX v; PDPT_INDEX v] (PD_INDEX v) true) as (r3 & E3 & W3 & O3);
    [done|done|simpl; lia|done|done|by rewrite bool_decide_true|]. rewrite E3, W3. cbn [mbind option_bind].
  destruct r3 as [t3|]; [|done]. split; [done|]. intros t [= <-]. by apply O3.
Qed.

(** ** Changing the allocator's state *)

Lemma held_same s s' t :
  same_memory s s' -> (forall q, pa_free s' q -> pa_free s q) -> held_page s t -> held_page s' t.
Proof.
  intros [E M] F (f & -> & Hm & Hf). exists f. unfold hhdm_page. rewrite E. split; [done|].
  split; [by apply M|]. intros H'. by apply Hf, F.
Qed.

(** A page handed out is fresh: no table of the tree. *)
Lemma fresh_not_owned st root own f :
  tree st root own -> pa_free (frames_of st) f -> own !! hhdm_page (frames_of st) f = None.
Proof.
  intros T Hf. destruct (own !! _) as [p|] eqn:E; [|done].
  destruct (tr_table _ _ _ T _ _ E) as (_ & (g & Eg & _ & Hg) & _). destruct Hg.
  assert (g = f) as -> by (unfold hhdm_page in Eg; lia). done.
Qed.

Lemma hhdm_page_target s f : pa_ok s -> pa_managed s f -> u64 (f * 4096 + boot_hhdm s) = hhdm_page s f.
Proof.
  intros Hok Hm. destruct (pa_hhdm_ok s Hok) as (? & _ & ?). destruct (pa_frame_ok s f Hok Hm).
  apply u64_small. unfold hhdm_page in *. lia.
Qed.

(** The entry that [next_table] writes for a new table. *)
Definition table_entry (phys : Z) : Z := Z.lor (Z.lor (Z.lor phys PTE_PRESENT) PTE_WRITABLE) PTE_USER.

Lemma table_entry_ok f :
  0 <= f < 2 ^ 40 -> fits 64 (table_entry (f * 4096)) /\ present (table_entry (f * 4096)) /\
  ~ is_huge (table_entry (f * 4096)) /\ Z.land (table_entry (f * 4096)) PTE_ADDR_MASK = f * 4096.
Proof.
  intros Hf. unfold table_entry, present, is_huge. rewrite <- !Z.lor_assoc.
  set (g := Z.lor PTE_PRESENT (Z.lor PTE_WRITABLE PTE_USER)).
  assert (flag_bits g) as Hg by (split; [by split|done]).
  split; [apply lor_fits; [lia|by apply frame_fits|apply Hg]|]. unfold PTE_PRESENT, PTE_HUGE.
  rewrite !entry_flag by lia. split; [done|]. split; [done|]. by apply entry_addr.
Qed.

(** The state after the new empty table [new] was hooked into entry [i] of table [t]. *)
Record grown st (t i new : Z) st' : Prop := {
  gr_frame : exists f, new = hhdm_page (frames_of st) f /\ pa_free (frames_of st) f /\
    pa_managed (frames_of st) f /\ (forall q, pa_free (frames_of st') q <-> pa_free (frames_of st) q /\ q ≠ f);
  gr_entry : exists e, load st' t i = Some e /\ fits 64 e /\ present e /\ ~ is_huge e /\ target st' e = new;
  gr_zero : mem st' !! new = Some zero_page;
  gr_table : forall l, mem st !! t = Some l -> exists l', mem st' !! t = Some l' /\ (table_words l -> table_words l');
  gr_loads : forall t' i', t' ≠ new -> (t' = t -> i' ≠ i) -> load st' t' i' = load st t' i';
  gr_mem : forall t', t' ≠ new -> t' ≠ t -> mem st' !! t' = mem st !! t';
  gr_same : same_memory (frames_of st) (frames_of st');
  gr_ok : pa_ok (frames_of st');
  gr_rest : kernel_pml4 st' = kernel_pml4 st /\ flushed st' = flushed st /\ cr3 st' = cr3 st
}.

Lemma zset_words l i e : table_words l -> 0 <= i < 512 -> fits 64 e ->
  exists l', zset l i e = Some l' /\ table_words l' /\
    forall j, zget l' j = if decide (j = i) then Some e else zget l j.
Proof.
  intros [L F] Hi He. destruct (zset_Some l i e) as [l' E]; [lia|]. exists l'. split; [done|].
  split; [|intros j; by apply zget_zset]. split; [by rewrite (zset_length _ _ _ _ E)|].
  apply Forall_lookup. intros n x Hx. rewrite <- zget_nat, (zget_zset _ _ _ _ _ E) in Hx.
  case_decide; [congruence|]. rewrite zget_nat in Hx. by eapply Forall_lookup_1.
Qed.

(** The allocator has no page to give. *)
Definition exhausted st : Prop := simple_get_free_page (frames_of st) = Some (0, frames_of st).

(** Allocation either fails, leaving the state alone, or yields a zeroed page that was free. *)
Lemma alloc_pt_page_ok st :
  pa_ok (frames_of st) ->
  (alloc_pt_page st = Some (0, st) /\ exhausted st) \/
  exists f s', alloc_pt_page st = Some (hhdm_page (frames_of st) f,
      with_mem (with_frames_of st s') (<[hhdm_page (frames_of st) f := zero_page]> (mem st))) /\
    hhdm_page (frames_of st) f ≠ 0 /\ pa_ok s' /\ same_memory (frames_of st) s' /\
    pa_managed (frames_of st) f /\ pa_free (frames_of st) f /\
    forall q, pa_free s' q <-> pa_free (frames_of st) q /\ q ≠ f.
Proof.
  intros Hok. unfold alloc_pt_page, exhausted.
  destruct (pa_get_ok (frames_of st) Hok) as [->|(f & s' & -> & Hok' & HS & Hm & Hf & Hq)]; cbn [mbind option_bind].
  - left. simpl. split; [by destruct st|done].
  - right. exists f, s'. destruct (pa_hhdm_ok _ Hok) as (Hh & _). destruct (pa_frame_ok _ _ Hok Hm) as [Hr _].
    assert (hhdm_page (frames_of st) f ≠ 0) as H0' by (unfold hhdm_page; lia).
    by rewrite (proj2 (Z.eqb_neq _ 0) H0').
Qed.

Lemma next_table_grow st root own t p i huge e :
  tree st root own -> own !! t = Some p -> 0 <= i < 512 -> load st t i = Some e -> ~ present e ->
  (next_table huge st t i true = Some (None, st) /\ exhausted st) \/
  exists new st', next_table huge st t i true = Some (Some new, st') /\ own !! new = None /\ grown st t i new st'.
Proof.
  intros T Ht Hi He Hp. unfold next_table. rewrite He. cbn [mbind option_bind].
  destruct (ztrue (Z.land e PTE_PRESENT)) eqn:Ep; [by destruct Hp|]. cbn [negb].
  pose proof (tr_alloc _ _ _ T) as Hok.
  destruct (alloc_pt_page_ok st Hok) as [[-> Hex]|(f & s' & -> & Hn0 & Hok' & HS & Hm & Hf & Hq)]; cbn [mbind option_bind].
  { left. by split. }
  right. rewrite (proj2 (Z.eqb_neq _ 0) Hn0). pose proof (fresh_not_owned st root own f T Hf) as Hfr.
  set (new := hhdm_page (frames_of st) f) in *. destruct (pa_frame_ok _ _ Hok Hm) as [Hfr40 _].
  destruct (tr_table _ _ _ T _ _ Ht) as (_ & _ & l & Hl & Wl).
  assert (t ≠ new) as Htn by (intros ->; congruence).
  set (st1 := with_mem _ _).
  assert (virt_to_phys_local st1 new = f * 4096) as ->.
  { unfold virt_to_phys_local. cbn. rewrite (sm_hhdm _ _ HS). unfold new, hhdm_page.
    replace (f * 4096 + boot_hhdm (frames_of st) - boot_hhdm (frames_of st)) with (f * 4096) by lia.
    apply u64_small. lia. }
  fold (table_entry (f * 4096)). destruct (table_entry_ok f Hfr40) as (F64 & Fp & Fh & Fa).
  destruct (zset_words l i (table_entry (f * 4096)) Wl Hi F64) as (l' & El' & Wl' & Gl').
  unfold store. cbn [mem st1 with_mem with_frames_of]. rewrite lookup_insert_ne, Hl by done.
  cbn [mbind option_bind]. rewrite El'. cbn [mbind option_bind]. eexists new, _. split; [done|].
  split; [done|]. split; cbn [frames_of mem with_mem with_frames_of st1].
  - exists f. auto.
  - exists (table_entry (f * 4096)). split.
    + unfold load. cbn [mem with_mem]. rewrite lookup_insert_eq. cbn [mbind option_bind]. by rewrite Gl', decide_True.
    + split; [done|]. split; [done|]. split; [done|]. unfold target, phys_to_virt_local. rewrite Fa. cbn.
      rewrite (sm_hhdm _ _ HS). by apply hhdm_page_target.
  - by rewrite lookup_insert_ne, lookup_insert_eq.
  - intros l0 Hl0. assert (l0 = l) as -> by congruence. exists l'. by rewrite lookup_insert_eq.
  - intros t' i' Hn Hne. unfold load. cbn [mem with_mem]. destruct (decide (t' = t)) as [->|Ht'].
    + rewrite lookup_insert_eq, Hl. cbn [mbind option_bind]. by rewrite Gl', decide_False by auto.
    + by rewrite !lookup_insert_ne by done.
  - intros t' Hn Ht'. by rewrite !lookup_insert_ne.
  - done.
  - done.
  - done.
Qed.

Lemma target_same st st' e : same_memory (frames_of st) (frames_of st') -> target st' e = target st e.
Proof. intros [E _]. unfold target, phys_to_virt_local. by rewrite E. Qed.

Lemma load_zero st new i e : mem st !! new = Some zero_page -> load st new i = Some e -> e = 0.
Proof.
  unfold load. intros -> [_ He]%zget_lookup. by apply lookup_replicate in He as [-> _].
Qed.

Lemma not_present_0 : ~ present 0.
Proof. done. Qed.

Lemma grown_tree st root own t p i new st' :
  tree st root own -> own !! t = Some p -> (length p < 3)%nat -> own !! new = None -> grown st t i new st' ->
  tree st' root (<[new := p ++ [i]]> own).
Proof.
  intros T Ht Hl Hn G. pose proof G as [(f & Ef & Hf & Hm & Hq) (e & He & E64 & Ep & Eh & Et) Gz Gt Gl Gm Gs Gok _].
  assert (forall t' p', own !! t' = Some p' -> t' ≠ new) as Hne by (intros t' p' H' ->; congruence).
  split; [done|by rewrite lookup_insert_ne by (intros <-; by rewrite (tr_root _ _ _ T) in Hn); apply T| |].
  - intros t' p'. destruct (decide (t' = new)) as [->|Htn].
    + rewrite lookup_insert_eq. intros [= <-]. split; [rewrite length_app; simpl; lia|]. split.
      * exists f. split; [rewrite Ef; unfold hhdm_page; by rewrite (sm_hhdm _ _ Gs)|].
        split; [by apply (sm_managed _ _ Gs)|]. intros [_ ?]%Hq. done.
      * exists zero_page. split; [done|]. split; [done|]. by apply Forall_replicate.
    + rewrite lookup_insert_ne by done. intros Ht'. destruct (tr_table _ _ _ T _ _ Ht') as (L & HP & l & Hml & Wl).
      split; [done|]. split; [eapply held_same; [exact Gs| |exact HP]; intros q [? _]%Hq; done|].
      destruct (decide (t' = t)) as [->|Htt].
      * destruct (Gt l Hml) as (l' & Hl' & W'). exists l'. auto.
      * exists l. by rewrite Gm.
  - intros t' p' i' e'. destruct (decide (t' = new)) as [->|Htn].
    + rewrite lookup_insert_eq. intros [= <-] _ _ He'. apply load_zero in He'; [subst|done]. by intros ?%not_present_0.
    + rewrite lookup_insert_ne by done. intros Ht' L I He' P' X'.
      destruct (decide (t' = t /\ i' = i)) as [[-> ->]|Hdiff].
      * assert (e' = e) as -> by congruence. rewrite Et, lookup_insert_eq. congruence.
      * rewrite Gl in He' by (try done; intros -> ->; tauto). rewrite (target_same st st') by done.
        pose proof (tr_entry _ _ _ T t' p' i' e' Ht' L I He' P' X') as Ho.
        rewrite lookup_insert_ne; [done|]. intros E. congruence.
Qed.

Lemma grown_walk st root own t p i new st' e0 : forall q t0 p0,
  tree st root own -> own !! t = Some p -> load st t i = Some e0 -> ~ present e0 -> own !! new = None ->
  grown st t i new st' -> own !! t0 = Some p0 -> (length p0 + length q <= 3)%nat ->
  (p0 = [] -> forall j, head q = Some j -> j < 256) ->
  walk st' (bool_decide (p0 ≠ [])) t0 q = walk st (bool_decide (p0 ≠ [])) t0 q \/
  (walk st (bool_decide (p0 ≠ [])) t0 q = None /\ walk st' (bool_decide (p0 ≠ [])) t0 q = Some new).
Proof.
  induction q as [|j q IH]; intros t0 p0 T Ht He0 Hp0 Hn G Ho Hl Hh; [by left|].
  pose proof G as [_ (e & He & _ & Ep & Eh & Et) Gz _ Gl _ Gs _ _]. cbn [walk].
  destruct (decide (t0 = t /\ j = i)) as [[-> ->]|Hdiff].
  - rewrite He0, He. cbn [mbind option_bind]. unfold present in Ep, Hp0. unfold is_huge in Eh.
    destruct (ztrue (Z.land e0 PTE_PRESENT)); [by destruct Hp0|]. rewrite Ep.
    destruct (ztrue (Z.land e PTE_HUGE)); [by destruct Eh|]. rewrite andb_false_r. cbn [negb andb]. rewrite Et.
    destruct q as [|k q]; [by right|]. left. cbn [walk]. destruct (load st' new k) as [z|] eqn:Ez; [|done].
    apply load_zero in Ez; [by subst|done].
  - assert (t0 ≠ new) as Htn by (intros ->; congruence).
    rewrite Gl by (try done; intros -> ->; tauto). destruct (load st t0 j) as [z|] eqn:Ez; [|by left].
    cbn [mbind option_bind]. destruct (ztrue (Z.land z PTE_PRESENT)) eqn:Ezp; cbn [andb]; [|by left].
    destruct (bool_decide (p0 ≠ []) && ztrue (Z.land z PTE_HUGE)) eqn:Ezh; cbn [negb]; [by left|].
    rewrite (target_same st st') by done. simpl in Hl.
    assert (own !! target st z = Some (p0 ++ [j])) as Ho'.
    { apply (tr_entry _ _ _ T t0 p0 j z); try done; [lia| |].
      - intros E. by apply Hh.
      - destruct (decide (p0 = [])) as [|Hp]; [by left|right]. intros Hu. unfold is_huge in Hu.
        rewrite Hu, bool_decide_true in Ezh by done. done. }
    assert (p0 ++ [j] ≠ []) as Hne by (by destruct p0).
    specialize (IH (target st z) (p0 ++ [j]) T Ht He0 Hp0 Hn G Ho').
    rewrite bool_decide_true in IH by done. apply IH; [rewrite length_app; simpl; lia|done].
Qed.

(** Growing the tree changes no translation. *)
Lemma grown_translation st root own t p i new st' e0 v :
  tree st root own -> own !! t = Some p -> load st t i = Some e0 -> ~ present e0 -> own !! new = None ->
  (length p < 3)%nat -> grown st t i new st' -> user_addr v -> translation st' root v = translation st root v.
Proof.
  intros T Ht He0 Hp0 Hn Hlp G Hv. unfold translation, pte_at.
  destruct (grown_walk st root own t p i new st' e0 (path v) root []) as [E|[E1 E2]]; try done; [apply T|..].
  - intros _ j [= <-]. by apply pml4_user.
  - rewrite bool_decide_false in E by (intros X; by apply X). rewrite E.
    destruct (walk st false root (path v)) as [t1|] eqn:Ew; [|done].
    pose proof (proj2 (get_pte_ok st root own v T Hv) t1 Ew) as Ho1.
    rewrite (gr_loads _ _ _ _ _ G); [done|congruence|]. intros ->. assert (p = path v) as -> by congruence.
    simpl in Hlp. lia.
  - rewrite bool_decide_false in E1, E2 by (intros X; by apply X). rewrite E1, E2.
    destruct (load st' new (PT_INDEX v)) as [z|] eqn:Ez; [|done].
    apply load_zero in Ez; [by subst|apply G].
Qed.

(** ** Walks from the root *)

(** A path in the user half. *)
Definition user_path (q : list Z) : Prop :=
  (length q <= 3)%nat /\ Forall (fun i => 0 <= i < 512) q /\ forall j, head q = Some j -> j < 256.

Lemma user_path_snoc q i : user_path (q ++ [i]) -> user_path q /\ (length q < 3)%nat /\ 0 <= i < 512 /\ (q = [] -> i < 256).
Proof.
  intros (L & F & Hh). rewrite length_app in L. simpl in L. apply Forall_app in F as [F1 F2].
  rewrite Forall_singleton in F2. split; [|split; [lia|split; [exact F2|]]].
  - split; [lia|]. split; [done|]. intros j Hj. apply Hh. destruct q; [done|exact Hj].
  - intros ->. by apply Hh.
Qed.

Lemma path_user v : user_addr v -> user_path (path v).
Proof.
  intros Hv. split; [done|]. split.
  - repeat constructor; apply index_range; lia.
  - intros j [= <-]. by apply pml4_user.
Qed.

(** The last step of a walk. *)
Definition step st (q : list Z) (t i : Z) : option Z :=
  e ← load st t i;
  if ztrue (Z.land e PTE_PRESENT) && negb (bool_decide (q ≠ []) && ztrue (Z.land e PTE_HUGE))
  then Some (target st e) else None.

Lemma walk_snoc_gen st q i : forall h t,
  walk st h t (q ++ [i]) = (t' ← walk st h t q;
    e ← load st t' i;
    if ztrue (Z.land e PTE_PRESENT) && negb ((h || bool_decide (q ≠ [])) && ztrue (Z.land e PTE_HUGE))
    then Some (target st e) else None).
Proof.
  induction q as [|j q IH]; intros h t; cbn [app walk mbind option_bind].
  - by rewrite (bool_decide_false ([] ≠ [])), orb_false_r by (intros X; by apply X).
  - destruct (load st t j) as [e|]; [|done]. cbn [mbind option_bind].
    destruct (_ && _); [|done]. rewrite IH. destruct (walk st true _ q); [|done]. cbn [mbind option_bind].
    rewrite (bool_decide_true (j :: q ≠ [])), orb_true_r by done. by rewrite orb_true_l.
Qed.

Lemma walk_snoc st root q i :
  walk st false root (q ++ [i]) = (t ← walk st false root q; step st q t i).
Proof. apply walk_snoc_gen. Qed.

Lemma walk_owned st root own q : forall t,
  tree st root own -> user_path q -> walk st false root q = Some t -> own !! t = Some q.
Proof.
  induction q as [|i q IH] using rev_ind; intros t T Hq.
  - intros [= <-]. apply T.
  - apply user_path_snoc in Hq as (Hq & Hl & Hi & H4). rewrite walk_snoc.
    destruct (walk st false root q) as [t0|]; [|done]. specialize (IH t0 T Hq eq_refl). cbn [mbind option_bind].
    unfold step. destruct (load st t0 i) as [e|] eqn:Ee; [|done]. cbn [mbind option_bind].
    destruct (ztrue (Z.land e PTE_PRESENT)) eqn:Ep; cbn [andb]; [|done].
    destruct (bool_decide (q ≠ []) && _) eqn:Eh; cbn [negb]; [done|]. intros [= <-].
    apply (tr_entry _ _ _ T t0 q i e); try done. destruct (decide (q = [])) as [|Hne]; [by left|right].
    intros Hu. unfold is_huge in Hu. rewrite Hu, bool_decide_true in Eh by done. done.
Qed.

(** A huge page blocks the walk to [v] after [q]. *)
Definition huge_at st root (q : list Z) (i : Z) : Prop :=
  exists t e, q ≠ [] /\ walk st false root q = Some t /\ load st t i = Some e /\ present e /\ is_huge e.

(** Every table of the tree is reached by the walk along its path. *)
Definition reach st root own : Prop :=
  forall t p, own !! t = Some p -> user_path p /\ walk st false root p = Some t.

(** Tables were added below the root, nothing else happened. *)
Record grows st root own st' own' : Prop := {
  gs_tree : tree st' root own';
  gs_own : own ⊆ own';
  gs_walk : forall q t, user_path q -> walk st false root q = Some t -> walk st' false root q = Some t;
  gs_reach : reach st root own -> reach st' root own';
  gs_translation : forall v, user_addr v -> translation st' root v = translation st root v;
  gs_same : same_memory (frames_of st) (frames_of st');
  gs_free : forall f, pa_free (frames_of st') f -> pa_free (frames_of st) f;
  gs_pages : forall t, own' !! t = None -> mem st' !! t = mem st !! t;
  gs_new : forall t p, own' !! t = Some p -> own !! t = None -> exists f, t = hhdm_page (frames_of st) f /\ pa_free (frames_of st) f;
  gs_taken : forall f, pa_free (frames_of st) f -> pa_free (frames_of st') f \/ is_Some (own' !! hhdm_page (frames_of st) f);
  gs_rest : kernel_pml4 st' = kernel_pml4 st /\ flushed st' = flushed st /\ cr3 st' = cr3 st
}.

Lemma taken_trans (s s1 s2 : S) own1 own2 :
  (forall f, pa_free s f -> pa_free s1 f \/ is_Some (own1 !! hhdm_page s f)) ->
  (forall f, pa_free s1 f -> pa_free s2 f \/ is_Some (own2 !! hhdm_page s1 f)) ->
  boot_hhdm s1 = boot_hhdm s -> own1 ⊆ own2 ->
  forall f, pa_free s f -> pa_free s2 f \/ is_Some (own2 !! hhdm_page s f).
Proof.
  intros A B E Hsub f Hf. destruct (A f Hf) as [H1|[p H1]].
  - unfold hhdm_page in *. rewrite E in B. by apply B.
  - right. exists p. by eapply lookup_weaken.
Qed.

Lemma grows_refl st root own : tree st root own -> grows st root own st own.
Proof. intros T. split; try done; [intros t p H1 H2; congruence|by left]. Qed.

Lemma grows_trans st root own st1 own1 st2 own2 :
  grows st root own st1 own1 -> grows st1 root own1 st2 own2 -> grows st root own st2 own2.
Proof.
  intros [A1 A2 A3 AR A4 A5 A6 A7 A8 AT (A9 & A10 & A11)] [B1 B2 B3 BR B4 B5 B6 B7 B8 BT (B9 & B10 & B11)]. split.
  - done.
  - by etransitivity.
  - auto.
  - auto.
  - intros v Hv. by rewrite B4, A4.
  - destruct A5 as [E1 M1], B5 as [E2 M2]. split; [congruence|]. intros f. by rewrite M2, M1.
  - auto.
  - intros t Ht. rewrite B7 by done. apply A7. destruct (own1 !! t) eqn:E; [|done].
    by rewrite (lookup_weaken _ _ _ _ E B2) in Ht.
  - intros t p Ht Hn. destruct (own1 !! t) as [p1|] eqn:E; [by eapply A8|].
    destruct (B8 t p Ht E) as (f & Ef & Hf). exists f. unfold hhdm_page in *. rewrite (sm_hhdm _ _ A5) in Ef. auto.
  - exact (taken_trans _ _ _ _ _ AT BT (sm_hhdm _ _ A5) B2).
  - repeat split; congruence.
Qed.

Lemma grown_walk_some st root own t p i new st' e0 q x :
  tree st root own -> own !! t = Some p -> load st t i = Some e0 -> ~ present e0 -> own !! new = None ->
  grown st t i new st' -> user_path q -> walk st false root q = Some x -> walk st' false root q = Some x.
Proof.
  intros T Ht He0 Hp0 Hn G (L & _ & Hh) Hw.
  destruct (grown_walk st root own t p i new st' e0 q root []) as [E|[E1 E2]]; try done; [apply T|..];
    rewrite bool_decide_false in * by (intros X; by apply X); congruence.
Qed.

Lemma grown_walk_new st root own t p i new st' e0 :
  tree st root own -> own !! t = Some p -> load st t i = Some e0 -> ~ present e0 -> own !! new = None ->
  user_path p -> grown st t i new st' -> walk st false root p = Some t -> walk st' false root (p ++ [i]) = Some new.
Proof.
  intros T Ht He0 Hp0 Hn Hup G Hw.
  rewrite walk_snoc, (grown_walk_some st root own t p i new st' e0 p t) by done. cbn [mbind option_bind].
  unfold step. destruct G as [_ (z & Hz & _ & Pz & Uz & Tz) _ _ _ _ _ _ _]. rewrite Hz. cbn [mbind option_bind].
  unfold present in Pz. unfold is_huge in Uz. rewrite Pz. destruct (ztrue (Z.land z PTE_HUGE)); [by destruct Uz|].
  rewrite andb_false_r. simpl. by rewrite Tz.
Qed.

Lemma grown_grows st root own t p i new st' e0 :
  tree st root own -> own !! t = Some p -> load st t i = Some e0 -> ~ present e0 -> own !! new = None ->
  user_path (p ++ [i]) -> grown st t i new st' -> grows st root own st' (<[new := p ++ [i]]> own).
Proof.
  intros T Ht He0 Hp0 Hn Hup G. destruct (user_path_snoc _ _ Hup) as (Hup' & Hl & _). split.
  - by eapply grown_tree.
  - by apply insert_subseteq.
  - intros q x Hq Hw. by eapply grown_walk_some.
  - intros R t' p'. destruct (decide (t' = new)) as [->|Hne].
    + rewrite lookup_insert_eq. intros [= <-]. split; [done|]. destruct (R t p Ht) as [_ Hw].
      eapply (grown_walk_new st root own t p i new st' e0); done.
    + rewrite lookup_insert_ne by done. intros Ho. destruct (R t' p' Ho) as [Hu Hw]. split; [done|].
      by apply (grown_walk_some st root own t p i new st' e0).
  - intros v Hv. by eapply grown_translation.
  - apply G.
  - destruct (gr_frame _ _ _ _ _ G) as (f & _ & _ & _ & Hq). intros q [? _]%Hq. done.
  - intros t'. rewrite lookup_insert_None. intros [Hn' Hne]. apply (gr_mem _ _ _ _ _ G); [done|].
    intros ->. congruence.
  - intros t' p'. destruct (decide (t' = new)) as [->|Hne].
    + intros _ _. destruct (gr_frame _ _ _ _ _ G) as (f & Ef & Hf & _). by exists f.
    + rewrite lookup_insert_ne by done. congruence.
  - intros f' Hf'. destruct (gr_frame _ _ _ _ _ G) as (f & -> & _ & _ & Hq). destruct (decide (f' = f)) as [->|Hne].
    + right. by rewrite lookup_insert_eq.
    + left. by apply Hq.
  - apply G.
Qed.

Lemma next_table_create st root own q t i :
  tree st root own -> user_path (q ++ [i]) -> walk st false root q = Some t ->
  exists r st' own', next_table (bool_decide (q ≠ [])) st t i true = Some (r, st') /\
    grows st root own st' own' /\
    match r with
    | Some t' => walk st' false root (q ++ [i]) = Some t'
    | None => exhausted st' \/ huge_at st' root q i
    end.
Proof.
  intros T Hq Ht. destruct (user_path_snoc _ _ Hq) as (Hq' & Hl & Hi & H4).
  pose proof (walk_owned st root own q t T Hq' Ht) as Ho.
  destruct (load_ok st root own t q i T Ho Hi) as (e & He & _).
  destruct (ztrue (Z.land e PTE_PRESENT)) eqn:Ep.
  - assert (exists r, next_table (bool_decide (q ≠ [])) st t i true = Some (r, st) /\
      match r with Some t' => walk st false root (q ++ [i]) = Some t' | None => huge_at st root q i end) as (r & E & Hr).
    { unfold next_table. rewrite He. cbn [mbind option_bind]. rewrite Ep. cbn [negb].
      rewrite walk_snoc, Ht. cbn [mbind option_bind]. unfold step. rewrite He. cbn [mbind option_bind]. rewrite Ep.
      destruct (bool_decide (q ≠ []) && ztrue (Z.land e PTE_HUGE)) eqn:Eh; eexists; (split; [done|]); [|done].
      apply andb_true_iff in Eh as [Hne%bool_decide_eq_true Hu]. by exists t, e. }
    exists r, st, own. split; [done|]. split; [by apply grows_refl|]. destruct r; [done|by right].
  - assert (~ present e) as Hnp by (unfold present; congruence).
    destruct (next_table_grow st root own t q i (bool_decide (q ≠ [])) e T Ho Hi He Hnp) as
      [[E Hex]|(new & st' & E & Hn & G)].
    + exists None, st, own. split; [done|]. split; [by apply grows_refl|by left].
    + exists (Some new), st', (<[new := q ++ [i]]> own). split; [done|]. split.
      * by eapply grown_grows.
      * apply (grown_walk_new st root own t q i new st' e); done.
Qed.

(** A huge page covers [v]. *)
Definition huge_on_path st root (v : Z) : Prop :=
  huge_at st root [PML4_INDEX v] (PDPT_INDEX v) \/ huge_at st root [PML4_INDEX v; PDPT_INDEX v] (PD_INDEX v).

Lemma get_or_create_ok st root own v :
  tree st root own -> user_addr v ->
  exists r st' own', get_or_create_pte st root v true = Some (r, st') /\ grows st root own st' own' /\
    match r with
    | Some (t, i) => i = PT_INDEX v /\ walk st' false root (path v) = Some t
    | None => exhausted st' \/ huge_on_path st' root v
    end.
Proof.
  intros T Hv. pose proof (path_user v Hv) as P3. unfold path in P3.
  destruct (user_path_snoc [PML4_INDEX v; PDPT_INDEX v] _ P3) as (P2 & _).
  destruct (user_path_snoc [PML4_INDEX v] _ P2) as (P1 & _).
  unfold get_or_create_pte, huge_on_path.
  destruct (next_table_create st root own [] root (PML4_INDEX v) T P1 eq_refl) as (r1 & st1 & own1 & E1 & G1 & R1).
  rewrite bool_decide_false in E1 by (intros X; by apply X). rewrite E1. cbn [mbind option_bind].
  destruct r1 as [t1|].
  2: { exists None, st1, own1. split; [done|]. split; [done|]. destruct R1 as [?|(t & e & Hne & _)]; [by left|done]. }
  pose proof (gs_tree _ _ _ _ _ G1) as T1.
  destruct (next_table_create st1 root own1 [PML4_INDEX v] t1 (PDPT_INDEX v) T1 P2 R1) as (r2 & st2 & own2 & E2 & G2 & R2).
  rewrite bool_decide_true in E2 by done. rewrite E2. cbn [mbind option_bind].
  pose proof (grows_trans _ _ _ _ _ _ _ G1 G2) as G12. destruct r2 as [t2|].
  2: { exists None, st2, own2. split; [done|]. split; [done|]. destruct R2; auto. }
  pose proof (gs_tree _ _ _ _ _ G2) as T2.
  destruct (next_table_create st2 root own2 [PML4_INDEX v; PDPT_INDEX v] t2 (PD_INDEX v) T2 P3 R2) as (r3 & st3 & own3 & E3 & G3 & R3).
  rewrite bool_decide_true in E3 by done. rewrite E3. cbn [mbind option_bind].
  pose proof (grows_trans _ _ _ _ _ _ _ G12 G3) as G123. destruct r3 as [t3|].
  - exists (Some (t3, PT_INDEX v)), st3, own3. by split.
  - exists None, st3, own3. split; [done|]. split; [done|]. destruct R3; auto.
Qed.

(** ** Writing a leaf entry *)

(** Entry [e] was written for the page of [v], whose last table exists; nothing else happened. *)
Record leaf_set st root own (v e : Z) st' : Prop := {
  ls_tree : tree st' root own;
  ls_walk : forall q, user_path q -> walk st' false root q = walk st false root q;
  ls_pte : forall v', user_addr v' -> walk st false root (path v') ≠ None ->
    pte_at st' root v' = if decide (vpage v' = vpage v) then e else pte_at st root v';
  ls_frames : frames_of st' = frames_of st;
  ls_pages : forall t', own !! t' = None -> mem st' !! t' = mem st !! t';
  ls_rest : kernel_pml4 st' = kernel_pml4 st /\ cr3 st' = cr3 st
}.

Lemma walk_agree st st' q : forall h t,
  same_memory (frames_of st) (frames_of st') ->
  (forall n t', (n < length q)%nat -> walk st h t (take n q) = Some t' -> forall i, load st' t' i = load st t' i) ->
  walk st' h t q = walk st h t q.
Proof.
  induction q as [|j q IH]; intros h t Hf Hl; [done|]. cbn [walk].
  rewrite (Hl 0%nat t) by (simpl; (lia || done)). destruct (load st t j) as [e|] eqn:Ee; [|done]. cbn [mbind option_bind].
  destruct (_ && _) eqn:Eb; [|done]. rewrite (target_same st st' e Hf).
  apply IH; [done|]. intros n t' Hn Hw. apply (Hl (Datatypes.S n)); [simpl; lia|]. cbn [take walk]. rewrite Ee. cbn [mbind option_bind].
  by rewrite Eb.
Qed.

Lemma store_leaf_ok st root own t v e :
  tree st root own -> user_addr v -> walk st false root (path v) = Some t -> fits 64 e ->
  exists st', store st t (PT_INDEX v) e = Some st' /\ flushed st' = flushed st /\ leaf_set st root own v e st'.
Proof.
  intros T Hv Hw He. pose proof (proj2 (get_pte_ok st root own v T Hv) t Hw) as Ho.
  destruct (tr_table _ _ _ T _ _ Ho) as (_ & _ & l & Hl & Wl).
  pose proof (index_range v 12 ltac:(lia)) as Hi. fold (PT_INDEX v) in Hi.
  destruct (zset_words l (PT_INDEX v) e Wl Hi He) as (l' & El & Wl' & Gl).
  unfold store. rewrite Hl. cbn [mbind option_bind]. rewrite El. cbn [mbind option_bind].
  set (st' := with_mem st _). exists st'. split; [done|]. split; [done|].
  assert (forall t' i, t' ≠ t -> load st' t' i = load st t' i) as Hload.
  { intros t' i Hne. unfold load, st'. cbn [mem with_mem]. by rewrite lookup_insert_ne. }
  assert (forall i, load st' t i = if decide (i = PT_INDEX v) then Some e else load st t i) as Hloadt.
  { intros i. unfold load, st'. cbn [mem with_mem]. rewrite lookup_insert_eq, Hl. cbn [mbind option_bind]. by rewrite Gl. }
  assert (forall q, user_path q -> walk st' false root q = walk st false root q) as HW.
  { intros q (Lq & Fq & Hh). apply walk_agree; [done|]. intros n t' Hn Hw' i. apply Hload. intros ->.
    assert (own !! t = Some (take n q)) as Ho'.
    { apply (walk_owned st root own _ t T); [|done]. split; [rewrite length_take; lia|]. split; [by apply Forall_take|].
      intros j Hj. apply Hh. destruct q, n; done. }
    assert (length (take n q) = 3%nat) as L3 by (replace (take n q) with (path v) by congruence; done).
    rewrite length_take in L3. lia. }
  split; [|exact HW| |done| |done].
  - split; [apply T|apply T| |].
    + intros t' p' Ht'. destruct (tr_table _ _ _ T _ _ Ht') as (L & HP & l0 & Hl0 & W0). split; [done|]. split; [done|].
      cbn [mem with_mem st']. destruct (decide (t' = t)) as [->|Hne].
      * rewrite lookup_insert_eq. by exists l'.
      * rewrite lookup_insert_ne by done. by exists l0.
    + intros t' p' i' e' Ht' L' I' E' P' X'. assert (t' ≠ t) as Hne.
      { intros ->. assert (p' = path v) as -> by congruence. simpl in L'. lia. }
      rewrite Hload in E' by done. exact (tr_entry _ _ _ T t' p' i' e' Ht' L' I' E' P' X').
  - intros v' Hv' Hsome. unfold pte_at. rewrite HW by (by apply path_user).
    destruct (walk st false root (path v')) as [t'|] eqn:Ew; [|done].
    pose proof (proj2 (get_pte_ok st root own v' T Hv') t' Ew) as Ho'.
    destruct (decide (vpage v' = vpage v)) as [Ev|Ev].
    + destruct (same_page _ _ Ev) as [Ep E1]. assert (t' = t) as -> by (rewrite Ep in Ew; congruence).
      by rewrite Hloadt, E1, decide_True.
    + destruct (decide (t' = t)) as [->|Hne]; [|by rewrite Hload].
      rewrite Hloadt, decide_False; [done|]. intros E1. apply Ev. apply same_indices; try done. congruence.
  - intros t' Hn. cbn [mem with_mem st']. apply lookup_insert_ne. intros ->. congruence.
Qed.

(** ** Mapping and unmapping a page *)

(** What every operation on the user half respects: the tables stay a tree, at most new tables are
    added to it, from pages that were free, and only pages that are tables change. *)
Record step_ok st root own st' own' : Prop := {
  so_tree : tree st' root own';
  so_own : own ⊆ own';
  so_same : same_memory (frames_of st) (frames_of st');
  so_free : forall f, pa_free (frames_of st') f -> pa_free (frames_of st) f;
  so_pages : forall t, own' !! t = None -> mem st' !! t = mem st !! t;
  so_new : forall t p, own' !! t = Some p -> own !! t = None ->
    exists f, t = hhdm_page (frames_of st) f /\ pa_free (frames_of st) f;
  so_reach : reach st root own -> reach st' root own';
  so_taken : forall f, pa_free (frames_of st) f -> pa_free (frames_of st') f \/ is_Some (own' !! hhdm_page (frames_of st) f);
  so_rest : kernel_pml4 st' = kernel_pml4 st /\ cr3 st' = cr3 st
}.

Lemma same_memory_refl (s : S) : same_memory s s.
Proof. by split. Qed.

Lemma same_memory_trans (s1 s2 s3 : S) : same_memory s1 s2 -> same_memory s2 s3 -> same_memory s1 s3.
Proof. intros [E1 M1] [E2 M2]. split; [congruence|]. intros f. by rewrite M2, M1. Qed.

Lemma step_ok_refl st root own : tree st root own -> step_ok st root own st own.
Proof. intros T. split; try done; [intros t p H1 H2; congruence|by left]. Qed.

Lemma step_ok_trans st root own st1 own1 st2 own2 :
  step_ok st root own st1 own1 -> step_ok st1 root own1 st2 own2 -> step_ok st root own st2 own2.
Proof.
  intros [A1 A2 A3 A4 A5 A6 AR AT [A7 A8]] [B1 B2 B3 B4 B5 B6 BR BT [B7 B8]]. split.
  - done.
  - by etransitivity.
  - by eapply same_memory_trans.
  - auto.
  - intros t Ht. rewrite B5 by done. apply A5. destruct (own1 !! t) eqn:E; [|done].
    by rewrite (lookup_weaken _ _ _ _ E B2) in Ht.
  - intros t p Ht Hn. destruct (own1 !! t) as [p1|] eqn:E; [by eapply A6|].
    destruct (B6 t p Ht E) as (f & Ef & Hf). exists f. unfold hhdm_page in *. rewrite (sm_hhdm _ _ A3) in Ef. auto.
  - auto.
  - exact (taken_trans _ _ _ _ _ AT BT (sm_hhdm _ _ A3) B2).
  - split; congruence.
Qed.

Lemma grows_step st root own st' own' : grows st root own st' own' -> step_ok st root own st' own'.
Proof. intros [A1 A2 _ AR _ A5 A6 A7 A8 AT (A9 & _ & A11)]. by split. Qed.

Lemma leaf_step st root own v e st' : leaf_set st root own v e st' -> step_ok st root own st' own.
Proof.
  intros [A1 A2 _ A4 A5 A6]. split; try done.
  - by rewrite A4.
  - intros f. by rewrite A4.
  - intros t p H1 H2. congruence.
  - intros R t p Ho. destruct (R t p Ho) as [Hu Hw]. split; [done|]. by rewrite A2.
  - intros f. rewrite A4. by left.
Qed.

(** TLB flushes change nothing that matters here. *)
Lemma flush_tree st root own a : tree st root own -> tree (tlb_flush_page st a) root own.
Proof. intros [A1 A2 A3 A4]. by split. Qed.

Lemma flush_walk st a h t q : walk (tlb_flush_page st a) h t q = walk st h t q.
Proof.
  revert h t. induction q as [|i q IH]; intros h t; [done|]. cbn [walk].
  change (load (tlb_flush_page st a) t i) with (load st t i). destruct (load st t i); [|done]. cbn [mbind option_bind].
  destruct (_ && _); [|done]. apply IH.
Qed.

Lemma flush_step st root own st' own' a :
  step_ok st root own st' own' -> step_ok st root own (tlb_flush_page st' a) own'.
Proof.
  intros [A1 A2 A3 A4 A5 A6 AR AT A7]. split; try done; [by apply flush_tree|]. intros R t p Ho.
  rewrite flush_walk. by apply AR.
Qed.

Lemma flush_translation st a root v : translation (tlb_flush_page st a) root v = translation st root v.
Proof. unfold translation, pte_at. rewrite flush_walk. done. Qed.

(** The translations after a leaf entry was written. *)
Definition remap (f : Z -> option Z) (v : Z) (r : option Z) : Z -> option Z :=
  fun v' => if decide (vpage v' = vpage v) then r else f v'.

Definition entry_translation (e : Z) : option Z := if ztrue (Z.land e PTE_PRESENT) then Some e else None.

Lemma leaf_translation st root own v e st' v' t :
  leaf_set st root own v e st' -> user_addr v -> user_addr v' -> walk st false root (path v) = Some t ->
  translation st' root v' = remap (translation st root) v (entry_translation e) v'.
Proof.
  intros [_ HW HP _ _ _] Hv Hv' Hw. unfold translation, remap.
  destruct (walk st false root (path v')) as [t'|] eqn:Ew.
  - rewrite HP by (try done; by rewrite Ew). case_decide; done.
  - assert (vpage v' ≠ vpage v) as Hne.
    { intros E. destruct (same_page _ _ E) as [Ep _]. rewrite Ep in Ew. congruence. }
    rewrite decide_False by done. unfold pte_at. rewrite HW by (by apply path_user). by rewrite Ew.
Qed.

(** The entry [paging_map] writes. *)
Definition leaf_entry (phys flags : Z) : Z := Z.lor (Z.lor (Z.land phys PTE_ADDR_MASK) flags) PTE_PRESENT.

Lemma present_flag : flag_bits PTE_PRESENT.
Proof. split; [by split|done]. Qed.

Lemma leaf_entry_ok f flags : 0 <= f < 2 ^ 40 -> flag_bits flags ->
  fits 64 (leaf_entry (f * 4096) flags) /\ present (leaf_entry (f * 4096) flags) /\
  Z.land (leaf_entry (f * 4096) flags) PTE_ADDR_MASK = f * 4096.
Proof.
  intros Hf Hg. unfold leaf_entry. rewrite mask_frame by done. rewrite <- Z.lor_assoc.
  pose proof (flag_bits_lor _ _ Hg present_flag) as Hg'. split; [|split].
  - apply lor_fits; [lia|by apply frame_fits|apply Hg'].
  - unfold present, PTE_PRESENT. rewrite entry_flag by lia. rewrite ztrue_land_bit, Z.lor_spec by lia.
    apply orb_true_r.
  - by apply entry_addr.
Qed.

Lemma leaf_entry_addr f flags :
  0 <= f < 2 ^ 40 -> flag_bits flags -> Z.land (leaf_entry (f * 4096) flags) PTE_ADDR_MASK = f * 4096.
Proof. intros Hf Hg. by apply leaf_entry_ok. Qed.

Lemma paging_map_ok st root own v f flags :
  tree st root own -> user_addr v -> 0 <= f < 2 ^ 40 -> flag_bits flags ->
  exists ret st' own', paging_map st root v (f * 4096) flags = Some (ret, st') /\ step_ok st root own st' own' /\
    ((ret = 0 /\ head (flushed st') = Some v /\ forall v', user_addr v' ->
        translation st' root v' = remap (translation st root) v (Some (leaf_entry (f * 4096) flags)) v') \/
     (ret = -1 /\ (exhausted st' \/ huge_on_path st' root v) /\
        forall v', user_addr v' -> translation st' root v' = translation st root v')).
Proof.
  intros T Hv Hf Hg. destruct (get_or_create_ok st root own v T Hv) as (r & st1 & own1 & E1 & G1 & R1).
  unfold paging_map. rewrite E1. cbn [mbind option_bind]. pose proof (gs_tree _ _ _ _ _ G1) as T1.
  destruct r as [[t i]|].
  - destruct R1 as [-> Hw]. destruct (leaf_entry_ok f flags Hf Hg) as (F64 & Fp & Fa). fold (leaf_entry (f * 4096) flags).
    pose proof (proj2 (get_pte_ok st1 root own1 v T1 Hv) t Hw) as Ho.
    destruct (load_ok st1 root own1 t (path v) (PT_INDEX v) T1 Ho (index_range v 12 ltac:(lia))) as (e0 & He0 & _).
    rewrite He0. cbn [mbind option_bind]. set (st2 := if ztrue (Z.land e0 PTE_PRESENT) then _ else _).
    assert (tree st2 root own1 /\ step_ok st1 root own1 st2 own1 /\ walk st2 false root (path v) = Some t /\
      forall v', translation st2 root v' = translation st1 root v') as (T2 & S2 & W2 & TR2).
    { unfold st2. destruct (ztrue _).
      - split; [by apply flush_tree|]. split; [by apply flush_step, step_ok_refl|]. rewrite flush_walk. split; [done|].
        intros v'. apply flush_translation.
      - split; [done|]. split; [by apply step_ok_refl|]. done. }
    destruct (store_leaf_ok st2 root own1 t v (leaf_entry (f * 4096) flags) T2 Hv W2 F64) as (st3 & E3 & _ & L3).
    rewrite E3. cbn [mbind option_bind]. exists 0, (tlb_flush_page st3 v), own1. split; [done|]. split.
    + apply flush_step. eapply step_ok_trans; [by apply grows_step|]. eapply step_ok_trans; [exact S2|]. by eapply leaf_step.
    + left. split; [done|]. split; [done|]. intros v' Hv'. rewrite flush_translation.
      rewrite (leaf_translation st2 root own1 v _ st3 v' t L3 Hv Hv' W2). unfold remap, entry_translation.
      unfold present in Fp. rewrite Fp. case_decide; [done|]. rewrite TR2. by apply (gs_translation _ _ _ _ _ G1).
  - exists (-1), st1, own1. split; [done|]. split; [by apply grows_step|]. right. split; [done|]. split; [done|].
    apply (gs_translation _ _ _ _ _ G1).
Qed.

Lemma paging_unmap_ok st root own v :
  tree st root own -> user_addr v ->
  exists ret st', paging_unmap st root v = Some (ret, st') /\ step_ok st root own st' own /\ frames_of st' = frames_of st /\
    (forall v', user_addr v' -> translation st' root v' = remap (translation st root) v None v') /\
    ((ret = 0 /\ translation st root v ≠ None /\ head (flushed st') = Some v) \/
     (ret = -1 /\ translation st root v = None /\ st' = st)).
Proof.
  intros T Hv. destruct (get_pte_ok st root own v T Hv) as [E1 O1]. unfold paging_unmap, paging_get_pte.
  rewrite E1. cbn [mbind option_bind]. destruct (walk st false root (path v)) as [t|] eqn:Ew; cbn [fmap option_fmap option_map].
  - specialize (O1 t eq_refl).
    destruct (load_ok st root own t (path v) (PT_INDEX v) T O1 (index_range v 12 ltac:(lia))) as (e0 & He0 & _).
    rewrite He0. cbn [mbind option_bind].
    assert (translation st root v = entry_translation e0) as Etr.
    { unfold translation, pte_at. rewrite Ew, He0. done. }
    destruct (ztrue (Z.land e0 PTE_PRESENT)) eqn:Ep; cbn [negb].
    + destruct (store_leaf_ok st root own t v 0 T Hv Ew ltac:(split; lia)) as (st3 & E3 & _ & L3).
      rewrite E3. cbn [mbind option_bind]. exists 0, (tlb_flush_page st3 v). split; [done|].
      split; [apply flush_step; by eapply leaf_step|]. split; [apply L3|]. split.
      * intros v' Hv'. rewrite flush_translation.
        rewrite (leaf_translation st root own v 0 st3 v' t L3 Hv Hv' Ew). done.
      * left. split; [done|]. split; [|done]. rewrite Etr. unfold entry_translation. by rewrite Ep.
    + exists (-1), st. split; [done|]. split; [by apply step_ok_refl|]. split; [done|].
      assert (translation st root v = None) as En by (rewrite Etr; unfold entry_translation; by rewrite Ep).
      split; [|by right]. intros v' Hv'. unfold remap. case_decide as Evp; [|done].
      rewrite <- En. unfold translation, pte_at. destruct (same_page _ _ Evp) as [-> ->]. done.
  - exists (-1), st. split; [done|]. split; [by apply step_ok_refl|]. split; [done|].
    assert (translation st root v = None) as En by (unfold translation, pte_at; by rewrite Ew).
    split; [|by right]. intros v' Hv'. unfold remap. case_decide as Evp; [|done].
    rewrite <- En. unfold translation, pte_at. destruct (same_page _ _ Evp) as [-> ->]. done.
Qed.

Lemma paging_get_phys_ok st root own v :
  tree st root own -> user_addr v ->
  paging_get_phys st root v = Some (match translation st root v with
    | Some e => Z.lor (Z.land e PTE_ADDR_MASK) (Z.land v (PAGE_SIZE - 1))
    | None => u64 (-1) end).
Proof.
  intros T Hv. destruct (get_pte_ok st root own v T Hv) as [E1 O1]. unfold paging_get_phys, paging_get_pte.
  rewrite E1. cbn [mbind option_bind]. unfold translation, pte_at.
  destruct (walk st false root (path v)) as [t|] eqn:Ew; cbn [fmap option_fmap option_map]; [|done].
  specialize (O1 t eq_refl).
  destruct (load_ok st root own t (path v) (PT_INDEX v) T O1 (index_range v 12 ltac:(lia))) as (e0 & He0 & _).
  rewrite He0. cbn [mbind option_bind default]. by destruct (ztrue _).
Qed.

(** ** Ranges of pages *)

Definition space_pages : Z := 2 ^ 35.

Lemma page_user p : 0 <= p < space_pages -> user_addr (p * 4096) /\ vpage (p * 4096) = p.
Proof. unfold space_pages, user_addr, vpage. intros Hp. split; [lia|]. by rewrite Z.div_mul. Qed.

Lemma pages_in_exact p n : 0 <= n -> pages_in (p * 4096) ((p + n) * 4096) = Z.to_nat n.
Proof. intros Hn. unfold pages_in. f_equal. replace (((p + n) * 4096 - p * 4096) + 4095) with (4095 + n * 4096) by lia. divlia. Qed.

(** The translations with the pages from [p] on, [n] of them, replaced by [g]. *)
Definition remap_range (f : Z -> option Z) (p n : Z) (g : Z -> option Z) : Z -> option Z :=
  fun v => if decide (p <= vpage v < p + n) then g v else f v.

Lemma next_page p n : 0 <= p -> 0 <= n -> p + n <= space_pages -> u64 (p * 4096 + PAGE_SIZE) = (p + 1) * 4096.
Proof. intros. rewrite PAGE_SIZE_val. unfold space_pages in *. rewrite u64_small; lia. Qed.

Lemma unmap_loop_ok {R} root own n : forall p st,
  tree st root own -> 0 <= p -> p + Z.of_nat n <= space_pages ->
  exists st', page_loop (R := R) n (p * 4096) ((p + Z.of_nat n) * 4096)
      (fun addr st => '(_, st) ← paging_unmap st root addr; Some (inl st)) st = Some (inl st') /\
    step_ok st root own st' own /\ frames_of st' = frames_of st /\
    forall v, user_addr v ->
      translation st' root v = remap_range (translation st root) p (Z.of_nat n) (fun _ => None) v.
Proof.
  induction n as [|n IH]; intros p st T Hp Hn; cbn [page_loop].
  - rewrite (proj2 (Z.ltb_ge _ _)) by lia. exists st. split; [done|]. split; [by apply step_ok_refl|]. split; [done|].
    intros v _. unfold remap_range. by rewrite decide_False by lia.
  - rewrite (proj2 (Z.ltb_lt _ _)) by lia. destruct (page_user p ltac:(lia)) as [Hv Ev].
    destruct (paging_unmap_ok st root own (p * 4096) T Hv) as (ret & st1 & E1 & S1 & F1 & TR1 & _).
    rewrite E1. cbn [mbind option_bind]. rewrite (next_page p (Z.of_nat (Datatypes.S n))) by lia.
    destruct (IH (p + 1) st1 (so_tree _ _ _ _ _ S1) ltac:(lia) ltac:(lia)) as (st2 & E2 & S2 & F2 & TR2).
    exists st2. split; [rewrite <- E2; do 2 f_equal; lia|]. split; [by eapply step_ok_trans|]. split; [congruence|].
    intros v Hv'. rewrite TR2 by done. unfold remap_range. rewrite TR1 by done. unfold remap. rewrite Ev.
    repeat case_decide; (done || lia).
Qed.

Lemma paging_unmap_range_ok st root own p n :
  tree st root own -> 0 <= p -> 0 <= n -> p + n <= space_pages ->
  exists st', paging_unmap_range st root (p * 4096) (n * 4096) = Some (0, st') /\
    step_ok st root own st' own /\ frames_of st' = frames_of st /\
    forall v, user_addr v -> translation st' root v = remap_range (translation st root) p n (fun _ => None) v.
Proof.
  intros T Hp Hn Hs. unfold paging_unmap_range. cbn zeta.
  rewrite u64_small by (unfold space_pages in *; lia). rewrite <- Z.mul_add_distr_r, pages_in_exact by done.
  destruct (unmap_loop_ok (R := Z) root own (Z.to_nat n) p st T Hp ltac:(lia)) as (st' & E & S' & F' & TR').
  rewrite Z2Nat.id in E, TR' by done. rewrite E. cbn [mbind option_bind]. by exists st'.
Qed.

(** The translations [paging_map_range] sets up. *)
Definition linear (p f flags : Z) : Z -> option Z :=
  fun v => Some (leaf_entry ((f + (vpage v - p)) * 4096) flags).

Definition map_body root (p flags : Z) : Z -> mmu S * Z -> option ((mmu S * Z) + mmu S) :=
  fun addr '(st, phys) =>
    '(ret, st) ← paging_map st root addr phys flags;
    if negb (ret =? 0) then
      r ← page_loop (R := Z) (pages_in (p * 4096) addr) (p * 4096) addr
            (fun rb st => '(_, st) ← paging_unmap st root rb; Some (inl st)) st;
      match r with inl st => Some (inr st) | inr _ => None end
    else Some (inl (st, u64 (phys + PAGE_SIZE))).

Lemma map_body_eq root p flags addr st phys :
  map_body root p flags addr (st, phys) =
  ('(ret, st) ← paging_map st root addr phys flags;
   if negb (ret =? 0) then
     r ← page_loop (R := Z) (pages_in (p * 4096) addr) (p * 4096) addr
           (fun rb st => '(_, st) ← paging_unmap st root rb; Some (inl st)) st;
     match r with inl st => Some (inr st) | inr _ => None end
   else Some (inl (st, u64 (phys + PAGE_SIZE)))).
Proof. reflexivity. Qed.

Lemma map_loop_ok st0 root own0 p f flags m : forall k st own,
  flag_bits flags -> 0 <= p -> 0 <= f -> 0 <= k ->
  p + k + Z.of_nat m <= space_pages -> f + k + Z.of_nat m <= 2 ^ 40 ->
  step_ok st0 root own0 st own ->
  (forall v, user_addr v -> translation st root v = remap_range (translation st0 root) p k (linear p f flags) v) ->
  exists r own', page_loop m ((p + k) * 4096) ((p + k + Z.of_nat m) * 4096) (map_body root p flags)
      (st, (f + k) * 4096) = Some r /\
    match r with
    | inl (st', _) => step_ok st0 root own0 st' own' /\ forall v, user_addr v ->
        translation st' root v = remap_range (translation st0 root) p (k + Z.of_nat m) (linear p f flags) v
    | inr st' => step_ok st0 root own0 st' own' /\ exists j, k <= j < k + Z.of_nat m /\
        forall v, user_addr v -> translation st' root v = remap_range (translation st0 root) p j (fun _ => None) v
    end.
Proof.
  induction m as [|m IH]; intros k st own Hg Hp Hf Hk Hs Hf' S0 TR0; cbn [page_loop].
  - rewrite (proj2 (Z.ltb_ge _ _)) by lia. eexists _, own. split; [done|]. split; [done|]. by rewrite Z.add_0_r.
  - rewrite (proj2 (Z.ltb_lt _ _)) by lia. destruct (page_user (p + k) ltac:(lia)) as [Hv Ev].
    destruct (paging_map_ok st root own ((p + k) * 4096) (f + k) flags (so_tree _ _ _ _ _ S0) Hv ltac:(lia) Hg)
      as (ret & st1 & own1 & E1 & S1 & R1).
    pose proof (step_ok_trans _ _ _ _ _ _ _ S0 S1) as S01.
    rewrite map_body_eq, E1. cbn [mbind option_bind]. destruct R1 as [(-> & _ & TR1)|(-> & _ & TR1)]; cbn [negb Z.eqb].
    + rewrite (next_page (p + k) (Z.of_nat (Datatypes.S m))) by lia. rewrite PAGE_SIZE_val, u64_small by lia.
      destruct (IH (k + 1) st1 own1 Hg Hp Hf ltac:(lia) ltac:(lia) ltac:(lia) S01) as (r & own2 & E2 & R2).
      { intros v Hv'. rewrite TR1 by done. unfold remap, remap_range. rewrite Ev, TR0 by done. unfold remap_range, linear.
        repeat case_decide; try done; try lia. do 3 f_equal. lia. }
      exists r, own2. split.
      { cbn [mbind option_bind]. rewrite <- E2. replace ((f + k) * 4096 + 4096) with ((f + (k + 1)) * 4096) by lia.
        replace (p + k + 1) with (p + (k + 1)) by lia.
        by replace (p + k + Z.of_nat (Datatypes.S m)) with (p + (k + 1) + Z.of_nat m) by lia. }
      destruct r as [[st2 phys2]|st2].
      * destruct R2 as [S2 TR2]. split; [done|]. intros v Hv'. rewrite TR2 by done. f_equal. lia.
      * destruct R2 as (S2 & j & Hj & TR2). split; [done|]. exists j. split; [lia|done].
    + rewrite pages_in_exact by done.
      destruct (unmap_loop_ok (R := Z) root own1 (Z.to_nat k) p st1 (so_tree _ _ _ _ _ S1) Hp ltac:(lia)) as (st2 & E2 & S2 & _ & TR2).
      rewrite Z2Nat.id in E2, TR2 by done. rewrite E2. cbn [mbind option_bind]. exists (inr st2), own1.
      split; [done|]. split; [by eapply step_ok_trans|]. exists k. split; [lia|]. intros v Hv'. rewrite TR2 by done.
      unfold remap_range. rewrite TR1, TR0 by done. unfold remap_range. by case_decide.
Qed.

Lemma paging_map_range_ok st root own p f n flags :
  tree st root own -> flag_bits flags -> 0 <= p -> 0 <= f -> 0 <= n -> p + n <= space_pages -> f + n <= 2 ^ 40 ->
  exists ret st' own', paging_map_range st root (p * 4096) (f * 4096) (n * 4096) flags = Some (ret, st') /\
    step_ok st root own st' own' /\
    ((ret = 0 /\ forall v, user_addr v ->
        translation st' root v = remap_range (translation st root) p n (linear p f flags) v) \/
     (ret = -1 /\ exists j, 0 <= j < n /\ forall v, user_addr v ->
        translation st' root v = remap_range (translation st root) p j (fun _ => None) v)).
Proof.
  intros T Hg Hp Hf Hn Hs Hf'. unfold paging_map_range. cbn zeta.
  rewrite u64_small by (unfold space_pages in *; lia). rewrite <- Z.mul_add_distr_r, pages_in_exact by done.
  destruct (map_loop_ok st root own p f flags (Z.to_nat n) 0 st own Hg Hp Hf ltac:(lia) ltac:(lia) ltac:(lia)) as (r & own' & E & R).
  { by apply step_ok_refl. }
  { intros v _. unfold remap_range. by rewrite decide_False by lia. }
  rewrite !Z2Nat.id, !Z.add_0_r in E by done. rewrite Z2Nat.id in R by done. unfold map_body in E. rewrite E. cbn [mbind option_bind].
  destruct r as [[st' ph]|st'].
  - destruct R as [S' TR']. exists 0, st', own'. split; [done|]. split; [done|]. by left.
  - destruct R as (S' & j & Hj & TR'). exists (-1), st', own'. split; [done|]. split; [done|]. right. split; [done|].
    by exists j.
Qed.

End proofs.
