(* ===== verification/PagingSpace.v ===== *)
(** * Creating and destroying page tables (kernel/arch/x86_64/mm/paging.c)

    [paging_create_pml4] gives an empty user half below a copy of the kernel half;
    [paging_destroy_pml4] gives back every table of the user half once, and no other page. *)
From S2P Require Import Prelude Defs Paging.

#[local] Set Default Proof Using "All".

Section proofs.
Context {S : Type} `{PA : PageAllocator S} {PAL : PageAllocatorLaws S}.
Implicit Types (st : mmu S) (own : gmap Z (list Z)).

(** ** The tables below a table *)

Definition child st (h : bool) (t i : Z) : option Z :=
  e ← load st t i;
  if ztrue (Z.land e PTE_PRESENT) && negb (h && ztrue (Z.land e PTE_HUGE)) then Some (target st e) else None.

(** The tables of the [n] entries of [t] from entry [i] on. *)
Fixpoint children st (h : bool) (t : Z) (n : nat) (i : Z) : list Z :=
  match n with
  | O => []
  | Datatypes.S n => match child st h t i with Some c => [c] | None => [] end ++ children st h t n (i + 1)
  end.

(** The tables from [t] down [d] levels, in the order in which they are freed. *)
Fixpoint subtree st (d : nat) (h : bool) (n : nat) (t : Z) : list Z :=
  match d with
  | O => [t]
  | Datatypes.S d => concat (subtree st d true 512 <$> children st h t n 0) ++ [t]
  end.

Definition tables st (root : Z) : list Z := subtree st 3 false 256 root.

Lemma child_own st root own t q i c :
  tree st root own -> own !! t = Some q -> (length q < 3)%nat -> (q = [] -> i < 256) ->
  child st (bool_decide (q ≠ [])) t i = Some c -> own !! c = Some (q ++ [i]).
Proof.
  intros T Ht Hl Hi. unfold child. destruct (load st t i) as [e|] eqn:Ee; [|done]. cbn [mbind option_bind].
  destruct (ztrue (Z.land e PTE_PRESENT)) eqn:Ep; cbn [andb]; [|done].
  destruct (bool_decide (q ≠ []) && _) eqn:Eh; cbn [negb]; [done|]. intros [= <-].
  apply (tr_entry _ _ _ T t q i e); try done. destruct (decide (q = [])) as [|Hne]; [by left|right].
  intros Hu. unfold is_huge in Hu. rewrite Hu, bool_decide_true in Eh by done. done.
Qed.

Lemma children_elem st h t n : forall i c,
  c ∈ children st h t n i <-> exists j, i <= j < i + Z.of_nat n /\ child st h t j = Some c.
Proof.
  induction n as [|n IH]; intros i c; cbn [children].
  - split; [intros H; inversion H|intros (j & Hj & _); lia].
  - rewrite elem_of_app, IH. split.
    + intros [Hc|(j & Hj & E)]; [|exists j; split; [lia|done]]. exists i. split; [lia|].
      destruct (child st h t i); [|inversion Hc]. by apply list_elem_of_singleton in Hc as ->.
    + intros (j & Hj & E). destruct (decide (j = i)) as [->|Hne].
      * left. rewrite E. by apply list_elem_of_singleton.
      * right. exists j. split; [lia|done].
Qed.

(** Every table of the subtree of [t] has a path that extends the path of [t]. *)
Lemma subtree_own st root own d : forall q t n x,
  tree st root own -> own !! t = Some q -> (length q + d <= 3)%nat -> (q = [] -> n <= 256)%nat ->
  x ∈ subtree st d (bool_decide (q ≠ [])) n t -> exists s, own !! x = Some (q ++ s).
Proof.
  induction d as [|d IH]; intros q t n x T Ht Hl Hn; cbn [subtree].
  - rewrite list_elem_of_singleton. intros ->. exists []. by rewrite app_nil_r.
  - rewrite elem_of_app, list_elem_of_singleton. intros [Hx| ->]; [|exists []; by rewrite app_nil_r].
    apply list_elem_of_In, in_concat in Hx as (l & Hl' & Hx).
    apply list_elem_of_In, list_elem_of_fmap in Hl' as (c & -> & Hc). apply list_elem_of_In in Hx.
    apply children_elem in Hc as (j & Hj & Ec). assert (q = [] -> j < 256) by (intros E; specialize (Hn E); lia).
    pose proof (child_own st root own t q j c T Ht ltac:(lia) ltac:(done) Ec) as Hoc.
    assert (q ++ [j] ≠ []) as Hne by (by destruct q). destruct (IH (q ++ [j]) c 512%nat x T Hoc) as [s Hs].
    + rewrite length_app. simpl. lia.
    + done.
    + by rewrite bool_decide_true.
    + exists (j :: s). by rewrite <- app_assoc in Hs.
Qed.

Lemma subtree_children_NoDup st root own d q t n0 : forall n i,
  (forall c j, own !! c = Some (q ++ [j]) -> NoDup (subtree st d true 512 c)) ->
  tree st root own -> own !! t = Some q -> (length q + Datatypes.S d <= 3)%nat -> (q = [] -> n0 <= 256)%nat ->
  0 <= i -> i + Z.of_nat n <= Z.of_nat n0 ->
  NoDup (concat (subtree st d true 512 <$> children st (bool_decide (q ≠ [])) t n i)) /\
  forall x, x ∈ concat (subtree st d true 512 <$> children st (bool_decide (q ≠ [])) t n i) ->
    exists j s, i <= j /\ own !! x = Some (q ++ j :: s).
Proof.
  induction n as [|n IHn]; intros i IH T Ht Hl Hn0 Hi Hn; cbn [children].
  - split; [constructor|intros x H; inversion H].
  - destruct (IHn (i + 1) IH T Ht Hl Hn0 ltac:(lia) ltac:(lia)) as [ND HO].
    destruct (child st (bool_decide (q ≠ [])) t i) as [c|] eqn:Ec; cbn [app fmap list_fmap concat].
    2: { split; [done|]. intros x Hx. destruct (HO x Hx) as (j & s & Hj & E). exists j, s. split; [lia|done]. }
    assert (q = [] -> i < 256) by (intros E; specialize (Hn0 E); lia).
    pose proof (child_own st root own t q i c T Ht ltac:(lia) ltac:(done) Ec) as Hoc.
    assert (forall x, x ∈ subtree st d true 512 c -> exists s, own !! x = Some (q ++ i :: s)) as HC.
    { intros x Hx. assert (q ++ [i] ≠ []) as Hne by (by destruct q).
      destruct (subtree_own st root own d (q ++ [i]) c 512%nat x T Hoc) as [s Hs].
      - rewrite length_app. simpl. lia.
      - done.
      - by rewrite bool_decide_true.
      - exists s. by rewrite <- app_assoc in Hs. }
    split.
    + apply NoDup_app. split; [by apply (IH c i)|]. split; [|exact ND]. intros x Hx Hx'.
      destruct (HC x Hx) as [s Es]. destruct (HO x Hx') as (j & s' & Hj & Es'). rewrite Es in Es'.
      injection Es' as E. apply app_inv_head in E. injection E. lia.
    + intros x. rewrite elem_of_app. intros [Hx|Hx].
      * destruct (HC x Hx) as [s Es]. exists i, s. split; [lia|done].
      * destruct (HO x Hx) as (j & s & Hj & E). exists j, s. split; [lia|done].
Qed.

Lemma subtree_NoDup st root own d : forall q t n,
  tree st root own -> own !! t = Some q -> (length q + d <= 3)%nat -> (q = [] -> n <= 256)%nat ->
  NoDup (subtree st d (bool_decide (q ≠ [])) n t).
Proof.
  induction d as [|d IH]; intros q t n T Ht Hl Hn; cbn [subtree]; [apply NoDup_singleton|].
  destruct (subtree_children_NoDup st root own d q t n n 0) as [ND HO]; try done; try lia.
  { intros c j Hc. assert (q ++ [j] ≠ []) as Hne by (by destruct q).
    rewrite <- (bool_decide_true (q ++ [j] ≠ [])) by done. apply IH; try done. rewrite length_app. simpl. lia. }
  apply NoDup_app. split; [done|]. split; [|apply NoDup_singleton]. intros x Hx. rewrite list_elem_of_singleton. intros ->.
  destruct (HO t Hx) as (j & s & _ & E). rewrite Ht in E. injection E as E.
  apply (f_equal length) in E. rewrite length_app in E. simpl in E. lia.
Qed.

(** ** Freeing *)

(** [st] is [st0] with the pages of [L] given back. *)
Record freed st0 (L : list Z) st : Prop := {
  fr_ok : pa_ok (frames_of st);
  fr_mem : mem st = mem st0;
  fr_same : same_memory (frames_of st0) (frames_of st);
  fr_free : forall f, pa_free (frames_of st) f <-> pa_free (frames_of st0) f \/ hhdm_page (frames_of st0) f ∈ L;
  fr_rest : kernel_pml4 st = kernel_pml4 st0 /\ flushed st = flushed st0 /\ cr3 st = cr3 st0
}.

Lemma freed_load st0 L st t i : freed st0 L st -> load st t i = load st0 t i.
Proof. intros [_ E _ _ _]. unfold load. by rewrite E. Qed.

Lemma freed_child st0 L st h t i : freed st0 L st -> child st h t i = child st0 h t i.
Proof.
  intros F. unfold child. rewrite (freed_load st0 L st t i F). destruct (load st0 t i); [|done]. cbn [mbind option_bind].
  by rewrite (target_same st0 st _ (fr_same _ _ _ F)).
Qed.

Lemma free_pt_page_ok st0 L st t :
  freed st0 L st -> held_page (frames_of st0) t -> t ∉ L ->
  exists st', free_pt_page st t = Some st' /\ freed st0 (L ++ [t]) st'.
Proof.
  intros [A1 A2 A3 A4 A5] (f & -> & Hm & Hf) Hn.
  destruct (pa_put_ok (frames_of st) f A1) as (s' & E & B1 & B2 & B3).
  - by apply (sm_managed _ _ A3).
  - intros [?|?]%A4; done.
  - assert (hhdm_page (frames_of st) f = hhdm_page (frames_of st0) f) as Eh
      by (unfold hhdm_page; by rewrite (sm_hhdm _ _ A3)).
    unfold free_pt_page. rewrite <- Eh, E. cbn [mbind option_bind]. eexists. split; [done|]. split; cbn [frames_of mem with_frames_of].
    + done.
    + done.
    + by eapply same_memory_trans.
    + intros q. rewrite B3, A4, elem_of_app, list_elem_of_singleton. unfold hhdm_page. rewrite (sm_hhdm _ _ A3).
      split; [intros [[?|?]| ->]; auto|intros [?|[?|E']]; auto]. right. lia.
    + done.
Qed.

(** A loop that gives back the subtrees of the entries of [t]. *)
Lemma free_loop_ok st0 h t body (sub : Z -> list Z) n : forall i L st,
  (forall j L st, freed st0 L st -> i <= j < i + Z.of_nat n ->
    match child st0 h t j with
    | Some c => NoDup (L ++ sub c) -> exists st', body j st = Some st' /\ freed st0 (L ++ sub c) st'
    | None => body j st = Some st
    end) ->
  freed st0 L st -> NoDup (L ++ concat (sub <$> children st0 h t n i)) ->
  exists st', for_range n i body st = Some st' /\ freed st0 (L ++ concat (sub <$> children st0 h t n i)) st'.
Proof.
  induction n as [|n IH]; intros i L st Hb F ND; cbn [children for_range].
  - exists st. by rewrite app_nil_r.
  - cbn [children] in ND. pose proof (Hb i L st F ltac:(lia)) as Hi.
    destruct (child st0 h t i) as [c|] eqn:Ec; cbn [app fmap list_fmap concat] in *.
    + rewrite (assoc_L (++)) in ND |- *. destruct Hi as (st1 & -> & F1); [by apply NoDup_app in ND as [? _]|].
      cbn [mbind option_bind]. apply IH; [|done|done]. intros j L' st' F' Hj. apply Hb; [done|lia].
    + rewrite Hi. cbn [mbind option_bind]. apply IH; [|done|done]. intros j L' st' F' Hj. apply Hb; [done|lia].
Qed.

Section destroy.
Variables (st0 : mmu S) (root : Z) (own : gmap Z (list Z)).
Hypothesis T : tree st0 root own.

(** One level: the subtrees of the entries of [t], then [t] itself. *)
Lemma destroy_level_ok (next : mmu S -> Z -> option (mmu S)) d q t n (test : Z -> bool) L st :
  (forall c j L st, own !! c = Some (q ++ [j]) -> freed st0 L st -> NoDup (L ++ subtree st0 d true 512 c) ->
    exists st', next st c = Some st' /\ freed st0 (L ++ subtree st0 d true 512 c) st') ->
  (forall e, test e = ztrue (Z.land e PTE_PRESENT) && negb (bool_decide (q ≠ []) && ztrue (Z.land e PTE_HUGE))) ->
  own !! t = Some q -> (length q < 3)%nat -> (n <= 512)%nat -> (q = [] -> n <= 256)%nat ->
  freed st0 L st -> NoDup (L ++ subtree st0 (Datatypes.S d) (bool_decide (q ≠ [])) n t) ->
  exists st', (st ← for_range n 0 (fun k st => e ← load st t k;
      if test e then next st (phys_to_virt_local st (Z.land e PTE_ADDR_MASK)) else Some st) st;
      free_pt_page st t) = Some st' /\
    freed st0 (L ++ subtree st0 (Datatypes.S d) (bool_decide (q ≠ [])) n t) st'.
Proof.
  intros Hnext Htest Ht Hl Hn Hn' F ND. cbn [subtree] in *. rewrite (assoc_L (++)) in ND |- *.
  destruct (free_loop_ok st0 (bool_decide (q ≠ [])) t (fun k st => e ← load st t k;
      if test e then next st (phys_to_virt_local st (Z.land e PTE_ADDR_MASK)) else Some st)
      (subtree st0 d true 512) n 0 L st) as (st1 & -> & F1); [|done|by apply NoDup_app in ND as [? _]|].
  - intros j L' st' F' Hj. destruct (load_ok st0 root own t q j T Ht ltac:(lia)) as (e & He & _).
    rewrite (freed_load _ _ _ _ _ F').
    assert (q = [] -> j < 256) as Hj' by (intros E; specialize (Hn' E); lia).
    pose proof (child_own st0 root own t q j (target st0 e) T Ht ltac:(lia) Hj') as Ho.
    unfold child in *. rewrite He in *. cbn [mbind option_bind] in *. rewrite Htest.
    destruct (_ && _); [|done]. intros ND'. fold (target st' e).
    rewrite (target_same st0 st' e (fr_same _ _ _ F')). by apply (Hnext _ j); [apply Ho|..].
  - cbn [mbind option_bind]. apply free_pt_page_ok; [done|apply (tr_table _ _ _ T _ _ Ht)|].
    apply NoDup_app in ND as (_ & Hd & _). intros Hin. by apply (Hd _ Hin), list_elem_of_singleton.
Qed.

Lemma destroy_pd_ok L st t q :
  own !! t = Some q -> length q = 2%nat -> freed st0 L st -> NoDup (L ++ subtree st0 1 true 512 t) ->
  exists st', destroy_pd st t = Some st' /\ freed st0 (L ++ subtree st0 1 true 512 t) st'.
Proof.
  intros Ht Hl F ND. assert (bool_decide (q ≠ []) = true) as Hq by (apply bool_decide_true; by destruct q).
  rewrite <- Hq in ND |- *. apply destroy_level_ok; try done; try lia.
  - intros c j L' st' Hc F' ND'. cbn [subtree] in *. apply free_pt_page_ok; [done|apply (tr_table _ _ _ T _ _ Hc)|].
    apply NoDup_app in ND' as (_ & Hd & _). intros Hin. by apply (Hd _ Hin), list_elem_of_singleton.
  - intros e. by rewrite Hq.
  - intros ->. done.
Qed.

Lemma destroy_pdpt_ok L st t q :
  own !! t = Some q -> length q = 1%nat -> freed st0 L st -> NoDup (L ++ subtree st0 2 true 512 t) ->
  exists st', destroy_pdpt st t = Some st' /\ freed st0 (L ++ subtree st0 2 true 512 t) st'.
Proof.
  intros Ht Hl F ND. assert (bool_decide (q ≠ []) = true) as Hq by (apply bool_decide_true; by destruct q).
  rewrite <- Hq in ND |- *. apply destroy_level_ok; try done; try lia.
  - intros c j L' st' Hc F' ND'. apply (destroy_pd_ok L' st' c (q ++ [j])); try done. rewrite length_app. simpl. lia.
  - intros e. by rewrite Hq.
  - intros ->. done.
Qed.

Lemma destroy_pml4_ok L st :
  root ≠ 0 -> freed st0 L st -> NoDup (L ++ tables st0 root) ->
  exists st', paging_destroy_pml4 st root = Some st' /\ freed st0 (L ++ tables st0 root) st'.
Proof.
  intros H0 F ND. unfold paging_destroy_pml4. rewrite (proj2 (Z.eqb_neq _ 0) H0).
  assert (bool_decide ([] ≠ ([] : list Z)) = false) as Hq by (apply bool_decide_false; intros X; by apply X).
  pose proof (tr_root _ _ _ T) as Hr. unfold tables in *. rewrite <- Hq in ND |- *.
  apply destroy_level_ok; try done; try (simpl; lia).
  - intros c j L' st' Hc F' ND'. by apply (destroy_pdpt_ok L' st' c [j]).
  - intros e. rewrite Hq. by rewrite andb_true_r.
Qed.

Lemma freed_nil : freed st0 [] st0.
Proof. split; try done; [apply T|]. intros f. split; [by left|]. intros [?|H]; [done|inversion H]. Qed.

Lemma tables_NoDup : NoDup (tables st0 root).
Proof. apply (subtree_NoDup st0 root own 3 [] root 256); [done|apply T|simpl; lia|done]. Qed.

End destroy.
(** The tables given back are the ones a walk from the root meets. *)
Lemma subtree_walk st d : forall h n t x, (n <= 512)%nat ->
  x ∈ subtree st d h n t <-> exists q, (length q <= d)%nat /\ Forall (fun i => 0 <= i < 512) q /\
    (forall j, head q = Some j -> j < Z.of_nat n) /\ walk st h t q = Some x.
Proof.
  induction d as [|d IH]; intros h n t x Hn; cbn [subtree].
  - rewrite list_elem_of_singleton. split.
    + intros ->. exists []. by split.
    + intros ([|i q] & Hl & _ & _ & E); [cbn in E; congruence|simpl in Hl; lia].
  - rewrite elem_of_app, list_elem_of_singleton. split.
    + intros [Hx| ->]; [|exists []; split; [simpl; lia|by split]].
      apply list_elem_of_In, in_concat in Hx as (l & Hl' & Hx).
      apply list_elem_of_In, list_elem_of_fmap in Hl' as (c & -> & Hc). apply list_elem_of_In in Hx.
      apply children_elem in Hc as (j & Hj & Ec). apply IH in Hx as (q & Lq & Fq & _ & Ew); [|lia].
      exists (j :: q). split; [simpl; lia|]. split; [constructor; [lia|done]|]. split; [intros ? [= <-]; lia|].
      unfold child in Ec. cbn [walk]. destruct (load st t j); [|done]. cbn [mbind option_bind] in *.
      destruct (_ && _); [|done]. injection Ec as ->. done.
    + intros ([|j q] & Lq & Fq & Hh & Ew); [right; cbn in Ew; congruence|left].
      cbn [walk] in Ew. destruct (load st t j) as [e|] eqn:Ee; [|done]. cbn [mbind option_bind] in Ew.
      destruct (_ && _) eqn:Eb; [|done]. apply Forall_cons in Fq as [Hj Fq].
      apply list_elem_of_In, in_concat. exists (subtree st d true 512 (target st e)). split.
      * apply list_elem_of_In, list_elem_of_fmap. exists (target st e). split; [done|]. apply children_elem.
        exists j. split; [specialize (Hh j eq_refl); lia|]. unfold child. rewrite Ee. cbn [mbind option_bind]. by rewrite Eb.
      * apply list_elem_of_In, IH; [lia|]. exists q. split; [simpl in Lq; lia|]. split; [done|]. split; [|done].
        intros k Hk. destruct q; [done|]. injection Hk as ->. apply Forall_cons in Fq as [? _]. lia.
Qed.

Lemma tables_walk st root x :
  x ∈ tables st root <-> exists q, user_path q /\ walk st false root q = Some x.
Proof.
  unfold tables. rewrite (subtree_walk st 3 false 256 root x ltac:(lia)). unfold user_path.
  split; intros (q & Hq); exists q; tauto.
Qed.

(** ** A new PML4 *)

Lemma copy_loop_ok st root lk : forall n i st1,
  mem st1 !! kernel_pml4 st = Some lk -> table_words lk -> kernel_pml4 st1 = kernel_pml4 st -> root ≠ kernel_pml4 st ->
  0 <= i -> i + Z.of_nat n <= 512 ->
  forall l, mem st1 !! root = Some l -> table_words l ->
  exists st2 l2, for_range n i (fun i st => e ← load st (kernel_pml4 st) i; store st root i e) st1 = Some st2 /\
    st2 = with_mem st1 (<[root := l2]> (mem st1)) /\ table_words l2 /\
    forall j, zget l2 j = if decide (i <= j < i + Z.of_nat n) then zget lk j else zget l j.
Proof.
  induction n as [|n IH]; intros i st1 Hk Wk Ek Hne Hi Hn l Hl Wl; cbn [for_range].
  - exists st1, l. split; [done|]. split; [|split; [done|intros j; by rewrite decide_False by lia]].
    rewrite insert_id by done. by destruct st1.
  - destruct (proj2 (zget_Some lk i)) as [e He]; [destruct Wk as [-> _]; lia|].
    assert (load st1 (kernel_pml4 st1) i = Some e) as -> by (unfold load; rewrite Ek, Hk; exact He). cbn [mbind option_bind].
    assert (fits 64 e) as Fe.
    { apply zget_lookup in He as [_ He]. destruct Wk as [_ Fk]. by eapply Forall_lookup_1. }
    destruct (zset_words l i e Wl ltac:(lia) Fe) as (l1 & E1 & W1 & G1).
    assert (store st1 root i e = Some (with_mem st1 (<[root := l1]> (mem st1)))) as ->
      by (unfold store; rewrite Hl; cbn [mbind option_bind]; by rewrite E1).
    cbn [mbind option_bind].
    destruct (IH (i + 1) (with_mem st1 (<[root := l1]> (mem st1)))) with (l := l1) as (st2 & l2 & E2 & -> & W2 & G2); try done; try lia.
    { cbn [mem with_mem]. by rewrite lookup_insert_ne. }
    { cbn [mem with_mem]. by rewrite lookup_insert_eq. }
    eexists _, l2. split; [exact E2|]. cbn [mem with_mem]. rewrite insert_insert_eq. split; [done|]. split; [done|].
    intros j. rewrite G2, G1. repeat case_decide; try done; try lia. by subst.
Qed.

(** Kernel tables are not pages of the allocator. *)
Definition kernel_tables st (lk : list Z) : Prop :=
  mem st !! kernel_pml4 st = Some lk /\ table_words lk /\ kernel_pml4 st ≠ 0 /\
  forall f, pa_free (frames_of st) f -> hhdm_page (frames_of st) f ≠ kernel_pml4 st.

Lemma empty_tree st root l :
  pa_ok (frames_of st) -> held_page (frames_of st) root -> mem st !! root = Some l -> table_words l ->
  (forall j, 0 <= j < 256 -> zget l j = Some 0) ->
  tree st root {[root := []]} /\ forall v, user_addr v -> translation st root v = None.
Proof.
  intros Hok Hh Hl Wl Hz. split.
  - split; [done|by rewrite lookup_singleton_eq| |].
    + intros t p [<- <-]%lookup_singleton_Some. split; [simpl; lia|]. split; [done|]. by exists l.
    + intros t p i e [<- <-]%lookup_singleton_Some _ Hi He. unfold load in He. rewrite Hl in He. cbn [mbind option_bind] in He.
      pose proof (zget_range _ _ _ He). rewrite Hz in He by (specialize (Hi eq_refl); lia). injection He as <-.
      by intros ?%not_present_0.
  - intros v Hv. unfold translation, pte_at. cbn [path walk].
    pose proof (pml4_user v Hv). pose proof (index_range v 39 ltac:(lia)) as Hi. fold (PML4_INDEX v) in Hi.
    assert (load st root (PML4_INDEX v) = Some 0) as -> by (unfold load; rewrite Hl; cbn [mbind option_bind]; apply Hz; lia).
    done.
Qed.

Lemma create_pml4_ok st lk :
  pa_ok (frames_of st) -> kernel_tables st lk ->
  (paging_create_pml4 st = Some (0, st) /\ exhausted st) \/
  exists root st', paging_create_pml4 st = Some (root, st') /\ root ≠ 0 /\
    tree st' root {[root := []]} /\ (forall v, user_addr v -> translation st' root v = None) /\
    (forall i, 256 <= i < 512 -> load st' root i = zget lk i) /\
    (forall t, t ≠ root -> mem st' !! t = mem st !! t) /\
    (exists f, root = hhdm_page (frames_of st) f /\ pa_free (frames_of st) f /\
      forall q, pa_free (frames_of st') q <-> pa_free (frames_of st) q /\ q ≠ f) /\
    same_memory (frames_of st) (frames_of st').
Proof.
  intros Hok (Hk & Wk & Hk0 & Hfr). unfold paging_create_pml4.
  destruct (alloc_pt_page_ok st Hok) as [[-> Hex]|(f & s' & -> & Hn0 & Hok' & HS & Hm & Hf & Hq)]; cbn [mbind option_bind].
  { left. by split. }
  right. rewrite (proj2 (Z.eqb_neq _ 0) Hn0). cbn [kernel_pml4 with_mem with_frames_of].
  rewrite (proj2 (Z.eqb_neq _ 0) Hk0). cbn [negb]. specialize (Hfr f Hf). set (root := hhdm_page (frames_of st) f) in *.
  set (st1 := with_mem _ _).
  destruct (copy_loop_ok st1 root lk 256 256 st1) with (l := zero_page) as (st2 & l2 & -> & -> & W2 & G2);
    [by cbn; rewrite lookup_insert_ne|done|done|done|lia|lia|by cbn; rewrite lookup_insert_eq|
     split; [done|by apply Forall_replicate]|].
  cbn [mbind option_bind]. eexists root, _. split; [done|]. split; [done|]. cbn [mem with_mem st1 frames_of with_frames_of].
  rewrite insert_insert_eq.
  destruct (empty_tree (with_mem st1 (<[root:=l2]> (mem st))) root l2) as [TR TN].
  { done. }
  { exists f. split; [unfold root, hhdm_page; cbn; by rewrite (sm_hhdm _ _ HS)|]. split; [by apply (sm_managed _ _ HS)|].
    intros [_ ?]%Hq. done. }
  { cbn. by rewrite lookup_insert_eq. }
  { done. }
  { intros j Hj. rewrite G2, decide_False by lia. unfold zget, zero_page. rewrite (decide_True (P := 0 <= j)) by lia.
    apply lookup_replicate_2. lia. }
  split; [exact TR|]. split; [exact TN|]. split.
  { intros i Hi. unfold load. cbn. rewrite lookup_insert_eq. cbn. rewrite G2. by rewrite decide_True by lia. }
  split; [intros t Ht; by rewrite lookup_insert_ne|]. split; [|done]. by exists f.
Qed.

Lemma store_rest st t i e st' :
  store st t i e = Some st' -> kernel_pml4 st' = kernel_pml4 st /\ cr3 st' = cr3 st.
Proof.
  unfold store. destruct (mem st !! t) as [l|]; [|done]. cbn [mbind option_bind]. destruct (zset l i e); [|done].
  by intros [= <-].
Qed.

Lemma create_pml4_rest st r st' :
  paging_create_pml4 st = Some (r, st') -> kernel_pml4 st' = kernel_pml4 st /\ cr3 st' = cr3 st.
Proof.
  unfold paging_create_pml4. destruct (alloc_pt_page st) as [[p st1]|] eqn:E1; [|done]. cbn [mbind option_bind].
  assert (kernel_pml4 st1 = kernel_pml4 st /\ cr3 st1 = cr3 st) as [K1 C1].
  { unfold alloc_pt_page in E1. destruct (simple_get_free_page _) as [[q s]|]; [|done]. cbn [mbind option_bind] in E1.
    injection E1 as <- <-. by destruct (negb _). }
  destruct (p =? 0); [intros [= <- <-]; done|]. destruct (negb (kernel_pml4 st1 =? 0)); [|intros [= <- <-]; done].
  assert (forall n i s s', for_range n i (fun i st => e ← load st (kernel_pml4 st) i; store st p i e) s = Some s' ->
    kernel_pml4 s' = kernel_pml4 s /\ cr3 s' = cr3 s) as HL.
  { induction n as [|n IH]; intros i s s'; cbn [for_range]; [by intros [= <-]|].
    destruct (load s (kernel_pml4 s) i) as [e|]; [|done]. cbn [mbind option_bind].
    destruct (store s p i e) as [s1|] eqn:E; [|done]. cbn [mbind option_bind]. intros H'. apply IH in H' as [-> ->].
    by apply store_rest in E. }
  destruct (for_range _ _ _ st1) as [st2|] eqn:E2; [|done]. cbn [mbind option_bind]. intros [= <- <-].
  apply HL in E2 as [-> ->]. done.
Qed.

End proofs.
