(* ===== verification/PagingPmm.v ===== *)
(** * Paging over the physical memory manager

    The page allocator that paging.c calls is Pmm.v's: its [simple_get_free_page] and
    [simple_free_page] satisfy the laws that Paging.v and PagingSpace.v rely on.  The theorems
    about paging.c are stated here for any allocator with the laws and witnessed on a machine
    of 64 free page frames. *)
From S2P Require Import Prelude Defs Buddy Pmm Paging PagingSpace.

(** ** The page frames the manager hands out *)

Definition frame_managed (s : pmm_state) (f : Z) : Prop :=
  0 <= f < page_array_pfns s /\ pmm_covered s f.

(** A booted machine: the direct map and the page array lie below 2^64 and 2^52 bytes, and the zones that
    have free pages are covered by the page array. *)
Record machine_ok (s : pmm_state) : Prop := {
  mo_inv : pmm_inv s;
  mo_init : initialized s = true;
  mo_hhdm : 0 < hhdm_offset s < 2 ^ 64 /\ hhdm_offset s mod 4096 = 0;
  mo_top : hhdm_offset s + page_array_pfns s * 4096 <= 2 ^ 64;
  mo_pfns : page_array_pfns s <= 2 ^ 40;
  mo_covered : forall q, pmm_free_at s q -> frame_managed s q
}.

#[export] Instance pmm_allocator : PageAllocator pmm_state := {|
  Paging.simple_get_free_page := Pmm.simple_get_free_page;
  Paging.simple_free_page := Pmm.simple_free_page;
  boot_hhdm := hhdm_offset;
  pa_ok := machine_ok;
  pa_free := pmm_free_at;
  pa_managed := frame_managed
|}.

Lemma pmm_free_frame st pg o st' :
  pmm_free_block st pg o = Some st' ->
  hhdm_offset st' = hhdm_offset st /\ page_array_pfns st' = page_array_pfns st.
Proof.
  unfold pmm_free_block. destruct pg as [p|]; [|by intros [= <-]].
  destruct (initialized st); cbn [negb]; [|by intros [= <-]]. intros E. inv_bind E.
  match type of E with (let '(_, _) := ?r in _) = _ => destruct r end. inv_bind E. by injection E as <-.
Qed.

(** A frame in the page array lies in a block of order 0 of its zone. *)
Lemma frame_block st f : pmm_inv st -> 0 <= f < page_array_pfns st -> pmm_block st f 0.
Proof.
  intros Hinv Hf. rewrite (pi_pfns _ Hinv) in Hf.
  destruct (zone_exists st (pfn_to_zone_type f) Hinv (zone_type_range f)) as [z Hz].
  exists z. split; [done|]. destruct (pi_bounds _ Hinv _ _ Hz) as [E1 E2].
  pose proof (zi_bounds _ _ (pi_zone _ Hinv _ _ Hz)) as [B1 B2]. split; [unfold MAX_ORDER; lia|].
  unfold zone_limit, zone_lo, zone_hi in *. rewrite (pi_pfns _ Hinv) in E2.
  change (PHYS_TO_PFN ZONE_DMA_END) with 4096 in *. change (PHYS_TO_PFN ZONE_DMA32_END) with 1048576 in *.
  destruct (zone_type_cases f) as [[? Et]|[[? Et]|[[? Et]|?]]]; [..|lia]; rewrite Et in *; simpl in *;
    (split; [lia|]; split; [lia|apply Z.divide_1_l]).
Qed.

Lemma in_block_0 p q : in_block p 0 q <-> q = p.
Proof. unfold in_block. lia. Qed.

Lemma frame_address s f : machine_ok s -> 0 <= f < page_array_pfns s ->
  phys_to_virt s (page_to_phys f) = f * 4096 + hhdm_offset s /\ f * 4096 + hhdm_offset s < 2 ^ 64.
Proof.
  intros [Hinv _ [H1 _] H2 H3 _] Hf. unfold phys_to_virt, page_to_phys. rewrite PFN_TO_PHYS_mul by lia.
  split; [apply u64_small|]; lia.
Qed.

Lemma pmm_get_ok s : machine_ok s ->
  Pmm.simple_get_free_page s = Some (0, s) \/
  exists f s', Pmm.simple_get_free_page s = Some (f * 4096 + hhdm_offset s, s') /\ machine_ok s' /\
    (hhdm_offset s' = hhdm_offset s /\ page_array_pfns s' = page_array_pfns s) /\
    frame_managed s f /\ pmm_free_at s f /\ forall q, pmm_free_at s' q <-> pmm_free_at s q /\ q ≠ f.
Proof.
  intros Hok. pose proof Hok as [Hinv Hini Hh Ht Hp Hc].
  unfold Pmm.simple_get_free_page, get_free_page, get_free_pages.
  destruct (alloc_pages_ok s 0 GFP_KERNEL Hinv Hini ltac:(unfold MAX_ORDER; lia)) as
    [(i & p & s2 & -> & _ & _ & _ & [T1 _ _ T4 T5 (_ & T7 & T8 & T9)] & _)|[-> _]]; cbn [mbind option_bind]; [|by left].
  right. exists p, s2. assert (pmm_free_at s p) as Hf by (apply T4; by apply in_block_0).
  pose proof (Hc p Hf) as Hm. assert (forall q, frame_managed s2 q <-> frame_managed s q) as Hms.
  { intros q. unfold frame_managed, pmm_covered, zone_hi. by rewrite T9. }
  split; [unfold phys_to_virt; rewrite T7; fold (phys_to_virt s (page_to_phys p));
          by rewrite (proj1 (frame_address s p Hok (proj1 Hm)))|].
  split; [split; [done|congruence|by rewrite T7|by rewrite T7, T9|by rewrite T9|intros q [? _]%T5; by apply Hms, Hc]|].
  split; [done|]. split; [done|]. split; [done|]. intros q. by rewrite T5, in_block_0.
Qed.

Lemma pmm_put_ok s f : machine_ok s -> frame_managed s f -> ~ pmm_free_at s f ->
  exists s', Pmm.simple_free_page s (f * 4096 + hhdm_offset s) = Some s' /\ machine_ok s' /\
    (hhdm_offset s' = hhdm_offset s /\ page_array_pfns s' = page_array_pfns s) /\
    forall q, pmm_free_at s' q <-> pmm_free_at s q \/ q = f.
Proof.
  intros Hok [Hf Hcov] Hn. pose proof Hok as [Hinv Hini [Hh Hal] Ht Hp Hc].
  unfold Pmm.simple_free_page. rewrite (proj2 (Z.eqb_neq _ 0)) by lia.
  destruct (frame_address s f Hok Hf) as [Ea _]. rewrite <- Ea, virt_to_page_phys by lia. unfold pmm_free_page.
  destruct (pmm_free_ok s f 0 Hinv Hini (frame_block s f Hinv Hf) Hcov) as (s' & E & I' & Hi' & F').
  { intros q ->%in_block_0. done. }
  exists s'. destruct (pmm_free_frame _ _ _ _ E) as [E1 E2]. split; [done|]. split; [|split; [done|]].
  - split; [done|done|by rewrite E1|by rewrite E1, E2|by rewrite E2|]. intros q Hq%F'.
    unfold frame_managed, pmm_covered, zone_hi in *. rewrite E2. destruct Hq as [Hq|Hq]; [by apply Hc|].
    apply in_block_0 in Hq as ->. done.
  - intros q. by rewrite F', in_block_0.
Qed.

#[export] Instance pmm_allocator_laws : PageAllocatorLaws pmm_state.
Proof.
  assert (forall s s', hhdm_offset s' = hhdm_offset s /\ page_array_pfns s' = page_array_pfns s -> same_memory s s') as Hsm.
  { intros s s' [E1 E2]. split; [done|]. intros f. simpl. unfold frame_managed, pmm_covered, zone_hi. by rewrite E2. }
  split; unfold hhdm_page; simpl.
  - intros s [? ? [? ?] ? ? ?]. split; [lia|]. split; [done|lia].
  - intros s f Hok [Hf _]. destruct (frame_address s f Hok Hf) as [_ ?]. pose proof (mo_pfns _ Hok). split; lia.
  - intros s Hok. destruct (pmm_get_ok s Hok) as [?|(f & s' & E & Hok' & Hs & H')]; [by left|right].
    exists f, s'. split; [done|]. split; [done|]. split; [by apply Hsm|done].
  - intros s f Hok Hm Hn. destruct (pmm_put_ok s f Hok Hm Hn) as (s' & E & Hok' & Hs & H').
    exists s'. split; [done|]. split; [done|]. split; [by apply Hsm|done].
Qed.

(** ** Sequences of operations on one address space *)

Inductive table_op :=
  | OpMap (v f flags : Z)
  | OpUnmap (v : Z)
  | OpMapRange (p f n flags : Z)
  | OpUnmapRange (p n : Z).

Definition op_ok (o : table_op) : Prop :=
  match o with
  | OpMap v f flags => user_addr v /\ 0 <= f < 2 ^ 40 /\ flag_bits flags
  | OpUnmap v => user_addr v
  | OpMapRange p f n flags => 0 <= p /\ 0 <= f /\ 0 <= n /\ p + n <= space_pages /\ f + n <= 2 ^ 40 /\ flag_bits flags
  | OpUnmapRange p n => 0 <= p /\ 0 <= n /\ p + n <= space_pages
  end.

Section theorems.
Context {S : Type} `{PA : PageAllocator S} {PAL : PageAllocatorLaws S}.
Implicit Types (st : mmu S) (own : gmap Z (list Z)).

Definition run_op st (root : Z) (o : table_op) : option (Z * mmu S) :=
  match o with
  | OpMap v f flags => paging_map st root v (f * 4096) flags
  | OpUnmap v => paging_unmap st root v
  | OpMapRange p f n flags => paging_map_range st root (p * 4096) (f * 4096) (n * 4096) flags
  | OpUnmapRange p n => paging_unmap_range st root (p * 4096) (n * 4096)
  end.

Fixpoint run_ops st (root : Z) (l : list table_op) : option (mmu S) :=
  match l with
  | [] => Some st
  | o :: l => '(_, st) ← run_op st root o; run_ops st root l
  end.

Lemma run_op_ok st root own o :
  tree st root own -> op_ok o -> exists ret st' own', run_op st root o = Some (ret, st') /\ step_ok st root own st' own'.
Proof using PAL.
  intros T. destruct o as [v f flags|v|p f n flags|p n]; cbn [op_ok run_op].
  - intros (Hv & Hf & Hg). destruct (paging_map_ok st root own v f flags T Hv Hf Hg) as (r & st' & own' & E & S' & _).
    by exists r, st', own'.
  - intros Hv. destruct (paging_unmap_ok st root own v T Hv) as (r & st' & E & S' & _). by exists r, st', own.
  - intros (Hp & Hf & Hn & Hs & Hfn & Hg).
    destruct (paging_map_range_ok st root own p f n flags T Hg Hp Hf Hn Hs Hfn) as (r & st' & own' & E & S' & _).
    by exists r, st', own'.
  - intros (Hp & Hn & Hs). destruct (paging_unmap_range_ok st root own p n T Hp Hn Hs) as (st' & E & S' & _).
    by exists 0, st', own.
Qed.

Lemma run_ops_ok root l : forall st own, tree st root own -> Forall op_ok l ->
  exists st' own', run_ops st root l = Some st' /\ step_ok st root own st' own'.
Proof using PAL.
  induction l as [|o l IH]; intros st own T F; cbn [run_ops].
  - exists st, own. split; [done|by apply step_ok_refl].
  - apply Forall_cons in F as [Ho F]. destruct (run_op_ok st root own o T Ho) as (r & st1 & own1 & -> & S1).
    cbn [mbind option_bind]. destruct (IH st1 own1 (so_tree _ _ _ _ _ S1) F) as (st2 & own2 & E2 & S2).
    exists st2, own2. split; [done|by eapply step_ok_trans].
Qed.

(** The pages given back by destruction are all the tables. *)
Lemma tables_own st root own t :
  tree st root own -> reach st root own -> t ∈ tables st root <-> is_Some (own !! t).
Proof using PAL.
  intros T R. rewrite tables_walk. split.
  - intros (q & Hq & Hw). exists q. by apply (walk_owned st root own q t T Hq).
  - intros [p Ho]. destruct (R t p Ho) as [Hu Hw]. by exists p.
Qed.

Lemma fresh_reach st root : reach st root {[root := []]}.
Proof using.
  intros t p [<- <-]%lookup_singleton_Some. split; [|done]. split; [simpl; lia|]. split; [constructor|done].
Qed.

Lemma root_nonzero st root own : tree st root own -> root ≠ 0.
Proof using PAL.
  intros T. destruct (tr_table _ _ _ T _ _ (tr_root _ _ _ T)) as (_ & (f & -> & Hm & _) & _).
  destruct (pa_hhdm_ok _ (tr_alloc _ _ _ T)) as [? _].
  destruct (pa_frame_ok _ _ (tr_alloc _ _ _ T) Hm) as [? _]. unfold hhdm_page. lia.
Qed.

Lemma created_tree st lk root st1 :
  pa_ok (frames_of st) -> kernel_tables st lk -> paging_create_pml4 st = Some (root, st1) -> root ≠ 0 ->
  tree st1 root {[root := []]}.
Proof using PAL.
  intros Hok HK E H0. destruct (create_pml4_ok st lk Hok HK) as [[E' _]|(r & s & E' & _ & T & _)];
    rewrite E in E'; [congruence|]. by injection E' as -> ->.
Qed.

(** C32.  Mapping a user page: [paging_map] never faults on tables that form a tree; on success
    the page translates to the entry with the given frame and flags, its TLB entry is flushed
    after the store, and every other user page translates as before; it fails only when no page
    for a table is left or a huge page is in the way, and then no translation changes.  Either
    way the tables still form a tree, built from pages that were free. *)
Theorem paging_map_spec st root own v f flags :
  tree st root own -> user_addr v -> 0 <= f < 2 ^ 40 -> flag_bits flags ->
  exists ret st' own', paging_map st root v (f * 4096) flags = Some (ret, st') /\ step_ok st root own st' own' /\
    ((ret = 0 /\ head (flushed st') = Some v /\ forall v', user_addr v' ->
        translation st' root v' = remap (translation st root) v (Some (leaf_entry (f * 4096) flags)) v') \/
     (ret = -1 /\ (exhausted st' \/ huge_on_path st' root v) /\
        forall v', user_addr v' -> translation st' root v' = translation st root v')).
Proof using PAL. apply paging_map_ok. Qed.

(** Unmapping a user page removes its translation and no other, flushes it from the TLB and
    allocates nothing; it reports an error exactly when the page was not mapped, and then
    changes nothing. *)
Theorem paging_unmap_spec st root own v :
  tree st root own -> user_addr v ->
  exists ret st', paging_unmap st root v = Some (ret, st') /\ step_ok st root own st' own /\ frames_of st' = frames_of st /\
    (forall v', user_addr v' -> translation st' root v' = remap (translation st root) v None v') /\
    ((ret = 0 /\ translation st root v ≠ None /\ head (flushed st') = Some v) \/
     (ret = -1 /\ translation st root v = None /\ st' = st)).
Proof using PAL. apply paging_unmap_ok. Qed.

(** C37.  Mapping a range: either every page of the range translates to its frame and nothing
    else changed, or the call fails at some page [j] and the pages before it are left unmapped
    (also those that were mapped before the call), nothing else having changed. *)
Theorem paging_map_range_spec st root own p f n flags :
  tree st root own -> flag_bits flags -> 0 <= p -> 0 <= f -> 0 <= n -> p + n <= space_pages -> f + n <= 2 ^ 40 ->
  exists ret st' own', paging_map_range st root (p * 4096) (f * 4096) (n * 4096) flags = Some (ret, st') /\
    step_ok st root own st' own' /\
    ((ret = 0 /\ forall v, user_addr v ->
        translation st' root v = remap_range (translation st root) p n (linear p f flags) v) \/
     (ret = -1 /\ exists j, 0 <= j < n /\ forall v, user_addr v ->
        translation st' root v = remap_range (translation st root) p j (fun _ => None) v)).
Proof using PAL. apply paging_map_range_ok. Qed.

(** What was mapped is what is looked up: after a successful [paging_map] of frame [f] at
    [v], [paging_get_phys] sends every address of that page to the same offset in frame [f]. *)
Theorem map_get_phys_roundtrip st root own v f flags st' v' :
  tree st root own -> user_addr v -> 0 <= f < 2 ^ 40 -> flag_bits flags ->
  paging_map st root v (f * 4096) flags = Some (0, st') -> user_addr v' -> vpage v' = vpage v ->
  paging_get_phys st' root v' = Some (f * 4096 + v' mod 4096).
Proof using PAL.
  intros T Hv Hf Hg E Hv' Ep.
  destruct (paging_map_ok st root own v f flags T Hv Hf Hg) as (r & st1 & own1 & E1 & S1 & R1).
  rewrite E in E1. injection E1 as <- <-. destruct R1 as [(_ & _ & TR)|[? _]]; [|done].
  rewrite (paging_get_phys_ok st' root own1 v' (so_tree _ _ _ _ _ S1) Hv'), TR by done. unfold remap.
  rewrite decide_True by done. destruct (leaf_entry_ok f flags Hf Hg) as (_ & _ & ->). rewrite PAGE_SIZE_val.
  change (4096 - 1) with (2 ^ 12 - 1). rewrite land_ones_mod by lia. f_equal. change (2 ^ 12) with 4096.
  apply frame_offset; [done|]. apply Z.mod_pos_bound. lia.
Qed.

(** A new PML4 is one page that was free: its user half maps nothing and forms a tree of one
    table, its kernel half is the kernel's, no other page is written; without a free page the
    call returns NULL and changes nothing. *)
Theorem paging_create_pml4_spec st lk :
  pa_ok (frames_of st) -> kernel_tables st lk ->
  (paging_create_pml4 st = Some (0, st) /\ exhausted st) \/
  exists root st', paging_create_pml4 st = Some (root, st') /\ root ≠ 0 /\
    tree st' root {[root := []]} /\ (forall v, user_addr v -> translation st' root v = None) /\
    (forall i, 256 <= i < 512 -> load st' root i = zget lk i) /\
    (forall t, t ≠ root -> mem st' !! t = mem st !! t) /\
    (exists f, root = hhdm_page (frames_of st) f /\ pa_free (frames_of st) f /\
      forall q, pa_free (frames_of st') q <-> pa_free (frames_of st) q /\ q ≠ f) /\
    same_memory (frames_of st) (frames_of st').
Proof using PAL. apply create_pml4_ok. Qed.

(** An address space gives back all it took: a PML4 is created, any sequence of maps and
    unmaps of user pages, failing ones included, runs on it, and it is destroyed: every step
    runs without fault, each table is given back once (a table given back twice would have no
    result), the free pages are those of before, and no page in use before was written. *)
Theorem address_space_no_leak st lk root st1 l :
  pa_ok (frames_of st) -> kernel_tables st lk -> paging_create_pml4 st = Some (root, st1) -> root ≠ 0 ->
  Forall op_ok l ->
  exists st2 st3, run_ops st1 root l = Some st2 /\ paging_destroy_pml4 st2 root = Some st3 /\
    pa_ok (frames_of st3) /\ (forall f, pa_free (frames_of st3) f <-> pa_free (frames_of st) f) /\
    forall t, (forall f, t = hhdm_page (frames_of st) f -> ~ pa_free (frames_of st) f) -> mem st3 !! t = mem st !! t.
Proof using PAL.
  intros Hok HK E H0 F. destruct (create_pml4_ok st lk Hok HK) as [[E' _]|(root' & st1' & E' & _ & T & _ & _ & Hm & (fr & -> & Hfr & Hq) & HS)];
    rewrite E in E'; [congruence|]. injection E' as -> ->. set (r := hhdm_page (frames_of st) fr) in *.
  destruct (run_ops_ok r l st1' {[r := []]} T F) as (st2 & own & E2 & S2). pose proof (so_tree _ _ _ _ _ S2) as T2.
  destruct (destroy_pml4_ok st2 r own T2 [] st2 H0 (freed_nil st2 r own T2) (tables_NoDup st2 r own T2))
    as (st3 & E3 & [D1 D2 D3 D4 _]). cbn [app] in D4.
  pose proof (so_reach _ _ _ _ _ S2 (fresh_reach st1' r)) as R2.
  assert (forall t, t ∈ tables st2 r <-> is_Some (own !! t)) as HT by (intros t; by apply tables_own).
  pose proof (sm_hhdm _ _ HS) as Eh1. pose proof (sm_hhdm _ _ (so_same _ _ _ _ _ S2)) as Eh2.
  assert (forall f, is_Some (own !! hhdm_page (frames_of st) f) -> pa_free (frames_of st) f) as Hown.
  { intros f [p Ho]. destruct (decide (hhdm_page (frames_of st) f = r)) as [Er|Er].
    - assert (f = fr) as -> by (unfold r, hhdm_page in Er; lia). done.
    - destruct (so_new _ _ _ _ _ S2 _ p Ho) as (g & Eg & Hg); [by apply lookup_singleton_ne|].
      unfold hhdm_page in Eg. rewrite Eh1 in Eg. assert (g = f) as -> by lia. by apply Hq in Hg as [? _]. }
  exists st2, st3. split; [done|]. split; [done|]. split; [done|]. split.
  - intros f. rewrite D4. unfold hhdm_page at 1. rewrite Eh2, Eh1. fold (hhdm_page (frames_of st) f). rewrite HT. split.
    + intros [Hf|Ho]; [|by apply Hown]. apply (so_free _ _ _ _ _ S2) in Hf. by apply Hq in Hf as [? _].
    + intros Hf. destruct (decide (f = fr)) as [->|Hne].
      * right. exists []. apply (lookup_weaken {[r := []]}); [by rewrite lookup_singleton_eq|apply S2].
      * destruct (so_taken _ _ _ _ _ S2 f) as [?|Ho]; [by apply Hq|by left|]. right.
        unfold hhdm_page in *. by rewrite Eh1 in Ho.
  - intros t Ht. rewrite D2, (so_pages _ _ _ _ _ S2); [apply Hm|].
    + intros ->. by apply (Ht fr).
    + destruct (own !! t) as [p|] eqn:Ho; [|done]. exfalso.
      destruct (tr_table _ _ _ T2 _ _ Ho) as (_ & (f & -> & _) & _). unfold hhdm_page in Ht, Ho. rewrite Eh2, Eh1 in Ht, Ho.
      apply (Ht f eq_refl), Hown. by exists p.
Qed.

End theorems.

(** ** Witnesses: 64 free page frames, the kernel's PML4 in frame 100 *)

Definition ex_kernel : list Z := replicate 512 7.
Definition ex_kva : Z := ex_hhdm + 100 * 4096.
Definition ex_mmu : mmu pmm_state := mk_mmu ex_full {[ex_kva := ex_kernel]} ex_kva [] (100 * 4096).

Lemma ex_machine : machine_ok ex_full.
Proof.
  destruct ex_full_ok as (I & Hi & HF).
  assert (hhdm_offset ex_full = ex_hhdm) as Eh by (vm_compute; reflexivity).
  assert (page_array_pfns ex_full = 4096) as Ep by (vm_compute; reflexivity).
  split; [exact I|exact Hi| | | |].
  - rewrite Eh. split; [unfold ex_hhdm; lia|reflexivity].
  - rewrite Eh, Ep. unfold ex_hhdm. lia.
  - rewrite Ep. lia.
  - intros q Hq. apply HF in Hq. unfold frame_managed, pmm_covered, zone_hi. rewrite Ep. split; [lia|].
    change (PHYS_TO_PFN ZONE_DMA_END) with 4096.
    destruct (zone_type_cases q) as [[_ ->]|[[? _]|[[? _]|?]]]; [left; reflexivity|..]; lia.
Qed.

Lemma ex_pa_ok : pa_ok (frames_of ex_mmu).
Proof. exact ex_machine. Qed.

Lemma ex_kernel_tables : kernel_tables ex_mmu ex_kernel.
Proof.
  split; [apply lookup_singleton_eq|]. split; [split; [reflexivity|by apply Forall_replicate]|].
  split; [discriminate|]. intros f Hf E. apply (proj2 (proj2 ex_full_ok)) in Hf.
  unfold hhdm_page in E. cbn [boot_hhdm pmm_allocator frames_of ex_mmu kernel_pml4] in E.
  assert (hhdm_offset ex_full = ex_hhdm) as Eh by (vm_compute; reflexivity). rewrite Eh in E. unfold ex_kva in E. lia.
Qed.

(** The PML4 created there. *)
Definition ex_created : Z * mmu pmm_state := default (0, ex_mmu) (paging_create_pml4 ex_mmu).
Definition ex_root : Z := ex_created.1.
Definition ex_space : mmu pmm_state := ex_created.2.

Lemma ex_created_eq : paging_create_pml4 ex_mmu = Some (ex_root, ex_space).
Proof.
  unfold ex_root, ex_space, ex_created.
  destruct (paging_create_pml4 ex_mmu) as [[r s]|] eqn:E; [reflexivity|].
  destruct (create_pml4_ok ex_mmu ex_kernel ex_pa_ok ex_kernel_tables) as [[E' _]|(? & ? & E' & _)]; congruence.
Qed.

Lemma ex_root_nonzero : ex_root ≠ 0.
Proof. vm_compute. discriminate. Qed.

#[local] Opaque ex_created ex_root ex_space.

Lemma ex_tree : tree ex_space ex_root {[ex_root := []]}.
Proof. exact (created_tree ex_mmu ex_kernel ex_root ex_space ex_pa_ok ex_kernel_tables ex_created_eq ex_root_nonzero). Qed.

Definition ex_flags : Z := Z.lor PTE_WRITABLE PTE_USER.

Lemma ex_flags_ok : flag_bits ex_flags.
Proof. split; [by split|reflexivity]. Qed.

Lemma paging_create_pml4_spec_witness :
  (paging_create_pml4 ex_mmu = Some (0, ex_mmu) /\ exhausted ex_mmu) \/
  exists root st', paging_create_pml4 ex_mmu = Some (root, st') /\ root ≠ 0 /\
    tree st' root {[root := []]} /\ (forall v, user_addr v -> translation st' root v = None) /\
    (forall i, 256 <= i < 512 -> load st' root i = zget ex_kernel i) /\
    (forall t, t ≠ root -> mem st' !! t = mem ex_mmu !! t) /\
    (exists f, root = hhdm_page (frames_of ex_mmu) f /\ pa_free (frames_of ex_mmu) f /\
      forall q, pa_free (frames_of st') q <-> pa_free (frames_of ex_mmu) q /\ q ≠ f) /\
    same_memory (frames_of ex_mmu) (frames_of st').
Proof. refine (paging_create_pml4_spec ex_mmu ex_kernel _ _); [exact ex_pa_ok|exact ex_kernel_tables]. Defined.

Lemma paging_map_spec_witness :
  exists ret st' own', paging_map ex_space ex_root 0x400123 (9 * 4096) ex_flags = Some (ret, st') /\
    step_ok ex_space ex_root {[ex_root := []]} st' own' /\
    ((ret = 0 /\ head (flushed st') = Some 0x400123 /\ forall v', user_addr v' ->
        translation st' ex_root v' =
          remap (translation ex_space ex_root) 0x400123 (Some (leaf_entry (9 * 4096) ex_flags)) v') \/
     (ret = -1 /\ (exhausted st' \/ huge_on_path st' ex_root 0x400123) /\
        forall v', user_addr v' -> translation st' ex_root v' = translation ex_space ex_root v')).
Proof.
  refine (paging_map_spec ex_space ex_root {[ex_root := []]} 0x400123 9 ex_flags _ _ _ _);
    [exact ex_tree|unfold user_addr; lia|lia|exact ex_flags_ok].
Defined.

Definition ex_mapped : mmu pmm_state :=
  (default (0, ex_space) (paging_map ex_space ex_root 0x400123 (9 * 4096) ex_flags)).2.

Lemma ex_map_eq : paging_map ex_space ex_root 0x400123 (9 * 4096) ex_flags = Some (0, ex_mapped).
Proof.
  assert ((default (0, ex_space) (paging_map ex_space ex_root 0x400123 (9 * 4096) ex_flags)).1 = 0) as E0
    by (vm_compute; reflexivity).
  unfold ex_mapped. destruct (paging_map ex_space ex_root 0x400123 (9 * 4096) ex_flags) as [[r s]|] eqn:E.
  - cbn in E0 |- *. by rewrite E0.
  - destruct (paging_map_ok ex_space ex_root _ 0x400123 9 ex_flags ex_tree ltac:(unfold user_addr; lia) ltac:(lia) ex_flags_ok)
      as (? & ? & ? & E' & _). congruence.
Qed.

Lemma map_get_phys_roundtrip_witness :
  paging_get_phys ex_mapped ex_root 0x400fff = Some (9 * 4096 + 0xfff).
Proof.
  refine (map_get_phys_roundtrip ex_space ex_root {[ex_root := []]} 0x400123 9 ex_flags ex_mapped 0x400fff _ _ _ _ _ _ _);
    [exact ex_tree|unfold user_addr; lia|lia|exact ex_flags_ok|exact ex_map_eq|unfold user_addr; lia|reflexivity].
Defined.

Lemma paging_unmap_spec_witness :
  exists ret st', paging_unmap ex_space ex_root 0x400123 = Some (ret, st') /\
    step_ok ex_space ex_root {[ex_root := []]} st' {[ex_root := []]} /\ frames_of st' = frames_of ex_space /\
    (forall v', user_addr v' -> translation st' ex_root v' = remap (translation ex_space ex_root) 0x400123 None v') /\
    ((ret = 0 /\ translation ex_space ex_root 0x400123 ≠ None /\ head (flushed st') = Some 0x400123) \/
     (ret = -1 /\ translation ex_space ex_root 0x400123 = None /\ st' = ex_space)).
Proof.
  refine (paging_unmap_spec ex_space ex_root {[ex_root := []]} 0x400123 _ _); [exact ex_tree|unfold user_addr; lia].
Defined.

Lemma paging_map_range_spec_witness :
  exists ret st' own', paging_map_range ex_space ex_root (511 * 4096) (20 * 4096) (3 * 4096) ex_flags = Some (ret, st') /\
    step_ok ex_space ex_root {[ex_root := []]} st' own' /\
    ((ret = 0 /\ forall v, user_addr v ->
        translation st' ex_root v = remap_range (translation ex_space ex_root) 511 3 (linear 511 20 ex_flags) v) \/
     (ret = -1 /\ exists j, 0 <= j < 3 /\ forall v, user_addr v ->
        translation st' ex_root v = remap_range (translation ex_space ex_root) 511 j (fun _ => None) v)).
Proof.
  refine (paging_map_range_spec ex_space ex_root {[ex_root := []]} 511 20 3 ex_flags _ _ _ _ _ _ _);
    [exact ex_tree|exact ex_flags_ok|lia|lia|lia|unfold space_pages; lia|lia].
Defined.

Definition ex_ops : list table_op := [OpMap 0x400123 9 ex_flags; OpMapRange 511 20 3 ex_flags; OpUnmap 0x400000].

Lemma address_space_no_leak_witness :
  exists st2 st3, run_ops ex_space ex_root ex_ops = Some st2 /\ paging_destroy_pml4 st2 ex_root = Some st3 /\
    pa_ok (frames_of st3) /\ (forall f, pa_free (frames_of st3) f <-> pa_free (frames_of ex_mmu) f) /\
    forall t, (forall f, t = hhdm_page (frames_of ex_mmu) f -> ~ pa_free (frames_of ex_mmu) f) ->
      mem st3 !! t = mem ex_mmu !! t.
Proof.
  refine (address_space_no_leak ex_mmu ex_kernel ex_root ex_space ex_ops _ _ _ _ _);
    [exact ex_pa_ok|exact ex_kernel_tables|exact ex_created_eq|exact ex_root_nonzero|].
  apply Forall_cons; split; [|apply Forall_cons; split; [|apply Forall_cons; split; [|apply Forall_nil; exact I]]];
    unfold op_ok, user_addr, space_pages.
  - split; [lia|]. split; [lia|exact ex_flags_ok].
  - split; [lia|]. split; [lia|]. split; [lia|]. split; [lia|]. split; [lia|exact ex_flags_ok].
  - lia.
Defined.
