(* ===== verification/Capability.v ===== *)
(** * Capability spaces (kernel/ipc/capability.c)

    The cspaces of all processes live in a store indexed by their address (0 is NULL), so that an
    operation whose source and destination are the same cspace works on one object.  A NULL
    [slots] or [bitmap] pointer is [None]; following it, or indexing an array out of range, is
    undefined behaviour and a failure of the model.  The spinlocks make each operation atomic;
    the order in which the two-cspace operations take them is [lock_order].  kprintf output is
    left out, except for the lines of [cap_dump_cspace], which are its result. *)
From Stdlib Require Import Sorted.
From S2P Require Import Prelude Defs.

(** ** The code *)

Definition CAP_TYPE_NONE : Z := 0.
Definition CAP_TYPE_ENDPOINT : Z := 1.
Definition CAP_TYPE_NOTIFICATION : Z := 7.

Definition CAP_RIGHT_GRANT : Z := Z.shiftl 1 2.
Definition CAP_RIGHT_REVOKE : Z := Z.shiftl 1 3.

Definition CSPACE_SIZE : Z := 256.

(** [(u32)-1]: let the kernel choose the slot. *)
Definition ANY_SLOT : Z := 2 ^ 32 - 1.

Record capability := mk_cap {
  cap_type : Z;
  cap_rights : Z;
  cap_object : Z;
  cap_badge : Z;
  cap_generation : Z;
  cap_slot : Z
}.

Record cspace := mk_cspace {
  slots : option (list capability);
  size : Z;
  used : Z;
  cs_bitmap : option (list Z);
  generation : Z
}.

Definition cap_zero : capability := mk_cap 0 0 0 0 0 0.

Definition with_type (t : Z) (c : capability) : capability :=
  mk_cap t (cap_rights c) (cap_object c) (cap_badge c) (cap_generation c) (cap_slot c).

(** [cs->slots[i] = c] *)
Definition set_slot (cs : cspace) (i : Z) (c : capability) : option cspace :=
  l ← slots cs; l ← zset l i c;
  Some (mk_cspace (Some l) (size cs) (used cs) (cs_bitmap cs) (generation cs)).

Definition get_slot (cs : cspace) (i : Z) : option capability := l ← slots cs; zget l i.

Notation store := (gmap Z cspace).

(** The outcomes of the two [kmalloc] calls are arguments: [true] when memory was found. *)
Definition cspace_init (slots_ok bitmap_ok : bool) (h : store) (cs : Z) : option store :=
  if cs =? 0 then Some h else
  c ← h !! cs;
  if negb slots_ok then
    Some (<[cs := mk_cspace None CSPACE_SIZE (used c) (cs_bitmap c) (generation c)]> h)
  else if negb bitmap_ok then
    Some (<[cs := mk_cspace None CSPACE_SIZE (used c) None (generation c)]> h)
  else
    let words := (CSPACE_SIZE + 63) / 64 in
    Some (<[cs := mk_cspace (Some (replicate (Z.to_nat CSPACE_SIZE) cap_zero)) CSPACE_SIZE 0
                    (Some (replicate (Z.to_nat words) 0)) 1]> h).

Definition cspace_destroy (h : store) (cs : Z) : option store :=
  if cs =? 0 then Some h else
  c ← h !! cs;
  c ← for_range (Z.to_nat (size c)) 0
        (fun i c =>
           s ← get_slot c i;
           if cap_type s =? CAP_TYPE_NONE then Some c
           else set_slot c i (with_type CAP_TYPE_NONE s)) c;
  Some (<[cs := mk_cspace None 0 0 None (generation c)]> h).

Definition slot_free (cs : cspace) (i : Z) : option bool :=
  b ← cs_bitmap cs; w ← zget b (i / 64);
  Some (negb (ztrue (Z.land w (Z.shiftl 1 (i mod 64))))).

(** The first slot whose bit is clear, -1 if none. *)
Definition cspace_find_free_slot (cs : cspace) : option Z :=
  r ← for_return (Z.to_nat (size cs)) 0
        (fun i (_ : unit) => f ← slot_free cs i; Some (if f : bool then inr i else inl tt)) tt;
  Some (match r with inr i => i | inl _ => -1 end).

Definition cspace_mark_used (cs : cspace) (slot : Z) : option cspace :=
  b ← cs_bitmap cs;
  b ← zupd b (slot / 64) (fun w => Z.lor w (Z.shiftl 1 (slot mod 64)));
  Some (mk_cspace (slots cs) (size cs) (u32 (used cs + 1)) (Some b) (generation cs)).

Definition cspace_mark_free (cs : cspace) (slot : Z) : option cspace :=
  b ← cs_bitmap cs;
  b ← zupd b (slot / 64) (fun w => Z.land w (lnotw 64 (Z.shiftl 1 (slot mod 64))));
  Some (mk_cspace (slots cs) (size cs) (u32 (used cs - 1)) (Some b) (generation cs)).

(** [cap = None] is the NULL pointer. *)
Definition cap_insert (h : store) (cs : Z) (cap : option capability) : option (Z * store) :=
  if cs =? 0 then Some (-1, h) else
  match cap with
  | None => Some (-1, h)
  | Some cap =>
      c ← h !! cs;
      slot ← cspace_find_free_slot c;
      if slot <? 0 then Some (-1, h) else
      c ← set_slot c slot (mk_cap (cap_type cap) (cap_rights cap) (cap_object cap)
                             (cap_badge cap) (generation c) slot);
      c ← cspace_mark_used c slot;
      Some (slot, <[cs := c]> h)
  end.

(** The pointer returned is that of the slot itself; the model returns its contents. *)
Definition cap_lookup (h : store) (cs slot : Z) : option (option capability) :=
  if cs =? 0 then Some None else
  c ← h !! cs;
  if size c <=? slot then Some None else
  s ← get_slot c slot;
  Some (if cap_type s =? CAP_TYPE_NONE then None else Some s).

Definition cap_delete (h : store) (cs slot : Z) : option (Z * store) :=
  if cs =? 0 then Some (-1, h) else
  c ← h !! cs;
  if size c <=? slot then Some (-1, h) else
  s ← get_slot c slot;
  if cap_type s =? CAP_TYPE_NONE then Some (-1, h) else
  c ← set_slot c slot cap_zero;
  c ← cspace_mark_free c slot;
  Some (0, <[cs := c]> h).

(** The locks the two-cspace operations take, in order. *)
Definition lock_order (dst src : Z) : list Z :=
  if dst <? src then [dst; src] else if src <? dst then [src; dst] else [dst].

(** The destination slot: -1 when the operation gives up. *)
Definition pick_dst (d : cspace) (dst_slot : Z) : option Z :=
  if dst_slot =? ANY_SLOT then cspace_find_free_slot d
  else if size d <=? dst_slot then Some (-1)
  else s ← get_slot d dst_slot; Some (if cap_type s =? CAP_TYPE_NONE then dst_slot else -1).

Definition cap_copy (h : store) (dst dst_slot src src_slot : Z) : option (Z * store) :=
  if (dst =? 0) || (src =? 0) then Some (-1, h) else
  s ← h !! src;
  if size s <=? src_slot then Some (-1, h) else
  d ← h !! dst;
  c ← get_slot s src_slot;
  if cap_type c =? CAP_TYPE_NONE then Some (-1, h) else
  if negb (ztrue (Z.land (cap_rights c) CAP_RIGHT_GRANT)) then Some (-1, h) else
  actual_dst ← pick_dst d dst_slot;
  if actual_dst <? 0 then Some (-1, h) else
  d ← set_slot d actual_dst
        (mk_cap (cap_type c) (cap_rights c) (cap_object c) (cap_badge c) (generation d) actual_dst);
  d ← cspace_mark_used d actual_dst;
  Some (actual_dst, <[dst := d]> h).

Definition cap_mint (h : store) (dst dst_slot src src_slot new_rights badge : Z)
  : option (Z * store) :=
  if (dst =? 0) || (src =? 0) then Some (-1, h) else
  s ← h !! src;
  if size s <=? src_slot then Some (-1, h) else
  d ← h !! dst;
  c ← get_slot s src_slot;
  if cap_type c =? CAP_TYPE_NONE then Some (-1, h) else
  if negb (ztrue (Z.land (cap_rights c) CAP_RIGHT_GRANT)) then Some (-1, h) else
  let allowed_rights := Z.land (cap_rights c) new_rights in
  actual_dst ← pick_dst d dst_slot;
  if actual_dst <? 0 then Some (-1, h) else
  d ← set_slot d actual_dst
        (mk_cap (cap_type c) allowed_rights (cap_object c) badge (generation d) actual_dst);
  d ← cspace_mark_used d actual_dst;
  Some (actual_dst, <[dst := d]> h).

Definition cap_revoke (h : store) (cs slot : Z) : option (Z * store) :=
  if cs =? 0 then Some (-1, h) else
  c ← h !! cs;
  if size c <=? slot then Some (-1, h) else
  s ← get_slot c slot;
  if cap_type s =? CAP_TYPE_NONE then Some (-1, h) else
  if negb (ztrue (Z.land (cap_rights s) CAP_RIGHT_REVOKE)) then Some (-1, h) else
  Some (0, <[cs := mk_cspace (slots c) (size c) (used c) (cs_bitmap c) (u32 (generation c + 1))]> h).

Definition cap_create_endpoint (h : store) (cs ep rights : Z) : option (Z * store) :=
  cap_insert h cs (Some (mk_cap CAP_TYPE_ENDPOINT rights ep 0 0 0)).

Definition cap_create_notification (h : store) (cs ntfn rights : Z) : option (Z * store) :=
  cap_insert h cs (Some (mk_cap CAP_TYPE_NOTIFICATION rights ntfn 0 0 0)).

Definition cap_check_rights (cap : option capability) (required_rights : Z) : Z :=
  match cap with
  | None => -1
  | Some c => if negb (Z.land (cap_rights c) required_rights =? required_rights) then -1 else 0
  end.

(** The endpoint's address, 0 for NULL. *)
Definition cap_get_endpoint (h : store) (cs slot : Z) : option Z :=
  cap ← cap_lookup h cs slot;
  Some (match cap with
        | Some c => if negb (cap_type c =? CAP_TYPE_ENDPOINT) then 0 else cap_object c
        | None => 0
        end).

(** The slots [cap_dump_cspace] prints a line for. *)
Definition cap_dump_cspace (h : store) (cs : Z) : option (list (Z * capability)) :=
  if cs =? 0 then Some [] else
  c ← h !! cs;
  rows ← mapM (fun i => s ← get_slot c i;
                        Some (if cap_type s =? CAP_TYPE_NONE then [] else [(i, s)]))
           (seqZ 0 (Z.min (size c) 32));
  Some (concat rows).

(** ** What a cspace promises: a partial map from slot numbers to capabilities *)

Definition live (s : capability) : bool := negb (cap_type s =? CAP_TYPE_NONE).

Definition view (c : cspace) (i : Z) : option capability :=
  s ← get_slot c i; if live s then Some s else None.

Definition occupied (l : list capability) : Z := zlen (filter (fun s => live s = true) l).

(** The representation: the arrays have the size of the cspace, the bitmap marks exactly the
    non-empty slots, and [used] counts them. *)
Record cs_repr (c : cspace) (l : list capability) (b : list Z) : Prop := {
  cr_slots : slots c = Some l;
  cr_bitmap : cs_bitmap c = Some b;
  cr_size : zlen l = size c /\ 0 <= size c <= 65536;
  cr_words : zlen b = (size c + 63) / 64;
  cr_bits : forall i s, zget l i = Some s -> wbit b i = live s;
  cr_used : used c = occupied l
}.

Definition cs_ok (c : cspace) : Prop := exists l b, cs_repr c l b.

Definition store_ok (h : store) : Prop := forall a c, h !! a = Some c -> cs_ok c.

(** ** Lemmas *)

Lemma occupied_insert l i s s' :
  zget l i = Some s ->
  occupied (<[Z.to_nat i := s']> l) = occupied l - Z.b2z (live s) + Z.b2z (live s').
Proof.
  intros [Hi Hg]%zget_lookup. unfold occupied, zlen. pose proof (lookup_lt_Some _ _ _ Hg).
  rewrite insert_take_drop by done. rewrite <- (take_drop_middle _ _ _ Hg) at 3.
  rewrite !filter_app, !filter_cons, !length_app.
  destruct (live s), (live s'); repeat case_decide; simpl; try done; lia.
Qed.

Lemma occupied_bounds l : 0 <= occupied l <= zlen l.
Proof. unfold occupied, zlen. pose proof (length_filter (fun s => live s = true) l). lia. Qed.

Section Repr.
Context (c : cspace) (l : list capability) (b : list Z) (Hc : cs_repr c l b).

Lemma get_slot_ok i : get_slot c i = zget l i.
Proof using Hc. unfold get_slot. by rewrite (cr_slots _ _ _ Hc). Qed.

Lemma slot_exists i : 0 <= i < size c -> exists s, zget l i = Some s.
Proof using Hc. intros Hi. apply zget_Some. by rewrite (proj1 (cr_size _ _ _ Hc)). Qed.

Lemma view_ok i s : zget l i = Some s -> view c i = if live s then Some s else None.
Proof using Hc. intros Hs. unfold view. by rewrite get_slot_ok, Hs. Qed.

Lemma view_range i s : view c i = Some s -> 0 <= i < size c /\ zget l i = Some s /\ live s = true.
Proof using Hc.
  unfold view. rewrite get_slot_ok. destruct (zget l i) as [s'|] eqn:E; [|done]. simpl.
  destruct (live s') eqn:El; [|done]. intros [= <-]. split; [|done].
  rewrite <- (proj1 (cr_size _ _ _ Hc)). by eapply zget_range.
Qed.

Lemma slot_free_ok i s : zget l i = Some s -> slot_free c i = Some (negb (live s)).
Proof using Hc.
  intros Hs. pose proof (zget_range _ _ _ Hs) as Hr. pose proof Hc as [H1 H2 (H3 & H3') H4 H5 _].
  unfold slot_free. rewrite H2. cbn [mbind option_bind].
  destruct (proj2 (zget_Some b (i / 64))) as [w Hw]; [divlia|]. rewrite Hw. cbn [mbind option_bind].
  rewrite ztrue_land_bit by divlia. rewrite <- (H5 i s Hs). unfold wbit. by rewrite Hw.
Qed.

(** The search for a free slot finds the lowest one. *)
Lemma find_free_slot_ok :
  (exists k, cspace_find_free_slot c = Some k /\ 0 <= k < size c /\ view c k = None /\
     forall j, 0 <= j < k -> view c j ≠ None) \/
  (cspace_find_free_slot c = Some (-1) /\ forall j, 0 <= j < size c -> view c j ≠ None).
Proof using Hc.
  set (p := fun i => if default true (slot_free c i) then Some i else None).
  assert (forall k, 0 <= k < size c -> p k = None -> view c k ≠ None) as Hp.
  { intros k Hk. destruct (slot_exists k Hk) as [s Hs]. unfold p.
    rewrite (slot_free_ok k s Hs), (view_ok k s Hs). simpl. by destruct (live s). }
  unfold cspace_find_free_slot.
  rewrite (for_return_ext _ _ _ (fun k (_ : unit) =>
    Some (match p k with Some r => inr r | None => inl tt end))).
  2: { intros k u Hk. destruct (slot_exists k) as [s Hs]; [lia|]. unfold p.
       rewrite (slot_free_ok k s Hs). cbn [mbind option_bind default from_option].
       by destruct (negb (live s)). }
  destruct (for_return_find (Z.to_nat (size c)) 0 p) as [(j & r & -> & Hj & Hpj & Hmin)|[-> Hall]];
    cbn [mbind option_bind].
  - left. destruct (slot_exists j) as [s Hs]; [lia|]. unfold p in Hpj.
    rewrite (slot_free_ok j s Hs) in Hpj. cbn [default from_option] in Hpj.
    destruct (live s) eqn:El; [done|]. cbn [negb] in Hpj. injection Hpj as <-.
    exists j. split; [done|]. split; [lia|]. split; [by rewrite (view_ok j s Hs), El|].
    intros k Hk. apply Hp; [lia|]. apply Hmin. lia.
  - right. split; [done|]. intros j Hj. apply Hp; [done|]. apply Hall. lia.
Qed.

(** Filling an empty slot. *)
Lemma put_ok k cap :
  0 <= k < size c -> view c k = None -> live cap = true ->
  exists c1 c2, set_slot c k cap = Some c1 /\ cspace_mark_used c1 k = Some c2 /\ cs_ok c2 /\
    size c2 = size c /\ generation c2 = generation c /\ used c2 = used c + 1 /\
    forall j, view c2 j = if decide (j = k) then Some cap else view c j.
Proof using Hc.
  intros Hk Hv Hl. pose proof Hc as [H1 H2 (H3 & H3') H4 H5 H6].
  destruct (slot_exists k Hk) as [s Hs]. rewrite (view_ok k s Hs) in Hv.
  assert (live s = false) as Els by (by destruct (live s)).
  destruct (zset_Some l k cap) as [l' El]; [lia|].
  unfold set_slot. rewrite H1. cbn [mbind option_bind]. rewrite El. cbn [mbind option_bind].
  destruct (zupd_Some b (k / 64) (fun w => Z.lor w (Z.shiftl 1 (k mod 64)))) as [b' Eb]; [divlia|].
  eexists _. eexists. split; [done|]. unfold cspace_mark_used. cbn [cs_bitmap]. rewrite H2.
  cbn [mbind option_bind].
  rewrite Eb. cbn [mbind option_bind]. split; [done|].
  assert (occupied l' = occupied l + 1) as Ho.
  { unfold zset in El. rewrite Hs in El. injection El as <-. rewrite (occupied_insert l k s cap Hs).
    rewrite Els, Hl. simpl. lia. }
  pose proof (occupied_bounds l). pose proof (occupied_bounds l').
  pose proof (zset_length _ _ _ _ El) as Hl'.
  simpl. rewrite u32_small by lia. split; [|split; [done|split; [done|split; [done|]]]].
  - exists l', b'. split; simpl; [done|done|split; lia| |  |lia].
    + by rewrite (zupd_length _ _ _ _ Eb).
    + intros i s' Hs'. pose proof (zget_range _ _ _ Hs').
      rewrite (wbit_upd _ _ k _ true i) by
        (try exact Eb; try apply or_writes; divlia).
      rewrite (zget_zset _ _ _ _ _ El) in Hs'. case_decide; [by injection Hs' as <-|by apply H5].
  - intros j. unfold view, get_slot. simpl. rewrite (zget_zset _ _ _ _ _ El), H1.
    simpl. case_decide; [|done]. simpl. by rewrite Hl.
Qed.

(** Emptying a slot. *)
Lemma take_ok k s :
  view c k = Some s ->
  exists c1 c2, set_slot c k cap_zero = Some c1 /\ cspace_mark_free c1 k = Some c2 /\ cs_ok c2 /\
    size c2 = size c /\ generation c2 = generation c /\ used c2 = used c - 1 /\
    forall j, view c2 j = if decide (j = k) then None else view c j.
Proof using Hc.
  intros Hv. destruct (view_range k s Hv) as (Hk & Hs & Hl).
  pose proof Hc as [H1 H2 (H3 & H3') H4 H5 H6].
  destruct (zset_Some l k cap_zero) as [l' El]; [lia|].
  unfold set_slot. rewrite H1. cbn [mbind option_bind]. rewrite El. cbn [mbind option_bind].
  destruct (zupd_Some b (k / 64) (fun w => Z.land w (lnotw 64 (Z.shiftl 1 (k mod 64))))) as [b' Eb];
    [divlia|].
  eexists _. eexists. split; [done|]. unfold cspace_mark_free. cbn [cs_bitmap]. rewrite H2.
  cbn [mbind option_bind].
  rewrite Eb. cbn [mbind option_bind]. split; [done|].
  assert (occupied l' = occupied l - 1) as Ho.
  { unfold zset in El. rewrite Hs in El. injection El as <-. rewrite (occupied_insert l k s cap_zero Hs).
    rewrite Hl. simpl. lia. }
  pose proof (occupied_bounds l). pose proof (occupied_bounds l').
  pose proof (zset_length _ _ _ _ El) as Hl'.
  simpl. rewrite u32_small by lia. split; [|split; [done|split; [done|split; [done|]]]].
  - exists l', b'. split; simpl; [done|done|split; lia| |  |lia].
    + by rewrite (zupd_length _ _ _ _ Eb).
    + intros i s' Hs'. pose proof (zget_range _ _ _ Hs').
      rewrite (wbit_upd _ _ k _ false i) by
        (try exact Eb; try apply andnot_writes; divlia).
      rewrite (zget_zset _ _ _ _ _ El) in Hs'. case_decide; [by injection Hs' as <-|by apply H5].
  - intros j. unfold view, get_slot. simpl. rewrite (zget_zset _ _ _ _ _ El), H1.
    cbn [mbind option_bind]. by case_decide.
Qed.
End Repr.

(** ** Choosing a destination *)

(** [k] is the slot the kernel uses for the request [slot]: that slot if it exists and is empty,
    the lowest empty one if the request leaves the choice open. *)
Definition dst_choice (d : cspace) (slot k : Z) : Prop :=
  0 <= k < size d /\ view d k = None /\
  (slot = ANY_SLOT -> forall j, 0 <= j < k -> view d j ≠ None) /\ (slot ≠ ANY_SLOT -> k = slot).

Lemma pick_dst_ok d slot :
  cs_ok d -> 0 <= slot ->
  (exists k, pick_dst d slot = Some k /\ dst_choice d slot k) \/
  (pick_dst d slot = Some (-1) /\ forall k, ~ dst_choice d slot k).
Proof.
  intros (l & b & Hd) Hs. unfold pick_dst, dst_choice.
  destruct (Z.eqb_spec slot ANY_SLOT) as [->|Hne].
  - destruct (find_free_slot_ok d l b Hd) as [(k & E & Hk & Hv & Hm)|[E Hall]].
    + left. by exists k.
    + right. split; [done|]. intros k (Hk & Hv & _). by apply (Hall k).
  - destruct (Z.leb_spec (size d) slot).
    + right. split; [done|]. intros k (Hk & _ & _ & Ek). specialize (Ek Hne). lia.
    + destruct (slot_exists d l b Hd slot) as [s Hg]; [lia|]. rewrite (get_slot_ok d l b Hd), Hg.
      cbn [mbind option_bind]. pose proof (view_ok d l b Hd slot s Hg) as Hv. unfold live in Hv.
      destruct (cap_type s =? CAP_TYPE_NONE); simpl in Hv.
      * left. exists slot. done.
      * right. split; [done|]. intros k (_ & Hv' & _ & Ek). specialize (Ek Hne). congruence.
Qed.

(** A capability may be handed on: it exists and carries the GRANT right. *)
Definition grantable (h : store) (src slot : Z) (cap : capability) : Prop :=
  exists s, h !! src = Some s /\ view s slot = Some cap /\
    ztrue (Z.land (cap_rights cap) CAP_RIGHT_GRANT) = true.

(** The common part of [cap_copy] and [cap_mint]: a capability [derive c], of the type and object
    of [c], is stored in the destination. *)
Definition derived (h h' : store) (dst dst_slot k : Z) (cap : capability) : Prop :=
  exists d d', h !! dst = Some d /\ dst_choice d dst_slot k /\ h' = <[dst := d']> h /\
    store_ok h' /\ size d' = size d /\ used d' = used d + 1 /\ generation d' = generation d /\
    cap_generation cap = generation d /\ cap_slot cap = k /\
    forall j, view d' j = if decide (j = k) then Some cap else view d j.

Lemma store_ok_insert h a c : store_ok h -> cs_ok c -> store_ok (<[a := c]> h).
Proof.
  intros Hh Hc a' c'. destruct (decide (a' = a)) as [->|Hne].
  - rewrite lookup_insert_eq. by intros [= <-].
  - rewrite lookup_insert_ne by done. apply Hh.
Qed.

Section Transfer.
Context (h : store) (dst dst_slot src src_slot : Z) (d s : cspace).
Context (rights badge : capability -> Z).
Hypothesis (Hh : store_ok h) (Hd : h !! dst = Some d) (Hs : h !! src = Some s).
Hypothesis (Hslots : 0 <= dst_slot /\ 0 <= src_slot).

(** The body the two operations share, after the NULL checks. *)
Definition transfer : option (Z * store) :=
  if size s <=? src_slot then Some (-1, h) else
  d ← h !! dst;
  c ← get_slot s src_slot;
  if cap_type c =? CAP_TYPE_NONE then Some (-1, h) else
  if negb (ztrue (Z.land (cap_rights c) CAP_RIGHT_GRANT)) then Some (-1, h) else
  actual_dst ← pick_dst d dst_slot;
  if actual_dst <? 0 then Some (-1, h) else
  d ← set_slot d actual_dst
        (mk_cap (cap_type c) (rights c) (cap_object c) (badge c) (generation d) actual_dst);
  d ← cspace_mark_used d actual_dst;
  Some (actual_dst, <[dst := d]> h).

Lemma transfer_ok :
  (exists c k h' cap, transfer = Some (k, h') /\ grantable h src src_slot c /\
     cap = mk_cap (cap_type c) (rights c) (cap_object c) (badge c) (generation d) k /\
     derived h h' dst dst_slot k cap) \/
  (transfer = Some (-1, h) /\
     ((forall c, ~ grantable h src src_slot c) \/ (forall k, ~ dst_choice d dst_slot k))).
Proof using Hd Hh Hs Hslots.
  destruct (Hh _ _ Hs) as (l & b & Hr). unfold transfer.
  assert (forall c, grantable h src src_slot c ->
    view s src_slot = Some c /\ ztrue (Z.land (cap_rights c) CAP_RIGHT_GRANT) = true) as Hg.
  { intros c (s' & Hs' & Hv & Hg). rewrite Hs in Hs'. by injection Hs' as <-. }
  destruct (Z.leb_spec (size s) src_slot) as [Hsz|Hsz].
  { right. split; [done|]. left. intros c [Hv _]%Hg. apply (view_range s l b Hr) in Hv. lia. }
  rewrite Hd. cbn [mbind option_bind].
  destruct (slot_exists s l b Hr src_slot) as [c Hc]; [lia|]. rewrite (get_slot_ok s l b Hr), Hc.
  cbn [mbind option_bind]. pose proof (view_ok s l b Hr src_slot c Hc) as Hv.
  destruct (cap_type c =? CAP_TYPE_NONE) eqn:Et.
  { right. split; [done|]. left. intros c' [Hv' _]%Hg. unfold live in Hv. rewrite Et in Hv.
    simpl in Hv. congruence. }
  assert (live c = true) as Hlc by (unfold live; by rewrite Et). rewrite Hlc in Hv.
  destruct (ztrue (Z.land (cap_rights c) CAP_RIGHT_GRANT)) eqn:Egr; cbn [negb].
  2: { right. split; [done|]. left. intros c' [Hv' Hg']%Hg. congruence. }
  destruct (Hh _ _ Hd) as (ld & bd & Hrd).
  destruct (pick_dst_ok d dst_slot) as [(k & E & Hk)|[E Hno]]; [by exists ld, bd|lia| |];
    rewrite E; cbn [mbind option_bind].
  - left. pose proof Hk as (Hk1 & Hk2 & _). destruct (Z.ltb_spec k 0); [lia|].
    destruct (put_ok d ld bd Hrd k (mk_cap (cap_type c) (rights c) (cap_object c) (badge c)
      (generation d) k)) as (d1 & d2 & E1 & E2 & Ok & Sz & Gn & Us & Vw); [done|done|done|].
    rewrite E1. cbn [mbind option_bind]. rewrite E2. cbn [mbind option_bind].
    eexists c, k, _, _. split; [done|]. split; [by exists s|]. split; [done|].
    exists d, d2. split; [done|]. split; [done|]. split; [done|].
    split; [by apply store_ok_insert|]. done.
  - right. split; [done|]. by right.
Qed.
End Transfer.

(** ** Properties of the operations *)

(** [cap_copy] and [cap_mint] run without undefined behaviour on live cspaces.  They succeed
    exactly when the source slot holds a capability with the GRANT right and the requested slot
    (or, if the kernel may choose, some slot) of the destination is empty; the new capability has
    the type and object of the source, the rights of the source (of the source masked by
    [new_rights] for a mint), and fills exactly that slot; otherwise the result is -1 and nothing
    changes.  Source and destination may be the same cspace. *)
Theorem cap_transfer_spec h dst dst_slot src src_slot new_rights badge d s :
  store_ok h -> dst ≠ 0 -> src ≠ 0 -> h !! dst = Some d -> h !! src = Some s ->
  0 <= dst_slot -> 0 <= src_slot ->
  ((exists c k h', cap_mint h dst dst_slot src src_slot new_rights badge = Some (k, h') /\
      grantable h src src_slot c /\
      derived h h' dst dst_slot k (mk_cap (cap_type c) (Z.land (cap_rights c) new_rights)
        (cap_object c) badge (generation d) k)) \/
   (cap_mint h dst dst_slot src src_slot new_rights badge = Some (-1, h) /\
      ((forall c, ~ grantable h src src_slot c) \/ (forall k, ~ dst_choice d dst_slot k)))) /\
  ((exists c k h', cap_copy h dst dst_slot src src_slot = Some (k, h') /\
      grantable h src src_slot c /\
      derived h h' dst dst_slot k (mk_cap (cap_type c) (cap_rights c)
        (cap_object c) (cap_badge c) (generation d) k)) \/
   (cap_copy h dst dst_slot src src_slot = Some (-1, h) /\
      ((forall c, ~ grantable h src src_slot c) \/ (forall k, ~ dst_choice d dst_slot k)))).
Proof.
  intros Hh Hd0 Hs0 Hd Hs H1 H2. split.
  - unfold cap_mint. destruct (Z.eqb_spec dst 0); [done|]. destruct (Z.eqb_spec src 0); [done|].
    cbn [orb]. rewrite Hs. cbn [mbind option_bind].
    destruct (transfer_ok h dst dst_slot src src_slot d s (fun c => Z.land (cap_rights c) new_rights)
      (fun _ => badge)) as [(c & k & h' & cap & E & Hg & -> & HD)|[E Hno]]; [done..| |].
    + left. exists c, k, h'. split; [exact E|]. done.
    + right. split; [exact E|done].
  - unfold cap_copy. destruct (Z.eqb_spec dst 0); [done|]. destruct (Z.eqb_spec src 0); [done|].
    cbn [orb]. rewrite Hs. cbn [mbind option_bind].
    destruct (transfer_ok h dst dst_slot src src_slot d s cap_rights cap_badge)
      as [(c & k & h' & cap & E & Hg & -> & HD)|[E Hno]]; [done..| |].
    + left. exists c, k, h'. split; [exact E|]. done.
    + right. split; [exact E|done].
Qed.

Lemma cap_insert_ok h cs c cap :
  store_ok h -> cs ≠ 0 -> h !! cs = Some c -> live cap = true ->
  (exists k c', cap_insert h cs (Some cap) = Some (k, <[cs := c']> h) /\ dst_choice c ANY_SLOT k /\
     cs_ok c' /\ size c' = size c /\ used c' = used c + 1 /\
     forall j, view c' j = if decide (j = k)
       then Some (mk_cap (cap_type cap) (cap_rights cap) (cap_object cap) (cap_badge cap)
                    (generation c) k)
       else view c j) \/
  (cap_insert h cs (Some cap) = Some (-1, h) /\ forall j, 0 <= j < size c -> view c j ≠ None).
Proof.
  intros Hh H0 Hc Hl. destruct (Hh _ _ Hc) as (l & b & Hr). unfold cap_insert.
  destruct (Z.eqb_spec cs 0); [done|]. rewrite Hc. cbn [mbind option_bind].
  destruct (find_free_slot_ok c l b Hr) as [(k & E & Hk & Hv & Hm)|[E Hall]]; rewrite E;
    cbn [mbind option_bind]; [|by right].
  left. destruct (Z.ltb_spec k 0); [lia|].
  destruct (put_ok c l b Hr k (mk_cap (cap_type cap) (cap_rights cap) (cap_object cap)
    (cap_badge cap) (generation c) k)) as (c1 & c2 & E1 & E2 & Ok & Sz & Gn & Us & Vw); [done..|].
  rewrite E1. cbn [mbind option_bind]. rewrite E2. cbn [mbind option_bind].
  exists k, c2. split; [done|]. split; [|done]. split; [done|]. split; [done|]. done.
Qed.

Lemma cap_lookup_ok h cs c slot :
  store_ok h -> cs ≠ 0 -> h !! cs = Some c -> 0 <= slot -> cap_lookup h cs slot = Some (view c slot).
Proof.
  intros Hh H0 Hc Hs. destruct (Hh _ _ Hc) as (l & b & Hr). unfold cap_lookup.
  destruct (Z.eqb_spec cs 0); [done|]. rewrite Hc. cbn [mbind option_bind].
  destruct (Z.leb_spec (size c) slot).
  - destruct (view c slot) eqn:E; [|done]. apply (view_range c l b Hr) in E. lia.
  - destruct (slot_exists c l b Hr slot) as [s Hg]; [lia|].
    rewrite (get_slot_ok c l b Hr), Hg. cbn [mbind option_bind]. rewrite (view_ok c l b Hr slot s Hg).
    unfold live. by destruct (cap_type s =? CAP_TYPE_NONE).
Qed.

Lemma cap_delete_ok h cs c slot :
  store_ok h -> cs ≠ 0 -> h !! cs = Some c -> 0 <= slot ->
  (exists c', cap_delete h cs slot = Some (0, <[cs := c']> h) /\ is_Some (view c slot) /\ cs_ok c' /\
     size c' = size c /\ used c' = used c - 1 /\
     forall j, view c' j = if decide (j = slot) then None else view c j) \/
  (cap_delete h cs slot = Some (-1, h) /\ view c slot = None).
Proof.
  intros Hh H0 Hc Hs. destruct (Hh _ _ Hc) as (l & b & Hr). unfold cap_delete.
  destruct (Z.eqb_spec cs 0); [done|]. rewrite Hc. cbn [mbind option_bind].
  destruct (Z.leb_spec (size c) slot).
  - right. split; [done|].
    destruct (view c slot) eqn:E; [|done]. apply (view_range c l b Hr) in E. lia.
  - destruct (slot_exists c l b Hr slot) as [s Hg]; [lia|].
    rewrite (get_slot_ok c l b Hr), Hg. cbn [mbind option_bind].
    pose proof (view_ok c l b Hr slot s Hg) as Hv. unfold live in Hv.
    destruct (cap_type s =? CAP_TYPE_NONE); simpl in Hv; [by right|]. left.
    destruct (take_ok c l b Hr slot s Hv) as (c1 & c2 & E1 & E2 & Ok & Sz & _ & Us & Vw).
    rewrite E1. cbn [mbind option_bind]. rewrite E2. cbn [mbind option_bind].
    exists c2. by rewrite Hv.
Qed.

(** A cspace behaves as a finite map from slots to capabilities: [cap_insert] fills the
    lowest empty slot and returns it, or returns -1 exactly when the cspace is full; the inserted
    capability is then what [cap_lookup] finds there; [cap_delete] of that slot brings back the
    original contents, slot for slot, and the original count. *)
Theorem cap_insert_delete_roundtrip h cs c cap :
  store_ok h -> cs ≠ 0 -> h !! cs = Some c -> live cap = true ->
  (exists k h1 c2, cap_insert h cs (Some cap) = Some (k, h1) /\ dst_choice c ANY_SLOT k /\
     store_ok h1 /\
     (forall j, 0 <= j -> cap_lookup h1 cs j = if decide (j = k)
        then Some (Some (mk_cap (cap_type cap) (cap_rights cap) (cap_object cap) (cap_badge cap)
                           (generation c) k))
        else cap_lookup h cs j) /\
     cap_delete h1 cs k = Some (0, <[cs := c2]> h1) /\ store_ok (<[cs := c2]> h1) /\
     used c2 = used c /\ forall j, view c2 j = view c j) \/
  (cap_insert h cs (Some cap) = Some (-1, h) /\ forall j, 0 <= j < size c -> view c j ≠ None).
Proof.
  intros Hh H0 Hc Hl.
  destruct (cap_insert_ok h cs c cap Hh H0 Hc Hl) as
    [(k & c1 & E1 & Hk & Ok1 & Sz1 & Us1 & V1)|?]; [left|by right].
  assert (store_ok (<[cs := c1]> h)) as Hh1 by (by apply store_ok_insert).
  pose proof (lookup_insert_eq h cs c1) as Hc1.
  destruct (cap_delete_ok _ cs c1 k Hh1 H0 Hc1) as [(c2 & E2 & _ & Ok2 & Sz2 & Us2 & V2)|[E2 Hv]].
  - destruct Hk. lia.
  - exists k, (<[cs := c1]> h), c2. split; [done|]. split; [done|]. split; [done|].
    split; [|split; [done|split; [by apply store_ok_insert|split; [lia|]]]].
    + intros j Hj. rewrite (cap_lookup_ok _ cs c1 j Hh1 H0 Hc1 Hj), (cap_lookup_ok h cs c j Hh H0 Hc Hj).
      rewrite V1. by case_decide.
    + intros j. rewrite V2, V1. case_decide; [|done]. subst. destruct Hk as (_ & -> & _). done.
  - rewrite V1, decide_True in Hv by done. done.
Qed.

(** ** Confinement of authority *)

(** What processes can do with the capabilities they hold: any interleaving of these calls. *)
Inductive cap_step : store -> store -> Prop :=
  | cap_step_copy h dst dst_slot src src_slot r h' :
      0 <= dst_slot -> 0 <= src_slot ->
      cap_copy h dst dst_slot src src_slot = Some (r, h') -> cap_step h h'
  | cap_step_mint h dst dst_slot src src_slot rights badge r h' :
      0 <= dst_slot -> 0 <= src_slot ->
      cap_mint h dst dst_slot src src_slot rights badge = Some (r, h') -> cap_step h h'
  | cap_step_delete h cs slot r h' :
      0 <= slot -> cap_delete h cs slot = Some (r, h') -> cap_step h h'
  | cap_step_revoke h cs slot r h' :
      0 <= slot -> cap_revoke h cs slot = Some (r, h') -> cap_step h h'.

Definition rights_within (r r0 : Z) : Prop := Z.land r r0 = r.

(** Capability [cap] in slot [i] of cspace [a] comes from the store [h0]: it was there, or it is
    a copy, with no more rights, of a capability that could be granted. *)
Definition authorised (h0 : store) (a i : Z) (cap : capability) : Prop :=
  exists a0 c0 i0 cap0, h0 !! a0 = Some c0 /\ view c0 i0 = Some cap0 /\
    cap_type cap = cap_type cap0 /\ cap_object cap = cap_object cap0 /\
    rights_within (cap_rights cap) (cap_rights cap0) /\
    (a0 = a /\ i0 = i /\ cap0 = cap \/ ztrue (Z.land (cap_rights cap0) CAP_RIGHT_GRANT) = true).

Definition confined (h0 h : store) : Prop :=
  store_ok h /\ forall a c i cap, h !! a = Some c -> view c i = Some cap -> authorised h0 a i cap.

Lemma rights_within_refl r : rights_within r r.
Proof. apply Z.land_diag. Qed.

Lemma rights_within_trans r1 r2 r3 : rights_within r1 r2 -> rights_within r2 r3 -> rights_within r1 r3.
Proof. unfold rights_within. intros H1 H2. rewrite <- H1 at 1. rewrite <- Z.land_assoc, H2. done. Qed.

Lemma rights_within_bit r r0 n : 0 <= n -> rights_within r r0 ->
  ztrue (Z.land r (Z.shiftl 1 n)) = true -> ztrue (Z.land r0 (Z.shiftl 1 n)) = true.
Proof.
  intros Hn <-. rewrite !ztrue_land_bit, Z.land_spec by done. by intros [_ ?]%andb_true_iff.
Qed.

Lemma derived_confined h0 h h' dst dst_slot src src_slot k c cap :
  confined h0 h -> grantable h src src_slot c -> derived h h' dst dst_slot k cap ->
  cap_type cap = cap_type c -> cap_object cap = cap_object c ->
  rights_within (cap_rights cap) (cap_rights c) -> confined h0 h'.
Proof.
  intros [Hok Hall] (s & Hs & Hv & Hg) (d & d' & Hd & _ & -> & Hok' & _ & _ & _ & _ & _ & HV) Et Eo Er.
  split; [done|]. intros a x i cap' Hx Hv'.
  destruct (decide (a = dst)) as [->|Hne]; [|rewrite lookup_insert_ne in Hx by done; by eapply Hall].
  rewrite lookup_insert_eq in Hx. injection Hx as <-. rewrite HV in Hv'.
  case_decide as Ei; [|by eapply Hall]. injection Hv' as <-.
  destruct (Hall _ _ _ _ Hs Hv) as (a0 & c0 & i0 & cap0 & A1 & A2 & A3 & A4 & A5 & _).
  exists a0, c0, i0, cap0. split; [done|]. split; [done|]. split; [congruence|]. split; [congruence|].
  split; [by eapply rights_within_trans|]. right. by eapply rights_within_bit.
Qed.

(** Storing a cspace all of whose capabilities were there before. *)
Lemma subset_confined h0 h cs c c' :
  confined h0 h -> h !! cs = Some c -> cs_ok c' ->
  (forall j cap, view c' j = Some cap -> view c j = Some cap) -> confined h0 (<[cs := c']> h).
Proof.
  intros [Hok Hall] Hc Hok' Hsub. split; [by apply store_ok_insert|]. intros a x i cap Hx Hv.
  destruct (decide (a = cs)) as [->|Hne]; [|rewrite lookup_insert_ne in Hx by done; by eapply Hall].
  rewrite lookup_insert_eq in Hx. injection Hx as <-. eapply Hall; [done|]. by apply Hsub.
Qed.

Lemma revoke_view h cs slot r h' :
  cap_revoke h cs slot = Some (r, h') ->
  h' = h \/ exists c, h !! cs = Some c /\ r = 0 /\
    h' = <[cs := mk_cspace (slots c) (size c) (used c) (cs_bitmap c) (u32 (generation c + 1))]> h.
Proof.
  unfold cap_revoke. destruct (cs =? 0); [intros [= <- <-]; by left|].
  destruct (h !! cs) as [c|]; [|done]. cbn [mbind option_bind].
  destruct (size c <=? slot); [intros [= <- <-]; by left|].
  destruct (get_slot c slot) as [s|]; [|done]. cbn [mbind option_bind].
  destruct (cap_type s =? CAP_TYPE_NONE); [intros [= <- <-]; by left|].
  destruct (negb _); [intros [= <- <-]; by left|]. intros [= <- <-]. right. by exists c.
Qed.

Lemma same_view_ok c g : cs_ok c -> cs_ok (mk_cspace (slots c) (size c) (used c) (cs_bitmap c) g).
Proof. intros (l & b & []). exists l, b. by split. Qed.

Lemma transfer_step h0 h dst dst_slot src src_slot rights badge r h' s :
  confined h0 h -> 0 <= dst_slot -> 0 <= src_slot -> h !! src = Some s ->
  (forall c, rights_within (rights c) (cap_rights c)) ->
  transfer h dst dst_slot src_slot s rights badge = Some (r, h') -> confined h0 h'.
Proof.
  intros HC H1 H2 Hs Hr E. destruct (h !! dst) as [d|] eqn:Hd.
  2: { unfold transfer in E. rewrite Hd in E. destruct (_ <=? _); [by injection E as <- <-|done]. }
  destruct (transfer_ok h dst dst_slot src src_slot d s rights badge) as
    [(c & k & h1 & cap & E1 & Hg & -> & HD)|[E1 _]]; [apply HC|done|done|done| |];
    rewrite E in E1; injection E1 as -> ->; [|done].
  eapply (derived_confined h0 h); [done|exact Hg|exact HD|done|done|apply Hr].
Qed.

Lemma cap_step_confined h0 h h' : confined h0 h -> cap_step h h' -> confined h0 h'.
Proof.
  intros HC HS. destruct HS as [h dst ds src ss r h' H1 H2 E|h dst ds src ss rt bd r h' H1 H2 E|
    h cs slot r h' H1 E|h cs slot r h' H1 E].
  - unfold cap_copy in E. destruct (_ || _); [by injection E as <- <-|].
    destruct (h !! src) as [s|] eqn:Hs; [|done]. cbn [mbind option_bind] in E.
    eapply (transfer_step h0 h dst ds src ss cap_rights cap_badge); [done..| |exact E].
    intros c. apply rights_within_refl.
  - unfold cap_mint in E. destruct (_ || _); [by injection E as <- <-|].
    destruct (h !! src) as [s|] eqn:Hs; [|done]. cbn [mbind option_bind] in E.
    eapply (transfer_step h0 h dst ds src ss (fun c => Z.land (cap_rights c) rt) (fun _ => bd));
      [done..| |exact E].
    intros c. unfold rights_within. by rewrite (Z.land_comm (cap_rights c)), <- Z.land_assoc, Z.land_diag.
  - destruct (decide (cs = 0)) as [->|H0]; [by injection E as <- <-|].
    destruct (h !! cs) as [c|] eqn:Hc.
    2: { unfold cap_delete in E. destruct (Z.eqb_spec cs 0); [done|]. by rewrite Hc in E. }
    destruct (cap_delete_ok h cs c slot (proj1 HC) H0 Hc H1) as [(c' & E' & _ & Ok & _ & _ & V)|[E' _]];
      rewrite E in E'; injection E' as -> ->; [|done].
    eapply subset_confined; [done..|]. intros j cap. rewrite V. by case_decide.
  - apply revoke_view in E as [->|(c & Hc & _ & ->)]; [done|].
    eapply subset_confined; [done|done|apply same_view_ok; by eapply (proj1 HC)|done].
Qed.

(** C2.  Capabilities are unforgeable: whatever sequence of copies, mints, deletions and
    revocations processes perform, every capability they then hold was held at the start in the
    same slot, or derives, with a subset of the rights, from a capability of the start that
    carried the GRANT right and names the same object; no right and no object is ever gained
    from nothing, and all cspaces stay well formed. *)
Theorem capabilities_confined h0 h :
  store_ok h0 -> rtc cap_step h0 h -> confined h0 h.
Proof.
  intros Hok HR. assert (confined h0 h0) as HC.
  { split; [done|]. intros a c i cap Hc Hv. exists a, c, i, cap. do 4 (split; [done|]).
    split; [apply rights_within_refl|]. by left. }
  clear Hok. revert HC. generalize h0 at 1 3. induction HR as [h|h1 h2 h3 HS HR IH]; intros g HC; [done|].
  apply IH. by eapply cap_step_confined.
Qed.

(** Revocation revokes nothing: after a successful [cap_revoke] every lookup in every cspace
    gives the very result it gave before, since no operation compares a capability's generation
    with that of its cspace. *)
Theorem revoke_has_no_effect h cs slot h' :
  cap_revoke h cs slot = Some (0, h') ->
  (forall cs' slot', cap_lookup h' cs' slot' = cap_lookup h cs' slot') /\
  (forall cs' slot', cap_get_endpoint h' cs' slot' = cap_get_endpoint h cs' slot').
Proof.
  intros E. assert (forall cs' slot', cap_lookup h' cs' slot' = cap_lookup h cs' slot') as HL.
  { intros cs' slot'. unfold cap_lookup.
    destruct (revoke_view h cs slot 0 h' E) as [->|(c & Hc & _ & ->)]; [done|].
    destruct (decide (cs' = cs)) as [->|Hne]; [|by rewrite lookup_insert_ne].
    by rewrite lookup_insert_eq, Hc. }
  split; [done|]. intros cs' slot'. unfold cap_get_endpoint. by rewrite HL.
Qed.

(** When [cspace_init] runs out of memory it leaves a cspace that claims 256 slots behind a
    NULL pointer: any later lookup in it, and its destruction, dereference NULL. *)
Theorem cspace_init_failure_unsafe h cs bitmap_ok slots_ok h' slot :
  cs ≠ 0 -> slots_ok && bitmap_ok = false -> 0 <= slot < CSPACE_SIZE ->
  cspace_init slots_ok bitmap_ok h cs = Some h' ->
  cap_lookup h' cs slot = None /\ cspace_destroy h' cs = None.
Proof.
  intros H0 Hf Hs E. unfold cspace_init in E. destruct (Z.eqb_spec cs 0); [done|].
  destruct (h !! cs) as [c|]; [|done]. cbn [mbind option_bind] in E.
  unfold cap_lookup, cspace_destroy. destruct (Z.eqb_spec cs 0); [done|].
  destruct slots_ok, bitmap_ok; try done; simpl in E; injection E as <-;
    rewrite lookup_insert_eq; cbn [mbind option_bind]; simpl size;
    destruct (Z.leb_spec CSPACE_SIZE slot); try lia; done.
Qed.

(** A fresh cspace is well formed and empty; destroying a well-formed cspace succeeds and
    leaves one with no slots, in which every lookup is NULL. *)
Theorem cspace_lifecycle h cs c :
  store_ok h -> cs ≠ 0 -> h !! cs = Some c ->
  (exists c', cspace_init true true h cs = Some (<[cs := c']> h) /\ cs_ok c' /\
     size c' = CSPACE_SIZE /\ used c' = 0 /\ forall j, view c' j = None) /\
  (exists h', cspace_destroy h cs = Some h' /\ forall j, 0 <= j -> cap_lookup h' cs j = Some None).
Proof.
  intros Hh H0 Hc. split.
  - unfold cspace_init. destruct (Z.eqb_spec cs 0); [done|]. rewrite Hc. cbn [mbind option_bind negb].
    eexists. split; [done|]. split; [|split; [done|split; [done|]]].
    + eexists _, _. split; [reflexivity|reflexivity|done|reflexivity| |reflexivity].
      intros i s Hs. apply zget_lookup in Hs as [Hi Hs]. apply lookup_replicate in Hs as [-> Hlt].
      unfold wbit. destruct (zget _ (i / 64)) eqn:E; [|by rewrite Z.testbit_0_l].
      apply zget_lookup in E as [_ E]. apply lookup_replicate in E as [-> _]. by rewrite Z.testbit_0_l.
    + intros j. unfold view, get_slot. cbn [slots mbind option_bind].
      destruct (zget _ j) as [s|] eqn:E; [|done]. apply zget_lookup in E as [_ E].
      by apply lookup_replicate in E as [-> _].
  - destruct (Hh _ _ Hc) as (l & b & Hr). unfold cspace_destroy. destruct (Z.eqb_spec cs 0); [done|].
    rewrite Hc. cbn [mbind option_bind]. pose proof Hr as [R1 _ (R3 & _) _ _ _].
    destruct (for_range_ind (fun _ x => exists l', slots x = Some l' /\ zlen l' = size c)
      (Z.to_nat (size c)) 0 (fun i c => s ← get_slot c i;
           if cap_type s =? CAP_TYPE_NONE then Some c
           else set_slot c i (with_type CAP_TYPE_NONE s)) c) as (c' & -> & _).
    + by exists l.
    + intros i x Hi (l' & El & Hl'). unfold get_slot, set_slot. rewrite El. cbn [mbind option_bind].
      destruct (proj2 (zget_Some l' i)) as [s Hs]; [lia|]. rewrite Hs. cbn [mbind option_bind].
      destruct (cap_type s =? CAP_TYPE_NONE); [exists x; split; [done|]; by exists l'|].
      destruct (zset_Some l' i (with_type CAP_TYPE_NONE s)) as [l2 E2]; [lia|]. rewrite E2.
      eexists. split; [done|]. exists l2. split; [done|]. by rewrite (zset_length _ _ _ _ E2).
    + cbn [mbind option_bind]. eexists. split; [done|]. intros j Hj. unfold cap_lookup.
      destruct (Z.eqb_spec cs 0); [done|]. rewrite lookup_insert_eq. cbn [mbind option_bind]. simpl size.
      by destruct (Z.leb_spec 0 j); [|lia].
Qed.

Lemma lock_order_spec dst src :
  StronglySorted Z.lt (lock_order dst src) /\ forall a, a ∈ lock_order dst src <-> a = dst \/ a = src.
Proof.
  unfold lock_order. destruct (Z.ltb_spec dst src); [|destruct (Z.ltb_spec src dst)].
  - split; [repeat constructor; lia|set_solver].
  - split; [repeat constructor; lia|set_solver].
  - assert (dst = src) as -> by lia. split; [repeat constructor|set_solver].
Qed.

(** ** Witnesses: a small cspace with two slots, the first holding an endpoint capability *)

Definition ex_cap : capability := mk_cap CAP_TYPE_ENDPOINT 0x3f 4096 0 1 0.
Definition ex_cs : cspace := mk_cspace (Some [ex_cap; cap_zero]) 2 1 (Some [1]) 1.
Definition ex_store : store := {[ 8 := ex_cs ]}.

Lemma ex_store_ok : store_ok ex_store.
Proof.
  intros a c Hc. unfold ex_store in Hc. apply lookup_singleton_Some in Hc as [<- <-].
  exists [ex_cap; cap_zero], [1].
  split; [reflexivity|reflexivity|split; [reflexivity|simpl; lia]|reflexivity| |reflexivity].
  intros i s Hs. pose proof (zget_range _ _ _ Hs) as Hr. change (zlen [ex_cap; cap_zero]) with 2 in Hr.
  assert (i = 0 \/ i = 1) as [->| ->] by lia; vm_compute in Hs; by injection Hs as <-.
Defined.

Lemma cap_transfer_spec_witness :
  ((exists c k h', cap_mint ex_store 8 ANY_SLOT 8 0 0x30 7 = Some (k, h') /\
      grantable ex_store 8 0 c /\
      derived ex_store h' 8 ANY_SLOT k (mk_cap (cap_type c) (Z.land (cap_rights c) 0x30)
        (cap_object c) 7 1 k)) \/
   (cap_mint ex_store 8 ANY_SLOT 8 0 0x30 7 = Some (-1, ex_store) /\
      ((forall c, ~ grantable ex_store 8 0 c) \/ (forall k, ~ dst_choice ex_cs ANY_SLOT k)))) /\
  ((exists c k h', cap_copy ex_store 8 ANY_SLOT 8 0 = Some (k, h') /\
      grantable ex_store 8 0 c /\
      derived ex_store h' 8 ANY_SLOT k (mk_cap (cap_type c) (cap_rights c)
        (cap_object c) (cap_badge c) 1 k)) \/
   (cap_copy ex_store 8 ANY_SLOT 8 0 = Some (-1, ex_store) /\
      ((forall c, ~ grantable ex_store 8 0 c) \/ (forall k, ~ dst_choice ex_cs ANY_SLOT k)))).
Proof.
  apply (cap_transfer_spec ex_store 8 ANY_SLOT 8 0 0x30 7 ex_cs ex_cs ex_store_ok);
    [discriminate|discriminate|reflexivity|reflexivity|discriminate|lia].
Defined.

Lemma cap_insert_delete_roundtrip_witness :
  (exists k h1 c2, cap_insert ex_store 8 (Some ex_cap) = Some (k, h1) /\ dst_choice ex_cs ANY_SLOT k /\
     store_ok h1 /\
     (forall j, 0 <= j -> cap_lookup h1 8 j = if decide (j = k)
        then Some (Some (mk_cap (cap_type ex_cap) (cap_rights ex_cap) (cap_object ex_cap)
                           (cap_badge ex_cap) (generation ex_cs) k))
        else cap_lookup ex_store 8 j) /\
     cap_delete h1 8 k = Some (0, <[8 := c2]> h1) /\ store_ok (<[8 := c2]> h1) /\
     used c2 = used ex_cs /\ forall j, view c2 j = view ex_cs j) \/
  (cap_insert ex_store 8 (Some ex_cap) = Some (-1, ex_store) /\
     forall j, 0 <= j < size ex_cs -> view ex_cs j ≠ None).
Proof.
  apply (cap_insert_delete_roundtrip ex_store 8 ex_cs ex_cap ex_store_ok);
    [discriminate|reflexivity|reflexivity].
Defined.

Definition ex_minted : store :=
  match cap_mint ex_store 8 ANY_SLOT 8 0 0x30 7 with Some (_, h) => h | None => ex_store end.

Lemma capabilities_confined_witness : confined ex_store ex_minted.
Proof.
  apply (capabilities_confined ex_store ex_minted ex_store_ok).
  apply rtc_once. apply (cap_step_mint ex_store 8 ANY_SLOT 8 0 0x30 7 1 ex_minted);
    [discriminate|lia|vm_compute; reflexivity].
Defined.

Definition ex_revoked : store :=
  match cap_revoke ex_minted 8 0 with Some (_, h) => h | None => ex_store end.

Lemma revoke_has_no_effect_witness :
  cap_revoke ex_minted 8 0 = Some (0, ex_revoked) /\
  (forall cs' slot', cap_lookup ex_revoked cs' slot' = cap_lookup ex_minted cs' slot') /\
  (forall cs' slot', cap_get_endpoint ex_revoked cs' slot' = cap_get_endpoint ex_minted cs' slot').
Proof.
  assert (cap_revoke ex_minted 8 0 = Some (0, ex_revoked)) as E by (vm_compute; reflexivity).
  split; [exact E|]. exact (revoke_has_no_effect ex_minted 8 0 ex_revoked E).
Defined.

Definition ex_failed : store := default ∅ (cspace_init true false ex_store 8).

Lemma cspace_init_failure_unsafe_witness :
  cap_lookup ex_failed 8 3 = None /\ cspace_destroy ex_failed 8 = None.
Proof.
  apply (cspace_init_failure_unsafe ex_store 8 false true ex_failed 3);
    [discriminate|reflexivity|unfold CSPACE_SIZE; lia|vm_compute; reflexivity].
Defined.

Lemma cspace_lifecycle_witness :
  (exists c', cspace_init true true ex_store 8 = Some (<[8 := c']> ex_store) /\ cs_ok c' /\
     size c' = CSPACE_SIZE /\ used c' = 0 /\ forall j, view c' j = None) /\
  (exists h', cspace_destroy ex_store 8 = Some h' /\ forall j, 0 <= j -> cap_lookup h' 8 j = Some None).
Proof. apply (cspace_lifecycle ex_store 8 ex_cs ex_store_ok); [discriminate|reflexivity]. Defined.
