(* ===== verification/Sched.v ===== *)
(** * Scheduler (kernel/sched/core.c)

    The threads live in a store indexed by their address (0 is NULL).  The run queue keeps, for
    each of the 140 priorities, the sequence of the threads linked on that list; that the list
    operations of list.h implement these sequences is the subject of ListHead.v.  A thread's
    [run_list] node is "empty" (linked to itself) exactly when the thread is on none of them.

    [switch_context] transfers control to another stack: the functions below describe the state
    up to that point, and the part of a blocking function that runs once its thread is resumed is
    a definition of its own (names ending in [_resume]).  The hardware writes of a context switch
    (address space, kernel stacks, registers) are recorded in a log.  There is one CPU
    ([nr_cpus] is 1), and spinlocks with interrupts off make each operation atomic. *)
From S2P Require Import Prelude Defs.

(** ** The code *)

Definition MAX_PRIO : Z := 140.
Definition MAX_RT_PRIO : Z := 100.
Definition DEFAULT_PRIO : Z := MAX_RT_PRIO + 20.
Definition NICE_TO_PRIO (nice : Z) : Z := nice + DEFAULT_PRIO.
Definition DEFAULT_TIME_SLICE : Z := 10 * 1000 * 1000.
Definition HZ : Z := 100.
Definition TICK_NS : Z := 1000000000 / HZ.

Inductive task_state :=
  | TASK_RUNNING | TASK_INTERRUPTIBLE | TASK_UNINTERRUPTIBLE | TASK_STOPPED | TASK_ZOMBIE
  | TASK_DEAD.

#[export] Instance task_state_eq : EqDecision task_state.
Proof. solve_decision. Defined.

Definition TF_KTHREAD : Z := Z.shiftl 1 0.
Definition TF_IDLE : Z := Z.shiftl 1 1.
Definition TF_NEED_RESCHED : Z := Z.shiftl 1 2.

Record thread := mk_thread {
  t_tid : Z;
  t_process : Z;              (* struct process *, 0 is NULL *)
  t_state : task_state;
  t_flags : Z;
  t_priority : Z;             (* int *)
  t_nice : Z;
  t_time_slice : Z;
  t_kernel_stack : Z;         (* address, 0 is NULL *)
  t_kernel_stack_size : Z;
  t_system_time : Z;
  t_last_run : Z;
  t_wait_channel : Z;
  t_cpu : Z;
  t_cpu_mask : Z
}.

Definition set_state (s : task_state) (t : thread) : thread :=
  mk_thread (t_tid t) (t_process t) s (t_flags t) (t_priority t) (t_nice t) (t_time_slice t)
    (t_kernel_stack t) (t_kernel_stack_size t) (t_system_time t) (t_last_run t)
    (t_wait_channel t) (t_cpu t) (t_cpu_mask t).
Definition set_flags (f : Z) (t : thread) : thread :=
  mk_thread (t_tid t) (t_process t) (t_state t) f (t_priority t) (t_nice t) (t_time_slice t)
    (t_kernel_stack t) (t_kernel_stack_size t) (t_system_time t) (t_last_run t)
    (t_wait_channel t) (t_cpu t) (t_cpu_mask t).
Definition set_priority (p : Z) (t : thread) : thread :=
  mk_thread (t_tid t) (t_process t) (t_state t) (t_flags t) p (t_nice t) (t_time_slice t)
    (t_kernel_stack t) (t_kernel_stack_size t) (t_system_time t) (t_last_run t)
    (t_wait_channel t) (t_cpu t) (t_cpu_mask t).
Definition set_nice (n : Z) (t : thread) : thread :=
  mk_thread (t_tid t) (t_process t) (t_state t) (t_flags t) (t_priority t) n (t_time_slice t)
    (t_kernel_stack t) (t_kernel_stack_size t) (t_system_time t) (t_last_run t)
    (t_wait_channel t) (t_cpu t) (t_cpu_mask t).
Definition set_time_slice (s : Z) (t : thread) : thread :=
  mk_thread (t_tid t) (t_process t) (t_state t) (t_flags t) (t_priority t) (t_nice t) s
    (t_kernel_stack t) (t_kernel_stack_size t) (t_system_time t) (t_last_run t)
    (t_wait_channel t) (t_cpu t) (t_cpu_mask t).
Definition set_system_time (s : Z) (t : thread) : thread :=
  mk_thread (t_tid t) (t_process t) (t_state t) (t_flags t) (t_priority t) (t_nice t)
    (t_time_slice t) (t_kernel_stack t) (t_kernel_stack_size t) s (t_last_run t)
    (t_wait_channel t) (t_cpu t) (t_cpu_mask t).
Definition set_last_run (r : Z) (t : thread) : thread :=
  mk_thread (t_tid t) (t_process t) (t_state t) (t_flags t) (t_priority t) (t_nice t)
    (t_time_slice t) (t_kernel_stack t) (t_kernel_stack_size t) (t_system_time t) r
    (t_wait_channel t) (t_cpu t) (t_cpu_mask t).
Definition set_wait_channel (c : Z) (t : thread) : thread :=
  mk_thread (t_tid t) (t_process t) (t_state t) (t_flags t) (t_priority t) (t_nice t)
    (t_time_slice t) (t_kernel_stack t) (t_kernel_stack_size t) (t_system_time t) (t_last_run t)
    c (t_cpu t) (t_cpu_mask t).
Definition set_cpu (c : Z) (t : thread) : thread :=
  mk_thread (t_tid t) (t_process t) (t_state t) (t_flags t) (t_priority t) (t_nice t)
    (t_time_slice t) (t_kernel_stack t) (t_kernel_stack_size t) (t_system_time t) (t_last_run t)
    (t_wait_channel t) c (t_cpu_mask t).

Record run_queue := mk_rq {
  nr_running : Z;
  queue : list (list Z);       (* struct list_head queue[MAX_PRIO] *)
  rq_bitmap : list Z;          (* u64 bitmap[3] *)
  curr : Z;
  idle : Z;
  switches : Z;
  total_time : Z;
  idle_time : Z;
  cpu_id : Z;
  tick_count : Z
}.

Definition rq_lists (n : Z) (qs : list (list Z)) (b : list Z) (q : run_queue) : run_queue :=
  mk_rq n qs b (curr q) (idle q) (switches q) (total_time q) (idle_time q) (cpu_id q) (tick_count q).
Definition rq_curr (t : Z) (q : run_queue) : run_queue :=
  mk_rq (nr_running q) (queue q) (rq_bitmap q) t (idle q) (switches q) (total_time q)
    (idle_time q) (cpu_id q) (tick_count q).
Definition rq_idle (t : Z) (q : run_queue) : run_queue :=
  mk_rq (nr_running q) (queue q) (rq_bitmap q) (curr q) t (switches q) (total_time q)
    (idle_time q) (cpu_id q) (tick_count q).
Definition rq_stats (sw total idl ticks : Z) (q : run_queue) : run_queue :=
  mk_rq (nr_running q) (queue q) (rq_bitmap q) (curr q) (idle q) sw total idl (cpu_id q) ticks.

(** What a context switch writes to the hardware. *)
Inductive hw_event :=
  | PagingSwitch (mm : Z)
  | SetKernelRsp (rsp : Z)
  | SetTssRsp0 (rsp : Z)
  | SwitchContext (prev next : Z).

Record sched := mk_sched {
  threads : gmap Z thread;
  procs : gmap Z Z;            (* process -> its mm, 0 is NULL *)
  runqueues : option run_queue;
  current_thread : Z;
  preempt : Z;                 (* _preempt_count *)
  global_ticks : Z;
  boot_time_ns : Z;
  waitqs : gmap Z (list Z);    (* struct wait_queue -> its threads *)
  all_threads : list Z;
  hw : list hw_event           (* latest first *)
}.

Definition with_threads (st : sched) (ts : gmap Z thread) : sched :=
  mk_sched ts (procs st) (runqueues st) (current_thread st) (preempt st) (global_ticks st)
    (boot_time_ns st) (waitqs st) (all_threads st) (hw st).
Definition with_rq (st : sched) (q : run_queue) : sched :=
  mk_sched (threads st) (procs st) (Some q) (current_thread st) (preempt st) (global_ticks st)
    (boot_time_ns st) (waitqs st) (all_threads st) (hw st).
Definition with_current (st : sched) (t : Z) : sched :=
  mk_sched (threads st) (procs st) (runqueues st) t (preempt st) (global_ticks st)
    (boot_time_ns st) (waitqs st) (all_threads st) (hw st).
Definition with_preempt (st : sched) (n : Z) : sched :=
  mk_sched (threads st) (procs st) (runqueues st) (current_thread st) n (global_ticks st)
    (boot_time_ns st) (waitqs st) (all_threads st) (hw st).
Definition with_ticks (st : sched) (n : Z) : sched :=
  mk_sched (threads st) (procs st) (runqueues st) (current_thread st) (preempt st) n
    (boot_time_ns st) (waitqs st) (all_threads st) (hw st).
Definition with_waitqs (st : sched) (w : gmap Z (list Z)) : sched :=
  mk_sched (threads st) (procs st) (runqueues st) (current_thread st) (preempt st)
    (global_ticks st) (boot_time_ns st) w (all_threads st) (hw st).
Definition emit (st : sched) (e : hw_event) : sched :=
  mk_sched (threads st) (procs st) (runqueues st) (current_thread st) (preempt st)
    (global_ticks st) (boot_time_ns st) (waitqs st) (all_threads st) (e :: hw st).

(** [t->field = ...]; dereferencing NULL or a dangling pointer fails. *)
Definition upd_thread (st : sched) (t : Z) (f : thread -> thread) : option sched :=
  x ← threads st !! t; Some (with_threads st (<[t := f x]> (threads st))).

Definition bitmap_set (b : list Z) (bit : Z) : option (list Z) :=
  zupd b (bit / 64) (fun w => Z.lor w (Z.shiftl 1 (bit mod 64))).

Definition bitmap_clear (b : list Z) (bit : Z) : option (list Z) :=
  zupd b (bit / 64) (fun w => Z.land w (lnotw 64 (Z.shiftl 1 (bit mod 64)))).

(** [__builtin_ctzll] on a non-zero word: the index of the lowest set bit. *)
Fixpoint ctz_loop (n : nat) (i w : Z) : Z :=
  match n with
  | O => i
  | S n' => if Z.testbit w i then i else ctz_loop n' (i + 1) w
  end.
Definition ctzll (w : Z) : Z := ctz_loop 64 0 w.

Definition bitmap_ffs (b : list Z) (nbits : Z) : option Z :=
  let nwords := (nbits + 63) / 64 in
  r ← for_return (Z.to_nat nwords) 0
        (fun i (_ : unit) => w ← zget b i;
                             Some (if ztrue w then inr (i * 64 + ctzll w) else inl tt)) tt;
  Some (match r with inr i => i | inl _ => -1 end).

(** [cpu_rq(cpu)] is a run queue only for CPU 0. *)
Definition cpu_rq (st : sched) (cpu : Z) : option run_queue :=
  if (cpu <? 0) || (1 <=? cpu) then None else runqueues st.

(** [!list_empty(&t->run_list)] *)
Definition on_rq (q : run_queue) (t : Z) : bool := existsb (fun l => bool_decide (t ∈ l)) (queue q).

(** [list_del_init(&t->run_list)] *)
Definition unlink (qs : list (list Z)) (t : Z) : list (list Z) := (filter (fun x => x ≠ t)) <$> qs.

Definition clamp_prio (prio : Z) : Z :=
  let prio := if prio <? 0 then 0 else prio in
  if MAX_PRIO <=? prio then MAX_PRIO - 1 else prio.

Definition rq_init (cpu_id : Z) : run_queue :=
  mk_rq 0 (replicate (Z.to_nat MAX_PRIO) []) (replicate 3 0) 0 0 0 0 0 cpu_id 0.

Definition enqueue_thread_locked (st : sched) (t : Z) : option sched :=
  q ← runqueues st;
  x ← threads st !! t;
  if on_rq q t then Some st else
  let prio := clamp_prio (t_priority x) in
  qs ← zupd (queue q) prio (fun l => l ++ [t]);
  b ← bitmap_set (rq_bitmap q) prio;
  upd_thread (with_rq st (rq_lists (u64 (nr_running q + 1)) qs b q)) t (set_cpu (cpu_id q)).

Definition sched_add (st : sched) (t : Z) : option sched :=
  st ← upd_thread st t (set_state TASK_RUNNING);
  enqueue_thread_locked st t.

Definition sched_remove (st : sched) (t : Z) : option sched :=
  x ← threads st !! t;
  match cpu_rq st (t_cpu x) with
  | None => Some st
  | Some q =>
      if on_rq q t then
        let qs := unlink (queue q) t in
        l ← zget qs (t_priority x);
        b ← (if bool_decide (l = []) then bitmap_clear (rq_bitmap q) (t_priority x)
             else Some (rq_bitmap q));
        Some (with_rq st (rq_lists (u64 (nr_running q - 1)) qs b q))
      else Some st
  end.

(** The thread picked and the run queue without it. *)
Definition pick_next_thread (q : run_queue) : option (Z * run_queue) :=
  prio ← bitmap_ffs (rq_bitmap q) MAX_PRIO;
  if prio <? 0 then Some (idle q, q) else
  l ← zget (queue q) prio;
  next ← head l;
  let qs := unlink (queue q) next in
  l ← zget qs prio;
  b ← (if bool_decide (l = []) then bitmap_clear (rq_bitmap q) prio else Some (rq_bitmap q));
  Some (next, rq_lists (u64 (nr_running q - 1)) qs b q).

Definition switch_to (st : sched) (prev next : Z) : option sched :=
  q ← runqueues st;
  let st := with_current (with_rq st (rq_curr next q)) next in
  p ← threads st !! prev;
  n ← threads st !! next;
  st ← (if negb (t_process p =? t_process n) then
          if negb (t_process n =? 0) then
            mm ← procs st !! t_process n;
            Some (if negb (mm =? 0) then emit st (PagingSwitch mm) else st)
          else Some st
        else Some st);
  let st :=
    if negb (t_kernel_stack n =? 0) then
      emit (emit st (SetKernelRsp (u64 (t_kernel_stack n + t_kernel_stack_size n - 8))))
        (SetTssRsp0 (u64 (t_kernel_stack n + t_kernel_stack_size n)))
    else st in
  q ← runqueues st;
  let st := with_rq st (rq_stats (u64 (switches q + 1)) (total_time q) (idle_time q) (tick_count q) q) in
  st ← upd_thread st next (set_last_run (global_ticks st));
  st ← upd_thread st next (fun n => set_flags (Z.land (t_flags n) (lnotw 32 TF_NEED_RESCHED)) n);
  Some (emit st (SwitchContext prev next)).

Definition preempt_disable (st : sched) : sched := with_preempt st (preempt st + 1).

(** The first half of [preempt_enable]: the counter, and whether [schedule] is called. *)
Definition preempt_enable_dec (st : sched) : option (sched * bool) :=
  let st := if 0 <? preempt st then with_preempt st (preempt st - 1) else st in
  if negb (preempt st =? 0) || (current_thread st =? 0) then Some (st, false) else
  c ← threads st !! current_thread st;
  Some (st, ztrue (Z.land (t_flags c) TF_NEED_RESCHED)).

(** [schedule] up to its call of [switch_to], or up to the call of [preempt_enable] when the
    picked thread is the one already running: [inl] is the state of the thread switched to, [inr]
    the state in which this thread goes on with [preempt_enable]. *)
Definition schedule_body (st : sched) : option (sched + sched) :=
  q ← runqueues st;
  let '(prev, st) :=
    if current_thread st =? 0
    then (idle q, with_current (with_rq st (rq_curr (idle q) q)) (idle q))
    else (current_thread st, st) in
  let st := preempt_disable st in
  runnable ← (if prev =? 0 then Some false
              else p ← threads st !! prev;
                   Some (bool_decide (t_state p = TASK_RUNNING) && negb (prev =? idle q)));
  st ← (if runnable : bool then enqueue_thread_locked st prev else Some st);
  q ← runqueues st;
  '(next, q) ← pick_next_thread q;
  let st := with_rq st q in
  if negb (next =? prev) then st ← switch_to st prev next; Some (inl st) else Some (inr st).

(** [schedule], with [fuel] nested calls through [preempt_enable] allowed; [None] is undefined
    behaviour, [Some None] a run that needs more nested calls. *)
Fixpoint schedule (fuel : nat) (st : sched) : option (option sched) :=
  match fuel with
  | O => Some None
  | S n =>
      r ← schedule_body st;
      match r with
      | inl st => Some (Some st)
      | inr st =>
          '(st, again) ← preempt_enable_dec st;
          if again : bool then schedule n st else Some (Some st)
      end
  end.

(** What a thread does when it is switched back to inside [schedule]. *)
Definition schedule_resume (fuel : nat) (st : sched) : option (option sched) :=
  '(st, again) ← preempt_enable_dec st;
  if again : bool then schedule fuel st else Some (Some st).

(** [preempt_enable] called from outside [schedule] does the same. *)
Definition preempt_enable (fuel : nat) (st : sched) : option (option sched) := schedule_resume fuel st.

Definition sched_yield (fuel : nat) (st : sched) : option (option sched) :=
  st ← upd_thread st (current_thread st)
         (fun t => set_flags (Z.lor (t_flags t) TF_NEED_RESCHED) t);
  schedule fuel st.

Definition sched_tick (st : sched) : option sched :=
  q ← runqueues st;
  let cur := current_thread st in
  let st := with_ticks st (u64 (global_ticks st + 1)) in
  let tick := u64 (tick_count q + 1) in
  if (cur =? 0) || (cur =? idle q) then
    let st := with_rq st (rq_stats (switches q) (total_time q) (u64 (idle_time q + TICK_NS)) tick q) in
    if (0 <? nr_running q) && negb (cur =? 0)
    then upd_thread st cur (fun t => set_flags (Z.lor (t_flags t) TF_NEED_RESCHED) t)
    else Some st
  else
    c ← threads st !! cur;
    st ← (if TICK_NS <? t_time_slice c
          then upd_thread st cur (set_time_slice (u64 (t_time_slice c - TICK_NS)))
          else upd_thread st cur (fun t => set_flags (Z.lor (t_flags t) TF_NEED_RESCHED)
                                             (set_time_slice DEFAULT_TIME_SLICE t)));
    st ← upd_thread st cur (fun t => set_system_time (u64 (t_system_time t + TICK_NS)) t);
    Some (with_rq st (rq_stats (switches q) (u64 (total_time q + TICK_NS)) (idle_time q) tick q)).

Definition sched_wakeup (st : sched) (t : Z) : option sched :=
  x ← threads st !! t;
  if bool_decide (t_state x = TASK_RUNNING) then Some st else
  st ← upd_thread st t (fun x => set_time_slice DEFAULT_TIME_SLICE (set_state TASK_RUNNING x));
  if t =? current_thread st then Some st else sched_add st t.

Definition sched_set_priority (st : sched) (t prio : Z) : option sched :=
  let prio := clamp_prio prio in
  x ← threads st !! t;
  let rq := cpu_rq st (t_cpu x) in
  linked ← (q ← runqueues st; Some (on_rq q t));
  if linked : bool then
    q ← rq;
    let qs := unlink (queue q) t in
    l ← zget qs (t_priority x);
    b ← (if bool_decide (l = []) then bitmap_clear (rq_bitmap q) (t_priority x)
         else Some (rq_bitmap q));
    st ← upd_thread st t (set_priority prio);
    qs ← zupd qs prio (fun l => l ++ [t]);
    b ← bitmap_set b prio;
    Some (with_rq st (rq_lists (nr_running q) qs b q))
  else upd_thread st t (set_priority prio).

Definition sched_set_nice (st : sched) (t nice : Z) : option sched :=
  let nice := if nice <? -20 then -20 else nice in
  let nice := if 19 <? nice then 19 else nice in
  st ← upd_thread st t (set_nice nice);
  sched_set_priority st t (NICE_TO_PRIO nice).

Definition get_ticks (st : sched) : Z := global_ticks st.
Definition get_time_ns (st : sched) : Z := u64 (boot_time_ns st + u64 (global_ticks st * TICK_NS)).

(** The tick at which [msleep] and [nsleep] stop yielding. *)
Definition msleep_end (st : sched) (ms : Z) : Z := u64 (global_ticks st + u64 (ms * HZ) / 1000).
Definition nsleep_end (st : sched) (ns : Z) : Z :=
  u64 (global_ticks st + u64 (ns + TICK_NS - 1) / TICK_NS).

Definition thread_sleep (fuel : nat) (st : sched) (channel : Z) : option (option sched) :=
  if current_thread st =? 0 then Some (Some st) else
  let t := current_thread st in
  st ← upd_thread st t (fun x => set_state TASK_INTERRUPTIBLE (set_wait_channel channel x));
  st ← sched_remove st t;
  schedule fuel st.

Definition thread_sleep_resume (st : sched) (t : Z) : option sched :=
  upd_thread st t (set_wait_channel 0).

Definition wakes (x : thread) (channel : Z) : bool :=
  (t_wait_channel x =? channel) &&
  (bool_decide (t_state x = TASK_INTERRUPTIBLE) || bool_decide (t_state x = TASK_UNINTERRUPTIBLE)).

Fixpoint wakeup_loop (st : sched) (l : list Z) (channel : Z) : option sched :=
  match l with
  | [] => Some st
  | t :: l' =>
      x ← threads st !! t;
      st ← (if wakes x channel then sched_wakeup st t else Some st);
      wakeup_loop st l' channel
  end.

Definition thread_wakeup (st : sched) (channel : Z) : option sched :=
  wakeup_loop st (all_threads st) channel.

Definition wait_queue_init (st : sched) (wq : Z) : sched :=
  with_waitqs st (<[wq := []]> (waitqs st)).

Definition wait_event (fuel : nat) (st : sched) (wq : Z) : option (option sched) :=
  let t := current_thread st in
  l ← waitqs st !! wq;
  st ← upd_thread (with_waitqs st (<[wq := l ++ [t]]> (waitqs st))) t (set_state TASK_INTERRUPTIBLE);
  st ← sched_remove st t;
  schedule fuel st.

(** [list_del_init(&t->wait_list)]: the thread leaves whichever wait queue it is on. *)
Definition wait_unlink (st : sched) (t : Z) : sched :=
  with_waitqs st ((filter (fun x => x ≠ t)) <$> waitqs st).

Definition wait_event_resume (st : sched) (t : Z) : sched := wait_unlink st t.

Definition wake_up (st : sched) (wq : Z) : option sched :=
  l ← waitqs st !! wq;
  match l with
  | [] => Some st
  | t :: _ => sched_wakeup (wait_unlink st t) t
  end.

(** [while (!list_empty(&wq->head))]: [fuel] bounds the number of waiters. *)
Fixpoint wake_up_loop (fuel : nat) (st : sched) (wq : Z) : option sched :=
  l ← waitqs st !! wq;
  match l with
  | [] => Some st
  | t :: _ =>
      match fuel with
      | O => None
      | S n => st ← sched_wakeup (wait_unlink st t) t; wake_up_loop n st wq
      end
  end.

Definition wake_up_all (st : sched) (wq : Z) : option sched :=
  l ← waitqs st !! wq; wake_up_loop (length l) st wq.

(** The idle thread [create_idle_thread] builds. *)
Definition idle_thread (cpu_id : Z) : thread :=
  mk_thread (-1 - cpu_id) 0 TASK_RUNNING (Z.lor TF_KTHREAD TF_IDLE) (MAX_PRIO - 1) 0 0 0 0 0 0 0
    cpu_id (Z.shiftl 1 cpu_id).

(** [sched_init]; the arguments are the results of the two [kmalloc] calls (0 is NULL). *)
Definition sched_init (st : sched) (rq_mem idle_mem : Z) : sched :=
  if rq_mem =? 0 then
    mk_sched (threads st) (procs st) None (current_thread st) (preempt st) (global_ticks st)
      (boot_time_ns st) (waitqs st) (all_threads st) (hw st)
  else
    let st := with_rq st (rq_init 0) in
    if idle_mem =? 0 then st else
    let st := with_threads st (<[idle_mem := idle_thread 0]> (threads st)) in
    with_current (with_rq st (rq_curr idle_mem (rq_idle idle_mem (rq_init 0)))) idle_mem.

(** ** The run queue's invariant *)

Definition queue_at (q : run_queue) (p : Z) : list Z := default [] (zget (queue q) p).

(** Queued threads exist, are runnable, belong to this CPU and sit on the list of their priority;
    no thread is queued twice; the bitmap marks exactly the non-empty lists and the counter
    counts the queued threads. *)
Record rq_wf (ts : gmap Z thread) (q : run_queue) : Prop := {
  rw_len : zlen (queue q) = MAX_PRIO /\ zlen (rq_bitmap q) = 3 /\ Forall (fits 64) (rq_bitmap q);
  rw_bits : forall p l, zget (queue q) p = Some l -> wbit (rq_bitmap q) p = negb (bool_decide (l = []));
  rw_pad : forall p, MAX_PRIO <= p < 192 -> wbit (rq_bitmap q) p = false;
  rw_queued : forall p l t, zget (queue q) p = Some l -> t ∈ l ->
    exists x, ts !! t = Some x /\ t_priority x = p /\ t_state x = TASK_RUNNING /\ t_cpu x = 0;
  rw_nodup : NoDup (concat (queue q));
  rw_count : nr_running q = u64 (zlen (concat (queue q)))
}.

(** ** Lists of queues *)

Lemma zget_unlink qs t p : zget (unlink qs t) p = filter (fun x => x ≠ t) <$> zget qs p.
Proof. unfold zget, unlink. case_decide; [apply list_lookup_fmap|done]. Qed.

Lemma concat_unlink qs t : concat (unlink qs t) = filter (fun x => x ≠ t) (concat qs).
Proof.
  induction qs as [|l qs IH]; [done|]. unfold unlink in *. rewrite fmap_cons. cbn [concat].
  by rewrite filter_app, IH.
Qed.

Lemma elem_of_queues (qs : list (list Z)) t : t ∈ concat qs <-> exists p l, zget qs p = Some l /\ t ∈ l.
Proof.
  rewrite list_elem_of_In, in_concat. split.
  - intros (l & Hl & Ht). apply list_elem_of_In, list_elem_of_lookup in Hl as [i Hi].
    exists (Z.of_nat i), l. rewrite zget_nat. split; [done|]. by apply list_elem_of_In.
  - intros (p & l & Hl & Ht). exists l. apply zget_lookup in Hl as [_ Hl].
    split; apply list_elem_of_In; [|done]. by eapply list_elem_of_lookup_2.
Qed.

Lemma on_rq_spec q t : on_rq q t = true <-> t ∈ concat (queue q).
Proof.
  unfold on_rq. rewrite existsb_exists, list_elem_of_In, in_concat.
  split; intros (l & Hl & Ht); exists l; (split; [done|]).
  - apply bool_decide_eq_true in Ht. by apply list_elem_of_In.
  - apply bool_decide_eq_true. by apply list_elem_of_In.
Qed.

(** In a duplicate-free family of lists an element is on one list only. *)
Lemma queues_disjoint (qs : list (list Z)) p p' l l' t :
  NoDup (concat qs) -> zget qs p = Some l -> zget qs p' = Some l' -> t ∈ l -> t ∈ l' -> p = p'.
Proof.
  intros Hnd Hl Hl' Ht Ht'. apply zget_lookup in Hl as [Hp Hl], Hl' as [Hp' Hl'].
  assert (forall (i j : nat), (i < j)%nat -> qs !! i = Some l \/ qs !! i = Some l' ->
    qs !! j = Some l \/ qs !! j = Some l' -> False) as Hlt.
  { clear Hl Hl' Hp Hp'. induction qs as [|a qs IH]; intros i j Hij Hi Hj.
    - rewrite !lookup_nil in Hi. naive_solver.
    - simpl in Hnd. apply NoDup_app in Hnd as (N1 & N2 & N3). destruct j as [|j]; [lia|].
      simpl in Hj. destruct i as [|i].
      + assert (t ∈ a) as Ha by (simpl in Hi; naive_solver). apply (N2 t Ha), elem_of_queues.
        destruct Hj as [Hj|Hj]; [exists (Z.of_nat j), l|exists (Z.of_nat j), l'];
          (split; [by rewrite zget_nat|done]).
      + simpl in Hi. eapply (IH N3 i j); [lia|done..]. }
  destruct (lt_eq_lt_dec (Z.to_nat p) (Z.to_nat p')) as [[Hc|Hc]|Hc]; [|lia|];
    exfalso; eapply Hlt; eauto.
Qed.

Lemma zget_unlink_at qs t p l p' :
  NoDup (concat qs) -> zget qs p = Some l -> t ∈ l ->
  zget (unlink qs t) p' = if decide (p' = p) then Some (filter (fun x => x ≠ t) l) else zget qs p'.
Proof.
  intros Hnd Hl Ht. rewrite zget_unlink. case_decide as E; [subst; by rewrite Hl|].
  destruct (zget qs p') as [l'|] eqn:El; [|done]. simpl. f_equal. apply filter_ne_id.
  intros Ht'. apply E. by eapply queues_disjoint.
Qed.

Lemma concat_snoc_perm (qs qs' : list (list Z)) p l t :
  zget qs p = Some l -> zupd qs p (fun l => l ++ [t]) = Some qs' -> concat qs' ≡ₚ t :: concat qs.
Proof.
  intros Hl E. unfold zupd in E. rewrite Hl in E. injection E as <-.
  apply zget_lookup in Hl as [_ Hl]. rewrite <- (take_drop_middle _ _ _ Hl) at 2.
  rewrite insert_take_drop by (by eapply lookup_lt_Some).
  rewrite !concat_app. simpl. rewrite !app_assoc, <- (app_assoc _ [t]).
  symmetry. apply Permutation_middle.
Qed.

(** ** The bitmap *)

Lemma ctz_ok n i w :
  (exists k, i <= k < i + Z.of_nat n /\ Z.testbit w k = true) ->
  i <= ctz_loop n i w < i + Z.of_nat n /\ Z.testbit w (ctz_loop n i w) = true /\
  forall j, i <= j < ctz_loop n i w -> Z.testbit w j = false.
Proof.
  revert i. induction n as [|n IH]; intros i (k & Hk & Hb); [lia|]. cbn [ctz_loop].
  destruct (Z.testbit w i) eqn:E; [split; [lia|split; [done|lia]]|].
  destruct (IH (i + 1)) as (H1 & H2 & H3).
  - exists k. split; [|done]. destruct (decide (k = i)) as [->|]; [congruence|lia].
  - split; [lia|]. split; [done|]. intros j Hj. destruct (decide (j = i)) as [->|]; [done|apply H3; lia].
Qed.

Lemma nonzero_bit w : fits 64 w -> w ≠ 0 -> exists k, 0 <= k < 64 /\ Z.testbit w k = true.
Proof.
  intros Hw Hz. exists (Z.log2 w). assert (0 < w) by (destruct Hw; lia).
  split; [|by apply Z.bit_log2]. split; [apply Z.log2_nonneg|]. apply Z.log2_lt_pow2; [done|apply Hw].
Qed.

(** The search returns the lowest set bit, -1 when there is none. *)
Lemma bitmap_ffs_ok b :
  zlen b = 3 -> Forall (fits 64) b ->
  (exists p, bitmap_ffs b MAX_PRIO = Some p /\ 0 <= p < 192 /\ wbit b p = true /\
     forall j, 0 <= j < p -> wbit b j = false) \/
  (bitmap_ffs b MAX_PRIO = Some (-1) /\ forall j, 0 <= j < 192 -> wbit b j = false).
Proof.
  intros Hl Hf. unfold bitmap_ffs. change (Z.to_nat ((MAX_PRIO + 63) / 64)) with 3%nat.
  assert (forall i, 0 <= i < 3 -> exists w, zget b i = Some w /\ fits 64 w) as Hw.
  { intros i Hi. destruct (proj2 (zget_Some b i)) as [w E]; [lia|]. exists w. split; [done|].
    apply zget_lookup in E as [_ E]. by eapply Forall_lookup_1. }
  set (p := fun i => w ← zget b i; if ztrue w then Some (i * 64 + ctzll w) else None).
  rewrite (for_return_ext _ _ _ (fun k (_ : unit) =>
    Some (match p k with Some r => inr r | None => inl tt end))).
  2: { intros k u Hk. destruct (Hw k) as (w & E & _); [lia|]. unfold p. rewrite E. simpl.
       by destruct (ztrue w). }
  assert (forall k, 0 <= k < 3 -> p k = None -> forall j, j / 64 = k -> wbit b j = false) as Hnone.
  { intros k Hk Hp j Hj. destruct (Hw k Hk) as (w & E & _). unfold p in Hp. unfold wbit.
    rewrite Hj, E. rewrite E in Hp. simpl in Hp |- *. unfold ztrue in Hp.
    destruct (Z.eqb_spec w 0) as [Hz|]; [rewrite Hz; apply Z.testbit_0_l|done]. }
  destruct (for_return_find 3 0 p) as [(i & r & -> & Hi & Hp & Hmin)|[-> Hall]]; cbn [mbind option_bind].
  - left. destruct (Hw i) as (w & E & Hfw); [lia|]. unfold p in Hp. rewrite E in Hp. simpl in Hp.
    unfold ztrue in Hp. destruct (Z.eqb_spec w 0) as [|Hz]; [done|]. injection Hp as <-.
    destruct (ctz_ok 64 0 w) as (C1 & C2 & C3); [by apply nonzero_bit|]. fold (ctzll w) in *.
    assert (forall j, i * 64 <= j < i * 64 + 64 -> wbit b j = Z.testbit w (j - i * 64)) as Hb.
    { intros j Hj. unfold wbit. replace (j / 64) with i by divlia. rewrite E. simpl. f_equal. divlia. }
    exists (i * 64 + ctzll w). split; [done|]. split; [lia|]. split.
    + rewrite Hb by lia. by replace (i * 64 + ctzll w - i * 64) with (ctzll w) by lia.
    + intros j Hj. destruct (decide (i * 64 <= j)).
      * rewrite Hb by lia. apply C3. lia.
      * apply (Hnone (j / 64)); [divlia| |done]. apply Hmin. divlia.
  - right. split; [done|]. intros j Hj. apply (Hnone (j / 64)); [divlia| |done]. apply Hall. divlia.
Qed.

(** ** Taking a thread off its list, and adding one *)

Lemma queue_exists ts q p : rq_wf ts q -> 0 <= p < MAX_PRIO -> exists l, zget (queue q) p = Some l.
Proof. intros Hq Hp. apply zget_Some. by rewrite (proj1 (rw_len _ _ Hq)). Qed.

Lemma bitmap_clear_ok b p :
  zlen b = 3 -> Forall (fits 64) b -> 0 <= p < 192 ->
  exists b', bitmap_clear b p = Some b' /\ zlen b' = 3 /\ Forall (fits 64) b' /\
    forall j, 0 <= j -> wbit b' j = if decide (j = p) then false else wbit b j.
Proof.
  intros Hl Hf Hp. unfold bitmap_clear.
  destruct (proj2 (zget_Some b (p / 64))) as [w Hw]; [divlia|]. rewrite (zupd_ok _ _ _ _ Hw).
  eexists. split; [done|]. split; [unfold zlen in *; by rewrite length_insert|]. split.
  - apply Forall_insert; [done|]. apply zget_lookup in Hw as [_ Hw].
    apply land_fits; [lia|]. by eapply Forall_lookup_1.
  - intros j Hj. apply (wbit_upd b _ p (fun w => Z.land w (lnotw 64 (Z.shiftl 1 (p mod 64)))));
      [lia|done|exact (zupd_ok _ _ _ _ Hw)|]. apply andnot_writes. divlia.
Qed.

Lemma bitmap_set_ok b p :
  zlen b = 3 -> Forall (fits 64) b -> 0 <= p < 192 ->
  exists b', bitmap_set b p = Some b' /\ zlen b' = 3 /\ Forall (fits 64) b' /\
    forall j, 0 <= j -> wbit b' j = if decide (j = p) then true else wbit b j.
Proof.
  intros Hl Hf Hp. unfold bitmap_set.
  destruct (proj2 (zget_Some b (p / 64))) as [w Hw]; [divlia|]. rewrite (zupd_ok _ _ _ _ Hw).
  eexists. split; [done|]. split; [unfold zlen in *; by rewrite length_insert|]. split.
  - apply Forall_insert; [done|]. apply zget_lookup in Hw as [_ Hw].
    apply or_fits; [divlia|]. by eapply Forall_lookup_1.
  - intros j Hj. apply (wbit_upd b _ p (fun w => Z.lor w (Z.shiftl 1 (p mod 64))));
      [lia|done|exact (zupd_ok _ _ _ _ Hw)|]. apply or_writes. divlia.
Qed.

Lemma rq_remove_ok ts q p l t :
  rq_wf ts q -> zget (queue q) p = Some l -> t ∈ l ->
  let l' := filter (fun x => x ≠ t) l in
  exists b, (if bool_decide (l' = []) then bitmap_clear (rq_bitmap q) p else Some (rq_bitmap q)) = Some b /\
    zget (unlink (queue q) t) p = Some l' /\
    rq_wf ts (rq_lists (u64 (nr_running q - 1)) (unlink (queue q) t) b q) /\
    forall p', zget (unlink (queue q) t) p' = if decide (p' = p) then Some l' else zget (queue q) p'.
Proof.
  intros Hq Hl Ht l'. pose proof Hq as [(L1 & L2 & L3) HB HP HQ HN HC].
  pose proof (zget_range _ _ _ Hl) as Hr. rewrite L1 in Hr. unfold MAX_PRIO in *.
  pose proof (fun p' => zget_unlink_at (queue q) t p l p' HN Hl Ht) as Hu. fold l' in Hu.
  assert (exists b, (if bool_decide (l' = []) then bitmap_clear (rq_bitmap q) p
      else Some (rq_bitmap q)) = Some b /\ zlen b = 3 /\ Forall (fits 64) b /\
    forall j, 0 <= j -> wbit b j = if decide (j = p) then negb (bool_decide (l' = [])) else wbit (rq_bitmap q) j)
    as (b & Eb & B1 & B2 & B3).
  { destruct (decide (l' = [])) as [E|E].
    - rewrite !bool_decide_true by done.
      destruct (bitmap_clear_ok (rq_bitmap q) p) as (b & -> & ? & ? & ?); [done|done|lia|].
      by exists b.
    - rewrite !bool_decide_false by done. exists (rq_bitmap q). do 3 (split; [done|]). intros j Hj.
      case_decide; [subst j|done]. rewrite (HB p l Hl). destruct l; [by apply not_elem_of_nil in Ht|done]. }
  exists b. split; [done|]. split; [by rewrite Hu, decide_True|]. split; [|done]. split; simpl.
  - split; [|done]. unfold unlink, zlen. by rewrite length_fmap.
  - intros p' l2 Hl2. pose proof (zget_range _ _ _ Hl2). rewrite B3 by lia. rewrite Hu in Hl2.
    case_decide; [by injection Hl2 as <-|by apply HB].
  - intros p' Hp'. unfold MAX_PRIO in Hp'. rewrite B3, decide_False by lia. by apply HP.
  - intros p' l2 t' Hl2 Ht'. rewrite Hu in Hl2. case_decide; [|by eapply HQ].
    injection Hl2 as <-. subst p'. apply list_elem_of_filter in Ht' as [_ Ht']. by eapply HQ.
  - rewrite concat_unlink. by apply NoDup_filter.
  - rewrite concat_unlink, filter_ne_length, HC, u64_sub_l; [done|done|].
    apply elem_of_queues. by exists p, l.
Qed.

Lemma rq_insert_ok ts q t x :
  rq_wf ts q -> t ∉ concat (queue q) -> ts !! t = Some x -> 0 <= t_priority x < MAX_PRIO ->
  t_state x = TASK_RUNNING -> t_cpu x = 0 ->
  let p := t_priority x in
  exists qs b, zupd (queue q) p (fun l => l ++ [t]) = Some qs /\ bitmap_set (rq_bitmap q) p = Some b /\
    rq_wf ts (rq_lists (u64 (nr_running q + 1)) qs b q) /\
    forall p', zget qs p' = if decide (p' = p) then (fun l => l ++ [t]) <$> zget (queue q) p
                            else zget (queue q) p'.
Proof.
  intros Hq Hn Hx Hp Hst Hcpu p. pose proof Hq as [(L1 & L2 & L3) HB HP HQ HN HC].
  destruct (queue_exists ts q p Hq Hp) as [l Hl]. unfold MAX_PRIO in *.
  destruct (zupd_Some (queue q) p (fun l => l ++ [t])) as [qs Eq]; [by eapply zget_range|].
  destruct (bitmap_set_ok (rq_bitmap q) p) as (b & Eb & B1 & B2 & B3); [done|done|lia|].
  pose proof (fun j => zget_zupd _ _ _ _ j Eq) as Hu.
  pose proof (concat_snoc_perm _ _ _ _ _ Hl Eq) as Hperm.
  exists qs, b. split; [done|]. split; [done|]. split.
  2: { intros p'. rewrite Hu. case_decide; [by subst p'|done]. }
  split; simpl.
  - by rewrite (zupd_length _ _ _ _ Eq).
  - intros p' l2 Hl2. pose proof (zget_range _ _ _ Hl2). rewrite B3 by lia. rewrite Hu in Hl2.
    case_decide; [|by apply HB]. destruct (zget (queue q) p') as [l0|]; [|done]. injection Hl2 as <-.
    symmetry. apply negb_true_iff, bool_decide_eq_false. by destruct l0.
  - intros p' Hp'. unfold MAX_PRIO in Hp'. rewrite B3, decide_False by lia. by apply HP.
  - intros p' l2 t' Hl2 Ht'. rewrite Hu in Hl2. case_decide; [|by eapply HQ]. subst p'.
    rewrite Hl in Hl2. injection Hl2 as <-. apply elem_of_app in Ht' as [Ht'|Ht'%list_elem_of_singleton];
      [by eapply HQ|subst t']. by exists x.
  - rewrite Hperm. by apply NoDup_cons.
  - rewrite HC, u64_add_l. f_equal. unfold zlen. rewrite Hperm. simpl. lia.
Qed.

(** The queue's invariant only depends on the queued threads. *)
Lemma rq_wf_threads ts ts' q :
  rq_wf ts q ->
  (forall t x, t ∈ concat (queue q) -> ts !! t = Some x ->
     exists x', ts' !! t = Some x' /\ t_priority x' = t_priority x /\
       t_state x' = t_state x /\ t_cpu x' = t_cpu x) ->
  rq_wf ts' q.
Proof.
  intros [H1 H2 H3 H4 H5 H6] Hts. split; try done. intros p l t Hl Ht.
  destruct (H4 p l t Hl Ht) as (x & Hx & E1 & E2 & E3).
  destruct (Hts t x) as (x' & Hx' & F1 & F2 & F3); [apply elem_of_queues; by exists p, l|done|].
  exists x'. split; [done|]. rewrite F1, F2, F3. done.
Qed.

(** Statistics and the current thread do not matter either. *)
Lemma rq_wf_same ts q q' :
  queue q' = queue q -> rq_bitmap q' = rq_bitmap q -> nr_running q' = nr_running q ->
  rq_wf ts q -> rq_wf ts q'.
Proof. intros E1 E2 E3 []. split; rewrite ?E1, ?E2, ?E3; done. Qed.

(** ** Picking the next thread *)

(** [t] heads the list [l] of the best non-empty priority [p]. *)
Definition best (f : Z -> list Z) (p t : Z) (l : list Z) : Prop :=
  0 <= p < MAX_PRIO /\ f p = t :: l /\ forall p', 0 <= p' < p -> f p' = [].

Definition none_ready (f : Z -> list Z) : Prop := forall p, 0 <= p < MAX_PRIO -> f p = [].

Lemma queue_at_get q p l : zget (queue q) p = Some l -> queue_at q p = l.
Proof. unfold queue_at. by intros ->. Qed.

Lemma pick_next_ok ts q :
  rq_wf ts q ->
  (exists p t l q', best (queue_at q) p t l /\ pick_next_thread q = Some (t, q') /\ rq_wf ts q' /\
     q' = rq_lists (nr_running q') (queue q') (rq_bitmap q') q /\
     t ∈ concat (queue q) /\
     (forall t', t' ∈ concat (queue q') <-> t' ∈ concat (queue q) /\ t' ≠ t) /\
     forall p', queue_at q' p' = if decide (p' = p) then l else queue_at q p') \/
  (none_ready (queue_at q) /\ pick_next_thread q = Some (idle q, q)).
Proof.
  intros Hq. pose proof Hq as [(L1 & L2 & L3) HB HP HQ HN HC]. unfold pick_next_thread.
  assert (forall j, 0 <= j < MAX_PRIO -> wbit (rq_bitmap q) j = false -> queue_at q j = []) as Hempty.
  { intros j Hj Hb. destruct (queue_exists ts q j Hq Hj) as [l Hl]. rewrite (queue_at_get _ _ _ Hl).
    rewrite (HB j l Hl) in Hb. by apply negb_false_iff, bool_decide_eq_true in Hb. }
  destruct (bitmap_ffs_ok (rq_bitmap q) L2 L3) as [(p & E & Hp & Hb & Hmin)|[E Hall]];
    rewrite E; cbn [mbind option_bind].
  - left. destruct (Z.ltb_spec p 0); [lia|].
    assert (p < MAX_PRIO) as Hp'.
    { destruct (Z.lt_ge_cases p MAX_PRIO) as [|Hge]; [done|]. by rewrite HP in Hb by lia. }
    destruct (queue_exists ts q p Hq ltac:(lia)) as [l Hl]. rewrite Hl. cbn [mbind option_bind].
    pose proof (HB p l Hl) as Hne. rewrite Hb in Hne. destruct l as [|t l]; [done|].
    cbn [head mbind option_bind].
    destruct (rq_remove_ok ts q p (t :: l) t Hq Hl ltac:(left)) as (b & Eb & Ez & W & Hu).
    assert (filter (fun x => x ≠ t) (t :: l) = l) as Ef.
    { rewrite filter_cons_False by (intros []; done). apply filter_ne_id.
      assert (NoDup (t :: l)) as [? _]%NoDup_cons; [|done].
      apply zget_lookup in Hl as [_ Hl]. rewrite <- (take_drop_middle _ _ _ Hl), concat_app in HN.
      apply NoDup_app in HN as (_ & _ & HN). by apply NoDup_app in HN as [? _]. }
    rewrite Ef in *. rewrite Ez. cbn [mbind option_bind]. rewrite Eb. cbn [mbind option_bind].
    exists p, t, l. eexists. split; [|split; [done|split; [exact W|split; [done|split; [|split]]]]].
    + split; [lia|]. split; [by apply queue_at_get|]. intros p' Hp''.
      apply Hempty; [lia|]. apply Hmin. lia.
    + apply elem_of_queues. exists p, (t :: l). split; [done|]. by left.
    + intros t'. simpl. rewrite concat_unlink, list_elem_of_filter. tauto.
    + intros p'. unfold queue_at. simpl. rewrite Hu. by case_decide.
  - right. destruct (Z.ltb_spec (-1) 0); [|lia]. split; [|done]. intros p Hp.
    apply Hempty; [done|]. apply Hall. unfold MAX_PRIO in Hp. lia.
Qed.

(** ** The scheduler's invariant *)

(** Threads have valid priorities and processes; NULL is no thread. *)
Definition threads_ok (ts : gmap Z thread) (ps : gmap Z Z) : Prop :=
  ts !! 0 = None /\
  (forall t x, ts !! t = Some x -> 0 <= t_priority x < MAX_PRIO) /\
  (forall t x, ts !! t = Some x -> t_process x ≠ 0 -> is_Some (ps !! t_process x)).

Lemma threads_ok_upd ts ps t x x' :
  threads_ok ts ps -> ts !! t = Some x -> 0 <= t_priority x' < MAX_PRIO ->
  t_process x' = t_process x -> threads_ok (<[t := x']> ts) ps.
Proof.
  intros (N & P & Pr) Hx Hp Hpr. split; [|split].
  - rewrite lookup_insert_ne; [done|]. intros ->. congruence.
  - intros t' y. destruct (decide (t' = t)) as [->|Hne]; [rewrite lookup_insert_eq; by intros [= <-]|].
    rewrite lookup_insert_ne by done. apply P.
  - intros t' y. destruct (decide (t' = t)) as [->|Hne].
    + rewrite lookup_insert_eq. intros [= <-]. rewrite Hpr. by eapply Pr.
    + rewrite lookup_insert_ne by done. apply Pr.
Qed.

Record sched_inv (st : sched) (q : run_queue) : Prop := {
  si_rq : runqueues st = Some q;
  si_wf : rq_wf (threads st) q;
  si_threads : threads_ok (threads st) (procs st);
  si_cpu : cpu_id q = 0;
  si_idle : idle q ≠ 0 /\ idle q ∉ concat (queue q) /\
    exists x, threads st !! idle q = Some x /\ t_state x = TASK_RUNNING /\ t_process x = 0;
  si_current : current_thread st ≠ 0 /\ current_thread st ∉ concat (queue q) /\
    is_Some (threads st !! current_thread st)
}.

Lemma si_prio st q t x : sched_inv st q -> threads st !! t = Some x -> 0 <= t_priority x < MAX_PRIO.
Proof. intros HI. apply (si_threads _ _ HI). Qed.

Lemma clamp_small p : 0 <= p < MAX_PRIO -> clamp_prio p = p.
Proof.
  intros Hp. unfold clamp_prio. destruct (Z.ltb_spec p 0); [lia|].
  destruct (Z.leb_spec MAX_PRIO p); [lia|done].
Qed.

Lemma clamp_range p : 0 <= clamp_prio p < MAX_PRIO.
Proof.
  unfold clamp_prio, MAX_PRIO. destruct (Z.ltb_spec p 0); [simpl; lia|].
  destruct (Z.leb_spec 140 p); lia.
Qed.

Lemma queued_in_queue_at q t : t ∈ concat (queue q) <-> exists p, t ∈ queue_at q p.
Proof.
  rewrite elem_of_queues. unfold queue_at. split.
  - intros (p & l & Hl & Ht). exists p. by rewrite Hl.
  - intros (p & Ht). destruct (zget (queue q) p) as [l|] eqn:E; [by exists p, l|].
    by apply not_elem_of_nil in Ht.
Qed.

(** Changes of threads that keep what the queue relies on. *)
Definition same_sched (x x' : thread) : Prop :=
  t_priority x' = t_priority x /\ t_state x' = t_state x /\ t_cpu x' = t_cpu x /\
  t_process x' = t_process x /\ t_wait_channel x' = t_wait_channel x.

Lemma rq_wf_upd ts q t x x' :
  rq_wf ts q -> ts !! t = Some x ->
  (t ∈ concat (queue q) -> t_priority x' = t_priority x /\ t_state x' = t_state x /\ t_cpu x' = t_cpu x) ->
  rq_wf (<[t := x']> ts) q.
Proof.
  intros Hq Hx Hs. eapply rq_wf_threads; [done|]. intros t' y Ht' Hy.
  destruct (decide (t' = t)) as [->|Hne].
  - rewrite lookup_insert_eq. assert (x = y) as <- by congruence. exists x'. split; [done|]. by apply Hs.
  - rewrite lookup_insert_ne by done. by exists y.
Qed.

(** ** Enqueueing *)

(** The queues after [t] was appended to list [p]. *)
Definition append_at (f : Z -> list Z) (p t : Z) : Z -> list Z :=
  fun p' => if decide (p' = p) then f p' ++ [t] else f p'.

(** A thread that is not queued is appended to the list of its priority. *)
Lemma enqueue_ok st q t x :
  runqueues st = Some q -> rq_wf (threads st) q -> cpu_id q = 0 -> threads st !! t = Some x ->
  0 <= t_priority x < MAX_PRIO -> t_state x = TASK_RUNNING -> t ∉ concat (queue q) ->
  exists q', enqueue_thread_locked st t =
      Some (with_threads (with_rq st q') (<[t := set_cpu 0 x]> (threads st))) /\
    rq_wf (<[t := set_cpu 0 x]> (threads st)) q' /\
    q' = rq_lists (nr_running q') (queue q') (rq_bitmap q') q /\
    (forall p, queue_at q' p = append_at (queue_at q) (t_priority x) t p) /\
    (forall t', t' ∈ concat (queue q') <-> t' = t \/ t' ∈ concat (queue q)).
Proof.
  intros Hr Hw Hc Hx Hp Hs Hn. unfold enqueue_thread_locked. rewrite Hr. cbn [mbind option_bind].
  rewrite Hx. cbn [mbind option_bind].
  destruct (on_rq q t) eqn:Eo; [by apply on_rq_spec in Eo|]. rewrite clamp_small by done.
  assert (rq_wf (<[t := set_cpu 0 x]> (threads st)) q) as Hw1 by (eapply rq_wf_upd; done).
  destruct (rq_insert_ok (<[t := set_cpu 0 x]> (threads st)) q t (set_cpu 0 x)) as
    (qs & b & E1 & E2 & W & Hu); [done|done|by rewrite lookup_insert_eq|done|done|done|].
  simpl in E1, E2, W, Hu. rewrite E1. cbn [mbind option_bind]. rewrite E2. cbn [mbind option_bind].
  eexists. unfold upd_thread. cbn [threads with_rq]. rewrite Hx, Hc. cbn [mbind option_bind].
  split; [done|]. split; [exact W|]. split; [done|].
  assert (forall p, queue_at (rq_lists (u64 (nr_running q + 1)) qs b q) p =
    append_at (queue_at q) (t_priority x) t p) as Hqa.
  { intros p. unfold queue_at, append_at. simpl. rewrite Hu. case_decide; [|done]. subst p.
    by destruct (queue_exists _ q _ Hw Hp) as [l ->]. }
  split; [done|]. intros t'. rewrite !queued_in_queue_at. setoid_rewrite Hqa. unfold append_at. split.
  - intros (p & Ht'). case_decide; [|right; by exists p].
    apply elem_of_app in Ht' as [?|Ht'%list_elem_of_singleton]; [right; by exists p|by left].
  - intros [->|(p & Ht')].
    + exists (t_priority x). rewrite decide_True by done. apply elem_of_app. right. by left.
    + exists p. case_decide; [apply elem_of_app; by left|done].
Qed.

(** ** [schedule] *)

(** The current thread competes for the CPU: it is runnable and not the idle thread. *)
Definition competes (st : sched) (q : run_queue) (x : thread) : bool :=
  bool_decide (t_state x = TASK_RUNNING) && negb (current_thread st =? idle q).

(** The threads [schedule] chooses from: the queues, with the current thread at the end of the
    list of its priority if it competes. *)
Definition ready (st : sched) (q : run_queue) (p : Z) : list Z :=
  match threads st !! current_thread st with
  | Some x => if competes st q x then append_at (queue_at q) (t_priority x) (current_thread st) p
              else queue_at q p
  | None => queue_at q p
  end.

(** The address space in use: that of the latest switch. *)
Fixpoint active_mm (es : list hw_event) : option Z :=
  match es with
  | [] => None
  | PagingSwitch mm :: _ => Some mm
  | _ :: t => active_mm t
  end.

(** A thread of a process with an address space runs in that address space. *)
Definition mm_inv (st : sched) : Prop :=
  forall x mm, threads st !! current_thread st = Some x -> t_process x ≠ 0 ->
    procs st !! t_process x = Some mm -> mm ≠ 0 -> active_mm (hw st) = Some mm.

Lemma switch_to_ok st q prev next p n :
  runqueues st = Some q -> threads st !! prev = Some p -> threads st !! next = Some n ->
  (t_process n ≠ 0 -> is_Some (procs st !! t_process n)) ->
  exists st' n' q', switch_to st prev next = Some st' /\ current_thread st' = next /\
    threads st' = <[next := n']> (threads st) /\ same_sched n n' /\ runqueues st' = Some q' /\
    queue q' = queue q /\ rq_bitmap q' = rq_bitmap q /\ nr_running q' = nr_running q /\
    idle q' = idle q /\ cpu_id q' = cpu_id q /\ procs st' = procs st /\
    preempt st' = preempt st /\
    (forall mm, procs st !! t_process n = Some mm -> mm ≠ 0 -> t_process n ≠ 0 ->
       active_mm (hw st') = if decide (t_process p = t_process n) then active_mm (hw st) else Some mm).
Proof.
  intros Hr Hp Hn Hpr. unfold switch_to. rewrite Hr. cbn [mbind option_bind].
  cbn [threads with_current with_rq procs runqueues]. rewrite Hp, Hn. cbn [mbind option_bind].
  set (st1 := with_current _ next).
  assert (exists es, (if negb (t_process p =? t_process n)
     then if negb (t_process n =? 0) then mm ← procs st !! t_process n;
            Some (if negb (mm =? 0) then emit st1 (PagingSwitch mm) else st1) else Some st1
     else Some st1) = Some (mk_sched (threads st1) (procs st1) (runqueues st1) (current_thread st1)
       (preempt st1) (global_ticks st1) (boot_time_ns st1) (waitqs st1) (all_threads st1)
       (es ++ hw st1)) /\
    forall mm, procs st !! t_process n = Some mm -> mm ≠ 0 -> t_process n ≠ 0 ->
      active_mm (es ++ hw st) = if decide (t_process p = t_process n) then active_mm (hw st)
                                else Some mm) as (es & -> & Hmm).
  { destruct (Z.eqb_spec (t_process p) (t_process n)) as [E|E]; cbn [negb].
    { exists []. split; [done|]. intros mm _ _ _. by rewrite decide_True. }
    destruct (Z.eqb_spec (t_process n) 0) as [|Hz]; cbn [negb]; [by exists []|].
    destruct (Hpr Hz) as [mm ->]. cbn [mbind option_bind].
    destruct (Z.eqb_spec mm 0) as [|Hm]; cbn [negb].
    - exists []. split; [done|]. intros m [= <-]. done.
    - exists [PagingSwitch mm]. split; [done|]. intros m [= <-] _ _. by rewrite decide_False. }
  cbn [mbind option_bind]. unfold upd_thread.
  destruct (negb (t_kernel_stack n =? 0)); cbn; rewrite Hn; cbn; rewrite lookup_insert_eq; cbn;
    rewrite insert_insert_eq; eexists _, _, _; repeat (split; [done|]); exact Hmm.
Qed.

(** The threads after a step: none disappears, and what scheduling depends on is unchanged. *)
Definition threads_kept (ts ts' : gmap Z thread) : Prop :=
  forall t x, ts !! t = Some x -> exists x', ts' !! t = Some x' /\
    t_priority x' = t_priority x /\ t_state x' = t_state x /\ t_process x' = t_process x /\
    t_wait_channel x' = t_wait_channel x.

Lemma threads_kept_refl ts : threads_kept ts ts.
Proof. intros t x Hx. by exists x. Qed.

Lemma threads_kept_trans ts1 ts2 ts3 :
  threads_kept ts1 ts2 -> threads_kept ts2 ts3 -> threads_kept ts1 ts3.
Proof.
  intros H1 H2 t x Hx. destruct (H1 t x Hx) as (x' & Hx' & E1 & E2 & E3 & E4).
  destruct (H2 t x' Hx') as (x'' & Hx'' & F1 & F2 & F3 & F4). exists x''. split; [done|]. repeat split; congruence.
Qed.

Lemma threads_kept_upd ts t x x' :
  ts !! t = Some x -> t_priority x' = t_priority x -> t_state x' = t_state x ->
  t_process x' = t_process x -> t_wait_channel x' = t_wait_channel x ->
  threads_kept ts (<[t := x']> ts).
Proof.
  intros Hx E1 E2 E3 E4 t' y Hy. destruct (decide (t' = t)) as [->|Hne].
  - rewrite lookup_insert_eq. assert (x = y) as <- by congruence. by exists x'.
  - rewrite lookup_insert_ne by done. by exists y.
Qed.

(** Putting the current thread back on the queue if it competes. *)
Lemma requeue_ok st q x :
  sched_inv st q -> threads st !! current_thread st = Some x ->
  exists st1 q1,
    (if competes st q x then enqueue_thread_locked (preempt_disable st) (current_thread st)
     else Some (preempt_disable st)) = Some st1 /\
    runqueues st1 = Some q1 /\ rq_wf (threads st1) q1 /\
    (exists x1, threads st1 = <[current_thread st := x1]> (threads st) /\
       t_priority x1 = t_priority x /\ t_state x1 = t_state x /\ t_process x1 = t_process x /\
       t_flags x1 = t_flags x /\ t_wait_channel x1 = t_wait_channel x) /\
    procs st1 = procs st /\ current_thread st1 = current_thread st /\ preempt st1 = preempt st + 1 /\
    hw st1 = hw st /\ idle q1 = idle q /\ cpu_id q1 = cpu_id q /\
    (forall p, queue_at q1 p = ready st q p) /\
    (forall t, t ∈ concat (queue q1) <->
       t ∈ concat (queue q) \/ (competes st q x = true /\ t = current_thread st)).
Proof.
  intros [R W (_ & P & Pr) C (I0 & I1 & I2) (K0 & K1 & K2)] Hx. unfold ready. rewrite Hx.
  destruct (competes st q x) eqn:Ec.
  - unfold competes in Ec. apply andb_true_iff in Ec as [Es%bool_decide_eq_true _].
    destruct (enqueue_ok (preempt_disable st) q (current_thread st) x) as (q1 & E & W1 & Eq & Q1 & M1);
      [done..|by eapply P|done|done|]. rewrite E. eexists _, q1. split; [done|].
    split; [done|]. split; [exact W1|]. split; [by exists (set_cpu 0 x)|].
    do 4 (split; [done|]). split; [by rewrite Eq|]. split; [by rewrite Eq|]. split; [done|].
    intros t. rewrite M1. naive_solver.
  - eexists _, q. split; [done|]. do 2 (split; [done|]).
    split; [exists x; simpl; by rewrite insert_id|]. repeat (split; [done|]). naive_solver.
Qed.

(** What one pass of [schedule] does: [next] is the first thread of the best non-empty list of
    the ready threads, or the idle thread when none is ready; it runs, the others stay queued. *)
Record scheduled (st : sched) (q : run_queue) (next : Z) (st' : sched) (q' : run_queue) : Prop := {
  sd_inv : sched_inv st' q';
  sd_current : current_thread st' = next;
  sd_idle : idle q' = idle q;
  sd_preempt : preempt st' = preempt st + 1;
  sd_choice :
    (exists p l, best (ready st q) p next l /\
       forall p', queue_at q' p' = if decide (p' = p) then l else ready st q p') \/
    (none_ready (ready st q) /\ next = idle q /\ forall p', queue_at q' p' = ready st q p');
  sd_kept : threads_kept (threads st) (threads st');
  sd_dom : forall t, is_Some (threads st' !! t) -> is_Some (threads st !! t);
  sd_flags : next = current_thread st -> forall x x', threads st !! next = Some x ->
    threads st' !! next = Some x' -> t_flags x' = t_flags x;
  sd_mm : mm_inv st -> mm_inv st'
}.

(** The invariant once [next], no longer queued, is the current thread. *)
Lemma running_inv st st1 q1 q2 next n :
  runqueues st1 = Some q2 -> rq_wf (threads st1) q2 -> cpu_id q2 = 0 ->
  threads_kept (threads st) (threads st1) -> procs st1 = procs st ->
  (forall t, is_Some (threads st1 !! t) -> is_Some (threads st !! t)) ->
  sched_inv st q1 -> idle q2 = idle q1 -> idle q2 ∉ concat (queue q2) ->
  current_thread st1 = next -> next ≠ 0 -> next ∉ concat (queue q2) -> threads st1 !! next = Some n ->
  sched_inv st1 q2.
Proof.
  intros R W C K Epr Dom [_ _ (N & P & Pr) _ (I0 & _ & (xi & Hxi & Si & Pi)) _] Ei Hi Ec H0 Hn Hx.
  assert (forall t x, threads st1 !! t = Some x -> exists y, threads st !! t = Some y /\
    t_priority x = t_priority y /\ t_process x = t_process y) as Back.
  { intros t x Ht. destruct (Dom t) as [y Hy]; [by eexists|]. destruct (K t y Hy) as (x' & Hx' & E1 & E2 & E3 & _).
    exists y. assert (x = x') as -> by congruence. done. }
  split; [done|done|split; [|split]|done| |].
  - destruct (threads st1 !! 0) as [y|] eqn:E0; [|done]. destruct (Dom 0) as [z Hz]; [by eexists|]. congruence.
  - intros t x Ht. destruct (Back t x Ht) as (y & Hy & -> & _). by eapply P.
  - intros t x Ht. destruct (Back t x Ht) as (y & Hy & _ & ->). rewrite Epr. by eapply Pr.
  - rewrite Ei. split; [done|]. rewrite Ei in Hi. split; [done|].
    destruct (K _ _ Hxi) as (x' & Hx' & _ & E2 & E3 & _). exists x'. split; [done|]. by rewrite E2, E3.
  - rewrite Ec. split; [done|]. split; [done|]. by exists n.
Qed.

Lemma schedule_body_ok st q :
  sched_inv st q ->
  exists next st' q',
    schedule_body st = Some (if decide (next = current_thread st) then inr st' else inl st') /\
    scheduled st q next st' q'.
Proof.
  intros HI. pose proof HI as [R W (N & P & Pr) C (I0 & I1 & (xi & Hxi & Si & Pi)) (K0 & K1 & (x & Hx))].
  destruct (requeue_ok st q x HI Hx) as
    (st1 & q1 & E1 & R1 & W1 & (x1 & T1 & F1 & F2 & F3 & F4 & F5) & Pr1 & C1 & Pm1 & Hw1 & Id1 & Cp1 & Q1 & M1).
  unfold schedule_body. rewrite R. cbn [mbind option_bind].
  destruct (Z.eqb_spec (current_thread st) 0) as [|_]; [done|].
  destruct (Z.eqb_spec (current_thread st) 0) as [|_]; [done|].
  cbn [preempt_disable with_preempt threads]. rewrite Hx. cbn [mbind option_bind].
  fold (competes st q x). fold (preempt_disable st). rewrite E1. cbn [mbind option_bind].
  rewrite R1. cbn [mbind option_bind].
  assert (threads_kept (threads st) (threads st1)) as Kp1.
  { rewrite T1. by eapply threads_kept_upd. }
  assert (forall t, is_Some (threads st1 !! t) -> is_Some (threads st !! t)) as Dom1.
  { intros t. rewrite T1, lookup_insert_is_Some'. intros [<-|?]; [by eexists|done]. }
  assert (idle q ∉ concat (queue q1)) as NI.
  { rewrite M1. intros [?|[Ec Eq]]; [done|]. unfold competes in Ec.
    rewrite <- Eq, Z.eqb_refl, andb_false_r in Ec. done. }
  assert (exists next q2 n, pick_next_thread q1 = Some (next, q2) /\ threads st1 !! next = Some n /\
    next ≠ 0 /\ rq_wf (threads st1) q2 /\ next ∉ concat (queue q2) /\ idle q2 = idle q /\
    idle q ∉ concat (queue q2) /\ cpu_id q2 = 0 /\
    ((exists p l, best (ready st q) p next l /\
       forall p', queue_at q2 p' = if decide (p' = p) then l else ready st q p') \/
     (none_ready (ready st q) /\ next = idle q /\ forall p', queue_at q2 p' = ready st q p')))
    as (next & q2 & n & E2 & Hn & N0 & W2 & Nq & Id2 & NI2 & Cp2 & Ch).
  { destruct (pick_next_ok _ q1 W1) as [(p & t & l & q2 & B & E & W2 & Eq & Hin & M2 & Q2)|[B E]].
    - assert (exists y, threads st1 !! t = Some y) as (y & Hy).
      { apply elem_of_queues in Hin as (p' & l' & Hl' & Ht').
        destruct (rw_queued _ _ W1 _ _ _ Hl' Ht') as (y & Hy & _). by exists y. }
      exists t, q2, y. split; [done|]. split; [done|].
      split; [intros ->; destruct (Dom1 0) as [z Hz]; [by eexists|congruence]|].
      split; [done|]. split; [rewrite M2; tauto|]. split; [by rewrite Eq|].
      split; [rewrite M2; tauto|]. split; [rewrite Eq; by rewrite <- Cp1 in C|]. left. exists p, l.
      split; [|intros p'; by rewrite Q2, Q1]. destruct B as (B1 & B2 & B3).
      split; [done|]. split; [by rewrite <- Q1|]. intros p' Hp'. rewrite <- Q1. by apply B3.
    - exists (idle q), q1. destruct (Kp1 _ _ Hxi) as (xi' & Hxi' & _). exists xi'.
      rewrite Id1 in E. split; [done|]. split; [done|]. split; [done|]. split; [done|].
      split; [done|]. split; [done|]. split; [done|]. split; [by rewrite <- Cp1 in C|].
      right. split; [|done]. intros p Hp. rewrite <- Q1. by apply B. }
  rewrite E2. cbn [mbind option_bind]. exists next. destruct (decide (next = current_thread st)) as [En|En].
  - subst next. rewrite Z.eqb_refl. cbn [negb]. eexists _, q2. split; [done|]. split.
    + by apply (running_inv st (with_rq st1 q2) q q2 (current_thread st) n); try rewrite Id2.
    + done.
    + done.
    + done.
    + done.
    + done.
    + done.
    + intros _ y y' Hy Hy'. simpl in Hy'. rewrite T1, lookup_insert_eq in Hy'. congruence.
    + intros Hmm y mm. simpl. rewrite C1, T1, lookup_insert_eq, Hw1, Pr1. intros [= <-]. rewrite F3.
      by apply Hmm.
  - destruct (Z.eqb_spec next (current_thread st)) as [|_]; [done|]. cbn [negb].
    destruct (switch_to_ok (with_rq st1 q2) q2 (current_thread st) next x1 n) as
      (st' & n' & q' & E & Ec & Et & (S1 & S2 & S3 & S4 & S5) & Er & Q & B & Nr & Ei & Cp & Ep & Epm & Emm);
      [done|simpl; by rewrite T1, lookup_insert_eq|done| |].
    { intros Hz. simpl. rewrite Pr1. destruct (Dom1 next) as [y Hy]; [by eexists|].
      destruct (Kp1 _ _ Hy) as (y' & Hy' & _ & _ & Ey & _).
      assert (n = y') as -> by congruence. rewrite Ey in *. by eapply Pr. }
    rewrite E. cbn [mbind option_bind]. exists st', q'. split; [done|]. simpl in Et.
    assert (threads_kept (threads st) (threads st')) as Kp2.
    { eapply threads_kept_trans; [exact Kp1|]. rewrite Et. by eapply threads_kept_upd. }
    assert (forall t, is_Some (threads st' !! t) -> is_Some (threads st !! t)) as Dom2.
    { intros t Ht. apply Dom1. rewrite Et, lookup_insert_is_Some' in Ht.
      destruct Ht as [<-|?]; [by eexists|done]. }
    assert (forall p, queue_at q' p = queue_at q2 p) as Qa by (intros p; unfold queue_at; by rewrite Q).
    split; [|done|congruence|simpl in Epm; lia| |done|done|done|].
    + apply (running_inv st st' q q' next n'); rewrite ?Q; try done; try congruence.
      * eapply rq_wf_same; [done..|]. rewrite Et. by eapply rq_wf_upd.
      * simpl in Ep. congruence.
      * rewrite Et, lookup_insert_eq. done.
    + destruct Ch as [(p & l & Hb & Hq)|(Hb & Hi & Hq)]; [left; exists p, l|right];
        (split; [done|]); [|split; [done|]]; intros p'; rewrite Qa; apply Hq.
    + intros Hmm y mm. rewrite Ec, Et, lookup_insert_eq, Ep. intros [= <-]. rewrite S4. simpl.
      intros Hz Hpm Hm0. rewrite (Emm mm); [|done..]. case_decide as Epr; [|done]. simpl. rewrite Hw1.
      rewrite Pr1 in Hpm. rewrite F3 in Epr. apply (Hmm x mm); [done|congruence|by rewrite Epr|done].
Qed.

(** C4.  Every pass of [schedule] is safe and fair by priority: under the invariant it touches no
    memory outside its tables, and it runs the first thread of the highest-priority non-empty
    list among the queued threads and the current thread (which, if still runnable, re-enters at
    the end of its own list), the idle thread only when there is none; all other ready threads
    stay queued in order, and the run queue's invariant (bitmap, counter, no thread queued twice)
    is preserved.  It switches contexts exactly when the choice is another thread. *)
Theorem schedule_picks_best st q :
  sched_inv st q ->
  exists next st' q',
    schedule_body st = Some (if decide (next = current_thread st) then inr st' else inl st') /\
    scheduled st q next st' q'.
Proof. apply schedule_body_ok. Qed.

(** ** Round robin *)

(** One pass, and [n] of them in a row, whichever thread runs in between. *)
Definition pass (st : sched) : option sched :=
  r ← schedule_body st; Some (match r with inl s => s | inr s => s end).

Fixpoint passes (n : nat) (st : sched) : option sched :=
  match n with O => Some st | S n' => st ← pass st; passes n' st end.

Lemma pass_ok st q : sched_inv st q -> exists next st' q', pass st = Some st' /\ scheduled st q next st' q'.
Proof.
  intros HI. destruct (schedule_body_ok st q HI) as (next & st' & q' & E & HS).
  exists next, st', q'. split; [|done]. unfold pass. rewrite E. cbn [mbind option_bind].
  by case_decide.
Qed.

(** A list that must be served: nothing above it is ready. *)
Definition top_list (st : sched) (q : run_queue) (p : Z) : Prop :=
  0 <= p < MAX_PRIO /\ (forall p', 0 <= p' < p -> queue_at q p' = []) /\
  forall x, threads st !! current_thread st = Some x -> competes st q x = true -> p <= t_priority x.

Lemma ready_top st q p a l :
  top_list st q p -> queue_at q p = a :: l ->
  exists l', ready st q p = a :: l ++ l' /\ forall p', 0 <= p' < p -> ready st q p' = [].
Proof.
  intros (Hp & Hlow & Hcur) Hq. unfold ready.
  destruct (threads st !! current_thread st) as [x|] eqn:Ex.
  2: { exists []. by rewrite app_nil_r. }
  destruct (competes st q x) eqn:Ec.
  - specialize (Hcur x eq_refl Ec). unfold append_at. destruct (decide (p = t_priority x)).
    + exists [current_thread st]. rewrite Hq. split; [done|]. intros p' Hp'.
      rewrite decide_False by lia. by apply Hlow.
    + exists []. rewrite Hq, app_nil_r. split; [done|]. intros p' Hp'.
      rewrite decide_False by lia. by apply Hlow.
  - exists []. by rewrite app_nil_r.
Qed.

(** C19.  Round robin: a thread that waits in position [i] of the highest ready priority gets the
    CPU after exactly [i + 1] passes of [schedule], as long as nothing of higher priority becomes
    ready: no thread of that priority is starved. *)
Theorem round_robin st q p l1 t l2 :
  sched_inv st q -> top_list st q p -> queue_at q p = l1 ++ t :: l2 ->
  exists st', passes (S (length l1)) st = Some st' /\ current_thread st' = t.
Proof.
  revert st q l2. induction l1 as [|a l1 IH]; intros st q l2 HI Htop Hq;
    destruct (pass_ok st q HI) as (next & st' & q' & E & HS);
    destruct (ready_top st q p _ _ Htop Hq) as (l' & Hr & Hlow);
    pose proof Htop as (Hp & Hl & _).
  - destruct HS as [_ HC _ _ [(p0 & l0 & (B1 & B2 & B3) & _)|(Hno & _)] _ _ _].
    2: { rewrite Hno in Hr by done. done. }
    exists st'. cbn [passes length]. rewrite E. cbn [mbind option_bind]. split; [done|].
    rewrite HC. assert (p0 = p) as ->.
    { destruct (Z.lt_trichotomy p0 p) as [Hlt|[?|Hlt]]; [|done|].
      - rewrite Hlow in B2 by lia. done.
      - rewrite B3 in Hr by lia. done. }
    congruence.
  - pose proof HS as [HI' HC HId _ [(p0 & l0 & (B1 & B2 & B3) & HQ)|(Hno & _)] HK _ _].
    2: { rewrite Hno in Hr by done. done. }
    assert (p0 = p) as ->.
    { destruct (Z.lt_trichotomy p0 p) as [Hlt|[?|Hlt]]; [|done|].
      - rewrite Hlow in B2 by lia. done.
      - rewrite B3 in Hr by lia. done. }
    rewrite Hr in B2. injection B2 as <- <-.
    destruct (IH st' q' (l2 ++ l')) as (st2 & E2 & H2); [done| | |].
    + split; [done|]. split.
      * intros p' Hp'. rewrite HQ, decide_False by lia. by apply Hlow.
      * intros x Hx _. rewrite HC in Hx.
        destruct (queue_exists _ q p (si_wf _ _ HI) Hp) as [lp Hlp].
        rewrite (queue_at_get _ _ _ Hlp) in Hq.
        destruct (rw_queued _ _ (si_wf _ _ HI) p lp a Hlp ltac:(rewrite Hq; left)) as (y & Hy & Ey & _).
        destruct (HK a y Hy) as (y' & Hy' & Ep & _). assert (x = y') as -> by congruence. lia.
    + rewrite HQ, decide_True by done. rewrite <- !app_assoc. done.
    + exists st2. split; [|done]. cbn [passes length] in *. rewrite E. cbn [mbind option_bind]. exact E2.
Qed.

(** ** Yielding alone *)

Definition needs_resched (x : thread) : Prop := ztrue (Z.land (t_flags x) TF_NEED_RESCHED) = true.

Lemma sched_inv_preempt st q n : sched_inv st q -> sched_inv (with_preempt st n) q.
Proof. intros []. by split. Qed.

Lemma alone_rescheduled st q x :
  sched_inv st q -> preempt st = 0 -> none_ready (queue_at q) ->
  threads st !! current_thread st = Some x -> t_state x = TASK_RUNNING -> needs_resched x ->
  exists st' q' x', schedule_body st = Some (inr st') /\
    preempt_enable_dec st' = Some (with_preempt st' 0, true) /\
    sched_inv (with_preempt st' 0) q' /\ none_ready (queue_at q') /\
    threads st' !! current_thread st' = Some x' /\ t_state x' = TASK_RUNNING /\ needs_resched x'.
Proof.
  intros HI Hp Hno Hx Hst Hf.
  destruct (schedule_body_ok st q HI) as (next & st' & q' & E & [HI' HC HId HP HCh HK _ HF _]).
  assert (next = current_thread st /\ none_ready (queue_at q')) as [-> Hno'].
  { assert (forall p, 0 <= p < MAX_PRIO -> ready st q p =
      if competes st q x && bool_decide (p = t_priority x) then [current_thread st] else []) as Hr.
    { intros p Hpr. unfold ready, append_at. rewrite Hx, (Hno p Hpr). destruct (competes st q x); [|done].
      rewrite andb_true_l. destruct (decide (p = t_priority x)) as [Ed|Ed].
      - by rewrite bool_decide_eq_true_2.
      - by rewrite bool_decide_eq_false_2. }
    destruct HCh as [(p & l & (B1 & B2 & _) & HQ)|(Hn & -> & HQ)].
    - rewrite Hr in B2 by done. destruct (competes st q x && bool_decide (p = t_priority x)) eqn:Eb; [|done].
      injection B2 as <- <-. split; [done|]. intros p' Hp'. rewrite HQ. destruct (decide (p' = p)); [done|].
      rewrite Hr by done. apply andb_true_iff in Eb as [_ Eb%bool_decide_eq_true].
      rewrite (bool_decide_false (p' = t_priority x)) by congruence. by rewrite andb_false_r.
    - split; [|intros p' Hp'; rewrite HQ; by apply Hn].
      pose proof (si_prio _ _ _ _ HI Hx) as Hpr. specialize (Hn _ Hpr). rewrite Hr in Hn by done.
      rewrite bool_decide_true, andb_true_r in Hn by done. unfold competes in Hn.
      rewrite Hst in Hn. rewrite bool_decide_true in Hn by done.
      destruct (Z.eqb_spec (current_thread st) (idle q)); [done|done]. }
  rewrite decide_True in E by done. destruct (HK _ _ Hx) as (x' & Hx' & _ & Es & _ & _).
  rewrite <- HC in Hx'. exists st', q', x'. split; [done|].
  assert (needs_resched x') as Hf'.
  { unfold needs_resched. rewrite HC in Hx'. by rewrite (HF eq_refl x x' Hx Hx'). }
  split; [|split; [by apply sched_inv_preempt|split; [done|split; [done|split; [congruence|done]]]]].
  unfold preempt_enable_dec. rewrite HP, Hp. cbn [Z.add Z.ltb Z.compare]. simpl.
  destruct (Z.eqb_spec (current_thread st') 0) as [E0|_].
  { pose proof (si_current _ _ HI') as (? & _). congruence. }
  rewrite Hx'. cbn [mbind option_bind]. by rewrite Hf'.
Qed.

(** Rewriting a thread without disturbing what the invariant says of it. *)
Lemma sched_inv_upd st q t x x' :
  sched_inv st q -> threads st !! t = Some x -> 0 <= t_priority x' < MAX_PRIO ->
  t_process x' = t_process x ->
  (t ∈ concat (queue q) -> t_priority x' = t_priority x /\ t_state x' = t_state x /\ t_cpu x' = t_cpu x) ->
  (t = idle q -> t_state x' = TASK_RUNNING) ->
  sched_inv (with_threads st (<[t := x']> (threads st))) q.
Proof.
  intros [R W (N & P & Pr) C (I0 & I1 & (xi & Hxi & Si & Pi)) (K0 & K1 & K2)] Hx Hp Hpr Hq Hid.
  split; simpl; [done|by eapply rq_wf_upd|by eapply threads_ok_upd|done| |].
  - split; [done|]. split; [done|]. destruct (decide (idle q = t)) as [Ei|Hne].
    + rewrite Ei, lookup_insert_eq. exists x'. split; [done|]. split; [by apply Hid|].
      rewrite Hpr. rewrite Ei in Hxi. congruence.
    + rewrite lookup_insert_ne by done. by exists xi.
  - split; [done|]. split; [done|]. apply lookup_insert_is_Some'. by right.
Qed.

Lemma schedule_alone fuel st q x :
  sched_inv st q -> preempt st = 0 -> none_ready (queue_at q) ->
  threads st !! current_thread st = Some x -> t_state x = TASK_RUNNING -> needs_resched x ->
  schedule fuel st = Some None.
Proof.
  revert st q x. induction fuel as [|n IH]; intros st q x HI Hp Hno Hx Hst Hf; [done|].
  destruct (alone_rescheduled st q x) as (st' & q' & x' & E1 & E2 & HI' & Hno' & Hx' & Hst' & Hf');
    [done..|]. cbn [schedule]. rewrite E1. cbn [mbind option_bind]. rewrite E2. cbn [mbind option_bind].
  by eapply IH.
Qed.

(** A thread that yields while no other thread is ready never returns from [sched_yield]
    when preemption is enabled: [schedule] picks the same thread, skips [switch_to] and with it
    the clearing of TF_NEED_RESCHED, and [preempt_enable] calls [schedule] again, without end (in
    the kernel, until the stack overflows). *)
Theorem yield_alone_never_returns st q x fuel :
  sched_inv st q -> preempt st = 0 -> none_ready (queue_at q) ->
  threads st !! current_thread st = Some x -> t_state x = TASK_RUNNING ->
  sched_yield fuel st = Some None.
Proof.
  intros HI Hp Hno Hx Hst. unfold sched_yield, upd_thread. rewrite Hx. cbn [mbind option_bind].
  set (x1 := set_flags (Z.lor (t_flags x) TF_NEED_RESCHED) x).
  apply (schedule_alone fuel _ q x1); [|done|done|apply lookup_insert_eq|done|].
  - eapply sched_inv_upd; try done. exact (si_prio _ _ _ _ HI Hx).
  - unfold needs_resched, x1, TF_NEED_RESCHED. cbn [t_flags set_flags]. rewrite ztrue_land_bit by lia.
    rewrite Z.lor_spec, pow2_testbit by lia. by rewrite orb_true_r.
Qed.

(** Enqueueing a runnable thread that is neither running nor idle. *)
Lemma enqueue_inv st q t x :
  sched_inv st q -> threads st !! t = Some x -> t_state x = TASK_RUNNING ->
  t ∉ concat (queue q) -> t ≠ current_thread st -> t ≠ idle q ->
  exists st' q', enqueue_thread_locked st t = Some st' /\ sched_inv st' q' /\
    idle q' = idle q /\ current_thread st' = current_thread st /\
    (forall t', t' ∈ concat (queue q') <-> t' = t \/ t' ∈ concat (queue q)).
Proof.
  intros HI Hx Hs Hn Hc Hid. pose proof HI as [R W T C (I0 & I1 & I2) (K0 & K1 & K2)].
  destruct (enqueue_ok st q t x) as (q' & E & W' & Eq & Q' & M');
    [done|done|done|done|by eapply si_prio|done|done|].
  rewrite E. eexists _, q'. split; [done|].
  assert (idle q' = idle q) as Ei by (by rewrite Eq). split; [|done].
  split; simpl; [done|done|eapply threads_ok_upd; [done|done|exact (si_prio st q t x HI Hx)|done]|by rewrite Eq| |].
  - rewrite Ei. split; [done|]. split; [rewrite M'; intros [?|?]; done|].
    rewrite lookup_insert_ne by done. done.
  - split; [done|]. split; [rewrite M'; intros [?|?]; [by apply Hc|done]|].
    rewrite lookup_insert_ne by done. done.
Qed.

(** ** Waking up *)

(** The queues after a wake-up: the thread joins the end of its list unless it is the one
    running (then [schedule] will put it back). *)
Definition woken_queue (st : sched) (q : run_queue) (t : Z) (x : thread) : Z -> list Z :=
  if decide (t = current_thread st) then queue_at q else append_at (queue_at q) (t_priority x) t.

Lemma sched_wakeup_ok st q t x :
  sched_inv st q -> threads st !! t = Some x ->
  (t_state x = TASK_RUNNING /\ sched_wakeup st t = Some st) \/
  (t_state x ≠ TASK_RUNNING /\ exists st' q' x', sched_wakeup st t = Some st' /\ sched_inv st' q' /\
     threads st' = <[t := x']> (threads st) /\ t_state x' = TASK_RUNNING /\
     t_time_slice x' = DEFAULT_TIME_SLICE /\ t_priority x' = t_priority x /\
     t_wait_channel x' = t_wait_channel x /\ t_process x' = t_process x /\
     current_thread st' = current_thread st /\ idle q' = idle q /\ all_threads st' = all_threads st /\
     waitqs st' = waitqs st /\ hw st' = hw st /\ forall p, queue_at q' p = woken_queue st q t x p).
Proof.
  intros HI Hx. unfold sched_wakeup. rewrite Hx. cbn [mbind option_bind].
  destruct (decide (t_state x = TASK_RUNNING)) as [Es|Es].
  { left. by rewrite bool_decide_true. }
  right. split; [done|]. rewrite bool_decide_false by done. unfold upd_thread at 1. rewrite Hx.
  cbn [mbind option_bind].
  set (x1 := set_time_slice DEFAULT_TIME_SLICE (set_state TASK_RUNNING x)).
  pose proof HI as [R W (N & P & Pr) C (I0 & I1 & (xi & Hxi & Si & Pi)) (K0 & K1 & K2)].
  assert (t ∉ concat (queue q)) as Hnq.
  { intros Hin. apply elem_of_queues in Hin as (p & l & Hl & Ht).
    destruct (rw_queued _ _ W _ _ _ Hl Ht) as (y & Hy & _ & Sy & _). congruence. }
  assert (sched_inv (with_threads st (<[t := x1]> (threads st))) q) as HI1.
  { by eapply sched_inv_upd; [done|done|exact (P _ _ Hx)|..]. }
  cbn [current_thread with_threads].
  destruct (Z.eqb_spec t (current_thread st)) as [Et|Et].
  - eexists _, q, x1. split; [done|]. split; [done|]. do 11 (split; [done|]). intros p.
    unfold woken_queue. by rewrite decide_True.
  - unfold sched_add, upd_thread. cbn [threads with_threads]. rewrite lookup_insert_eq.
    cbn [mbind option_bind]. rewrite insert_insert_eq.
    change (set_state TASK_RUNNING x1) with x1.
    set (st1 := with_threads (with_threads st (<[t := x1]> (threads st))) (<[t := x1]> (threads st))).
    assert (t ≠ idle q) as Hti by (intros ->; congruence).
    destruct (enqueue_ok st1 q t x1) as (q' & E & W' & Eq & Q' & M');
      [done|apply HI1|done|apply lookup_insert_eq|exact (P _ _ Hx)|done|done|].
    rewrite E. eexists _, q', (set_cpu 0 x1). split; [done|].
    assert (<[t := set_cpu 0 x1]> (threads st1) = <[t := set_cpu 0 x1]> (threads st)) as Ets.
    { apply insert_insert_eq. }
    rewrite Ets in *. split; [|split; [done|do 10 (split; [by try rewrite Eq|])]].
    + split; simpl; [done|done| |by rewrite Eq| |].
      * eapply threads_ok_upd; [by split|done|exact (P _ _ Hx)|done].
      * replace (idle q') with (idle q) by (by rewrite Eq). split; [done|]. split.
        -- rewrite M'. intros [?|?]; [congruence|done].
        -- rewrite lookup_insert_ne by done. by exists xi.
      * split; [done|]. split; [rewrite M'; intros [?|?]; [congruence|done]|].
        rewrite lookup_insert_ne by done. done.
    + intros p. unfold woken_queue. rewrite decide_False by done. apply Q'.
Qed.

(** Waking a thread: a sleeping thread becomes runnable with a fresh time slice and joins
    the end of the list of its priority, exactly once, unless it is the thread now running, which
    [schedule] itself puts back; a runnable thread is left alone.  The run queue's invariant is
    preserved. *)
Theorem sched_wakeup_spec st q t x :
  sched_inv st q -> threads st !! t = Some x ->
  (t_state x = TASK_RUNNING /\ sched_wakeup st t = Some st) \/
  (t_state x ≠ TASK_RUNNING /\ exists st' q' x', sched_wakeup st t = Some st' /\ sched_inv st' q' /\
     threads st' = <[t := x']> (threads st) /\ t_state x' = TASK_RUNNING /\
     t_time_slice x' = DEFAULT_TIME_SLICE /\ t_priority x' = t_priority x /\
     t_wait_channel x' = t_wait_channel x /\ t_process x' = t_process x /\
     current_thread st' = current_thread st /\ idle q' = idle q /\ all_threads st' = all_threads st /\
     waitqs st' = waitqs st /\ hw st' = hw st /\ forall p, queue_at q' p = woken_queue st q t x p).
Proof. apply sched_wakeup_ok. Qed.

(** The address space follows the thread: if the running thread's process has an address
    space and it is the active one, the same holds of whatever thread [schedule] runs next, also
    after detours over kernel threads, which keep the previous one. *)
Theorem address_space_follows st q st' :
  sched_inv st q -> mm_inv st -> pass st = Some st' -> mm_inv st' /\ exists q', sched_inv st' q'.
Proof.
  intros HI Hmm E. destruct (pass_ok st q HI) as (next & st1 & q1 & E1 & HS).
  assert (st1 = st') as -> by congruence. split; [by apply (sd_mm _ _ _ _ _ HS)|].
  exists q1. apply (sd_inv _ _ _ _ _ HS).
Qed.

(** ** Waking all sleepers of a channel *)

Lemma wakeup_loop_ok ch l : forall st q,
  sched_inv st q -> (forall t, t ∈ l -> is_Some (threads st !! t)) ->
  exists st' q', wakeup_loop st l ch = Some st' /\ sched_inv st' q' /\
    forall t x, threads st !! t = Some x -> exists x', threads st' !! t = Some x' /\
      t_wait_channel x' = t_wait_channel x /\ t_priority x' = t_priority x /\
      t_state x' = if bool_decide (t ∈ l) && wakes x ch then TASK_RUNNING else t_state x.
Proof.
  induction l as [|t l IH]; intros st q HI Hl; cbn [wakeup_loop].
  - exists st, q. split; [done|]. split; [done|]. intros t x Hx. exists x.
    by rewrite bool_decide_false by apply not_elem_of_nil.
  - destruct (Hl t) as [x Hx]; [left|]. rewrite Hx. cbn [mbind option_bind].
    assert (exists st1 q1 x1, (if wakes x ch then sched_wakeup st t else Some st) = Some st1 /\
      sched_inv st1 q1 /\ threads st1 = <[t := x1]> (threads st) /\
      t_wait_channel x1 = t_wait_channel x /\ t_priority x1 = t_priority x /\
      t_state x1 = if wakes x ch then TASK_RUNNING else t_state x)
      as (st1 & q1 & x1 & E1 & HI1 & T1 & C1 & P1 & S1).
    { destruct (wakes x ch) eqn:Ew; [|exists st, q, x; by rewrite insert_id].
      destruct (sched_wakeup_ok st q t x HI Hx) as
        [[Es _]|(_ & st1 & q1 & x1 & E1 & HI1 & T1 & S1 & _ & P1 & C1 & _)].
      - unfold wakes in Ew. rewrite Es, andb_comm in Ew. done.
      - exists st1, q1, x1. done. }
    rewrite E1. cbn [mbind option_bind].
    destruct (IH st1 q1 HI1) as (st' & q' & E' & HI' & H').
    { intros t' Ht'. rewrite T1. apply lookup_insert_is_Some'. right. apply Hl. by right. }
    exists st', q'. split; [done|]. split; [done|]. intros t' y Hy.
    destruct (decide (t' = t)) as [->|Hne].
    + assert (x = y) as <- by congruence. destruct (H' t x1) as (x' & Hx' & Ec & Ep & Es);
        [by rewrite T1, lookup_insert_eq|]. exists x'. split; [done|]. split; [congruence|].
      split; [congruence|]. rewrite Es, S1, (bool_decide_true (t ∈ t :: l)) by left. simpl.
      unfold wakes at 1. rewrite S1. destruct (wakes x ch) eqn:Ew; simpl; [|].
      * by rewrite andb_false_r, andb_false_r.
      * unfold wakes in Ew. rewrite C1, Ew, andb_false_r. done.
    + destruct (H' t' y) as (x' & Hx' & Ec & Ep & Es); [by rewrite T1, lookup_insert_ne|].
      exists x'. split; [done|]. split; [done|]. split; [done|]. rewrite Es. f_equal.
      assert (bool_decide (t' ∈ t :: l) = bool_decide (t' ∈ l)) as ->; [|done].
      apply bool_decide_ext. rewrite elem_of_cons. tauto.
Qed.

(** No wake-up is lost: [thread_wakeup] on a channel makes every thread that sleeps on it
    runnable and changes the state of no other thread. *)
Theorem thread_wakeup_spec st q ch :
  sched_inv st q -> (forall t, t ∈ all_threads st -> is_Some (threads st !! t)) ->
  exists st' q', thread_wakeup st ch = Some st' /\ sched_inv st' q' /\
    forall t x, threads st !! t = Some x -> exists x', threads st' !! t = Some x' /\
      t_wait_channel x' = t_wait_channel x /\ t_priority x' = t_priority x /\
      t_state x' = if bool_decide (t ∈ all_threads st) && wakes x ch then TASK_RUNNING else t_state x.
Proof. intros HI Hl. by apply (wakeup_loop_ok ch (all_threads st) st q). Qed.

(** ** Changing a priority *)

Lemma with_threads_rq st ts q : with_rq (with_threads st ts) q = with_threads (with_rq st q) ts.
Proof. done. Qed.

(** Changing a thread's priority clamps it to the 140 levels and keeps the run queue
    consistent: a queued thread leaves its list and joins the end of the new one, with the bitmap
    bits of both lists right; a thread that is not queued only gets the new value. *)
Theorem set_priority_spec st q t x prio :
  sched_inv st q -> threads st !! t = Some x ->
  exists st' q', sched_set_priority st t prio = Some st' /\ sched_inv st' q' /\
    threads st' = <[t := set_priority (clamp_prio prio) x]> (threads st) /\
    nr_running q' = nr_running q /\
    forall p, queue_at q' p =
      if on_rq q t then append_at (fun p => filter (fun y => y ≠ t) (queue_at q p)) (clamp_prio prio) t p
      else queue_at q p.
Proof.
  intros HI Hx. pose proof HI as [R W (N & P & Pr) C (I0 & I1 & I2) (K0 & K1 & K2)].
  unfold sched_set_priority. rewrite Hx, R. cbn [mbind option_bind].
  pose proof (clamp_range prio) as Hcl. set (x1 := set_priority (clamp_prio prio) x).
  destruct (on_rq q t) eqn:Eo.
  2: { unfold upd_thread. rewrite Hx. cbn [mbind option_bind]. eexists _, q. split; [done|].
       split; [|done]. eapply sched_inv_upd; try done.
       - intros Hq%on_rq_spec. congruence.
       - intros ->. destruct I2 as (xi & Hxi & Si & _). simpl. congruence. }
  apply on_rq_spec in Eo. pose proof Eo as (p & l & Hl & Ht)%elem_of_queues.
  destruct (rw_queued _ _ W p l t Hl Ht) as (y & Hy & Ep & Es & Ec).
  assert (x = y) as <- by congruence. subst p. unfold cpu_rq. rewrite Ec. simpl. rewrite R.
  cbn [mbind option_bind].
  destruct (rq_remove_ok (threads st) q (t_priority x) l t W Hl Ht) as (b & Eb & Ez & W1 & Hu).
  rewrite Ez. cbn [mbind option_bind]. rewrite Eb. cbn [mbind option_bind].
  unfold upd_thread. rewrite Hx. cbn [mbind option_bind].
  set (q1 := rq_lists (u64 (nr_running q - 1)) (unlink (queue q) t) b q) in *.
  assert (t ∉ concat (queue q1)) as Hn1.
  { simpl. rewrite concat_unlink, list_elem_of_filter. tauto. }
  destruct (rq_insert_ok (<[t := x1]> (threads st)) q1 t x1) as (qs & b2 & E1 & E2 & W2 & Hu2);
    [by eapply rq_wf_upd|done|apply lookup_insert_eq|done|done|done|].
  simpl in E1, E2. rewrite E1. cbn [mbind option_bind]. rewrite E2. cbn [mbind option_bind].
  set (q2 := rq_lists (nr_running q) qs b2 q).
  assert (forall t', t' ∈ concat qs <-> t' = t \/ t' ∈ concat (queue q1)) as Hc2.
  { destruct (queue_exists _ q1 (clamp_prio prio) W1 Hcl) as [l1 Hl1]. intros t'.
    rewrite (concat_snoc_perm _ _ _ _ _ Hl1 E1). by rewrite elem_of_cons. }
  assert (forall t', t' ∈ concat qs -> t' ∈ concat (queue q)) as Hsub.
  { intros t' [->|Ht']%Hc2; [done|]. simpl in Ht'. rewrite concat_unlink in Ht'.
    by apply list_elem_of_filter in Ht' as [_ ?]. }
  assert (rq_wf (<[t := x1]> (threads st)) q2) as W3.
  { eapply rq_wf_same; [..|exact W2]; [done|done|]. simpl.
    rewrite (rw_count _ _ W), u64_sub_l, u64_add_l. f_equal. lia. }
  eexists _, q2. split; [done|]. split; [|split; [done|split; [done|]]].
  - split; simpl; [done|done|by eapply threads_ok_upd|done| |].
    + split; [done|]. split; [by intros ?%Hsub|]. rewrite lookup_insert_ne by (intros ->; done). done.
    + split; [done|]. split; [by intros ?%Hsub|]. rewrite lookup_insert_ne by (intros ->; done). done.
  - intros p. unfold append_at, queue_at. simpl. rewrite Hu2.
    simpl. rewrite !zget_unlink. destruct (decide (p = clamp_prio prio)) as [->|].
    + destruct (queue_exists _ q (clamp_prio prio) W Hcl) as [l2 ->]. done.
    + by destruct (zget (queue q) p).
Qed.

(** A thread other than idle that sleeps hands the CPU to another thread: it is left asleep on its
    channel, off the run queue, and no thread appears, disappears or changes its process. *)
Definition processes_kept (ts ts' : gmap Z thread) : Prop :=
  forall t, (t_process <$> ts' !! t) = (t_process <$> ts !! t).

Lemma processes_kept_intro ts ts' :
  threads_kept ts ts' -> (forall t, is_Some (ts' !! t) -> is_Some (ts !! t)) -> processes_kept ts ts'.
Proof.
  intros K D t. destruct (ts !! t) as [x|] eqn:E.
  - destruct (K _ _ E) as (x' & -> & _ & _ & E3 & _). simpl. by rewrite E3.
  - destruct (ts' !! t) as [y|] eqn:E'; [|done]. destruct (D t) as [z Hz]; [by eexists|]. congruence.
Qed.

Lemma processes_kept_upd ts t x x' :
  ts !! t = Some x -> t_process x' = t_process x -> processes_kept ts (<[t := x']> ts).
Proof.
  intros Hx E t'. destruct (decide (t' = t)) as [->|Hne].
  - rewrite lookup_insert_eq, Hx. simpl. by rewrite E.
  - by rewrite lookup_insert_ne.
Qed.

Lemma processes_kept_trans ts1 ts2 ts3 :
  processes_kept ts1 ts2 -> processes_kept ts2 ts3 -> processes_kept ts1 ts3.
Proof. intros H1 H2 t. by rewrite H2, H1. Qed.

Record slept (st : sched) (ch : Z) (st' : sched) : Prop := {
  sp_asleep : exists x, threads st' !! current_thread st = Some x /\
    t_state x = TASK_INTERRUPTIBLE /\ t_wait_channel x = ch;
  sp_other : current_thread st' ≠ current_thread st;
  sp_procs : processes_kept (threads st) (threads st')
}.

(** The choice of [schedule] when the current thread has gone to sleep. *)
Lemma schedule_asleep_ok st q x :
  sched_inv st q -> threads st !! current_thread st = Some x -> t_state x = TASK_INTERRUPTIBLE ->
  exists st' q', schedule 1 st = Some (Some st') /\ sched_inv st' q' /\ idle q' = idle q /\
    slept st (t_wait_channel x) st'.
Proof.
  intros HI Hx Hst. assert (current_thread st ≠ idle q) as Hid.
  { intros E. destruct (si_idle _ _ HI) as (_ & _ & xi & Hxi & Si & _). congruence. }
  destruct (schedule_body_ok st q HI) as (next & st' & q' & E & [HI' HC HId _ HCh HK HD _ _]).
  assert (forall p, ready st q p = queue_at q p) as Hr.
  { intros p. unfold ready, competes. rewrite Hx, Hst. by rewrite bool_decide_false. }
  assert (next ≠ current_thread st) as Hne.
  { intros ->. destruct HCh as [(p & l & (B1 & B2 & _) & _)|(_ & ? & _)]; [|done].
    rewrite Hr in B2. destruct (si_current _ _ HI) as (_ & Hq & _). apply Hq.
    apply queued_in_queue_at. exists p. rewrite B2. apply elem_of_cons. by left. }
  rewrite decide_False in E by done. exists st', q'. cbn [schedule]. rewrite E. cbn [mbind option_bind].
  split; [done|]. split; [done|]. split; [done|]. destruct (HK _ _ Hx) as (x' & Hx' & _ & E2 & _ & E4).
  split; [|congruence|by apply processes_kept_intro]. exists x'. split; [done|]. split; congruence.
Qed.

Lemma thread_sleep_ok st q ch :
  sched_inv st q -> current_thread st ≠ idle q ->
  exists st' q', thread_sleep 1 st ch = Some (Some st') /\ sched_inv st' q' /\ idle q' = idle q /\
    slept st ch st'.
Proof.
  intros HI Hid. pose proof (si_current _ _ HI) as (H0 & Hq & [x Hx]). unfold thread_sleep.
  destruct (Z.eqb_spec (current_thread st) 0) as [|_]; [done|]. unfold upd_thread. rewrite Hx.
  cbn [mbind option_bind]. set (x1 := set_state TASK_INTERRUPTIBLE (set_wait_channel ch x)).
  set (st1 := with_threads st _).
  assert (sched_inv st1 q) as HI1.
  { eapply sched_inv_upd; [done|done|exact (si_prio _ _ _ _ HI Hx)|done|done|done]. }
  assert (threads st1 !! current_thread st = Some x1) as Hx1 by apply lookup_insert_eq.
  assert (sched_remove st1 (current_thread st) = Some st1) as ->.
  { unfold sched_remove. rewrite Hx1. cbn [mbind option_bind]. unfold cpu_rq. rewrite (si_rq _ _ HI1).
    destruct (_ || _); [done|]. destruct (on_rq q (current_thread st)) eqn:Eo; [|done].
    by apply on_rq_spec in Eo. }
  cbn [mbind option_bind].
  destruct (schedule_asleep_ok st1 q x1) as (st' & q' & E & HI' & Ei & [A O P]); [done|done|done|].
  exists st', q'. split; [done|]. split; [done|]. split; [done|]. split; [done|done|].
  eapply processes_kept_trans; [|exact P]. by eapply processes_kept_upd.
Qed.

(** Waking up, as far as the users of the scheduler see it. *)
Lemma sched_wakeup_kept st q t :
  sched_inv st q -> is_Some (threads st !! t) ->
  exists st' q', sched_wakeup st t = Some st' /\ sched_inv st' q' /\ idle q' = idle q /\
    current_thread st' = current_thread st /\ processes_kept (threads st) (threads st') /\
    (forall x, threads st' !! t = Some x -> t_state x = TASK_RUNNING) /\
    (forall t', t' ≠ t -> threads st' !! t' = threads st !! t').
Proof.
  intros HI [x Hx]. destruct (sched_wakeup_ok st q t x HI Hx) as [[Es E]|(Es & st' & q' & x' & E & HI' & T' & S' & R)].
  - exists st, q. split; [done|]. split; [done|]. split; [done|]. split; [done|]. split; [done|].
    split; [congruence|done].
  - destruct R as (_ & _ & _ & Ep & Ec & Ei & _). exists st', q'. split; [done|]. split; [done|].
    split; [done|]. split; [done|]. rewrite T'. split; [by eapply processes_kept_upd|]. split.
    + intros y. rewrite lookup_insert_eq. congruence.
    + intros t' Hne. by rewrite lookup_insert_ne.
Qed.

(** ** Witnesses: the idle thread at 100, a running thread at 200 (process 1, address space 7) and
    three more of the same priority, two of them queued and one sleeping on channel 5 *)

Definition ex_thread (tid proc : Z) (s : task_state) (ch : Z) : thread :=
  mk_thread tid proc s 0 DEFAULT_PRIO 0 DEFAULT_TIME_SLICE 0 0 0 0 ch 0 1.

Definition ex_threads : gmap Z thread :=
  list_to_map [(100, idle_thread 0); (200, ex_thread 1 1 TASK_RUNNING 0);
               (300, ex_thread 2 2 TASK_RUNNING 0); (400, ex_thread 3 0 TASK_RUNNING 0);
               (500, ex_thread 4 0 TASK_INTERRUPTIBLE 5)].

Definition ex_base : sched :=
  mk_sched ex_threads {[ 1 := 7; 2 := 8 ]} (Some (rq_idle 100 (rq_init 0))) 200 0 0 0 ∅
    [200; 300; 400; 500] [PagingSwitch 7].

(** The two queued threads are added by the code itself. *)
Definition ex_sched : sched :=
  default ex_base (st ← enqueue_thread_locked ex_base 300; enqueue_thread_locked st 400).
Definition ex_rq : run_queue := default (rq_init 0) (runqueues ex_sched).

Lemma ex_lookup t x : ex_threads !! t = Some x ->
  t = 100 \/ t = 200 \/ t = 300 \/ t = 400 \/ t = 500.
Proof.
  intros H. apply elem_of_list_to_map_2 in H. unfold ex_threads in H.
  repeat (apply elem_of_cons in H as [H|H]; [injection H; intros; subst; tauto|]).
  by apply not_elem_of_nil in H.
Qed.

Lemma ex_base_inv : sched_inv ex_base (rq_idle 100 (rq_init 0)).
Proof.
  assert (concat (queue (rq_idle 100 (rq_init 0))) = []) as Ec by reflexivity.
  assert (forall p l, zget (queue (rq_idle 100 (rq_init 0))) p = Some l -> l = []) as Hq.
  { intros p l Hl. apply zget_lookup in Hl as [_ Hl]. by apply lookup_replicate in Hl as [-> _]. }
  assert (forall p, wbit (rq_bitmap (rq_idle 100 (rq_init 0))) p = false) as Hb.
  { intros p. unfold wbit. destruct (zget _ (p / 64)) eqn:E; [|apply Z.testbit_0_l].
    apply zget_lookup in E as [_ E]. apply lookup_replicate in E as [-> _]. apply Z.testbit_0_l. }
  split; [done| |split; [|split]|done| |].
  - split; [split; [reflexivity|split; [reflexivity|by apply Forall_replicate]]| |by intros; apply Hb| |rewrite Ec; constructor|done].
    + intros p l Hl. rewrite Hb. by rewrite (Hq p l Hl).
    + intros p l t Hl Ht. rewrite (Hq p l Hl) in Ht. by apply not_elem_of_nil in Ht.
  - reflexivity.
  - intros t x Hx. pose proof (ex_lookup t x Hx) as [->|[->|[->|[->| ->]]]];
      vm_compute in Hx; injection Hx as <-; by vm_compute.
  - intros t x Hx. pose proof (ex_lookup t x Hx) as [->|[->|[->|[->| ->]]]];
      vm_compute in Hx; injection Hx as <-; intros Hz; vm_compute in Hz; try done; by eexists.
  - split; [done|]. rewrite Ec. split; [apply not_elem_of_nil|]. exists (idle_thread 0). done.
  - split; [done|]. rewrite Ec. split; [apply not_elem_of_nil|]. by eexists.
Qed.

Lemma ex_sched_inv :
  sched_inv ex_sched ex_rq /\ forall t, t ∈ concat (queue ex_rq) <-> t = 300 \/ t = 400.
Proof.
  destruct (enqueue_inv ex_base (rq_idle 100 (rq_init 0)) 300 (ex_thread 2 2 TASK_RUNNING 0)) as
    (st1 & q1 & E1 & HI1 & Id1 & C1 & M1); [apply ex_base_inv|reflexivity|done|apply not_elem_of_nil|done|done|].
  assert (exists x, threads st1 !! 400 = Some x /\ t_state x = TASK_RUNNING) as (x & Hx & Sx).
  { exists (ex_thread 3 0 TASK_RUNNING 0). split; [|done].
    assert (threads st1 = default ∅ (threads <$> enqueue_thread_locked ex_base 300)) as ->
      by (by rewrite E1). vm_compute. reflexivity. }
  destruct (enqueue_inv st1 q1 400 x) as (st2 & q2 & E2 & HI2 & Id2 & C2 & M2); [done|done|done| | | |].
  - rewrite M1. by intros [?|?%not_elem_of_nil].
  - by rewrite C1.
  - by rewrite Id1.
  - assert (ex_sched = st2) as Es.
    { unfold ex_sched. rewrite E1. cbn [mbind option_bind]. by rewrite E2. }
    assert (ex_rq = q2) as Eq. { unfold ex_rq. by rewrite Es, (si_rq _ _ HI2). }
    rewrite Es, Eq. split; [exact HI2|]. intros t. rewrite M2, M1. split.
    + intros [->|[->|?%not_elem_of_nil]]; [by right|by left|done].
    + intros [->| ->]; auto.
Qed.

Lemma schedule_picks_best_witness :
  exists next st' q',
    schedule_body ex_sched = Some (if decide (next = current_thread ex_sched) then inr st' else inl st') /\
    scheduled ex_sched ex_rq next st' q'.
Proof. apply (schedule_picks_best ex_sched ex_rq). exact (proj1 ex_sched_inv). Defined.

Lemma ex_queues : forall p, queue_at ex_rq p = if decide (p = 120) then [300; 400] else [].
Proof.
  intros p. unfold queue_at, zget. case_decide as H0; [|by rewrite decide_False by lia].
  destruct (decide (p < 140)) as [H1|H1].
  - assert (Forall (fun p => queue_at ex_rq p = if decide (p = 120) then [300; 400] else [])
      (seqZ 0 140)) as Hall by (vm_compute; repeat constructor).
    rewrite Forall_forall in Hall. specialize (Hall p ltac:(apply elem_of_seqZ; lia)).
    unfold queue_at, zget in Hall. by rewrite decide_True in Hall by done.
  - rewrite lookup_ge_None_2; [by rewrite decide_False by lia|].
    assert (length (queue ex_rq) = 140%nat) as -> by (vm_compute; reflexivity). lia.
Qed.

Lemma ex_top : top_list ex_sched ex_rq 120.
Proof.
  split; [unfold MAX_PRIO; lia|]. split.
  - intros p Hp. by rewrite ex_queues, decide_False by lia.
  - intros x Hx _. vm_compute in Hx. injection Hx as <-. vm_compute. discriminate.
Qed.

Lemma round_robin_witness :
  exists st', passes 2 ex_sched = Some st' /\ current_thread st' = 400.
Proof.
  apply (round_robin ex_sched ex_rq 120 [300] 400 []).
  - exact (proj1 ex_sched_inv).
  - exact ex_top.
  - by rewrite ex_queues.
Defined.

Lemma yield_alone_never_returns_witness : sched_yield 1000 ex_base = Some None.
Proof.
  apply (yield_alone_never_returns ex_base (rq_idle 100 (rq_init 0))
    (ex_thread 1 1 TASK_RUNNING 0) 1000).
  - exact ex_base_inv.
  - reflexivity.
  - intros p _. unfold queue_at. destruct (zget _ p) as [l|] eqn:E; [|reflexivity].
    apply zget_lookup in E as [_ E]. by apply lookup_replicate in E as [-> _].
  - vm_compute. reflexivity.
  - reflexivity.
Defined.

Definition ex_sleeper : thread := ex_thread 4 0 TASK_INTERRUPTIBLE 5.

Lemma sched_wakeup_spec_witness :
  (t_state ex_sleeper = TASK_RUNNING /\ sched_wakeup ex_sched 500 = Some ex_sched) \/
  (t_state ex_sleeper ≠ TASK_RUNNING /\ exists st' q' x', sched_wakeup ex_sched 500 = Some st' /\
     sched_inv st' q' /\
     threads st' = <[500 := x']> (threads ex_sched) /\ t_state x' = TASK_RUNNING /\
     t_time_slice x' = DEFAULT_TIME_SLICE /\ t_priority x' = t_priority ex_sleeper /\
     t_wait_channel x' = t_wait_channel ex_sleeper /\ t_process x' = t_process ex_sleeper /\
     current_thread st' = current_thread ex_sched /\ idle q' = idle ex_rq /\
     all_threads st' = all_threads ex_sched /\ waitqs st' = waitqs ex_sched /\ hw st' = hw ex_sched /\
     forall p, queue_at q' p = woken_queue ex_sched ex_rq 500 ex_sleeper p).
Proof.
  apply (sched_wakeup_spec ex_sched ex_rq 500 ex_sleeper); [exact (proj1 ex_sched_inv)|].
  vm_compute. reflexivity.
Defined.

Definition ex_passed : sched := default ex_base (pass ex_sched).

Lemma address_space_follows_witness : mm_inv ex_passed /\ exists q', sched_inv ex_passed q'.
Proof.
  apply (address_space_follows ex_sched ex_rq ex_passed).
  - exact (proj1 ex_sched_inv).
  - intros x mm Hx. assert (x = ex_thread 1 1 TASK_RUNNING 0) as -> by (vm_compute in Hx; injection Hx as <-; reflexivity).
    intros _ Hm _. vm_compute in Hm. injection Hm as <-. vm_compute. reflexivity.
  - vm_compute. reflexivity.
Defined.

Lemma thread_wakeup_spec_witness :
  exists st' q', thread_wakeup ex_sched 5 = Some st' /\ sched_inv st' q' /\
    forall t x, threads ex_sched !! t = Some x -> exists x', threads st' !! t = Some x' /\
      t_wait_channel x' = t_wait_channel x /\ t_priority x' = t_priority x /\
      t_state x' = if bool_decide (t ∈ all_threads ex_sched) && wakes x 5
                   then TASK_RUNNING else t_state x.
Proof.
  apply (thread_wakeup_spec ex_sched ex_rq 5); [exact (proj1 ex_sched_inv)|].
  intros t Ht. change (all_threads ex_sched) with [200; 300; 400; 500] in Ht.
  repeat (apply elem_of_cons in Ht as [->|Ht]; [vm_compute; by eexists|]).
  by apply not_elem_of_nil in Ht.
Defined.

Definition ex_queued : thread := ex_thread 3 0 TASK_RUNNING 0.

Lemma set_priority_spec_witness :
  exists st' q', sched_set_priority ex_sched 400 (-7) = Some st' /\ sched_inv st' q' /\
    threads st' = <[400 := set_priority (clamp_prio (-7)) ex_queued]> (threads ex_sched) /\
    nr_running q' = nr_running ex_rq /\
    forall p, queue_at q' p =
      if on_rq ex_rq 400
      then append_at (fun p => filter (fun y => y ≠ 400) (queue_at ex_rq p)) (clamp_prio (-7)) 400 p
      else queue_at ex_rq p.
Proof.
  apply (set_priority_spec ex_sched ex_rq 400 ex_queued (-7)); [exact (proj1 ex_sched_inv)|].
  vm_compute. reflexivity.
Defined.
