(* ===== verification/IpcTag.v ===== *)
(** * Message tags and window slices (kernel/include/ocean/ipc.h, include/ocean/ipc_proto.h)

    A message tag packs five fields into 64 bits; a slice packs an offset and a length into 64
    bits.  The kernel header and the protocol header of user space define the tag layout twice,
    with the same shifts and masks. *)
From S2P Require Import Prelude Defs.

(** ** The code *)

Definition MSG_TAG_LABEL_SHIFT : Z := 44.
Definition MSG_TAG_LABEL_MASK : Z := 0xFFFFF.
Definition MSG_TAG_LENGTH_SHIFT : Z := 38.
Definition MSG_TAG_LENGTH_MASK : Z := 0x3F.
Definition MSG_TAG_CAPS_SHIFT : Z := 34.
Definition MSG_TAG_CAPS_MASK : Z := 0xF.
Definition MSG_TAG_FLAGS_SHIFT : Z := 26.
Definition MSG_TAG_FLAGS_MASK : Z := 0xFF.
Definition MSG_TAG_ERROR_SHIFT : Z := 10.
Definition MSG_TAG_ERROR_MASK : Z := 0xFFFF.

Definition MSG_FLAG_NONBLOCK : Z := Z.shiftl 1 3.
Definition MSG_FLAG_SLICE : Z := Z.shiftl 1 4.

Definition MSG_TAG (label len caps flags : Z) : Z :=
  Z.lor (Z.lor (Z.lor (u64 (Z.shiftl label MSG_TAG_LABEL_SHIFT))
                      (u64 (Z.shiftl len MSG_TAG_LENGTH_SHIFT)))
               (u64 (Z.shiftl caps MSG_TAG_CAPS_SHIFT)))
        (u64 (Z.shiftl flags MSG_TAG_FLAGS_SHIFT)).

Definition MSG_LABEL (tag : Z) : Z := Z.land (Z.shiftr tag MSG_TAG_LABEL_SHIFT) MSG_TAG_LABEL_MASK.
Definition MSG_LENGTH (tag : Z) : Z := Z.land (Z.shiftr tag MSG_TAG_LENGTH_SHIFT) MSG_TAG_LENGTH_MASK.
Definition MSG_CAPS (tag : Z) : Z := Z.land (Z.shiftr tag MSG_TAG_CAPS_SHIFT) MSG_TAG_CAPS_MASK.
Definition MSG_FLAGS (tag : Z) : Z := Z.land (Z.shiftr tag MSG_TAG_FLAGS_SHIFT) MSG_TAG_FLAGS_MASK.
Definition MSG_ERROR (tag : Z) : Z := Z.land (Z.shiftr tag MSG_TAG_ERROR_SHIFT) MSG_TAG_ERROR_MASK.

Definition MSG_SET_ERROR (tag err : Z) : Z :=
  Z.lor (Z.land tag (lnotw 64 (u64 (Z.shiftl MSG_TAG_ERROR_MASK MSG_TAG_ERROR_SHIFT))))
        (u64 (Z.shiftl err MSG_TAG_ERROR_SHIFT)).

Definition OCEAN_IPC_WINDOW_SIZE : Z := 4096.

Definition IPC_SLICE_PACK (off len : Z) : Z := Z.lor (u64 (Z.shiftl (u32 off) 32)) (u32 len).
Definition IPC_SLICE_OFF (packed : Z) : Z := u32 (Z.shiftr packed 32).
Definition IPC_SLICE_LEN (packed : Z) : Z := u32 packed.

Definition ipc_slice_valid (off len : Z) : bool :=
  negb (OCEAN_IPC_WINDOW_SIZE <? u64 (off + len)).

(** ** Proofs, bit by bit *)

(** [x] shifted into a field of [w] bits at [s], read at bit [i]. *)
Lemma field_bit x s w i :
  0 <= s -> 0 <= w -> s + w <= 64 -> fits w x -> 0 <= i ->
  Z.testbit (u64 (Z.shiftl x s)) i = if decide (s <= i < s + w) then Z.testbit x (i - s) else false.
Proof.
  intros Hs Hw Hb Hx Hi. unfold u64, wrap. rewrite Z.testbit_mod_pow2 by lia. rewrite Z.shiftl_spec by lia.
  case_decide as H.
  - by destruct (Z.ltb_spec i 64); [|lia].
  - destruct (Z.ltb_spec i s) as [|Hge].
    + rewrite (Z.testbit_neg_r x (i - s)) by lia. apply andb_false_r.
    + rewrite (testbit_above w x (i - s)) by (done || lia). apply andb_false_r.
Qed.

(** Reading a field back. *)
Lemma get_field t s w i :
  0 <= s -> 0 <= w -> 0 <= i ->
  Z.testbit (Z.land (Z.shiftr t s) (Z.ones w)) i = if decide (i < w) then Z.testbit t (i + s) else false.
Proof.
  intros Hs Hw Hi. rewrite Z.land_spec, Z.shiftr_spec by done. case_decide.
  - rewrite Z.ones_spec_low by lia. apply andb_true_r.
  - rewrite Z.ones_spec_high by lia. apply andb_false_r.
Qed.

Definition tag_fields (label len caps flags : Z) : Prop :=
  fits 20 label /\ fits 6 len /\ fits 4 caps /\ fits 8 flags.

Lemma tag_bit label len caps flags i :
  tag_fields label len caps flags -> 0 <= i ->
  Z.testbit (MSG_TAG label len caps flags) i =
    if decide (44 <= i < 64) then Z.testbit label (i - 44) else
    if decide (38 <= i < 44) then Z.testbit len (i - 38) else
    if decide (34 <= i < 38) then Z.testbit caps (i - 34) else
    if decide (26 <= i < 34) then Z.testbit flags (i - 26) else false.
Proof.
  intros (H1 & H2 & H3 & H4) Hi. unfold MSG_TAG. rewrite !Z.lor_spec.
  rewrite (field_bit label MSG_TAG_LABEL_SHIFT 20), (field_bit len MSG_TAG_LENGTH_SHIFT 6),
    (field_bit caps MSG_TAG_CAPS_SHIFT 4), (field_bit flags MSG_TAG_FLAGS_SHIFT 8)
    by (done || unfold MSG_TAG_LABEL_SHIFT, MSG_TAG_LENGTH_SHIFT, MSG_TAG_CAPS_SHIFT, MSG_TAG_FLAGS_SHIFT; lia).
  unfold MSG_TAG_LABEL_SHIFT, MSG_TAG_LENGTH_SHIFT, MSG_TAG_CAPS_SHIFT, MSG_TAG_FLAGS_SHIFT.
  repeat case_decide; rewrite ?orb_false_r; simpl; done || lia.
Qed.

Lemma field_eq w x y :
  0 <= w -> fits w y -> (forall i, 0 <= i < w -> Z.testbit x i = Z.testbit y i) ->
  (forall i, w <= i -> Z.testbit x i = false) -> x = y.
Proof.
  intros Hw Hy Hlow Hhigh. apply Z.bits_inj'. intros i Hi. destruct (Z.lt_ge_cases i w).
  - apply Hlow. lia.
  - rewrite Hhigh by done. symmetry. apply (testbit_above w); [done|lia].
Qed.

Ltac tag_field w :=
  apply (field_eq w); [lia|done|intros i Hi; rewrite get_field, decide_True by lia|
    intros i Hi; rewrite get_field, decide_False by lia; done].

Lemma tag_roundtrip label len caps flags :
  tag_fields label len caps flags ->
  let tag := MSG_TAG label len caps flags in
  MSG_LABEL tag = label /\ MSG_LENGTH tag = len /\ MSG_CAPS tag = caps /\ MSG_FLAGS tag = flags /\
  MSG_ERROR tag = 0.
Proof.
  intros HT tag. pose proof HT as (H1 & H2 & H3 & H4).
  unfold MSG_LABEL, MSG_LENGTH, MSG_CAPS, MSG_FLAGS, MSG_ERROR.
  change MSG_TAG_LABEL_MASK with (Z.ones 20). change MSG_TAG_LENGTH_MASK with (Z.ones 6).
  change MSG_TAG_CAPS_MASK with (Z.ones 4). change MSG_TAG_FLAGS_MASK with (Z.ones 8).
  change MSG_TAG_ERROR_MASK with (Z.ones 16).
  unfold MSG_TAG_LABEL_SHIFT, MSG_TAG_LENGTH_SHIFT, MSG_TAG_CAPS_SHIFT, MSG_TAG_FLAGS_SHIFT,
    MSG_TAG_ERROR_SHIFT.
  split; [|split; [|split; [|split]]]; [tag_field 20|tag_field 6|tag_field 4|tag_field 8|tag_field 16];
    unfold tag; rewrite (tag_bit _ _ _ _ _ HT) by lia; repeat case_decide; try lia;
    try (f_equal; lia). by rewrite Z.testbit_0_l.
Qed.

(** Bit [i] of a tag whose error field was replaced. *)
Lemma set_error_bit tag err i :
  fits 64 tag -> fits 16 err -> 0 <= i ->
  Z.testbit (MSG_SET_ERROR tag err) i =
    if decide (10 <= i < 26) then Z.testbit err (i - 10) else Z.testbit tag i.
Proof.
  intros Ht He Hi. unfold MSG_SET_ERROR. rewrite Z.lor_spec, Z.land_spec, lnotw_testbit by lia.
  change MSG_TAG_ERROR_MASK with (Z.ones 16).
  rewrite (field_bit err MSG_TAG_ERROR_SHIFT 16), (field_bit (Z.ones 16) MSG_TAG_ERROR_SHIFT 16)
    by (done || unfold MSG_TAG_ERROR_SHIFT; lia).
  unfold MSG_TAG_ERROR_SHIFT. change (10 + 16) with 26. case_decide as Hf.
  - rewrite Z.ones_spec_low by lia. rewrite (bool_decide_true (i < 64)) by lia.
    simpl. by rewrite andb_false_r.
  - rewrite orb_false_r. destruct (decide (i < 64)).
    + rewrite (bool_decide_true (i < 64)) by done. simpl. apply andb_true_r.
    + rewrite (testbit_above 64 tag i) by (done || lia). done.
Qed.

(** Message tags are read back as they were built: every field that fits its width comes
    out unchanged, a fresh tag carries no error, and setting the error of a tag changes that
    field and no other. *)
Theorem msg_tag_roundtrip label len caps flags err :
  tag_fields label len caps flags -> fits 16 err ->
  let tag := MSG_TAG label len caps flags in
  (MSG_LABEL tag = label /\ MSG_LENGTH tag = len /\ MSG_CAPS tag = caps /\ MSG_FLAGS tag = flags /\
   MSG_ERROR tag = 0) /\
  (MSG_LABEL (MSG_SET_ERROR tag err) = label /\ MSG_LENGTH (MSG_SET_ERROR tag err) = len /\
   MSG_CAPS (MSG_SET_ERROR tag err) = caps /\ MSG_FLAGS (MSG_SET_ERROR tag err) = flags /\
   MSG_ERROR (MSG_SET_ERROR tag err) = err).
Proof.
  intros HT He tag. split; [by apply tag_roundtrip|].
  assert (fits 64 tag) as Htag.
  { apply fits_testbit; [lia| |].
    - unfold tag, MSG_TAG. rewrite !Z.lor_nonneg. repeat split; apply u64_range.
    - intros i Hi. unfold tag. rewrite tag_bit by (done || lia). repeat case_decide; try done; lia. }
  pose proof HT as (H1 & H2 & H3 & H4).
  unfold MSG_LABEL, MSG_LENGTH, MSG_CAPS, MSG_FLAGS, MSG_ERROR.
  change MSG_TAG_LABEL_MASK with (Z.ones 20). change MSG_TAG_LENGTH_MASK with (Z.ones 6).
  change MSG_TAG_CAPS_MASK with (Z.ones 4). change MSG_TAG_FLAGS_MASK with (Z.ones 8).
  change MSG_TAG_ERROR_MASK with (Z.ones 16).
  unfold MSG_TAG_LABEL_SHIFT, MSG_TAG_LENGTH_SHIFT, MSG_TAG_CAPS_SHIFT, MSG_TAG_FLAGS_SHIFT,
    MSG_TAG_ERROR_SHIFT.
  split; [|split; [|split; [|split]]]; [tag_field 20|tag_field 6|tag_field 4|tag_field 8|tag_field 16];
    rewrite set_error_bit by (done || lia); [rewrite decide_False by lia; unfold tag;
    rewrite (tag_bit _ _ _ _ _ HT) by lia; repeat case_decide; try lia; f_equal; lia..|].
  rewrite decide_True by lia. f_equal. lia.
Qed.

Lemma slice_roundtrip off len :
  fits 32 off -> fits 32 len ->
  IPC_SLICE_OFF (IPC_SLICE_PACK off len) = off /\ IPC_SLICE_LEN (IPC_SLICE_PACK off len) = len.
Proof.
  intros Ho Hl. unfold IPC_SLICE_OFF, IPC_SLICE_LEN, IPC_SLICE_PACK.
  rewrite (u32_small off), (u32_small len) by done.
  assert (forall i, 0 <= i -> Z.testbit (Z.lor (u64 (Z.shiftl off 32)) len) i =
    if decide (32 <= i < 64) then Z.testbit off (i - 32) else Z.testbit len i) as Hb.
  { intros i Hi. rewrite Z.lor_spec, (field_bit off 32 32) by (done || lia). change (32 + 32) with 64. case_decide; [|done].
    rewrite (testbit_above 32 len i) by (done || lia). apply orb_false_r. }
  unfold u32, wrap. split.
  - apply (field_eq 32); [lia|done| |]; intros i Hi; rewrite Z.testbit_mod_pow2 by lia.
    + rewrite Z.shiftr_spec, Hb, decide_True by lia. destruct (Z.ltb_spec i 32); [|lia]. simpl. f_equal. lia.
    + by destruct (Z.ltb_spec i 32); [lia|].
  - apply (field_eq 32); [lia|done| |]; intros i Hi; rewrite Z.testbit_mod_pow2 by lia.
    + rewrite Hb, decide_False by lia. by destruct (Z.ltb_spec i 32); [|lia].
    + by destruct (Z.ltb_spec i 32); [lia|].
Qed.

Lemma slice_valid_spec off len :
  fits 32 off -> fits 32 len -> ipc_slice_valid off len = true <-> off + len <= OCEAN_IPC_WINDOW_SIZE.
Proof.
  intros [] []. unfold ipc_slice_valid. rewrite u64_small by lia. rewrite negb_true_iff, Z.ltb_ge. done.
Qed.

Lemma msg_tag_roundtrip_witness :
  (MSG_LABEL (MSG_TAG 0x1234 4 0 16) = 0x1234 /\ MSG_LENGTH (MSG_TAG 0x1234 4 0 16) = 4 /\
   MSG_CAPS (MSG_TAG 0x1234 4 0 16) = 0 /\ MSG_FLAGS (MSG_TAG 0x1234 4 0 16) = 16 /\
   MSG_ERROR (MSG_TAG 0x1234 4 0 16) = 0) /\
  (MSG_LABEL (MSG_SET_ERROR (MSG_TAG 0x1234 4 0 16) 2) = 0x1234 /\
   MSG_LENGTH (MSG_SET_ERROR (MSG_TAG 0x1234 4 0 16) 2) = 4 /\
   MSG_CAPS (MSG_SET_ERROR (MSG_TAG 0x1234 4 0 16) 2) = 0 /\
   MSG_FLAGS (MSG_SET_ERROR (MSG_TAG 0x1234 4 0 16) 2) = 16 /\
   MSG_ERROR (MSG_SET_ERROR (MSG_TAG 0x1234 4 0 16) 2) = 2).
Proof.
  apply (msg_tag_roundtrip 0x1234 4 0 16 2); [unfold tag_fields, fits; lia|unfold fits; lia].
Defined.
