(* ===== verification/Ipc.v ===== *)
(** * Inter-process communication (kernel/ipc/message.c, kernel/ipc/endpoint.c,
    kernel/proc/ipc_window.c)

    Endpoints, wait records and messages live in stores indexed by address (0 is NULL); [kfree]
    removes the object, so that a later access through a stale pointer fails, as does any access
    to an object that is not there.  The scheduler is the model of Sched.v.  A thread that blocks
    leaves a wait record on a queue and the result is [Block]; what it does when it runs again is
    a definition of its own (names ending in [_resume]).  Results of [kmalloc] (an address, 0 for
    NULL) and the address of a message built on the kernel stack are arguments.  Spinlocks make
    the sections they enclose atomic.  A wait record is linked exactly on the queue of its
    endpoint that holds it.  kprintf output is left out, except that printing a field reads it. *)
From S2P Require Import Prelude Defs Sched IpcTag.

(** ** The code *)

Definition IPC_OK : Z := 0.
Definition IPC_ERR_INVALID : Z := 1.
Definition IPC_ERR_DEAD : Z := 2.
Definition IPC_ERR_OVERFLOW : Z := 5.
Definition IPC_ERR_NOPARTNER : Z := 6.
Definition IPC_ERR_BUSY : Z := 7.

Definition IPC_FAST_REGS : Z := 8.

Definition EP_FLAG_BOUND : Z := Z.shiftl 1 0.
Definition EP_FLAG_DEAD : Z := Z.shiftl 1 3.
Definition EP_FLAG_LISTED : Z := Z.shiftl 1 4.

Definition IPC_OP_SEND : Z := 1.
Definition IPC_OP_RECV : Z := 2.
Definition IPC_OP_CALL : Z := 3.

Definition EP_WKE_MIN : Z := 1.
Definition EP_WKE_MAX : Z := 15.

(** offsetof(struct thread, ipc_reply_pending): the channel a caller sleeps on. *)
Definition OFF_REPLY_PENDING : Z := 280.

Record ipc_message := mk_msg {
  m_tag : Z;
  m_regs : list Z;               (* u64 regs[8] *)
  m_buffer : option (list Z);    (* the bytes buffer points to; None is NULL *)
  m_buffer_len : Z;
  m_nr_caps : Z
}.

Record ipc_wait := mk_wait {
  w_endpoint : Z;
  w_msg : Z;
  w_partner : Z;
  w_operation : Z;
  w_result : Z
}.

Record ipc_endpoint := mk_ep {
  ep_id : Z;
  ep_flags : Z;
  send_queue : list Z;           (* wait records *)
  recv_queue : list Z;
  refcount : Z;
  ep_owner : Z;
  bound_thread : Z;
  msgs_sent : Z;
  msgs_received : Z
}.

(** The call/reply fields of struct thread. *)
Record ithread := mk_it {
  ipc_caller : Z;
  ipc_reply_server : Z;
  ipc_reply_pending : Z;
  ipc_reply_result : Z;
  ipc_reply_tag : Z;
  ipc_reply_regs : list Z
}.

(** The IPC fields of struct process. *)
Record iproc := mk_ip {
  owned_endpoints : list Z;
  ipc_window_phys : Z
}.

Record ipc := mk_ipc {
  sch : sched;
  its : gmap Z ithread;
  eps : gmap Z ipc_endpoint;
  waits : gmap Z ipc_wait;
  msgs : gmap Z ipc_message;
  iprocs : gmap Z iproc;
  frames : gmap Z (list Z);      (* contents of the window pages, by physical address *)
  endpoint_list : list Z;
  next_endpoint_id : Z;
  ipc_total_messages : Z;
  ipc_fast_path_count : Z
}.

Definition with_sch (st : ipc) (s : sched) : ipc :=
  mk_ipc s (its st) (eps st) (waits st) (msgs st) (iprocs st) (frames st) (endpoint_list st)
    (next_endpoint_id st) (ipc_total_messages st) (ipc_fast_path_count st).
Definition with_its (st : ipc) (m : gmap Z ithread) : ipc :=
  mk_ipc (sch st) m (eps st) (waits st) (msgs st) (iprocs st) (frames st) (endpoint_list st)
    (next_endpoint_id st) (ipc_total_messages st) (ipc_fast_path_count st).
Definition with_eps (st : ipc) (m : gmap Z ipc_endpoint) : ipc :=
  mk_ipc (sch st) (its st) m (waits st) (msgs st) (iprocs st) (frames st) (endpoint_list st)
    (next_endpoint_id st) (ipc_total_messages st) (ipc_fast_path_count st).
Definition with_waits (st : ipc) (m : gmap Z ipc_wait) : ipc :=
  mk_ipc (sch st) (its st) (eps st) m (msgs st) (iprocs st) (frames st) (endpoint_list st)
    (next_endpoint_id st) (ipc_total_messages st) (ipc_fast_path_count st).
Definition with_msgs (st : ipc) (m : gmap Z ipc_message) : ipc :=
  mk_ipc (sch st) (its st) (eps st) (waits st) m (iprocs st) (frames st) (endpoint_list st)
    (next_endpoint_id st) (ipc_total_messages st) (ipc_fast_path_count st).
Definition with_iprocs (st : ipc) (m : gmap Z iproc) : ipc :=
  mk_ipc (sch st) (its st) (eps st) (waits st) (msgs st) m (frames st) (endpoint_list st)
    (next_endpoint_id st) (ipc_total_messages st) (ipc_fast_path_count st).
Definition with_frames (st : ipc) (m : gmap Z (list Z)) : ipc :=
  mk_ipc (sch st) (its st) (eps st) (waits st) (msgs st) (iprocs st) m (endpoint_list st)
    (next_endpoint_id st) (ipc_total_messages st) (ipc_fast_path_count st).
Definition with_list (st : ipc) (l : list Z) (next : Z) : ipc :=
  mk_ipc (sch st) (its st) (eps st) (waits st) (msgs st) (iprocs st) (frames st) l next
    (ipc_total_messages st) (ipc_fast_path_count st).
Definition with_totals (st : ipc) (total fast : Z) : ipc :=
  mk_ipc (sch st) (its st) (eps st) (waits st) (msgs st) (iprocs st) (frames st)
    (endpoint_list st) (next_endpoint_id st) total fast.

Definition ep_queues (e : ipc_endpoint) (sq rq : list Z) : ipc_endpoint :=
  mk_ep (ep_id e) (ep_flags e) sq rq (refcount e) (ep_owner e) (bound_thread e) (msgs_sent e)
    (msgs_received e).
Definition ep_stats (e : ipc_endpoint) (sent received : Z) : ipc_endpoint :=
  mk_ep (ep_id e) (ep_flags e) (send_queue e) (recv_queue e) (refcount e) (ep_owner e)
    (bound_thread e) sent received.
Definition ep_set_flags (f : Z) (e : ipc_endpoint) : ipc_endpoint :=
  mk_ep (ep_id e) f (send_queue e) (recv_queue e) (refcount e) (ep_owner e) (bound_thread e)
    (msgs_sent e) (msgs_received e).
Definition ep_set_refs (n : Z) (e : ipc_endpoint) : ipc_endpoint :=
  mk_ep (ep_id e) (ep_flags e) (send_queue e) (recv_queue e) n (ep_owner e) (bound_thread e)
    (msgs_sent e) (msgs_received e).
Definition ep_set_bound (t f : Z) (e : ipc_endpoint) : ipc_endpoint :=
  mk_ep (ep_id e) f (send_queue e) (recv_queue e) (refcount e) (ep_owner e) t (msgs_sent e)
    (msgs_received e).

Definition without (w : Z) (l : list Z) : list Z := filter (fun x => x ≠ w) l.

Definition upd_ep (st : ipc) (ep : Z) (f : ipc_endpoint -> ipc_endpoint) : option ipc :=
  e ← eps st !! ep; Some (with_eps st (<[ep := f e]> (eps st))).
Definition upd_it (st : ipc) (t : Z) (f : ithread -> ithread) : option ipc :=
  x ← its st !! t; Some (with_its st (<[t := f x]> (its st))).
Definition upd_wait (st : ipc) (w : Z) (f : ipc_wait -> ipc_wait) : option ipc :=
  x ← waits st !! w; Some (with_waits st (<[w := f x]> (waits st))).

(** [sched_wakeup], seen from here *)
Definition wakeup (st : ipc) (t : Z) : option ipc :=
  s ← sched_wakeup (sch st) t; Some (with_sch st s).

Definition self (st : ipc) : Z := current_thread (sch st).
Definition process_of (st : ipc) (t : Z) : option Z := x ← threads (sch st) !! t; Some (t_process x).

(** *** ipc_window.c: the frame behind a process's window, [None] for NULL *)
Definition process_ipc_window_kva (st : ipc) (proc : Z) : option (option Z) :=
  if proc =? 0 then Some None else
  p ← iprocs st !! proc;
  Some (if ipc_window_phys p =? 0 then None else Some (ipc_window_phys p)).

(** *** message.c *)

(** [memcpy(dst + off, src + off, len)] between two pages *)
Definition copy_range (dst src : list Z) (off len : Z) : option (list Z) :=
  if decide (off + len <= zlen src /\ off + len <= zlen dst) then
    Some (take (Z.to_nat off) dst ++ take (Z.to_nat len) (drop (Z.to_nat off) src) ++
          drop (Z.to_nat (off + len)) dst)
  else None.

Definition copy_ipc_slice (st : ipc) (src_proc dst_proc off len : Z) : option (Z * ipc) :=
  if len =? 0 then Some (IPC_OK, st) else
  if negb (ipc_slice_valid off len) then Some (IPC_ERR_OVERFLOW, st) else
  src ← process_ipc_window_kva st src_proc;
  dst ← process_ipc_window_kva st dst_proc;
  match src, dst with
  | Some s, Some d =>
      sp ← frames st !! s;
      dp ← frames st !! d;
      dp ← copy_range dp sp off len;
      Some (IPC_OK, with_frames st (<[d := dp]> (frames st)))
  | _, _ => Some (IPC_ERR_INVALID, st)
  end.

Definition has_flag (tag flag : Z) : bool := ztrue (Z.land (MSG_FLAGS tag) flag).

Definition maybe_copy_window (st : ipc) (sender_proc receiver_proc : Z) (msg : ipc_message)
  : option (Z * ipc) :=
  if negb (has_flag (m_tag msg) MSG_FLAG_SLICE) then Some (IPC_OK, st) else
  r0 ← zget (m_regs msg) 0;
  copy_ipc_slice st sender_proc receiver_proc (u32 (Z.shiftr r0 32)) (u32 r0).

(** The window copy of a rendezvous; kernel threads have no window. *)
Definition slice_transfer (st : ipc) (sender_proc receiver_proc : Z) (msg : ipc_message)
  : option (Z * ipc) :=
  if negb (sender_proc =? 0) && negb (receiver_proc =? 0)
  then maybe_copy_window st sender_proc receiver_proc msg
  else Some (if has_flag (m_tag msg) MSG_FLAG_SLICE then IPC_ERR_INVALID else IPC_OK, st).

Definition copy_message (dst src : ipc_message) : option ipc_message :=
  buf ← (match m_buffer src, m_buffer dst with
         | Some sb, Some db =>
             if 0 <? m_buffer_len src then
               b ← copy_range db sb 0 (Z.min (m_buffer_len src) (m_buffer_len dst)); Some (Some b)
             else Some (Some db)
         | _, b => Some b
         end);
  Some (mk_msg (m_tag src) (m_regs src) buf (m_buffer_len dst) 0).

Definition peek_waiter (queue : list Z) : option Z := head queue.

Definition link_call (st : ipc) (caller server : Z) : option ipc :=
  st ← upd_it st caller (fun x => mk_it (ipc_caller x) server 1 IPC_ERR_DEAD (ipc_reply_tag x)
                                    (ipc_reply_regs x));
  upd_it st server (fun x => mk_it caller (ipc_reply_server x) (ipc_reply_pending x)
                               (ipc_reply_result x) (ipc_reply_tag x) (ipc_reply_regs x)).

(** An operation returns its result or blocks on a wait record. *)
Inductive outcome := Ret (r : Z) | Block (wait : Z).

(** [thread_sleep(wait)]: the state in which another thread runs. *)
Definition block_on (st : ipc) (wait : Z) : option (outcome * ipc) :=
  r ← thread_sleep 1 (sch st) wait;
  s ← r;
  Some (Block wait, with_sch st s).

Definition ipc_send_op (st : ipc) (ep msg op mem : Z) : option (outcome * ipc) :=
  if (ep =? 0) || (msg =? 0) then Some (Ret IPC_ERR_INVALID, st) else
  e ← eps st !! ep;
  if ztrue (Z.land (ep_flags e) EP_FLAG_DEAD) then Some (Ret IPC_ERR_DEAD, st) else
  m ← msgs st !! msg;
  match peek_waiter (recv_queue e) with
  | Some w =>
      rw ← waits st !! w;
      let receiver := w_partner rw in
      sp ← process_of st (self st);
      rp ← process_of st receiver;
      '(slice_err, st) ← slice_transfer st sp rp m;
      if negb (slice_err =? IPC_OK) then Some (Ret slice_err, st) else
      st ← upd_ep st ep (fun e => ep_queues e (send_queue e) (without w (recv_queue e)));
      st ← (if negb (w_msg rw =? 0) then
              dm ← msgs st !! w_msg rw;
              dm ← copy_message dm m;
              Some (with_msgs st (<[w_msg rw := dm]> (msgs st)))
            else Some st);
      st ← upd_wait st w (fun x => mk_wait (w_endpoint x) (w_msg x) (self st) op IPC_OK);
      st ← upd_ep st ep (fun e => ep_stats e (u64 (msgs_sent e + 1)) (msgs_received e));
      let st := with_totals st (u64 (ipc_total_messages st + 1)) (u64 (ipc_fast_path_count st + 1)) in
      st ← (if op =? IPC_OP_CALL then link_call st (self st) receiver else Some st);
      st ← wakeup st receiver;
      Some (Ret IPC_OK, st)
  | None =>
      if has_flag (m_tag m) MSG_FLAG_NONBLOCK then Some (Ret IPC_ERR_NOPARTNER, st) else
      if mem =? 0 then Some (Ret IPC_ERR_BUSY, st) else
      let st := with_waits st (<[mem := mk_wait ep msg (self st) op IPC_ERR_NOPARTNER]> (waits st)) in
      st ← upd_ep st ep (fun e => ep_queues e (send_queue e ++ [mem]) (recv_queue e));
      block_on st mem
  end.

(** After [thread_sleep] returns to the sender or receiver [t] that waited with [wait]. *)
Definition ipc_wait_resume (st : ipc) (t ep wait : Z) : option (Z * ipc) :=
  s ← thread_sleep_resume (sch st) t;
  let st := with_sch st s in
  st ← upd_ep st ep (fun e => ep_queues e (without wait (send_queue e)) (without wait (recv_queue e)));
  w ← waits st !! wait;
  Some (w_result w, with_waits st (delete wait (waits st))).

Definition ipc_send (st : ipc) (ep msg mem : Z) : option (outcome * ipc) :=
  ipc_send_op st ep msg IPC_OP_SEND mem.

Definition ipc_recv (st : ipc) (ep msg mem : Z) : option (outcome * ipc) :=
  if (ep =? 0) || (msg =? 0) then Some (Ret IPC_ERR_INVALID, st) else
  e ← eps st !! ep;
  if ztrue (Z.land (ep_flags e) EP_FLAG_DEAD) then Some (Ret IPC_ERR_DEAD, st) else
  match peek_waiter (send_queue e) with
  | Some w =>
      sw ← waits st !! w;
      let sender := w_partner sw in
      sm ← (if w_msg sw =? 0 then Some None else m ← msgs st !! w_msg sw; Some (Some m));
      '(slice_err, st) ← (match sm with
                          | Some m =>
                              sp ← process_of st sender;
                              rp ← process_of st (self st);
                              slice_transfer st sp rp m
                          | None => Some (IPC_OK, st)
                          end);
      if negb (slice_err =? IPC_OK) then
        st ← upd_wait st w (fun x => mk_wait (w_endpoint x) (w_msg x) (w_partner x) (w_operation x)
                                       slice_err);
        st ← upd_ep st ep (fun e => ep_queues e (without w (send_queue e)) (recv_queue e));
        st ← wakeup st sender;
        Some (Ret slice_err, st)
      else
      st ← upd_ep st ep (fun e => ep_queues e (without w (send_queue e)) (recv_queue e));
      st ← (match sm with
            | Some m =>
                dm ← msgs st !! msg;
                dm ← copy_message dm m;
                Some (with_msgs st (<[msg := dm]> (msgs st)))
            | None => Some st
            end);
      st ← upd_wait st w (fun x => mk_wait (w_endpoint x) (w_msg x) (self st) (w_operation x) IPC_OK);
      st ← upd_ep st ep (fun e => ep_stats e (msgs_sent e) (u64 (msgs_received e + 1)));
      let st := with_totals st (u64 (ipc_total_messages st + 1)) (ipc_fast_path_count st) in
      st ← (if w_operation sw =? IPC_OP_CALL then link_call st sender (self st) else Some st);
      st ← wakeup st sender;
      Some (Ret IPC_OK, st)
  | None =>
      m ← msgs st !! msg;
      if has_flag (m_tag m) MSG_FLAG_NONBLOCK then Some (Ret IPC_ERR_NOPARTNER, st) else
      if mem =? 0 then Some (Ret IPC_ERR_BUSY, st) else
      let st := with_waits st
        (<[mem := mk_wait ep msg (self st) IPC_OP_RECV IPC_ERR_NOPARTNER]> (waits st)) in
      st ← upd_ep st ep (fun e => ep_queues e (send_queue e) (recv_queue e ++ [mem]));
      block_on st mem
  end.

(** What a pass of the wait loop of [ipc_call] decides: the reply is there ([inl]), or the caller
    sleeps and another thread runs ([inr]). *)
Definition ipc_call_wait (st : ipc) (t : Z) : option (ipc + ipc) :=
  x ← its st !! t;
  if ipc_reply_pending x =? 0 then
    s ← upd_thread (sch st) t (fun y => set_wait_channel 0 (set_state TASK_RUNNING y));
    Some (inl (with_sch st s))
  else
    s ← upd_thread (sch st) t
          (fun y => set_wait_channel (t + OFF_REPLY_PENDING) (set_state TASK_INTERRUPTIBLE y));
    r ← schedule 1 s;
    s ← r;
    Some (inr (with_sch st s)).

(** The end of [ipc_call]: the reply is copied into the message. *)
Definition ipc_call_finish (st : ipc) (t msg : Z) : option (Z * ipc) :=
  x ← its st !! t;
  let result := ipc_reply_result x in
  st ← (if result =? IPC_OK then
          m ← msgs st !! msg;
          Some (with_msgs st (<[msg := mk_msg (ipc_reply_tag x) (ipc_reply_regs x) (m_buffer m)
                                         (m_buffer_len m) (m_nr_caps m)]> (msgs st)))
        else Some st);
  st ← upd_it st t (fun x => mk_it (ipc_caller x) 0 (ipc_reply_pending x) (ipc_reply_result x)
                               (ipc_reply_tag x) (ipc_reply_regs x));
  Some (result, st).

(** [ipc_call] once the send half has returned [send_result] to thread [t]: an error returns at
    once, otherwise the wait loop is entered (again after every wake-up). *)
Definition ipc_call_sent (st : ipc) (t msg send_result : Z) : option (outcome * ipc) :=
  if negb (send_result =? IPC_OK) then
    st ← upd_it st t (fun x => mk_it (ipc_caller x) 0 0 (ipc_reply_result x) (ipc_reply_tag x)
                                 (ipc_reply_regs x));
    Some (Ret send_result, st)
  else
    r ← ipc_call_wait st t;
    match r with
    | inl st => '(result, st) ← ipc_call_finish st t msg; Some (Ret result, st)
    | inr st => Some (Block (t + OFF_REPLY_PENDING), st)
    end.

Definition ipc_call (st : ipc) (ep msg mem : Z) : option (outcome * ipc) :=
  if (ep =? 0) || (msg =? 0) then Some (Ret IPC_ERR_INVALID, st) else
  let t := self st in
  '(o, st) ← ipc_send_op st ep msg IPC_OP_CALL mem;
  match o with
  | Ret r => ipc_call_sent st t msg r
  | Block w => Some (Block w, st)
  end.

Definition ipc_reply (st : ipc) (msg : Z) : option (Z * ipc) :=
  if msg =? 0 then Some (IPC_ERR_INVALID, st) else
  x ← its st !! self st;
  let caller := ipc_caller x in
  if caller =? 0 then Some (IPC_ERR_INVALID, st) else
  st ← upd_it st (self st) (fun x => mk_it 0 (ipc_reply_server x) (ipc_reply_pending x)
                                       (ipc_reply_result x) (ipc_reply_tag x) (ipc_reply_regs x));
  m ← msgs st !! msg;
  sp ← process_of st (self st);
  cp ← process_of st caller;
  '(slice_err, st) ← slice_transfer st sp cp m;
  st ← upd_it st caller (fun x =>
         if negb (slice_err =? IPC_OK)
         then mk_it (ipc_caller x) (ipc_reply_server x) (ipc_reply_pending x) slice_err
                (ipc_reply_tag x) (ipc_reply_regs x)
         else mk_it (ipc_caller x) (ipc_reply_server x) (ipc_reply_pending x) IPC_OK (m_tag m)
                (m_regs m));
  st ← upd_it st caller (fun x => mk_it (ipc_caller x) (ipc_reply_server x) 0 (ipc_reply_result x)
                                    (ipc_reply_tag x) (ipc_reply_regs x));
  st ← wakeup st caller;
  Some (IPC_OK, st).

Definition ipc_reply_recv (st : ipc) (ep msg mem : Z) : option (outcome * ipc) :=
  '(_, st) ← ipc_reply st msg;
  ipc_recv st ep msg mem.

Definition ipc_thread_cleanup (st : ipc) (t : Z) : option ipc :=
  if t =? 0 then Some st else
  x ← its st !! t;
  st ← (if negb (ipc_caller x =? 0) then
          let caller := ipc_caller x in
          st ← upd_it st t (fun x => mk_it 0 (ipc_reply_server x) (ipc_reply_pending x)
                                       (ipc_reply_result x) (ipc_reply_tag x) (ipc_reply_regs x));
          st ← upd_it st caller (fun c =>
                 mk_it (ipc_caller c) (if ipc_reply_server c =? t then 0 else ipc_reply_server c) 0
                   IPC_ERR_DEAD (ipc_reply_tag c) (ipc_reply_regs c));
          wakeup st caller
        else Some st);
  x ← its st !! t;
  st ← (if negb (ipc_reply_server x =? 0) then
          let server := ipc_reply_server x in
          st ← upd_it st t (fun x => mk_it (ipc_caller x) 0 (ipc_reply_pending x)
                                       (ipc_reply_result x) (ipc_reply_tag x) (ipc_reply_regs x));
          upd_it st server (fun s =>
            mk_it (if ipc_caller s =? t then 0 else ipc_caller s) (ipc_reply_server s)
              (ipc_reply_pending s) (ipc_reply_result s) (ipc_reply_tag s) (ipc_reply_regs s))
        else Some st);
  upd_it st t (fun x => mk_it (ipc_caller x) (ipc_reply_server x) 0 (ipc_reply_result x)
                          (ipc_reply_tag x) (ipc_reply_regs x)).

(** *** endpoint.c *)

Definition alloc_endpoint_id (st : ipc) : Z * ipc :=
  let id := if next_endpoint_id st <=? EP_WKE_MAX then EP_WKE_MAX + 1 else next_endpoint_id st in
  (id, with_list st (endpoint_list st) (u32 (id + 1))).

Definition link_to_owner (st : ipc) (ep : Z) : option ipc :=
  e ← eps st !! ep;
  if ep_owner e =? 0 then Some st else
  p ← iprocs st !! ep_owner e;
  Some (with_iprocs st (<[ep_owner e := mk_ip (owned_endpoints p ++ [ep]) (ipc_window_phys p)]>
          (iprocs st))).

Definition unlink_from_owner (st : ipc) (ep : Z) : option ipc :=
  e ← eps st !! ep;
  if ep_owner e =? 0 then Some st else
  p ← iprocs st !! ep_owner e;
  Some (with_iprocs st (<[ep_owner e := mk_ip (without ep (owned_endpoints p)) (ipc_window_phys p)]>
          (iprocs st))).

(** The first endpoint of the list that has the id and is alive; 0 is NULL. *)
Fixpoint find_in_list (es : gmap Z ipc_endpoint) (l : list Z) (id : Z) : option Z :=
  match l with
  | [] => Some 0
  | a :: l' =>
      e ← es !! a;
      if (ep_id e =? id) && negb (ztrue (Z.land (ep_flags e) EP_FLAG_DEAD)) then Some a
      else find_in_list es l' id
  end.

Definition find_endpoint_locked (st : ipc) (id : Z) : option Z :=
  find_in_list (eps st) (endpoint_list st) id.

(** [mem] is the result of kmalloc; the endpoint it becomes. *)
Definition init_endpoint (st : ipc) (owner id flags mem : Z) : Z * ipc :=
  if mem =? 0 then (0, st) else
  (mem, with_eps st (<[mem := mk_ep id (Z.lor flags EP_FLAG_LISTED) [] [] 1 owner 0 0 0]> (eps st))).

Definition endpoint_create (st : ipc) (owner flags mem : Z) : option (Z * ipc) :=
  let '(id, st) := alloc_endpoint_id st in
  let '(ep, st) := init_endpoint st owner id flags mem in
  if ep =? 0 then Some (0, st) else
  st ← link_to_owner (with_list st (ep :: endpoint_list st) (next_endpoint_id st)) ep;
  Some (ep, st).

Definition endpoint_create_well_known (st : ipc) (owner id flags mem : Z) : option (Z * ipc) :=
  if (id <? EP_WKE_MIN) || (EP_WKE_MAX <? id) then Some (0, st) else
  let '(ep, st) := init_endpoint st owner id flags mem in
  if ep =? 0 then Some (0, st) else
  found ← find_endpoint_locked st id;
  if negb (found =? 0) then Some (0, with_eps st (delete ep (eps st))) else
  st ← link_to_owner (with_list st (ep :: endpoint_list st) (next_endpoint_id st)) ep;
  Some (ep, st).

Definition endpoint_put (st : ipc) (ep : Z) : option ipc :=
  if ep =? 0 then Some st else
  e ← eps st !! ep;
  let refs := refcount e - 1 in
  let st := with_eps st (<[ep := ep_set_refs refs e]> (eps st)) in
  Some (if refs =? 0 then with_eps st (delete ep (eps st)) else st).

Definition endpoint_get (st : ipc) (id : Z) : option (Z * ipc) :=
  ep ← find_endpoint_locked st id;
  if ep =? 0 then Some (0, st) else
  st ← upd_ep st ep (fun e => ep_set_refs (refcount e + 1) e);
  Some (ep, st).

(** Every waiter of a queue gets IPC_ERR_DEAD and is woken, in order. *)
Fixpoint wake_dead (st : ipc) (l : list Z) : option ipc :=
  match l with
  | [] => Some st
  | w :: l' =>
      x ← waits st !! w;
      st ← upd_wait st w (fun x => mk_wait (w_endpoint x) (w_msg x) (w_partner x) (w_operation x)
                                     IPC_ERR_DEAD);
      st ← (if negb (w_partner x =? 0) then wakeup st (w_partner x) else Some st);
      wake_dead st l'
  end.

Definition endpoint_destroy (st : ipc) (ep : Z) : option ipc :=
  if ep =? 0 then Some st else
  e ← eps st !! ep;
  if ztrue (Z.land (ep_flags e) EP_FLAG_DEAD) then Some st else
  let flags := Z.lor (ep_flags e) EP_FLAG_DEAD in
  let listed := ztrue (Z.land flags EP_FLAG_LISTED) in
  let flags := if listed then Z.land flags (lnotw 32 EP_FLAG_LISTED) else flags in
  let st := with_eps st (<[ep := ep_set_flags flags e]> (eps st)) in
  st ← wake_dead st (send_queue e);
  st ← wake_dead st (recv_queue e);
  st ← upd_ep st ep (fun e => ep_queues e [] []);
  st ← (if listed then
          let st := with_list st (without ep (endpoint_list st)) (next_endpoint_id st) in
          st ← unlink_from_owner st ep;
          endpoint_put st ep
        else Some st);
  _ ← eps st !! ep;               (* kprintf reads ep->id *)
  Some st.

(** The loop of [ipc_destroy_owned_by_process]; [fuel] bounds the endpoints owned. *)
Fixpoint destroy_owned_loop (fuel : nat) (st : ipc) (proc : Z) : option ipc :=
  p ← iprocs st !! proc;
  match owned_endpoints p with
  | [] => Some st
  | ep :: _ =>
      match fuel with
      | O => None
      | S n =>
          st ← upd_ep st ep (fun e => ep_set_refs (refcount e + 1) e);
          let st := with_iprocs st (<[proc := mk_ip (without ep (owned_endpoints p))
                                                (ipc_window_phys p)]> (iprocs st)) in
          st ← endpoint_destroy st ep;
          st ← endpoint_put st ep;
          destroy_owned_loop n st proc
      end
  end.

Definition ipc_destroy_owned_by_process (st : ipc) (proc : Z) : option ipc :=
  if proc =? 0 then Some st else
  p ← iprocs st !! proc; destroy_owned_loop (length (owned_endpoints p)) st proc.

Definition endpoint_bind (st : ipc) (ep t : Z) : option (Z * ipc) :=
  if (ep =? 0) || (t =? 0) then Some (-1, st) else
  e ← eps st !! ep;
  if negb (bound_thread e =? 0) then Some (-1, st) else
  st ← upd_ep st ep (fun e => ep_set_bound t (Z.lor (ep_flags e) EP_FLAG_BOUND) e);
  Some (0, st).

Definition endpoint_unbind (st : ipc) (ep : Z) : option (Z * ipc) :=
  if ep =? 0 then Some (-1, st) else
  st ← upd_ep st ep (fun e => ep_set_bound 0 (Z.land (ep_flags e) (lnotw 32 EP_FLAG_BOUND)) e);
  Some (0, st).

Definition endpoint_has_receiver (st : ipc) (ep : Z) : option bool :=
  e ← eps st !! ep; Some (negb (bool_decide (recv_queue e = []))).
Definition endpoint_has_sender (st : ipc) (ep : Z) : option bool :=
  e ← eps st !! ep; Some (negb (bool_decide (send_queue e = []))).

(** *** The fast path: a message of registers only, built at address [mp] *)

Definition ipc_send_fast (st : ipc) (id tag : Z) (regs : list Z) (mp mem : Z)
  : option (outcome * ipc) :=
  '(ep, st) ← endpoint_get st id;
  if ep =? 0 then Some (Ret IPC_ERR_INVALID, st) else
  let st := with_msgs st (<[mp := mk_msg tag (take (Z.to_nat IPC_FAST_REGS) regs) None 0 0]> (msgs st)) in
  '(o, st) ← ipc_send st ep mp mem;
  match o with
  | Ret r => st ← endpoint_put st ep; Some (Ret r, st)
  | Block w => Some (Block w, st)
  end.

Definition ipc_send_fast_resume (st : ipc) (t ep wait : Z) : option (Z * ipc) :=
  '(r, st) ← ipc_wait_resume st t ep wait;
  st ← endpoint_put st ep; Some (r, st).

Definition ipc_recv_fast (st : ipc) (id mp mem : Z) : option (outcome * ipc) :=
  '(ep, st) ← endpoint_get st id;
  if ep =? 0 then Some (Ret IPC_ERR_INVALID, st) else
  let st := with_msgs st (<[mp := mk_msg 0 (replicate (Z.to_nat IPC_FAST_REGS) 0) None 0 0]> (msgs st)) in
  '(o, st) ← ipc_recv st ep mp mem;
  match o with
  | Ret r => st ← endpoint_put st ep; Some (Ret r, st)
  | Block w => Some (Block w, st)
  end.

(** The tag and registers handed to the caller of [ipc_recv_fast] when it succeeds. *)
Definition ipc_recv_fast_result (st : ipc) (mp : Z) : option (Z * list Z) :=
  m ← msgs st !! mp; Some (m_tag m, m_regs m).

(** ** Copying between windows *)

Lemma copy_range_ok dst src off len :
  0 <= off -> 0 <= len -> off + len <= zlen src -> off + len <= zlen dst ->
  exists r, copy_range dst src off len = Some r /\ zlen r = zlen dst /\
    forall i, zget r i = if decide (off <= i < off + len) then zget src i else zget dst i.
Proof.
  intros Ho Hl Hs Hd. unfold copy_range. rewrite decide_True by done. eexists. split; [done|].
  unfold zlen in *. split.
  - rewrite !length_app, !length_take, !length_drop. lia.
  - intros i. unfold zget. case_decide as Hi; [|by rewrite (decide_False (P := off <= i < off + len)) by lia].
    destruct (decide (i < off)) as [H1|H1].
    { rewrite (decide_False (P := off <= i < off + len)) by lia.
      rewrite lookup_app_l by (rewrite length_take; lia). apply lookup_take_lt. lia. }
    rewrite lookup_app_r by (rewrite length_take; lia). rewrite length_take.
    destruct (decide (i < off + len)) as [H2|H2].
    + rewrite (decide_True (P := off <= i < off + len)) by lia.
      rewrite lookup_app_l by (rewrite length_take, length_drop; lia).
      rewrite lookup_take_lt, lookup_drop by lia. f_equal. lia.
    + rewrite (decide_False (P := off <= i < off + len)) by lia.
      rewrite lookup_app_r by (rewrite length_take, length_drop; lia).
      rewrite lookup_drop, length_take, length_drop. f_equal. lia.
Qed.

(** Windows are whole pages, and processes with a window have one. *)
Definition windows_ok (st : ipc) : Prop :=
  forall p x, iprocs st !! p = Some x -> ipc_window_phys x ≠ 0 ->
    exists f, frames st !! ipc_window_phys x = Some f /\ zlen f = OCEAN_IPC_WINDOW_SIZE.

(** The window page of a process. *)
Definition window (st : ipc) (p : Z) : option (list Z) :=
  x ← iprocs st !! p; if ipc_window_phys x =? 0 then None else frames st !! ipc_window_phys x.

(** The bytes [off, off + len) of the window of process [rp] become those of the window of [sp];
    every other byte of every frame stays. *)
Definition slice_copied (st : ipc) (fs : gmap Z (list Z)) (sp rp off len : Z) : Prop :=
  exists d f f' s, (exists x, iprocs st !! rp = Some x /\ ipc_window_phys x = d /\ d ≠ 0) /\
    frames st !! d = Some f /\ window st sp = Some s /\ fs = <[d := f']> (frames st) /\
    zlen f' = OCEAN_IPC_WINDOW_SIZE /\
    forall i, zget f' i = if decide (off <= i < off + len) then zget s i else zget f i.

Lemma windows_ok_insert st d f :
  windows_ok st -> zlen f = OCEAN_IPC_WINDOW_SIZE ->
  windows_ok (with_frames st (<[d := f]> (frames st))).
Proof.
  intros Hw Hf p x Hx Hp. simpl. destruct (decide (ipc_window_phys x = d)) as [->|Hne].
  - rewrite lookup_insert_eq. by exists f.
  - rewrite lookup_insert_ne by done. by eapply Hw.
Qed.

(** [copy_ipc_slice] copies the slice, or leaves everything as it was because the slice does not
    lie in the window or a side has none. *)
Lemma copy_ipc_slice_ok st sp rp off len xs xr :
  windows_ok st -> iprocs st !! sp = Some xs -> iprocs st !! rp = Some xr -> sp ≠ 0 -> rp ≠ 0 ->
  fits 32 off -> fits 32 len ->
  (exists fs, copy_ipc_slice st sp rp off len = Some (IPC_OK, with_frames st fs) /\
     windows_ok (with_frames st fs) /\ off + len <= OCEAN_IPC_WINDOW_SIZE /\ len ≠ 0 /\
     slice_copied st fs sp rp off len) \/
  (copy_ipc_slice st sp rp off len = Some (IPC_OK, st) /\ len = 0) \/
  (exists e, copy_ipc_slice st sp rp off len = Some (e, st) /\ e ≠ IPC_OK /\ len ≠ 0 /\
     (OCEAN_IPC_WINDOW_SIZE < off + len \/ ipc_window_phys xs = 0 \/ ipc_window_phys xr = 0)).
Proof.
  intros Hw Hs Hr Hs0 Hr0 Ho Hl. unfold copy_ipc_slice. destruct (Z.eqb_spec len 0) as [->|Hl0].
  { right. by left. }
  destruct (ipc_slice_valid off len) eqn:Ev; cbn [negb].
  2: { right. right. exists IPC_ERR_OVERFLOW. split; [done|]. split; [done|]. split; [done|]. left.
       destruct (Z.lt_ge_cases OCEAN_IPC_WINDOW_SIZE (off + len)) as [|Hge]; [done|].
       apply (slice_valid_spec off len) in Hge; [congruence|done..]. }
  apply slice_valid_spec in Ev; [|done..].
  unfold process_ipc_window_kva. destruct (Z.eqb_spec sp 0); [done|]. destruct (Z.eqb_spec rp 0); [done|].
  rewrite Hs, Hr. cbn [mbind option_bind].
  destruct (Z.eqb_spec (ipc_window_phys xs) 0) as [E1|E1].
  { right. right. exists IPC_ERR_INVALID. split; [done|]. split; [done|]. split; [done|]. right; by left. }
  destruct (Z.eqb_spec (ipc_window_phys xr) 0) as [E2|E2].
  { right. right. exists IPC_ERR_INVALID. split; [done|]. split; [done|]. split; [done|]. right; by right. }
  destruct (Hw _ _ Hs E1) as (s & Es & Ls), (Hw _ _ Hr E2) as (f & Ef & Lf).
  rewrite Es, Ef. cbn [mbind option_bind].
  destruct Ho, Hl. destruct (copy_range_ok f s off len) as (f' & E & L' & G'); [lia..|].
  rewrite E. cbn [mbind option_bind]. left. eexists. split; [done|].
  split; [apply windows_ok_insert; [done|congruence]|]. split; [done|]. split; [done|].
  exists (ipc_window_phys xr), f, f', s. split; [by exists xr|]. split; [done|]. split; [|split; [done|]].
  - unfold window. rewrite Hs. cbn [mbind option_bind]. by destruct (Z.eqb_spec (ipc_window_phys xs) 0).
  - split; [congruence|done].
Qed.

(** ** Well-formed messages *)

Definition msg_ok (m : ipc_message) : Prop :=
  zlen (m_regs m) = IPC_FAST_REGS /\
  forall b, m_buffer m = Some b -> 0 <= m_buffer_len m <= zlen b.

(** The slice a message names. *)
Definition slice_off (m : ipc_message) : Z := u32 (Z.shiftr (default 0 (zget (m_regs m) 0)) 32).
Definition slice_len (m : ipc_message) : Z := u32 (default 0 (zget (m_regs m) 0)).

(** The frames after the message [m] went from process [sp] to process [rp]. *)
Definition slice_moved (st : ipc) (fs : gmap Z (list Z)) (sp rp : Z) (m : ipc_message) : Prop :=
  if has_flag (m_tag m) MSG_FLAG_SLICE && negb (slice_len m =? 0)
  then slice_off m + slice_len m <= OCEAN_IPC_WINDOW_SIZE /\
       slice_copied st fs sp rp (slice_off m) (slice_len m)
  else fs = frames st.

(** A slice that cannot be moved. *)
Definition slice_refused (st : ipc) (sp rp : Z) (m : ipc_message) : Prop :=
  has_flag (m_tag m) MSG_FLAG_SLICE = true /\
  (sp = 0 \/ rp = 0 \/
   slice_len m ≠ 0 /\ (OCEAN_IPC_WINDOW_SIZE < slice_off m + slice_len m \/
                       window st sp = None \/ window st rp = None)).

Definition proc_ok (st : ipc) (p : Z) : Prop := p ≠ 0 -> is_Some (iprocs st !! p).

Lemma with_frames_id st : with_frames st (frames st) = st.
Proof. by destruct st. Qed.

Lemma with_its_id st : with_its st (its st) = st.
Proof. by destruct st. Qed.

#[local] Opaque u64.

Lemma slice_transfer_ok st sp rp m :
  windows_ok st -> proc_ok st sp -> proc_ok st rp -> msg_ok m ->
  (exists fs, slice_transfer st sp rp m = Some (IPC_OK, with_frames st fs) /\
     windows_ok (with_frames st fs) /\ slice_moved st fs sp rp m) \/
  (exists e, slice_transfer st sp rp m = Some (e, st) /\ e ≠ IPC_OK /\ slice_refused st sp rp m).
Proof.
  intros Hw Hs Hr [Hm _]. unfold slice_transfer, slice_refused, slice_moved.
  destruct (Z.eqb_spec sp 0) as [Es|Es]; cbn [negb andb];
    [|destruct (Z.eqb_spec rp 0) as [Er|Er]; cbn [negb andb]].
  1, 2: destruct (has_flag (m_tag m) MSG_FLAG_SLICE) eqn:Ef;
    [right; exists IPC_ERR_INVALID; (do 3 (split; [done|])); auto|left; exists (frames st); by rewrite with_frames_id].
  unfold maybe_copy_window. destruct (has_flag (m_tag m) MSG_FLAG_SLICE) eqn:Ef; cbn [negb andb].
  2: { left; exists (frames st); by rewrite with_frames_id. }
  destruct (proj2 (zget_Some (m_regs m) 0)) as [r0 Hr0]; [rewrite Hm; by vm_compute|].
  rewrite Hr0. cbn [mbind option_bind]. unfold slice_off, slice_len. rewrite Hr0. cbn [default].
  destruct (Hs Es) as [xs Hxs], (Hr Er) as [xr Hxr].
  assert (fits 32 (u32 r0)) as F2 by (apply wrap_fits; lia).
  assert (fits 32 (u32 (Z.shiftr r0 32))) as F1 by (apply wrap_fits; lia).
  destruct (copy_ipc_slice_ok st sp rp (u32 (Z.shiftr r0 32)) (u32 r0) xs xr Hw Hxs Hxr Es Er F1 F2)
    as [(fs & E & W' & B & L0 & C)|[[E L0]|(e & E & He & L0 & R)]]; simpl.
  - left. exists fs. split; [done|]. split; [done|]. destruct (Z.eqb_spec (u32 r0) 0); [done|]. done.
  - left. exists (frames st). rewrite with_frames_id, L0. done.
  - right. exists e. split; [done|]. split; [done|]. split; [done|]. right. right. split; [done|].
    unfold window. rewrite Hxs, Hxr. cbn [mbind option_bind].
    destruct R as [?|[->| ->]]; [by left|by right; left|by right; right].
Qed.

(** What a message buffer holds after [m] was copied into it. *)
Record message_copied (dm m dm' : ipc_message) : Prop := {
  mc_tag : m_tag dm' = m_tag m;
  mc_regs : m_regs dm' = m_regs m;
  mc_len : m_buffer_len dm' = m_buffer_len dm;
  mc_caps : m_nr_caps dm' = 0;
  mc_buffer : match m_buffer m, m_buffer dm with
              | Some sb, Some db => exists b, m_buffer dm' = Some b /\ zlen b = zlen db /\
                  forall i, zget b i = if decide (0 <= i < Z.min (m_buffer_len m) (m_buffer_len dm))
                                       then zget sb i else zget db i
              | _, b => m_buffer dm' = b
              end
}.

Lemma copy_message_ok dm m :
  msg_ok dm -> msg_ok m ->
  exists dm', copy_message dm m = Some dm' /\ msg_ok dm' /\ message_copied dm m dm'.
Proof.
  intros [Rd Bd] [Rm Bm]. unfold copy_message.
  destruct (m_buffer m) as [sb|] eqn:Es; [|eexists; split; [done|]; split; [done|]; split; simpl; rewrite ?Es; done].
  destruct (m_buffer dm) as [db|] eqn:Ed; [|eexists; split; [done|]; split; [done|]; split; simpl; rewrite ?Es, ?Ed; done].
  specialize (Bd db eq_refl). specialize (Bm sb eq_refl).
  destruct (Z.ltb_spec 0 (m_buffer_len m)) as [Hl|Hl].
  - destruct (copy_range_ok db sb 0 (Z.min (m_buffer_len m) (m_buffer_len dm))) as (b & E & L & G); [lia..|].
    rewrite E. cbn [mbind option_bind]. eexists. split; [done|].
    split; [split; [done|]; simpl; intros b' [= <-]; lia|].
    split; try done. simpl. rewrite Es, Ed. exists b. split; [done|]. split; [done|]. exact G.
  - cbn [mbind option_bind]. eexists. split; [done|]. split; [split; [done|]; simpl; by intros b' [= <-]|].
    split; try done. simpl. rewrite Es, Ed. exists db. split; [done|]. split; [done|]. intros i.
    by rewrite decide_False by lia.
Qed.

(** ** The wait queues *)

Definition waiters (e : ipc_endpoint) : list Z := send_queue e ++ recv_queue e.

(** No record is queued twice, and the records queued on an endpoint name it, a thread ([T]) and a
    message ([M]). *)
Definition queues_ok (T M : Z -> Prop) (es : gmap Z ipc_endpoint) (ws : gmap Z ipc_wait) : Prop :=
  forall ep e, es !! ep = Some e -> NoDup (waiters e) /\
    forall w, w ∈ waiters e -> exists x, ws !! w = Some x /\ w_endpoint x = ep /\ T (w_partner x) /\ M (w_msg x).

Lemma queues_ok_mono (T T' M M' : Z -> Prop) es ws :
  (forall t, T t -> T' t) -> (forall m, M m -> M' m) -> queues_ok T M es ws -> queues_ok T' M' es ws.
Proof.
  intros HT HM H ep e He. destruct (H ep e He) as [N W]. split; [done|]. intros w Hw.
  destruct (W w Hw) as (x & Hx & E & Ht & Hm). exists x. auto.
Qed.

(** A record that leaves its queue may change or go. *)
Lemma queues_ok_leave T M es ws ep e e' w ws' :
  queues_ok T M es ws -> es !! ep = Some e -> NoDup (waiters e') -> waiters e' ⊆ waiters e ->
  w ∉ waiters e' -> (forall x, ws !! w = Some x -> w_endpoint x = ep) ->
  (forall w', w' ≠ w -> ws' !! w' = ws !! w') -> queues_ok T M (<[ep := e']> es) ws'.
Proof.
  intros H He N S Hw Hep Hws ep' e0. destruct (decide (ep' = ep)) as [->|Hne].
  - rewrite lookup_insert_eq. intros [= <-]. split; [done|]. intros w' Hw'.
    destruct (H ep e He) as [_ W]. destruct (W w' (S w' Hw')) as (x & Hx & R). exists x.
    rewrite Hws; [done|]. by intros ->.
  - rewrite lookup_insert_ne by done. intros He0. destruct (H ep' e0 He0) as [N0 W]. split; [done|].
    intros w' Hw'. destruct (W w' Hw') as (x & Hx & Ex & R). exists x. rewrite Hws; [done|].
    intros ->. apply Hne. rewrite <- Ex. by apply Hep.
Qed.

(** A new record joins a queue. *)
Lemma queues_ok_join T M es ws ep e e' w x :
  queues_ok T M es ws -> es !! ep = Some e -> ws !! w = None -> waiters e' ≡ₚ w :: waiters e ->
  w_endpoint x = ep -> T (w_partner x) -> M (w_msg x) ->
  queues_ok T M (<[ep := e']> es) (<[w := x]> ws).
Proof.
  intros H He Hf HP Ex Tx Mx.
  assert (forall ep0 e0, es !! ep0 = Some e0 -> w ∉ waiters e0) as Hn.
  { intros ep0 e0 H0 Hw. destruct (H ep0 e0 H0) as [_ W]. destruct (W w Hw) as (y & Hy & _). congruence. }
  intros ep' e0. destruct (decide (ep' = ep)) as [->|Hne].
  - rewrite lookup_insert_eq. intros [= <-]. destruct (H ep e He) as [N W]. split.
    + rewrite HP. constructor; [by eapply Hn|done].
    + intros w'. rewrite HP, elem_of_cons. destruct (decide (w' = w)) as [->|Hw'].
      * intros _. rewrite lookup_insert_eq. by exists x.
      * intros [?|Hin]; [done|]. rewrite lookup_insert_ne by done. by apply W.
  - rewrite lookup_insert_ne by done. intros He0. destruct (H ep' e0 He0) as [N0 W]. split; [done|].
    intros w' Hw'. rewrite lookup_insert_ne; [by apply W|]. intros <-. by eapply Hn.
Qed.

(** The result of a record may change where it is. *)
Lemma queues_ok_result T M es ws w x x' :
  queues_ok T M es ws -> ws !! w = Some x -> w_endpoint x' = w_endpoint x ->
  w_partner x' = w_partner x -> w_msg x' = w_msg x -> queues_ok T M es (<[w := x']> ws).
Proof.
  intros H Hx E1 E2 E3 ep e He. destruct (H ep e He) as [N W]. split; [done|]. intros w' Hw'.
  destruct (W w' Hw') as (y & Hy & R). destruct (decide (w' = w)) as [->|Hne].
  - rewrite lookup_insert_eq. exists x'. split; [done|]. assert (x = y) as -> by congruence.
    by rewrite E1, E2, E3.
  - rewrite lookup_insert_ne by done. by exists y.
Qed.

Lemma without_id w l : w ∉ l -> without w l = l.
Proof. apply filter_ne_id. Qed.

Lemma without_head w l : NoDup (w :: l) -> without w (w :: l) = l.
Proof.
  intros [Hn _]%NoDup_cons. unfold without. rewrite filter_cons_False by (by intros []).
  by apply without_id.
Qed.

(** The head of the second of two queues leaves. *)
Lemma NoDup_drop_head (w : Z) l rest :
  NoDup (l ++ w :: rest) -> NoDup (w :: rest) /\ NoDup (l ++ rest) /\ w ∉ l ++ rest.
Proof.
  intros H. rewrite <- Permutation_middle in H. apply NoDup_cons in H as [Hw H]. split; [|done].
  apply NoDup_cons. split; [set_solver|]. apply NoDup_app in H. tauto.
Qed.

Lemma drop_head_incl (w : Z) l rest : l ++ rest ⊆ l ++ w :: rest.
Proof. set_solver. Qed.

Lemma elem_of_without w l x : x ∈ without w l <-> x ∈ l /\ x ≠ w.
Proof. unfold without. rewrite list_elem_of_filter. tauto. Qed.

(** ** The invariant of IPC *)

Definition is_thread (s : sched) (t : Z) : Prop := is_Some (threads s !! t).
Definition is_msg (ms : gmap Z ipc_message) (a : Z) : Prop := a ≠ 0 /\ is_Some (ms !! a).

(** The threads named by the call/reply fields exist. *)
Definition links_ok (s : sched) (m : gmap Z ithread) : Prop :=
  forall t x, m !! t = Some x ->
    (ipc_caller x ≠ 0 -> is_thread s (ipc_caller x)) /\
    (ipc_reply_server x ≠ 0 -> is_thread s (ipc_reply_server x)).

Record ipc_inv (st : ipc) (q : run_queue) : Prop := {
  ii_sched : sched_inv (sch st) q;
  ii_threads : forall t x, threads (sch st) !! t = Some x ->
    is_Some (its st !! t) /\ proc_ok st (t_process x);
  ii_windows : windows_ok st;
  ii_msgs : forall a m, msgs st !! a = Some m -> msg_ok m;
  ii_queues : queues_ok (is_thread (sch st)) (is_msg (msgs st)) (eps st) (waits st);
  ii_links : links_ok (sch st) (its st)
}.

Lemma is_thread_kept s s' t :
  processes_kept (threads s) (threads s') -> is_thread s t -> is_thread s' t.
Proof.
  intros K [x Hx]. specialize (K t). rewrite Hx in K. unfold is_thread.
  destruct (threads s' !! t); [by eexists|done].
Qed.

Lemma links_ok_kept s s' m :
  processes_kept (threads s) (threads s') -> links_ok s m -> links_ok s' m.
Proof.
  intros K H t x Hx. destruct (H t x Hx) as [L1 L2]. split; intros Hn; eapply is_thread_kept; eauto.
Qed.

(** A step that adds no threads and no processes. *)
Lemma ipc_inv_step st q st' q' :
  ipc_inv st q -> sched_inv (sch st') q' -> processes_kept (threads (sch st)) (threads (sch st')) ->
  iprocs st' = iprocs st -> windows_ok st' ->
  (forall t, is_Some (its st !! t) -> is_Some (its st' !! t)) -> links_ok (sch st) (its st') ->
  (forall a, is_Some (msgs st !! a) -> is_Some (msgs st' !! a)) ->
  (forall a m, msgs st' !! a = Some m -> msg_ok m) ->
  queues_ok (is_thread (sch st)) (is_msg (msgs st)) (eps st') (waits st') -> ipc_inv st' q'.
Proof.
  intros [_ HT _ _ _ _] HS K Ep Hw Di HL Dm Hm HQ. split; [done| |done|done| |].
  - intros t x Hx. specialize (K t). rewrite Hx in K.
    destruct (threads (sch st) !! t) as [y|] eqn:Ey; [|done]. injection K as K.
    destruct (HT t y Ey) as [H1 H2]. split; [by apply Di|]. unfold proc_ok in *. by rewrite Ep, K.
  - eapply queues_ok_mono; [| |exact HQ].
    + intros t. by apply is_thread_kept.
    + intros a [H0 Ha]. split; [done|by apply Dm].
  - by eapply links_ok_kept.
Qed.

(** ** Rendezvous *)

Lemma upd_ep_eq st ep e f :
  eps st !! ep = Some e -> upd_ep st ep f = Some (with_eps st (<[ep := f e]> (eps st))).
Proof. intros H. unfold upd_ep. by rewrite H. Qed.
Lemma upd_it_eq st t x f :
  its st !! t = Some x -> upd_it st t f = Some (with_its st (<[t := f x]> (its st))).
Proof. intros H. unfold upd_it. by rewrite H. Qed.
Lemma upd_wait_eq st w x f :
  waits st !! w = Some x -> upd_wait st w f = Some (with_waits st (<[w := f x]> (waits st))).
Proof. intros H. unfold upd_wait. by rewrite H. Qed.

(** The call/reply fields of thread [t] once [caller] and [server] are linked. *)
Definition link_fields (caller server t : Z) (x : ithread) : ithread :=
  let c := bool_decide (t = caller) in
  mk_it (if bool_decide (t = server) then caller else ipc_caller x)
    (if c then server else ipc_reply_server x) (if c then 1 else ipc_reply_pending x)
    (if c then IPC_ERR_DEAD else ipc_reply_result x) (ipc_reply_tag x) (ipc_reply_regs x).

Definition linked (m : gmap Z ithread) (caller server : Z) (m' : gmap Z ithread) : Prop :=
  forall t, m' !! t = link_fields caller server t <$> m !! t.

Lemma link_call_ok st c s :
  is_Some (its st !! c) -> is_Some (its st !! s) ->
  exists m', link_call st c s = Some (with_its st m') /\ linked (its st) c s m'.
Proof.
  intros [x Hx] [y Hy]. unfold link_call. rewrite (upd_it_eq _ _ _ _ Hx). cbn [mbind option_bind].
  assert (exists z, its (with_its st (<[c := mk_it (ipc_caller x) s 1 IPC_ERR_DEAD (ipc_reply_tag x)
    (ipc_reply_regs x)]> (its st))) !! s = Some z /\
    z = if decide (s = c) then mk_it (ipc_caller x) s 1 IPC_ERR_DEAD (ipc_reply_tag x) (ipc_reply_regs x)
        else y) as (z & Hz & Ez).
  { simpl. case_decide as E; [rewrite E, lookup_insert_eq; by eexists|].
    rewrite lookup_insert_ne by done. by eexists. }
  rewrite (upd_it_eq _ _ _ _ Hz). eexists. split; [done|]. intros t. simpl. unfold link_fields.
  destruct (decide (t = s)) as [->|Hs].
  - rewrite lookup_insert_eq, Hy, (bool_decide_true (s = s)) by done. simpl. rewrite Ez.
    case_decide as Ec.
    + rewrite bool_decide_true by done. simpl. subst. by assert (x = y) as -> by congruence.
    + by rewrite bool_decide_false.
  - rewrite lookup_insert_ne by done. rewrite (bool_decide_false (t = s)) by done.
    destruct (decide (t = c)) as [->|Hc].
    + by rewrite lookup_insert_eq, Hx, bool_decide_true.
    + rewrite lookup_insert_ne, bool_decide_false by done. by destruct (its st !! t) as [[]|].
Qed.

Lemma links_ok_linked s m c d m' :
  links_ok s m -> is_thread s c -> is_thread s d -> linked m c d m' -> links_ok s m'.
Proof.
  intros H Hc Hd L t x. rewrite L. destruct (m !! t) as [y|] eqn:Ey; [|done]. intros [= <-].
  destruct (H t y Ey) as [H1 H2]. unfold link_fields. simpl.
  split; case_bool_decide; done.
Qed.

(** What a rendezvous does: message [m] goes from thread [snd] to thread [rcv], into the message
    at [dst]; the wait record [w] has left the queue of [ep], which is now [e'], and becomes [x'];
    a call links the two threads; thread [wake] is woken.  Nothing else changes. *)
Record rendezvous (st st' : ipc) (snd rcv wake ep : Z) (e' : ipc_endpoint) (w : Z) (x' : ipc_wait)
    (m : ipc_message) (dst : Z) (call : bool) (fast : Z) : Prop := {
  rv_sched : sched_wakeup (sch st) wake = Some (sch st');
  rv_eps : eps st' = <[ep := e']> (eps st);
  rv_waits : waits st' = <[w := x']> (waits st);
  rv_msg : exists dm dm', msgs st !! dst = Some dm /\ msgs st' = <[dst := dm']> (msgs st) /\
    message_copied dm m dm';
  rv_frames : exists sp rp, process_of st snd = Some sp /\ process_of st rcv = Some rp /\
    slice_moved st (frames st') sp rp m;
  rv_its : if call then linked (its st) snd rcv (its st') else its st' = its st;
  rv_procs : iprocs st' = iprocs st;
  rv_list : endpoint_list st' = endpoint_list st /\ next_endpoint_id st' = next_endpoint_id st;
  rv_totals : ipc_total_messages st' = u64 (ipc_total_messages st + 1) /\ ipc_fast_path_count st' = fast
}.

Lemma rendezvous_inv st q st' snd rcv wake ep e e' w x x' m dst call fast :
  ipc_inv st q -> rendezvous st st' snd rcv wake ep e' w x' m dst call fast ->
  eps st !! ep = Some e -> NoDup (waiters e') -> waiters e' ⊆ waiters e -> w ∉ waiters e' ->
  waits st !! w = Some x -> w_endpoint x = ep -> msg_ok m ->
  is_thread (sch st) snd -> is_thread (sch st) rcv -> is_thread (sch st) wake -> windows_ok st' ->
  exists q', ipc_inv st' q' /\ idle q' = idle q /\ self st' = self st.
Proof.
  intros HI [Rs Re Rw (dm & dm' & Hdm & Rm & Rc) _ Ri Rp _ _] He N S Hn Hx Ex Hm Hs Hr Hwk Hw.
  destruct (sched_wakeup_kept (sch st) q wake) as (s' & q' & E & HS & Ei & Ec & K & _ & _);
    [apply HI|done|]. rewrite Rs in E. injection E as <-. exists q'. split; [|done].
  pose proof HI as [H1 H2 H3 H4 H5 H6].
  eapply (ipc_inv_step st q); [done|done|done|done|done| | | | |].
  - intros t [y Hy]. destruct call; [rewrite Ri, Hy; by eexists|by rewrite Ri; eexists].
  - destruct call; [exact (links_ok_linked _ _ _ _ _ H6 Hs Hr Ri)|by rewrite Ri].
  - intros a Ha. rewrite Rm. apply lookup_insert_is_Some'. by right.
  - intros a m'. rewrite Rm. destruct (decide (a = dst)) as [->|Hne].
    + rewrite lookup_insert_eq. intros [= <-]. pose proof (H4 _ _ Hdm) as Hd.
      destruct (copy_message_ok dm m Hd Hm) as (dm2 & E2 & Ok2 & _). destruct Rc as [C1 C2 C3 C4 C5].
      split; [rewrite C2; apply Hm|]. intros b Hb. rewrite C3. destruct Hd as [_ Hd].
      destruct (m_buffer m), (m_buffer dm) as [db|] eqn:Edb; try congruence.
      * destruct C5 as (b' & Eb & Lb & _). assert (b = b') as -> by congruence. rewrite Lb. by apply Hd.
      * assert (b = db) as -> by congruence. by apply Hd.
    + rewrite lookup_insert_ne by done. apply H4.
  - rewrite Re, Rw. eapply (queues_ok_leave _ _ _ _ _ _ _ w); [done..| |].
    + intros y Hy. congruence.
    + intros w' Hw'. by rewrite lookup_insert_ne.
Qed.

(** What blocking does: record [x] at the fresh address [w] has joined a queue of [ep], which is now
    [e'], the thread sleeps on it and another thread runs.  Nothing else changes. *)
Definition blocked (st st' : ipc) (ep : Z) (e' : ipc_endpoint) (w : Z) (x : ipc_wait) : Prop :=
  slept (sch st) w (sch st') /\
  st' = with_sch (with_eps (with_waits st (<[w := x]> (waits st))) (<[ep := e']> (eps st))) (sch st').

Lemma block_on_ok st q ep e e' w x :
  ipc_inv st q -> self st ≠ idle q -> eps st !! ep = Some e -> waits st !! w = None ->
  waiters e' ≡ₚ w :: waiters e -> w_endpoint x = ep -> w_partner x = self st ->
  is_msg (msgs st) (w_msg x) ->
  exists st' q', block_on (with_eps (with_waits st (<[w := x]> (waits st))) (<[ep := e']> (eps st))) w =
      Some (Block w, st') /\ blocked st st' ep e' w x /\ ipc_inv st' q' /\ idle q' = idle q.
Proof.
  intros HI Hid He Hw HP E1 E2 Hm. pose proof HI as [H1 H2 H3 H4 H5 H6].
  destruct (thread_sleep_ok (sch st) q w) as (s' & q' & E & HS & Ei & SL); [done|done|].
  unfold block_on. cbn [sch with_eps with_waits]. rewrite E. cbn [mbind option_bind]. eexists _, q'.
  split; [done|]. split; [by split|]. split; [|done].
  eapply (ipc_inv_step st q); try done; [apply SL|].
  eapply queues_ok_join; try done. rewrite E2. apply (si_current _ _ H1).
Qed.

Lemma waiter_ok st q ep e w :
  ipc_inv st q -> eps st !! ep = Some e -> w ∈ waiters e ->
  exists x, waits st !! w = Some x /\ w_endpoint x = ep /\ is_thread (sch st) (w_partner x) /\
    is_msg (msgs st) (w_msg x).
Proof. intros HI He. exact (proj2 (ii_queues _ _ HI ep e He) w). Qed.

(** The process of a thread. *)
Lemma process_of_ok st q t :
  ipc_inv st q -> is_thread (sch st) t -> exists p, process_of st t = Some p /\ proc_ok st p.
Proof.
  intros HI [x Hx]. exists (t_process x). unfold process_of. rewrite Hx. split; [done|].
  exact (proj2 (ii_threads _ _ HI t x Hx)).
Qed.

Lemma self_thread st q : ipc_inv st q -> is_thread (sch st) (self st).
Proof. intros HI. apply (si_current _ _ (ii_sched _ _ HI)). Qed.

Lemma thread_its st q t : ipc_inv st q -> is_thread (sch st) t -> is_Some (its st !! t).
Proof. intros HI [x Hx]. exact (proj1 (ii_threads _ _ HI t x Hx)). Qed.

Definition alive (e : ipc_endpoint) : Prop := ztrue (Z.land (ep_flags e) EP_FLAG_DEAD) = false.

(** The send when a receiver waits. *)
Lemma send_direct_ok st q ep e w rest msg m op mem :
  ipc_inv st q -> ep ≠ 0 -> msg ≠ 0 -> eps st !! ep = Some e -> alive e -> msgs st !! msg = Some m ->
  recv_queue e = w :: rest ->
  exists rw sp rp, waits st !! w = Some rw /\ process_of st (self st) = Some sp /\
    process_of st (w_partner rw) = Some rp /\
  ((exists st' q', ipc_send_op st ep msg op mem = Some (Ret IPC_OK, st') /\ ipc_inv st' q' /\ idle q' = idle q /\
      self st' = self st /\
      rendezvous st st' (self st) (w_partner rw) (w_partner rw) ep
        (ep_stats (ep_queues e (send_queue e) rest) (u64 (msgs_sent e + 1)) (msgs_received e))
        w (mk_wait ep (w_msg rw) (self st) op IPC_OK) m (w_msg rw) (op =? IPC_OP_CALL)
        (u64 (ipc_fast_path_count st + 1))) \/
   (exists err, ipc_send_op st ep msg op mem = Some (Ret err, st) /\ err ≠ IPC_OK /\
      slice_refused st sp rp m)).
Proof.
  intros HI Hep Hmsg He Ha Hm Hrq. destruct (waiter_ok st q ep e w HI He) as (rw & Hrw & Ew & Ht & [M0 [dm Hdm]]).
  { unfold waiters. rewrite Hrq. set_solver. }
  pose proof (self_thread _ _ HI) as Hself. pose proof HI as [H1 H2 H3 H4 H5 H6].
  destruct (process_of_ok st q (self st) HI Hself) as (sp & Esp & Osp).
  destruct (process_of_ok st q (w_partner rw) HI Ht) as (rp & Erp & Orp).
  exists rw, sp, rp. split; [done|]. split; [done|]. split; [done|].
  destruct (H5 _ _ He) as [Hnd _]. unfold waiters in Hnd. rewrite Hrq in Hnd.
  destruct (NoDup_drop_head _ _ _ Hnd) as (Hnr & Hnd' & Hw').
  unfold ipc_send_op. destruct (Z.eqb_spec ep 0); [done|]. destruct (Z.eqb_spec msg 0); [done|].
  cbn [orb]. rewrite He. cbn [mbind option_bind]. rewrite Ha, Hm. cbn [mbind option_bind].
  rewrite Hrq. cbn [peek_waiter head]. rewrite Hrw. cbn [mbind option_bind]. rewrite Esp, Erp.
  cbn [mbind option_bind].
  destruct (slice_transfer_ok st sp rp m H3 Osp Orp (H4 _ _ Hm)) as [(fs & -> & Hw & Hsl)|(err & -> & Herr & R)];
    cbn [mbind option_bind].
  2: { right. exists err. destruct (Z.eqb_spec err IPC_OK); [done|]. cbn [negb]. auto. }
  left. rewrite Z.eqb_refl. cbn [negb]. rewrite (upd_ep_eq _ ep e) by done. cbn [mbind option_bind].
  rewrite (proj2 (Z.eqb_neq (w_msg rw) 0) M0). cbn [negb]. cbn [msgs with_eps with_frames]. rewrite Hdm.
  cbn [mbind option_bind].
  destruct (copy_message_ok dm m) as (dm' & -> & Okd & Hc); [by eapply H4..|]. cbn [mbind option_bind].
  rewrite (upd_wait_eq _ w rw) by done. cbn [mbind option_bind].
  erewrite (upd_ep_eq _ ep) by apply lookup_insert_eq. cbn [mbind option_bind].
  cbn [eps with_waits with_msgs with_eps with_frames]. rewrite insert_insert_eq.
  rewrite Hrq, without_head by done.
  set (st1 := with_totals _ _ _).
  assert (exists m', (if op =? IPC_OP_CALL then link_call st1 (self st1) (w_partner rw) else Some st1) =
    Some (with_its st1 m') /\ if op =? IPC_OP_CALL then linked (its st) (self st) (w_partner rw) m' else m' = its st)
    as (m' & -> & Hm').
  { destruct (op =? IPC_OP_CALL); [|exists (its st1); rewrite with_its_id; split; reflexivity].
    exact (link_call_ok st1 (self st) (w_partner rw) (thread_its st q _ HI Hself) (thread_its st q _ HI Ht)). }
  cbn [mbind option_bind]. unfold wakeup. cbn [sch with_its].
  destruct (sched_wakeup_kept (sch st) q (w_partner rw) H1 Ht) as (s' & q' & Es & _).
  assert (sch st1 = sch st) as -> by reflexivity. rewrite Es. cbn [mbind option_bind].
  set (st' := with_sch _ s').
  assert (rendezvous st st' (self st) (w_partner rw) (w_partner rw) ep
        (ep_stats (ep_queues e (send_queue e) rest) (u64 (msgs_sent e + 1)) (msgs_received e))
        w (mk_wait ep (w_msg rw) (self st) op IPC_OK) m (w_msg rw) (op =? IPC_OP_CALL)
        (u64 (ipc_fast_path_count st + 1))) as RV.
  { split; [exact Es|reflexivity|subst st' st1; cbn; by rewrite Ew|exact (ex_intro _ dm (ex_intro _ dm' (conj Hdm (conj eq_refl Hc))))|
      exact (ex_intro _ sp (ex_intro _ rp (conj Esp (conj Erp Hsl))))|exact Hm'|reflexivity|split; reflexivity|split; reflexivity]. }
  destruct (rendezvous_inv st q st' _ _ _ ep e _ w rw _ m _ _ _ HI RV He) as (q2 & HI2 & Ei2 & Es2).
  - exact Hnd'.
  - unfold waiters. rewrite Hrq. apply drop_head_incl.
  - exact Hw'.
  - exact Hrw.
  - exact Ew.
  - exact (H4 _ _ Hm).
  - exact Hself.
  - exact Ht.
  - exact Ht.
  - exact Hw.
  - exists st', q2. exact (conj eq_refl (conj HI2 (conj Ei2 (conj Es2 RV)))).
Qed.

(** The outcomes of a send with no receiver waiting. *)
Lemma send_wait_ok st q ep e msg m op mem :
  ipc_inv st q -> self st ≠ idle q -> ep ≠ 0 -> msg ≠ 0 -> eps st !! ep = Some e -> alive e ->
  msgs st !! msg = Some m -> recv_queue e = [] -> waits st !! mem = None ->
  if has_flag (m_tag m) MSG_FLAG_NONBLOCK then ipc_send_op st ep msg op mem = Some (Ret IPC_ERR_NOPARTNER, st)
  else if mem =? 0 then ipc_send_op st ep msg op mem = Some (Ret IPC_ERR_BUSY, st)
  else exists st' q', ipc_send_op st ep msg op mem = Some (Block mem, st') /\ ipc_inv st' q' /\ idle q' = idle q /\
    blocked st st' ep (ep_queues e (send_queue e ++ [mem]) []) mem (mk_wait ep msg (self st) op IPC_ERR_NOPARTNER).
Proof.
  intros HI Hid Hep Hmsg He Ha Hm Hrq Hmem. unfold ipc_send_op.
  rewrite (proj2 (Z.eqb_neq ep 0) Hep), (proj2 (Z.eqb_neq msg 0) Hmsg). cbn [orb]. rewrite He.
  cbn [mbind option_bind]. rewrite Ha, Hm. cbn [mbind option_bind]. rewrite Hrq. cbn [peek_waiter head].
  destruct (has_flag (m_tag m) MSG_FLAG_NONBLOCK); [done|].
  destruct (mem =? 0); [done|]. rewrite (upd_ep_eq _ ep e) by exact He. cbn [mbind option_bind].
  destruct (block_on_ok st q ep e (ep_queues e (send_queue e ++ [mem]) []) mem
    (mk_wait ep msg (self st) op IPC_ERR_NOPARTNER)) as (st' & q' & E & B & HI' & Ei); try done.
  - unfold waiters. simpl. rewrite Hrq, !app_nil_r. by rewrite Permutation_app_comm.
  - exists st', q'. rewrite Hrq. split; [exact E|]. by split.
Qed.

(** C8.  [ipc_send] and the send half of [ipc_call], on every path.  On a dead endpoint the send
    fails with IPC_ERR_DEAD.  If receivers wait, the one that waited longest gets the message:
    tag, registers and buffer, and the window slice if the message names one; it leaves the
    queue, is told that the send succeeded and who sent, and is woken; a call links caller and
    server for the reply.  If the slice cannot be moved (it leaves the window, or a side has
    none) the sender gets an error and nothing at all changes: the message does not cross.
    Without a receiver a non-blocking send fails, and otherwise the sender joins the end of the
    send queue and sleeps on its wait record while another thread runs.  The invariant of the
    IPC system is preserved throughout. *)
Theorem ipc_send_spec st q ep e msg m op mem :
  ipc_inv st q -> self st ≠ idle q -> ep ≠ 0 -> msg ≠ 0 -> eps st !! ep = Some e ->
  msgs st !! msg = Some m -> waits st !! mem = None ->
  if ztrue (Z.land (ep_flags e) EP_FLAG_DEAD) then ipc_send_op st ep msg op mem = Some (Ret IPC_ERR_DEAD, st)
  else match recv_queue e with
  | w :: rest => exists rw sp rp, waits st !! w = Some rw /\ process_of st (self st) = Some sp /\
      process_of st (w_partner rw) = Some rp /\
      ((exists st' q', ipc_send_op st ep msg op mem = Some (Ret IPC_OK, st') /\ ipc_inv st' q' /\
          idle q' = idle q /\ self st' = self st /\
          rendezvous st st' (self st) (w_partner rw) (w_partner rw) ep
            (ep_stats (ep_queues e (send_queue e) rest) (u64 (msgs_sent e + 1)) (msgs_received e))
            w (mk_wait ep (w_msg rw) (self st) op IPC_OK) m (w_msg rw) (op =? IPC_OP_CALL)
            (u64 (ipc_fast_path_count st + 1))) \/
       (exists err, ipc_send_op st ep msg op mem = Some (Ret err, st) /\ err ≠ IPC_OK /\
          slice_refused st sp rp m))
  | [] =>
      if has_flag (m_tag m) MSG_FLAG_NONBLOCK
      then ipc_send_op st ep msg op mem = Some (Ret IPC_ERR_NOPARTNER, st)
      else if mem =? 0 then ipc_send_op st ep msg op mem = Some (Ret IPC_ERR_BUSY, st)
      else exists st' q', ipc_send_op st ep msg op mem = Some (Block mem, st') /\ ipc_inv st' q' /\
        idle q' = idle q /\
        blocked st st' ep (ep_queues e (send_queue e ++ [mem]) []) mem
          (mk_wait ep msg (self st) op IPC_ERR_NOPARTNER)
  end.
Proof.
  intros HI Hid Hep Hmsg He Hm Hmem. destruct (ztrue _) eqn:Ha.
  - unfold ipc_send_op. rewrite (proj2 (Z.eqb_neq ep 0) Hep), (proj2 (Z.eqb_neq msg 0) Hmsg). cbn [orb].
    rewrite He. cbn [mbind option_bind]. by rewrite Ha.
  - destruct (recv_queue e) as [|w rest] eqn:Hrq; [by apply send_wait_ok|by apply send_direct_ok].
Qed.

(** The receive when a sender waits. *)
Lemma recv_direct_ok st q ep e w rest msg m0 mem :
  ipc_inv st q -> ep ≠ 0 -> msg ≠ 0 -> eps st !! ep = Some e -> alive e -> msgs st !! msg = Some m0 ->
  send_queue e = w :: rest ->
  exists sw sp rp m, waits st !! w = Some sw /\ process_of st (w_partner sw) = Some sp /\
    process_of st (self st) = Some rp /\ msgs st !! w_msg sw = Some m /\
  ((exists st' q', ipc_recv st ep msg mem = Some (Ret IPC_OK, st') /\ ipc_inv st' q' /\ idle q' = idle q /\
      self st' = self st /\
      rendezvous st st' (w_partner sw) (self st) (w_partner sw) ep
        (ep_stats (ep_queues e rest (recv_queue e)) (msgs_sent e) (u64 (msgs_received e + 1)))
        w (mk_wait ep (w_msg sw) (self st) (w_operation sw) IPC_OK) m msg (w_operation sw =? IPC_OP_CALL)
        (ipc_fast_path_count st)) \/
   (exists err st' q', ipc_recv st ep msg mem = Some (Ret err, st') /\ err ≠ IPC_OK /\
      slice_refused st sp rp m /\ ipc_inv st' q' /\ idle q' = idle q /\
      sched_wakeup (sch st) (w_partner sw) = Some (sch st') /\
      st' = with_sch (with_eps (with_waits st (<[w := mk_wait ep (w_msg sw) (w_partner sw) (w_operation sw) err]>
              (waits st))) (<[ep := ep_queues e rest (recv_queue e)]> (eps st))) (sch st'))).
Proof.
  intros HI Hep Hmsg He Ha Hm0 Hsq. destruct (waiter_ok st q ep e w HI He) as (sw & Hsw & Ew & Ht & [M0 [m Hm]]).
  { unfold waiters. rewrite Hsq. set_solver. }
  pose proof (self_thread _ _ HI) as Hself. pose proof HI as [H1 H2 H3 H4 H5 H6].
  destruct (process_of_ok st q (self st) HI Hself) as (rp & Erp & Orp).
  destruct (process_of_ok st q (w_partner sw) HI Ht) as (sp & Esp & Osp).
  exists sw, sp, rp, m. split; [done|]. split; [done|]. split; [done|]. split; [done|].
  destruct (H5 _ _ He) as [Hnd _]. unfold waiters in Hnd. rewrite Hsq in Hnd.
  destruct (NoDup_drop_head _ [] _ Hnd) as (_ & Hnd' & Hw'). cbn [app] in Hnd', Hw'.
  assert (NoDup (w :: rest)) as Hnr by (apply NoDup_app in Hnd; tauto).
  destruct (sched_wakeup_kept (sch st) q (w_partner sw) H1 Ht) as (s' & q' & Es & HS & Ei & _ & K & _).
  unfold ipc_recv. rewrite (proj2 (Z.eqb_neq ep 0) Hep), (proj2 (Z.eqb_neq msg 0) Hmsg).
  cbn [orb]. rewrite He. cbn [mbind option_bind]. rewrite Ha.
  rewrite Hsq. cbn [peek_waiter head]. rewrite Hsw. cbn [mbind option_bind].
  rewrite (proj2 (Z.eqb_neq (w_msg sw) 0) M0), Hm. cbn [mbind option_bind]. rewrite Esp, Erp.
  cbn [mbind option_bind].
  destruct (slice_transfer_ok st sp rp m H3 Osp Orp (H4 _ _ Hm)) as [(fs & -> & Hw & Hsl)|(err & -> & Herr & R)];
    cbn [mbind option_bind].
  2: { right. exists err. rewrite (proj2 (Z.eqb_neq err IPC_OK) Herr). cbn [negb].
       rewrite (upd_wait_eq _ w sw) by exact Hsw. cbn [mbind option_bind].
       rewrite (upd_ep_eq _ ep e) by exact He. cbn [mbind option_bind].
       unfold wakeup. cbn [sch with_waits with_eps]. rewrite Es. cbn [mbind option_bind].
       rewrite Hsq, without_head by done. rewrite Ew. eexists _, q'. split; [done|]. split; [done|].
       split; [done|]. split; [|by split].
       eapply (ipc_inv_step st q); [exact HI|exact HS|exact K|done|exact H3|done|exact H6|done|exact H4|].
       eapply (queues_ok_leave _ _ _ _ _ _ _ w); [exact H5|exact He|exact Hnd'| |exact Hw'| |].
       - unfold waiters. rewrite Hsq. apply (drop_head_incl w []).
       - intros y Hy. congruence.
       - intros w' Hne. by apply lookup_insert_ne. }
  left. rewrite Z.eqb_refl. cbn [negb]. rewrite (upd_ep_eq _ ep e) by done. cbn [mbind option_bind].
  cbn [msgs with_eps with_frames]. rewrite Hm0. cbn [mbind option_bind].
  destruct (copy_message_ok m0 m) as (dm' & -> & Okd & Hc); [by eapply H4..|]. cbn [mbind option_bind].
  rewrite (upd_wait_eq _ w sw) by done. cbn [mbind option_bind].
  erewrite (upd_ep_eq _ ep) by apply lookup_insert_eq. cbn [mbind option_bind].
  cbn [eps with_waits with_msgs with_eps with_frames]. rewrite insert_insert_eq.
  rewrite Hsq, without_head by done.
  set (st1 := with_totals _ _ _).
  assert (exists m', (if w_operation sw =? IPC_OP_CALL then link_call st1 (w_partner sw) (self st1) else Some st1) =
    Some (with_its st1 m') /\
    if w_operation sw =? IPC_OP_CALL then linked (its st) (w_partner sw) (self st) m' else m' = its st)
    as (m' & -> & Hm').
  { destruct (w_operation sw =? IPC_OP_CALL); [|exists (its st1); rewrite with_its_id; split; reflexivity].
    exact (link_call_ok st1 (w_partner sw) (self st) (thread_its st q _ HI Ht) (thread_its st q _ HI Hself)). }
  cbn [mbind option_bind]. unfold wakeup. cbn [sch with_its].
  assert (sch st1 = sch st) as -> by reflexivity. rewrite Es. cbn [mbind option_bind].
  set (st' := with_sch _ s').
  assert (rendezvous st st' (w_partner sw) (self st) (w_partner sw) ep
        (ep_stats (ep_queues e rest (recv_queue e)) (msgs_sent e) (u64 (msgs_received e + 1)))
        w (mk_wait ep (w_msg sw) (self st) (w_operation sw) IPC_OK) m msg (w_operation sw =? IPC_OP_CALL)
        (ipc_fast_path_count st)) as RV.
  { split; [exact Es|reflexivity|subst st' st1; cbn; by rewrite Ew|exact (ex_intro _ m0 (ex_intro _ dm' (conj Hm0 (conj eq_refl Hc))))|
      exact (ex_intro _ sp (ex_intro _ rp (conj Esp (conj Erp Hsl))))|exact Hm'|reflexivity|split; reflexivity|split; reflexivity]. }
  destruct (rendezvous_inv st q st' _ _ _ ep e _ w sw _ m _ _ _ HI RV He) as (q2 & HI2 & Ei2 & Es2).
  - exact Hnd'.
  - unfold waiters. rewrite Hsq. apply (drop_head_incl w []).
  - exact Hw'.
  - exact Hsw.
  - exact Ew.
  - exact (H4 _ _ Hm).
  - exact Ht.
  - exact Hself.
  - exact Ht.
  - exact Hw.
  - exists st', q2. exact (conj eq_refl (conj HI2 (conj Ei2 (conj Es2 RV)))).
Qed.

Lemma recv_wait_ok st q ep e msg m mem :
  ipc_inv st q -> self st ≠ idle q -> ep ≠ 0 -> msg ≠ 0 -> eps st !! ep = Some e -> alive e ->
  msgs st !! msg = Some m -> send_queue e = [] -> waits st !! mem = None ->
  if has_flag (m_tag m) MSG_FLAG_NONBLOCK then ipc_recv st ep msg mem = Some (Ret IPC_ERR_NOPARTNER, st)
  else if mem =? 0 then ipc_recv st ep msg mem = Some (Ret IPC_ERR_BUSY, st)
  else exists st' q', ipc_recv st ep msg mem = Some (Block mem, st') /\ ipc_inv st' q' /\ idle q' = idle q /\
    blocked st st' ep (ep_queues e [] (recv_queue e ++ [mem])) mem
      (mk_wait ep msg (self st) IPC_OP_RECV IPC_ERR_NOPARTNER).
Proof.
  intros HI Hid Hep Hmsg He Ha Hm Hsq Hmem. unfold ipc_recv.
  rewrite (proj2 (Z.eqb_neq ep 0) Hep), (proj2 (Z.eqb_neq msg 0) Hmsg). cbn [orb]. rewrite He.
  cbn [mbind option_bind]. rewrite Ha, Hsq. cbn [peek_waiter head]. rewrite Hm. cbn [mbind option_bind].
  destruct (has_flag (m_tag m) MSG_FLAG_NONBLOCK); [done|].
  destruct (mem =? 0); [done|]. rewrite (upd_ep_eq _ ep e) by exact He. cbn [mbind option_bind].
  destruct (block_on_ok st q ep e (ep_queues e [] (recv_queue e ++ [mem])) mem
    (mk_wait ep msg (self st) IPC_OP_RECV IPC_ERR_NOPARTNER)) as (st' & q' & E & B & HI' & Ei); try done.
  - unfold waiters. simpl. rewrite Hsq. cbn [app]. by rewrite Permutation_app_comm.
  - exists st', q'. rewrite Hsq. split; [exact E|]. by split.
Qed.

(** C21.  [ipc_recv], on every path.  On a dead endpoint it fails.  If senders wait, the message of
    the one that waited longest is received, with its window slice, and that sender leaves the
    queue and is woken with success (for a call, linked to this thread as its server); if the
    slice cannot be moved both sides get the error, the sender is released and no message or
    window changes.  Without a sender a non-blocking receive fails, and otherwise the receiver
    joins the end of the receive queue and sleeps while another thread runs.  The invariant of
    the IPC system is preserved throughout. *)
Theorem ipc_recv_spec st q ep e msg m0 mem :
  ipc_inv st q -> self st ≠ idle q -> ep ≠ 0 -> msg ≠ 0 -> eps st !! ep = Some e ->
  msgs st !! msg = Some m0 -> waits st !! mem = None ->
  if ztrue (Z.land (ep_flags e) EP_FLAG_DEAD) then ipc_recv st ep msg mem = Some (Ret IPC_ERR_DEAD, st)
  else match send_queue e with
  | w :: rest => exists sw sp rp m, waits st !! w = Some sw /\ process_of st (w_partner sw) = Some sp /\
      process_of st (self st) = Some rp /\ msgs st !! w_msg sw = Some m /\
      ((exists st' q', ipc_recv st ep msg mem = Some (Ret IPC_OK, st') /\ ipc_inv st' q' /\
          idle q' = idle q /\ self st' = self st /\
          rendezvous st st' (w_partner sw) (self st) (w_partner sw) ep
            (ep_stats (ep_queues e rest (recv_queue e)) (msgs_sent e) (u64 (msgs_received e + 1)))
            w (mk_wait ep (w_msg sw) (self st) (w_operation sw) IPC_OK) m msg
            (w_operation sw =? IPC_OP_CALL) (ipc_fast_path_count st)) \/
       (exists err st' q', ipc_recv st ep msg mem = Some (Ret err, st') /\ err ≠ IPC_OK /\
          slice_refused st sp rp m /\ ipc_inv st' q' /\ idle q' = idle q /\
          sched_wakeup (sch st) (w_partner sw) = Some (sch st') /\
          st' = with_sch (with_eps (with_waits st
                  (<[w := mk_wait ep (w_msg sw) (w_partner sw) (w_operation sw) err]> (waits st)))
                  (<[ep := ep_queues e rest (recv_queue e)]> (eps st))) (sch st')))
  | [] =>
      if has_flag (m_tag m0) MSG_FLAG_NONBLOCK
      then ipc_recv st ep msg mem = Some (Ret IPC_ERR_NOPARTNER, st)
      else if mem =? 0 then ipc_recv st ep msg mem = Some (Ret IPC_ERR_BUSY, st)
      else exists st' q', ipc_recv st ep msg mem = Some (Block mem, st') /\ ipc_inv st' q' /\
        idle q' = idle q /\
        blocked st st' ep (ep_queues e [] (recv_queue e ++ [mem])) mem
          (mk_wait ep msg (self st) IPC_OP_RECV IPC_ERR_NOPARTNER)
  end.
Proof.
  intros HI Hid Hep Hmsg He Hm Hmem. destruct (ztrue _) eqn:Ha.
  - unfold ipc_recv. rewrite (proj2 (Z.eqb_neq ep 0) Hep), (proj2 (Z.eqb_neq msg 0) Hmsg). cbn [orb].
    rewrite He. cbn [mbind option_bind]. by rewrite Ha.
  - destruct (send_queue e) as [|w rest] eqn:Hsq; [by apply recv_wait_ok|by eapply recv_direct_ok].
Qed.

(** ** Waking up from a wait *)

Lemma without_waiters e w :
  NoDup (waiters e) -> let e' := ep_queues e (without w (send_queue e)) (without w (recv_queue e)) in
  NoDup (waiters e') /\ waiters e' ⊆ waiters e /\ w ∉ waiters e'.
Proof.
  intros N e'. assert (waiters e' = without w (waiters e)) as ->.
  { unfold waiters, e', without. simpl. by rewrite filter_app. }
  split; [by apply NoDup_filter|]. split; [intros x Hx; by apply elem_of_without in Hx as []|].
  rewrite elem_of_without. tauto.
Qed.

(** The thread returns the result left in its record, which is off every queue and freed. *)
Lemma ipc_wait_resume_ok st q t ep e w x :
  ipc_inv st q -> is_thread (sch st) t -> eps st !! ep = Some e -> waits st !! w = Some x ->
  w_endpoint x = ep ->
  exists st', ipc_wait_resume st t ep w = Some (w_result x, st') /\ ipc_inv st' q /\
    eps st' = <[ep := ep_queues e (without w (send_queue e)) (without w (recv_queue e))]> (eps st) /\
    waits st' = delete w (waits st) /\ self st' = self st /\
    processes_kept (threads (sch st)) (threads (sch st')) /\
    its st' = its st /\ msgs st' = msgs st /\ iprocs st' = iprocs st /\ frames st' = frames st.
Proof.
  intros HI [y Hy] He Hw Ew. unfold ipc_wait_resume, thread_sleep_resume, upd_thread. rewrite Hy.
  cbn [mbind option_bind]. rewrite (upd_ep_eq _ ep e) by exact He. cbn [mbind option_bind].
  cbn [waits with_eps with_sch]. rewrite Hw. cbn [mbind option_bind]. eexists. split; [done|].
  assert (processes_kept (threads (sch st)) (<[t := set_wait_channel 0 y]> (threads (sch st)))) as K.
  { by eapply processes_kept_upd. }
  pose proof HI as [H1 H2 H3 H4 H5 H6]. split.
  2: { repeat (split; [done|]). done. }
  eapply (ipc_inv_step st q); [exact HI| |exact K|done|exact H3|done|exact H6|done|exact H4|].
  - eapply sched_inv_upd; [exact H1|exact Hy|exact (si_prio _ _ _ _ H1 Hy)|done|done|].
    intros ->. destruct (si_idle _ _ H1) as (_ & _ & xi & Hxi & Si & _). simpl. congruence.
  - destruct (without_waiters e w) as (N & S & Hn); [apply (H5 _ _ He)|].
    eapply (queues_ok_leave _ _ _ _ _ _ _ w); [exact H5|exact He|exact N|exact S|exact Hn| |].
    + intros z Hz. congruence.
    + intros w' Hne. by apply lookup_delete_ne.
Qed.

(** ** Replying *)

(** The threads' fields after a change of those of one thread. *)
Lemma upd_it_ok st t f :
  is_Some (its st !! t) ->
  exists m, upd_it st t f = Some (with_its st m) /\
    forall t', m !! t' = (if bool_decide (t' = t) then f else fun x => x) <$> its st !! t'.
Proof.
  intros [x Hx]. eexists. split; [by apply upd_it_eq|]. intros t'. case_bool_decide as E.
  - subst. by rewrite lookup_insert_eq, Hx.
  - rewrite lookup_insert_ne by done. by destruct (its st !! t').
Qed.

(** The fields of thread [t] after server [s] answered caller [c] with [m]; [err] is the result of
    moving the slice. *)
Definition reply_fields (c s err : Z) (m : ipc_message) (t : Z) (x : ithread) : ithread :=
  let d := bool_decide (t = c) in
  mk_it (if bool_decide (t = s) then 0 else ipc_caller x) (ipc_reply_server x)
    (if d then 0 else ipc_reply_pending x) (if d then err else ipc_reply_result x)
    (if d && (err =? IPC_OK) then m_tag m else ipc_reply_tag x)
    (if d && (err =? IPC_OK) then m_regs m else ipc_reply_regs x).

Record answered (st st' : ipc) (c : Z) (m : ipc_message) (err : Z) : Prop := {
  an_its : forall t, its st' !! t = reply_fields c (self st) err m t <$> its st !! t;
  an_sched : sched_wakeup (sch st) c = Some (sch st');
  an_frames : exists sp cp, process_of st (self st) = Some sp /\ process_of st c = Some cp /\
    (err = IPC_OK /\ slice_moved st (frames st') sp cp m \/
     err ≠ IPC_OK /\ slice_refused st sp cp m /\ frames st' = frames st);
  an_rest : eps st' = eps st /\ waits st' = waits st /\ msgs st' = msgs st /\ iprocs st' = iprocs st /\
    endpoint_list st' = endpoint_list st /\ next_endpoint_id st' = next_endpoint_id st
}.

Lemma links_ok_reply s m c d err msg m' :
  links_ok s m -> (forall t, m' !! t = reply_fields c d err msg t <$> m !! t) -> links_ok s m'.
Proof.
  intros H L t x. rewrite L. destruct (m !! t) as [y|] eqn:Ey; [|done]. intros [= <-].
  destruct (H t y Ey) as [H1 H2]. unfold reply_fields. simpl. split; [by case_bool_decide|done].
Qed.

Lemma ipc_reply_ok st q msg m x :
  ipc_inv st q -> msg ≠ 0 -> msgs st !! msg = Some m -> its st !! self st = Some x -> ipc_caller x ≠ 0 ->
  exists err st' q', ipc_reply st msg = Some (IPC_OK, st') /\ ipc_inv st' q' /\ idle q' = idle q /\
    self st' = self st /\ answered st st' (ipc_caller x) m err.
Proof.
  intros HI Hmsg Hm Hx Hc. pose proof HI as [H1 H2 H3 H4 H5 H6].
  destruct (H6 _ _ Hx) as [Hct _]. specialize (Hct Hc). pose proof (self_thread _ _ HI) as Hself.
  destruct (process_of_ok st q (self st) HI Hself) as (sp & Esp & Osp).
  destruct (process_of_ok st q (ipc_caller x) HI Hct) as (cp & Ecp & Ocp).
  destruct (sched_wakeup_kept (sch st) q (ipc_caller x) H1 Hct) as (s' & q' & Es & HS & Ei & Ec & K & _).
  pose proof (thread_its _ _ _ HI Hct) as [y Hy].
  unfold ipc_reply. rewrite (proj2 (Z.eqb_neq msg 0) Hmsg), Hx. cbn [mbind option_bind].
  rewrite (proj2 (Z.eqb_neq _ 0) Hc).
  destruct (upd_it_ok st (self st) (fun x => mk_it 0 (ipc_reply_server x) (ipc_reply_pending x)
    (ipc_reply_result x) (ipc_reply_tag x) (ipc_reply_regs x))) as (m1 & -> & L1); [by eexists|].
  cbn [mbind option_bind]. cbn [msgs with_its]. rewrite Hm. cbn [mbind option_bind].
  assert (process_of (with_its st m1) (self (with_its st m1)) = Some sp) as -> by exact Esp.
  assert (process_of (with_its st m1) (ipc_caller x) = Some cp) as -> by exact Ecp.
  cbn [mbind option_bind].
  assert (exists err fs, slice_transfer (with_its st m1) sp cp m = Some (err, with_frames (with_its st m1) fs) /\
    windows_ok (with_frames st fs) /\ (err = IPC_OK /\ slice_moved st fs sp cp m \/
     err ≠ IPC_OK /\ slice_refused st sp cp m /\ fs = frames st)) as (err & fs & -> & Hw & Hsl).
  { destruct (slice_transfer_ok (with_its st m1) sp cp m H3 Osp Ocp (H4 _ _ Hm))
      as [(fs & -> & Hw & Hsl)|(err & -> & Herr & R)].
    - exists IPC_OK, fs. split; [done|]. split; [exact Hw|]. left. by split.
    - exists err, (frames st). split; [done|]. split; [rewrite with_frames_id; exact H3|]. right.
      split; [done|]. split; [exact R|done]. }
  cbn [mbind option_bind].
  assert (is_Some (m1 !! ipc_caller x)) as S1 by (rewrite L1, Hy; by eexists).
  set (st1 := with_frames _ _).
  destruct (upd_it_ok st1 (ipc_caller x) (fun x0 => if negb (err =? IPC_OK)
         then mk_it (ipc_caller x0) (ipc_reply_server x0) (ipc_reply_pending x0) err
                (ipc_reply_tag x0) (ipc_reply_regs x0)
         else mk_it (ipc_caller x0) (ipc_reply_server x0) (ipc_reply_pending x0) IPC_OK (m_tag m)
                (m_regs m))) as (m2 & -> & L2); [exact S1|].
  cbn [mbind option_bind].
  assert (is_Some (m2 !! ipc_caller x)) as S2 by (rewrite L2; destruct S1 as [? S1]; simpl; rewrite S1; by eexists).
  destruct (upd_it_ok (with_its st1 m2) (ipc_caller x) (fun x0 => mk_it (ipc_caller x0) (ipc_reply_server x0) 0
    (ipc_reply_result x0) (ipc_reply_tag x0) (ipc_reply_regs x0))) as (m3 & -> & L3); [exact S2|].
  cbn [mbind option_bind]. unfold wakeup.
  assert (sch (with_its (with_its st1 m2) m3) = sch st) as -> by reflexivity. rewrite Es.
  cbn [mbind option_bind].
  set (st' := with_sch _ s'). exists err, st', q'.
  assert (answered st st' (ipc_caller x) m err) as A.
  { split; [|exact Es|exact (ex_intro _ sp (ex_intro _ cp (conj Esp (conj Ecp Hsl))))|by repeat split].
    intros t. subst st'. cbn [its with_sch with_its]. rewrite L3. cbn [its with_its]. rewrite L2.
    subst st1. cbn [its with_frames with_its]. rewrite L1. destruct (its st !! t) as [z|]; [|done].
    cbn [fmap option_fmap option_map]. unfold reply_fields.
    destruct (Z.eqb_spec err IPC_OK) as [->|]; repeat case_bool_decide; by destruct z. }
  split; [reflexivity|]. split; [|exact (conj Ei (conj Ec A))].
  eapply (ipc_inv_step st q); [exact HI|exact HS|exact K|reflexivity|exact Hw| | |done|exact H4|exact H5].
  - intros t [z Hz]. rewrite (an_its _ _ _ _ _ A), Hz. by eexists.
  - exact (links_ok_reply _ _ _ _ _ _ _ H6 (an_its _ _ _ _ _ A)).
Qed.

(** ** Calls *)

(** A caller whose reply has not come sleeps, and another thread runs. *)
Lemma ipc_call_wait_pending st q x :
  ipc_inv st q -> self st ≠ idle q -> its st !! self st = Some x -> ipc_reply_pending x ≠ 0 ->
  exists st' q', ipc_call_wait st (self st) = Some (inr st') /\ ipc_inv st' q' /\ idle q' = idle q /\
    slept (sch st) (self st + OFF_REPLY_PENDING) (sch st') /\ st' = with_sch st (sch st').
Proof.
  intros HI Hid Hx Hp. unfold ipc_call_wait. rewrite Hx. cbn [mbind option_bind].
  rewrite (proj2 (Z.eqb_neq _ 0) Hp). pose proof HI as [H1 H2 H3 H4 H5 H6].
  destruct (self_thread _ _ HI) as [y Hy]. unfold upd_thread. rewrite Hy. cbn [mbind option_bind].
  set (y1 := set_wait_channel _ _). set (s1 := with_threads _ _).
  assert (sched_inv s1 q) as HS1.
  { eapply sched_inv_upd; [exact H1|exact Hy|exact (si_prio _ _ _ _ H1 Hy)|done| |].
    - intros Hq. by destruct (proj1 (proj2 (si_current _ _ H1)) Hq).
    - intros E. by destruct (Hid E). }
  destruct (schedule_asleep_ok s1 q y1) as (s' & q' & E & HS & Ei & [A O K]);
    [done|apply lookup_insert_eq|done|].
  assert (current_thread s1 = self st) as Ec by reflexivity. rewrite E. cbn [mbind option_bind].
  assert (processes_kept (threads (sch st)) (threads s')) as K'.
  { eapply processes_kept_trans; [|exact K]. by eapply processes_kept_upd. }
  exists (with_sch st s'), q'. split; [done|]. split; [|split; [done|split; [|done]]].
  - eapply (ipc_inv_step st q); [exact HI|exact HS|exact K'|done|exact H3|done|exact H6|done|exact H4|exact H5].
  - by split.
Qed.

(** A caller whose reply has come takes it. *)
Lemma ipc_call_sent_replied st t x msg m :
  its st !! t = Some x -> ipc_reply_pending x = 0 -> ipc_reply_result x = IPC_OK ->
  is_thread (sch st) t -> msgs st !! msg = Some m ->
  exists st', ipc_call_sent st t msg IPC_OK = Some (Ret IPC_OK, st') /\
    msgs st' = <[msg := mk_msg (ipc_reply_tag x) (ipc_reply_regs x) (m_buffer m) (m_buffer_len m)
                          (m_nr_caps m)]> (msgs st).
Proof.
  intros Hx Hp Hr [y Hy] Hm. unfold ipc_call_sent, ipc_call_wait, upd_thread. rewrite Z.eqb_refl. cbn [negb].
  rewrite Hx. cbn [mbind option_bind]. rewrite Hp, Z.eqb_refl, Hy. cbn [mbind option_bind].
  unfold ipc_call_finish. cbn [its with_sch]. rewrite Hx. cbn [mbind option_bind].
  rewrite Hr, Z.eqb_refl. cbn [msgs with_sch]. rewrite Hm. cbn [mbind option_bind].
  rewrite (upd_it_eq _ t x) by exact Hx. cbn [mbind option_bind]. eexists. split; reflexivity.
Qed.

(** The scheduler may run other threads in between. *)
Definition rescheduled (st : ipc) (s : sched) : Prop :=
  (exists q, sched_inv s q) /\ processes_kept (threads (sch st)) (threads s).

Lemma rescheduled_inv st q s : ipc_inv st q -> rescheduled st s -> exists q', ipc_inv (with_sch st s) q'.
Proof.
  intros HI [[q' HS] K]. exists q'. pose proof HI as [H1 H2 H3 H4 H5 H6].
  eapply (ipc_inv_step st q); [exact HI|exact HS|exact K|done|exact H3|done|exact H6|done|exact H4|exact H5].
Qed.

Definition plain (m : ipc_message) : Prop := has_flag (m_tag m) MSG_FLAG_SLICE = false.

(** A message without slice is never refused. *)
Lemma plain_not_refused st sp rp m : plain m -> ~ slice_refused st sp rp m.
Proof. unfold plain. intros H [H' _]. congruence. Qed.

(** The send half of a call to a server that waits. *)
Lemma call_direct_ok st q ep e w rest rw msg m mem :
  ipc_inv st q -> self st ≠ idle q -> ep ≠ 0 -> msg ≠ 0 -> eps st !! ep = Some e -> alive e ->
  msgs st !! msg = Some m -> recv_queue e = w :: rest -> waits st !! w = Some rw -> plain m ->
  exists st1 q1 e1, ipc_call st ep msg mem = Some (Block (self st + OFF_REPLY_PENDING), st1) /\
    ipc_inv st1 q1 /\ linked (its st) (self st) (w_partner rw) (its st1) /\ eps st1 !! ep = Some e1 /\
    waits st1 !! w = Some (mk_wait ep (w_msg rw) (self st) IPC_OP_CALL IPC_OK) /\
    (exists dm', msgs st1 !! w_msg rw = Some dm' /\ m_tag dm' = m_tag m /\ m_regs dm' = m_regs m) /\
    is_Some (msgs st1 !! msg) /\ processes_kept (threads (sch st)) (threads (sch st1)).
Proof.
  intros HI Hid Hep Hmsg He Ha Hm Hrq Hrw Hpl.
  destruct (send_direct_ok st q ep e w rest msg m IPC_OP_CALL mem) as (rw' & sp & rp & Hrw' & _ & _ & R); try done.
  assert (rw' = rw) as -> by congruence.
  destruct R as [(st' & q' & E & HI' & Ei & Es & RV)|(err & _ & _ & R)]; [|by destruct (plain_not_refused _ _ _ _ Hpl R)].
  destruct RV as [R1 R2 R3 (dm & dm' & Hdm & R4 & RC) _ RL _ _ _]. cbn [Z.eqb IPC_OP_CALL] in RL.
  destruct (thread_its _ _ _ HI (self_thread _ _ HI)) as [x Hx].
  assert (its st' !! self st' = Some (link_fields (self st) (w_partner rw) (self st) x)) as Hx'.
  { by rewrite Es, RL, Hx. }
  destruct (ipc_call_wait_pending st' q' (link_fields (self st) (w_partner rw) (self st) x) HI') as (st1 & q1 & E1 & HI1 & Ei1 & [_ _ K1] & Est1); [congruence|exact Hx'| |].
  { unfold link_fields. simpl. by rewrite bool_decide_true. }
  exists st1, q1, (ep_stats (ep_queues e (send_queue e) rest) (u64 (msgs_sent e + 1)) (msgs_received e)).
  split.
  { unfold ipc_call. rewrite (proj2 (Z.eqb_neq ep 0) Hep), (proj2 (Z.eqb_neq msg 0) Hmsg). cbn [orb].
    rewrite E. cbn [mbind option_bind]. unfold ipc_call_sent. rewrite Z.eqb_refl. cbn [negb].
    rewrite <- Es, E1. reflexivity. }
  split; [done|]. rewrite Est1. cbn [its eps waits msgs sch with_sch]. rewrite R2, R3, R4.
  split; [exact RL|]. split; [apply lookup_insert_eq|]. split; [apply lookup_insert_eq|].
  split; [exists dm'; split; [apply lookup_insert_eq|split; apply RC]|].
  split; [apply lookup_insert_is_Some'; right; by eexists|].
  eapply processes_kept_trans; [|exact K1].
  destruct (waiter_ok st q ep e w HI He) as (rw2 & Hrw2 & _ & Ht & _); [unfold waiters; rewrite Hrq; set_solver|].
  assert (rw2 = rw) as -> by congruence.
  destruct (sched_wakeup_kept (sch st) q _ (ii_sched _ _ HI) Ht) as (s' & q2 & Es2 & _ & _ & _ & K & _).
  by assert (s' = sch st') as -> by congruence.
Qed.

(** A message buffer may be rewritten by its owner. *)
Lemma ipc_inv_message st q a r :
  ipc_inv st q -> msg_ok r -> ipc_inv (with_msgs st (<[a := r]> (msgs st))) q.
Proof.
  intros HI Hr. pose proof HI as [G1 G2 G3 G4 G5 G6].
  eapply (ipc_inv_step st q); [exact HI|exact G1|done|done|exact G3|done|exact G6| | |exact G5].
  - intros b Hb. apply lookup_insert_is_Some'. by right.
  - intros b y. cbn [msgs with_msgs]. destruct (decide (b = a)) as [->|Hna].
    + rewrite lookup_insert_eq. by intros [= <-].
    + rewrite lookup_insert_ne by done. apply G4.
Qed.

(** A reply without slice, as its caller sees it. *)
Lemma plain_reply_ok st q msg r x ic :
  ipc_inv st q -> msg ≠ 0 -> msgs st !! msg = Some r -> plain r -> its st !! self st = Some x ->
  ipc_caller x ≠ 0 -> its st !! ipc_caller x = Some ic ->
  exists st', ipc_reply st msg = Some (IPC_OK, st') /\ msgs st' = msgs st /\
    (exists y, threads (sch st') !! ipc_caller x = Some y /\ t_state y = TASK_RUNNING) /\
    its st' !! ipc_caller x = Some (reply_fields (ipc_caller x) (self st) IPC_OK r (ipc_caller x) ic).
Proof.
  intros HI Hm0 Hm Hpl Hx Hc Hic.
  destruct (ipc_reply_ok st q msg r x HI Hm0 Hm Hx Hc) as (err & st' & q' & E & HI' & _ & _ & A).
  exists st'. split; [exact E|]. destruct (an_rest _ _ _ _ _ A) as (_ & _ & Em & _). split; [done|].
  assert (err = IPC_OK) as ->.
  { destruct (an_frames _ _ _ _ _ A) as (sp & cp & _ & _ & [[? _]|(_ & Rf & _)]); [done|].
    by destruct (plain_not_refused _ _ _ _ Hpl Rf). }
  split; [|by rewrite (an_its _ _ _ _ _ A), Hic].
  destruct (ii_links _ _ HI _ _ Hx) as [Hct _]. specialize (Hct Hc).
  destruct (sched_wakeup_kept (sch st) q _ (ii_sched _ _ HI) Hct) as (s' & q2 & Es & _ & _ & _ & K & Rn & _).
  rewrite (an_sched _ _ _ _ _ A) in Es. injection Es as ->.
  destruct (is_thread_kept _ _ _ K Hct) as [y Hy]. exists y. split; [done|by apply Rn].
Qed.

(** C9.  A remote procedure call returns the server's answer.  Thread C calls an endpoint on which
    thread S waits longest; C blocks.  Whenever S next runs (whatever the scheduler did in
    between), its receive returns success and its message holds C's tag and registers; when S
    then replies with any message, the reply succeeds and C is runnable; and whenever C next
    runs, its call returns success and its message holds S's tag and registers.  (The messages
    name no window slice; those are covered by the specifications of send, receive and reply.) *)
Theorem rpc_roundtrip st q ep e w rest rw msg m mem :
  ipc_inv st q -> self st ≠ idle q -> ep ≠ 0 -> msg ≠ 0 -> eps st !! ep = Some e -> alive e ->
  msgs st !! msg = Some m -> recv_queue e = w :: rest -> waits st !! w = Some rw ->
  w_partner rw ≠ self st -> plain m ->
  exists st1, ipc_call st ep msg mem = Some (Block (self st + OFF_REPLY_PENDING), st1) /\
  forall s2, rescheduled st1 s2 -> current_thread s2 = w_partner rw ->
  exists st3 dm, ipc_wait_resume (with_sch st1 s2) (w_partner rw) ep w = Some (IPC_OK, st3) /\
    msgs st3 !! w_msg rw = Some dm /\ m_tag dm = m_tag m /\ m_regs dm = m_regs m /\
  forall r, msg_ok r -> plain r ->
  exists st5, ipc_reply (with_msgs st3 (<[w_msg rw := r]> (msgs st3))) (w_msg rw) = Some (IPC_OK, st5) /\
    (exists x, threads (sch st5) !! self st = Some x /\ t_state x = TASK_RUNNING) /\
  forall s6, rescheduled st5 s6 -> current_thread s6 = self st ->
  exists st8 reply, ipc_call_sent (with_sch st5 s6) (self st) msg IPC_OK = Some (Ret IPC_OK, st8) /\
    msgs st8 !! msg = Some reply /\ m_tag reply = m_tag r /\ m_regs reply = m_regs r.
Proof.
  intros HI Hid Hep Hmsg He Ha Hm Hrq Hrw Hne Hpl.
  destruct (waiter_ok st q ep e w HI He) as (rw2 & Hrw2 & _ & HtS & [M0 HM]); [unfold waiters; rewrite Hrq; set_solver|].
  assert (rw2 = rw) as -> by congruence. clear Hrw2.
  destruct (call_direct_ok st q ep e w rest rw msg m mem) as
    (st1 & q1 & e1 & E1 & HI1 & L1 & He1 & Hw1 & (dm & Hdm & Et & Er) & Hmsg1 & K1); try done.
  exists st1. split; [done|]. intros s2 R2 C2. destruct (rescheduled_inv _ _ _ HI1 R2) as [q2 HI2].
  assert (is_thread s2 (w_partner rw)) as HS2.
  { eapply is_thread_kept; [apply R2|]. by eapply is_thread_kept. }
  destruct (ipc_wait_resume_ok (with_sch st1 s2) q2 (w_partner rw) ep e1 w _ HI2 HS2 He1 Hw1 eq_refl)
    as (st3 & E3 & HI3 & Ee3 & Ew3 & Es3 & K3 & Ei3 & Em3 & Ep3 & Ef3).
  exists st3, dm. split; [exact E3|]. rewrite Em3. split; [exact Hdm|]. split; [done|]. split; [done|].
  intros r Hr Hplr. set (st4 := with_msgs st3 _).
  destruct (thread_its _ _ _ HI (self_thread _ _ HI)) as [ic Hic].
  destruct (thread_its _ _ _ HI HtS) as [iS HiS].
  assert (ipc_inv st4 q2) as HI4 by (subst st4; rewrite <- Em3; by apply ipc_inv_message).
  assert (self st4 = w_partner rw) as Es4 by (rewrite <- C2; exact Es3).
  assert (its st4 = its st1) as Ei4 by exact Ei3.
  assert (its st4 !! self st4 = Some (link_fields (self st) (w_partner rw) (w_partner rw) iS)) as Hx4.
  { rewrite Es4, Ei4, L1, HiS. done. }
  assert (ipc_caller (link_fields (self st) (w_partner rw) (w_partner rw) iS) = self st) as Ecl.
  { unfold link_fields. simpl. by rewrite bool_decide_true. }
  destruct (plain_reply_ok st4 q2 (w_msg rw) r _ (link_fields (self st) (w_partner rw) (self st) ic) HI4 M0
    (lookup_insert_eq _ _ _) Hplr Hx4) as (st5 & E5 & Em5 & (x5 & Hx5 & Rn) & Hi5).
  { rewrite Ecl. apply (si_current _ _ (ii_sched _ _ HI)). }
  { by rewrite Ecl, Ei4, L1, Hic. }
  rewrite Ecl in Hx5, Hi5. exists st5. split; [exact E5|]. split; [by exists x5|]. intros s6 R6 C6.
  assert (exists mm, msgs (with_sch st5 s6) !! msg = Some mm) as [mm Hmm].
  { cbn [msgs with_sch]. rewrite Em5. cbn [msgs with_msgs st4]. apply lookup_insert_is_Some'. by right. }
  destruct (ipc_call_sent_replied (with_sch st5 s6) (self st) _ msg mm Hi5) as (st8 & E8 & Em8).
  - unfold reply_fields. simpl. by rewrite bool_decide_true.
  - unfold reply_fields. simpl. by rewrite bool_decide_true.
  - eapply is_thread_kept; [apply R6|]. by exists x5.
  - exact Hmm.
  - eexists st8, _. split; [exact E8|]. rewrite Em8. split; [apply lookup_insert_eq|].
    unfold reply_fields. simpl. by rewrite bool_decide_true.
Qed.

(** ** The end of a thread *)

(** The fields of thread [u] after thread [t], with caller [c] and reply server [sv], went away. *)
Definition clean_fields (t c sv u : Z) (y : ithread) : ithread :=
  let at_t := bool_decide (u = t) in
  let at_c := negb (c =? 0) && bool_decide (u = c) in
  mk_it
    (if at_t || (negb (sv =? 0) && bool_decide (u = sv) && (ipc_caller y =? t)) then 0 else ipc_caller y)
    (if at_t || (at_c && (ipc_reply_server y =? t)) then 0 else ipc_reply_server y)
    (if at_t || at_c then 0 else ipc_reply_pending y)
    (if at_c then IPC_ERR_DEAD else ipc_reply_result y) (ipc_reply_tag y) (ipc_reply_regs y).

(** The first half: the caller that waits for [t] is released. *)
Definition clean_caller (t c u : Z) (y : ithread) : ithread :=
  let at_c := bool_decide (u = c) in
  mk_it (if bool_decide (u = t) then 0 else ipc_caller y)
    (if at_c && (ipc_reply_server y =? t) then 0 else ipc_reply_server y)
    (if at_c then 0 else ipc_reply_pending y)
    (if at_c then IPC_ERR_DEAD else ipc_reply_result y) (ipc_reply_tag y) (ipc_reply_regs y).

Lemma release_caller_ok st q t c :
  ipc_inv st q -> is_thread (sch st) t -> is_thread (sch st) c ->
  exists st' q',
    (st ← upd_it st t (fun x => mk_it 0 (ipc_reply_server x) (ipc_reply_pending x)
                                  (ipc_reply_result x) (ipc_reply_tag x) (ipc_reply_regs x));
     st ← upd_it st c (fun c =>
            mk_it (ipc_caller c) (if ipc_reply_server c =? t then 0 else ipc_reply_server c) 0
              IPC_ERR_DEAD (ipc_reply_tag c) (ipc_reply_regs c));
     wakeup st c) = Some st' /\ ipc_inv st' q' /\ self st' = self st /\ idle q' = idle q /\
    processes_kept (threads (sch st)) (threads (sch st')) /\
    (forall x, threads (sch st') !! c = Some x -> t_state x = TASK_RUNNING) /\
    (forall u, its st' !! u = clean_caller t c u <$> its st !! u).
Proof.
  intros HI Ht Hc. pose proof HI as [H1 H2 H3 H4 H5 H6].
  destruct (upd_it_ok st t (fun x => mk_it 0 (ipc_reply_server x) (ipc_reply_pending x) (ipc_reply_result x)
    (ipc_reply_tag x) (ipc_reply_regs x))) as (m1 & -> & L1); [by eapply thread_its|]. cbn [mbind option_bind].
  destruct (upd_it_ok (with_its st m1) c (fun c =>
            mk_it (ipc_caller c) (if ipc_reply_server c =? t then 0 else ipc_reply_server c) 0
              IPC_ERR_DEAD (ipc_reply_tag c) (ipc_reply_regs c))) as (m2 & -> & L2).
  { cbn [its with_its]. rewrite L1. destruct (thread_its _ _ _ HI Hc) as [y ->]. by eexists. }
  cbn [mbind option_bind]. unfold wakeup. cbn [sch with_its].
  destruct (sched_wakeup_kept (sch st) q c H1 Hc) as (s' & q' & -> & HS & Ei & Ec & K & Rn & _).
  cbn [mbind option_bind]. set (st' := with_sch _ s'). exists st', q'. split; [done|].
  assert (forall u, its st' !! u = clean_caller t c u <$> its st !! u) as L.
  { intros u. subst st'. cbn [its with_sch with_its]. rewrite L2. cbn [its with_its]. rewrite L1.
    destruct (its st !! u) as [z|]; [|done]. cbn [fmap option_fmap option_map]. unfold clean_caller.
    repeat case_bool_decide; by destruct z. }
  split; [|by repeat split].
  eapply (ipc_inv_step st q); [exact HI|exact HS|exact K|reflexivity|exact H3| | |done|exact H4|exact H5].
  - intros u [z Hz]. rewrite L, Hz. by eexists.
  - intros u z. rewrite L. destruct (its st !! u) as [y|] eqn:Ey; [|done]. intros [= <-].
    destruct (H6 u y Ey) as [G1 G2]. unfold clean_caller. simpl. split; [by case_bool_decide|].
    by destruct (bool_decide (u = c) && (ipc_reply_server y =? t)).
Qed.

(** The second half: [t] is forgotten by the server [sv] it waits for. *)
Definition clean_server (t sv u : Z) (y : ithread) : ithread :=
  mk_it (if bool_decide (u = sv) && (ipc_caller y =? t) then 0 else ipc_caller y)
    (if bool_decide (u = t) then 0 else ipc_reply_server y) (ipc_reply_pending y)
    (ipc_reply_result y) (ipc_reply_tag y) (ipc_reply_regs y).

Lemma leave_server_ok st t sv :
  is_Some (its st !! t) -> is_Some (its st !! sv) ->
  exists m,
    (st ← upd_it st t (fun x => mk_it (ipc_caller x) 0 (ipc_reply_pending x)
                                  (ipc_reply_result x) (ipc_reply_tag x) (ipc_reply_regs x));
     upd_it st sv (fun s =>
       mk_it (if ipc_caller s =? t then 0 else ipc_caller s) (ipc_reply_server s)
         (ipc_reply_pending s) (ipc_reply_result s) (ipc_reply_tag s) (ipc_reply_regs s))) =
      Some (with_its st m) /\ forall u, m !! u = clean_server t sv u <$> its st !! u.
Proof.
  intros Ht [y Hy]. destruct (upd_it_ok st t (fun x => mk_it (ipc_caller x) 0 (ipc_reply_pending x)
    (ipc_reply_result x) (ipc_reply_tag x) (ipc_reply_regs x)) Ht) as (m1 & -> & L).
  cbn [mbind option_bind].
  destruct (upd_it_ok (with_its st m1) sv (fun s =>
    mk_it (if ipc_caller s =? t then 0 else ipc_caller s) (ipc_reply_server s)
      (ipc_reply_pending s) (ipc_reply_result s) (ipc_reply_tag s) (ipc_reply_regs s))) as (m2 & -> & L').
  { cbn [its with_its]. rewrite L, Hy. by eexists. }
  exists m2. split; [done|]. intros u. rewrite L'. cbn [its with_its]. rewrite L.
  destruct (its st !! u) as [z|]; [|done]. cbn [fmap option_fmap option_map]. unfold clean_server.
  repeat case_bool_decide; by destruct z.
Qed.

(** The two halves and the final clearing of [ipc_reply_pending], together. *)
Lemma clean_fields_eq t c sv sv1 u (x y y1 : ithread) :
  t ≠ 0 -> c = ipc_caller x -> sv = ipc_reply_server x ->
  sv1 = ipc_reply_server ((if c =? 0 then fun y => y else clean_caller t c t) x) ->
  y1 = (if c =? 0 then fun y => y else clean_caller t c u) y -> (u = t -> y = x) ->
  let y2 := (if sv1 =? 0 then fun y => y else clean_server t sv1 u) y1 in
  (if bool_decide (u = t) then mk_it (ipc_caller y2) (ipc_reply_server y2) 0 (ipc_reply_result y2)
     (ipc_reply_tag y2) (ipc_reply_regs y2) else y2) = clean_fields t c sv u y.
Proof.
  intros Ht Ec Esv E1 Ey Hu. subst sv1 y1. cbv zeta. unfold clean_fields, clean_caller, clean_server.
  destruct (decide (u = t)) as [Eu|Eu].
  - rewrite (Hu Eu). subst u c sv. rewrite !(bool_decide_true (t = t)) by done. cbn [orb].
    repeat (case_match; simpl; cbn [andb orb negb] in * ); simpl in *; repeat case_bool_decide; simplify_eq;
      try done; f_equal; lia.
  - rewrite !(bool_decide_false (u = t)) by done. cbn [orb].
    repeat (case_match; simpl; cbn [andb orb negb] in * ); simpl in *; repeat case_bool_decide; simplify_eq;
      try done; destruct y; f_equal; lia.
Qed.

Lemma links_ok_clean s m t c sv m' :
  links_ok s m -> (forall u, m' !! u = clean_fields t c sv u <$> m !! u) -> links_ok s m'.
Proof.
  intros H L u z. rewrite L. destruct (m !! u) as [y|] eqn:Ey; [|done]. intros [= <-].
  destruct (H u y Ey) as [G1 G2]. unfold clean_fields. simpl. split; by case_match.
Qed.

Lemma ipc_thread_cleanup_ok st q t x :
  ipc_inv st q -> t ≠ 0 -> is_thread (sch st) t -> its st !! t = Some x ->
  exists st' q', ipc_thread_cleanup st t = Some st' /\ ipc_inv st' q' /\ self st' = self st /\
    processes_kept (threads (sch st)) (threads (sch st')) /\
    (ipc_caller x ≠ 0 -> forall y, threads (sch st') !! ipc_caller x = Some y -> t_state y = TASK_RUNNING) /\
    (forall u, its st' !! u = clean_fields t (ipc_caller x) (ipc_reply_server x) u <$> its st !! u).
Proof.
  intros HI Ht0 Ht Hx. unfold ipc_thread_cleanup. rewrite (proj2 (Z.eqb_neq t 0) Ht0), Hx.
  cbn [mbind option_bind].
  assert (exists st1 q1, (if negb (ipc_caller x =? 0) then
     st ← upd_it st t (fun x => mk_it 0 (ipc_reply_server x) (ipc_reply_pending x)
                                  (ipc_reply_result x) (ipc_reply_tag x) (ipc_reply_regs x));
     st ← upd_it st (ipc_caller x) (fun c =>
            mk_it (ipc_caller c) (if ipc_reply_server c =? t then 0 else ipc_reply_server c) 0
              IPC_ERR_DEAD (ipc_reply_tag c) (ipc_reply_regs c));
     wakeup st (ipc_caller x) else Some st) = Some st1 /\ ipc_inv st1 q1 /\ self st1 = self st /\
     processes_kept (threads (sch st)) (threads (sch st1)) /\
     (ipc_caller x ≠ 0 -> forall y, threads (sch st1) !! ipc_caller x = Some y -> t_state y = TASK_RUNNING) /\
     forall u, its st1 !! u = (if ipc_caller x =? 0 then fun y => y else clean_caller t (ipc_caller x) u) <$> its st !! u)
    as (st1 & q1 & -> & HI1 & Es1 & K1 & Rn1 & L1).
  { destruct (Z.eqb_spec (ipc_caller x) 0) as [E0|E0]; cbn [negb].
    - exists st, q. split; [done|]. split; [done|]. split; [done|]. split; [done|]. split; [done|].
      intros u. by destruct (its st !! u).
    - destruct (ii_links _ _ HI _ _ Hx) as [Hc _]. specialize (Hc E0).
      destruct (release_caller_ok st q t (ipc_caller x) HI Ht Hc) as (st1 & q1 & -> & HI1 & Es1 & _ & K & Rn & L).
      exists st1, q1. split; [done|]. split; [done|]. split; [done|]. split; [done|]. by split. }
  cbn [mbind option_bind].
  assert (exists x1, its st1 !! t = Some x1 /\ x1 = (if ipc_caller x =? 0 then fun y => y else clean_caller t (ipc_caller x) t) x)
    as (x1 & Hx1 & Ex1) by (rewrite L1, Hx; by eexists).
  rewrite Hx1. cbn [mbind option_bind].
  assert (exists m2, (if negb (ipc_reply_server x1 =? 0) then
          st ← upd_it st1 t (fun x => mk_it (ipc_caller x) 0 (ipc_reply_pending x)
                                       (ipc_reply_result x) (ipc_reply_tag x) (ipc_reply_regs x));
          upd_it st (ipc_reply_server x1) (fun s =>
            mk_it (if ipc_caller s =? t then 0 else ipc_caller s) (ipc_reply_server s)
              (ipc_reply_pending s) (ipc_reply_result s) (ipc_reply_tag s) (ipc_reply_regs s))
        else Some st1) = Some (with_its st1 m2) /\
     forall u, m2 !! u = (if ipc_reply_server x1 =? 0 then fun y => y
                          else clean_server t (ipc_reply_server x1) u) <$> its st1 !! u)
    as (m2 & -> & L2).
  { destruct (Z.eqb_spec (ipc_reply_server x1) 0) as [E0|E0]; cbn [negb].
    - exists (its st1). rewrite with_its_id. split; [done|]. intros u. by destruct (its st1 !! u).
    - destruct (ii_links _ _ HI1 _ _ Hx1) as [_ Hs]. apply leave_server_ok; [by eexists|].
      exact (thread_its _ _ _ HI1 (Hs E0)). }
  cbn [mbind option_bind].
  destruct (upd_it_ok (with_its st1 m2) t (fun x => mk_it (ipc_caller x) (ipc_reply_server x) 0
    (ipc_reply_result x) (ipc_reply_tag x) (ipc_reply_regs x))) as (m3 & -> & L3).
  { cbn [its with_its]. rewrite L2, Hx1. by eexists. }
  assert (forall u, m3 !! u = clean_fields t (ipc_caller x) (ipc_reply_server x) u <$> its st !! u) as L.
  { intros u. rewrite L3. cbn [its with_its]. rewrite L2, L1.
    destruct (its st !! u) as [y|] eqn:Ey; [|done]. cbn [fmap option_fmap option_map]. f_equal.
    rewrite <- (clean_fields_eq t _ _ (ipc_reply_server x1) u x y _ Ht0 eq_refl eq_refl
      (f_equal ipc_reply_server Ex1) eq_refl); [by case_bool_decide|]. intros ->. congruence. }
  eexists _, q1. split; [done|]. split; [|by split].
  pose proof HI1 as [H1 H2 H3 H4 H5 H6].
  eapply (ipc_inv_step st1 q1); [exact HI1|exact H1|done|done|exact H3| | |done|exact H4|exact H5].
  - intros u Hu. cbn [its with_its]. rewrite L3. cbn [its with_its]. rewrite L2. destruct Hu as [z ->]. by eexists.
  - eapply links_ok_kept; [exact K1|]. exact (links_ok_clean _ _ _ _ _ _ (ii_links _ _ HI) L).
Qed.

(** Calls in progress: a server's caller waits for that server's reply, and a thread that waits for
    a reply is the caller of its server. *)
Definition calls_ok (m : gmap Z ithread) : Prop :=
  m !! 0 = None /\
  (forall s x, m !! s = Some x -> ipc_caller x ≠ 0 ->
     exists y, m !! ipc_caller x = Some y /\ ipc_reply_server y = s /\ ipc_reply_pending y ≠ 0) /\
  (forall c y, m !! c = Some y -> ipc_reply_pending y ≠ 0 ->
     exists x, m !! ipc_reply_server y = Some x /\ ipc_caller x = c).

(** Away from [t], the only fields that change are those that name it. *)
Lemma clean_fields_away t c sv u y :
  u ≠ t -> (ipc_caller y = t -> u = sv /\ sv ≠ 0) ->
  ipc_caller (clean_fields t c sv u y) = (if decide (ipc_caller y = t) then 0 else ipc_caller y) /\
  (ipc_reply_server y ≠ t -> ipc_reply_server (clean_fields t c sv u y) = ipc_reply_server y) /\
  (c = 0 \/ u ≠ c -> ipc_reply_pending (clean_fields t c sv u y) = ipc_reply_pending y) /\
  (ipc_reply_pending (clean_fields t c sv u y) ≠ 0 -> ipc_reply_pending y ≠ 0 /\ (c = 0 \/ u ≠ c)).
Proof.
  intros Hu Hc. unfold clean_fields. rewrite !(bool_decide_false (u = t)) by done. cbn [orb ipc_caller
    ipc_reply_server ipc_reply_pending]. repeat split.
  - destruct (decide (ipc_caller y = t)) as [E|E].
    + destruct (Hc E) as [-> Hn]. by rewrite (proj2 (Z.eqb_neq sv 0) Hn), bool_decide_true, E, Z.eqb_refl.
    + by rewrite (proj2 (Z.eqb_neq _ t) E), andb_false_r.
  - intros H. by rewrite (proj2 (Z.eqb_neq _ t) H), andb_false_r.
  - intros [->|H]; [done|]. by rewrite bool_decide_false, andb_false_r.
  - by destruct (negb (c =? 0) && bool_decide (u = c)).
  - destruct (Z.eqb_spec c 0); [by left|]. case_bool_decide; [done|]. by right.
Qed.

(** The thread [t] of the map [m] went away, leaving [m']. *)
Definition cleaned (m : gmap Z ithread) (t : Z) (x : ithread) (m' : gmap Z ithread) : Prop :=
  forall u, m' !! u = clean_fields t (ipc_caller x) (ipc_reply_server x) u <$> m !! u.

Lemma cleaned_severed m t x m' u y' :
  calls_ok m -> m !! t = Some x -> cleaned m t x m' -> m' !! u = Some y' ->
  ipc_caller y' ≠ t /\ (ipc_reply_pending y' ≠ 0 -> ipc_reply_server y' ≠ t) /\
  (u = t -> ipc_caller y' = 0 /\ ipc_reply_server y' = 0 /\ ipc_reply_pending y' = 0) /\
  (u ≠ t -> exists y, m !! u = Some y /\ y' = clean_fields t (ipc_caller x) (ipc_reply_server x) u y /\
     (ipc_caller y = t -> u = ipc_reply_server x /\ ipc_reply_server x ≠ 0)).
Proof.
  intros (C0 & CA & CB) Hx L Hu. rewrite L in Hu. destruct (m !! u) as [y|] eqn:Ey; [|done].
  injection Hu as <-. assert (t ≠ 0) as Ht0 by (intros ->; congruence).
  destruct (decide (u = t)) as [->|Hne].
  { unfold clean_fields. rewrite !(bool_decide_true (t = t)) by done. simpl. by repeat split. }
  assert (ipc_caller y = t -> u = ipc_reply_server x /\ ipc_reply_server x ≠ 0) as Hcl.
  { intros E. destruct (CA u y Ey) as (z & Hz & Es & _); [congruence|]. rewrite E in Hz.
    assert (z = x) as -> by congruence. split; [done|]. intros E0. congruence. }
  destruct (clean_fields_away t (ipc_caller x) (ipc_reply_server x) u y Hne Hcl) as (F1 & F2 & F3 & F4).
  split; [rewrite F1; by case_decide|]. split; [|split; [done|by exists y]].
  intros [Hp Hor]%F4. assert (ipc_reply_server y ≠ t) as Hs; [|by rewrite F2].
  intros E. destruct (CB u y Ey Hp) as (z & Hz & Ez). rewrite E in Hz.
  assert (z = x) as -> by congruence. destruct Hor; [|done]. congruence.
Qed.

Lemma cleaned_calls_ok m t x m' :
  calls_ok m -> m !! t = Some x -> cleaned m t x m' -> calls_ok m'.
Proof.
  intros HC Hx L. pose proof HC as (C0 & CA & CB). split; [by rewrite L, C0|].
  assert (forall u y, m !! u = Some y -> m' !! u = Some (clean_fields t (ipc_caller x) (ipc_reply_server x) u y)) as F.
  { intros u y Hu. by rewrite L, Hu. }
  split.
  - intros s y' Hs Hn. destruct (cleaned_severed m t x m' s y' HC Hx L Hs) as (S1 & _ & S3 & S4).
    assert (s ≠ t) as Hst by (intros E; by destruct (S3 E)). destruct (S4 Hst) as (y & Hy & -> & Hcl).
    destruct (clean_fields_away t (ipc_caller x) (ipc_reply_server x) s y Hst Hcl) as (F1 & _).
    rewrite F1 in *. destruct (decide (ipc_caller y = t)) as [E|Hyt]; [done|].
    destruct (CA s y Hy Hn) as (z & Hz & Ez & Pz). eexists. split; [by apply F|].
    destruct (cleaned_severed m t x m' _ _ HC Hx L (F _ _ Hz)) as (_ & _ & _ & S4').
    destruct (S4' Hyt) as (z' & Hz' & _ & Hcl'). assert (z' = z) as -> by congruence.
    destruct (clean_fields_away t (ipc_caller x) (ipc_reply_server x) (ipc_caller y) z Hyt Hcl') as (_ & G2 & G3 & _).
    rewrite G2 by congruence. split; [done|]. rewrite G3; [done|].
    destruct (decide (ipc_caller x = 0)) as [|Hc0]; [by left|]. right. intros E.
    destruct (CA t x Hx Hc0) as (z2 & Hz2 & Ez2 & _). congruence.
  - intros c y' Hc Hp. destruct (cleaned_severed m t x m' c y' HC Hx L Hc) as (_ & S2 & S3 & S4).
    assert (c ≠ t) as Hct by (intros E; destruct (S3 E) as (_ & _ & E0); done).
    destruct (S4 Hct) as (y & Hy & -> & Hcl). specialize (S2 Hp).
    destruct (clean_fields_away t (ipc_caller x) (ipc_reply_server x) c y Hct Hcl) as (_ & F2 & _ & F4).
    destruct (F4 Hp) as [Hpy Hor]. destruct (CB c y Hy Hpy) as (z & Hz & Ez).
    assert (ipc_reply_server y ≠ t) as Hsy.
    { intros E. rewrite E in Hz. assert (z = x) as -> by congruence. destruct Hor; [|done].
      destruct (m !! 0) eqn:E0; congruence. }
    rewrite F2 by done. eexists. split; [by apply F|].
    destruct (cleaned_severed m t x m' _ _ HC Hx L (F _ _ Hz)) as (_ & _ & _ & S4').
    destruct (S4' Hsy) as (z' & Hz' & _ & Hcl'). assert (z' = z) as -> by congruence.
    destruct (clean_fields_away t (ipc_caller x) (ipc_reply_server x) (ipc_reply_server y) z Hsy Hcl') as (G1 & _).
    rewrite G1. by rewrite decide_False by congruence.
Qed.

(** What the end of the thread [t], whose fields were [x], does to the links between threads: its own
    fields are clear; the thread recorded as its caller is released; the server it waits for does not
    name it any more; and every other thread is as it was. *)
Record calls_ended (st : ipc) (t : Z) (x : ithread) (st' : ipc) : Prop := {
  ce_self : exists y, its st' !! t = Some y /\ ipc_caller y = 0 /\ ipc_reply_server y = 0 /\ ipc_reply_pending y = 0;
  ce_caller : ipc_caller x ≠ 0 -> exists y z, its st' !! ipc_caller x = Some y /\ ipc_reply_pending y = 0 /\
    ipc_reply_result y = IPC_ERR_DEAD /\ ipc_reply_server y ≠ t /\ threads (sch st') !! ipc_caller x = Some z /\
    t_state z = TASK_RUNNING;
  ce_server : ipc_reply_server x ≠ 0 -> ipc_reply_server x ≠ t -> exists y y', its st !! ipc_reply_server x = Some y /\
    its st' !! ipc_reply_server x = Some y' /\ ipc_caller y' = (if ipc_caller y =? t then 0 else ipc_caller y);
  ce_other : forall u, u ≠ t -> u ≠ ipc_caller x -> u ≠ ipc_reply_server x -> its st' !! u = its st !! u
}.

Lemma cleaned_ended st q t x st' q' :
  ipc_inv st q -> ipc_inv st' q' -> t ≠ 0 -> its st !! t = Some x -> processes_kept (threads (sch st)) (threads (sch st')) ->
  (ipc_caller x ≠ 0 -> forall y, threads (sch st') !! ipc_caller x = Some y -> t_state y = TASK_RUNNING) ->
  cleaned (its st) t x (its st') -> calls_ended st t x st'.
Proof.
  intros HI HI' Ht0 Hx K Rn L. destruct (ii_links _ _ HI t x Hx) as [Hct Hst]. split.
  - eexists. split; [by rewrite L, Hx|]. unfold clean_fields. simpl. by rewrite !(bool_decide_true (t = t)).
  - intros Hc. destruct (thread_its _ _ _ HI (Hct Hc)) as [y Hy]. destruct (is_thread_kept _ _ _ K (Hct Hc)) as [z Hz].
    eexists _, z. split; [by rewrite L, Hy|]. unfold clean_fields. simpl.
    rewrite (proj2 (Z.eqb_neq _ 0) Hc), (bool_decide_true (_ = ipc_caller x)) by done. rewrite orb_true_r.
    split; [done|]. split; [done|]. split; [|split; [done|by apply Rn]].
    destruct (Z.eqb_spec (ipc_reply_server y) t); cbn [andb negb]; [rewrite orb_true_r; congruence|by case_match].
  - intros Hs Hne. destruct (thread_its _ _ _ HI (Hst Hs)) as [y Hy]. eexists y, _. split; [done|].
    split; [by rewrite L, Hy|]. unfold clean_fields. simpl.
    by rewrite (bool_decide_false (_ = t)), (bool_decide_true (_ = ipc_reply_server x)), (proj2 (Z.eqb_neq _ 0) Hs).
  - intros u Ht Hc Hs. rewrite L. destruct (its st !! u) as [y|]; [|done]. cbn [fmap option_fmap option_map]. unfold clean_fields.
    rewrite !(bool_decide_false (u = _)) by done. rewrite !andb_false_r. by destruct y.
Qed.

(** C23.  The end of a thread breaks its calls on both sides.  [ipc_thread_cleanup] never fails and keeps
    the invariant of the IPC system; the thread's own call fields are clear; the thread recorded as its
    caller, if there is one, is runnable, waits for no reply and sees IPC_ERR_DEAD; the server whose reply
    it waits for no longer names it as its caller; and the fields of every other thread are as they were.
    When every call in progress is recorded on both sides ([calls_ok]), that leaves no reference to the
    thread anywhere - no server has it as its caller, nobody waits for its reply - and the calls that
    remain are still recorded on both sides.  (A server that receives a second call before it answers the
    first records only the second caller, and then the first is not released: see
    [nested_call_strands_caller].) *)
Theorem ipc_thread_cleanup_spec st q t x :
  ipc_inv st q -> is_thread (sch st) t -> its st !! t = Some x ->
  exists st' q', ipc_thread_cleanup st t = Some st' /\ ipc_inv st' q' /\ calls_ended st t x st' /\
    (calls_ok (its st) -> calls_ok (its st') /\
       forall u y, its st' !! u = Some y -> ipc_caller y ≠ t /\ (ipc_reply_pending y ≠ 0 -> ipc_reply_server y ≠ t)).
Proof.
  intros HI Ht Hx. assert (t ≠ 0) as Ht0.
  { intros ->. destruct Ht as [th Hth]. pose proof (proj1 (si_threads _ _ (ii_sched _ _ HI))). congruence. }
  destruct (ipc_thread_cleanup_ok st q t x HI Ht0 Ht Hx) as (st' & q' & E & HI' & _ & K & Rn & L).
  exists st', q'. split; [done|]. split; [done|]. split; [by eapply cleaned_ended|].
  intros HC. split; [by eapply cleaned_calls_ok|]. intros u y Hu.
  by destruct (cleaned_severed (its st) t x (its st') u y HC Hx L Hu) as (S1 & S2 & _).
Qed.

(** ** A second call to a server that has not replied *)

(** Nothing concerns a thread that is neither. *)
Lemma clean_fields_other t u y : u ≠ t -> clean_fields t 0 0 u y = y.
Proof.
  intros Hu. unfold clean_fields. rewrite !(bool_decide_false (u = t)) by done. simpl. by destruct y.
Qed.

(** What a server does for its caller and when it ends leaves another thread [u] as it was. *)
Lemma answer_leaves_other st q msg r x u y :
  ipc_inv st q -> msg ≠ 0 -> msgs st !! msg = Some r -> its st !! self st = Some x ->
  ipc_caller x ≠ 0 -> ipc_reply_server x = 0 -> its st !! u = Some y -> u ≠ self st -> u ≠ ipc_caller x ->
  ipc_caller x ≠ self st ->
  exists st2 st3, ipc_reply st msg = Some (IPC_OK, st2) /\ its st2 !! u = Some y /\
    ipc_reply st2 msg = Some (IPC_ERR_INVALID, st2) /\
    ipc_thread_cleanup st2 (self st) = Some st3 /\ its st3 !! u = Some y.
Proof.
  intros HI Hmsg Hm Hx Hc Hsv Hy Hus Huc Hcs.
  destruct (ipc_reply_ok st q msg r x HI Hmsg Hm Hx Hc) as (err & st2 & q2 & E2 & HI2 & _ & Es2 & A).
  assert (its st2 !! u = Some y) as Hy2.
  { rewrite (an_its _ _ _ _ _ A), Hy. unfold reply_fields. simpl. rewrite !bool_decide_false by done. by destruct y. }
  set (x2 := reply_fields (ipc_caller x) (self st) err r (self st) x).
  assert (its st2 !! self st = Some x2) as Hx2 by (by rewrite (an_its _ _ _ _ _ A), Hx).
  assert (ipc_caller x2 = 0) as Ec2 by (unfold x2, reply_fields; simpl; by rewrite bool_decide_true).
  assert (ipc_reply_server x2 = 0) as Ev2 by (exact Hsv).
  pose proof (self_thread _ _ HI2) as Hself. rewrite Es2 in Hself.
  destruct (ipc_thread_cleanup_ok st2 q2 (self st) x2 HI2) as (st3 & q3 & E3 & _ & _ & _ & _ & L3); [|done|done|].
  { apply (si_current _ _ (ii_sched _ _ HI)). }
  exists st2, st3. split; [done|]. split; [done|]. split; [|split; [done|]].
  - unfold ipc_reply. rewrite (proj2 (Z.eqb_neq msg 0) Hmsg), Es2, Hx2. cbn [mbind option_bind].
    by rewrite Ec2.
  - rewrite L3, Hy2, Ec2, Ev2. cbn [fmap option_fmap option_map]. by rewrite clean_fields_other.
Qed.

(** Nothing keeps a server from receiving a second call before it has answered the first, and
    then the first caller waits for ever: the second call takes the place of the first in the
    server's [ipc_caller]; the server's reply goes to the second caller, its next reply is
    refused with IPC_ERR_INVALID, and not even the end of the server releases the first caller,
    whose reply stays pending throughout.  The comment of [ipc_call] says that a server that has
    not yet replied cannot accept another call. *)
Theorem nested_call_strands_caller st q ep e w rest sw msg m0 m mem x y r :
  ipc_inv st q -> ep ≠ 0 -> msg ≠ 0 -> eps st !! ep = Some e -> alive e -> send_queue e = w :: rest ->
  waits st !! w = Some sw -> w_operation sw = IPC_OP_CALL -> msgs st !! w_msg sw = Some m -> plain m ->
  msgs st !! msg = Some m0 -> its st !! self st = Some x -> ipc_reply_server x = 0 ->
  its st !! ipc_caller x = Some y -> ipc_reply_pending y ≠ 0 -> ipc_caller x ≠ self st ->
  ipc_caller x ≠ w_partner sw -> w_partner sw ≠ self st -> msg_ok r ->
  exists st1 st2 st3, ipc_recv st ep msg mem = Some (Ret IPC_OK, st1) /\
    its st1 !! ipc_caller x = Some y /\
    ipc_reply (with_msgs st1 (<[msg := r]> (msgs st1))) msg = Some (IPC_OK, st2) /\
    its st2 !! ipc_caller x = Some y /\ ipc_reply st2 msg = Some (IPC_ERR_INVALID, st2) /\
    ipc_thread_cleanup st2 (self st) = Some st3 /\ its st3 !! ipc_caller x = Some y.
Proof.
  intros HI Hep Hmsg He Ha Hsq Hsw Hop Hm Hpl Hm0 Hx Hsv Hy Hpend Hcs Hcw Hws Hr.
  destruct (recv_direct_ok st q ep e w rest msg m0 mem) as (sw' & sp & rp & m' & Hsw' & _ & _ & Hm' & R); try done.
  assert (sw' = sw) as -> by congruence. assert (m' = m) as -> by congruence.
  destruct R as [(st1 & q1 & E1 & HI1 & _ & Es1 & RV)|(err & _ & _ & _ & _ & R & _)];
    [|by destruct (plain_not_refused _ _ _ _ Hpl R)].
  assert (linked (its st) (w_partner sw) (self st) (its st1)) as L1.
  { pose proof (rv_its _ _ _ _ _ _ _ _ _ _ _ _ _ RV) as L. by rewrite Hop in L. }
  set (x1 := link_fields (w_partner sw) (self st) (self st) x).
  assert (its st1 !! self st1 = Some x1) as Hx1 by (by rewrite Es1, L1, Hx).
  assert (ipc_caller x1 = w_partner sw) as Ec1 by (unfold x1, link_fields; simpl; by rewrite bool_decide_true).
  assert (ipc_reply_server x1 = 0) as Ev1 by (unfold x1, link_fields; simpl; by rewrite bool_decide_false).
  assert (its st1 !! ipc_caller x = Some y) as Hy1.
  { rewrite L1, Hy. unfold link_fields. simpl. rewrite !bool_decide_false by done. by destruct y. }
  assert (w_partner sw ≠ 0) as Hc10.
  { intros E0. destruct (waiter_ok st q ep e w HI He) as (z & Hz & _ & [th Hth] & _);
      [unfold waiters; rewrite Hsq; set_solver|]. assert (z = sw) as -> by congruence. rewrite E0 in Hth.
    pose proof (proj1 (si_threads _ _ (ii_sched _ _ HI))). congruence. }
  destruct (answer_leaves_other (with_msgs st1 (<[msg := r]> (msgs st1))) q1 msg r x1 (ipc_caller x) y)
    as (st2 & st3 & E2 & Y2 & E2' & E3 & Y3).
  - by apply ipc_inv_message.
  - done.
  - apply lookup_insert_eq.
  - exact Hx1.
  - by rewrite Ec1.
  - exact Ev1.
  - exact Hy1.
  - change (ipc_caller x ≠ self st1). by rewrite Es1.
  - by rewrite Ec1.
  - change (ipc_caller x1 ≠ self st1). by rewrite Ec1, Es1.
  - exists st1, st2, st3. change (self (with_msgs st1 (<[msg := r]> (msgs st1)))) with (self st1) in E3.
    rewrite Es1 in E3. by repeat split.
Qed.

(** ** Witnesses: the threads of Sched.v, with an endpoint at 10 owned by process 2 and two messages;
    thread 500 waits on the endpoint with the record at 20 *)

Definition ex_it (caller server pending : Z) : ithread := mk_it caller server pending IPC_ERR_DEAD 0 [].
Definition ex_idle_it : ithread := ex_it 0 0 0.
Definition ex_page : list Z := replicate 4096 7.
Definition ex_msg (tag : Z) : ipc_message := mk_msg tag [1; 2; 3; 4; 5; 6; 7; 8] None 0 0.
Definition ex_ep (sq rq : list Z) : ipc_endpoint := mk_ep 3 EP_FLAG_LISTED sq rq 2 2 0 0 0.
Definition ex_wait (op : Z) : ipc_wait := mk_wait 10 31 500 op IPC_ERR_NOPARTNER.

Definition ex_state (i2 i3 i5 : ithread) (e : ipc_endpoint) (op : Z) : ipc :=
  mk_ipc ex_sched {[ 100 := ex_idle_it; 200 := i2; 300 := i3; 400 := ex_idle_it; 500 := i5 ]} {[ 10 := e ]}
    {[ 20 := ex_wait op ]} {[ 30 := ex_msg 5; 31 := ex_msg 6 ]}
    {[ 1 := mk_ip [] 4096; 2 := mk_ip [10] 8192 ]} {[ 4096 := ex_page; 8192 := ex_page ]} [10] 16 0 0.

Ltac map_cases H :=
  repeat (apply lookup_insert_Some in H as [[<- <-]|[_ H]]);
  try (apply lookup_singleton_Some in H as [<- <-]); try (by rewrite lookup_empty in H).

Lemma ex_threads_ok i2 i3 i5 e op t x :
  threads (sch (ex_state i2 i3 i5 e op)) !! t = Some x ->
  is_Some (its (ex_state i2 i3 i5 e op) !! t) /\ proc_ok (ex_state i2 i3 i5 e op) (t_process x).
Proof.
  intros Hx. assert (map_Forall (fun t x => (t = 100 \/ t = 200 \/ t = 300 \/ t = 400 \/ t = 500) /\
    (t_process x = 0 \/ t_process x = 1 \/ t_process x = 2)) (threads ex_sched)) as H.
  { apply (bool_decide_unpack _). by vm_compute. }
  destruct (H t x Hx) as [[->|[->|[->|[->| ->]]]] Hp]; (split; [by eexists|]);
    intros Hn; destruct Hp as [?|[->| ->]]; (done || by eexists).
Qed.

Lemma ex_is_thread t : t = 100 \/ t = 200 \/ t = 300 \/ t = 400 \/ t = 500 -> is_thread ex_sched t.
Proof. intros [->|[->|[->|[->| ->]]]]; eexists; vm_compute; reflexivity. Qed.

Definition ex_link_ok (x : ithread) : Prop :=
  (ipc_caller x = 0 \/ ipc_caller x = 200 \/ ipc_caller x = 300 \/ ipc_caller x = 500) /\
  (ipc_reply_server x = 0 \/ ipc_reply_server x = 200 \/ ipc_reply_server x = 500).

Lemma ex_state_inv i2 i3 i5 e op :
  ex_link_ok i2 -> ex_link_ok i3 -> ex_link_ok i5 -> (waiters e = [20] \/ waiters e = []) ->
  ipc_inv (ex_state i2 i3 i5 e op) ex_rq.
Proof.
  intros H2 H3 H5 Hq. split.
  - exact (proj1 ex_sched_inv).
  - intros t x. apply ex_threads_ok.
  - intros p x Hx _. cbn [iprocs ex_state] in Hx. map_cases Hx; exists ex_page; by split.
  - intros a m Hm. cbn [msgs ex_state] in Hm. map_cases Hm; by split.
  - intros ep e0 He. cbn [eps ex_state] in He. map_cases He. destruct Hq as [-> | ->]; split.
    + apply NoDup_singleton.
    + intros w ->%list_elem_of_singleton. exists (ex_wait op). split; [done|]. split; [done|]. split.
      * apply ex_is_thread. auto.
      * split; [done|]. by eexists.
    + constructor.
    + intros w Hw. by apply not_elem_of_nil in Hw.
  - assert (forall x, ex_link_ok x -> (ipc_caller x ≠ 0 -> is_thread ex_sched (ipc_caller x)) /\
      (ipc_reply_server x ≠ 0 -> is_thread ex_sched (ipc_reply_server x))) as HL.
    { intros x [Hc Hs]. split; intros Hn; apply ex_is_thread; lia. }
    intros t x Hx. cbn [its ex_state] in Hx. cbn [sch ex_state].
    map_cases Hx; apply HL; (done || split; by left).
Qed.

Definition ex_waiting : ipc := ex_state ex_idle_it ex_idle_it ex_idle_it (ex_ep [] [20]) IPC_OP_RECV.

Lemma ex_waiting_inv : ipc_inv ex_waiting ex_rq.
Proof. apply ex_state_inv; [split; by left..|by left]. Qed.

Lemma ex_self : self ex_waiting = 200 /\ idle ex_rq = 100.
Proof. by vm_compute. Qed.

Lemma ipc_send_spec_witness :
  exists rw sp rp, waits ex_waiting !! 20 = Some rw /\ process_of ex_waiting (self ex_waiting) = Some sp /\
      process_of ex_waiting (w_partner rw) = Some rp /\
      ((exists st' q', ipc_send_op ex_waiting 10 30 IPC_OP_SEND 40 = Some (Ret IPC_OK, st') /\ ipc_inv st' q' /\
          idle q' = idle ex_rq /\ self st' = self ex_waiting /\
          rendezvous ex_waiting st' (self ex_waiting) (w_partner rw) (w_partner rw) 10
            (ep_stats (ep_queues (ex_ep [] [20]) (send_queue (ex_ep [] [20])) [])
               (u64 (msgs_sent (ex_ep [] [20]) + 1)) (msgs_received (ex_ep [] [20])))
            20 (mk_wait 10 (w_msg rw) (self ex_waiting) IPC_OP_SEND IPC_OK) (ex_msg 5) (w_msg rw)
            (IPC_OP_SEND =? IPC_OP_CALL) (u64 (ipc_fast_path_count ex_waiting + 1))) \/
       (exists err, ipc_send_op ex_waiting 10 30 IPC_OP_SEND 40 = Some (Ret err, ex_waiting) /\ err ≠ IPC_OK /\
          slice_refused ex_waiting sp rp (ex_msg 5))).
Proof.
  refine (ipc_send_spec ex_waiting ex_rq 10 (ex_ep [] [20]) 30 (ex_msg 5) IPC_OP_SEND 40 ex_waiting_inv _ _ _ _ _ _).
  - by rewrite (proj1 ex_self), (proj2 ex_self).
  - done.
  - done.
  - reflexivity.
  - reflexivity.
  - reflexivity.
Defined.

Definition ex_sending : ipc := ex_state ex_idle_it ex_idle_it ex_idle_it (ex_ep [20] []) IPC_OP_CALL.

Lemma ex_sending_inv : ipc_inv ex_sending ex_rq.
Proof. apply ex_state_inv; [split; by left..|by left]. Qed.

Lemma ipc_recv_spec_witness :
  exists sw sp rp m, waits ex_sending !! 20 = Some sw /\ process_of ex_sending (w_partner sw) = Some sp /\
      process_of ex_sending (self ex_sending) = Some rp /\ msgs ex_sending !! w_msg sw = Some m /\
      ((exists st' q', ipc_recv ex_sending 10 30 40 = Some (Ret IPC_OK, st') /\ ipc_inv st' q' /\
          idle q' = idle ex_rq /\ self st' = self ex_sending /\
          rendezvous ex_sending st' (w_partner sw) (self ex_sending) (w_partner sw) 10
            (ep_stats (ep_queues (ex_ep [20] []) [] (recv_queue (ex_ep [20] []))) (msgs_sent (ex_ep [20] []))
               (u64 (msgs_received (ex_ep [20] []) + 1)))
            20 (mk_wait 10 (w_msg sw) (self ex_sending) (w_operation sw) IPC_OK) m 30
            (w_operation sw =? IPC_OP_CALL) (ipc_fast_path_count ex_sending)) \/
       (exists err st' q', ipc_recv ex_sending 10 30 40 = Some (Ret err, st') /\ err ≠ IPC_OK /\
          slice_refused ex_sending sp rp m /\ ipc_inv st' q' /\ idle q' = idle ex_rq /\
          sched_wakeup (sch ex_sending) (w_partner sw) = Some (sch st') /\
          st' = with_sch (with_eps (with_waits ex_sending
                  (<[20 := mk_wait 10 (w_msg sw) (w_partner sw) (w_operation sw) err]> (waits ex_sending)))
                  (<[10 := ep_queues (ex_ep [20] []) [] (recv_queue (ex_ep [20] []))]> (eps ex_sending))) (sch st'))).
Proof.
  refine (ipc_recv_spec ex_sending ex_rq 10 (ex_ep [20] []) 30 (ex_msg 5) 40 ex_sending_inv _ _ _ _ _ _).
  - by rewrite (proj2 ex_self).
  - done.
  - done.
  - reflexivity.
  - reflexivity.
  - reflexivity.
Defined.

Lemma rpc_roundtrip_witness :
  exists st1, ipc_call ex_waiting 10 30 40 = Some (Block (self ex_waiting + OFF_REPLY_PENDING), st1) /\
  forall s2, rescheduled st1 s2 -> current_thread s2 = w_partner (ex_wait IPC_OP_RECV) ->
  exists st3 dm, ipc_wait_resume (with_sch st1 s2) (w_partner (ex_wait IPC_OP_RECV)) 10 20 = Some (IPC_OK, st3) /\
    msgs st3 !! w_msg (ex_wait IPC_OP_RECV) = Some dm /\ m_tag dm = m_tag (ex_msg 5) /\ m_regs dm = m_regs (ex_msg 5) /\
  forall r, msg_ok r -> plain r ->
  exists st5, ipc_reply (with_msgs st3 (<[w_msg (ex_wait IPC_OP_RECV) := r]> (msgs st3)))
                (w_msg (ex_wait IPC_OP_RECV)) = Some (IPC_OK, st5) /\
    (exists x, threads (sch st5) !! self ex_waiting = Some x /\ t_state x = TASK_RUNNING) /\
  forall s6, rescheduled st5 s6 -> current_thread s6 = self ex_waiting ->
  exists st8 reply, ipc_call_sent (with_sch st5 s6) (self ex_waiting) 30 IPC_OK = Some (Ret IPC_OK, st8) /\
    msgs st8 !! 30 = Some reply /\ m_tag reply = m_tag r /\ m_regs reply = m_regs r.
Proof.
  refine (rpc_roundtrip ex_waiting ex_rq 10 (ex_ep [] [20]) 20 [] (ex_wait IPC_OP_RECV) 30 (ex_msg 5) 40
    ex_waiting_inv _ _ _ _ _ _ _ _ _ _).
  - by rewrite (proj1 ex_self), (proj2 ex_self).
  - done.
  - done.
  - reflexivity.
  - reflexivity.
  - reflexivity.
  - reflexivity.
  - reflexivity.
  - by rewrite (proj1 ex_self).
  - reflexivity.
Defined.

(** Thread 200 has called thread 500. *)
Definition ex_called : ipc := ex_state (ex_it 0 500 1) ex_idle_it (ex_it 200 0 0) (ex_ep [] []) IPC_OP_RECV.

Lemma ex_called_inv : ipc_inv ex_called ex_rq.
Proof. apply ex_state_inv; [split; simpl; tauto..|by right]. Qed.

Lemma ex_called_calls : calls_ok (its ex_called).
Proof.
  split; [done|]. split.
  - intros s x Hx. cbn [its ex_called ex_state] in Hx. map_cases Hx; try done. intros _. exists (ex_it 0 500 1).
    split; [reflexivity|]. by split.
  - intros c y Hy. cbn [its ex_called ex_state] in Hy. map_cases Hy; try done. intros _. exists (ex_it 200 0 0).
    by split.
Qed.

Lemma ipc_thread_cleanup_spec_witness :
  exists st' q', ipc_thread_cleanup ex_called 500 = Some st' /\ ipc_inv st' q' /\
    calls_ended ex_called 500 (ex_it 200 0 0) st' /\ calls_ok (its st').
Proof.
  destruct (ipc_thread_cleanup_spec ex_called ex_rq 500 (ex_it 200 0 0) ex_called_inv) as (st' & q' & E & HI & HE & HC).
  - apply ex_is_thread. auto.
  - reflexivity.
  - exists st', q'. split; [exact E|]. split; [exact HI|]. split; [exact HE|]. by apply HC, ex_called_calls.
Defined.

(** Thread 200 serves a call of thread 300 when thread 500 calls. *)
Definition ex_serving : ipc := ex_state (ex_it 300 0 0) (ex_it 0 200 1) ex_idle_it (ex_ep [20] []) IPC_OP_CALL.

Lemma ex_serving_inv : ipc_inv ex_serving ex_rq.
Proof. apply ex_state_inv; [split; simpl; tauto..|by left]. Qed.

Lemma nested_call_strands_caller_witness :
  exists st1 st2 st3, ipc_recv ex_serving 10 30 40 = Some (Ret IPC_OK, st1) /\
    its st1 !! ipc_caller (ex_it 300 0 0) = Some (ex_it 0 200 1) /\
    ipc_reply (with_msgs st1 (<[30 := ex_msg 9]> (msgs st1))) 30 = Some (IPC_OK, st2) /\
    its st2 !! ipc_caller (ex_it 300 0 0) = Some (ex_it 0 200 1) /\
    ipc_reply st2 30 = Some (IPC_ERR_INVALID, st2) /\
    ipc_thread_cleanup st2 (self ex_serving) = Some st3 /\
    its st3 !! ipc_caller (ex_it 300 0 0) = Some (ex_it 0 200 1).
Proof.
  refine (nested_call_strands_caller ex_serving ex_rq 10 (ex_ep [20] []) 20 [] (ex_wait IPC_OP_CALL) 30 (ex_msg 5)
    (ex_msg 6) 40 (ex_it 300 0 0) (ex_it 0 200 1) (ex_msg 9) ex_serving_inv
    _ _ _ _ _ _ _ _ _ _ _ _ _ _ _ _ _ _); try reflexivity; try done.
Defined.
