(* ===== verification/Endpoint.v ===== *)
(** * The life of endpoints (kernel/ipc/endpoint.c): theorems

    The definitions are those of Ipc.v.  An endpoint is created on the global list and on its
    owner's list with one reference, found by its id while it is listed and alive, and destroyed by
    marking it dead, waking everybody who waits on it and dropping the list's reference. *)
From S2P Require Import Prelude Defs Sched IpcTag Ipc.

#[local] Opaque u64.

(** ** Waking the waiters of a dead endpoint *)

(** [w] is a record whose thread exists. *)
Definition wakeable (st : ipc) (w : Z) : Prop :=
  exists x, waits st !! w = Some x /\ is_thread (sch st) (w_partner x).

Definition dead_wait (x : ipc_wait) : ipc_wait :=
  mk_wait (w_endpoint x) (w_msg x) (w_partner x) (w_operation x) IPC_ERR_DEAD.

Definition runnable (st : ipc) (t : Z) : Prop :=
  exists x, threads (sch st) !! t = Some x /\ t_state x = TASK_RUNNING.

(** What [wake_dead] does with the records [l]. *)
Record woken_dead (st st' : ipc) (l : list Z) : Prop := {
  wd_waits : forall w, waits st' !! w = (if decide (w ∈ l) then dead_wait else fun x => x) <$> waits st !! w;
  wd_awake : forall w x, w ∈ l -> waits st !! w = Some x -> runnable st' (w_partner x);
  wd_kept : processes_kept (threads (sch st)) (threads (sch st')) /\ self st' = self st;
  wd_running : forall t, runnable st t -> runnable st' t;
  wd_threads : forall t, (forall w x, w ∈ l -> waits st !! w = Some x -> w_partner x ≠ t) ->
    threads (sch st') !! t = threads (sch st) !! t;
  wd_rest : st' = with_sch (with_waits st (waits st')) (sch st')
}.

Lemma wake_one_ok st q w x :
  ipc_inv st q -> waits st !! w = Some x -> is_thread (sch st) (w_partner x) ->
  exists st' q', (st ← upd_wait st w (fun x => mk_wait (w_endpoint x) (w_msg x) (w_partner x) (w_operation x)
                                     IPC_ERR_DEAD);
                  if negb (w_partner x =? 0) then wakeup st (w_partner x) else Some st) = Some st' /\
    ipc_inv st' q' /\ idle q' = idle q /\ woken_dead st st' [w].
Proof.
  intros HI Hw Ht. pose proof HI as [H1 H2 H3 H4 H5 H6]. rewrite (upd_wait_eq _ w x _ Hw).
  cbn [mbind option_bind].
  destruct (Z.eqb_spec (w_partner x) 0) as [E0|E0]; cbn [negb].
  { destruct Ht as [y Hy]. rewrite E0 in Hy. pose proof (proj1 (si_threads _ _ H1)). congruence. }
  unfold wakeup. cbn [sch with_waits].
  destruct (sched_wakeup_kept (sch st) q _ H1 Ht) as (s' & q' & -> & HS & Ei & Ec & K & Rn & Ro).
  cbn [mbind option_bind]. eexists _, q'. split; [done|]. split; [|split; [done|]].
  - eapply (ipc_inv_step st q); [exact HI|exact HS|exact K|done|exact H3|done|exact H6|done|exact H4|].
    by eapply queues_ok_result.
  - destruct (is_thread_kept _ _ _ K Ht) as [y Hy]. assert (t_state y = TASK_RUNNING) as Sy by (by apply Rn).
    split; [| | | | |done].
    + intros v. cbn [waits with_sch with_waits]. destruct (decide (v = w)) as [->|Hne].
      * rewrite lookup_insert_eq, Hw, decide_True by set_solver. done.
      * rewrite lookup_insert_ne, decide_False by set_solver. by destruct (waits st !! v).
    + intros v z Hv Hz. apply list_elem_of_singleton in Hv as ->. assert (z = x) as -> by congruence.
      by exists y.
    + done.
    + intros t [z [Hz Sz]]. destruct (decide (t = w_partner x)) as [->|Hne]; [by exists y|].
      exists z. cbn [sch with_sch]. by rewrite Ro.
    + intros t Ht'. cbn [sch with_sch]. apply Ro. intros ->. by apply (Ht' w x); [set_solver|done|done].
Qed.

(** The records that are woken second still name the same threads. *)
Lemma partner_later st st1 l w x :
  woken_dead st st1 l -> waits st1 !! w = Some x -> exists x0, waits st !! w = Some x0 /\ w_partner x0 = w_partner x.
Proof.
  intros W. rewrite (wd_waits _ _ _ W). destruct (waits st !! w) as [x0|]; [|done]. intros [= <-]. exists x0.
  split; [done|]. by case_decide.
Qed.

Lemma woken_dead_cons st st1 st' w l :
  NoDup (w :: l) -> woken_dead st st1 [w] -> woken_dead st1 st' l -> woken_dead st st' (w :: l).
Proof.
  intros [Hw _]%NoDup_cons HA HB. pose proof HA as [A1 A2 [A3 A3'] A4 A6 A5]. pose proof HB as [B1 B2 [B3 B3'] B4 B6 B5]. split.
  - intros v. rewrite B1, A1. destruct (waits st !! v) as [x|]; [|done]. cbn [fmap option_fmap option_map].
    destruct (decide (v = w)) as [->|Hne].
    + by rewrite (decide_False (P := w ∈ l)), (decide_True (P := w ∈ [w])), (decide_True (P := w ∈ w :: l)) by set_solver.
    + rewrite (decide_False (P := v ∈ [w])) by set_solver. destruct (decide (v ∈ l)).
      * by rewrite decide_True by set_solver.
      * by rewrite decide_False by set_solver.
  - intros v x [->|Hv]%elem_of_cons Hx.
    + apply B4. eapply A2; [|done]. set_solver.
    + apply (B2 v); [done|]. rewrite A1, Hx, decide_False by set_solver. done.
  - split; [by eapply processes_kept_trans|congruence].
  - auto.
  - intros t Ht. rewrite B6, A6; [done| |].
    + intros v x Hv. apply Ht. set_solver.
    + intros v x Hv Hx. destruct (partner_later _ _ _ _ _ HA Hx) as (x0 & Hx0 & <-). apply (Ht v x0); [set_solver|done].
  - rewrite B5, A5. reflexivity.
Qed.

Lemma wake_dead_ok l : forall st q,
  ipc_inv st q -> NoDup l -> Forall (wakeable st) l ->
  exists st' q', wake_dead st l = Some st' /\ ipc_inv st' q' /\ idle q' = idle q /\ woken_dead st st' l.
Proof.
  induction l as [|w l IH]; intros st q HI N F.
  - exists st, q. split; [done|]. split; [done|]. split; [done|].
    split; [|intros v x Hv; by apply not_elem_of_nil in Hv|done|done|done|by destruct st].
    intros v. rewrite decide_False by apply not_elem_of_nil. by destruct (waits st !! v).
  - apply Forall_cons in F as [(x & Hx & Ht) F].
    destruct (wake_one_ok st q w x HI Hx Ht) as (st1 & q1 & E & HI1 & Ei & W1).
    destruct (IH st1 q1) as (st' & q' & E' & HI' & Ei' & W'); [done|by inversion N| |].
    + eapply Forall_impl; [done|]. intros v (y & Hy & Hty). destruct W1 as [A1 _ [A3 _] _ _ _].
      eexists. split; [rewrite A1, Hy; done|]. eapply is_thread_kept; [exact A3|]. by case_decide.
    + exists st', q'. split; [|split; [done|split; [congruence|by eapply woken_dead_cons]]].
      cbn [wake_dead]. rewrite Hx. cbn [mbind option_bind]. revert E.
      destruct (upd_wait _ _ _); cbn [mbind option_bind]; [|done]. intros ->. exact E'.
Qed.

(** ** The endpoint list *)

Definition well_known (id : Z) : Prop := EP_WKE_MIN <= id <= EP_WKE_MAX.

#[export] Instance alive_dec e : Decision (alive e).
Proof. unfold alive. apply _. Defined.

(** Listed endpoints exist and are referenced; every live endpoint is listed and belongs to a process
    that exists, and no two live ones have the same well-known id.  (A listed endpoint is dead when its
    creator passed EP_FLAG_DEAD in the flags, which are not masked.) *)
Record ep_inv (st : ipc) : Prop := {
  ei_nodup : NoDup (endpoint_list st);
  ei_null : eps st !! 0 = None;
  ei_listed : forall a, a ∈ endpoint_list st -> exists e, eps st !! a = Some e /\ 1 <= refcount e /\
    (alive e -> proc_ok st (ep_owner e));
  ei_unique : forall a b ea eb, a ∈ endpoint_list st -> b ∈ endpoint_list st ->
    eps st !! a = Some ea -> eps st !! b = Some eb -> alive ea -> alive eb -> ep_id ea = ep_id eb ->
    well_known (ep_id ea) -> a = b;
  ei_alive : forall a e, eps st !! a = Some e -> alive e ->
    ztrue (Z.land (ep_flags e) EP_FLAG_LISTED) = true /\ a ∈ endpoint_list st;
  ei_next : 0 <= next_endpoint_id st
}.

(** What [find_endpoint_locked] finds. *)
Lemma find_in_list_ok (es : gmap Z ipc_endpoint) l id :
  (forall a, a ∈ l -> exists e, es !! a = Some e) -> es !! 0 = None ->
  exists r, find_in_list es l id = Some r /\
    (r ≠ 0 -> r ∈ l /\ exists e, es !! r = Some e /\ alive e /\ ep_id e = id) /\
    (r = 0 -> forall a e, a ∈ l -> es !! a = Some e -> alive e -> ep_id e ≠ id).
Proof.
  intros Hl H0. induction l as [|a l IH].
  - exists 0. split; [done|]. split; [done|]. intros _ a e Ha. by apply not_elem_of_nil in Ha.
  - destruct (Hl a) as (e & He); [set_solver|]. cbn [find_in_list]. rewrite He. cbn [mbind option_bind].
    destruct IH as (r & Er & R1 & R2); [set_solver|].
    destruct (decide (ep_id e = id /\ alive e)) as [[E Ha]|E].
    + exists a. rewrite (proj2 (Z.eqb_eq _ _) E), Ha. split; [done|]. split; [|congruence]. intros _. split; [set_solver|]. by exists e.
    + exists r. split; [|split].
      * rewrite Er. destruct (Z.eqb_spec (ep_id e) id); [|done]. cbn [andb]. unfold alive in E.
        by destruct (ztrue (Z.land (ep_flags e) EP_FLAG_DEAD)); [|destruct E].
      * intros Hr. destruct (R1 Hr) as [Hin ?]. split; [set_solver|done].
      * intros Hr b eb [->|Hb]%elem_of_cons Heb; [|by eapply R2]. assert (eb = e) as -> by congruence. tauto.
Qed.

Lemma find_endpoint_ok st id :
  ep_inv st -> exists r, find_endpoint_locked st id = Some r /\
    (r ≠ 0 -> r ∈ endpoint_list st /\ exists e, eps st !! r = Some e /\ alive e /\ ep_id e = id) /\
    (r = 0 -> forall a e, a ∈ endpoint_list st -> eps st !! a = Some e -> alive e -> ep_id e ≠ id).
Proof.
  intros [_ H0 Hl _ _ _]. apply find_in_list_ok; [|done]. intros a Ha.
  destruct (Hl a Ha) as (e & He & _). by exists e.
Qed.

(** A new endpoint [e] at the fresh address [a] joins the list and its owner's list. *)
Definition created (st st' : ipc) (a : Z) (e : ipc_endpoint) : Prop :=
  eps st' = <[a := e]> (eps st) /\ endpoint_list st' = a :: endpoint_list st /\
  sch st' = sch st /\ its st' = its st /\ waits st' = waits st /\ msgs st' = msgs st /\ frames st' = frames st /\
  (if ep_owner e =? 0 then iprocs st' = iprocs st
   else exists p, iprocs st !! ep_owner e = Some p /\
     iprocs st' = <[ep_owner e := mk_ip (owned_endpoints p ++ [a]) (ipc_window_phys p)]> (iprocs st)).

Lemma created_inv st st' a e :
  ep_inv st -> created st st' a e -> a ≠ 0 -> eps st !! a = None ->
  ztrue (Z.land (ep_flags e) EP_FLAG_LISTED) = true -> 1 <= refcount e ->
  proc_ok st (ep_owner e) -> 0 <= next_endpoint_id st' ->
  (well_known (ep_id e) -> forall b eb, b ∈ endpoint_list st -> eps st !! b = Some eb -> alive eb -> ep_id eb ≠ ep_id e) ->
  ep_inv st'.
Proof.
  intros [N H0 Hl U A X] (Ee & El & _ & _ & _ & _ & _ & Ep) Ha Hf Hli Hr Hp Hx Hu.
  assert (a ∉ endpoint_list st) as Hn.
  { intros Hin. destruct (Hl a Hin) as (y & Hy & _). congruence. }
  assert (forall p, proc_ok st p -> proc_ok st' p) as Hpr.
  { intros p Hok H. specialize (Hok H). destruct (ep_owner e =? 0); [by rewrite Ep|].
    destruct Ep as (p0 & _ & ->). apply lookup_insert_is_Some'. by right. }
  split; rewrite ?Ee, ?El; [by constructor|by rewrite lookup_insert_ne| | | |done].
  - intros b [->|Hb]%elem_of_cons.
    + rewrite lookup_insert_eq. exists e. auto.
    + rewrite lookup_insert_ne by (intros ->; done). destruct (Hl b Hb) as (eb & Heb & ? & ?).
      exists eb. auto.
  - intros b c eb ec [->|Hb]%elem_of_cons [->|Hc]%elem_of_cons; [done| | |].
    + rewrite lookup_insert_eq, lookup_insert_ne by (intros ->; done). intros [= <-] Hec _ Hlc E W.
      by destruct (Hu W c ec Hc Hec Hlc).
    + rewrite lookup_insert_eq, lookup_insert_ne by (intros ->; done). intros Heb [= <-] Hlb _ E W.
      rewrite E in W. by destruct (Hu W b eb Hb Heb Hlb).
    + rewrite !lookup_insert_ne by (intros ->; done). by apply U.
  - intros b eb. destruct (decide (b = a)) as [->|Hne].
    + rewrite lookup_insert_eq. intros [= <-] _. split; [done|set_solver].
    + rewrite lookup_insert_ne by done. intros Hb Hbl. destruct (A b eb Hb Hbl). split; [done|set_solver].
Qed.

(** Linking to the owner. *)
Lemma link_to_owner_ok st a e :
  eps st !! a = Some e -> proc_ok st (ep_owner e) ->
  exists ps, link_to_owner st a = Some (with_iprocs st ps) /\
    (if ep_owner e =? 0 then ps = iprocs st
     else exists p, iprocs st !! ep_owner e = Some p /\
       ps = <[ep_owner e := mk_ip (owned_endpoints p ++ [a]) (ipc_window_phys p)]> (iprocs st)).
Proof.
  intros He Hp. unfold link_to_owner. rewrite He. cbn [mbind option_bind].
  destruct (Z.eqb_spec (ep_owner e) 0) as [E0|E0].
  - exists (iprocs st). split; [by destruct st|done].
  - destruct (Hp E0) as [p Hpp]. rewrite Hpp. cbn [mbind option_bind]. eexists. split; [done|]. by exists p.
Qed.

(** The first flags of an endpoint: listed, and alive unless the caller asked otherwise. *)
Lemma listed_alive flags :
  ztrue (Z.land (Z.lor flags EP_FLAG_LISTED) EP_FLAG_DEAD) = Z.testbit flags 3.
Proof. unfold EP_FLAG_DEAD. rewrite ztrue_land_bit by lia. rewrite Z.lor_spec. apply orb_false_r. Qed.

Lemma listed_flag flags : ztrue (Z.land (Z.lor flags EP_FLAG_LISTED) EP_FLAG_LISTED) = true.
Proof. unfold EP_FLAG_LISTED. rewrite ztrue_land_bit by lia. rewrite Z.lor_spec. apply orb_true_r. Qed.

Lemma find_in_list_fresh (es : gmap Z ipc_endpoint) l id a e :
  a ∉ l -> find_in_list (<[a := e]> es) l id = find_in_list es l id.
Proof.
  induction l as [|b l IH]; intros Hn; [done|]. cbn [find_in_list].
  rewrite lookup_insert_ne by set_solver. destruct (es !! b); [|done]. cbn [mbind option_bind].
  rewrite IH by set_solver. done.
Qed.

Lemma fresh_unlisted st a : ep_inv st -> eps st !! a = None -> a ∉ endpoint_list st.
Proof. intros [_ _ Hl _ _ _] Hf Ha. destruct (Hl a Ha) as (e & He & _). congruence. Qed.

(** The common end of the two ways to create an endpoint. *)
Lemma list_endpoint_ok st next mem e :
  ep_inv st -> eps st !! mem = None -> mem ≠ 0 ->
  ztrue (Z.land (ep_flags e) EP_FLAG_LISTED) = true -> 1 <= refcount e -> proc_ok st (ep_owner e) ->
  0 <= next ->
  (well_known (ep_id e) -> forall b eb, b ∈ endpoint_list st -> eps st !! b = Some eb -> alive eb -> ep_id eb ≠ ep_id e) ->
  exists st', link_to_owner (with_list (with_eps st (<[mem := e]> (eps st))) (mem :: endpoint_list st) next) mem = Some st' /\
    created st st' mem e /\ ep_inv st' /\
    find_endpoint_locked st' (ep_id e) =
      if ztrue (Z.land (ep_flags e) EP_FLAG_DEAD) then find_endpoint_locked st (ep_id e) else Some mem.
Proof.
  intros HI Hf H0 Hli Hr Hp Hnx Hu.
  destruct (link_to_owner_ok (with_list (with_eps st (<[mem := e]> (eps st))) (mem :: endpoint_list st) next) mem e)
    as (ps & E & Hps); [apply lookup_insert_eq|exact Hp|].
  rewrite E. eexists. split; [done|]. set (st' := with_iprocs _ ps).
  assert (created st st' mem e) as HC by (do 7 (split; [reflexivity|]); exact Hps).
  split; [exact HC|]. split; [by eapply created_inv|].
  unfold find_endpoint_locked. cbn [find_in_list eps with_iprocs with_list with_eps endpoint_list st'].
  rewrite lookup_insert_eq. cbn [mbind option_bind]. rewrite Z.eqb_refl, find_in_list_fresh by (by apply fresh_unlisted).
  by destruct (ztrue (Z.land (ep_flags e) EP_FLAG_DEAD)).
Qed.

(** [endpoint_create]: without memory it returns NULL and no endpoint appears; otherwise the
    new endpoint is empty and referenced once, at the head of the global list and at the end of its
    owner's, and its id is none of the well-known ids.  Looking up the id finds it, unless the caller's
    flags contain EP_FLAG_DEAD: it is born dead and never found.  The list's invariant is preserved. *)
Theorem endpoint_create_spec st owner flags mem :
  ep_inv st -> proc_ok st owner -> eps st !! mem = None ->
  if mem =? 0 then exists st', endpoint_create st owner flags mem = Some (0, st') /\ eps st' = eps st /\
    endpoint_list st' = endpoint_list st /\ iprocs st' = iprocs st /\ ep_inv st'
  else exists st' id, endpoint_create st owner flags mem = Some (mem, st') /\ EP_WKE_MAX < id /\
    created st st' mem (mk_ep id (Z.lor flags EP_FLAG_LISTED) [] [] 1 owner 0 0 0) /\ ep_inv st' /\
    find_endpoint_locked st' id = if Z.testbit flags 3 then find_endpoint_locked st id else Some mem.
Proof.
  intros HI Hp Hf. unfold endpoint_create, alloc_endpoint_id, init_endpoint.
  set (id := if next_endpoint_id st <=? EP_WKE_MAX then EP_WKE_MAX + 1 else next_endpoint_id st).
  assert (EP_WKE_MAX < id) as Hid.
  { unfold id. destruct (Z.leb_spec (next_endpoint_id st) EP_WKE_MAX); lia. }
  pose proof (u32_range (id + 1)) as Hu. destruct (Z.eqb_spec mem 0) as [E0|E0].
  - eexists. split; [done|]. do 3 (split; [done|]). destruct HI as [N H0 Hl U A X]. split; try done; [].
    simpl. lia.
  - rewrite (proj2 (Z.eqb_neq mem 0) E0).
    destruct (list_endpoint_ok st (u32 (id + 1)) mem (mk_ep id (Z.lor flags EP_FLAG_LISTED) [] [] 1 owner 0 0 0))
      as (st' & E & HC & HI' & F); try done; [apply listed_flag|lia|unfold well_known; simpl; lia|].
    cbn [ep_flags ep_id] in F. rewrite listed_alive in F.
    exists st', id. unfold with_list, with_eps in E |- *. cbn [sch its eps waits msgs iprocs frames endpoint_list
      next_endpoint_id ipc_total_messages ipc_fast_path_count] in E |- *. rewrite E. cbn [mbind option_bind].
    exact (conj eq_refl (conj Hid (conj HC (conj HI' F)))).
Qed.

Lemma endpoint_create_well_known_ok st owner id flags mem :
  ep_inv st -> proc_ok st owner -> eps st !! mem = None -> mem ≠ 0 ->
  (~ well_known id /\ endpoint_create_well_known st owner id flags mem = Some (0, st)) \/
  (well_known id /\ (exists a e, a ∈ endpoint_list st /\ eps st !! a = Some e /\ alive e /\ ep_id e = id) /\
     endpoint_create_well_known st owner id flags mem = Some (0, st)) \/
  (well_known id /\ (forall a e, a ∈ endpoint_list st -> eps st !! a = Some e -> alive e -> ep_id e ≠ id) /\
     exists st', endpoint_create_well_known st owner id flags mem = Some (mem, st') /\
       created st st' mem (mk_ep id (Z.lor flags EP_FLAG_LISTED) [] [] 1 owner 0 0 0) /\ ep_inv st' /\
       find_endpoint_locked st' id = Some (if Z.testbit flags 3 then 0 else mem)).
Proof.
  intros HI Hp Hf H0. unfold endpoint_create_well_known, init_endpoint, well_known.
  destruct (Z.ltb_spec id EP_WKE_MIN) as [Hl|Hl]; cbn [orb]; [left; split; [lia|done]|].
  destruct (Z.ltb_spec EP_WKE_MAX id) as [Hg|Hg]; [left; split; [lia|done]|]. right.
  rewrite (proj2 (Z.eqb_neq mem 0) H0), (proj2 (Z.eqb_neq mem 0) H0).
  unfold find_endpoint_locked at 1 2. cbn [eps endpoint_list with_eps].
  rewrite find_in_list_fresh by (by apply fresh_unlisted).
  destruct (find_endpoint_ok st id HI) as (r & Er & R1 & R2). unfold find_endpoint_locked in Er. rewrite Er.
  cbn [mbind option_bind]. destruct (Z.eqb_spec r 0) as [Hr|Hr]; cbn [negb].
  - right. split; [done|]. split; [by apply R2|].
    destruct (list_endpoint_ok st (next_endpoint_id st) mem (mk_ep id (Z.lor flags EP_FLAG_LISTED) [] [] 1 owner 0 0 0))
      as (st' & E & HC & HI' & F); try done; [apply listed_flag|apply HI|intros _; by apply R2|].
    cbn [ep_flags ep_id] in F. rewrite listed_alive in F. unfold find_endpoint_locked at 2 in F. rewrite Er, Hr in F.
    exists st'. cbn [with_eps next_endpoint_id endpoint_list] in E |- *. rewrite E. cbn [mbind option_bind].
    split; [done|]. split; [exact HC|]. split; [exact HI'|]. rewrite F. by destruct (Z.testbit flags 3).
  - left. split; [done|]. destruct (R1 Hr) as (Hin & e & He & Hal & Ee). split; [by exists r, e|].
    rewrite delete_insert_id by done. by destruct st.
Qed.

(** C24.  [endpoint_create_well_known]: an id outside 1..15 is refused; so is one that a live listed
    endpoint already has, and then nothing changes (the memory is given back); otherwise the new
    endpoint is at the head of the global list and at the end of its owner's, with that id, and no other
    endpoint, wait, thread, message or window changes.  When the flags do not contain EP_FLAG_DEAD, it is alive and looking up the id finds it.
    When they do - the system call passes the user's flags on unmasked - it is listed but born dead: no
    lookup finds it, so the id stays free for the next claim.  In all cases the invariant of the list is
    preserved: at most one live endpoint has a given well-known id. *)
Theorem endpoint_create_well_known_spec st owner id flags mem :
  ep_inv st -> proc_ok st owner -> eps st !! mem = None -> mem ≠ 0 ->
  (~ well_known id /\ endpoint_create_well_known st owner id flags mem = Some (0, st)) \/
  (well_known id /\ (exists a e, a ∈ endpoint_list st /\ eps st !! a = Some e /\ alive e /\ ep_id e = id) /\
     endpoint_create_well_known st owner id flags mem = Some (0, st)) \/
  (well_known id /\ (forall a e, a ∈ endpoint_list st -> eps st !! a = Some e -> alive e -> ep_id e ≠ id) /\
     exists st', endpoint_create_well_known st owner id flags mem = Some (mem, st') /\
       created st st' mem (mk_ep id (Z.lor flags EP_FLAG_LISTED) [] [] 1 owner 0 0 0) /\ ep_inv st' /\
       find_endpoint_locked st' id = Some (if Z.testbit flags 3 then 0 else mem)).
Proof. apply endpoint_create_well_known_ok. Qed.

(** A well-known id can be claimed twice: an endpoint whose creator set EP_FLAG_DEAD does not keep the
    next claim of its id from succeeding, and both stay on the global list. *)
Theorem dead_flag_claims_twice st o1 o2 id flags1 flags2 m1 m2 :
  ep_inv st -> proc_ok st o1 -> proc_ok st o2 -> eps st !! m1 = None -> eps st !! m2 = None -> m1 ≠ m2 -> m1 ≠ 0 -> m2 ≠ 0 ->
  well_known id -> (forall a e, a ∈ endpoint_list st -> eps st !! a = Some e -> alive e -> ep_id e ≠ id) ->
  Z.testbit flags1 3 = true ->
  exists st1 st2, endpoint_create_well_known st o1 id flags1 m1 = Some (m1, st1) /\
    endpoint_create_well_known st1 o2 id flags2 m2 = Some (m2, st2) /\ endpoint_list st2 = m2 :: m1 :: endpoint_list st.
Proof.
  intros HI Hp1 Hp2 Hf1 Hf2 Hm H1 H2 W Hfree Hb.
  destruct (endpoint_create_well_known_ok st o1 id flags1 m1) as [[? _]|[(_ & (a & e & Ha & He & Hal & Ei) & _)|(_ & _ & st1 & E1 & C1 & HI1 & F1)]];
    try done; [by destruct (Hfree a e Ha He Hal)|].
  rewrite Hb in F1. pose proof C1 as (Ee & El & _ & _ & _ & _ & _ & Ep).
  assert (proc_ok st1 o2) as Hp2'.
  { intros H. specialize (Hp2 H). cbn [ep_owner] in Ep. destruct (o1 =? 0); [by rewrite Ep|]. destruct Ep as (p0 & _ & ->).
    apply lookup_insert_is_Some'. by right. }
  destruct (find_endpoint_ok st1 id HI1) as (r & Er & _ & R2). assert (r = 0) as Er0 by congruence.
  destruct (endpoint_create_well_known_ok st1 o2 id flags2 m2) as [[? _]|[(_ & (a & e & Ha & He & Hal & Ei) & _)|(_ & _ & st2 & E2 & C2 & _)]];
    try done; [by rewrite Ee, lookup_insert_ne|by destruct (R2 Er0 a e Ha He Hal)|].
  exists st1, st2. split; [done|]. split; [done|]. destruct C2 as (_ & -> & _). by rewrite El.
Qed.

(** ** Destruction *)

Lemma queues_ok_same T M es ws ep e e' :
  queues_ok T M es ws -> es !! ep = Some e -> waiters e' = waiters e -> queues_ok T M (<[ep := e']> es) ws.
Proof.
  intros H He E ep' e0. destruct (decide (ep' = ep)) as [->|Hne].
  - rewrite lookup_insert_eq. intros [= <-]. rewrite E. by apply H.
  - rewrite lookup_insert_ne by done. apply H.
Qed.

Lemma queues_ok_empty T M es ws ep e' :
  queues_ok T M es ws -> waiters e' = [] -> queues_ok T M (<[ep := e']> es) ws.
Proof.
  intros H E ep' e0. destruct (decide (ep' = ep)) as [->|Hne].
  - rewrite lookup_insert_eq. intros [= <-]. rewrite E. split; [constructor|].
    intros w Hw. by apply not_elem_of_nil in Hw.
  - rewrite lookup_insert_ne by done. apply H.
Qed.

Lemma ipc_inv_eps st q es :
  ipc_inv st q -> queues_ok (is_thread (sch st)) (is_msg (msgs st)) es (waits st) -> ipc_inv (with_eps st es) q.
Proof. intros [H1 H2 H3 H4 H5 H6] HQ. by split. Qed.

Lemma ipc_inv_list st q l n : ipc_inv st q -> ipc_inv (with_list st l n) q.
Proof. intros [H1 H2 H3 H4 H5 H6]. by split. Qed.

(** Taking an endpoint off its owner's list. *)
Definition disown (a : Z) (x : iproc) : iproc := mk_ip (without a (owned_endpoints x)) (ipc_window_phys x).

(** Process [o] (if any) does not list [a] any more; the other processes are as they were. *)
Definition disowned (ps : gmap Z iproc) (o a : Z) (ps' : gmap Z iproc) : Prop :=
  forall p, ps' !! p = (if decide (p = o /\ p ≠ 0) then disown a else id) <$> ps !! p.

Lemma disowned_dom ps o a ps' p : disowned ps o a ps' -> is_Some (ps !! p) -> is_Some (ps' !! p).
Proof. intros D [x Hx]. rewrite D, Hx. by eexists. Qed.

Lemma unlink_from_owner_ok st q a e :
  ipc_inv st q -> eps st !! a = Some e -> proc_ok st (ep_owner e) ->
  exists ps, unlink_from_owner st a = Some (with_iprocs st ps) /\ ipc_inv (with_iprocs st ps) q /\
    disowned (iprocs st) (ep_owner e) a ps.
Proof.
  intros HI He Hp. unfold unlink_from_owner. rewrite He. cbn [mbind option_bind].
  destruct (Z.eqb_spec (ep_owner e) 0) as [E0|E0].
  - exists (iprocs st). split; [by destruct st|]. split; [by destruct st|].
    intros p. rewrite decide_False by (intros [-> ?]; done). by destruct (iprocs st !! p).
  - destruct (Hp E0) as [x0 Hx0]. rewrite Hx0. cbn [mbind option_bind]. set (ps := <[_ := _]> _). exists ps.
    split; [done|]. assert (disowned (iprocs st) (ep_owner e) a ps) as D.
    { intros p. subst ps. destruct (decide (p = ep_owner e)) as [->|Hne].
      - by rewrite lookup_insert_eq, Hx0, decide_True.
      - rewrite lookup_insert_ne, decide_False by (congruence || tauto). by destruct (iprocs st !! p). }
    split; [|exact D]. destruct HI as [H1 H2 H3 H4 H5 H6]. split; [exact H1| | |exact H4|exact H5|exact H6].
    + intros t x Hx. destruct (H2 t x Hx) as [G1 G2]. split; [exact G1|]. intros Hn. eapply disowned_dom; [exact D|by apply G2].
    + intros p x'. cbn [iprocs with_iprocs]. rewrite D. destruct (iprocs st !! p) as [x|] eqn:Ex; [|done].
      intros [= <-]. case_decide; exact (H3 p x Ex).
Qed.

(** The flags of a destroyed endpoint. *)
Definition dead_flags (f : Z) : Z :=
  let f := Z.lor f EP_FLAG_DEAD in
  if ztrue (Z.land f EP_FLAG_LISTED) then Z.land f (lnotw 32 EP_FLAG_LISTED) else f.

Lemma dead_flags_dead f : ztrue (Z.land (dead_flags f) EP_FLAG_DEAD) = true.
Proof.
  unfold dead_flags. assert (Z.testbit (Z.lor f EP_FLAG_DEAD) 3 = true) as H.
  { rewrite Z.lor_spec. apply orb_true_r. }
  revert H. generalize (Z.lor f EP_FLAG_DEAD). intros g H. unfold EP_FLAG_DEAD.
  rewrite ztrue_land_bit by lia. case_match; [|done]. rewrite Z.land_spec, H. done.
Qed.

Lemma dead_listed f :
  ztrue (Z.land (Z.lor f EP_FLAG_DEAD) EP_FLAG_LISTED) = ztrue (Z.land f EP_FLAG_LISTED).
Proof.
  unfold EP_FLAG_LISTED. rewrite !ztrue_land_bit by lia. rewrite Z.lor_spec. apply orb_false_r.
Qed.

Lemma woken_dead_app st st1 st' l1 l2 :
  NoDup (l1 ++ l2) -> woken_dead st st1 l1 -> woken_dead st1 st' l2 -> woken_dead st st' (l1 ++ l2).
Proof.
  intros N HA HB. pose proof HA as [A1 A2 [A3 A3'] A4 A6 A5]. pose proof HB as [B1 B2 [B3 B3'] B4 B6 B5].
  assert (forall v, v ∈ l1 -> v ∉ l2) as D by (apply NoDup_app in N; tauto). split.
  - intros v. rewrite B1, A1. destruct (waits st !! v) as [x|]; [|done]. cbn [fmap option_fmap option_map].
    destruct (decide (v ∈ l1)) as [H1|H1].
    + by rewrite (decide_False (P := v ∈ l2)), (decide_True (P := v ∈ l1 ++ l2)) by set_solver.
    + destruct (decide (v ∈ l2)); [by rewrite decide_True by set_solver|by rewrite decide_False by set_solver].
  - intros v x Hv Hx. destruct (decide (v ∈ l1)) as [H1|H1]; [by eapply B4, A2|].
    apply (B2 v); [set_solver|]. by rewrite A1, Hx, decide_False.
  - split; [by eapply processes_kept_trans|congruence].
  - auto.
  - intros t Ht. rewrite B6, A6; [done| |].
    + intros v x Hv. apply Ht. set_solver.
    + intros v x Hv Hx. destruct (partner_later _ _ _ _ _ HA Hx) as (x0 & Hx0 & <-). apply (Ht v x0); [set_solver|done].
  - rewrite B5, A5. reflexivity.
Qed.

(** Both queues of an endpoint are woken; [st] already carries its new flags. *)
Lemma wake_waiters_ok st q ep e :
  ipc_inv st q -> eps st !! ep = Some e ->
  exists st' q', (st ← wake_dead st (send_queue e); wake_dead st (recv_queue e)) = Some st' /\
    ipc_inv st' q' /\ idle q' = idle q /\ woken_dead st st' (waiters e).
Proof.
  intros HI He. destruct (ii_queues _ _ HI ep e He) as [N W].
  assert (Forall (wakeable st) (waiters e)) as F.
  { apply Forall_forall. intros w Hw. destruct (W w Hw) as (x & Hx & _ & Ht & _). by exists x. }
  unfold waiters in F. apply Forall_app in F as [F1 F2]. pose proof N as (N1 & _ & N2)%NoDup_app.
  destruct (wake_dead_ok (send_queue e) st q HI N1 F1) as (st1 & q1 & -> & HI1 & Ei1 & W1).
  cbn [mbind option_bind].
  destruct (wake_dead_ok (recv_queue e) st1 q1 HI1 N2) as (st' & q' & -> & HI' & Ei' & W').
  - eapply Forall_impl; [exact F2|]. intros v (y & Hy & Hty). destruct W1 as [A1 _ [A3 _] _ _ _].
    eexists. split; [rewrite A1, Hy; done|]. eapply is_thread_kept; [exact A3|]. by case_decide.
  - exists st', q'. split; [done|]. split; [done|]. split; [congruence|]. by eapply woken_dead_app.
Qed.

(** The parts of the state that the end of an endpoint does not concern *)
Record rest_kept (st st' : ipc) : Prop := {
  rk_its : its st' = its st;
  rk_msgs : msgs st' = msgs st;
  rk_frames : frames st' = frames st;
  rk_next : next_endpoint_id st' = next_endpoint_id st;
  rk_counts : ipc_total_messages st' = ipc_total_messages st /\ ipc_fast_path_count st' = ipc_fast_path_count st
}.

Lemma rest_kept_trans st st1 st' : rest_kept st st1 -> rest_kept st1 st' -> rest_kept st st'.
Proof. intros [A1 A2 A3 A4 [A5 A6]] [B1 B2 B3 B4 [B5 B6]]. split; [..|split]; congruence. Qed.

(** What destroying an endpoint does. *)
Record destroyed (st st' : ipc) (ep : Z) (e : ipc_endpoint) : Prop := {
  ds_ep : eps st' = <[ep := ep_set_refs (refcount e - 1)
                              (ep_queues (ep_set_flags (dead_flags (ep_flags e)) e) [] [])]> (eps st);
  ds_list : endpoint_list st' = without ep (endpoint_list st) /\ next_endpoint_id st' = next_endpoint_id st;
  ds_waits : forall w, waits st' !! w = (if decide (w ∈ waiters e) then dead_wait else fun x => x) <$> waits st !! w;
  ds_awake : forall w x, w ∈ waiters e -> waits st !! w = Some x -> runnable st' (w_partner x);
  ds_procs : disowned (iprocs st) (ep_owner e) ep (iprocs st');
  ds_running : forall t, runnable st t -> runnable st' t;
  ds_self : self st' = self st /\ processes_kept (threads (sch st)) (threads (sch st'));
  ds_threads : forall t, (forall w x, w ∈ waiters e -> waits st !! w = Some x -> w_partner x ≠ t) ->
    threads (sch st') !! t = threads (sch st) !! t;
  ds_rest : rest_kept st st'
}.

(** [endpoint_destroy] before it drops the list's reference. *)
Definition endpoint_destroy_unlinked (st : ipc) (ep : Z) (e : ipc_endpoint) : option ipc :=
  let st := with_eps st (<[ep := ep_set_flags (dead_flags (ep_flags e)) e]> (eps st)) in
  st ← (st ← wake_dead st (send_queue e); wake_dead st (recv_queue e));
  st ← upd_ep st ep (fun e => ep_queues e [] []);
  unlink_from_owner (with_list st (without ep (endpoint_list st)) (next_endpoint_id st)) ep.

Lemma endpoint_destroy_eq st ep e :
  ep ≠ 0 -> eps st !! ep = Some e -> alive e -> ztrue (Z.land (ep_flags e) EP_FLAG_LISTED) = true ->
  endpoint_destroy st ep =
    (st ← endpoint_destroy_unlinked st ep e; st ← endpoint_put st ep; _ ← eps st !! ep; Some st).
Proof.
  intros H0 He Ha Hl. unfold endpoint_destroy, endpoint_destroy_unlinked.
  rewrite (proj2 (Z.eqb_neq ep 0) H0), He. cbn [mbind option_bind]. rewrite Ha, !dead_listed, Hl.
  unfold dead_flags. rewrite dead_listed, Hl. cbv zeta.
  destruct (wake_dead _ (send_queue e)) as [st1|]; cbn [mbind option_bind]; [|done].
  destruct (wake_dead _ (recv_queue e)) as [st2|]; cbn [mbind option_bind]; [|done].
  destruct (upd_ep st2 ep _) as [st3|]; cbn [mbind option_bind]; [|done].
  by destruct (unlink_from_owner _ ep).
Qed.

Lemma destroy_unlinked_ok st q ep e :
  ipc_inv st q -> eps st !! ep = Some e -> proc_ok st (ep_owner e) ->
  exists st' q', endpoint_destroy_unlinked st ep e = Some st' /\ ipc_inv st' q' /\ idle q' = idle q /\
    eps st' !! ep = Some (ep_queues (ep_set_flags (dead_flags (ep_flags e)) e) [] []) /\
    forall e', e' = ep_set_refs (refcount e - 1) (ep_queues (ep_set_flags (dead_flags (ep_flags e)) e) [] []) ->
      destroyed st (with_eps st' (<[ep := e']> (eps st'))) ep e.
Proof.
  intros HI He Hp. unfold endpoint_destroy_unlinked. cbv zeta. set (e1 := ep_set_flags (dead_flags (ep_flags e)) e).
  set (st0 := with_eps st (<[ep := e1]> (eps st))).
  assert (ipc_inv st0 q) as HI0.
  { apply ipc_inv_eps; [done|]. eapply queues_ok_same; [apply HI|exact He|done]. }
  destruct (wake_waiters_ok st0 q ep e1 HI0 (lookup_insert_eq _ _ _)) as (st1 & q1 & E1 & HI1 & Ei1 & [A1 A2 A3 A4 A6 A5]).
  change (send_queue e1) with (send_queue e) in E1. change (recv_queue e1) with (recv_queue e) in E1.
  rewrite E1. cbn [mbind option_bind].
  assert (eps st1 = <[ep := e1]> (eps st)) as Ee1 by (by rewrite A5).
  assert (endpoint_list st1 = endpoint_list st /\ next_endpoint_id st1 = next_endpoint_id st /\
    iprocs st1 = iprocs st) as (El1 & En1 & Ep1) by (by rewrite A5).
  rewrite (upd_ep_eq st1 ep e1) by (by rewrite Ee1, lookup_insert_eq). cbn [mbind option_bind].
  set (e2 := ep_queues e1 [] []). set (st2 := with_list _ _ _).
  assert (ipc_inv st2 q1) as HI2.
  { apply ipc_inv_list, ipc_inv_eps; [done|]. apply queues_ok_empty; [apply HI1|done]. }
  destruct (unlink_from_owner_ok st2 q1 ep e2 HI2) as (ps & -> & HI3 & D).
  { apply lookup_insert_eq. }
  { unfold proc_ok. cbn. by rewrite Ep1. }
  exists (with_iprocs st2 ps), q1. split; [done|]. split; [done|]. split; [done|].
  split; [apply lookup_insert_eq|]. intros e' ->. split.
  - cbn. rewrite Ee1, !insert_insert_eq. done.
  - cbn. by rewrite El1, En1.
  - exact A1.
  - exact A2.
  - cbn in D |- *. by rewrite Ep1 in D.
  - exact A4.
  - destruct A3 as [K Es]. by split.
  - exact A6.
  - split; cbn; by rewrite A5.
Qed.

Lemma endpoint_put_ok st q ep e :
  ipc_inv st q -> ep ≠ 0 -> eps st !! ep = Some e ->
  exists st', endpoint_put st ep = Some st' /\ ipc_inv st' q /\
    st' = with_eps st (if refcount e - 1 =? 0 then delete ep (eps st)
                       else <[ep := ep_set_refs (refcount e - 1) e]> (eps st)).
Proof.
  intros HI H0 He. unfold endpoint_put. rewrite (proj2 (Z.eqb_neq ep 0) H0), He. cbn [mbind option_bind].
  eexists. split; [done|]. destruct (refcount e - 1 =? 0).
  - cbn [eps with_eps]. rewrite delete_insert_eq. split; [|done]. apply (ipc_inv_eps st); [done|].
    intros a ea Ha. apply lookup_delete_Some in Ha as [_ Ha]. by apply HI.
  - split; [|done]. apply ipc_inv_eps; [done|]. eapply queues_ok_same; [apply HI|exact He|done].
Qed.

Lemma endpoint_destroy_ok st q ep e :
  ipc_inv st q -> ep ≠ 0 -> eps st !! ep = Some e -> alive e ->
  ztrue (Z.land (ep_flags e) EP_FLAG_LISTED) = true -> proc_ok st (ep_owner e) -> 2 <= refcount e ->
  exists st' q', endpoint_destroy st ep = Some st' /\ ipc_inv st' q' /\ idle q' = idle q /\ destroyed st st' ep e.
Proof.
  intros HI H0 He Ha Hl Hp Hr. rewrite (endpoint_destroy_eq st ep e) by done.
  destruct (destroy_unlinked_ok st q ep e HI He Hp) as (st1 & q1 & -> & HI1 & Ei1 & He1 & D).
  cbn [mbind option_bind].
  destruct (endpoint_put_ok st1 q1 ep _ HI1 H0 He1) as (st' & -> & HI' & Est').
  cbn [mbind option_bind]. cbn [refcount ep_queues ep_set_flags] in Est'.
  rewrite (proj2 (Z.eqb_neq (refcount e - 1) 0)) in Est' by lia.
  exists st', q1. rewrite Est' at 1. cbn [eps with_eps]. rewrite lookup_insert_eq. cbn [mbind option_bind].
  split; [done|]. split; [done|]. split; [done|]. rewrite Est'. by apply D.
Qed.

Lemma destroyed_ep_inv st st' ep e :
  ep_inv st -> destroyed st st' ep e -> eps st !! ep = Some e -> ep_inv st'.
Proof.
  intros [N H0 Hl U A X] [Ee [El En] _ _ Pd _ _ _ _] He. assert (ep ≠ 0) as Hep by (intros ->; congruence).
  assert (forall a, a ∈ endpoint_list st' -> a ∈ endpoint_list st /\ a ≠ ep) as Hin.
  { intros a. rewrite El. apply elem_of_without. }
  split.
  - rewrite El. by apply NoDup_filter.
  - by rewrite Ee, lookup_insert_ne.
  - intros a [Ha Hne]%Hin. destruct (Hl a Ha) as (ea & Hea & L1 & L2). exists ea.
    rewrite Ee, lookup_insert_ne by done. split; [done|]. split; [done|].
    intros Hal Hn. eapply disowned_dom; [exact Pd|by apply L2].
  - intros a b ea eb [Ha Hna]%Hin [Hb Hnb]%Hin. rewrite Ee, !lookup_insert_ne by done. by apply U.
  - intros a ea. rewrite Ee. destruct (decide (a = ep)) as [->|Hne].
    + rewrite lookup_insert_eq. intros [= <-]. unfold alive. cbn. rewrite dead_flags_dead. done.
    + rewrite lookup_insert_ne by done. intros Ha Hal. destruct (A a ea Ha Hal). split; [done|].
      rewrite El. by apply elem_of_without.
  - by rewrite En.
Qed.

(** C25.  Destroying an endpoint on which the caller holds a reference of its own: it is dead and off
    the global list and its owner's list, so that no lookup finds it any more and its id is free;
    every thread waiting to send or receive on it is runnable and will see IPC_ERR_DEAD, and no
    other wait changes; the list's reference is dropped.  The invariants of IPC and of the
    endpoint list are preserved. *)
Theorem endpoint_destroy_spec st q ep e :
  ipc_inv st q -> ep_inv st -> eps st !! ep = Some e -> alive e -> 2 <= refcount e ->
  exists st' q', endpoint_destroy st ep = Some st' /\ ipc_inv st' q' /\ ep_inv st' /\
    destroyed st st' ep e /\ find_endpoint_locked st' (ep_id e) ≠ Some ep /\
    (well_known (ep_id e) -> find_endpoint_locked st' (ep_id e) = Some 0).
Proof.
  intros HI HE He Ha Hr. pose proof HE as [N H0 Hl U A X]. assert (ep ≠ 0) as Hep by (intros ->; congruence).
  destruct (A ep e He Ha) as [Hf Hin]. destruct (Hl ep Hin) as (e0 & He0 & _ & Hp).
  assert (e0 = e) as -> by congruence. specialize (Hp Ha).
  destruct (endpoint_destroy_ok st q ep e) as (st' & q' & E & HI' & _ & D); [done..|].
  pose proof (destroyed_ep_inv st st' ep e HE D He) as HE'.
  pose proof D as [Ee [El En] _ _ _ _ _ _ _]. exists st', q'. do 3 (split; [done|]). split; [exact D|].
  destruct (find_endpoint_ok st' (ep_id e) HE') as (r & -> & R1 & R2).
  assert (r ≠ 0 -> r ≠ ep /\ r ∈ endpoint_list st /\ exists e', eps st !! r = Some e' /\ alive e' /\ ep_id e' = ep_id e) as G.
  { intros Hr0. destruct (R1 Hr0) as (Hin' & e' & He' & Hal' & Ei). rewrite El in Hin'.
    apply elem_of_without in Hin' as [Hin' Hne]. split; [done|]. split; [done|]. exists e'.
    rewrite Ee, lookup_insert_ne in He' by done. done. }
  split.
  - intros [= ->]. by destruct (G Hep).
  - intros W. f_equal. destruct (decide (r = 0)) as [|Hr0]; [done|].
    destruct (G Hr0) as (Hne & Hin' & e' & He' & Hal' & Ei). destruct Hne. by apply (U r ep e' e); try done; rewrite Ei.
Qed.

(** [endpoint_destroy] reads the endpoint after it may have freed it: called on a live endpoint
    to which the creation reference is the only one, it drops that reference, which frees the
    endpoint, and then prints ep->id: a use after free. *)
Theorem destroy_last_reference_unsafe st q ep e :
  ipc_inv st q -> ep_inv st -> eps st !! ep = Some e -> alive e -> refcount e = 1 ->
  endpoint_destroy st ep = None.
Proof.
  intros HI HE He Ha Hr. pose proof HE as [N H0 Hl U A X]. assert (ep ≠ 0) as Hep by (intros ->; congruence).
  destruct (A ep e He Ha) as [Hf Hin]. destruct (Hl ep Hin) as (e0 & He0 & _ & Hp).
  assert (e0 = e) as -> by congruence. specialize (Hp Ha). rewrite (endpoint_destroy_eq st ep e) by done.
  destruct (destroy_unlinked_ok st q ep e HI He Hp) as (st1 & q1 & -> & HI1 & _ & He1 & _).
  cbn [mbind option_bind].
  destruct (endpoint_put_ok st1 q1 ep _ HI1 Hep He1) as (st' & -> & _ & ->).
  cbn [mbind option_bind]. cbn [refcount ep_queues ep_set_flags]. rewrite Hr. cbn [eps with_eps Z.sub Z.add Z.opp Z.eqb].
  simpl. by rewrite lookup_delete_eq.
Qed.

(** ** The end of a process: its endpoints *)

Lemma ipc_inv_iprocs st q ps :
  ipc_inv st q -> (forall p, is_Some (iprocs st !! p) -> is_Some (ps !! p)) ->
  (forall p x', ps !! p = Some x' -> exists x, iprocs st !! p = Some x /\ ipc_window_phys x' = ipc_window_phys x) ->
  ipc_inv (with_iprocs st ps) q.
Proof.
  intros [H1 H2 H3 H4 H5 H6] D F. split; [exact H1| | |exact H4|exact H5|exact H6].
  - intros t x Hx. destruct (H2 t x Hx) as [G1 G2]. split; [exact G1|]. intros Hn. by apply D, G2.
  - intros p x' Hx' Hw. destruct (F p x' Hx') as (x & Hx & Ew). rewrite Ew in *. by eapply H3.
Qed.

(** Changes to the endpoint at [a] that keep what the list's invariant says of it. *)
Lemma ep_inv_upd st ps a e e' :
  ep_inv st -> eps st !! a = Some e -> ep_id e' = ep_id e -> ep_flags e' = ep_flags e ->
  ep_owner e' = ep_owner e -> 1 <= refcount e' -> (forall p, is_Some (iprocs st !! p) -> is_Some (ps !! p)) ->
  ep_inv (with_iprocs (with_eps st (<[a := e']> (eps st))) ps).
Proof.
  intros [N H0 Hl U A X] He Ei Ef Eo Hr D. assert (a ≠ 0) as Ha0 by (intros ->; congruence).
  assert (forall b eb', <[a := e']> (eps st) !! b = Some eb' -> exists eb, eps st !! b = Some eb /\
    ep_id eb' = ep_id eb /\ ep_flags eb' = ep_flags eb) as Back.
  { intros b eb'. destruct (decide (b = a)) as [->|Hne].
    - rewrite lookup_insert_eq. intros [= <-]. by exists e.
    - rewrite lookup_insert_ne by done. intros Hb. by exists eb'. }
  split; cbn; [done|by rewrite lookup_insert_ne| | | |done].
  - intros b Hb. destruct (Hl b Hb) as (eb & Heb & L1 & L2). destruct (decide (b = a)) as [->|Hne].
    + assert (eb = e) as -> by congruence. rewrite lookup_insert_eq. exists e'. split; [done|].
      unfold alive. rewrite Ef. split; [done|]. unfold proc_ok. rewrite Eo. intros Hal H. by apply D, L2.
    + rewrite lookup_insert_ne by done. exists eb. do 2 (split; [done|]). intros Hal H. by apply D, L2.
  - intros b c eb ec Hb Hc (eb0 & Heb & E1 & F1)%Back (ec0 & Hec & E2 & F2)%Back. unfold alive. rewrite E1, E2, F1, F2.
    by apply (U b c eb0 ec0).
  - intros b eb (eb0 & Heb & _ & E2)%Back. unfold alive. rewrite E2. by apply A.
Qed.

(** An endpoint that is off the list may change as long as it stays dead, or go. *)
Lemma ep_inv_unlisted st es a :
  ep_inv st -> a ∉ endpoint_list st -> (forall b, b ≠ a -> es !! b = eps st !! b) ->
  (forall e, es !! a = Some e -> ~ alive e) -> a ≠ 0 -> ep_inv (with_eps st es).
Proof.
  intros [N H0 Hl U A X] Hn Hes Hd Ha0. split; cbn; [done| | | | |done].
  - by rewrite Hes.
  - intros b Hb. rewrite Hes by (intros ->; done). by apply Hl.
  - intros b c eb ec Hb Hc. rewrite !Hes by (intros ->; done). by apply U.
  - intros b eb. destruct (decide (b = a)) as [->|Hne]; [intros H1 H2; by destruct (Hd eb)|].
    rewrite Hes by done. apply A.
Qed.

(** What happens to one endpoint [a] of process [proc]: a live one is destroyed, and one that is dead
    already (it was created so) only leaves its owner's list. *)
Definition woken (e : ipc_endpoint) : list Z := if decide (alive e) then waiters e else [].

Record gone (st st' : ipc) (proc a : Z) (e : ipc_endpoint) : Prop := {
  go_list : endpoint_list st' = if decide (alive e) then without a (endpoint_list st) else endpoint_list st;
  go_eps : forall b, b ≠ a -> eps st' !! b = eps st !! b;
  go_dead : if decide (alive e) then forall e', eps st' !! a = Some e' -> ~ alive e' else eps st' !! a = eps st !! a;
  go_waits : forall w, waits st' !! w = (if decide (w ∈ woken e) then dead_wait else fun x => x) <$> waits st !! w;
  go_awake : forall w x, w ∈ woken e -> waits st !! w = Some x -> runnable st' (w_partner x);
  go_running : forall t, runnable st t -> runnable st' t;
  go_threads : forall t, (forall w x, w ∈ woken e -> waits st !! w = Some x -> w_partner x ≠ t) ->
    threads (sch st') !! t = threads (sch st) !! t;
  go_procs : disowned (iprocs st) proc a (iprocs st');
  go_rest : rest_kept st st'
}.

Lemma disown_twice a x : disown a (disown a x) = disown a x.
Proof. unfold disown. cbn. f_equal. apply without_id. rewrite elem_of_without. tauto. Qed.

Lemma disowned_insert ps proc a x : ps !! proc = Some x -> disowned ps proc a (<[proc := disown a x]> ps) \/ proc = 0.
Proof.
  intros Hx. destruct (decide (proc = 0)) as [|H0]; [by right|left]. intros p. destruct (decide (p = proc)) as [->|Hne].
  - by rewrite lookup_insert_eq, Hx, decide_True.
  - rewrite lookup_insert_ne, decide_False by (congruence || tauto). by destruct (ps !! p).
Qed.

Lemma disowned_again ps proc a ps1 ps2 : disowned ps proc a ps1 -> disowned ps1 proc a ps2 -> disowned ps proc a ps2.
Proof.
  intros D1 D2 p. rewrite D2, D1. destruct (ps !! p) as [x|]; [|done]. cbn. case_decide; [|done]. by rewrite disown_twice.
Qed.

(** One round of the loop. *)
Definition destroy_one (st : ipc) (proc a : Z) (x : iproc) : option ipc :=
  st ← upd_ep st a (fun e => ep_set_refs (refcount e + 1) e);
  st ← endpoint_destroy (with_iprocs st (<[proc := mk_ip (without a (owned_endpoints x))
                                                     (ipc_window_phys x)]> (iprocs st))) a;
  endpoint_put st a.

(** The state in which the loop calls [endpoint_destroy]. *)
Lemma destroy_held_inv st q proc x a e :
  ipc_inv st q -> ep_inv st -> proc ≠ 0 -> iprocs st !! proc = Some x -> eps st !! a = Some e -> 1 <= refcount e ->
  let st1 := with_iprocs (with_eps st (<[a := ep_set_refs (refcount e + 1) e]> (eps st))) (<[proc := disown a x]> (iprocs st)) in
  ipc_inv st1 q /\ ep_inv st1 /\ disowned (iprocs st) proc a (iprocs st1).
Proof.
  intros HI HE Hp0 Hx He Hr st1. destruct (disowned_insert (iprocs st) proc a x Hx) as [D|]; [|done].
  assert (forall p, is_Some (iprocs st !! p) -> is_Some (iprocs st1 !! p)) as Dm by (intros p; by apply disowned_dom with proc a).
  split; [|split; [|exact D]].
  - apply ipc_inv_iprocs; [apply ipc_inv_eps; [done|eapply queues_ok_same; [apply HI|exact He|done]]|exact Dm|].
    intros p x' Hx'. rewrite D in Hx'. cbn. destruct (iprocs st !! p) as [y|]; [|done]. injection Hx' as <-. exists y.
    split; [done|]. by case_decide.
  - apply (ep_inv_upd st _ a e _); try done. cbn. lia.
Qed.

(** A live endpoint: it is destroyed. *)
Lemma destroy_one_live st q proc x a e :
  ipc_inv st q -> ep_inv st -> proc ≠ 0 -> iprocs st !! proc = Some x -> eps st !! a = Some e -> alive e ->
  ep_owner e = proc ->
  exists st' q', destroy_one st proc a x = Some st' /\ ipc_inv st' q' /\ ep_inv st' /\ gone st st' proc a e.
Proof.
  intros HI HE Hp0 Hx He Ha Ho. pose proof HE as [N H0 Hl U A X]. assert (a ≠ 0) as Ha0 by (intros ->; congruence).
  destruct (A a e He Ha) as [Hf Hin]. destruct (Hl a Hin) as (e0 & He0 & Hr & _). assert (e0 = e) as -> by congruence.
  destruct (destroy_held_inv st q proc x a e HI HE Hp0 Hx He Hr) as (HI1 & HE1 & D).
  unfold destroy_one. rewrite (upd_ep_eq st a e) by done. cbn [mbind option_bind iprocs with_eps].
  change (mk_ip (without a (owned_endpoints x)) (ipc_window_phys x)) with (disown a x).
  set (e1 := ep_set_refs (refcount e + 1) e) in *. set (st1 := with_iprocs _ _) in *.
  destruct (endpoint_destroy_ok st1 q a e1 HI1 Ha0) as (st2 & q2 & E2 & HI2 & _ & DD).
  { apply lookup_insert_eq. } { exact Ha. } { exact Hf. }
  { intros _. eapply disowned_dom; [exact D|]. cbn. rewrite Ho. by exists x. } { cbn. lia. }
  rewrite E2. cbn [mbind option_bind].
  pose proof (destroyed_ep_inv st1 st2 a e1 HE1 DD (lookup_insert_eq _ _ _)) as HE2.
  destruct DD as [Ee [El En] D3 D4 D5 D6 D7 D8 D9].
  set (e2 := ep_set_refs _ _) in Ee. cbn [eps with_iprocs with_eps st1] in Ee. rewrite insert_insert_eq in Ee.
  destruct (endpoint_put_ok st2 q2 a e2 HI2 Ha0) as (st' & -> & HI' & Est'); [by rewrite Ee, lookup_insert_eq|].
  set (es := if refcount e2 - 1 =? 0 then delete a (eps st2) else <[a := ep_set_refs (refcount e2 - 1) e2]> (eps st2)) in Est'.
  assert (forall b, b ≠ a -> es !! b = eps st !! b) as Hes.
  { intros b Hb. unfold es. rewrite Ee. case_match.
    - by rewrite lookup_delete_ne, lookup_insert_ne.
    - by rewrite !lookup_insert_ne. }
  assert (forall e', es !! a = Some e' -> ~ alive e') as Hdead.
  { intros e'. unfold es. case_match; [by rewrite lookup_delete_eq|]. rewrite lookup_insert_eq.
    intros [= <-]. unfold alive, e2. cbn. by rewrite dead_flags_dead. }
  exists st', q2. split; [done|]. split; [done|]. split.
  - rewrite Est'. apply (ep_inv_unlisted st2 es a); try done.
    + rewrite El. rewrite elem_of_without. tauto.
    + intros b Hb. by rewrite Hes, Ee, lookup_insert_ne.
  - rewrite Est'. unfold woken. split; unfold woken; rewrite ?(decide_True (P := alive e)) by done; cbn;
      [exact El|exact Hes|exact Hdead|exact D3|exact D4|exact D6|exact D8| |by destruct D9].
    eapply disowned_again; [exact D|]. cbn [ep_owner e1 ep_set_refs] in D5. by rewrite Ho in D5.
Qed.

(** A dead one: [endpoint_destroy] returns at once. *)
Lemma destroy_one_dead st q proc x a e :
  ipc_inv st q -> ep_inv st -> proc ≠ 0 -> iprocs st !! proc = Some x -> eps st !! a = Some e -> ~ alive e -> 1 <= refcount e ->
  exists st' q', destroy_one st proc a x = Some st' /\ ipc_inv st' q' /\ ep_inv st' /\ gone st st' proc a e.
Proof.
  intros HI HE Hp0 Hx He Ha Hr. assert (a ≠ 0) as Ha0 by (intros ->; pose proof (ei_null _ HE); congruence).
  destruct (destroy_held_inv st q proc x a e HI HE Hp0 Hx He Hr) as (HI1 & HE1 & D).
  unfold destroy_one. rewrite (upd_ep_eq st a e) by done. cbn [mbind option_bind iprocs with_eps].
  change (mk_ip (without a (owned_endpoints x)) (ipc_window_phys x)) with (disown a x).
  set (e1 := ep_set_refs (refcount e + 1) e) in *. set (st1 := with_iprocs _ _) in *.
  assert (eps st1 !! a = Some e1) as He1 by apply lookup_insert_eq.
  assert (endpoint_destroy st1 a = Some st1) as ->.
  { unfold endpoint_destroy. rewrite (proj2 (Z.eqb_neq a 0) Ha0), He1. cbn [mbind option_bind]. unfold alive in Ha.
    cbn [ep_flags e1 ep_set_refs]. by destruct (ztrue (Z.land (ep_flags e) EP_FLAG_DEAD)). }
  cbn [mbind option_bind]. destruct (endpoint_put_ok st1 q a e1 HI1 Ha0 He1) as (st' & -> & HI' & Est').
  assert (ep_set_refs (refcount e1 - 1) e1 = e) as Ee by (destruct e; unfold e1, ep_set_refs; cbn; f_equal; lia).
  rewrite Ee in Est'. cbn [refcount e1 ep_set_refs] in Est'. rewrite (proj2 (Z.eqb_neq (refcount e + 1 - 1) 0)) in Est' by lia.
  cbn [eps st1 with_iprocs with_eps] in Est'. rewrite insert_insert_eq in Est'. rewrite (insert_id (eps st)) in Est' by done.
  exists st', q. split; [done|]. split; [done|]. split.
  - pose proof (ep_inv_upd st1 (iprocs st1) a e1 e HE1 He1 eq_refl eq_refl eq_refl Hr (fun p H => H)) as HE'.
    cbn [eps st1 with_iprocs with_eps] in HE'. rewrite insert_insert_eq, (insert_id (eps st)) in HE' by done. by rewrite Est'.
  - rewrite Est'. split; unfold woken; rewrite ?(decide_False (P := alive e)) by done; cbn; try done.
    + intros w. rewrite decide_False by apply not_elem_of_nil. by destruct (waits st !! w).
    + intros w y Hw. by apply not_elem_of_nil in Hw.
Qed.

(** [a] is a live endpoint of [l]; [w] is queued on one of them. *)
Definition doomed (st : ipc) (l : list Z) (a : Z) : Prop := a ∈ l /\ exists e, eps st !! a = Some e /\ alive e.
Definition waits_at (st : ipc) (l : list Z) (w : Z) : Prop :=
  exists a e, a ∈ l /\ eps st !! a = Some e /\ w ∈ woken e.

(** What happens to the endpoints [l] of a process: the live ones are off the global list and dead or
    freed, and their waiters are woken; no other endpoint, no other wait and no other thread changes,
    and the list is otherwise the same. *)
Record all_gone (st st' : ipc) (l : list Z) : Prop := {
  ag_gone : forall a, doomed st l a -> a ∉ endpoint_list st' /\ forall e, eps st' !! a = Some e -> ~ alive e;
  ag_kept : forall a, ~ doomed st l a -> eps st' !! a = eps st !! a /\ (a ∈ endpoint_list st -> a ∈ endpoint_list st');
  ag_list : sublist (endpoint_list st') (endpoint_list st);
  ag_dead : forall w x, waits_at st l w -> waits st !! w = Some x ->
    waits st' !! w = Some (dead_wait x) /\ runnable st' (w_partner x);
  ag_other : forall w, ~ waits_at st l w -> waits st' !! w = waits st !! w;
  ag_running : forall t, runnable st t -> runnable st' t;
  ag_threads : forall t, (forall w x, waits_at st l w -> waits st !! w = Some x -> w_partner x ≠ t) ->
    threads (sch st') !! t = threads (sch st) !! t
}.

Lemma ag_unlisted st st' l a : all_gone st st' l -> a ∉ endpoint_list st -> a ∉ endpoint_list st'.
Proof. intros AG Hn Ha. apply Hn. eapply elem_of_sublist; [exact Ha|]. apply AG. Qed.

Lemma woken_waiters e w : w ∈ woken e -> w ∈ waiters e.
Proof. unfold woken. case_decide; [done|]. by intros ?%not_elem_of_nil. Qed.

(** A record is queued on one endpoint only. *)
Lemma waiters_apart st q a b ea eb w :
  ipc_inv st q -> eps st !! a = Some ea -> eps st !! b = Some eb -> w ∈ woken ea -> w ∈ woken eb -> a = b.
Proof.
  intros HI Ha Hb Hwa%woken_waiters Hwb%woken_waiters. destruct (waiter_ok st q a ea w HI Ha Hwa) as (x & Hx & Ex & _).
  destruct (waiter_ok st q b eb w HI Hb Hwb) as (y & Hy & Ey & _). congruence.
Qed.

Lemma gone_without st st1 proc a e b : gone st st1 proc a e -> b ≠ a -> b ∈ endpoint_list st -> b ∈ endpoint_list st1.
Proof. intros G Hb Hin. rewrite (go_list _ _ _ _ _ G). case_decide; [|done]. by apply elem_of_without. Qed.

Lemma all_gone_cons st q st1 st' proc a e l :
  ipc_inv st q -> eps st !! a = Some e -> NoDup (a :: l) ->
  gone st st1 proc a e -> all_gone st1 st' l -> all_gone st st' (a :: l).
Proof.
  intros HI He [Hal _]%NoDup_cons G AG. pose proof G as [G1 G2 G3 G4 G5 G6 G7 _ _]. pose proof AG as [A1 A2 A3 A4 A5 A6 A7].
  assert (forall w, waits_at st1 l w -> waits_at st l w /\ w ∉ woken e) as Hback.
  { intros w (b & eb & Hb & Heb & Hw). rewrite G2 in Heb by set_solver. split; [by exists b, eb|].
    intros Hwe. assert (a = b) as -> by exact (waiters_apart st q a b e eb w HI He Heb Hwe Hw). done. }
  assert (forall w, waits_at st (a :: l) w <-> w ∈ woken e \/ waits_at st1 l w) as Hat.
  { intros w. split.
    - intros (b & eb & [->|Hb]%elem_of_cons & Heb & Hw); [left; congruence|]. right. exists b, eb. by rewrite G2 by set_solver.
    - intros [Hw|Hw]; [exists a, e; set_solver|]. destruct (Hback w Hw) as [(b & eb & Hb & R) _].
      exists b, eb. split; [set_solver|done]. }
  assert (forall b, b ≠ a -> doomed st (a :: l) b <-> doomed st1 l b) as Hdm.
  { intros b Hb. unfold doomed. rewrite G2 by done. set_solver. }
  assert (~ doomed st1 l a) as Hna by (intros [? _]; done).
  split.
  - intros b Hb. destruct (decide (b = a)) as [->|Hne]; [|by apply A1, Hdm]. destruct Hb as (_ & e' & He' & Ha).
    assert (e' = e) as -> by congruence. rewrite decide_True in G1 by done. rewrite decide_True in G3 by done. split.
    + apply (ag_unlisted _ _ _ _ AG). rewrite G1, elem_of_without. tauto.
    + intros e'. rewrite (proj1 (A2 a Hna)). apply G3.
  - intros b Hb. destruct (decide (b = a)) as [->|Hne].
    + assert (~ alive e) as Ha by (intros Ha; apply Hb; split; [set_solver|by exists e]). rewrite decide_False in G1 by done. rewrite decide_False in G3 by done.
      destruct (A2 a Hna) as [E1 E2]. rewrite E1, G3. split; [done|]. by rewrite G1 in E2.
    + destruct (A2 b) as [E1 E2]; [by rewrite <- Hdm|]. rewrite E1, G2 by done. split; [done|].
      intros Hin. apply E2. by eapply gone_without.
  - etransitivity; [exact A3|]. rewrite G1. case_decide; [apply sublist_filter|done].
  - intros w x [Hw|Hw]%Hat Hx.
    + rewrite A5 by (intros H; by destruct (Hback w H)). rewrite G4, Hx, decide_True by done.
      split; [done|]. apply A6. by eapply G5.
    + apply A4; [done|]. rewrite G4, Hx, decide_False by (apply Hback; done). done.
  - intros w Hw. rewrite A5 by (intros H; apply Hw, Hat; by right). rewrite G4, decide_False.
    + by destruct (waits st !! w).
    + intros H. apply Hw, Hat. by left.
  - auto.
  - intros t Ht. rewrite A7, G7; [done| |].
    + intros w x Hw. apply Ht, Hat. by left.
    + intros w x Hw Hx. rewrite G4, decide_False in Hx by (by apply Hback). apply (Ht w x); [apply Hat; by right|].
      by destruct (waits st !! w).
Qed.

(** The endpoints on a process's list are its own, and on the global list. *)
Definition owns (st : ipc) (proc : Z) (x : iproc) : Prop :=
  iprocs st !! proc = Some x /\ NoDup (owned_endpoints x) /\
  forall a, a ∈ owned_endpoints x -> exists e, eps st !! a = Some e /\ a ∈ endpoint_list st /\ ep_owner e = proc.

Lemma destroy_one_ok st q proc x a e :
  ipc_inv st q -> ep_inv st -> proc ≠ 0 -> iprocs st !! proc = Some x -> eps st !! a = Some e -> a ∈ endpoint_list st ->
  ep_owner e = proc ->
  exists st' q', destroy_one st proc a x = Some st' /\ ipc_inv st' q' /\ ep_inv st' /\ gone st st' proc a e.
Proof.
  intros HI HE Hp0 Hx He Hin Ho. destruct (decide (alive e)) as [Ha|Ha]; [by apply (destroy_one_live st q)|].
  destruct (ei_listed _ HE a Hin) as (e0 & He0 & Hr & _). assert (e0 = e) as -> by congruence. by apply (destroy_one_dead st q).
Qed.

Lemma destroy_owned_ok l : forall st q proc x,
  ipc_inv st q -> ep_inv st -> proc ≠ 0 -> owns st proc x -> owned_endpoints x = l ->
  exists st' q', destroy_owned_loop (length l) st proc = Some st' /\ ipc_inv st' q' /\ ep_inv st' /\
    (forall p, iprocs st' !! p = if decide (p = proc) then Some (mk_ip [] (ipc_window_phys x)) else iprocs st !! p) /\
    all_gone st st' l /\ rest_kept st st'.
Proof.
  induction l as [|a l IH]; intros st q proc x HI HE Hp0 (Hx & Hnd & Hown) El.
  - exists st, q. cbn [destroy_owned_loop length]. rewrite Hx. cbn [mbind option_bind]. rewrite El.
    do 3 (split; [done|]). split; [intros p; case_decide; [subst; rewrite Hx, <- El; by destruct x|done]|]. split; [|done].
    split; try done.
    + intros a [Ha _]. by apply not_elem_of_nil in Ha.
    + intros w y (a & e & Ha & _). by apply not_elem_of_nil in Ha.
  - destruct (Hown a) as (e & He & Hin & Ho); [rewrite El; set_solver|].
    destruct (destroy_one_ok st q proc x a e HI HE Hp0 Hx He Hin Ho) as (st1 & q1 & E1 & HI1 & HE1 & G).
    rewrite El in Hnd. pose proof (go_procs _ _ _ _ _ G) as GP.
    assert (iprocs st1 !! proc = Some (mk_ip l (ipc_window_phys x))) as Hx1.
    { rewrite GP, Hx, decide_True by done. cbn. unfold disown. by rewrite El, without_head. }
    destruct (IH st1 q1 proc (mk_ip l (ipc_window_phys x)) HI1 HE1 Hp0) as (st' & q' & E' & HI' & HE' & P' & AG & R); [|done|].
    { split; [done|]. cbn. split; [by inversion Hnd|]. intros b Hb.
      assert (b ≠ a) as Hba by (intros ->; apply NoDup_cons in Hnd; tauto).
      rewrite (go_eps _ _ _ _ _ G b Hba). destruct (Hown b) as (eb & ? & ? & ?); [rewrite El; set_solver|].
      exists eb. split; [done|]. split; [by eapply gone_without|done]. }
    exists st', q'. split; [|split; [done|split; [done|split; [|split; [by eapply all_gone_cons|]]]]].
    + cbn [destroy_owned_loop length]. rewrite Hx. cbn [mbind option_bind]. rewrite El.
      revert E1. unfold destroy_one. rewrite (upd_ep_eq st a e) by done. cbn [mbind option_bind iprocs with_eps].
      rewrite El. destruct (endpoint_destroy _ a) as [s2|]; cbn [mbind option_bind]; [|done].
      intros ->. exact E'.
    + intros p. rewrite P'. case_decide; [done|]. rewrite GP, decide_False by tauto. by destruct (iprocs st !! p).
    + eapply rest_kept_trans; [apply G|exact R].
Qed.

(** C29.  The end of a process takes its endpoints along: the loop of [ipc_destroy_owned_by_process]
    ends, and afterwards the process owns no endpoint; each of its live endpoints is off the global
    list and freed or dead (so that its id, well-known ones in particular, is free again); every
    thread that waited on one of them is runnable and will see IPC_ERR_DEAD.  Nothing else changes:
    no other endpoint, wait or thread, no other process's list, no IPC window, message, page or call in
    progress, and the global list is otherwise the same.  In particular an endpoint that its
    creator made with EP_FLAG_DEAD set stays on the global list, as it is, and is never freed:
    [endpoint_destroy] returns early.  The invariants of IPC and of the endpoint list are preserved. *)
Theorem destroy_owned_spec st q proc x :
  ipc_inv st q -> ep_inv st -> proc ≠ 0 -> owns st proc x ->
  exists st' q', ipc_destroy_owned_by_process st proc = Some st' /\ ipc_inv st' q' /\ ep_inv st' /\
    iprocs st' = <[proc := mk_ip [] (ipc_window_phys x)]> (iprocs st) /\
    all_gone st st' (owned_endpoints x) /\ rest_kept st st'.
Proof.
  intros HI HE Hp0 HO. pose proof HO as (Hx & _). unfold ipc_destroy_owned_by_process.
  rewrite (proj2 (Z.eqb_neq proc 0) Hp0), Hx. cbn [mbind option_bind].
  destruct (destroy_owned_ok (owned_endpoints x) st q proc x) as (st' & q' & ? & ? & ? & P & ? & ?); try done.
  exists st', q'. do 3 (split; [done|]). split; [|done]. apply map_eq. intros p. rewrite P.
  case_decide; [subst; by rewrite lookup_insert_eq|by rewrite lookup_insert_ne].
Qed.

(** ** Witnesses *)

Lemma ex_waiting_eps : ep_inv ex_waiting.
Proof.
  split; cbn [endpoint_list eps next_endpoint_id ex_waiting ex_state].
  - apply NoDup_singleton.
  - reflexivity.
  - intros a ->%list_elem_of_singleton. exists (ex_ep [] [20]). split; [reflexivity|].
    split; [cbn; lia|]. intros _. intros _. by eexists.
  - intros a b ea eb ->%list_elem_of_singleton ->%list_elem_of_singleton. done.
  - intros a e He. map_cases He. intros _. split; [reflexivity|]. by apply list_elem_of_singleton.
  - lia.
Qed.

Lemma endpoint_create_spec_witness :
  exists st' id, endpoint_create ex_waiting 2 0 50 = Some (50, st') /\ EP_WKE_MAX < id /\
    created ex_waiting st' 50 (mk_ep id (Z.lor 0 EP_FLAG_LISTED) [] [] 1 2 0 0 0) /\ ep_inv st' /\
    find_endpoint_locked st' id = Some 50.
Proof.
  refine (endpoint_create_spec ex_waiting 2 0 50 ex_waiting_eps _ _).
  - intros _. by eexists.
  - reflexivity.
Defined.

(** Id 4 claimed with the flags 8, which are EP_FLAG_DEAD, while id 3 is taken. *)
Lemma endpoint_create_well_known_spec_witness :
  (~ well_known 4 /\ endpoint_create_well_known ex_waiting 1 4 8 50 = Some (0, ex_waiting)) \/
  (well_known 4 /\ (exists a e, a ∈ endpoint_list ex_waiting /\ eps ex_waiting !! a = Some e /\ alive e /\ ep_id e = 4) /\
     endpoint_create_well_known ex_waiting 1 4 8 50 = Some (0, ex_waiting)) \/
  (well_known 4 /\ (forall a e, a ∈ endpoint_list ex_waiting -> eps ex_waiting !! a = Some e -> alive e -> ep_id e ≠ 4) /\
     exists st', endpoint_create_well_known ex_waiting 1 4 8 50 = Some (50, st') /\
       created ex_waiting st' 50 (mk_ep 4 (Z.lor 8 EP_FLAG_LISTED) [] [] 1 1 0 0 0) /\ ep_inv st' /\
       find_endpoint_locked st' 4 = Some 0).
Proof.
  refine (endpoint_create_well_known_spec ex_waiting 1 4 8 50 ex_waiting_eps _ _ _).
  - intros _. by eexists.
  - reflexivity.
  - done.
Defined.

Lemma dead_flag_claims_twice_witness :
  exists st1 st2, endpoint_create_well_known ex_waiting 1 4 8 50 = Some (50, st1) /\
    endpoint_create_well_known st1 2 4 0 60 = Some (60, st2) /\ endpoint_list st2 = 60 :: 50 :: endpoint_list ex_waiting.
Proof.
  apply dead_flag_claims_twice; try done; [apply ex_waiting_eps|intros _; by eexists|intros _; by eexists|].
  intros a e ->%list_elem_of_singleton He _. assert (Some (ex_ep [] [20]) = Some e) as [= <-] by (rewrite <- He; reflexivity). done.
Defined.

Lemma endpoint_destroy_spec_witness :
  exists st' q', endpoint_destroy ex_waiting 10 = Some st' /\ ipc_inv st' q' /\ ep_inv st' /\
    destroyed ex_waiting st' 10 (ex_ep [] [20]) /\
    find_endpoint_locked st' (ep_id (ex_ep [] [20])) ≠ Some 10 /\
    (well_known (ep_id (ex_ep [] [20])) -> find_endpoint_locked st' (ep_id (ex_ep [] [20])) = Some 0).
Proof.
  refine (endpoint_destroy_spec ex_waiting ex_rq 10 (ex_ep [] [20]) ex_waiting_inv ex_waiting_eps _ _ _).
  - reflexivity.
  - reflexivity.
  - cbn. lia.
Defined.

Lemma ex_waiting_owns : owns ex_waiting 2 (mk_ip [10] 8192).
Proof.
  split; [reflexivity|]. split; [apply NoDup_singleton|]. intros a ->%list_elem_of_singleton.
  exists (ex_ep [] [20]). split; [done|]. split; [by apply list_elem_of_singleton|done].
Qed.

Lemma destroy_owned_spec_witness :
  exists st' q', ipc_destroy_owned_by_process ex_waiting 2 = Some st' /\ ipc_inv st' q' /\ ep_inv st' /\
    iprocs st' = <[2 := mk_ip [] 8192]> (iprocs ex_waiting) /\ all_gone ex_waiting st' [10] /\ rest_kept ex_waiting st'.
Proof.
  refine (destroy_owned_spec ex_waiting ex_rq 2 (mk_ip [10] 8192) ex_waiting_inv ex_waiting_eps _ ex_waiting_owns).
  done.
Defined.

(** The same endpoint with the creation reference only. *)
Definition ex_last : ipc := with_eps ex_waiting {[ 10 := ep_set_refs 1 (ex_ep [] [20]) ]}.

Lemma ex_last_inv : ipc_inv ex_last ex_rq /\ ep_inv ex_last.
Proof.
  split.
  - apply ipc_inv_eps; [apply ex_waiting_inv|]. intros a e He. map_cases He.
    exact (ii_queues _ _ ex_waiting_inv 10 (ex_ep [] [20]) eq_refl).
  - exact (ep_inv_upd ex_waiting (iprocs ex_waiting) 10 (ex_ep [] [20]) (ep_set_refs 1 (ex_ep [] [20])) ex_waiting_eps
      eq_refl eq_refl eq_refl eq_refl (Z.le_refl 1) (fun _ H => H)).
Qed.

Lemma destroy_last_reference_unsafe_witness : endpoint_destroy ex_last 10 = None.
Proof.
  refine (destroy_last_reference_unsafe ex_last ex_rq 10 (ep_set_refs 1 (ex_ep [] [20])) (proj1 ex_last_inv)
    (proj2 ex_last_inv) _ _ _); reflexivity.
Defined.
