(* ===== verification/Vmm.v ===== *)
(** * Address spaces (kernel/mm/vmm.c, kernel/mm/fault.c, kernel/proc/ipc_window.c)

    The code: VMA lists, mapping and unmapping of regions, protection, cloning and destruction of
    address spaces, the page fault handler and the IPC window of a process.  The slab caches
    [vma_cache] and [address_space_cache] are never set, so every VMA and address space lives in
    a page of its own, whose address is its pointer; its fields are a record.  Messages printed on
    errors are left out.  The theorems are in VmmSpace.v. *)
From S2P Require Import Prelude Defs IpcTag Paging.

Definition VMA_READ : Z := Z.shiftl 1 0.
Definition VMA_WRITE : Z := Z.shiftl 1 1.
Definition VMA_EXEC : Z := Z.shiftl 1 2.
Definition VMA_STACK : Z := Z.shiftl 1 4.
Definition VMA_ANONYMOUS : Z := Z.shiftl 1 6.

Definition KERNEL_SPACE_START : Z := 0xFFFF800000000000.
Definition USER_SPACE_END : Z := 0x00007FFFFFFFFFFF.

Definition PF_PRESENT : Z := Z.shiftl 1 0.
Definition PF_WRITE : Z := Z.shiftl 1 1.
Definition PF_USER : Z := Z.shiftl 1 2.

Definition OCEAN_IPC_WINDOW_VA : Z := 0x0000700000000000.

(** The fields in use: no code sets [file] or [file_offset]. *)
Record vm_area := mk_vma {
  vma_ptr : Z;
  vma_start : Z;
  vma_end : Z;
  vma_flags : Z;
  page_prot : Z
}.

Record address_space := mk_as {
  as_ptr : Z;
  pml4 : Z;
  pml4_phys : Z;
  vma_list : list vm_area;
  vma_count : Z;
  brk : Z;
  start_brk : Z;
  start_stack : Z;
  total_vm : Z;
  ref_count : Z
}.

Definition with_vmas (a : address_space) (l : list vm_area) (count : Z) : address_space :=
  mk_as (as_ptr a) (pml4 a) (pml4_phys a) l count (brk a) (start_brk a) (start_stack a) (total_vm a) (ref_count a).
Definition with_total (a : address_space) (n : Z) : address_space :=
  mk_as (as_ptr a) (pml4 a) (pml4_phys a) (vma_list a) (vma_count a) (brk a) (start_brk a) (start_stack a) n (ref_count a).
Definition with_refs (a : address_space) (n : Z) : address_space :=
  mk_as (as_ptr a) (pml4 a) (pml4_phys a) (vma_list a) (vma_count a) (brk a) (start_brk a) (start_stack a) (total_vm a) n.
Definition with_layout (a : address_space) (b sb ss tv : Z) : address_space :=
  mk_as (as_ptr a) (pml4 a) (pml4_phys a) (vma_list a) (vma_count a) b sb ss tv (ref_count a).

Definition set_range (v : vm_area) (s e : Z) : vm_area := mk_vma (vma_ptr v) s e (vma_flags v) (page_prot v).
Definition set_prot (v : vm_area) (fl pr : Z) : vm_area := mk_vma (vma_ptr v) (vma_start v) (vma_end v) fl pr.

(** A write through a pointer to a VMA of the list. *)
Definition update_vma (l : list vm_area) (ptr : Z) (f : vm_area -> vm_area) : list vm_area :=
  map (fun v => if vma_ptr v =? ptr then f v else v) l.
(** [list_del(&vma->list)] by pointer. *)
Definition remove_vma (l : list vm_area) (ptr : Z) : list vm_area := base.filter (fun v => vma_ptr v ≠ ptr) l.

Definition vma_to_pte_flags (flags : Z) : Z :=
  let pte_flags := PTE_PRESENT in
  let pte_flags := if ztrue (Z.land flags VMA_WRITE) then Z.lor pte_flags PTE_WRITABLE else pte_flags in
  let pte_flags := if negb (ztrue (Z.land flags VMA_EXEC)) then Z.lor pte_flags PTE_NX else pte_flags in
  Z.lor pte_flags PTE_USER.

Fixpoint find_vma (l : list vm_area) (addr : Z) : option vm_area :=
  match l with
  | [] => None
  | v :: l =>
      if (vma_start v <=? addr) && (addr <? vma_end v) then Some v
      else if addr <? vma_start v then None
      else find_vma l addr
  end.
Definition vmm_find_vma (a : address_space) (addr : Z) : option vm_area := find_vma (vma_list a) addr.

Fixpoint find_intersect (l : list vm_area) (start fin : Z) : option vm_area :=
  match l with
  | [] => None
  | v :: l =>
      if (vma_start v <? fin) && (start <? vma_end v) then Some v
      else if fin <=? vma_start v then None
      else find_intersect l start fin
  end.
Definition vma_find_intersect (a : address_space) (start fin : Z) : option vm_area :=
  find_intersect (vma_list a) start fin.

(** Before the first VMA that starts later, else at the end. *)
Fixpoint insert_sorted (l : list vm_area) (new : vm_area) : list vm_area :=
  match l with
  | [] => [new]
  | v :: l => if vma_start new <? vma_start v then new :: v :: l else v :: insert_sorted l new
  end.
Definition vma_insert (a : address_space) (new : vm_area) : address_space :=
  with_vmas a (insert_sorted (vma_list a) new) (u64 (vma_count a + 1)).

Section code.
Context {S : Type} `{PageAllocator S}.
Implicit Types (st : mmu S) (a : address_space).

Definition get_free_page st : option (Z * mmu S) :=
  '(page, s) ← simple_get_free_page (frames_of st); Some (page, with_frames_of st s).
Definition free_page st (addr : Z) : option (mmu S) :=
  s ← simple_free_page (frames_of st) addr; Some (with_frames_of st s).
(** [memset(page, 0, PAGE_SIZE)] *)
Definition clear_page st (page : Z) : mmu S := with_mem st (<[page := zero_page]> (mem st)).
(** [memcpy(dst, src, PAGE_SIZE)] *)
Definition copy_page st (dst src : Z) : option (mmu S) :=
  l ← mem st !! src; Some (with_mem st (<[dst := l]> (mem st))).

(** The pointer is 0 for NULL; the VMA is zeroed. *)
Definition vma_alloc st : option (vm_area * mmu S) :=
  '(p, st) ← get_free_page st; Some (mk_vma p 0 0 0 0, st).
Definition vma_free st (v : vm_area) : option (mmu S) := free_page st (vma_ptr v).

Definition vmm_create_address_space st : option (option address_space * mmu S) :=
  '(p, st) ← get_free_page st;
  if p =? 0 then Some (None, st) else
  '(root, st) ← paging_create_pml4 st;
  if root =? 0 then st ← free_page st p; Some (None, st) else
  Some (Some (mk_as p root (u64 (root - boot_hhdm (frames_of st))) [] 0 0 0 0 0 1), st).

(** The frame behind a page is given back if the page is present; whether it was. *)
Definition free_mapped st (root addr : Z) : option (bool * mmu S) :=
  '(pte, st) ← paging_get_pte st root addr;
  match pte with
  | None => Some (false, st)
  | Some (t, i) =>
      e ← load st t i;
      if ztrue (Z.land e PTE_PRESENT) then
        st ← free_page st (phys_to_virt_local st (Z.land e PTE_ADDR_MASK)); Some (true, st)
      else Some (false, st)
  end.

Definition free_pages_of st (root : Z) (v : vm_area) : option (mmu S) :=
  r ← page_loop (R := mmu S) (pages_in (vma_start v) (vma_end v)) (vma_start v) (vma_end v)
        (fun addr st => '(_, st) ← free_mapped st root addr; Some (inl st)) st;
  match r with inl st => Some st | inr st => Some st end.

Fixpoint destroy_vmas st (root : Z) (l : list vm_area) : option (mmu S) :=
  match l with
  | [] => Some st
  | v :: l => st ← free_pages_of st root v; st ← vma_free st v; destroy_vmas st root l
  end.

(** The address space is gone ([None]) or still referenced. *)
Definition vmm_destroy_address_space st a : option (option address_space * mmu S) :=
  let a := with_refs a (u32 (ref_count a - 1)) in
  if 0 <? ref_count a then Some (Some a, st) else
  st ← destroy_vmas st (pml4 a) (vma_list a);
  st ← paging_destroy_pml4 st (pml4 a);
  st ← free_page st (as_ptr a);
  Some (None, st).

(** The pages from [lo] to [hi] are given back and unmapped; the number given back. *)
Definition unmap_pages st (root lo hi n : Z) : option (mmu S * Z) :=
  r ← page_loop (R := mmu S * Z) (pages_in lo hi) lo hi
        (fun addr '(st, n) =>
           '(was, st) ← free_mapped st root addr;
           '(_, st) ← paging_unmap st root addr;
           Some (inl (st, if (was : bool) then u64 (n + 1) else n))) (st, n);
  match r with inl x => Some x | inr x => Some x end.

(** The loop over the VMAs: the new list, the counter of VMAs and the number of pages unmapped.  A
    VMA made by a split is not visited. *)
Fixpoint unmap_vmas st (root start fin : Z) (l : list vm_area) (count n : Z)
  : option (list vm_area * Z * Z * mmu S) :=
  match l with
  | [] => Some ([], count, n, st)
  | v :: l =>
      if fin <=? vma_start v then Some (v :: l, count, n, st)
      else if vma_end v <=? start then
        '(l, count, n, st) ← unmap_vmas st root start fin l count n; Some (v :: l, count, n, st)
      else
        let us := if start <? vma_start v then vma_start v else start in
        let ue := if vma_end v <? fin then vma_end v else fin in
        '(st, n) ← unmap_pages st root us ue n;
        if (us =? vma_start v) && (ue =? vma_end v) then
          st ← vma_free st v;
          unmap_vmas st root start fin l (u64 (count - 1)) n
        else if us =? vma_start v then
          '(l, count, n, st) ← unmap_vmas st root start fin l count n;
          Some (set_range v ue (vma_end v) :: l, count, n, st)
        else if ue =? vma_end v then
          '(l, count, n, st) ← unmap_vmas st root start fin l count n;
          Some (set_range v (vma_start v) us :: l, count, n, st)
        else
          '(new, st) ← vma_alloc st;
          if vma_ptr new =? 0 then
            '(l, count, n, st) ← unmap_vmas st root start fin l count n; Some (v :: l, count, n, st)
          else
            '(l, count, n, st) ← unmap_vmas st root start fin l (u64 (count + 1)) n;
            Some (set_range v (vma_start v) us ::
                  mk_vma (vma_ptr new) ue (vma_end v) (vma_flags v) (page_prot v) :: l, count, n, st)
  end.

Definition vmm_unmap_region st a (start size : Z) : option (Z * address_space * mmu S) :=
  let fin := u64 (start + size) in
  '(l, count, unmapped_pages, st) ← unmap_vmas st (pml4 a) start fin (vma_list a) (vma_count a) 0;
  let a := with_vmas a l count in
  Some (0, with_total a (if unmapped_pages <=? total_vm a then total_vm a - unmapped_pages else 0), st).

(** Map new pages from [start] on; [inr] is a failure at an address. *)
Definition map_new_pages st (root start fin pte_flags : Z) : option (mmu S + mmu S * Z) :=
  page_loop (pages_in start fin) start fin
    (fun addr st =>
       '(page, st) ← get_free_page st;
       if page =? 0 then Some (inr (st, addr)) else
       '(ret, st) ← paging_map st root addr (u64 (page - boot_hhdm (frames_of st))) pte_flags;
       if negb (ret =? 0) then st ← free_page st page; Some (inr (st, addr))
       else Some (inl (clear_page st page))) st.

Definition vmm_map_region st a (start size flags : Z) : option (Z * address_space * mmu S) :=
  let fin := u64 (start + size) in
  match vma_find_intersect a start fin with
  | Some _ => Some (-1, a, st)
  | None =>
      '(new, st) ← vma_alloc st;
      if vma_ptr new =? 0 then Some (-1, a, st) else
      let pte_flags := vma_to_pte_flags flags in
      let a := vma_insert a (mk_vma (vma_ptr new) start fin flags pte_flags) in
      r ← map_new_pages st (pml4 a) start fin pte_flags;
      match r with
      | inl st => Some (0, with_total a (u64 (total_vm a + size / PAGE_SIZE)), st)
      | inr (st, addr) =>
          '(_, a, st) ← vmm_unmap_region st a start (u64 (addr - start));
          Some (-1, a, st)
      end
  end.

Definition vmm_map_to_user st a (virt phys size flags : Z) : option (Z * address_space * mmu S) :=
  let fin := u64 (virt + size) in
  match vma_find_intersect a virt fin with
  | Some _ => Some (-1, a, st)
  | None =>
      '(new, st) ← vma_alloc st;
      if vma_ptr new =? 0 then Some (-1, a, st) else
      let pte_flags := vma_to_pte_flags flags in
      let a := vma_insert a (mk_vma (vma_ptr new) virt fin flags pte_flags) in
      '(ret, st) ← paging_map_range st (pml4 a) virt phys size pte_flags;
      if negb (ret =? 0) then
        st ← vma_free st new;
        Some (-1, with_vmas a (remove_vma (vma_list a) (vma_ptr new)) (u64 (vma_count a - 1)), st)
      else Some (0, with_total a (u64 (total_vm a + size / PAGE_SIZE)), st)
  end.

(** The search of [vmm_mmap] in steps of 256 pages from 256 MiB: one step ends the loop ([inl]) or
    gives the next address, and [2^k] steps are twice [2^(k-1)]. *)
Definition mmap_try a (size addr : Z) : Z + Z :=
  if u64 (addr + size) <? USER_SPACE_END then
    match vma_find_intersect a addr (u64 (addr + size)) with
    | None => inl addr
    | Some _ => inr (u64 (addr + PAGE_SIZE * 256))
    end
  else inl addr.
Fixpoint mmap_tries (k : nat) a (size addr : Z) : Z + Z :=
  match k with
  | O => mmap_try a size addr
  | Datatypes.S k =>
      match mmap_tries k a size addr with inl r => inl r | inr addr => mmap_tries k a size addr end
  end.
Definition mmap_search a (addr size : Z) : option Z :=
  match mmap_tries 28 a size addr with inl r => Some r | inr _ => None end.

Definition mmap_flags (prot flags : Z) : Z :=
  let f := 0 in
  let f := if ztrue (Z.land prot VMA_READ) then Z.lor f VMA_READ else f in
  let f := if ztrue (Z.land prot VMA_WRITE) then Z.lor f VMA_WRITE else f in
  let f := if ztrue (Z.land prot VMA_EXEC) then Z.lor f VMA_EXEC else f in
  if ztrue (Z.land flags VMA_ANONYMOUS) then Z.lor f VMA_ANONYMOUS else f.

Definition is_some {A} (o : option A) : bool := match o with Some _ => true | None => false end.

Definition vmm_mmap st a (hint size prot flags : Z) : option (Z * address_space * mmu S) :=
  let size := PAGE_ALIGN size in
  let searched := (hint =? 0) || is_some (vma_find_intersect a hint (u64 (hint + size))) in
  addr ← (if searched then mmap_search a 0x10000000 size else Some hint);
  if searched && (USER_SPACE_END <=? u64 (addr + size)) then Some (u64 (-1), a, st) else
  '(ret, a, st) ← vmm_map_region st a addr size (mmap_flags prot flags);
  Some (if negb (ret =? 0) then u64 (-1) else addr, a, st).

Definition vmm_munmap st a (addr size : Z) := vmm_unmap_region st a addr size.

Definition protect_pages st (root addr fin new_pte_flags : Z) : option (mmu S) :=
  r ← page_loop (R := mmu S) (pages_in addr fin) addr fin
        (fun x st =>
           '(pte, st) ← paging_get_pte st root x;
           match pte with
           | None => Some (inl st)
           | Some (t, i) =>
               e ← load st t i;
               if ztrue (Z.land e PTE_PRESENT) then
                 st ← store st t i (Z.lor (Z.land e PTE_ADDR_MASK) new_pte_flags);
                 Some (inl (tlb_flush_page st x))
               else Some (inl st)
           end) st;
  match r with inl st => Some st | inr st => Some st end.

Definition vmm_mprotect st a (addr size prot : Z) : option (Z * address_space * mmu S) :=
  let fin := u64 (addr + size) in
  match vmm_find_vma a addr with
  | None => Some (-1, a, st)
  | Some v =>
      if (addr <? vma_start v) || (vma_end v <? fin) then Some (-1, a, st) else
      let flags := Z.lor (Z.land (vma_flags v) (lnotw 32 (Z.lor (Z.lor VMA_READ VMA_WRITE) VMA_EXEC))) prot in
      let new_pte_flags := vma_to_pte_flags flags in
      let a := with_vmas a (update_vma (vma_list a) (vma_ptr v) (fun v => set_prot v flags new_pte_flags)) (vma_count a) in
      st ← protect_pages st (pml4 a) addr fin new_pte_flags;
      Some (0, a, st)
  end.

(** The pages of one VMA are copied; [inr] is a failure. *)
Definition clone_pages st (src dst lo hi : Z) : option (mmu S + mmu S) :=
  page_loop (pages_in lo hi) lo hi
    (fun addr st =>
       '(pte, st) ← paging_get_pte st src addr;
       match pte with
       | None => Some (inl st)
       | Some (t, i) =>
           e ← load st t i;
           if negb (ztrue (Z.land e PTE_PRESENT)) then Some (inl st) else
           let src_phys := Z.land e PTE_ADDR_MASK in
           let flags := Z.land e (lnotw 64 PTE_ADDR_MASK) in
           '(page, st) ← get_free_page st;
           if page =? 0 then Some (inr st) else
           let new_phys := u64 (page - boot_hhdm (frames_of st)) in
           st ← copy_page st page (phys_to_virt_local st src_phys);
           '(ret, st) ← paging_map st dst addr new_phys flags;
           if negb (ret =? 0) then st ← free_page st page; Some (inr st)
           else Some (inl st)
       end) st.

(** The loop over the source's VMAs; [inr] is the state after a failure. *)
Fixpoint clone_vmas st (src : Z) (dst : address_space) (l : list vm_area)
  : option (address_space * mmu S + mmu S) :=
  match l with
  | [] => Some (inl (dst, st))
  | v :: l =>
      '(new, st) ← vma_alloc st;
      if vma_ptr new =? 0 then
        '(_, st) ← vmm_destroy_address_space st dst; Some (inr st)
      else
        let new := mk_vma (vma_ptr new) (vma_start v) (vma_end v) (vma_flags v) (page_prot v) in
        r ← clone_pages st src (pml4 dst) (vma_start v) (vma_end v);
        match r with
        | inr st => st ← vma_free st new; '(_, st) ← vmm_destroy_address_space st dst; Some (inr st)
        | inl st => clone_vmas st src (vma_insert dst new) l
        end
  end.

Definition vmm_clone_address_space st a : option (option address_space * mmu S) :=
  '(dst, st) ← vmm_create_address_space st;
  match dst with
  | None => Some (None, st)
  | Some dst =>
      r ← clone_vmas st (pml4 a) dst (vma_list a);
      match r with
      | inr st => Some (None, st)
      | inl (dst, st) => Some (Some (with_layout dst (brk a) (start_brk a) (start_stack a) (total_vm a)), st)
      end
  end.

(** ** Page faults (fault.c) *)

(** [pte] is the entry [i] of table [t]. *)
Definition handle_cow_fault st (fault_addr t i : Z) : option (Z * mmu S) :=
  e ← load st t i;
  let old_phys := Z.land e PTE_ADDR_MASK in
  '(page, st) ← get_free_page st;
  if page =? 0 then Some (-1, st) else
  st ← copy_page st page (phys_to_virt_local st old_phys);
  let new_phys := u64 (page - boot_hhdm (frames_of st)) in
  st ← store st t i (Z.lor new_phys
         (Z.lor (Z.land e (lnotw 64 (Z.lor PTE_ADDR_MASK PTE_COW))) PTE_WRITABLE));
  Some (0, tlb_flush_page st (Z.land fault_addr (lnotw 64 (PAGE_SIZE - 1)))).

Definition handle_demand_fault st a (fault_addr : Z) (v : vm_area) : option (Z * mmu S) :=
  '(page, st) ← get_free_page st;
  if page =? 0 then Some (-1, st) else
  let st := clear_page st page in
  let phys := u64 (page - boot_hhdm (frames_of st)) in
  let page_addr := Z.land fault_addr (lnotw 64 (PAGE_SIZE - 1)) in
  '(ret, st) ← paging_map st (pml4 a) page_addr phys (page_prot v);
  if negb (ret =? 0) then st ← free_page st page; Some (-1, st) else Some (0, st).

Definition grow_pages st (root lo hi prot : Z) : option (mmu S + mmu S) :=
  page_loop (pages_in lo hi) lo hi
    (fun addr st =>
       '(page, st) ← get_free_page st;
       if page =? 0 then Some (inr st) else
       let st := clear_page st page in
       '(ret, st) ← paging_map st root addr (u64 (page - boot_hhdm (frames_of st))) prot;
       if negb (ret =? 0) then st ← free_page st page; Some (inr st) else Some (inl st)) st.

Definition handle_stack_growth st a (fault_addr : Z) (v : vm_area) : option (Z * address_space * mmu S) :=
  let page_addr := Z.land fault_addr (lnotw 64 (PAGE_SIZE - 1)) in
  if (u64 (vma_start v - 256 * PAGE_SIZE) <=? page_addr) && (page_addr <? vma_start v) then
    let new_start := Z.land page_addr (lnotw 64 (PAGE_SIZE - 1)) in
    r ← grow_pages st (pml4 a) new_start (vma_start v) (page_prot v);
    match r with
    | inr st => Some (-1, a, st)
    | inl st =>
        let added_pages := (vma_start v - new_start) / PAGE_SIZE in
        let a := with_vmas a (update_vma (vma_list a) (vma_ptr v) (fun v => set_range v new_start (vma_end v))) (vma_count a) in
        Some (0, with_total a (u64 (total_vm a + added_pages)), st)
    end
  else Some (-1, a, st).

(** The first stack VMA that the fault may grow. *)
Definition grows_to (fault_addr : Z) (v : vm_area) : bool :=
  ztrue (Z.land (vma_flags v) VMA_STACK) && (fault_addr <? vma_start v) &&
  (u64 (vma_start v - 256 * PAGE_SIZE) <=? fault_addr).

(** [a] is the current address space. *)
Definition vmm_page_fault st a (fault_addr error_code : Z) : option (Z * address_space * mmu S) :=
  let is_present := ztrue (Z.land error_code PF_PRESENT) in
  let is_write := ztrue (Z.land error_code PF_WRITE) in
  let is_user := ztrue (Z.land error_code PF_USER) in
  let cow st :=
    '(pte, st) ← paging_get_pte st (pml4 a) fault_addr;
    match pte with
    | Some (t, i) =>
        e ← load st t i;
        if ztrue (Z.land e PTE_COW) then '(ret, st) ← handle_cow_fault st fault_addr t i; Some (ret, a, st)
        else Some (-1, a, st)
    | None => Some (-1, a, st)
    end in
  if negb is_user && (KERNEL_SPACE_START <=? fault_addr) then Some (-1, a, st) else
  match vmm_find_vma a fault_addr with
  | None =>
      match List.find (grows_to fault_addr) (vma_list a) with
      | Some v => handle_stack_growth st a fault_addr v
      | None => Some (-1, a, st)
      end
  | Some v =>
      if is_write && negb (ztrue (Z.land (vma_flags v) VMA_WRITE)) then cow st
      else if negb is_present then '(ret, st) ← handle_demand_fault st a fault_addr v; Some (ret, a, st)
      else if is_write then cow st
      else Some (-1, a, st)
  end.

(** ** The active address space: paging_switch (paging.c), vmm_set_current (fault.c) *)

(** The current address space by pointer, [None] for NULL. *)
Definition paging_switch st (current : option Z) (a : option address_space) : mmu S * option Z :=
  match a with
  | Some a => if negb (pml4_phys a =? 0) then (write_cr3 st (pml4_phys a), Some (as_ptr a)) else (st, current)
  | None => (st, current)
  end.

Definition vmm_get_current (current : option Z) (kernel_space : Z) : Z := default kernel_space current.

(** [phys] is [kernel_pml4_phys], set by [paging_init] from CR3. *)
Definition kernel_space_init st (phys ptr : Z) (a : address_space) : address_space :=
  mk_as ptr (kernel_pml4 st) phys [] 0 (brk a) (start_brk a) (start_stack a) (total_vm a) 1.

Definition vmm_init st (ptr : Z) (a : address_space) : mmu S * address_space :=
  let phys := Z.land (cr3 st) PTE_ADDR_MASK in
  let st := paging_init st in
  (st, kernel_space_init st phys ptr a).

(** ** The IPC window of a process (ipc_window.c) *)

(** [mm] is the process's address space, [w] its [ipc_window_phys]; both are returned. *)
Definition process_setup_ipc_window st (mm : option address_space) (w : Z)
  : option (Z * option address_space * Z * mmu S) :=
  match mm with
  | None => Some (-1, mm, w, st)
  | Some a =>
      '(a, w, st) ← (if ztrue w then
          '(_, a, st) ← vmm_unmap_region st a OCEAN_IPC_WINDOW_VA OCEAN_IPC_WINDOW_SIZE; Some (a, 0, st)
        else Some (a, w, st));
      let flags := Z.lor (Z.lor VMA_READ VMA_WRITE) VMA_ANONYMOUS in
      '(ret, a, st) ← vmm_map_region st a OCEAN_IPC_WINDOW_VA OCEAN_IPC_WINDOW_SIZE flags;
      if negb (ret =? 0) then Some (-1, Some a, w, st) else
      phys ← paging_get_phys st (pml4 a) OCEAN_IPC_WINDOW_VA;
      if (phys =? 0) || (phys =? u64 (-1)) then
        '(_, a, st) ← vmm_unmap_region st a OCEAN_IPC_WINDOW_VA OCEAN_IPC_WINDOW_SIZE;
        Some (-1, Some a, w, st)
      else Some (0, Some a, phys, st)
  end.

Definition process_adopt_ipc_window st (mm : option address_space) (w : Z) : option Z :=
  match mm with
  | None => Some w
  | Some a =>
      phys ← paging_get_phys st (pml4 a) OCEAN_IPC_WINDOW_VA;
      Some (if phys =? u64 (-1) then 0 else phys)
  end.

End code.
