(* ===== verification/VmmSpace.v ===== *)
(** * Ownership of pages by an address space (kernel/mm/vmm.c)

    Every page an address space holds has one role: a page table, the data behind a user page, or
    a kernel structure (the [address_space] and its [vm_area]s, and pages in hand between
    allocation and mapping).  The elementary steps of vmm.c (taking a page, giving one back,
    mapping one, unmapping one) keep that assignment right, conserve the pages that are free or
    owned, and leave the contents of all other pages alone. *)
From S2P Require Import Prelude Defs Paging PagingSpace PagingPmm Vmm.

#[local] Set Default Proof Using "All".

Inductive role :=
  | Table (p : list Z)
  | Data (p : Z)
  | Struct.

#[export] Instance role_eq_dec : EqDecision role.
Proof. solve_decision. Defined.

Definition role_table (r : role) : option (list Z) := match r with Table p => Some p | _ => None end.
Definition own_of (R : gmap Z role) : gmap Z (list Z) := omap role_table R.

Lemma own_of_lookup R t p : own_of R !! t = Some p <-> R !! t = Some (Table p).
Proof.
  unfold own_of. rewrite lookup_omap. destruct (R !! t) as [[q|q|]|]; simpl; naive_solver.
Qed.

Lemma own_of_ext R R' : (forall t p, R' !! t = Some (Table p) <-> R !! t = Some (Table p)) -> own_of R' = own_of R.
Proof.
  intros E. apply map_eq. intros t. apply option_eq. intros p. by rewrite !own_of_lookup.
Qed.

Section roles.
Context {S : Type} `{PA : PageAllocator S} {PAL : PageAllocatorLaws S}.
Implicit Types (st : mmu S) (R : gmap Z role).

(** Every page frame of the allocator is memory. *)
Definition mem_total st : Prop :=
  forall f, pa_managed (frames_of st) f -> exists l, mem st !! hhdm_page (frames_of st) f = Some l /\ table_words l.

(** The pages below the PML4 [root] and in the hands of its owner. *)
Record core_inv st (root : Z) R : Prop := {
  ci_tree : tree st root (own_of R);
  ci_reach : reach st root (own_of R);
  ci_held : forall t r, R !! t = Some r -> held_page (frames_of st) t;
  ci_data : forall t p, R !! t = Some (Data p) <->
    0 <= p < space_pages /\ exists e, translation st root (p * 4096) = Some e /\ target st e = t;
  ci_mem : mem_total st
}.

(** From one assignment of roles to another: no page is lost or used twice, and a page neither
    free nor owned is left alone. *)
Record vstep st R st' R' : Prop := {
  vs_same : same_memory (frames_of st) (frames_of st');
  vs_conserve : forall f, (pa_free (frames_of st') f \/ is_Some (R' !! hhdm_page (frames_of st) f)) <->
    (pa_free (frames_of st) f \/ is_Some (R !! hhdm_page (frames_of st) f));
  vs_frame : forall t, R !! t = None -> (forall f, t = hhdm_page (frames_of st) f -> ~ pa_free (frames_of st) f) ->
    mem st' !! t = mem st !! t /\ R' !! t = None;
  vs_rest : kernel_pml4 st' = kernel_pml4 st /\ cr3 st' = cr3 st
}.

Lemma hhdm_page_same s s' f : same_memory s s' -> hhdm_page s' f = hhdm_page s f.
Proof. intros [E _]. unfold hhdm_page. by rewrite E. Qed.

Lemma vstep_refl st R : vstep st R st R.
Proof. by split. Qed.

Lemma vstep_trans st R st1 R1 st2 R2 : vstep st R st1 R1 -> vstep st1 R1 st2 R2 -> vstep st R st2 R2.
Proof.
  intros [A1 A2 A3 [A4 A5]] [B1 B2 B3 [B4 B5]]. split.
  - by eapply same_memory_trans.
  - intros f. specialize (B2 f). rewrite (hhdm_page_same _ _ f A1) in B2. by rewrite B2, A2.
  - intros t Ht Hf. destruct (A3 t Ht Hf) as [E1 N1]. destruct (B3 t N1) as [E2 N2]; [|split; [congruence|done]].
    intros f Ef Hfree. rewrite (hhdm_page_same _ _ f A1) in Ef. destruct (proj1 (A2 f)) as [?|Ho]; [by left|by apply (Hf f)|].
    rewrite <- Ef, Ht in Ho. by destruct Ho.
  - split; congruence.
Qed.

Lemma held_not_free s t f : held_page s t -> t = hhdm_page s f -> ~ pa_free s f.
Proof. intros (g & Eg & _ & Hn) ->. assert (g = f) as <- by (unfold hhdm_page in *; lia). done. Qed.

(** The translation of an address is that of its page. *)
Lemma translation_page st root v : translation st root v = translation st root (vpage v * 4096).
Proof.
  unfold translation, pte_at. destruct (same_page v (vpage v * 4096)) as [-> ->]; [|done].
  unfold vpage. by rewrite Z.div_mul.
Qed.

(** ** Taking and giving back a page *)

Lemma tree_frames st root own s' :
  tree st root own -> pa_ok s' -> same_memory (frames_of st) s' ->
  (forall t p, own !! t = Some p -> held_page s' t) -> tree (with_frames_of st s') root own.
Proof.
  intros [A1 A2 A3 A4] Hok HS Hh. split; [done|done| |].
  - intros t p Ht. destruct (A3 t p Ht) as (L & _ & W). split; [done|]. split; [by eapply Hh|exact W].
  - intros t p i e Ht Hl Hi He Hp Hx. rewrite (target_same st) by done. by eapply A4.
Qed.

Lemma frames_walk st s' h t q :
  same_memory (frames_of st) s' -> walk (with_frames_of st s') h t q = walk st h t q.
Proof.
  intros HS. revert h t. induction q as [|i q IH]; intros h t; [done|]. cbn [walk].
  change (load (with_frames_of st s') t i) with (load st t i). destruct (load st t i); [|done]. cbn [mbind option_bind].
  destruct (_ && _); [|done]. rewrite (target_same st) by done. apply IH.
Qed.

Lemma frames_translation st s' root v :
  same_memory (frames_of st) s' -> translation (with_frames_of st s') root v = translation st root v.
Proof. intros HS. unfold translation, pte_at. by rewrite frames_walk. Qed.

Lemma frames_mem st s' : same_memory (frames_of st) s' -> mem_total st -> mem_total (with_frames_of st s').
Proof.
  intros HS M f Hf. cbn [frames_of with_frames_of mem] in *. rewrite (hhdm_page_same _ _ f HS). apply M. by apply (sm_managed _ _ HS).
Qed.

(** A change of the allocator's state that keeps every owned page held. *)
Lemma core_frames st root R s' :
  core_inv st root R -> pa_ok s' -> same_memory (frames_of st) s' ->
  (forall t r, R !! t = Some r -> held_page s' t) -> core_inv (with_frames_of st s') root R.
Proof.
  intros [A1 A2 A3 A4 A5] Hok HS Hh. split.
  - apply tree_frames; try done. intros t p Ht%own_of_lookup. by eapply Hh.
  - intros t p Ht. rewrite frames_walk by done. by apply A2.
  - done.
  - intros t p. rewrite A4, frames_translation by done.
    split; intros (Hp & e & E1 & E2); (split; [done|]); exists e; (split; [done|]); rewrite <- E2;
      [|symmetry]; by apply target_same.
  - by apply frames_mem.
Qed.

(** Roles other than [Table] and [Data] may come and go. *)
Lemma core_struct st root R t :
  core_inv st root R -> R !! t = None -> held_page (frames_of st) t -> core_inv st root (<[t := Struct]> R).
Proof.
  intros [A1 A2 A3 A4 A5] Hn Hh.
  assert (own_of (<[t:=Struct]> R) = own_of R) as Eo.
  { apply own_of_ext. intros t' p. destruct (decide (t' = t)) as [->|Hne].
    - rewrite lookup_insert_eq. naive_solver.
    - by rewrite lookup_insert_ne. }
  split; rewrite ?Eo; try done.
  - intros t' r. destruct (decide (t' = t)) as [->|Hne]; [done|]. rewrite lookup_insert_ne by done. apply A3.
  - intros t' p. rewrite <- A4. destruct (decide (t' = t)) as [->|Hne].
    + rewrite lookup_insert_eq. naive_solver.
    + by rewrite lookup_insert_ne.
Qed.

Lemma core_drop st root R t :
  core_inv st root R -> R !! t = Some Struct -> core_inv st root (delete t R).
Proof.
  intros [A1 A2 A3 A4 A5] Ht.
  assert (own_of (delete t R) = own_of R) as Eo.
  { apply own_of_ext. intros t' p. rewrite lookup_delete_Some. naive_solver. }
  split; rewrite ?Eo; try done.
  - intros t' r [_ ?]%lookup_delete_Some. by eapply A3.
  - intros t' p. rewrite <- A4, lookup_delete_Some. naive_solver.
Qed.

Lemma get_page_ok st root R :
  core_inv st root R ->
  (get_free_page st = Some (0, st) /\ exhausted st) \/
  exists f st', get_free_page st = Some (hhdm_page (frames_of st) f, st') /\ hhdm_page (frames_of st) f ≠ 0 /\
    pa_managed (frames_of st) f /\ R !! hhdm_page (frames_of st) f = None /\
    core_inv st' root (<[hhdm_page (frames_of st) f := Struct]> R) /\ mem st' = mem st /\
    (forall r v, translation st' r v = translation st r v) /\
    vstep st R st' (<[hhdm_page (frames_of st) f := Struct]> R).
Proof.
  intros C. pose proof (tr_alloc _ _ _ (ci_tree _ _ _ C)) as Hok. unfold get_free_page, exhausted.
  destruct (pa_get_ok (frames_of st) Hok) as [->|(f & s' & -> & Hok' & HS & Hm & Hf & Hq)]; cbn [mbind option_bind].
  { left. split; [by destruct st|done]. }
  right. exists f, (with_frames_of st s'). set (t := hhdm_page (frames_of st) f).
  assert (R !! t = None) as Hn.
  { destruct (R !! t) as [r|] eqn:E; [|done]. by destruct (held_not_free _ t f (ci_held _ _ _ C t r E) eq_refl). }
  assert (held_page s' t) as Hh.
  { exists f. split; [by rewrite (hhdm_page_same _ _ f HS)|]. split; [by apply (sm_managed _ _ HS)|]. intros [_ ?]%Hq. done. }
  split; [done|]. split.
  { destruct (pa_hhdm_ok _ Hok) as (? & _). destruct (pa_frame_ok _ _ Hok Hm) as [? _]. unfold t, hhdm_page. lia. }
  split; [done|]. split; [done|]. split; [|split; [done|split; [intros r v; by apply frames_translation|]]].
  - apply core_struct; [|done|done]. apply core_frames; try done. intros t' r Ht.
    eapply held_same; [exact HS| |by eapply ci_held]. intros q [? _]%Hq. done.
  - split; [done| | |done].
    + intros q. simpl. rewrite Hq. destruct (decide (q = f)) as [->|Hne].
      * fold t. rewrite lookup_insert_eq. split; [by left|right; by eexists].
      * rewrite lookup_insert_ne by (unfold t, hhdm_page; lia). tauto.
    + intros t' Ht' Hf'. split; [done|]. rewrite lookup_insert_ne; [done|]. intros <-. by apply (Hf' f).
Qed.

(** Giving back a page whose role is [r]; what refers to it must be gone. *)
Lemma put_page_ok st root R f r :
  core_inv st root R -> R !! hhdm_page (frames_of st) f = Some r ->
  exists s', free_page st (hhdm_page (frames_of st) f) = Some (with_frames_of st s') /\ pa_ok s' /\
    same_memory (frames_of st) s' /\ (forall q, pa_free s' q <-> pa_free (frames_of st) q \/ q = f) /\
    (forall t r', R !! t = Some r' -> t ≠ hhdm_page (frames_of st) f -> held_page s' t).
Proof.
  intros C Hr. pose proof (ci_held _ _ _ C _ _ Hr) as (g & Eg & Hm & Hn).
  assert (g = f) as -> by (unfold hhdm_page in *; lia).
  destruct (pa_put_ok (frames_of st) f (tr_alloc _ _ _ (ci_tree _ _ _ C)) Hm Hn) as (s' & E & Hok' & HS & Hq).
  exists s'. unfold free_page. rewrite E. split; [done|]. split; [done|]. split; [done|]. split; [done|].
  intros t r' Ht Hne. destruct (ci_held _ _ _ C t r' Ht) as (g & -> & Hmg & Hng).
  exists g. split; [by rewrite (hhdm_page_same _ _ g HS)|]. split; [by apply (sm_managed _ _ HS)|].
  intros [?| ->]%Hq; done.
Qed.

Lemma put_conserve st R f r s' :
  same_memory (frames_of st) s' -> (forall q, pa_free s' q <-> pa_free (frames_of st) q \/ q = f) ->
  R !! hhdm_page (frames_of st) f = Some r ->
  vstep st R (with_frames_of st s') (delete (hhdm_page (frames_of st) f) R).
Proof.
  intros HS Hq Hr. split; [done| | |done].
  - intros q. simpl. rewrite Hq. destruct (decide (q = f)) as [->|Hne].
    + rewrite Hr. split; [right; by eexists|intros _; left; by right].
    + rewrite lookup_delete_ne by (unfold hhdm_page; lia). tauto.
  - intros t Ht _. split; [done|]. rewrite lookup_delete_None. by right.
Qed.

Lemma free_struct_ok st root R t :
  core_inv st root R -> R !! t = Some Struct ->
  exists st', free_page st t = Some st' /\ core_inv st' root (delete t R) /\ mem st' = mem st /\
    (forall r v, translation st' r v = translation st r v) /\ vstep st R st' (delete t R).
Proof.
  intros C Ht. destruct (ci_held _ _ _ C t Struct Ht) as (f & -> & _).
  destruct (put_page_ok st root R f Struct C Ht) as (s' & E & Hok & HS & Hq & Hh).
  exists (with_frames_of st s'). split; [done|]. split; [|split; [done|split; [intros r v; by apply frames_translation|by eapply put_conserve]]].
  apply core_frames; [by apply core_drop|done|done|]. intros t' r [Hne Hr]%lookup_delete_Some. by eapply Hh.
Qed.

(** ** Writing a page that is no table *)

Lemma write_load st t l t' i : t' ≠ t -> load (with_mem st (<[t := l]> (mem st))) t' i = load st t' i.
Proof. intros Hne. unfold load. cbn [mem with_mem]. by rewrite lookup_insert_ne. Qed.

Lemma write_walk st root own t l q :
  tree st root own -> own !! t = None -> user_path q ->
  walk (with_mem st (<[t := l]> (mem st))) false root q = walk st false root q.
Proof.
  intros T Hn (Lq & Fq & Hh). apply walk_agree; [done|]. intros n t' Hlt Hw i. apply write_load. intros ->.
  assert (own !! t = Some (take n q)) as Ho; [|congruence].
  apply (walk_owned st root own _ t T); [|done]. split; [rewrite length_take; lia|]. split; [by apply Forall_take|].
  intros j Hj. apply Hh. destruct q, n; done.
Qed.

Lemma write_translation st root own t l v :
  tree st root own -> own !! t = None -> user_addr v ->
  translation (with_mem st (<[t := l]> (mem st))) root v = translation st root v.
Proof.
  intros T Hn Hv. unfold translation, pte_at. rewrite (write_walk st root own) by (done || by apply path_user).
  destruct (walk st false root (path v)) as [t'|] eqn:Ew; [|done]. rewrite write_load; [done|]. intros ->.
  pose proof (walk_owned st root own (path v) t T (path_user v Hv) Ew). congruence.
Qed.

Lemma write_tree st root own t l :
  tree st root own -> own !! t = None -> tree (with_mem st (<[t := l]> (mem st))) root own.
Proof.
  intros [A1 A2 A3 A4] Hn. split; [done|done| |].
  - intros t' p Ht. destruct (A3 t' p Ht) as (L & HP & l' & Hl & W). split; [done|]. split; [done|]. exists l'.
    split; [|done]. cbn [mem with_mem]. rewrite lookup_insert_ne; [done|]. intros ->. congruence.
  - intros t' p i e Ht Hl Hi He. rewrite write_load in He by (intros ->; congruence).
    change (target (with_mem st (<[t:=l]> (mem st))) e) with (target st e). by eapply A4.
Qed.

Lemma core_write st root R t r l :
  core_inv st root R -> R !! t = Some r -> role_table r = None -> table_words l ->
  core_inv (with_mem st (<[t := l]> (mem st))) root R /\ vstep st R (with_mem st (<[t := l]> (mem st))) R.
Proof.
  intros [A1 A2 A3 A4 A5] Hr Hnt Wl.
  assert (own_of R !! t = None) as Hn by (unfold own_of; by rewrite lookup_omap, Hr).
  split; split; try done.
  - by apply write_tree.
  - intros t' p Ht. destruct (A2 t' p Ht) as [Hu Hw]. split; [done|]. by rewrite (write_walk st root (own_of R)).
  - intros t' p. rewrite A4. split; intros (Hp & e & E1 & E2); (split; [done|]); exists e; (split; [|exact E2]);
      destruct (page_user p Hp) as [Hu _]; rewrite <- E1; [|symmetry]; by apply (write_translation st root (own_of R)).
  - intros f Hf. cbn [frames_of with_mem mem] in *. destruct (decide (hhdm_page (frames_of st) f = t)) as [->|Hne].
    + exists l. by rewrite lookup_insert_eq.
    + rewrite lookup_insert_ne by done. by apply A5.
  - intros t' Ht' _. split; [|done]. cbn [mem with_mem]. rewrite lookup_insert_ne; [done|]. intros ->. congruence.
Qed.

(** ** Mapping a page in hand *)

(** The roles after tables were added. *)
Lemma grow_roles st root R st' own' :
  core_inv st root R -> step_ok st root (own_of R) st' own' ->
  exists R', R ⊆ R' /\ own_of R' = own' /\ (forall t r, R' !! t = Some r -> held_page (frames_of st') t) /\
    (forall t r, R' !! t = Some r -> R !! t = Some r \/ R !! t = None /\ exists p, r = Table p) /\
    vstep st R st' R' /\ mem_total st'.
Proof.
  intros C S1. pose proof C as [A1 A2 A3 A4 A5]. pose proof S1 as [B1 B2 B3 B4 B5 B6 B7 B8 B9].
  set (R' := (Table <$> own') ∪ R).
  assert (forall t p, own' !! t = Some p -> R !! t = None \/ R !! t = Some (Table p)) as Hnew.
  { intros t p Ho. destruct (own_of R !! t) as [q|] eqn:E.
    - right. pose proof (lookup_weaken _ _ _ _ E B2). apply own_of_lookup. congruence.
    - left. destruct (B6 t p Ho E) as (f & Ef & Hf). destruct (R !! t) as [r|] eqn:Er; [|done].
      by destruct (held_not_free _ t f (A3 t r Er) Ef). }
  assert (forall t, R' !! t = match own' !! t with Some p => Some (Table p) | None => R !! t end) as HR'.
  { intros t. unfold R'. destruct (own' !! t) as [p|] eqn:E.
    - rewrite (lookup_union_Some_l _ _ _ (Table p)); [done|]. by rewrite lookup_fmap, E.
    - rewrite lookup_union_r; [done|]. by rewrite lookup_fmap, E. }
  assert (forall t r, R' !! t = Some r -> R !! t = Some r \/ R !! t = None /\ exists p, r = Table p) as Hor.
  { intros t r. rewrite HR'. destruct (own' !! t) as [p|] eqn:E; [|by left]. intros [= <-].
    destruct (Hnew t p E); [right; eauto|by left]. }
  assert (R ⊆ R') as Hsub.
  { apply map_subseteq_spec. intros t r Hr. rewrite HR'. destruct (own' !! t) as [p|] eqn:E; [|done].
    destruct (Hnew t p E); congruence. }
  exists R'. split; [done|]. split.
  { apply map_eq. intros t. apply option_eq. intros p. rewrite own_of_lookup, HR'.
    destruct (own' !! t) as [q|] eqn:E; [split; congruence|]. split; [|done]. intros Ht%own_of_lookup.
    pose proof (lookup_weaken _ _ _ _ Ht B2). congruence. }
  split.
  { intros t r Ht. destruct (Hor t r Ht) as [Hr|[Hn [p ->]]].
    - eapply held_same; [exact B3|exact B4|by eapply A3].
    - rewrite HR' in Ht. destruct (own' !! t) as [q|] eqn:E; [|congruence]. apply (tr_table _ _ _ B1 _ _ E). }
  split; [done|]. split; [split; [done| | |done]|].
  - intros f. split.
    + intros [Hf|[r Hr]]; [left; by apply B4|]. destruct (Hor _ _ Hr) as [?|[Hn [p ->]]]; [right; by eexists|].
      rewrite HR' in Hr. destruct (own' !! _) as [q|] eqn:E; [|congruence].
      destruct (own_of R !! hhdm_page (frames_of st) f) as [q'|] eqn:E'; [apply own_of_lookup in E'; congruence|].
      destruct (B6 _ _ E E') as (g & Eg & Hg). assert (g = f) as -> by (unfold hhdm_page in Eg; lia). by left.
    + intros [Hf|[r Hr]]; [|right; exists r; by eapply lookup_weaken].
      destruct (B8 f Hf) as [?|[p Hp]]; [by left|]. right. exists (Table p). by rewrite HR', Hp.
  - intros t Ht Hf. assert (own' !! t = None) as Hn.
    { destruct (own' !! t) as [p|] eqn:E; [|done]. destruct (own_of R !! t) as [q|] eqn:E'.
      - apply own_of_lookup in E'. congruence.
      - destruct (B6 t p E E') as (f & Ef & Hff). by destruct (Hf f Ef). }
    split; [by apply B5|]. by rewrite HR', Hn.
  - intros f Hf. rewrite (hhdm_page_same _ _ f B3). apply (sm_managed _ _ B3) in Hf.
    destruct (own' !! hhdm_page (frames_of st) f) as [p|] eqn:E; [apply (tr_table _ _ _ B1 _ _ E)|].
    rewrite B5 by done. by apply A5.
Qed.

(** Nothing but tables was added. *)
Definition tables_added R R' : Prop :=
  forall t, R' !! t = R !! t \/ R !! t = None /\ exists q, R' !! t = Some (Table q).

Lemma tables_added_refl R : tables_added R R.
Proof. intros t. by left. Qed.

Lemma tables_added_other R R' t r : tables_added R R' -> role_table r = None -> R' !! t = Some r <-> R !! t = Some r.
Proof.
  intros H Hr. destruct (H t) as [->|[Hn [q Hq]]]; [done|]. rewrite Hn, Hq. split; [|done]. intros [= <-]. done.
Qed.

Lemma vstep_insert st R st' R' t r r' :
  vstep st R st' R' -> R' !! t = Some r -> vstep st R st' (<[t := r']> R').
Proof.
  intros [A1 A2 A3 A4] Ht. split; try done.
  - intros f. rewrite <- A2. destruct (decide (hhdm_page (frames_of st) f = t)) as [->|Hne].
    + rewrite lookup_insert_eq, Ht. split; (intros [?|?]; [by left|right; by eexists]).
    + by rewrite lookup_insert_ne.
  - intros t' Hn Hf. destruct (A3 t' Hn Hf) as [E N]. split; [done|]. rewrite lookup_insert_ne; [done|]. intros ->. congruence.
Qed.

Lemma leaf_target st f flags :
  pa_ok (frames_of st) -> pa_managed (frames_of st) f -> flag_bits flags ->
  target st (leaf_entry (f * 4096) flags) = hhdm_page (frames_of st) f.
Proof.
  intros Hok Hm Hg. destruct (pa_frame_ok _ _ Hok Hm) as [Hf _]. unfold target, phys_to_virt_local.
  destruct (leaf_entry_ok f flags Hf Hg) as (_ & _ & ->). by apply hhdm_page_target.
Qed.

(** The contents of data pages and structures stay. *)
Definition data_kept st R st' : Prop :=
  forall t r, R !! t = Some r -> role_table r = None -> mem st' !! t = mem st !! t.

Lemma map_page_ok st root R p f flags :
  core_inv st root R -> 0 <= p < space_pages -> pa_managed (frames_of st) f ->
  R !! hhdm_page (frames_of st) f = Some Struct -> translation st root (p * 4096) = None -> flag_bits flags ->
  exists ret st' R', paging_map st root (p * 4096) (f * 4096) flags = Some (ret, st') /\
    core_inv st' root R' /\ vstep st R st' R' /\ data_kept st R st' /\
    ((ret = 0 /\ tables_added (<[hhdm_page (frames_of st) f := Data p]> R) R' /\ forall v, user_addr v ->
        translation st' root v = remap (translation st root) (p * 4096) (Some (leaf_entry (f * 4096) flags)) v) \/
     (ret = -1 /\ tables_added R R' /\ (exhausted st' \/ huge_on_path st' root (p * 4096)) /\
        forall v, user_addr v -> translation st' root v = translation st root v)).
Proof.
  intros C Hp Hm Ht Hnone Hg. pose proof (tr_alloc _ _ _ (ci_tree _ _ _ C)) as Hok.
  destruct (pa_frame_ok _ _ Hok Hm) as [Hf _]. destruct (page_user p Hp) as [Hu Evp].
  destruct (paging_map_ok st root (own_of R) (p * 4096) f flags (ci_tree _ _ _ C) Hu Hf Hg) as (ret & st' & own' & E & S1 & D).
  destruct (grow_roles st root R st' own' C S1) as (R1 & Hsub & Eo & Hh & Hor & V & M).
  pose proof (so_same _ _ _ _ _ S1) as HS. set (t := hhdm_page (frames_of st) f) in *.
  assert (tables_added R R1) as TA.
  { intros t'. destruct (R1 !! t') as [r|] eqn:E1.
    - destruct (Hor t' r E1) as [->|[? [q ->]]]; [by left|right; eauto].
    - left. destruct (R !! t') eqn:E2; [|done]. by rewrite (lookup_weaken _ _ _ _ E2 Hsub) in E1. }
  assert (data_kept st R st') as K.
  { intros t' r Hr Hnt. apply (so_pages _ _ _ _ _ S1). rewrite <- Eo. unfold own_of.
    by rewrite lookup_omap, (lookup_weaken _ _ _ _ Hr Hsub). }
  pose proof (so_reach _ _ _ _ _ S1 (ci_reach _ _ _ C)) as HR'. pose proof (so_tree _ _ _ _ _ S1) as HT'.
  destruct D as [(-> & _ & TR)|(-> & Hx & TR)].
  - exists 0, st', (<[t := Data p]> R1). split; [done|].
    assert (R1 !! t = Some Struct) as Ht1 by (by eapply lookup_weaken).
    assert (own_of (<[t := Data p]> R1) = own') as Eo'.
    { rewrite <- Eo. apply own_of_ext. intros t' q. destruct (decide (t' = t)) as [->|Hne].
      - rewrite lookup_insert_eq. naive_solver.
      - by rewrite lookup_insert_ne. }
    split; [split; rewrite ?Eo'; try done|split; [by eapply vstep_insert|split; [done|left; split; [done|split; [|done]]]]].
    + intros t' r. destruct (decide (t' = t)) as [->|Hne]; [intros _; by eapply Hh|]. rewrite lookup_insert_ne by done. apply Hh.
    + assert (target st' (leaf_entry (f * 4096) flags) = t) as Et
        by (rewrite (target_same st st' _ HS); by apply leaf_target).
      intros t' p'. destruct (decide (p' = p)) as [->|Hpp].
      * rewrite TR by done. unfold remap. rewrite decide_True by done. split.
        -- intros Hd. split; [done|]. eexists. split; [done|]. rewrite Et. destruct (decide (t' = t)) as [->|Hne]; [done|].
           rewrite lookup_insert_ne in Hd by done. apply (tables_added_other R R1 t' (Data p) TA eq_refl) in Hd.
           apply (ci_data _ _ _ C) in Hd as (_ & e & He & _). congruence.
        -- intros (_ & e & [= <-] & <-). by rewrite Et, lookup_insert_eq.
      * assert (<[t := Data p]> R1 !! t' = Some (Data p') <-> R !! t' = Some (Data p')) as ->.
        { destruct (decide (t' = t)) as [->|Hne]; [rewrite lookup_insert_eq; naive_solver|].
          rewrite lookup_insert_ne by done. by apply tables_added_other. }
        rewrite (ci_data _ _ _ C). split; intros (Hp' & e & E1 & E2); (split; [done|]); exists e;
          destruct (page_user p' Hp') as [Hu' Evp']; rewrite TR in * by done; unfold remap in *;
          rewrite decide_False in * by congruence; (split; [done|]); rewrite <- E2; [|symmetry]; by apply target_same.
    + intros t'. destruct (decide (t' = t)) as [->|Hne]; [left; by rewrite !lookup_insert_eq|].
      rewrite !lookup_insert_ne by done. apply TA.
  - exists (-1), st', R1. split; [done|]. split; [|split; [done|split; [done|by right]]]. split; rewrite ?Eo; try done.
    intros t' p'. rewrite (tables_added_other R R1 t' (Data p') TA eq_refl), (ci_data _ _ _ C).
    split; intros (Hp' & e & E1 & E2); (split; [done|]); exists e; destruct (page_user p' Hp') as [Hu' _];
      rewrite TR in * by done; (split; [done|]); rewrite <- E2; [|symmetry]; by apply target_same.
Qed.

(** ** Unmapping a page and giving back its frame *)

Definition drop_data R (r : option Z) : gmap Z role := match r with Some t => delete t R | None => R end.

Lemma free_mapped_ok st root R p :
  core_inv st root R -> 0 <= p < space_pages ->
  exists st', free_mapped st root (p * 4096) = Some (is_some (translation st root (p * 4096)), st') /\
    match translation st root (p * 4096) with
    | None => st' = st
    | Some e => exists s' f, st' = with_frames_of st s' /\ target st e = hhdm_page (frames_of st) f /\
        R !! hhdm_page (frames_of st) f = Some (Data p) /\ pa_ok s' /\ same_memory (frames_of st) s' /\
        (forall q, pa_free s' q <-> pa_free (frames_of st) q \/ q = f) /\
        (forall t r', R !! t = Some r' -> t ≠ hhdm_page (frames_of st) f -> held_page s' t)
    end.
Proof.
  intros C Hp. destruct (page_user p Hp) as [Hu Evp]. pose proof (ci_tree _ _ _ C) as T.
  destruct (get_pte_ok st root (own_of R) (p * 4096) T Hu) as [E1 O1]. unfold free_mapped, paging_get_pte.
  rewrite E1. cbn [mbind option_bind].
  destruct (walk st false root (path (p * 4096))) as [t|] eqn:Ew; cbn [fmap option_fmap option_map].
  - specialize (O1 t eq_refl).
    destruct (load_ok st root _ t _ (PT_INDEX (p * 4096)) T O1 (index_range _ 12 ltac:(lia))) as (e & He & _).
    rewrite He. cbn [mbind option_bind].
    assert (translation st root (p * 4096) = entry_translation e) as Etr
      by (unfold translation, pte_at; by rewrite Ew, He).
    rewrite Etr. unfold entry_translation in *. destruct (ztrue (Z.land e PTE_PRESENT)) eqn:Ep; [|by exists st].
    assert (R !! target st e = Some (Data p)) as Hd by (apply (ci_data _ _ _ C); eauto).
    destruct (ci_held _ _ _ C _ _ Hd) as (f & Ef & _). fold (target st e). rewrite Ef in Hd |- *.
    destruct (put_page_ok st root R f _ C Hd) as (s' & E2 & Hok & HS & Hq & Hh). rewrite E2. cbn [mbind option_bind].
    eexists. split; [done|]. by exists s', f.
  - assert (translation st root (p * 4096) = None) as -> by (unfold translation, pte_at; by rewrite Ew). by exists st.
Qed.

Lemma unmap_page_ok st root R p :
  core_inv st root R -> 0 <= p < space_pages ->
  exists st1 ret st2, free_mapped st root (p * 4096) = Some (is_some (translation st root (p * 4096)), st1) /\
    paging_unmap st1 root (p * 4096) = Some (ret, st2) /\
    let R' := drop_data R (target st <$> translation st root (p * 4096)) in
    core_inv st2 root R' /\ vstep st R st2 R' /\
    forall v, user_addr v -> translation st2 root v = remap (translation st root) (p * 4096) None v.
Proof.
  intros C Hp. destruct (page_user p Hp) as [Hu Evp]. destruct (free_mapped_ok st root R p C Hp) as (st1 & E1 & H1).
  exists st1. pose proof (ci_tree _ _ _ C) as T. destruct (translation st root (p * 4096)) as [e|] eqn:Etr; cbn zeta.
  - destruct H1 as (s' & f & -> & Et & Hd & Hok & HS & Hq & Hh). cbn [fmap option_fmap option_map drop_data]. rewrite Et.
    set (t := hhdm_page (frames_of st) f) in *.
    assert (tree (with_frames_of st s') root (own_of R)) as T1.
    { apply tree_frames; try done. intros t' q Ho%own_of_lookup. apply (Hh _ _ Ho). intros ->. congruence. }
    destruct (paging_unmap_ok (with_frames_of st s') root (own_of R) (p * 4096) T1 Hu) as (ret & st2 & E2 & S2 & F2 & TR & _).
    exists ret, st2. split; [done|]. split; [done|]. cbn [frames_of with_frames_of] in F2.
    assert (forall v, user_addr v -> translation st2 root v = remap (translation st root) (p * 4096) None v) as TR2.
    { intros v Hv. rewrite TR by done. unfold remap. case_decide; [done|]. by apply frames_translation. }
    assert (own_of (delete t R) = own_of R) as Eo.
    { apply own_of_ext. intros t' q. rewrite lookup_delete_Some. naive_solver. }
    assert (forall e', target st2 e' = target st e') as Etg by (intros e'; apply target_same; by rewrite F2).
    pose proof (put_conserve st R f _ s' HS Hq Hd) as V. fold t in V.
    split; [split; rewrite ?Eo|split; [|done]].
    + apply S2.
    + apply S2. intros t' q Ho. rewrite frames_walk by done. by apply (ci_reach _ _ _ C).
    + intros t' r [Hne Hr]%lookup_delete_Some. rewrite F2. by eapply Hh.
    + intros t' p'. rewrite lookup_delete_Some. split.
      * intros [Hne Hr]. apply (ci_data _ _ _ C) in Hr as (Hp' & e' & E1' & E2'). split; [done|]. exists e'.
        rewrite Etg. split; [|done]. destruct (page_user p' Hp') as [Hu' Evp']. rewrite TR2 by done. unfold remap.
        rewrite decide_False; [done|]. intros Eq. rewrite Evp, Evp' in Eq. subst p'. congruence.
      * intros (Hp' & e' & E1' & E2'). destruct (page_user p' Hp') as [Hu' Evp']. rewrite TR2 in E1' by done. unfold remap in E1'.
        case_decide; [done|]. rewrite Etg in E2'.
        assert (R !! t' = Some (Data p')) as Hr by (apply (ci_data _ _ _ C); eauto).
        split; [|done]. intros ->. rewrite Hd in Hr. injection Hr as ->. done.
    + intros g Hg. rewrite F2 in Hg |- *. destruct (own_of R !! hhdm_page s' g) as [q|] eqn:Eg.
      * apply (tr_table _ _ _ (so_tree _ _ _ _ _ S2) _ _ Eg).
      * rewrite (so_pages _ _ _ _ _ S2) by done. by apply (frames_mem st s' HS (ci_mem _ _ _ C)).
    + destruct V as [V1 V2 V3 [V4 V5]]. split.
      * by rewrite F2.
      * by rewrite F2.
      * intros t' Hn' Hf'. destruct (V3 t' Hn' Hf') as [Em Nd]. split; [|done].
        rewrite (so_pages _ _ _ _ _ S2); [done|]. unfold own_of. by rewrite lookup_omap, Hn'.
      * destruct (so_rest _ _ _ _ _ S2). split; congruence.
  - subst st1. destruct (paging_unmap_ok st root (own_of R) (p * 4096) T Hu) as (ret & st2 & E2 & _ & _ & TR & D).
    destruct D as [(_ & Hn & _)|(-> & _ & ->)]; [congruence|]. exists (-1), st. split; [done|]. split; [done|].
    split; [done|]. split; [apply vstep_refl|done].
Qed.

(** ** Runs of pages *)

(** The data pages from [p] on, [n] of them, are gone; all else has its role. *)
Definition data_dropped R R' (p n : Z) : Prop :=
  forall t, R' !! t = match R !! t with
                      | Some (Data q) => if decide (p <= q < p + n) then None else Some (Data q)
                      | r => r
                      end.

Lemma data_dropped_none R p n : n <= 0 -> data_dropped R R p n.
Proof. intros Hn t. destruct (R !! t) as [[]|]; try done. by rewrite decide_False by lia. Qed.

Lemma drop_data_dropped st root R p :
  core_inv st root R -> 0 <= p < space_pages ->
  data_dropped R (drop_data R (target st <$> translation st root (p * 4096))) p 1.
Proof.
  intros C Hp t. destruct (translation st root (p * 4096)) as [e|] eqn:Etr; cbn [fmap option_fmap option_map drop_data].
  - assert (R !! target st e = Some (Data p)) as Hd by (apply (ci_data _ _ _ C); eauto).
    destruct (decide (t = target st e)) as [->|Hne].
    + rewrite lookup_delete_eq, Hd. by rewrite decide_True by lia.
    + rewrite lookup_delete_ne by done. destruct (R !! t) as [[|q|]|] eqn:Er; try done.
      apply (ci_data _ _ _ C) in Er as (_ & e' & E1 & E2). rewrite decide_False; [done|]. intros Hq.
      assert (q = p) as -> by lia. congruence.
  - destruct (R !! t) as [[|q|]|] eqn:Er; try done.
    apply (ci_data _ _ _ C) in Er as (_ & e' & E1 & E2). rewrite decide_False; [done|]. intros Hq.
    assert (q = p) as -> by lia. congruence.
Qed.

Lemma data_dropped_trans R R1 R2 p n :
  0 <= n -> data_dropped R R1 p 1 -> data_dropped R1 R2 (p + 1) n -> data_dropped R R2 p (n + 1).
Proof.
  intros Hn A B t. rewrite B, A. destruct (R !! t) as [[|q|]|]; try done. repeat case_decide; (done || lia).
Qed.

Lemma unmap_pages_loop root n : forall p st R cnt,
  core_inv st root R -> 0 <= p -> p + Z.of_nat n <= space_pages ->
  exists st' cnt' R', page_loop (R := mmu S * Z) n (p * 4096) ((p + Z.of_nat n) * 4096)
      (fun addr '(st, n) =>
         '(was, st) ← free_mapped st root addr;
         '(_, st) ← paging_unmap st root addr;
         Some (inl (st, if (was : bool) then u64 (n + 1) else n))) (st, cnt) = Some (inl (st', cnt')) /\
    core_inv st' root R' /\ vstep st R st' R' /\ data_dropped R R' p (Z.of_nat n) /\
    forall v, user_addr v -> translation st' root v = remap_range (translation st root) p (Z.of_nat n) (fun _ => None) v.
Proof.
  induction n as [|n IH]; intros p st R cnt C Hp Hs; cbn [page_loop].
  - rewrite (proj2 (Z.ltb_ge _ _)) by lia. exists st, cnt, R. split; [done|]. split; [done|]. split; [apply vstep_refl|].
    split; [by apply data_dropped_none|]. intros v _. unfold remap_range. by rewrite decide_False by lia.
  - rewrite (proj2 (Z.ltb_lt _ _)) by lia.
    destruct (unmap_page_ok st root R p C ltac:(lia)) as (st1 & ret & st2 & -> & E2 & C2 & V2 & TR2).
    pose proof (drop_data_dropped st root R p C ltac:(lia)) as D2. cbn [mbind option_bind]. rewrite E2. cbn [mbind option_bind].
    set (R2 := drop_data R _) in *. rewrite (next_page p (Z.of_nat (Datatypes.S n))) by lia.
    destruct (IH (p + 1) st2 R2 (if is_some (translation st root (p * 4096)) then u64 (cnt + 1) else cnt) C2 ltac:(lia) ltac:(lia))
      as (st3 & cnt3 & R3 & E3 & C3 & V3 & D3 & TR3).
    replace (p + Z.of_nat (Datatypes.S n)) with (p + 1 + Z.of_nat n) by lia.
    replace (Z.of_nat (Datatypes.S n)) with (Z.of_nat n + 1) by lia.
    exists st3, cnt3, R3. split; [exact E3|]. split; [done|]. split; [by eapply vstep_trans|].
    split; [eapply data_dropped_trans; [lia|done|done]|].
    intros v Hv. rewrite TR3 by done. unfold remap_range. rewrite TR2 by done. unfold remap.
    rewrite (proj2 (page_user p ltac:(lia))). repeat case_decide; (done || lia).
Qed.

Lemma unmap_pages_ok st root R p n cnt :
  core_inv st root R -> 0 <= p -> 0 <= n -> p + n <= space_pages ->
  exists st' cnt' R', unmap_pages st root (p * 4096) ((p + n) * 4096) cnt = Some (st', cnt') /\
    core_inv st' root R' /\ vstep st R st' R' /\ data_dropped R R' p n /\
    forall v, user_addr v -> translation st' root v = remap_range (translation st root) p n (fun _ => None) v.
Proof.
  intros C Hp Hn Hs. unfold unmap_pages. rewrite pages_in_exact by done.
  destruct (unmap_pages_loop root (Z.to_nat n) p st R cnt C Hp ltac:(lia)) as (st' & cnt' & R' & E & H').
  rewrite Z2Nat.id in E, H' by done. rewrite E. cbn [mbind option_bind]. by exists st', cnt', R'.
Qed.

(** ** New pages mapped one after the other *)

(** The data pages from [p] on, [n] of them, were added, with tables. *)
Definition data_added R R' (p n : Z) : Prop :=
  forall t, R' !! t = R !! t \/
    R !! t = None /\ ((exists q, R' !! t = Some (Table q)) \/ exists q, p <= q < p + n /\ R' !! t = Some (Data q)).

Lemma data_added_other R R' p n t : data_added R R' p n -> R' !! t = Some Struct <-> R !! t = Some Struct.
Proof.
  intros H. destruct (H t) as [->|[Hn [[q ->]|(q & _ & ->)]]]; [done|..]; rewrite Hn; by split.
Qed.

(** Every page of the run translates to a zeroed page with the given flags. *)
Definition fresh_zeroed st root (flags p n : Z) : Prop :=
  forall q, p <= q < p + n -> exists f, translation st root (q * 4096) = Some (leaf_entry (f * 4096) flags) /\
    pa_managed (frames_of st) f /\ mem st !! hhdm_page (frames_of st) f = Some zero_page.

Lemma zero_words : table_words zero_page.
Proof. split; [done|by apply Forall_replicate]. Qed.

Lemma page_phys st st' f :
  pa_ok (frames_of st) -> pa_managed (frames_of st) f -> same_memory (frames_of st) (frames_of st') ->
  u64 (hhdm_page (frames_of st) f - boot_hhdm (frames_of st')) = f * 4096.
Proof.
  intros Hok Hm HS. destruct (pa_frame_ok _ _ Hok Hm) as [Hf _]. rewrite (sm_hhdm _ _ HS). unfold hhdm_page.
  replace (_ - _) with (f * 4096) by lia. apply u64_small. lia.
Qed.

Definition new_page_body (root flags : Z) : Z -> mmu S -> option (mmu S + mmu S * Z) :=
  fun addr st =>
    '(page, st) ← get_free_page st;
    if page =? 0 then Some (inr (st, addr)) else
    '(ret, st) ← paging_map st root addr (u64 (page - boot_hhdm (frames_of st))) flags;
    if negb (ret =? 0) then st ← free_page st page; Some (inr (st, addr))
    else Some (inl (clear_page st page)).

Lemma tables_added_delete R R1 t :
  tables_added (<[t := Struct]> R) R1 -> R !! t = None -> tables_added R (delete t R1).
Proof.
  intros TA Hn t'. destruct (decide (t' = t)) as [->|Hne].
  - left. by rewrite lookup_delete_eq.
  - rewrite lookup_delete_ne by done. specialize (TA t'). by rewrite lookup_insert_ne in TA by done.
Qed.

Lemma tables_added_data R R1 t p :
  tables_added (<[t := Data p]> (<[t := Struct]> R)) R1 -> R !! t = None -> data_added R R1 p 1.
Proof.
  intros TA Hn t'. rewrite insert_insert_eq in TA. specialize (TA t'). destruct (decide (t' = t)) as [->|Hne].
  - rewrite lookup_insert_eq in TA. right. split; [done|]. destruct TA as [->|[? _]]; [|done]. right. exists p. split; [lia|done].
  - rewrite lookup_insert_ne in TA by done. destruct TA as [?|[? ?]]; [by left|right; auto].
Qed.

Lemma new_page_ok st root R flags p :
  core_inv st root R -> 0 <= p < space_pages -> flag_bits flags -> translation st root (p * 4096) = None ->
  exists r R', new_page_body root flags (p * 4096) st = Some r /\
    match r with
    | inl st' => core_inv st' root R' /\ vstep st R st' R' /\ data_kept st R st' /\ data_added R R' p 1 /\
        (exists f, pa_managed (frames_of st') f /\ mem st' !! hhdm_page (frames_of st') f = Some zero_page /\
           R !! hhdm_page (frames_of st') f = None /\
           forall v, user_addr v ->
             translation st' root v = remap (translation st root) (p * 4096) (Some (leaf_entry (f * 4096) flags)) v)
    | inr (st', addr) => addr = p * 4096 /\ core_inv st' root R' /\ vstep st R st' R' /\ tables_added R R' /\
        forall v, user_addr v -> translation st' root v = translation st root v
    end.
Proof.
  intros C Hp Hg Hnone. unfold new_page_body.
  destruct (get_page_ok st root R C) as [[-> Hx]|(f & st1 & -> & Hn0 & Hm & Hnr & C1 & Em & TR1 & V1)]; cbn [mbind option_bind].
  { exists (inr (st, p * 4096)), R. split; [done|]. split; [done|]. split; [done|]. split; [apply vstep_refl|].
    split; [apply tables_added_refl|done]. }
  rewrite (proj2 (Z.eqb_neq _ 0) Hn0). pose proof (vs_same _ _ _ _ V1) as HS1.
  pose proof (tr_alloc _ _ _ (ci_tree _ _ _ C)) as Hok.
  rewrite (page_phys st st1 f) by done. set (t := hhdm_page (frames_of st) f) in *.
  assert (hhdm_page (frames_of st1) f = t) as Et1 by (by apply hhdm_page_same).
  destruct (map_page_ok st1 root (<[t := Struct]> R) p f flags C1 Hp) as (ret & st2 & R2 & -> & C2 & V2 & K2 & D).
  { by apply (sm_managed _ _ HS1). }
  { by rewrite Et1, lookup_insert_eq. }
  { by rewrite TR1. }
  { done. }
  cbn [mbind option_bind]. rewrite Et1 in D. pose proof (vs_same _ _ _ _ V2) as HS2.
  assert (hhdm_page (frames_of st2) f = t) as Et2 by (by rewrite (hhdm_page_same _ _ f HS2)).
  destruct D as [(-> & TA & TR2)|(-> & TA & _ & TR2)]; cbn [negb Z.eqb].
  - assert (R2 !! t = Some (Data p)) as Hd.
    { apply (tables_added_other _ _ t (Data p) TA eq_refl). by rewrite lookup_insert_eq. }
    destruct (core_write st2 root R2 t (Data p) zero_page C2 Hd eq_refl zero_words) as [C3 V3].
    exists (inl (clear_page st2 t)), R2. split; [done|]. split; [exact C3|].
    split; [eapply vstep_trans; [exact V1|]; eapply vstep_trans; [exact V2|exact V3]|].
    split.
    { intros t' r Hr Hnt. assert (t' ≠ t) as Hne by (intros ->; congruence). cbn [clear_page mem with_mem].
      rewrite lookup_insert_ne by done. rewrite (K2 t' r); [by rewrite Em| |done]. by rewrite lookup_insert_ne. }
    split; [by eapply tables_added_data|]. exists f. cbn [clear_page frames_of with_mem mem]. rewrite Et2, lookup_insert_eq.
    split; [by apply (sm_managed _ _ HS2), (sm_managed _ _ HS1)|]. split; [done|]. split; [done|].
    intros v Hv. unfold clear_page. rewrite (write_translation st2 root (own_of R2)); [|apply C2| |done].
    + rewrite TR2 by done. unfold remap. case_decide; [done|]. apply TR1.
    + unfold own_of. by rewrite lookup_omap, Hd.
  - assert (R2 !! t = Some Struct) as Hd.
    { apply (tables_added_other _ _ t Struct TA eq_refl). by rewrite lookup_insert_eq. }
    destruct (free_struct_ok st2 root R2 t C2 Hd) as (st3 & -> & C3 & _ & TR3 & V3). cbn [mbind option_bind].
    exists (inr (st3, p * 4096)), (delete t R2). split; [done|]. split; [done|]. split; [done|].
    split; [eapply vstep_trans; [exact V1|]; eapply vstep_trans; [exact V2|exact V3]|].
    split; [by apply tables_added_delete|]. intros v Hv. by rewrite TR3, TR2, TR1.
Qed.

(** A run of new pages. *)
Definition same_outside st root st' (p n : Z) : Prop :=
  forall v, user_addr v -> ~ p <= vpage v < p + n -> translation st' root v = translation st root v.

Lemma data_added_tables R R' p : tables_added R R' -> data_added R R' p 0.
Proof. intros H t. destruct (H t) as [?|[? ?]]; [by left|right; auto]. Qed.

Lemma data_added_trans R R1 R2 p n :
  0 <= n -> data_added R R1 p 1 -> data_added R1 R2 (p + 1) n -> data_added R R2 p (n + 1).
Proof.
  intros Hn A B t. destruct (B t) as [->|[HN HB]].
  - destruct (A t) as [?|[? [?|(q & Hq & ?)]]]; [by left|right; auto|].
    right. split; [done|]. right. exists q. split; [lia|done].
  - destruct (A t) as [Ea|[? [[q Hq]|(q & _ & Hq)]]]; [|congruence..].
    rewrite <- Ea. right. split; [done|]. destruct HB as [?|(q & Hq & ?)]; [by left|]. right. exists q. split; [lia|done].
Qed.

Lemma map_new_loop root flags m : forall p st R,
  core_inv st root R -> 0 <= p -> p + Z.of_nat m <= space_pages -> flag_bits flags ->
  (forall q, p <= q < p + Z.of_nat m -> translation st root (q * 4096) = None) ->
  exists r R', page_loop m (p * 4096) ((p + Z.of_nat m) * 4096) (new_page_body root flags) st = Some r /\
    match r with
    | inl st' => core_inv st' root R' /\ vstep st R st' R' /\ data_kept st R st' /\ data_added R R' p (Z.of_nat m) /\
        fresh_zeroed st' root flags p (Z.of_nat m) /\ same_outside st root st' p (Z.of_nat m)
    | inr (st', addr) => exists k, 0 <= k < Z.of_nat m /\ addr = (p + k) * 4096 /\ core_inv st' root R' /\
        vstep st R st' R' /\ data_added R R' p k /\ same_outside st root st' p k /\
        forall q, p + k <= q < p + Z.of_nat m -> translation st' root (q * 4096) = None
    end.
Proof.
  induction m as [|m IH]; intros p st R C Hp Hs Hg Hnone; cbn [page_loop].
  - rewrite (proj2 (Z.ltb_ge _ _)) by lia. exists (inl st), R. split; [done|]. split; [done|]. split; [apply vstep_refl|].
    split; [done|]. split; [intros t; by left|]. split; [intros q Hq; lia|done].
  - rewrite (proj2 (Z.ltb_lt _ _)) by lia.
    destruct (new_page_ok st root R flags p C ltac:(lia) Hg (Hnone p ltac:(lia))) as (r & R1 & -> & H1).
    cbn [mbind option_bind]. destruct r as [st1|[st1 addr]].
    + destruct H1 as (C1 & V1 & K1 & A1 & f & Hm & Hz & Hfr & TR1).
      rewrite (next_page p (Z.of_nat (Datatypes.S m))) by lia.
      assert (forall q, p + 1 <= q < p + 1 + Z.of_nat m -> translation st1 root (q * 4096) = None) as Hnone1.
      { intros q Hq. destruct (page_user q ltac:(lia)) as [Hu Ev]. rewrite TR1 by done. unfold remap.
        rewrite Ev, (proj2 (page_user p ltac:(lia))), decide_False by lia. apply Hnone. lia. }
      destruct (IH (p + 1) st1 R1 C1 ltac:(lia) ltac:(lia) Hg Hnone1) as (r & R2 & E2 & H2).
      replace (p + Z.of_nat (Datatypes.S m)) with (p + 1 + Z.of_nat m) by lia.
      replace (Z.of_nat (Datatypes.S m)) with (Z.of_nat m + 1) by lia.
      exists r, R2. split; [exact E2|].
      assert (forall n, same_outside st1 root (match r with inl s => s | inr (s, _) => s end) (p + 1) n -> 0 <= n ->
        same_outside st root (match r with inl s => s | inr (s, _) => s end) p (n + 1)) as SO.
      { intros n SO2 Hn v Hv Hout. rewrite SO2 by (try done; lia). rewrite TR1 by done. unfold remap.
        by rewrite (proj2 (page_user p ltac:(lia))), decide_False by lia. }
      assert (R1 !! hhdm_page (frames_of st1) f = Some (Data p)) as Hd.
      { apply (ci_data _ _ _ C1). split; [lia|]. exists (leaf_entry (f * 4096) flags).
        destruct (page_user p ltac:(lia)) as [Hu Ev]. rewrite TR1 by done. unfold remap. rewrite decide_True by done.
        split; [done|]. apply leaf_target; [apply (ci_tree _ _ _ C1)|done|done]. }
      destruct r as [st2|[st2 addr]].
      * destruct H2 as (C2 & V2 & K2 & A2 & Z2 & SO2). split; [done|]. split; [by eapply vstep_trans|].
        split; [|split; [eapply data_added_trans; [lia|done|done]|split; [|by apply SO; [|lia]]]].
        -- intros t r Hr Hnt. rewrite (K2 t r); [by eapply K1| |done]. destruct (A1 t) as [->|[Hn _]]; [done|congruence].
        -- intros q Hq. destruct (decide (q = p)) as [->|Hne]; [|apply Z2; lia].
           exists f. pose proof (vs_same _ _ _ _ V2) as HS2. destruct (page_user p ltac:(lia)) as [Hu Ev].
           rewrite SO2 by (try done; lia). rewrite TR1 by done. unfold remap. rewrite decide_True by done.
           split; [done|]. split; [by apply (sm_managed _ _ HS2)|]. rewrite (hhdm_page_same _ _ f HS2), (K2 _ _ Hd eq_refl). done.
      * destruct H2 as (k & Hk & -> & C2 & V2 & A2 & SO2 & Hn2). exists (k + 1). split; [lia|]. split; [lia|].
        split; [done|]. split; [by eapply vstep_trans|]. split; [eapply data_added_trans; [lia|done|done]|].
        split; [by apply SO; [|lia]|]. intros q Hq. apply Hn2. lia.
    + destruct H1 as (-> & C1 & V1 & TA & TR1). exists (inr (st1, p * 4096)), R1. split; [done|]. exists 0.
      split; [lia|]. split; [lia|]. split; [done|]. split; [done|]. split; [by apply data_added_tables|].
      split; [intros v Hv _; by apply TR1|]. intros q Hq. destruct (page_user q ltac:(lia)) as [Hu _].
      rewrite TR1 by done. apply Hnone. lia.
Qed.

(** ** Isolation: what one owner does leaves the others alone *)

Lemma disjoint_owned (R Rb : gmap Z role) t r : R ##ₘ Rb -> R !! t = Some r -> Rb !! t = None.
Proof. intros HD Hr. by apply (map_disjoint_Some_l R Rb t r). Qed.

(** Pages of [R] under a step of the owner of [Rb]. *)
Lemma step_foreign st R Rb st' Rb' t r :
  (forall t r, R !! t = Some r -> held_page (frames_of st) t) -> R ##ₘ Rb -> vstep st Rb st' Rb' -> R !! t = Some r ->
  mem st' !! t = mem st !! t /\ Rb' !! t = None /\ held_page (frames_of st') t.
Proof.
  intros Hh HD [V1 V2 V3 _] Hr. pose proof (disjoint_owned R Rb t r HD Hr) as Hn. pose proof (Hh t r Hr) as Ht.
  destruct (V3 t Hn) as [Em En]; [intros f Ef; by eapply held_not_free|]. split; [done|]. split; [done|].
  destruct Ht as (f & -> & Hm & Hf). exists f. rewrite (hhdm_page_same _ _ f V1). split; [done|].
  split; [by apply (sm_managed _ _ V1)|]. intros Hfree. destruct (proj1 (V2 f)) as [?|[x Hx]]; [by left|done|congruence].
Qed.

Lemma foreign_walk st root own st' q :
  tree st root own -> same_memory (frames_of st) (frames_of st') -> user_path q ->
  (forall t p, own !! t = Some p -> mem st' !! t = mem st !! t) -> walk st' false root q = walk st false root q.
Proof.
  intros T HS (Lq & Fq & Hh) Hm. apply walk_agree; [done|]. intros n t' Hlt Hw i. unfold load.
  rewrite (Hm t' (take n q)); [done|]. apply (walk_owned st root own _ t' T); [|done].
  split; [rewrite length_take; lia|]. split; [by apply Forall_take|]. intros j Hj. apply Hh. destruct q, n; done.
Qed.

Lemma foreign_translation st root own st' v :
  tree st root own -> same_memory (frames_of st) (frames_of st') -> user_addr v ->
  (forall t p, own !! t = Some p -> mem st' !! t = mem st !! t) -> translation st' root v = translation st root v.
Proof.
  intros T HS Hv Hm. unfold translation, pte_at. rewrite (foreign_walk st root own) by (done || by apply path_user).
  destruct (walk st false root (path v)) as [t|] eqn:Ew; [|done]. unfold load.
  by rewrite (Hm t (path v)) by (by apply (walk_owned st root own _ t T (path_user v Hv))).
Qed.

Lemma isolation st root R Rb st' Rb' :
  core_inv st root R -> R ##ₘ Rb -> vstep st Rb st' Rb' -> pa_ok (frames_of st') -> mem_total st' ->
  core_inv st' root R /\ R ##ₘ Rb' /\ (forall t r, R !! t = Some r -> mem st' !! t = mem st !! t) /\
  forall v, user_addr v -> translation st' root v = translation st root v.
Proof.
  intros [A1 A2 A3 A4 A5] HD V Hok M. pose proof (vs_same _ _ _ _ V) as HS.
  pose proof (fun t r => step_foreign st R Rb st' Rb' t r A3 HD V) as HF.
  assert (forall t p, own_of R !! t = Some p -> mem st' !! t = mem st !! t) as Hm
    by (intros t p Ho%own_of_lookup; apply (HF t _ Ho)).
  assert (forall v, user_addr v -> translation st' root v = translation st root v) as HT
    by (intros v Hv; by apply (foreign_translation st root (own_of R))).
  split; [|split; [|split; [intros t r Hr; apply (HF t r Hr)|done]]].
  - split; [|..|done].
    + destruct A1 as [T1 T2 T3 T4]. split; [done|done| |].
      * intros t p Ho. destruct (T3 t p Ho) as (L & _ & W). split; [done|]. pose proof Ho as Ho'%own_of_lookup.
        split; [apply (HF t _ Ho')|]. by rewrite (Hm t p Ho).
      * intros t p i e Ho Hl Hi He Hpr Hx. rewrite (target_same st st' e HS). apply (T4 t p i e Ho Hl Hi); try done.
        unfold load in *. by rewrite (Hm t p Ho) in He.
    + intros t p Ho. destruct (A2 t p Ho) as [Hu Hw]. split; [done|]. by rewrite (foreign_walk st root (own_of R)).
    + intros t r Hr. apply (HF t r Hr).
    + intros t p. rewrite A4. split; intros (Hp & e & E1 & E2); (split; [done|]); exists e; destruct (page_user p Hp) as [Hu _];
        rewrite HT in * by done; (split; [done|]); rewrite <- E2; [|symmetry]; by apply target_same.
  - apply map_disjoint_spec. intros t r rb Hr Hrb. destruct (HF t r Hr) as (_ & Hn & _). congruence.
Qed.

End roles.
