(* ===== verification/VmmRegion.v ===== *)
(** * Regions of an address space (kernel/mm/vmm.c)

    VMA lists are sorted and disjoint, the searches that stop early agree with plain searches,
    and mapping and unmapping regions keep VMAs, page tables and owned pages in step. *)
From Stdlib Require Import Sorted.
From S2P Require Import Prelude Defs Paging PagingSpace PagingPmm Vmm VmmSpace.

(** ** Sorted lists of VMAs *)

Definition vma_wf (v : vm_area) : Prop :=
  exists p n, 0 <= p /\ 0 < n /\ p + n <= space_pages /\ vma_start v = p * 4096 /\ vma_end v = (p + n) * 4096 /\
    flag_bits (page_prot v).

Definition before (v w : vm_area) : Prop := vma_end v <= vma_start w.
Definition vmas_wf (l : list vm_area) : Prop := Forall vma_wf l /\ StronglySorted before l.

Definition contains (addr : Z) (v : vm_area) : bool := (vma_start v <=? addr) && (addr <? vma_end v).
Definition overlaps (start fin : Z) (v : vm_area) : bool := (vma_start v <? fin) && (start <? vma_end v).

Lemma vmas_wf_cons v l : vmas_wf (v :: l) <-> vma_wf v /\ Forall (before v) l /\ vmas_wf l.
Proof.
  unfold vmas_wf. rewrite Forall_cons. split.
  - intros [[? ?] HS]. apply StronglySorted_inv in HS as [? ?]. done.
  - intros (? & ? & ? & ?). split; [done|]. by constructor.
Qed.

Lemma vma_nonempty v : vma_wf v -> 0 <= vma_start v < vma_end v.
Proof. intros (p & n & ? & ? & ? & -> & -> & _). lia. Qed.

Lemma find_none {A} (f : A -> bool) l : Forall (fun x => f x = false) l -> List.find f l = None.
Proof. induction 1 as [|x l E _ IH]; [done|]. simpl. by rewrite E. Qed.

(** The search that stops at the first VMA past the address finds what a search of the whole list
    would. *)
Lemma find_vma_ref l addr : vmas_wf l -> find_vma l addr = List.find (contains addr) l.
Proof.
  induction l as [|v l IH]; [done|]. intros (Wv & Bv & Wl)%vmas_wf_cons. cbn [find_vma List.find].
  fold (contains addr v). destruct (contains addr v); [done|]. destruct (Z.ltb_spec addr (vma_start v)); [|by apply IH].
  symmetry. apply find_none. eapply Forall_impl; [exact Bv|]. intros w Hw. unfold contains, before in *.
  apply vma_nonempty in Wv. destruct (Z.leb_spec (vma_start w) addr); [lia|done].
Qed.

Lemma find_intersect_ref l start fin : vmas_wf l -> find_intersect l start fin = List.find (overlaps start fin) l.
Proof.
  induction l as [|v l IH]; [done|]. intros (Wv & Bv & Wl)%vmas_wf_cons. cbn [find_intersect List.find].
  fold (overlaps start fin v). destruct (overlaps start fin v); [done|].
  destruct (Z.leb_spec fin (vma_start v)); [|by apply IH].
  symmetry. apply find_none. eapply Forall_impl; [exact Bv|]. intros w Hw. unfold overlaps, before in *.
  apply vma_nonempty in Wv. destruct (Z.ltb_spec (vma_start w) fin); [lia|done].
Qed.

Lemma find_intersect_None l start fin :
  vmas_wf l -> find_intersect l start fin = None <-> Forall (fun v => vma_end v <= start \/ fin <= vma_start v) l.
Proof.
  intros Wl. rewrite find_intersect_ref by done. clear Wl. split.
  - intros E. apply Forall_forall. intros v Hv. apply list_elem_of_In in Hv. pose proof (List.find_none _ _ E v Hv) as Ho.
    unfold overlaps in Ho. destruct (Z.ltb_spec (vma_start v) fin), (Z.ltb_spec start (vma_end v)); try done; lia.
  - intros F. apply find_none. eapply Forall_impl; [exact F|]. intros v Hv. unfold overlaps.
    destruct (Z.ltb_spec (vma_start v) fin), (Z.ltb_spec start (vma_end v)); simpl in *; (discriminate || lia || auto).
Qed.

(** ** Insertion *)

Lemma insert_sorted_elem l new v : v ∈ insert_sorted l new <-> v = new \/ v ∈ l.
Proof.
  induction l as [|w l IH]; cbn [insert_sorted]; [rewrite list_elem_of_singleton; set_solver|].
  destruct (vma_start new <? vma_start w); rewrite !elem_of_cons; [done|]. rewrite IH. tauto.
Qed.

Lemma insert_sorted_perm l new : insert_sorted l new ≡ₚ new :: l.
Proof.
  induction l as [|w l IH]; cbn [insert_sorted]; [done|]. destruct (vma_start new <? vma_start w); [done|].
  rewrite IH. by constructor.
Qed.

Lemma insert_sorted_wf l new :
  vmas_wf l -> vma_wf new -> Forall (fun v => vma_end v <= vma_start new \/ vma_end new <= vma_start v) l ->
  vmas_wf (insert_sorted l new).
Proof.
  intros Wl Wn. induction l as [|w l IH]; cbn [insert_sorted]; intros F.
  - apply vmas_wf_cons. split; [done|]. split; [constructor|done].
  - pose proof Wl as (Ww & Bw & Wl')%vmas_wf_cons. apply Forall_cons in F as [Fw F].
    pose proof (vma_nonempty _ Ww). pose proof (vma_nonempty _ Wn). destruct (Z.ltb_spec (vma_start new) (vma_start w)).
    + apply vmas_wf_cons. split; [done|]. split; [|done]. constructor; [unfold before; lia|].
      eapply Forall_impl; [exact Bw|]. unfold before. intros x. lia.
    + apply vmas_wf_cons. split; [done|]. split; [|by apply IH].
      apply Forall_forall. intros x [->|Hx]%insert_sorted_elem; [unfold before; lia|].
      by apply (proj1 (Forall_forall _ _) Bw).
Qed.

(** ** Cutting a region out of a list of VMAs *)

Definition span (v : vm_area) : Z * Z * Z * Z := (vma_start v, vma_end v, vma_flags v, page_prot v).

(** What is left of a VMA. *)
Definition cut_one (start fin : Z) (s : Z * Z * Z * Z) : list (Z * Z * Z * Z) :=
  let '(lo, hi, fl, pr) := s in
  if (fin <=? lo) || (hi <=? start) then [s] else
  (if lo <? start then [(lo, start, fl, pr)] else []) ++ (if fin <? hi then [(fin, hi, fl, pr)] else []).

Definition cut (start fin : Z) (l : list (Z * Z * Z * Z)) : list (Z * Z * Z * Z) := l ≫= cut_one start fin.

Lemma cut_beyond start fin l : Forall (fun v => fin <= vma_start v) l -> cut start fin (span <$> l) = span <$> l.
Proof.
  induction 1 as [|v l Hv _ IH]; [done|]. unfold cut in *. cbn [fmap list_fmap mbind list_bind]. rewrite IH.
  unfold span at 1, cut_one. rewrite (proj2 (Z.leb_le _ _)) by done. done.
Qed.

(** The well-formedness of a list of VMAs is one of its spans. *)
Definition span_wf (s : Z * Z * Z * Z) : Prop :=
  let '(lo, hi, _, pr) := s in
  exists p n, 0 <= p /\ 0 < n /\ p + n <= space_pages /\ lo = p * 4096 /\ hi = (p + n) * 4096 /\ flag_bits pr.
Definition sbefore (s t : Z * Z * Z * Z) : Prop := s.1.1.2 <= t.1.1.1.

Lemma vmas_wf_spans l : vmas_wf l <-> Forall span_wf (span <$> l) /\ StronglySorted sbefore (span <$> l).
Proof.
  unfold vmas_wf. rewrite Forall_fmap. assert (StronglySorted before l <-> StronglySorted sbefore (span <$> l)) as ->; [|done].
  induction l as [|v l IH]; [by split; constructor|]. rewrite fmap_cons. split.
  - intros [H1 H2]%StronglySorted_inv. constructor; [by apply IH|]. apply Forall_fmap. exact H2.
  - intros [H1 H2]%StronglySorted_inv. constructor; [by apply IH|]. exact (proj1 (Forall_fmap span (sbefore (span v)) l) H2).
Qed.

Lemma cut_one_elem start fin s x :
  span_wf s -> start <= fin -> x ∈ cut_one start fin s -> s.1.1.1 <= x.1.1.1 /\ x.1.1.2 <= s.1.1.2.
Proof.
  destruct s as [[[lo hi] fl] pr]. intros (p & n & _ & Hn & _ & -> & -> & _) Hle. unfold cut_one.
  destruct (Z.leb_spec fin (p * 4096)); [intros ->%list_elem_of_singleton; simpl; lia|].
  destruct (Z.leb_spec ((p + n) * 4096) start); [intros ->%list_elem_of_singleton; simpl; lia|]. cbn [orb].
  rewrite elem_of_app. destruct (Z.ltb_spec (p * 4096) start), (Z.ltb_spec fin ((p + n) * 4096));
    rewrite ?list_elem_of_singleton, ?elem_of_nil; intros [?|?]; subst; simpl; try done; lia.
Qed.

Lemma sorted_singleton {A} (P : A -> A -> Prop) x : StronglySorted P [x].
Proof. repeat constructor. Qed.

Lemma cut_one_wf p0 n0 s :
  span_wf s -> 0 <= p0 -> 0 <= n0 ->
  Forall span_wf (cut_one (p0 * 4096) ((p0 + n0) * 4096) s) /\ StronglySorted sbefore (cut_one (p0 * 4096) ((p0 + n0) * 4096) s).
Proof.
  destruct s as [[[lo hi] fl] pr]. intros W Hp Hn. pose proof W as (p & n & H1 & H2 & H3 & Elo & Ehi & Hg). unfold cut_one. subst lo hi.
  destruct (Z.leb_spec ((p0 + n0) * 4096) (p * 4096)); [split; [apply Forall_singleton; exact W|apply sorted_singleton]|].
  destruct (Z.leb_spec ((p + n) * 4096) (p0 * 4096)); [split; [apply Forall_singleton; exact W|apply sorted_singleton]|]. cbn [orb].
  destruct (Z.ltb_spec (p * 4096) (p0 * 4096)), (Z.ltb_spec ((p0 + n0) * 4096) ((p + n) * 4096)); cbn [app];
    (split; [rewrite ?Forall_cons, ?Forall_nil; repeat split|repeat constructor; unfold sbefore; simpl; lia]);
    [exists p, (p0 - p)|exists (p0 + n0), (p + n - p0 - n0)|exists p, (p0 - p)|exists (p0 + n0), (p + n - p0 - n0)];
    (split; [lia|]; split; [lia|]; split; [lia|]; split; [lia|]; split; [lia|exact Hg]).
Qed.

Lemma sorted_app (l1 l2 : list (Z * Z * Z * Z)) :
  StronglySorted sbefore l1 -> StronglySorted sbefore l2 -> (forall x y, x ∈ l1 -> y ∈ l2 -> sbefore x y) ->
  StronglySorted sbefore (l1 ++ l2).
Proof.
  induction 1 as [|x l1 HS IH HF]; intros H2 Hxy; [done|]. cbn. constructor.
  - apply IH; [done|]. intros u y Hu Hy. apply Hxy; [by right|done].
  - apply Forall_app. split; [done|]. apply Forall_forall. intros y Hy. apply Hxy; [by left|done].
Qed.

Lemma cut_wf p0 n0 l :
  0 <= p0 -> 0 <= n0 -> Forall span_wf l /\ StronglySorted sbefore l ->
  Forall span_wf (cut (p0 * 4096) ((p0 + n0) * 4096) l) /\ StronglySorted sbefore (cut (p0 * 4096) ((p0 + n0) * 4096) l).
Proof.
  intros Hp Hn. assert (p0 * 4096 <= (p0 + n0) * 4096) as Hle by lia.
  set (start := p0 * 4096) in *. set (fin := (p0 + n0) * 4096) in *.
  assert (forall l, Forall span_wf l -> forall x, x ∈ cut start fin l -> exists s, s ∈ l /\ s.1.1.1 <= x.1.1.1) as Hel.
  { clear l. intros l F x (s & Hx & Hs)%list_elem_of_bind. exists s. split; [done|].
    pose proof (proj1 (Forall_forall _ _) F s Hs). by apply (cut_one_elem start fin). }
  induction l as [|s l IH]; intros [F HS]; [done|]. apply Forall_cons in F as [Ws F]. apply StronglySorted_inv in HS as [HS B].
  destruct (IH (conj F HS)) as [F' S']. destruct (cut_one_wf p0 n0 s Ws Hp Hn) as [F1 S1].
  unfold cut in *. cbn [mbind list_bind]. split; [by apply Forall_app|]. apply sorted_app; [done|done|].
  intros x y Hx Hy. destruct (cut_one_elem start fin s x Ws Hle Hx) as [_ H1]. destruct (Hel l F y Hy) as (w & Hw & H2).
  pose proof (proj1 (Forall_forall _ _) B w Hw) as Hb. unfold sbefore in *. lia.
Qed.

Lemma cut_or_stale_wf p0 n0 (l l' : list vm_area) :
  0 <= p0 -> 0 <= n0 -> vmas_wf l ->
  span <$> l' = cut (p0 * 4096) ((p0 + n0) * 4096) (span <$> l) \/ span <$> l' = span <$> l -> vmas_wf l'.
Proof.
  intros Hp Hn Wl%vmas_wf_spans. rewrite vmas_wf_spans. intros [-> | ->]; [by apply cut_wf|done].
Qed.

(** The page lies in the region and in a VMA. *)
Definition in_cut (p0 n0 : Z) (l : list vm_area) (p : Z) : Prop :=
  p0 <= p < p0 + n0 /\ Exists (fun v => vma_start v <= p * 4096 < vma_end v) l.

#[export] Instance in_cut_dec p0 n0 l p : Decision (in_cut p0 n0 l p).
Proof. unfold in_cut. apply _. Defined.

Lemma in_cut_nil p0 n0 p : ~ in_cut p0 n0 [] p.
Proof. intros [_ H]. inversion H. Qed.

Lemma in_cut_cons p0 n0 v l p : in_cut p0 n0 (v :: l) p <-> in_cut p0 n0 [v] p \/ in_cut p0 n0 l p.
Proof.
  unfold in_cut. rewrite !Exists_cons. split; [intros (H & [H1|H1]); auto|].
  - intros [(H & [H1|H1])|(H & H1)]; auto. inversion H1.
Qed.

(** A region that misses the VMA, or lies before all of them. *)
Lemma in_cut_beyond p0 n0 l p : Forall (fun v => (p0 + n0) * 4096 <= vma_start v) l -> ~ in_cut p0 n0 l p.
Proof.
  intros F [Hp (v & Hv & Hc)%Exists_exists]. pose proof (proj1 (Forall_forall _ _) F v Hv) as Hf. simpl in Hf. lia.
Qed.

Notation ptrs l := (vma_ptr <$> l).

Section regions.
Context {S : Type} `{PA : PageAllocator S} {PAL : PageAllocatorLaws S}.
Implicit Types (st : mmu S) (a : address_space) (R : gmap Z role) (l : list vm_area).

(** The pages of [l] in the region went away, and its VMAs became those of [l']. *)
Record unmapped (root p0 n0 : Z) st R l st' R' l' : Prop := {
  um_core : core_inv st' root R';
  um_step : vstep st R st' R';
  um_data : forall t q, R' !! t = Some (Data q) <-> R !! t = Some (Data q) /\ ~ in_cut p0 n0 l q;
  um_none : forall v, user_addr v -> in_cut p0 n0 l (vpage v) -> translation st' root v = None;
  um_same : forall v, user_addr v -> ~ in_cut p0 n0 l (vpage v) -> translation st' root v = translation st root v;
  um_structs : forall t, R' !! t = Some Struct <-> (R !! t = Some Struct /\ t ∉ ptrs l) \/ t ∈ ptrs l';
  um_fresh : forall t, t ∈ ptrs l' -> t ∈ ptrs l \/ R !! t ≠ Some Struct;
  um_nodup : NoDup (ptrs l')
}.

Lemma unmapped_refl root p0 n0 st R l :
  core_inv st root R -> NoDup (ptrs l) -> (forall t, t ∈ ptrs l -> R !! t = Some Struct) ->
  (forall p, ~ in_cut p0 n0 l p) -> unmapped root p0 n0 st R l st R l.
Proof using PAL.
  intros C ND HS Hno. split; [done|apply vstep_refl|..]; try done.
  - intros t q. split; [intros ?; split; [done|apply Hno]|by intros [? _]].
  - intros v _ Hin. by apply Hno in Hin.
  - intros t. destruct (decide (t ∈ ptrs l)); naive_solver.
  - by left.
Qed.

Lemma unmapped_cons root p0 n0 st R v l st1 R1 hs st2 R2 l1 :
  unmapped root p0 n0 st R [v] st1 R1 hs -> unmapped root p0 n0 st1 R1 l st2 R2 l1 ->
  NoDup (ptrs (v :: l)) -> (forall t, t ∈ ptrs (v :: l) -> R !! t = Some Struct) ->
  unmapped root p0 n0 st R (v :: l) st2 R2 (hs ++ l1).
Proof using PAL.
  intros [A1 A2 A3 A4 A5 A6 A7 A8] [B1 B2 B3 B4 B5 B6 B7 B8] ND HS.
  change (ptrs (v :: l)) with (vma_ptr v :: ptrs l) in *. change (ptrs [v]) with [vma_ptr v] in *.
  apply NoDup_cons in ND as [Hv ND].
  assert (forall t, t ∈ ptrs hs -> t ∉ ptrs l) as Hdis.
  { intros t Ht Hl. destruct (A7 t Ht) as [Ht'|Ht'].
    - apply list_elem_of_singleton in Ht' as ->. done.
    - apply Ht', HS. by right. }
  split; [done|by eapply vstep_trans|..].
  - intros t q. rewrite B3, A3, (in_cut_cons p0 n0 v l). tauto.
  - intros u Hu [H1|H1]%in_cut_cons; [|by apply B4]. destruct (decide (in_cut p0 n0 l (vpage u))); [by apply B4|].
    rewrite B5 by done. by apply A4.
  - intros u Hu Hn. rewrite (in_cut_cons p0 n0 v l) in Hn. rewrite B5 by tauto. apply A5; tauto.
  - intros t. rewrite fmap_cons, B6, A6, fmap_app, elem_of_app, (elem_of_cons (ptrs l)), list_elem_of_singleton. split.
    + intros [[[[? ?]|?] ?]|?]; [left; tauto|right; auto|right; auto].
    + intros [[H1 H2]|[H1|H1]]; [left; split; [left|]; tauto| |by right].
      left. split; [by right|by apply Hdis].
  - intros t. rewrite fmap_cons, fmap_app, elem_of_app, elem_of_cons. intros [Ht|Ht].
    + destruct (A7 t Ht) as [Ht'|?]; [|by right]. apply list_elem_of_singleton in Ht'. tauto.
    + destruct (B7 t Ht) as [?|Hn]; [tauto|]. destruct (decide (R !! t = Some Struct)) as [HR|HR]; [|by right].
      destruct (decide (t = vma_ptr v)) as [->|Hne]; [tauto|]. destruct Hn. apply A6. left. split; [done|].
      by rewrite list_elem_of_singleton.
  - rewrite fmap_app. apply NoDup_app. split; [done|]. split; [|done]. intros t Ht Ht1.
    destruct (B7 t Ht1) as [Hl|Hn]; [by apply (Hdis t)|]. apply Hn, A6. by right.
Qed.

(** The overlap of a VMA with the region, in pages. *)
Lemma overlap_pages v p0 n0 :
  vma_wf v -> 0 <= p0 -> 0 <= n0 -> vma_start v < (p0 + n0) * 4096 -> p0 * 4096 < vma_end v ->
  exists p n, 0 <= p /\ 0 <= n /\ p + n <= space_pages /\
    (if p0 * 4096 <? vma_start v then vma_start v else p0 * 4096) = p * 4096 /\
    (if vma_end v <? (p0 + n0) * 4096 then vma_end v else (p0 + n0) * 4096) = (p + n) * 4096 /\
    (forall q, p <= q < p + n <-> in_cut p0 n0 [v] q).
Proof using.
  intros (pv & nv & H1 & H2 & H3 & Es & Ee & _) Hp Hn Hlo Hhi. rewrite Es, Ee in *.
  exists (Z.max p0 pv), (Z.min (p0 + n0) (pv + nv) - Z.max p0 pv). split; [lia|]. split; [lia|]. split; [lia|].
  split; [destruct (Z.ltb_spec (p0 * 4096) (pv * 4096)); lia|].
  split; [destruct (Z.ltb_spec ((pv + nv) * 4096) ((p0 + n0) * 4096)); lia|].
  intros q. unfold in_cut. rewrite Exists_cons, Exists_nil, Es, Ee. lia.
Qed.

(** The pages of one VMA go away; its structure is dealt with by the caller. *)
Lemma unmap_one root p0 n0 st R v cnt :
  core_inv st root R -> vma_wf v -> 0 <= p0 -> 0 <= n0 ->
  vma_start v < (p0 + n0) * 4096 -> p0 * 4096 < vma_end v -> R !! vma_ptr v = Some Struct ->
  exists st' cnt' R',
    unmap_pages st root (if p0 * 4096 <? vma_start v then vma_start v else p0 * 4096)
      (if vma_end v <? (p0 + n0) * 4096 then vma_end v else (p0 + n0) * 4096) cnt = Some (st', cnt') /\
    (forall w, vma_ptr w = vma_ptr v -> unmapped root p0 n0 st R [v] st' R' [w]) /\
    forall t, R' !! t = Some Struct <-> R !! t = Some Struct.
Proof using PAL.
  intros C Wv Hp Hn Hlo Hhi Hv.
  destruct (overlap_pages v p0 n0 Wv Hp Hn Hlo Hhi) as (p & n & H1 & H2 & H3 & -> & -> & Hin).
  destruct (unmap_pages_ok st root R p n cnt C H1 H2 H3) as (st' & cnt' & R' & E & C' & V' & D' & TR').
  exists st', cnt', R'. split; [done|].
  assert (forall t, R' !! t = Some Struct <-> R !! t = Some Struct) as HSt.
  { intros t. rewrite D'. destruct (R !! t) as [[|q|]|]; try done. by case_decide. }
  split; [|done]. intros w Ew. split; [done|done|..].
  - intros t q. rewrite D'. destruct (R !! t) as [[|r|]|] eqn:Er; try (split; [done|by intros [? _]]).
    case_decide as Hd; rewrite Hin in Hd.
    + split; [done|]. intros [[= <-] ?]. done.
    + split; [by intros [= <-]|by intros [[= <-] _]].
  - intros u Hu Hc. rewrite TR' by done. unfold remap_range. rewrite decide_True; [done|]. by apply Hin.
  - intros u Hu Hc. rewrite TR' by done. unfold remap_range. rewrite decide_False; [done|]. by rewrite Hin.
  - intros t. rewrite HSt. cbn. rewrite Ew, list_elem_of_singleton.
    destruct (decide (t = vma_ptr v)) as [->|]; naive_solver.
  - intros t. cbn. rewrite Ew. by left.
  - apply NoDup_singleton.
Qed.

(** The spans that unmapping leaves: the region is cut out, unless a VMA had to be split and no page was
    left for the second half ([st'] is the state at the end): then the VMA still spans the pages that
    are gone. *)
Definition cut_or_stale st' (start fin : Z) l l' : Prop :=
  span <$> l' = cut start fin (span <$> l) \/
  span <$> l' = span <$> l /\ Exists (fun v => vma_start v < start /\ fin < vma_end v) l /\ exhausted st'.

Lemma cut_or_stale_cons st' start fin v l hs l1 :
  span <$> hs = cut_one start fin (span v) -> vma_wf v -> Forall (before v) l -> cut_or_stale st' start fin l l1 -> start <= fin ->
  (hs = [v] \/ start < vma_end v) -> 
  cut_or_stale st' start fin (v :: l) (hs ++ l1).
Proof using.
  intros Eh Wv Bv [E|(E & Hx & He)] Hle Hc.
  - left. rewrite fmap_app, Eh, E. done.
  - right. apply Exists_exists in Hx as (w & Hw & Hs & Hf).
    pose proof (proj1 (Forall_forall _ _) Bv w Hw) as Hb. unfold before in Hb.
    destruct Hc as [->|Hc]; [|lia]. split; [by rewrite fmap_app, E|]. split; [|done]. apply Exists_cons_tl. apply Exists_exists. eauto.
Qed.

Lemma unmapped_free root p0 n0 st R v st1 R1 :
  unmapped root p0 n0 st R [v] st1 R1 [v] ->
  exists st2, vma_free st1 v = Some st2 /\ unmapped root p0 n0 st R [v] st2 (delete (vma_ptr v) R1) [].
Proof using PAL.
  intros [A1 A2 A3 A4 A5 A6 A7 A8].
  assert (R1 !! vma_ptr v = Some Struct) as Hv by (apply A6; right; by apply list_elem_of_singleton).
  destruct (free_struct_ok st1 root R1 (vma_ptr v) A1 Hv) as (st2 & E & C2 & _ & TR2 & V2).
  exists st2. split; [done|]. split; [done|by eapply vstep_trans|..].
  - intros t q. rewrite lookup_delete_Some, <- A3. naive_solver.
  - intros u Hu Hc. rewrite TR2. by apply A4.
  - intros u Hu Hc. rewrite TR2. by apply A5.
  - intros t. rewrite lookup_delete_Some, A6. cbn. rewrite list_elem_of_singleton, elem_of_nil. naive_solver.
  - intros t Ht. inversion Ht.
  - constructor.
Qed.

Lemma unmapped_split root p0 n0 st R v w st1 R1 :
  unmapped root p0 n0 st R [v] st1 R1 [w] -> R !! vma_ptr v = Some Struct -> vma_ptr w = vma_ptr v ->
  (vma_alloc st1 = Some (mk_vma 0 0 0 0 0, st1) /\ exhausted st1) \/
  exists t st2, vma_alloc st1 = Some (mk_vma t 0 0 0 0, st2) /\ t ≠ 0 /\
    forall lo hi fl pr, unmapped root p0 n0 st R [v] st2 (<[t := Struct]> R1) [w; mk_vma t lo hi fl pr].
Proof using PAL.
  intros [A1 A2 A3 A4 A5 A6 A7 A8] Hv Ew. unfold vma_alloc.
  destruct (get_page_ok st1 root R1 A1) as [[-> Hx]|(f & st2 & -> & Hn0 & Hm & Hnr & C2 & Em & TR2 & V2)]; cbn [mbind option_bind];
    [by left|right]. set (t := hhdm_page (frames_of st1) f) in *. exists t, st2. split; [done|]. split; [done|].
  intros lo hi fl pr. split; [done|by eapply vstep_trans|..].
  - intros t' q. rewrite <- A3. destruct (decide (t' = t)) as [->|Hne]; [rewrite lookup_insert_eq; naive_solver|].
    by rewrite lookup_insert_ne.
  - intros u Hu Hc. rewrite TR2. by apply A4.
  - intros u Hu Hc. rewrite TR2. by apply A5.
  - intros t'. cbn. rewrite !elem_of_cons, !elem_of_nil. destruct (decide (t' = t)) as [->|Hne].
    + rewrite lookup_insert_eq. naive_solver.
    + rewrite lookup_insert_ne, A6 by done. cbn. rewrite !elem_of_cons, !elem_of_nil. naive_solver.
  - intros t'. change (ptrs [w; mk_vma t lo hi fl pr]) with [vma_ptr w; t]. change (ptrs [v]) with [vma_ptr v].
    intros Ht'. destruct (decide (t' = vma_ptr v)) as [->|Hne]; [left; by left|right].
    assert (t' = t) as -> by (rewrite Ew in Ht'; set_solver). intros HR.
    assert (R1 !! t = Some Struct); [|congruence]. apply A6. left. split; [done|]. cbn. set_solver.
  - cbn. apply NoDup_cons. split; [|apply NoDup_singleton]. rewrite list_elem_of_singleton. intros E.
    assert (R1 !! t = Some Struct); [|congruence]. apply A6. right. rewrite <- E. by apply list_elem_of_singleton.
Qed.

Lemma unmap_vmas_beyond st root start fin l count n :
  Forall (fun v => fin <= vma_start v) l -> unmap_vmas st root start fin l count n = Some (l, count, n, st).
Proof using. intros F. destruct F as [|v l Hv _]; cbn [unmap_vmas]; [done|]. by rewrite (proj2 (Z.leb_le _ _) Hv). Qed.

Lemma cut_or_stale_beyond st' start fin l l' :
  cut_or_stale st' start fin l l' -> Forall (fun v => fin <= vma_start v) l -> span <$> l' = span <$> l.
Proof using. intros [E|[E _]] F; [|done]. by rewrite E, cut_beyond. Qed.

Lemma span_length (l l' : list vm_area) : span <$> l' = span <$> l -> length l' = length l.
Proof using. intros E. by rewrite <- (length_fmap span l'), E, length_fmap. Qed.

Lemma unmap_vmas_ok root p0 n0 l : forall st R count cnt,
  core_inv st root R -> vmas_wf l -> NoDup (ptrs l) -> (forall t, t ∈ ptrs l -> R !! t = Some Struct) ->
  0 <= p0 -> 0 <= n0 -> 0 <= count < 2 ^ 64 ->
  exists l' count' cnt' st' R',
    unmap_vmas st root (p0 * 4096) ((p0 + n0) * 4096) l count cnt = Some (l', count', cnt', st') /\
    unmapped root p0 n0 st R l st' R' l' /\ cut_or_stale st' (p0 * 4096) ((p0 + n0) * 4096) l l' /\
    count' = u64 (count + (zlen l' - zlen l)).
Proof using PAL.
  induction l as [|v l IH]; intros st R count cnt C Wl ND HS Hp Hn Hc; cbn [unmap_vmas].
  { exists [], count, cnt, st, R. split; [done|]. split; [apply unmapped_refl; try done; intros p; apply in_cut_nil|].
    split; [by left|]. rewrite u64_small; cbn; lia. }
  pose proof Wl as (Wv & Bv & Wl')%vmas_wf_cons. pose proof ND as [Hv ND']%NoDup_cons.
  assert (R !! vma_ptr v = Some Struct) as HRv by (apply HS; by left).
  set (start := p0 * 4096) in *. set (fin := (p0 + n0) * 4096) in *.
  assert (zlen (v :: l) = zlen l + 1) as Hlen by (unfold zlen; simpl; lia). rewrite Hlen.
  destruct (Z.leb_spec fin (vma_start v)) as [Hbr|Hlo].
  { assert (Forall (fun v => fin <= vma_start v) (v :: l)) as F.
    { constructor; [done|]. eapply Forall_impl; [exact Bv|]. unfold before. pose proof (vma_nonempty _ Wv). intros w. lia. }
    exists (v :: l), count, cnt, st, R. split; [done|]. split.
    - apply unmapped_refl; try done. intros p. by apply in_cut_beyond.
    - split; [left; by rewrite cut_beyond|]. rewrite Hlen, u64_small by lia. lia. }
  (* the rest of the list from a state in which the VMA is dealt with *)
  assert (forall hs st1 R1 count1 cnt1, unmapped root p0 n0 st R [v] st1 R1 hs -> 0 <= count1 < 2 ^ 64 ->
    exists l1 count' cnt' st' R', unmap_vmas st1 root start fin l count1 cnt1 = Some (l1, count', cnt', st') /\
      unmapped root p0 n0 st R (v :: l) st' R' (hs ++ l1) /\ cut_or_stale st' start fin l l1 /\
      count' = u64 (count1 + (zlen l1 - zlen l))) as Hrest.
  { intros hs st1 R1 count1 cnt1 U Hc1.
    destruct (IH st1 R1 count1 cnt1 (um_core _ _ _ _ _ _ _ _ _ U) Wl' ND') as (l1 & c1 & n1 & st2 & R2 & E & U2 & CS & Ec); try done.
    - intros t Ht. apply (um_structs _ _ _ _ _ _ _ _ _ U). left. split; [apply HS; by right|]. cbn.
      rewrite list_elem_of_singleton. intros ->. done.
    - exists l1, c1, n1, st2, R2. split; [done|]. split; [by eapply unmapped_cons|done]. }
  destruct (Z.leb_spec (vma_end v) start) as [Hsk|Hhi].
  { destruct (Hrest [v] st R count cnt) as (l1 & c1 & n1 & st' & R' & -> & U & CS & ->); [|done|].
    { apply unmapped_refl; [done|apply NoDup_singleton| |].
      - intros t ->%list_elem_of_singleton. done.
      - intros p [Hpp Hx]. rewrite Exists_cons, Exists_nil in Hx. unfold start in *. lia. }
    cbn [mbind option_bind]. exists (v :: l1), (u64 (count + (zlen l1 - zlen l))), n1, st', R'. split; [done|]. split; [exact U|].
    split; [|unfold zlen; simpl; f_equal; lia].
    apply (cut_or_stale_cons st' start fin v l [v] l1); try done; [|unfold start, fin; lia|by left].
    cbn. rewrite (proj2 (Z.leb_le (vma_end v) start)) by done. by rewrite orb_true_r. }
  destruct (unmap_one root p0 n0 st R v cnt C Wv Hp Hn Hlo Hhi HRv) as (st1 & cnt1 & R1 & E1 & U1 & _).
  fold start fin in E1. rewrite E1. cbn [mbind option_bind].
  assert (cut_one start fin (span v) = (if vma_start v <? start then [(vma_start v, start, vma_flags v, page_prot v)] else []) ++
    (if fin <? vma_end v then [(fin, vma_end v, vma_flags v, page_prot v)] else [])) as Ecut.
  { unfold span, cut_one. rewrite (proj2 (Z.leb_gt fin (vma_start v))), (proj2 (Z.leb_gt (vma_end v) start)) by done. done. }
  set (us := if start <? vma_start v then vma_start v else start) in *.
  set (ue := if vma_end v <? fin then vma_end v else fin) in *.
  assert (us = vma_start v /\ start <= vma_start v \/ us ≠ vma_start v /\ us = start /\ vma_start v < start) as Hus
    by (unfold us; destruct (Z.ltb_spec start (vma_start v)); lia).
  assert (ue = vma_end v /\ vma_end v <= fin \/ ue ≠ vma_end v /\ ue = fin /\ fin < vma_end v) as Hue
    by (unfold ue; destruct (Z.ltb_spec (vma_end v) fin); lia).
  clearbody us ue. assert (start <= fin) as Hsf by (unfold start, fin; lia).
  destruct Hus as [[Eus Hus]|(Nus & Eus & Hus)], Hue as [[Eue Hue]|(Nue & Eue & Hue)];
    rewrite ?(proj2 (Z.eqb_eq us _) Eus), ?(proj2 (Z.eqb_eq ue _) Eue) by done;
    try rewrite (proj2 (Z.eqb_neq us (vma_start v)) Nus); try rewrite (proj2 (Z.eqb_neq ue (vma_end v)) Nue); cbn [andb].
  - (* the whole VMA *)
    destruct (unmapped_free root p0 n0 st R v st1 R1 (U1 v eq_refl)) as (st2 & -> & U2). cbn [mbind option_bind].
    destruct (Hrest [] st2 _ (u64 (count - 1)) cnt1 U2 (u64_range _)) as (l1 & c1 & n1 & st' & R' & -> & U & CS & ->).
    exists l1, (u64 (u64 (count - 1) + (zlen l1 - zlen l))), n1, st', R'. split; [done|]. split; [exact U|]. split.
    + apply (cut_or_stale_cons st' start fin v l [] l1); try done; [|by right]. rewrite Ecut.
      by rewrite (proj2 (Z.ltb_ge _ _)), (proj2 (Z.ltb_ge fin (vma_end v))) by done.
    + rewrite u64_add_l. f_equal. lia.
  - (* its beginning *)
    destruct (Hrest [set_range v ue (vma_end v)] st1 R1 count cnt1 (U1 (set_range v ue (vma_end v)) eq_refl) Hc) as (l1 & c1 & n1 & st' & R' & -> & U & CS & ->).
    cbn [mbind option_bind]. eexists _, _, n1, st', R'. split; [done|]. split; [exact U|].
    split; [|unfold zlen; simpl; f_equal; lia]. apply (cut_or_stale_cons st' start fin v l [_] l1); try done; [|by right].
    rewrite Ecut, (proj2 (Z.ltb_ge _ _)), (proj2 (Z.ltb_lt fin (vma_end v))) by done. cbn. by rewrite Eue.
  - (* its end *)
    destruct (Hrest [set_range v (vma_start v) us] st1 R1 count cnt1 (U1 (set_range v (vma_start v) us) eq_refl) Hc) as (l1 & c1 & n1 & st' & R' & -> & U & CS & ->).
    cbn [mbind option_bind]. eexists _, _, n1, st', R'. split; [done|]. split; [exact U|].
    split; [|unfold zlen; simpl; f_equal; lia]. apply (cut_or_stale_cons st' start fin v l [_] l1); try done; [|by right].
    rewrite Ecut, (proj2 (Z.ltb_lt _ _)), (proj2 (Z.ltb_ge fin (vma_end v))) by done. cbn. by rewrite Eus.
  - (* its middle *)
    destruct (unmapped_split root p0 n0 st R v (set_range v (vma_start v) us) st1 R1
      (U1 (set_range v (vma_start v) us) eq_refl) HRv eq_refl)
      as [[-> Hex]|(t & st2 & -> & Ht0 & U2)]; cbn [mbind option_bind vma_ptr].
    + assert (Forall (fun w => fin <= vma_start w) l) as Hbey by (eapply Forall_impl; [exact Bv|]; unfold before; intros w; lia).
      destruct (Hrest [v] st1 R1 count cnt1 (U1 v eq_refl) Hc) as (l1 & c1 & n1 & st' & R' & E & U & CS & Ec).
      pose proof E as E'. rewrite unmap_vmas_beyond in E' by exact Hbey. injection E' as _ _ _ Est. subst st' c1. rewrite E.
      cbn [mbind option_bind]. eexists (v :: l1), _, n1, st1, R'. split; [done|]. split; [exact U|].
      split; [|unfold zlen; simpl; f_equal; lia]. right. split; [|split; [by apply Exists_cons_hd|exact Hex] ].
      cbn. f_equal. by eapply (cut_or_stale_beyond st1 start fin).
    + rewrite (proj2 (Z.eqb_neq t 0) Ht0).
      destruct (Hrest _ st2 _ (u64 (count + 1)) cnt1 (U2 ue (vma_end v) (vma_flags v) (page_prot v)) (u64_range _))
        as (l1 & c1 & n1 & st' & R' & -> & U & CS & ->).
      cbn [mbind option_bind]. eexists _, _, n1, st', R'. split; [done|]. split; [exact U|]. split.
      * apply (cut_or_stale_cons st' start fin v l [_; _] l1); try done; [|by right].
        rewrite Ecut, (proj2 (Z.ltb_lt _ _)), (proj2 (Z.ltb_lt fin (vma_end v))) by done. cbn. by rewrite Eus, Eue.
      * rewrite u64_add_l. unfold zlen. simpl. f_equal. lia.
Qed.

(** ** The invariant of an address space *)

Definition structs a : list Z := as_ptr a :: ptrs (vma_list a).

(** Its VMAs are sorted, disjoint and page-aligned in user space; the pages it owns are its page
    tables, the data behind its mapped pages, all of them inside its VMAs, and its structures. *)
Record space_inv st a R : Prop := {
  sp_core : core_inv st (pml4 a) R;
  sp_cover : forall t p, R !! t = Some (Data p) -> Exists (fun v => vma_start v <= p * 4096 < vma_end v) (vma_list a);
  sp_nodup : NoDup (structs a);
  sp_structs : forall t, R !! t = Some Struct <-> t ∈ structs a;
  sp_vmas : vmas_wf (vma_list a);
  sp_count : vma_count a = u64 (zlen (vma_list a))
}.

(** Coverage by VMAs, on the spans. *)
Definition spanned (sp : list (Z * Z * Z * Z)) (x : Z) : Prop := Exists (fun s => s.1.1.1 <= x < s.1.1.2) sp.

Lemma covered_spanned (l : list vm_area) x : Exists (fun v => vma_start v <= x < vma_end v) l <-> spanned (span <$> l) x.
Proof using. unfold spanned. by rewrite Exists_fmap. Qed.

Lemma spanned_cut start fin (sp : list (Z * Z * Z * Z)) x :
  spanned sp x -> ~ start <= x < fin -> spanned (cut start fin sp) x.
Proof using.
  unfold spanned. rewrite !Exists_exists. intros ([[[lo hi] fl] pr] & Hs & Hx) Hout. simpl in Hx.
  assert (exists y, y ∈ cut_one start fin (lo, hi, fl, pr) /\ y.1.1.1 <= x < y.1.1.2) as (y & Hy & Hyx).
  { unfold cut_one. destruct (Z.leb_spec fin lo); [eexists; split; [by left|done]|].
    destruct (Z.leb_spec hi start); [eexists; split; [by left|done]|]. cbn [orb].
    destruct (decide (x < start)) as [Hlt|Hge].
    - exists (lo, start, fl, pr). rewrite (proj2 (Z.ltb_lt lo start)) by lia. split; [by left|simpl; lia].
    - exists (fin, hi, fl, pr). rewrite (proj2 (Z.ltb_lt fin hi)) by lia. split; [apply elem_of_app; right; by left|simpl; lia]. }
  exists y. split; [|done]. apply list_elem_of_bind. by exists (lo, hi, fl, pr).
Qed.

Lemma u64_eq x y : x = y -> u64 x = u64 y.
Proof using. by intros ->. Qed.

Lemma unmap_region_ok st a R p0 n0 :
  space_inv st a R -> 0 <= p0 -> 0 <= n0 -> p0 + n0 <= space_pages ->
  exists a' st' R', vmm_unmap_region st a (p0 * 4096) (n0 * 4096) = Some (0, a', st') /\
    space_inv st' a' R' /\ vstep st R st' R' /\ pml4 a' = pml4 a /\ (as_ptr a' = as_ptr a /\ ref_count a' = ref_count a) /\
    cut_or_stale st' (p0 * 4096) ((p0 + n0) * 4096) (vma_list a) (vma_list a') /\
    (forall v, user_addr v -> p0 <= vpage v < p0 + n0 -> translation st' (pml4 a) v = None) /\
    same_outside st (pml4 a) st' p0 n0.
Proof using PAL.
  intros [C Cov ND HSt Wl Hc] Hp Hn Hs. apply NoDup_cons in ND as [Ha ND]. unfold vmm_unmap_region.
  rewrite u64_small by (unfold space_pages in *; lia). rewrite <- Z.mul_add_distr_r.
  destruct (unmap_vmas_ok (pml4 a) p0 n0 (vma_list a) st R (vma_count a) 0 C Wl ND) as (l' & c' & n' & st' & R' & -> & U & CS & ->); try done.
  { intros t Ht. apply HSt. by right. }
  { rewrite Hc. apply u64_range. }
  cbn [mbind option_bind]. destruct U as [U1 U2 U3 U4 U5 U6 U7 U8]. eexists _, st', R'. split; [done|].
  assert (vmas_wf l') as Wl' by (eapply (cut_or_stale_wf p0 n0); [done|done|exact Wl|]; destruct CS as [?|[? _]]; auto).
  assert (forall t q, R' !! t = Some (Data q) -> R !! t = Some (Data q) /\ ~ p0 <= q < p0 + n0) as Hdata.
  { intros t q Hd. apply U3 in Hd as [Hd Hnc]. split; [done|]. intros Hq. apply Hnc. split; [done|]. by eapply Cov. }
  split; [split; cbn [pml4 with_total with_vmas vma_list vma_count structs as_ptr]; try done|].
  - intros t q [Hd Hnq]%Hdata. apply covered_spanned. pose proof (Cov t q Hd) as Hcov%covered_spanned.
    destruct CS as [->|[-> _]]; [|done]. apply spanned_cut; [done|]. lia.
  - unfold structs. cbn. apply NoDup_cons. split; [|done]. intros Hin. destruct (U7 _ Hin) as [?|Hnot]; [done|].
    apply Hnot, HSt. by left.
  - intros t. rewrite U6, HSt. unfold structs. cbn. rewrite !elem_of_cons. split.
    + intros [[[->|?] ?]|?]; auto. done.
    + intros [->|?]; [|by right]. left. split; [by left|done].
  - rewrite Hc, u64_add_l. apply u64_eq. lia.
  - split; [done|]. split; [done|]. split; [done|]. split; [done|]. split.
    + intros v Hv Hin. destruct (decide (in_cut p0 n0 (vma_list a) (vpage v))) as [Hc'|Hnc]; [by apply U4|].
      rewrite U5 by done. rewrite translation_page. destruct (translation st (pml4 a) (vpage v * 4096)) as [e|] eqn:Etr; [|done].
      exfalso. apply Hnc. split; [done|]. apply (Cov (target st e)). apply (ci_data _ _ _ C).
      split; [unfold user_addr, space_pages, vpage in *; divlia|]. by exists e.
    + intros v Hv Hout. apply U5; [done|]. intros [? _]. done.
Qed.

(** ** Mapping a region *)

Lemma vma_to_pte_flags_ok flags : flag_bits (vma_to_pte_flags flags).
Proof using.
  unfold vma_to_pte_flags. destruct (ztrue (Z.land flags VMA_WRITE)), (negb (ztrue (Z.land flags VMA_EXEC))); (split; [by split|done]).
Qed.

(** A page outside all VMAs is not mapped. *)
Lemma unmapped_outside st a R q :
  space_inv st a R -> 0 <= q < space_pages -> ~ Exists (fun v => vma_start v <= q * 4096 < vma_end v) (vma_list a) ->
  translation st (pml4 a) (q * 4096) = None.
Proof using PAL.
  intros [C Cov _ _ _ _] Hq Hn. destruct (translation st (pml4 a) (q * 4096)) as [e|] eqn:E; [|done].
  destruct Hn. apply (Cov (target st e)). apply (ci_data _ _ _ C). eauto.
Qed.

(** A structure more. *)
Lemma space_insert st a R st1 t v :
  space_inv st a R -> core_inv st1 (pml4 a) (<[t := Struct]> R) -> R !! t = None -> vma_ptr v = t -> vma_wf v ->
  Forall (fun w => vma_end w <= vma_start v \/ vma_end v <= vma_start w) (vma_list a) ->
  space_inv st1 (vma_insert a v) (<[t := Struct]> R).
Proof using PAL.
  intros [C Cov ND HSt Wl Hc] C1 Hn Ev Wv F. pose proof (insert_sorted_perm (vma_list a) v) as HP.
  assert (t ∉ structs a) as Hfr by (intros Hin%HSt; congruence).
  assert (structs (vma_insert a v) ≡ₚ t :: structs a) as HPs.
  { unfold structs. cbn. rewrite HP. cbn. rewrite Ev. by constructor. }
  split.
  - done.
  - intros t' p. destruct (decide (t' = t)) as [->|Hne]; [by rewrite lookup_insert_eq|]. rewrite lookup_insert_ne by done.
    intros Hd. cbn. rewrite HP. apply Exists_cons_tl. by eapply Cov.
  - rewrite HPs. by apply NoDup_cons.
  - intros t'. rewrite HPs, elem_of_cons, <- HSt. destruct (decide (t' = t)) as [->|Hne].
    + rewrite lookup_insert_eq. naive_solver.
    + rewrite lookup_insert_ne by done. naive_solver.
  - cbn. by apply insert_sorted_wf.
  - cbn. rewrite Hc, u64_add_l. apply u64_eq. unfold zlen. rewrite (Permutation_length HP). simpl. lia.
Qed.

(** Data pages in the hands of the VMAs. *)
Lemma space_data st a R st1 R1 p n :
  space_inv st a R -> core_inv st1 (pml4 a) R1 -> data_added R R1 p n ->
  (forall q, p <= q < p + n -> Exists (fun v => vma_start v <= q * 4096 < vma_end v) (vma_list a)) ->
  space_inv st1 a R1.
Proof using PAL.
  intros [C Cov ND HSt Wl Hc] C1 A Hcov. split; try done.
  - intros t q Hd. destruct (A t) as [E|[Hn [[r Hr]|(r & Hr & E)]]]; [|congruence|].
    + rewrite E in Hd. by eapply Cov.
    + rewrite E in Hd. injection Hd as ->. by apply Hcov.
  - intros t. by rewrite (data_added_other R R1 p n t A).
Qed.

Lemma space_total st a R n : space_inv st a R -> space_inv st (with_total a n) R.
Proof using. intros [A1 A2 A3 A4 A5 A6]. by split. Qed.

(** What a failed mapping leaves: the part of the new VMA that was not reached. *)
Lemma map_region_ok st a R p n flags :
  space_inv st a R -> 0 <= p -> 0 < n -> p + n <= space_pages ->
  exists ret a' st' R', vmm_map_region st a (p * 4096) (n * 4096) flags = Some (ret, a', st') /\
    space_inv st' a' R' /\ vstep st R st' R' /\ pml4 a' = pml4 a /\ (as_ptr a' = as_ptr a /\ ref_count a' = ref_count a) /\
    let fin := (p + n) * 4096 in
    let new t := mk_vma t (p * 4096) fin flags (vma_to_pte_flags flags) in
    ((ret = 0 /\ vma_find_intersect a (p * 4096) fin = None /\
        (exists t, vma_list a' = insert_sorted (vma_list a) (new t)) /\
        fresh_zeroed st' (pml4 a) (vma_to_pte_flags flags) p n /\ same_outside st (pml4 a) st' p n /\ data_kept st R st') \/
     (ret = -1 /\ same_outside st (pml4 a) st' p 0 /\
        ((a' = a /\ st' = st) \/
         exists t k, 0 <= k < n /\
           span <$> vma_list a' = cut (p * 4096) ((p + k) * 4096) (span <$> insert_sorted (vma_list a) (new t))))).
Proof using PAL.
  intros SI Hp Hn Hs. unfold vmm_map_region. rewrite u64_small by (unfold space_pages in *; lia).
  rewrite <- Z.mul_add_distr_r. set (fin := (p + n) * 4096). cbn zeta.
  destruct (vma_find_intersect a (p * 4096) fin) as [v|] eqn:Eint.
  { exists (-1), a, st, R. split; [done|]. split; [done|]. split; [apply vstep_refl|]. split; [done|]. split; [done|].
    right. split; [done|]. split; [done|]. by left. }
  pose proof (proj1 (find_intersect_None _ _ _ (sp_vmas _ _ _ SI)) Eint) as F. unfold vma_alloc.
  destruct (get_page_ok st (pml4 a) R (sp_core _ _ _ SI)) as [[-> _]|(f & st1 & -> & Hn0 & Hm & Hnr & C1 & Em & TR1 & V1)];
    cbn [mbind option_bind vma_ptr].
  { exists (-1), a, st, R. split; [done|]. split; [done|]. split; [apply vstep_refl|]. split; [done|]. split; [done|].
    right. split; [done|]. split; [done|]. by left. }
  rewrite (proj2 (Z.eqb_neq _ 0) Hn0). set (t := hhdm_page (frames_of st) f) in *.
  set (new := mk_vma t (p * 4096) fin flags (vma_to_pte_flags flags)). set (a1 := vma_insert a new).
  assert (vma_wf new) as Wn.
  { exists p, n. split; [done|]. split; [done|]. split; [done|]. split; [done|]. split; [done|apply vma_to_pte_flags_ok]. }
  assert (space_inv st1 a1 (<[t := Struct]> R)) as SI1 by (by apply (space_insert st a R)).
  assert (forall q, p <= q < p + n -> Exists (fun v => vma_start v <= q * 4096 < vma_end v) (vma_list a1)) as Hcov.
  { intros q Hq. cbn [a1 vma_insert vma_list with_vmas]. rewrite (insert_sorted_perm (vma_list a) new). apply Exists_cons_hd. cbn. lia. }
  assert (forall q, p <= q < p + n -> translation st (pml4 a) (q * 4096) = None) as Hnone.
  { intros q Hq. apply (unmapped_outside st a R); [done|lia|]. rewrite Exists_exists. intros (v & Hv & Hx).
    pose proof (proj1 (Forall_forall _ _) F v Hv) as Hd. unfold fin in Hd. simpl in Hd. lia. }
  unfold map_new_pages. replace (pages_in (p * 4096) fin) with (Z.to_nat n) by (symmetry; apply pages_in_exact; lia).
  destruct (map_new_loop (pml4 a) (vma_to_pte_flags flags) (Z.to_nat n) p st1 _ C1 Hp ltac:(lia) (vma_to_pte_flags_ok flags))
    as (r & R2 & E2 & H2).
  { intros q Hq. rewrite TR1. apply Hnone. lia. }
  rewrite Z2Nat.id in E2, H2 by lia. change (pml4 a1) with (pml4 a). unfold new_page_body in E2. fold fin in E2. rewrite E2. cbn [mbind option_bind].
  destruct r as [st2|[st2 addr]].
  - destruct H2 as (C2 & V2 & K2 & A2 & Z2 & SO2). eexists 0, _, st2, R2. split; [done|].
    split; [apply space_total; by apply (space_data st1 a1 (<[t := Struct]> R) st2 R2 p n)|]. split; [by eapply vstep_trans|].
    split; [done|]. split; [done|]. left. split; [done|]. split; [done|]. split; [by exists t|]. split; [done|]. split.
    + intros v Hv Hout. rewrite SO2 by done. apply TR1.
    + intros t' x Hx Hnt. rewrite (K2 t' x), Em; [done| |done]. rewrite lookup_insert_ne; [done|]. intros <-. congruence.
  - destruct H2 as (k & Hk & -> & C2 & V2 & A2 & SO2 & Hn2).
    assert (space_inv st2 a1 R2) as SI2 by (apply (space_data st1 a1 (<[t := Struct]> R) st2 R2 p k); try done; intros q Hq; apply Hcov; lia).
    rewrite (u64_small (_ - _)) by (unfold space_pages in *; lia). replace ((p + k) * 4096 - p * 4096) with (k * 4096) by lia.
    destruct (unmap_region_ok st2 a1 R2 p k SI2 Hp ltac:(lia) ltac:(lia)) as (a3 & st3 & R3 & -> & SI3 & V3 & Ep3 & Ea3 & CS3 & N3 & SO3).
    cbn [mbind option_bind]. exists (-1), a3, st3, R3. split; [done|]. split; [done|].
    split; [eapply vstep_trans; [exact V1|]; eapply vstep_trans; [exact V2|exact V3]|]. split; [done|]. split; [done|].
    right. split; [done|]. split.
    + intros v Hv _. destruct (decide (p <= vpage v < p + k)) as [Hin|Hout].
      * change (pml4 a) with (pml4 a1) at 1. rewrite N3 by done. symmetry. rewrite translation_page. apply Hnone. lia.
      * change (pml4 a) with (pml4 a1) at 1. rewrite SO3 by done. change (pml4 a1) with (pml4 a). rewrite SO2 by done. apply TR1.
    + right. exists t, k. split; [done|]. destruct CS3 as [?|(_ & Hx & _)]; [done|]. exfalso.
      apply Exists_exists in Hx as (v & Hv & Hlo & Hhi). cbn [a1 vma_insert vma_list with_vmas] in Hv.
      apply insert_sorted_elem in Hv as [->|Hv]; [cbn in Hlo; lia|].
      pose proof (proj1 (Forall_forall _ _) F v Hv) as Hd. unfold fin in *. simpl in Hd. lia.
Qed.

End regions.
