(* ===== verification/VmmLife.v ===== *)
(** * Creation and destruction of address spaces (kernel/mm/vmm.c)

    [vmm_create_address_space] gives an empty address space, [vmm_destroy_address_space] gives
    back every page an address space owns, each exactly once. *)
From S2P Require Import Prelude Defs Paging PagingSpace PagingPmm Vmm VmmSpace VmmRegion.

Notation ptrs l := (vma_ptr <$> l).

Section life.
Context {S : Type} `{PA : PageAllocator S} {PAL : PageAllocatorLaws S}.
Implicit Types (st : mmu S) (a : address_space) (R : gmap Z role) (l : list vm_area).

(** ** Walking the tables while pages are given back *)

Lemma freed_next_table st0 L st h t i :
  freed st0 L st -> next_table h st t i false = (fun x => (x.1, st)) <$> next_table h st0 t i false.
Proof using PAL.
  intros F. unfold next_table. rewrite (freed_load st0 L st t i F). destruct (load st0 t i) as [e|]; [|done].
  cbn [mbind option_bind]. destruct (ztrue (Z.land e PTE_PRESENT)); cbn [negb]; [|done].
  destruct (h && _); [done|]. cbn. do 3 f_equal. by apply (target_same st0 st _ (fr_same _ _ _ F)).
Qed.

Lemma next_table_false st h t i r st' : next_table h st t i false = Some (r, st') -> st' = st.
Proof using.
  unfold next_table. destruct (load st t i) as [e|]; [|done]. cbn [mbind option_bind].
  destruct (ztrue (Z.land e PTE_PRESENT)); cbn [negb]; [|by intros [= _ <-]]. destruct (h && _); by intros [= _ <-].
Qed.

Lemma freed_get_pte st0 L st root v r :
  freed st0 L st -> paging_get_pte st0 root v = Some (r, st0) -> paging_get_pte st root v = Some (r, st).
Proof using PAL.
  intros F. unfold paging_get_pte, get_or_create_pte.
  rewrite (freed_next_table st0 L st false root (PML4_INDEX v) F).
  destruct (next_table false st0 root (PML4_INDEX v) false) as [[r1 s1]|] eqn:E1; [|done]. cbn.
  apply next_table_false in E1 as ->. destruct r1 as [t1|]; [|by intros [= <-]].
  rewrite (freed_next_table st0 L st true t1 (PDPT_INDEX v) F).
  destruct (next_table true st0 t1 (PDPT_INDEX v) false) as [[r2 s2]|] eqn:E2; [|done]. cbn.
  apply next_table_false in E2 as ->. destruct r2 as [t2|]; [|by intros [= <-]].
  rewrite (freed_next_table st0 L st true t2 (PD_INDEX v) F).
  destruct (next_table true st0 t2 (PD_INDEX v) false) as [[r3 s3]|] eqn:E3; [|done]. cbn.
  apply next_table_false in E3 as ->. destruct r3 as [t3|]; by intros [= <-].
Qed.

(** The data page behind page [p], and behind a run of pages. *)
Definition data_page st (root p : Z) : list Z :=
  match translation st root (p * 4096) with Some e => [target st e] | None => [] end.

Fixpoint data_list st (root : Z) (p : Z) (n : nat) : list Z :=
  match n with O => [] | Datatypes.S n => data_page st root p ++ data_list st root (p + 1) n end.

Definition vma_pages st (root : Z) (v : vm_area) : list Z :=
  data_list st root (vma_start v / 4096) (pages_in (vma_start v) (vma_end v)) ++ [vma_ptr v].

Lemma free_mapped_freed st0 root R L st p :
  core_inv st0 root R -> freed st0 L st -> 0 <= p < space_pages -> NoDup (L ++ data_page st0 root p) ->
  exists b st', free_mapped st root (p * 4096) = Some (b, st') /\ freed st0 (L ++ data_page st0 root p) st'.
Proof using PAL.
  intros C F Hp ND. destruct (page_user p Hp) as [Hu Evp]. pose proof (ci_tree _ _ _ C) as T.
  destruct (get_pte_ok st0 root (own_of R) (p * 4096) T Hu) as [E1 O1]. unfold free_mapped, data_page in *.
  fold (paging_get_pte st0 root (p * 4096)) in E1.
  rewrite (freed_get_pte st0 L st root (p * 4096) _ F E1). cbn [mbind option_bind].
  destruct (walk st0 false root (path (p * 4096))) as [t|] eqn:Ew; cbn [fmap option_fmap option_map].
  - specialize (O1 t eq_refl).
    destruct (load_ok st0 root _ t _ (PT_INDEX (p * 4096)) T O1 (index_range _ 12 ltac:(lia))) as (e & He & _).
    rewrite (freed_load st0 L st _ _ F), He. cbn [mbind option_bind].
    assert (translation st0 root (p * 4096) = entry_translation e) as Etr
      by (unfold translation, pte_at; by rewrite Ew, He).
    unfold entry_translation in Etr. destruct (ztrue (Z.land e PTE_PRESENT)) eqn:Ep; rewrite Etr in *;
      [|exists false, st; by rewrite app_nil_r].
    assert (R !! target st0 e = Some (Data p)) as Hd by (apply (ci_data _ _ _ C); eauto).
    fold (target st e). rewrite (target_same st0 st e (fr_same _ _ _ F)).
    destruct (free_pt_page_ok st0 L st (target st0 e) F (ci_held _ _ _ C _ _ Hd)) as (st' & E & F').
    { apply NoDup_app in ND as (_ & Hdis & _). intros Hin. apply (Hdis _ Hin). by left. }
    unfold free_page. unfold free_pt_page in E. rewrite E. cbn [mbind option_bind]. by exists true, st'.
  - assert (translation st0 root (p * 4096) = None) as Etr by (unfold translation, pte_at; by rewrite Ew).
    rewrite Etr in *. exists false, st. by rewrite app_nil_r.
Qed.

Lemma free_pages_loop st0 root R n : forall p L st,
  core_inv st0 root R -> freed st0 L st -> 0 <= p -> p + Z.of_nat n <= space_pages ->
  NoDup (L ++ data_list st0 root p n) ->
  exists st', page_loop (R := mmu S) n (p * 4096) ((p + Z.of_nat n) * 4096)
      (fun addr st => '(_, st) ← free_mapped st root addr; Some (inl st)) st = Some (inl st') /\
    freed st0 (L ++ data_list st0 root p n) st'.
Proof using PAL.
  induction n as [|n IH]; intros p L st C F Hp Hs ND; cbn [page_loop data_list].
  - rewrite (proj2 (Z.ltb_ge _ _)) by lia. exists st. by rewrite app_nil_r.
  - cbn [data_list] in ND. rewrite (assoc_L (++)) in ND |- *. rewrite (proj2 (Z.ltb_lt _ _)) by lia.
    destruct (free_mapped_freed st0 root R L st p C F ltac:(lia)) as (b & st1 & -> & F1);
      [by apply NoDup_app in ND as [? _]|]. cbn [mbind option_bind].
    rewrite (next_page p (Z.of_nat (Datatypes.S n))) by lia.
    destruct (IH (p + 1) _ st1 C F1 ltac:(lia) ltac:(lia) ND) as (st2 & E2 & F2). exists st2.
    replace (p + Z.of_nat (Datatypes.S n)) with (p + 1 + Z.of_nat n) by lia. done.
Qed.

Lemma vma_wf_pages v : vma_wf v -> exists p n, 0 <= p /\ 0 < n /\ p + n <= space_pages /\
  vma_start v = p * 4096 /\ vma_end v = (p + n) * 4096 /\ vma_start v / 4096 = p /\
  pages_in (vma_start v) (vma_end v) = Z.to_nat n.
Proof using PAL.
  intros (p & n & H1 & H2 & H3 & -> & -> & _). exists p, n. rewrite Z.div_mul, pages_in_exact by lia. done.
Qed.

Lemma destroy_vmas_ok st0 root R l : forall L st,
  core_inv st0 root R -> freed st0 L st -> Forall vma_wf l -> (forall t, t ∈ ptrs l -> R !! t = Some Struct) ->
  NoDup (L ++ (l ≫= vma_pages st0 root)) ->
  exists st', destroy_vmas st root l = Some st' /\ freed st0 (L ++ (l ≫= vma_pages st0 root)) st'.
Proof using PAL.
  induction l as [|v l IH]; intros L st C F Wl HS ND; cbn [destroy_vmas].
  - exists st. by rewrite app_nil_r.
  - apply Forall_cons in Wl as [Wv Wl]. cbn [mbind list_bind] in *. fold (mbind (M := list) (vma_pages st0 root) l) in *.
    destruct (vma_wf_pages v Wv) as (p & n & H1 & H2 & H3 & E1 & E2 & E3 & E4). unfold vma_pages at 1 in ND.
    rewrite E3, E4 in ND. rewrite <- (assoc_L (++)) in ND. rewrite (assoc_L (++) L), (assoc_L (++) _ [_]) in ND.
    pose proof ND as (ND1 & _ & _)%NoDup_app. pose proof ND1 as (ND2 & Hd & _)%NoDup_app.
    unfold free_pages_of. rewrite E4, E1, E2.
    destruct (free_pages_loop st0 root R (Z.to_nat n) p L st C F H1 ltac:(lia) ND2) as (st1 & E & F1).
    rewrite Z2Nat.id in E by lia. rewrite E. cbn [mbind option_bind].
    destruct (free_pt_page_ok st0 _ st1 (vma_ptr v) F1) as (st2 & E5 & F2).
    { apply (ci_held _ _ _ C _ Struct). apply HS. by left. }
    { intros Hin. apply (Hd _ Hin). by left. }
    unfold vma_free, free_page. unfold free_pt_page in E5. rewrite E5. cbn [mbind option_bind].
    destruct (IH _ st2 C F2 Wl) as (st3 & E6 & F3); [|exact ND|].
    { intros t Ht. apply HS. by right. }
    exists st3. split; [done|]. unfold vma_pages at 1. rewrite E3, E4. rewrite <- (assoc_L (++)), (assoc_L (++) L), (assoc_L (++) _ [_]).
    exact F3.
Qed.

(** ** What is given back *)

Lemma data_page_elem st root R p x :
  core_inv st root R -> 0 <= p < space_pages -> x ∈ data_page st root p <-> R !! x = Some (Data p).
Proof using PAL.
  intros C Hp. rewrite (ci_data _ _ _ C). unfold data_page. destruct (translation st root (p * 4096)) as [e|].
  - rewrite list_elem_of_singleton. split; [intros ->; eauto|]. by intros (_ & e' & [= <-] & ->).
  - rewrite elem_of_nil. split; [done|]. by intros (_ & e' & ? & _).
Qed.

Lemma data_list_elem st root R n : forall p x, core_inv st root R -> 0 <= p -> p + Z.of_nat n <= space_pages ->
  x ∈ data_list st root p n <-> exists q, p <= q < p + Z.of_nat n /\ R !! x = Some (Data q).
Proof using PAL.
  induction n as [|n IH]; intros p x C Hp Hs; cbn [data_list].
  - rewrite elem_of_nil. split; [done|]. intros (q & ? & _). lia.
  - rewrite elem_of_app, (data_page_elem st root R) by (done || lia). rewrite IH by (done || lia). split.
    + intros [?|(q & ? & ?)]; [exists p|exists q]; (split; [lia|done]).
    + intros (q & Hq & Hx). destruct (decide (q = p)) as [->|]; [by left|right]. exists q. split; [lia|done].
Qed.

Lemma data_list_NoDup st root R n : forall p, core_inv st root R -> 0 <= p -> p + Z.of_nat n <= space_pages ->
  NoDup (data_list st root p n).
Proof using PAL.
  induction n as [|n IH]; intros p C Hp Hs; cbn [data_list]; [constructor|]. apply NoDup_app. split; [|split].
  - unfold data_page. destruct (translation _ _ _); [apply NoDup_singleton|constructor].
  - intros x Hx Hx'. apply (data_page_elem st root R) in Hx; [|done|lia].
    apply (data_list_elem st root R) in Hx' as (q & Hq & Hx'); [|done|lia|lia].
    assert (q = p) as -> by congruence. lia.
  - by apply IH; try lia.
Qed.

Lemma vma_pages_elem st root R v x :
  core_inv st root R -> vma_wf v ->
  x ∈ vma_pages st root v <-> (exists q, vma_start v <= q * 4096 < vma_end v /\ R !! x = Some (Data q)) \/ x = vma_ptr v.
Proof using PAL.
  intros C Wv. destruct (vma_wf_pages v Wv) as (p & n & H1 & H2 & H3 & E1 & E2 & E3 & E4). unfold vma_pages.
  rewrite E3, E4, elem_of_app, list_elem_of_singleton, (data_list_elem st root R) by (done || lia). rewrite E1, E2, Z2Nat.id by lia.
  assert ((exists q, p <= q < p + n /\ R !! x = Some (Data q)) <->
    (exists q, p * 4096 <= q * 4096 < (p + n) * 4096 /\ R !! x = Some (Data q))) as ->; [|done].
  split; intros (q & Hq & Hx); exists q; (split; [lia|done]).
Qed.

Lemma vma_pages_NoDup st root R v :
  core_inv st root R -> vma_wf v -> R !! vma_ptr v = Some Struct -> NoDup (vma_pages st root v).
Proof using PAL.
  intros C Wv Hv. destruct (vma_wf_pages v Wv) as (p & n & H1 & H2 & H3 & E1 & E2 & E3 & E4). unfold vma_pages.
  rewrite E3, E4. apply NoDup_app. split; [apply (data_list_NoDup st root R); (done || lia)|]. split; [|apply NoDup_singleton].
  intros x Hx ->%list_elem_of_singleton. apply (data_list_elem st root R) in Hx as (q & _ & Hx); [congruence|done|lia|lia].
Qed.

Lemma vmas_pages_elem st root R l x :
  core_inv st root R -> Forall vma_wf l ->
  x ∈ (l ≫= vma_pages st root) <->
    (exists q, Exists (fun v => vma_start v <= q * 4096 < vma_end v) l /\ R !! x = Some (Data q)) \/ x ∈ ptrs l.
Proof using PAL.
  intros C Wl. rewrite list_elem_of_bind. split.
  - intros (v & Hx & Hv). pose proof (proj1 (Forall_forall _ _) Wl v Hv) as Wv.
    apply (vma_pages_elem st root R v x C Wv) in Hx as [(q & Hq & Hx)| ->].
    + left. exists q. split; [|done]. apply Exists_exists. eauto.
    + right. by apply list_elem_of_fmap_2.
  - intros [(q & (v & Hv & Hq)%Exists_exists & Hx)|(v & -> & Hv)%list_elem_of_fmap].
    + exists v. split; [|done]. apply (vma_pages_elem st root R v x C); [by apply (proj1 (Forall_forall _ _) Wl)|eauto].
    + exists v. split; [|done]. apply (vma_pages_elem st root R v _ C); [by apply (proj1 (Forall_forall _ _) Wl)|by right].
Qed.

Lemma vmas_pages_NoDup st root R l :
  core_inv st root R -> vmas_wf l -> NoDup (ptrs l) -> (forall t, t ∈ ptrs l -> R !! t = Some Struct) ->
  NoDup (l ≫= vma_pages st root).
Proof using PAL.
  intros C. induction l as [|v l IH]; intros Wl ND HS; [constructor|]. apply vmas_wf_cons in Wl as (Wv & Bv & Wl).
  rewrite fmap_cons in ND, HS. apply NoDup_cons in ND as [Hv ND]. rewrite bind_cons. apply NoDup_app.
  assert (R !! vma_ptr v = Some Struct) as HRv by (apply HS; by left).
  split; [by apply (vma_pages_NoDup st root R)|]. split; [|apply IH; try done; intros t Ht; apply HS; by right].
  intros x Hx Hx'. apply (vma_pages_elem st root R v x C Wv) in Hx.
  apply (vmas_pages_elem st root R l x C (proj1 Wl)) in Hx' as [(q & Hq & Hd)|Hx'].
  - destruct Hx as [(q' & Hq' & Hd')| ->]; [|congruence]. assert (q' = q) as -> by congruence.
    apply Exists_exists in Hq as (w & Hw & Hq). pose proof (proj1 (Forall_forall _ _) Bv w Hw) as Hb. unfold before in Hb. lia.
  - destruct Hx as [(q' & Hq' & Hd')| ->]; [|done]. rewrite (HS x) in Hd'; [done|by right].
Qed.

(** Everything an address space owns, in the order in which it is given back. *)
Definition owned_pages st a : list Z := (vma_list a ≫= vma_pages st (pml4 a)) ++ tables st (pml4 a) ++ [as_ptr a].

(** An address space whose VMAs need not cover all its pages, with more structures in hand. *)
Record space_pre st a R : Prop := {
  pre_core : core_inv st (pml4 a) R;
  pre_nodup : NoDup (structs a);
  pre_structs : forall t, t ∈ structs a -> R !! t = Some Struct;
  pre_vmas : vmas_wf (vma_list a)
}.

Lemma space_inv_pre st a R : space_inv st a R -> space_pre st a R.
Proof using. intros [C Cov ND HSt Wl Hc]. split; try done. intros t. by rewrite HSt. Qed.

Lemma owned_pages_ok st a R :
  space_pre st a R -> NoDup (owned_pages st a) /\ forall x, x ∈ owned_pages st a <->
    (exists q, Exists (fun v => vma_start v <= q * 4096 < vma_end v) (vma_list a) /\ R !! x = Some (Data q)) \/
    (exists p, R !! x = Some (Table p)) \/ x ∈ structs a.
Proof using PAL.
  intros [C ND HSt Wl]. pose proof ND as [Ha ND']%NoDup_cons. pose proof (ci_tree _ _ _ C) as T.
  assert (forall x, x ∈ tables st (pml4 a) <-> exists p, R !! x = Some (Table p)) as HT.
  { intros x. rewrite (tables_own st (pml4 a) (own_of R) x T (ci_reach _ _ _ C)). split.
    - intros [p Hp]. exists p. by apply own_of_lookup.
    - intros [p Hp]. exists p. by apply own_of_lookup. }
  assert (forall t, t ∈ ptrs (vma_list a) -> R !! t = Some Struct) as HSl by (intros t Ht; apply HSt; by right).
  assert (R !! as_ptr a = Some Struct) as HRa by (apply HSt; by left).
  pose proof (fun x => vmas_pages_elem st (pml4 a) R (vma_list a) x C (proj1 Wl)) as HV.
  split.
  - unfold owned_pages. apply NoDup_app. split; [by apply (vmas_pages_NoDup st (pml4 a) R)|]. split.
    + intros x Hx Hx'. apply elem_of_app in Hx' as [[p Hx']%HT|Hx'%list_elem_of_singleton].
      * apply HV in Hx as [(q & _ & Hx)|Hx%HSl]; congruence.
      * subst x. apply HV in Hx as [(q & _ & Hx)|Hx]; [congruence|done].
    + apply NoDup_app. split; [by apply (tables_NoDup st (pml4 a) (own_of R))|]. split; [|apply NoDup_singleton].
      intros x [p Hx]%HT ->%list_elem_of_singleton. congruence.
  - intros x. unfold owned_pages, structs. rewrite !elem_of_app, HV, HT, list_elem_of_singleton, elem_of_cons. tauto.
Qed.

(** ** Destruction *)

(** The pages that no VMA covers are not given back. *)
Definition left_over (x : list vm_area) (R R' : gmap Z role) : Prop :=
  forall t, R' !! t = match R !! t with
    | Some (Data q) => if decide (Exists (fun v => vma_start v <= q * 4096 < vma_end v) x) then None else Some (Data q)
    | _ => None
    end.

Lemma destroy_pre_ok st a R :
  space_pre st a R -> (forall t, R !! t = Some Struct -> t ∈ structs a) -> ref_count a = 1 ->
  exists st' R', vmm_destroy_address_space st a = Some (None, st') /\ pa_ok (frames_of st') /\ mem st' = mem st /\
    vstep st R st' R' /\ left_over (vma_list a) R R'.
Proof using PAL.
  intros SI Hall Hr. pose proof SI as [C ND HSt Wl]. pose proof (ci_tree _ _ _ C) as T.
  destruct (owned_pages_ok st a R SI) as [NDo Ho]. unfold vmm_destroy_address_space. cbn [ref_count with_refs pml4 vma_list as_ptr].
  rewrite Hr. change (0 <? u32 (1 - 1)) with false. cbv iota. pose proof NDo as NDo'. unfold owned_pages in NDo.
  pose proof NDo as (ND1 & Hd1 & ND2)%NoDup_app.
  destruct (destroy_vmas_ok st (pml4 a) R (vma_list a) [] st C (freed_nil st (pml4 a) _ T) (proj1 Wl)) as (st1 & -> & F1).
  { intros t Ht. apply HSt. by right. }
  { done. }
  cbn [mbind option_bind]. rewrite (assoc_L (++)) in NDo.
  destruct (destroy_pml4_ok st (pml4 a) (own_of R) T _ st1 (root_nonzero st (pml4 a) _ T) F1) as (st2 & -> & F2).
  { by apply NoDup_app in NDo as [? _]. }
  cbn [mbind option_bind].
  destruct (free_pt_page_ok st _ st2 (as_ptr a) F2) as (st3 & E3 & [F31 F32 F33 F34 F35]).
  { apply (ci_held _ _ _ C _ Struct). apply HSt. by left. }
  { apply NoDup_app in NDo as (_ & Hd & _). intros Hin. apply (Hd _ Hin). by left. }
  unfold free_page. unfold free_pt_page in E3. rewrite E3. cbn [mbind option_bind].
  exists st3, (base.filter (fun '(t, _) => t ∉ owned_pages st a) R).
  split; [done|]. split; [done|]. split; [done|]. rewrite <- (assoc_L (++)) in F34. cbn [app] in F34. fold (owned_pages st a) in F34.
  assert (forall t, base.filter (fun '(t, _) => t ∉ owned_pages st a) R !! t =
    if decide (t ∈ owned_pages st a) then None else R !! t) as HR'.
  { intros t. rewrite map_lookup_filter. destruct (R !! t) as [r|]; cbn; [|by case_decide].
    unfold guard. destruct (decide (t ∉ owned_pages st a)); cbn; repeat case_decide; (done || tauto). }
  assert (forall t, t ∈ owned_pages st a -> is_Some (R !! t)) as Hsome.
  { intros t [(q & _ & ->)|[[q ->]|Ht%HSt]]%Ho; [by eexists..|]. rewrite Ht. by eexists. }
  split; [split|].
  - done.
  - intros f. rewrite F34, HR'. case_decide as Hin; [|tauto]. split; [|tauto]. intros _. right. by apply Hsome.
  - intros t Ht _. split; [by rewrite F32|]. rewrite HR', Ht. by case_decide.
  - destruct F35 as (? & _ & ?). done.
  - intros t. rewrite HR'. destruct (R !! t) as [[q|q|]|] eqn:Er; case_decide as Hin; try done.
    + destruct Hin. apply Ho. right. left. eauto.
    + rewrite decide_True; [done|]. apply Ho in Hin as [(q' & Hq & Hx)|[[q' Hx]|Hx%HSt]]; [|congruence..].
      by assert (q' = q) as -> by congruence.
    + rewrite decide_False; [done|]. intros Hx. apply Hin, Ho. left. eauto.
    + destruct Hin. apply Ho. right. right. by apply Hall.
Qed.

Lemma destroy_ok st a R :
  space_inv st a R -> ref_count a = 1 ->
  exists st', vmm_destroy_address_space st a = Some (None, st') /\ pa_ok (frames_of st') /\ mem st' = mem st /\
    vstep st R st' ∅.
Proof using PAL.
  intros SI Hr. destruct (destroy_pre_ok st a R (space_inv_pre _ _ _ SI)) as (st' & R' & E & Hok & Em & V & HL); [|done|].
  { intros t. by rewrite (sp_structs _ _ _ SI). }
  assert (R' = ∅) as ->.
  { apply map_eq. intros t. rewrite HL, lookup_empty. destruct (R !! t) as [[]|] eqn:Er; try done.
    rewrite decide_True; [done|]. by eapply (sp_cover _ _ _ SI). }
  by exists st'.
Qed.

(** ** Creation *)

Lemma create_ok st lk :
  pa_ok (frames_of st) -> kernel_tables st lk -> mem_total st ->
  exists r st' R, vmm_create_address_space st = Some (r, st') /\ vstep st ∅ st' R /\
    match r with
    | None => R = ∅ /\ pa_ok (frames_of st') /\ mem_total st'
    | Some a => space_inv st' a R /\ R = {[as_ptr a := Struct; pml4 a := Table []]} /\ vma_list a = [] /\ ref_count a = 1 /\
        (forall v, user_addr v -> translation st' (pml4 a) v = None) /\
        (forall i, 256 <= i < 512 -> load st' (pml4 a) i = zget lk i)
    end.
Proof using PAL.
  intros Hok (Hk & Wk & Hk0 & Hfr) M. unfold vmm_create_address_space, get_free_page.
  destruct (pa_get_ok (frames_of st) Hok) as [->|(f & s' & -> & Hok' & HS & Hm & Hf & Hq)]; cbn [mbind option_bind].
  { exists None, (with_frames_of st (frames_of st)), ∅. split; [done|]. split; [by destruct st|]. split; [done|]. by destruct st. }
  set (ap := hhdm_page (frames_of st) f). set (st1 := with_frames_of st s').
  assert (ap ≠ 0) as Ha0.
  { destruct (pa_hhdm_ok _ Hok) as (? & _). destruct (pa_frame_ok _ _ Hok Hm) as [? _]. unfold ap, hhdm_page. lia. }
  rewrite (proj2 (Z.eqb_neq _ 0) Ha0).
  assert (kernel_tables st1 lk) as KT1.
  { split; [done|]. split; [done|]. split; [done|]. intros q [Hq' _]%Hq. cbn [st1 frames_of with_frames_of].
    rewrite (hhdm_page_same _ _ q HS). by apply Hfr. }
  destruct (create_pml4_ok st1 lk Hok' KT1) as [[-> _]|(root & st2 & Ecr & Hr0 & T & TN & HL & Hme & (g & Eg & Hg & Hq2) & HS2)];
    [|rewrite Ecr]; cbn [mbind option_bind].
  - change (0 =? 0) with true. cbv iota.
    assert (pa_managed s' f) as Hm' by (by apply (sm_managed _ _ HS)).
    assert (~ pa_free s' f) as Hnf by (intros [_ ?]%Hq; done).
    destruct (pa_put_ok s' f Hok' Hm' Hnf) as (s2 & E & Hok2 & HS2 & Hq2).
    unfold free_page. cbn [st1 frames_of with_frames_of]. fold ap in E. rewrite (hhdm_page_same _ _ f HS) in E. fold ap in E. rewrite E.
    cbn [mbind option_bind]. eexists None, _, ∅. split; [done|].
    pose proof (same_memory_trans _ _ _ HS HS2) as HS3. split.
    + split; [done| |done|done]. intros q. cbn. rewrite Hq2, Hq, lookup_empty. destruct (decide (q = f)) as [->|]; [|tauto].
      split; [by left|]. intros _. left. by right.
    + split; [done|]. split; [done|]. by apply (frames_mem st s2 HS3).
  - rewrite (proj2 (Z.eqb_neq _ 0) Hr0).
    set (a := mk_as _ _ _ _ _ _ _ _ _ _). eexists (Some a), st2, {[ap := Struct; root := Table []]}. split; [done|].
    cbn [st1 frames_of with_frames_of] in *.
    assert (hhdm_page s' g = hhdm_page (frames_of st) g) as Ehg by (by apply hhdm_page_same). rewrite Ehg in Eg.
    assert (g ≠ f) as Hgf by (intros ->; by apply Hq in Hg as [_ ?]).
    assert (ap ≠ root) as Hne by (rewrite Eg; unfold ap, hhdm_page; lia).
    pose proof (same_memory_trans _ _ _ HS HS2) as HS3.
    assert (own_of {[ap := Struct; root := Table []]} = {[root := []]}) as Eo.
    { apply map_eq. intros t. apply option_eq. intros p. rewrite own_of_lookup, lookup_singleton_Some, lookup_insert_Some, lookup_singleton_Some. naive_solver. }
    assert (mem_total st2) as M2.
    { intros q Hmq. rewrite (hhdm_page_same _ _ q HS3). apply (sm_managed _ _ HS3) in Hmq.
      destruct (decide (hhdm_page (frames_of st) q = root)) as [Er|Er].
      - rewrite Er. apply (tr_table _ _ _ T root []). by rewrite lookup_singleton_eq.
      - rewrite Hme by done. by apply M. }
    split; [split|split; [|split; [done|split; [done|split; [done|split; [done|exact HL]]]]]].
    + done.
    + intros q. rewrite Hq2, Hq, lookup_empty. split.
      * intros [[[? _] _]|[r Hr]]; [by left|]. left. apply lookup_insert_Some in Hr as [[E _]|[_ [E _]%lookup_singleton_Some]].
        -- assert (q = f) as -> by (unfold ap, hhdm_page in E; lia). done.
        -- rewrite Eg in E. assert (q = g) as -> by (unfold hhdm_page in E; lia). by apply Hq in Hg as [? _].
      * intros [Hfq|[? ?]]; [|done]. destruct (decide (q = f)) as [->|Hqf]; [right; fold ap; by rewrite lookup_insert_eq|].
        destruct (decide (q = g)) as [->|Hqg]; [|left; done]. right. rewrite <- Eg, lookup_insert_ne by done. by rewrite lookup_singleton_eq.
    + intros t _ Hft. assert (t ≠ ap) as H1 by (intros ->; by apply (Hft f)).
      assert (t ≠ root) as H2 by (intros ->; apply (Hft g Eg); by apply Hq in Hg as [? _]).
      split; [by rewrite Hme|]. by rewrite lookup_insert_ne, lookup_singleton_ne by done.
    + by apply create_pml4_rest in Ecr.
    + split.
      * split; rewrite ?Eo; [done|apply fresh_reach| | |done].
        -- intros t r [[<- _]|[_ [<- _]%lookup_singleton_Some]]%lookup_insert_Some.
           ++ exists f. rewrite (hhdm_page_same _ _ f HS3). split; [done|]. split; [by apply (sm_managed _ _ HS3)|].
              intros [[_ ?]%Hq _]%Hq2. done.
           ++ apply (tr_table _ _ _ T root []). by rewrite lookup_singleton_eq.
        -- intros t p. split; [|intros (Hp & e & E & _); destruct (page_user p Hp) as [Hu _]; by rewrite TN in E].
           intros [[_ ?]|[_ [_ ?]%lookup_singleton_Some]]%lookup_insert_Some; done.
      * intros t p [[_ ?]|[_ [_ ?]%lookup_singleton_Some]]%lookup_insert_Some; done.
      * apply NoDup_singleton.
      * intros t. unfold structs. cbn. rewrite list_elem_of_singleton, lookup_insert_Some, lookup_singleton_Some. naive_solver.
      * split; constructor.
      * done.
Qed.

End life.
