(* ===== verification/VmmClone.v ===== *)
(** * Cloning an address space (kernel/mm/vmm.c, vmm_clone_address_space)

    The child gets its own copy of every mapped page of the parent, at the same address, with the
    same flags and contents, and the same VMAs; the parent is left alone. *)
From S2P Require Import Prelude Defs Paging PagingSpace PagingPmm Vmm VmmSpace VmmRegion VmmLife.

Section clone.
Context {S : Type} `{PA : PageAllocator S} {PAL : PageAllocatorLaws S}.
Implicit Types (st : mmu S) (a : address_space) (R : gmap Z role) (l : list vm_area).

Definition entry_flags (e : Z) : Z := Z.land e (lnotw 64 PTE_ADDR_MASK).

Lemma entry_flags_ok e : flag_bits (entry_flags e).
Proof using.
  unfold entry_flags. split.
  - rewrite Z.land_comm. apply land_fits; [lia|]. by split.
  - apply Z.bits_inj'. intros i Hi. rewrite Z.bits_0, !Z.land_spec, lnotw_testbit, addr_mask_testbit by done.
    destruct (decide (12 <= i < 52)).
    + rewrite !bool_decide_true by lia. by rewrite andb_false_r.
    + rewrite (bool_decide_false (12 <= i < 52)) by lia. by rewrite !andb_false_r.
Qed.

(** Page [p] of the child is a copy of page [p] of the parent. *)
Definition page_copied st (rs : Z) st' (rd p : Z) : Prop :=
  match translation st rs (p * 4096) with
  | None => translation st' rd (p * 4096) = None
  | Some e => exists f, translation st' rd (p * 4096) = Some (leaf_entry (f * 4096) (entry_flags e)) /\
      pa_managed (frames_of st') f /\ mem st' !! hhdm_page (frames_of st') f = mem st !! target st e
  end.

Definition clone_body (src dst : Z) : Z -> mmu S -> option (mmu S + mmu S) :=
  fun addr st =>
    '(pte, st) ← paging_get_pte st src addr;
    match pte with
    | None => Some (inl st)
    | Some (t, i) =>
        e ← load st t i;
        if negb (ztrue (Z.land e PTE_PRESENT)) then Some (inl st) else
        let src_phys := Z.land e PTE_ADDR_MASK in
        let flags := Z.land e (lnotw 64 PTE_ADDR_MASK) in
        '(page, st) ← get_free_page st;
        if page =? 0 then Some (inr st) else
        let new_phys := u64 (page - boot_hhdm (frames_of st)) in
        st ← copy_page st page (phys_to_virt_local st src_phys);
        '(ret, st) ← paging_map st dst addr new_phys flags;
        if negb (ret =? 0) then st ← free_page st page; Some (inr st)
        else Some (inl st)
    end.

(** The rest of the body, for a present entry. *)
Definition clone_present st (dst addr e : Z) : option (mmu S + mmu S) :=
  '(page, st) ← get_free_page st;
  if page =? 0 then Some (inr st) else
  let new_phys := u64 (page - boot_hhdm (frames_of st)) in
  st ← copy_page st page (phys_to_virt_local st (Z.land e PTE_ADDR_MASK));
  '(ret, st) ← paging_map st dst addr new_phys (entry_flags e);
  if negb (ret =? 0) then st ← free_page st page; Some (inr st)
  else Some (inl st).

Lemma clone_body_eq st rs R rd p :
  core_inv st rs R -> 0 <= p < space_pages ->
  match translation st rs (p * 4096) with
  | None => clone_body rs rd (p * 4096) st = Some (inl st)
  | Some e => fits 64 e /\ clone_body rs rd (p * 4096) st = clone_present st rd (p * 4096) e
  end.
Proof using PAL.
  intros C Hp. destruct (page_user p Hp) as [Hu _]. pose proof (ci_tree _ _ _ C) as T.
  destruct (get_pte_ok st rs (own_of R) (p * 4096) T Hu) as [E1 O1]. unfold clone_body, paging_get_pte.
  rewrite E1. cbn [mbind option_bind].
  destruct (walk st false rs (path (p * 4096))) as [t|] eqn:Ew; cbn [fmap option_fmap option_map].
  2: { assert (translation st rs (p * 4096) = None) as -> by (unfold translation, pte_at; by rewrite Ew). done. }
  specialize (O1 t eq_refl).
  destruct (load_ok st rs _ t _ (PT_INDEX (p * 4096)) T O1 (index_range _ 12 ltac:(lia))) as (e & He & Fe).
  rewrite He. cbn [mbind option_bind].
  assert (translation st rs (p * 4096) = entry_translation e) as -> by (unfold translation, pte_at; by rewrite Ew, He).
  unfold entry_translation. destruct (ztrue (Z.land e PTE_PRESENT)); [split; [done|reflexivity]|done].
Qed.

Lemma clone_present_ok st rs Rs rd Rd p e :
  core_inv st rs Rs -> core_inv st rd Rd -> Rs ##ₘ Rd -> 0 <= p < space_pages ->
  translation st rs (p * 4096) = Some e -> fits 64 e -> translation st rd (p * 4096) = None ->
  exists r Rd', clone_present st rd (p * 4096) e = Some r /\
    match r with
    | inl st' => core_inv st' rd Rd' /\ vstep st Rd st' Rd' /\ data_kept st Rd st' /\ data_added Rd Rd' p 1 /\
        page_copied st rs st' rd p /\ same_outside st rd st' p 1
    | inr st' => core_inv st' rd Rd' /\ vstep st Rd st' Rd' /\ tables_added Rd Rd'
    end.
Proof using PAL.
  intros Cs C HD Hp He Fe Hnone. unfold clone_present.
  assert (Rs !! target st e = Some (Data p)) as Hsd by (apply (ci_data _ _ _ Cs); eauto).
  destruct (get_page_ok st rd Rd C) as [[-> Hx]|(f & st1 & -> & Hn0 & Hm & Hnr & C1 & Em & TR1 & V1)]; cbn [mbind option_bind].
  { exists (inr st), Rd. split; [done|]. split; [done|]. split; [apply vstep_refl|apply tables_added_refl]. }
  rewrite (proj2 (Z.eqb_neq _ 0) Hn0). pose proof (vs_same _ _ _ _ V1) as HS1.
  pose proof (tr_alloc _ _ _ (ci_tree _ _ _ C)) as Hok.
  set (t := hhdm_page (frames_of st) f) in *. cbn zeta.
  replace (phys_to_virt_local st1 (Z.land e PTE_ADDR_MASK)) with (target st e) by (symmetry; by apply (target_same st st1)).
  destruct (ci_held _ _ _ Cs _ _ Hsd) as (g & Eg & Hmg & _). destruct (ci_mem _ _ _ Cs g Hmg) as (lw & Hlw & Wlw).
  rewrite <- Eg in Hlw. unfold copy_page. rewrite Em, Hlw. cbn [mbind option_bind]. rewrite <- Em.
  destruct (core_write st1 rd (<[t := Struct]> Rd) t Struct lw C1 (lookup_insert_eq _ _ _) eq_refl Wlw) as [C2 V2].
  set (st2 := with_mem st1 (<[t := lw]> (mem st1))) in *.
  assert (forall v, user_addr v -> translation st2 rd v = translation st rd v) as TR2.
  { intros v Hv. unfold st2. rewrite (write_translation st1 rd (own_of (<[t := Struct]> Rd))); [apply TR1|apply C1| |done].
    unfold own_of. by rewrite lookup_omap, lookup_insert_eq. }
  assert (hhdm_page (frames_of st2) f = t) as Et2 by (by apply (hhdm_page_same (frames_of st) (frames_of st1))).
  pose proof (page_phys st st1 f Hok Hm HS1) as Eph. fold t in Eph. rewrite Eph.
  destruct (map_page_ok st2 rd (<[t := Struct]> Rd) p f (entry_flags e) C2 Hp) as (ret & st3 & R3 & -> & C3 & V3 & K3 & D).
  { by apply (sm_managed _ _ HS1). }
  { by rewrite Et2, lookup_insert_eq. }
  { rewrite TR2; [done|by apply page_user]. }
  { apply entry_flags_ok. }
  cbn [mbind option_bind]. rewrite Et2 in D. pose proof (vs_same _ _ _ _ V3) as HS3.
  pose proof (vstep_trans _ _ _ _ _ _ V1 (vstep_trans _ _ _ _ _ _ V2 V3)) as V13.
  assert (hhdm_page (frames_of st3) f = t) as Et3 by (by rewrite (hhdm_page_same _ _ f HS3)).
  destruct D as [(-> & TA & TR3)|(-> & TA & _ & _)]; cbn [negb Z.eqb].
  - exists (inl st3), R3. split; [done|]. split; [done|]. split; [done|]. split; [|split; [by eapply tables_added_data|split]].
    + intros t' r Hr Hnt. assert (t' ≠ t) as Hne by (intros ->; congruence).
      rewrite (K3 t' r); [|by rewrite lookup_insert_ne|done]. unfold st2. cbn [mem with_mem].
      by rewrite lookup_insert_ne, Em by done.
    + unfold page_copied. rewrite He. exists f. destruct (page_user p Hp) as [Hu Ev]. rewrite TR3 by done. unfold remap.
      rewrite decide_True by done. split; [done|]. split; [by apply (sm_managed _ _ HS3), (sm_managed _ _ HS1)|].
      rewrite Et3, (K3 t Struct (lookup_insert_eq _ _ _) eq_refl). unfold st2. cbn [mem with_mem]. by rewrite lookup_insert_eq.
    + intros v Hv Hout. rewrite TR3 by done. unfold remap. rewrite (proj2 (page_user p Hp)), decide_False by lia. by apply TR2.
  - assert (R3 !! t = Some Struct) as Hd.
    { apply (tables_added_other _ _ t Struct TA eq_refl). by rewrite lookup_insert_eq. }
    destruct (free_struct_ok st3 rd R3 t C3 Hd) as (st4 & -> & C4 & _ & _ & V4). cbn [mbind option_bind].
    exists (inr st4), (delete t R3). split; [done|]. split; [done|].
    split; [by eapply vstep_trans|by apply tables_added_delete].
Qed.

Lemma clone_page_ok st rs Rs rd Rd p :
  core_inv st rs Rs -> core_inv st rd Rd -> Rs ##ₘ Rd -> 0 <= p < space_pages ->
  translation st rd (p * 4096) = None ->
  exists r Rd', clone_body rs rd (p * 4096) st = Some r /\
    match r with
    | inl st' => core_inv st' rd Rd' /\ vstep st Rd st' Rd' /\ data_kept st Rd st' /\ data_added Rd Rd' p 1 /\
        page_copied st rs st' rd p /\ same_outside st rd st' p 1
    | inr st' => core_inv st' rd Rd' /\ vstep st Rd st' Rd' /\ tables_added Rd Rd'
    end.
Proof using PAL.
  intros Cs C HD Hp Hnone. pose proof (clone_body_eq st rs Rs rd p Cs Hp) as E.
  destruct (translation st rs (p * 4096)) as [e|] eqn:He.
  - destruct E as [Fe ->]. by apply (clone_present_ok st rs Rs).
  - exists (inl st), Rd. split; [done|]. split; [done|]. split; [apply vstep_refl|]. split; [done|].
    split; [intros t; by left|]. split; [unfold page_copied; by rewrite He|done].
Qed.

(** A parent and a child that share no page. *)
Definition both st (rs : Z) Rs (rd : Z) Rd : Prop := core_inv st rs Rs /\ core_inv st rd Rd /\ Rs ##ₘ Rd.

(** A step of the child, seen from the parent. *)
Lemma child_step st rs Rs rd Rd st' rd' Rd' :
  both st rs Rs rd Rd -> core_inv st' rd' Rd' -> vstep st Rd st' Rd' ->
  both st' rs Rs rd' Rd' /\ (forall t r, Rs !! t = Some r -> mem st' !! t = mem st !! t) /\
  forall v, user_addr v -> translation st' rs v = translation st rs v.
Proof using PAL.
  intros (Cs & C & HD) C' V.
  destruct (isolation st rs Rs Rd st' Rd' Cs HD V (tr_alloc _ _ _ (ci_tree _ _ _ C')) (ci_mem _ _ _ C')) as (Cs' & HD' & Hm & HT).
  by split.
Qed.

Lemma page_copied_back st rs Rs st1 rd st' q :
  core_inv st rs Rs -> same_memory (frames_of st) (frames_of st1) ->
  (forall t r, Rs !! t = Some r -> mem st1 !! t = mem st !! t) ->
  (forall v, user_addr v -> translation st1 rs v = translation st rs v) -> 0 <= q < space_pages ->
  page_copied st1 rs st' rd q -> page_copied st rs st' rd q.
Proof using PAL.
  intros Cs HS Hm HT Hq. destruct (page_user q Hq) as [Hu _]. unfold page_copied. rewrite HT by done.
  destruct (translation st rs (q * 4096)) as [e|] eqn:E; [|done]. intros (f & H1 & H2 & H3). exists f.
  split; [done|]. split; [done|]. rewrite H3, (target_same st st1 e HS).
  apply (Hm _ (Data q)). apply (ci_data _ _ _ Cs). eauto.
Qed.

Lemma page_copied_on st rs rd st1 Rd1 st' Rd' q :
  core_inv st1 rd Rd1 -> 0 <= q < space_pages -> vstep st1 Rd1 st' Rd' -> data_kept st1 Rd1 st' ->
  (forall v, user_addr v -> vpage v = q -> translation st' rd v = translation st1 rd v) ->
  page_copied st rs st1 rd q -> page_copied st rs st' rd q.
Proof using PAL.
  intros C1 Hq V K HT. destruct (page_user q Hq) as [Hu Ev]. unfold page_copied. rewrite (HT (q * 4096) Hu Ev).
  destruct (translation st rs (q * 4096)) as [e|]; [|done]. intros (f & H1 & H2 & H3). exists f. split; [done|].
  pose proof (vs_same _ _ _ _ V) as HS. split; [by apply (sm_managed _ _ HS)|]. rewrite (hhdm_page_same _ _ f HS), <- H3.
  destruct (ci_data _ _ _ C1 (target st1 (leaf_entry (f * 4096) (entry_flags e))) q) as [_ Hd].
  pose proof (Hd (conj Hq (ex_intro _ _ (conj H1 eq_refl)))) as Hd'.
  assert (target st1 (leaf_entry (f * 4096) (entry_flags e)) = hhdm_page (frames_of st1) f) as Et.
  { pose proof (tr_alloc _ _ _ (ci_tree _ _ _ C1)) as Hok. destruct (pa_frame_ok _ _ Hok H2) as [Hf _].
    unfold target, phys_to_virt_local. rewrite leaf_entry_addr by (done || apply entry_flags_ok). by apply hhdm_page_target. }
  rewrite Et in Hd'. by apply (K _ (Data q)).
Qed.

Lemma clone_loop rs rd Rs n : forall p st Rd,
  both st rs Rs rd Rd -> 0 <= p -> p + Z.of_nat n <= space_pages ->
  (forall q, p <= q < p + Z.of_nat n -> translation st rd (q * 4096) = None) ->
  exists r Rd', page_loop n (p * 4096) ((p + Z.of_nat n) * 4096) (clone_body rs rd) st = Some r /\
    match r with
    | inl st' => core_inv st' rd Rd' /\ vstep st Rd st' Rd' /\ data_kept st Rd st' /\ data_added Rd Rd' p (Z.of_nat n) /\
        (forall q, p <= q < p + Z.of_nat n -> page_copied st rs st' rd q) /\ same_outside st rd st' p (Z.of_nat n)
    | inr st' => core_inv st' rd Rd' /\ vstep st Rd st' Rd' /\ data_added Rd Rd' p (Z.of_nat n)
    end.
Proof using PAL.
  induction n as [|n IH]; intros p st Rd B Hp Hs Hnone; cbn [page_loop].
  - rewrite (proj2 (Z.ltb_ge _ _)) by lia. destruct B as (_ & C & _). exists (inl st), Rd. split; [done|]. split; [done|].
    split; [apply vstep_refl|]. split; [done|]. split; [intros t; by left|]. split; [intros q Hq; lia|done].
  - rewrite (proj2 (Z.ltb_lt _ _)) by lia. pose proof B as (Cs & C & HD).
    destruct (clone_page_ok st rs Rs rd Rd p Cs C HD ltac:(lia) (Hnone p ltac:(lia))) as (r & R1 & -> & H1).
    cbn [mbind option_bind]. replace (Z.of_nat (Datatypes.S n)) with (Z.of_nat n + 1) in * by lia. destruct r as [st1|st1].
    + destruct H1 as (C1 & V1 & K1 & A1 & P1 & SO1). rewrite (next_page p (Z.of_nat n + 1)) by lia.
      destruct (child_step st rs Rs rd Rd st1 rd R1 B C1 V1) as (B1 & Hm1 & HT1).
      destruct (IH (p + 1) st1 R1 B1 ltac:(lia) ltac:(lia)) as (r & R2 & E2 & H2).
      { intros q Hq. destruct (page_user q ltac:(lia)) as [Hu Ev]. rewrite SO1 by (try done; lia). apply Hnone. lia. }
      replace (p + (Z.of_nat n + 1)) with (p + 1 + Z.of_nat n) by lia. exists r, R2. split; [exact E2|].
      destruct r as [st2|st2].
      * destruct H2 as (C2 & V2 & K2 & A2 & P2 & SO2). split; [done|]. split; [by eapply vstep_trans|]. split; [|split; [|split]].
        -- intros t r Hr Hnt. rewrite (K2 t r); [by eapply K1| |done]. destruct (A1 t) as [->|[Hn _]]; [done|congruence].
        -- eapply data_added_trans; [lia|done|done].
        -- intros q Hq. destruct (decide (q = p)) as [->|Hne].
           ++ apply (page_copied_on st rs rd st1 R1 st2 R2 p C1 ltac:(lia) V2 K2); [|done].
              intros v Hv Ev. apply SO2; [done|lia].
           ++ apply (page_copied_back st rs Rs st1 rd st2 q Cs (vs_same _ _ _ _ V1) Hm1 HT1 ltac:(lia)). apply P2. lia.
        -- intros v Hv Hout. rewrite SO2 by (try done; lia). apply SO1; [done|lia].
      * destruct H2 as (C2 & V2 & A2). split; [done|]. split; [by eapply vstep_trans|]. eapply data_added_trans; [lia|done|done].
    + destruct H1 as (C1 & V1 & TA). exists (inr st1), R1. split; [done|]. split; [done|]. split; [done|].
      intros t. destruct (TA t) as [?|[? ?]]; [by left|right; auto].
Qed.

(** ** The loop over the VMAs *)

Lemma insert_sorted_end l new : Forall (fun v => vma_start v <= vma_start new) l -> insert_sorted l new = l ++ [new].
Proof using.
  induction 1 as [|v l Hv _ IH]; [done|]. cbn [insert_sorted]. rewrite (proj2 (Z.ltb_ge _ _)) by done. by rewrite IH.
Qed.

Definition covers (l : list vm_area) (q : Z) : Prop := Exists (fun v => vma_start v <= q * 4096 < vma_end v) l.

(** The child's VMAs all come before those that are still to be cloned. *)
Definition all_before l' l : Prop := Forall (fun w => Forall (before w) l) l'.

(** What one VMA adds to the child. *)
Definition vma_cloned st (rs : Z) st' (rd : Z) (v : vm_area) : Prop :=
  (forall q, covers [v] q -> page_copied st rs st' rd q) /\
  forall u, user_addr u -> ~ covers [v] (vpage u) -> translation st' rd u = translation st rd u.

Definition new_vma (v : vm_area) (t : Z) : vm_area := mk_vma t (vma_start v) (vma_end v) (vma_flags v) (page_prot v).

Lemma covers_cons v l q : covers (v :: l) q <-> covers [v] q \/ covers l q.
Proof using. unfold covers. rewrite !Exists_cons, Exists_nil. tauto. Qed.

Lemma covers_one v q : covers [v] q <-> vma_start v <= q * 4096 < vma_end v.
Proof using. unfold covers. rewrite Exists_cons, Exists_nil. tauto. Qed.

(** Cloning one VMA. *)
Lemma clone_vma_ok st rs Rs dst Rd v :
  both st rs Rs (pml4 dst) Rd -> space_inv st dst Rd -> vma_wf v -> Forall (fun w => before w v) (vma_list dst) ->
  vma_alloc st = Some (mk_vma 0 0 0 0 0, st) \/
  exists t st1 r, vma_alloc st = Some (mk_vma t 0 0 0 0, st1) /\ t ≠ 0 /\
    clone_pages st1 rs (pml4 dst) (vma_start v) (vma_end v) = Some r /\
    match r with
    | inl st' => exists Rd', space_inv st' (vma_insert dst (new_vma v t)) Rd' /\ vstep st Rd st' Rd' /\
        data_kept st Rd st' /\ (forall x r, Rd !! x = Some r -> Rd' !! x = Some r) /\
        vma_cloned st rs st' (pml4 dst) v /\ vma_list (vma_insert dst (new_vma v t)) = vma_list dst ++ [new_vma v t]
    | inr st2 => exists st' Rd', free_page st2 t = Some st' /\ space_pre st' dst Rd' /\ vstep st Rd st' Rd' /\
        (forall x, Rd' !! x = Some Struct -> x ∈ structs dst) /\
        (forall x q, Rd' !! x = Some (Data q) -> Rd !! x = Some (Data q) \/ covers [v] q)
    end.
Proof using PAL.
  intros B SI Wv Hb. pose proof B as (Cs & C & HD). unfold vma_alloc.
  destruct (get_page_ok st (pml4 dst) Rd C) as [[-> _]|(f & st1 & -> & Hn0 & Hm & Hnr & C1 & Em & TR1 & V1)];
    cbn [mbind option_bind]; [by left|right].
  set (t := hhdm_page (frames_of st) f) in *. exists t, st1.
  destruct (vma_wf_pages v Wv) as (p & n & H1 & H2 & H3 & E1 & E2 & _ & E4).
  assert (Forall (fun w => vma_end w <= vma_start (new_vma v t) \/ vma_end (new_vma v t) <= vma_start w) (vma_list dst)) as F.
  { eapply Forall_impl; [exact Hb|]. intros w Hw. by left. }
  assert (forall q, p <= q < p + n -> translation st (pml4 dst) (q * 4096) = None) as Hnone.
  { intros q Hq. apply (unmapped_outside st dst Rd); [done|lia|]. rewrite Exists_exists. intros (w & Hw & Hx).
    pose proof (proj1 (Forall_forall _ _) Hb w Hw) as Hbw. unfold before in Hbw. simpl in Hbw. lia. }
  destruct (child_step st rs Rs (pml4 dst) Rd st1 (pml4 dst) _ B C1 V1) as (B1 & Hm1 & HT1).
  destruct (clone_loop rs (pml4 dst) Rs (Z.to_nat n) p st1 _ B1 H1 ltac:(lia)) as (r & R2 & E & H').
  { intros q Hq. rewrite TR1. apply Hnone. lia. }
  rewrite Z2Nat.id in E, H' by lia. exists r. split; [done|]. split; [done|].
  split; [unfold clone_pages; rewrite E4, E1, E2; exact E|].
  assert (vma_wf (new_vma v t)) as Wn by (destruct Wv as (p' & n' & ?); by exists p', n').
  assert (space_inv st1 (vma_insert dst (new_vma v t)) (<[t := Struct]> Rd)) as SI1 by (by apply (space_insert st dst Rd)).
  destruct r as [st2|st2].
  - destruct H' as (C2 & V2 & K2 & A2 & P2 & SO2). exists R2. split; [|split; [by eapply vstep_trans|split; [|split; [|split]]]].
    + apply (space_data st1 (vma_insert dst (new_vma v t)) (<[t := Struct]> Rd) st2 R2 p n); try done. intros q Hq. cbn.
      rewrite (insert_sorted_perm (vma_list dst) (new_vma v t)). apply Exists_cons_hd. cbn. lia.
    + intros x rr Hx Hnt. assert (x ≠ t) as Hne by (intros ->; congruence).
      rewrite (K2 x rr); [by rewrite Em|by rewrite lookup_insert_ne|done].
    + intros x rr Hx. assert (x ≠ t) as Hne by (intros ->; congruence).
      destruct (A2 x) as [->|[Hn _]]; rewrite lookup_insert_ne in * by done; [done|congruence].
    + split.
      * intros q Hq%covers_one. apply (page_copied_back st rs Rs st1 (pml4 dst) st2 q Cs (vs_same _ _ _ _ V1) Hm1 HT1 ltac:(lia)).
        apply P2. lia.
      * intros u Hu Hout. rewrite covers_one in Hout. rewrite SO2; [apply TR1|done|lia].
    + cbn. apply insert_sorted_end. apply Forall_forall. intros w Hw.
      pose proof (proj1 (Forall_forall _ _) Hb w Hw) as Hbw.
      pose proof (vma_nonempty w (proj1 (Forall_forall _ _) (proj1 (sp_vmas _ _ _ SI)) w Hw)). unfold before in Hbw. cbn. lia.
  - destruct H' as (C2 & V2 & A2).
    assert (R2 !! t = Some Struct) as Ht by (apply (data_added_other _ _ _ _ t A2); by rewrite lookup_insert_eq).
    destruct (free_struct_ok st2 (pml4 dst) R2 t C2 Ht) as (st3 & E3 & C3 & _ & _ & V3). exists st3, (delete t R2).
    assert (forall x, delete t R2 !! x = Some Struct <-> x ∈ structs dst) as HSt.
    { intros x. rewrite lookup_delete_Some, (data_added_other _ _ _ _ x A2), <- (sp_structs _ _ _ SI).
      destruct (decide (x = t)) as [->|Hne]; [rewrite Hnr; naive_solver|]. rewrite lookup_insert_ne by done. naive_solver. }
    split; [done|]. split; [split; [done|apply SI|intros x; by rewrite HSt|apply SI]|].
    split; [eapply vstep_trans; [exact V1|]; by eapply vstep_trans|]. split; [intros x; by rewrite HSt|].
    intros x q [Hne Hx]%lookup_delete_Some. destruct (A2 x) as [E'|[_ [[q' Hq']|(q' & Hq' & Hx')]]].
    + left. rewrite E', lookup_insert_ne in Hx by done. done.
    + congruence.
    + right. rewrite covers_one. assert (q' = q) as -> by congruence. lia.
Qed.

Lemma mem_total_same st st' :
  mem_total st -> mem st' = mem st -> same_memory (frames_of st) (frames_of st') -> mem_total st'.
Proof using PAL.
  intros M Em HS f Hf. rewrite (hhdm_page_same _ _ f HS), Em. apply M. by apply (sm_managed _ _ HS).
Qed.

(** The pages left over when a clone fails. *)
Definition leaked (L : gmap Z role) : Prop := forall x r, L !! x = Some r -> exists q, r = Data q.

Lemma clone_vmas_ok rs Rs l : forall st dst Rd,
  both st rs Rs (pml4 dst) Rd -> space_inv st dst Rd -> ref_count dst = 1 -> vmas_wf l -> all_before (vma_list dst) l ->
  exists r, clone_vmas st rs dst l = Some r /\
    match r with
    | inl (dst', st') => exists Rd', both st' rs Rs (pml4 dst) Rd' /\ space_inv st' dst' Rd' /\ vstep st Rd st' Rd' /\
        data_kept st Rd st' /\ pml4 dst' = pml4 dst /\ ref_count dst' = 1 /\
        span <$> vma_list dst' = (span <$> vma_list dst) ++ (span <$> l) /\
        (forall q, 0 <= q < space_pages -> covers l q -> page_copied st rs st' (pml4 dst) q) /\
        (forall u, user_addr u -> ~ covers l (vpage u) -> translation st' (pml4 dst) u = translation st (pml4 dst) u)
    | inr st' => exists L, vstep st Rd st' L /\ leaked L /\ pa_ok (frames_of st') /\ mem_total st'
    end.
Proof using PAL.
  induction l as [|v l IH]; intros st dst Rd B SI Href Wl Hb; cbn [clone_vmas].
  { exists (inl (dst, st)). split; [done|]. exists Rd. split; [done|]. split; [done|]. split; [apply vstep_refl|].
    split; [done|]. split; [done|]. split; [done|]. split; [by rewrite app_nil_r|]. split; [|done].
    intros q _ Hq. inversion Hq. }
  apply vmas_wf_cons in Wl as (Wv & Bv & Wl). pose proof B as (Cs & C & HD).
  assert (Forall (fun w => before w v) (vma_list dst)) as Hbv.
  { eapply Forall_impl; [exact Hb|]. intros w Hw. by apply Forall_cons in Hw as [? _]. }
  destruct (clone_vma_ok st rs Rs dst Rd v B SI Wv Hbv) as [->|(t & st1 & r & -> & Ht0 & E & H1)]; cbn [mbind option_bind vma_ptr].
  { change (0 =? 0) with true. cbv iota. destruct (destroy_ok st dst Rd SI Href) as (st' & -> & Hok & Em & V).
    cbn [mbind option_bind]. exists (inr st'). split; [done|]. exists ∅. split; [done|]. split; [intros x r; by rewrite lookup_empty|].
    split; [done|].
    by apply (mem_total_same st st' (ci_mem _ _ _ C) Em (vs_same _ _ _ _ V)). }
  rewrite (proj2 (Z.eqb_neq _ 0) Ht0), E. cbn [mbind option_bind vma_start vma_end vma_flags page_prot]. destruct r as [st2|st2].
  - destruct H1 as (R2 & SI2 & V2 & K2 & Hsub & [P2 SO2] & El). fold (new_vma v t).
    destruct (child_step st rs Rs (pml4 dst) Rd st2 (pml4 dst) R2 B (sp_core _ _ _ SI2) V2) as (B2 & Hm2 & HT2).
    destruct (IH st2 (vma_insert dst (new_vma v t)) R2 B2 SI2 Href Wl) as (r & E3 & H3).
    { unfold all_before. rewrite El. apply Forall_app. split; [|by apply Forall_singleton].
      eapply Forall_impl; [exact Hb|]. intros w Hw. by apply Forall_cons in Hw as [_ ?]. }
    exists r. split; [exact E3|]. destruct r as [[dst' st']|st'].
    + destruct H3 as (R3 & B3 & SI3 & V3 & K3 & Ep & Er & Es & P3 & SO3). cbn [pml4 vma_insert with_vmas] in *. exists R3.
      split; [done|]. split; [done|]. split; [by eapply vstep_trans|]. split.
      { intros x r Hx Hnt. rewrite (K3 x r); [by eapply K2|by apply Hsub|done]. }
      split; [done|]. split; [done|]. split.
      { rewrite Es, El, fmap_app, <- (assoc_L (++)). done. }
      split.
      * intros q Hq [Hc|Hc]%covers_cons.
        -- apply (page_copied_on st rs (pml4 dst) st2 R2 st' R3 q (sp_core _ _ _ SI2) Hq V3 K3); [|by apply P2].
           intros u Hu Eu. apply SO3; [done|]. rewrite Eu. intros (w & Hw & Hx)%Exists_exists. apply covers_one in Hc.
           pose proof (proj1 (Forall_forall _ _) Bv w Hw) as Hbw. unfold before in Hbw. lia.
        -- apply (page_copied_back st rs Rs st2 (pml4 dst) st' q Cs (vs_same _ _ _ _ V2) Hm2 HT2 Hq). by apply P3.
      * intros u Hu Hn. rewrite covers_cons in Hn. rewrite SO3 by tauto. apply SO2; tauto.
    + destruct H3 as (L & V3 & HL & Hok & M). exists L. split; [by eapply vstep_trans|]. done.
  - destruct H1 as (st3 & R3 & E3 & SP & V3 & Hall & Hd). unfold vma_free. cbn [vma_ptr]. rewrite E3. cbn [mbind option_bind].
    destruct (destroy_pre_ok st3 dst R3 SP Hall Href) as (st4 & R4 & -> & Hok & Em & V4 & HL). cbn [mbind option_bind].
    exists (inr st4). split; [done|]. exists R4. split; [by eapply vstep_trans|]. split; [|split; [done|]].
    + intros x r Hx. rewrite HL in Hx. destruct (R3 !! x) as [[]|]; try done. case_decide; [done|]. injection Hx as <-. eauto.
    + by apply (mem_total_same st3 st4 (ci_mem _ _ _ (pre_core _ _ _ SP)) Em (vs_same _ _ _ _ V4)).
Qed.

(** ** The whole clone *)

Lemma space_layout st a R b sb ss tv : space_inv st a R -> space_inv st (with_layout a b sb ss tv) R.
Proof using. intros [A1 A2 A3 A4 A5 A6]. by split. Qed.

(** The parent's invariant under steps of others. *)
Lemma space_isolated st a R Rb st' Rb' :
  space_inv st a R -> R ##ₘ Rb -> vstep st Rb st' Rb' -> pa_ok (frames_of st') -> mem_total st' ->
  space_inv st' a R /\ R ##ₘ Rb' /\ (forall t r, R !! t = Some r -> mem st' !! t = mem st !! t) /\
  forall v, user_addr v -> translation st' (pml4 a) v = translation st (pml4 a) v.
Proof using PAL.
  intros [A1 A2 A3 A4 A5 A6] HD V Hok M.
  destruct (isolation st (pml4 a) R Rb st' Rb' A1 HD V Hok M) as (C & HD' & Hm & HT). by split; [split|].
Qed.

Lemma clone_ok st a Rs lk :
  space_inv st a Rs -> kernel_tables st lk ->
  exists r st', vmm_clone_address_space st a = Some (r, st') /\
    space_inv st' a Rs /\ (forall t x, Rs !! t = Some x -> mem st' !! t = mem st !! t) /\
    (forall v, user_addr v -> translation st' (pml4 a) v = translation st (pml4 a) v) /\
    match r with
    | Some dst => exists Rd, space_inv st' dst Rd /\ Rs ##ₘ Rd /\ vstep st ∅ st' Rd /\
        span <$> vma_list dst = span <$> vma_list a /\ ref_count dst = 1 /\
        (brk dst, start_brk dst, start_stack dst, total_vm dst) = (brk a, start_brk a, start_stack a, total_vm a) /\
        forall q, 0 <= q < space_pages -> page_copied st (pml4 a) st' (pml4 dst) q
    | None => exists L, vstep st ∅ st' L /\ leaked L
    end.
Proof using PAL.
  intros SI KT. pose proof (sp_core _ _ _ SI) as Cs. unfold vmm_clone_address_space.
  destruct (create_ok st lk (tr_alloc _ _ _ (ci_tree _ _ _ Cs)) KT (ci_mem _ _ _ Cs)) as (r & st1 & R1 & -> & V1 & H1).
  cbn [mbind option_bind]. assert (Rs ##ₘ ∅) as HD0 by apply map_disjoint_empty_r. destruct r as [dst|].
  - destruct H1 as (SI1 & _ & El & Er & TN & _). pose proof (sp_core _ _ _ SI1) as C1.
    destruct (isolation st (pml4 a) Rs ∅ st1 R1 Cs HD0 V1 (tr_alloc _ _ _ (ci_tree _ _ _ C1)) (ci_mem _ _ _ C1)) as (Cs1 & HD1 & Hm1 & HT1).
    destruct (clone_vmas_ok (pml4 a) Rs (vma_list a) st1 dst R1 (conj Cs1 (conj C1 HD1)) SI1 Er (sp_vmas _ _ _ SI)) as (r & -> & H2).
    { unfold all_before. rewrite El. constructor. }
    cbn [mbind option_bind]. destruct r as [[dst' st']|st'].
    + destruct H2 as (R2 & (Cs2 & C2 & HD2) & SI2 & V2 & K2 & Ep & Er2 & Es & P2 & SO2).
      eexists (Some _), st'. split; [done|]. pose proof (vstep_trans _ _ _ _ _ _ V1 V2) as V12.
      destruct (space_isolated st a Rs ∅ st' R2 SI HD0 V12 (tr_alloc _ _ _ (ci_tree _ _ _ C2)) (ci_mem _ _ _ C2)) as (SIs & _ & Hm & HT).
      split; [done|]. split; [done|]. split; [done|]. exists R2. split; [by apply space_layout|]. split; [done|]. split; [done|].
      split; [cbn; rewrite Es, El; done|]. split; [done|]. split; [done|]. intros q Hq. cbn [pml4 with_layout]. rewrite Ep.
      destruct (decide (covers (vma_list a) q)) as [Hc|Hc].
      * apply (page_copied_back st (pml4 a) Rs st1 (pml4 dst) st' q Cs (vs_same _ _ _ _ V1) Hm1 HT1 Hq). by apply P2.
      * unfold page_copied. rewrite (unmapped_outside st a Rs q SI Hq Hc). destruct (page_user q Hq) as [Hu Ev].
        rewrite SO2 by (try done; by rewrite Ev). by apply TN.
    + destruct H2 as (L & V2 & HL & Hok & M). exists None, st'. split; [done|].
      pose proof (vstep_trans _ _ _ _ _ _ V1 V2) as V12.
      destruct (space_isolated st a Rs ∅ st' L SI HD0 V12 Hok M) as (SIs & _ & Hm & HT).
      split; [done|]. split; [done|]. split; [done|]. by exists L.
  - destruct H1 as (-> & Hok & M). exists None, st1. split; [done|].
    destruct (space_isolated st a Rs ∅ st1 ∅ SI HD0 V1 Hok M) as (SIs & _ & Hm & HT).
    split; [done|]. split; [done|]. split; [done|]. exists ∅. split; [done|]. intros x r. by rewrite lookup_empty.
Qed.

End clone.
