(* ===== verification/VmmSpec.v ===== *)
(** * Address spaces: the theorems (kernel/mm/vmm.c)

    Mapping, unmapping, cloning and destruction of address spaces keep VMAs, page tables and page
    ownership in step, never lose a page, and leave every other address space alone; the searches
    of the VMA list agree with plain searches, and the search for free address space ends. *)
From Stdlib Require Import Sorted.
From S2P Require Import Prelude Defs Buddy Pmm Paging PagingSpace PagingPmm Vmm VmmSpace VmmRegion VmmLife VmmClone.

Inductive space_op :=
  | OpMapRegion (p n flags : Z)
  | OpUnmapRegion (p n : Z).

Definition space_op_ok (o : space_op) : Prop :=
  match o with
  | OpMapRegion p n _ => 0 <= p /\ 0 < n /\ p + n <= space_pages
  | OpUnmapRegion p n => 0 <= p /\ 0 <= n /\ p + n <= space_pages
  end.

(** ** The search for free address space *)

Lemma PAGE_256 : PAGE_SIZE * 256 = 2 ^ 20.
Proof. done. Qed.

(** VMAs lie in user space. *)
Lemma vma_end_bound a v : vmas_wf (vma_list a) -> v ∈ vma_list a -> vma_end v <= 2 ^ 47.
Proof.
  intros [F _] Hv. destruct (proj1 (Forall_forall _ _) F v Hv) as (p & n & ? & ? & Hs & _ & -> & _). unfold space_pages in Hs. lia.
Qed.

Lemma mmap_try_step a size addr addr' :
  vmas_wf (vma_list a) -> 0 <= addr < 2 ^ 48 -> mmap_try a size addr = inr addr' -> addr < 2 ^ 47 /\ addr' = addr + 2 ^ 20.
Proof.
  intros W Ha. unfold mmap_try. destruct (u64 (addr + size) <? USER_SPACE_END); [|done].
  destruct (vma_find_intersect a addr (u64 (addr + size))) as [v|] eqn:E; [|done]. intros [= <-].
  unfold vma_find_intersect in E. rewrite find_intersect_ref in E by done. apply find_some in E as [Hv Ho].
  apply list_elem_of_In in Hv. pose proof (vma_end_bound a v W Hv). unfold overlaps in Ho.
  apply andb_true_iff in Ho as [_ Hlt%Z.ltb_lt]. split; [lia|]. rewrite PAGE_256. apply u64_small. lia.
Qed.

Lemma mmap_tries_step a size k : forall addr addr',
  vmas_wf (vma_list a) -> 0 <= addr -> addr + 2 ^ (20 + Z.of_nat k) < 2 ^ 49 -> addr < 2 ^ 48 ->
  mmap_tries k a size addr = inr addr' -> addr' = addr + 2 ^ (20 + Z.of_nat k) /\ addr' < 2 ^ 47 + 2 ^ 20.
Proof.
  induction k as [|k IH]; intros addr addr' W Ha Hb Hlt; cbn [mmap_tries].
  - intros E. apply mmap_try_step in E as [H1 ->]; [|done|lia]. rewrite Z.add_0_r. lia.
  - assert (2 ^ (20 + Z.of_nat (Datatypes.S k)) = 2 * 2 ^ (20 + Z.of_nat k)) as E2.
    { replace (20 + Z.of_nat (Datatypes.S k)) with (Z.succ (20 + Z.of_nat k)) by lia. apply Z.pow_succ_r. lia. }
    assert (0 < 2 ^ (20 + Z.of_nat k)) by (apply Z.pow_pos_nonneg; lia).
    destruct (mmap_tries k a size addr) as [r|addr1] eqn:E1; [done|].
    destruct (IH addr addr1 W Ha ltac:(lia) Hlt E1) as [-> H1]. intros E. apply IH in E as [-> H2]; [|done|lia|lia|lia]. lia.
Qed.

Lemma mmap_tries_found a size k : forall addr r,
  vmas_wf (vma_list a) -> mmap_tries k a size addr = inl r ->
  USER_SPACE_END <= u64 (r + size) \/ vma_find_intersect a r (u64 (r + size)) = None.
Proof.
  induction k as [|k IH]; intros addr r W; cbn [mmap_tries].
  - unfold mmap_try. destruct (Z.ltb_spec (u64 (addr + size)) USER_SPACE_END).
    + destruct (vma_find_intersect a addr _) eqn:E; [done|]. intros [= <-]. by right.
    + intros [= <-]. by left.
  - destruct (mmap_tries k a size addr) as [r'|addr1] eqn:E1; [intros [= <-]; by eapply IH|by apply IH].
Qed.

(** The search for free address space ends: whatever the VMAs and the size, [vmm_mmap]'s loop
    finds an address within 2^28 steps, and it stops either at a range that meets no VMA or at one
    that reaches past the end of user space. *)
Theorem mmap_search_ends a size :
  vmas_wf (vma_list a) ->
  exists addr, mmap_search a 0x10000000 size = Some addr /\
    (USER_SPACE_END <= u64 (addr + size) \/ vma_find_intersect a addr (u64 (addr + size)) = None).
Proof.
  intros W. unfold mmap_search. destruct (mmap_tries 28 a size 0x10000000) as [r|addr] eqn:E.
  - exists r. split; [done|]. by eapply mmap_tries_found.
  - apply mmap_tries_step in E as [-> H]; [|done|lia|lia|lia]. lia.
Qed.

(** C39.  Searching the sorted VMA list with early exit is searching the whole list:
    [vmm_find_vma] and [vma_find_intersect] return the VMA that a plain search for one that
    contains the address, or meets the range, would return, and NULL exactly when there is none. *)
Theorem vma_searches_equiv a addr start fin :
  vmas_wf (vma_list a) ->
  vmm_find_vma a addr = List.find (contains addr) (vma_list a) /\
  vma_find_intersect a start fin = List.find (overlaps start fin) (vma_list a) /\
  (vmm_find_vma a addr = None <-> Forall (fun v => contains addr v = false) (vma_list a)).
Proof.
  intros W. unfold vmm_find_vma, vma_find_intersect. rewrite find_vma_ref, find_intersect_ref by done.
  split; [done|]. split; [done|]. split; [|apply find_none].
  intros E. apply Forall_forall. intros v Hv. apply list_elem_of_In in Hv. by apply (List.find_none _ _ E).
Qed.

Section theorems.
Context {S : Type} `{PA : PageAllocator S} {PAL : PageAllocatorLaws S}.
Implicit Types (st : mmu S) (a b : address_space) (R : gmap Z role).

Definition run_space_op st a (o : space_op) : option (Z * address_space * mmu S) :=
  match o with
  | OpMapRegion p n flags => vmm_map_region st a (p * 4096) (n * 4096) flags
  | OpUnmapRegion p n => vmm_unmap_region st a (p * 4096) (n * 4096)
  end.

Fixpoint run_space_ops st a (l : list space_op) : option (address_space * mmu S) :=
  match l with
  | [] => Some (a, st)
  | o :: l => '(_, a, st) ← run_space_op st a o; run_space_ops st a l
  end.

Lemma run_space_op_ok st a R o :
  space_inv st a R -> space_op_ok o ->
  exists ret a' st' R', run_space_op st a o = Some (ret, a', st') /\ space_inv st' a' R' /\ vstep st R st' R' /\
    ref_count a' = ref_count a.
Proof using PAL.
  intros SI. destruct o as [p n flags|p n]; cbn [space_op_ok run_space_op].
  - intros (Hp & Hn & Hs). destruct (map_region_ok st a R p n flags SI Hp Hn Hs) as (r & a' & st' & R' & E & SI' & V & _ & [_ Er] & _).
    by exists r, a', st', R'.
  - intros (Hp & Hn & Hs). destruct (unmap_region_ok st a R p n SI Hp Hn Hs) as (a' & st' & R' & E & SI' & V & _ & [_ Er] & _).
    by exists 0, a', st', R'.
Qed.

Lemma run_space_ops_ok l : forall st a R, space_inv st a R -> Forall space_op_ok l ->
  exists a' st' R', run_space_ops st a l = Some (a', st') /\ space_inv st' a' R' /\ vstep st R st' R' /\
    ref_count a' = ref_count a.
Proof using PAL.
  induction l as [|o l IH]; intros st a R SI F; cbn [run_space_ops].
  - exists a, st, R. split; [done|]. split; [done|]. split; [apply vstep_refl|done].
  - apply Forall_cons in F as [Ho F]. destruct (run_space_op_ok st a R o SI Ho) as (r & a1 & st1 & R1 & -> & SI1 & V1 & E1).
    cbn [mbind option_bind]. destruct (IH st1 a1 R1 SI1 F) as (a2 & st2 & R2 & -> & SI2 & V2 & E2).
    exists a2, st2, R2. split; [done|]. split; [done|]. split; [by eapply vstep_trans|congruence].
Qed.

(** C13.  Mapping a region: [vmm_map_region] runs without fault on a good address space and keeps it
    good.  It succeeds only if no VMA meets the region, and then the VMA list has the new VMA in
    its place, every page of the region translates to a zeroed page of its own with the VMA's
    protection, no other translation changed, and no page in use before was written.  When it fails every translation is as before; after
    an overlap nothing changed at all, but after a failure half-way the part of the new VMA that
    was not reached stays in the list. *)
Theorem vmm_map_region_spec st a R p n flags :
  space_inv st a R -> 0 <= p -> 0 < n -> p + n <= space_pages ->
  exists ret a' st' R', vmm_map_region st a (p * 4096) (n * 4096) flags = Some (ret, a', st') /\
    space_inv st' a' R' /\ vstep st R st' R' /\ pml4 a' = pml4 a /\ (as_ptr a' = as_ptr a /\ ref_count a' = ref_count a) /\
    let fin := (p + n) * 4096 in
    let new t := mk_vma t (p * 4096) fin flags (vma_to_pte_flags flags) in
    ((ret = 0 /\ vma_find_intersect a (p * 4096) fin = None /\
        (exists t, vma_list a' = insert_sorted (vma_list a) (new t)) /\
        fresh_zeroed st' (pml4 a) (vma_to_pte_flags flags) p n /\ same_outside st (pml4 a) st' p n /\ data_kept st R st') \/
     (ret = -1 /\ same_outside st (pml4 a) st' p 0 /\
        ((a' = a /\ st' = st) \/
         exists t k, 0 <= k < n /\
           span <$> vma_list a' = cut (p * 4096) ((p + k) * 4096) (span <$> insert_sorted (vma_list a) (new t))))).
Proof using PAL. apply map_region_ok. Qed.

(** C38.  Unmapping a region: every page of the region loses its translation and its frame is given
    back, no other page changes, and exactly the region is cut out of the VMA list, splitting or
    trimming VMAs as needed.  The list stays as it was only when the region lies strictly inside one VMA,
    which must be split, and the page allocator has no page left for the second half. *)
Theorem vmm_unmap_region_spec st a R p n :
  space_inv st a R -> 0 <= p -> 0 <= n -> p + n <= space_pages ->
  exists a' st' R', vmm_unmap_region st a (p * 4096) (n * 4096) = Some (0, a', st') /\
    space_inv st' a' R' /\ vstep st R st' R' /\ pml4 a' = pml4 a /\ (as_ptr a' = as_ptr a /\ ref_count a' = ref_count a) /\
    cut_or_stale st' (p * 4096) ((p + n) * 4096) (vma_list a) (vma_list a') /\
    (forall v, user_addr v -> p <= vpage v < p + n -> translation st' (pml4 a) v = None) /\
    same_outside st (pml4 a) st' p n.
Proof using PAL. apply unmap_region_ok. Qed.

(** C10.  Fork copies memory: a successful [vmm_clone_address_space] gives an address space with the
    parent's VMAs and layout in which every page the parent has mapped is mapped to a page of its
    own with the same flags and contents, and no other; parent and child share no page.  Whether
    it succeeds or not the parent keeps its mappings and contents.  On failure the pages that are
    neither free again nor owned by anyone can only be data pages already copied. *)
Theorem vmm_clone_spec st a Rs lk :
  space_inv st a Rs -> kernel_tables st lk ->
  exists r st', vmm_clone_address_space st a = Some (r, st') /\
    space_inv st' a Rs /\ (forall t x, Rs !! t = Some x -> mem st' !! t = mem st !! t) /\
    (forall v, user_addr v -> translation st' (pml4 a) v = translation st (pml4 a) v) /\
    match r with
    | Some dst => exists Rd, space_inv st' dst Rd /\ Rs ##ₘ Rd /\ vstep st ∅ st' Rd /\
        span <$> vma_list dst = span <$> vma_list a /\ ref_count dst = 1 /\
        (brk dst, start_brk dst, start_stack dst, total_vm dst) = (brk a, start_brk a, start_stack a, total_vm a) /\
        forall q, 0 <= q < space_pages -> page_copied st (pml4 a) st' (pml4 dst) q
    | None => exists L, vstep st ∅ st' L /\ leaked L
    end.
Proof using PAL. apply clone_ok. Qed.

(** C3.  Address spaces are isolated: whatever regions one address space maps and unmaps, and
    whether that succeeds, another one that shares no page with it keeps every translation and the
    contents of every page it owns, and they still share no page. *)
Theorem address_spaces_isolated st a Ra b Rb l :
  space_inv st a Ra -> space_inv st b Rb -> Rb ##ₘ Ra -> Forall space_op_ok l ->
  exists a' st' Ra', run_space_ops st a l = Some (a', st') /\ space_inv st' a' Ra' /\
    space_inv st' b Rb /\ Rb ##ₘ Ra' /\ (forall t r, Rb !! t = Some r -> mem st' !! t = mem st !! t) /\
    forall v, user_addr v -> translation st' (pml4 b) v = translation st (pml4 b) v.
Proof using PAL.
  intros SIa SIb HD F. destruct (run_space_ops_ok l st a Ra SIa F) as (a' & st' & R' & E & SI' & V & _).
  exists a', st', R'. split; [done|]. split; [done|]. pose proof (sp_core _ _ _ SI') as C'.
  exact (space_isolated st b Rb Ra st' R' SIb HD V (tr_alloc _ _ _ (ci_tree _ _ _ C')) (ci_mem _ _ _ C')).
Qed.

(** C5.  No page is lost or freed twice over the life of an address space: it is created, any
    sequence of regions is mapped and unmapped, failing operations included, and it is destroyed:
    afterwards exactly the pages that were free before are free, and no page that was in use
    before has been written. *)
Theorem address_space_life st lk a st1 l :
  pa_ok (frames_of st) -> kernel_tables st lk -> mem_total st ->
  vmm_create_address_space st = Some (Some a, st1) -> Forall space_op_ok l ->
  exists a2 st2 st3, run_space_ops st1 a l = Some (a2, st2) /\
    vmm_destroy_address_space st2 a2 = Some (None, st3) /\ pa_ok (frames_of st3) /\
    (forall f, pa_free (frames_of st3) f <-> pa_free (frames_of st) f) /\
    forall t, (forall f, t = hhdm_page (frames_of st) f -> ~ pa_free (frames_of st) f) -> mem st3 !! t = mem st !! t.
Proof using PAL.
  intros Hok KT M E F. destruct (create_ok st lk Hok KT M) as (r & st1' & R & E' & V1 & H1).
  rewrite E in E'. injection E' as <- <-. destruct H1 as (SI1 & _ & _ & Er & _).
  destruct (run_space_ops_ok l st1 a R SI1 F) as (a2 & st2 & R2 & E2 & SI2 & V2 & Er2).
  destruct (destroy_ok st2 a2 R2 SI2 ltac:(congruence)) as (st3 & E3 & Hok3 & Em & V3).
  exists a2, st2, st3. split; [done|]. split; [done|]. split; [done|].
  pose proof (vstep_trans _ _ _ _ _ _ V1 (vstep_trans _ _ _ _ _ _ V2 V3)) as [_ VC VF _]. split.
  - intros f. specialize (VC f). rewrite !lookup_empty in VC. split; intros Hf.
    + destruct (proj1 VC) as [?|[? ?]]; [by left|done|done].
    + destruct (proj2 VC) as [?|[? ?]]; [by left|done|done].
  - intros t Ht. apply VF; [apply lookup_empty|done].
Qed.

End theorems.

(** ** Witnesses: the machine of PagingPmm.v with all its memory *)

Fixpoint ex_fill (n : nat) : gmap Z (list Z) :=
  match n with O => ∅ | Datatypes.S n => <[ex_hhdm + Z.of_nat n * 4096 := zero_page]> (ex_fill n) end.

Lemma ex_fill_lookup n i : 0 <= i < Z.of_nat n -> ex_fill n !! (ex_hhdm + i * 4096) = Some zero_page.
Proof.
  induction n as [|n IH]; intros Hi; [lia|]. cbn [ex_fill]. destruct (decide (i = Z.of_nat n)) as [->|Hne].
  - apply lookup_insert_eq.
  - rewrite lookup_insert_ne by lia. apply IH. lia.
Qed.

Definition ex_vm : mmu pmm_state := mk_mmu ex_full (<[ex_kva := ex_kernel]> (ex_fill 4096)) ex_kva [] (100 * 4096).

Lemma ex_vm_ok : pa_ok (frames_of ex_vm).
Proof. exact ex_machine. Qed.

Lemma ex_vm_kernel : kernel_tables ex_vm ex_kernel.
Proof.
  destruct ex_kernel_tables as (_ & W & H0 & Hf). unfold kernel_tables. cbn [frames_of kernel_pml4 ex_vm ex_mmu mem] in *.
  split; [apply lookup_insert_eq|]. split; [exact W|]. split; [exact H0|exact Hf].
Qed.

Lemma ex_vm_mem : mem_total ex_vm.
Proof.
  intros f [Hf _]. assert (page_array_pfns ex_full = 4096) as Ep by (vm_compute; reflexivity).
  assert (hhdm_offset ex_full = ex_hhdm) as Eh by (vm_compute; reflexivity).
  cbn [frames_of ex_vm] in Hf. rewrite Ep in Hf. unfold hhdm_page. cbn [boot_hhdm pmm_allocator frames_of ex_vm mem]. rewrite Eh.
  replace (f * 4096 + ex_hhdm) with (ex_hhdm + f * 4096) by lia. destruct (decide (ex_hhdm + f * 4096 = ex_kva)) as [->|Hne].
  - exists ex_kernel. split; [apply lookup_insert_eq|]. exact (proj1 (proj2 ex_kernel_tables)).
  - exists zero_page. rewrite lookup_insert_ne by (intros E; by apply Hne). split; [|apply zero_words].
    apply ex_fill_lookup. lia.
Qed.

Definition ex_as0 : address_space := mk_as 0 0 0 [] 0 0 0 0 0 0.
Definition ex_create : option address_space * mmu pmm_state := default (None, ex_vm) (vmm_create_address_space ex_vm).
Definition ex_as : address_space := default ex_as0 ex_create.1.
Definition ex_st : mmu pmm_state := ex_create.2.

Lemma ex_create_eq : vmm_create_address_space ex_vm = Some (Some ex_as, ex_st).
Proof.
  assert (is_some ex_create.1 = true) as H0 by (vm_compute; reflexivity). revert H0.
  unfold ex_as, ex_st, ex_create. destruct (create_ok ex_vm ex_kernel ex_vm_ok ex_vm_kernel ex_vm_mem) as (r & s & R & E & _).
  rewrite E. cbn. destruct r; [reflexivity|discriminate].
Qed.

#[local] Opaque ex_create ex_as ex_st.

Definition ex_R : gmap Z role := {[as_ptr ex_as := Struct; pml4 ex_as := Table []]}.

Lemma created_space (st st1 : mmu pmm_state) lk a :
  pa_ok (frames_of st) -> kernel_tables st lk -> mem_total st -> vmm_create_address_space st = Some (Some a, st1) ->
  space_inv st1 a {[as_ptr a := Struct; pml4 a := Table []]} /\ vma_list a = [] /\ ref_count a = 1 /\
  vstep st ∅ st1 {[as_ptr a := Struct; pml4 a := Table []]}.
Proof.
  intros H1 H2 H3 E. destruct (create_ok st lk H1 H2 H3) as (r & s & R & E' & V & H). rewrite E in E'. injection E' as <- <-.
  destruct H as (SI & -> & El & Er & _). done.
Qed.

Lemma ex_inv : space_inv ex_st ex_as ex_R.
Proof. exact (proj1 (created_space ex_vm ex_st ex_kernel ex_as ex_vm_ok ex_vm_kernel ex_vm_mem ex_create_eq)). Qed.

Lemma ex_no_vmas : vmas_wf (vma_list ex_as).
Proof. exact (sp_vmas _ _ _ ex_inv). Qed.

(** Three VMAs, the first of which the search for free space meets. *)
Definition ex_vmas : list vm_area :=
  [mk_vma 1 0x400000 0x402000 5 5; mk_vma 2 0x10000000 0x10100000 3 7; mk_vma 3 0x7fff00000000 0x7fff00010000 3 7].
Definition ex_as3 : address_space := mk_as 9 0 0 ex_vmas 3 0 0 0 0 1.

Lemma ex_vma_wf t lo hi p n : 0 <= p -> 0 < n -> p + n <= space_pages -> lo = p * 4096 -> hi = (p + n) * 4096 ->
  vma_wf (mk_vma t lo hi 5 5) /\ vma_wf (mk_vma t lo hi 3 7).
Proof.
  intros H1 H2 H3 -> ->. split; exists p, n; (split; [exact H1|]; split; [exact H2|]; split; [exact H3|]; split; [reflexivity|];
    split; [reflexivity|]; split; [by split|reflexivity]).
Qed.

Lemma ex_vmas_wf : vmas_wf (vma_list ex_as3).
Proof.
  apply vmas_wf_cons. split; [apply (ex_vma_wf 1 _ _ 0x400 2); unfold space_pages; lia|].
  split; [apply Forall_cons; split; [|apply Forall_cons; split; [|apply Forall_nil; exact I]]; unfold before; simpl; lia|].
  apply vmas_wf_cons. split; [apply (ex_vma_wf 2 _ _ 0x10000 0x100); unfold space_pages; lia|].
  split; [apply Forall_cons; split; [|apply Forall_nil; exact I]; unfold before; simpl; lia|].
  apply vmas_wf_cons. split; [apply (ex_vma_wf 3 _ _ 0x7fff00000 0x10); unfold space_pages; lia|].
  split; [apply Forall_nil; exact I|]. split; constructor.
Qed.

Lemma mmap_search_ends_witness :
  exists addr, mmap_search ex_as3 0x10000000 0x3000 = Some addr /\
    (USER_SPACE_END <= u64 (addr + 0x3000) \/ vma_find_intersect ex_as3 addr (u64 (addr + 0x3000)) = None).
Proof. refine (mmap_search_ends ex_as3 0x3000 _). exact ex_vmas_wf. Defined.

Lemma vma_searches_equiv_witness :
  vmm_find_vma ex_as3 0x10000fff = List.find (contains 0x10000fff) (vma_list ex_as3) /\
  vma_find_intersect ex_as3 0x300000 0x500000 = List.find (overlaps 0x300000 0x500000) (vma_list ex_as3) /\
  (vmm_find_vma ex_as3 0x10000fff = None <-> Forall (fun v => contains 0x10000fff v = false) (vma_list ex_as3)).
Proof. refine (vma_searches_equiv ex_as3 0x10000fff 0x300000 0x500000 _). exact ex_vmas_wf. Defined.

Lemma vmm_map_region_spec_witness :
  exists ret a' st' R', vmm_map_region ex_st ex_as (0x400 * 4096) (2 * 4096) 3 = Some (ret, a', st') /\
    space_inv st' a' R' /\ vstep ex_st ex_R st' R' /\ pml4 a' = pml4 ex_as /\
    (as_ptr a' = as_ptr ex_as /\ ref_count a' = ref_count ex_as) /\
    let fin := (0x400 + 2) * 4096 in
    let new t := mk_vma t (0x400 * 4096) fin 3 (vma_to_pte_flags 3) in
    ((ret = 0 /\ vma_find_intersect ex_as (0x400 * 4096) fin = None /\
        (exists t, vma_list a' = insert_sorted (vma_list ex_as) (new t)) /\
        fresh_zeroed st' (pml4 ex_as) (vma_to_pte_flags 3) 0x400 2 /\ same_outside ex_st (pml4 ex_as) st' 0x400 2 /\ data_kept ex_st ex_R st') \/
     (ret = -1 /\ same_outside ex_st (pml4 ex_as) st' 0x400 0 /\
        ((a' = ex_as /\ st' = ex_st) \/
         exists t k, 0 <= k < 2 /\
           span <$> vma_list a' = cut (0x400 * 4096) ((0x400 + k) * 4096) (span <$> insert_sorted (vma_list ex_as) (new t))))).
Proof.
  refine (vmm_map_region_spec ex_st ex_as ex_R 0x400 2 3 _ _ _ _); [exact ex_inv|lia|lia|unfold space_pages; lia].
Defined.

Lemma vmm_unmap_region_spec_witness :
  exists a' st' R', vmm_unmap_region ex_st ex_as (0x400 * 4096) (2 * 4096) = Some (0, a', st') /\
    space_inv st' a' R' /\ vstep ex_st ex_R st' R' /\ pml4 a' = pml4 ex_as /\
    (as_ptr a' = as_ptr ex_as /\ ref_count a' = ref_count ex_as) /\
    cut_or_stale st' (0x400 * 4096) ((0x400 + 2) * 4096) (vma_list ex_as) (vma_list a') /\
    (forall v, user_addr v -> 0x400 <= vpage v < 0x400 + 2 -> translation st' (pml4 ex_as) v = None) /\
    same_outside ex_st (pml4 ex_as) st' 0x400 2.
Proof.
  refine (vmm_unmap_region_spec ex_st ex_as ex_R 0x400 2 _ _ _ _); [exact ex_inv|lia|lia|unfold space_pages; lia].
Defined.

Lemma kernel_tables_step (st st1 : mmu pmm_state) lk R :
  kernel_tables st lk -> vstep st ∅ st1 R -> kernel_tables st1 lk.
Proof.
  intros (H1 & H2 & H3 & H4) [[Eh HM] VC VF [EK _]].
  destruct (VF (kernel_pml4 st) (lookup_empty _)) as [Em _]; [intros f Ef Hf; by apply (H4 f Hf)|].
  unfold kernel_tables. rewrite EK. split; [by rewrite Em|]. split; [exact H2|]. split; [exact H3|].
  intros f Hf. unfold hhdm_page. rewrite Eh. apply (H4 f).
  destruct (proj1 (VC f)) as [?|[? Hx]]; [by left|done|]. by rewrite lookup_empty in Hx.
Qed.

Lemma ex_st_kernel : kernel_tables ex_st ex_kernel.
Proof.
  refine (kernel_tables_step ex_vm ex_st ex_kernel _ ex_vm_kernel _).
  exact (proj2 (proj2 (proj2 (created_space ex_vm ex_st ex_kernel ex_as ex_vm_ok ex_vm_kernel ex_vm_mem ex_create_eq)))).
Qed.

Lemma vmm_clone_spec_witness :
  exists r st', vmm_clone_address_space ex_st ex_as = Some (r, st') /\
    space_inv st' ex_as ex_R /\ (forall t x, ex_R !! t = Some x -> mem st' !! t = mem ex_st !! t) /\
    (forall v, user_addr v -> translation st' (pml4 ex_as) v = translation ex_st (pml4 ex_as) v) /\
    match r with
    | Some dst => exists Rd, space_inv st' dst Rd /\ ex_R ##ₘ Rd /\ vstep ex_st ∅ st' Rd /\
        span <$> vma_list dst = span <$> vma_list ex_as /\ ref_count dst = 1 /\
        (brk dst, start_brk dst, start_stack dst, total_vm dst) = (brk ex_as, start_brk ex_as, start_stack ex_as, total_vm ex_as) /\
        forall q, 0 <= q < space_pages -> page_copied ex_st (pml4 ex_as) st' (pml4 dst) q
    | None => exists L, vstep ex_st ∅ st' L /\ leaked L
    end.
Proof. refine (vmm_clone_spec ex_st ex_as ex_R ex_kernel _ _); [exact ex_inv|exact ex_st_kernel]. Defined.

(** A second address space beside the first. *)
Definition ex_create2 : option address_space * mmu pmm_state := default (None, ex_st) (vmm_create_address_space ex_st).
Definition ex_as2 : address_space := default ex_as0 ex_create2.1.
Definition ex_st2 : mmu pmm_state := ex_create2.2.

Lemma ex_create2_eq : vmm_create_address_space ex_st = Some (Some ex_as2, ex_st2).
Proof.
  assert (is_some ex_create2.1 = true) as H0 by (vm_compute; reflexivity). revert H0.
  unfold ex_as2, ex_st2, ex_create2. pose proof (sp_core _ _ _ ex_inv) as C.
  destruct (create_ok ex_st ex_kernel (tr_alloc _ _ _ (ci_tree _ _ _ C)) ex_st_kernel (ci_mem _ _ _ C)) as (r & s & R & E & _).
  rewrite E. cbn. destruct r; [reflexivity|discriminate].
Qed.

#[local] Opaque ex_create2 ex_as2 ex_st2.

Definition ex_R2 : gmap Z role := {[as_ptr ex_as2 := Struct; pml4 ex_as2 := Table []]}.

Lemma second_space (st st1 : mmu pmm_state) lk a R b :
  space_inv st a R -> kernel_tables st lk -> vmm_create_address_space st = Some (Some b, st1) ->
  space_inv st1 a R /\ space_inv st1 b {[as_ptr b := Struct; pml4 b := Table []]} /\
  R ##ₘ {[as_ptr b := Struct; pml4 b := Table []]}.
Proof.
  intros SI KT E. pose proof (sp_core _ _ _ SI) as C.
  destruct (created_space st st1 lk b (tr_alloc _ _ _ (ci_tree _ _ _ C)) KT (ci_mem _ _ _ C) E) as (SI2 & _ & _ & V).
  pose proof (sp_core _ _ _ SI2) as C2.
  destruct (space_isolated st a R ∅ st1 _ SI (map_disjoint_empty_r _) V (tr_alloc _ _ _ (ci_tree _ _ _ C2)) (ci_mem _ _ _ C2)) as (SI1 & HD & _).
  done.
Qed.

Definition ex_space_ops : list space_op := [OpMapRegion 0x400 2 3; OpUnmapRegion 0x401 1; OpMapRegion 0x400 1 1].

Lemma ex_space_ops_ok : Forall space_op_ok ex_space_ops.
Proof.
  apply Forall_cons; split; [|apply Forall_cons; split; [|apply Forall_cons; split; [|apply Forall_nil; exact I]]];
    cbn; unfold space_pages; lia.
Qed.

Lemma address_spaces_isolated_witness :
  exists a' st' Ra', run_space_ops ex_st2 ex_as2 ex_space_ops = Some (a', st') /\ space_inv st' a' Ra' /\
    space_inv st' ex_as ex_R /\ ex_R ##ₘ Ra' /\ (forall t r, ex_R !! t = Some r -> mem st' !! t = mem ex_st2 !! t) /\
    forall v, user_addr v -> translation st' (pml4 ex_as) v = translation ex_st2 (pml4 ex_as) v.
Proof.
  destruct (second_space ex_st ex_st2 ex_kernel ex_as ex_R ex_as2 ex_inv ex_st_kernel ex_create2_eq) as (H1 & H2 & H3).
  refine (address_spaces_isolated ex_st2 ex_as2 ex_R2 ex_as ex_R ex_space_ops _ _ _ _); [exact H2|exact H1|exact H3|exact ex_space_ops_ok].
Defined.

Lemma address_space_life_witness :
  exists a2 st2 st3, run_space_ops ex_st ex_as ex_space_ops = Some (a2, st2) /\
    vmm_destroy_address_space st2 a2 = Some (None, st3) /\ pa_ok (frames_of st3) /\
    (forall f, pa_free (frames_of st3) f <-> pa_free (frames_of ex_vm) f) /\
    forall t, (forall f, t = hhdm_page (frames_of ex_vm) f -> ~ pa_free (frames_of ex_vm) f) -> mem st3 !! t = mem ex_vm !! t.
Proof.
  refine (address_space_life ex_vm ex_kernel ex_as ex_st ex_space_ops _ _ _ _ _);
    [exact ex_vm_ok|exact ex_vm_kernel|exact ex_vm_mem|exact ex_create_eq|exact ex_space_ops_ok].
Defined.
