(* ===== verification/Uaccess.v ===== *)
(** * User memory access (kernel/mm/uaccess.c)

    Validation of user ranges against the VMAs of the current process and the copies between user
    and kernel memory.  Memory is one function from virtual addresses to bytes: the kernel reads
    and writes user memory through the active page tables.  The loop over VMAs has a bound on its
    rounds; [None] would mean that the bound was reached, and the theorems show it never is. *)
From S2P Require Import Prelude Defs Paging Vmm VmmRegion.

(** ** The code *)

Definition s32 (x : Z) : Z := let y := u32 x in if y <? 2 ^ 31 then y else y - 2 ^ 32.

(** The flag tests on one VMA: each required permission is granted. *)
Definition vma_allows (required : Z) (v : vm_area) : bool :=
  negb (ztrue (Z.land required VMA_READ) && negb (ztrue (Z.land (vma_flags v) VMA_READ))) &&
  negb (ztrue (Z.land required VMA_WRITE) && negb (ztrue (Z.land (vma_flags v) VMA_WRITE))) &&
  negb (ztrue (Z.land required VMA_EXEC) && negb (ztrue (Z.land (vma_flags v) VMA_EXEC))).

(** [while (cursor < end)] *)
Fixpoint check_range (n : nat) (a : address_space) (cursor fin required : Z) : option Z :=
  if cursor <? fin then
    match n with
    | O => None
    | S n =>
        match vmm_find_vma a cursor with
        | None => Some (- EFAULT)
        | Some v =>
            if cursor <? vma_start v then Some (- EFAULT)
            else if negb (vma_allows required v) then Some (- EFAULT)
            else if vma_end v <=? cursor then Some (- EFAULT)
            else if fin <=? vma_end v then Some 0
            else check_range n a (vma_end v) fin required
        end
    end
  else Some 0.

(** [mm] is the address space of the current process, [None] without one. *)
Definition validate_user_range (mm : option address_space) (ptr len required : Z) : option Z :=
  if ptr =? 0 then Some (- EFAULT) else
  if len =? 0 then Some 0 else
  if USER_SPACE_END <? ptr then Some (- EFAULT) else
  if USER_SPACE_END - ptr <? len - 1 then Some (- EFAULT) else
  let fin := u64 (ptr + len) in
  match mm with
  | None => Some (- EFAULT)
  | Some a => check_range (S (length (vma_list a))) a ptr fin required
  end.

Definition memory := Z -> Z.

Definition memcpy (m : memory) (dst src len : Z) : memory :=
  fun x => if (dst <=? x) && (x <? dst + len) then m (src + (x - dst)) else m x.

Definition copy_from_user (mm : option address_space) (m : memory) (dst src len : Z) : option (Z * memory) :=
  if dst =? 0 then Some (- EINVAL, m) else
  if len =? 0 then Some (0, m) else
  ret ← validate_user_range mm src len VMA_READ;
  Some (if ret <? 0 then (ret, m) else (0, memcpy m dst src len)).

Definition copy_to_user (mm : option address_space) (m : memory) (dst src len : Z) : option (Z * memory) :=
  if src =? 0 then Some (- EINVAL, m) else
  if len =? 0 then Some (0, m) else
  ret ← validate_user_range mm dst len VMA_WRITE;
  Some (if ret <? 0 then (ret, m) else (0, memcpy m dst src len)).

Definition poke (m : memory) (x b : Z) : memory := fun y => if y =? x then b else m y.

(** The loop from [i] on, [n] rounds left. *)
Fixpoint copy_string (n : nat) (mm : option address_space) (m : memory) (dst dst_size src i : Z) : option (Z * memory) :=
  match n with
  | O => Some (- ENAMETOOLONG, poke m (dst + (dst_size - 1)) 0)
  | S n =>
      ret ← validate_user_range mm (u64 (src + i)) 1 VMA_READ;
      if ret <? 0 then Some (ret, m) else
      let m := poke m (dst + i) (m (u64 (src + i))) in
      if m (dst + i) =? 0 then Some (s32 i, m)
      else copy_string n mm m dst dst_size src (i + 1)
  end.

Definition copy_string_from_user (mm : option address_space) (m : memory) (dst dst_size src : Z) : option (Z * memory) :=
  if (dst =? 0) || (src =? 0) || (dst_size =? 0) then Some (- EINVAL, m) else
  copy_string (Z.to_nat dst_size) mm m dst dst_size src 0.

(** ** Validation *)

(** Address [x] is in a VMA that grants what is required. *)
Definition accessible (a : address_space) (required x : Z) : Prop :=
  exists v, v ∈ vma_list a /\ vma_start v <= x < vma_end v /\ vma_allows required v = true.

Lemma find_vma_Some a x v :
  vmas_wf (vma_list a) -> vmm_find_vma a x = Some v -> v ∈ vma_list a /\ vma_start v <= x < vma_end v.
Proof.
  intros W. unfold vmm_find_vma. rewrite find_vma_ref by done. intros [Hv Hc]%find_some.
  split; [by apply list_elem_of_In|]. unfold contains in Hc. lia.
Qed.

(** VMAs are disjoint: an address determines its VMA. *)
Lemma vma_unique l v w x :
  vmas_wf l -> v ∈ l -> w ∈ l -> vma_start v <= x < vma_end v -> vma_start w <= x < vma_end w -> v = w.
Proof.
  induction l as [|u l IH]; [by intros _ H; inversion H|]. intros (Wu & Bu & Wl)%vmas_wf_cons Hv Hw Hx Hy.
  apply elem_of_cons in Hv, Hw. destruct Hv as [->|Hv], Hw as [->|Hw]; [done|..|by apply IH].
  - pose proof (proj1 (Forall_forall _ _) Bu w Hw) as Hb. unfold before in Hb. lia.
  - pose proof (proj1 (Forall_forall _ _) Bu v Hv) as Hb. unfold before in Hb. lia.
Qed.

Lemma accessible_find a required x :
  vmas_wf (vma_list a) ->
  accessible a required x <-> exists v, vmm_find_vma a x = Some v /\ vma_allows required v = true.
Proof.
  intros W. split.
  - intros (v & Hv & Hx & Ha). destruct (vmm_find_vma a x) as [w|] eqn:E.
    + destruct (find_vma_Some a x w W E) as [Hw Hx']. exists w. split; [done|]. by rewrite (vma_unique _ w v x W Hw Hv Hx' Hx).
    + unfold vmm_find_vma in E. rewrite find_vma_ref in E by done. apply list_elem_of_In in Hv.
      pose proof (List.find_none _ _ E v Hv) as Hc. unfold contains in Hc. lia.
  - intros (v & E & Ha). destruct (find_vma_Some a x v W E) as [Hv Hx]. by exists v.
Qed.

(** VMAs that end after the cursor: the loop visits each at most once. *)
Definition beyond (l : list vm_area) (c : Z) : nat := length (base.filter (fun v => c < vma_end v) l).

Lemma beyond_le l c c' : c <= c' -> (beyond l c' <= beyond l c)%nat.
Proof.
  intros Hc. unfold beyond. induction l as [|v l IH]; [done|]. rewrite !filter_cons. repeat case_decide; simpl; lia.
Qed.

Lemma beyond_lt l v c : v ∈ l -> c < vma_end v -> (beyond l (vma_end v) < beyond l c)%nat.
Proof.
  intros Hv Hc. induction l as [|w l IH]; [inversion Hv|]. unfold beyond in *. rewrite !filter_cons.
  pose proof (beyond_le l c (vma_end v) ltac:(lia)) as Hle. unfold beyond in Hle.
  apply elem_of_cons in Hv as [->|Hv]; [rewrite decide_False, decide_True by lia; simpl; lia|].
  specialize (IH Hv). repeat case_decide; simpl; lia.
Qed.

Lemma check_range_ok a required fin n : forall c,
  vmas_wf (vma_list a) -> (beyond (vma_list a) c < n)%nat ->
  (check_range n a c fin required = Some 0 /\ forall x, c <= x < fin -> accessible a required x) \/
  (check_range n a c fin required = Some (- EFAULT) /\ exists x, c <= x < fin /\ ~ accessible a required x).
Proof.
  induction n as [|n IH]; intros c W Hn; [lia|]. cbn [check_range]. destruct (Z.ltb_spec c fin) as [Hlt|Hge].
  2: { left. split; [done|]. intros x Hx. lia. }
  pose proof (accessible_find a required c W) as HA. destruct (vmm_find_vma a c) as [v|] eqn:E.
  2: { right. split; [done|]. exists c. split; [lia|]. rewrite HA. intros (v & ? & _). done. }
  destruct (find_vma_Some a c v W E) as [Hv Hx]. rewrite (proj2 (Z.ltb_ge _ _)) by lia.
  destruct (vma_allows required v) eqn:Ea; cbn [negb].
  2: { right. split; [done|]. exists c. split; [lia|]. rewrite HA. intros (w & [= <-] & ?). congruence. }
  rewrite (proj2 (Z.leb_gt _ _)) by lia. destruct (Z.leb_spec fin (vma_end v)).
  - left. split; [done|]. intros x Hx'. exists v. split; [done|]. split; [lia|done].
  - destruct (IH (vma_end v) W) as [[-> H1]|(-> & x & Hx1 & Hx2)].
    + pose proof (beyond_lt (vma_list a) v c Hv ltac:(lia)). lia.
    + left. split; [done|]. intros x Hx'. destruct (decide (x < vma_end v)); [exists v; split; [done|split; [lia|done]]|].
      apply H1. lia.
    + right. split; [done|]. exists x. split; [lia|done].
Qed.

(** What the kernel may do at [ptr .. ptr + len): the range lies in user space and every byte of it
    in a VMA that grants what is required. *)
Definition user_range_ok (mm : option address_space) (ptr len required : Z) : Prop :=
  ptr ≠ 0 /\ (len = 0 \/ ptr + len <= 2 ^ 47 /\ exists a, mm = Some a /\ forall x, ptr <= x < ptr + len -> accessible a required x).

Lemma validate_ok mm ptr len required :
  (forall a, mm = Some a -> vmas_wf (vma_list a)) -> fits 64 ptr -> fits 64 len ->
  (validate_user_range mm ptr len required = Some 0 /\ user_range_ok mm ptr len required) \/
  (validate_user_range mm ptr len required = Some (- EFAULT) /\ ~ user_range_ok mm ptr len required).
Proof.
  intros W [Hp _] [Hl Hl']. unfold validate_user_range, user_range_ok, USER_SPACE_END.
  destruct (Z.eqb_spec ptr 0); [right; split; [done|]; intros [? _]; done|].
  destruct (Z.eqb_spec len 0); [left; auto|].
  destruct (Z.ltb_spec 0x00007FFFFFFFFFFF ptr); [right; split; [done|]; intros [_ [?|[? _]]]; lia|].
  destruct (Z.ltb_spec (0x00007FFFFFFFFFFF - ptr) (len - 1)); [right; split; [done|]; intros [_ [?|[? _]]]; lia|].
  destruct mm as [a|]; [|right; split; [done|]; intros [_ [?|(_ & a & ? & _)]]; done].
  rewrite u64_small by lia.
  destruct (check_range_ok a required (ptr + len) (S (length (vma_list a))) ptr (W a eq_refl)) as [[-> H']|(-> & x & Hx & Hn)].
  - unfold beyond. pose proof (length_filter (fun v => ptr < vma_end v) (vma_list a)). lia.
  - left. split; [done|]. split; [done|]. right. split; [lia|]. by exists a.
  - right. split; [done|]. intros [_ [?|(_ & a' & [= <-] & H')]]; [done|]. by apply Hn, H'.
Qed.

(** C6.  User pointers are checked exactly: [validate_user_range] always comes to an answer, 0 if and
    only if the pointer is not NULL and the range is empty or lies within user space, without
    wrapping around, and every byte of it is in a VMA of the current process with the required
    permissions, and -EFAULT otherwise. *)
Theorem validate_user_range_spec mm ptr len required :
  (forall a, mm = Some a -> vmas_wf (vma_list a)) -> fits 64 ptr -> fits 64 len ->
  (validate_user_range mm ptr len required = Some 0 /\ user_range_ok mm ptr len required) \/
  (validate_user_range mm ptr len required = Some (- EFAULT) /\ ~ user_range_ok mm ptr len required).
Proof. apply validate_ok. Qed.

(** ** Copies *)

(** A copy between kernel and user memory goes through completely or not at all: it succeeds
    exactly when the kernel pointer is not NULL and the length is 0 or the user range is valid for
    the access, and then copies exactly the bytes asked for; otherwise no byte of memory changes. *)
Theorem user_copy_spec mm m user kernel len :
  (forall a, mm = Some a -> vmas_wf (vma_list a)) -> fits 64 user -> fits 64 len -> kernel ≠ 0 -> len ≠ 0 ->
  (if decide (validate_user_range mm user len VMA_READ = Some 0)
   then user_range_ok mm user len VMA_READ /\ copy_from_user mm m kernel user len = Some (0, memcpy m kernel user len)
   else ~ user_range_ok mm user len VMA_READ /\ copy_from_user mm m kernel user len = Some (- EFAULT, m)) /\
  (if decide (validate_user_range mm user len VMA_WRITE = Some 0)
   then user_range_ok mm user len VMA_WRITE /\ copy_to_user mm m user kernel len = Some (0, memcpy m user kernel len)
   else ~ user_range_ok mm user len VMA_WRITE /\ copy_to_user mm m user kernel len = Some (- EFAULT, m)).
Proof.
  intros W Hu Hl Hk Hl0. unfold copy_from_user, copy_to_user.
  rewrite (proj2 (Z.eqb_neq kernel 0) Hk), (proj2 (Z.eqb_neq len 0) Hl0).
  destruct (validate_ok mm user len VMA_READ W Hu Hl) as [[-> HR]|[-> HR]],
    (validate_ok mm user len VMA_WRITE W Hu Hl) as [[-> HW]|[-> HW]];
    (split; [first [rewrite decide_True by done|rewrite decide_False by done]; split; [done|reflexivity]..]).
Qed.

(** ** Strings *)

(** The user string from [src] on has [j] bytes that are readable and not NUL. *)
Definition string_prefix (mm : option address_space) (m : memory) (src j : Z) : Prop :=
  forall k, 0 <= k < j -> user_range_ok mm (src + k) 1 VMA_READ /\ m (src + k) ≠ 0.

(** [m'] is [m] but for the buffer, which holds the first [j] bytes of the string. *)
Definition buffer_holds (m m' : memory) (dst dst_size src j : Z) : Prop :=
  (forall x, ~ dst <= x < dst + dst_size -> m' x = m x) /\ forall k, 0 <= k < j -> m' (dst + k) = m (src + k).

Lemma s32_id x : 0 <= x < 2 ^ 31 -> s32 x = x.
Proof. intros Hx. unfold s32. rewrite u32_small by lia. by rewrite (proj2 (Z.ltb_lt _ _)) by lia. Qed.

Lemma range_ok_user mm x required : user_range_ok mm x 1 required -> x < 2 ^ 47.
Proof. intros [_ [?|[? _]]]; lia. Qed.

Lemma copy_string_ok mm m0 dst dst_size src n : forall i m,
  (forall a, mm = Some a -> vmas_wf (vma_list a)) -> 0 <= src -> src + i < 2 ^ 64 -> 2 ^ 47 <= dst -> 0 < dst_size <= 2 ^ 31 ->
  0 <= i -> dst_size = i + Z.of_nat n -> string_prefix mm m0 src i -> buffer_holds m0 m dst dst_size src i ->
  exists ret m' j, copy_string n mm m dst dst_size src i = Some (ret, m') /\ i <= j <= dst_size /\ string_prefix mm m0 src j /\
    ((ret = j /\ j < dst_size /\ m0 (src + j) = 0 /\ user_range_ok mm (src + j) 1 VMA_READ /\ buffer_holds m0 m' dst dst_size src (j + 1)) \/
     (ret = - EFAULT /\ j < dst_size /\ ~ user_range_ok mm (src + j) 1 VMA_READ /\ buffer_holds m0 m' dst dst_size src j) \/
     (ret = - ENAMETOOLONG /\ j = dst_size /\ buffer_holds m0 m' dst dst_size src (dst_size - 1) /\ m' (dst + (dst_size - 1)) = 0)).
Proof.
  induction n as [|n IH]; intros i m W Hs Hsi Hd Hds Hi Hn HP [HB1 HB2]; cbn [copy_string].
  - eexists _, _, i. split; [done|]. split; [lia|]. split; [done|]. right. right. split; [done|]. split; [lia|]. split; [split|].
    + intros x Hx. unfold poke. rewrite (proj2 (Z.eqb_neq _ _)) by lia. by apply HB1.
    + intros k Hk. unfold poke. rewrite (proj2 (Z.eqb_neq _ _)) by lia. apply HB2. lia.
    + unfold poke. by rewrite Z.eqb_refl.
  - rewrite u64_small by lia.
    destruct (validate_ok mm (src + i) 1 VMA_READ W ltac:(unfold fits; lia) ltac:(unfold fits; lia)) as [[-> HR]|[-> HR]];
      cbn [mbind option_bind Z.ltb Z.compare].
    2: { eexists _, m, i. split; [done|]. split; [lia|]. split; [done|]. right. left. split; [done|]. split; [lia|]. by split. }
    pose proof (range_ok_user _ _ _ HR) as Hlt. set (m1 := poke m (dst + i) (m (src + i))).
    assert (m (src + i) = m0 (src + i)) as Em by (apply HB1; lia).
    assert (m1 (dst + i) = m0 (src + i)) as E1 by (unfold m1, poke; by rewrite Z.eqb_refl).
    assert (buffer_holds m0 m1 dst dst_size src (i + 1)) as HB'.
    { split.
      - intros x Hx. unfold m1, poke. rewrite (proj2 (Z.eqb_neq _ _)) by lia. by apply HB1.
      - intros k Hk. destruct (decide (k = i)) as [->|Hne]; [done|]. unfold m1, poke. rewrite (proj2 (Z.eqb_neq _ _)) by lia.
        apply HB2. lia. }
    rewrite E1. destruct (Z.eqb_spec (m0 (src + i)) 0) as [Ez|Enz].
    + eexists _, m1, i. split; [done|]. split; [lia|]. split; [done|]. left. split; [apply s32_id; lia|]. split; [lia|]. done.
    + destruct (IH (i + 1) m1 W Hs ltac:(lia) Hd Hds ltac:(lia) ltac:(lia)) as (ret & m' & j & E & Hj & HP' & H'); [|done|].
      { intros k Hk. destruct (decide (k = i)) as [->|]; [done|]. apply HP. lia. }
      exists ret, m', j. split; [exact E|]. split; [lia|]. by split.
Qed.

(** Copying a user string into a kernel buffer never writes outside the buffer and never reads a
    byte that is not readable user memory: the result is the length of the string if a NUL is
    found within the buffer's size, and the string with its NUL is in the buffer; -EFAULT if a
    byte before the first NUL is not readable; -ENAMETOOLONG if the string does not fit, and the
    buffer then ends in a NUL. *)
Theorem copy_string_from_user_spec mm m dst dst_size src :
  (forall a, mm = Some a -> vmas_wf (vma_list a)) -> 0 < src < 2 ^ 64 -> 2 ^ 47 <= dst -> 0 < dst_size <= 2 ^ 31 ->
  exists ret m' j, copy_string_from_user mm m dst dst_size src = Some (ret, m') /\ 0 <= j <= dst_size /\ string_prefix mm m src j /\
    ((ret = j /\ j < dst_size /\ m (src + j) = 0 /\ user_range_ok mm (src + j) 1 VMA_READ /\ buffer_holds m m' dst dst_size src (j + 1)) \/
     (ret = - EFAULT /\ j < dst_size /\ ~ user_range_ok mm (src + j) 1 VMA_READ /\ buffer_holds m m' dst dst_size src j) \/
     (ret = - ENAMETOOLONG /\ j = dst_size /\ buffer_holds m m' dst dst_size src (dst_size - 1) /\ m' (dst + (dst_size - 1)) = 0)).
Proof.
  intros W Hs Hd Hds. unfold copy_string_from_user.
  rewrite (proj2 (Z.eqb_neq dst 0)), (proj2 (Z.eqb_neq src 0)), (proj2 (Z.eqb_neq dst_size 0)) by lia. cbn [orb].
  apply copy_string_ok; try done; try lia.
  - intros k Hk. lia.
  - split; [done|]. intros k Hk. lia.
Qed.

(** ** Witnesses: a process with a read-only and a writable VMA, side by side *)

Definition ex_user : address_space :=
  mk_as 9 0 0 [mk_vma 1 0x400000 0x402000 1 5; mk_vma 2 0x402000 0x403000 3 7] 2 0 0 0 0 1.

Lemma ex_user_wf : forall a, Some ex_user = Some a -> vmas_wf (vma_list a).
Proof.
  intros a [= <-]. apply vmas_wf_cons. split; [|split; [|apply vmas_wf_cons; split; [|split; [apply Forall_nil; exact I|split; constructor]]]].
  - exists 0x400, 2. unfold space_pages. split; [lia|]. split; [lia|]. split; [lia|]. split; [reflexivity|].
    split; [reflexivity|]. split; [by split|reflexivity].
  - apply Forall_singleton. unfold before. simpl. lia.
  - exists 0x402, 1. unfold space_pages. split; [lia|]. split; [lia|]. split; [lia|]. split; [reflexivity|].
    split; [reflexivity|]. split; [by split|reflexivity].
Qed.

(** A range across both VMAs is readable and not writable. *)
Example ex_validate :
  validate_user_range (Some ex_user) 0x401ff0 0x20 VMA_READ = Some 0 /\
  validate_user_range (Some ex_user) 0x401ff0 0x20 VMA_WRITE = Some (- EFAULT) /\
  validate_user_range (Some ex_user) 0x402ff0 0x20 VMA_READ = Some (- EFAULT) /\
  validate_user_range (Some ex_user) 0x402000 (2 ^ 64 - 1) VMA_READ = Some (- EFAULT).
Proof. repeat split; reflexivity. Qed.

Lemma validate_user_range_spec_witness :
  (validate_user_range (Some ex_user) 0x401ff0 0x20 VMA_READ = Some 0 /\ user_range_ok (Some ex_user) 0x401ff0 0x20 VMA_READ) \/
  (validate_user_range (Some ex_user) 0x401ff0 0x20 VMA_READ = Some (- EFAULT) /\
     ~ user_range_ok (Some ex_user) 0x401ff0 0x20 VMA_READ).
Proof.
  refine (validate_user_range_spec (Some ex_user) 0x401ff0 0x20 VMA_READ _ _ _); [exact ex_user_wf|unfold fits; lia|unfold fits; lia].
Defined.

(** The string "hi" at the end of the first VMA. *)
Definition ex_memory : memory := fun x => if x =? 0x401ffe then 104 else if x =? 0x401fff then 105 else 0.

Lemma user_copy_spec_witness :
  (if decide (validate_user_range (Some ex_user) 0x401ff0 0x20 VMA_READ = Some 0)
   then user_range_ok (Some ex_user) 0x401ff0 0x20 VMA_READ /\
     copy_from_user (Some ex_user) ex_memory (2 ^ 50) 0x401ff0 0x20 = Some (0, memcpy ex_memory (2 ^ 50) 0x401ff0 0x20)
   else ~ user_range_ok (Some ex_user) 0x401ff0 0x20 VMA_READ /\
     copy_from_user (Some ex_user) ex_memory (2 ^ 50) 0x401ff0 0x20 = Some (- EFAULT, ex_memory)) /\
  (if decide (validate_user_range (Some ex_user) 0x401ff0 0x20 VMA_WRITE = Some 0)
   then user_range_ok (Some ex_user) 0x401ff0 0x20 VMA_WRITE /\
     copy_to_user (Some ex_user) ex_memory 0x401ff0 (2 ^ 50) 0x20 = Some (0, memcpy ex_memory 0x401ff0 (2 ^ 50) 0x20)
   else ~ user_range_ok (Some ex_user) 0x401ff0 0x20 VMA_WRITE /\
     copy_to_user (Some ex_user) ex_memory 0x401ff0 (2 ^ 50) 0x20 = Some (- EFAULT, ex_memory)).
Proof.
  refine (user_copy_spec (Some ex_user) ex_memory 0x401ff0 (2 ^ 50) 0x20 _ _ _ _ _);
    [exact ex_user_wf|unfold fits; lia|unfold fits; lia|lia|lia].
Defined.

Lemma copy_string_from_user_spec_witness :
  exists ret m' j, copy_string_from_user (Some ex_user) ex_memory (2 ^ 50) 16 0x401ffe = Some (ret, m') /\ 0 <= j <= 16 /\
    string_prefix (Some ex_user) ex_memory 0x401ffe j /\
    ((ret = j /\ j < 16 /\ ex_memory (0x401ffe + j) = 0 /\ user_range_ok (Some ex_user) (0x401ffe + j) 1 VMA_READ /\
        buffer_holds ex_memory m' (2 ^ 50) 16 0x401ffe (j + 1)) \/
     (ret = - EFAULT /\ j < 16 /\ ~ user_range_ok (Some ex_user) (0x401ffe + j) 1 VMA_READ /\
        buffer_holds ex_memory m' (2 ^ 50) 16 0x401ffe j) \/
     (ret = - ENAMETOOLONG /\ j = 16 /\ buffer_holds ex_memory m' (2 ^ 50) 16 0x401ffe (16 - 1) /\ m' (2 ^ 50 + (16 - 1)) = 0)).
Proof.
  refine (copy_string_from_user_spec (Some ex_user) ex_memory (2 ^ 50) 16 0x401ffe _ _ _ _); [exact ex_user_wf|lia|lia|lia].
Defined.
