(* ===== verification/ByteMem.v ===== *)
(** * Byte-addressed memory

    The memory that the string functions of the kernel and of the C library work on: every
    mapped address holds a byte; reading or writing an address that is not mapped is a fault
    ([None]).  64-bit accesses are little-endian.  Pointers are addresses in [Z]; an object never
    reaches the end of the address space, so pointer arithmetic inside an object does not wrap. *)
From stdpp Require Import list_numbers.
From S2P Require Import Prelude.

Notation bytemem := (gmap Z Z).

(** Every mapped address holds a byte. *)
Definition bytemem_ok (m : bytemem) : Prop := map_Forall (fun _ b => 0 <= b < 256) m.

Definition store (m : bytemem) (a b : Z) : option bytemem :=
  _ ← m !! a; Some (<[a := u8 b]> m).

Fixpoint load_bytes (m : bytemem) (a : Z) (n : nat) : option (list Z) :=
  match n with
  | O => Some []
  | S n' => b ← m !! a; l ← load_bytes m (a + 1) n'; Some (b :: l)
  end.

Fixpoint store_bytes (m : bytemem) (a : Z) (l : list Z) : option bytemem :=
  match l with
  | [] => Some m
  | b :: l' => m' ← store m a b; store_bytes m' (a + 1) l'
  end.

Definition load64 (m : bytemem) (a : Z) : option Z :=
  l ← load_bytes m a 8; Some (little_endian_to_Z 8 l).

Definition store64 (m : bytemem) (a v : Z) : option bytemem :=
  store_bytes m a (Z_to_little_endian 8 8 v).

(** ** Specification vocabulary *)

(** The bytes [l] stand at [a]. *)
Definition bytes_at (m : bytemem) (a : Z) (l : list Z) : Prop :=
  forall i b, l !! i = Some b -> m !! (a + Z.of_nat i) = Some b.

(** The [n] addresses from [a] on are mapped. *)
Definition mapped (m : bytemem) (a n : Z) : Prop :=
  forall x, a <= x < a + n -> is_Some (m !! x).

(** The memory with the bytes [l] written from [a] on. *)
Fixpoint blit (m : bytemem) (a : Z) (l : list Z) : bytemem :=
  match l with
  | [] => m
  | b :: l' => blit (<[a := b]> m) (a + 1) l'
  end.

(** A C string: bytes without a NUL, followed by one. *)
Definition cstr_at (m : bytemem) (a : Z) (l : list Z) : Prop :=
  bytes_at m a (l ++ [0]) /\ 0 ∉ l.

Definition is_byte (b : Z) : Prop := 0 <= b < 256.

(** ** Lemmas *)

Lemma blit_lookup m a l x :
  blit m a l !! x =
    if decide (a <= x < a + zlen l) then l !! Z.to_nat (x - a) else m !! x.
Proof.
  unfold zlen. revert m a. induction l as [|b l IH]; intros m a; cbn [blit length].
  - by rewrite decide_False by lia.
  - rewrite IH. destruct (decide (x = a)) as [->|Hx].
    + repeat case_decide; try lia. by rewrite lookup_insert_eq, Z.sub_diag.
    + rewrite lookup_insert_ne by done. repeat case_decide; try lia; [|done].
      replace (Z.to_nat (x - a)) with (S (Z.to_nat (x - (a + 1)))) by lia. done.
Qed.

Lemma blit_app m a l1 l2 : blit m a (l1 ++ l2) = blit (blit m a l1) (a + zlen l1) l2.
Proof.
  unfold zlen. revert m a. induction l1 as [|b l1 IH]; intros m a; cbn [blit app length].
  - by rewrite Z.add_0_r.
  - rewrite IH. f_equal. lia.
Qed.

(** A byte written before or after those of a blit commutes with it. *)
Lemma blit_insert m a l x b :
  x < a \/ a + zlen l <= x -> blit (<[x := b]> m) a l = <[x := b]> (blit m a l).
Proof.
  intros Hx. apply map_eq. intros y.
  destruct (decide (y = x)) as [->|Hy].
  - rewrite blit_lookup, decide_False by lia. by rewrite !lookup_insert_eq.
  - rewrite (lookup_insert_ne (blit m a l)), !blit_lookup by done.
    case_decide; [done|]. by rewrite lookup_insert_ne.
Qed.

Lemma blit_snoc m a l b : blit m a (l ++ [b]) = <[a + zlen l := b]> (blit m a l).
Proof. by rewrite blit_app. Qed.

Lemma blit_snoc' m a l b : blit m a (l ++ [b]) = blit (<[a + zlen l := b]> m) a l.
Proof. rewrite blit_snoc, blit_insert by lia. done. Qed.

Lemma mapped_sub m a n a' n' : mapped m a n -> a <= a' -> a' + n' <= a + n -> mapped m a' n'.
Proof. intros H ?? x Hx. apply H. lia. Qed.

Lemma mapped_insert m a n x b : mapped m a n -> mapped (<[x := b]> m) a n.
Proof. intros H y Hy. apply lookup_insert_is_Some'. right. by apply H. Qed.

Lemma mapped_blit m a n x l : mapped m a n -> mapped (blit m x l) a n.
Proof.
  intros H. revert m x H. induction l as [|b l IH]; intros m x H; cbn [blit]; [done|].
  by apply IH, mapped_insert.
Qed.

Lemma bytes_at_mapped m a l : bytes_at m a l -> mapped m a (zlen l).
Proof.
  intros H x Hx. unfold zlen in Hx.
  destruct (lookup_lt_is_Some_2 l (Z.to_nat (x - a))) as [b Hb]; [lia|].
  exists b. specialize (H _ _ Hb). by replace (a + Z.of_nat (Z.to_nat (x - a))) with x in H by lia.
Qed.

Lemma bytes_at_cons m a b l : bytes_at m a (b :: l) <-> m !! a = Some b /\ bytes_at m (a + 1) l.
Proof.
  split.
  - intros H. split.
    + specialize (H O b eq_refl). by rewrite Z.add_0_r in H.
    + intros i c Hc. specialize (H (S i) c Hc). by replace (a + Z.of_nat (S i)) with (a + 1 + Z.of_nat i) in H by lia.
  - intros [H0 H] [|i] c Hc; simplify_eq/=; [by rewrite Z.add_0_r|].
    specialize (H i c Hc). rewrite <- H. f_equal. lia.
Qed.

Lemma bytes_at_app m a l1 l2 :
  bytes_at m a (l1 ++ l2) <-> bytes_at m a l1 /\ bytes_at m (a + zlen l1) l2.
Proof.
  unfold zlen. revert a. induction l1 as [|b l1 IH]; intros a; cbn [app length].
  - rewrite Z.add_0_r. split; [intros H; split; [|done]; by intros ??|by intros []].
  - rewrite !bytes_at_cons, IH. replace (a + 1 + Z.of_nat (length l1)) with (a + Z.of_nat (S (length l1))) by lia.
    tauto.
Qed.

Lemma bytes_at_insert m a l x b :
  bytes_at m a l -> x < a \/ a + zlen l <= x -> bytes_at (<[x := b]> m) a l.
Proof.
  intros H Hx i c Hc. unfold zlen in Hx. pose proof (lookup_lt_Some _ _ _ Hc).
  rewrite lookup_insert_ne by lia. by apply H.
Qed.

Lemma bytes_at_blit_other m a l x l' :
  bytes_at m a l -> x + zlen l' <= a \/ a + zlen l <= x -> bytes_at (blit m x l') a l.
Proof.
  intros H Hx i c Hc. unfold zlen in Hx. pose proof (lookup_lt_Some _ _ _ Hc).
  rewrite blit_lookup, decide_False; [by apply H|]. unfold zlen. lia.
Qed.

Lemma bytes_at_blit m a l : bytes_at (blit m a l) a l.
Proof.
  intros i b Hb. pose proof (lookup_lt_Some _ _ _ Hb). rewrite blit_lookup, decide_True.
  - by replace (Z.to_nat (a + Z.of_nat i - a)) with i by lia.
  - unfold zlen. lia.
Qed.

(** Writing what is already there changes nothing. *)
Lemma blit_same m a l : bytes_at m a l -> blit m a l = m.
Proof.
  intros H. apply map_eq. intros x. rewrite blit_lookup. case_decide as Hx; [|done].
  destruct (bytes_at_mapped _ _ _ H x Hx) as [b Hb].
  unfold zlen in Hx. destruct (lookup_lt_is_Some_2 l (Z.to_nat (x - a))) as [c Hc]; [lia|].
  rewrite Hc. specialize (H _ _ Hc). replace (a + Z.of_nat (Z.to_nat (x - a))) with x in H by lia. done.
Qed.

Lemma bytes_at_bytes m a l : bytemem_ok m -> bytes_at m a l -> Forall is_byte l.
Proof.
  intros Hm H. apply Forall_lookup. intros i b Hb. exact (Hm _ _ (H _ _ Hb)).
Qed.

Lemma bytemem_ok_blit m a l : bytemem_ok m -> Forall is_byte l -> bytemem_ok (blit m a l).
Proof.
  intros Hm. revert m a Hm. induction l as [|b l IH]; intros m a Hm Hl; cbn [blit]; [done|].
  apply Forall_cons in Hl as [Hb Hl]. apply IH; [|done]. by apply map_Forall_insert_2.
Qed.

Lemma store_mapped m a b : is_Some (m !! a) -> is_byte b -> store m a b = Some (<[a := b]> m).
Proof.
  intros [c Hc] Hb. unfold store. rewrite Hc. cbn [mbind option_bind].
  unfold u8. by rewrite wrap_small.
Qed.

Lemma load_bytes_at m a l : bytes_at m a l -> load_bytes m a (length l) = Some l.
Proof.
  revert a. induction l as [|b l IH]; intros a H; [done|]. apply bytes_at_cons in H as [H0 H].
  cbn [length load_bytes]. rewrite H0. cbn [mbind option_bind]. by rewrite (IH _ H).
Qed.

Lemma load_bytes_inv m a n l : load_bytes m a n = Some l -> length l = n /\ bytes_at m a l.
Proof.
  revert a l. induction n as [|n IH]; intros a l H; cbn [load_bytes] in H; [by simplify_eq|].
  destruct (m !! a) as [b|] eqn:E; [|done]. cbn [mbind option_bind] in H.
  destruct (load_bytes m (a + 1) n) as [l'|] eqn:E'; [|done]. simplify_eq/=.
  destruct (IH _ _ E') as [<- H']. split; [done|]. by apply bytes_at_cons.
Qed.

Lemma store_bytes_mapped m a l :
  mapped m a (zlen l) -> Forall is_byte l -> store_bytes m a l = Some (blit m a l).
Proof.
  unfold zlen. revert m a. induction l as [|b l IH]; intros m a Hm Hl; [done|].
  apply Forall_cons in Hl as [Hb Hl]. cbn [store_bytes blit length] in *.
  rewrite store_mapped by (try done; apply Hm; lia). cbn [mbind option_bind].
  apply IH; [|done]. apply mapped_insert. eapply mapped_sub; [exact Hm|lia..].
Qed.

Lemma store_bytes_outside m a l m' x :
  store_bytes m a l = Some m' -> ~ (a <= x < a + zlen l) -> m' !! x = m !! x.
Proof.
  unfold zlen. revert m a. induction l as [|b l IH]; intros m a H Hx; cbn [store_bytes] in H; [by simplify_eq|].
  unfold store in H. destruct (m !! a) as [c|]; [|done]. cbn [mbind option_bind length] in *.
  rewrite (IH _ _ H) by lia. apply lookup_insert_ne. lia.
Qed.

(** Mapped addresses hold some bytes. *)
Lemma mapped_bytes m a n : 0 <= n -> mapped m a n -> exists l, zlen l = n /\ bytes_at m a l.
Proof.
  intros Hn. rewrite <- (Z2Nat.id n Hn). generalize (Z.to_nat n) as k. clear n Hn.
  intros k. revert a. induction k as [|k IH]; intros a H.
  - exists []. split; [done|]. by intros ??.
  - destruct (H a) as [b Hb]; [lia|].
    destruct (IH (a + 1)) as (l & Hl & Hat). { eapply mapped_sub; [exact H|lia..]. }
    exists (b :: l). split; [unfold zlen in *; cbn [length]; lia|]. by apply bytes_at_cons.
Qed.

Lemma bytes_at_lookup m a l x :
  bytes_at m a l -> a <= x < a + zlen l -> l !! Z.to_nat (x - a) = m !! x.
Proof.
  intros H Hx. unfold zlen in Hx.
  destruct (lookup_lt_is_Some_2 l (Z.to_nat (x - a))) as [b Hb]; [lia|].
  rewrite Hb. specialize (H _ _ Hb). by replace (a + Z.of_nat (Z.to_nat (x - a))) with x in H by lia.
Qed.

(** Copying a 64-bit word copies its eight bytes. *)
Lemma copy64 m s d l :
  bytes_at m s l -> length l = 8%nat -> Forall is_byte l -> mapped m d 8 ->
  (v ← load64 m s; store64 m d v) = Some (blit m d l).
Proof.
  intros Hs Hl Hb Hd. unfold load64. rewrite <- Hl, (load_bytes_at _ _ _ Hs).
  cbn [mbind option_bind]. unfold store64.
  rewrite Z_to_little_endian_to_Z; [|by rewrite Hl|lia|].
  - apply store_bytes_mapped; [|done]. unfold zlen. by rewrite Hl.
  - eapply Forall_impl; [exact Hb|]. intros b ?. done.
Qed.

Lemma store64_zero m a : mapped m a 8 -> store64 m a 0 = Some (blit m a (replicate 8 0)).
Proof.
  intros H. change (store64 m a 0) with (store_bytes m a (replicate 8 0)).
  apply store_bytes_mapped; [done|]. by repeat constructor.
Qed.

(** ** Strings *)

Lemma cstr_cons m a c l : cstr_at m a (c :: l) <-> m !! a = Some c /\ c ≠ 0 /\ cstr_at m (a + 1) l.
Proof.
  unfold cstr_at. cbn [app]. rewrite bytes_at_cons, not_elem_of_cons. naive_solver.
Qed.

Lemma cstr_nil m a : cstr_at m a [] <-> m !! a = Some 0.
Proof.
  unfold cstr_at. cbn [app]. rewrite bytes_at_cons. split; [naive_solver|]. intros H.
  split; [|set_solver]. split; [done|]. by intros ??.
Qed.

Lemma cstr_app m a l1 l2 :
  cstr_at m a (l1 ++ l2) <-> bytes_at m a l1 /\ 0 ∉ l1 /\ cstr_at m (a + zlen l1) l2.
Proof.
  unfold cstr_at. rewrite <- app_assoc, bytes_at_app. rewrite not_elem_of_app. naive_solver.
Qed.

(** The addresses of the bytes at one place are pairwise different, so there are at least as many
    mapped addresses as bytes: the measure of every loop that walks a string. *)
Lemma bytes_at_size m a l : bytes_at m a l -> (length l <= size m)%nat.
Proof.
  intros H. replace (length l) with (length (seqZ a (zlen l))) by (rewrite length_seqZ; unfold zlen; lia).
  rewrite <- (size_list_to_set (C := gset Z)) by apply NoDup_seqZ.
  rewrite <- size_dom. apply subseteq_size. intros x Hx.
  apply elem_of_list_to_set, elem_of_seqZ in Hx. apply elem_of_dom.
  apply (bytes_at_mapped _ _ _ H). lia.
Qed.

Lemma cstr_size m a l : cstr_at m a l -> (length l < size m)%nat.
Proof. intros [H _]. apply bytes_at_size in H. rewrite length_app in H. cbn in H. lia. Qed.
