(* ===== verification/KString.v ===== *)
(** * String functions of the kernel (kernel/lib/string.c)

    Memory and string functions over the byte memory of [ByteMem], with the 64-bit accesses of
    the aligned cases of memset and memcpy.  A [char] is signed on x86-64.  A loop bounded by a
    count runs on that count; a loop that walks a string up to its NUL has one more step than
    there are mapped addresses, which is enough because every step reads a new address: running
    out of steps means that the string leaves mapped memory. *)
From stdpp Require Import list_numbers.
From S2P Require Import Prelude Defs ByteMem.

(** ** The code: memory *)

Definition schar (b : Z) : Z := if b <? 128 then b else b - 256.

Definition NULL : Z := 0.

Fixpoint set_words (fuel : nat) (m : bytemem) (p64 n : Z) : option (bytemem * Z * Z) :=
  match fuel with
  | O => Some (m, p64, n)
  | S f => if 8 <=? n then m' ← store64 m p64 0; set_words f m' (p64 + 8) (n - 8)
           else Some (m, p64, n)
  end.

Fixpoint set_bytes (n : nat) (m : bytemem) (p val : Z) : option bytemem :=
  match n with
  | O => Some m
  | S n' => m' ← store m p val; set_bytes n' m' (p + 1) val
  end.

Definition memset (m : bytemem) (s c n : Z) : option (bytemem * Z) :=
  let val := u8 c in
  '(m1, p, n1) ← (if (val =? 0) && (8 <=? n) && IS_ALIGNED s 8
                  then set_words (Z.to_nat n) m s n else Some (m, s, n));
  m2 ← set_bytes (Z.to_nat n1) m1 p val;
  Some (m2, s).

Fixpoint copy_words (fuel : nat) (m : bytemem) (d64 s64 n : Z) : option (bytemem * Z * Z * Z) :=
  match fuel with
  | O => Some (m, d64, s64, n)
  | S f => if 8 <=? n then
             v ← load64 m s64; m' ← store64 m d64 v; copy_words f m' (d64 + 8) (s64 + 8) (n - 8)
           else Some (m, d64, s64, n)
  end.

Fixpoint copy_bytes (n : nat) (m : bytemem) (d s : Z) : option bytemem :=
  match n with
  | O => Some m
  | S n' => b ← m !! s; m' ← store m d b; copy_bytes n' m' (d + 1) (s + 1)
  end.

Definition memcpy (m : bytemem) (dest src n : Z) : option (bytemem * Z) :=
  '(m1, d, s, n1) ← (if IS_ALIGNED dest 8 && IS_ALIGNED src 8
                     then copy_words (Z.to_nat n) m dest src n else Some (m, dest, src, n));
  m2 ← copy_bytes (Z.to_nat n1) m1 d s;
  Some (m2, dest).

(** [while (n--) *--d = *--s;] *)
Fixpoint copy_back (n : nat) (m : bytemem) (d s : Z) : option bytemem :=
  match n with
  | O => Some m
  | S n' => b ← m !! (s - 1); m' ← store m (d - 1) b; copy_back n' m' (d - 1) (s - 1)
  end.

Definition memmove (m : bytemem) (dest src n : Z) : option (bytemem * Z) :=
  if (dest =? src) || (n =? 0) then Some (m, dest)
  else if (dest <? src) || (src + n <=? dest) then memcpy m dest src n
  else m' ← copy_back (Z.to_nat n) m (dest + n) (src + n); Some (m', dest).

Fixpoint cmp_bytes (n : nat) (m : bytemem) (p1 p2 : Z) : option Z :=
  match n with
  | O => Some 0
  | S n' => a ← m !! p1; b ← m !! p2;
            if a =? b then cmp_bytes n' m (p1 + 1) (p2 + 1) else Some (a - b)
  end.
Definition memcmp (m : bytemem) (s1 s2 n : Z) : option Z := cmp_bytes (Z.to_nat n) m s1 s2.

Fixpoint chr_bytes (n : nat) (m : bytemem) (p val : Z) : option Z :=
  match n with
  | O => Some NULL
  | S n' => b ← m !! p; if b =? val then Some p else chr_bytes n' m (p + 1) val
  end.
Definition memchr (m : bytemem) (s c n : Z) : option Z := chr_bytes (Z.to_nat n) m s (u8 c).

(** ** The code: strings *)

Definition walk_fuel (m : bytemem) : nat := S (size m).

(** [while ( *p ) p++;] *)
Fixpoint scan_nul (fuel : nat) (m : bytemem) (p : Z) : option Z :=
  match fuel with
  | O => None
  | S f => c ← m !! p; if c =? 0 then Some p else scan_nul f m (p + 1)
  end.

Definition strlen (m : bytemem) (s : Z) : option Z :=
  p ← scan_nul (walk_fuel m) m s; Some (p - s).

(** [while (maxlen-- && *p) p++;] *)
Fixpoint scan_max (maxlen : nat) (m : bytemem) (p : Z) : option Z :=
  match maxlen with
  | O => Some p
  | S k => c ← m !! p; if c =? 0 then Some p else scan_max k m (p + 1)
  end.

Definition strnlen (m : bytemem) (s maxlen : Z) : option Z :=
  p ← scan_max (Z.to_nat maxlen) m s; Some (p - s).

(** [while (( *d++ = *src++ )) ;] *)
Fixpoint copy_nul (fuel : nat) (m : bytemem) (d src : Z) : option bytemem :=
  match fuel with
  | O => None
  | S f => c ← m !! src; m' ← store m d c;
           if c =? 0 then Some m' else copy_nul f m' (d + 1) (src + 1)
  end.

Definition strcpy (m : bytemem) (dest src : Z) : option (bytemem * Z) :=
  m' ← copy_nul (walk_fuel m) m dest src; Some (m', dest).

(** [while (n && ( *d++ = *src++ )) n--;]: the remaining [n], and where [d] stops. *)
Fixpoint copy_max (n : nat) (m : bytemem) (d src : Z) : option (bytemem * Z * nat) :=
  match n with
  | O => Some (m, d, O)
  | S n' => c ← m !! src; m' ← store m d c;
            if c =? 0 then Some (m', d + 1, n) else copy_max n' m' (d + 1) (src + 1)
  end.

Definition strncpy (m : bytemem) (dest src n : Z) : option (bytemem * Z) :=
  '(m1, d, n1) ← copy_max (Z.to_nat n) m dest src;
  m2 ← set_bytes n1 m1 d 0;
  Some (m2, dest).

Definition strcat (m : bytemem) (dest src : Z) : option (bytemem * Z) :=
  d ← scan_nul (walk_fuel m) m dest;
  m' ← copy_nul (walk_fuel m) m d src;
  Some (m', dest).

Definition strncat (m : bytemem) (dest src n : Z) : option (bytemem * Z) :=
  d ← scan_nul (walk_fuel m) m dest;
  '(m1, d1, _) ← copy_max (Z.to_nat n) m d src;
  m2 ← store m1 d1 0;
  Some (m2, dest).

Fixpoint strcmp_loop (fuel : nat) (m : bytemem) (s1 s2 : Z) : option Z :=
  match fuel with
  | O => None
  | S f => a ← m !! s1;
           if a =? 0 then b ← m !! s2; Some (a - b)
           else b ← m !! s2; if a =? b then strcmp_loop f m (s1 + 1) (s2 + 1) else Some (a - b)
  end.
Definition strcmp (m : bytemem) (s1 s2 : Z) : option Z := strcmp_loop (walk_fuel m) m s1 s2.

Fixpoint strncmp_loop (n : nat) (m : bytemem) (s1 s2 : Z) : option Z :=
  match n with
  | O => Some 0
  | S n' => a ← m !! s1;
            if a =? 0 then b ← m !! s2; Some (a - b)
            else b ← m !! s2; if a =? b then strncmp_loop n' m (s1 + 1) (s2 + 1) else Some (a - b)
  end.
Definition strncmp (m : bytemem) (s1 s2 n : Z) : option Z := strncmp_loop (Z.to_nat n) m s1 s2.

Fixpoint strchr_loop (fuel : nat) (m : bytemem) (s ch c : Z) : option Z :=
  match fuel with
  | O => None
  | S f => b ← m !! s;
           if b =? 0 then Some (if c =? 0 then s else NULL)
           else if b =? ch then Some s else strchr_loop f m (s + 1) ch c
  end.
(** [char ch = (char)c]: the byte of [c]. *)
Definition strchr (m : bytemem) (s c : Z) : option Z := strchr_loop (walk_fuel m) m s (u8 c) c.

Fixpoint strrchr_loop (fuel : nat) (m : bytemem) (s ch c last : Z) : option Z :=
  match fuel with
  | O => None
  | S f => b ← m !! s;
           if b =? 0 then Some (if c =? 0 then s else last)
           else strrchr_loop f m (s + 1) ch c (if b =? ch then s else last)
  end.
Definition strrchr (m : bytemem) (s c : Z) : option Z :=
  strrchr_loop (walk_fuel m) m s (u8 c) c NULL.

Fixpoint strstr_loop (fuel : nat) (m : bytemem) (haystack needle needle_len : Z) : option Z :=
  match fuel with
  | O => None
  | S f => h ← m !! haystack;
           if h =? 0 then Some NULL
           else n0 ← m !! needle;
                if h =? n0 then
                  r ← strncmp m haystack needle needle_len;
                  if r =? 0 then Some haystack else strstr_loop f m (haystack + 1) needle needle_len
                else strstr_loop f m (haystack + 1) needle needle_len
  end.
Definition strstr (m : bytemem) (haystack needle : Z) : option Z :=
  needle_len ← strlen m needle;
  if needle_len =? 0 then Some haystack
  else strstr_loop (walk_fuel m) m haystack needle needle_len.

(** ** The code: numbers *)

(** A [long] result; overflow of signed arithmetic is undefined. *)
Definition long (x : Z) : option Z :=
  if (- 2 ^ 63 <=? x) && (x <? 2 ^ 63) then Some x else None.

Fixpoint skip_space (fuel : nat) (m : bytemem) (s : Z) : option Z :=
  match fuel with
  | O => None
  | S f => c ← m !! s;
           if (c =? 32) || (c =? 9) || (c =? 10) then skip_space f m (s + 1) else Some s
  end.

Definition digit_of (c : Z) : option Z :=
  if (48 <=? c) && (c <=? 57) then Some (c - 48)
  else if (97 <=? c) && (c <=? 122) then Some (c - 97 + 10)
  else if (65 <=? c) && (c <=? 90) then Some (c - 65 + 10)
  else None.

Fixpoint conv_digits (fuel : nat) (m : bytemem) (s base result : Z) : option (Z * Z) :=
  match fuel with
  | O => None
  | S f =>
      c ← m !! s;
      if c =? 0 then Some (result, s)
      else match digit_of (schar c) with
           | None => Some (result, s)
           | Some digit =>
               if base <=? digit then Some (result, s)
               else r ← long (result * base); r ← long (r + digit);
                    conv_digits f m (s + 1) base r
           end
  end.

(** The base prefix: the new base and position. *)
Definition base_prefix (m : bytemem) (s base : Z) : option (Z * Z) :=
  if base =? 0 then
    c ← m !! s;
    if c =? 48 then
      x ← m !! (s + 1);
      if (x =? 120) || (x =? 88) then Some (16, s + 2) else Some (8, s + 1)
    else Some (10, s)
  else if base =? 16 then
    c ← m !! s;
    if c =? 48 then
      x ← m !! (s + 1);
      if (x =? 120) || (x =? 88) then Some (16, s + 2) else Some (16, s)
    else Some (16, s)
  else Some (base, s).

(** The value, and what is stored through [endptr]. *)
Definition strtol (m : bytemem) (nptr base : Z) : option (Z * Z) :=
  s ← skip_space (walk_fuel m) m nptr;
  c ← m !! s;
  let negative := c =? 45 in
  let s := if (c =? 45) || (c =? 43) then s + 1 else s in
  '(base, s) ← base_prefix m s base;
  '(result, s) ← conv_digits (walk_fuel m) m s base 0;
  r ← (if negative then long (- result) else Some result);
  Some (r, s).

Definition strtoul (m : bytemem) (nptr base : Z) : option (Z * Z) :=
  '(r, e) ← strtol m nptr base; Some (u64 r, e).

(** [(int)x]: the low 32 bits, read as a signed number. *)
Definition int32 (x : Z) : Z := let y := u32 x in if y <? 2 ^ 31 then y else y - 2 ^ 32.

Definition atoi (m : bytemem) (s : Z) : option Z := '(r, _) ← strtol m s 10; Some (int32 r).

(** ** The code: characters *)

Definition isspace (c : Z) : bool :=
  (c =? 32) || (c =? 9) || (c =? 10) || (c =? 13) || (c =? 12) || (c =? 11).
Definition isdigit (c : Z) : bool := (48 <=? c) && (c <=? 57).
Definition isxdigit (c : Z) : bool :=
  isdigit c || ((97 <=? c) && (c <=? 102)) || ((65 <=? c) && (c <=? 70)).
Definition isalpha (c : Z) : bool := ((97 <=? c) && (c <=? 122)) || ((65 <=? c) && (c <=? 90)).
Definition isalnum (c : Z) : bool := isalpha c || isdigit c.
Definition isupper (c : Z) : bool := (65 <=? c) && (c <=? 90).
Definition islower (c : Z) : bool := (97 <=? c) && (c <=? 122).
Definition toupper (c : Z) : Z := if islower c then c - 97 + 65 else c.
Definition tolower (c : Z) : Z := if isupper c then c - 65 + 97 else c.
Definition isprint (c : Z) : bool := (32 <=? c) && (c <=? 126).

(** ** Memory functions *)

#[local] Ltac bind := cbn [mbind option_bind].

Lemma set_bytes_ok n m p v :
  mapped m p (Z.of_nat n) -> is_byte v -> set_bytes n m p v = Some (blit m p (replicate n v)).
Proof.
  revert m p. induction n as [|n IH]; intros m p Hm Hv; [done|]. cbn [set_bytes replicate blit].
  rewrite store_mapped by (try done; apply Hm; lia). bind.
  apply IH; [|done]. apply mapped_insert. eapply mapped_sub; [exact Hm|lia..].
Qed.

(** When all but the last byte are mapped, the last decides. *)
Lemma set_bytes_last k m p v :
  mapped m p (Z.of_nat k) -> is_byte v ->
  set_bytes (S k) m p v =
    if decide (is_Some (m !! (p + Z.of_nat k))) then Some (blit m p (replicate (S k) v)) else None.
Proof.
  revert m p. induction k as [|k IH]; intros m p Hm Hv.
  - rewrite Z.add_0_r. cbn [set_bytes]. case_decide as Hx; [by rewrite store_mapped|].
    unfold store. destruct (m !! p); [exfalso; eauto|done].
  - change (set_bytes (S (S k)) m p v) with (m' ← store m p v; set_bytes (S k) m' (p + 1) v).
    rewrite store_mapped by (try done; apply Hm; lia). bind.
    rewrite IH; [|apply mapped_insert; eapply mapped_sub; [exact Hm|lia..]|done].
    rewrite lookup_insert_ne by lia. by replace (p + 1 + Z.of_nat k) with (p + Z.of_nat (S k)) by lia.
Qed.

(** The word loop of memset zeroes some prefix and leaves the rest, less than a word, to the byte
    loop. *)
Lemma set_words_ok fuel m p n :
  0 <= n -> mapped m p n ->
  exists k, 0 <= n - Z.of_nat k /\
    set_words fuel m p n
    = Some (blit m p (replicate k 0), p + Z.of_nat k, n - Z.of_nat k).
Proof.
  revert m p n. induction fuel as [|f IH]; intros m p n Hn Hm; cbn [set_words].
  - exists O. split; [lia|]. by rewrite Z.add_0_r, Z.sub_0_r.
  - destruct (Z.leb_spec 8 n) as [H8|H8].
    2:{ exists O. split; [lia|]. by rewrite Z.add_0_r, Z.sub_0_r. }
    rewrite store64_zero by (eapply mapped_sub; [exact Hm|lia..]). bind.
    destruct (IH (blit m p (replicate 8 0)) (p + 8) (n - 8)) as (k & Hk & ->); [lia| |].
    { apply mapped_blit. eapply mapped_sub; [exact Hm|lia..]. }
    exists (8 + k)%nat. split; [lia|]. rewrite replicate_add, blit_app, zlen_replicate.
    replace (p + 8 + Z.of_nat k) with (p + Z.of_nat (8 + k)) by lia.
    by replace (n - 8 - Z.of_nat k) with (n - Z.of_nat (8 + k)) by lia.
Qed.

Lemma memset_ok m s c n :
  0 <= n -> mapped m s n ->
  memset m s c n = Some (blit m s (replicate (Z.to_nat n) (u8 c)), s).
Proof.
  intros Hn Hm. assert (is_byte (u8 c)) as Hb by (apply (wrap_fits 8); lia). unfold memset.
  destruct ((u8 c =? 0) && (8 <=? n) && IS_ALIGNED s 8) eqn:E; bind.
  - apply andb_true_iff in E as [[->%Z.eqb_eq _]%andb_true_iff _].
    destruct (set_words_ok (Z.to_nat n) m s n Hn Hm) as (k & Hk & ->). bind.
    rewrite set_bytes_ok; [|apply mapped_blit; eapply mapped_sub; [exact Hm|lia..]|done]. bind.
    do 2 f_equal. rewrite <- (zlen_replicate k 0), <- blit_app, <- replicate_add. do 2 f_equal.
    rewrite zlen_replicate. lia.
  - rewrite set_bytes_ok by (try done; by rewrite Z2Nat.id). done.
Qed.

(** Copying forwards is right when the destination does not start inside the source, or starts
    at or before it. *)
Definition forward_ok (d s n : Z) : Prop := d <= s \/ s + n <= d.

Lemma copy_bytes_ok l m d s :
  bytes_at m s l -> Forall is_byte l -> mapped m d (zlen l) -> forward_ok d s (zlen l) ->
  copy_bytes (length l) m d s = Some (blit m d l).
Proof.
  unfold forward_ok. revert m d s. induction l as [|b l IH]; intros m d s Hs Hb Hd Hf; [done|].
  apply bytes_at_cons in Hs as [H0 Hs]. apply Forall_cons in Hb as [Hb Hbl].
  rewrite zlen_cons in *. pose proof (zlen_nonneg l). cbn [length copy_bytes blit]. rewrite H0. bind.
  rewrite store_mapped by (try done; apply Hd; lia). bind. apply IH; [|done| |lia].
  - apply bytes_at_insert; [done|lia].
  - apply mapped_insert. eapply mapped_sub; [exact Hd|lia..].
Qed.

Lemma copy_words_ok fuel l m d s :
  bytes_at m s l -> Forall is_byte l -> mapped m d (zlen l) -> forward_ok d s (zlen l) ->
  exists l1 l2, l = l1 ++ l2 /\
    copy_words fuel m d s (zlen l) = Some (blit m d l1, d + zlen l1, s + zlen l1, zlen l2).
Proof.
  unfold forward_ok. revert l m d s.
  induction fuel as [|f IH]; intros l m d s Hs Hb Hd Hf; cbn [copy_words].
  { exists [], l. split; [done|]. by rewrite !Z.add_0_r. }
  destruct (Z.leb_spec 8 (zlen l)) as [H8|H8].
  2:{ exists [], l. split; [done|]. by rewrite !Z.add_0_r. }
  rewrite <- (take_drop 8 l) in Hs, Hb. apply bytes_at_app in Hs as [Hs1 Hs2].
  apply Forall_app in Hb as [Hb1 Hb2].
  assert (length (take 8 l) = 8%nat) as Hl8 by (rewrite length_take; unfold zlen in H8; lia).
  assert (zlen (take 8 l) = 8) as Hz8 by (unfold zlen; lia).
  assert (zlen (drop 8 l) = zlen l - 8) as Hzd by (unfold zlen; rewrite length_drop; unfold zlen in H8; lia).
  rewrite Hz8 in Hs2.
  pose proof (copy64 m s d _ Hs1 Hl8 Hb1 ltac:(eapply mapped_sub; [exact Hd|lia..])) as Hc.
  destruct (load64 m s) as [v|]; [|done]. cbn [mbind option_bind] in Hc |- *. rewrite Hc. bind.
  destruct (IH (drop 8 l) (blit m d (take 8 l)) (d + 8) (s + 8)) as (l1 & l2 & El & Ew);
    [|done| | |].
  - apply bytes_at_blit_other; [done|]. rewrite Hz8. lia.
  - apply mapped_blit. eapply mapped_sub; [exact Hd|lia..].
  - lia.
  - exists (take 8 l ++ l1), l2. split; [by rewrite <- app_assoc, <- El, take_drop|].
    rewrite Hzd in Ew. rewrite Ew, blit_app, zlen_app, Hz8.
    by rewrite !Z.add_assoc.
Qed.

Lemma memcpy_ok l m d s :
  bytemem_ok m -> bytes_at m s l -> mapped m d (zlen l) -> forward_ok d s (zlen l) ->
  memcpy m d s (zlen l) = Some (blit m d l, d).
Proof.
  intros Hm Hs Hd Hf. pose proof (bytes_at_bytes _ _ _ Hm Hs) as Hb. unfold memcpy.
  destruct (IS_ALIGNED d 8 && IS_ALIGNED s 8); bind.
  - destruct (copy_words_ok (Z.to_nat (zlen l)) l m d s) as (l1 & l2 & -> & ->); [done..|]. bind.
    apply bytes_at_app in Hs as [Hs1 Hs2]. apply Forall_app in Hb as [Hb1 Hb2].
    unfold forward_ok in *. rewrite zlen_app in *.
    pose proof (zlen_nonneg l1). pose proof (zlen_nonneg l2).
    rewrite zlen_to_nat, copy_bytes_ok; [by rewrite blit_app|..]; [|done| |].
    + apply bytes_at_blit_other; [done|lia].
    + apply mapped_blit. eapply mapped_sub; [exact Hd|lia..].
    + unfold forward_ok. lia.
  - by rewrite zlen_to_nat, copy_bytes_ok.
Qed.

Lemma copy_back_ok l m d s :
  bytes_at m s l -> Forall is_byte l -> mapped m d (zlen l) -> s <= d ->
  copy_back (length l) m (d + zlen l) (s + zlen l) = Some (blit m d l).
Proof.
  revert m. induction l as [|b l IH] using rev_ind; intros m Hs Hb Hd Hlt; [done|].
  apply bytes_at_app in Hs as [Hs [H0 _]%bytes_at_cons]. apply Forall_app in Hb as [Hb [Hb0 _]%Forall_cons].
  rewrite zlen_app, length_app in *. change (zlen [b]) with 1 in *. pose proof (zlen_nonneg l).
  rewrite Nat.add_1_r. cbn [copy_back].
  replace (s + (zlen l + 1) - 1) with (s + zlen l) by lia.
  replace (d + (zlen l + 1) - 1) with (d + zlen l) by lia.
  rewrite H0. bind. rewrite store_mapped by (try done; apply Hd; lia). bind.
  rewrite IH; [by rewrite blit_snoc'| |done| |done].
  - apply bytes_at_insert; [done|lia].
  - apply mapped_insert. eapply mapped_sub; [exact Hd|lia..].
Qed.

Lemma memmove_ok l m d s :
  bytemem_ok m -> bytes_at m s l -> mapped m d (zlen l) ->
  memmove m d s (zlen l) = Some (blit m d l, d).
Proof.
  intros Hm Hs Hd. unfold memmove. pose proof (zlen_nonneg l).
  destruct (Z.eqb_spec d s) as [->|Hne]; [by rewrite blit_same|]. cbn [orb].
  destruct (Z.eqb_spec (zlen l) 0) as [E|E].
  { destruct l; [done|]. unfold zlen in E. cbn [length] in E. lia. }
  destruct ((d <? s) || (s + zlen l <=? d)) eqn:Ef.
  - apply memcpy_ok; [done..|]. unfold forward_ok. apply orb_true_iff in Ef. lia.
  - apply orb_false_iff in Ef as [Ed _]. rewrite zlen_to_nat, copy_back_ok; [done|done|by eapply bytes_at_bytes|done|lia].
Qed.

(** ** Walking a string *)

Section walks.
  Context (m : bytemem) (a : Z) (l : list Z) (Hl : cstr_at m a l).

Lemma scan_nul_ok fuel : (length l < fuel)%nat -> scan_nul fuel m a = Some (a + zlen l).
  Proof using Hl.
    revert a fuel Hl. clear. induction l as [|c l' IH]; intros a [|f] H Hf; cbn [length] in Hf; try lia;
      cbn [scan_nul].
    - apply cstr_nil in H. rewrite H. bind. change (zlen []) with 0. by rewrite Z.add_0_r.
    - apply cstr_cons in H as (H0 & Hc & H). rewrite H0. bind. rewrite (proj2 (Z.eqb_neq _ _) Hc).
      rewrite (IH (a + 1) f H) by lia. rewrite zlen_cons. f_equal. lia.
  Qed.

Lemma walk_fuel_ok : (length l < walk_fuel m)%nat.
  Proof using Hl. pose proof (cstr_size _ _ _ Hl). unfold walk_fuel. lia. Qed.

Lemma strlen_ok : strlen m a = Some (zlen l).
  Proof using Hl.
    unfold strlen. rewrite (scan_nul_ok _ walk_fuel_ok). bind. f_equal. lia.
  Qed.

Lemma strnlen_ok n : 0 <= n -> strnlen m a n = Some (Z.min (zlen l) n).
  Proof using Hl.
    intros Hn. unfold strnlen.
    enough (forall k, scan_max k m a = Some (a + Z.min (zlen l) (Z.of_nat k))) as E.
    { rewrite E. bind. f_equal. lia. }
    clear n Hn. intros k. revert a l Hl. clear. induction k as [|k IH]; intros a l Hl; cbn [scan_max].
    - f_equal. pose proof (zlen_nonneg l). lia.
    - destruct l as [|c l].
      + apply cstr_nil in Hl. rewrite Hl. bind. f_equal. change (zlen []) with 0. lia.
      + apply cstr_cons in Hl as (H0 & Hc & H). rewrite H0. bind. rewrite (proj2 (Z.eqb_neq _ _) Hc).
        rewrite (IH _ _ H), zlen_cons. f_equal. lia.
  Qed.
End walks.

(** Conversely, only a string ends the walk. *)
Lemma scan_nul_inv fuel m a p :
  scan_nul fuel m a = Some p -> exists l, cstr_at m a l /\ p = a + zlen l.
Proof.
  revert a. induction fuel as [|f IH]; intros a H; [done|]. cbn [scan_nul] in H.
  destruct (m !! a) as [c|] eqn:E; [|done]. cbn [mbind option_bind] in H.
  destruct (Z.eqb_spec c 0) as [->|Hc].
  - simplify_eq. exists []. split; [by apply cstr_nil|]. change (zlen []) with 0. lia.
  - destruct (IH _ H) as (l & Hl & ->). exists (c :: l). split; [by apply cstr_cons|].
    rewrite zlen_cons. lia.
Qed.

(** ** Copying strings *)

Lemma copy_nul_ok fuel l m d s :
  bytemem_ok m -> cstr_at m s l -> mapped m d (zlen l + 1) -> forward_ok d s (zlen l + 1) ->
  (length l < fuel)%nat -> copy_nul fuel m d s = Some (blit m d (l ++ [0])).
Proof.
  unfold forward_ok. revert m d s fuel.
  induction l as [|c l IH]; intros m d s [|f] Hm Hs Hd Hf Hfu; cbn [length] in Hfu; try lia;
    cbn [copy_nul].
  - apply cstr_nil in Hs. rewrite Hs. bind. rewrite store_mapped; [done| |done].
    apply Hd. change (zlen []) with 0. lia.
  - apply cstr_cons in Hs as (H0 & Hc & Hs). rewrite H0. bind. rewrite zlen_cons in *.
    pose proof (zlen_nonneg l). pose proof (Hm _ _ H0) as Hb.
    rewrite store_mapped by (try done; apply Hd; lia). bind. rewrite (proj2 (Z.eqb_neq _ _) Hc).
    apply IH; [by apply map_Forall_insert_2| | |lia|lia].
    + destruct Hs as [Hs ?]. split; [|done]. apply bytes_at_insert; [done|].
      rewrite zlen_app. change (zlen [0]) with 1. lia.
    + apply mapped_insert. eapply mapped_sub; [exact Hd|lia..].
Qed.

Lemma copy_max_short n l m d s :
  bytemem_ok m -> cstr_at m s l -> mapped m d (zlen l + 1) -> forward_ok d s (zlen l + 1) ->
  (length l < n)%nat ->
  copy_max n m d s = Some (blit m d (l ++ [0]), d + zlen l + 1, (n - length l)%nat).
Proof.
  unfold forward_ok. revert m d s n.
  induction l as [|c l IH]; intros m d s [|n] Hm Hs Hd Hf Hn; cbn [length] in Hn; try lia;
    cbn [copy_max].
  - apply cstr_nil in Hs. rewrite Hs. bind. change (zlen []) with 0 in *.
    rewrite store_mapped; [|apply Hd; lia|done]. bind. by rewrite Z.add_0_r.
  - apply cstr_cons in Hs as (H0 & Hc & Hs). rewrite H0. bind. rewrite zlen_cons in *.
    pose proof (zlen_nonneg l). pose proof (Hm _ _ H0) as Hb.
    rewrite store_mapped by (try done; apply Hd; lia). bind. rewrite (proj2 (Z.eqb_neq _ _) Hc).
    rewrite IH; [|by apply map_Forall_insert_2| | |lia|lia].
    + cbn [app blit length]. by replace (d + 1 + zlen l + 1) with (d + (zlen l + 1) + 1) by lia.
    + destruct Hs as [Hs ?]. split; [|done]. apply bytes_at_insert; [done|].
      rewrite zlen_app. change (zlen [0]) with 1. lia.
    + apply mapped_insert. eapply mapped_sub; [exact Hd|lia..].
Qed.

Lemma copy_max_long l m d s :
  bytemem_ok m -> bytes_at m s l -> 0 ∉ l -> mapped m d (zlen l) -> forward_ok d s (zlen l) ->
  copy_max (length l) m d s = Some (blit m d l, d + zlen l, O).
Proof.
  unfold forward_ok. revert m d s. induction l as [|c l IH]; intros m d s Hm Hs Hnz Hd Hf.
  - cbn. change (zlen []) with 0. by rewrite Z.add_0_r.
  - apply bytes_at_cons in Hs as [H0 Hs]. apply not_elem_of_cons in Hnz as [Hc Hnz].
    rewrite zlen_cons in *. pose proof (zlen_nonneg l). pose proof (Hm _ _ H0) as Hb.
    cbn [length copy_max]. rewrite H0. bind.
    rewrite store_mapped by (try done; apply Hd; lia). bind. rewrite (proj2 (Z.eqb_neq c 0)) by congruence.
    rewrite IH; [|by apply map_Forall_insert_2| |done| |lia].
    + cbn [blit]. by replace (d + 1 + zlen l) with (d + (zlen l + 1)) by lia.
    + apply bytes_at_insert; [done|lia].
    + apply mapped_insert. eapply mapped_sub; [exact Hd|lia..].
Qed.

(** ** Comparing *)

(** The difference of the first bytes in which two strings differ, their terminating NULs
    included. *)
Fixpoint lex_diff (l1 l2 : list Z) : Z :=
  match l1, l2 with
  | [], [] => 0
  | [], b :: _ => - b
  | a :: _, [] => a
  | a :: l1', b :: l2' => if a =? b then lex_diff l1' l2' else a - b
  end.

(** The lexicographic order. *)
Definition lex_lt (l1 l2 : list Z) : Prop :=
  exists p, (exists b r, l1 = p /\ l2 = p ++ b :: r) \/
            (exists a b r1 r2, l1 = p ++ a :: r1 /\ l2 = p ++ b :: r2 /\ a < b).

Definition char_ok (c : Z) : Prop := 0 < c < 256.

Lemma cstr_chars m a l : bytemem_ok m -> cstr_at m a l -> Forall char_ok l.
Proof.
  intros Hm [H Hnz]. apply bytes_at_app in H as [H _]. pose proof (bytes_at_bytes _ _ _ Hm H) as Hb.
  rewrite Forall_forall in Hb |- *. intros c Hc. specialize (Hb c Hc). unfold is_byte in Hb.
  unfold char_ok. enough (c ≠ 0) by lia. intros ->. done.
Qed.

Lemma lex_diff_zero l1 l2 :
  Forall char_ok l1 -> Forall char_ok l2 -> lex_diff l1 l2 = 0 <-> l1 = l2.
Proof.
  revert l2. induction l1 as [|a l1 IH]; intros [|b l2] H1 H2; cbn [lex_diff]; [done|..];
    rewrite ?Forall_cons in *; unfold char_ok in *; [split; [lia|done]|split; [lia|done]|].
  destruct (Z.eqb_spec a b) as [->|Hab].
  - rewrite IH by tauto. split; [by intros ->|by intros [=]].
  - split; [lia|congruence].
Qed.

Lemma lex_lt_cons c l1 l2 : lex_lt (c :: l1) (c :: l2) <-> lex_lt l1 l2.
Proof.
  split.
  - intros [p [(b & r & <- & E)|(a & b & r1 & r2 & E1 & E2 & Hab)]].
    + simplify_eq/=. exists l1. left. eauto.
    + destruct p as [|x p]; simplify_eq/=; [lia|]. exists p. right. eauto 10.
  - intros [p [(b & r & <- & ->)|(a & b & r1 & r2 & -> & -> & Hab)]].
    + exists (c :: l1). left. eauto.
    + exists (c :: p). right. exists a, b, r1, r2. eauto.
Qed.

Lemma lex_diff_neg l1 l2 :
  Forall char_ok l1 -> Forall char_ok l2 -> lex_diff l1 l2 < 0 <-> lex_lt l1 l2.
Proof.
  revert l2. induction l1 as [|a l1 IH]; intros [|b l2] H1 H2; cbn [lex_diff];
    rewrite ?Forall_cons in *; unfold char_ok in *.
  - split; [lia|]. intros [p [(b & r & <- & E)|(a & b & r1 & r2 & E & _)]]; [done|by destruct p].
  - split; [|lia]. intros _. exists []. left. eauto.
  - split; [lia|]. intros [p [(c & r & <- & E)|(x & c & r1 & r2 & _ & E & _)]]; [done|by destruct p].
  - destruct (Z.eqb_spec a b) as [->|Hab]; [rewrite IH, lex_lt_cons by tauto; done|]. split.
    + intros Hlt. exists []. right. exists a, b, l1, l2. split_and!; [done..|lia].
    + intros [p [(c & r & <- & E)|(x & c & r1 & r2 & E1 & E2 & Hxc)]]; [by simplify_eq/=|].
      destruct p; simplify_eq/=; lia.
Qed.

Lemma strcmp_loop_ok fuel m s1 s2 l1 l2 :
  cstr_at m s1 l1 -> cstr_at m s2 l2 -> (length l1 < fuel)%nat ->
  strcmp_loop fuel m s1 s2 = Some (lex_diff l1 l2).
Proof.
  revert s1 s2 l2 fuel.
  induction l1 as [|a l1 IH]; intros s1 s2 l2 [|f] H1 H2 Hf; cbn [length] in Hf; try lia;
    cbn [strcmp_loop].
  - apply cstr_nil in H1. rewrite H1. bind.
    destruct l2 as [|b l2]; [apply cstr_nil in H2|apply cstr_cons in H2 as [H2 _]]; by rewrite H2.
  - apply cstr_cons in H1 as (H0 & Ha & H1). rewrite H0. bind. rewrite (proj2 (Z.eqb_neq _ _) Ha).
    destruct l2 as [|b l2].
    + apply cstr_nil in H2. rewrite H2. bind. rewrite (proj2 (Z.eqb_neq _ _) Ha). by rewrite Z.sub_0_r.
    + apply cstr_cons in H2 as (H2' & Hb & H2). rewrite H2'. bind. cbn [lex_diff].
      destruct (a =? b); [|done]. apply IH; [done..|lia].
Qed.

Lemma strncmp_loop_ok n m s1 s2 l1 l2 :
  cstr_at m s1 l1 -> cstr_at m s2 l2 ->
  strncmp_loop n m s1 s2 = Some (lex_diff (take n l1) (take n l2)).
Proof.
  revert s1 s2 l1 l2. induction n as [|n IH]; intros s1 s2 l1 l2 H1 H2; [done|]. cbn [strncmp_loop].
  destruct l1 as [|a l1].
  - apply cstr_nil in H1. rewrite H1. bind.
    destruct l2 as [|b l2]; [apply cstr_nil in H2|apply cstr_cons in H2 as [H2 _]]; by rewrite H2.
  - apply cstr_cons in H1 as (H0 & Ha & H1). rewrite H0. bind. rewrite (proj2 (Z.eqb_neq _ _) Ha).
    destruct l2 as [|b l2].
    + apply cstr_nil in H2. rewrite H2. bind. rewrite (proj2 (Z.eqb_neq _ _) Ha). by rewrite Z.sub_0_r.
    + apply cstr_cons in H2 as (H2' & Hb & H2). rewrite H2'. bind. cbn [take lex_diff].
      destruct (a =? b); [|done]. by apply IH.
Qed.

Lemma cmp_bytes_ok l1 l2 m s1 s2 :
  bytes_at m s1 l1 -> bytes_at m s2 l2 -> length l1 = length l2 ->
  cmp_bytes (length l1) m s1 s2 = Some (lex_diff l1 l2).
Proof.
  revert l2 s1 s2. induction l1 as [|a l1 IH]; intros [|b l2] s1 s2 H1 H2 Hl; try done.
  apply bytes_at_cons in H1 as [H1' H1]. apply bytes_at_cons in H2 as [H2' H2].
  cbn [length cmp_bytes lex_diff]. rewrite H1'. bind. rewrite H2'. bind.
  destruct (a =? b); [|done]. apply IH; [done..|]. by injection Hl.
Qed.

(** ** Searching *)

(** [i] is the first index at which [P] holds of the rest of [l]. *)
Definition first_at (P : list Z -> Prop) (l : list Z) (i : nat) : Prop :=
  (i < length l)%nat /\ P (drop i l) /\ forall j, (j < i)%nat -> ~ P (drop j l).

Lemma first_at_cons P c l i : ~ P (c :: l) -> first_at P l i -> first_at P (c :: l) (S i).
Proof.
  intros Hc (Hi & HP & Hj). split_and!; [cbn; lia|done|]. intros [|j] Hlt; [done|]. apply Hj. lia.
Qed.

Definition search_result (P : list Z -> Prop) (l : list Z) (s r : Z) : Prop :=
  (exists i, r = s + Z.of_nat i /\ first_at P l i) \/
  (r = NULL /\ forall i, (i < length l)%nat -> ~ P (drop i l)).

Lemma search_here (P : list Z -> Prop) c l s : P (c :: l) -> search_result P (c :: l) s s.
Proof. intros H. left. exists O. split; [lia|]. split_and!; [cbn; lia|done|lia]. Qed.

Lemma search_nil P s : search_result P [] s NULL.
Proof. right. split; [done|]. intros i Hi. cbn in Hi. lia. Qed.

Lemma search_next (P : list Z -> Prop) c l s r :
  ~ P (c :: l) -> search_result P l (s + 1) r -> search_result P (c :: l) s r.
Proof.
  intros Hc [(i & -> & Hf)|[-> Hn]].
  - left. exists (S i). split; [lia|]. by apply first_at_cons.
  - right. split; [done|]. intros [|i] Hi; [done|]. apply Hn. cbn in Hi. lia.
Qed.

(** The rest starts with the byte [b]. *)
Definition starts (b : Z) (r : list Z) : Prop := head r = Some b.

Lemma strchr_loop_ok fuel m s l ch c :
  cstr_at m s l -> (length l < fuel)%nat -> c ≠ 0 ->
  exists r, strchr_loop fuel m s ch c = Some r /\ search_result (starts ch) l s r.
Proof.
  revert s fuel. induction l as [|b l IH]; intros s [|f] Hs Hf Hc; cbn [length] in Hf; try lia;
    cbn [strchr_loop].
  - apply cstr_nil in Hs. rewrite Hs. bind. rewrite (proj2 (Z.eqb_neq _ _) Hc).
    eexists. split; [done|apply search_nil].
  - apply cstr_cons in Hs as (H0 & Hb & Hs). rewrite H0. bind. rewrite (proj2 (Z.eqb_neq _ _) Hb).
    destruct (Z.eqb_spec b ch) as [->|Hne].
    + eexists. split; [done|]. by apply search_here.
    + destruct (IH _ f Hs ltac:(lia) Hc) as (r & -> & Hr). eexists. split; [done|].
      apply search_next; [|done]. unfold starts. cbn. congruence.
Qed.

Lemma chr_bytes_ok l m s v :
  bytes_at m s l ->
  exists r, chr_bytes (length l) m s v = Some r /\ search_result (starts v) l s r.
Proof.
  revert s. induction l as [|b l IH]; intros s Hs; cbn [length chr_bytes].
  - eexists. split; [done|apply search_nil].
  - apply bytes_at_cons in Hs as [H0 Hs]. rewrite H0. bind. destruct (Z.eqb_spec b v) as [->|Hne].
    + eexists. split; [done|]. by apply search_here.
    + destruct (IH _ Hs) as (r & -> & Hr). eexists. split; [done|].
      apply search_next; [|done]. unfold starts. cbn. congruence.
Qed.

(** A NUL is found at the end. *)
Lemma strchr_nul fuel m s l ch :
  cstr_at m s l -> (length l < fuel)%nat -> Forall (fun b => b ≠ ch) l ->
  strchr_loop fuel m s ch 0 = Some (s + zlen l).
Proof.
  revert s fuel. induction l as [|b l IH]; intros s [|f] Hs Hf Hch; cbn [length] in Hf; try lia;
    cbn [strchr_loop].
  - apply cstr_nil in Hs. rewrite Hs. bind. change (zlen []) with 0. by rewrite Z.add_0_r.
  - apply cstr_cons in Hs as (H0 & Hb & Hs). apply Forall_cons in Hch as [Hbc Hch]. rewrite H0. bind.
    rewrite (proj2 (Z.eqb_neq _ _) Hb), (proj2 (Z.eqb_neq _ _) Hbc).
    rewrite (IH _ f) by (done || lia). rewrite zlen_cons. f_equal. lia.
Qed.

(** The last occurrence, or [last] when there is none. *)
Lemma strrchr_loop_ok fuel m s l ch c last :
  cstr_at m s l -> (length l < fuel)%nat -> c ≠ 0 ->
  exists r, strrchr_loop fuel m s ch c last = Some r /\
    ((exists i, r = s + Z.of_nat i /\ l !! i = Some ch /\
        forall j, (i < j)%nat -> l !! j ≠ Some ch) \/
     (r = last /\ ch ∉ l)).
Proof.
  revert s fuel last.
  induction l as [|b l IH]; intros s [|f] last Hs Hf Hc; cbn [length] in Hf; try lia;
    cbn [strrchr_loop].
  - apply cstr_nil in Hs. rewrite Hs. bind. rewrite (proj2 (Z.eqb_neq _ _) Hc).
    eexists. split; [done|]. right. split; [done|apply not_elem_of_nil].
  - apply cstr_cons in Hs as (H0 & Hb & Hs). rewrite H0. bind. rewrite (proj2 (Z.eqb_neq _ _) Hb).
    destruct (IH _ f (if b =? ch then s else last) Hs ltac:(lia) Hc) as (r & -> & Hr).
    eexists. split; [done|]. destruct Hr as [(i & -> & Hi & Hj)|[-> Hn]].
    + left. exists (S i). split_and!; [lia|done|]. intros [|j] Hlt; [lia|]. apply Hj. lia.
    + destruct (Z.eqb_spec b ch) as [->|Hne].
      * left. exists O. split_and!; [lia|done|]. intros [|j] Hlt; [lia|].
        cbn. intros Hl. by apply list_elem_of_lookup_2 in Hl.
      * right. split; [done|]. rewrite not_elem_of_cons. split; [congruence|done].
Qed.

Lemma take_prefix_iff {A} (n h : list A) : take (length n) h = n <-> n `prefix_of` h.
Proof.
  split; [intros <-; apply prefix_take|]. intros [k ->]. by rewrite take_app_length.
Qed.

Lemma strncmp_prefix m s1 s2 h n :
  bytemem_ok m -> cstr_at m s1 h -> cstr_at m s2 n ->
  exists r, strncmp m s1 s2 (zlen n) = Some r /\ (r = 0 <-> n `prefix_of` h).
Proof.
  intros Hm H1 H2. unfold strncmp. rewrite (strncmp_loop_ok _ _ _ _ _ _ H1 H2), zlen_to_nat.
  eexists. split; [done|]. rewrite (take_ge n) by lia. rewrite lex_diff_zero; [apply take_prefix_iff|..].
  - apply Forall_take. by eapply cstr_chars.
  - by eapply cstr_chars.
Qed.

Lemma strstr_loop_ok fuel m s h p n c0 n0 :
  bytemem_ok m -> cstr_at m s h -> cstr_at m p n -> n = c0 :: n0 -> (length h < fuel)%nat ->
  exists r, strstr_loop fuel m s p (zlen n) = Some r /\
    search_result (fun r => n `prefix_of` r) h s r.
Proof.
  intros Hm Hs Hp En. revert s fuel Hs.
  induction h as [|b h IH]; intros s [|f] Hs Hf; cbn [length] in Hf; try lia; cbn [strstr_loop].
  - apply cstr_nil in Hs. rewrite Hs. bind. eexists. split; [done|apply search_nil].
  - pose proof Hs as Hs'. apply cstr_cons in Hs as (H0 & Hb & Hs). rewrite H0. bind.
    rewrite (proj2 (Z.eqb_neq _ _) Hb). pose proof Hp as Hp'. rewrite En in Hp'.
    apply cstr_cons in Hp' as (Hp0 & _ & _). rewrite Hp0. bind.
    destruct (IH _ f Hs ltac:(lia)) as (r & Er & Hr). destruct (Z.eqb_spec b c0) as [->|Hne].
    + destruct (strncmp_prefix m s p _ n Hm Hs' Hp) as (d & -> & Hd). bind.
      destruct (Z.eqb_spec d 0) as [E|E].
      * eexists. split; [done|]. apply search_here. by apply Hd.
      * exists r. split; [done|]. apply search_next; [|done]. by rewrite <- Hd.
    + exists r. split; [done|]. apply search_next; [|done]. rewrite En. intros Hpre.
      apply prefix_cons_inv_1 in Hpre. congruence.
Qed.

(** ** What the functions promise *)

(** memmove copies [n] bytes as they were before the call, however source and destination
    overlap, changes nothing else and returns the destination; memcpy does the same whenever the
    destination does not start strictly inside the source.  The 64-bit accesses of the aligned
    case make no difference. *)
Theorem memmove_spec m d s n :
  bytemem_ok m -> 0 <= n -> mapped m s n -> mapped m d n ->
  exists m', memmove m d s n = Some (m', d) /\
    (forall x, m' !! x = if decide (d <= x < d + n) then m !! (x - d + s) else m !! x) /\
    (forward_ok d s n -> memcpy m d s n = Some (m', d)).
Proof.
  intros Hm Hn Hs Hd. destruct (mapped_bytes m s n Hn Hs) as (l & <- & Hl).
  exists (blit m d l). split_and!; [by apply memmove_ok| |by apply memcpy_ok].
  intros x. rewrite blit_lookup. case_decide; [|done].
  rewrite <- (bytes_at_lookup m s l (x - d + s)) by (done || lia). do 2 f_equal. lia.
Qed.

Definition memmove_example : bytemem :=
  list_to_map (zip (seqZ 4096 16) [1; 2; 3; 4; 5; 6; 7; 8; 9; 10; 11; 12; 13; 14; 15; 16]).

Lemma mapped_dec_ok m a n :
  forallb (fun x => bool_decide (is_Some (m !! x))) (seqZ a n) = true -> mapped m a n.
Proof.
  rewrite forallb_forall. intros H x Hx. specialize (H x).
  rewrite <- list_elem_of_In in H. specialize (H (proj2 (elem_of_seqZ _ _ _) Hx)).
  by apply bool_decide_eq_true in H.
Qed.

Lemma bytemem_ok_dec_ok m :
  forallb (fun p => (0 <=? p.2) && (p.2 <? 256)) (map_to_list m) = true -> bytemem_ok m.
Proof.
  rewrite forallb_forall. intros H a b Hb. specialize (H (a, b)).
  rewrite <- list_elem_of_In in H. specialize (H (proj2 (elem_of_map_to_list _ _ _) Hb)). cbn in H. lia.
Qed.

(** Both directions of an overlapping move: the backward loop ([4096] to [4099]) and the aligned
    forward one ([4104] to [4096]). *)
Lemma memmove_spec_witness :
  (exists m', memmove memmove_example 4099 4096 12 = Some (m', 4099) /\
     (forall x, m' !! x = if decide (4099 <= x < 4099 + 12) then memmove_example !! (x - 4099 + 4096)
                          else memmove_example !! x) /\
     (forward_ok 4099 4096 12 -> memcpy memmove_example 4099 4096 12 = Some (m', 4099))) /\
  (exists m', memmove memmove_example 4096 4104 8 = Some (m', 4096) /\
     (forall x, m' !! x = if decide (4096 <= x < 4096 + 8) then memmove_example !! (x - 4096 + 4104)
                          else memmove_example !! x) /\
     (forward_ok 4096 4104 8 -> memcpy memmove_example 4096 4104 8 = Some (m', 4096))).
Proof.
  split.
  - refine (memmove_spec memmove_example 4099 4096 12 _ _ _ _);
      [apply bytemem_ok_dec_ok; vm_compute; reflexivity|lia
      |apply mapped_dec_ok; vm_compute; reflexivity..].
  - refine (memmove_spec memmove_example 4096 4104 8 _ _ _ _);
      [apply bytemem_ok_dec_ok; vm_compute; reflexivity|lia
      |apply mapped_dec_ok; vm_compute; reflexivity..].
Defined.

(** strncpy with a source shorter than [n] writes [n + 1] bytes: it pads with one NUL more
    than fits, so it faults on a buffer of exactly [n] mapped bytes; with a longer source it
    writes exactly the first [n] bytes and no NUL. *)
Theorem strncpy_spec m d s l n :
  bytemem_ok m -> cstr_at m s l -> 0 <= n -> mapped m d n ->
  d + n < s \/ s + zlen l + 1 <= d ->
  strncpy m d s n =
    if zlen l <? n then
      if decide (is_Some (m !! (d + n)))
      then Some (blit m d (l ++ replicate (Z.to_nat (n + 1 - zlen l)) 0), d) else None
    else Some (blit m d (take (Z.to_nat n) l), d).
Proof.
  intros Hm Hs Hn Hd Hdis. unfold strncpy. pose proof (zlen_nonneg l).
  destruct (Z.ltb_spec (zlen l) n) as [Hlt|Hge].
  - rewrite (copy_max_short _ l); [| done|done| | |unfold zlen in Hlt; lia].
    2:{ eapply mapped_sub; [exact Hd|lia..]. }
    2:{ unfold forward_ok. lia. }
    bind. assert (Z.to_nat n - length l = S (Z.to_nat n - length l - 1))%nat as Ek
      by (unfold zlen in *; lia). rewrite Ek, set_bytes_last; [| |done].
    + rewrite blit_lookup, (decide_False (P := d <= _ < _))
        by (rewrite zlen_app; change (zlen [0]) with 1; lia).
      replace (d + zlen l + 1 + _) with (d + n) by (unfold zlen in *; lia).
      case_decide; [|done]. bind. do 2 f_equal.
      replace (d + zlen l + 1) with (d + zlen (l ++ [0])) by (rewrite zlen_app; change (zlen [0]) with 1; lia).
      rewrite <- blit_app, <- app_assoc, <- Ek. do 2 f_equal.
      replace (Z.to_nat (n + 1 - zlen l)) with (S (Z.to_nat n - length l)) by (unfold zlen in *; lia). done.
    + apply mapped_blit. eapply mapped_sub; [exact Hd|unfold zlen in *; lia..].
  - destruct Hs as [Hs Hnz]. rewrite <- (take_drop (Z.to_nat n) l) in Hs, Hnz.
    rewrite <- app_assoc, bytes_at_app in Hs. apply not_elem_of_app in Hnz as [Hnz _].
    assert (length (take (Z.to_nat n) l) = Z.to_nat n) as El by (rewrite length_take; unfold zlen in *; lia).
    rewrite <- El at 1. assert (zlen (take (Z.to_nat n) l) = n) as Ez by (unfold zlen; lia).
    rewrite copy_max_long; [done|done|apply Hs|done|by rewrite Ez|]. unfold forward_ok. lia.
Qed.

(** The string [abc] at [8192] and a buffer of six bytes at [4096], followed by nothing. *)
Definition strncpy_example : bytemem :=
  list_to_map (zip (seqZ 4096 6) [7; 7; 7; 7; 7; 7]) ∪ list_to_map (zip (seqZ 8192 4) [97; 98; 99; 0]).

Lemma cstr_at_dec_ok m a l :
  load_bytes m a (length (l ++ [0])) = Some (l ++ [0]) -> forallb (fun c => negb (c =? 0)) l = true ->
  cstr_at m a l.
Proof.
  intros H Hnz. split; [by apply load_bytes_inv in H as [_ H]|].
  rewrite forallb_forall in Hnz. intros H0%list_elem_of_In. by specialize (Hnz 0 H0).
Qed.

(** With [n = 6], the size of the buffer, the call faults; with [n = 2] and [n = 5] it does not. *)
Lemma strncpy_spec_witness :
  strncpy strncpy_example 4096 8192 6 = None /\
  strncpy strncpy_example 4096 8192 5
  = Some (blit strncpy_example 4096 [97; 98; 99; 0; 0; 0], 4096) /\
  strncpy strncpy_example 4096 8192 2 = Some (blit strncpy_example 4096 [97; 98], 4096).
Proof.
  split_and!.
  - rewrite (strncpy_spec strncpy_example 4096 8192 [97; 98; 99] 6);
      [vm_compute; reflexivity|apply bytemem_ok_dec_ok; vm_compute; reflexivity
      |apply cstr_at_dec_ok; vm_compute; reflexivity|lia|apply mapped_dec_ok; vm_compute; reflexivity
      |left; lia].
  - rewrite (strncpy_spec strncpy_example 4096 8192 [97; 98; 99] 5);
      [vm_compute; reflexivity|apply bytemem_ok_dec_ok; vm_compute; reflexivity
      |apply cstr_at_dec_ok; vm_compute; reflexivity|lia|apply mapped_dec_ok; vm_compute; reflexivity
      |left; lia].
  - rewrite (strncpy_spec strncpy_example 4096 8192 [97; 98; 99] 2);
      [vm_compute; reflexivity|apply bytemem_ok_dec_ok; vm_compute; reflexivity
      |apply cstr_at_dec_ok; vm_compute; reflexivity|lia|apply mapped_dec_ok; vm_compute; reflexivity
      |left; lia].
Defined.

(** strcmp and strncmp return, without reading past either string, zero exactly for equal
    strings (equal first [n] bytes) and a negative number exactly when the first string comes
    first in the lexicographic order of unsigned bytes. *)
Theorem strcmp_spec m s1 s2 l1 l2 n :
  bytemem_ok m -> cstr_at m s1 l1 -> cstr_at m s2 l2 ->
  (exists r, strcmp m s1 s2 = Some r /\ (r = 0 <-> l1 = l2) /\ (r < 0 <-> lex_lt l1 l2)) /\
  (exists r, strncmp m s1 s2 n = Some r /\
     (r = 0 <-> take (Z.to_nat n) l1 = take (Z.to_nat n) l2) /\
     (r < 0 <-> lex_lt (take (Z.to_nat n) l1) (take (Z.to_nat n) l2))).
Proof.
  intros Hm H1 H2. pose proof (cstr_chars _ _ _ Hm H1) as C1. pose proof (cstr_chars _ _ _ Hm H2) as C2.
  split; eexists; (split; [|split; [apply lex_diff_zero|apply lex_diff_neg]; auto using Forall_take]).
  - apply strcmp_loop_ok; [done..|]. by eapply walk_fuel_ok.
  - by apply strncmp_loop_ok.
Qed.

Definition strcmp_example : bytemem :=
  list_to_map (zip (seqZ 4096 4) [97; 98; 200; 0]) ∪ list_to_map (zip (seqZ 8192 4) [97; 98; 99; 0]).

Lemma strcmp_spec_witness :
  (exists r, strcmp strcmp_example 8192 4096 = Some r /\ (r = 0 <-> [97; 98; 99] = [97; 98; 200]) /\
     (r < 0 <-> lex_lt [97; 98; 99] [97; 98; 200])) /\
  (exists r, strncmp strcmp_example 8192 4096 2 = Some r /\
     (r = 0 <-> take (Z.to_nat 2) [97; 98; 99] = take (Z.to_nat 2) [97; 98; 200]) /\
     (r < 0 <-> lex_lt (take (Z.to_nat 2) [97; 98; 99]) (take (Z.to_nat 2) [97; 98; 200]))).
Proof.
  refine (strcmp_spec strcmp_example 8192 4096 [97; 98; 99] [97; 98; 200] 2 _ _ _);
    [apply bytemem_ok_dec_ok; vm_compute; reflexivity|apply cstr_at_dec_ok; vm_compute; reflexivity..].
Defined.

(** strstr returns the first place where the needle occurs in the haystack and NULL when it
    occurs nowhere; strchr and strrchr return the first and the last occurrence of a byte, and
    the terminating NUL when that is asked for. *)
Theorem strstr_spec m h s n p c :
  bytemem_ok m -> cstr_at m h s -> cstr_at m p n -> 0 < c < 256 ->
  (exists r, strstr m h p = Some r /\
     (n = [] /\ r = h \/ n ≠ [] /\ search_result (fun rest => n `prefix_of` rest) s h r)) /\
  (exists r, strchr m h c = Some r /\ search_result (starts c) s h r) /\
  strchr m h 0 = Some (h + zlen s) /\
  (exists r, strrchr m h c = Some r /\
     ((exists i, r = h + Z.of_nat i /\ s !! i = Some c /\ forall j, (i < j)%nat -> s !! j ≠ Some c) \/
      (r = NULL /\ c ∉ s))).
Proof.
  intros Hm Hh Hp Hc. assert (u8 c = c) as Eu by (apply wrap_small; unfold fits; lia).
  pose proof (walk_fuel_ok _ _ _ Hh) as Hf. split_and!.
  - unfold strstr. rewrite (strlen_ok _ _ _ Hp). bind. destruct n as [|c0 n0].
    + exists h. split; [done|]. by left.
    + destruct (Z.eqb_spec (zlen (c0 :: n0)) 0) as [E|_].
      { rewrite zlen_cons in E. pose proof (zlen_nonneg n0). lia. }
      destruct (strstr_loop_ok (walk_fuel m) m h s p (c0 :: n0) c0 n0 Hm Hh Hp eq_refl Hf) as (r & E & Hr).
      exists r. split; [done|]. by right.
  - unfold strchr. rewrite Eu. apply strchr_loop_ok; [done..|lia].
  - unfold strchr. apply strchr_nul; [done..|].
    eapply Forall_impl; [exact (cstr_chars _ _ _ Hm Hh)|]. intros b [Hb _]. change (u8 0) with 0. lia.
  - unfold strrchr. rewrite Eu. apply strrchr_loop_ok; [done..|lia].
Qed.

Definition strstr_example : bytemem :=
  list_to_map (zip (seqZ 4096 7) [97; 98; 97; 98; 99; 97; 0])
  ∪ list_to_map (zip (seqZ 8192 4) [97; 98; 99; 0]).

Lemma strstr_spec_witness :
  (exists r, strstr strstr_example 4096 8192 = Some r /\
     ([97; 98; 99] = [] /\ r = 4096 \/
      [97; 98; 99] ≠ [] /\
      search_result (fun rest => [97; 98; 99] `prefix_of` rest) [97; 98; 97; 98; 99; 97] 4096 r)) /\
  (exists r, strchr strstr_example 4096 98 = Some r /\
     search_result (starts 98) [97; 98; 97; 98; 99; 97] 4096 r) /\
  strchr strstr_example 4096 0 = Some (4096 + zlen [97; 98; 97; 98; 99; 97]) /\
  (exists r, strrchr strstr_example 4096 98 = Some r /\
     ((exists i, r = 4096 + Z.of_nat i /\ [97; 98; 97; 98; 99; 97] !! i = Some 98 /\
         forall j, (i < j)%nat -> [97; 98; 97; 98; 99; 97] !! j ≠ Some 98) \/
      (r = NULL /\ 98 ∉ [97; 98; 97; 98; 99; 97]))).
Proof.
  refine (strstr_spec strstr_example 4096 [97; 98; 97; 98; 99; 97] [97; 98; 99] 8192 98 _ _ _ _);
    [apply bytemem_ok_dec_ok; vm_compute; reflexivity|apply cstr_at_dec_ok; vm_compute; reflexivity..|lia].
Defined.

(** strcat turns the destination string into the concatenation of both, writing only its own
    bytes and one NUL; strncat writes one NUL more than that when the source is shorter than
    [n]. *)
Theorem strcat_spec m d s l1 l2 n :
  bytemem_ok m -> cstr_at m d l1 -> cstr_at m s l2 -> 0 <= n ->
  mapped m d (zlen l1 + zlen l2 + 2) -> forward_ok (d + zlen l1) s (zlen l2 + 2) ->
  strcat m d s = Some (blit m (d + zlen l1) (l2 ++ [0]), d) /\
  cstr_at (blit m (d + zlen l1) (l2 ++ [0])) d (l1 ++ l2) /\
  strncat m d s n =
    Some (blit m (d + zlen l1)
            (if zlen l2 <? n then l2 ++ [0; 0] else take (Z.to_nat n) l2 ++ [0]), d).
Proof.
  intros Hm H1 H2 Hn Hd Hf. pose proof (zlen_nonneg l1). pose proof (zlen_nonneg l2).
  unfold forward_ok in Hf. pose proof (walk_fuel_ok _ _ _ H1) as Hf1. pose proof (walk_fuel_ok _ _ _ H2) as Hf2.
  split_and!.
  - unfold strcat. rewrite (scan_nul_ok _ _ _ H1 _ Hf1). bind.
    rewrite (copy_nul_ok _ l2); [done|done|done| |unfold forward_ok; lia|done].
    eapply mapped_sub; [exact Hd|lia..].
  - destruct H1 as [B1 Z1], H2 as [B2 Z2]. apply cstr_app. split_and!; [|done|split; [apply bytes_at_blit|done]].
    apply bytes_at_app in B1 as [B1 _]. apply bytes_at_blit_other; [done|lia].
  - unfold strncat. rewrite (scan_nul_ok _ _ _ H1 _ Hf1). bind.
    destruct (Z.ltb_spec (zlen l2) n) as [Hlt|Hge].
    + rewrite (copy_max_short _ l2); [|done|done| |unfold forward_ok; lia|unfold zlen in Hlt; lia].
      2:{ eapply mapped_sub; [exact Hd|lia..]. }
      bind. rewrite store_mapped; [|apply (mapped_blit m d (zlen l1 + zlen l2 + 2)); [done|lia]|done]. bind.
      change (l2 ++ [0; 0]) with (l2 ++ [0] ++ [0]). rewrite app_assoc, (blit_snoc _ _ (l2 ++ [0])), zlen_app.
      change (zlen [0]) with 1. by rewrite Z.add_assoc.
    + assert (length (take (Z.to_nat n) l2) = Z.to_nat n) as El by (rewrite length_take; unfold zlen in *; lia).
      assert (zlen (take (Z.to_nat n) l2) = n) as Ez by (unfold zlen; lia).
      destruct H2 as [B2 Z2]. rewrite <- (take_drop (Z.to_nat n) l2) in B2, Z2.
      rewrite <- app_assoc, bytes_at_app in B2. apply not_elem_of_app in Z2 as [Z2 _].
      rewrite <- El at 1. rewrite copy_max_long; [|done|apply B2|done| |unfold forward_ok; lia].
      2:{ eapply mapped_sub; [exact Hd|lia..]. }
      bind. rewrite store_mapped; [|apply (mapped_blit m d (zlen l1 + zlen l2 + 2)); [done|lia]|done]. bind.
      by rewrite blit_snoc.
Qed.

Definition strcat_example : bytemem :=
  list_to_map (zip (seqZ 4096 8) [97; 98; 0; 7; 7; 7; 7; 7])
  ∪ list_to_map (zip (seqZ 8192 4) [99; 100; 101; 0]).

Lemma strcat_spec_witness :
  strcat strcat_example 4096 8192 = Some (blit strcat_example (4096 + zlen [97; 98]) ([99; 100; 101] ++ [0]), 4096) /\
  cstr_at (blit strcat_example (4096 + zlen [97; 98]) ([99; 100; 101] ++ [0])) 4096 ([97; 98] ++ [99; 100; 101]) /\
  strncat strcat_example 4096 8192 6 =
    Some (blit strcat_example (4096 + zlen [97; 98])
            (if zlen [99; 100; 101] <? 6 then [99; 100; 101] ++ [0; 0]
             else take (Z.to_nat 6) [99; 100; 101] ++ [0]), 4096).
Proof.
  refine (strcat_spec strcat_example 4096 8192 [97; 98] [99; 100; 101] 6 _ _ _ _ _ _);
    [apply bytemem_ok_dec_ok; vm_compute; reflexivity|apply cstr_at_dec_ok; vm_compute; reflexivity..|lia
    |apply mapped_dec_ok; vm_compute; reflexivity|left; vm_compute; discriminate].
Defined.
