(* ===== verification/Printf.v ===== *)
(** * Kernel printf (kernel/lib/printf.c)

    Formatted output to the serial console or into a buffer.  The state is the memory (format
    strings, string arguments, the buffer of ksnprintf), the characters sent to the console and
    the file's static variables; variable arguments are 64-bit slots, of which [va_arg] reads
    the part of its type.  [None] is a fault or an undefined operation (an unmapped address, a
    missing argument, overflow of an [int] or [long]).  The lock makes a call atomic. *)
From stdpp Require Import list_numbers.
From S2P Require Import Prelude Defs ByteMem KString.

(** ** The code *)

Definition FLAGS_ZEROPAD : Z := Z.shiftl 1 0.
Definition FLAGS_LEFT : Z := Z.shiftl 1 1.
Definition FLAGS_PLUS : Z := Z.shiftl 1 2.
Definition FLAGS_SPACE : Z := Z.shiftl 1 3.
Definition FLAGS_HASH : Z := Z.shiftl 1 4.
Definition FLAGS_UPPERCASE : Z := Z.shiftl 1 5.
Definition FLAGS_LONG : Z := Z.shiftl 1 6.
Definition FLAGS_LONG_LONG : Z := Z.shiftl 1 7.
Definition FLAGS_PRECISION : Z := Z.shiftl 1 8.
Definition PRINTF_NTOA_BUFFER_SIZE : Z := 32.

(** [putc_fn]: no function, serial_putc, or snprintf_putc. *)
Inductive putc := PutNone | PutSerial | PutBuf.

Record printer := Printer {
  p_mem : bytemem;
  p_serial : list Z;
  putc_fn : putc;
  snprintf_buf : Z;
  snprintf_pos : Z;
  snprintf_size : Z
}.

Definition set_mem (m : bytemem) (p : printer) : printer :=
  Printer m (p_serial p) (putc_fn p) (snprintf_buf p) (snprintf_pos p) (snprintf_size p).
Definition set_fn (f : putc) (p : printer) : printer :=
  Printer (p_mem p) (p_serial p) f (snprintf_buf p) (snprintf_pos p) (snprintf_size p).

Definition snprintf_putc (c : Z) (p : printer) : option printer :=
  if snprintf_pos p <? u64 (snprintf_size p - 1) then
    m ← store (p_mem p) (snprintf_buf p + snprintf_pos p) c;
    Some (Printer m (p_serial p) (putc_fn p) (snprintf_buf p) (snprintf_pos p + 1) (snprintf_size p))
  else Some p.

Definition serial_putc (c : Z) (p : printer) : printer :=
  Printer (p_mem p) (p_serial p ++ [c]) (putc_fn p) (snprintf_buf p) (snprintf_pos p) (snprintf_size p).

Definition out_char (c : Z) (p : printer) : option printer :=
  match putc_fn p with
  | PutNone => Some p
  | PutSerial => Some (serial_putc c p)
  | PutBuf => snprintf_putc c p
  end.

(** out_string on a string in memory, and on a local array or a literal. *)
Fixpoint out_string (s : Z) (len : nat) (p : printer) : option printer :=
  match len with
  | O => Some p
  | S k => c ← p_mem p !! s; p' ← out_char c p; out_string (s + 1) k p'
  end.
Fixpoint out_local (l : list Z) (p : printer) : option printer :=
  match l with
  | [] => Some p
  | c :: l' => p' ← out_char c p; out_local l' p'
  end.

Fixpoint pad_loop (c : Z) (count : nat) (p : printer) : option printer :=
  match count with
  | O => Some p
  | S k => p' ← out_char c p; pad_loop c k p'
  end.
Definition out_pad (c count : Z) (p : printer) : option printer := pad_loop c (Z.to_nat count) p.

Definition digits_lower : list Z :=
  [48; 49; 50; 51; 52; 53; 54; 55; 56; 57; 97; 98; 99; 100; 101; 102].
Definition digits_upper : list Z :=
  [48; 49; 50; 51; 52; 53; 54; 55; 56; 57; 65; 66; 67; 68; 69; 70].

Definition has (flags f : Z) : bool := ztrue (Z.land flags f).

(** [while (value > 0) { buf[len++] = digits[value % base]; value /= base; }]: a 64-bit value has
    at most 64 digits in any base. *)
Fixpoint ntoa_loop (fuel : nat) (digits buf : list Z) (len value base : Z) : option (list Z * Z) :=
  match fuel with
  | O => None
  | S f =>
      if value =? 0 then Some (buf, len)
      else d ← zget digits (value mod base); buf' ← zset buf len d;
           ntoa_loop f digits buf' (len + 1) (value / base) base
  end.

Definition swap_step (len i : Z) (buf : list Z) : option (list Z) :=
  tmp ← zget buf i; x ← zget buf (len - 1 - i);
  buf' ← zset buf i x; zset buf' (len - 1 - i) tmp.

Definition ntoa (buf : list Z) (value base flags : Z) : option (list Z * Z) :=
  let digits := if has flags FLAGS_UPPERCASE then digits_upper else digits_lower in
  '(buf, len) ← (if value =? 0 then buf' ← zset buf 0 48; Some (buf', 1)
                 else ntoa_loop 65 digits buf 0 value base);
  buf ← for_range (Z.to_nat (len / 2)) 0 (swap_step len) buf;
  Some (buf, len).

(** An [int] result. *)
Definition cint (x : Z) : option Z :=
  if (- 2 ^ 31 <=? x) && (x <? 2 ^ 31) then Some x else None.

Definition when (b : bool) (f : printer -> option printer) (p : printer) : option printer :=
  if b then f p else Some p.

Definition format_int (value base width precision flags : Z) (p : printer) : option printer :=
  let negative := (value <? 0) && (base =? 10) in
  uvalue ← (if negative then v ← long (- value); Some (u64 v) else Some (u64 value));
  '(buf, len) ← ntoa (replicate (Z.to_nat PRINTF_NTOA_BUFFER_SIZE) 0) uvalue base flags;
  let pad_zeros := if has flags FLAGS_PRECISION && (len <? precision) then precision - len else 0 in
  buf0 ← zget buf 0;
  let hash16 := has flags FLAGS_HASH && (base =? 16) && negb (uvalue =? 0) in
  let hash8 := has flags FLAGS_HASH && (base =? 8) && negb (buf0 =? 48) in
  total_len ← cint (len + pad_zeros);
  total_len ← (if negative || has flags FLAGS_PLUS || has flags FLAGS_SPACE
               then cint (total_len + 1) else Some total_len);
  total_len ← (if hash16 then cint (total_len + 2) else Some total_len);
  total_len ← (if hash8 then cint (total_len + 1) else Some total_len);
  let wide := total_len <? width in
  pad_zeros ← (if wide && has flags FLAGS_ZEROPAD then cint (pad_zeros + (width - total_len))
               else Some pad_zeros);
  let pad_spaces := if wide && negb (has flags FLAGS_ZEROPAD) then width - total_len else 0 in
  p ← when (negb (has flags FLAGS_LEFT) && (0 <? pad_spaces)) (out_pad 32 pad_spaces) p;
  p ← (if negative then out_char 45 p
       else if has flags FLAGS_PLUS then out_char 43 p
       else when (has flags FLAGS_SPACE) (out_char 32) p);
  p ← when hash16 (fun p => p ← out_char 48 p;
                            out_char (if has flags FLAGS_UPPERCASE then 88 else 120) p) p;
  p ← when hash8 (out_char 48) p;
  p ← out_pad 48 pad_zeros p;
  p ← out_local (take (Z.to_nat len) buf) p;
  when (has flags FLAGS_LEFT && (0 <? pad_spaces)) (out_pad 32 pad_spaces) p.

(** ["(null)"] *)
Definition null_string : list Z := [40; 110; 117; 108; 108; 41].

Definition format_string (s width precision flags : Z) (p : printer) : option printer :=
  len ← (if s =? 0 then Some (zlen null_string) else strlen (p_mem p) s);
  let len := if has flags FLAGS_PRECISION && (0 <=? precision) && (precision <? len)
             then precision else len in
  let pad := if int32 len <? width then width - len else 0 in
  p ← when (negb (has flags FLAGS_LEFT) && (0 <? pad)) (out_pad 32 pad) p;
  p ← (if s =? 0 then out_local (take (Z.to_nat len) null_string) p
       else out_string s (Z.to_nat len) p);
  when (has flags FLAGS_LEFT && (0 <? pad)) (out_pad 32 pad) p.

(** *** Variable arguments *)

Definition va_u64 (ap : list Z) : option (Z * list Z) :=
  match ap with [] => None | x :: ap' => Some (u64 x, ap') end.
Definition va_uint (ap : list Z) : option (Z * list Z) := '(x, ap) ← va_u64 ap; Some (u32 x, ap).
Definition va_int (ap : list Z) : option (Z * list Z) := '(x, ap) ← va_u64 ap; Some (int32 x, ap).
(** A 64-bit value read as signed. *)
Definition sint64 (x : Z) : Z := if u64 x <? 2 ^ 63 then u64 x else u64 x - 2 ^ 64.
Definition va_i64 (ap : list Z) : option (Z * list Z) := '(x, ap) ← va_u64 ap; Some (sint64 x, ap).

Definition va_signed (flags : Z) (ap : list Z) : option (Z * list Z) :=
  if has flags FLAGS_LONG_LONG then va_i64 ap
  else if has flags FLAGS_LONG then va_i64 ap else va_int ap.
Definition va_unsigned (flags : Z) (ap : list Z) : option (Z * list Z) :=
  if has flags FLAGS_LONG_LONG then va_u64 ap
  else if has flags FLAGS_LONG then va_u64 ap else va_uint ap.

(** *** Parsing a directive *)

Fixpoint parse_flags (fuel : nat) (m : bytemem) (fmt flags : Z) : option (Z * Z) :=
  match fuel with
  | O => None
  | S f =>
      c ← m !! fmt;
      if c =? 48 then parse_flags f m (fmt + 1) (Z.lor flags FLAGS_ZEROPAD)
      else if c =? 45 then parse_flags f m (fmt + 1) (Z.lor flags FLAGS_LEFT)
      else if c =? 43 then parse_flags f m (fmt + 1) (Z.lor flags FLAGS_PLUS)
      else if c =? 32 then parse_flags f m (fmt + 1) (Z.lor flags FLAGS_SPACE)
      else if c =? 35 then parse_flags f m (fmt + 1) (Z.lor flags FLAGS_HASH)
      else Some (fmt, flags)
  end.

Fixpoint parse_num (fuel : nat) (m : bytemem) (fmt acc : Z) : option (Z * Z) :=
  match fuel with
  | O => None
  | S f =>
      c ← m !! fmt;
      if (48 <=? schar c) && (schar c <=? 57) then
        acc ← cint (acc * 10 + (c - 48)); parse_num f m (fmt + 1) acc
      else Some (fmt, acc)
  end.

Definition parse_width (m : bytemem) (fmt flags : Z) (ap : list Z) : option (Z * Z * Z * list Z) :=
  c ← m !! fmt;
  if c =? 42 then
    '(width, ap) ← va_int ap;
    if width <? 0 then width ← cint (- width); Some (fmt + 1, Z.lor flags FLAGS_LEFT, width, ap)
    else Some (fmt + 1, flags, width, ap)
  else '(fmt, width) ← parse_num (walk_fuel m) m fmt 0; Some (fmt, flags, width, ap).

Definition parse_precision (m : bytemem) (fmt flags : Z) (ap : list Z)
  : option (Z * Z * Z * list Z) :=
  c ← m !! fmt;
  if c =? 46 then
    let flags := Z.lor flags FLAGS_PRECISION in
    c ← m !! (fmt + 1);
    if c =? 42 then '(precision, ap) ← va_int ap; Some (fmt + 2, flags, precision, ap)
    else '(fmt, precision) ← parse_num (walk_fuel m) m (fmt + 1) 0; Some (fmt, flags, precision, ap)
  else Some (fmt, flags, -1, ap).

Definition parse_length (m : bytemem) (fmt flags : Z) : option (Z * Z) :=
  c ← m !! fmt;
  if c =? 108 then
    c ← m !! (fmt + 1);
    if c =? 108 then Some (fmt + 2, Z.lor flags FLAGS_LONG_LONG)
    else Some (fmt + 1, Z.lor flags FLAGS_LONG)
  else if c =? 104 then
    c ← m !! (fmt + 1);
    Some (if c =? 104 then fmt + 2 else fmt + 1, flags)
  else if (c =? 122) || (c =? 116) then Some (fmt + 1, Z.lor flags FLAGS_LONG_LONG)
  else Some (fmt, flags).

(** [*n = count]: four bytes. *)
Definition store_int (m : bytemem) (a v : Z) : option bytemem :=
  store_bytes m a (Z_to_little_endian 4 8 v).

(** The conversion specifier [c]. *)
Definition convert (c width precision flags count : Z) (ap : list Z) (p : printer)
  : option (list Z * printer) :=
  if (c =? 100) || (c =? 105) then
    '(value, ap) ← va_signed flags ap;
    p ← format_int value 10 width precision flags p; Some (ap, p)
  else if c =? 117 then
    '(value, ap) ← va_unsigned flags ap;
    p ← format_int (sint64 value) 10 width precision flags p; Some (ap, p)
  else if (c =? 120) || (c =? 88) then
    let flags := if c =? 88 then Z.lor flags FLAGS_UPPERCASE else flags in
    '(value, ap) ← va_unsigned flags ap;
    p ← format_int (sint64 value) 16 width precision flags p; Some (ap, p)
  else if c =? 111 then
    '(value, ap) ← va_unsigned flags ap;
    p ← format_int (sint64 value) 8 width precision flags p; Some (ap, p)
  else if c =? 112 then
    '(ptr, ap) ← va_u64 ap;
    p ← format_int (sint64 ptr) 16 width precision (Z.lor flags FLAGS_HASH) p; Some (ap, p)
  else if c =? 115 then
    '(s, ap) ← va_u64 ap;
    p ← format_string s width precision flags p; Some (ap, p)
  else if c =? 99 then
    '(x, ap) ← va_int ap;
    p ← when ((1 <? width) && negb (has flags FLAGS_LEFT)) (out_pad 32 (width - 1)) p;
    p ← out_char (u8 x) p;
    p ← when ((1 <? width) && has flags FLAGS_LEFT) (out_pad 32 (width - 1)) p;
    Some (ap, p)
  else if c =? 110 then
    '(n, ap) ← va_u64 ap;
    if n =? 0 then Some (ap, p)
    else m ← store_int (p_mem p) n count; Some (ap, set_mem m p)
  else
    p ← out_char 37 p; p ← out_char c p; Some (ap, p).

(** From the character after the percent sign to the one after the directive. *)
Definition directive (fmt count : Z) (ap : list Z) (p : printer)
  : option (Z * list Z * printer) :=
  let m := p_mem p in
  '(fmt, flags) ← parse_flags (walk_fuel m) m fmt 0;
  '(fmt, flags, width, ap) ← parse_width m fmt flags ap;
  '(fmt, flags, precision, ap) ← parse_precision m fmt flags ap;
  '(fmt, flags) ← parse_length m fmt flags;
  c ← m !! fmt;
  '(ap, p) ← convert c width precision flags count ap p;
  Some (fmt + 1, ap, p).

(** Every round reads a new address of the format. *)
Fixpoint kvprintf_loop (fuel : nat) (fmt count : Z) (ap : list Z) (p : printer)
  : option (Z * printer) :=
  match fuel with
  | O => None
  | S f =>
      c ← p_mem p !! fmt;
      if c =? 0 then Some (count, p)
      else if negb (c =? 37) then
        p ← out_char c p; kvprintf_loop f (fmt + 1) (count + 1) ap p
      else
        c ← p_mem p !! (fmt + 1);
        if c =? 37 then
          p ← out_char 37 p; kvprintf_loop f (fmt + 2) (count + 1) ap p
        else
          '(fmt, ap, p) ← directive (fmt + 1) count ap p;
          kvprintf_loop f fmt count ap p
  end.

Definition kvprintf (fmt : Z) (ap : list Z) (p : printer) : option (Z * printer) :=
  kvprintf_loop (walk_fuel (p_mem p)) fmt 0 ap p.

Definition kprintf (fmt : Z) (args : list Z) (p : printer) : option (Z * printer) :=
  kvprintf fmt args p.

Definition kprintf_unlocked (fmt : Z) (args : list Z) (p : printer) : option (Z * printer) :=
  kvprintf fmt args p.

Definition kprintf_set_output (fn : putc) (p : printer) : printer := set_fn fn p.

(** Output into [buf]: what ksnprintf and kvsprintf share. *)
Definition print_to (buf size fmt : Z) (args : list Z) (p : printer) : option (Z * printer) :=
  '(ret, p') ← kvprintf fmt args (Printer (p_mem p) (p_serial p) PutBuf buf 0 size);
  m ← store (p_mem p') (buf + snprintf_pos p') 0;
  Some (ret, set_fn (putc_fn p) (set_mem m p')).

Definition ksnprintf (buf size fmt : Z) (args : list Z) (p : printer) : option (Z * printer) :=
  if size =? 0 then Some (0, p) else print_to buf size fmt args p.

Definition SIZE_MAX : Z := 2 ^ 64 - 1.

Definition kvsprintf (buf fmt : Z) (ap : list Z) (p : printer) : option (Z * printer) :=
  print_to buf SIZE_MAX fmt ap p.

(** ** Arguments *)

Lemma va_u64_sub ap x ap' :
  va_u64 ap = Some (x, ap') -> ap' ⊆ ap /\ exists a, a ∈ ap /\ x = u64 a.
Proof. destruct ap as [|a ap]; [done|]. intros [= <- <-]. split; [set_solver|]. exists a. set_solver. Qed.

Lemma va_narrow_sub (f : Z -> Z) ap x ap' :
  ('(y, q) ← va_u64 ap; Some (f y, q)) = Some (x, ap') -> ap' ⊆ ap.
Proof.
  destruct (va_u64 ap) as [[y q]|] eqn:E; [|done]. intros [= <- <-]. by apply va_u64_sub in E as [? _].
Qed.

Lemma va_int_sub ap x ap' : va_int ap = Some (x, ap') -> ap' ⊆ ap.
Proof. apply (va_narrow_sub int32). Qed.

Lemma va_signed_sub flags ap x ap' : va_signed flags ap = Some (x, ap') -> ap' ⊆ ap.
Proof.
  unfold va_signed. repeat case_match; [apply (va_narrow_sub sint64)..|apply va_int_sub].
Qed.

Lemma va_unsigned_sub flags ap x ap' : va_unsigned flags ap = Some (x, ap') -> ap' ⊆ ap.
Proof.
  unfold va_unsigned. repeat case_match; [by intros [? _]%va_u64_sub..|apply (va_narrow_sub u32)].
Qed.

(** ** Output stays where it belongs *)

#[local] Ltac bind := cbn [mbind option_bind].

Section confined.
  (** The addresses that may be written. *)
  Context (W : Z -> Prop).

Definition sane (p : printer) : Prop :=
    1 <= snprintf_size p < 2 ^ 64 /\ 0 <= snprintf_pos p <= snprintf_size p - 1 /\
    forall x, snprintf_buf p <= x < snprintf_buf p + snprintf_size p -> W x.

Definition keeps (p p' : printer) : Prop :=
    sane p' /\ putc_fn p' = putc_fn p /\ snprintf_buf p' = snprintf_buf p /\
    snprintf_size p' = snprintf_size p /\ (forall x, ~ W x -> p_mem p' !! x = p_mem p !! x).

  (** [f] writes only where it may. *)
Definition pres (f : printer -> option printer) : Prop :=
    forall p p', sane p -> f p = Some p' -> keeps p p'.

Lemma keeps_refl p : sane p -> keeps p p.
  Proof. intros H. by split_and!. Qed.

Lemma keeps_trans p1 p2 p3 : keeps p1 p2 -> keeps p2 p3 -> keeps p1 p3.
  Proof.
    intros (_ & A1 & A2 & A3 & A4) (S & B1 & B2 & B3 & B4). split_and!; [done|congruence..|].
    intros x Hx. rewrite B4, A4 by done. done.
  Qed.

Lemma keeps_step p p1 p2 f : keeps p p1 -> pres f -> f p1 = Some p2 -> keeps p p2.
  Proof. intros K Hf E. eapply keeps_trans; [done|]. apply Hf; [apply K|done]. Qed.

Lemma out_char_pres c : pres (out_char c).
  Proof.
    intros p p' S. unfold out_char. destruct (putc_fn p) eqn:E; intros H.
    - simplify_eq. by apply keeps_refl.
    - simplify_eq. destruct S as (? & ? & ?). by split_and!.
    - unfold snprintf_putc in H. destruct S as (S1 & S2 & S3). rewrite u64_small in H by lia.
      destruct (Z.ltb_spec (snprintf_pos p) (snprintf_size p - 1)) as [Hlt|_];
        [|by simplify_eq; apply keeps_refl].
      destruct (store _ _ _) as [m|] eqn:Es; [|done]. cbn in H. simplify_eq.
      unfold store in Es. destruct (p_mem p !! _); [|done]. cbn in Es. simplify_eq.
      split_and!; cbn; try done.
      + unfold sane. cbn. split_and!; [lia..|done].
      + intros x Hx. rewrite lookup_insert_ne; [done|]. intros <-. apply Hx, S3. lia.
  Qed.

Lemma when_pres b f : pres f -> pres (when b f).
  Proof. intros Hf p p' S. unfold when. destruct b; [by apply Hf|]. intros [= <-]. by apply keeps_refl. Qed.

Lemma out_local_pres l : pres (out_local l).
  Proof.
    induction l as [|c l IH]; intros p p' S H; cbn [out_local] in H; [simplify_eq; by apply keeps_refl|].
    destruct (out_char c p) as [p1|] eqn:E; [|done]. bind. cbn [mbind option_bind] in H.
    eapply keeps_step; [by eapply out_char_pres|exact IH|done].
  Qed.

Lemma out_string_pres s n : pres (out_string s n).
  Proof.
    revert s. induction n as [|n IH]; intros s p p' S H; cbn [out_string] in H; [simplify_eq; by apply keeps_refl|].
    destruct (p_mem p !! s) as [c|]; [|done]. cbn [mbind option_bind] in H.
    destruct (out_char c p) as [p1|] eqn:E; [|done]. cbn [mbind option_bind] in H.
    eapply keeps_step; [by eapply out_char_pres|apply IH|done].
  Qed.

Lemma out_pad_pres c n : pres (out_pad c n).
  Proof.
    unfold out_pad. generalize (Z.to_nat n) as k. clear n.
    induction k as [|k IH]; intros p p' S H; cbn [pad_loop] in H; [simplify_eq; by apply keeps_refl|].
    destruct (out_char c p) as [p1|] eqn:E; [|done]. cbn [mbind option_bind] in H.
    eapply keeps_step; [by eapply out_char_pres|apply IH|done].
  Qed.

Lemma bind_pres f g : pres f -> pres g -> pres (fun p => p' ← f p; g p').
  Proof.
    intros Hf Hg p p' S H. destruct (f p) as [p1|] eqn:E; [|done]. cbn [mbind option_bind] in H.
    eapply keeps_step; [by apply Hf|exact Hg|done].
  Qed.

  Hint Resolve out_char_pres when_pres out_local_pres out_string_pres out_pad_pres bind_pres : core.

  (** Follow the output steps of a function from one state to the next. *)
Ltac chain :=
    repeat match goal with
    | K : keeps ?p ?p1, H : ?f ?p1 = Some ?p2 |- _ =>
        let K' := fresh "K" in
        assert (keeps p p2) as K' by (apply (keeps_step p p1 p2 f); [exact K|solve [eauto]|exact H]);
        clear K H
    | K : keeps ?p ?p1, H : (if ?b then _ else _) = Some ?p2 |- _ => destruct b
    end.

Lemma format_int_pres value base width precision flags :
    pres (format_int value base width precision flags).
  Proof.
    intros p p' S H. unfold format_int in H. inv_bind H.
    destruct p0 as [buf len]. inv_bind H. pose proof (keeps_refl p S) as K.
    repeat match goal with E : _ = Some ?x |- _ => match type of x with Z => clear E end end.
    chain; done.
  Qed.

Lemma format_string_pres s width precision flags : pres (format_string s width precision flags).
  Proof.
    intros p p' S H. unfold format_string in H. inv_bind H. pose proof (keeps_refl p S) as K.
    repeat match goal with E : _ = Some ?x |- _ => match type of x with Z => clear E end end.
    chain; done.
  Qed.

  Hint Resolve format_int_pres format_string_pres : core.

  (** The ints the arguments point to may be written (by %n). *)
Definition args_ok (ap : list Z) : Prop :=
    forall a x, a ∈ ap -> u64 a <= x < u64 a + 4 -> W x.

Lemma args_ok_sub ap ap' : ap' ⊆ ap -> args_ok ap -> args_ok ap'.
  Proof. intros Hs H a x Ha. apply H. by apply Hs. Qed.

  (** What a step over the arguments gives. *)
Definition step_ok (ap : list Z) (p : printer) (ap' : list Z) (p' : printer) : Prop :=
    ap' ⊆ ap /\ keeps p p'.

Lemma convert_ok c width precision flags count ap p ap' p' :
    sane p -> args_ok ap -> convert c width precision flags count ap p = Some (ap', p') ->
    step_ok ap p ap' p'.
  Proof.
    intros S A H. pose proof (keeps_refl p S) as K. unfold convert in H.
    repeat match type of H with (if ?b then _ else _) = _ => destruct b end;
      inv_bind H; repeat match goal with x : (Z * list Z)%type |- _ => destruct x end;
      repeat match goal with E : va_signed _ _ = Some _ |- _ => apply va_signed_sub in E
             | E : va_unsigned _ _ = Some _ |- _ => apply va_unsigned_sub in E
             | E : va_int _ = Some _ |- _ => apply va_int_sub in E
             | E : va_u64 _ = Some _ |- _ => apply va_u64_sub in E as [? (? & ? & ->)] end;
      inv_bind H.
    all: try (destruct (_ =? 0); inv_bind H).
    all: simplify_eq; chain.
    all: split; try done.
    all: destruct K as (? & ? & ? & ? & ?).
    (* %n *)
    split_and!; cbn; try done. intros y Hy.
    eapply store_bytes_outside; [done|]. intros Hr. apply Hy. eapply A; [done|].
    unfold zlen in Hr. rewrite length_Z_to_little_endian in Hr by lia. lia.
  Qed.

Lemma parse_width_sub m fmt flags ap f g w ap' :
    parse_width m fmt flags ap = Some (f, g, w, ap') -> ap' ⊆ ap.
  Proof.
    unfold parse_width. intros H. inv_bind H. destruct (_ =? 42); inv_bind H.
    - destruct p as [x q]. apply va_int_sub in Heqo0. destruct (x <? 0); inv_bind H; by simplify_eq.
    - destruct p as [x q]. by simplify_eq.
  Qed.

Lemma parse_precision_sub m fmt flags ap f g w ap' :
    parse_precision m fmt flags ap = Some (f, g, w, ap') -> ap' ⊆ ap.
  Proof.
    unfold parse_precision. intros H. inv_bind H. destruct (_ =? 46); inv_bind H; [|by simplify_eq].
    destruct (_ =? 42); inv_bind H; destruct p as [x q]; simplify_eq; [|done]. by apply va_int_sub in Heqo1.
  Qed.

Lemma directive_ok fmt count ap p fmt' ap' p' :
    sane p -> args_ok ap -> directive fmt count ap p = Some (fmt', ap', p') -> step_ok ap p ap' p'.
  Proof.
    intros S A H. unfold directive in H. inv_bind H. destruct p0 as [f1 g1]. inv_bind H.
    destruct p0 as [[[f2 g2] w] ap2]. inv_bind H. destruct p0 as [[[f3 g3] pr] ap3]. inv_bind H.
    destruct p0 as [f4 g4]. inv_bind H. destruct p0 as [ap4 p4]. simplify_eq.
    apply parse_width_sub in Heqo0. apply parse_precision_sub in Heqo1.
    assert (ap3 ⊆ ap) as Hs by (by etrans).
    destruct (convert_ok _ _ _ _ _ _ _ _ _ S (args_ok_sub _ _ Hs A) Heqo4) as [Hs' K].
    split; [by etrans|done].
  Qed.

Lemma kvprintf_loop_ok fuel fmt count ap p r p' :
    sane p -> args_ok ap -> kvprintf_loop fuel fmt count ap p = Some (r, p') -> keeps p p'.
  Proof.
    revert fmt count ap p. induction fuel as [|f IH]; intros fmt count ap p S A H; [done|].
    cbn [kvprintf_loop] in H. destruct (p_mem p !! fmt) as [c|]; [|done]. cbn [mbind option_bind] in H.
    assert (forall ch q, out_char ch p = Some q -> keeps p q) as Ko by (intros; by eapply out_char_pres).
    destruct (c =? 0); [simplify_eq; by apply keeps_refl|]. destruct (negb (c =? 37)); inv_bind H.
    - specialize (Ko _ _ Heqo). eapply keeps_trans; [done|]. eapply IH; [apply Ko|exact A|done].
    - destruct (_ =? 37); inv_bind H.
      + specialize (Ko _ _ Heqo0). eapply keeps_trans; [done|]. eapply IH; [apply Ko|exact A|done].
      + destruct p0 as [[f1 ap1] p1]. destruct (directive_ok _ _ _ _ _ _ _ S A Heqo0) as [Hs K].
        eapply keeps_trans; [done|]. eapply IH; [apply K|by eapply args_ok_sub|done].
  Qed.
End confined.

(** C40.  ksnprintf changes no byte of memory outside its buffer of [size] bytes and the ints its
    arguments point to (the targets of %n), whatever the format and the arguments, leaves a
    NUL inside the buffer and restores the output function. *)
Theorem ksnprintf_confined buf size fmt args p ret p' :
  0 < size < 2 ^ 64 -> ksnprintf buf size fmt args p = Some (ret, p') ->
  (forall x, ~ (buf <= x < buf + size) -> (forall a, a ∈ args -> ~ (u64 a <= x < u64 a + 4)) ->
     p_mem p' !! x = p_mem p !! x) /\
  (exists k, 0 <= k < size /\ p_mem p' !! (buf + k) = Some 0) /\
  putc_fn p' = putc_fn p.
Proof.
  intros Hs H. unfold ksnprintf in H. rewrite (proj2 (Z.eqb_neq _ _)) in H by lia.
  unfold print_to in H. inv_bind H. destruct p0 as [r q]. inv_bind H. simplify_eq.
  pose (W := fun x => buf <= x < buf + size \/ exists a, a ∈ args /\ u64 a <= x < u64 a + 4).
  assert (keeps W (Printer (p_mem p) (p_serial p) PutBuf buf 0 size) q)
    as ((S1 & S2 & _) & _ & E1 & E2 & E3).
  { eapply (kvprintf_loop_ok W); [| |exact Heqo].
    - unfold sane, W. cbn. split_and!; [lia..|]. intros x Hx. by left.
    - intros a x Ha Hx. right. eauto. }
  cbn in E1, E2. rewrite E2 in S2. unfold store in Heqo0.
  destruct (p_mem q !! _) eqn:El; [|done]. cbn in Heqo0. simplify_eq. cbn. split_and!.
  - intros x Hx Ha. rewrite lookup_insert_ne by lia. apply E3. unfold W.
    intros [?|(a & ? & ?)]; [done|by eapply Ha].
  - exists (snprintf_pos q). split; [lia|]. by rewrite lookup_insert_eq.
  - done.
Qed.

(** ** Digits *)

(** The digits of [v], least significant first. *)
Fixpoint lsd (fuel : nat) (base v : Z) : list Z :=
  match fuel with
  | O => []
  | S f => if v =? 0 then [] else (v mod base) :: lsd f base (v / base)
  end.

(** The digits of [v], most significant first. *)
Definition num_digits (base v : Z) : list Z := if v =? 0 then [0] else reverse (lsd 64 base v).

Definition digit_char (flags d : Z) : Z :=
  default 0 (zget (if has flags FLAGS_UPPERCASE then digits_upper else digits_lower) d).

(** The value of a sequence of digits, most significant first, after those worth [acc]. *)
Definition digits_value (base acc : Z) (ds : list Z) : Z := foldl (fun a d => a * base + d) acc ds.

Lemma lsd_range fuel base v : 2 <= base -> 0 <= v -> Forall (fun d => 0 <= d < base) (lsd fuel base v).
Proof.
  intros Hb. revert v. induction fuel as [|f IH]; intros v Hv; cbn [lsd]; [constructor|].
  destruct (v =? 0); constructor; [apply Z.mod_pos_bound; lia|]. apply IH. apply Z.div_pos; lia.
Qed.

Lemma lsd_length fuel base v k :
  2 <= base -> 0 <= v < base ^ Z.of_nat k -> (length (lsd fuel base v) <= k)%nat.
Proof.
  intros Hb. revert v k. induction fuel as [|f IH]; intros v k Hv; cbn [lsd]; [cbn; lia|].
  destruct (Z.eqb_spec v 0) as [->|Hv0]; [cbn; lia|]. destruct k as [|k].
  { rewrite Z.pow_0_r in Hv. lia. }
  cbn [length]. apply le_n_S, IH. rewrite Nat2Z.inj_succ, Z.pow_succ_r in Hv by lia.
  split; [apply Z.div_pos; lia|]. apply Z.div_lt_upper_bound; lia.
Qed.

Lemma lsd_value fuel base v :
  2 <= base -> 0 <= v < 2 ^ Z.of_nat fuel -> digits_value base 0 (reverse (lsd fuel base v)) = v.
Proof.
  intros Hb. revert v. induction fuel as [|f IH]; intros v Hv; cbn [lsd].
  { rewrite Z.pow_0_r in Hv. cbn. lia. }
  destruct (Z.eqb_spec v 0) as [->|Hv0]; [done|].
  rewrite reverse_cons. unfold digits_value in *. rewrite foldl_app. cbn [foldl].
  rewrite IH; [pose proof (Z.div_mod v base); lia|].
  rewrite Nat2Z.inj_succ, Z.pow_succ_r in Hv by lia. split; [apply Z.div_pos; lia|].
  apply Z.div_lt_upper_bound; nia.
Qed.

Lemma num_digits_value base v :
  2 <= base -> 0 <= v < 2 ^ 64 -> digits_value base 0 (num_digits base v) = v.
Proof.
  intros Hb Hv. unfold num_digits. destruct (Z.eqb_spec v 0) as [->|]; [done|].
  apply lsd_value; [done|]. split; [lia|]. eapply Z.lt_le_trans; [apply Hv|].
  apply Z.pow_le_mono_r; lia.
Qed.

Lemma num_digits_range base v :
  2 <= base -> 0 <= v -> Forall (fun d => 0 <= d < base) (num_digits base v).
Proof.
  intros Hb Hv. unfold num_digits. case_match; [repeat constructor; lia|].
  apply Forall_reverse. by apply lsd_range.
Qed.

Lemma num_digits_length base v :
  8 <= base -> 0 <= v < 2 ^ 64 -> (1 <= length (num_digits base v) <= 22)%nat.
Proof.
  intros Hb Hv. unfold num_digits. destruct (Z.eqb_spec v 0) as [->|Hv0]; [cbn; lia|].
  rewrite length_reverse. split.
  - cbn [lsd]. rewrite (proj2 (Z.eqb_neq _ _) Hv0). cbn [length]. lia.
  - apply lsd_length; [lia|]. split; [lia|]. eapply Z.lt_le_trans; [apply Hv|].
    etrans; [|apply (Z.pow_le_mono_l 8); lia]. vm_compute. discriminate.
Qed.

(** ** Arrays cut into pieces *)

Lemma zget_mid {A} (pre : list A) x post : zget (pre ++ x :: post) (zlen pre) = Some x.
Proof. unfold zlen. rewrite zget_nat. by apply list_lookup_middle. Qed.

Lemma zset_mid {A} (pre : list A) x post y :
  zset (pre ++ x :: post) (zlen pre) y = Some (pre ++ y :: post).
Proof.
  unfold zset. rewrite zget_mid. bind. rewrite zlen_to_nat.
  rewrite <- (Nat.add_0_r (length pre)), insert_app_r. done.
Qed.

Lemma ntoa_loop_ok fuel digits base dch pre junk v :
  2 <= base -> (forall d, 0 <= d < base -> zget digits d = Some (dch d)) ->
  0 <= v < 2 ^ Z.of_nat fuel -> (length (lsd fuel base v) <= length junk)%nat ->
  ntoa_loop (S fuel) digits (pre ++ junk) (zlen pre) v base
  = Some (pre ++ (dch <$> lsd fuel base v) ++ drop (length (lsd fuel base v)) junk,
          zlen pre + zlen (lsd fuel base v)).
Proof.
  intros Hb Hd. revert pre junk v. induction fuel as [|f IH]; intros pre junk v Hv Hl.
  { rewrite Z.pow_0_r in Hv. assert (v = 0) as -> by lia. cbn. by rewrite Z.add_0_r. }
  change (ntoa_loop (S (S f)) digits (pre ++ junk) (zlen pre) v base) with
    (if v =? 0 then Some (pre ++ junk, zlen pre)
     else d ← zget digits (v mod base); buf' ← zset (pre ++ junk) (zlen pre) d;
          ntoa_loop (S f) digits buf' (zlen pre + 1) (v / base) base).
  cbn [lsd] in *. destruct (Z.eqb_spec v 0) as [->|Hv0]; [cbn; by rewrite Z.add_0_r|].
  cbn [length] in Hl. destruct junk as [|j junk]; [cbn in Hl; lia|]. cbn [length] in Hl.
  rewrite Hd by (apply Z.mod_pos_bound; lia). bind. rewrite zset_mid. bind.
  rewrite (cons_middle (dch (v mod base))), (app_assoc pre).
  replace (zlen pre + 1) with (zlen (pre ++ [dch (v mod base)])) by (by rewrite zlen_app).
  rewrite IH; [| |lia].
  - cbn [fmap list_fmap length drop]. rewrite <- app_assoc, zlen_app, (zlen_cons (v mod base)). cbn [app].
    change (zlen [dch (v mod base)]) with 1. f_equal. apply pair_equal_spec. split; [done|lia].
  - rewrite Nat2Z.inj_succ, Z.pow_succ_r in Hv by lia. split; [apply Z.div_pos; lia|].
    apply Z.div_lt_upper_bound; nia.
Qed.

Lemma swap_step_ok len a x mid y rest :
  len - 1 - zlen a = zlen a + zlen mid + 1 ->
  swap_step len (zlen a) (a ++ x :: mid ++ y :: rest) = Some (a ++ y :: mid ++ x :: rest).
Proof.
  intros Hl. unfold swap_step. rewrite zget_mid. bind.
  assert (forall z, len - 1 - zlen a = zlen (a ++ z :: mid)) as Ei
    by (intros z; rewrite zlen_app, zlen_cons; lia).
  assert (forall z w, a ++ z :: mid ++ w :: rest = (a ++ z :: mid) ++ w :: rest) as E
    by (intros; by rewrite <- app_assoc).
  rewrite (Ei x), (E x y), zget_mid. bind. rewrite <- (E x y), zset_mid. bind.
  rewrite <- (Ei x), (Ei y), (E y y), zset_mid. by rewrite <- E.
Qed.

(** The swap loop reverses the part of the array between [a] and [b]. *)
Lemma swap_loop_ok n a mid b junk :
  length mid = n -> zlen a = zlen b ->
  for_range (n / 2) (zlen a) (swap_step (zlen a + zlen mid + zlen b)) (a ++ mid ++ b ++ junk)
  = Some (a ++ reverse mid ++ b ++ junk).
Proof.
  revert a mid b. induction n as [n IH] using lt_wf_ind. intros a mid b Hn Hab.
  destruct n as [|[|n]].
  { by destruct mid. }
  { destruct mid as [|x [|]]; try done. }
  destruct mid as [|x mid]; [done|]. destruct mid as [|y mid _] using rev_ind; [done|].
  assert (length mid = n) as Hm by (rewrite length_cons, length_app in Hn; cbn in Hn; lia).
  replace (S (S n) / 2)%nat with (S (n / 2)) 
    by (change (S (S n)) with (1 * 2 + n)%nat; rewrite Nat.div_add_l; lia).
  cbn [for_range]. rewrite reverse_cons, reverse_snoc. cbn [app]. rewrite <- !app_assoc. cbn [app].
  set (len := zlen a + zlen (x :: mid ++ [y]) + zlen b).
  assert (len = zlen a + zlen mid + zlen b + 2) as El.
  { unfold len. rewrite zlen_cons, zlen_app. change (zlen [y]) with 1. lia. }
  rewrite swap_step_ok by lia. bind.
  specialize (IH n ltac:(lia) (a ++ [y]) mid (x :: b) Hm).
  rewrite zlen_app, (zlen_cons x), <- !app_assoc in IH. change (zlen [y]) with 1 in IH. cbn [app] in IH.
  replace (zlen a + 1 + zlen mid + (zlen b + 1)) with len in IH by lia. by rewrite IH by lia.
Qed.

Lemma digit_char_ok flags d :
  0 <= d < 16 ->
  zget (if has flags FLAGS_UPPERCASE then digits_upper else digits_lower) d = Some (digit_char flags d).
Proof.
  intros Hd. unfold digit_char. destruct (has flags _); unfold zget; rewrite decide_True by lia.
  all: destruct (lookup_lt_is_Some_2 (A := Z) digits_upper (Z.to_nat d)) as [x Hx]; [cbn; lia|];
    destruct (lookup_lt_is_Some_2 (A := Z) digits_lower (Z.to_nat d)) as [y Hy]; [cbn; lia|].
  - by rewrite Hx.
  - by rewrite Hy.
Qed.

(** ntoa leaves the digits at the start of its buffer, in any base from 8 to 16, and never runs
    past the 32 bytes of the buffer. *)
Lemma ntoa_ok value base flags :
  8 <= base <= 16 -> 0 <= value < 2 ^ 64 ->
  exists junk, ntoa (replicate (Z.to_nat PRINTF_NTOA_BUFFER_SIZE) 0) value base flags
    = Some ((digit_char flags <$> num_digits base value) ++ junk, zlen (num_digits base value)).
Proof.
  intros Hb Hv. pose proof (num_digits_length base value ltac:(lia) Hv) as [_ Hlen].
  unfold ntoa, num_digits in *. destruct (Z.eqb_spec value 0) as [->|Hv0].
  - exists (replicate 31 0). unfold digit_char. destruct (has flags FLAGS_UPPERCASE); reflexivity.
  - rewrite length_reverse in Hlen.
    exists (drop (length (lsd 64 base value)) (replicate (Z.to_nat PRINTF_NTOA_BUFFER_SIZE) 0)).
    pose proof (ntoa_loop_ok 64 _ base (digit_char flags) []
      (replicate (Z.to_nat PRINTF_NTOA_BUFFER_SIZE) 0) value ltac:(lia)
      (fun d Hd => digit_char_ok flags d ltac:(lia)) Hv ltac:(rewrite length_replicate; change (Z.to_nat PRINTF_NTOA_BUFFER_SIZE) with 32%nat; lia)) as E.
    change (zlen []) with 0 in E. cbn [app] in E. rewrite E. bind. rewrite !Z.add_0_l.
    set (ds := lsd 64 base value). set (junk := drop _ _).
    pose proof (swap_loop_ok (length (digit_char flags <$> ds)) [] (digit_char flags <$> ds) [] junk
      eq_refl eq_refl) as Es.
    change (zlen []) with 0 in Es. rewrite Z.add_0_r, Z.add_0_l in Es. cbn [app] in Es.
    assert (zlen (digit_char flags <$> ds) = zlen ds) as El by (unfold zlen; by rewrite length_fmap).
    rewrite El, length_fmap in Es.
    replace (Z.to_nat (zlen ds / 2)) with (length ds / 2)%nat.
    2:{ unfold zlen. rewrite <- (Nat2Z.inj_div _ 2). by rewrite Nat2Z.id. }
    rewrite Es. bind. rewrite fmap_reverse. unfold zlen. by rewrite length_reverse.
Qed.

(** ** Reading numbers back *)

Lemma digits_value_ge base acc ds :
  1 <= base -> 0 <= acc -> Forall (fun d => 0 <= d < base) ds -> acc <= digits_value base acc ds.
Proof.
  intros Hb. unfold digits_value. revert acc. induction ds as [|d ds IH]; intros acc Ha H; cbn [foldl]; [lia|].
  apply Forall_cons in H as [Hd H]. etrans; [|apply IH; [nia|done]]. nia.
Qed.

(** Digit characters are read back as their digits, and are not spaces or signs. *)
Lemma digit_char_back flags d :
  0 <= d < 16 ->
  digit_of (schar (digit_char flags d)) = Some d /\ 48 <= digit_char flags d <= 102.
Proof.
  intros Hd. assert (d ∈ seqZ 0 16) as Hin by (apply elem_of_seqZ; lia).
  assert (forall b, Forall (fun d => digit_of (schar (default 0 (zget (if b : bool then digits_upper else digits_lower) d))) = Some d
    /\ 48 <= default 0 (zget (if b then digits_upper else digits_lower) d) <= 102) (seqZ 0 16)) as H.
  { intros []; vm_compute; repeat constructor; discriminate. }
  specialize (H (has flags FLAGS_UPPERCASE)). rewrite Forall_forall in H. exact (H d Hin).
Qed.

Lemma long_ok x : - 2 ^ 63 <= x < 2 ^ 63 -> long x = Some x.
Proof.
  intros H. unfold long. rewrite (proj2 (Z.leb_le _ _)) by lia. by rewrite (proj2 (Z.ltb_lt _ _)) by lia.
Qed.

Lemma cint_ok x : - 2 ^ 31 <= x < 2 ^ 31 -> cint x = Some x.
Proof.
  intros H. unfold cint. rewrite (proj2 (Z.leb_le _ _)) by lia. by rewrite (proj2 (Z.ltb_lt _ _)) by lia.
Qed.

Lemma conv_digits_ok fuel flags m s base acc ds :
  2 <= base <= 16 -> 0 <= acc -> Forall (fun d => 0 <= d < base) ds ->
  cstr_at m s (digit_char flags <$> ds) -> (length ds < fuel)%nat ->
  digits_value base acc ds < 2 ^ 63 ->
  conv_digits fuel m s base acc = Some (digits_value base acc ds, s + zlen ds).
Proof.
  intros Hb. revert s acc fuel. induction ds as [|d ds IH]; intros s acc [|f] Ha Hds Hs Hf Hv;
    cbn [length] in Hf; try lia; cbn [conv_digits].
  - apply cstr_nil in Hs. rewrite Hs. bind. change (zlen []) with 0. by rewrite Z.add_0_r.
  - apply Forall_cons in Hds as [Hd Hds]. rewrite fmap_cons in Hs.
    apply cstr_cons in Hs as (H0 & Hc & Hs). rewrite H0. bind. rewrite (proj2 (Z.eqb_neq _ _) Hc).
    destruct (digit_char_back flags d ltac:(lia)) as [-> _].
    destruct (Z.leb_spec base d) as [|_]; [lia|].
    change (digits_value base acc (d :: ds)) with (digits_value base (acc * base + d) ds) in *.
    pose proof (digits_value_ge base (acc * base + d) ds ltac:(lia) ltac:(nia) Hds).
    rewrite long_ok by nia. bind. rewrite long_ok by nia. bind.
    rewrite IH; [|nia|done|done|lia|done]. rewrite zlen_cons. f_equal. f_equal. lia.
Qed.

(** The text of a number: a sign when it is negative, and its digits. *)
Definition num_text (flags base v : Z) : list Z :=
  (if v <? 0 then [45] else []) ++ (digit_char flags <$> num_digits base (Z.abs v)).

Lemma num_digits_head base v :
  2 <= base -> 0 <= v < 2 ^ 64 -> exists d ds, num_digits base v = d :: ds.
Proof.
  intros Hb Hv. unfold num_digits. destruct (Z.eqb_spec v 0) as [->|H]; [by eexists _, _|].
  destruct (reverse (lsd 64 base v)) as [|d ds] eqn:E; [|by eexists _, _].
  apply (f_equal length) in E. rewrite length_reverse in E. cbn [lsd] in E.
  rewrite (proj2 (Z.eqb_neq _ _) H) in E. done.
Qed.

Lemma skip_space_none m s c :
  m !! s = Some c -> ~ (c = 32 \/ c = 9 \/ c = 10) -> skip_space (walk_fuel m) m s = Some s.
Proof.
  intros H Hc. unfold walk_fuel. cbn [skip_space]. rewrite H. bind.
  by rewrite !(proj2 (Z.eqb_neq _ _)) by tauto.
Qed.

Lemma strtol_text flags base m s v :
  8 <= base < 16 -> - 2 ^ 63 < v < 2 ^ 63 -> cstr_at m s (num_text flags base v) ->
  strtol m s base = Some (v, s + zlen (num_text flags base v)).
Proof.
  intros Hb Hv Hs. pose proof (num_digits_value base (Z.abs v) ltac:(lia) ltac:(lia)) as Hval.
  pose proof (num_digits_range base (Z.abs v) ltac:(lia) ltac:(lia)) as Hrng.
  assert (forall q, base_prefix m q base = Some (base, q)) as Hpre.
  { intros q. unfold base_prefix. by rewrite !(proj2 (Z.eqb_neq _ _)) by lia. }
  assert (forall q, cstr_at m q (digit_char flags <$> num_digits base (Z.abs v)) ->
    conv_digits (walk_fuel m) m q base 0 = Some (Z.abs v, q + zlen (num_digits base (Z.abs v)))) as Hconv.
  { intros q Hq. rewrite (conv_digits_ok _ flags _ _ _ _ (num_digits base (Z.abs v)));
      [by rewrite Hval|lia|lia|done|done| |lia].
    pose proof (walk_fuel_ok _ _ _ Hq) as H. by rewrite length_fmap in H. }
  unfold strtol, num_text in *. destruct (Z.ltb_spec v 0) as [Hn|Hp].
  - cbn [app] in *. apply cstr_cons in Hs as (H0 & _ & Hs).
    rewrite (skip_space_none _ _ _ H0) by lia. bind. rewrite H0. bind. cbn [Z.eqb Pos.eqb orb].
    rewrite Hpre. bind. rewrite (Hconv _ Hs). bind. rewrite long_ok by lia. bind.
    f_equal. rewrite zlen_cons. unfold zlen. rewrite length_fmap. f_equal; lia.
  - cbn [app] in *. destruct (num_digits_head base (Z.abs v)) as (d & ds & E); [lia..|].
    pose proof Hs as Hs'. rewrite E, fmap_cons in Hs'. apply cstr_cons in Hs' as (H0 & _ & _).
    rewrite E in Hrng. apply Forall_cons in Hrng as [Hd _].
    destruct (digit_char_back flags d ltac:(lia)) as [_ Hc].
    rewrite (skip_space_none _ _ _ H0) by lia. bind. rewrite H0. bind.
    rewrite !(proj2 (Z.eqb_neq _ _)) by lia. cbn [orb].
    rewrite Hpre. bind. rewrite (Hconv _ Hs). bind. unfold zlen. rewrite length_fmap. f_equal. f_equal. lia.
Qed.

(** ** Printing numbers *)

Lemma out_local_app l1 l2 p : out_local (l1 ++ l2) p = p' ← out_local l1 p; out_local l2 p'.
Proof.
  revert p. induction l1 as [|c l1 IH]; intros p; [done|]. cbn [app out_local].
  destruct (out_char c p); bind; [apply IH|done].
Qed.

Definition plain (flags : Z) : Prop :=
  has flags FLAGS_PRECISION = false /\ has flags FLAGS_PLUS = false /\
  has flags FLAGS_SPACE = false /\ has flags FLAGS_HASH = false.

(** Without modifiers format_int prints the text of the number. *)
Lemma format_int_plain value flags p :
  plain flags -> - 2 ^ 63 < value < 2 ^ 63 ->
  format_int value 10 0 (-1) flags p = out_local (num_text flags 10 value) p.
Proof.
  intros (F1 & F2 & F3 & F4) Hv. unfold format_int, num_text. change (10 =? 10) with true.
  rewrite F1, F2, F3, F4. cbn [andb orb]. rewrite andb_true_r.
  assert ((if value <? 0 then v ← long (- value); Some (u64 v) else Some (u64 value))
          = Some (Z.abs value)) as ->.
  { destruct (Z.ltb_spec value 0); [rewrite long_ok by lia; bind|]; rewrite u64_small by lia; f_equal; lia. }
  bind. destruct (ntoa_ok (Z.abs value) 10 flags ltac:(lia) ltac:(lia)) as [junk ->]. bind.
  pose proof (num_digits_length 10 (Z.abs value) ltac:(lia) ltac:(lia)) as Hl.
  assert (0 <= zlen (num_digits 10 (Z.abs value)) <= 22) as Hz by (unfold zlen; lia).
  destruct (num_digits_head 10 (Z.abs value)) as (d & ds & E); [lia..|].
  assert (forall j, zget ((digit_char flags <$> num_digits 10 (Z.abs value)) ++ j) 0
                    = Some (digit_char flags d)) as -> by (intros; by rewrite E). bind.
  rewrite zlen_to_nat, <- (length_fmap (digit_char flags)), take_app_length.
  rewrite cint_ok by lia. bind. rewrite !orb_false_r.
  assert (forall b x, 0 <= x <= 100 -> (if b : bool then cint (x + 1) else Some x)
                      = Some (if b then x + 1 else x)) as Hc
    by (intros [] x Hx; [apply cint_ok; lia|done]).
  rewrite Hc by lia. bind. rewrite (proj2 (Z.ltb_ge _ 0)) by (destruct (value <? 0); lia).
  cbn [andb]. bind. change (0 <? 0) with false. rewrite !andb_false_r. cbn [when]. bind.
  destruct (value <? 0); bind; cbn [app out_local]; [destruct (out_char 45 p); bind; [|done]|];
    change (out_pad 48 0) with (fun q : printer => Some q); cbv beta; bind;
    by destruct (out_local _ _).
Qed.

(** Output to the console always succeeds, and appends. *)
Lemma out_local_serial l p :
  putc_fn p = PutSerial ->
  out_local l p = Some (Printer (p_mem p) (p_serial p ++ l) PutSerial (snprintf_buf p)
                          (snprintf_pos p) (snprintf_size p)).
Proof.
  revert p. induction l as [|c l IH]; intros p E; cbn [out_local].
  - rewrite app_nil_r, <- E. by destruct p.
  - unfold out_char. rewrite E. bind. rewrite IH by done. cbn. by rewrite <- app_assoc.
Qed.

(** Output to a buffer with enough room writes the text there. *)
Lemma out_local_buf l p :
  putc_fn p = PutBuf -> Forall is_byte l -> snprintf_size p < 2 ^ 64 -> 0 <= snprintf_pos p ->
  snprintf_pos p + zlen l < snprintf_size p ->
  mapped (p_mem p) (snprintf_buf p + snprintf_pos p) (zlen l) ->
  out_local l p = Some (Printer (blit (p_mem p) (snprintf_buf p + snprintf_pos p) l) (p_serial p)
                          PutBuf (snprintf_buf p) (snprintf_pos p + zlen l) (snprintf_size p)).
Proof.
  revert p. induction l as [|c l IH]; intros p E Hb Hs H0 Hp Hm; cbn [out_local blit].
  - change (zlen []) with 0. rewrite Z.add_0_r, <- E. by destruct p.
  - apply Forall_cons in Hb as [Hc Hb]. rewrite zlen_cons in *. pose proof (zlen_nonneg l).
    unfold out_char, snprintf_putc. rewrite E, u64_small by lia.
    rewrite (proj2 (Z.ltb_lt _ _)) by lia. rewrite store_mapped; [|apply Hm; lia|done]. bind.
    rewrite IH; cbn; [|done|done|done|lia|lia|].
    + do 2 f_equal; [|lia]. f_equal. lia.
    + apply mapped_insert. eapply mapped_sub; [exact Hm|lia..].
Qed.

Lemma kvprintf_loop_nul k fmt count ap p :
  p_mem p !! fmt = Some 0 -> (0 < k)%nat -> kvprintf_loop k fmt count ap p = Some (count, p).
Proof. intros H Hk. destruct k; [lia|]. cbn [kvprintf_loop]. by rewrite H. Qed.

(** The format strings [%ld] and [%lu]. *)
Definition fmt_ld : list Z := [37; 108; 100].
Definition fmt_lu : list Z := [37; 108; 117].

(** A format of one [l] conversion: the rest of the format is read after the output. *)
Lemma kvprintf_l spec fmt args p :
  spec = 100 \/ spec = 117 -> cstr_at (p_mem p) fmt [37; 108; spec] ->
  kvprintf fmt args p =
    '(ap, p') ← convert spec 0 (-1) FLAGS_LONG 0 args p;
    kvprintf_loop (size (p_mem p)) (fmt + 3) 0 ap p'.
Proof.
  intros Hspec H. pose proof H as (H0 & _ & (H1 & _ & (H2 & _ & _)%cstr_cons)%cstr_cons)%cstr_cons.
  replace (fmt + 1 + 1) with (fmt + 2) in H2 by lia.
  assert (walk_fuel (p_mem p) = S (size (p_mem p))) as Hw by done.
  unfold kvprintf. rewrite Hw. cbn [kvprintf_loop]. rewrite H0. bind. cbn [Z.eqb Pos.eqb negb].
  rewrite H1. bind. cbn [Z.eqb Pos.eqb]. unfold directive.
  assert (parse_flags (walk_fuel (p_mem p)) (p_mem p) (fmt + 1) 0 = Some (fmt + 1, 0)) as ->.
  { rewrite Hw. cbn [parse_flags]. by rewrite H1. }
  bind. assert (parse_width (p_mem p) (fmt + 1) 0 args = Some (fmt + 1, 0, 0, args)) as ->.
  { unfold parse_width. rewrite H1. bind. cbn [Z.eqb Pos.eqb]. rewrite Hw. cbn [parse_num]. by rewrite H1. }
  bind. assert (parse_precision (p_mem p) (fmt + 1) 0 args = Some (fmt + 1, 0, -1, args)) as ->.
  { unfold parse_precision. by rewrite H1. }
  bind. assert (parse_length (p_mem p) (fmt + 1) 0 = Some (fmt + 2, FLAGS_LONG)) as ->.
  { unfold parse_length. rewrite H1. bind. cbn [Z.eqb Pos.eqb].
    replace (fmt + 1 + 1) with (fmt + 2) by lia. rewrite H2. bind.
    by rewrite (proj2 (Z.eqb_neq spec 108)) by lia. }
  bind. rewrite H2. bind.
  destruct (convert spec 0 (-1) FLAGS_LONG 0 args p) as [[ap q]|]; bind; [|done].
  by replace (fmt + 2 + 1) with (fmt + 3) by lia.
Qed.

Lemma sint64_range v : - 2 ^ 63 <= sint64 v < 2 ^ 63.
Proof. pose proof (u64_range v). unfold sint64. destruct (Z.ltb_spec (u64 v) (2 ^ 63)); lia. Qed.

Lemma sint64_small v : - 2 ^ 63 <= v < 2 ^ 63 -> sint64 (u64 v) = v.
Proof.
  intros H. unfold sint64. rewrite u64_idemp. unfold u64, wrap. destruct (Z.ltb_spec (v mod 2 ^ 64) (2 ^ 63)); divlia.
Qed.

(** Both conversions end in the same call of format_int. *)
Lemma convert_l spec count v ap p :
  spec = 100 \/ spec = 117 ->
  convert spec 0 (-1) FLAGS_LONG count (v :: ap) p
  = p' ← format_int (sint64 v) 10 0 (-1) FLAGS_LONG p; Some (ap, p').
Proof.
  intros [-> | ->]; unfold convert; cbn [Z.eqb Pos.eqb orb].
  - unfold va_signed. change (has FLAGS_LONG FLAGS_LONG_LONG) with false.
    change (has FLAGS_LONG FLAGS_LONG) with true. unfold va_i64, va_u64. bind.
    unfold sint64 at 1. rewrite !u64_idemp. done.
  - unfold va_unsigned. change (has FLAGS_LONG FLAGS_LONG_LONG) with false.
    change (has FLAGS_LONG FLAGS_LONG) with true. unfold va_u64. bind.
    unfold sint64 at 1. rewrite !u64_idemp. done.
Qed.

Lemma plain_long : plain FLAGS_LONG.
Proof. done. Qed.

(** Both %ld and %lu print the 64-bit argument as a signed decimal number, without leading
    zeros, in at most 23 characters; so %lu prints a value above [2 ^ 63] as a negative number.
    (The value [- 2 ^ 63], whose negation overflows, is the one exception.) *)
Theorem kprintf_long_spec spec fmt v p :
  spec = 100 \/ spec = 117 -> putc_fn p = PutSerial -> cstr_at (p_mem p) fmt [37; 108; spec] ->
  sint64 v ≠ - 2 ^ 63 ->
  kprintf fmt [v] p =
    Some (0, Printer (p_mem p) (p_serial p ++ num_text FLAGS_LONG 10 (sint64 v)) PutSerial
               (snprintf_buf p) (snprintf_pos p) (snprintf_size p)).
Proof.
  intros Hs Hp Hf Hv. pose proof (sint64_range v). unfold kprintf.
  rewrite (kvprintf_l spec) by done. rewrite convert_l by done.
  rewrite format_int_plain by (try apply plain_long; lia). rewrite out_local_serial by done. bind.
  pose proof Hf as (_ & _ & (_ & _ & (_ & _ & H3%cstr_nil)%cstr_cons)%cstr_cons)%cstr_cons.
  replace (fmt + 1 + 1 + 1) with (fmt + 3) in H3 by lia.
  pose proof (cstr_size _ _ _ Hf) as Hsz. cbn [length] in Hsz.
  by rewrite kvprintf_loop_nul by (done || lia).
Qed.

Definition fmt_mem (l : list Z) : bytemem := list_to_map (zip (seqZ 4096 (zlen l)) l).

Lemma kprintf_long_spec_witness :
  kprintf 4096 [2 ^ 64 - 1] (Printer (fmt_mem [37; 108; 117; 0]) [] PutSerial 0 0 0) =
    Some (0, Printer (fmt_mem [37; 108; 117; 0]) [45; 49] PutSerial 0 0 0) /\
  kprintf 4096 [1024] (Printer (fmt_mem [37; 108; 100; 0]) [] PutSerial 0 0 0) =
    Some (0, Printer (fmt_mem [37; 108; 100; 0]) [49; 48; 50; 52] PutSerial 0 0 0).
Proof.
  split.
  - exact (kprintf_long_spec 117 4096 (2 ^ 64 - 1) (Printer (fmt_mem [37; 108; 117; 0]) [] PutSerial 0 0 0)
      ltac:(by right) eq_refl ltac:(apply cstr_at_dec_ok; vm_compute; reflexivity) ltac:(vm_compute; discriminate)).
  - exact (kprintf_long_spec 100 4096 1024 (Printer (fmt_mem [37; 108; 100; 0]) [] PutSerial 0 0 0)
      ltac:(by left) eq_refl ltac:(apply cstr_at_dec_ok; vm_compute; reflexivity) ltac:(vm_compute; discriminate)).
Defined.

Lemma digit_char_byte flags d : 0 <= d < 16 -> 0 < digit_char flags d < 256.
Proof. intros Hd. destruct (digit_char_back flags d Hd). lia. Qed.

Lemma num_text_chars flags base v :
  2 <= base <= 16 -> Forall (fun c => 0 < c < 256) (num_text flags base v).
Proof.
  intros Hb. unfold num_text. apply Forall_app. split.
  - destruct (v <? 0); repeat constructor; lia.
  - apply Forall_fmap. eapply Forall_impl; [apply (num_digits_range base); lia|].
    intros d Hd. cbv beta in Hd. apply digit_char_byte. lia.
Qed.

Lemma num_text_length flags v : - 2 ^ 63 <= v < 2 ^ 63 -> zlen (num_text flags 10 v) <= 23.
Proof.
  intros Hv. unfold num_text. rewrite zlen_app.
  replace (zlen (digit_char flags <$> _)) with (zlen (num_digits 10 (Z.abs v))) by (unfold zlen; by rewrite length_fmap).
  unfold zlen at 2.
  pose proof (num_digits_length 10 (Z.abs v) ltac:(lia) ltac:(lia)).
  destruct (v <? 0); [change (zlen [45]) with 1|change (zlen []) with 0]; lia.
Qed.

(** Printing a number into a buffer with %ld and reading the buffer with strtol gives the
    number back, for every 64-bit number above [- 2 ^ 63]. *)
Theorem print_parse_roundtrip buf size fmt v p :
  24 <= size < 2 ^ 64 -> mapped (p_mem p) buf size -> cstr_at (p_mem p) fmt fmt_ld ->
  fmt + 4 <= buf \/ buf + size <= fmt -> - 2 ^ 63 < v < 2 ^ 63 ->
  exists p' e, ksnprintf buf size fmt [u64 v] p = Some (0, p') /\
    cstr_at (p_mem p') buf (num_text FLAGS_LONG 10 v) /\ strtol (p_mem p') buf 10 = Some (v, e).
Proof.
  intros Hs Hm Hf Hd Hv. unfold ksnprintf. rewrite (proj2 (Z.eqb_neq _ _)) by lia. unfold print_to.
  rewrite (kvprintf_l 100) by (try done; by left). rewrite convert_l by (by left).
  rewrite sint64_small by lia. rewrite format_int_plain by (try apply plain_long; lia).
  set (t := num_text FLAGS_LONG 10 v).
  pose proof (num_text_length FLAGS_LONG v ltac:(lia)) as Hl. fold t in Hl.
  pose proof (num_text_chars FLAGS_LONG 10 v ltac:(lia)) as Hc. fold t in Hc. pose proof (zlen_nonneg t).
  rewrite out_local_buf; cbn [putc_fn p_mem p_serial snprintf_buf snprintf_pos snprintf_size];
    [|done|eapply Forall_impl; [exact Hc|unfold is_byte; intros; lia]|lia|lia|lia|].
  2:{ rewrite Z.add_0_r. eapply mapped_sub; [exact Hm|lia..]. }
  bind. rewrite Z.add_0_r, Z.add_0_l.
  pose proof Hf as (_ & _ & (_ & _ & (_ & _ & H3%cstr_nil)%cstr_cons)%cstr_cons)%cstr_cons.
  replace (fmt + 1 + 1 + 1) with (fmt + 3) in H3 by lia.
  pose proof (cstr_size _ _ _ Hf) as Hsz. cbn [length fmt_ld] in Hsz.
  rewrite kvprintf_loop_nul; [|cbn [p_mem]; rewrite blit_lookup, decide_False by lia; exact H3|lia].
  bind. cbn [p_mem snprintf_pos].
  rewrite store_mapped; [|apply (mapped_blit _ buf size); [done|lia]|done]. bind.
  rewrite <- blit_snoc.
  assert (cstr_at (blit (p_mem p) buf (t ++ [0])) buf t) as Hcs.
  { split; [apply bytes_at_blit|]. intros H0. rewrite Forall_forall in Hc. specialize (Hc 0 H0). lia. }
  eexists _, _. split; [done|]. cbn [p_mem set_mem set_fn]. split; [done|].
  by apply (strtol_text FLAGS_LONG); [lia|lia|].
Qed.

Definition roundtrip_example : printer :=
  Printer (fmt_mem [37; 108; 100; 0] ∪ list_to_map (zip (seqZ 8192 24) (replicate 24 7))) []
    PutSerial 0 0 0.

Lemma print_parse_roundtrip_witness :
  exists p' e, ksnprintf 8192 24 4096 [u64 (-907)] roundtrip_example = Some (0, p') /\
    cstr_at (p_mem p') 8192 (num_text FLAGS_LONG 10 (-907)) /\
    strtol (p_mem p') 8192 10 = Some (-907, e).
Proof.
  refine (print_parse_roundtrip 8192 24 4096 (-907) roundtrip_example _ _ _ _ _);
    [lia|apply mapped_dec_ok; vm_compute; reflexivity|apply cstr_at_dec_ok; vm_compute; reflexivity
    |left; lia|lia].
Defined.

(** A buffer of three bytes, too small for the text. *)
Lemma ksnprintf_confined_witness :
  match ksnprintf 8192 3 4096 [u64 (-907)] roundtrip_example with
  | Some (_, p') =>
      (forall x, ~ (8192 <= x < 8192 + 3) ->
         (forall a, a ∈ [u64 (-907)] -> ~ (u64 a <= x < u64 a + 4)) ->
         p_mem p' !! x = p_mem roundtrip_example !! x) /\
      (exists k, 0 <= k < 3 /\ p_mem p' !! (8192 + k) = Some 0) /\
      putc_fn p' = putc_fn roundtrip_example
  | None => False
  end.
Proof.
  destruct (ksnprintf 8192 3 4096 [u64 (-907)] roundtrip_example) as [[ret p']|] eqn:E.
  - exact (ksnprintf_confined 8192 3 4096 [u64 (-907)] roundtrip_example ret p' ltac:(lia) E).
  - vm_compute in E. discriminate E.
Defined.

(** ** A percent sign at the end of the format *)

Lemma kvprintf_literal l k fmt count ap p :
  putc_fn p = PutSerial -> bytes_at (p_mem p) fmt l -> 0 ∉ l -> 37 ∉ l ->
  kvprintf_loop (length l + k) fmt count ap p =
  kvprintf_loop k (fmt + zlen l) (count + zlen l) ap
    (Printer (p_mem p) (p_serial p ++ l) PutSerial (snprintf_buf p) (snprintf_pos p) (snprintf_size p)).
Proof.
  revert fmt count p. induction l as [|c l IH]; intros fmt count p E H H0 H37.
  - cbn [length Nat.add]. change (zlen []) with 0. rewrite app_nil_r, !Z.add_0_r, <- E. by destruct p.
  - apply bytes_at_cons in H as [Hc H]. apply not_elem_of_cons in H0 as [Hc0 H0].
    apply not_elem_of_cons in H37 as [Hc37 H37]. cbn [length Nat.add kvprintf_loop]. rewrite Hc. bind.
    rewrite !(proj2 (Z.eqb_neq _ _)) by congruence. cbn [negb]. unfold out_char at 1. rewrite E. bind.
    rewrite IH by done. cbn [p_mem p_serial snprintf_buf snprintf_pos snprintf_size serial_putc].
    rewrite <- app_assoc, zlen_cons. cbn [app].
    replace (fmt + 1 + zlen l) with (fmt + (zlen l + 1)) by lia.
    by replace (count + 1 + zlen l) with (count + (zlen l + 1)) by lia.
Qed.

(** A format that ends in a percent sign makes kvprintf step over the terminating NUL and go
    on reading behind the string: it faults when nothing is mapped there, although the whole
    format is. *)
Theorem trailing_percent_overruns l fmt args p :
  putc_fn p = PutSerial -> cstr_at (p_mem p) fmt (l ++ [37]) -> 37 ∉ l ->
  p_mem p !! (fmt + zlen l + 2) = None -> kprintf fmt args p = None.
Proof.
  intros E H H37 Hn. pose proof (cstr_size _ _ _ H) as Hs. rewrite length_app in Hs. cbn in Hs.
  pose proof H as (Hl & H0 & (Hp & _ & Hz%cstr_nil)%cstr_cons)%cstr_app.
  unfold kprintf, kvprintf, walk_fuel.
  replace (S (size (p_mem p))) with (length l + S (S (size (p_mem p) - length l - 1)))%nat by lia.
  rewrite kvprintf_literal by done. set (q := Printer _ _ _ _ _ _).
  assert (p_mem q = p_mem p) as Eq by done.
  assert (directive (fmt + zlen l + 1) (0 + zlen l) args q =
    Some (fmt + zlen l + 2, args, serial_putc 0 (serial_putc 37 q))) as Ed.
  { unfold directive. rewrite Eq. unfold walk_fuel. cbn [parse_flags]. rewrite Hz. bind.
    cbn [Z.eqb]. bind. unfold parse_width. rewrite Hz. bind. cbn [Z.eqb]. unfold walk_fuel.
    cbn [parse_num]. rewrite Hz. bind. change ((48 <=? schar 0) && (schar 0 <=? 57)) with false. bind.
    unfold parse_precision. rewrite Hz. bind. cbn [Z.eqb]. bind. unfold parse_length. rewrite Hz. bind.
    cbn [Z.eqb orb]. bind. rewrite Hz. bind. unfold convert. cbn [Z.eqb orb]. unfold out_char. cbn.
    by replace (fmt + zlen l + 1 + 1) with (fmt + zlen l + 2) by lia. }
  remember (S (size (p_mem p) - length l - 1)) as k.
  cbn [kvprintf_loop]. rewrite Eq, Hp. bind. cbn [Z.eqb Pos.eqb negb]. rewrite Hz. bind. cbn [Z.eqb].
  rewrite Ed. bind. destruct k as [|k]; [done|]. cbn [kvprintf_loop p_mem serial_putc]. by rewrite Eq, Hn.
Qed.

Lemma trailing_percent_overruns_witness :
  kprintf 4096 [] (Printer (fmt_mem [49; 48; 48; 37; 0]) [] PutSerial 0 0 0) = None.
Proof.
  refine (trailing_percent_overruns [49; 48; 48] 4096 [] (Printer (fmt_mem [49; 48; 48; 37; 0]) [] PutSerial 0 0 0)
    eq_refl _ _ _); [apply cstr_at_dec_ok; vm_compute; reflexivity|set_solver by lia|vm_compute; reflexivity].
Defined.
