(* ===== verification/LibcString.v ===== *)
(** * String functions of the C library (lib/libc/src/string.c)

    The user-space counterparts of kernel/lib/string.c, over the same byte memory.  Loops that
    are written as in the kernel reuse the loop definitions of [KString]; those written
    differently (byte-wise memset, memcpy and memmove, the index loop of strnlen, the
    pre-decrement of strncmp, the needle test of strstr) have their own, and the theorem of this
    file shows that both libraries compute the same. *)
From S2P Require Import Prelude Defs ByteMem KString.

(** ** The code *)

Definition memcpy (m : bytemem) (dest src n : Z) : option (bytemem * Z) :=
  m' ← copy_bytes (Z.to_nat n) m dest src; Some (m', dest).

Definition memmove (m : bytemem) (dest src n : Z) : option (bytemem * Z) :=
  m' ← (if dest <? src then copy_bytes (Z.to_nat n) m dest src
        else copy_back (Z.to_nat n) m (dest + n) (src + n));
  Some (m', dest).

Definition memset (m : bytemem) (s c n : Z) : option (bytemem * Z) :=
  m' ← set_bytes (Z.to_nat n) m s (u8 c); Some (m', s).

Definition memcmp (m : bytemem) (s1 s2 n : Z) : option Z := cmp_bytes (Z.to_nat n) m s1 s2.

Definition memchr (m : bytemem) (s c n : Z) : option Z := chr_bytes (Z.to_nat n) m s (u8 c).

Definition strlen (m : bytemem) (s : Z) : option Z :=
  p ← scan_nul (walk_fuel m) m s; Some (p - s).

(** [while (len < maxlen && s[len]) len++;] *)
Fixpoint strnlen_loop (k : nat) (m : bytemem) (s len : Z) : option Z :=
  match k with
  | O => Some len
  | S k' => c ← m !! (s + len); if c =? 0 then Some len else strnlen_loop k' m s (len + 1)
  end.
Definition strnlen (m : bytemem) (s maxlen : Z) : option Z := strnlen_loop (Z.to_nat maxlen) m s 0.

Definition strcpy (m : bytemem) (dest src : Z) : option (bytemem * Z) :=
  m' ← copy_nul (walk_fuel m) m dest src; Some (m', dest).

Definition strncpy (m : bytemem) (dest src n : Z) : option (bytemem * Z) :=
  '(m1, d, n1) ← copy_max (Z.to_nat n) m dest src;
  m2 ← set_bytes n1 m1 d 0;
  Some (m2, dest).

Definition strcat (m : bytemem) (dest src : Z) : option (bytemem * Z) :=
  d ← scan_nul (walk_fuel m) m dest;
  m' ← copy_nul (walk_fuel m) m d src;
  Some (m', dest).

Definition strncat (m : bytemem) (dest src n : Z) : option (bytemem * Z) :=
  d ← scan_nul (walk_fuel m) m dest;
  '(m1, d1, _) ← copy_max (Z.to_nat n) m d src;
  m2 ← store m1 d1 0;
  Some (m2, dest).

Definition strcmp (m : bytemem) (s1 s2 : Z) : option Z := strcmp_loop (walk_fuel m) m s1 s2.

(** [while (--n && *s1 && *s1 == *s2) { s1++; s2++; } return *s1 - *s2;], with [k] the value of
    [n] after the decrement. *)
Fixpoint strncmp_pre (k : nat) (m : bytemem) (s1 s2 : Z) : option Z :=
  a ← m !! s1; b ← m !! s2;
  match k with
  | O => Some (a - b)
  | S k' => if (a =? 0) || negb (a =? b) then Some (a - b) else strncmp_pre k' m (s1 + 1) (s2 + 1)
  end.
Definition strncmp (m : bytemem) (s1 s2 n : Z) : option Z :=
  if n =? 0 then Some 0 else strncmp_pre (Z.to_nat (n - 1)) m s1 s2.

Definition strchr (m : bytemem) (s c : Z) : option Z := strchr_loop (walk_fuel m) m s (u8 c) c.

Definition strrchr (m : bytemem) (s c : Z) : option Z :=
  strrchr_loop (walk_fuel m) m s (u8 c) c NULL.

Fixpoint strstr_cmp (fuel : nat) (m : bytemem) (haystack needle needle_len : Z) : option Z :=
  match fuel with
  | O => None
  | S f => h ← m !! haystack;
           if h =? 0 then Some NULL
           else r ← strncmp m haystack needle needle_len;
                if r =? 0 then Some haystack else strstr_cmp f m (haystack + 1) needle needle_len
  end.
Definition strstr (m : bytemem) (haystack needle : Z) : option Z :=
  n0 ← m !! needle;
  if n0 =? 0 then Some haystack
  else needle_len ← strlen m needle; strstr_cmp (walk_fuel m) m haystack needle needle_len.

(** ** Both libraries agree *)

#[local] Ltac bind := cbn [mbind option_bind].

Lemma strnlen_loop_scan k m s len :
  strnlen_loop k m s len = p ← scan_max k m (s + len); Some (p - s).
Proof.
  revert len. induction k as [|k IH]; intros len; cbn [strnlen_loop scan_max]; bind.
  - f_equal. lia.
  - destruct (m !! (s + len)) as [c|]; bind; [|done]. destruct (c =? 0); bind.
    + f_equal. lia.
    + by rewrite IH, Z.add_assoc.
Qed.

Lemma strncmp_pre_ok k m s1 s2 l1 l2 :
  cstr_at m s1 l1 -> cstr_at m s2 l2 ->
  strncmp_pre k m s1 s2 = Some (lex_diff (take (S k) l1) (take (S k) l2)).
Proof.
  revert s1 s2 l1 l2. induction k as [|k IH]; intros s1 s2 l1 l2 H1 H2.
  all: destruct l1 as [|a l1]; [apply cstr_nil in H1|apply cstr_cons in H1 as (H1' & Ha & H1)].
  all: destruct l2 as [|b l2]; [apply cstr_nil in H2|apply cstr_cons in H2 as (H2' & Hb & H2)].
  all: cbn [strncmp_pre]; rewrite ?H1, ?H1'; bind; rewrite ?H2, ?H2'; bind; cbn [take lex_diff].
  all: try (rewrite (proj2 (Z.eqb_neq _ _) Ha)); rewrite ?Z.sub_0_r; try done.
  - destruct (Z.eqb_spec a b) as [->|]; [|done]. cbn. by rewrite Z.sub_diag.
  - destruct (Z.eqb_spec a b) as [->|]; cbn [orb negb]; [|done]. rewrite (IH _ _ _ _ H1 H2). done.
Qed.

Lemma strncmp_equiv m s1 s2 l1 l2 n :
  cstr_at m s1 l1 -> cstr_at m s2 l2 -> 0 <= n -> strncmp m s1 s2 n = KString.strncmp m s1 s2 n.
Proof.
  intros H1 H2 Hn. unfold strncmp, KString.strncmp. rewrite (strncmp_loop_ok _ _ _ _ _ _ H1 H2).
  destruct (Z.eqb_spec n 0) as [->|]; [done|]. rewrite (strncmp_pre_ok _ _ _ _ _ _ H1 H2).
  by replace (S (Z.to_nat (n - 1))) with (Z.to_nat n) by lia.
Qed.

Lemma strstr_cmp_equiv fuel m s h p n :
  bytemem_ok m -> cstr_at m s h -> cstr_at m p n -> n ≠ [] ->
  strstr_cmp fuel m s p (zlen n) = strstr_loop fuel m s p (zlen n).
Proof.
  intros Hm Hs Hp Hn. revert s h Hs. induction fuel as [|f IH]; intros s h Hs; [done|].
  cbn [strstr_cmp strstr_loop]. destruct h as [|b h].
  { apply cstr_nil in Hs. by rewrite Hs. }
  destruct n as [|c0 n0]; [done|].
  pose proof Hs as (Hs0 & Hb & Hs')%cstr_cons. pose proof Hp as (Hp0 & _ & _)%cstr_cons.
  rewrite Hs0, Hp0. bind. rewrite (proj2 (Z.eqb_neq _ _) Hb).
  rewrite (strncmp_equiv _ _ _ _ _ _ Hs Hp) by apply zlen_nonneg.
  destruct (strncmp_prefix m s p _ _ Hm Hs Hp) as (r & -> & Hr). bind. rewrite (IH _ _ Hs').
  destruct (Z.eqb_spec b c0) as [->|Hne]; [done|].
  destruct (Z.eqb_spec r 0) as [->|]; [|done]. exfalso.
  pose proof (proj1 Hr eq_refl) as Hpre. apply prefix_cons_inv_1 in Hpre. congruence.
Qed.

(** On valid arguments the differently written functions of the C library return what the
    kernel's do: memcpy, memmove and memset leave the same memory, and strnlen, strncmp and
    strstr give the same result. *)
Theorem libc_kernel_equiv m d s c n s1 s2 l1 l2 :
  bytemem_ok m -> 0 <= n -> mapped m d n -> mapped m s n ->
  cstr_at m s1 l1 -> cstr_at m s2 l2 ->
  (forward_ok d s n -> memcpy m d s n = KString.memcpy m d s n) /\
  memmove m d s n = KString.memmove m d s n /\
  memset m d c n = KString.memset m d c n /\
  strnlen m s1 n = KString.strnlen m s1 n /\
  strncmp m s1 s2 n = KString.strncmp m s1 s2 n /\
  strstr m s1 s2 = KString.strstr m s1 s2.
Proof.
  intros Hm Hn Hd Hs H1 H2. destruct (mapped_bytes m s n Hn Hs) as (l & <- & Hl).
  pose proof (bytes_at_bytes _ _ _ Hm Hl) as Hb. split_and!.
  - intros Hf. rewrite memcpy_ok by done. unfold memcpy. by rewrite zlen_to_nat, copy_bytes_ok.
  - rewrite memmove_ok by done. unfold memmove. rewrite zlen_to_nat.
    destruct (Z.ltb_spec d s) as [Hlt|Hge]; [|by rewrite copy_back_ok].
    rewrite copy_bytes_ok; [done..|]. unfold forward_ok. lia.
  - rewrite memset_ok by done. unfold memset. rewrite set_bytes_ok; [done|by rewrite Z2Nat.id|].
    apply (wrap_fits 8). lia.
  - unfold strnlen, KString.strnlen. by rewrite strnlen_loop_scan, Z.add_0_r.
  - by eapply strncmp_equiv.
  - unfold strstr, KString.strstr. unfold strlen. fold (KString.strlen m s2).
    rewrite (strlen_ok _ _ _ H2). bind. destruct l2 as [|c0 l2].
    + apply cstr_nil in H2. by rewrite H2.
    + pose proof H2 as (E0 & Hc0 & _)%cstr_cons. rewrite E0. bind. rewrite (proj2 (Z.eqb_neq _ _) Hc0).
      rewrite (proj2 (Z.eqb_neq _ 0)).
      * by eapply strstr_cmp_equiv.
      * rewrite zlen_cons. pose proof (zlen_nonneg l2). lia.
Qed.

Lemma libc_kernel_equiv_witness :
  memmove strstr_example 4097 4096 4 = KString.memmove strstr_example 4097 4096 4 /\
  strstr strstr_example 4096 8192 = KString.strstr strstr_example 4096 8192.
Proof.
  pose proof (libc_kernel_equiv strstr_example 4097 4096 7 4 4096 8192 [97; 98; 97; 98; 99; 97] [97; 98; 99]
    ltac:(apply bytemem_ok_dec_ok; vm_compute; reflexivity) ltac:(lia)
    ltac:(apply mapped_dec_ok; vm_compute; reflexivity) ltac:(apply mapped_dec_ok; vm_compute; reflexivity)
    ltac:(apply cstr_at_dec_ok; vm_compute; reflexivity) ltac:(apply cstr_at_dec_ok; vm_compute; reflexivity))
    as (_ & H1 & _ & _ & _ & H2).
  exact (conj H1 H2).
Defined.
