(* ===== verification/LibcStdlib.v ===== *)
(** * Number conversion of the C library (lib/libc/src/stdlib.c)

    strtol and the functions built on it, absolute values and the character tests, over the byte
    memory; the heap of the same source file is [LibcHeap]. *)
From stdpp Require Import list_numbers.
From S2P Require Import Prelude Defs ByteMem KString.

(** ** The code *)

(** [int abs(int)], [long labs(long)]: negating the smallest value overflows. *)
Definition abs (j : Z) : option Z :=
  if j <? 0 then (if - j <? 2 ^ 31 then Some (- j) else None) else Some j.
Definition labs (j : Z) : option Z := if j <? 0 then long (- j) else Some j.

Definition isspace (c : Z) : bool :=
  (c =? 32) || (c =? 9) || (c =? 10) || (c =? 13) || (c =? 12) || (c =? 11).
Definition isdigit (c : Z) : bool := (48 <=? c) && (c <=? 57).
Definition isalpha (c : Z) : bool := ((97 <=? c) && (c <=? 122)) || ((65 <=? c) && (c <=? 90)).

Fixpoint skip_isspace (fuel : nat) (m : bytemem) (s : Z) : option Z :=
  match fuel with
  | O => None
  | S f => c ← m !! s; if isspace (schar c) then skip_isspace f m (s + 1) else Some s
  end.

Definition digit_value (c : Z) : option Z :=
  if isdigit c then Some (c - 48)
  else if isalpha c then Some (Z.lor c 0x20 - 97 + 10) else None.

Fixpoint conv_chars (fuel : nat) (m : bytemem) (s base result : Z) : option (Z * Z) :=
  match fuel with
  | O => None
  | S f =>
      c ← m !! s;
      if c =? 0 then Some (result, s)
      else match digit_value (schar c) with
           | None => Some (result, s)
           | Some digit =>
               if base <=? digit then Some (result, s)
               else r ← long (result * base); r ← long (r + digit);
                    conv_chars f m (s + 1) base r
           end
  end.

Definition strtol (m : bytemem) (nptr base : Z) : option (Z * Z) :=
  s ← skip_isspace (walk_fuel m) m nptr;
  c ← m !! s;
  let negative := c =? 45 in
  let s := if (c =? 45) || (c =? 43) then s + 1 else s in
  '(base, s) ← base_prefix m s base;
  '(result, s) ← conv_chars (walk_fuel m) m s base 0;
  r ← (if negative then long (- result) else Some result);
  Some (r, s).

Definition strtoul (m : bytemem) (nptr base : Z) : option (Z * Z) :=
  '(r, e) ← strtol m nptr base; Some (u64 r, e).
Definition atoi (m : bytemem) (nptr : Z) : option Z := '(r, _) ← strtol m nptr 10; Some (int32 r).
Definition atol (m : bytemem) (nptr : Z) : option Z := '(r, _) ← strtol m nptr 10; Some r.
Definition atoll (m : bytemem) (nptr : Z) : option Z := '(r, _) ← strtol m nptr 10; Some r.

(** ** The two conversions agree *)

(** The digit of every byte is the same in both. *)
Lemma digit_value_equiv c : is_byte c -> digit_value (schar c) = digit_of (schar c).
Proof.
  intros Hc. assert (c ∈ seqZ 0 256) as Hin by (apply elem_of_seqZ; unfold is_byte in Hc; lia).
  assert (forallb (fun c => bool_decide (digit_value (schar c) = digit_of (schar c))) (seqZ 0 256) = true) as H
    by (vm_compute; reflexivity).
  rewrite forallb_forall in H. apply list_elem_of_In in Hin.
  by apply (proj1 (bool_decide_eq_true _)), H.
Qed.

Lemma conv_chars_equiv fuel m s base r :
  bytemem_ok m -> conv_chars fuel m s base r = conv_digits fuel m s base r.
Proof.
  intros Hm. revert s r. induction fuel as [|f IH]; intros s r; [done|]. cbn [conv_chars conv_digits].
  destruct (m !! s) as [c|] eqn:E; cbn [mbind option_bind]; [|done].
  rewrite digit_value_equiv by exact (Hm _ _ E). destruct (c =? 0); [done|].
  destruct (digit_of (schar c)); [|done]. destruct (base <=? _); [done|].
  destruct (long _); cbn [mbind option_bind]; [|done]. destruct (long _); cbn [mbind option_bind]; [|done].
  apply IH.
Qed.

(** The white space only the library skips: carriage return, form feed, vertical tab. *)
Definition other_space (c : Z) : bool := (c =? 13) || (c =? 12) || (c =? 11).

Lemma skip_isspace_equiv fuel m s l :
  bytemem_ok m -> cstr_at m s l -> forallb (fun c => negb (other_space c)) l = true ->
  skip_isspace fuel m s = skip_space fuel m s.
Proof.
  intros Hm. revert s l. induction fuel as [|f IH]; intros s l Hs Hl; [done|]. cbn [skip_isspace skip_space].
  assert (forall c, is_byte c -> other_space c = false ->
    isspace (schar c) = (c =? 32) || (c =? 9) || (c =? 10)) as Hsp.
  { intros c Hc Ho. unfold other_space in Ho. unfold isspace, schar, is_byte in *.
    destruct (Z.ltb_spec c 128).
    - destruct (c =? 13), (c =? 12), (c =? 11); try done. by rewrite !orb_false_r.
    - rewrite !(proj2 (Z.eqb_neq _ _)) by lia. done. }
  destruct l as [|c l].
  - apply cstr_nil in Hs. by rewrite Hs.
  - apply cstr_cons in Hs as (H0 & Hc & Hs). cbn [forallb] in Hl. apply andb_true_iff in Hl as [Ho Hl].
    rewrite H0. cbn [mbind option_bind]. rewrite Hsp; [|exact (Hm _ _ H0)|by destruct (other_space c)].
    destruct (_ || _); [|done]. by eapply IH.
Qed.

(** strtol of the C library and of the kernel return the same value and end pointer, in
    every base, on every string without carriage return, form feed or vertical tab (which only
    the library skips as white space). *)
Theorem strtol_libc_kernel_equiv m s l base :
  bytemem_ok m -> cstr_at m s l -> forallb (fun c => negb (other_space c)) l = true ->
  strtol m s base = KString.strtol m s base.
Proof.
  intros Hm Hs Hl. unfold strtol, KString.strtol. rewrite (skip_isspace_equiv _ _ _ _ Hm Hs Hl).
  destruct (skip_space _ m s) as [s1|]; cbn [mbind option_bind]; [|done].
  destruct (m !! s1) as [c|]; cbn [mbind option_bind]; [|done].
  destruct (base_prefix m _ base) as [[b s2]|]; cbn [mbind option_bind]; [|done].
  by rewrite conv_chars_equiv.
Qed.

(** [" -0x1F"] *)
Definition strtol_example : bytemem := list_to_map (zip (seqZ 4096 7) [32; 45; 48; 120; 49; 70; 0]).

Lemma strtol_libc_kernel_equiv_witness :
  strtol strtol_example 4096 0 = KString.strtol strtol_example 4096 0 /\
  strtol strtol_example 4096 0 = Some (-31, 4102).
Proof.
  split; [|vm_compute; reflexivity].
  refine (strtol_libc_kernel_equiv strtol_example 4096 [32; 45; 48; 120; 49; 70] 0 _ _ _);
    [apply bytemem_ok_dec_ok; vm_compute; reflexivity|apply cstr_at_dec_ok; vm_compute; reflexivity
    |vm_compute; reflexivity].
Defined.
