(* ===== verification/LibcHeap.v ===== *)
(** * The heap of the C library (lib/libc/src/stdlib.c)

    malloc, free, calloc and realloc over a fixed area of 128 KiB, a list of blocks whose headers
    lie in the area.  The headers are kept in a map from their addresses, the bytes of the blocks
    in the byte memory; [None] is an access to an address that holds no header (an invalid
    pointer).  [heap_area], the address of the array, is a parameter.  The loops over the list
    have one step per header, which is enough because every step moves on or removes a block. *)
From S2P Require Import Prelude Defs ByteMem KString LibcString.

(** ** The code *)

Definition LIBC_HEAP_SIZE : Z := 128 * 1024.
Definition LIBC_HEAP_ALIGN : Z := 16.

Record heap_block := HeapBlock { hb_size : Z; hb_free : Z; hb_next : Z }.

(** [sizeof(struct heap_block)] *)
Definition HB_SIZE : Z := 24.

Record heap := Heap { heap_head : Z; headers : gmap Z heap_block; heap_mem : bytemem }.

Definition set_headers (hs : gmap Z heap_block) (h : heap) : heap := Heap (heap_head h) hs (heap_mem h).
Definition set_heap_mem (m : bytemem) (h : heap) : heap := Heap (heap_head h) (headers h) m.

Definition align_up_size (value align : Z) : Z :=
  Z.land (u64 (value + align - 1)) (lnotw 64 (align - 1)).

Definition heap_init (heap_area : Z) (h : heap) : heap :=
  if negb (heap_head h =? 0) then h
  else Heap heap_area (<[heap_area := HeapBlock (LIBC_HEAP_SIZE - HB_SIZE) 1 0]> (headers h)) (heap_mem h).

Definition split_block (hs : gmap Z heap_block) (block size : Z) : option (gmap Z heap_block) :=
  b ← hs !! block;
  let next := block + HB_SIZE + size in
  Some (<[block := HeapBlock size (hb_free b) next]>
          (<[next := HeapBlock (u64 (hb_size b - size - HB_SIZE)) 1 (hb_next b)]> hs)).

Fixpoint coalesce_loop (fuel : nat) (hs : gmap Z heap_block) (block : Z)
  : option (gmap Z heap_block) :=
  match fuel with
  | O => None
  | S f =>
      if block =? 0 then Some hs
      else b ← hs !! block;
           if hb_next b =? 0 then Some hs
           else n ← hs !! hb_next b;
                if ztrue (hb_free b) && ztrue (hb_free n) then
                  coalesce_loop f
                    (<[block := HeapBlock (u64 (hb_size b + (HB_SIZE + hb_size n))) (hb_free b) (hb_next n)]> hs)
                    block
                else coalesce_loop f hs (hb_next b)
  end.

Definition coalesce_blocks (h : heap) : option heap :=
  hs ← coalesce_loop (S (size (headers h))) (headers h) (heap_head h);
  Some (set_headers hs h).

(** [if (block->size >= aligned_size + sizeof( *block ) + LIBC_HEAP_ALIGN) split_block(...)] *)
Definition trim (hs : gmap Z heap_block) (block aligned_size : Z) : option (gmap Z heap_block) :=
  b ← hs !! block;
  if u64 (aligned_size + HB_SIZE + LIBC_HEAP_ALIGN) <=? hb_size b
  then split_block hs block aligned_size else Some hs.

Fixpoint malloc_loop (fuel : nat) (hs : gmap Z heap_block) (block aligned_size : Z)
  : option (Z * gmap Z heap_block) :=
  match fuel with
  | O => None
  | S f =>
      if block =? 0 then Some (NULL, hs)
      else b ← hs !! block;
           if negb (ztrue (hb_free b)) || (hb_size b <? aligned_size)
           then malloc_loop f hs (hb_next b) aligned_size
           else hs ← trim hs block aligned_size;
                b ← hs !! block;
                Some (block + HB_SIZE, <[block := HeapBlock (hb_size b) 0 (hb_next b)]> hs)
  end.

Definition malloc (heap_area : Z) (h : heap) (n : Z) : option (Z * heap) :=
  if n =? 0 then Some (NULL, h)
  else let h := heap_init heap_area h in
       '(p, hs) ← malloc_loop (S (size (headers h))) (headers h) (heap_head h)
                    (align_up_size n LIBC_HEAP_ALIGN);
       Some (p, set_headers hs h).

Definition free (h : heap) (ptr : Z) : option heap :=
  if ptr =? 0 then Some h
  else let block := ptr - HB_SIZE in
       b ← headers h !! block;
       coalesce_blocks (set_headers (<[block := HeapBlock (hb_size b) 1 (hb_next b)]> (headers h)) h).

Definition calloc (heap_area : Z) (h : heap) (nmemb n : Z) : option (Z * heap) :=
  if (nmemb =? 0) || (n =? 0) then Some (NULL, h)
  else if (2 ^ 64 - 1) / n <? nmemb then Some (NULL, h)
  else let total := u64 (nmemb * n) in
       '(ptr, h) ← malloc heap_area h total;
       if ptr =? 0 then Some (NULL, h)
       else '(m, _) ← memset (heap_mem h) ptr 0 total; Some (ptr, set_heap_mem m h).

Definition realloc (heap_area : Z) (h : heap) (ptr n : Z) : option (Z * heap) :=
  if ptr =? 0 then malloc heap_area h n
  else if n =? 0 then h ← free h ptr; Some (NULL, h)
  else
    let block := ptr - HB_SIZE in
    let aligned_size := align_up_size n LIBC_HEAP_ALIGN in
    b ← headers h !! block;
    if aligned_size <=? hb_size b then
      hs ← trim (headers h) block aligned_size; Some (ptr, set_headers hs h)
    else
      grow ← (if hb_next b =? 0 then Some None
              else nb ← headers h !! hb_next b;
                   Some (if ztrue (hb_free nb) && (aligned_size <=? u64 (hb_size b + HB_SIZE + hb_size nb))
                         then Some nb else None));
      match grow with
      | Some nb =>
          hs ← trim (<[block := HeapBlock (u64 (hb_size b + (HB_SIZE + hb_size nb))) (hb_free b) (hb_next nb)]>
                       (headers h)) block aligned_size;
          Some (ptr, set_headers hs h)
      | None =>
          '(new_ptr, h) ← malloc heap_area h n;
          if new_ptr =? 0 then Some (NULL, h)
          else
            b ← headers h !! block;
            '(m, _) ← memcpy (heap_mem h) new_ptr ptr (if hb_size b <? n then hb_size b else n);
            h ← free (set_heap_mem m h) ptr;
            Some (new_ptr, h)
      end.

(** ** The heap as a sequence of blocks

    A block is its size and whether it is free; the sequence tiles the area. *)

Notation blk := (Z * bool)%type.

Definition next_of (a : Z) (l : list blk) : Z := match l with [] => 0 | _ => a end.

Fixpoint chain (hs : gmap Z heap_block) (e a : Z) (l : list blk) : Prop :=
  match l with
  | [] => a = e
  | (n, f) :: l' =>
      hs !! a = Some (HeapBlock n (Z.b2z f) (next_of (a + HB_SIZE + n) l')) /\ 0 <= n /\
      chain hs e (a + HB_SIZE + n) l'
  end.

(** First fit, splitting off what is left when it can hold a header and 16 bytes more. *)
Fixpoint first_fit (req : Z) (l : list blk) : option (nat * list blk) :=
  match l with
  | [] => None
  | (n, f) :: l' =>
      if f && (req <=? n) then
        Some (O, if req + HB_SIZE + LIBC_HEAP_ALIGN <=? n
                 then (req, false) :: (n - req - HB_SIZE, true) :: l' else (n, false) :: l')
      else '(i, l'') ← first_fit req l'; Some (S i, (n, f) :: l'')
  end.

(** Merging neighbours that are both free, from a block [(n, f)] on. *)
Fixpoint merge (n : Z) (f : bool) (l : list blk) : list blk :=
  match l with
  | [] => [(n, f)]
  | (n2, f2) :: l' => if f && f2 then merge (n + HB_SIZE + n2) true l' else (n, f) :: merge n2 f2 l'
  end.

(** The address of block [i]. *)
Fixpoint addr_of (a : Z) (l : list blk) (i : nat) : Z :=
  match i, l with
  | S i', (n, _) :: l' => addr_of (a + HB_SIZE + n) l' i'
  | _, _ => a
  end.

(** The regions handed out: pointer and size of every block that is not free. *)
Fixpoint allocs (a : Z) (l : list blk) : list (Z * Z) :=
  match l with
  | [] => []
  | (n, f) :: l' =>
      (if f then [] else [(a + HB_SIZE, n)]) ++ allocs (a + HB_SIZE + n) l'
  end.

(** ** Lemmas on the sequence *)

Lemma align16_ok n : 0 < n <= 2 ^ 64 - 16 ->
  align_up_size n LIBC_HEAP_ALIGN = (n + 15) / 16 * 16 /\ n <= (n + 15) / 16 * 16 < n + 16.
Proof.
  intros Hn. unfold align_up_size, LIBC_HEAP_ALIGN. rewrite u64_small by lia.
  replace (16 - 1) with (2 ^ 4 - 1) by lia. rewrite land_lnotw_ones; [|lia|unfold fits; lia].
  change (2 ^ 4) with 16. split; divlia.
Qed.

(** A size within 15 bytes of [2 ^ 64] wraps around to zero. *)
Lemma align16_wraps n : 2 ^ 64 - 16 < n < 2 ^ 64 -> align_up_size n LIBC_HEAP_ALIGN = 0.
Proof.
  intros Hn. unfold align_up_size, LIBC_HEAP_ALIGN.
  assert (u64 (n + 16 - 1) = n + 15 - 2 ^ 64) as -> by (unfold u64, wrap; divlia).
  replace (16 - 1) with (2 ^ 4 - 1) by lia. rewrite land_lnotw_ones; [|lia|unfold fits; lia].
  change (2 ^ 4) with 16. divlia.
Qed.

Section chains.
  Context (e : Z) (He : e < 2 ^ 63).

Lemma chain_le hs a l : chain hs e a l -> a <= e.
  Proof using.
    revert a. induction l as [|[n f] l IH]; intros a H; cbn [chain] in H; [lia|].
    destruct H as (_ & Hn & H%IH). unfold HB_SIZE in *. lia.
  Qed.

Lemma chain_agree hs hs' a l :
    (forall x, a <= x -> hs' !! x = hs !! x) -> chain hs e a l -> chain hs' e a l.
  Proof using.
    revert a. induction l as [|[n f] l IH]; intros a Hx H; cbn [chain] in *; [done|].
    destruct H as (H0 & Hn & H). split_and!; [by rewrite Hx by lia|done|].
    apply IH; [|done]. intros x Hge. apply Hx. unfold HB_SIZE in Hge. lia.
  Qed.

Lemma chain_insert_below hs a l x b : x < a -> chain hs e a l -> chain (<[x := b]> hs) e a l.
  Proof using.
    intros Hx. apply chain_agree. intros y Hy. apply lookup_insert_ne. lia.
  Qed.

  (** There are at least as many headers as blocks: the measure of the loops. *)
Lemma chain_length hs a l : chain hs e a l -> (length l <= size hs)%nat.
  Proof using.
    revert hs a. induction l as [|[n f] l IH]; intros hs a H; [cbn; lia|].
    destruct H as (H0 & Hn & H). cbn [length].
    assert (chain (delete a hs) e (a + HB_SIZE + n) l) as H'.
    { eapply chain_agree; [|exact H]. intros x Hx. apply lookup_delete_ne. unfold HB_SIZE in Hx. lia. }
    apply IH in H'. rewrite map_size_delete_Some in H' by eauto.
    assert (size hs ≠ 0%nat) as Hz. { intros E%map_size_empty_inv. by rewrite E, lookup_empty in H0. }
    lia.
  Qed.

Lemma split_chain hs a n f l req :
    chain hs e a ((n, f) :: l) -> 0 < a -> 0 <= req -> req + HB_SIZE <= n ->
    exists hs', split_block hs a req = Some hs' /\
      chain hs' e a ((req, f) :: (n - req - HB_SIZE, true) :: l) /\
      (forall x, x < a -> hs' !! x = hs !! x).
  Proof using He.
    intros (H0 & Hn & H) Ha Hr Hs. pose proof (chain_le _ _ _ H) as Hle. unfold HB_SIZE in *.
    eexists. unfold split_block. rewrite H0. cbn [mbind option_bind hb_size hb_free hb_next].
    split; [done|]. rewrite u64_small by (unfold HB_SIZE; lia). unfold HB_SIZE. split.
    - cbn [chain next_of]. unfold HB_SIZE. split_and!; [by rewrite lookup_insert_eq|lia| |lia|].
      + rewrite lookup_insert_ne, lookup_insert_eq by lia.
        by replace (a + 24 + req + 24 + (n - req - 24)) with (a + 24 + n) by lia.
      + replace (a + 24 + req + 24 + (n - req - 24)) with (a + 24 + n) by lia.
        by do 2 (apply chain_insert_below; [lia|]).
    - intros x Hx. by rewrite !lookup_insert_ne by lia.
  Qed.

  (** trim keeps the block, or splits it exactly when the rest is worth a block. *)
Lemma trim_chain hs a n f l req :
    chain hs e a ((n, f) :: l) -> 0 < a -> 0 <= req <= n ->
    exists hs' n', trim hs a req = Some hs' /\
      chain hs' e a (if req + HB_SIZE + LIBC_HEAP_ALIGN <=? n
                     then (req, f) :: (n - req - HB_SIZE, true) :: l else (n, f) :: l) /\
      hs' !! a = Some n' /\ (forall x, x < a -> hs' !! x = hs !! x).
  Proof using He.
    intros H Ha Hr. pose proof H as (H0 & Hn & H1). pose proof (chain_le _ _ _ H1) as Hle.
    unfold trim. rewrite H0. cbn [mbind option_bind hb_size]. unfold HB_SIZE, LIBC_HEAP_ALIGN in *.
    rewrite u64_small by lia.
    destruct (Z.leb_spec (req + 24 + 16) n) as [Hle'|Hgt].
    - destruct (split_chain hs a n f l req H Ha ltac:(lia) ltac:(unfold HB_SIZE; lia)) as (hs' & E & Hc & Hx).
      eexists hs', _. split; [done|]. split; [done|]. split; [apply Hc|done].
    - eexists hs, _. by split_and!.
  Qed.

Lemma b2z_true f : ztrue (Z.b2z f) = f.
  Proof using. by destruct f. Qed.

Lemma next_of_cons a b l : next_of a (b :: l) = a.
  Proof using. done. Qed.

Lemma next_of_merge a n f l : next_of a (merge n f l) = a.
  Proof using.
    revert n f. induction l as [|[n2 f2] l IH]; intros n f; cbn [merge]; [done|].
    destruct (f && f2); [apply IH|done].
  Qed.

  (** Writing the flag of the first block. *)
Lemma chain_set_free hs a n f l b f' :
    chain hs e a ((n, f) :: l) -> hs !! a = Some b ->
    chain (<[a := HeapBlock (hb_size b) (Z.b2z f') (hb_next b)]> hs) e a ((n, f') :: l).
  Proof using.
    intros (H0 & Hn & H) Hb. rewrite H0 in Hb. injection Hb as <-. cbn [chain hb_size hb_next].
    rewrite lookup_insert_eq. split; [done|]. split; [done|].
    apply chain_insert_below; [unfold HB_SIZE; lia|done].
  Qed.

  (** malloc's loop is first fit. *)
Lemma malloc_loop_ok fuel hs a l req :
    chain hs e a l -> 0 < a -> 0 <= req -> (length l < fuel)%nat ->
    match first_fit req l with
    | None => malloc_loop fuel hs (next_of a l) req = Some (NULL, hs)
    | Some (i, l') =>
        exists hs', malloc_loop fuel hs (next_of a l) req = Some (addr_of a l i + HB_SIZE, hs') /\
          chain hs' e a l' /\ l' ≠ [] /\ (forall x, x < a -> hs' !! x = hs !! x)
    end.
  Proof using He.
    revert hs a fuel. induction l as [|[n f] l IH]; intros hs a [|k] H Ha Hr Hk; cbn [length] in Hk; try lia.
    - done.
    - pose proof H as (H0 & Hn & H1). rewrite next_of_cons. cbn [malloc_loop first_fit].
      rewrite (proj2 (Z.eqb_neq _ _)) by lia. rewrite H0. cbn [mbind option_bind hb_free hb_size hb_next].
      rewrite b2z_true. destruct (f && (req <=? n)) eqn:Ef.
      + apply andb_true_iff in Ef as [-> Hle%Z.leb_le]. rewrite (proj2 (Z.ltb_ge _ _)) by lia. cbn [negb orb].
        destruct (trim_chain hs a n true l req H Ha ltac:(lia)) as (hs1 & b & -> & Hc & Hb & Hx).
        cbn [mbind option_bind addr_of]. rewrite Hb. cbn [mbind option_bind]. eexists. split; [done|].
        destruct (req + HB_SIZE + LIBC_HEAP_ALIGN <=? n).
        all: split; [exact (chain_set_free _ _ _ _ _ _ false Hc Hb)|]; split; [done|].
        all: intros x Hlt; rewrite lookup_insert_ne by lia; by apply Hx.
      + assert ((negb f || (n <? req)) = true) as ->.
        { apply andb_false_iff in Ef as [->|Hle%Z.leb_gt]; [done|]. apply orb_true_iff. right. lia. }
        specialize (IH hs (a + HB_SIZE + n) k H1 ltac:(unfold HB_SIZE; lia) Hr ltac:(lia)).
        destruct (first_fit req l) as [[i l']|] eqn:E; cbn [mbind option_bind]; [|done].
        destruct IH as (hs' & Em & Hc & Hnil & Hx). exists hs'. split; [done|]. split.
        * cbn [chain]. split_and!; [|done|done]. rewrite Hx by (unfold HB_SIZE; lia). rewrite H0.
          do 2 f_equal. destruct l, l'; done.
        * split; [done|]. intros x Hlt. apply Hx. unfold HB_SIZE. lia.
  Qed.

  (** The coalescing loop merges. *)
Lemma coalesce_loop_ok fuel hs a n f l :
    chain hs e a ((n, f) :: l) -> 0 < a -> (length l < fuel)%nat ->
    exists hs', coalesce_loop fuel hs a = Some hs' /\ chain hs' e a (merge n f l) /\
      (forall x, x < a -> hs' !! x = hs !! x).
  Proof using He.
    revert hs a n f fuel. induction l as [|[n2 f2] l IH]; intros hs a n f [|k] H Ha Hk; cbn [length] in Hk; try lia.
    - pose proof H as (H0 & _ & _). cbn [coalesce_loop]. rewrite (proj2 (Z.eqb_neq _ _)) by lia.
      rewrite H0. cbn [mbind option_bind hb_next next_of]. by exists hs.
    - pose proof H as (H0 & Hn & H2 & Hn2 & H1). pose proof (chain_le _ _ _ H1) as Hle.
      cbn [coalesce_loop]. rewrite (proj2 (Z.eqb_neq _ _)) by lia.
      rewrite H0. cbn [mbind option_bind hb_next next_of hb_free hb_size].
      rewrite (proj2 (Z.eqb_neq _ _)) by (unfold HB_SIZE; lia). rewrite H2.
      cbn [mbind option_bind hb_next hb_free hb_size]. rewrite !b2z_true. cbn [merge].
      destruct (f && f2) eqn:Ef.
      + rewrite u64_small by (unfold HB_SIZE in *; lia). apply andb_true_iff in Ef as [-> ->].
        rewrite Z.add_assoc.
        destruct (IH (<[a:=HeapBlock (n + HB_SIZE + n2) (Z.b2z true) (next_of (a + HB_SIZE + n + HB_SIZE + n2) l)]> hs)
          a (n + HB_SIZE + n2) true k) as (hs' & E & Hc & Hx); [|done|lia|].
        * cbn [chain]. rewrite lookup_insert_eq.
          replace (a + HB_SIZE + (n + HB_SIZE + n2)) with (a + HB_SIZE + n + HB_SIZE + n2) by lia.
          split_and!; [done|unfold HB_SIZE; lia|]. apply chain_insert_below; [unfold HB_SIZE; lia|done].
        * exists hs'. split; [done|]. split; [done|]. intros x Hlt. rewrite Hx by done. apply lookup_insert_ne. lia.
      + destruct (IH hs (a + HB_SIZE + n) n2 f2 k) as (hs' & E & Hc & Hx);
          [done|unfold HB_SIZE; lia|lia|].
        exists hs'. split; [done|]. split.
        * cbn [chain]. split_and!; [|done|done]. rewrite Hx by (unfold HB_SIZE; lia). rewrite H0.
          by rewrite next_of_merge.
        * intros x Hlt. apply Hx. unfold HB_SIZE. lia.
  Qed.
End chains.

(** ** Regions *)

(** The room a sequence of blocks takes. *)
Fixpoint span (l : list blk) : Z :=
  match l with [] => 0 | (n, _) :: l' => HB_SIZE + n + span l' end.

Lemma span_app l1 l2 : span (l1 ++ l2) = span l1 + span l2.
Proof. induction l1 as [|[n f] l1 IH]; cbn [app span]; lia. Qed.

Lemma allocs_app a l1 l2 : allocs a (l1 ++ l2) = allocs a l1 ++ allocs (a + span l1) l2.
Proof.
  revert a. induction l1 as [|[n f] l1 IH]; intros a; cbn [app allocs span].
  - by rewrite Z.add_0_r.
  - rewrite IH, <- app_assoc. by replace (a + HB_SIZE + n + span l1) with (a + (HB_SIZE + n + span l1)) by lia.
Qed.

Lemma allocs_split a l p n :
  (p, n) ∈ allocs a l -> exists l1 l2, l = l1 ++ (n, false) :: l2 /\ p = a + span l1 + HB_SIZE.
Proof.
  revert a. induction l as [|[m f] l IH]; intros a H; cbn [allocs] in H; [set_solver|].
  apply elem_of_app in H as [H|H].
  - destruct f; [set_solver|]. apply list_elem_of_singleton in H. simplify_eq.
    exists [], l. split; [done|]. cbn. lia.
  - apply IH in H as (l1 & l2 & -> & ->). exists ((m, f) :: l1), l2. split; [done|]. cbn [span]. lia.
Qed.

Lemma addr_of_app a l1 b l2 : addr_of a (l1 ++ b :: l2) (length l1) = a + span l1.
Proof.
  revert a. induction l1 as [|[n f] l1 IH]; intros a; cbn [app length addr_of span].
  - destruct b. lia.
  - rewrite IH. lia.
Qed.

Definition sizes_ok (l : list blk) : Prop := Forall (fun b : blk => 0 <= b.1) l.

Lemma chain_sizes hs e a l : chain hs e a l -> sizes_ok l /\ e = a + span l.
Proof.
  revert a. induction l as [|[n f] l IH]; intros a H; cbn [chain span] in *; [split; [constructor|lia]|].
  destruct H as (_ & Hn & H%IH). destruct H as [H1 H2]. split; [by constructor|]. unfold HB_SIZE in *. lia.
Qed.

Lemma span_nonneg l : sizes_ok l -> 0 <= span l.
Proof. induction 1 as [|[n f] l Hn _ IH]; cbn [span]; [done|]. cbn in Hn. unfold HB_SIZE. lia. Qed.

Lemma allocs_range a l p n :
  sizes_ok l -> (p, n) ∈ allocs a l -> a + HB_SIZE <= p /\ 0 <= n /\ p + n <= a + span l.
Proof.
  intros Hs H. apply allocs_split in H as (l1 & l2 & -> & ->). unfold sizes_ok in Hs.
  rewrite Forall_app, Forall_cons in Hs. destruct Hs as (H1 & Hn & H2). cbn in Hn.
  apply span_nonneg in H1, H2. rewrite span_app. cbn [span]. lia.
Qed.

(** Two regions of different blocks do not meet. *)
Lemma allocs_apart a l : sizes_ok l -> ForallOrdPairs no_overlap (allocs a l).
Proof.
  intros Hs. revert a. induction l as [|[n f] l IH]; intros a; cbn [allocs]; [constructor|].
  apply Forall_cons in Hs as [Hn Hs]. cbn in Hn. destruct f; cbn [app]; [by apply IH|].
  constructor; [|by apply IH]. apply Forall_forall. intros [q m] Hq.
  apply (allocs_range _ _ _ _ Hs) in Hq as (Hq & Hm & _). left. cbn. unfold HB_SIZE in *. lia.
Qed.

Lemma allocs_nodup a l : sizes_ok l -> NoDup (allocs a l).*1.
Proof.
  intros Hs. revert a. induction l as [|[n f] l IH]; intros a; cbn [allocs]; [constructor|].
  apply Forall_cons in Hs as [Hn Hs]. cbn in Hn. destruct f; cbn [app]; [by apply IH|].
  rewrite fmap_cons. constructor; [|by apply IH]. intros ([q m] & E & Hq)%list_elem_of_fmap.
  apply (allocs_range _ _ _ _ Hs) in Hq as (Hq & Hm & _). cbn in E. unfold HB_SIZE in *. lia.
Qed.

(** What first fit, merging and freeing do to the regions. *)
Lemma first_fit_split req l i l' :
  first_fit req l = Some (i, l') ->
  exists l1 n l2, l = l1 ++ (n, true) :: l2 /\ i = length l1 /\ req <= n /\
    l' = l1 ++ (if req + HB_SIZE + LIBC_HEAP_ALIGN <=? n
                then (req, false) :: (n - req - HB_SIZE, true) :: l2 else (n, false) :: l2) /\
    Forall (fun b : blk => b.2 = false \/ b.1 < req) l1.
Proof.
  revert i l'. induction l as [|[n f] l IH]; intros i l' H; cbn [first_fit] in H; [done|].
  destruct (f && (req <=? n)) eqn:E.
  - apply andb_true_iff in E as [-> Hle%Z.leb_le]. simplify_eq. exists [], n, l. by split_and!.
  - destruct (first_fit req l) as [[j l'']|]; [|done]. cbn in H. simplify_eq.
    destruct (IH _ _ eq_refl) as (l1 & m & l2 & -> & -> & Hm & -> & Hf).
    exists ((n, f) :: l1), m, l2. split_and!; [done..|]. constructor; [|done].
    apply andb_false_iff in E as [->|Hgt%Z.leb_gt]; [by left|by right].
Qed.

Lemma first_fit_none req l :
  first_fit req l = None <-> Forall (fun b : blk => b.2 = false \/ b.1 < req) l.
Proof.
  induction l as [|[n f] l IH]; cbn [first_fit]; [split; [constructor|done]|]. rewrite Forall_cons. cbn.
  destruct (f && (req <=? n)) eqn:E.
  - apply andb_true_iff in E as [-> Hle%Z.leb_le]. split; [done|]. intros [[?|?] _]; [done|lia].
  - destruct (first_fit req l) as [[j l'']|]; cbn; [split; [done|]|]; intros.
    + destruct H as [_ H%IH]. done.
    + split; [intros _; split; [|by apply IH]|done].
      apply andb_false_iff in E as [->|Hgt%Z.leb_gt]; [by left|by right].
Qed.

Lemma allocs_merge a n f l : allocs a (merge n f l) = allocs a ((n, f) :: l).
Proof.
  revert a n f. induction l as [|[n2 f2] l IH]; intros a n f; cbn [merge]; [done|].
  destruct (f && f2) eqn:E.
  - apply andb_true_iff in E as [-> ->]. rewrite IH. cbn [allocs app].
    by replace (a + HB_SIZE + (n + HB_SIZE + n2)) with (a + HB_SIZE + n + HB_SIZE + n2) by lia.
  - change (allocs a ((n, f) :: merge n2 f2 l))
      with ((if f then [] else [(a + HB_SIZE, n)]) ++ allocs (a + HB_SIZE + n) (merge n2 f2 l)).
    by rewrite IH.
Qed.

Lemma fit_allocs a (cut : bool) req n l1 l2 :
  allocs a (l1 ++ (if cut then (req, false) :: (n - req - HB_SIZE, true) :: l2 else (n, false) :: l2))
  ≡ₚ (a + span l1 + HB_SIZE, if cut then req else n) :: allocs a (l1 ++ (n, true) :: l2).
Proof.
  rewrite !allocs_app. destruct cut; cbn [allocs app].
  - replace (a + span l1 + HB_SIZE + req + HB_SIZE + (n - req - HB_SIZE)) with (a + span l1 + HB_SIZE + n) by lia.
    by rewrite Permutation_middle.
  - by rewrite Permutation_middle.
Qed.

(** Parts of a chain. *)
Lemma chain_mid hs e a l1 b l2 :
  chain hs e a (l1 ++ b :: l2) -> chain hs e (a + span l1) (b :: l2).
Proof.
  revert a. induction l1 as [|[n f] l1 IH]; intros a H; cbn [app span] in *; [by rewrite Z.add_0_r|].
  destruct H as (_ & _ & H%IH). by replace (a + (HB_SIZE + n + span l1)) with (a + HB_SIZE + n + span l1) by lia.
Qed.

Lemma chain_replace hs hs' e a l1 b l2 b' l2' :
  chain hs e a (l1 ++ b :: l2) -> (forall x, x < a + span l1 -> hs' !! x = hs !! x) ->
  chain hs' e (a + span l1) (b' :: l2') -> chain hs' e a (l1 ++ b' :: l2').
Proof.
  revert a. induction l1 as [|[n f] l1 IH]; intros a H Hx H'; cbn [app span] in *; [by rewrite Z.add_0_r in H'|].
  destruct H as (H0 & Hn & H). pose proof H as Hc.
  apply chain_sizes in Hc as [Hs _]. apply Forall_app in Hs as [Hs%span_nonneg _].
  cbn [chain]. split; [|split; [done|]].
  - rewrite Hx by (unfold HB_SIZE; lia). rewrite H0. do 2 f_equal. by destruct l1.
  - apply IH; [done|intros x Hlt; apply Hx; lia|].
    by replace (a + HB_SIZE + n + span l1) with (a + (HB_SIZE + n + span l1)) by lia.
Qed.

(** ** The operations on the sequence *)

(** The heap [h], at [area], holds the blocks [l]; a heap not yet initialised holds one free
    block. *)
Definition heap_rep (area : Z) (h : heap) (l : list blk) : Prop :=
  (heap_head h = 0 /\ l = [(LIBC_HEAP_SIZE - HB_SIZE, true)]) \/
  (heap_head h = area /\ chain (headers h) (area + LIBC_HEAP_SIZE) area l).

Definition coalesce_list (l : list blk) : list blk :=
  match l with [] => [] | (n, f) :: l' => merge n f l' end.

Section heap.
  Context (area : Z) (Ha : 0 < area) (He : area + LIBC_HEAP_SIZE < 2 ^ 63).

Lemma heap_init_ok h l :
    heap_rep area h l ->
    heap_head (heap_init area h) = area /\ heap_mem (heap_init area h) = heap_mem h /\
    chain (headers (heap_init area h)) (area + LIBC_HEAP_SIZE) area l.
  Proof using Ha.
    unfold heap_init. intros [[E ->]|[E H]]; rewrite E; cbn [Z.eqb negb].
    - cbn [headers heap_head heap_mem chain]. rewrite lookup_insert_eq.
      split_and!; try done. unfold LIBC_HEAP_SIZE, HB_SIZE. lia.
    - by rewrite (proj2 (Z.eqb_neq _ _)) by lia.
  Qed.

Lemma chain_nonempty hs l : chain hs (area + LIBC_HEAP_SIZE) area l -> next_of area l = area.
  Proof using. destruct l; [|done]. cbn. unfold LIBC_HEAP_SIZE. lia. Qed.

Lemma malloc_ok h l n :
    heap_rep area h l -> 0 < n <= 2 ^ 64 - 16 ->
    exists h', heap_mem h' = heap_mem h /\
      match first_fit (align_up_size n LIBC_HEAP_ALIGN) l with
      | None => malloc area h n = Some (NULL, h') /\ heap_rep area h' l
      | Some (i, l') => malloc area h n = Some (addr_of area l i + HB_SIZE, h') /\ heap_rep area h' l'
      end.
  Proof using Ha He.
    intros H Hn. destruct (heap_init_ok h l H) as (E1 & E2 & Hc).
    unfold malloc. rewrite (proj2 (Z.eqb_neq _ _)) by lia. set (h0 := heap_init area h) in *.
    destruct (align16_ok n Hn) as [Er Hr].
    pose proof (chain_length _ _ _ _ Hc) as Hlen. pose proof (chain_nonempty _ _ Hc) as Hnx.
    pose proof (malloc_loop_ok _ He (S (size (headers h0))) (headers h0) area l
      (align_up_size n LIBC_HEAP_ALIGN) Hc Ha ltac:(lia) ltac:(lia)) as M.
    rewrite Hnx in M. rewrite E1.
    destruct (first_fit _ l) as [[i l']|].
    - destruct M as (hs' & -> & Hc' & _ & _). cbn [mbind option_bind].
      exists (set_headers hs' h0). split; [done|]. split; [done|]. right. by split.
    - rewrite M. cbn [mbind option_bind]. exists (set_headers (headers h0) h0). split; [done|].
      split; [done|]. right. by split.
  Qed.

Lemma free_ok h l1 n l2 :
    heap_rep area h (l1 ++ (n, false) :: l2) ->
    exists h', free h (area + span l1 + HB_SIZE) = Some h' /\ heap_mem h' = heap_mem h /\
      heap_rep area h' (coalesce_list (l1 ++ (n, true) :: l2)).
  Proof using Ha He.
    intros [[_ E]|[E H]].
    { destruct l1 as [|? [|]]; simplify_eq/=. }
    pose proof (chain_mid _ _ _ _ _ _ H) as Hm. pose proof Hm as (H0 & Hn & _).
    pose proof (chain_sizes _ _ _ _ H) as [Hs _]. apply Forall_app in Hs as [Hs%span_nonneg _].
    unfold free. rewrite (proj2 (Z.eqb_neq _ _)) by (unfold HB_SIZE; lia).
    replace (area + span l1 + HB_SIZE - HB_SIZE) with (area + span l1) by lia.
    rewrite H0. cbn [mbind option_bind].
    set (hs := <[area + span l1 := _]> (headers h)).
    assert (chain hs (area + LIBC_HEAP_SIZE) area (l1 ++ (n, true) :: l2)) as Hc.
    { eapply chain_replace; [exact H| |].
      - intros x Hx. apply lookup_insert_ne. lia.
      - exact (chain_set_free _ _ _ _ _ _ _ true Hm H0). }
    pose proof (chain_length _ _ _ _ Hc) as Hl.
    destruct (l1 ++ (n, true) :: l2) as [|[n0 f0] l0] eqn:El; [by destruct l1|].
    cbn [length] in Hl. clearbody hs.
    destruct (coalesce_loop_ok _ He (S (size hs)) hs area n0 f0 l0 Hc Ha ltac:(lia))
      as (hs' & Eq & Hc' & _).
    unfold coalesce_blocks. cbn [headers set_headers heap_head]. rewrite E, Eq. cbn [mbind option_bind].
    eexists. split; [done|]. split; [done|]. right. by split.
  Qed.

Lemma coalesce_allocs l : allocs area (coalesce_list l) = allocs area l.
  Proof using. destruct l as [|[n f] l]; [done|]. apply allocs_merge. Qed.

Lemma heap_rep_sizes h l : heap_rep area h l -> sizes_ok l /\ span l = LIBC_HEAP_SIZE.
  Proof using.
    intros [[_ ->]|[_ H%chain_sizes]].
    - split; [repeat constructor; vm_compute; discriminate|]. done.
    - destruct H as [H1 H2]. split; [done|lia].
  Qed.

  (** What a program may rely on: malloc hands out a region of at least the size asked for and
      leaves the others; free takes back exactly one. *)
Lemma malloc_regions h l n :
    heap_rep area h l -> 0 < n <= 2 ^ 64 - 16 ->
    exists p h' l', malloc area h n = Some (p, h') /\ heap_rep area h' l' /\ heap_mem h' = heap_mem h /\
      ((p = NULL /\ l' = l) \/
       (0 < p /\ exists m, n <= m /\ allocs area l' ≡ₚ (p, m) :: allocs area l)).
  Proof using Ha He.
    intros H Hn. destruct (malloc_ok h l n H Hn) as (h' & Em & M).
    destruct (align16_ok n Hn) as [Er Hr]. rewrite Er in M.
    destruct (first_fit ((n + 15) / 16 * 16) l) as [[i l']|] eqn:Ef.
    - destruct M as [E Hrep]. destruct (first_fit_split _ _ _ _ Ef) as (l1 & m & l2 & El & -> & Hm & El' & _).
      pose proof (heap_rep_sizes _ _ H) as [Hs _]. rewrite El in Hs. apply Forall_app in Hs as [Hs%span_nonneg _].
      exists (addr_of area l (length l1) + HB_SIZE), h', l'. split_and!; [done..|]. right.
      rewrite El, addr_of_app. split; [unfold HB_SIZE; lia|]. rewrite El'. clear El'.
      eexists. split; [|apply fit_allocs]. destruct (_ <=? m); lia.
    - destruct M as [E Hrep]. exists NULL, h', l. split_and!; [done..|]. by left.
  Qed.

Lemma free_regions h l p m :
    heap_rep area h l -> (p, m) ∈ allocs area l ->
    exists h' l', free h p = Some h' /\ heap_rep area h' l' /\ heap_mem h' = heap_mem h /\
      allocs area l ≡ₚ (p, m) :: allocs area l'.
  Proof using Ha He.
    intros H (l1 & l2 & -> & ->)%allocs_split. destruct (free_ok h l1 m l2 H) as (h' & E & Em & Hr).
    exists h', (coalesce_list (l1 ++ (m, true) :: l2)). split_and!; [done..|].
    rewrite coalesce_allocs, !allocs_app. cbn [allocs app]. by rewrite <- Permutation_middle.
  Qed.

  (** The header of a region that is handed out. *)
Lemma alloc_header h l1 n f l2 :
    heap_rep area h (l1 ++ (n, f) :: l2) -> heap_head h = area ->
    headers h !! (area + span l1)
    = Some (HeapBlock n (Z.b2z f) (next_of (area + span l1 + HB_SIZE + n) l2)).
  Proof using Ha.
    intros [[E _]|[_ H]] Eh; [lia|]. by apply chain_mid in H as (H0 & _ & _).
  Qed.

Lemma alloc_init h l p m : heap_rep area h l -> (p, m) ∈ allocs area l -> heap_head h = area.
  Proof using.
    intros [[_ ->]|[E _]] H; [|done]. cbn [allocs app] in H. by apply not_elem_of_nil in H.
  Qed.

  (** Cutting a block that is in use down to [req] bytes. *)
Lemma trim_rep h hs l1 m l2 req :
    heap_head h = area -> chain hs (area + LIBC_HEAP_SIZE) area (l1 ++ (m, false) :: l2) -> 0 <= req <= m ->
    exists hs' l' m', trim hs (area + span l1) req = Some hs' /\ heap_rep area (set_headers hs' h) l' /\
      req <= m' /\ allocs area l' ≡ₚ (area + span l1 + HB_SIZE, m') :: allocs area (l1 ++ (m, true) :: l2).
  Proof using Ha He.
    intros Eh Hc Hr. pose proof (chain_mid _ _ _ _ _ _ Hc) as Hm.
    pose proof (chain_sizes _ _ _ _ Hc) as [Hs _]. apply Forall_app in Hs as [Hs%span_nonneg _].
    destruct (trim_chain _ He hs (area + span l1) m false l2 req Hm ltac:(lia) Hr) as (hs' & b & E & Ht & _ & Hx).
    set (cut := req + HB_SIZE + LIBC_HEAP_ALIGN <=? m) in *.
    exists hs', (l1 ++ (if cut then (req, false) :: (m - req - HB_SIZE, true) :: l2 else (m, false) :: l2)),
      (if cut then req else m). split; [done|]. split.
    - right. split; [done|]. cbn [headers set_headers]. destruct cut; eapply chain_replace; done.
    - split; [destruct cut; lia|]. apply fit_allocs.
  Qed.

Lemma allocs_flag l1 m l2 :
    allocs area (l1 ++ (m, false) :: l2)
    ≡ₚ (area + span l1 + HB_SIZE, m) :: allocs area (l1 ++ (m, true) :: l2).
  Proof using. exact (fit_allocs area false 0 m l1 l2). Qed.

  (** The result of a realloc that found room. *)
Definition moved (h h' : heap) (l l' : list blk) (p m q n : Z) : Prop :=
    0 < q /\ exists m' r, n <= m' /\ allocs area l ≡ₚ (p, m) :: r /\ allocs area l' ≡ₚ (q, m') :: r /\
      (forall i, 0 <= i < Z.min m n -> heap_mem h' !! (q + i) = heap_mem h !! (p + i)) /\
      (forall x, ~ (q <= x < q + m') -> heap_mem h' !! x = heap_mem h !! x).

Lemma moved_in_place h hs l l' p m m' n r :
    0 < p -> n <= m' -> allocs area l ≡ₚ (p, m) :: r -> allocs area l' ≡ₚ (p, m') :: r ->
    moved h (set_headers hs h) l l' p m p n.
  Proof using. intros. split; [done|]. exists m', r. by split_and!. Qed.

Lemma realloc_shrink h l1 m l2 req n :
    heap_rep area h (l1 ++ (m, false) :: l2) -> heap_head h = area -> 0 <= n <= req -> req <= m ->
    exists hs l', trim (headers h) (area + span l1) req = Some hs /\ heap_rep area (set_headers hs h) l' /\
      moved h (set_headers hs h) (l1 ++ (m, false) :: l2) l' (area + span l1 + HB_SIZE) m
        (area + span l1 + HB_SIZE) n.
  Proof using Ha He.
    intros [[E _]|[_ H]] Eh Hn Hr; [lia|].
    destruct (trim_rep h _ l1 m l2 req Eh H ltac:(lia)) as (hs & l' & m' & E & Hrep & Hm & Hp).
    pose proof (chain_sizes _ _ _ _ H) as [Hs _]. apply Forall_app in Hs as [Hs%span_nonneg _].
    exists hs, l'. split_and!; [done..|].
    eapply (moved_in_place _ _ _ _ _ _ m'); [unfold HB_SIZE; lia|lia|apply allocs_flag|done].
  Qed.

Lemma realloc_grow h l1 m n2 l2 req n :
    heap_rep area h (l1 ++ (m, false) :: (n2, true) :: l2) -> heap_head h = area ->
    0 <= n <= req -> req <= m + HB_SIZE + n2 ->
    exists hs l', trim (<[area + span l1 := HeapBlock (m + (HB_SIZE + n2)) 0
                          (next_of (area + span l1 + HB_SIZE + m + HB_SIZE + n2) l2)]> (headers h))
                    (area + span l1) req = Some hs /\
      heap_rep area (set_headers hs h) l' /\
      moved h (set_headers hs h) (l1 ++ (m, false) :: (n2, true) :: l2) l' (area + span l1 + HB_SIZE) m
        (area + span l1 + HB_SIZE) n.
  Proof using Ha He.
    intros [[E _]|[_ H]] Eh Hn Hr; [lia|]. set (hs1 := <[_ := _]> _).
    pose proof (chain_sizes _ _ _ _ H) as [Hs _]. apply Forall_app in Hs as [Hs%span_nonneg _].
    pose proof (chain_mid _ _ _ _ _ _ H) as (H0 & Hm & H2 & Hn2 & Hc).
    assert (chain hs1 (area + LIBC_HEAP_SIZE) area (l1 ++ (m + HB_SIZE + n2, false) :: l2)) as H1.
    { eapply chain_replace; [exact H|intros x Hx; apply lookup_insert_ne; lia|]. cbn [chain].
      unfold hs1. rewrite lookup_insert_eq, Z.add_assoc.
      replace (area + span l1 + HB_SIZE + (m + HB_SIZE + n2)) with (area + span l1 + HB_SIZE + m + HB_SIZE + n2) by lia.
      split; [done|]. split; [unfold HB_SIZE; lia|].
      apply chain_insert_below; [unfold HB_SIZE; lia|done]. }
    destruct (trim_rep h hs1 l1 (m + HB_SIZE + n2) l2 req Eh H1 ltac:(lia)) as (hs & l' & m' & E & Hrep & Hm' & Hp).
    exists hs, l'. split_and!; [done..|].
    eapply (moved_in_place _ _ _ _ _ _ m'); [unfold HB_SIZE; lia|lia| |exact Hp].
    rewrite allocs_flag, !allocs_app. cbn [allocs app].
    by replace (area + span l1 + HB_SIZE + (m + HB_SIZE + n2)) with (area + span l1 + HB_SIZE + m + HB_SIZE + n2) by lia.
  Qed.

  (** The bytes of the area are mapped. *)
Definition heap_mapped (h : heap) : Prop :=
    bytemem_ok (heap_mem h) /\ mapped (heap_mem h) area LIBC_HEAP_SIZE.

Lemma region_mapped h l p m :
    heap_mapped h -> heap_rep area h l -> (p, m) ∈ allocs area l ->
    mapped (heap_mem h) p m /\ 0 <= m /\ area + HB_SIZE <= p.
  Proof using Ha He.
    intros [_ Hm] H Hin. pose proof (heap_rep_sizes _ _ H) as [Hs Hsp].
    pose proof (allocs_range _ _ _ _ Hs Hin) as (H1 & H2 & H3). unfold HB_SIZE in *.
    split_and!; [|lia|lia]. eapply mapped_sub; [exact Hm|lia..].
  Qed.

Lemma elem_apart h l x y r : heap_rep area h l -> allocs area l ≡ₚ x :: y :: r -> no_overlap x y /\ x.1 ≠ y.1.
  Proof using Ha He.
    intros [Hs _]%heap_rep_sizes Hp. split.
    - assert (no_overlap x y \/ no_overlap y x) as [?|[?|?]]; [|done|by right|by left].
      pose proof (allocs_apart area l Hs) as Hf. assert (x ∈ allocs area l /\ y ∈ allocs area l /\ x ≠ y) as (Hx & Hy & Hne).
      { rewrite Hp. split_and!; [set_solver..|]. pose proof (allocs_nodup area l Hs) as Hn.
        rewrite Hp in Hn. rewrite !fmap_cons in Hn. apply NoDup_cons in Hn as [Hn _]. intros ->. set_solver. }
      apply list_elem_of_In in Hx, Hy.
      destruct (ForallOrdPairs_In Hf _ _ Hx Hy) as [?|[?|?]]; [done|by left|by right].
    - pose proof (allocs_nodup area l Hs) as Hn. rewrite Hp in Hn. rewrite !fmap_cons in Hn.
      apply NoDup_cons in Hn as [Hn _]. set_solver.
  Qed.

  (** Moving a region to a new one. *)
Lemma realloc_move h l p m n :
    heap_rep area h l -> heap_mapped h -> (p, m) ∈ allocs area l -> 0 < n <= 2 ^ 64 - 16 ->
    exists q h' l',
      ('(new_ptr, h) ← malloc area h n;
       if new_ptr =? 0 then Some (NULL, h)
       else b ← headers h !! (p - HB_SIZE);
            '(m, _) ← memcpy (heap_mem h) new_ptr p (if hb_size b <? n then hb_size b else n);
            h ← free (set_heap_mem m h) p; Some (new_ptr, h)) = Some (q, h') /\
      heap_rep area h' l' /\ heap_mapped h' /\
      ((q = NULL /\ l' = l /\ heap_mem h' = heap_mem h) \/ moved h h' l l' p m q n).
  Proof using Ha He.
    intros H Hmap Hin Hn. destruct (malloc_regions h l n H Hn) as (q & h1 & l1 & -> & H1 & Em & Hq).
    cbn [mbind option_bind]. destruct Hq as [[-> ->]|(Hq & m' & Hm' & Hp)].
    { exists NULL, h1, l. split; [done|]. split; [done|]. split; [unfold heap_mapped; by rewrite Em|]. by left. }
    rewrite (proj2 (Z.eqb_neq _ _)) by lia.
    destruct (proj1 (elem_of_Permutation _ _) Hin) as [r Hr].
    assert (heap_mapped h1) as Hmap1 by (unfold heap_mapped; by rewrite Em).
    assert ((p, m) ∈ allocs area l1) as Hin1 by (rewrite Hp; set_solver).
    assert ((q, m') ∈ allocs area l1) as Hin2 by (rewrite Hp; set_solver).
    destruct (elem_apart h1 l1 (q, m') (p, m) r H1 ltac:(by rewrite Hp, Hr)) as [Hap Hne]. cbn in Hne.
    destruct (region_mapped h1 l1 p m Hmap1 H1 Hin1) as (Hmp & Hm0 & Hpa).
    destruct (region_mapped h1 l1 q m' Hmap1 H1 Hin2) as (Hmq & Hm0' & Hqa).
    pose proof (alloc_init _ _ _ _ H1 Hin1) as Eh1.
    destruct (allocs_split _ _ _ _ Hin1) as (la & lb & El & Ep).
    assert (p - HB_SIZE = area + span la) as -> by lia.
    pose proof H1 as H1'. rewrite El in H1'. rewrite (alloc_header _ _ _ _ _ H1' Eh1). cbn [mbind option_bind hb_size].
    set (k := if m <? n then m else n). assert (k = Z.min m n) as Ek by (unfold k; destruct (Z.ltb_spec m n); lia).
    rewrite Em in Hmp, Hmq. destruct (mapped_bytes (heap_mem h) p k ltac:(lia) ltac:(eapply mapped_sub; [exact Hmp|lia..]))
      as (bs & Hbs & Hat). unfold memcpy. rewrite Em, <- Hbs, zlen_to_nat, copy_bytes_ok.
    5:{ unfold forward_ok, no_overlap in *. cbn in Hap. lia. }
    4:{ eapply mapped_sub; [exact Hmq|lia..]. }
    3:{ eapply bytes_at_bytes; [apply Hmap|done]. }
    2:{ done. }
    cbn [mbind option_bind].
    destruct (free_regions (set_heap_mem (blit (heap_mem h) q bs) h1) l1 p m H1 Hin1) as (h2 & l2 & E2 & H2 & Em2 & Hp2).
    rewrite E2. cbn [mbind option_bind]. exists q, h2, l2. split; [done|]. split; [done|]. split.
    { unfold heap_mapped. rewrite Em2. cbn [heap_mem set_heap_mem]. destruct Hmap as [Hok Hma].
      split; [|by apply mapped_blit]. apply bytemem_ok_blit; [done|]. by eapply bytes_at_bytes. }
    right.
    split; [done|]. exists m', r. split; [done|]. split; [done|]. split_and!.
    - rewrite Hp, Hr in Hp2. rewrite (Permutation_swap (p, m) (q, m')) in Hp2. symmetry.
      eapply Permutation_cons_inv. exact Hp2.
    - intros i Hi. rewrite Em2. cbn [heap_mem set_heap_mem]. rewrite blit_lookup, decide_True by lia.
      replace (q + i - q) with (p + i - p) by lia. apply bytes_at_lookup; [done|lia].
    - intros x Hx. rewrite Em2. cbn [heap_mem set_heap_mem]. rewrite blit_lookup, decide_False by lia. done.
  Qed.

Lemma realloc_regions h l p m n :
    heap_rep area h l -> heap_mapped h -> (p, m) ∈ allocs area l -> 0 < n <= 2 ^ 64 - 16 ->
    exists q h' l', realloc area h p n = Some (q, h') /\ heap_rep area h' l' /\ heap_mapped h' /\
      ((q = NULL /\ l' = l /\ heap_mem h' = heap_mem h) \/ moved h h' l l' p m q n).
  Proof using Ha He.
    intros H Hmap Hin Hn. destruct (region_mapped h l p m Hmap H Hin) as (_ & Hm0 & Hpa).
    destruct (realloc_move h l p m n H Hmap Hin Hn) as (q0 & h0 & l0 & Emove & Hrep0 & Hmap0 & Hmv0).
    pose proof (alloc_init _ _ _ _ H Hin) as Eh. destruct (allocs_split _ _ _ _ Hin) as (l1 & l2 & -> & Ep).
    pose proof (heap_rep_sizes _ _ H) as [Hs Hsp]. rewrite span_app in Hsp. cbn [span] in Hsp.
    apply Forall_app in Hs as [Hs1%span_nonneg [_ Hs2]%Forall_cons].
    pose proof (span_nonneg _ Hs2) as Hsl2. unfold LIBC_HEAP_SIZE in Hsp, He.
    destruct (align16_ok n Hn) as [Er Hr]. set (req := (n + 15) / 16 * 16) in *.
    unfold realloc. unfold HB_SIZE in Hpa. rewrite !(proj2 (Z.eqb_neq _ 0)) by lia.
    assert (p - HB_SIZE = area + span l1) as Epb by lia. rewrite Epb in Emove |- *.
    rewrite (alloc_header _ _ _ _ _ H Eh). cbn [mbind option_bind hb_size hb_next hb_free]. rewrite Er.
    destruct (Z.leb_spec req m) as [Hle|Hgt].
    { destruct (realloc_shrink h l1 m l2 req n H Eh ltac:(lia) Hle) as (hs & l' & -> & Hrep & Hmv).
      cbn [mbind option_bind]. rewrite <- Ep in Hmv. eexists _, _, l'. split; [done|]. split; [done|]. split; [exact Hmap|]. by right. }
    destruct l2 as [|[n2 f2] l2].
    { cbn [next_of Z.eqb mbind option_bind]. rewrite Emove. by exists q0, h0, l0. }
    cbn [span] in Hsp, Hsl2. apply Forall_cons in Hs2 as [Hn2 Hs2%span_nonneg]. cbn in Hn2. unfold HB_SIZE in Hsp.
    cbn [next_of]. rewrite (proj2 (Z.eqb_neq _ 0)) by (unfold HB_SIZE; lia).
    pose proof (alloc_header h (l1 ++ [(m, false)]) n2 f2 l2 ltac:(by rewrite <- app_assoc) Eh) as H2.
    rewrite span_app in H2. cbn [span] in H2.
    replace (area + (span l1 + (HB_SIZE + m + 0))) with (area + span l1 + HB_SIZE + m) in H2 by lia.
    rewrite H2. cbn [mbind option_bind hb_size hb_next hb_free]. rewrite b2z_true, !u64_small by (unfold HB_SIZE; lia).
    destruct (f2 && (req <=? m + HB_SIZE + n2)) eqn:Ef.
    - apply andb_true_iff in Ef as [-> Hle%Z.leb_le].
      destruct (realloc_grow h l1 m n2 l2 req n H Eh ltac:(lia) Hle) as (hs & l' & E & Hrep & Hmv).
      cbn [Z.b2z hb_size hb_free hb_next]. rewrite u64_small by (unfold HB_SIZE; lia). rewrite E. cbn [mbind option_bind]. rewrite <- Ep in Hmv.
      eexists _, _, l'. split; [done|]. split; [done|]. split; [exact Hmap|]. by right.
    - rewrite Emove. by exists q0, h0, l0.
  Qed.
End heap.

(** ** Histories *)

Inductive hop := HMalloc (n : Z) | HFree (p : Z) | HRealloc (p n : Z).

(** The heap with the regions the program holds: pointer and size asked for. *)
Definition hstate : Type := heap * list (Z * Z).

Definition hstep (area : Z) (op : hop) (s : hstate) : option hstate :=
  let '(h, held) := s in
  match op with
  | HMalloc n => '(p, h) ← malloc area h n; Some (h, if p =? 0 then held else (p, n) :: held)
  | HFree p => h ← free h p; Some (h, drop_held p held)
  | HRealloc p n =>
      '(q, h) ← realloc area h p n;
      Some (h, if q =? 0 then held else (q, n) :: drop_held p held)
  end.

Fixpoint hrun (area : Z) (ops : list hop) (s : hstate) : option hstate :=
  match ops with [] => Some s | op :: ops' => s ← hstep area op s; hrun area ops' s end.

(** A program frees and resizes only what it holds, and asks for no size within 15 bytes of
    [2 ^ 64]. *)
Definition op_ok (op : hop) (held : list (Z * Z)) : Prop :=
  match op with
  | HMalloc n => 0 < n <= 2 ^ 64 - 16
  | HFree p => p ∈ held.*1
  | HRealloc p n => p ∈ held.*1 /\ 0 < n <= 2 ^ 64 - 16
  end.

Fixpoint run_ok (area : Z) (ops : list hop) (s : hstate) : Prop :=
  match ops with
  | [] => True
  | op :: ops' => op_ok op s.2 /\ forall s', hstep area op s = Some s' -> run_ok area ops' s'
  end.

Lemma apart_perm (l l' : list (Z * Z)) : l ≡ₚ l' -> ForallOrdPairs no_overlap l -> ForallOrdPairs no_overlap l'.
Proof.
  assert (forall x y, no_overlap x y -> no_overlap y x) as Hsym by (unfold no_overlap; intuition).
  induction 1 as [|x l l' HP IH|x y l|l1 l2 l3 _ IH1 _ IH2]; intros H; [done|..|by auto].
  - inversion H as [|? ? Hx Hl]; subst. constructor; [by rewrite <- HP|by apply IH].
  - inversion H as [|? ? Hy Hl]; subst. inversion Hl as [|? ? Hx Hl']; subst.
    apply Forall_cons in Hy as [Hyx Hy]. constructor; [constructor; [by apply Hsym|done]|by constructor].
Qed.

Lemma apart_shrink (l l' : list (Z * Z)) :
  Forall2 (fun x y : Z * Z => x.1 = y.1 /\ 0 < x.2 <= y.2) l l' ->
  ForallOrdPairs no_overlap l' -> ForallOrdPairs no_overlap l.
Proof.
  induction 1 as [|x y l l' [E1 E2] HF IH]; intros H; [constructor|].
  inversion H as [|? ? Hx Hl]; subst. constructor; [|by apply IH]. clear -HF Hx E1 E2.
  induction HF as [|u v l l' [F1 F2] HF IH]; [constructor|]. apply Forall_cons in Hx as [Hv Hx].
  constructor; [|by apply IH]. unfold no_overlap in *. lia.
Qed.

(** Every region held is a region of the heap of at least the size asked for, and conversely. *)
Definition held_ok (area : Z) (l : list blk) (held : list (Z * Z)) : Prop :=
  exists rs, allocs area l ≡ₚ rs /\ Forall2 (fun x y : Z * Z => x.1 = y.1 /\ 0 < x.2 <= y.2) held rs.

Section history.
  Context (area : Z) (Ha : 0 < area) (He : area + LIBC_HEAP_SIZE < 2 ^ 63).

Definition hinv (s : hstate) : Prop :=
    exists l, heap_rep area s.1 l /\ heap_mapped area s.1 /\ held_ok area l s.2.

  (** Taking one held region out, with what is left. *)
Lemma held_take l held p :
    sizes_ok l -> held_ok area l held -> p ∈ held.*1 ->
    exists m rs, (p, m) ∈ allocs area l /\
      allocs area l ≡ₚ (p, m) :: rs /\ Forall2 (fun x y : Z * Z => x.1 = y.1 /\ 0 < x.2 <= y.2) (drop_held p held) rs.
  Proof using Ha He.
    intros Hs (rs & Hp & HF) ([p' n] & E & Hin)%list_elem_of_fmap. cbn in E. subst p'.
    assert (NoDup rs.*1) as Hnd by (rewrite <- Hp; by apply allocs_nodup). clear Hs.
    assert (exists m rs', rs ≡ₚ (p, m) :: rs' /\
      Forall2 (fun x y : Z * Z => x.1 = y.1 /\ 0 < x.2 <= y.2) (drop_held p held) rs') as (m & rs' & E & HF').
    { clear Hp. induction HF as [|[q k] [q' k'] held rs [Hq Hk] HF IH]; [by apply not_elem_of_nil in Hin|].
      cbn in Hq, Hk. subst q'. rewrite fmap_cons in Hnd. apply NoDup_cons in Hnd as [Hq Hnd]. cbn in Hq.
      destruct (decide (q = p)) as [->|Hne].
      - exists k', rs. split; [done|]. unfold drop_held. rewrite filter_cons_False by (cbn; tauto).
        assert (filter (fun x : Z * Z => x.1 ≠ p) held = held) as ->; [|done]. clear -HF Hq.
        induction HF as [|[a b] [a' b'] held rs [E _] HF IH]; [done|]. cbn in E. subst a'.
        rewrite fmap_cons in Hq. apply not_elem_of_cons in Hq as [Ha Hq]. cbn in Ha.
        rewrite filter_cons_True by (cbn; congruence). by rewrite IH.
      - apply elem_of_cons in Hin as [?|Hin]; [by simplify_eq|].
        destruct (IH Hin Hnd) as (m & rs' & E & HF'). exists m, ((q, k') :: rs'). split; [by rewrite E, Permutation_swap|].
        unfold drop_held. rewrite filter_cons_True by done. by constructor. }
    exists m, rs'. rewrite Hp, E. split_and!; [set_solver|done|done].
  Qed.

Lemma hstep_ok op s : hinv s -> op_ok op s.2 -> exists s', hstep area op s = Some s' /\ hinv s'.
  Proof using Ha He.
    destruct s as [h held]. intros (l & Hrep & Hmap & Hheld) Hop. cbn in Hrep, Hmap, Hheld.
    pose proof (heap_rep_sizes _ _ _ Hrep) as [Hs _]. destruct op as [n|p|p n]; cbn [op_ok hstep] in *; cbn in Hop.
    - destruct (malloc_regions area Ha He h l n Hrep Hop) as (p & h' & l' & -> & Hrep' & Em & Hp).
      cbn [mbind option_bind]. eexists. split; [done|]. exists l'. cbn [fst snd]. split; [done|].
      split; [unfold heap_mapped; by rewrite Em|].
      destruct Hp as [[-> ->]|(Hp & m & Hm & HP)]; [done|]. rewrite (proj2 (Z.eqb_neq _ _)) by lia.
      destruct Hheld as (rs & HP' & HF). exists ((p, m) :: rs). split; [by rewrite HP, HP'|]. constructor; [cbn; lia|done].
    - destruct (held_take l held p Hs Hheld Hop) as (m & rs & Hin & HP & HF).
      destruct (free_regions area Ha He h l p m Hrep Hin) as (h' & l' & -> & Hrep' & Em & HP').
      cbn [mbind option_bind]. eexists. split; [done|]. exists l'. cbn [fst snd]. split; [done|].
      split; [unfold heap_mapped; by rewrite Em|]. exists rs. split; [|done].
      eapply Permutation_cons_inv. by rewrite <- HP', HP.
    - destruct Hop as [Hin' Hn]. destruct (held_take l held p Hs Hheld Hin') as (m & rs & Hin & HP & HF).
      destruct (realloc_regions area Ha He h l p m n Hrep Hmap Hin Hn) as (q & h' & l' & -> & Hrep' & Hmap' & Hq).
      cbn [mbind option_bind]. eexists. split; [done|]. exists l'. cbn [fst snd]. split; [done|].
      split; [done|]. destruct Hq as [(-> & -> & _)|(Hq & m' & r & Hm' & HP1 & HP2 & _)]; [done|].
      rewrite (proj2 (Z.eqb_neq _ _)) by lia.
      exists ((q, m') :: rs). split; [|constructor; [cbn; lia|done]]. rewrite HP2. constructor.
      eapply Permutation_cons_inv. by rewrite <- HP1, HP.
  Qed.

Lemma hrun_ok ops s : hinv s -> run_ok area ops s -> exists s', hrun area ops s = Some s' /\ hinv s'.
  Proof using Ha He.
    revert s. induction ops as [|op ops IH]; intros s Hi Hr; cbn [hrun run_ok] in *; [by exists s|].
    destruct Hr as [Hop Hr]. destruct (hstep_ok op s Hi Hop) as (s' & E & Hi'). rewrite E.
    cbn [mbind option_bind]. apply IH; [done|]. by apply Hr.
  Qed.

Lemma hinv_regions s :
    hinv s ->
    ForallOrdPairs no_overlap s.2 /\
    Forall (fun x : Z * Z => area <= x.1 /\ x.1 + x.2 <= area + LIBC_HEAP_SIZE) s.2.
  Proof using Ha He.
    destruct s as [h held]. intros (l & Hrep & _ & rs & HP & HF). cbn [fst snd] in *.
    pose proof (heap_rep_sizes _ _ _ Hrep) as [Hs Hsp]. split.
    - eapply apart_shrink; [exact HF|]. eapply apart_perm; [exact HP|]. by apply allocs_apart.
    - apply Forall_forall. intros [p n] (i & Hi)%list_elem_of_lookup.
      destruct (Forall2_lookup_l _ _ _ _ _ HF Hi) as ([q m] & Hq%list_elem_of_lookup_2 & E & Hn).
      cbn in E, Hn. subst q. rewrite <- HP in Hq. apply allocs_range in Hq as (H1 & H2 & H3); [|done].
      cbn. unfold HB_SIZE in *. lia.
  Qed.
End history.

Definition fresh_heap (m : bytemem) : heap := Heap 0 ∅ m.

(** Whatever sequence of malloc, free and realloc calls a program makes on what it holds,
    no call touches an invalid header, and the regions it holds are pairwise disjoint, each of
    the full size asked for, and lie inside the heap area. *)
Theorem heap_history_safe area m ops :
  0 < area -> area + LIBC_HEAP_SIZE < 2 ^ 63 -> bytemem_ok m -> mapped m area LIBC_HEAP_SIZE ->
  run_ok area ops (fresh_heap m, []) ->
  exists h held, hrun area ops (fresh_heap m, []) = Some (h, held) /\
    ForallOrdPairs no_overlap held /\
    Forall (fun x : Z * Z => area <= x.1 /\ x.1 + x.2 <= area + LIBC_HEAP_SIZE) held.
Proof.
  intros Ha He Hm Hmap Hr. destruct (hrun_ok area Ha He ops (fresh_heap m, [])) as ([h held] & E & Hi); [|done|].
  - exists [(LIBC_HEAP_SIZE - HB_SIZE, true)]. split; [by left|]. split; [by split|].
    exists []. split; [done|]. constructor.
  - exists h, held. split; [done|]. by apply (hinv_regions area Ha He (h, held)).
Qed.

(** realloc of a region that is handed out either fails and leaves every region and byte as
    it was, or returns a region of at least the new size that starts with the old content,
    leaves all other regions alone and writes nowhere else; whether it shrinks in place, grows
    into a free neighbour or moves. *)
Theorem realloc_spec area h l p m n :
  0 < area -> area + LIBC_HEAP_SIZE < 2 ^ 63 -> heap_rep area h l -> heap_mapped area h ->
  (p, m) ∈ allocs area l -> 0 < n <= 2 ^ 64 - 16 ->
  exists q h' l', realloc area h p n = Some (q, h') /\ heap_rep area h' l' /\
    ((q = NULL /\ l' = l /\ heap_mem h' = heap_mem h) \/ moved area h h' l l' p m q n).
Proof.
  intros Ha He H Hmap Hin Hn.
  destruct (realloc_regions area Ha He h l p m n H Hmap Hin Hn) as (q & h' & l' & E & Hr & _ & Hq).
  by exists q, h', l'.
Qed.

(** ** No two neighbours stay free *)

Fixpoint separated (l : list blk) : Prop :=
  match l with
  | (_, f) :: (((_, f2) :: _) as l') => f && f2 = false /\ separated l'
  | _ => True
  end.

Lemma merge_head n f l : exists n' l', merge n f l = (n', f) :: l'.
Proof.
  revert n f. induction l as [|[n2 f2] l IH]; intros n f; cbn [merge]; [by eexists _, _|].
  destruct (f && f2) eqn:E; [|by eexists _, _]. apply andb_true_iff in E as [-> _]. apply IH.
Qed.

Lemma merge_separated n f l : separated (merge n f l).
Proof.
  revert n f. induction l as [|[n2 f2] l IH]; intros n f; cbn [merge]; [done|].
  destruct (f && f2) eqn:E; [apply IH|]. destruct (merge_head n2 f2 l) as (n' & l' & Em).
  pose proof (IH n2 f2) as Hs. rewrite Em in *. by split.
Qed.

Lemma merge_id n f l : separated ((n, f) :: l) -> merge n f l = (n, f) :: l.
Proof.
  revert n f. induction l as [|[n2 f2] l IH]; intros n f H; [done|]. destruct H as [E H]. cbn [merge].
  rewrite E. by rewrite IH.
Qed.

(** Freeing what first fit has just cut gives the old sequence back. *)
Lemma fit_coalesce (cut : bool) req n l1 l2 :
  separated (l1 ++ (n, true) :: l2) ->
  coalesce_list (l1 ++ (if cut then (req, true) :: (n - req - HB_SIZE, true) :: l2 else (n, true) :: l2))
  = l1 ++ (n, true) :: l2.
Proof.
  induction l1 as [|[n1 f1] l1 IH]; intros H.
  - cbn [app coalesce_list] in *. destruct cut; cbn [coalesce_list merge].
    + cbn [andb]. replace (req + HB_SIZE + (n - req - HB_SIZE)) with n by lia. by apply merge_id.
    + by apply merge_id.
  - cbn [app coalesce_list] in *.
    destruct (l1 ++ (n, true) :: l2) as [|[n' f'] l'] eqn:E; [by destruct l1|]. destruct H as [Ef H].
    specialize (IH H). revert IH. generalize (l1 ++ (if cut then (req, true) :: (n - req - HB_SIZE, true) :: l2
      else (n, true) :: l2)) as r. intros r IH.
    destruct r as [|[n2 f2] r]; [done|]. cbn [coalesce_list] in IH.
    destruct (merge_head n2 f2 r) as (k & r' & Em). pose proof IH as IH'. rewrite Em in IH'.
    injection IH' as _ <- _. cbn [merge]. by rewrite Ef, IH.
Qed.

(** A successful malloc followed by the free of its result restores the sequence of blocks
    exactly, when no two neighbours were free; and free always leaves a heap in which none
    are. *)
Theorem malloc_free_roundtrip area h l n p h1 :
  0 < area -> area + LIBC_HEAP_SIZE < 2 ^ 63 -> heap_rep area h l -> separated l ->
  0 < n <= 2 ^ 64 - 16 -> malloc area h n = Some (p, h1) -> p ≠ NULL ->
  exists h2, free h1 p = Some h2 /\ heap_rep area h2 l /\
    forall p' m', (p', m') ∈ allocs area l ->
      exists h3 l3, free h2 p' = Some h3 /\ heap_rep area h3 l3 /\ separated l3.
Proof.
  intros Ha He H Hsep Hn Em Hp. destruct (malloc_ok area Ha He h l n H Hn) as (h' & _ & M).
  destruct (first_fit _ l) as [[i l']|] eqn:Ef; [|destruct M as [M _]; rewrite Em in M; congruence].
  destruct M as [M Hrep]. rewrite Em in M. injection M as -> ->.
  destruct (first_fit_split _ _ _ _ Ef) as (l1 & k & l2 & El & -> & Hk & El' & _). rewrite El in Hsep.
  set (req := align_up_size n LIBC_HEAP_ALIGN) in *.
  set (cut := req + HB_SIZE + LIBC_HEAP_ALIGN <=? k) in *.
  pose proof (fit_coalesce cut req k l1 l2 Hsep) as Hco.
  rewrite El, addr_of_app.
  assert (exists h2, free h' (area + span l1 + HB_SIZE) = Some h2 /\
    heap_rep area h2 (l1 ++ (k, true) :: l2)) as (h2 & E2 & H2).
  { rewrite El' in Hrep. destruct cut;
      destruct (free_ok area Ha He _ _ _ _ Hrep) as (h2 & E2 & _ & H2); rewrite Hco in H2; by exists h2. }
  exists h2. split; [done|]. split; [done|]. intros p' m' (la & lb & E & ->)%allocs_split.
  rewrite E in H2. destruct (free_ok area Ha He _ _ _ _ H2) as (h3 & E3 & _ & H3). eexists _, _.
  split; [done|]. split; [done|]. destruct (la ++ (m', true) :: lb) as [|[x y] z]; [done|]. apply merge_separated.
Qed.

(** ** Examples *)

Definition example_area : Z := 0x600000.
Definition zero_mem : bytemem := blit ∅ example_area (replicate (Z.to_nat LIBC_HEAP_SIZE) 0).

Lemma zero_mem_ok : bytemem_ok zero_mem /\ mapped zero_mem example_area LIBC_HEAP_SIZE.
Proof.
  split.
  - apply bytemem_ok_blit; [apply map_Forall_empty|]. apply Forall_replicate. unfold is_byte. lia.
  - pose proof (bytes_at_mapped _ _ _ (bytes_at_blit ∅ example_area (replicate (Z.to_nat LIBC_HEAP_SIZE) 0))) as H.
    rewrite zlen_replicate, Z2Nat.id in H; [exact H|]. unfold LIBC_HEAP_SIZE. lia.
Qed.

(** Two allocations, growth in place, a free, and an allocation in the hole. *)
Definition example_ops : list hop :=
  [HMalloc 100; HMalloc 200; HRealloc (example_area + 160) 300; HFree (example_area + 24); HMalloc 50].

Lemma example_run_ok m : run_ok example_area example_ops (fresh_heap m, []).
Proof.
  unfold example_ops. cbn [run_ok op_ok].
  split; [lia|]. intros s E. vm_compute in E. injection E as <-.
  split; [lia|]. intros s E. vm_compute in E. injection E as <-.
  split; [split; [vm_compute; set_solver|lia]|]. intros s E. vm_compute in E. injection E as <-.
  split; [vm_compute; set_solver|]. intros s E. vm_compute in E. injection E as <-.
  split; [lia|]. done.
Qed.

Lemma heap_history_safe_witness :
  exists h held, hrun example_area example_ops (fresh_heap zero_mem, []) = Some (h, held) /\
    ForallOrdPairs no_overlap held /\
    Forall (fun x : Z * Z => example_area <= x.1 /\ x.1 + x.2 <= example_area + LIBC_HEAP_SIZE) held.
Proof.
  exact (heap_history_safe example_area zero_mem example_ops eq_refl eq_refl
    (proj1 zero_mem_ok) (proj2 zero_mem_ok) (example_run_ok zero_mem)).
Defined.

(** The heap after [malloc(100)]: one region of 112 bytes. *)
Definition after_malloc (m : bytemem) : heap :=
  Heap example_area
    (<[example_area := HeapBlock 112 0 (example_area + 136)]>
       (<[example_area + 136 := HeapBlock (LIBC_HEAP_SIZE - 160) 1 0]> ∅)) m.
Definition after_malloc_blocks : list blk := [(112, false); (LIBC_HEAP_SIZE - 160, true)].

Lemma after_malloc_rep m : heap_rep example_area (after_malloc m) after_malloc_blocks.
Proof. right. split; [done|]. vm_compute. repeat split; discriminate. Qed.

Lemma realloc_spec_witness :
  exists q h' l', realloc example_area (after_malloc zero_mem) (example_area + 24) 1000 = Some (q, h') /\
    heap_rep example_area h' l' /\
    ((q = NULL /\ l' = after_malloc_blocks /\ heap_mem h' = heap_mem (after_malloc zero_mem)) \/
     moved example_area (after_malloc zero_mem) h' after_malloc_blocks l' (example_area + 24) 112 q 1000).
Proof.
  exact (realloc_spec example_area (after_malloc zero_mem) after_malloc_blocks (example_area + 24) 112 1000
    eq_refl eq_refl (after_malloc_rep zero_mem) (conj (proj1 zero_mem_ok) (proj2 zero_mem_ok))
    ltac:(left) ltac:(lia)).
Defined.

Lemma malloc_free_roundtrip_witness :
  match malloc example_area (after_malloc ∅) 5000 with
  | Some (p, h1) =>
      exists h2, free h1 p = Some h2 /\ heap_rep example_area h2 after_malloc_blocks /\
        forall p' m', (p', m') ∈ allocs example_area after_malloc_blocks ->
          exists h3 l3, free h2 p' = Some h3 /\ heap_rep example_area h3 l3 /\ separated l3
  | None => False
  end.
Proof.
  destruct (malloc example_area (after_malloc ∅) 5000) as [[p h1]|] eqn:E.
  - refine (malloc_free_roundtrip example_area (after_malloc ∅) after_malloc_blocks 5000 p h1
      eq_refl eq_refl (after_malloc_rep ∅) ltac:(by split) ltac:(lia) E _).
    vm_compute in E. injection E as <- _. discriminate.
  - vm_compute in E. discriminate E.
Defined.

(** A request within 15 bytes of [2 ^ 64] is rounded up to zero: malloc does not fail but
    returns a pointer to an empty region, right before the header of the next block; calloc's
    overflow check stops products above [2 ^ 64 - 1] but not these. *)
Theorem malloc_huge_wraps area m n :
  0 < area -> area + LIBC_HEAP_SIZE < 2 ^ 63 -> 2 ^ 64 - 16 < n < 2 ^ 64 ->
  exists h, malloc area (fresh_heap m) n = Some (area + HB_SIZE, h) /\
    heap_rep area h [(0, false); (LIBC_HEAP_SIZE - HB_SIZE - HB_SIZE, true)] /\
    (forall k, 0 < k -> (2 ^ 64 - 1) / k < n -> calloc area (fresh_heap m) n k = Some (NULL, fresh_heap m)).
Proof.
  intros Ha He Hn. assert (heap_rep area (fresh_heap m) [(LIBC_HEAP_SIZE - HB_SIZE, true)]) as H by (by left).
  destruct (heap_init_ok area Ha _ _ H) as (E1 & E2 & Hc). unfold malloc.
  rewrite (proj2 (Z.eqb_neq _ _)) by lia. rewrite align16_wraps by done.
  pose proof (malloc_loop_ok _ He (S (size (headers (heap_init area (fresh_heap m))))) _ area _ 0 Hc Ha ltac:(lia)) as M.
  rewrite E1. cbn [length next_of] in M. change (first_fit 0 [(LIBC_HEAP_SIZE - HB_SIZE, true)])
    with (Some (0%nat, [(0, false); (LIBC_HEAP_SIZE - HB_SIZE - 0 - HB_SIZE, true)])) in M. cbn [addr_of] in M.
  pose proof (chain_length _ _ _ _ Hc) as Hlen. cbn [length] in Hlen.
  destruct M as (hs' & -> & Hc' & _); [lia|]. cbn [mbind option_bind].
  eexists. split; [done|]. split; [right; by split|]. intros k Hk Hlt. unfold calloc.
  rewrite !(proj2 (Z.eqb_neq _ _)) by lia. cbn [orb]. by rewrite (proj2 (Z.ltb_lt _ _)) by lia.
Qed.

Lemma malloc_huge_wraps_witness :
  exists h, malloc example_area (fresh_heap ∅) (2 ^ 64 - 1) = Some (example_area + HB_SIZE, h) /\
    heap_rep example_area h [(0, false); (LIBC_HEAP_SIZE - HB_SIZE - HB_SIZE, true)] /\
    (forall k, 0 < k -> (2 ^ 64 - 1) / k < 2 ^ 64 - 1 ->
       calloc example_area (fresh_heap ∅) (2 ^ 64 - 1) k = Some (NULL, fresh_heap ∅)).
Proof. exact (malloc_huge_wraps example_area ∅ (2 ^ 64 - 1) eq_refl eq_refl ltac:(lia)). Defined.
