(* ===== verification/LibcStdio.v ===== *)
(** * C library output (lib/libc/src/stdio.c)

    putchar, puts and the printf family.  The memory holds the format, the string arguments and
    the buffer that is printed to; variable arguments are 64-bit slots, read as by the kernel's
    printf; the local arrays [tmp] are lists.  [None] is a fault or an undefined operation (an
    unmapped address, a missing argument, the overflow of an [int] or a [long]). *)
From stdpp Require Import list_numbers.
From S2P Require Import Prelude Defs ByteMem KString Printf.

(** ** The code *)

Definition EOF : Z := -1.

(** *** Numbers *)

(** [*--p = c] in [tmp[24]], which is filled from its end. *)
Definition push (c : Z) (p : list Z) : option (list Z) :=
  if decide (length p < 24)%nat then Some (c :: p) else None.

Definition number_char (digit : Z) : Z := if digit <? 10 then 48 + digit else 97 + digit - 10.

(** [while (value)]: a 64-bit value has at most 64 digits in any base. *)
Fixpoint number_digits (fuel : nat) (value base : Z) (p : list Z) : option (list Z) :=
  match fuel with
  | O => None
  | S f => if value =? 0 then Some p
           else p ← push (number_char (value mod base)) p; number_digits f (value / base) base p
  end.

(** [while (width > len && size > 1)]: every round takes one from [size]. *)
Fixpoint pad_number (fuel : nat) (len width size pad : Z) (buf : list Z) : list Z * Z * Z :=
  match fuel with
  | O => (buf, width, size)
  | S f => if (len <? width) && (1 <? size) then pad_number f len (width - 1) (size - 1) pad (buf ++ [pad])
           else (buf, width, size)
  end.

Fixpoint copy_number (p : list Z) (size : Z) (buf : list Z) : list Z :=
  match p with
  | [] => buf
  | c :: p => if negb (c =? 0) && (1 <? size) then copy_number p (size - 1) (buf ++ [c]) else buf
  end.

(** The bytes put in the buffer, and the result. *)
Definition format_number (size value base : Z) (is_signed : bool) (width pad : Z) : option (list Z * Z) :=
  let negative := is_signed && (sint64 value <? 0) in
  value ← (if negative then v ← long (- sint64 value); Some (u64 v) else Some value);
  p ← push 0 [];
  p ← (if value =? 0 then push 48 p else number_digits 65 value base p);
  p ← (if negative then push 45 p else Some p);
  let len := zlen p - 1 in
  let '(buf, width, size) := pad_number (Z.to_nat size) len width size pad [] in
  Some (copy_number p size buf ++ [0], if width <? len then len else width).

(** *** Output to a buffer: the memory and [out] *)

Definition put (c : Z) (s : bytemem * Z) : option (bytemem * Z) := m ← store s.1 s.2 c; Some (m, s.2 + 1).
Definition put_below (c e : Z) (s : bytemem * Z) : option (bytemem * Z) := if s.2 <? e then put c s else Some s.

(** [for (int i = 0; tmp[i] && out < end; i++) *out++ = tmp[i]] *)
Fixpoint put_tmp (tmp : list Z) (e : Z) (s : bytemem * Z) : option (bytemem * Z) :=
  match tmp with
  | [] => None
  | c :: tmp => if negb (c =? 0) && (s.2 <? e) then s ← put c s; put_tmp tmp e s else Some s
  end.

(** The string at [p], up to its NUL, as long as there is room: every round reads a new address. *)
Fixpoint put_string (fuel : nat) (p e : Z) (s : bytemem * Z) : option (bytemem * Z) :=
  match fuel with
  | O => None
  | S f => c ← s.1 !! p;
           if negb (c =? 0) && (s.2 <? e) then s ← put c s; put_string f (p + 1) e s else Some s
  end.

(** [while (slen < width && out < end)], which takes one from the difference in every round. *)
Fixpoint put_spaces (need : nat) (e : Z) (s : bytemem * Z) : option (bytemem * Z) :=
  match need with
  | O => Some s
  | S n => if s.2 <? e then s ← put 32 s; put_spaces n e s else Some s
  end.

(** *** A directive *)

Record directive_flags := mk_flags { left_justify : bool; f_pad : Z; f_width : Z; is_long : bool; is_longlong : bool }.

Definition arg_signed (d : directive_flags) (ap : list Z) : option (Z * list Z) :=
  if is_longlong d then va_i64 ap else if is_long d then va_i64 ap else va_int ap.
Definition arg_unsigned (d : directive_flags) (ap : list Z) : option (Z * list Z) :=
  if is_longlong d then va_u64 ap else if is_long d then va_u64 ap else va_uint ap.

(** The flags, the width and the length modifiers; the position of the specifier. *)
Definition parse_directive (m : bytemem) (p : Z) : option (directive_flags * Z) :=
  c ← m !! p;
  let left := c =? 45 in
  let p := if left then p + 1 else p in
  c ← m !! p;
  let zero := (c =? 48) && negb left in
  let p := if zero then p + 1 else p in
  '(p, width) ← parse_num (walk_fuel m) m p 0;
  c ← m !! p;
  if c =? 108 then
    c ← m !! (p + 1);
    Some (mk_flags left (if zero then 48 else 32) width true (c =? 108), if c =? 108 then p + 2 else p + 1)
  else Some (mk_flags left (if zero then 48 else 32) width false false, p).

Definition convert_number (d : directive_flags) (value base e : Z) (s : bytemem * Z) : option (bytemem * Z) :=
  '(tmp, _) ← format_number 24 value base false (f_width d) (f_pad d); put_tmp tmp e s.

Definition convert_string (d : directive_flags) (p e : Z) (s : bytemem * Z) : option (bytemem * Z) :=
  slen ← (if p =? 0 then Some (zlen null_string) else strlen s.1 p);
  slen ← cint slen;
  let need := Z.to_nat (f_width d - slen) in
  s ← (if left_justify d then Some s else put_spaces need e s);
  s ← (if p =? 0 then put_tmp (null_string ++ [0]) e s else put_string (walk_fuel s.1) p e s);
  if left_justify d then put_spaces need e s else Some s.

Definition convert_libc (d : directive_flags) (c e : Z) (ap : list Z) (s : bytemem * Z)
  : option (list Z * (bytemem * Z)) :=
  if c =? 37 then s ← put 37 s; Some (ap, s)
  else if c =? 99 then '(x, ap) ← va_int ap; s ← put x s; Some (ap, s)
  else if c =? 115 then '(p, ap) ← va_u64 ap; s ← convert_string d p e s; Some (ap, s)
  else if (c =? 100) || (c =? 105) then
    '(val, ap) ← arg_signed d ap;
    '(tmp, len) ← format_number 24 (u64 val) 10 true (if left_justify d then 0 else f_width d) (f_pad d);
    s ← put_tmp tmp e s;
    s ← (if left_justify d then put_spaces (Z.to_nat (f_width d - len)) e s else Some s);
    Some (ap, s)
  else if c =? 117 then '(val, ap) ← arg_unsigned d ap; s ← convert_number d val 10 e s; Some (ap, s)
  else if (c =? 120) || (c =? 88) then '(val, ap) ← arg_unsigned d ap; s ← convert_number d val 16 e s; Some (ap, s)
  else if c =? 112 then
    '(ptr, ap) ← va_u64 ap;
    s ← (if s.2 + 2 <? e then s ← put 48 s; put 120 s else Some s);
    '(tmp, _) ← format_number 24 ptr 16 false 16 48;
    s ← put_tmp tmp e s; Some (ap, s)
  else s ← put_below 37 e s; s ← put_below c e s; Some (ap, s).

(** Every round reads a new address of the format. *)
Fixpoint vsnprintf_loop (fuel : nat) (p e : Z) (ap : list Z) (s : bytemem * Z) : option (bytemem * Z) :=
  match fuel with
  | O => None
  | S f =>
      c ← s.1 !! p;
      if (c =? 0) || negb (s.2 <? e) then Some s
      else if negb (c =? 37) then s ← put c s; vsnprintf_loop f (p + 1) e ap s
      else
        '(d, p) ← parse_directive s.1 (p + 1);
        c ← s.1 !! p;
        '(ap, s) ← convert_libc d c e ap s;
        vsnprintf_loop f (p + 1) e ap s
  end.

(** *** The printf family *)

Definition vsnprintf (m : bytemem) (str size format : Z) (ap : list Z) : option (Z * bytemem) :=
  if size =? 0 then Some (0, m) else
  '(m, out) ← vsnprintf_loop (walk_fuel m) format (u64 (str + size - 1)) ap (m, str);
  m ← store m out 0;
  Some (int32 (out - str), m).

Definition vsprintf (m : bytemem) (str format : Z) (ap : list Z) : option (Z * bytemem) :=
  vsnprintf m str SIZE_MAX format ap.
Definition snprintf (m : bytemem) (str size format : Z) (args : list Z) : option (Z * bytemem) :=
  vsnprintf m str size format args.
Definition sprintf (m : bytemem) (str format : Z) (args : list Z) : option (Z * bytemem) :=
  vsprintf m str format args.

Section Streams.
(** The system call: the bytes to write and the output so far give the result and the output. *)
Context (write : list Z -> list Z -> Z * list Z).

Definition putchar (c : Z) (out : list Z) : Z * list Z :=
  let '(r, out) := write [u8 c] out in (if r =? 1 then c else EOF, out).

Definition puts (m : bytemem) (s : Z) (out : list Z) : option (Z * list Z) :=
  len ← strlen m s; l ← load_bytes m s (Z.to_nat len);
  let '(r, out) := write l out in
  if negb (r =? len) then Some (EOF, out) else
  let '(r, out) := putchar 10 out in
  Some (if r =? EOF then EOF else 0, out).

(** [buf] is the local array. *)
Definition vprintf (m : bytemem) (buf format : Z) (ap : list Z) (out : list Z) : option (Z * bytemem * list Z) :=
  '(len, m) ← vsnprintf m buf 1024 format ap;
  if 0 <? len then l ← load_bytes m buf (Z.to_nat len); Some (len, m, (write l out).2)
  else Some (len, m, out).

Definition printf (m : bytemem) (buf format : Z) (args : list Z) (out : list Z) : option (Z * bytemem * list Z) :=
  vprintf m buf format args out.
End Streams.
