(* ===== verification/LibcStdioSpec.v ===== *)
(** * What the printf family of the C library prints

    A format is a sequence of literal characters and directives.  [std_render] is the text that C gives
    it; [render] is the text that the code prints, which is the same for the directives that the
    code supports.  vsnprintf writes that text, cut to the size of the buffer, and a NUL. *)
From stdpp Require Import list_numbers.
From S2P Require Import Prelude Defs ByteMem KString Printf LibcStdio.

#[local] Ltac bind := cbn [mbind option_bind].

(** ** Formats *)

(** The width is given by its digits. *)
Record dir := mk_dir { d_left : bool; d_zero : bool; d_width : list Z; d_longs : nat; d_spec : Z }.
Inductive item := Lit (c : Z) | Dir (d : dir).

Definition dir_tail (d : dir) : list Z := replicate (d_longs d) 108 ++ [d_spec d].
Definition dir_text (d : dir) : list Z :=
  (if d_left d then [45] else []) ++ (if d_zero d then [48] else []) ++ (Z.add 48 <$> d_width d) ++ dir_tail d.
Definition item_text (i : item) : list Z := match i with Lit c => [c] | Dir d => 37 :: dir_text d end.
Definition format_text (l : list item) : list Z := flat_map item_text l.

Definition width_of (d : dir) : Z := digits_value 10 0 (d_width d).

(** A specifier that is no flag, digit or length modifier. *)
Definition spec_ok (c : Z) : Prop := 0 < c < 256 /\ ~ (48 <= c <= 57) /\ c ≠ 108 /\ c ≠ 45.
Record dir_ok (d : dir) : Prop := {
  ok_flags : d_left d = true -> d_zero d = false;
  ok_digits : Forall (fun x => 0 <= x < 10) (d_width d);
  ok_head : d_left d = false -> d_zero d = false -> head (d_width d) ≠ Some 0;
  ok_width : width_of d < 2 ^ 31;
  ok_longs : (d_longs d <= 2)%nat;
  ok_spec : spec_ok (d_spec d)
}.
Definition item_ok (i : item) : Prop := match i with Lit c => 0 < c < 256 /\ c ≠ 37 | Dir d => dir_ok d end.

(** ** Arguments and text *)

Inductive arg := Word (x : Z) | Str (p : Z) (l : list Z).
Definition slot (a : arg) : Z := match a with Word x => x | Str p _ => p end.

Definition sval (d : dir) (x : Z) : Z := if decide (d_longs d = 0%nat) then int32 (u64 x) else sint64 (u64 x).
Definition uval (d : dir) (x : Z) : Z := if decide (d_longs d = 0%nat) then u32 (u64 x) else u64 x.

Definition spaces (width : Z) (t : list Z) : list Z := replicate (Z.to_nat (width - zlen t)) 32.
Definition is_spec (c : Z) : bool := bool_decide (c ∈ [99; 115; 100; 105; 117; 120; 88; 112]).

(** *** The text that C gives a format *)

(** Text in its field, to the left with '-'. *)
Definition std_field (d : dir) (t : list Z) : list Z := if d_left d then t ++ spaces (width_of d) t else spaces (width_of d) t ++ t.

(** A number in its field: with '0', zeros between the sign and the digits. *)
Definition std_number (d : dir) (flags base v : Z) : list Z :=
  let sign := if v <? 0 then [45] else [] in let ds := digit_char flags <$> num_digits base (Z.abs v) in
  if d_zero d && negb (d_left d) then sign ++ replicate (Z.to_nat (width_of d - zlen (sign ++ ds))) 48 ++ ds
  else std_field d (sign ++ ds).

(** The text of a directive with its argument; a pointer is printed with "0x" and 16 digits. *)
Definition std_text (d : dir) (a : arg) : option (list Z) :=
  let c := d_spec d in
  if c =? 99 then Some (std_field d [u8 (slot a)])
  else if c =? 115 then match a with Str _ l => Some (std_field d l) | Word _ => None end
  else if (c =? 100) || (c =? 105) then Some (std_number d 0 10 (sval d (slot a)))
  else if c =? 117 then Some (std_number d 0 10 (uval d (slot a)))
  else if c =? 120 then Some (std_number d 0 16 (uval d (slot a)))
  else if c =? 88 then Some (std_number d FLAGS_UPPERCASE 16 (uval d (slot a)))
  else Some (std_field d ([48; 120] ++ std_number (mk_dir false true [1; 6] 0 120) 0 16 (u64 (slot a)))).

Definition std_out (d : dir) (args : list arg) : option (list Z * list arg) :=
  if is_spec (d_spec d) then match args with [] => None | a :: args => t ← std_text d a; Some (t, args) end
  else if d_spec d =? 37 then Some ([37], args) else None.

Fixpoint std_render (l : list item) (args : list arg) : option (list Z) :=
  match l with
  | [] => Some []
  | Lit c :: l => t ← std_render l args; Some (c :: t)
  | Dir d :: l => '(t, args) ← std_out d args; t' ← std_render l args; Some (t ++ t')
  end.

(** *** The directives that the code supports *)

Definition bare (d : dir) : Prop := d_left d = false /\ d_zero d = false /\ d_width d = [].

(** A number to the right of its field has at most 23 characters, and no zeros before a sign; '-' works
    for signed numbers and strings only, [%X] not at all, and [%c], [%p] and [%%] take no field. *)
Definition supported_arg (d : dir) (a : arg) : Prop :=
  let c := d_spec d in
  if c =? 99 then bare d
  else if c =? 115 then True
  else if (c =? 100) || (c =? 105) then
    sval d (slot a) ≠ - 2 ^ 63 /\ (d_left d = true \/ width_of d <= 23) /\ (d_zero d = true -> 0 <= sval d (slot a))
  else if (c =? 117) || (c =? 120) then d_left d = false /\ width_of d <= 23
  else c = 112 /\ bare d.

Fixpoint supported (l : list item) (args : list arg) : Prop :=
  match l, args with
  | [], _ => True
  | Lit _ :: l, _ => supported l args
  | Dir d :: l, _ =>
      if is_spec (d_spec d) then match args with [] => False | a :: args => supported_arg d a /\ supported l args end
      else d_spec d = 37 /\ bare d /\ supported l args
  end.

Definition no_pointer (i : item) : Prop := match i with Lit _ => True | Dir d => d_spec d ≠ 112 end.

(** *** The text that the code prints *)

(** The local array holds 23 characters. *)
Definition padded (width pad : Z) (t : list Z) : list Z :=
  take 23 (replicate (Z.to_nat (width - zlen t)) pad ++ t).
Definition pad_of (d : dir) : Z := if d_zero d then 48 else 32.

(** The text of a directive with an argument; [room] characters are left in the buffer. *)
Definition arg_text (room : Z) (d : dir) (a : arg) : option (list Z) :=
  let c := d_spec d in let w := width_of d in
  if c =? 99 then Some [u8 (slot a)]
  else if c =? 115 then
    match a with
    | Str _ l => Some (if d_left d then l ++ spaces w l else spaces w l ++ l)
    | Word _ => None
    end
  else if (c =? 100) || (c =? 105) then
    let v := sval d (slot a) in
    if v =? - 2 ^ 63 then None else
    let t := num_text 0 10 v in
    Some (if d_left d then t ++ spaces w t else padded w (pad_of d) t)
  else if c =? 117 then Some (padded w (pad_of d) (num_text 0 10 (uval d (slot a))))
  else if (c =? 120) || (c =? 88) then Some (padded w (pad_of d) (num_text 0 16 (uval d (slot a))))
  else Some ((if 2 <? room then [48; 120] else []) ++ padded 16 48 (num_text 0 16 (u64 (slot a)))).

Definition dir_out (room : Z) (d : dir) (args : list arg) : option (list Z * list arg) :=
  if is_spec (d_spec d) then
    match args with [] => None | a :: args => t ← arg_text room d a; Some (t, args) end
  else Some (if d_spec d =? 37 then [37] else [37; d_spec d], args).

Fixpoint render (room : Z) (l : list item) (args : list arg) : option (list Z) :=
  match l with
  | [] => Some []
  | Lit c :: l => t ← render (room - 1) l args; Some (c :: t)
  | Dir d :: l => '(t, args) ← dir_out room d args; t' ← render (room - zlen t) l args; Some (t ++ t')
  end.

(** ** format_number *)

Lemma number_char_ok d : 0 <= d < 16 -> number_char d = digit_char 0 d.
Proof.
  intros Hd. assert (d ∈ seqZ 0 16) as H by (apply elem_of_seqZ; lia). revert H. clear Hd. revert d.
  apply Forall_forall. repeat constructor.
Qed.

Lemma number_digits_ok fuel v base p :
  2 <= base <= 16 -> 0 <= v < 2 ^ Z.of_nat fuel -> (length (lsd fuel base v) + length p <= 24)%nat ->
  number_digits (S fuel) v base p = Some (reverse (digit_char 0 <$> lsd fuel base v) ++ p).
Proof.
  intros Hb. revert v p. induction fuel as [|f IH]; intros v p Hv Hl.
  { rewrite Z.pow_0_r in Hv. cbn. by replace v with 0 by lia. }
  remember (S f) as k. cbn [number_digits]. subst k. cbn [lsd] in Hl |- *. destruct (Z.eqb_spec v 0) as [->|Hv0]; [done|].
  cbn [length] in Hl. unfold push. rewrite decide_True by lia. bind. rewrite number_char_ok by (pose proof (Z.mod_pos_bound v base); lia).
  rewrite IH.
  - f_equal. rewrite fmap_cons, reverse_cons, <- app_assoc. done.
  - rewrite Nat2Z.inj_succ, Z.pow_succ_r in Hv by lia. split; [apply Z.div_pos; lia|]. apply Z.div_lt_upper_bound; nia.
  - cbn [length]. lia.
Qed.

Lemma pad_number_ok fuel len width size pad buf :
  1 <= size -> (Z.to_nat size <= fuel)%nat ->
  forall n, n = Z.max 0 (Z.min (width - len) (size - 1)) ->
  pad_number fuel len width size pad buf = (buf ++ replicate (Z.to_nat n) pad, width - n, size - n).
Proof.
  revert width size buf. induction fuel as [|f IH]; intros width size buf Hs Hf n Hn; [lia|]. cbn [pad_number].
  destruct (Z.ltb_spec len width); [destruct (Z.ltb_spec 1 size)|]; cbn [andb].
  2,3: replace n with 0 by lia; cbn [replicate Z.to_nat]; rewrite app_nil_r; apply pair_eq; split; [apply pair_eq; split|]; [done|lia|lia].
  rewrite (IH (width - 1) (size - 1) (buf ++ [pad]) ltac:(lia) ltac:(lia) (n - 1)) by lia. replace (Z.to_nat n) with (S (Z.to_nat (n - 1))) by lia.
  cbn [replicate]. rewrite <- app_assoc. apply pair_eq; split; [apply pair_eq; split|]; [done|lia|lia].
Qed.

Lemma copy_number_ok p size buf : 1 <= size -> 0 ∉ p ->
  copy_number (p ++ [0]) size buf = buf ++ take (Z.to_nat (size - 1)) p.
Proof.
  revert size buf. induction p as [|c p IH]; intros size buf Hs Hp; cbn [app copy_number].
  { by rewrite take_nil, app_nil_r. }
  apply not_elem_of_cons in Hp as [Hc Hp]. rewrite (proj2 (Z.eqb_neq c 0)) by congruence. cbn [negb andb].
  destruct (Z.ltb_spec 1 size).
  - rewrite IH by (done || lia). replace (Z.to_nat (size - 1)) with (S (Z.to_nat (size - 1 - 1))) by lia.
    cbn [take]. by rewrite <- app_assoc.
  - replace (Z.to_nat (size - 1)) with 0%nat by lia. by rewrite app_nil_r.
Qed.

Lemma text_no_nul flags base v : 2 <= base <= 16 -> 0 ∉ num_text flags base v.
Proof. intros Hb H. pose proof (num_text_chars flags base v Hb) as Hf. rewrite Forall_forall in Hf. specialize (Hf _ H). lia. Qed.

(** The text of a number of at most 64 bits in base 10 or 16, with its sign. *)
Lemma number_text_ok v base (sg : bool) : 10 <= base <= 16 -> - 2 ^ 63 < v < 2 ^ 64 ->
  (v < 0 -> sg = true) -> (sg = true -> v < 2 ^ 63) -> forall width pad, exists r,
  format_number 24 (u64 v) base sg width pad = Some (padded width pad (num_text 0 base v) ++ [0], r)
  /\ (width <= zlen (num_text 0 base v) -> r = zlen (num_text 0 base v)).
Proof.
  intros Hb Hv Hn Hs width pad. unfold format_number.
  assert (sg && (sint64 (u64 v) <? 0) = (v <? 0)) as ->.
  { destruct sg; cbn [andb].
    - by rewrite sint64_small by (specialize (Hs eq_refl); lia).
    - symmetry. apply Z.ltb_ge. destruct (Z.lt_ge_cases v 0); [specialize (Hn ltac:(done)); discriminate|done]. }
  assert ((if v <? 0 then x ← long (- sint64 (u64 v)); Some (u64 x) else Some (u64 v)) = Some (Z.abs v)) as ->.
  { destruct (Z.ltb_spec v 0).
    - rewrite sint64_small by lia. rewrite long_ok by lia. bind. rewrite u64_small by lia. f_equal. lia.
    - rewrite u64_small by lia. f_equal. lia. }
  bind. change (push 0 []) with (Some [0]). bind.
  pose proof (num_digits_length base (Z.abs v) ltac:(lia) ltac:(lia)) as Hl.
  assert ((if Z.abs v =? 0 then push 48 [0] else number_digits 65 (Z.abs v) base [0])
    = Some ((digit_char 0 <$> num_digits base (Z.abs v)) ++ [0])) as ->.
  { unfold num_digits in *. destruct (Z.eqb_spec (Z.abs v) 0) as [E|E]; [reflexivity|].
    rewrite length_reverse in Hl. rewrite (number_digits_ok 64) by (cbn [length]; lia). by rewrite fmap_reverse. }
  bind. assert ((if v <? 0 then push 45 ((digit_char 0 <$> num_digits base (Z.abs v)) ++ [0]) else Some ((digit_char 0 <$> num_digits base (Z.abs v)) ++ [0]))
    = Some (num_text 0 base v ++ [0])) as ->.
  { unfold num_text. destruct (v <? 0); [|done]. unfold push. rewrite decide_True by (rewrite length_app, length_fmap; cbn; lia). done. }
  bind. rewrite zlen_app. change (zlen [0]) with 1. set (t := num_text 0 base v).
  assert (0 <= zlen t <= 23) as Ht.
  { pose proof (zlen_nonneg t). split; [done|]. unfold t, num_text. rewrite zlen_app. unfold zlen at 2. rewrite length_fmap.
    destruct (v <? 0); [change (zlen [45]) with 1|change (zlen []) with 0]; lia. }
  rewrite (pad_number_ok (Z.to_nat 24) (zlen t + 1 - 1) width 24 pad [] ltac:(lia) ltac:(lia) _ eq_refl).
  eexists. split.
  - f_equal. f_equal. rewrite copy_number_ok by (first [lia | apply text_no_nul; lia]). f_equal. unfold padded. cbn [app].
    replace (zlen t + 1 - 1) with (zlen t) by lia. destruct (Z.le_gt_cases (width - zlen t) 23).
    + rewrite take_app_ge by (rewrite length_replicate; lia). rewrite length_replicate.
      replace (Z.to_nat (Z.max 0 (Z.min (width - zlen t) (24 - 1)))) with (Z.to_nat (width - zlen t)) by lia. f_equal. f_equal. lia.
    + rewrite take_app_le by (rewrite length_replicate; lia). rewrite take_replicate.
      replace (23 `min` Z.to_nat (width - zlen t))%nat with 23%nat by lia.
      replace (Z.max 0 (Z.min (width - zlen t) (24 - 1))) with 23 by lia. cbn [take Z.to_nat Z.sub]. by rewrite app_nil_r.
  - intros Hw. case_match eqn:E; [lia|]. apply Z.ltb_ge in E. lia.
Qed.

(** ** The code prints what C says, for the supported directives *)

Lemma num_text_short base v : 8 <= base -> - 2 ^ 64 < v < 2 ^ 64 -> zlen (num_text 0 base v) <= 23.
Proof.
  intros Hb Hv. unfold num_text. rewrite zlen_app. unfold zlen at 2. rewrite length_fmap.
  pose proof (num_digits_length base (Z.abs v) Hb ltac:(lia)). destruct (v <? 0); [change (zlen [45]) with 1|change (zlen []) with 0]; lia.
Qed.

Lemma padded_fits w pad t : w <= 23 -> zlen t <= 23 -> padded w pad t = replicate (Z.to_nat (w - zlen t)) pad ++ t.
Proof. intros Hw Ht. unfold padded. apply take_ge. rewrite length_app, length_replicate. unfold zlen in *. lia. Qed.

(** A number in a field that the code can fill. *)
Lemma padded_std d base v : 8 <= base -> - 2 ^ 64 < v < 2 ^ 64 -> d_left d = false -> width_of d <= 23 -> (d_zero d = true -> 0 <= v) ->
  padded (width_of d) (pad_of d) (num_text 0 base v) = std_number d 0 base v.
Proof.
  intros Hb Hv Hl Hw Hz. rewrite padded_fits by (done || by apply num_text_short). unfold std_number, std_field, spaces, pad_of. rewrite Hl. cbn [negb].
  rewrite andb_true_r. destruct (d_zero d); [|done]. unfold num_text. rewrite (proj2 (Z.ltb_ge v 0)) by (by apply Hz). done.
Qed.

Lemma bare_width d : bare d -> width_of d = 0.
Proof. intros (_ & _ & E). unfold width_of. by rewrite E. Qed.

Lemma std_field_bare d t : bare d -> std_field d t = t.
Proof.
  intros H. unfold std_field, spaces. rewrite (bare_width d H). pose proof (zlen_nonneg t).
  replace (Z.to_nat (0 - zlen t)) with 0%nat by lia. destruct (d_left d); [by rewrite app_nil_r|done].
Qed.

Lemma sval_range d x : - 2 ^ 63 <= sval d x < 2 ^ 63.
Proof. unfold sval, int32, sint64. pose proof (u32_range (u64 x)). pose proof (u64_range (u64 x)). repeat case_match; unfold fits in *; lia. Qed.

Lemma uval_range d x : 0 <= uval d x < 2 ^ 64.
Proof. unfold uval. pose proof (u32_range (u64 x)). pose proof (u64_range x). case_decide; unfold fits in *; lia. Qed.

Lemma arg_text_std room d a t : supported_arg d a -> std_text d a = Some t -> (d_spec d = 112 -> 2 < room) -> arg_text room d a = Some t.
Proof.
  unfold supported_arg, std_text, arg_text. intros Hs Ht Hr.
  destruct (Z.eqb_spec (d_spec d) 99); [by rewrite std_field_bare in Ht|]. destruct (d_spec d =? 115); [by destruct a|].
  pose proof (sval_range d (slot a)) as Hsv. pose proof (uval_range d (slot a)) as Huv. destruct (_ || _) eqn:Edi.
  - destruct Hs as (Hm & Hw & Hz). rewrite (proj2 (Z.eqb_neq _ _) Hm). rewrite <- Ht. f_equal. destruct (d_left d) eqn:El.
    + unfold std_number, std_field. by rewrite El, andb_false_r.
    + apply padded_std; (done || lia || by destruct Hw).
  - destruct (Z.eqb_spec (d_spec d) 117); cbn [orb] in Hs; [destruct Hs as [Hl Hw]; rewrite <- Ht; f_equal; by apply padded_std; try lia|].
    destruct (Z.eqb_spec (d_spec d) 120); cbn [orb] in Hs |- *; [destruct Hs as [Hl Hw]; rewrite <- Ht; f_equal; by apply padded_std; try lia|].
    destruct Hs as [E Hb]. rewrite E in *. cbn [Z.eqb Pos.eqb] in *. rewrite (proj2 (Z.ltb_lt _ _)) by (by apply Hr). rewrite std_field_bare in Ht by done.
    rewrite <- Ht. do 2 f_equal. pose proof (u64_range (slot a)) as Hu.
    apply (padded_std (mk_dir false true [1; 6] 0 120) 16 (u64 (slot a))); [lia|unfold fits in Hu; lia|done|done|]. intros _. apply Hu.
Qed.

Lemma std_render_ok items : forall room args t,
  supported items args -> std_render items args = Some t -> Forall no_pointer items \/ zlen t <= room -> render room items args = Some t.
Proof.
  induction items as [|[c|d] items IH]; intros room args t Hs Ht Hr; [done|..]; cbn [supported std_render render] in *.
  - apply bind_Some in Ht as (t' & Ht & [= <-]). rewrite (IH (room - 1) args t'); [done|done|done|].
    rewrite Forall_cons, zlen_cons in Hr. destruct Hr as [[_ Hr]|Hr]; [by left|right; lia].
  - apply bind_Some in Ht as ([t1 args'] & Ho & Ht). apply bind_Some in Ht as (t2 & Ht & [= <-]). rewrite zlen_app, Forall_cons in Hr. pose proof (zlen_nonneg t2) as H2.
    assert (dir_out room d args = Some (t1, args') /\ supported items args') as [-> Hs'].
    { unfold std_out, dir_out in *. destruct (is_spec (d_spec d)).
      - destruct args as [|a args]; [done|]. destruct Hs as [Ha Hs]. apply bind_Some in Ho as (t' & Ho & [= -> ->]). split; [|done].
        rewrite (arg_text_std room d a t1); [done|done|done|]. intros E. destruct Hr as [[Hr _]|Hr]; [done|].
        unfold std_text in Ho. rewrite E in Ho. cbn [Z.eqb Pos.eqb orb] in Ho. injection Ho as <-. unfold supported_arg in Ha. rewrite E in Ha. cbn [Z.eqb Pos.eqb orb] in Ha.
        rewrite std_field_bare in Hr by apply Ha. cbn [app] in Hr. rewrite !zlen_cons in Hr.
        assert (1 <= zlen (std_number (mk_dir false true [1; 6] 0 120) 0 16 (u64 (slot a)))); [|lia].
        pose proof (u64_range (slot a)) as Hu. pose proof (num_digits_length 16 (Z.abs (u64 (slot a))) ltac:(lia) ltac:(lia)).
        unfold std_number. cbn [d_zero d_left andb negb]. unfold zlen at 1. rewrite !length_app, length_fmap. lia.
      - destruct Hs as (E & _ & Hs). rewrite E in *. cbn [Z.eqb Pos.eqb] in *. injection Ho as <- <-. done. }
    cbn [mbind option_bind]. rewrite (IH (room - zlen t1) args' t2); [done|done|done|]. destruct Hr as [[_ Hr]|Hr]; [by left|right; lia].
Qed.

(** ** Writing into the buffer *)

Section Buffer.
(** The memory at the call, the buffer and the number of characters it can take. *)
Context (m0 : bytemem) (str R : Z).
Hypotheses (Hm0 : bytemem_ok m0) (HR : 0 <= R) (Hbuf : mapped m0 str (R + 1)).

(** The state when [w] was written. *)
Definition st (w : list Z) : bytemem * Z := (blit m0 str w, str + zlen w).
(** [w] followed by what fits of [t]. *)
Definition cut (w t : list Z) : list Z := w ++ take (Z.to_nat (R - zlen w)) t.

Lemma cut_nil w : cut w [] = w.
Proof. unfold cut. by rewrite take_nil, app_nil_r. Qed.

Lemma zlen_cut w t : zlen w <= R -> zlen (cut w t) = Z.min R (zlen w + zlen t).
Proof. intros H. unfold cut. rewrite zlen_app. unfold zlen at 2 4. rewrite length_take. unfold zlen in *. lia. Qed.

Lemma cut_app w t1 t2 : zlen w <= R -> cut (cut w t1) t2 = cut w (t1 ++ t2).
Proof.
  intros H. unfold cut at 1. rewrite zlen_cut by done. unfold cut. rewrite <- app_assoc. f_equal. rewrite take_app. f_equal.
  f_equal. unfold zlen in *. lia.
Qed.

Lemma cut_full w t : R <= zlen w -> cut w t = w.
Proof. intros H. unfold cut. replace (Z.to_nat (R - zlen w)) with 0%nat by lia. by rewrite take_0, app_nil_r. Qed.

Lemma cut_cons w c t : zlen w < R -> cut w (c :: t) = cut (w ++ [c]) t.
Proof.
  intros H. unfold cut. rewrite zlen_app, <- app_assoc. change (zlen [c]) with 1. cbn [app].
  replace (Z.to_nat (R - zlen w)) with (S (Z.to_nat (R - (zlen w + 1)))) by lia. done.
Qed.

(** [f] writes the text [t], as far as there is room. *)
Definition emits (t : list Z) (f : bytemem * Z -> option (bytemem * Z)) : Prop :=
  forall w, zlen w <= R -> f (st w) = Some (st (cut w t)).

Lemma put_st c w : zlen w < R -> put c (st w) = Some (st (w ++ [u8 c])).
Proof using Hbuf.
  intros H. pose proof (zlen_nonneg w). unfold put, st, store. cbn [fst snd].
  destruct (mapped_blit m0 str (R + 1) str w Hbuf (str + zlen w)) as [x ->]; [lia|]. bind. rewrite blit_snoc, zlen_app.
  change (zlen [u8 c]) with 1. by rewrite Z.add_assoc.
Qed.

Lemma below w : ((st w).2 <? str + R) = (zlen w <? R).
Proof. unfold st. cbn [snd]. destruct (Z.ltb_spec (zlen w) R); [apply Z.ltb_lt|apply Z.ltb_ge]; lia. Qed.

Lemma emits_id : emits [] Some.
Proof. intros w Hw. by rewrite cut_nil. Qed.

Lemma emits_bind t1 t2 f g : emits t1 f -> emits t2 g -> emits (t1 ++ t2) (fun s => s' ← f s; g s').
Proof using HR.
  intros H1 H2 w Hw. rewrite H1 by done. bind. rewrite H2, cut_app by (done || rewrite zlen_cut by done; lia). done.
Qed.

Lemma emits_below c : is_byte c -> emits [c] (put_below c (str + R)).
Proof using Hbuf.
  intros Hc w Hw. unfold put_below. rewrite below. destruct (Z.ltb_spec (zlen w) R).
  - rewrite put_st, cut_cons, cut_nil by done. unfold u8. by rewrite wrap_small.
  - by rewrite cut_full.
Qed.

Lemma emits_tmp t : Forall is_byte t -> 0 ∉ t -> emits t (put_tmp (t ++ [0]) (str + R)).
Proof using Hbuf.
  induction t as [|c t IH]; intros Ht H0 w Hw; cbn [app put_tmp].
  { by rewrite cut_nil. }
  apply Forall_cons in Ht as [Hc Ht]. apply not_elem_of_cons in H0 as [Hc0 H0].
  rewrite below, (proj2 (Z.eqb_neq c 0)) by congruence. cbn [negb andb]. destruct (Z.ltb_spec (zlen w) R).
  - rewrite put_st, cut_cons by done. bind. unfold u8. rewrite wrap_small by done. rewrite IH; [done..|].
    rewrite zlen_app. change (zlen [c]) with 1. lia.
  - by rewrite cut_full.
Qed.

Lemma emits_spaces n : emits (replicate n 32) (put_spaces n (str + R)).
Proof using Hbuf.
  induction n as [|n IH]; intros w Hw; cbn [replicate put_spaces].
  { by rewrite cut_nil. }
  rewrite below. destruct (Z.ltb_spec (zlen w) R).
  - rewrite put_st, cut_cons by done. bind. change (u8 32) with 32. rewrite IH; [done|].
    rewrite zlen_app. change (zlen [32]) with 1. lia.
  - by rewrite cut_full.
Qed.

(** A string that stands outside the buffer. *)
Definition outside (p : Z) (l : list Z) : Prop := cstr_at m0 p l /\ (p + zlen l < str \/ str + R < p).

Lemma outside_at p l w : outside p l -> zlen w <= R -> cstr_at (blit m0 str w) p l.
Proof.
  intros [ [Hl H0] Ho] Hw. split; [|done]. apply bytes_at_blit_other; [done|]. rewrite zlen_app. change (zlen [0]) with 1. lia.
Qed.

Lemma outside_cons p c l : outside p (c :: l) -> c ≠ 0 /\ outside (p + 1) l.
Proof.
  intros [ (Hc & H0 & Hl)%cstr_cons Ho]. rewrite zlen_cons in Ho. pose proof (zlen_nonneg l). split; [done|]. split; [done|lia].
Qed.

Lemma outside_byte p c l w : outside p (c :: l) -> zlen w <= R -> blit m0 str w !! p = Some c /\ is_byte c.
Proof using Hm0.
  intros Hp Hw. split; [by apply (outside_at _ _ w) in Hp as (? & _)%cstr_cons|].
  destruct Hp as [ (Hc & _)%cstr_cons _]. exact (Hm0 _ _ Hc).
Qed.

Lemma emits_string fuel p l : outside p l -> (length l < fuel)%nat -> emits l (put_string fuel p (str + R)).
Proof using Hbuf Hm0.
  revert fuel p. induction l as [|c l IH]; intros [|f] p Hp Hf w Hw; cbn [put_string length] in *; [lia| |lia|].
  { change (st w).1 with (blit m0 str w). apply outside_at with (w := w) in Hp as ->%cstr_nil; [|done]. bind. by rewrite cut_nil. }
  change (st w).1 with (blit m0 str w). destruct (outside_byte _ _ _ _ Hp Hw) as [-> Hc]. bind. apply outside_cons in Hp as [Hc0 Hp].
  rewrite below, (proj2 (Z.eqb_neq c 0)) by done. cbn [negb andb]. destruct (Z.ltb_spec (zlen w) R).
  - rewrite put_st, cut_cons by done. bind. unfold u8. rewrite wrap_small by done. rewrite (IH f (p + 1)); [done|done|lia|].
    rewrite zlen_app. change (zlen [c]) with 1. lia.
  - by rewrite cut_full.
Qed.

(** *** Conversions *)

Definition arg_ok (a : arg) : Prop :=
  match a with
  | Word _ => True
  | Str p l => p = 0 /\ l = null_string \/ 0 < p < 2 ^ 64 /\ outside p l /\ zlen l < 2 ^ 31
  end.

Definition flags_of (d : dir) : directive_flags :=
  mk_flags (d_left d) (pad_of d) (width_of d) (bool_decide (0 < d_longs d)%nat) (bool_decide (d_longs d = 2%nat)).

Lemma padded_chars width pad base v : 2 <= base <= 16 -> pad = 48 \/ pad = 32 ->
  Forall is_byte (padded width pad (num_text 0 base v)) /\ 0 ∉ padded width pad (num_text 0 base v).
Proof.
  intros Hb Hp. assert (Forall (fun c => 0 < c < 256) (padded width pad (num_text 0 base v))) as H.
  { apply Forall_take, Forall_app. split; [|by apply num_text_chars]. apply Forall_replicate. lia. }
  split; [eapply Forall_impl; [exact H|]; unfold is_byte; lia|]. intros H0. rewrite Forall_forall in H. specialize (H _ H0). lia.
Qed.

Lemma pad_of_cases d : pad_of d = 48 \/ pad_of d = 32.
Proof. unfold pad_of. case_match; auto. Qed.

Lemma emits_number v base width pad : 10 <= base <= 16 -> 0 <= v < 2 ^ 64 -> pad = 48 \/ pad = 32 ->
  emits (padded width pad (num_text 0 base v))
    (fun s => '(tmp, _) ← format_number 24 v base false width pad; put_tmp tmp (str + R) s).
Proof using Hbuf.
  intros Hb Hv Hp w Hw. destruct (number_text_ok v base false Hb ltac:(lia) ltac:(lia) ltac:(done) width pad) as (r & E & _).
  rewrite u64_small in E by done. rewrite E. bind. apply emits_tmp; [apply padded_chars..|done]; (done || lia).
Qed.

Lemma padded_narrow width pad t : width <= zlen t -> zlen t <= 23 -> padded width pad t = t.
Proof.
  intros Hw Ht. unfold padded. replace (Z.to_nat (width - zlen t)) with 0%nat by lia. cbn [replicate app].
  apply take_ge. unfold zlen in Ht. lia.
Qed.

Lemma emits_signed v d : - 2 ^ 63 < v < 2 ^ 63 ->
  emits (let t := num_text 0 10 v in if d_left d then t ++ spaces (width_of d) t else padded (width_of d) (pad_of d) t)
    (fun s => '(tmp, len) ← format_number 24 (u64 v) 10 true (if d_left d then 0 else width_of d) (pad_of d);
              s ← put_tmp tmp (str + R) s;
              if d_left d then put_spaces (Z.to_nat (width_of d - len)) (str + R) s else Some s).
Proof using HR Hbuf.
  intros Hv w Hw. cbv zeta. pose proof (num_text_length 0 v ltac:(lia)) as Ht. pose proof (zlen_nonneg (num_text 0 10 v)).
  destruct (number_text_ok v 10 true ltac:(lia) ltac:(lia) ltac:(done) ltac:(lia) (if d_left d then 0 else width_of d) (pad_of d)) as (r & -> & Hr).
  bind. pose proof (padded_chars (if d_left d then 0 else width_of d) (pad_of d) 10 v ltac:(lia) (pad_of_cases d)) as [Hb H0].
  destruct (d_left d).
  - rewrite Hr by lia. rewrite padded_narrow in * by lia. unfold spaces.
    exact (emits_bind _ _ _ _ (emits_tmp _ Hb H0) (emits_spaces _) w Hw).
  - rewrite (emits_tmp _ Hb H0) by done. done.
Qed.

Lemma convert_string_ok d p l : arg_ok (Str p l) ->
  emits (if d_left d then l ++ spaces (width_of d) l else spaces (width_of d) l ++ l) (convert_string (flags_of d) p (str + R)).
Proof using HR Hbuf Hm0.
  intros Ha w Hw. unfold convert_string. cbn [left_justify f_width flags_of]. change (st w).1 with (blit m0 str w).
  assert ((if p =? 0 then Some (zlen null_string) else strlen (blit m0 str w) p) = Some (zlen l) /\ zlen l < 2 ^ 31) as [-> Hl].
  { destruct Ha as [ [-> ->]|(Hp & Ho & Hl)]; [done|]. rewrite (proj2 (Z.eqb_neq p 0)) by lia.
    by rewrite (strlen_ok _ _ _ (outside_at _ _ _ Ho Hw)). }
  bind. pose proof (zlen_nonneg l). rewrite cint_ok by lia. bind.
  assert (emits l (fun s => if p =? 0 then put_tmp (null_string ++ [0]) (str + R) s else put_string (walk_fuel s.1) p (str + R) s)) as Hs.
  { intros v Hv. destruct Ha as [ [-> ->]|(Hp & Ho & _)].
    - change (0 =? 0) with true. cbv iota. apply emits_tmp; [by repeat constructor| |done]. by apply (bool_decide_unpack _).
    - rewrite (proj2 (Z.eqb_neq p 0)) by lia. apply emits_string; [done| |done].
      pose proof (cstr_size _ _ _ (outside_at _ _ _ Ho Hv)). unfold walk_fuel. cbn [fst st]. lia. }
  unfold spaces. destruct (d_left d).
  - exact (emits_bind _ _ _ _ Hs (emits_spaces _) w Hw).
  - pose proof (emits_bind _ _ _ _ (emits_spaces (Z.to_nat (width_of d - zlen l))) Hs w Hw) as E.
    cbv beta in E. revert E. destruct (put_spaces _ _ _); bind; [by intros ->|by intros E].
Qed.

Lemma emits_pointer x w : zlen w < R ->
  (s ← (if (st w).2 + 2 <? str + R then s ← put 48 (st w); put 120 s else Some (st w));
   '(tmp, _) ← format_number 24 (u64 x) 16 false 16 48; put_tmp tmp (str + R) s)
  = Some (st (cut w ((if 2 <? R - zlen w then [48; 120] else []) ++ padded 16 48 (num_text 0 16 (u64 x))))).
Proof using HR Hbuf.
  intros Hw. pose proof (u64_range x) as Hx.
  assert (((st w).2 + 2 <? str + R) = (2 <? R - zlen w)) as ->.
  { cbn [snd st]. destruct (Z.ltb_spec 2 (R - zlen w)); [apply Z.ltb_lt|apply Z.ltb_ge]; lia. }
  pose proof (emits_number (u64 x) 16 16 48 ltac:(lia) Hx ltac:(auto)) as En.
  destruct (Z.ltb_spec 2 (R - zlen w)).
  - rewrite put_st by lia. bind. rewrite put_st by (rewrite zlen_app; change (zlen [u8 48]) with 1; lia). bind.
    change (u8 48) with 48. change (u8 120) with 120. rewrite En by (rewrite !zlen_app; change (zlen [48]) with 1; change (zlen [120]) with 1; lia).
    do 2 f_equal. cbn [app]. rewrite !cut_cons; [done|rewrite zlen_app; change (zlen [48]) with 1; lia|lia].
  - bind. rewrite En by lia. done.
Qed.

Lemma arg_signed_ok d x ap : (d_longs d <= 2)%nat -> arg_signed (flags_of d) (x :: ap) = Some (sval d x, ap).
Proof.
  intros Hl. unfold arg_signed, sval. cbn [is_longlong is_long flags_of].
  destruct (d_longs d) as [|[|[|?]]]; [done..|lia].
Qed.
Lemma arg_unsigned_ok d x ap : (d_longs d <= 2)%nat -> arg_unsigned (flags_of d) (x :: ap) = Some (uval d x, ap).
Proof.
  intros Hl. unfold arg_unsigned, uval. cbn [is_longlong is_long flags_of].
  destruct (d_longs d) as [|[|[|?]]]; [done..|lia].
Qed.

Lemma u8_int32 x : u8 (int32 (u64 x)) = u8 x.
Proof.
  assert (u8 (u32 (u64 x)) = u8 x) as E.
  { unfold u8, u32, u64, wrap. rewrite <- (Znumtheory.Zmod_div_mod (2 ^ 8) (2 ^ 32)); [|lia|lia|by exists (2 ^ 24)].
    rewrite <- (Znumtheory.Zmod_div_mod (2 ^ 8) (2 ^ 64)); [done|lia|lia|by exists (2 ^ 56)]. }
  unfold int32. case_match; [done|]. rewrite <- E. unfold u8, wrap.
  replace (u32 (u64 x) - 2 ^ 32) with (u32 (u64 x) + (- 2 ^ 24) * 2 ^ 8) by lia. apply Z.mod_add. lia.
Qed.

(** Every directive writes its text. *)
Lemma convert_ok_libc d args t args' w :
  dir_ok d -> Forall arg_ok args -> zlen w < R -> dir_out (R - zlen w) d args = Some (t, args') ->
  convert_libc (flags_of d) (d_spec d) (str + R) (slot <$> args) (st w) = Some (slot <$> args', st (cut w t)) /\ Forall arg_ok args'.
Proof using HR Hbuf Hm0.
  intros Hd Ha Hw. pose proof (ok_spec _ Hd) as (Hc & _). pose proof (ok_longs _ Hd) as Hl. unfold dir_out, is_spec.
  case_bool_decide as Hs.
  - destruct args as [|a args]; [done|]. intros H. apply Forall_cons in Ha as [Ha Has].
    apply bind_Some in H as (t0 & Ht & [= -> <-]). split; [|done]. revert Ht. unfold arg_text, convert_libc. rewrite fmap_cons.
    assert (d_spec d = 99 \/ d_spec d = 115 \/ (d_spec d = 100 \/ d_spec d = 105) \/ d_spec d = 117 \/
      (d_spec d = 120 \/ d_spec d = 88) \/ d_spec d = 112) as Hspec by set_solver. clear Hs.
    destruct Hspec as [ ->|[ ->|[H|[ ->|[H| ->] ] ] ] ]; [| |destruct H as [ ->| ->]| |destruct H as [ ->| ->]|]; cbn [Z.eqb Pos.eqb orb].
    + intros [= <-]. unfold va_int. cbn [va_u64]. bind. rewrite put_st, cut_cons, cut_nil by done. bind. by rewrite u8_int32.
    + destruct a as [x|p l]; [done|]. intros [= <-]. cbn [va_u64 slot]. bind.
      assert (u64 p = p) as -> by (apply u64_small; destruct Ha as [ [-> _]|[? _] ]; lia).
      rewrite convert_string_ok by (done || lia). done.
    + destruct (Z.eqb_spec (sval d (slot a)) (- 2 ^ 63)) as [|Hv]; [done|]. intros [= <-]. rewrite arg_signed_ok by done. bind.
      cbn [left_justify f_width f_pad flags_of]. pose proof (sval_range d (slot a)).
      pose proof (emits_signed (sval d (slot a)) d ltac:(lia) w ltac:(lia)) as E. cbv zeta beta in E.
      destruct (format_number _ _ _ _ _ _) as [ [tmp len]|]; [|done]. revert E. bind. destruct (put_tmp _ _ _); bind; [|done]. by intros ->.
    + destruct (Z.eqb_spec (sval d (slot a)) (- 2 ^ 63)) as [|Hv]; [done|]. intros [= <-]. rewrite arg_signed_ok by done. bind.
      cbn [left_justify f_width f_pad flags_of]. pose proof (sval_range d (slot a)).
      pose proof (emits_signed (sval d (slot a)) d ltac:(lia) w ltac:(lia)) as E. cbv zeta beta in E.
      destruct (format_number _ _ _ _ _ _) as [ [tmp len]|]; [|done]. revert E. bind. destruct (put_tmp _ _ _); bind; [|done]. by intros ->.
    + intros [= <-]. rewrite arg_unsigned_ok by done. bind. unfold convert_number. cbn [f_width f_pad flags_of].
      rewrite emits_number; [done|lia|apply uval_range|apply pad_of_cases|lia].
    + intros [= <-]. rewrite arg_unsigned_ok by done. bind. unfold convert_number. cbn [f_width f_pad flags_of].
      rewrite emits_number; [done|lia|apply uval_range|apply pad_of_cases|lia].
    + intros [= <-]. rewrite arg_unsigned_ok by done. bind. unfold convert_number. cbn [f_width f_pad flags_of].
      rewrite emits_number; [done|lia|apply uval_range|apply pad_of_cases|lia].
    + intros [= <-]. cbn [va_u64]. bind. pose proof (emits_pointer (slot a) w Hw) as E. revert E.
      destruct (if _ : bool then _ else _); bind; [|done]. destruct (format_number _ _ _ _ _ _) as [ [tmp len]|]; bind; [|done].
      by intros ->.
  - intros [= <- <-]. split; [|done]. destruct (Z.eqb_spec (d_spec d) 37) as [E|E].
    + rewrite E. unfold convert_libc. cbn [Z.eqb Pos.eqb]. rewrite put_st by done. bind. by rewrite cut_cons, cut_nil.
    + unfold convert_libc. assert (forall x, x ∈ [99; 115; 100; 105; 117; 120; 88; 112] -> (d_spec d =? x) = false) as Hne.
      { intros x Hx. apply Z.eqb_neq. intros Ex. by rewrite Ex in Hs. }
      rewrite (Hne 99), (Hne 115), (Hne 100), (Hne 105), (Hne 117), (Hne 120), (Hne 88), (Hne 112) by (by apply (bool_decide_unpack _)).
      rewrite (proj2 (Z.eqb_neq _ _) E). cbn [orb].
      pose proof (emits_bind [37] [d_spec d] _ _ (emits_below 37 ltac:(unfold is_byte; lia)) (emits_below (d_spec d) ltac:(unfold is_byte; lia)) w ltac:(lia)) as Eb.
      cbv beta in Eb. revert Eb. destruct (put_below 37 _ _); bind; [|by intros E']. by intros ->.
Qed.

(** *** Directives are read as they are written *)

Lemma parse_num_ok ds c k fuel m p acc :
  cstr_at m p ((Z.add 48 <$> ds) ++ c :: k) -> Forall (fun x => 0 <= x < 10) ds -> ~ (48 <= c <= 57) -> 0 < c < 256 -> 0 <= acc ->
  digits_value 10 acc ds < 2 ^ 31 -> (length ds < fuel)%nat ->
  parse_num fuel m p acc = Some (p + zlen ds, digits_value 10 acc ds).
Proof.
  revert fuel p acc. induction ds as [|d ds IH]; intros [|f] p acc Hl Hd Hc Hb Ha Hv Hf; cbn [length] in Hf; [lia| |lia|].
  - apply cstr_cons in Hl as (Hl & _). cbn [parse_num]. rewrite Hl. bind.
    assert ((48 <=? schar c) && (schar c <=? 57) = false) as ->.
    { apply andb_false_iff. unfold schar. destruct (Z.ltb_spec c 128); [|left; apply Z.leb_gt; lia].
      destruct (Z.leb_spec 48 c); [right; apply Z.leb_gt; lia|by left]. }
    change (zlen []) with 0. by rewrite Z.add_0_r.
  - rewrite fmap_cons in Hl. apply cstr_cons in Hl as (Hp & _ & Hl). apply Forall_cons in Hd as [Hd Hds]. cbn [parse_num]. rewrite Hp. bind.
    unfold schar. rewrite (proj2 (Z.ltb_lt _ _)), !(proj2 (Z.leb_le _ _)) by lia. cbn [andb].
    pose proof (digits_value_ge 10 (acc * 10 + d) ds ltac:(lia) ltac:(lia) Hds) as Hge.
    change (digits_value 10 acc (d :: ds)) with (digits_value 10 (acc * 10 + d) ds) in *.
    replace (acc * 10 + (48 + d - 48)) with (acc * 10 + d) by lia. rewrite cint_ok by lia. bind.
    rewrite (IH f (p + 1) (acc * 10 + d)) by (done || lia). rewrite zlen_cons. do 2 f_equal. lia.
Qed.

(** The first character after the flags. *)
Lemma width_head d k : dir_ok d -> exists c l,
  (Z.add 48 <$> d_width d) ++ dir_tail d ++ k = c :: l /\ c ≠ 45 /\ (head (d_width d) ≠ Some 0 -> c ≠ 48).
Proof.
  intros Hd. pose proof (ok_digits _ Hd) as Hw. destruct (ok_spec _ Hd) as (Hb & Hn & _ & H45).
  destruct (d_width d) as [|x xs].
  - unfold dir_tail. destruct (d_longs d) as [|n]; cbn; eexists _, _; (split; [reflexivity|]); split; intros; lia.
  - apply Forall_cons in Hw as [Hx _]. cbn. eexists _, _. split; [reflexivity|]. split; [lia|]. intros H ?. apply H. f_equal. lia.
Qed.

Lemma tail_head d k : dir_ok d -> exists c l, dir_tail d ++ k = c :: l /\ 0 < c < 256 /\ ~ (48 <= c <= 57).
Proof.
  intros Hd. destruct (ok_spec _ Hd) as (Hb & Hn & _). unfold dir_tail.
  destruct (d_longs d) as [|n]; cbn; eexists _, _; (split; [reflexivity|]); lia.
Qed.

Lemma parse_length_ok d k m p : dir_ok d -> cstr_at m p (dir_tail d ++ k) ->
  exists c, m !! p = Some c /\
  (if c =? 108 then
     c' ← m !! (p + 1); Some (mk_flags (d_left d) (pad_of d) (width_of d) true (c' =? 108), if c' =? 108 then p + 2 else p + 1)
   else Some (mk_flags (d_left d) (pad_of d) (width_of d) false false, p)) = Some (flags_of d, p + zlen (dir_tail d) - 1)
  /\ m !! (p + zlen (dir_tail d) - 1) = Some (d_spec d).
Proof.
  intros Hd. destruct (ok_spec _ Hd) as (_ & _ & Hs & _). pose proof (ok_longs _ Hd). unfold dir_tail, flags_of.
  destruct (d_longs d) as [|[|[|?] ] ]; [| | |lia]; cbn [replicate app]; intros Hl.
  - apply cstr_cons in Hl as (Hc & _). exists (d_spec d). rewrite (proj2 (Z.eqb_neq _ _) Hs). change (zlen [d_spec d]) with 1.
    replace (p + 1 - 1) with p by lia. done.
  - apply cstr_cons in Hl as (Hc & _ & (Hc' & _)%cstr_cons). exists 108. cbn [Z.eqb Pos.eqb]. rewrite Hc'. bind.
    rewrite (proj2 (Z.eqb_neq _ _) Hs). change (zlen [108; d_spec d]) with 2. replace (p + 2 - 1) with (p + 1) by lia. done.
  - apply cstr_cons in Hl as (Hc & _ & (Hc' & _ & (Hs' & _)%cstr_cons)%cstr_cons). exists 108. cbn [Z.eqb Pos.eqb]. rewrite Hc'. bind.
    cbn [Z.eqb Pos.eqb]. change (zlen [108; 108; d_spec d]) with 3. replace (p + 3 - 1) with (p + 1 + 1) by lia.
    replace (p + 2) with (p + 1 + 1) by lia. done.
Qed.

(** From the width on. *)
Lemma parse_width_ok d k m p : dir_ok d -> cstr_at m p ((Z.add 48 <$> d_width d) ++ dir_tail d ++ k) ->
  ('(p, width) ← parse_num (walk_fuel m) m p 0;
   c ← m !! p;
   if c =? 108 then
     c ← m !! (p + 1);
     Some (mk_flags (d_left d) (pad_of d) width true (c =? 108), if c =? 108 then p + 2 else p + 1)
   else Some (mk_flags (d_left d) (pad_of d) width false false, p))
  = Some (flags_of d, p + zlen (d_width d) + zlen (dir_tail d) - 1)
  /\ m !! (p + zlen (d_width d) + zlen (dir_tail d) - 1) = Some (d_spec d).
Proof.
  intros Hd Hl. destruct (tail_head d k Hd) as (c & l & E & Hb & Hn).
  assert (length (d_width d) < walk_fuel m)%nat as Hf.
  { apply cstr_size in Hl. rewrite length_app, length_fmap in Hl. unfold walk_fuel. lia. }
  rewrite (parse_num_ok (d_width d) c l _ m p 0);
    [|by rewrite <- E|exact (ok_digits _ Hd)|done|done|lia|exact (ok_width _ Hd)|done]. bind.
  apply cstr_app in Hl as (_ & _ & Hl). replace (zlen (Z.add 48 <$> d_width d)) with (zlen (d_width d)) in Hl by (unfold zlen; by rewrite length_fmap).
  destruct (parse_length_ok d k m _ Hd Hl) as (c' & -> & E' & Hs). bind. done.
Qed.

Lemma parse_directive_ok d k m p : dir_ok d -> cstr_at m p (dir_text d ++ k) ->
  parse_directive m p = Some (flags_of d, p + zlen (dir_text d) - 1) /\ m !! (p + zlen (dir_text d) - 1) = Some (d_spec d).
Proof.
  intros Hd Hl. unfold dir_text in *. rewrite <- !app_assoc in Hl. destruct (width_head d k Hd) as (c & l & E & H45 & H48).
  pose proof (ok_flags _ Hd) as Hz. pose proof (ok_head _ Hd) as Hh. unfold parse_directive, pad_of in *.
  assert (zlen (Z.add 48 <$> d_width d) = zlen (d_width d)) as Ew by (unfold zlen; by rewrite length_fmap).
  assert (forall q, cstr_at m q ((Z.add 48 <$> d_width d) ++ dir_tail d ++ k) -> m !! q = Some c) as Hq.
  { intros q Hq. rewrite E in Hq. by apply cstr_cons in Hq as (? & _). }
  rewrite !zlen_app, Ew. destruct (d_left d) eqn:El; [rewrite (Hz eq_refl) in *|destruct (d_zero d) eqn:Ez]; cbn [app] in *.
  - apply cstr_cons in Hl as (Hp & _ & Hl). rewrite Hp. bind. cbn [Z.eqb Pos.eqb]. rewrite (Hq _ Hl). bind. rewrite andb_false_r.
    pose proof (parse_width_ok d k m _ Hd Hl) as [Hw Hs]. unfold pad_of in Hw. rewrite El, (Hz eq_refl) in Hw.
    change (zlen [45]) with 1. change (zlen []) with 0. rewrite !Z.add_0_l, !Z.add_assoc. done.
  - apply cstr_cons in Hl as (Hp & _ & Hl). rewrite Hp. bind. cbn [Z.eqb Pos.eqb]. rewrite Hp. bind. cbn [Z.eqb Pos.eqb andb negb].
    pose proof (parse_width_ok d k m _ Hd Hl) as [Hw Hs]. unfold pad_of in Hw. rewrite El, Ez in Hw.
    change (zlen [48]) with 1. change (zlen []) with 0. rewrite !Z.add_0_l, !Z.add_assoc. done.
  - rewrite (Hq _ Hl). bind. rewrite (proj2 (Z.eqb_neq c 45)) by done. rewrite (Hq _ Hl). bind.
    rewrite (proj2 (Z.eqb_neq c 48)) by (apply H48, Hh; done). cbn [andb].
    pose proof (parse_width_ok d k m _ Hd Hl) as [Hw Hs]. unfold pad_of in Hw. rewrite El, Ez in Hw.
    change (zlen []) with 0. rewrite !Z.add_0_l, !Z.add_assoc. done.
Qed.

(** *** The loop *)

Lemma outside_app p l1 l2 : outside p (l1 ++ l2) -> outside (p + zlen l1) l2.
Proof.
  intros [ (_ & _ & Hl)%cstr_app Ho]. rewrite zlen_app in Ho. split; [done|]. pose proof (zlen_nonneg l1). lia.
Qed.

Lemma outside_head p l w : outside p l -> zlen w <= R -> blit m0 str w !! p = Some (default 0 (head l)).
Proof.
  intros Hp Hw. apply outside_at with (w := w) in Hp; [|done].
  destruct l; [by apply cstr_nil in Hp|by apply cstr_cons in Hp as (? & _)].
Qed.

Lemma loop_full fuel p l ap w : outside p l -> zlen w = R -> (0 < fuel)%nat ->
  vsnprintf_loop fuel p (str + R) ap (st w) = Some (st w).
Proof.
  intros Hp Hw Hf. destruct fuel as [|f]; [lia|]. cbn [vsnprintf_loop]. change (st w).1 with (blit m0 str w).
  rewrite (outside_head _ _ _ Hp) by lia. bind. rewrite below, (proj2 (Z.ltb_ge _ _)) by lia. by rewrite orb_true_r.
Qed.

Lemma vsnprintf_loop_ok items args fuel p w t :
  Forall item_ok items -> Forall arg_ok args -> outside p (format_text items) -> zlen w <= R ->
  (length (format_text items) < fuel)%nat -> render (R - zlen w) items args = Some t ->
  vsnprintf_loop fuel p (str + R) (slot <$> args) (st w) = Some (st (cut w t)).
Proof using HR Hbuf Hm0.
  revert args fuel p w t. induction items as [|i items IH]; intros args fuel p w t Hi Ha Hp Hw Hf Ht.
  { destruct fuel as [|f]; [cbn in Hf; lia|]. cbn [vsnprintf_loop]. change (st w).1 with (blit m0 str w).
    rewrite (outside_head _ _ _ Hp Hw). injection Ht as <-. by rewrite cut_nil. }
  destruct (Z.eq_dec (zlen w) R) as [E|E]; [rewrite cut_full by lia; apply (loop_full _ _ _ _ _ Hp E); lia|].
  apply Forall_cons in Hi as [Hi His]. destruct fuel as [|f]; [lia|]. cbn [vsnprintf_loop]. change (st w).1 with (blit m0 str w).
  rewrite (outside_head _ _ _ Hp Hw). bind. rewrite below, (proj2 (Z.ltb_lt _ _)) by lia. destruct i as [c|d]; cbn [render] in Ht.
  - destruct Hi as [Hc H37]. apply bind_Some in Ht as (t' & Ht & [= <-]). cbn [format_text flat_map item_text app from_option id head length] in *.
    rewrite (proj2 (Z.eqb_neq c 0)), (proj2 (Z.eqb_neq c 37)) by lia. cbn [orb negb]. rewrite put_st by lia. bind.
    unfold u8. rewrite wrap_small by (unfold fits; lia). rewrite cut_cons by lia. apply outside_cons in Hp as [_ Hp].
    assert (zlen (w ++ [c]) = zlen w + 1) as Ez by (rewrite zlen_app; done).
    apply IH; [done|done|done|lia|unfold format_text; lia|]. rewrite Ez.
    by replace (R - (zlen w + 1)) with (R - zlen w - 1) by lia.
  - apply bind_Some in Ht as ( [t1 args'] & Hd & Ht). apply bind_Some in Ht as (t2 & Ht & [= <-]).
    cbn [format_text flat_map item_text app] in *. cbn [from_option id head Z.eqb Pos.eqb orb negb].
    pose proof (outside_cons _ _ _ Hp) as [_ Hp1].
    destruct (parse_directive_ok d (flat_map item_text items) _ _ Hi (outside_at _ _ _ Hp1 Hw)) as [-> Hs]. bind. rewrite Hs. bind.
    destruct (convert_ok_libc d args t1 args' w Hi Ha ltac:(lia) Hd) as [-> Ha']. bind.
    apply outside_app in Hp1. replace (p + 1 + zlen (dir_text d) - 1 + 1) with (p + 1 + zlen (dir_text d)) by lia.
    rewrite <- cut_app by lia. cbn [length] in Hf. rewrite length_app in Hf. pose proof (zlen_cut w t1 Hw) as Ez.
    destruct (Z.le_gt_cases R (zlen w + zlen t1)) as [Hfull|Hfull].
    + rewrite (cut_full (cut w t1)) by lia. apply (loop_full _ _ _ _ _ Hp1); lia.
    + apply IH; [done|done|done|lia|unfold format_text; lia|]. rewrite Ez. replace (R - Z.min R _) with (R - zlen w - zlen t1) by lia. done.
Qed.
End Buffer.

(** ** The printf family *)

Lemma vsnprintf_text m str size fmt items args t :
  bytemem_ok m -> 0 < size <= 2 ^ 31 -> 0 <= str -> str + size <= 2 ^ 64 -> mapped m str size ->
  Forall item_ok items -> outside m str (size - 1) fmt (format_text items) ->
  Forall (arg_ok m str (size - 1)) args -> render (size - 1) items args = Some t ->
  vsnprintf m str size fmt (slot <$> args)
    = Some (Z.min (zlen t) (size - 1), blit m str (take (Z.to_nat (size - 1)) t ++ [0])).
Proof.
  intros Hm Hs H0 He Hb Hi Hf Ha Ht. unfold vsnprintf. rewrite (proj2 (Z.eqb_neq size 0)) by lia. rewrite u64_small by lia.
  replace (str + size - 1) with (str + (size - 1)) by lia.
  pose proof (vsnprintf_loop_ok m str (size - 1) Hm ltac:(lia) ltac:(by replace (size - 1 + 1) with size by lia)
    items args (walk_fuel m) fmt [] t Hi Ha Hf ltac:(change (zlen (@nil Z)) with 0; lia)) as E.
  change (zlen []) with 0 in E. rewrite Z.sub_0_r in E. unfold st at 1 in E. cbn [blit] in E. change (zlen []) with 0 in E. rewrite Z.add_0_r in E.
  rewrite E; [|destruct Hf as [Hf _]; apply cstr_size in Hf; unfold walk_fuel; lia|done]. bind. unfold st, cut. cbn [app].
  change (zlen []) with 0. rewrite Z.sub_0_r. set (w := take _ t).
  assert (zlen w = Z.min (zlen t) (size - 1)) as Hw by (unfold w, zlen; rewrite length_take; lia). pose proof (zlen_nonneg t).
  rewrite store_mapped; [|apply (mapped_blit m str size str w Hb); lia|by unfold is_byte]. bind. rewrite blit_snoc. do 2 f_equal.
  rewrite <- Hw. replace (str + zlen w - str) with (zlen w) by lia. unfold int32, u32. rewrite wrap_small by (unfold fits; lia).
  by rewrite (proj2 (Z.ltb_lt _ _)) by lia.
Qed.

(** C36.  vsnprintf (and snprintf, which is the same function) prints the text that C gives the format:
    literal characters, and every directive with its flags, width, length modifier and argument, into
    a buffer of 1 to [2^31] bytes that holds neither the format nor a string argument, for the
    directives that this library supports.  These are: [%d] and [%i] with '-' or a width of at
    most 23, zero-padded only for numbers that are not negative, and not for the least 64-bit number;
    [%u] and [%x] without '-' and with a width of at most 23; [%s] with any width and '-'; [%c], [%p]
    and [%%] without flags and width, [%p] only where the whole text fits.  [%X] is not among them,
    nor is a format that ends in a percent sign.  Then the loop ends, what does not fit is cut, a NUL
    follows, nothing outside the buffer changes, and the result is the number of characters written
    (for a text that is cut, C asks for the length of the whole text).  What the code does for other
    directives: [unsupported_directives], [wide_number_lost], [trailing_percent_reads_on]. *)
Theorem vsnprintf_spec m str size fmt items args t :
  bytemem_ok m -> 0 < size <= 2 ^ 31 -> 0 <= str -> str + size <= 2 ^ 64 -> mapped m str size ->
  Forall item_ok items -> outside m str (size - 1) fmt (format_text items) ->
  Forall (arg_ok m str (size - 1)) args -> supported items args -> std_render items args = Some t -> Forall no_pointer items \/ zlen t < size ->
  vsnprintf m str size fmt (slot <$> args)
    = Some (Z.min (zlen t) (size - 1), blit m str (take (Z.to_nat (size - 1)) t ++ [0])) /\
  snprintf m str size fmt (slot <$> args) = vsnprintf m str size fmt (slot <$> args).
Proof.
  intros ? ? ? ? ? ? ? ? Hs Ht Hp. split; [|done]. apply (vsnprintf_text m str size fmt items args t); try done.
  apply std_render_ok; [done|done|]. destruct Hp; [by left|right; lia].
Qed.

(** printf hands the text that C gives a format of supported directives to one write, cut to 1023 characters, and writes nothing for an
    empty text; the result is the number of characters, whatever the write returned. *)
Theorem printf_spec write m buf fmt items args t out :
  bytemem_ok m -> 0 <= buf -> buf + 1024 <= 2 ^ 64 -> mapped m buf 1024 ->
  Forall item_ok items -> outside m buf 1023 fmt (format_text items) ->
  Forall (arg_ok m buf 1023) args -> supported items args -> std_render items args = Some t -> Forall no_pointer items \/ zlen t < 1024 ->
  exists m', printf write m buf fmt (slot <$> args) out
    = Some (Z.min (zlen t) 1023, m', if decide (t = []) then out else (write (take 1023 t) out).2).
Proof.
  intros Hm H0 He Hb Hi Hf Ha Hs Hst Hp. assert (render 1023 items args = Some t) as Ht by (apply std_render_ok; [done|done|destruct Hp; [by left|right; lia] ]).
  unfold printf, vprintf.
  rewrite (vsnprintf_text m buf 1024 fmt items args t Hm ltac:(lia) H0 He Hb Hi Hf Ha Ht). bind. change (Z.to_nat (1024 - 1)) with 1023%nat.
  exists (blit m buf (take 1023 t ++ [0])). pose proof (zlen_nonneg t). destruct t as [|c t].
  - change (Z.min (zlen (@nil Z)) (1024 - 1)) with 0. cbn [Z.ltb Z.compare]. by rewrite decide_True.
  - rewrite zlen_cons in *. pose proof (zlen_nonneg t). rewrite (proj2 (Z.ltb_lt _ _)) by lia. rewrite decide_False by done.
    set (l := take 1023 (c :: t)).
    assert (zlen l = Z.min (zlen t + 1) (1024 - 1)) as El by (unfold l, zlen; rewrite length_take; cbn [length]; lia).
    rewrite <- El, zlen_to_nat. rewrite load_bytes_at; [bind; by rewrite El|].
    pose proof (bytes_at_blit m buf (l ++ [0])) as Hl. by apply bytes_at_app in Hl as [Hl _].
Qed.

(** sprintf and vsprintf never print anything: the end of the buffer, str + SIZE_MAX - 1,
    wraps around to two bytes before it, so the loop is not entered for any format, and the
    result is the empty string. *)
Theorem sprintf_prints_nothing m str fmt c args :
  2 <= str < 2 ^ 64 -> is_Some (m !! str) -> m !! fmt = Some c ->
  sprintf m str fmt args = Some (0, <[str := 0]> m).
Proof.
  intros Hs Hm Hf. unfold sprintf, vsprintf, vsnprintf. change (SIZE_MAX =? 0) with false. cbv iota.
  assert (u64 (str + SIZE_MAX - 1) = str - 2) as ->.
  { unfold SIZE_MAX, u64, wrap. replace (str + (2 ^ 64 - 1) - 1) with (str - 2 + 1 * 2 ^ 64) by lia.
    rewrite Z.mod_add by lia. apply Z.mod_small. lia. }
  unfold walk_fuel. cbn [vsnprintf_loop fst snd]. rewrite Hf. bind. rewrite (proj2 (Z.ltb_ge _ _)) by lia. rewrite orb_true_r.
  bind. rewrite store_mapped by (done || by unfold is_byte). bind. by rewrite Z.sub_diag.
Qed.

(** A number is never wider than 23 characters, since it is laid out in an array of 24: a
    width of 46 or more leaves 23 padding characters and no digit at all. *)
Theorem wide_number_lost v base width pad : 10 <= base <= 16 -> 0 <= v < 2 ^ 64 -> 46 <= width ->
  exists r, format_number 24 v base false width pad = Some (replicate 23 pad ++ [0], r).
Proof.
  intros Hb Hv Hw. destruct (number_text_ok v base false Hb ltac:(lia) ltac:(lia) ltac:(done) width pad) as (r & E & _).
  rewrite u64_small in E by done. exists r. rewrite E. do 2 f_equal. unfold padded.
  assert (zlen (num_text 0 base v) <= 22) as Hl.
  { unfold num_text. rewrite (proj2 (Z.ltb_ge v 0)) by lia. cbn [app]. unfold zlen. rewrite length_fmap.
    pose proof (num_digits_length base (Z.abs v) ltac:(lia) ltac:(lia)). lia. }
  rewrite take_app_le by (rewrite length_replicate; lia). rewrite take_replicate.
  by replace (23 `min` Z.to_nat (width - zlen (num_text 0 base v)))%nat with 23%nat by lia.
Qed.

(** ** Examples *)

(** Format ["%05d|%-3s|%p"] at 4096, the string ["hi"] at 5000 and a buffer of 100 bytes at 8192. *)
Definition ex_dir (l z : bool) (ds : list Z) (c : Z) : item := Dir (mk_dir l z ds 0 c).
Definition ex_items : list item := [ex_dir false true [5] 100; Lit 124; ex_dir true false [3] 115; Lit 124; ex_dir false false [] 112].
Definition ex_libc_mem : bytemem := blit (blit (blit ∅ 4096 (format_text ex_items ++ [0])) 5000 [104; 105; 0]) 8192 (replicate 1024 7).
Definition ex_args : list arg := [Word 42; Str 5000 [104; 105]; Word 255].

Lemma ex_libc_mem_ok : bytemem_ok ex_libc_mem.
Proof. unfold bytemem_ok. apply (bool_decide_unpack _). by vm_compute. Qed.

Lemma ex_mapped : mapped ex_libc_mem 8192 1024.
Proof.
  intros x Hx. unfold ex_libc_mem. rewrite blit_lookup, decide_True by (change (zlen (replicate 1024 7)) with 1024; lia).
  apply lookup_lt_is_Some. rewrite length_replicate. lia.
Qed.

Lemma ex_items_ok : Forall item_ok ex_items.
Proof.
  repeat (apply Forall_cons; split); [| | | | |apply Forall_nil_2]; cbn; try (split; lia).
  all: split; cbn; unfold spec_ok; try done; try lia; try (repeat constructor; lia); by vm_compute.
Qed.

Lemma cstr_by_load m a l : load_bytes m a (S (length l)) = Some (l ++ [0]) -> 0 ∉ l -> cstr_at m a l.
Proof. intros H H0. by apply load_bytes_inv in H as [_ H]. Qed.

Lemma ex_outside n : n = 99 \/ n = 1023 -> outside ex_libc_mem 8192 n 4096 (format_text ex_items) /\ Forall (arg_ok ex_libc_mem 8192 n) ex_args.
Proof.
  intros Hn. split.
  - split; [|change (zlen (format_text ex_items)) with 12; lia]. apply cstr_by_load; [by vm_compute|by apply (bool_decide_unpack _)].
  - repeat (apply Forall_cons; split); [done| |done|done]. right. split; [lia|]. split; [|done].
    split; [|change (zlen [104; 105]) with 2; lia]. apply cstr_by_load; [by vm_compute|by apply (bool_decide_unpack _)].
Qed.

(** ["00042|hi |0x00000000000000ff"] *)
Definition ex_text : list Z := [48; 48; 48; 52; 50; 124; 104; 105; 32; 124; 48; 120] ++ replicate 14 48 ++ [102; 102].

Lemma ex_supported : supported ex_items ex_args.
Proof. cbn. unfold supported_arg, bare. cbn. split_and!; try done; try lia; try (by right; vm_compute); by vm_compute. Qed.

Lemma vsnprintf_spec_witness :
  vsnprintf ex_libc_mem 8192 100 4096 (slot <$> ex_args) = Some (Z.min (zlen ex_text) (100 - 1), blit ex_libc_mem 8192 (take (Z.to_nat (100 - 1)) ex_text ++ [0])) /\
  snprintf ex_libc_mem 8192 100 4096 (slot <$> ex_args) = vsnprintf ex_libc_mem 8192 100 4096 (slot <$> ex_args).
Proof.
  apply (vsnprintf_spec ex_libc_mem 8192 100 4096 ex_items ex_args ex_text); [exact ex_libc_mem_ok|lia|lia|lia| |exact ex_items_ok| | |exact ex_supported|by vm_compute|by right].
  - eapply mapped_sub; [exact ex_mapped|lia|lia].
  - apply ex_outside. lia.
  - apply ex_outside. lia.
Defined.

Lemma printf_spec_witness : exists m',
  printf (fun l out => (zlen l, out ++ l)) ex_libc_mem 8192 4096 (slot <$> ex_args) [7] = Some (Z.min (zlen ex_text) 1023, m', [7] ++ ex_text).
Proof.
  destruct (printf_spec (fun l out => (zlen l, out ++ l)) ex_libc_mem 8192 4096 ex_items ex_args ex_text [7]) as [m' E];
    [exact ex_libc_mem_ok|lia|lia|exact ex_mapped|exact ex_items_ok|apply ex_outside; lia|apply ex_outside; lia|exact ex_supported|by vm_compute|by right|].
  exists m'. exact E.
Defined.

Lemma sprintf_prints_nothing_witness : sprintf ex_libc_mem 8192 4096 [1; 2; 3] = Some (0, <[8192 := 0]> ex_libc_mem).
Proof. apply (sprintf_prints_nothing ex_libc_mem 8192 4096 37 [1; 2; 3]); [lia|by exists 7|by vm_compute]. Defined.

Lemma wide_number_lost_witness : exists r, format_number 24 5 10 false 46 32 = Some (replicate 23 32 ++ [0], r).
Proof. apply (wide_number_lost 5 10 46 32); lia. Defined.

(** A format that ends in a percent sign is read beyond its NUL. *)
Example trailing_percent_reads_on : snprintf (blit (blit ∅ 4096 [49; 37; 0]) 8192 (replicate 10 7)) 8192 10 4096 [] = None.
Proof. by vm_compute. Qed.

(** What the code prints for directives that it does not support, in a buffer at 8192. *)
Definition ex_print (fmt : list Z) (args : list Z) (size : Z) : option (list Z) :=
  '(n, m) ← snprintf (blit (blit ∅ 4096 (fmt ++ [0])) 8192 (replicate 64 7)) 8192 size 4096 args; load_bytes m 8192 (Z.to_nat n).

(** ["%05d"] of -42 is ["00-42"], ["%-3u|"] of 7 is ["  7|"], ["%X"] of 255 is ["ff"], ["%3c"] of 'a' is ["a"],
    ["%p"] of 255 in a buffer of three bytes starts with ["00"] and not with ["0x"]. *)
Example unsupported_directives :
  ex_print [37; 48; 53; 100] [u64 (-42)] 64 = Some [48; 48; 45; 52; 50] /\
  ex_print [37; 45; 51; 117; 124] [7] 64 = Some [32; 32; 55; 124] /\
  ex_print [37; 88] [255] 64 = Some [102; 102] /\
  ex_print [37; 51; 99] [97] 64 = Some [97] /\
  ex_print [37; 112] [255] 3 = Some [48; 48].
Proof. by vm_compute. Qed.
