(* ===== verification/Slab.v ===== *)
(** * Slab allocator and kernel heap (kernel/mm/slab.c)

    Slab caches over the page allocator, and kmalloc over the caches and the page allocator.
    The heap consists of the slabs (by the address of their page, where the header lies), the
    words that link free objects, and the caches (by the address of their page); the lists of
    slabs of a cache are the sequences of their entries.  Page metadata and page allocation come
    from an interface that the model of pmm.c implements.  Allocated objects' contents are not
    kept; memset of an object is logged. *)
From S2P Require Import Prelude Defs Buddy Paging.

(** ** The page allocator and the page array *)

Class KernelPages (S : Type) := {
  kp_alloc :: PageAllocator S;
  simple_get_free_pages : S -> Z -> option (Z * S);
  simple_free_pages : S -> Z -> Z -> option S;
  page_at : S -> Z -> option (Z * Z);            (* flags and order of a page frame *)
  page_flag_set : S -> Z -> Z -> option S;       (* page_set_flag on a page frame *)
  page_flag_clear : S -> Z -> Z -> option S
}.

(** Page frame [f] is marked as a slab. *)
Definition slab_bit {S} `{KernelPages S} (s : S) (f : Z) : bool :=
  match page_at s f with Some (fl, _) => ztrue (Z.land fl PG_SLAB) | None => false end.

Class KernelPagesLaws (S : Type) `{KernelPages S} := {
  kp_pages_laws :: PageAllocatorLaws S;
  kp_at_ok : forall s f, pa_ok s -> pa_managed s f -> is_Some (page_at s f);
  kp_get_slab : forall s a s', pa_ok s -> simple_get_free_page s = Some (a, s') ->
    forall f, slab_bit s' f = slab_bit s f;
  kp_put_slab : forall s a s', pa_ok s -> simple_free_page s a = Some s' ->
    forall f, slab_bit s' f = slab_bit s f;
  kp_set_ok : forall s f, pa_ok s -> pa_managed s f -> ~ pa_free s f ->
    exists s', page_flag_set s f PG_SLAB = Some s' /\ pa_ok s' /\ same_memory s s' /\
      (forall q, pa_free s' q <-> pa_free s q) /\
      (forall q, slab_bit s' q = if decide (q = f) then true else slab_bit s q);
  kp_clear_ok : forall s f, pa_ok s -> pa_managed s f -> ~ pa_free s f ->
    exists s', page_flag_clear s f PG_SLAB = Some s' /\ pa_ok s' /\ same_memory s s' /\
      (forall q, pa_free s' q <-> pa_free s q) /\
      (forall q, slab_bit s' q = if decide (q = f) then false else slab_bit s q)
}.

(** ** The code *)

Record slab := mk_slab {
  sl_cache : Z;
  sl_freelist : Z;
  sl_inuse : Z;
  sl_free : Z;
  sl_start : Z
}.

(** [sizeof(struct slab)] *)
Definition SLAB_SIZE : Z := 48.

Record slab_cache := mk_cache {
  c_name : Z;
  c_obj_size : Z;
  c_align : Z;
  c_obj_per_slab : Z;
  slabs_full : list Z;
  slabs_partial : list Z;
  slabs_free : list Z;
  total_allocs : Z;
  total_frees : Z;
  active_objs : Z;
  total_slabs : Z
}.

Record kheap (S : Type) := mk_kheap {
  kh_pages : S;
  kh_slabs : gmap Z slab;
  kh_words : gmap Z Z;
  kh_caches : gmap Z slab_cache;
  cache_list : list Z;
  kmalloc_caches : list Z;
  kh_zeroed : list (Z * Z)
}.
Arguments mk_kheap {S} _ _ _ _ _ _ _.
Arguments kh_pages {S} _.
Arguments kh_slabs {S} _.
Arguments kh_words {S} _.
Arguments kh_caches {S} _.
Arguments cache_list {S} _.
Arguments kmalloc_caches {S} _.
Arguments kh_zeroed {S} _.

Definition KMALLOC_MIN_SIZE : Z := 8.
Definition KMALLOC_MAX_SIZE : Z := 2048.
Definition KMALLOC_NUM_CACHES : Z := 9.

Definition obj_to_slab (obj : Z) : Z := Z.land obj (lnotw 64 (PAGE_SIZE - 1)).

Definition get_aligned_size (obj_size align : Z) : Z :=
  let aligned_size := Z.land (u64 (obj_size + align - 1)) (lnotw 64 (align - 1)) in
  if aligned_size <? 8 then 8 else aligned_size.

Definition calc_obj_per_slab (obj_size align : Z) : Z :=
  u32 ((PAGE_SIZE - SLAB_SIZE) / get_aligned_size obj_size align).

(** Writing [*freelist]: the field of the header, or the first word of an object. *)
Definition put_link (tgt : option Z) (v : Z) (fl : Z * gmap Z Z) : Z * gmap Z Z :=
  match tgt with None => (v, fl.2) | Some a => (fl.1, <[a := v]> fl.2) end.

Fixpoint build_freelist (n : nat) (tgt : option Z) (obj aligned_size : Z) (fl : Z * gmap Z Z)
  : Z * gmap Z Z :=
  match n with
  | O => put_link tgt 0 fl
  | S n' => build_freelist n' (Some obj) (obj + aligned_size) aligned_size (put_link tgt obj fl)
  end.

(** [list_del(&slab->list)]: the slab leaves whichever list of its cache it is on. *)
Definition unlist (s : Z) (c : slab_cache) : slab_cache :=
  mk_cache (c_name c) (c_obj_size c) (c_align c) (c_obj_per_slab c)
    (filter (fun x => x ≠ s) (slabs_full c)) (filter (fun x => x ≠ s) (slabs_partial c))
    (filter (fun x => x ≠ s) (slabs_free c))
    (total_allocs c) (total_frees c) (active_objs c) (total_slabs c).

Inductive which := Full | Partial | Free.
(** [list_add(&slab->list, &cache->...)] *)
Definition list_slab (w : which) (s : Z) (c : slab_cache) : slab_cache :=
  mk_cache (c_name c) (c_obj_size c) (c_align c) (c_obj_per_slab c)
    (match w with Full => s :: slabs_full c | _ => slabs_full c end)
    (match w with Partial => s :: slabs_partial c | _ => slabs_partial c end)
    (match w with Free => s :: slabs_free c | _ => slabs_free c end)
    (total_allocs c) (total_frees c) (active_objs c) (total_slabs c).

Definition count_slabs (d : Z) (c : slab_cache) : slab_cache :=
  mk_cache (c_name c) (c_obj_size c) (c_align c) (c_obj_per_slab c)
    (slabs_full c) (slabs_partial c) (slabs_free c)
    (total_allocs c) (total_frees c) (active_objs c) (u64 (total_slabs c + d)).

Definition note_alloc (c : slab_cache) : slab_cache :=
  mk_cache (c_name c) (c_obj_size c) (c_align c) (c_obj_per_slab c)
    (slabs_full c) (slabs_partial c) (slabs_free c)
    (u64 (total_allocs c + 1)) (total_frees c) (u64 (active_objs c + 1)) (total_slabs c).

Definition note_free (c : slab_cache) : slab_cache :=
  mk_cache (c_name c) (c_obj_size c) (c_align c) (c_obj_per_slab c)
    (slabs_full c) (slabs_partial c) (slabs_free c)
    (total_allocs c) (u64 (total_frees c + 1)) (u64 (active_objs c - 1)) (total_slabs c).

Section code.
Context {S : Type} `{KP : KernelPages S}.
Implicit Types h : kheap S.

Definition with_pages_of h (s : S) : kheap S :=
  mk_kheap s (kh_slabs h) (kh_words h) (kh_caches h) (cache_list h) (kmalloc_caches h) (kh_zeroed h).
Definition with_slabs h (m : gmap Z slab) : kheap S :=
  mk_kheap (kh_pages h) m (kh_words h) (kh_caches h) (cache_list h) (kmalloc_caches h) (kh_zeroed h).
Definition with_words h (m : gmap Z Z) : kheap S :=
  mk_kheap (kh_pages h) (kh_slabs h) m (kh_caches h) (cache_list h) (kmalloc_caches h) (kh_zeroed h).
Definition with_caches h (m : gmap Z slab_cache) : kheap S :=
  mk_kheap (kh_pages h) (kh_slabs h) (kh_words h) m (cache_list h) (kmalloc_caches h) (kh_zeroed h).
Definition with_cache_list h (l : list Z) : kheap S :=
  mk_kheap (kh_pages h) (kh_slabs h) (kh_words h) (kh_caches h) l (kmalloc_caches h) (kh_zeroed h).
Definition with_kmalloc h (l : list Z) : kheap S :=
  mk_kheap (kh_pages h) (kh_slabs h) (kh_words h) (kh_caches h) (cache_list h) l (kh_zeroed h).
Definition log_memset h (a n : Z) : kheap S :=
  mk_kheap (kh_pages h) (kh_slabs h) (kh_words h) (kh_caches h) (cache_list h) (kmalloc_caches h)
    ((a, n) :: kh_zeroed h).

(** [&pmm.page_array[PHYS_TO_PFN(virt_to_phys(addr))]] as the page frame number, None for NULL. *)
Definition virt_to_page_meta h (addr : Z) : option Z :=
  if addr =? 0 then None else Some (PHYS_TO_PFN (u64 (addr - boot_hhdm (kh_pages h)))).

Definition upd_cache (cache : Z) (f : slab_cache -> slab_cache) h : option (kheap S) :=
  c ← kh_caches h !! cache; Some (with_caches h (<[cache := f c]> (kh_caches h))).

(** The new slab's address, 0 for NULL. *)
Definition slab_alloc_new h (cache : Z) : option (Z * kheap S) :=
  '(page, s) ← simple_get_free_page (kh_pages h);
  let h := with_pages_of h s in
  if page =? 0 then Some (0, h)
  else
    c ← kh_caches h !! cache;
    let start := page + SLAB_SIZE in
    let aligned_size := get_aligned_size (c_obj_size c) (c_align c) in
    let '(freelist, words) :=
      build_freelist (Z.to_nat (c_obj_per_slab c)) None start aligned_size (0, kh_words h) in
    let h := with_words (with_slabs h (<[page := mk_slab cache freelist 0 (u32 (c_obj_per_slab c)) start]>
                                         (kh_slabs h))) words in
    h ← match virt_to_page_meta h page with
        | Some meta => s ← page_flag_set (kh_pages h) meta PG_SLAB; Some (with_pages_of h s)
        | None => Some h
        end;
    h ← upd_cache cache (count_slabs 1) h;
    Some (page, h).

(** The header is gone with its page. *)
Definition slab_free_slab h (slab : Z) : option (kheap S) :=
  sl ← kh_slabs h !! slab;
  h ← match virt_to_page_meta h slab with
      | Some meta => s ← page_flag_clear (kh_pages h) meta PG_SLAB; Some (with_pages_of h s)
      | None => Some h
      end;
  h ← upd_cache (sl_cache sl) (count_slabs (-1)) h;
  s ← simple_free_page (kh_pages h) slab;
  Some (with_slabs (with_pages_of h s) (delete slab (kh_slabs h))).

Definition slab_cache_create h (name size align : Z) : option (Z * kheap S) :=
  '(page, s) ← simple_get_free_page (kh_pages h);
  let h := with_pages_of h s in
  if page =? 0 then Some (0, h)
  else
    let align := if align =? 0 then 8 else align in
    let cache := mk_cache name size align (calc_obj_per_slab size align) [] [] [] 0 0 0 0 in
    Some (page, with_cache_list (with_caches h (<[page := cache]> (kh_caches h))) (page :: cache_list h)).

(** [list_for_each_entry_safe(...) { list_del(&slab->list); slab_free_slab(slab); }] *)
Fixpoint free_slabs (l : list Z) (cache : Z) h : option (kheap S) :=
  match l with
  | [] => Some h
  | s :: l' => h ← upd_cache cache (unlist s) h; h ← slab_free_slab h s; free_slabs l' cache h
  end.

Definition slab_cache_destroy h (cache : Z) : option (kheap S) :=
  if cache =? 0 then Some h
  else
    c ← kh_caches h !! cache;
    let h := with_cache_list h (filter (fun x => x ≠ cache) (cache_list h)) in
    h ← free_slabs (slabs_full c) cache h;
    h ← free_slabs (slabs_partial c) cache h;
    h ← free_slabs (slabs_free c) cache h;
    s ← simple_free_page (kh_pages h) cache;
    Some (with_caches (with_pages_of h s) (delete cache (kh_caches h))).

(** The slab to allocate from, on the partial list; 0 when there is no memory. *)
Definition pick_slab h (cache : Z) : option (Z * kheap S) :=
  c ← kh_caches h !! cache;
  match slabs_partial c with
  | s :: _ => Some (s, h)
  | [] =>
      match slabs_free c with
      | s :: _ => h ← upd_cache cache (fun c => list_slab Partial s (unlist s c)) h; Some (s, h)
      | [] =>
          '(s, h) ← slab_alloc_new h cache;
          if s =? 0 then Some (0, h)
          else h ← upd_cache cache (list_slab Partial s) h; Some (s, h)
      end
  end.

Definition slab_alloc h (cache : Z) : option (Z * kheap S) :=
  '(s, h) ← pick_slab h cache;
  if s =? 0 then Some (0, h)
  else
    sl ← kh_slabs h !! s;
    let obj := sl_freelist sl in
    next ← kh_words h !! obj;
    let sl := mk_slab (sl_cache sl) next (u32 (sl_inuse sl + 1)) (u32 (sl_free sl - 1)) (sl_start sl) in
    let h := with_slabs h (<[s := sl]> (kh_slabs h)) in
    h ← upd_cache cache (fun c =>
          note_alloc (if sl_free sl =? 0 then list_slab Full s (unlist s c) else c)) h;
    Some (obj, h).

Definition slab_free h (cache obj : Z) : option (kheap S) :=
  if obj =? 0 then Some h
  else
    let s := obj_to_slab obj in
    sl ← kh_slabs h !! s;
    if negb (sl_cache sl =? cache) then Some h
    else
      let h := with_words h (<[obj := sl_freelist sl]> (kh_words h)) in
      let sl := mk_slab (sl_cache sl) obj (u32 (sl_inuse sl - 1)) (u32 (sl_free sl + 1)) (sl_start sl) in
      let h := with_slabs h (<[s := sl]> (kh_slabs h)) in
      upd_cache cache (fun c =>
        note_free (if sl_inuse sl =? 0 then list_slab Free s (unlist s c)
                    else if sl_free sl =? 1 then list_slab Partial s (unlist s c) else c)) h.

Definition slab_cache_shrink h (cache : Z) : option (kheap S) :=
  c ← kh_caches h !! cache; free_slabs (slabs_free c) cache h.

(** [for (int i = 0; i < KMALLOC_NUM_CACHES; i++)] with its name and size. *)
Fixpoint create_caches (n : nat) (i size : Z) h : option (kheap S) :=
  match n with
  | O => Some h
  | Datatypes.S n' =>
      '(c, h) ← slab_cache_create h i size size;
      l ← zset (kmalloc_caches h) i c;
      create_caches n' (i + 1) (u64 (size * 2)) (with_kmalloc h l)
  end.

Definition kmalloc_init h : option (kheap S) :=
  create_caches (Z.to_nat KMALLOC_NUM_CACHES) 0 KMALLOC_MIN_SIZE h.

Definition kheap_init h : option (kheap S) := kmalloc_init h.

Definition kmalloc_cache_for_size h (size : Z) : option Z :=
  if size <=? 8 then zget (kmalloc_caches h) 0
  else if size <=? 16 then zget (kmalloc_caches h) 1
  else if size <=? 32 then zget (kmalloc_caches h) 2
  else if size <=? 64 then zget (kmalloc_caches h) 3
  else if size <=? 128 then zget (kmalloc_caches h) 4
  else if size <=? 256 then zget (kmalloc_caches h) 5
  else if size <=? 512 then zget (kmalloc_caches h) 6
  else if size <=? 1024 then zget (kmalloc_caches h) 7
  else if size <=? 2048 then zget (kmalloc_caches h) 8
  else Some 0.

(** [while ((1U << order) < pages) order++;]: a shift by 32 or more is undefined. *)
Fixpoint order_loop (n : nat) (order pages : Z) : option Z :=
  match n with
  | O => None
  | Datatypes.S n' => if Z.shiftl 1 order <? pages then order_loop n' (order + 1) pages else Some order
  end.

Definition kmalloc h (size : Z) : option (Z * kheap S) :=
  if size =? 0 then Some (0, h)
  else if KMALLOC_MAX_SIZE <? size then
    let pages := u64 (size + PAGE_SIZE - 1) / PAGE_SIZE in
    order ← order_loop 32 0 pages;
    '(a, s) ← simple_get_free_pages (kh_pages h) order;
    Some (a, with_pages_of h s)
  else
    cache ← kmalloc_cache_for_size h size;
    if cache =? 0 then Some (0, h) else slab_alloc h cache.

Definition kzalloc h (size : Z) : option (Z * kheap S) :=
  '(ptr, h) ← kmalloc h size;
  Some (ptr, if ptr =? 0 then h else log_memset h ptr size).

Definition kfree h (ptr : Z) : option (kheap S) :=
  match virt_to_page_meta h ptr with
  | None => Some h
  | Some meta =>
      '(flags, order) ← page_at (kh_pages h) meta;
      if ztrue (Z.land flags PG_SLAB) then
        sl ← kh_slabs h !! obj_to_slab ptr;
        if sl_cache sl =? 0 then Some h else slab_free h (sl_cache sl) ptr
      else if negb (Z.land ptr (PAGE_SIZE - 1) =? 0) then Some h
      else if ztrue (Z.land flags PG_HEAD) && ztrue (Z.land flags PG_COMPOUND) then
        s ← simple_free_pages (kh_pages h) ptr order; Some (with_pages_of h s)
      else s ← simple_free_page (kh_pages h) ptr; Some (with_pages_of h s)
  end.

Definition kmalloc_aligned h (size align : Z) : option (Z * kheap S) :=
  kmalloc h (if 8 <? align then Z.land (u64 (size + align - 1)) (lnotw 64 (align - 1)) else size).

Definition ksize h (ptr : Z) : option Z :=
  match virt_to_page_meta h ptr with
  | None => Some 0
  | Some meta =>
      '(flags, order) ← page_at (kh_pages h) meta;
      if ztrue (Z.land flags PG_SLAB) then
        sl ← kh_slabs h !! obj_to_slab ptr; c ← kh_caches h !! sl_cache sl; Some (c_obj_size c)
      else if ztrue (Z.land flags PG_HEAD) && ztrue (Z.land flags PG_COMPOUND) then
        Some (u64 (Z.shiftl 1 order * PAGE_SIZE))
      else Some PAGE_SIZE
  end.
End code.
