(* ===== verification/SlabInv.v ===== *)
(** * The slab allocator's invariant

    What slab.c keeps true of slabs, free lists and caches, for any page allocator with the laws
    of [KernelPagesLaws], and what each operation does to the set of objects handed out. *)
From S2P Require Import Prelude Defs Buddy Paging Slab.

(** ** Objects *)

Definition asz (c : slab_cache) : Z := get_aligned_size (c_obj_size c) (c_align c).

(** [o] is an object of the slab at [P] of a cache like [c]. *)
Definition is_obj (c : slab_cache) (P o : Z) : Prop :=
  exists i, 0 <= i < c_obj_per_slab c /\ o = P + SLAB_SIZE + i * asz c.

(** At least one object fits a slab, and all do. *)
Definition cache_ok (c : slab_cache) : Prop :=
  8 <= asz c /\ 0 <= c_obj_size c <= asz c /\ 1 <= c_obj_per_slab c /\
  SLAB_SIZE + c_obj_per_slab c * asz c <= 4096.

Definition page_addr (P : Z) : Prop := P mod 4096 = 0 /\ 0 < P < 2 ^ 64.

Lemma is_obj_range c P o : cache_ok c -> is_obj c P o -> P + SLAB_SIZE <= o /\ o + asz c <= P + 4096.
Proof. unfold cache_ok. intros (H1 & H2 & H3 & H4) (i & Hi & ->). unfold SLAB_SIZE in *. nia. Qed.

(** Two objects of a slab are the same or do not overlap. *)
Lemma is_obj_apart c P o1 o2 :
  cache_ok c -> is_obj c P o1 -> is_obj c P o2 -> o1 = o2 \/ o1 + asz c <= o2 \/ o2 + asz c <= o1.
Proof.
  unfold cache_ok. intros (H1 & H2 & H3 & H4) (i & Hi & ->) (j & Hj & ->).
  destruct (Z.lt_trichotomy i j) as [H|[->|H]]; [right; left; nia|by left|right; right; nia].
Qed.

Lemma obj_page P o : page_addr P -> P <= o < P + 4096 -> obj_to_slab o = P.
Proof.
  intros [Hm HP] Ho. unfold obj_to_slab. change (PAGE_SIZE - 1) with (2 ^ 12 - 1).
  rewrite land_lnotw_ones; [|lia|unfold fits; divlia]. change (2 ^ 12) with 4096. divlia.
Qed.

Lemma pages_apart P Q : page_addr P -> page_addr Q -> P = Q \/ P + 4096 <= Q \/ Q + 4096 <= P.
Proof. intros [HP _] [HQ _]. divlia. Qed.

(** ** Free lists *)

Fixpoint fl_rep (w : gmap Z Z) (p : Z) (l : list Z) : Prop :=
  match l with
  | [] => p = 0
  | o :: l' => p = o /\ o ≠ 0 /\ exists q, w !! o = Some q /\ fl_rep w q l'
  end.

Lemma fl_rep_insert w p l a v : a ∉ l -> fl_rep w p l -> fl_rep (<[a := v]> w) p l.
Proof.
  revert p. induction l as [|o l IH]; intros p Ha H; cbn [fl_rep] in *; [done|].
  apply not_elem_of_cons in Ha as [Hne Ha]. destruct H as (-> & Ho & q & Hq & H).
  split; [done|]. split; [done|]. exists q. split; [by rewrite lookup_insert_ne|]. by apply IH.
Qed.

(** The objects of a slab, in the order of their addresses. *)
Definition objs (n : nat) (obj size : Z) : list Z := (fun i => obj + i * size) <$> seqZ 0 (Z.of_nat n).

Lemma objs_cons n obj size : objs (S n) obj size = obj :: objs n (obj + size) size.
Proof.
  unfold objs. rewrite Nat2Z.inj_succ, seqZ_cons by lia. rewrite fmap_cons.
  f_equal; [lia|]. rewrite Z.pred_succ. change (Z.succ 0) with (1 + 0).
  rewrite <- fmap_add_seqZ, <- list_fmap_compose.
  apply list_fmap_ext. intros _ i _. unfold compose. lia.
Qed.

Lemma objs_elem n obj size o : o ∈ objs n obj size <-> exists i, 0 <= i < Z.of_nat n /\ o = obj + i * size.
Proof.
  unfold objs. rewrite list_elem_of_fmap. setoid_rewrite elem_of_seqZ. split; intros (i & H1 & H2); exists i.
  - split; [lia|done].
  - split; [done|lia].
Qed.

Lemma objs_nodup n obj size : 0 < size -> NoDup (objs n obj size).
Proof. intros Hs. unfold objs. apply NoDup_fmap_2; [|apply NoDup_seqZ]. intros i j E. nia. Qed.

Lemma objs_length n obj size : length (objs n obj size) = n.
Proof. unfold objs. rewrite length_fmap, length_seqZ. lia. Qed.

(** Writing the links from some target on leaves earlier words alone. *)
Lemma build_freelist_keep n tgt obj size fl a :
  0 < size -> (forall t, tgt = Some t -> t < obj) -> (forall t, tgt = Some t -> a ≠ t) ->
  ~ (exists i, 0 <= i < Z.of_nat n /\ a = obj + i * size) ->
  (build_freelist n tgt obj size fl).2 !! a = fl.2 !! a.
Proof.
  intros Hs. revert tgt obj fl. induction n as [|n IH]; intros tgt obj fl Hlt Hne Ha; cbn [build_freelist].
  - destruct tgt as [t|]; [|done]. cbn. rewrite lookup_insert_ne; [done|]. intros ->. by eapply Hne.
  - rewrite IH.
    + destruct tgt as [t|]; [|done]. cbn. rewrite lookup_insert_ne; [done|]. intros ->. by eapply Hne.
    + intros t [= <-]. lia.
    + intros t [= <-] ->. apply Ha. exists 0. lia.
    + intros (i & Hi & ->). apply Ha. exists (i + 1). lia.
Qed.

(** The free list of a new slab holds all its objects. *)
Lemma build_freelist_some n t obj size fl :
  0 < size -> 0 < t < obj ->
  let r := build_freelist n (Some t) obj size fl in
  r.1 = fl.1 /\ exists q, r.2 !! t = Some q /\ fl_rep r.2 q (objs n obj size).
Proof.
  intros Hs. revert t obj fl. induction n as [|n IH]; intros t obj fl Ht; cbn [build_freelist].
  - split; [done|]. exists 0. cbn. rewrite lookup_insert_eq. done.
  - destruct (IH obj (obj + size) (put_link (Some t) obj fl) ltac:(lia)) as (E & q & Hq & Hr).
    split; [done|]. exists obj. split.
    + rewrite build_freelist_keep; [cbn; apply lookup_insert_eq|lia|intros ? [= <-]; lia|intros ? [= <-]; lia|].
      intros (i & Hi & ->). nia.
    + rewrite objs_cons. cbn [fl_rep]. split; [done|]. split; [lia|]. by exists q.
Qed.

Lemma build_freelist_ok n obj size w :
  0 < size -> 0 < obj -> (0 < n)%nat ->
  let r := build_freelist n None obj size (0, w) in
  fl_rep r.2 r.1 (objs n obj size) /\
  (forall a, ~ (exists i, 0 <= i < Z.of_nat n /\ a = obj + i * size) -> r.2 !! a = w !! a).
Proof.
  intros Hs Ho Hn. split; [|intros a Ha; by rewrite build_freelist_keep].
  destruct n as [|n]; [lia|]. cbn [build_freelist].
  destruct (build_freelist_some n obj (obj + size) size (put_link None obj (0, w)) Hs ltac:(lia)) as (E & q & Hq & Hr).
  rewrite E, objs_cons. cbn [fl_rep put_link fst]. split; [done|]. split; [lia|]. by exists q.
Qed.

(** ** Lists of slabs *)

Definition all_slabs (c : slab_cache) : list Z := slabs_full c ++ slabs_partial c ++ slabs_free c.

Lemma unlist_all P c : all_slabs (unlist P c) = filter (fun x => x ≠ P) (all_slabs c).
Proof. unfold all_slabs, unlist. cbn. by rewrite !filter_app. Qed.

Lemma list_slab_all w P c : all_slabs (list_slab w P c) ≡ₚ P :: all_slabs c.
Proof. unfold all_slabs, list_slab. cbn. destruct w; cbn; by rewrite ?Permutation_middle. Qed.


(** Both caches lay out their slabs alike. *)
Definition same_shape (c c' : slab_cache) : Prop :=
  c_obj_size c' = c_obj_size c /\ c_align c' = c_align c /\ c_obj_per_slab c' = c_obj_per_slab c.

Lemma same_shape_obj c c' P o : same_shape c c' -> is_obj c' P o <-> is_obj c P o.
Proof. intros (E1 & E2 & E3). unfold is_obj, asz. by rewrite E1, E2, E3. Qed.

Lemma same_shape_ok c c' : same_shape c c' -> cache_ok c -> cache_ok c'.
Proof. intros (E1 & E2 & E3). unfold cache_ok, asz. by rewrite E1, E2, E3. Qed.

Lemma fl_rep_agree w w' p l : (forall o, o ∈ l -> w' !! o = w !! o) -> fl_rep w p l -> fl_rep w' p l.
Proof.
  revert p. induction l as [|o l IH]; intros p Ha H; cbn [fl_rep] in *; [done|].
  destruct H as (-> & Ho & q & Hq & H). split; [done|]. split; [done|]. exists q.
  split; [by rewrite Ha by set_solver|]. apply IH; [set_solver|done].
Qed.

(** ** The invariant *)

(** The header [sl] of the slab at [P] and its free list [l]. *)
Definition slab_good (w : gmap Z Z) (c : slab_cache) (P : Z) (sl : slab) (l : list Z) : Prop :=
  fl_rep w (sl_freelist sl) l /\ NoDup l /\ (forall o, o ∈ l -> is_obj c P o) /\
  sl_free sl = zlen l /\ sl_inuse sl = c_obj_per_slab c - zlen l.

(** Every slab of the cache at [C] is on one of its lists, on the one for its free objects. *)
Definition lists_ok (slabs : gmap Z slab) (C : Z) (c : slab_cache) : Prop :=
  NoDup (all_slabs c) /\
  (forall P, P ∈ all_slabs c <-> exists sl, slabs !! P = Some sl /\ sl_cache sl = C) /\
  (forall P sl, slabs !! P = Some sl ->
     (P ∈ slabs_full c -> sl_free sl = 0) /\ (P ∈ slabs_partial c -> 0 < sl_free sl) /\
     (P ∈ slabs_free c -> sl_free sl = c_obj_per_slab c)).

Section inv.
Context {S : Type} `{KP : KernelPages S} {KL : KernelPagesLaws S}.
Implicit Types (h : kheap S) (fr : gmap Z (list Z)).

Definition used_frame (s : S) (P f : Z) : Prop := P = hhdm_page s f /\ pa_managed s f /\ ~ pa_free s f.

(** [fr] gives the free list of every slab. *)
Record heap_inv h fr : Prop := {
  hi_ok : pa_ok (kh_pages h);
  hi_slab : forall P sl, kh_slabs h !! P = Some sl ->
    exists c l, kh_caches h !! sl_cache sl = Some c /\ fr !! P = Some l /\ slab_good (kh_words h) c P sl l;
  hi_spage : forall P sl, kh_slabs h !! P = Some sl ->
    exists f, used_frame (kh_pages h) P f /\ slab_bit (kh_pages h) f = true;
  hi_cpage : forall C c, kh_caches h !! C = Some c ->
    (exists f, used_frame (kh_pages h) C f) /\ kh_slabs h !! C = None /\ cache_ok c;
  hi_lists : forall C c, kh_caches h !! C = Some c -> lists_ok (kh_slabs h) C c
}.

(** Object [o] of the cache at [C] is handed out. *)
Definition in_use h fr (C o : Z) : Prop :=
  exists P sl c l, kh_slabs h !! P = Some sl /\ sl_cache sl = C /\ kh_caches h !! C = Some c /\
    fr !! P = Some l /\ is_obj c P o /\ o ∉ l.

Lemma used_frame_addr s P f : pa_ok s -> used_frame s P f -> page_addr P /\ P + 4096 <= 2 ^ 64.
Proof using KL.
  intros Hok (-> & Hm & _). destruct (pa_hhdm_ok s Hok) as (H1 & H2 & H3).
  destruct (pa_frame_ok s f Hok Hm) as [H4 H5]. unfold page_addr, hhdm_page in *. split; [split|]; divlia.
Qed.

(** Any byte of the page finds the frame. *)
Lemma used_frame_meta h P f o :
  pa_ok (kh_pages h) -> used_frame (kh_pages h) P f -> P <= o < P + 4096 -> virt_to_page_meta h o = Some f.
Proof using KL.
  intros Hok Hu Ho. destruct (used_frame_addr _ _ _ Hok Hu) as [[H1 H2] H3]. destruct Hu as (-> & Hm & _).
  destruct (pa_hhdm_ok _ Hok) as (H4 & H5 & H6). destruct (pa_frame_ok _ f Hok Hm) as [H7 _].
  unfold virt_to_page_meta. rewrite (proj2 (Z.eqb_neq _ _)) by lia. f_equal. unfold hhdm_page in *.
  rewrite u64_small by lia. rewrite PHYS_TO_PFN_div. divlia.
Qed.

Lemma slab_addr h fr P sl : heap_inv h fr -> kh_slabs h !! P = Some sl -> page_addr P.
Proof using KL.
  intros Hi H. destruct (hi_spage _ _ Hi _ _ H) as (f & Hu & _). by eapply used_frame_addr; [apply Hi|].
Qed.

Lemma slab_good_shape w c c' P sl l : same_shape c c' -> slab_good w c P sl l -> slab_good w c' P sl l.
Proof using.
  intros Hs (H1 & H2 & H3 & H4 & H5). split; [done|]. split; [done|]. split; [|split; [done|]].
  - intros o Ho. rewrite same_shape_obj by done. by apply H3.
  - destruct Hs as (_ & _ & ->). done.
Qed.

(** Changing one slab: its header, its words and its place on the lists. *)
Lemma heap_inv_change h fr P sl c sl' c' w' l' :
  heap_inv h fr -> kh_slabs h !! P = Some sl -> kh_caches h !! sl_cache sl = Some c ->
  sl_cache sl' = sl_cache sl -> slab_good w' c P sl' l' -> same_shape c c' ->
  (forall a, ~ is_obj c P a -> w' !! a = kh_words h !! a) ->
  all_slabs c' ≡ₚ all_slabs c ->
  (forall Q, Q ≠ P -> (Q ∈ slabs_full c' -> Q ∈ slabs_full c) /\
     (Q ∈ slabs_partial c' -> Q ∈ slabs_partial c) /\ (Q ∈ slabs_free c' -> Q ∈ slabs_free c)) ->
  (P ∈ slabs_full c' -> sl_free sl' = 0) /\ (P ∈ slabs_partial c' -> 0 < sl_free sl') /\
  (P ∈ slabs_free c' -> sl_free sl' = c_obj_per_slab c) ->
  heap_inv (with_caches (with_words (with_slabs h (<[P := sl']> (kh_slabs h))) w')
              (<[sl_cache sl := c']> (kh_caches h))) (<[P := l']> fr).
Proof using KL.
  intros Hi HP HC Ec Hg Hs Hw Hall Hq HPl. pose proof Hs as (_ & _ & En).
  split; cbn [kh_pages kh_slabs kh_words kh_caches with_caches with_words with_slabs].
  - apply Hi.
  - intros Q slq HQ. destruct (decide (Q = P)) as [->|Hne].
    + rewrite lookup_insert_eq in HQ. injection HQ as <-. rewrite Ec, !lookup_insert_eq.
      exists c', l'. split; [done|]. split; [done|]. by eapply slab_good_shape.
    + rewrite lookup_insert_ne in HQ by done. destruct (hi_slab _ _ Hi _ _ HQ) as (cq & lq & HCq & Hfr & HG).
      rewrite (lookup_insert_ne fr) by done.
      assert (slab_good w' cq Q slq lq) as HG'.
      { destruct HG as (F & F2 & F3 & F4 & F5). split; [|done]. eapply fl_rep_agree; [|exact F].
        intros o Ho. apply Hw. intros Hop. apply F3 in Ho.
        destruct (hi_cpage _ _ Hi _ _ HC) as (_ & _ & Hok). destruct (hi_cpage _ _ Hi _ _ HCq) as (_ & _ & Hokq).
        apply (is_obj_range _ _ _ Hok) in Hop. apply (is_obj_range _ _ _ Hokq) in Ho.
        pose proof (slab_addr _ _ _ _ Hi HP) as AP. pose proof (slab_addr _ _ _ _ Hi HQ) as AQ.
        destruct (pages_apart P Q AP AQ) as [E|E]; [congruence|]. unfold SLAB_SIZE, cache_ok in *. lia. }
      destruct (decide (sl_cache slq = sl_cache sl)) as [E|E].
      * rewrite E, lookup_insert_eq. rewrite E, HC in HCq. injection HCq as <-.
        exists c', lq. split; [done|]. split; [done|]. by eapply slab_good_shape.
      * rewrite lookup_insert_ne by congruence. by exists cq, lq.
  - intros Q slq HQ. destruct (decide (Q = P)) as [->|Hne]; [by eapply hi_spage|].
    rewrite lookup_insert_ne in HQ by done. by eapply hi_spage.
  - intros C cc HCC. assert (exists c0, kh_caches h !! C = Some c0 /\ same_shape c0 cc) as (c0 & H0 & Hs0).
    { destruct (decide (C = sl_cache sl)) as [->|Hne].
      - rewrite lookup_insert_eq in HCC. injection HCC as <-. by exists c.
      - rewrite lookup_insert_ne in HCC by done. by exists cc. }
    destruct (hi_cpage _ _ Hi _ _ H0) as (Hf & Hn & Hok). split; [done|]. split; [|by eapply same_shape_ok].
    rewrite lookup_insert_ne; [done|]. intros ->. congruence.
  - intros C cc HCC. destruct (decide (C = sl_cache sl)) as [->|Hne].
    + rewrite lookup_insert_eq in HCC. injection HCC as <-. destruct (hi_lists _ _ Hi _ _ HC) as (L1 & L2 & L3).
      split; [by rewrite Hall|]. split.
      * intros Q. rewrite Hall, L2. destruct (decide (Q = P)) as [->|Hne].
        -- rewrite lookup_insert_eq, HP. split; [intros _; by exists sl'|intros _; by exists sl].
        -- by rewrite lookup_insert_ne.
      * intros Q slq HQ. rewrite En. destruct (decide (Q = P)) as [->|Hne].
        -- rewrite lookup_insert_eq in HQ. by injection HQ as <-.
        -- rewrite lookup_insert_ne in HQ by done. destruct (L3 _ _ HQ) as (M1 & M2 & M3).
           destruct (Hq Q Hne) as (N1 & N2 & N3). auto.
    + rewrite lookup_insert_ne in HCC by done. destruct (hi_lists _ _ Hi _ _ HCC) as (L1 & L2 & L3).
      split; [done|]. split.
      * intros Q. rewrite L2. destruct (decide (Q = P)) as [->|HneQ]; [|by rewrite lookup_insert_ne].
        rewrite lookup_insert_eq, HP. split; intros (x & [= <-] & E); congruence.
      * intros Q slq HQ. destruct (decide (Q = P)) as [->|HneQ].
        -- assert (P ∉ all_slabs cc) as Hn. { rewrite L2, HP. intros (x & [= <-] & E). congruence. }
           unfold all_slabs in Hn. rewrite !not_elem_of_app in Hn. tauto.
        -- rewrite lookup_insert_ne in HQ by done. by apply L3.
Qed.

(** ** The objects of one slab and those of the others *)

Definition other_use h fr (P D o : Z) : Prop :=
  exists Q sl c l, Q ≠ P /\ kh_slabs h !! Q = Some sl /\ sl_cache sl = D /\ kh_caches h !! D = Some c /\
    fr !! Q = Some l /\ is_obj c Q o /\ o ∉ l.

Lemma in_use_split h fr P sl c l D o :
  kh_slabs h !! P = Some sl -> kh_caches h !! sl_cache sl = Some c -> fr !! P = Some l ->
  in_use h fr D o <-> other_use h fr P D o \/ (D = sl_cache sl /\ is_obj c P o /\ o ∉ l).
Proof using.
  intros HP HC Hl. split.
  - intros (Q & slq & cq & lq & H1 & H2 & H3 & H4 & H5 & H6). destruct (decide (Q = P)) as [->|Hne].
    + right. simplify_eq. done.
    + left. by exists Q, slq, cq, lq.
  - intros [(Q & slq & cq & lq & _ & H)|(-> & H1 & H2)]; [by exists Q, slq, cq, lq|].
    by exists P, sl, c, l.
Qed.

Lemma other_use_change h fr P C sl' c' w' l' D o :
  (exists c, kh_caches h !! C = Some c /\ same_shape c c') ->
  other_use (with_caches (with_words (with_slabs h (<[P := sl']> (kh_slabs h))) w')
              (<[C := c']> (kh_caches h))) (<[P := l']> fr) P D o <-> other_use h fr P D o.
Proof using.
  intros (c & HC & Hs).
  split; intros (Q & slq & cq & lq & Hne & H1 & H2 & H3 & H4 & H5 & H6);
    cbn [kh_slabs kh_caches with_caches with_words with_slabs] in *;
    rewrite ?(lookup_insert_ne (kh_slabs h)), ?(lookup_insert_ne fr) in * by done.
  - destruct (decide (D = C)) as [->|HneD].
    + rewrite lookup_insert_eq in H3. injection H3 as <-. exists Q, slq, c, lq.
      split_and!; [done..| |done]. by rewrite same_shape_obj in H5.
    + rewrite lookup_insert_ne in H3 by done. by exists Q, slq, cq, lq.
  - destruct (decide (D = C)) as [->|HneD].
    + rewrite HC in H3. injection H3 as <-. exists Q, slq, c', lq. cbn.
      rewrite (lookup_insert_ne (kh_slabs h)), (lookup_insert_ne fr), lookup_insert_eq by done.
      split_and!; [done..| |done]. by rewrite same_shape_obj.
    + exists Q, slq, cq, lq. cbn. rewrite !lookup_insert_ne by done. by split_and!.
Qed.

(** An object of another slab is another object. *)
Lemma other_use_ne h fr P sl c D o x :
  heap_inv h fr -> kh_slabs h !! P = Some sl -> kh_caches h !! sl_cache sl = Some c ->
  is_obj c P x -> other_use h fr P D o -> o ≠ x.
Proof using KL.
  intros Hi HP HC Hx (Q & slq & cq & lq & Hne & H1 & H2 & H3 & _ & H5 & _) ->. subst D.
  destruct (hi_cpage _ _ Hi _ _ HC) as (_ & _ & Hok). destruct (hi_cpage _ _ Hi _ _ H3) as (_ & _ & Hokq).
  apply (is_obj_range _ _ _ Hok) in Hx. apply (is_obj_range _ _ _ Hokq) in H5.
  destruct (pages_apart P Q (slab_addr _ _ _ _ Hi HP) (slab_addr _ _ _ _ Hi H1)) as [E|E]; [congruence|].
  unfold SLAB_SIZE, cache_ok in *. lia.
Qed.

(** ** Allocating an object *)

(** What slab_alloc does once it has a slab. *)
Definition take_object h (cache s : Z) : option (Z * kheap S) :=
  sl ← kh_slabs h !! s;
  let obj := sl_freelist sl in
  next ← kh_words h !! obj;
  let sl := mk_slab (sl_cache sl) next (u32 (sl_inuse sl + 1)) (u32 (sl_free sl - 1)) (sl_start sl) in
  let h := with_slabs h (<[s := sl]> (kh_slabs h)) in
  h ← upd_cache cache (fun c =>
        note_alloc (if sl_free sl =? 0 then list_slab Full s (unlist s c) else c)) h;
  Some (obj, h).

Lemma filter_ne_perm (l : list Z) (x : Z) : NoDup l -> x ∈ l -> x :: filter (fun y => y ≠ x) l ≡ₚ l.
Proof using.
  intros Hnd Hx. apply elem_of_Permutation in Hx as [k Hk]. rewrite Hk in Hnd |- *.
  apply NoDup_cons in Hnd as [Hn _]. rewrite filter_cons_False by tauto. constructor.
  by rewrite filter_ne_id.
Qed.

(** Moving a slab to the list [w]. *)
Lemma relist_ok slabs C c P sl w :
  lists_ok slabs C c -> slabs !! P = Some sl -> sl_cache sl = C ->
  all_slabs (list_slab w P (unlist P c)) ≡ₚ all_slabs c /\
  (forall Q, Q ≠ P -> (Q ∈ slabs_full (list_slab w P (unlist P c)) -> Q ∈ slabs_full c) /\
     (Q ∈ slabs_partial (list_slab w P (unlist P c)) -> Q ∈ slabs_partial c) /\
     (Q ∈ slabs_free (list_slab w P (unlist P c)) -> Q ∈ slabs_free c)) /\
  (P ∈ slabs_full (list_slab w P (unlist P c)) -> w = Full) /\
  (P ∈ slabs_partial (list_slab w P (unlist P c)) -> w = Partial) /\
  (P ∈ slabs_free (list_slab w P (unlist P c)) -> w = Free).
Proof using.
  intros (L1 & L2 & _) HP HC. split; [|split].
  - rewrite list_slab_all, unlist_all. apply filter_ne_perm; [done|]. apply L2. by exists sl.
  - intros Q Hne. cbn. destruct w; rewrite ?elem_of_cons, !list_elem_of_filter; tauto.
  - cbn. destruct w; rewrite ?elem_of_cons, ?list_elem_of_filter; tauto.
Qed.

Lemma partial_slab h fr C c P :
  heap_inv h fr -> kh_caches h !! C = Some c -> P ∈ slabs_partial c ->
  exists sl o l, kh_slabs h !! P = Some sl /\ sl_cache sl = C /\ fr !! P = Some (o :: l) /\
    slab_good (kh_words h) c P sl (o :: l) /\ 0 < P.
Proof using KL.
  intros Hi HC HP. destruct (hi_lists _ _ Hi _ _ HC) as (_ & L2 & L3).
  destruct (proj1 (L2 P)) as (sl & Hsl & Ec); [unfold all_slabs; set_solver|].
  destruct (hi_slab _ _ Hi _ _ Hsl) as (c0 & l & HC0 & Hfr & HG). rewrite Ec, HC in HC0. injection HC0 as <-.
  destruct (L3 _ _ Hsl) as (_ & Hp & _). specialize (Hp HP). pose proof HG as (_ & _ & _ & Hz & _).
  destruct l as [|o l]; [change (zlen (@nil Z)) with 0 in Hz; lia|].
  exists sl, o, l. pose proof (slab_addr _ _ _ _ Hi Hsl) as [_ ?]. split_and!; [done..|lia].
Qed.

Lemma cache_ok_bound c : cache_ok c -> c_obj_per_slab c < 2 ^ 32.
Proof using. unfold cache_ok, SLAB_SIZE. nia. Qed.

Lemma objs_bound c P l :
  cache_ok c -> NoDup l -> (forall o, o ∈ l -> is_obj c P o) -> zlen l <= c_obj_per_slab c.
Proof using.
  intros Hok Hn Ho. assert (l ⊆+ objs (Z.to_nat (c_obj_per_slab c)) (P + SLAB_SIZE) (asz c)) as Hs.
  { apply NoDup_submseteq; [done|]. intros o Hin. apply objs_elem. destruct (Ho o Hin) as (i & Hi & ->).
    exists i. split; [lia|done]. }
  apply submseteq_length in Hs. rewrite objs_length in Hs. unfold cache_ok in Hok. unfold zlen. lia.
Qed.

Lemma slab_good_count c P sl l w : cache_ok c -> slab_good w c P sl l -> 0 <= zlen l <= c_obj_per_slab c.
Proof using. intros Hok (_ & Hn & Ho & _ & _). split; [apply zlen_nonneg|by eapply objs_bound]. Qed.

Lemma take_object_ok h fr C c P :
  heap_inv h fr -> kh_caches h !! C = Some c -> P ∈ slabs_partial c ->
  exists o h' fr', take_object h C P = Some (o, h') /\ heap_inv h' fr' /\ o ≠ 0 /\ is_obj c P o /\
    ~ in_use h fr C o /\ (forall D x, in_use h' fr' D x <-> in_use h fr D x \/ (D = C /\ x = o)) /\
    (forall D d, kh_caches h !! D = Some d -> exists d', kh_caches h' !! D = Some d' /\ same_shape d d').
Proof using KL.
  intros Hi HC HP. destruct (partial_slab _ _ _ _ _ Hi HC HP) as (sl & o & l & Hsl & Ec & Hfr & HG & HP0).
  destruct (hi_cpage _ _ Hi _ _ HC) as (_ & _ & Hok). pose proof (cache_ok_bound _ Hok) as Hb.
  pose proof (slab_good_count _ _ _ _ _ Hok HG) as Hcnt. rewrite zlen_cons in Hcnt. pose proof (zlen_nonneg l) as Hl0.
  pose proof HG as (F1 & F2 & F3 & F4 & F5). cbn [fl_rep] in F1. destruct F1 as (Ef & Ho & nx & Hnx & F1).
  rewrite zlen_cons in F4, F5. apply NoDup_cons in F2 as [Hol F2].
  unfold take_object. rewrite Hsl. cbn [mbind option_bind]. rewrite Ef, Hnx. cbn [mbind option_bind].
  set (sl' := mk_slab _ _ _ _ _). unfold upd_cache. cbn [kh_caches with_slabs]. rewrite HC. cbn [mbind option_bind].
  assert (sl_free sl' = zlen l) as Efr by (cbn; rewrite F4, u32_small; lia).
  set (c' := note_alloc _).
  assert (slab_good (kh_words h) c P sl' l) as HG'.
  { split; [done|]. split; [done|]. split; [intros x Hx; apply F3; set_solver|]. split; [done|].
    cbn. rewrite F5, u32_small; lia. }
  assert (same_shape c c') as Hsh by (unfold c'; destruct (_ =? 0); done).
  pose proof (relist_ok _ _ _ _ _ Full (hi_lists _ _ Hi _ _ HC) Hsl Ec) as (R1 & R2 & R3).
  assert (heap_inv (with_caches (with_words (with_slabs h (<[P := sl']> (kh_slabs h))) (kh_words h))
              (<[sl_cache sl := c']> (kh_caches h))) (<[P := l]> fr)) as Hi'.
  { eapply heap_inv_change; [done|done|by rewrite Ec|done|done|done|done|..]; unfold c'; destruct (Z.eqb_spec (sl_free sl') 0) as [E|E].
    - exact R1.
    - done.
    - exact R2.
    - done.
    - destruct R3 as (_ & R4 & R5). split; [intros _; exact E|].
      split; intros HF; [by apply R4 in HF|by apply R5 in HF].
    - destruct (hi_lists _ _ Hi _ _ HC) as (_ & _ & L3). destruct (L3 _ _ Hsl) as (M1 & M2 & M3).
      split; [intros HF%M1; lia|]. split; [lia|]. intros HF. exfalso.
      pose proof (hi_lists _ _ Hi _ _ HC) as (L1 & _ & _). unfold all_slabs in L1.
      apply NoDup_app in L1 as (_ & _ & L1). apply NoDup_app in L1 as (_ & Hd & _). set_solver. }
  rewrite Ec in Hi'. eexists o, _, (<[P := l]> fr). split; [done|]. split; [exact Hi'|]. split; [done|].
  assert (is_obj c P o) as Hob by (apply F3; set_solver). split; [done|].
  assert (forall D x, in_use h fr D x <-> other_use h fr P D x \/ (D = sl_cache sl /\ is_obj c P x /\ x ∉ o :: l)) as Hu.
  { intros D x. apply in_use_split; [done|by rewrite Ec|done]. }
  split.
  { rewrite Hu. intros [Ho'|(_ & _ & Hn)]; [|set_solver].
    eapply (other_use_ne h fr P sl c); [done|done|by rewrite Ec|done|exact Ho'|done]. }
  split.
  - intros D x. rewrite Hu.
    rewrite (in_use_split _ _ P sl' c' l); [|cbn; apply lookup_insert_eq|cbn; rewrite Ec; apply lookup_insert_eq|apply lookup_insert_eq].
    change (kheap S) with (kheap S).
    rewrite (other_use_change h fr P C sl' c' (kh_words h) l D x) by (by exists c).
    rewrite (same_shape_obj c c') by done. cbn [sl_cache sl']. rewrite Ec, not_elem_of_cons.
    destruct (decide (x = o)) as [->|Hne]; [|intuition congruence]. split.
    + intros [?|(-> & _ & _)]; [by left; left|by right].
    + intros [[?|(_ & _ & ? & _)]|[-> _]]; [by left|done|by right].
  - intros D d HD. cbn. destruct (decide (D = C)) as [->|Hne].
    + rewrite lookup_insert_eq. simplify_eq. by eexists.
    + rewrite lookup_insert_ne by done. by exists d.
Qed.

(** ** A new slab *)

Lemma hhdm_page_inj (s : S) f g : hhdm_page s f = hhdm_page s g -> f = g.
Proof using. unfold hhdm_page. lia. Qed.

Lemma used_frame_same s s' P f :
  same_memory s s' -> (pa_free s' f -> pa_free s f) -> used_frame s P f -> used_frame s' P f.
Proof using.
  intros [E1 E2] Hf (-> & Hm & Hn). unfold used_frame, hhdm_page. rewrite E1. split; [done|].
  split; [by apply E2|tauto].
Qed.

(** A page that was free belongs to no slab and no cache. *)
Lemma fresh_page h fr f :
  heap_inv h fr -> pa_free (kh_pages h) f ->
  kh_slabs h !! hhdm_page (kh_pages h) f = None /\ kh_caches h !! hhdm_page (kh_pages h) f = None.
Proof using KL.
  intros Hi Hf. split; apply eq_None_not_Some; intros [x Hx].
  - destruct (hi_spage _ _ Hi _ _ Hx) as (g & (E & _ & Hn) & _). apply hhdm_page_inj in E as ->. done.
  - destruct (hi_cpage _ _ Hi _ _ Hx) as ((g & E & _ & Hn) & _). apply hhdm_page_inj in E as ->. done.
Qed.

(** The page allocator moved on, taking nothing that the heap uses. *)
Definition pages_grow (s s' : S) (f : Z) : Prop :=
  pa_ok s' /\ same_memory s s' /\ pa_managed s f /\ pa_free s f /\
  (forall q, pa_free s' q <-> pa_free s q /\ q ≠ f) /\ (forall q, q ≠ f -> slab_bit s' q = slab_bit s q).

Lemma pages_grow_used s s' f P g : pages_grow s s' f -> used_frame s P g -> used_frame s' P g.
Proof using.
  intros (_ & Hsm & _ & _ & Hfr & _) Hu. eapply used_frame_same; [done| |done]. rewrite Hfr. tauto.
Qed.

Lemma add_slab_inv h fr C c f s' P w' c' sl l :
  heap_inv h fr -> kh_caches h !! C = Some c -> pages_grow (kh_pages h) s' f -> slab_bit s' f = true ->
  P = hhdm_page (kh_pages h) f -> sl_cache sl = C -> slab_good w' c P sl l -> 0 < sl_free sl ->
  (forall a, ~ is_obj c P a -> w' !! a = kh_words h !! a) -> same_shape c c' ->
  c' = list_slab Partial P (count_slabs 1 c) ->
  heap_inv (with_caches (with_words (with_slabs (with_pages_of h s') (<[P := sl]> (kh_slabs h))) w')
              (<[C := c']> (kh_caches h))) (<[P := l]> fr).
Proof using KL.
  intros Hi HC Hg Hbit EP Ecl HG Hpos Hw Hsh Ec'.
  destruct (fresh_page _ _ _ Hi (proj1 (proj2 (proj2 (proj2 Hg))))) as [HPs HPc]. rewrite <- EP in HPs, HPc.
  assert (C ≠ P) as HCP by (intros ->; congruence).
  destruct (hi_cpage _ _ Hi _ _ HC) as (_ & _ & Hok).
  assert (used_frame s' P f) as HuP.
  { destruct Hg as (_ & [E1 E2] & Hm & _ & Hfr & _). subst P. unfold used_frame, hhdm_page. rewrite E1, Hfr.
    split; [done|]. split; [by apply E2|tauto]. }
  assert (forall Q slq, kh_slabs h !! Q = Some slq -> Q ≠ P) as HneP by (intros Q slq HQ ->; congruence).
  assert (page_addr P) as AP by (eapply used_frame_addr; [apply Hg|done]).
  split; cbn [kh_pages kh_slabs kh_words kh_caches with_caches with_words with_slabs with_pages_of].
  - apply Hg.
  - intros Q slq HQ. destruct (decide (Q = P)) as [->|Hne].
    + rewrite lookup_insert_eq in HQ. injection HQ as <-. rewrite Ecl, !lookup_insert_eq.
      exists c', l. split; [done|]. split; [done|]. by eapply slab_good_shape.
    + rewrite lookup_insert_ne in HQ by done. destruct (hi_slab _ _ Hi _ _ HQ) as (cq & lq & HCq & Hfq & F).
      rewrite (lookup_insert_ne fr) by done. assert (slab_good w' cq Q slq lq) as F'.
      { destruct F as (F1 & F2 & F3 & F4). split; [|done]. eapply fl_rep_agree; [|exact F1].
        intros o Ho. apply Hw. intros Hop. apply F3 in Ho. destruct (hi_cpage _ _ Hi _ _ HCq) as (_ & _ & Hokq).
        apply (is_obj_range _ _ _ Hok) in Hop. apply (is_obj_range _ _ _ Hokq) in Ho.
        destruct (pages_apart P Q AP (slab_addr _ _ _ _ Hi HQ)) as [E|E]; [congruence|].
        unfold SLAB_SIZE, cache_ok in *. lia. }
      destruct (decide (sl_cache slq = C)) as [E|E].
      * rewrite E, lookup_insert_eq. rewrite E, HC in HCq. injection HCq as <-.
        exists c', lq. split; [done|]. split; [done|]. by eapply slab_good_shape.
      * rewrite lookup_insert_ne by congruence. by exists cq, lq.
  - intros Q slq HQ. destruct (decide (Q = P)) as [->|Hne]; [by exists f|].
    rewrite lookup_insert_ne in HQ by done. destruct (hi_spage _ _ Hi _ _ HQ) as (g & Hu & Hb). exists g.
    split; [by eapply pages_grow_used|]. destruct Hg as (_ & _ & _ & Hff & _ & Hsb).
    rewrite Hsb; [done|]. intros ->. by destruct Hu as (_ & _ & ?).
  - intros D d HD. assert (exists d0, kh_caches h !! D = Some d0 /\ same_shape d0 d) as (d0 & H0 & Hs0).
    { destruct (decide (D = C)) as [->|Hne].
      - rewrite lookup_insert_eq in HD. injection HD as <-. by exists c.
      - rewrite lookup_insert_ne in HD by done. by exists d. }
    destruct (hi_cpage _ _ Hi _ _ H0) as ((g & Hu) & Hn & Hokd).
    split; [exists g; by eapply pages_grow_used|]. split; [|by eapply same_shape_ok].
    rewrite lookup_insert_ne; [done|]. intros ->. congruence.
  - intros D d HD. destruct (decide (D = C)) as [->|Hne].
    + rewrite lookup_insert_eq in HD. injection HD as <-. destruct (hi_lists _ _ Hi _ _ HC) as (L1 & L2 & L3).
      assert (P ∉ all_slabs c) as Hn by (rewrite L2, HPs; intros (? & ? & _); done).
      assert (all_slabs c' ≡ₚ P :: all_slabs c) as Hall by (rewrite Ec'; exact (list_slab_all Partial P (count_slabs 1 c))).
      split; [rewrite Hall; by constructor|]. split.
      * intros Q. rewrite Hall, elem_of_cons, L2. destruct (decide (Q = P)) as [->|HneQ].
        -- rewrite lookup_insert_eq. split; [intros _; by exists sl|by left].
        -- rewrite lookup_insert_ne by done. split; [by intros [?|?]|by right].
      * unfold all_slabs in Hn. rewrite !not_elem_of_app in Hn. intros Q slq HQ. rewrite Ec'. cbn.
        destruct (decide (Q = P)) as [->|HneQ].
        -- rewrite lookup_insert_eq in HQ. injection HQ as <-. tauto.
        -- rewrite lookup_insert_ne in HQ by done. destruct (L3 _ _ HQ) as (M1 & M2 & M3).
           split; [done|]. split; [|done]. intros [?|?]%elem_of_cons; [done|auto].
    + rewrite lookup_insert_ne in HD by done. destruct (hi_lists _ _ Hi _ _ HD) as (L1 & L2 & L3).
      assert (P ∉ all_slabs d) as Hn by (rewrite L2, HPs; intros (? & ? & _); done).
      split; [done|]. split.
      * intros Q. rewrite L2. destruct (decide (Q = P)) as [->|HneQ]; [|by rewrite lookup_insert_ne].
        rewrite lookup_insert_eq, HPs. split; [by intros (? & ? & _)|]. intros (x & [= <-] & E). congruence.
      * intros Q slq HQ. destruct (decide (Q = P)) as [->|HneQ].
        -- unfold all_slabs in Hn. rewrite !not_elem_of_app in Hn. tauto.
        -- rewrite lookup_insert_ne in HQ by done. by apply L3.
Qed.

(** Shapes of caches never change. *)
Definition caches_kept h h' : Prop :=
  forall D d, kh_caches h !! D = Some d -> exists d', kh_caches h' !! D = Some d' /\ same_shape d d'.

Lemma caches_kept_refl h : caches_kept h h.
Proof using. intros D d HD. by exists d. Qed.

Lemma caches_kept_insert h h' C c c' :
  kh_caches h !! C = Some c -> same_shape c c' -> kh_caches h' = <[C := c']> (kh_caches h) -> caches_kept h h'.
Proof using.
  intros HC Hs E D d HD. rewrite E. destruct (decide (D = C)) as [->|Hne].
  - rewrite lookup_insert_eq. simplify_eq. by exists c'.
  - rewrite lookup_insert_ne by done. by exists d.
Qed.

Lemma caches_kept_trans h1 h2 h3 : caches_kept h1 h2 -> caches_kept h2 h3 -> caches_kept h1 h3.
Proof using.
  intros H1 H2 D d HD. destruct (H1 D d HD) as (d1 & HD1 & E1). destruct (H2 D d1 HD1) as (d2 & HD2 & E2).
  exists d2. split; [done|]. unfold same_shape in *. intuition congruence.
Qed.

(** The rest of the heap: the kmalloc table is not touched. *)
Definition step_keeps h h' : Prop := caches_kept h h' /\ kmalloc_caches h' = kmalloc_caches h.

(** The new slab, put on the partial list as slab_alloc does. *)
Lemma slab_alloc_new_ok h fr C c :
  heap_inv h fr -> kh_caches h !! C = Some c ->
  slab_alloc_new h C = Some (0, h) \/
  exists P h1 h' fr' c', slab_alloc_new h C = Some (P, h1) /\ P ≠ 0 /\
    upd_cache C (list_slab Partial P) h1 = Some h' /\ heap_inv h' fr' /\
    kh_caches h' !! C = Some c' /\ same_shape c c' /\ P ∈ slabs_partial c' /\
    (forall D x, in_use h' fr' D x <-> in_use h fr D x) /\ step_keeps h h'.
Proof using KL.
  intros Hi HC. destruct (hi_cpage _ _ Hi _ _ HC) as (_ & _ & Hok). pose proof (hi_ok _ _ Hi) as Hpa.
  unfold slab_alloc_new. destruct (pa_get_ok _ Hpa) as [E|(f & s1 & E & Hpa1 & Hsm1 & Hm & Hf & Hfr1)].
  { left. rewrite E. cbn [mbind option_bind Z.eqb]. by destruct h. }
  right. rewrite E. cbn [mbind option_bind]. set (P := hhdm_page (kh_pages h) f) in *.
  destruct (pa_hhdm_ok _ Hpa) as (Hh & _). destruct (pa_frame_ok _ _ Hpa Hm) as [Hf0 HP64].
  assert (P ≠ 0) as HP0 by (unfold P, hhdm_page; lia). rewrite (proj2 (Z.eqb_neq _ _) HP0).
  cbn [kh_caches with_pages_of]. rewrite HC. cbn [mbind option_bind].
  fold (asz c). set (n := Z.to_nat (c_obj_per_slab c)).
  assert (0 < P + SLAB_SIZE) as Hst by (unfold P, hhdm_page, SLAB_SIZE; lia).
  destruct (build_freelist_ok n (P + SLAB_SIZE) (asz c) (kh_words h)) as [B1 B2];
    [unfold cache_ok in Hok; lia|lia|unfold cache_ok in Hok; lia|]. cbn [kh_words with_pages_of].
  destruct (build_freelist n None (P + SLAB_SIZE) (asz c) (0, kh_words h)) as [fl w'].
  cbn [fst snd] in B1, B2. set (h1 := with_words _ _).
  assert (used_frame s1 P f) as Hu1.
  { destruct Hsm1 as [E1 E2]. unfold used_frame, P, hhdm_page. rewrite E1, Hfr1.
    split; [done|]. split; [by apply E2|tauto]. }
  rewrite (used_frame_meta h1 P f P Hpa1 Hu1) by lia.
  destruct (kp_set_ok s1 f Hpa1 (proj1 (proj2 Hu1)) (proj2 (proj2 Hu1))) as (s2 & Es & Hpa2 & Hsm2 & Hfr2 & Hb2).
  change (kh_pages h1) with s1. rewrite Es. cbn [mbind option_bind]. unfold upd_cache at 1.
  cbn [kh_caches with_pages_of with_words with_slabs h1]. rewrite HC. cbn [mbind option_bind].
  set (sl := mk_slab C fl 0 (u32 (c_obj_per_slab c)) (P + SLAB_SIZE)).
  pose proof (cache_ok_bound _ Hok) as Hnb. assert (1 <= c_obj_per_slab c) as Hn1 by (unfold cache_ok in Hok; lia).
  assert (u32 (c_obj_per_slab c) = c_obj_per_slab c) as Eu by (apply u32_small; lia).
  set (l := objs n (P + SLAB_SIZE) (asz c)). set (c' := list_slab Partial P (count_slabs 1 c)).
  assert (forall x, x ∈ l <-> is_obj c P x) as Hobj.
  { intros x. unfold l. rewrite objs_elem. unfold is_obj, n. rewrite Z2Nat.id by lia. done. }
  assert (zlen l = c_obj_per_slab c) as Hlen by (unfold zlen, l, n; rewrite objs_length, Z2Nat.id; lia).
  assert (heap_inv (with_caches (with_words (with_slabs (with_pages_of h s2) (<[P := sl]> (kh_slabs h))) w')
              (<[C := c']> (kh_caches h))) (<[P := l]> fr)) as Hi'.
  { eapply (add_slab_inv h fr C c f); [done|done| |by rewrite Hb2, decide_True|done|done| |cbn; lia| |done|done].
    - split; [done|]. split; [|split; [done|split; [done|split]]].
      + destruct Hsm1 as [A1 A2], Hsm2 as [B3 B4]. split; [congruence|]. intros g. by rewrite B4.
      + intros q. by rewrite Hfr2.
      + intros q Hq. rewrite Hb2, decide_False by done. by eapply kp_get_slab.
    - split; [done|]. split; [apply objs_nodup; unfold cache_ok in Hok; lia|]. split; [intros o Ho; by apply Hobj|].
      cbn. rewrite Eu. lia.
    - intros a Ha. apply B2. intros (i & Hi0 & ->). apply Ha. exists i. split; [lia|done]. }
  eexists P, _, _, (<[P := l]> fr), c'. split; [done|]. split; [done|]. split.
  { unfold upd_cache. cbn. rewrite lookup_insert_eq. cbn. by rewrite insert_insert_eq. }
  split; [exact Hi'|]. split; [cbn; by rewrite lookup_insert_eq|]. split; [done|]. split; [cbn; set_solver|].
  destruct (fresh_page _ _ _ Hi Hf) as [HPs HPc]. split.
  - intros D x. rewrite (in_use_split _ _ P sl c' l); [|cbn; apply lookup_insert_eq|cbn; rewrite lookup_insert_eq; done|apply lookup_insert_eq].
    pose proof (other_use_change (with_pages_of h s2) fr P C sl c' w' l D x ltac:(by exists c)) as Hoc.
    split.
    + intros [Ho|(-> & Hx & Hn)]; [apply Hoc in Ho; destruct Ho as (Q & slq & cq & lq & _ & H); by exists Q, slq, cq, lq|].
      exfalso. apply Hn, Hobj. by rewrite same_shape_obj in Hx.
    + intros (Q & slq & cq & lq & H1 & H2). left. apply Hoc. exists Q, slq, cq, lq. split; [|by split].
      intros ->. fold P in HPs. congruence.
  - split; [|done]. by eapply (caches_kept_insert _ _ C c c').
Qed.
End inv.
