(* ===== verification/SlabSpec.v ===== *)
(** * The kernel heap

    What slab_alloc, slab_free, kmalloc and kfree do to the set of objects handed out, and the
    safety of every history of kernel allocations, for any page allocator with the laws of
    [KernelPagesLaws]. *)
From S2P Require Import Prelude Defs Buddy Paging Slab SlabInv.

Section spec.
Context {S : Type} `{KP : KernelPages S} {KL : KernelPagesLaws S}.
Implicit Types (h : kheap S) (fr : gmap Z (list Z)).

(** ** Allocation *)

Definition same_use h fr h' fr' : Prop := forall D x, in_use h' fr' D x <-> in_use h fr D x.

(** A completely free slab moves to the partial list. *)
Lemma free_to_partial_ok h fr C c P :
  heap_inv h fr -> kh_caches h !! C = Some c -> P ∈ slabs_free c ->
  let c' := list_slab Partial P (unlist P c) in
  heap_inv (with_caches h (<[C := c']> (kh_caches h))) fr /\
  same_use h fr (with_caches h (<[C := c']> (kh_caches h))) fr.
Proof using KL.
  intros Hi HC HP c'. destruct (hi_lists _ _ Hi _ _ HC) as (L1 & L2 & L3).
  destruct (proj1 (L2 P)) as (sl & Hsl & Ec); [unfold all_slabs; set_solver|].
  destruct (hi_slab _ _ Hi _ _ Hsl) as (c0 & l & HC0 & Hfr & HG). rewrite Ec, HC in HC0. injection HC0 as <-.
  destruct (L3 _ _ Hsl) as (_ & _ & Hall). specialize (Hall HP).
  destruct (hi_cpage _ _ Hi _ _ HC) as (_ & _ & Hok).
  pose proof (relist_ok _ _ _ _ _ Partial (hi_lists _ _ Hi _ _ HC) Hsl Ec) as (R1 & R2 & R3 & R4 & R5).
  assert (same_shape c c') as Hsh by done.
  pose proof (heap_inv_change h fr P sl c sl c' (kh_words h) l Hi Hsl ltac:(by rewrite Ec) eq_refl HG Hsh
    (fun _ _ => eq_refl) R1 R2) as Hc.
  rewrite Ec, (insert_id (kh_slabs h)), (insert_id fr) in Hc by done. split.
  - refine (Hc _). split; [by intros ?%R3|]. split; [intros _; unfold cache_ok in Hok; lia|by intros ?%R5].
  - intros D x. pose proof (other_use_change h fr P C sl c' (kh_words h) l D x ltac:(by exists c)) as Ho.
    rewrite (insert_id (kh_slabs h)), (insert_id fr) in Ho by done.
    rewrite (in_use_split h fr P sl c l) by (by rewrite ?Ec).
    rewrite (in_use_split _ fr P sl c' l); [|done|cbn; rewrite Ec; apply lookup_insert_eq|done].
    rewrite (same_shape_obj c c') by done. split; (intros [H|H]; [left; by apply Ho|by right]).
Qed.

Lemma pick_slab_ok h fr C c :
  heap_inv h fr -> kh_caches h !! C = Some c ->
  pick_slab h C = Some (0, h) \/
  exists P h' fr' c', pick_slab h C = Some (P, h') /\ P ≠ 0 /\ heap_inv h' fr' /\
    kh_caches h' !! C = Some c' /\ same_shape c c' /\ P ∈ slabs_partial c' /\
    same_use h fr h' fr' /\ step_keeps h h'.
Proof using KL.
  intros Hi HC. unfold pick_slab. rewrite HC. cbn [mbind option_bind].
  destruct (slabs_partial c) as [|P ps] eqn:Ep.
  2: { right. exists P, h, fr, c. destruct (partial_slab h fr C c P Hi HC ltac:(rewrite Ep; left)) as (_ & _ & _ & _ & _ & _ & _ & H0).
       split_and!; [done|lia|done|done|done|rewrite Ep; left|done|by split; [apply caches_kept_refl|]]. }
  destruct (slabs_free c) as [|P ps'] eqn:Ef.
  - destruct (slab_alloc_new_ok h fr C c Hi HC) as [E|(P & h1 & h' & fr' & c' & E & H0 & E2 & H)]; rewrite E; cbn [mbind option_bind].
    + by left.
    + right. rewrite (proj2 (Z.eqb_neq _ _) H0), E2. by exists P, h', fr', c'.
  - right. unfold upd_cache. rewrite HC. cbn [mbind option_bind].
    assert (P ∈ slabs_free c) as HP by (rewrite Ef; left).
    destruct (free_to_partial_ok h fr C c P Hi HC HP) as [Hi' Hu].
    assert (P ≠ 0).
    { destruct (hi_lists _ _ Hi _ _ HC) as (_ & L2 & _). destruct (proj1 (L2 P)) as (sl & Hsl & _); [unfold all_slabs; set_solver|].
      pose proof (slab_addr _ _ _ _ Hi Hsl) as [_ ?]. lia. }
    eexists P, _, fr, _. split; [done|]. split; [done|]. split; [exact Hi'|]. split; [cbn; by rewrite lookup_insert_eq|].
    split; [done|]. split; [cbn; left|]. split; [exact Hu|]. split; [|done].
    eapply caches_kept_insert; [done| |done]. done.
Qed.

(** Objects in use are the same or do not overlap, and the same only within one cache. *)
Lemma in_use_apart h fr C D x y c d :
  heap_inv h fr -> in_use h fr C x -> in_use h fr D y -> kh_caches h !! C = Some c -> kh_caches h !! D = Some d ->
  (C = D /\ x = y) \/ x + asz c <= y \/ y + asz d <= x.
Proof using KL.
  intros Hi (P & sl & c0 & l & H1 & H2 & H3 & H4 & H5 & H6) (Q & slq & d0 & lq & G1 & G2 & G3 & G4 & G5 & G6) HC HD.
  rewrite H3 in HC. rewrite G3 in HD. injection HC as ->. injection HD as ->.
  destruct (hi_cpage _ _ Hi _ _ H3) as (_ & _ & Hok). destruct (hi_cpage _ _ Hi _ _ G3) as (_ & _ & Hokd).
  destruct (pages_apart P Q (slab_addr _ _ _ _ Hi H1) (slab_addr _ _ _ _ Hi G1)) as [->|Hpq].
  - simplify_eq. destruct (is_obj_apart c Q x y Hok H5 G5) as [?|[?|?]]; [by left|right; by left|right; by right].
  - right. apply (is_obj_range _ _ _ Hok) in H5. apply (is_obj_range _ _ _ Hokd) in G5.
    unfold SLAB_SIZE, cache_ok in *. lia.
Qed.

Lemma in_use_cache h fr C x : in_use h fr C x -> exists c, kh_caches h !! C = Some c.
Proof using. intros (P & sl & c & l & _ & _ & H & _). by exists c. Qed.

Lemma in_use_one h fr C D x : heap_inv h fr -> in_use h fr C x -> in_use h fr D x -> C = D.
Proof using KL.
  intros Hi H1 H2. destruct (in_use_cache _ _ _ _ H1) as [c HC]. destruct (in_use_cache _ _ _ _ H2) as [d HD].
  destruct (hi_cpage _ _ Hi _ _ HC) as (_ & _ & Hok). destruct (hi_cpage _ _ Hi _ _ HD) as (_ & _ & Hokd).
  destruct (in_use_apart h fr C D x x c d) as [[? _]|[?|?]]; [done..| |]; unfold cache_ok in *; lia.
Qed.

Lemma take_object_keeps h C P o h' : take_object h C P = Some (o, h') -> kmalloc_caches h' = kmalloc_caches h.
Proof using.
  unfold take_object, upd_cache. destruct (kh_slabs h !! P); [|done]. cbn [mbind option_bind].
  destruct (kh_words h !! _); [|done]. cbn. destruct (kh_caches h !! C); [|done]. cbn. by intros [= <- <-].
Qed.

(** Allocation from a cache fails without effect or hands out an object that was not in use. *)
Lemma slab_alloc_ok_core h fr C c :
  heap_inv h fr -> kh_caches h !! C = Some c ->
  slab_alloc h C = Some (0, h) \/
  exists o h' fr', slab_alloc h C = Some (o, h') /\ heap_inv h' fr' /\ o ≠ 0 /\
    (forall D, ~ in_use h fr D o) /\
    (forall D x, in_use h' fr' D x <-> in_use h fr D x \/ (D = C /\ x = o)) /\ step_keeps h h'.
Proof using KL.
  intros Hi HC. destruct (pick_slab_ok h fr C c Hi HC) as [E|(P & h1 & fr1 & c1 & E & H0 & Hi1 & HC1 & Hs1 & HP & Hu1 & Hk1)].
  { left. unfold slab_alloc. by rewrite E. }
  right. destruct (take_object_ok h1 fr1 C c1 P Hi1 HC1 HP) as (o & h' & fr' & E2 & Hi' & Ho & Hob & Hn & Hu & Hk).
  exists o, h', fr'. split_and!; [|done|done| | |].
  - unfold slab_alloc. rewrite E. cbn [mbind option_bind]. rewrite (proj2 (Z.eqb_neq _ _) H0). exact E2.
  - intros D HD%Hu1. assert (D = C) as ->; [|by apply Hn].
    eapply in_use_one; [exact Hi'|apply Hu; left; exact HD|by apply Hu; right].
  - intros D x. rewrite Hu, (Hu1 D x). done.
  - destruct Hk1 as [K1 K2]. split; [by eapply caches_kept_trans|]. rewrite <- K2. by eapply take_object_keeps.
Qed.

(** ** Giving objects back *)

(** What slab_free does to the cache: the slab [P] has [inuse] objects in use and [free] free. *)
Definition relist_freed (P inuse free : Z) (c : slab_cache) : slab_cache :=
  note_free (if inuse =? 0 then list_slab Free P (unlist P c)
              else if free =? 1 then list_slab Partial P (unlist P c) else c).

Lemma relist_freed_ok slabs C c P sl n :
  lists_ok slabs C c -> slabs !! P = Some sl -> sl_cache sl = C ->
  sl_free sl = n - 1 -> 1 <= n <= c_obj_per_slab c ->
  let c' := relist_freed P (c_obj_per_slab c - n) n c in
  all_slabs c' ≡ₚ all_slabs c /\ same_shape c c' /\
  (forall Q, Q ≠ P -> (Q ∈ slabs_full c' -> Q ∈ slabs_full c) /\
     (Q ∈ slabs_partial c' -> Q ∈ slabs_partial c) /\ (Q ∈ slabs_free c' -> Q ∈ slabs_free c)) /\
  (P ∈ slabs_full c' -> n = 0) /\ (P ∈ slabs_partial c' -> 0 < n) /\ (P ∈ slabs_free c' -> n = c_obj_per_slab c).
Proof using.
  intros HL HP HC Hf Hn c'. unfold c', relist_freed. destruct (Z.eqb_spec (c_obj_per_slab c - n) 0) as [E|E].
  - destruct (relist_ok _ _ _ _ _ Free HL HP HC) as (R1 & R2 & R3 & R4 & R5).
    split; [exact R1|]. split; [done|]. split; [exact R2|]. split; [by intros ?%R3|]. split; [lia|lia].
  - destruct (Z.eqb_spec n 1) as [->|E1].
    + destruct (relist_ok _ _ _ _ _ Partial HL HP HC) as (R1 & R2 & R3 & R4 & R5).
      split; [exact R1|]. split; [done|]. split; [exact R2|]. split; [by intros ?%R3|]. split; [lia|by intros ?%R5].
    + destruct HL as (_ & _ & L3). destruct (L3 _ _ HP) as (M1 & M2 & M3).
      split; [done|]. split; [done|]. split; [done|]. split; [intros HF%M1; lia|]. split; [lia|intros HF%M3; lia].
Qed.

(** The freed object heads the slab's free list. *)
Lemma freed_good w c P sl l o :
  cache_ok c -> slab_good w c P sl l -> is_obj c P o -> o ∉ l -> o ≠ 0 ->
  slab_good (<[o := sl_freelist sl]> w) c P
    (mk_slab (sl_cache sl) o (u32 (sl_inuse sl - 1)) (u32 (sl_free sl + 1)) (sl_start sl)) (o :: l).
Proof using.
  intros Hok HG Hob Hn Ho. pose proof (slab_good_count _ _ _ _ _ Hok HG) as Hcnt.
  pose proof (cache_ok_bound _ Hok) as Hb. destruct HG as (F1 & F2 & F3 & F4 & F5).
  assert (zlen (o :: l) <= c_obj_per_slab c) as Hc1.
  { apply (objs_bound _ P); [done|by constructor|]. intros x [->|Hx]%elem_of_cons; auto. }
  rewrite zlen_cons in Hc1. split_and!; cbn [sl_freelist sl_free sl_inuse].
  - cbn [fl_rep]. split; [done|]. split; [done|]. exists (sl_freelist sl).
    split; [apply lookup_insert_eq|]. by apply fl_rep_insert.
  - by constructor.
  - intros x [->|Hx]%elem_of_cons; auto.
  - rewrite zlen_cons, F4, u32_small; lia.
  - rewrite zlen_cons, F5, u32_small; lia.
Qed.

(** Freeing an object that is in use takes exactly that object out of use. *)
Lemma slab_free_core h fr C o :
  heap_inv h fr -> in_use h fr C o ->
  exists h' fr', slab_free h C o = Some h' /\ heap_inv h' fr' /\ step_keeps h h' /\
    (forall D x, in_use h' fr' D x <-> in_use h fr D x /\ x ≠ o).
Proof using KL.
  intros Hi (P & sl & c & l & Hsl & Ec & HC & Hfr & Hob & Hnl).
  destruct (hi_cpage _ _ Hi _ _ HC) as (_ & _ & Hok). pose proof (cache_ok_bound _ Hok) as Hb.
  destruct (hi_slab _ _ Hi _ _ Hsl) as (c0 & l0 & HC0 & Hl0 & HG).
  rewrite Ec, HC in HC0. injection HC0 as <-. rewrite Hfr in Hl0. injection Hl0 as <-.
  pose proof (slab_addr _ _ _ _ Hi Hsl) as AP. pose proof (is_obj_range _ _ _ Hok Hob) as Hr.
  assert (o ≠ 0) as Ho by (destruct AP; unfold SLAB_SIZE in Hr; lia).
  pose proof HG as (F1 & F2 & F3 & F4 & F5).
  assert (slab_good (<[o := sl_freelist sl]> (kh_words h)) c P
            (mk_slab (sl_cache sl) o (u32 (sl_inuse sl - 1)) (u32 (sl_free sl + 1)) (sl_start sl)) (o :: l)) as HG'.
  { apply freed_good; try done. }
  pose proof (slab_good_count _ _ _ _ _ Hok HG') as Hcnt. pose proof HG' as (_ & _ & _ & G4 & G5).
  unfold slab_free. rewrite (proj2 (Z.eqb_neq _ _) Ho).
  rewrite (obj_page P o AP) by (unfold SLAB_SIZE, cache_ok in *; lia). rewrite Hsl. cbn [mbind option_bind].
  rewrite Ec, Z.eqb_refl. cbn [negb]. rewrite Ec in HG', G4, G5. set (sl' := mk_slab _ _ _ _ _) in *.
  unfold upd_cache. cbn [kh_caches with_slabs with_words]. rewrite HC. cbn [mbind option_bind].
  fold (relist_freed P (sl_inuse sl') (sl_free sl') c). rewrite G4, G5. rewrite zlen_cons in *.
  destruct (relist_freed_ok (kh_slabs h) C c P sl (zlen l + 1)) as (R1 & Hsh & R2 & R3);
    [by apply (hi_lists _ _ Hi)|done|done|lia|pose proof (zlen_nonneg l); lia|].
  set (c' := relist_freed _ _ _ _) in *.
  eexists _, (<[P := o :: l]> fr). split; [done|]. split; [|split].
  - rewrite <- Ec. eapply (heap_inv_change h fr P sl c sl' c' (<[o := sl_freelist sl]> (kh_words h)) (o :: l)); [done|done|by rewrite Ec|done|done|done| |done|done|by rewrite G4].
    intros a Ha. rewrite lookup_insert_ne; [done|]. by intros ->.
  - split; [|done]. by eapply (caches_kept_insert _ _ C c c').
  - intros D x. rewrite (in_use_split h fr P sl c l) by (by rewrite ?Ec).
    rewrite (in_use_split _ _ P sl' c' (o :: l)); [|cbn; apply lookup_insert_eq|cbn; apply lookup_insert_eq|apply lookup_insert_eq].
    pose proof (other_use_change h fr P C sl' c' (<[o:=sl_freelist sl]> (kh_words h)) (o :: l) D x ltac:(by exists c)) as Hoc.
    rewrite (same_shape_obj c c') by done. cbn [sl_cache sl']. rewrite Ec, not_elem_of_cons. split.
    + intros [H%Hoc|(-> & H1 & H2 & H3)]; [|tauto]. split; [by left|].
      by eapply (other_use_ne h fr P sl c D x o Hi Hsl ltac:(by rewrite Ec)).
    + intros [[H|(-> & H1 & H2)] Hne]; [left; by apply Hoc|right; tauto].
Qed.

(** ** kmalloc and kfree *)

(** The table of size classes: each entry is NULL or a cache for its size. *)
Definition kmalloc_ok h : Prop :=
  zlen (kmalloc_caches h) = KMALLOC_NUM_CACHES /\
  forall i C, zget (kmalloc_caches h) i = Some C ->
    C = 0 \/ exists c, kh_caches h !! C = Some c /\ c_obj_size c = 8 * 2 ^ i /\ c_align c = 8 * 2 ^ i.

Lemma kmalloc_ok_keeps h h' : step_keeps h h' -> kmalloc_ok h -> kmalloc_ok h'.
Proof using.
  intros [K1 K2] [H1 H2]. split; [by rewrite K2|]. intros i C. rewrite K2. intros HC.
  destruct (H2 i C HC) as [?|(c & Hc & E1 & E2)]; [by left|]. right. destruct (K1 C c Hc) as (c' & Hc' & S1 & S2 & S3).
  exists c'. by rewrite S1, S2.
Qed.

(** The smallest size class that holds [size] bytes. *)
Lemma kmalloc_cache_for_size_ok h size :
  0 < size <= KMALLOC_MAX_SIZE ->
  exists i, 0 <= i < KMALLOC_NUM_CACHES /\ size <= 8 * 2 ^ i /\ (0 < i -> 8 * 2 ^ (i - 1) < size) /\
    kmalloc_cache_for_size h size = zget (kmalloc_caches h) i.
Proof using.
  unfold KMALLOC_MAX_SIZE, KMALLOC_NUM_CACHES, kmalloc_cache_for_size. intros Hs.
  repeat match goal with |- context [size <=? ?k] => destruct (Z.leb_spec size k) end; try lia;
    [exists 0|exists 1|exists 2|exists 3|exists 4|exists 5|exists 6|exists 7|exists 8]; (split; [lia|]);
    (split; [lia|]); (split; [lia|done]).
Qed.

Lemma asz_size size align : 0 < align -> 0 <= size -> size + align < 2 ^ 64 -> (exists k, 0 <= k < 64 /\ align = 2 ^ k) ->
  size <= get_aligned_size size align.
Proof using.
  intros Ha Hs Hb (k & Hk & ->). unfold get_aligned_size. rewrite u64_small by lia.
  rewrite land_lnotw_ones; [|lia|unfold fits; lia]. destruct (Z.ltb_spec ((size + 2 ^ k - 1) - (size + 2 ^ k - 1) mod 2 ^ k) 8) as [H|H].
  all: pose proof (Z.mod_pos_bound (size + 2 ^ k - 1) (2 ^ k) ltac:(lia)); lia.
Qed.

(** kmalloc of up to 2048 bytes fails without effect or returns an object in use from then
    on, which was not before, from the smallest size class that fits; the object is at least as
    large as asked for. *)
Lemma kmalloc_small_core h fr size :
  heap_inv h fr -> kmalloc_ok h -> 0 < size <= KMALLOC_MAX_SIZE ->
  kmalloc h size = Some (0, h) \/
  exists C c o h' fr', kmalloc h size = Some (o, h') /\ heap_inv h' fr' /\ kmalloc_ok h' /\ o ≠ 0 /\
    kh_caches h !! C = Some c /\ size <= c_obj_size c /\ (KMALLOC_MIN_SIZE < c_obj_size c -> c_obj_size c < 2 * size) /\
    (exists i, 0 <= i < KMALLOC_NUM_CACHES /\ c_obj_size c = 8 * 2 ^ i /\ c_align c = 8 * 2 ^ i) /\
    (forall D, ~ in_use h fr D o) /\
    (forall D x, in_use h' fr' D x <-> in_use h fr D x \/ (D = C /\ x = o)) /\ step_keeps h h'.
Proof using KL.
  intros Hi Hk Hs. destruct (kmalloc_cache_for_size_ok h size Hs) as (i & Hi9 & Hsz & Hti & E).
  unfold kmalloc. rewrite (proj2 (Z.eqb_neq _ _)) by lia. rewrite (proj2 (Z.ltb_ge _ _)) by lia. rewrite E.
  pose proof Hk as [Hk1 Hk2]. assert (is_Some (zget (kmalloc_caches h) i)) as [C HC] by (apply zget_Some; lia).
  rewrite HC. cbn [mbind option_bind]. destruct (Hk2 i C HC) as [->|(c & Hc & E1 & E2)]; [by left|].
  assert (C ≠ 0) as HC0. { destruct (hi_cpage _ _ Hi _ _ Hc) as ((f & Hu) & _). destruct (used_frame_addr _ _ _ (hi_ok _ _ Hi) Hu) as [[_ ?] _]. lia. }
  rewrite (proj2 (Z.eqb_neq _ _) HC0).
  destruct (slab_alloc_ok_core h fr C c Hi Hc) as [?|(o & h' & fr' & H1 & H2 & H3 & H4 & H5 & H6)]; [by left|right].
  exists C, c, o, h', fr'. split_and!; try done.
  - by eapply kmalloc_ok_keeps.
  - lia.
  - rewrite E1. unfold KMALLOC_MIN_SIZE. intros H8. assert (0 < i) as Hi0 by (destruct (decide (i = 0)) as [->|]; [cbn in H8|]; lia).
    specialize (Hti Hi0). replace i with (Z.succ (i - 1)) by lia. rewrite Z.pow_succ_r; lia.
  - by exists i.
Qed.

Lemma asz_class i : 0 <= i < KMALLOC_NUM_CACHES -> get_aligned_size (8 * 2 ^ i) (8 * 2 ^ i) = 8 * 2 ^ i.
Proof using.
  unfold KMALLOC_NUM_CACHES. intros Hi.
  assert (i = 0 \/ i = 1 \/ i = 2 \/ i = 3 \/ i = 4 \/ i = 5 \/ i = 6 \/ i = 7 \/ i = 8) as H by lia.
  repeat (destruct H as [->|H]; [done|]). by subst i.
Qed.

(** The size kmalloc_aligned asks for. *)
Definition round_size (size align : Z) : Z :=
  if 8 <? align then Z.land (u64 (size + align - 1)) (lnotw 64 (align - 1)) else size.

Lemma round_size_ge size k : 0 < size -> 0 <= k < 64 -> size + 2 ^ k <= 2 ^ 64 -> 8 < 2 ^ k -> 2 ^ k <= round_size size (2 ^ k).
Proof using.
  intros Hs Hk Hb H8. unfold round_size. rewrite (proj2 (Z.ltb_lt _ _) H8). rewrite u64_small by lia.
  rewrite land_lnotw_ones; [|lia|unfold fits; lia].
  pose proof (Z.div_mod (size + 2 ^ k - 1) (2 ^ k) ltac:(lia)). pose proof (Z.mod_pos_bound (size + 2 ^ k - 1) (2 ^ k) ltac:(lia)).
  assert (1 <= (size + 2 ^ k - 1) / 2 ^ k) by (apply Z.div_le_lower_bound; lia). nia.
Qed.

(** The objects of a slab start 48 bytes into the page, so a pointer from kmalloc_aligned
    for a power of two up to 2048 is always 48 beyond a multiple of it: aligned for up to 16
    bytes, and never aligned for 32 bytes or more. *)
Theorem kmalloc_aligned_offset h fr size k o h' :
  heap_inv h fr -> kmalloc_ok h -> 0 <= k <= 11 -> 0 < size -> size + 2 ^ k <= 2 ^ 64 ->
  round_size size (2 ^ k) <= KMALLOC_MAX_SIZE -> kmalloc_aligned h size (2 ^ k) = Some (o, h') -> o ≠ 0 ->
  o mod 2 ^ k = 48 mod 2 ^ k.
Proof using KL.
  intros Hi Hk Hk11 Hs Hb Hmax E Ho. unfold kmalloc_aligned in E. fold (round_size size (2 ^ k)) in E.
  assert (0 < round_size size (2 ^ k) /\ (8 < 2 ^ k -> 2 ^ k <= round_size size (2 ^ k))) as [Hpos Hge].
  { destruct (decide (8 < 2 ^ k)) as [H8|H8].
    - pose proof (round_size_ge size k Hs ltac:(lia) Hb H8). lia.
    - split; [|lia]. unfold round_size. rewrite (proj2 (Z.ltb_ge _ _)) by lia. done. }
  destruct (kmalloc_small_core h fr _ Hi Hk (conj Hpos Hmax)) as [E'|(C & c & o' & h2 & fr' & E' & Hi' & _ & _ & HC & Hsz & _ & (i & Hi9 & E1 & E2) & _ & Hu & [K _])].
  { rewrite E' in E. by simplify_eq. }
  rewrite E' in E. injection E as <- <-.
  assert (in_use h2 fr' C o') as (P & sl & c2 & l & H1 & H2 & H3 & H4 & (j & Hj & ->) & _) by (apply Hu; by right).
  destruct (K C c HC) as (c' & HC' & S1 & S2 & _). rewrite H3 in HC'. injection HC' as ->.
  assert (asz c' = 8 * 2 ^ i) as ->. { unfold asz. rewrite S1, S2, E1, E2. by apply asz_class. }
  assert (8 * 2 ^ i = 2 ^ (i + 3 - k) * 2 ^ k) as ->.
  { rewrite <- Z.pow_add_r by (destruct (decide (k <= i + 3)); [lia|]; exfalso;
      assert (2 ^ (i + 3) < 2 ^ k) by (apply Z.pow_lt_mono_r; lia); rewrite Z.pow_add_r in *; lia).
    replace (i + 3 - k + k) with (i + 3) by lia. rewrite Z.pow_add_r; lia. }
  destruct (slab_addr _ _ _ _ Hi' H1) as [HP _]. assert (P = (P / 4096 * 2 ^ (12 - k)) * 2 ^ k) as ->.
  { rewrite <- Z.mul_assoc, <- Z.pow_add_r by lia. replace (12 - k + k) with 12 by lia. change (2 ^ 12) with 4096. divlia. }
  unfold SLAB_SIZE. rewrite Z.mul_assoc. rewrite Z.mod_add by lia. rewrite Z.add_comm, Z.mod_add by lia. done.
Qed.

(** Large requests go to the page allocator. *)
Lemma order_loop_ok n order pages :
  0 <= order -> pages <= 2 ^ (order + Z.of_nat n - 1) -> (1 <= n)%nat ->
  exists r, order_loop n order pages = Some r /\ order <= r /\ pages <= 2 ^ r /\ (order < r -> 2 ^ (r - 1) < pages).
Proof using.
  revert order. induction n as [|n IH]; intros order Ho Hp Hn; [lia|]. cbn [order_loop].
  rewrite Z.shiftl_1_l. destruct (Z.ltb_spec (2 ^ order) pages) as [H|H].
  - destruct (IH (order + 1)) as (r & E & H1 & H2 & H3); [lia|by replace (order + 1 + Z.of_nat n - 1) with (order + Z.of_nat (Datatypes.S n) - 1) by lia| |].
    + destruct n; [|lia]. replace (order + Z.of_nat 1 - 1) with order in Hp by lia. lia.
    + exists r. split; [done|]. split; [lia|]. split; [done|]. intros _. destruct (decide (r = order + 1)) as [->|Hne]; [|apply H3; lia].
      by replace (order + 1 - 1) with order by lia.
  - exists order. split_and!; [done|lia|done|lia].
Qed.

(** A request of more than 2048 bytes goes to the page allocator with the smallest order
    whose block holds it; but a size within 4095 bytes of [2 ^ 64] is rounded to zero pages, and
    kmalloc returns a single page for it. *)
Theorem kmalloc_large_order h size :
  (KMALLOC_MAX_SIZE < size <= 2 ^ 43 ->
   exists order, kmalloc h size = ('(a, s) ← simple_get_free_pages (kh_pages h) order; Some (a, with_pages_of h s)) /\
     0 <= order /\ size <= 2 ^ order * PAGE_SIZE /\ (0 < order -> 2 ^ (order - 1) * PAGE_SIZE < size)) /\
  (2 ^ 64 - 4096 < size < 2 ^ 64 ->
   kmalloc h size = ('(a, s) ← simple_get_free_pages (kh_pages h) 0; Some (a, with_pages_of h s))).
Proof using.
  unfold KMALLOC_MAX_SIZE. split; intros Hs; unfold kmalloc, KMALLOC_MAX_SIZE;
    rewrite (proj2 (Z.eqb_neq _ _)), (proj2 (Z.ltb_lt 2048 size)) by lia; change PAGE_SIZE with 4096.
  - rewrite u64_small by lia. set (pages := (size + 4096 - 1) / 4096).
    assert (4096 * (pages - 1) < size <= 4096 * pages) as Hp by (unfold pages; divlia).
    destruct (order_loop_ok 32 0 pages) as (r & -> & H1 & H2 & H3); [lia|change (2 ^ (0 + Z.of_nat 32 - 1)) with (2 ^ 31); lia|lia|].
    exists r. split; [done|]. split; [done|]. split; [lia|]. intros Hr. specialize (H3 Hr). lia.
  - replace (u64 (size + 4096 - 1)) with (size + 4095 - 2 ^ 64); [by rewrite Z.div_small by lia|].
    unfold u64, wrap. replace (size + 4096 - 1) with (size + 4095 - 2 ^ 64 + 1 * 2 ^ 64) by lia.
    rewrite Z.mod_add, Z.mod_small; lia.
Qed.

(** An object in use is found through the metadata of its page. *)
Lemma kfree_slab_free h fr C o : heap_inv h fr -> in_use h fr C o -> kfree h o = slab_free h C o.
Proof using KL.
  intros Hi (P & sl & c & l & Hsl & Ec & HC & Hfr & Hob & Hnl).
  destruct (hi_cpage _ _ Hi _ _ HC) as ((g & Hug) & _ & Hok). destruct (hi_spage _ _ Hi _ _ Hsl) as (f & Hu & Hb).
  pose proof (slab_addr _ _ _ _ Hi Hsl) as AP. pose proof (is_obj_range _ _ _ Hok Hob) as Hr.
  destruct (used_frame_addr _ _ _ (hi_ok _ _ Hi) Hug) as [[_ HC0] _].
  assert (P <= o < P + 4096) as Hr' by (unfold SLAB_SIZE, cache_ok in *; lia).
  unfold kfree. rewrite (used_frame_meta h P f o (hi_ok _ _ Hi) Hu Hr'). unfold slab_bit in Hb.
  destruct (page_at (kh_pages h) f) as [[fl od]|]; [|done]. cbn [mbind option_bind]. rewrite Hb.
  rewrite (obj_page P o AP Hr'), Hsl. cbn [mbind option_bind]. rewrite Ec, (proj2 (Z.eqb_neq _ _)) by lia. done.
Qed.

(** ** Creating caches *)

Definition new_cache (name size align : Z) : slab_cache :=
  mk_cache name size align (calc_obj_per_slab size align) [] [] [] 0 0 0 0.

(** A cache whose aligned objects fit a page beside the header is well formed. *)
Lemma new_cache_ok name size align k :
  0 <= k < 64 -> align = 2 ^ k -> 0 <= size -> size + align < 2 ^ 64 ->
  get_aligned_size size align <= PAGE_SIZE - SLAB_SIZE -> cache_ok (new_cache name size align).
Proof using.
  intros Hk Ha Hs Hb Hf. assert (size <= get_aligned_size size align) as Hsz by (apply asz_size; [lia..|by exists k]).
  unfold cache_ok, asz, new_cache, calc_obj_per_slab. cbn [c_obj_size c_align c_obj_per_slab].
  set (a := get_aligned_size size align) in *.
  assert (8 <= a) as H8. { unfold a, get_aligned_size. destruct (Z.ltb_spec (Z.land (u64 (size + align - 1)) (lnotw 64 (align - 1))) 8); lia. }
  change (PAGE_SIZE - SLAB_SIZE) with 4048 in *. unfold SLAB_SIZE.
  assert (1 <= 4048 / a) by (apply Z.div_le_lower_bound; lia). assert (4048 / a <= 4048) by (apply Z.div_le_upper_bound; nia).
  pose proof (Z.mul_div_le 4048 a ltac:(lia)). rewrite u32_small by lia. split_and!; nia.
Qed.

Lemma slab_cache_create_ok h fr name size align :
  heap_inv h fr -> cache_ok (new_cache name size (if align =? 0 then 8 else align)) ->
  slab_cache_create h name size align = Some (0, h) \/
  exists C h', slab_cache_create h name size align = Some (C, h') /\ heap_inv h' fr /\ same_use h fr h' fr /\
    kh_caches h' !! C = Some (new_cache name size (if align =? 0 then 8 else align)) /\ step_keeps h h'.
Proof using KL.
  intros Hi Hnew. unfold slab_cache_create. pose proof (hi_ok _ _ Hi) as Hpa.
  destruct (pa_get_ok _ Hpa) as [E|(f & s1 & E & Hpa1 & Hsm & Hm & Hf & Hfr)]; rewrite E; cbn [mbind option_bind].
  { left. by destruct h. }
  right. set (C := hhdm_page (kh_pages h) f) in *. destruct (fresh_page _ _ _ Hi Hf) as [HCs HCc]. fold C in HCs, HCc.
  destruct (pa_hhdm_ok _ Hpa) as (Hh & _). destruct (pa_frame_ok _ _ Hpa Hm) as [Hf0 _].
  assert (C ≠ 0) as HC0 by (unfold C, hhdm_page; lia). rewrite (proj2 (Z.eqb_neq _ _) HC0).
  fold (new_cache name size (if align =? 0 then 8 else align)). set (c := new_cache _ _ _) in *.
  assert (forall P sl, kh_slabs h !! P = Some sl -> sl_cache sl ≠ C) as HneC.
  { intros P sl HP EC. destruct (hi_slab _ _ Hi _ _ HP) as (? & ? & HH & _). rewrite EC in HH. congruence. }
  eexists C, _. split; [done|]. split; [|split; [|split; [cbn; apply lookup_insert_eq|split; [|done]]]].
  - split; cbn [kh_pages kh_slabs kh_words kh_caches with_cache_list with_caches with_pages_of].
    + done.
    + intros P sl HP. destruct (hi_slab _ _ Hi _ _ HP) as (d & l & Hd & ?). exists d, l.
      rewrite lookup_insert_ne; [done|]. intros EC. by eapply HneC.
    + intros P sl HP. destruct (hi_spage _ _ Hi _ _ HP) as (g & Hu & Hb). exists g. split.
      * eapply used_frame_same; [done| |done]. rewrite Hfr. tauto.
      * by rewrite (kp_get_slab _ _ _ Hpa E).
    + intros D d HD. destruct (decide (D = C)) as [->|Hne].
      * rewrite lookup_insert_eq in HD. injection HD as <-. split; [|done]. exists f. destruct Hsm as [E1 E2].
        unfold used_frame, C, hhdm_page. rewrite E1, Hfr. split; [done|]. split; [by apply E2|tauto].
      * rewrite lookup_insert_ne in HD by done. destruct (hi_cpage _ _ Hi _ _ HD) as ((g & Hu) & ?).
        split; [|done]. exists g. eapply used_frame_same; [done| |done]. rewrite Hfr. tauto.
    + intros D d HD. destruct (decide (D = C)) as [->|Hne].
      * rewrite lookup_insert_eq in HD. injection HD as <-. split; [constructor|]. split; [|intros P sl _; cbn; set_solver].
        intros P. cbn. split; [set_solver|]. intros (sl & HP & Ec). exfalso. by eapply HneC.
      * rewrite lookup_insert_ne in HD by done. by apply (hi_lists _ _ Hi).
  - intros D x. split; intros (P & sl & d & l & H1 & H2 & H3 & H4); cbn in *; exists P, sl, d, l; cbn;
      (rewrite lookup_insert_ne in * || rewrite lookup_insert_ne); try done; intros <-; by eapply HneC.
  - intros D d HD. cbn. rewrite lookup_insert_ne by (intros <-; congruence). by exists d.
Qed.

Lemma kmalloc_class_ok name i : 0 <= i < KMALLOC_NUM_CACHES -> cache_ok (new_cache name (8 * 2 ^ i) (8 * 2 ^ i)).
Proof using.
  unfold KMALLOC_NUM_CACHES. intros Hi. apply (new_cache_ok _ _ _ (i + 3)); [lia|rewrite Z.pow_add_r; lia| | |];
  (assert (i = 0 \/ i = 1 \/ i = 2 \/ i = 3 \/ i = 4 \/ i = 5 \/ i = 6 \/ i = 7 \/ i = 8) as H by lia;
   repeat (destruct H as [->|H]; [by vm_compute|]); subst i; by vm_compute).
Qed.

Lemma create_caches_ok n : forall i h fr,
  0 <= i -> i + Z.of_nat n = KMALLOC_NUM_CACHES -> heap_inv h fr -> kmalloc_ok h ->
  exists h', create_caches n i (8 * 2 ^ i) h = Some h' /\ heap_inv h' fr /\ kmalloc_ok h' /\ same_use h fr h' fr.
Proof using KL.
  induction n as [|n IH]; intros i h fr Hi0 Hn Hi Hk; cbn [create_caches]; [by exists h|].
  assert (8 * 2 ^ i ≠ 0) as Hnz by lia. unfold KMALLOC_NUM_CACHES in Hn.
  assert (u64 (8 * 2 ^ i * 2) = 8 * 2 ^ (i + 1)) as ->.
  { assert (2 ^ i <= 2 ^ 8) by (apply Z.pow_le_mono_r; lia). rewrite Z.pow_add_r, u64_small by lia. lia. }
  assert (exists C h1, slab_cache_create h i (8 * 2 ^ i) (8 * 2 ^ i) = Some (C, h1) /\ heap_inv h1 fr /\ same_use h fr h1 fr /\
    step_keeps h h1 /\ (C = 0 \/ exists c, kh_caches h1 !! C = Some c /\ c_obj_size c = 8 * 2 ^ i /\ c_align c = 8 * 2 ^ i))
    as (C & h1 & E & Hi1 & Hu1 & Hk1 & HC).
  { destruct (slab_cache_create_ok h fr i (8 * 2 ^ i) (8 * 2 ^ i) Hi) as [E|(C & h1 & E & Hi1 & Hu & HC & Hk1)].
    - rewrite (proj2 (Z.eqb_neq _ _) Hnz). apply kmalloc_class_ok. unfold KMALLOC_NUM_CACHES. lia.
    - exists 0, h. split_and!; [done..| |by left]. split; [apply caches_kept_refl|done].
    - rewrite (proj2 (Z.eqb_neq _ _) Hnz) in HC. exists C, h1. split_and!; [done..|]. right. by eexists. }
  rewrite E. cbn [mbind option_bind]. pose proof (kmalloc_ok_keeps _ _ Hk1 Hk) as [Hk2 Hk3].
  assert (is_Some (zset (kmalloc_caches h1) i C)) as [l El].
  { rewrite zset_zupd. apply zupd_Some. rewrite Hk2. unfold KMALLOC_NUM_CACHES. lia. }
  rewrite El. cbn [mbind option_bind]. rewrite zset_zupd in El.
  destruct (IH (i + 1) (with_kmalloc h1 l) fr) as (h' & E' & Hi' & Hk' & Hu'); [lia|unfold KMALLOC_NUM_CACHES; lia| | |].
  - by destruct Hi1.
  - split; [cbn; by rewrite (zupd_length _ _ _ _ El)|]. intros j D. cbn. rewrite (zget_zupd _ _ _ _ _ El).
    case_decide as Hj; [subst j|apply Hk3]. intros (D0 & _ & ->)%fmap_Some. exact HC.
  - exists h'. split_and!; [done..|]. intros D x. rewrite (Hu' D x). exact (Hu1 D x).
Qed.

(** The heap before kheap_init, over pages [s]. *)
Definition empty_heap (s : S) : kheap S := mk_kheap s ∅ ∅ ∅ [] (replicate 9 0) [].

Lemma kheap_init_ok s :
  pa_ok s -> exists h, kheap_init (empty_heap s) = Some h /\ heap_inv h ∅ /\ kmalloc_ok h /\ forall D x, ~ in_use h ∅ D x.
Proof using KL.
  intros Hs. destruct (create_caches_ok 9 0 (empty_heap s) ∅) as (h & E & Hi & Hk & Hu); [lia|done| | |].
  - split; [done|..]; intros ? ?; cbn; by rewrite lookup_empty.
  - split; [done|]. intros i C HC%zget_lookup. destruct HC as [_ HC]. apply lookup_replicate in HC as [-> _]. by left.
  - exists h. split_and!; [done..|]. intros D x Hx%Hu. destruct Hx as (P & sl & c & l & HP & _). cbn in HP.
    by rewrite lookup_empty in HP.
Qed.

(** ** Giving slabs back *)

(** A free list as long as the slab holds every object of it. *)
Lemma free_list_all c P sl l w o :
  cache_ok c -> slab_good w c P sl l -> sl_free sl = c_obj_per_slab c -> is_obj c P o -> o ∈ l.
Proof using.
  intros Hok HG Hf (i & Hi & ->). pose proof HG as (_ & F2 & F3 & F4 & _).
  set (os := objs (Z.to_nat (c_obj_per_slab c)) (P + SLAB_SIZE) (asz c)).
  assert (l ⊆+ os) as Hs.
  { apply NoDup_submseteq; [done|]. intros x Hx. apply objs_elem. destruct (F3 x Hx) as (j & Hj & ->). exists j. split; [lia|done]. }
  assert (l ≡ₚ os) as ->.
  { apply submseteq_length_Permutation; [done|]. unfold os. rewrite objs_length. unfold zlen in F4. lia. }
  apply objs_elem. exists i. split; [lia|done].
Qed.

(** Taking a slab off its list and out of the heap, its page going back to the page allocator. *)
Lemma drop_slab_inv h fr C c P sl f s' c' :
  heap_inv h fr -> kh_caches h !! C = Some c -> kh_slabs h !! P = Some sl -> sl_cache sl = C ->
  used_frame (kh_pages h) P f -> pa_ok s' -> same_memory (kh_pages h) s' ->
  (forall q, pa_free s' q <-> pa_free (kh_pages h) q \/ q = f) ->
  (forall q, q ≠ f -> slab_bit s' q = slab_bit (kh_pages h) q) ->
  c' = count_slabs (-1) (unlist P c) ->
  heap_inv (with_slabs (with_pages_of (with_caches h (<[C := c']> (kh_caches h))) s') (delete P (kh_slabs h))) fr.
Proof using KL.
  intros Hi HC HP Ecl Hu Hpa' Hsm Hfr Hb Ec'. assert (same_shape c c') as Hsh by (by subst c').
  assert (forall Q g, Q ≠ P -> used_frame (kh_pages h) Q g -> used_frame s' Q g /\ g ≠ f) as Hkeep.
  { intros Q g Hne Hug. assert (g ≠ f) as Hg. { intros ->. apply Hne. destruct Hu as (-> & _), Hug as (-> & _). done. }
    split; [|done]. eapply used_frame_same; [done| |done]. rewrite Hfr. tauto. }
  assert (forall D d, <[C := c']> (kh_caches h) !! D = Some d -> exists d0, kh_caches h !! D = Some d0 /\ same_shape d0 d) as Hc0.
  { intros D d HD. destruct (decide (D = C)) as [->|Hne].
    - rewrite lookup_insert_eq in HD. injection HD as <-. by exists c.
    - rewrite lookup_insert_ne in HD by done. by exists d. }
  split; cbn [kh_pages kh_slabs kh_words kh_caches with_caches with_pages_of with_slabs].
  - done.
  - intros Q slq [Hne HQ]%lookup_delete_Some. destruct (hi_slab _ _ Hi _ _ HQ) as (cq & lq & HCq & Hfq & HG).
    destruct (decide (sl_cache slq = C)) as [E|E].
    + rewrite E, lookup_insert_eq. rewrite E, HC in HCq. injection HCq as <-.
      exists c', lq. split; [done|]. split; [done|]. by eapply slab_good_shape.
    + rewrite lookup_insert_ne by congruence. by exists cq, lq.
  - intros Q slq [Hne HQ]%lookup_delete_Some. destruct (hi_spage _ _ Hi _ _ HQ) as (g & Hug & Hbg).
    destruct (Hkeep Q g ltac:(congruence) Hug) as [Hug' Hgf]. exists g. by rewrite Hb.
  - intros D d HD. destruct (Hc0 D d HD) as (d0 & HD0 & Hs0).
    destruct (hi_cpage _ _ Hi _ _ HD0) as ((g & Hug) & Hn & Hok).
    split; [exists g; apply Hkeep; [intros ->; congruence|done]|]. split; [|by eapply same_shape_ok].
    apply lookup_delete_None. by right.
  - intros D d HD. destruct (decide (D = C)) as [->|Hne].
    + rewrite lookup_insert_eq in HD. injection HD as <-. destruct (hi_lists _ _ Hi _ _ HC) as (L1 & L2 & L3).
      assert (all_slabs c' = filter (fun x => x ≠ P) (all_slabs c)) as Ha by (subst c'; exact (unlist_all P c)).
      split; [rewrite Ha; by apply NoDup_filter|]. split.
      * intros Q. rewrite Ha, list_elem_of_filter, L2. setoid_rewrite lookup_delete_Some. naive_solver.
      * intros Q slq [_ HQ]%lookup_delete_Some. destruct (L3 _ _ HQ) as (M1 & M2 & M3). subst c'. cbn.
        rewrite !list_elem_of_filter. tauto.
    + rewrite lookup_insert_ne in HD by done. destruct (hi_lists _ _ Hi _ _ HD) as (L1 & L2 & L3).
      split; [done|]. split; [|intros Q slq [_ HQ]%lookup_delete_Some; by apply L3].
      intros Q. rewrite L2. setoid_rewrite lookup_delete_Some. split; intros (x & H1 & H2); [|naive_solver].
      exists x. split; [split; [|done]|done]. intros <-. congruence.
Qed.

(** One turn of the loops over slabs, for a slab with no object in use. *)
Lemma free_slab_ok h fr C c P :
  heap_inv h fr -> kh_caches h !! C = Some c -> P ∈ slabs_free c ->
  exists h' c' f, (h1 ← upd_cache C (unlist P) h; slab_free_slab h1 P) = Some h' /\ heap_inv h' fr /\
    same_use h fr h' fr /\ step_keeps h h' /\ kh_caches h' !! C = Some c' /\
    slabs_free c' = filter (fun x => x ≠ P) (slabs_free c) /\
    P = hhdm_page (kh_pages h) f /\ same_memory (kh_pages h) (kh_pages h') /\
    (forall q, pa_free (kh_pages h') q <-> pa_free (kh_pages h) q \/ q = f).
Proof using KL.
  intros Hi HC HP. destruct (hi_lists _ _ Hi _ _ HC) as (L1 & L2 & L3).
  destruct (proj1 (L2 P)) as (sl & Hsl & Ec); [unfold all_slabs; set_solver|].
  destruct (hi_slab _ _ Hi _ _ Hsl) as (c0 & l & HC0 & Hfr & HG). rewrite Ec, HC in HC0. injection HC0 as <-.
  destruct (L3 _ _ Hsl) as (_ & _ & Hall). specialize (Hall HP). destruct (hi_cpage _ _ Hi _ _ HC) as (_ & _ & Hok).
  destruct (hi_spage _ _ Hi _ _ Hsl) as (f & Hu & Hbf). pose proof (hi_ok _ _ Hi) as Hpa.
  unfold upd_cache at 1. rewrite HC. cbn [mbind option_bind]. unfold slab_free_slab. cbn [kh_slabs with_caches].
  rewrite Hsl. cbn [mbind option_bind]. set (h1 := with_caches h _).
  pose proof (used_frame_addr _ _ _ Hpa Hu) as [[_ HP0] _]. rewrite (used_frame_meta h1 P f P Hpa Hu) by lia.
  destruct (kp_clear_ok (kh_pages h) f Hpa (proj1 (proj2 Hu)) (proj2 (proj2 Hu))) as (s2 & Es & Hpa2 & Hsm2 & Hfr2 & Hb2).
  change (kh_pages h1) with (kh_pages h). rewrite Es. cbn [mbind option_bind]. unfold upd_cache.
  cbn [kh_caches h1 with_pages_of with_caches]. rewrite Ec, lookup_insert_eq. cbn [mbind option_bind kh_pages with_caches with_pages_of].
  assert (P = hhdm_page s2 f) as EP. { destruct Hu as (-> & _). unfold hhdm_page. by destruct Hsm2 as [-> _]. }
  destruct (pa_put_ok s2 f Hpa2) as (s3 & E3 & Hpa3 & Hsm3 & Hfr3); [apply Hsm2, Hu|rewrite Hfr2; apply Hu|].
  rewrite <- EP in E3. rewrite E3. cbn [mbind option_bind]. rewrite insert_insert_eq. set (c' := count_slabs (-1) (unlist P c)).
  assert (same_memory (kh_pages h) s3) as Hsm. { destruct Hsm2 as [A1 A2], Hsm3 as [B1 B2]. split; [congruence|]. intros q. by rewrite B2. }
  assert (forall q, pa_free s3 q <-> pa_free (kh_pages h) q \/ q = f) as Hff. { intros q. by rewrite Hfr3, Hfr2. }
  eexists _, c', f. split; [done|]. split; [|split; [|split; [split; [|done]|split; [cbn; by rewrite lookup_insert_eq|split; [done|split; [apply Hu|done]]]]]].
  - eapply (drop_slab_inv h fr C c P sl f s3 c'); try done.
    intros q Hq. rewrite (kp_put_slab _ _ _ Hpa2 E3), Hb2, decide_False by done. done.
  - intros D x. split; intros (Q & slq & d & lq & H1 & H2 & H3 & H4 & H5 & H6); cbn in *.
    + apply lookup_delete_Some in H1 as [Hne H1]. destruct (decide (D = C)) as [->|HneD].
      * rewrite lookup_insert_eq in H3. injection H3 as <-. exists Q, slq, c, lq. by split_and!.
      * rewrite lookup_insert_ne in H3 by done. exists Q, slq, d, lq. by split_and!.
    + assert (Q ≠ P) as Hne.
      { intros ->. rewrite Hsl in H1. injection H1 as <-. rewrite Hfr in H4. injection H4 as <-.
        rewrite <- H2, Ec, HC in H3. injection H3 as <-. apply H6. by eapply free_list_all. }
      destruct (decide (D = C)) as [->|HneD].
      * rewrite HC in H3. injection H3 as <-. exists Q, slq, c', lq. cbn. rewrite lookup_insert_eq, lookup_delete_ne by done. by split_and!.
      * exists Q, slq, d, lq. cbn. rewrite lookup_insert_ne, lookup_delete_ne by done. by split_and!.
  - by eapply (caches_kept_insert _ _ C c c').
Qed.

Lemma free_slabs_ok l : forall h fr C c,
  heap_inv h fr -> kh_caches h !! C = Some c -> slabs_free c = l ->
  exists h' c', free_slabs l C h = Some h' /\ heap_inv h' fr /\ same_use h fr h' fr /\ step_keeps h h' /\
    kh_caches h' !! C = Some c' /\ slabs_free c' = [] /\
    (forall q, pa_free (kh_pages h') q <-> pa_free (kh_pages h) q \/ hhdm_page (kh_pages h) q ∈ l).
Proof using KL.
  induction l as [|P l IH]; intros h fr C c Hi HC El; cbn [free_slabs].
  { exists h, c. split_and!; [done..| |done|done|]. { split; [apply caches_kept_refl|done]. } set_solver. }
  destruct (free_slab_ok h fr C c P Hi HC) as (h1 & c1 & f & E & Hi1 & Hu1 & Hk1 & HC1 & El1 & EP & [Hh1 _] & Hf1); [rewrite El; left|].
  assert (filter (fun x => x ≠ P) (P :: l) = l) as Efl.
  { destruct (hi_lists _ _ Hi _ _ HC) as (L1 & _ & _). unfold all_slabs in L1. rewrite El in L1.
    apply NoDup_app in L1 as (_ & _ & L1). apply NoDup_app in L1 as (_ & _ & L1). apply NoDup_cons in L1 as [Hn _].
    rewrite filter_cons_False by tauto. by apply filter_ne_id. }
  destruct (IH h1 fr C c1 Hi1 HC1) as (h' & c' & E' & Hi' & Hu' & Hk' & HC' & El' & Hf'); [by rewrite El1, El|].
  exists h', c'. split_and!; [|done|intros D x; rewrite (Hu' D x); apply Hu1| |done|done|].
  - destruct (upd_cache C (unlist P) h) as [h0|]; [|done]. cbn [mbind option_bind] in *. by rewrite E.
  - destruct Hk1 as [A1 A2], Hk' as [B1 B2]. split; [by eapply caches_kept_trans|congruence].
  - intros q. rewrite Hf', Hf1, elem_of_cons. assert (hhdm_page (kh_pages h1) q = hhdm_page (kh_pages h) q) as ->.
    { unfold hhdm_page. by rewrite Hh1. }
    split; [intros [ [?| -> ] |?]; [by left|right; by left|by right; right]|].
    intros [?|[EQ|?]]; [by left; left| |by right]. left. right. rewrite EP in EQ. by apply hhdm_page_inj in EQ.
Qed.

(** slab_cache_shrink gives the pages of the cache's completely free slabs, and no others,
    back to the page allocator; no object in use is affected. *)
Theorem slab_cache_shrink_ok h fr C c :
  heap_inv h fr -> kh_caches h !! C = Some c ->
  exists h' c', slab_cache_shrink h C = Some h' /\ heap_inv h' fr /\ same_use h fr h' fr /\ step_keeps h h' /\
    kh_caches h' !! C = Some c' /\ slabs_free c' = [] /\
    (forall q, pa_free (kh_pages h') q <-> pa_free (kh_pages h) q \/ hhdm_page (kh_pages h) q ∈ slabs_free c).
Proof using KL. intros Hi HC. unfold slab_cache_shrink. rewrite HC. cbn [mbind option_bind]. by apply (free_slabs_ok (slabs_free c) h fr C c). Qed.

(** ** Histories of kernel allocations *)

Inductive kop := Kmalloc (size : Z) | Kfree (ptr : Z) | Shrink (cache : Z).

(** The heap with the regions its users hold: pointer and size asked for. *)
Definition kstate : Type := kheap S * list (Z * Z).

Definition kstep (op : kop) (s : kstate) : option kstate :=
  let '(h, held) := s in
  match op with
  | Kmalloc n => '(p, h) ← kmalloc h n; Some (h, if p =? 0 then held else (p, n) :: held)
  | Kfree p => h ← kfree h p; Some (h, drop_held p held)
  | Shrink C => h ← slab_cache_shrink h C; Some (h, held)
  end.

Fixpoint krun (ops : list kop) (s : kstate) : option kstate :=
  match ops with [] => Some s | op :: ops' => s ← kstep op s; krun ops' s end.

(** Requests are for up to 2048 bytes, only held regions are freed, only caches shrunk. *)
Definition kop_ok (op : kop) (s : kstate) : Prop :=
  match op with
  | Kmalloc n => 0 < n <= KMALLOC_MAX_SIZE
  | Kfree p => p ∈ s.2.*1
  | Shrink C => is_Some (kh_caches s.1 !! C)
  end.

Fixpoint krun_ok (ops : list kop) (s : kstate) : Prop :=
  match ops with
  | [] => True
  | op :: ops' => kop_ok op s /\ forall s', kstep op s = Some s' -> krun_ok ops' s'
  end.

Definition region_ok h fr (p n : Z) : Prop :=
  exists C c, in_use h fr C p /\ kh_caches h !! C = Some c /\ 0 < n <= c_obj_size c.

Definition kinv (s : kstate) : Prop :=
  exists fr, heap_inv s.1 fr /\ kmalloc_ok s.1 /\ NoDup s.2.*1 /\ forall p n, (p, n) ∈ s.2 -> region_ok s.1 fr p n.

Lemma region_ok_keeps h fr h' fr' p n :
  step_keeps h h' -> (forall C, in_use h fr C p -> in_use h' fr' C p) -> region_ok h fr p n -> region_ok h' fr' p n.
Proof using.
  intros [K _] Hu (C & c & H1 & H2 & H3). destruct (K C c H2) as (c' & H2' & E & _).
  exists C, c'. split; [by apply Hu|]. by rewrite E.
Qed.

Lemma kstep_ok op s : kinv s -> kop_ok op s -> exists s', kstep op s = Some s' /\ kinv s'.
Proof using KL.
  destruct s as [h held]. intros (fr & Hi & Hk & Hnd & Hh) Hop. cbn [fst snd] in *. destruct op as [n|p|C]; cbn [kstep kop_ok fst snd] in *.
  - destruct (kmalloc_small_core h fr n Hi Hk Hop) as [E|(C & c & o & h' & fr' & E & Hi' & Hk' & Ho & HC & Hs & _ & _ & Hn & Hu & Hst)];
      rewrite E; cbn [mbind option_bind]; eexists; (split; [done|]); cbn [Z.eqb]; [by exists fr|].
    rewrite (proj2 (Z.eqb_neq _ _) Ho). exists fr'. cbn [fst snd]. split; [done|]. split; [done|]. split.
    + rewrite fmap_cons. constructor; [|done]. intros ([q m] & E' & Hin)%list_elem_of_fmap. cbn in E'. subst q.
      destruct (Hh o m Hin) as (D & d & HD & _). by apply (Hn D).
    + intros q m [[= -> ->]|Hin]%elem_of_cons.
      * destruct Hst as [K _]. destruct (K C c HC) as (c' & HC' & Ec & _). exists C, c'. split; [apply Hu; by right|].
        rewrite Ec. split; [done|lia].
      * eapply region_ok_keeps; [done| |by apply Hh]. intros D HD. apply Hu. by left.
  - apply list_elem_of_fmap in Hop as ([q m] & E' & Hin). cbn in E'. subst q. destruct (Hh p m Hin) as (C & c & HC & _).
    rewrite (kfree_slab_free h fr C p Hi HC). destruct (slab_free_core h fr C p Hi HC) as (h' & fr' & E & Hi' & Hst & Hu).
    rewrite E. cbn [mbind option_bind]. eexists. split; [done|]. exists fr'. cbn [fst snd]. split; [done|].
    split; [by eapply kmalloc_ok_keeps|]. split; [by apply drop_held_nodup|].
    intros q k [Hq Hne]%drop_held_elem. eapply region_ok_keeps; [done| |by apply Hh]. intros D HD. by apply Hu.
  - destruct Hop as [c HC]. destruct (free_slabs_ok (slabs_free c) h fr C c Hi HC eq_refl) as (h' & c' & E & Hi' & Hu & Hst & _).
    unfold slab_cache_shrink. rewrite HC. cbn [mbind option_bind]. rewrite E. cbn [mbind option_bind].
    eexists. split; [done|]. exists fr. cbn [fst snd]. split; [done|]. split; [by eapply kmalloc_ok_keeps|].
    split; [done|]. intros q k Hq. eapply region_ok_keeps; [done| |by apply Hh]. intros D. apply Hu.
Qed.

Lemma krun_inv ops s : kinv s -> krun_ok ops s -> exists s', krun ops s = Some s' /\ kinv s'.
Proof using KL.
  revert s. induction ops as [|op ops IH]; intros s Hi Hr; cbn [krun krun_ok] in *; [by exists s|].
  destruct Hr as [Hop Hr]. destruct (kstep_ok op s Hi Hop) as (s' & E & Hi'). rewrite E.
  cbn [mbind option_bind]. apply IH; [done|]. by apply Hr.
Qed.

Lemma held_regions_apart h fr held :
  heap_inv h fr -> NoDup held.*1 -> (forall p n, (p, n) ∈ held -> region_ok h fr p n) -> ForallOrdPairs no_overlap held.
Proof using KL.
  intros Hi. induction held as [|[p n] held IH]; intros Hnd Hh; [constructor|].
  rewrite fmap_cons in Hnd. apply NoDup_cons in Hnd as [Hp Hnd].
  constructor; [|apply IH; [done|]; intros; apply Hh; by right].
  apply Forall_forall. intros [q m] Hq. destruct (Hh p n ltac:(left)) as (C & c & H1 & H2 & H3).
  destruct (Hh q m ltac:(by right)) as (D & d & G1 & G2 & G3).
  destruct (hi_cpage _ _ Hi _ _ H2) as (_ & _ & Hok). destruct (hi_cpage _ _ Hi _ _ G2) as (_ & _ & Hokd).
  unfold no_overlap, cache_ok in *. cbn [fst snd] in *.
  destruct (in_use_apart h fr C D p q c d Hi H1 G1 H2 G2) as [[_ ->]|[?|?]]; [|lia..].
  exfalso. apply Hp. apply list_elem_of_fmap. by exists (q, m).
Qed.

(** Some slab's page holds the region, behind the header. *)
Definition in_slab h (x : Z * Z) : Prop :=
  exists P sl, kh_slabs h !! P = Some sl /\ P + SLAB_SIZE <= x.1 /\ x.1 + x.2 <= P + PAGE_SIZE.

Lemma region_in_slab h fr p n : heap_inv h fr -> region_ok h fr p n -> in_slab h (p, n).
Proof using KL.
  intros Hi (C & c & (P & sl & c0 & l & H1 & H2 & H3 & H4 & H5 & H6) & HC & Hn).
  rewrite H3 in HC. injection HC as ->. destruct (hi_cpage _ _ Hi _ _ H3) as (_ & _ & Hok).
  apply (is_obj_range _ _ _ Hok) in H5. exists P, sl. cbn [fst snd]. split; [done|].
  change PAGE_SIZE with 4096. unfold cache_ok in Hok. lia.
Qed.

(** C33.  From kheap_init on, whatever sequence of kmalloc (of up to 2048 bytes), kfree of held
    pointers and shrinking of caches the kernel runs: every call completes on valid slabs, and
    the regions held are pairwise disjoint, each of the size asked for and inside the page of a
    slab, behind its header. *)
Theorem kheap_history_safe s ops :
  pa_ok s ->
  (forall h, kheap_init (empty_heap s) = Some h -> krun_ok ops (h, [])) ->
  exists h h' held, kheap_init (empty_heap s) = Some h /\ krun ops (h, []) = Some (h', held) /\
    ForallOrdPairs no_overlap held /\ Forall (in_slab h') held.
Proof using KL.
  intros Hs Hr. destruct (kheap_init_ok s Hs) as (h & E & Hi & Hk & _).
  destruct (krun_inv ops (h, [])) as ([h' held] & E' & fr & Hi' & _ & Hnd & Hh); [|by apply Hr|].
  { exists ∅. split_and!; [done|done|constructor|]. intros p n Hin. by apply not_elem_of_nil in Hin. }
  exists h, h', held. split; [done|]. split; [done|]. split; [by eapply held_regions_apart|].
  apply Forall_forall. intros [p n] Hin. eapply region_in_slab; [done|]. by apply Hh.
Qed.

End spec.
