(* ===== verification/SlabPmm.v ===== *)
(** * The kernel heap over the physical memory manager

    The page allocator and page array that slab.c uses are Pmm.v's: allocation and freeing of
    pages leave the slab mark of every page alone, and setting the mark leaves the free lists
    alone, so the laws the slab allocator relies on hold.  The theorems about slab.c are
    witnessed on a machine of 64 free page frames. *)
From S2P Require Import Prelude Defs Buddy Pmm Paging PagingPmm Slab SlabInv SlabSpec.

(** ** The slab mark *)

Definition slab_mark (pa : list page) (f : Z) : bool :=
  match zget pa f with Some g => page_has PG_SLAB g | None => false end.

(** No page's slab mark differs. *)
Definition keeps_slab (pa pa' : list page) : Prop := forall f, slab_mark pa' f = slab_mark pa f.

Lemma keeps_slab_refl pa : keeps_slab pa pa.
Proof. done. Qed.

Lemma keeps_slab_trans pa1 pa2 pa3 : keeps_slab pa1 pa2 -> keeps_slab pa2 pa3 -> keeps_slab pa1 pa3.
Proof. intros H1 H2 f. by rewrite H2, H1. Qed.

Definition mark_free (fn : page -> page) : Prop := forall g, page_has PG_SLAB (fn g) = page_has PG_SLAB g.

Lemma keeps_slab_upd pa p fn pa' : zupd pa p fn = Some pa' -> mark_free fn -> keeps_slab pa pa'.
Proof.
  intros E Hf f. unfold slab_mark. rewrite (zget_zupd _ _ _ _ _ E). case_decide; [|done].
  destruct (zget pa f); cbn [fmap option_fmap option_map]; [apply Hf|done].
Qed.

Lemma mark_set fl : ztrue (Z.land fl PG_SLAB) = false -> mark_free (page_set_flag fl).
Proof. intros H g. unfold PG_SLAB in *. by rewrite set_flag_has, H, orb_false_r. Qed.

Lemma mark_clear fl : 0 <= fl -> ztrue (Z.land fl PG_SLAB) = false -> mark_free (page_clear_flag fl).
Proof.
  intros H0 H g. unfold PG_SLAB in *. rewrite ztrue_land_bit in H by lia. rewrite !page_has_bit by lia.
  unfold page_clear_flag. cbn [pg_flags]. rewrite Z.land_spec, lnotw_testbit by lia. rewrite H. apply andb_true_r.
Qed.

Lemma mark_set_order o fn : mark_free fn -> mark_free (fun p => fn (page_set_order o p)).
Proof. intros H g. by rewrite H. Qed.

Lemma add_area_mark pa z p a o pa' z' : add_to_free_area pa z p a o = Some (pa', z') -> keeps_slab pa pa'.
Proof.
  unfold add_to_free_area. destruct (linked z p); [done|]. intros E. inv_bind E. injection E as <- <-.
  eapply keeps_slab_upd; [done|]. apply (mark_set_order o (page_set_flag PG_BUDDY)). by apply mark_set.
Qed.

Lemma remove_area_mark pa z p a pa' z' : remove_from_free_area pa z p a = Some (pa', z') -> keeps_slab pa pa'.
Proof.
  unfold remove_from_free_area. intros E. inv_bind E. case_decide; [|done]. inv_bind E. injection E as <- <-.
  eapply keeps_slab_upd; [done|]. by apply mark_clear.
Qed.

Lemma expand_loop_mark n : forall pa z p size high pa' z',
  expand_loop n pa z p size high = Some (pa', z') -> keeps_slab pa pa'.
Proof.
  induction n as [|n IH]; intros pa z p size high pa' z' E; cbn [expand_loop] in E; [by injection E as <- <-|].
  destruct (add_to_free_area _ _ _ _ _) as [[pa1 z1]|] eqn:E1; cbn [mbind option_bind] in E; [|done].
  eapply keeps_slab_trans; [by eapply add_area_mark|by eapply IH].
Qed.

Lemma alloc_scan_mark n : forall pa z o c pg pa' z',
  alloc_scan n pa z o c = Some (pg, pa', z') -> keeps_slab pa pa'.
Proof.
  induction n as [|n IH]; intros pa z o c pg pa' z' E; cbn [alloc_scan] in E; [by injection E as <- <- <-|].
  destruct (zget (areas z) c) as [a|]; cbn [mbind option_bind] in E; [|done].
  destruct (free_list a) as [|q l]; [by eapply IH|].
  destruct (remove_from_free_area pa z q c) as [[pa1 z1]|] eqn:E1; cbn [mbind option_bind] in E; [|done].
  apply remove_area_mark in E1. destruct (o <? c).
  - destruct (expand pa1 z1 q o c) as [[pa2 z2]|] eqn:E2; cbn [mbind option_bind] in E; [|done].
    injection E as <- <- <-. apply expand_loop_mark in E2. by eapply keeps_slab_trans.
  - cbn [mbind option_bind] in E. by injection E as <- <- <-.
Qed.

Lemma buddy_alloc_mark pa z o pg pa' z' : buddy_alloc_pages pa z o = Some (pg, pa', z') -> keeps_slab pa pa'.
Proof. unfold buddy_alloc_pages. destruct (MAX_ORDER <=? o); [by intros [= <- <- <-]|apply alloc_scan_mark]. Qed.

Lemma coalesce_mark n : forall pa z p o pa' z' p' o',
  coalesce n pa z p o = Some (pa', z', p', o') -> keeps_slab pa pa'.
Proof.
  induction n as [|n IH]; intros pa z p o pa' z' p' o' E; cbn [coalesce] in E; [by injection E as <- <- <- <-|].
  destruct (page_is_buddy z pa (buddy_pfn p o) o) as [[]|]; cbn [mbind option_bind] in E; [|by injection E as <- <- <- <-|done].
  destruct (remove_from_free_area _ _ _ _) as [[pa1 z1]|] eqn:E1; cbn [mbind option_bind] in E; [|done].
  eapply keeps_slab_trans; [by eapply remove_area_mark|by eapply IH].
Qed.

Lemma buddy_free_mark pa z p o pa' z' : buddy_free_pages pa z p o = Some (pa', z') -> keeps_slab pa pa'.
Proof.
  unfold buddy_free_pages. destruct (MAX_ORDER <=? o); [by intros [= <- <-]|].
  destruct (coalesce _ _ _ _ _) as [[[[pa1 z1] p1] o1]|] eqn:E1; cbn [mbind option_bind]; [|done].
  destruct (add_to_free_area _ _ _ _ _) as [[pa2 z2]|] eqn:E2; cbn [mbind option_bind]; [|done].
  intros [= <- <-]. eapply keeps_slab_trans; [by eapply coalesce_mark|by eapply add_area_mark].
Qed.

Lemma try_zones_mark n : forall st o pg st',
  try_zones n st o = Some (pg, st') -> keeps_slab (page_array st) (page_array st').
Proof.
  induction n as [|n IH]; intros st o pg st' E; cbn [try_zones] in E; [by injection E as <- <-|].
  destruct (zget (zones st) (Z.of_nat n)) as [z|]; cbn [mbind option_bind] in E; [|done].
  destruct (free_pages z <? Z.shiftl 1 o); [by eapply IH|].
  destruct (buddy_alloc_pages _ _ _) as [[[q pa1] z1]|] eqn:E1; cbn [mbind option_bind] in E; [|done].
  destruct (zset _ _ _) as [zs|]; cbn [mbind option_bind] in E; [|done]. apply buddy_alloc_mark in E1.
  destruct q; [by injection E as <- <-|]. apply IH in E. by eapply keeps_slab_trans.
Qed.

Lemma get_page_mark s a s' :
  Pmm.simple_get_free_page s = Some (a, s') -> keeps_slab (page_array s) (page_array s').
Proof.
  unfold Pmm.simple_get_free_page, get_free_page, get_free_pages, alloc_pages.
  destruct (initialized s); cbn [negb mbind option_bind]; [|by intros [= <- <-]].
  destruct (try_zones _ _ _) as [[pg s1]|] eqn:E1; cbn [mbind option_bind]; [|done]. apply try_zones_mark in E1.
  destruct pg as [p|]; cbn [mbind option_bind]; [|by intros [= <- <-]].
  destruct (zupd _ p _) as [pa1|] eqn:E2; cbn [mbind option_bind]; [|done].
  change (ztrue (Z.land GFP_KERNEL GFP_KERNEL)) with false. cbn [mbind option_bind].
  intros [= _ <-]. refine (keeps_slab_trans _ _ pa1 E1 _). eapply keeps_slab_upd; [done|]. by apply mark_clear.
Qed.

Lemma put_page_mark s a s' :
  Pmm.simple_free_page s a = Some s' -> keeps_slab (page_array s) (page_array s').
Proof.
  unfold Pmm.simple_free_page, pmm_free_page, pmm_free_block. destruct (a =? 0); [by intros [= <-]|].
  destruct (virt_to_page s a) as [p|]; [|by intros [= <-]]. destruct (initialized s); cbn [negb]; [|by intros [= <-]].
  destruct (zget (page_array s) p) as [g|]; cbn [mbind option_bind]; [|done].
  destruct (zget (zones s) _) as [z|]; cbn [mbind option_bind Z.ltb Z.compare]; [|done].
  destruct (zupd _ p _) as [pa1|] eqn:E2; cbn [mbind option_bind]; [|done].
  destruct (buddy_free_pages _ _ _ _) as [[pa2 z2]|] eqn:E3; cbn [mbind option_bind]; [|done].
  destruct (zset _ _ _); cbn [mbind option_bind]; [|done]. intros [= <-].
  eapply keeps_slab_trans; [|by eapply buddy_free_mark]. eapply keeps_slab_upd; [done|]. by apply mark_clear.
Qed.

(** ** The interface *)

Definition on_page (s : pmm_state) (f : Z) (fn : page -> page) : option pmm_state :=
  pa ← zupd (page_array s) f fn; Some (with_pages s pa).

#[export] Instance pmm_kernel_pages : KernelPages pmm_state := {|
  kp_alloc := pmm_allocator;
  Slab.simple_get_free_pages := Pmm.simple_get_free_pages;
  Slab.simple_free_pages := Pmm.simple_free_pages;
  page_at := fun s f => g ← zget (page_array s) f; Some (pg_flags g, pg_order g);
  page_flag_set := fun s f flag => on_page s f (page_set_flag flag);
  page_flag_clear := fun s f flag => on_page s f (page_clear_flag flag)
|}.

Lemma slab_bit_mark s f : slab_bit s f = slab_mark (page_array s) f.
Proof. unfold slab_bit, slab_mark. cbn. by destruct (zget (page_array s) f). Qed.

(** Rewriting the metadata of a page in use. *)
Lemma on_page_ok s f fn :
  machine_ok s -> frame_managed s f -> ~ pmm_free_at s f -> (forall g, pg_zone_id (fn g) = pg_zone_id g) ->
  (forall g, page_has PG_BUDDY g = false -> page_has PG_BUDDY (fn g) = false) ->
  exists s', on_page s f fn = Some s' /\ machine_ok s' /\ same_memory s s' /\
    (forall q, pmm_free_at s' q <-> pmm_free_at s q) /\
    forall q, slab_mark (page_array s') q = if decide (q = f) then from_option (fun g => page_has PG_SLAB (fn g)) false (zget (page_array s) f) else slab_mark (page_array s) q.
Proof.
  intros Hok [Hf Hcov] Hn Hz Hb. pose proof Hok as [Hinv Hini Hh Ht Hp Hc].
  destruct (zupd_Some (page_array s) f fn) as [pa E]; [rewrite <- (pi_pfns _ Hinv); lia|].
  exists (with_pages s pa). unfold on_page. rewrite E. split; [done|].
  assert (forall q, frame_managed (with_pages s pa) q <-> frame_managed s q) as Hms by done.
  assert (machine_ok (with_pages s pa)) as Hok'.
  { split; [|done..]. eapply (quiet_step_inv s Hinv pa f (f + 1)).
    - eapply quiet_upd; [done|lia|done|done].
    - intros q Hq. by replace q with f by lia. }
  split; [done|]. split; [done|]. split; [done|]. intros q. unfold slab_mark at 1. cbn [page_array with_pages].
  rewrite (zget_zupd _ _ _ _ _ E). case_decide as Hq; [subst q|done]. by destruct (zget (page_array s) f).
Qed.

#[export] Instance pmm_kernel_pages_laws : KernelPagesLaws pmm_state.
Proof.
  assert (forall s f, machine_ok s -> frame_managed s f -> is_Some (zget (page_array s) f)) as Hget.
  { intros s f Hok [Hf _]. apply zget_Some. rewrite <- (pi_pfns _ (mo_inv _ Hok)). lia. }
  split.
  - apply pmm_allocator_laws.
  - intros s f Hok Hm. cbn. destruct (Hget s f Hok Hm) as [g ->]. by eexists.
  - intros s a s' _ E f. rewrite !slab_bit_mark. by apply (get_page_mark s a s').
  - intros s a s' _ E f. rewrite !slab_bit_mark. by apply (put_page_mark s a s').
  - intros s f Hok Hm Hn. destruct (on_page_ok s f (page_set_flag PG_SLAB) Hok Hm Hn) as (s' & E & H1 & H2 & H3 & H4); [done| |].
    + intros g Hg. unfold PG_BUDDY in *. by rewrite set_flag_has, Hg.
    + exists s'. split_and!; [done..|]. intros q. rewrite !slab_bit_mark, H4. case_decide; [|done].
      destruct (Hget s f Hok Hm) as [g ->]. cbn. unfold PG_SLAB. rewrite set_flag_has. apply orb_true_r.
  - intros s f Hok Hm Hn. destruct (on_page_ok s f (page_clear_flag PG_SLAB) Hok Hm Hn) as (s' & E & H1 & H2 & H3 & H4); [done| |].
    + intros g Hg. unfold PG_BUDDY in *. by apply clear_flag_has.
    + exists s'. split_and!; [done..|]. intros q. rewrite !slab_bit_mark, H4. case_decide; [|done].
      destruct (Hget s f Hok Hm) as [g ->]. cbn. unfold PG_SLAB. rewrite page_has_bit by lia.
      unfold page_clear_flag. cbn [pg_flags]. rewrite Z.land_spec, lnotw_testbit, pow2_testbit by lia. apply andb_false_r.
Qed.

(** ** Witnesses *)

Section checks.
Context {S : Type} `{KP : KernelPages S}.

Definition kop_okb (op : kop) (s : kstate (S := S)) : bool :=
  match op with
  | Kmalloc n => (0 <? n) && (n <=? KMALLOC_MAX_SIZE)
  | Kfree p => bool_decide (p ∈ s.2.*1)
  | Shrink C => bool_decide (is_Some (kh_caches s.1 !! C))
  end.

Fixpoint krun_okb (ops : list kop) (s : kstate (S := S)) : bool :=
  match ops with
  | [] => true
  | op :: ops' => kop_okb op s && match kstep op s with Some s' => krun_okb ops' s' | None => true end
  end.

Lemma krun_okb_ok ops s : krun_okb ops s = true -> krun_ok ops s.
Proof using.
  revert s. induction ops as [|op ops IH]; intros s H; cbn [krun_okb krun_ok] in *; [done|].
  apply andb_true_iff in H as [Hop Hr]. split.
  - destruct op; cbn [kop_okb kop_ok] in *; [|by apply bool_decide_eq_true in Hop..].
    apply andb_true_iff in Hop as [?%Z.ltb_lt ?%Z.leb_le]. lia.
  - intros s' E. rewrite E in Hr. by apply IH.
Qed.
End checks.

Definition ex_kops : list kop :=
  [Kmalloc 100; Kmalloc 100; Kfree 18446603336221233200; Kmalloc 2048; Kfree 18446603336221233328;
   Shrink 18446603336221212672; Kmalloc 8].

Lemma kheap_history_safe_witness :
  exists h h' held, kheap_init (empty_heap ex_full) = Some h /\ krun ex_kops (h, []) = Some (h', held) /\
    ForallOrdPairs no_overlap held /\ Forall (in_slab h') held.
Proof.
  apply (kheap_history_safe (KP := pmm_kernel_pages) ex_full ex_kops ex_machine). intros h E. apply krun_okb_ok.
  assert (match kheap_init (empty_heap ex_full) with Some h => krun_okb ex_kops (h, []) | None => false end = true) as H
    by (vm_compute; reflexivity).
  rewrite E in H. exact H.
Defined.

Lemma kmalloc_aligned_offset_witness :
  exists h o h', kheap_init (empty_heap ex_full) = Some h /\ kmalloc_aligned h 64 (2 ^ 6) = Some (o, h') /\
    o ≠ 0 /\ o mod 2 ^ 6 = 48 mod 2 ^ 6.
Proof.
  destruct (kheap_init_ok (KP := pmm_kernel_pages) ex_full ex_machine) as (h & E & Hi & Hk & _).
  assert (match kheap_init (empty_heap ex_full) with
          | Some h => match kmalloc_aligned h 64 (2 ^ 6) with Some (o, _) => negb (o =? 0) | None => false end
          | None => false end = true) as H by (vm_compute; reflexivity).
  rewrite E in H. destruct (kmalloc_aligned h 64 (2 ^ 6)) as [[o h']|] eqn:Ek; [|discriminate].
  apply negb_true_iff, Z.eqb_neq in H. exists h, o, h'. split; [exact E|]. split; [exact Ek|]. split; [exact H|].
  apply (kmalloc_aligned_offset h ∅ 64 6 o h' Hi Hk); [lia|lia|lia|vm_compute; discriminate|exact Ek|exact H].
Defined.

Lemma kmalloc_large_order_witness :
  kmalloc (empty_heap ex_full) (2 ^ 64 - 1) =
    ('(a, s) ← simple_get_free_pages (kh_pages (empty_heap ex_full)) 0; Some (a, with_pages_of (empty_heap ex_full) s)).
Proof. apply (kmalloc_large_order (empty_heap ex_full) (2 ^ 64 - 1)). lia. Defined.

Lemma slab_cache_shrink_ok_witness :
  exists h h' c', kheap_init (empty_heap ex_full) = Some h /\ slab_cache_shrink h 18446603336221212672 = Some h' /\
    kh_caches h' !! 18446603336221212672 = Some c' /\ slabs_free c' = [].
Proof.
  destruct (kheap_init_ok (KP := pmm_kernel_pages) ex_full ex_machine) as (h & E & Hi & Hk & _).
  assert (match kheap_init (empty_heap ex_full) with
          | Some h => bool_decide (is_Some (kh_caches h !! 18446603336221212672)) | None => false end = true) as H
    by (vm_compute; reflexivity).
  rewrite E in H. apply bool_decide_eq_true in H as [c HC].
  destruct (slab_cache_shrink_ok h ∅ 18446603336221212672 c Hi HC) as (h' & c' & E' & _ & _ & _ & HC' & Hf & _).
  exists h, h', c'. split; [exact E|]. split; [exact E'|]. split; [exact HC'|exact Hf].
Defined.
