(* ===== verification/Server.v ===== *)
(** * What the user servers share

    The status codes of include/ocean/ipc_proto.h and the string fields of the servers' tables.
    A string argument is the bytes of a C string without its NUL; a string field is its bytes. *)
From S2P Require Import Prelude Defs.

Definition E_OK : Z := 0.
Definition E_INVAL : Z := 1.
Definition E_NOMEM : Z := 2.
Definition E_NOENT : Z := 3.
Definition E_PERM : Z := 5.
Definition E_IO : Z := 6.
Definition E_EXIST : Z := 9.
Definition E_NODEV : Z := 10.

(** The string in a field, up to its NUL. *)
Fixpoint c_string (l : list Z) : list Z :=
  match l with [] => [] | b :: l' => if b =? 0 then [] else b :: c_string l' end.

(** [strncpy(dest, src, n)] on a field: with a short source it writes [n + 1] bytes. *)
Definition strncpy_field (field name : list Z) (n : nat) : list Z :=
  if decide (length name < n)%nat
  then name ++ replicate (n + 1 - length name) 0 ++ drop (n + 1) field
  else take n name ++ drop n field.

(** ** Lemmas *)

Definition is_name (l : list Z) : Prop := 0 ∉ l.

Lemma c_string_app l k : is_name l -> c_string (l ++ k) = l ++ c_string k.
Proof.
  unfold is_name. induction l as [|b l IH]; intros Hl; [done|]. apply not_elem_of_cons in Hl as [Hb Hl].
  cbn. rewrite (proj2 (Z.eqb_neq _ _)) by congruence. by rewrite IH.
Qed.

Lemma is_name_take n l : is_name l -> is_name (take n l).
Proof. intros Hn H%elem_of_take. destruct H as (i & H & _). apply Hn. by eapply list_elem_of_lookup_2. Qed.

Lemma c_string_is_name l : is_name (c_string l).
Proof.
  unfold is_name. induction l as [|b l IH]; cbn; [apply not_elem_of_nil|]. destruct (Z.eqb_spec b 0); [apply not_elem_of_nil|].
  apply not_elem_of_cons. split; [congruence|done].
Qed.

(** A string field of [n + 1] bytes, the last one never written. *)
Definition str_field (n : nat) (f : list Z) : Prop := length f = S n /\ f !! n = Some 0.

Lemma str_field_drop n f : str_field n f -> drop n f = [0].
Proof.
  intros [Hl Hf]. rewrite (drop_S _ 0 n) by done. f_equal. apply nil_length_inv. rewrite length_drop. lia.
Qed.

Lemma strncpy_str_field n f name :
  str_field n f -> is_name name ->
  str_field n (strncpy_field f name n) /\ c_string (strncpy_field f name n) = take n name.
Proof.
  intros Hf Hn. unfold strncpy_field. case_decide as Hl.
  - rewrite (drop_ge f) by (destruct Hf; lia). rewrite app_nil_r. split.
    + split; [rewrite length_app, length_replicate; lia|].
      rewrite lookup_app_r by lia. apply lookup_replicate. split; [done|lia].
    + rewrite c_string_app by done. rewrite take_ge by lia.
      replace (n + 1 - length name)%nat with (S (n - length name)) by lia. cbn. apply app_nil_r.
  - rewrite str_field_drop by done. split.
    + split; [rewrite length_app, length_take; cbn [length]; lia|].
      rewrite lookup_app_r by (rewrite length_take; lia). rewrite length_take. by replace (n - n `min` length name)%nat with 0%nat by lia.
    + rewrite c_string_app; [cbn; apply app_nil_r|]. by apply is_name_take.
Qed.

Lemma zget_insert {A} (l : list A) i x y j :
  zget l i = Some x -> zget (<[Z.to_nat i := y]> l) j = if decide (j = i) then Some y else zget l j.
Proof.
  intros H. assert (zset l i y = Some (<[Z.to_nat i := y]> l)) as E by (unfold zset; by rewrite H). apply (zget_zset _ _ _ _ _ E).
Qed.
