(* ===== verification/Ramfs.v ===== *)
(** * RAM file system (fs/ramfs/main.c)

    The inode table, directories and file data of the RAM file system server, and its request
    handlers.  An inode number outside the table, and a read or write outside a file's data or
    the caller's buffer, is [None].  The union of file data and directory entries is modelled by
    both parts: init_inode clears it and every access is guarded by the type.  A name is the
    bytes of a C string without its NUL; a name field is its 64 bytes. *)
From S2P Require Import Prelude Defs Server.

(** ** The code *)

Definition MAX_INODES : Z := 128.
Definition MAX_NAME : Z := 64.
Definition MAX_DATA_SIZE : Z := 4096.
Definition MAX_DIR_ENTRIES : Z := 32.

Definition INODE_FREE : Z := 0.
Definition INODE_FILE : Z := 1.
Definition INODE_DIR : Z := 2.

Definition S_IFREG : Z := 32768.   (* 0100000 *)
Definition S_IFDIR : Z := 16384.   (* 0040000 *)

Record ramfs_dirent := mk_dirent {
  de_inode : Z;
  de_name : list Z
}.

Record ramfs_inode := mk_inode {
  i_type : Z;
  i_mode : Z;
  i_uid : Z;
  i_gid : Z;
  i_nlink : Z;
  i_size : Z;
  i_atime : Z;
  i_mtime : Z;
  i_ctime : Z;
  i_data : list Z;
  i_entries : list ramfs_dirent;
  i_count : Z
}.

Definition zero_dirent : ramfs_dirent := mk_dirent 0 (replicate 64 0).
(** [memset(&inodes[ino], 0, sizeof(struct ramfs_inode))] *)
Definition zero_inode : ramfs_inode :=
  mk_inode 0 0 0 0 0 0 0 0 0 (replicate 4096 0) (replicate 32 zero_dirent) 0.

Definition set_type (t : Z) (i : ramfs_inode) : ramfs_inode :=
  mk_inode t (i_mode i) (i_uid i) (i_gid i) (i_nlink i) (i_size i) (i_atime i) (i_mtime i) (i_ctime i)
    (i_data i) (i_entries i) (i_count i).
Definition set_nlink (n : Z) (i : ramfs_inode) : ramfs_inode :=
  mk_inode (i_type i) (i_mode i) (i_uid i) (i_gid i) n (i_size i) (i_atime i) (i_mtime i) (i_ctime i)
    (i_data i) (i_entries i) (i_count i).
Definition set_file (d : list Z) (size : Z) (i : ramfs_inode) : ramfs_inode :=
  mk_inode (i_type i) (i_mode i) (i_uid i) (i_gid i) (i_nlink i) size (i_atime i) (i_mtime i) (i_ctime i)
    d (i_entries i) (i_count i).
Definition set_dir (es : list ramfs_dirent) (count : Z) (i : ramfs_inode) : ramfs_inode :=
  mk_inode (i_type i) (i_mode i) (i_uid i) (i_gid i) (i_nlink i) (i_size i) (i_atime i) (i_mtime i) (i_ctime i)
    (i_data i) es count.

Record ramfs := mk_ramfs {
  inodes : list ramfs_inode;
  num_inodes : Z;
  read_ops : Z;
  write_ops : Z;
  lookup_ops : Z;
  create_ops : Z
}.

Definition with_inodes (s : ramfs) (l : list ramfs_inode) (n : Z) : ramfs :=
  mk_ramfs l n (read_ops s) (write_ops s) (lookup_ops s) (create_ops s).
Definition count_ops (r w l c : Z) (s : ramfs) : ramfs :=
  mk_ramfs (inodes s) (num_inodes s) (u64 (read_ops s + r)) (u64 (write_ops s + w)) (u64 (lookup_ops s + l))
    (u64 (create_ops s + c)).

Definition upd_inode (s : ramfs) (ino : Z) (f : ramfs_inode -> ramfs_inode) : option ramfs :=
  l ← zupd (inodes s) ino f; Some (with_inodes s l (num_inodes s)).

Definition alloc_inode (s : ramfs) : option Z :=
  r ← for_return (Z.to_nat (MAX_INODES - 1)) 1
        (fun i (_ : unit) => x ← zget (inodes s) i; Some (if i_type x =? INODE_FREE then inr i else inl tt)) tt;
  Some (match r with inr i => i | inl _ => -1 end).

Definition init_inode (s : ramfs) (ino type mode : Z) : option ramfs :=
  l ← zupd (inodes s) ino (fun _ => mk_inode type mode 0 0 1 0 0 0 0 (i_data zero_inode) (i_entries zero_inode) 0);
  Some (with_inodes s l (num_inodes s + 1)).

Definition find_entry (es : list ramfs_dirent) (count : Z) (name : list Z) : option Z :=
  r ← for_return (Z.to_nat count) 0
        (fun i (_ : unit) => e ← zget es i; Some (if decide (c_string (de_name e) = name) then inr i else inl tt)) tt;
  Some (match r with inr i => i | inl _ => -1 end).

Definition dir_lookup (s : ramfs) (dir_ino : Z) (name : list Z) : option (Z * ramfs) :=
  let s := count_ops 0 0 1 0 s in
  dir ← zget (inodes s) dir_ino;
  if negb (i_type dir =? INODE_DIR) then Some (-1, s) else
  i ← find_entry (i_entries dir) (i_count dir) name;
  if i <? 0 then Some (-1, s)
  else e ← zget (i_entries dir) i; Some (de_inode e, s).

Definition dir_add_entry (s : ramfs) (dir_ino : Z) (name : list Z) (entry_ino : Z) : option (Z * ramfs) :=
  dir ← zget (inodes s) dir_ino;
  if negb (i_type dir =? INODE_DIR) then Some (E_INVAL, s) else
  if MAX_DIR_ENTRIES <=? i_count dir then Some (E_NOMEM, s) else
  '(found, s) ← dir_lookup s dir_ino name;
  if 0 <=? found then Some (E_EXIST, s) else
  es ← zupd (i_entries dir) (i_count dir)
         (fun e => mk_dirent entry_ino (strncpy_field (de_name e) name (Z.to_nat (MAX_NAME - 1))));
  s ← upd_inode s dir_ino (set_dir es (u32 (i_count dir + 1)));
  Some (E_OK, s).

(** [for (j = i; j < count - 1; j++) entries[j] = entries[j + 1];] *)
Definition shift_entries (es : list ramfs_dirent) (i count : Z) : option (list ramfs_dirent) :=
  for_range (Z.to_nat (count - 1 - i)) i (fun j es => e ← zget es (j + 1); zset es j e) es.

Definition dir_remove_entry (s : ramfs) (dir_ino : Z) (name : list Z) : option (Z * ramfs) :=
  dir ← zget (inodes s) dir_ino;
  if negb (i_type dir =? INODE_DIR) then Some (E_INVAL, s) else
  i ← find_entry (i_entries dir) (i_count dir) name;
  if i <? 0 then Some (E_NOENT, s) else
  es ← shift_entries (i_entries dir) i (i_count dir);
  s ← upd_inode s dir_ino (set_dir es (u32 (i_count dir - 1)));
  Some (E_OK, s).

Definition dot : list Z := [46].
Definition dotdot : list Z := [46; 46].

(** The creation of the endpoint is left out. *)
Definition ramfs_init (s : ramfs) : option ramfs :=
  let s := with_inodes s (replicate (Z.to_nat MAX_INODES) zero_inode) (num_inodes s) in
  s ← init_inode s 1 INODE_DIR 493;
  s ← upd_inode s 1 (set_nlink 2);
  '(_, s) ← dir_add_entry s 1 dot 1;
  '(_, s) ← dir_add_entry s 1 dotdot 1;
  Some s.

(** The handlers return the status and, on success, what they store through [out_ino]. *)
Definition handle_lookup (s : ramfs) (dir_ino : Z) (name : list Z) : option (Z * option Z * ramfs) :=
  '(ino, s) ← dir_lookup s dir_ino name;
  if ino <? 0 then Some (E_NOENT, None, s) else Some (E_OK, Some ino, s).

Definition release_inode (s : ramfs) (ino : Z) : option ramfs :=
  s ← upd_inode s ino (set_type INODE_FREE); Some (with_inodes s (inodes s) (num_inodes s - 1)).

Definition handle_create (s : ramfs) (dir_ino : Z) (name : list Z) (mode : Z) : option (Z * option Z * ramfs) :=
  let s := count_ops 0 0 0 1 s in
  ino ← alloc_inode s;
  if ino <? 0 then Some (E_NOMEM, None, s) else
  s ← init_inode s ino INODE_FILE mode;
  '(err, s) ← dir_add_entry s dir_ino name ino;
  if negb (err =? E_OK) then s ← release_inode s ino; Some (err, None, s)
  else Some (E_OK, Some ino, s).

Definition handle_mkdir (s : ramfs) (parent_ino : Z) (name : list Z) (mode : Z) : option (Z * option Z * ramfs) :=
  ino ← alloc_inode s;
  if ino <? 0 then Some (E_NOMEM, None, s) else
  s ← init_inode s ino INODE_DIR mode;
  s ← upd_inode s ino (set_nlink 2);
  '(_, s) ← dir_add_entry s ino dot ino;
  '(_, s) ← dir_add_entry s ino dotdot parent_ino;
  '(err, s) ← dir_add_entry s parent_ino name ino;
  if negb (err =? E_OK) then s ← release_inode s ino; Some (err, None, s)
  else
    s ← upd_inode s parent_ino (fun i => set_nlink (u32 (i_nlink i + 1)) i);
    Some (E_OK, Some ino, s).

(** [memcpy] from and into an array. *)
Definition slice (l : list Z) (off n : Z) : option (list Z) :=
  if decide (0 <= off /\ 0 <= n /\ off + n <= zlen l) then Some (take (Z.to_nat n) (drop (Z.to_nat off) l)) else None.
Definition splice (l : list Z) (off : Z) (src : list Z) : option (list Z) :=
  if decide (0 <= off /\ off + zlen src <= zlen l)
  then Some (take (Z.to_nat off) l ++ src ++ drop (Z.to_nat off + length src) l) else None.

(** The bytes written to the start of [buf], with their number, on success. *)
Definition handle_read (s : ramfs) (ino offset count : Z) : option (Z * option (list Z) * ramfs) :=
  let s := count_ops 1 0 0 0 s in
  file ← zget (inodes s) ino;
  if negb (i_type file =? INODE_FILE) then Some (E_INVAL, None, s) else
  if i_size file <=? offset then Some (E_OK, Some [], s) else
  let avail := u64 (i_size file - offset) in
  let to_read := if count <? avail then count else avail in
  l ← slice (i_data file) offset to_read;
  Some (E_OK, Some l, s).

Definition handle_write (s : ramfs) (ino offset : Z) (buf : list Z) (count : Z) : option (Z * option Z * ramfs) :=
  let s := count_ops 0 1 0 0 s in
  file ← zget (inodes s) ino;
  if negb (i_type file =? INODE_FILE) then Some (E_INVAL, None, s) else
  let count := if MAX_DATA_SIZE <? u64 (offset + count) then u64 (MAX_DATA_SIZE - offset) else count in
  src ← slice buf 0 count;
  data ← splice (i_data file) offset src;
  let size := if i_size file <? u64 (offset + count) then u64 (offset + count) else i_size file in
  s ← upd_inode s ino (set_file data size);
  Some (E_OK, Some count, s).

(** mode, size, nlink, uid, gid and the three times. *)
Definition handle_stat (s : ramfs) (ino : Z) : option (Z * option (list Z)) :=
  i ← zget (inodes s) ino;
  if i_type i =? INODE_FREE then Some (E_NOENT, None) else
  let mode := if i_type i =? INODE_DIR then Z.lor (i_mode i) S_IFDIR else Z.lor (i_mode i) S_IFREG in
  Some (E_OK, Some [mode; i_size i; i_nlink i; i_uid i; i_gid i; i_atime i; i_mtime i; i_ctime i]).

Definition handle_unlink (s : ramfs) (dir_ino : Z) (name : list Z) : option (Z * ramfs) :=
  '(ino, s) ← dir_lookup s dir_ino name;
  if ino <? 0 then Some (E_NOENT, s) else
  i ← zget (inodes s) ino;
  if i_type i =? INODE_DIR then Some (E_PERM, s) else
  s ← upd_inode s ino (set_nlink (u32 (i_nlink i - 1)));
  s ← (if u32 (i_nlink i - 1) =? 0 then release_inode s ino else Some s);
  dir_remove_entry s dir_ino name.
