(* ===== verification/RamfsInv.v ===== *)
(** * The RAM file system's invariant

    What the request handlers of fs/ramfs/main.c keep true of the inode table: sizes and counts
    within the arrays, every file named by exactly one directory entry, no entry naming a free
    inode, and the inode counter equal to the number of inodes in use. *)
From S2P Require Import Prelude Defs Server Ramfs.

(** ** Names *)

(** A name field: 64 bytes, the last one never written. *)
Notation field_ok := (str_field 63).

Lemma strncpy_field_ok f name :
  field_ok f -> is_name name ->
  field_ok (strncpy_field f name 63) /\ c_string (strncpy_field f name 63) = take 63 name.
Proof. apply strncpy_str_field. Qed.

(** ** Directory entries in use *)

Definition ent (e : ramfs_dirent) : Z * list Z := (de_inode e, c_string (de_name e)).
Definition ents (x : ramfs_inode) : list (Z * list Z) := ent <$> take (Z.to_nat (i_count x)) (i_entries x).

Record inode_ok (x : ramfs_inode) : Prop := {
  io_data : zlen (i_data x) = MAX_DATA_SIZE;
  io_entries : zlen (i_entries x) = MAX_DIR_ENTRIES;
  io_fields : Forall (fun e => field_ok (de_name e)) (i_entries x);
  io_size : 0 <= i_size x <= MAX_DATA_SIZE;
  io_tail : drop (Z.to_nat (i_size x)) (i_data x) = replicate (Z.to_nat (MAX_DATA_SIZE - i_size x)) 0;
  io_count : 0 <= i_count x <= MAX_DIR_ENTRIES
}.

Lemma ents_length x : inode_ok x -> zlen (ents x) = i_count x.
Proof.
  intros [_ He _ _ _ Hc]. unfold ents, zlen in *. rewrite length_fmap, length_take. unfold MAX_DIR_ENTRIES in *. lia.
Qed.

Lemma ents_lookup x i : inode_ok x -> 0 <= i < i_count x ->
  exists e, zget (i_entries x) i = Some e /\ ents x !! Z.to_nat i = Some (ent e).
Proof.
  intros Hok Hi. destruct (proj2 (zget_Some (i_entries x) i)) as [e He].
  { rewrite (io_entries _ Hok). pose proof (io_count _ Hok). lia. }
  exists e. split; [done|]. unfold ents. rewrite list_lookup_fmap. apply zget_lookup in He as [_ He].
  rewrite lookup_take_lt by lia. by rewrite He.
Qed.

(** The first entry with the name. *)
Definition first_entry (l : list (Z * list Z)) (name : list Z) (i : nat) (ino : Z) : Prop :=
  l !! i = Some (ino, name) /\ forall j k, (j < i)%nat -> l !! j ≠ Some (k, name).

Definition no_entry (l : list (Z * list Z)) (name : list Z) : Prop := forall ino, (ino, name) ∉ l.

Lemma find_entry_ok x name :
  inode_ok x ->
  (find_entry (i_entries x) (i_count x) name = Some (-1) /\ no_entry (ents x) name) \/
  exists i ino, find_entry (i_entries x) (i_count x) name = Some (Z.of_nat i) /\ first_entry (ents x) name i ino /\
    exists e, zget (i_entries x) (Z.of_nat i) = Some e /\ ent e = (ino, name) /\ Z.of_nat i < i_count x.
Proof.
  intros Hok. unfold find_entry. pose proof (io_count _ Hok) as Hc.
  set (p := fun k => match zget (i_entries x) k with
                     | Some e => if decide (c_string (de_name e) = name) then Some k else None | None => None end).
  rewrite (for_return_ext _ _ _ (fun k (_ : unit) => Some (match p k with Some r => inr r | None => inl tt end))).
  2: { intros k [] Hk. unfold p. destruct (ents_lookup x k Hok ltac:(lia)) as (e & -> & _). cbn [mbind option_bind].
       by destruct (decide (c_string (de_name e) = name)). }
  destruct (for_return_find (Z.to_nat (i_count x)) 0 p) as [(j & r & E & Hj & Hp & Hlt)|[E Hn]].
  - right. rewrite E. cbn [mbind option_bind]. unfold p in Hp. destruct (ents_lookup x j Hok ltac:(lia)) as (e & He & Hl).
    rewrite He in Hp. case_decide as Hnm; [|done]. injection Hp as <-.
    exists (Z.to_nat j), (de_inode e). rewrite !Z2Nat.id by lia. split; [done|]. split.
    + split; [rewrite Hl; unfold ent; by rewrite Hnm|]. intros i k Hi Hk.
      destruct (ents_lookup x (Z.of_nat i) Hok ltac:(lia)) as (e' & He' & Hl'). rewrite Nat2Z.id in Hl'.
      rewrite Hl' in Hk. unfold ent in Hk. injection Hk as _ Hk.
      specialize (Hlt (Z.of_nat i) ltac:(lia)). unfold p in Hlt. rewrite He' in Hlt. by case_decide.
    + exists e. split; [done|]. split; [unfold ent; by rewrite Hnm|lia].
  - left. rewrite E. split; [done|]. intros ino (i & Hi)%list_elem_of_lookup.
    pose proof (lookup_lt_Some _ _ _ Hi) as Hlen. pose proof (ents_length x Hok) as Hl. unfold zlen in Hl.
    destruct (ents_lookup x (Z.of_nat i) Hok ltac:(lia)) as (e & He & Hl'). rewrite Nat2Z.id, Hi in Hl'.
    injection Hl' as _ Hnm. specialize (Hn (Z.of_nat i) ltac:(lia)). unfold p in Hn. rewrite He in Hn.
    by rewrite decide_True in Hn.
Qed.

(** ** Adding and removing entries *)

Lemma add_entry_ok x name ino es :
  inode_ok x -> is_name name -> i_count x < MAX_DIR_ENTRIES ->
  zupd (i_entries x) (i_count x)
    (fun e => mk_dirent ino (strncpy_field (de_name e) name (Z.to_nat (MAX_NAME - 1)))) = Some es ->
  inode_ok (set_dir es (u32 (i_count x + 1)) x) /\
  ents (set_dir es (u32 (i_count x + 1)) x) = ents x ++ [(ino, take 63 name)].
Proof.
  intros Hok Hn Hc E. pose proof (io_count _ Hok) as Hc0. unfold MAX_DIR_ENTRIES in *. rewrite u32_small by lia.
  pose proof (zupd_length _ _ _ _ E) as Hl. unfold zupd in E.
  destruct (zget (i_entries x) (i_count x)) as [e|] eqn:He; [|done]. cbn [mbind option_bind] in E. injection E as <-.
  apply zget_lookup in He as [_ He]. pose proof (io_fields _ Hok) as Hf.
  destruct (strncpy_field_ok (de_name e) name) as [F1 F2]; [exact (Forall_lookup_1 _ _ _ _ Hf He)|done|].
  change (Z.to_nat (MAX_NAME - 1)) with 63%nat in *. split.
  - destruct Hok as [D1 D2 D3 D4 D6 D5]. split; cbn [i_data i_entries i_size i_count set_dir];
      [done|by rewrite Hl|by apply Forall_insert|done|done|unfold MAX_DIR_ENTRIES; lia].
  - unfold ents. cbn [i_count i_entries set_dir]. replace (Z.to_nat (i_count x + 1)) with (S (Z.to_nat (i_count x))) by lia.
    pose proof (lookup_lt_Some _ _ _ He) as Hlt.
    rewrite (take_S_r _ _ (mk_dirent ino (strncpy_field (de_name e) name 63))) by (by apply list_lookup_insert_eq).
    rewrite take_insert_ge, fmap_app by lia. by rewrite <- F2.
Qed.

Lemma shift_entries_ok es i count :
  0 <= i < count -> count <= zlen es ->
  exists es', shift_entries es i count = Some es' /\ zlen es' = zlen es /\ (forall e, e ∈ es' -> e ∈ es) /\
    take (Z.to_nat (count - 1)) es' = delete (Z.to_nat i) (take (Z.to_nat count) es).
Proof.
  intros Hi Hc. unfold shift_entries.
  destruct (for_range_ind (fun j es' => zlen es' = zlen es /\ (forall e, e ∈ es' -> e ∈ es) /\
      forall k, 0 <= k -> zget es' k = if decide (i <= k < j) then zget es (k + 1) else zget es k)
    (Z.to_nat (count - 1 - i)) i (fun j es => e ← zget es (j + 1); zset es j e) es) as (es' & E & Hl & Hin & Hg).
  - split; [done|]. split; [done|]. intros k Hk. by rewrite decide_False by lia.
  - intros j es0 Hj (Hl & Hin & Hg). rewrite (Hg (j + 1)) by lia. rewrite decide_False by lia.
    destruct (proj2 (zget_Some es (j + 1))) as [e He]; [lia|]. rewrite He. cbn [mbind option_bind].
    destruct (zset_Some es0 j e) as [es1 E1]; [lia|]. exists es1. split; [done|].
    split; [by rewrite (zset_length _ _ _ _ E1)|]. split.
    + intros y Hy. unfold zset in E1. destruct (zget es0 j); [|done]. injection E1 as <-.
      apply list_elem_of_lookup in Hy as [n Hn]. apply list_lookup_insert_Some in Hn as [(_ & -> & _)|(_ & Hn)].
      * apply zget_lookup in He as [_ He]. by eapply list_elem_of_lookup_2.
      * apply Hin. by eapply list_elem_of_lookup_2.
    + intros k Hk. rewrite (zget_zset _ _ _ _ _ E1). case_decide as Hkj.
      * subst k. rewrite decide_True by lia. done.
      * rewrite Hg by done. destruct (decide (i <= k < j)) as [?|?], (decide (i <= k < j + 1)) as [?|?]; try lia; done.
  - exists es'. split; [done|]. split; [done|]. split; [done|]. replace (i + Z.of_nat (Z.to_nat (count - 1 - i))) with (count - 1) in Hg by lia.
    apply list_eq. intros n. destruct (decide (Z.of_nat n < count - 1)) as [Hn|Hn].
    + rewrite lookup_take_lt by lia. specialize (Hg (Z.of_nat n) ltac:(lia)). rewrite zget_nat in Hg. rewrite Hg.
      destruct (decide (Z.of_nat n < i)) as [Hni|Hni].
      * rewrite decide_False by lia. rewrite list_lookup_delete_lt by lia. rewrite lookup_take_lt by lia. by rewrite zget_nat.
      * rewrite decide_True by lia. rewrite list_lookup_delete_ge by lia. rewrite lookup_take_lt by lia.
        replace (Z.of_nat n + 1) with (Z.of_nat (S n)) by lia. by rewrite zget_nat.
    + rewrite lookup_ge_None_2 by (rewrite length_take; lia). symmetry. apply lookup_ge_None_2.
      rewrite length_delete; [rewrite length_take; lia|]. apply lookup_lt_is_Some. rewrite length_take. unfold zlen in Hc. lia.
Qed.

Lemma remove_entry_ok x i :
  inode_ok x -> 0 <= i < i_count x ->
  exists es, shift_entries (i_entries x) i (i_count x) = Some es /\
    inode_ok (set_dir es (u32 (i_count x - 1)) x) /\
    ents (set_dir es (u32 (i_count x - 1)) x) = delete (Z.to_nat i) (ents x).
Proof.
  intros Hok Hi. pose proof (io_count _ Hok) as Hc. pose proof (io_entries _ Hok) as He. unfold MAX_DIR_ENTRIES in *.
  destruct (shift_entries_ok (i_entries x) i (i_count x) Hi ltac:(lia)) as (es & E & Hl & Hin & Ht).
  exists es. split; [done|]. rewrite u32_small by lia. split.
  - destruct Hok as [D1 D2 D3 D4 D6 D5]. split; cbn [i_data i_entries i_size i_count set_dir]; unfold MAX_DIR_ENTRIES; try done; try lia.
    rewrite Forall_forall in D3 |- *. auto.
  - unfold ents. cbn [i_count i_entries set_dir]. rewrite Ht. by rewrite list_fmap_delete.
Qed.

(** ** Counting *)

(** How often directory entries of [x] name inode [f]. *)
Definition names (f : Z) (x : ramfs_inode) : nat :=
  if i_type x =? INODE_DIR then length (filter (fun k => k = f) (ents x).*1) else 0%nat.
Definition nrefs (l : list ramfs_inode) (f : Z) : nat := tally (names f) l.

Definition in_use (x : ramfs_inode) : nat := if i_type x =? INODE_FREE then 0%nat else 1%nat.

(** The inodes in [ex] are in the middle of a change. *)
Record inodes_ex (ex : Z -> Prop) (l : list ramfs_inode) : Prop := {
  so_len : zlen l = MAX_INODES;
  so_inode : forall i x, zget l i = Some x -> inode_ok x;
  so_type : forall i x, zget l i = Some x -> i_type x = INODE_FREE \/ i_type x = INODE_FILE \/ i_type x = INODE_DIR;
  so_ents : forall i x k nm, zget l i = Some x -> i_type x = INODE_DIR -> (k, nm) ∈ ents x -> 0 < k < MAX_INODES;
  so_free : forall f x, ~ ex f -> zget l f = Some x -> i_type x = INODE_FREE -> nrefs l f = 0%nat;
  so_file : forall f x, ~ ex f -> zget l f = Some x -> i_type x = INODE_FILE -> nrefs l f = 1%nat /\ i_nlink x = 1
}.

Notation inodes_ok := (inodes_ex (fun _ => False)).

Record fs_inv (s : ramfs) : Prop := {
  fi_inodes : inodes_ok (inodes s);
  fi_root : exists x, zget (inodes s) 1 = Some x /\ i_type x = INODE_DIR;
  fi_zero : exists x, zget (inodes s) 0 = Some x /\ i_type x = INODE_FREE;
  fi_num : num_inodes s = Z.of_nat (tally in_use (inodes s))
}.

Lemma names_add f x x' k nm :
  i_type x' = i_type x -> i_type x = INODE_DIR -> ents x' = ents x ++ [(k, nm)] ->
  names f x' = (names f x + if decide (k = f) then 1 else 0)%nat.
Proof.
  intros Ht Hd He. unfold names. rewrite Ht, Hd, He, fmap_app, filter_app, length_app, Z.eqb_refl. f_equal.
  change ([(k, nm)].*1) with [k]. rewrite filter_cons, filter_nil. by case_decide.
Qed.

Lemma names_remove f x x' i k nm :
  i_type x' = i_type x -> i_type x = INODE_DIR -> ents x !! i = Some (k, nm) -> ents x' = delete i (ents x) ->
  names f x = (names f x' + if decide (k = f) then 1 else 0)%nat.
Proof.
  intros Ht Hd Hi He. unfold names. rewrite Ht, Hd, He, Z.eqb_refl. clear Ht Hd He x'.
  revert i Hi. induction (ents x) as [|[a b] l IH]; intros [|i] Hi; [done|done|..].
  - injection Hi as -> ->. change (delete 0%nat ((k, nm) :: l)) with l. rewrite fmap_cons, filter_cons. cbn [fst]. case_decide; cbn [length]; lia.
  - specialize (IH i Hi). change (delete (S i) ((a, b) :: l)) with ((a, b) :: delete i l).
    rewrite !fmap_cons, !filter_cons. cbn [fst]. destruct (decide (a = f)); cbn [length]; lia.
Qed.

Lemma names_other f x : i_type x ≠ INODE_DIR -> names f x = 0%nat.
Proof. intros H. unfold names. by rewrite (proj2 (Z.eqb_neq _ _) H). Qed.

Lemma nrefs_member l i x k nm :
  zget l i = Some x -> i_type x = INODE_DIR -> (k, nm) ∈ ents x -> (1 <= nrefs l k)%nat.
Proof.
  intros Hi Hd Hk. apply zget_lookup in Hi as [_ Hi].
  assert (1 <= names k x)%nat as H1.
  { unfold names. rewrite Hd, Z.eqb_refl. enough (k ∈ filter (fun y => y = k) (ents x).*1) as H.
    { destruct (filter _ _); [by apply not_elem_of_nil in H|cbn; lia]. }
    apply list_elem_of_filter. split; [done|]. apply list_elem_of_fmap. by exists (k, nm). }
  unfold nrefs. clear Hk Hd. revert Hi. generalize (Z.to_nat i). induction l as [|a l IH]; intros [|n] Hn; [done|done|..].
  - injection Hn as ->. cbn [tally]. lia.
  - specialize (IH n Hn). cbn [tally]. lia.
Qed.

(** Replacing one inode. *)
Lemma nrefs_insert l i x y f :
  zget l i = Some x -> (nrefs (<[Z.to_nat i := y]> l) f + names f x = nrefs l f + names f y)%nat.
Proof. intros H. apply zget_lookup in H as [_ H]. by apply tally_insert. Qed.

(** [n] entries name the inode [z], as many as its type asks for. *)
Definition refs_fit (n : nat) (z : ramfs_inode) : Prop :=
  (i_type z = INODE_FREE -> n = 0%nat) /\ (i_type z = INODE_FILE -> n = 1%nat /\ i_nlink z = 1).

Lemma set_inode_ok (ex ex' : Z -> Prop) l i x y :
  inodes_ex ex l -> zget l i = Some x -> inode_ok y ->
  i_type y = INODE_FREE \/ i_type y = INODE_FILE \/ i_type y = INODE_DIR ->
  (forall k nm, i_type y = INODE_DIR -> (k, nm) ∈ ents y -> 0 < k < MAX_INODES) ->
  (forall f z, ~ ex' f -> f ≠ i -> zget l f = Some z -> i_type z ≠ INODE_DIR ->
     (~ ex f /\ names f y = names f x) \/
     refs_fit (nrefs (<[Z.to_nat i := y]> l) f) z) ->
  (~ ex' i -> i_type y = INODE_FREE -> nrefs (<[Z.to_nat i := y]> l) i = 0%nat) ->
  (~ ex' i -> i_type y = INODE_FILE -> nrefs (<[Z.to_nat i := y]> l) i = 1%nat /\ i_nlink y = 1) ->
  inodes_ex ex' (<[Z.to_nat i := y]> l).
Proof.
  intros [S1 S2 S3 S4 S5 S6] Hi Hy Ht He Ho Hfree Hfile.
  assert (forall f z, ~ ex' f -> f ≠ i -> zget l f = Some z -> i_type z ≠ INODE_DIR ->
            (~ ex f /\ nrefs (<[Z.to_nat i := y]> l) f = nrefs l f) \/
            refs_fit (nrefs (<[Z.to_nat i := y]> l) f) z) as Hn.
  { intros f z H1 H2 H3 H4. destruct (Ho f z H1 H2 H3 H4) as [[H5 H6]|?]; [left|by right]. split; [done|].
    pose proof (nrefs_insert l i x y f Hi). lia. }
  split.
  - unfold zlen in *. by rewrite length_insert.
  - intros j z. rewrite (zget_insert l i x) by done. case_decide; [by intros [= <-]|by apply S2].
  - intros j z. rewrite (zget_insert l i x) by done. case_decide; [by intros [= <-]|by apply S3].
  - intros j z k nm. rewrite (zget_insert l i x) by done. case_decide; [intros [= <-]; by apply He|by apply S4].
  - intros f z Hf. rewrite (zget_insert l i x) by done. case_decide as Hfi; [subst f; intros [= <-]; by apply Hfree|].
    intros Hz Hty. destruct (Hn f z Hf Hfi Hz) as [[H1 ->]|[H1 _]]; [by rewrite Hty|by eapply S5|by apply H1].
  - intros f z Hf. rewrite (zget_insert l i x) by done. case_decide as Hfi; [subst f; intros [= <-]; by apply Hfile|].
    intros Hz Hty. destruct (Hn f z Hf Hfi Hz) as [[H1 ->]|[_ H1]]; [by rewrite Hty|by eapply S6|by apply H1].
Qed.

(** ** What the helpers of the handlers do *)

Definition same_fs (s s' : ramfs) : Prop := inodes s' = inodes s /\ num_inodes s' = num_inodes s.

Lemma alloc_inode_ok ex s :
  inodes_ex ex (inodes s) ->
  (alloc_inode s = Some (-1) /\ forall i x, 0 < i < MAX_INODES -> zget (inodes s) i = Some x -> i_type x ≠ INODE_FREE) \/
  exists i x, alloc_inode s = Some i /\ 0 < i < MAX_INODES /\ zget (inodes s) i = Some x /\ i_type x = INODE_FREE.
Proof.
  intros Hs. unfold alloc_inode. set (p := fun k => match zget (inodes s) k with
     | Some x => if i_type x =? INODE_FREE then Some k else None | None => None end).
  assert (forall k, 1 <= k < 1 + Z.of_nat (Z.to_nat (MAX_INODES - 1)) -> exists x, zget (inodes s) k = Some x) as Hg.
  { intros k Hk. apply zget_Some. rewrite (so_len _ _ Hs). unfold MAX_INODES in *. lia. }
  rewrite (for_return_ext _ _ _ (fun k (_ : unit) => Some (match p k with Some r => inr r | None => inl tt end))).
  2: { intros k [] Hk. unfold p. destruct (Hg k Hk) as [x ->]. cbn [mbind option_bind]. by destruct (_ =? _). }
  destruct (for_return_find (Z.to_nat (MAX_INODES - 1)) 1 p) as [(j & r & E & Hj & Hp & _)|[E Hn]]; rewrite E; cbn [mbind option_bind].
  - right. unfold p in Hp. destruct (Hg j Hj) as [x Hx]. rewrite Hx in Hp.
    destruct (Z.eqb_spec (i_type x) INODE_FREE); [|done]. injection Hp as <-. exists j, x.
    split_and!; [done|lia|unfold MAX_INODES in *; lia|done|done].
  - left. split; [done|]. intros i x Hi Hx Ht. specialize (Hn i). unfold p in Hn. rewrite Hx, Ht in Hn.
    unfold MAX_INODES in *. by assert (Some i = None) by (apply Hn; lia).
Qed.

Lemma dir_lookup_ok s d x name :
  zget (inodes s) d = Some x -> inode_ok x ->
  exists r, dir_lookup s d name = Some (r, count_ops 0 0 1 0 s) /\
    ((r = -1 /\ (i_type x ≠ INODE_DIR \/ no_entry (ents x) name)) \/
     (i_type x = INODE_DIR /\ exists i, first_entry (ents x) name i r)).
Proof.
  intros Hx Hok. unfold dir_lookup. cbn [inodes count_ops]. rewrite Hx. cbn [mbind option_bind].
  destruct (Z.eqb_spec (i_type x) INODE_DIR) as [Ht|Ht]; cbn [negb]; [|exists (-1); split; [done|left; by split; [|left]]].
  destruct (find_entry_ok x name Hok) as [[-> Hn]|(i & ino & -> & Hf & e & He & Ee & Hlt)]; cbn [mbind option_bind].
  - exists (-1). split; [done|]. left. split; [done|by right].
  - rewrite (proj2 (Z.ltb_ge _ _)) by lia. rewrite He. cbn [mbind option_bind]. exists (de_inode e). split; [done|].
    right. split; [done|]. exists i. unfold ent in Ee. injection Ee as -> _. done.
Qed.

Lemma upd_inode_ok s i x f : zget (inodes s) i = Some x ->
  upd_inode s i f = Some (with_inodes s (<[Z.to_nat i := f x]> (inodes s)) (num_inodes s)).
Proof. intros H. unfold upd_inode. by rewrite (zupd_ok _ _ _ _ H). Qed.

(** Adding an entry: the four outcomes. *)
Lemma dir_add_entry_ok s d x name k :
  zget (inodes s) d = Some x -> inode_ok x -> is_name name ->
  (forall k nm, i_type x = INODE_DIR -> (k, nm) ∈ ents x -> 0 < k < MAX_INODES) ->
  exists r s', dir_add_entry s d name k = Some (r, s') /\
    ((same_fs s s' /\
      ((r = E_INVAL /\ i_type x ≠ INODE_DIR) \/ (r = E_NOMEM /\ i_type x = INODE_DIR /\ i_count x = MAX_DIR_ENTRIES) \/
       (r = E_EXIST /\ i_type x = INODE_DIR /\ exists i ino, first_entry (ents x) name i ino))) \/
     (r = E_OK /\ i_type x = INODE_DIR /\ i_count x < MAX_DIR_ENTRIES /\
      no_entry (ents x) name /\
      exists x', inode_ok x' /\ i_type x' = INODE_DIR /\ i_nlink x' = i_nlink x /\ ents x' = ents x ++ [(k, take 63 name)] /\
        inodes s' = <[Z.to_nat d := x']> (inodes s) /\ num_inodes s' = num_inodes s)) .
Proof.
  intros Hx Hok Hn Hpos. unfold dir_add_entry. rewrite Hx. cbn [mbind option_bind].
  destruct (Z.eqb_spec (i_type x) INODE_DIR) as [Ht|Ht]; cbn [negb].
  2: { exists E_INVAL, s. split; [done|]. left. split; [done|]. by left. }
  destruct (Z.leb_spec MAX_DIR_ENTRIES (i_count x)) as [Hc|Hc].
  { exists E_NOMEM, s. split; [done|]. left. split; [done|]. right; left. pose proof (io_count _ Hok). split_and!; [done|done|lia]. }
  destruct (dir_lookup_ok s d x name Hx Hok) as (r & -> & Hr). cbn [mbind option_bind].
  destruct (Z.leb_spec 0 r) as [H0|H0].
  { eexists E_EXIST, _. split; [done|]. left. split; [done|]. right; right.
    destruct Hr as [[-> _]|[_ (i & Hi)]]; [lia|]. split; [done|]. split; [done|]. by exists i, r. }
  destruct (zupd_Some (i_entries x) (i_count x)
    (fun e => mk_dirent k (strncpy_field (de_name e) name (Z.to_nat (MAX_NAME - 1))))) as [es E].
  { rewrite (io_entries _ Hok). pose proof (io_count _ Hok). lia. }
  rewrite E. cbn [mbind option_bind]. rewrite (upd_inode_ok (count_ops 0 0 1 0 s) d x) by done. cbn [mbind option_bind].
  destruct (add_entry_ok x name k es Hok Hn Hc E) as [Hok' He'].
  eexists E_OK, _. split; [done|]. right. split; [done|]. split; [done|]. split; [done|]. split.
  - destruct Hr as [[-> [?|Hno]]|[_ (j & Hj & Hlt)]]; [done|done|].
    apply list_elem_of_lookup_2, (Hpos r name Ht) in Hj. lia.
  - eexists. split; [exact Hok'|]. split; [exact Ht|]. split; [done|]. split; [exact He'|]. done.
Qed.
