(* ===== verification/RamfsSpec.v ===== *)
(** * The RAM file system refines its specification

    A file system is a map from inode numbers to files (their bytes) and directories (their
    entries in order).  Every request that the handlers of fs/ramfs/main.c serve has the effect
    and the reply of the abstract step, and keeps the invariant. *)
From S2P Require Import Prelude Defs Server Ramfs RamfsInv.

(** ** The abstract file system *)

Inductive node := File (content : list Z) | Dir (entries : list (Z * list Z)).
Definition afs : Type := Z -> option node.

Definition node_of (x : ramfs_inode) : option node :=
  if i_type x =? INODE_FREE then None
  else if i_type x =? INODE_FILE then Some (File (take (Z.to_nat (i_size x)) (i_data x)))
  else Some (Dir (ents x)).
Definition view (l : list ramfs_inode) : afs := fun i => x ← zget l i; node_of x.

Inductive req :=
  | Lookup (d : Z) (name : list Z)
  | Create (d : Z) (name : list Z) (mode : Z)
  | Mkdir (d : Z) (name : list Z) (mode : Z)
  | Read (ino off count : Z)
  | Write (ino off : Z) (bytes : list Z)
  | Unlink (d : Z) (name : list Z).

Inductive reply := RErr (e : Z) | RIno (i : Z) | RData (l : list Z) | RCount (n : Z) | ROk.

Definition ino_reply (e : Z) (o : option Z) : reply := match o with Some i => RIno i | None => RErr e end.

(** The handler of each request. *)
Definition serve (s : ramfs) (r : req) : option (reply * ramfs) :=
  match r with
  | Lookup d nm => '(e, o, s) ← handle_lookup s d nm; Some (ino_reply e o, s)
  | Create d nm mode => '(e, o, s) ← handle_create s d nm mode; Some (ino_reply e o, s)
  | Mkdir d nm mode => '(e, o, s) ← handle_mkdir s d nm mode; Some (ino_reply e o, s)
  | Read i off n => '(e, o, s) ← handle_read s i off n; Some (match o with Some l => RData l | None => RErr e end, s)
  | Write i off b => '(e, o, s) ← handle_write s i off b (zlen b); Some (match o with Some n => RCount n | None => RErr e end, s)
  | Unlink d nm => '(e, s) ← handle_unlink s d nm; Some (if e =? E_OK then ROk else RErr e, s)
  end.

(** Overwriting from [off] on, the gap behind a short file filled with zeros. *)
Definition fwrite (c : list Z) (off : nat) (b : list Z) : list Z :=
  take off (c ++ replicate (off - length c) 0) ++ b ++ drop (off + length b) c.

Definition put (a : afs) (i : Z) (o : option node) : afs := fun j => if decide (j = i) then o else a j.

(** Why an entry cannot be added to [d]. *)
Inductive add_fails (a : afs) (d : Z) (nm : list Z) : Z -> Prop :=
  | AddNotDir : (forall es, a d ≠ Some (Dir es)) -> add_fails a d nm E_INVAL
  | AddFull es : a d = Some (Dir es) -> zlen es = MAX_DIR_ENTRIES -> add_fails a d nm E_NOMEM
  | AddExists es ino : a d = Some (Dir es) -> (ino, nm) ∈ es -> add_fails a d nm E_EXIST.

Definition can_add (a : afs) (d : Z) (nm : list Z) (es : list (Z * list Z)) : Prop :=
  a d = Some (Dir es) /\ zlen es < MAX_DIR_ENTRIES /\ no_entry es nm.

Definition table_full (a : afs) : Prop := forall i, 0 < i < MAX_INODES -> a i ≠ None.
Definition fresh (a : afs) (i : Z) : Prop := 0 < i < MAX_INODES /\ a i = None.

Inductive astep (a : afs) : req -> reply -> afs -> Prop :=
  | ALookup d nm es i ino : a d = Some (Dir es) -> first_entry es nm i ino -> astep a (Lookup d nm) (RIno ino) a
  | ALookupNone d nm : (forall es ino, a d = Some (Dir es) -> (ino, nm) ∉ es) -> astep a (Lookup d nm) (RErr E_NOENT) a
  | ACreate d nm mode es ino : fresh a ino -> can_add a d nm es ->
      astep a (Create d nm mode) (RIno ino) (put (put a ino (Some (File []))) d (Some (Dir (es ++ [(ino, take 63 nm)]))))
  | ACreateFull d nm mode : table_full a -> astep a (Create d nm mode) (RErr E_NOMEM) a
  | ACreateFails d nm mode e : add_fails a d nm e -> astep a (Create d nm mode) (RErr e) a
  | AMkdir d nm mode es ino : fresh a ino -> can_add a d nm es ->
      astep a (Mkdir d nm mode) (RIno ino)
        (put (put a ino (Some (Dir [(ino, dot); (d, dotdot)]))) d (Some (Dir (es ++ [(ino, take 63 nm)]))))
  | AMkdirFull d nm mode : table_full a -> astep a (Mkdir d nm mode) (RErr E_NOMEM) a
  | AMkdirFails d nm mode e : add_fails a d nm e -> astep a (Mkdir d nm mode) (RErr e) a
  | ARead i off n c : a i = Some (File c) ->
      astep a (Read i off n) (RData (take (Z.to_nat n) (drop (Z.to_nat off) c))) a
  | AReadNone i off n : (forall c, a i ≠ Some (File c)) -> astep a (Read i off n) (RErr E_INVAL) a
  | AWrite i off b c : a i = Some (File c) ->
      let n := Z.min (zlen b) (MAX_DATA_SIZE - off) in
      astep a (Write i off b) (RCount n) (put a i (Some (File (fwrite c (Z.to_nat off) (take (Z.to_nat n) b)))))
  | AWriteNone i off b : (forall c, a i ≠ Some (File c)) -> astep a (Write i off b) (RErr E_INVAL) a
  | AUnlink d nm es i ino c : a d = Some (Dir es) -> first_entry es nm i ino -> a ino = Some (File c) ->
      astep a (Unlink d nm) ROk (put (put a ino None) d (Some (Dir (delete i es))))
  | AUnlinkDir d nm es i ino es' : a d = Some (Dir es) -> first_entry es nm i ino -> a ino = Some (Dir es') ->
      astep a (Unlink d nm) (RErr E_PERM) a
  | AUnlinkNone d nm : (forall es ino, a d = Some (Dir es) -> (ino, nm) ∉ es) -> astep a (Unlink d nm) (RErr E_NOENT) a.

(** Requests the handlers can take: inode numbers inside the table, C strings as names, files
    written inside their 4096 bytes, and new directories below an inode in use. *)
Definition req_ok (a : afs) (r : req) : Prop :=
  match r with
  | Lookup d nm | Create d nm _ | Unlink d nm => 0 <= d < MAX_INODES /\ is_name nm
  | Mkdir d nm _ => 0 <= d < MAX_INODES /\ is_name nm /\ a d ≠ None
  | Read i off n => 0 <= i < MAX_INODES /\ 0 <= off /\ 0 <= n
  | Write i off b => 0 <= i < MAX_INODES /\ 0 <= off <= MAX_DATA_SIZE /\ zlen b < 2 ^ 63
  end.

(** ** Views *)

Definition veq (a b : afs) : Prop := forall i, a i = b i.

Lemma view_some l i x : zget l i = Some x -> view l i = node_of x.
Proof. intros H. unfold view. by rewrite H. Qed.

Lemma view_insert l i x y : zget l i = Some x -> veq (view (<[Z.to_nat i := y]> l)) (put (view l) i (node_of y)).
Proof.
  intros H j. unfold view, put. rewrite (zget_insert l i x y j H). by case_decide.
Qed.

Lemma node_dir x es : node_of x = Some (Dir es) -> es = ents x /\ i_type x ≠ INODE_FREE /\ i_type x ≠ INODE_FILE.
Proof.
  unfold node_of. destruct (Z.eqb_spec (i_type x) INODE_FREE); [done|].
  destruct (Z.eqb_spec (i_type x) INODE_FILE); [done|]. by intros [= <-].
Qed.

Lemma node_is_dir x : i_type x = INODE_DIR -> node_of x = Some (Dir (ents x)).
Proof. unfold node_of. by intros ->. Qed.

Lemma node_is_file x : i_type x = INODE_FILE -> node_of x = Some (File (take (Z.to_nat (i_size x)) (i_data x))).
Proof. unfold node_of. by intros ->. Qed.

Lemma node_is_free x : node_of x = None <-> i_type x = INODE_FREE.
Proof.
  unfold node_of. destruct (Z.eqb_spec (i_type x) INODE_FREE); [done|]. by destruct (i_type x =? INODE_FILE).
Qed.

(** ** The handlers *)

Lemma inode_at ex l d : inodes_ex ex l -> 0 <= d < MAX_INODES -> exists x, zget l d = Some x /\ inode_ok x /\
  forall k nm, i_type x = INODE_DIR -> (k, nm) ∈ ents x -> 0 < k < MAX_INODES.
Proof.
  intros H Hd. destruct (proj2 (zget_Some l d)) as [x Hx]; [rewrite (so_len _ _ H); lia|]. exists x.
  split; [done|]. split; [by eapply so_inode|]. intros k nm Ht Hk. by eapply so_ents.
Qed.

Lemma fs_inv_same s s' : same_fs s s' -> fs_inv s -> fs_inv s'.
Proof. intros [E1 E2] [H1 H2 H3 H4]. split; rewrite ?E1, ?E2; done. Qed.

(** The outcome of a request: the invariant and an abstract step. *)
Definition served (s : ramfs) (r : req) : Prop :=
  exists rep s' a', serve s r = Some (rep, s') /\ fs_inv s' /\ astep (view (inodes s)) r rep a' /\ veq (view (inodes s')) a'.

Lemma served_same s r rep s' :
  serve s r = Some (rep, s') -> fs_inv s -> same_fs s s' -> astep (view (inodes s)) r rep (view (inodes s)) -> served s r.
Proof.
  intros E Hi Hs Ha. exists rep, s', (view (inodes s)). split; [done|]. split; [by eapply fs_inv_same|]. split; [done|].
  by destruct Hs as [-> _].
Qed.

Lemma count_ops_same r w l c s : same_fs s (count_ops r w l c s).
Proof. done. Qed.

(** A lookup that finds nothing. *)
Lemma not_found s d x nm :
  fs_inv s -> zget (inodes s) d = Some x -> i_type x ≠ INODE_DIR \/ no_entry (ents x) nm ->
  forall es ino, view (inodes s) d = Some (Dir es) -> (ino, nm) ∉ es.
Proof.
  intros Hi Hx Hn es ino. rewrite (view_some _ d x Hx). intros (-> & H1 & H2)%node_dir.
  pose proof (so_type _ _ (fi_inodes _ Hi) _ _ Hx). destruct Hn as [Hn|Hn]; [tauto|apply Hn].
Qed.

Lemma serve_lookup s d nm : fs_inv s -> req_ok (view (inodes s)) (Lookup d nm) -> served s (Lookup d nm).
Proof.
  intros Hi [Hd Hn]. destruct (inode_at _ _ d (fi_inodes _ Hi) Hd) as (x & Hx & Hok & Hpos).
  destruct (dir_lookup_ok s d x nm Hx Hok) as (r & E & Hr).
  destruct Hr as [[-> Hno]|[Ht (i & Hf)]].
  - eapply served_same; [cbn [serve]; unfold handle_lookup; by rewrite E|done|done|]. apply ALookupNone.
    by eapply not_found.
  - assert (0 < r) as Hr by (destruct Hf as [Hf _]; apply list_elem_of_lookup_2, (Hpos r nm Ht) in Hf; lia).
    eapply served_same; [cbn [serve]; unfold handle_lookup; rewrite E; cbn [mbind option_bind];
      rewrite (proj2 (Z.ltb_ge _ _)) by lia; done|done|done|].
    eapply ALookup; [rewrite (view_some _ _ _ Hx); by apply node_is_dir|done].
Qed.

Lemma serve_read s i off n : fs_inv s -> req_ok (view (inodes s)) (Read i off n) -> served s (Read i off n).
Proof.
  intros Hi (Hd & Ho & Hn). destruct (inode_at _ _ i (fi_inodes _ Hi) Hd) as (x & Hx & Hok & _).
  pose proof (io_size _ Hok) as Hsz. pose proof (io_data _ Hok) as Hdt. unfold MAX_DATA_SIZE in *.
  eapply served_same; [|done|apply (count_ops_same 1 0 0 0)|].
  - cbn [serve]. unfold handle_read. cbn [inodes count_ops]. rewrite Hx. cbn [mbind option_bind].
    instantiate (1 := if i_type x =? INODE_FILE
      then RData (take (Z.to_nat n) (drop (Z.to_nat off) (take (Z.to_nat (i_size x)) (i_data x)))) else RErr E_INVAL).
    destruct (Z.eqb_spec (i_type x) INODE_FILE) as [Ht|Ht]; cbn [negb mbind option_bind]; [|done].
    destruct (Z.leb_spec (i_size x) off) as [H|H].
    + cbn [mbind option_bind]. rewrite (drop_ge (take _ _)) by (rewrite length_take; lia). by rewrite take_nil.
    + rewrite u64_small by lia. assert ((if n <? i_size x - off then n else i_size x - off) = Z.min n (i_size x - off)) as ->.
      { destruct (Z.ltb_spec n (i_size x - off)); lia. }
      unfold slice. rewrite decide_True by lia. cbn [mbind option_bind]. do 3 f_equal.
      replace (Z.to_nat (i_size x)) with (Z.to_nat off + (Z.to_nat (i_size x) - Z.to_nat off))%nat by lia.
      rewrite <- take_drop_commute, take_take. f_equal. lia.
  - destruct (Z.eqb_spec (i_type x) INODE_FILE) as [Ht|Ht].
    + apply ARead. rewrite (view_some _ _ _ Hx). by apply node_is_file.
    + apply AReadNone. intros c. rewrite (view_some _ _ _ Hx). unfold node_of.
      destruct (_ =? INODE_FREE); [done|]. by rewrite (proj2 (Z.eqb_neq _ _) Ht).
Qed.

Lemma data_content x : inode_ok x ->
  i_data x = take (Z.to_nat (i_size x)) (i_data x) ++ replicate (Z.to_nat (MAX_DATA_SIZE - i_size x)) 0.
Proof. intros Hok. rewrite <- (io_tail _ Hok). by rewrite take_drop. Qed.

(** Writing into the array and cutting at the new size is writing into the content. *)
Lemma fwrite_data (c b : list Z) (off N : nat) :
  (length c <= N)%nat -> (off + length b <= N)%nat ->
  take (Nat.max (length c) (off + length b))
    (take off (c ++ replicate (N - length c) 0) ++ b ++ drop (off + length b) (c ++ replicate (N - length c) 0)) =
    fwrite c off b /\
  drop (Nat.max (length c) (off + length b))
    (take off (c ++ replicate (N - length c) 0) ++ b ++ drop (off + length b) (c ++ replicate (N - length c) 0)) =
    replicate (N - Nat.max (length c) (off + length b)) 0.
Proof.
  intros Hc Hb. set (z := c ++ replicate (N - length c) 0).
  assert (length z = N) as Hz by (unfold z; rewrite length_app, length_replicate; lia).
  assert (take off z = take off (c ++ replicate (off - length c) 0)) as Et.
  { unfold z. rewrite !take_app, !take_replicate. do 2 f_equal. lia. }
  assert (length (take off z) = off) as Hto by (rewrite length_take; lia).
  assert (forall m, (length c <= m)%nat -> drop m z = replicate (N - m) 0) as Hd.
  { intros m Hm. unfold z. rewrite drop_app, drop_ge, drop_replicate by lia. cbn. f_equal. lia. }
  split.
  - unfold fwrite. rewrite <- Et. rewrite take_app, Hto. rewrite (take_ge (take off z)) by lia. f_equal.
    rewrite take_app. rewrite (take_ge b) by lia. f_equal.
    destruct (decide (length c <= off + length b)%nat) as [H|H].
    + rewrite (drop_ge c) by lia. replace (_ - off - length b)%nat with 0%nat by lia. apply take_0.
    + unfold z. rewrite drop_app. replace (off + length b - length c)%nat with 0%nat by lia. rewrite drop_0.
      rewrite take_app, length_drop. rewrite (take_ge (drop _ c)) by (rewrite length_drop; lia).
      replace (_ - (length c - (off + length b)))%nat with 0%nat by lia. rewrite take_0. apply app_nil_r.
  - rewrite drop_app, Hto, (drop_ge (take off z)) by lia. cbn [app].
    rewrite drop_app, (drop_ge b) by lia. cbn [app]. rewrite drop_drop, Hd by lia. f_equal. lia.
Qed.

(** A change of one inode that keeps its type, its links and its entries. *)
Lemma set_content_ok s i x y :
  fs_inv s -> zget (inodes s) i = Some x -> inode_ok y -> i_type y = i_type x -> i_nlink y = i_nlink x -> ents y = ents x ->
  fs_inv (with_inodes s (<[Z.to_nat i := y]> (inodes s)) (num_inodes s)).
Proof.
  intros [H1 (x1 & H2 & H2') (x0 & H3 & H3') H4] Hx Hy Et En Ee.
  assert (forall f, names f y = names f x) as Hnm by (intros f; unfold names; by rewrite Et, Ee).
  assert (forall f, nrefs (<[Z.to_nat i := y]> (inodes s)) f = nrefs (inodes s) f) as Hr.
  { intros f. pose proof (nrefs_insert _ _ _ y f Hx) as H. rewrite Hnm in H. lia. }
  split; cbn [inodes num_inodes with_inodes].
  - eapply set_inode_ok; [done|done|done|rewrite Et; by eapply so_type| | | |].
    + intros k nm Ht Hk. rewrite Et in Ht. rewrite Ee in Hk. by eapply so_ents.
    + intros f z _ _ _ _. left. split; [tauto|apply Hnm].
    + intros _ Ht. rewrite Hr. rewrite Et in Ht. apply (so_free _ _ H1 i x); [tauto|done|done].
    + intros _ Ht. rewrite Hr, En. rewrite Et in Ht. apply (so_file _ _ H1 i x); [tauto|done|done].
  - rewrite (zget_insert _ _ x y 1 Hx). case_decide as Hi; [|by exists x1].
    exists y. subst i. rewrite H2 in Hx. injection Hx as <-. by rewrite Et.
  - rewrite (zget_insert _ _ x y 0 Hx). case_decide as Hi; [|by exists x0].
    exists y. subst i. rewrite H3 in Hx. injection Hx as <-. by rewrite Et.
  - rewrite H4. f_equal. apply zget_lookup in Hx as [_ Hx]. pose proof (tally_insert in_use _ _ _ y Hx) as H.
    assert (in_use y = in_use x) by (unfold in_use; by rewrite Et). lia.
Qed.

Lemma serve_write s i off b : fs_inv s -> req_ok (view (inodes s)) (Write i off b) -> served s (Write i off b).
Proof.
  intros Hi (Hd & Ho & Hb). destruct (inode_at _ _ i (fi_inodes _ Hi) Hd) as (x & Hx & Hok & _).
  pose proof (io_size _ Hok) as Hsz. pose proof (io_data _ Hok) as Hdt. pose proof (zlen_nonneg b) as Hb0.
  destruct (Z.eqb_spec (i_type x) INODE_FILE) as [Ht|Ht].
  2: { eapply served_same; [cbn [serve]; unfold handle_write; cbn [inodes count_ops]; rewrite Hx; cbn [mbind option_bind];
         rewrite (proj2 (Z.eqb_neq _ _) Ht); done|done|apply (count_ops_same 0 1 0 0)|].
       apply AWriteNone. intros c. rewrite (view_some _ _ _ Hx). unfold node_of.
       destruct (_ =? INODE_FREE); [done|]. by rewrite (proj2 (Z.eqb_neq _ _) Ht). }
  set (n := Z.min (zlen b) (MAX_DATA_SIZE - off)). set (c := take (Z.to_nat (i_size x)) (i_data x)).
  assert (length c = Z.to_nat (i_size x)) as Hc by (unfold c; rewrite length_take; unfold zlen in Hdt; lia).
  set (src := take (Z.to_nat n) b). unfold MAX_DATA_SIZE in *.
  assert (length src = Z.to_nat n) as Hsrc by (unfold src; rewrite length_take; unfold n, zlen; lia).
  assert (0 <= n /\ off + n <= 4096) as Hn by (unfold n; lia).
  set (size' := Z.max (i_size x) (off + n)).
  set (data' := take (Z.to_nat off) (i_data x) ++ src ++ drop (Z.to_nat off + length src) (i_data x)).
  assert (zlen data' = 4096) as Hd'.
  { unfold zlen, data' in *. rewrite !length_app, length_take, length_drop. unfold MAX_DATA_SIZE in *. lia. }
  assert (take (Z.to_nat size') data' = fwrite c (Z.to_nat off) src /\ drop (Z.to_nat size') data' = replicate (Z.to_nat (4096 - size')) 0) as [F1 F2].
  { pose proof (fwrite_data c src (Z.to_nat off) (Z.to_nat 4096) ltac:(lia) ltac:(lia)) as [F1 F2].
    assert (c ++ replicate (Z.to_nat 4096 - length c) 0 = i_data x) as Edx.
    { symmetry. rewrite (data_content x Hok) at 1. fold c. do 2 f_equal. unfold MAX_DATA_SIZE. lia. }
    rewrite Edx in F1, F2. fold data' in F1, F2.
    replace (Nat.max (length c) (Z.to_nat off + length src)) with (Z.to_nat size') in F1, F2 by (unfold size'; lia).
    split; [done|]. rewrite F2. f_equal. lia. }
  assert (inode_ok (set_file data' size' x)) as Hok'.
  { destruct Hok as [D1 D2 D3 D4 D6 D5]. split; cbn [i_data i_entries i_size i_count set_file]; try done. unfold size', MAX_DATA_SIZE; lia. }
  eexists (RCount n), _, _. split; [|split; [|split]].
  - cbn [serve]. unfold handle_write. cbn [inodes count_ops]. rewrite Hx. cbn [mbind option_bind]. rewrite Ht. cbn [negb Z.eqb INODE_FILE Pos.eqb].
    rewrite (u64_small (off + zlen b)) by lia.
    assert ((if MAX_DATA_SIZE <? off + zlen b then u64 (MAX_DATA_SIZE - off) else zlen b) = n) as ->.
    { unfold MAX_DATA_SIZE, n. destruct (Z.ltb_spec 4096 (off + zlen b)); [rewrite u64_small|]; lia. }
    unfold slice. rewrite decide_True by (unfold n; lia). cbn [mbind option_bind]. rewrite drop_0. fold src.
    unfold splice. rewrite decide_True by (unfold zlen in *; lia). cbn [mbind option_bind]. fold data'.
    rewrite (u64_small (off + n)) by lia.
    assert ((if i_size x <? off + n then off + n else i_size x) = size') as -> by (unfold size'; destruct (Z.ltb_spec (i_size x) (off + n)); lia).
    rewrite (upd_inode_ok (count_ops 0 1 0 0 s) i x) by done. cbn [mbind option_bind]. done.
  - eapply (set_content_ok (count_ops 0 1 0 0 s) i x); [|done|done|done|done|done]. apply (fs_inv_same s); [done|done].
  - apply AWrite with (c := c). rewrite (view_some _ _ _ Hx). by apply node_is_file.
  - cbn [inodes with_inodes count_ops]. intros j. rewrite (view_insert _ _ _ _ Hx). unfold put. case_decide; [|done].
    rewrite (node_is_file (set_file data' size' x)) by done. cbn [i_size i_data set_file]. by rewrite F1.
Qed.

(** ** Creating and removing *)

(** A free inode given up again. *)
Lemma release_ok s ino x0 y s' :
  fs_inv s -> 0 < ino < MAX_INODES -> zget (inodes s) ino = Some x0 -> i_type x0 = INODE_FREE -> inode_ok y ->
  inodes s' = <[Z.to_nat ino := set_type INODE_FREE y]> (inodes s) -> num_inodes s' = num_inodes s ->
  fs_inv s' /\ veq (view (inodes s')) (view (inodes s)).
Proof.
  intros [H1 (x1 & H2 & H2') (z0 & H3 & H3') H4] Hino Hx Ht Hy E1 E2.
  assert (forall f, names f (set_type INODE_FREE y) = names f x0) as Hnm by (intros f; by rewrite !names_other by (cbn; rewrite ?Ht; done)).
  assert (ino ≠ 1) as Hn1 by (intros ->; rewrite H2 in Hx; injection Hx as <-; by rewrite H2' in Ht).
  assert (inode_ok (set_type INODE_FREE y)) as Hy' by (by destruct Hy).
  split.
  - split; rewrite ?E1.
    + eapply set_inode_ok; [done|done|done|by left|done| | |done].
      * intros f z _ _ _ _. left. split; [tauto|apply Hnm].
      * intros _ _. pose proof (nrefs_insert _ _ _ (set_type INODE_FREE y) ino Hx) as H. rewrite Hnm in H.
        rewrite (so_free _ _ H1 ino x0) in H; [lia|tauto|done|done].
    + rewrite (zget_insert _ _ x0) by done. rewrite decide_False by lia. by exists x1.
    + rewrite (zget_insert _ _ x0) by done. rewrite decide_False by lia. by exists z0.
    + rewrite E2, H4. f_equal. apply zget_lookup in Hx as [_ Hx]. pose proof (tally_insert in_use _ _ _ (set_type INODE_FREE y) Hx) as H.
      assert (in_use x0 = 0%nat) by (unfold in_use; by rewrite Ht). cbn in H. lia.
  - intros j. rewrite E1, (view_insert _ _ x0) by done. unfold put. case_decide as Hj; [|done]. subst j.
    rewrite (view_some _ _ _ Hx). symmetry. by apply node_is_free.
Qed.

(** A new inode put into a free slot and named in the directory [d]. *)
Lemma link_ok s ino x0 y d x x' nm s' :
  fs_inv s -> 0 < ino < MAX_INODES -> zget (inodes s) ino = Some x0 -> i_type x0 = INODE_FREE -> inode_ok y ->
  (i_type y = INODE_FILE /\ i_nlink y = 1 \/ i_type y = INODE_DIR /\ ents y = [(ino, dot); (d, dotdot)] /\ 0 < d < MAX_INODES) ->
  zget (inodes s) d = Some x -> i_type x = INODE_DIR -> inode_ok x' -> i_type x' = INODE_DIR ->
  ents x' = ents x ++ [(ino, nm)] ->
  inodes s' = <[Z.to_nat d := x']> (<[Z.to_nat ino := y]> (inodes s)) -> num_inodes s' = num_inodes s + 1 ->
  fs_inv s' /\ veq (view (inodes s')) (put (put (view (inodes s)) ino (node_of y)) d (Some (Dir (ents x ++ [(ino, nm)])))).
Proof.
  intros [H1 (x1 & H2 & H2') (z0 & H3 & H3') H4] Hino Hx0 Ht Hy Hty Hx Htx Hx' Htx' He' E1 E2.
  assert (d ≠ ino) as Hdi by (intros ->; rewrite Hx0 in Hx; injection Hx as ->; rewrite Ht in Htx; done).
  set (l1 := <[Z.to_nat ino := y]> (inodes s)) in *.
  assert (zget l1 d = Some x) as Hx1 by (unfold l1; rewrite (zget_insert _ _ x0), decide_False; done).
  assert (ino ≠ 1) as Hn1 by (intros ->; rewrite H2 in Hx0; injection Hx0 as <-; by rewrite H2' in Ht).
  assert (d ≠ 0) as Hd0 by (intros ->; rewrite H3 in Hx; injection Hx as <-; rewrite H3' in Htx; done).
  assert (i_type y = INODE_FREE \/ i_type y = INODE_FILE \/ i_type y = INODE_DIR) as Hvy by tauto.
  assert (forall f, f ≠ ino -> f ≠ d -> names f y = 0%nat) as Hny.
  { intros f Hf Hfd. destruct Hty as [[Hty _]|(Hty & Ey & _)]; [apply names_other; by rewrite Hty|].
    unfold names. rewrite Hty, Ey, Z.eqb_refl. change ([(ino, dot); (d, dotdot)].*1) with [ino; d].
    by rewrite !filter_cons, !decide_False by congruence. }
  assert (inodes_ex (fun f => f = ino \/ f = d) l1) as Hl1.
  { eapply set_inode_ok; [done|done|done|done| | |tauto|tauto].
    - intros k m Hk Hin. destruct Hty as [[Hty _]|(_ & Ey & Hd)]; [rewrite Hty in Hk; done|].
      rewrite Ey in Hin. apply elem_of_cons in Hin as [[= -> _]|Hin]; [done|]. apply list_elem_of_singleton in Hin as [= -> _]. done.
    - intros f z Hf Hfi _ _. left. split; [tauto|]. rewrite Hny by tauto. symmetry. apply names_other. by rewrite Ht. }
  assert (forall f, names f x' = (names f x + if decide (ino = f) then 1 else 0)%nat) as Hnx.
  { intros f. apply (names_add f x x' ino nm); [congruence|done|done]. }
  assert (i_type y = INODE_FILE -> nrefs (<[Z.to_nat d := x']> l1) ino = 1%nat) as Hone.
  { intros Hf. pose proof (nrefs_insert l1 d x x' ino Hx1) as N1. pose proof (nrefs_insert _ _ _ y ino Hx0) as N2. fold l1 in N2.
    rewrite (names_other ino x0), (names_other ino y) in N2 by (rewrite ?Ht, ?Hf; done).
    rewrite (so_free _ _ H1 ino x0) in N2 by tauto. rewrite Hnx, decide_True in N1 by done. lia. }
  split.
  - split; rewrite ?E1.
    + eapply (set_inode_ok (fun f => f = ino \/ f = d) (fun f => False)); [done|done|done|by right; right| | |by rewrite Htx'|by rewrite Htx'].
      * intros k m _ Hin. rewrite He' in Hin. apply elem_of_app in Hin as [Hin|Hin]; [by eapply so_ents|].
        apply list_elem_of_singleton in Hin as [= -> _]. done.
      * intros f z _ Hfd Hz Hzt. destruct (decide (f = ino)) as [->|Hfi].
        -- right. unfold l1 in Hz. rewrite (zget_insert _ _ x0), decide_True in Hz by done. injection Hz as <-.
           destruct Hty as [[Hf Hl]|(Hf & _)]; [|by rewrite Hf in Hzt]. split; [by rewrite Hf|]. split; [by apply Hone|done].
        -- left. split; [tauto|]. rewrite Hnx, decide_False by done. lia.
    + rewrite (zget_insert _ _ x) by done. case_decide; [by exists x'|]. unfold l1.
      rewrite (zget_insert _ _ x0), decide_False by done. by exists x1.
    + rewrite (zget_insert _ _ x), decide_False by done. unfold l1.
      rewrite (zget_insert _ _ x0), decide_False by (done || lia). by exists z0.
    + rewrite E2, H4. pose proof Hx1 as Hx1'. apply zget_lookup in Hx1 as [_ Hx1], Hx0 as [_ Hx0].
      pose proof (tally_insert in_use _ _ _ y Hx0) as N1. pose proof (tally_insert in_use _ _ _ x' Hx1) as N2. fold l1 in N1.
      assert (in_use x0 = 0%nat) by (unfold in_use; by rewrite Ht).
      assert (in_use y = 1%nat) by (unfold in_use; destruct Hty as [[-> _]|(-> & _)]; done).
      assert (in_use x' = in_use x) by (unfold in_use; by rewrite Htx, Htx'). lia.
  - intros j. rewrite E1, (view_insert _ _ x) by done. unfold put. rewrite (node_is_dir x' Htx'), He'. case_decide; [done|].
    unfold l1. rewrite (view_insert _ _ x0) by done. unfold put. done.
Qed.

Definition new_inode (type mode : Z) : ramfs_inode :=
  mk_inode type mode 0 0 1 0 0 0 0 (i_data zero_inode) (i_entries zero_inode) 0.

Lemma new_inode_ok type mode : inode_ok (new_inode type mode) /\ ents (new_inode type mode) = [].
Proof.
  split; [|done]. split; cbn [i_data i_entries i_size i_count new_inode]; [done|done| |unfold MAX_DATA_SIZE; lia|done|unfold MAX_DIR_ENTRIES; lia].
  apply Forall_replicate. by split.
Qed.

Lemma init_inode_eq s ino x type mode : zget (inodes s) ino = Some x ->
  init_inode s ino type mode = Some (with_inodes s (<[Z.to_nat ino := new_inode type mode]> (inodes s)) (num_inodes s + 1)).
Proof. intros H. unfold init_inode. by rewrite (zupd_ok _ _ _ _ H). Qed.

Lemma release_eq s ino y : zget (inodes s) ino = Some y ->
  release_inode s ino = Some (with_inodes s (<[Z.to_nat ino := set_type INODE_FREE y]> (inodes s)) (num_inodes s - 1)).
Proof. intros H. unfold release_inode. by rewrite (upd_inode_ok _ _ _ _ H). Qed.

(** Why adding failed, in terms of the file system before the new inode was set up. *)
Lemma add_fails_view s d x nm r :
  zget (inodes s) d = Some x -> inode_ok x ->
  (i_type x = INODE_FREE \/ i_type x = INODE_FILE \/ i_type x = INODE_DIR) ->
  (r = E_INVAL /\ i_type x ≠ INODE_DIR) \/ (r = E_NOMEM /\ i_type x = INODE_DIR /\ i_count x = MAX_DIR_ENTRIES) \/
  (r = E_EXIST /\ i_type x = INODE_DIR /\ exists i ino, first_entry (ents x) nm i ino) ->
  add_fails (view (inodes s)) d nm r.
Proof.
  intros Hx Hok Ht [[-> Hn]|[(-> & Hd & Hc)|(-> & Hd & i & ino & Hf & _)]].
  - apply AddNotDir. intros es. rewrite (view_some _ _ _ Hx). intros (_ & H1 & H2)%node_dir. tauto.
  - eapply AddFull; [rewrite (view_some _ _ _ Hx); by apply node_is_dir|]. by rewrite ents_length.
  - eapply AddExists; [rewrite (view_some _ _ _ Hx); by apply node_is_dir|]. by eapply list_elem_of_lookup_2.
Qed.

Lemma can_add_view s d x nm :
  zget (inodes s) d = Some x -> inode_ok x -> i_type x = INODE_DIR -> i_count x < MAX_DIR_ENTRIES -> no_entry (ents x) nm ->
  can_add (view (inodes s)) d nm (ents x).
Proof.
  intros Hx Hok Hd Hc Hn. split; [rewrite (view_some _ _ _ Hx); by apply node_is_dir|]. by rewrite ents_length.
Qed.

Lemma serve_create s d nm mode : fs_inv s -> req_ok (view (inodes s)) (Create d nm mode) -> served s (Create d nm mode).
Proof.
  intros Hi [Hd Hn]. destruct (inode_at _ _ d (fi_inodes _ Hi) Hd) as (x & Hx & Hok & Hpos).
  set (s1 := count_ops 0 0 0 1 s).
  destruct (alloc_inode_ok _ s1 (fi_inodes _ Hi)) as [[E Hfull]|(ino & x0 & E & Hino & Hx0 & Ht0)].
  { eapply served_same; [cbn [serve]; unfold handle_create; fold s1; by rewrite E|done|done|].
    apply ACreateFull. intros i Hir. destruct (inode_at _ _ i (fi_inodes _ Hi)) as (y & Hy & _); [lia|].
    rewrite (view_some _ _ _ Hy), node_is_free. by eapply Hfull. }
  cbn [serve]. unfold served, serve, handle_create. fold s1. rewrite E. cbn [mbind option_bind].
  rewrite (proj2 (Z.ltb_ge _ _)) by lia. rewrite (init_inode_eq s1 ino x0) by done. cbn [mbind option_bind].
  destruct (new_inode_ok INODE_FILE mode) as [Hnew Hnew0]. set (y := new_inode INODE_FILE mode) in *.
  set (s2 := with_inodes s1 _ _).
  assert (exists xd, zget (inodes s2) d = Some xd /\ inode_ok xd /\
    (forall k m, i_type xd = INODE_DIR -> (k, m) ∈ ents xd -> 0 < k < MAX_INODES) /\ (xd = x \/ d = ino /\ i_type xd = INODE_FILE)) as (xd & Hxd & Hokd & Hposd & Hcase).
  { cbn [inodes s2 with_inodes]. rewrite (zget_insert _ _ x0) by done. case_decide as Hdi; [|exists x; tauto].
    exists y. split; [done|]. split; [done|]. split; [|by right]. done. }
  assert (zget (inodes s2) ino = Some y) as Hy2 by (cbn [inodes s2 with_inodes]; rewrite (zget_insert _ _ x0), decide_True; done).
  destruct (dir_add_entry_ok s2 d xd nm ino Hxd Hokd Hn Hposd) as (r & s3 & E3 & [[[S1 S2] Hr]|(-> & Hdt & Hc & Hno & x' & Hok' & Ht' & _ & He' & S1 & S2)]);
    rewrite E3; cbn [mbind option_bind].
  - assert (negb (r =? E_OK) = true) as -> by (destruct Hr as [[-> _]|[(-> & _)|(-> & _)]]; done).
    rewrite (release_eq s3 ino y) by (by rewrite S1). cbn [mbind option_bind].
    destruct (release_ok s ino x0 y (with_inodes s3 (<[Z.to_nat ino := set_type INODE_FREE y]> (inodes s3)) (num_inodes s3 - 1)) Hi Hino Hx0 Ht0 Hnew) as [Hi' Hv].
    { cbn [inodes with_inodes]. rewrite S1. cbn [inodes s2 s1 with_inodes count_ops]. by rewrite list_insert_insert_eq. }
    { cbn [num_inodes with_inodes]. rewrite S2. cbn. lia. }
    eexists _, _, _. split; [done|]. split; [exact Hi'|]. split; [|exact Hv]. cbn [ino_reply]. apply ACreateFails.
    destruct Hcase as [->|[-> Hf]].
    + by eapply add_fails_view; [done|done|eapply so_type, Hx; apply Hi|].
    + assert (Some x = Some x0) as [= ->] by (rewrite <- Hx; exact Hx0). destruct Hr as [[-> _]|[(_ & Hb & _)|(_ & Hb & _)]]; [|by rewrite Hf in Hb..].
      eapply add_fails_view; [done|done|by left|]. left. split; [done|]. by rewrite Ht0.
  - destruct Hcase as [->|[_ Hf]]; [|by rewrite Hf in Hdt]. cbn [negb E_OK Z.eqb].
    destruct (link_ok s ino x0 y d x x' (take 63 nm) s3 Hi Hino Hx0 Ht0 Hnew (or_introl (conj eq_refl eq_refl)) Hx Hdt Hok' Ht' He' S1 S2) as [Hi' Hv].
    eexists _, _, _. split; [done|]. split; [exact Hi'|]. split; [|exact Hv]. cbn [ino_reply].
    apply (ACreate _ d nm mode (ents x) ino); [|by apply can_add_view]. split; [done|].
    rewrite (view_some (inodes s) ino x0) by done. by apply node_is_free.
Qed.

Lemma dots_are_names : is_name dot /\ is_name dotdot.
Proof. split; intros H; repeat (apply elem_of_cons in H as [H|H]; [done|]); by apply not_elem_of_nil in H. Qed.

(** The directory handle_mkdir sets up before it is linked. *)
Lemma mkdir_inode s ino x0 mode p :
  0 < ino < MAX_INODES -> zget (inodes s) ino = Some x0 -> exists s1 y,
    (s ← init_inode s ino INODE_DIR mode; s ← upd_inode s ino (set_nlink 2);
     '(_, s) ← dir_add_entry s ino dot ino; '(_, s) ← dir_add_entry s ino dotdot p; Some s) = Some s1 /\
    inodes s1 = <[Z.to_nat ino := y]> (inodes s) /\ num_inodes s1 = num_inodes s + 1 /\
    inode_ok y /\ i_type y = INODE_DIR /\ ents y = [(ino, dot); (p, dotdot)].
Proof.
  intros Hino Hx0. rewrite (init_inode_eq s ino x0) by done. cbn [mbind option_bind]. set (sa := with_inodes _ _ _).
  destruct (new_inode_ok INODE_DIR mode) as [Hnew Hnew0].
  assert (forall z, zget (<[Z.to_nat ino := z]> (inodes s)) ino = Some z) as Hat by (intros z; by rewrite (zget_insert _ _ x0), decide_True).
  rewrite (upd_inode_ok sa ino (new_inode INODE_DIR mode)) by apply Hat. cbn [mbind option_bind].
  set (y0 := set_nlink 2 (new_inode INODE_DIR mode)). set (sb := with_inodes sa _ _).
  assert (inodes sb = <[Z.to_nat ino := y0]> (inodes s)) as Eb by (cbn; by rewrite list_insert_insert_eq).
  assert (inode_ok y0) as Hy0 by (by destruct Hnew).
  destruct (dir_add_entry_ok sb ino y0 dot ino) as (r & sc & E & [[_ [[_ ?]|[(_ & _ & ?)|(_ & _ & i & k & Hf & _)]]]|(-> & _ & _ & _ & y1 & Hy1 & Ht1 & _ & He1 & S1 & S2)]);
    [rewrite Eb; apply Hat|done|apply dots_are_names|by intros k nm _ H%not_elem_of_nil|done|done|done|].
  rewrite E. cbn [mbind option_bind]. change (ents y0) with (@nil (Z * list Z)) in He1.
  assert (inodes sc = <[Z.to_nat ino := y1]> (inodes s)) as Ec by (rewrite S1, Eb; by rewrite list_insert_insert_eq).
  assert (i_count y1 = 1) as Hc1 by (rewrite <- (ents_length y1 Hy1), He1; done).
  destruct (dir_add_entry_ok sc ino y1 dotdot p) as (r & sd & E2 & [[_ [[_ ?]|[(_ & _ & ?)|(_ & _ & i & k & Hf & _)]]]|(-> & _ & _ & _ & y2 & Hy2 & Ht2 & _ & He2 & S3 & S4)]);
    [rewrite Ec; apply Hat|done|apply dots_are_names| |done|by rewrite Hc1 in *| |].
  - intros k nm _. rewrite He1. intros Hk%list_elem_of_singleton. by injection Hk as -> _.
  - rewrite He1 in Hf. apply list_elem_of_lookup_2, list_elem_of_singleton in Hf. done.
  - rewrite E2. cbn [mbind option_bind]. exists sd, y2. split; [done|].
    split; [by rewrite S3, Ec, list_insert_insert_eq|]. split; [rewrite S4, S2; done|]. split; [done|]. split; [done|].
    rewrite He2, He1. done.
Qed.

Lemma serve_mkdir s d nm mode : fs_inv s -> req_ok (view (inodes s)) (Mkdir d nm mode) -> served s (Mkdir d nm mode).
Proof.
  intros Hi (Hd & Hn & Hlive). destruct (inode_at _ _ d (fi_inodes _ Hi) Hd) as (x & Hx & Hok & Hpos).
  rewrite (view_some _ _ _ Hx), node_is_free in Hlive.
  destruct (alloc_inode_ok _ s (fi_inodes _ Hi)) as [[E Hfull]|(ino & x0 & E & Hino & Hx0 & Ht0)].
  { eapply served_same; [cbn [serve]; unfold handle_mkdir; by rewrite E|done|done|].
    apply AMkdirFull. intros i Hir. destruct (inode_at _ _ i (fi_inodes _ Hi)) as (y & Hy & _); [lia|].
    rewrite (view_some _ _ _ Hy), node_is_free. by eapply Hfull. }
  assert (d ≠ ino) as Hdi by (intros ->; rewrite Hx in Hx0; injection Hx0 as ->; done).
  unfold served, serve, handle_mkdir. rewrite E. cbn [mbind option_bind]. rewrite (proj2 (Z.ltb_ge _ _)) by lia.
  destruct (mkdir_inode s ino x0 mode d Hino Hx0) as (s2 & y & Ec & S1 & S2 & Hy & Hty & Hey).
  destruct (init_inode s ino INODE_DIR mode) as [sa|]; [|done]. cbn [mbind option_bind] in Ec |- *.
  destruct (upd_inode sa ino (set_nlink 2)) as [sb|]; [|done]. cbn [mbind option_bind] in Ec |- *.
  destruct (dir_add_entry sb ino dot ino) as [[? sc]|]; [|done]. cbn [mbind option_bind] in Ec |- *.
  destruct (dir_add_entry sc ino dotdot d) as [[? sd]|]; [|done]. cbn [mbind option_bind] in Ec |- *. injection Ec as ->.
  assert (zget (inodes s2) d = Some x) as Hx2 by (by rewrite S1, (zget_insert _ _ x0), decide_False).
  assert (zget (inodes s2) ino = Some y) as Hy2 by (by rewrite S1, (zget_insert _ _ x0), decide_True).
  destruct (dir_add_entry_ok s2 d x nm ino Hx2 Hok Hn Hpos) as (r & s3 & E3 & [[[S3 S4] Hr]|(-> & Hdt & Hc & Hno & x' & Hok' & Ht' & _ & He' & S3 & S4)]);
    rewrite E3; cbn [mbind option_bind].
  - assert (negb (r =? E_OK) = true) as -> by (destruct Hr as [[-> _]|[(-> & _)|(-> & _)]]; done).
    rewrite (release_eq s3 ino y) by (by rewrite S3). cbn [mbind option_bind].
    destruct (release_ok s ino x0 y (with_inodes s3 (<[Z.to_nat ino := set_type INODE_FREE y]> (inodes s3)) (num_inodes s3 - 1)) Hi Hino Hx0 Ht0 Hy) as [Hi' Hv].
    { cbn [inodes with_inodes]. by rewrite S3, S1, list_insert_insert_eq. }
    { cbn [num_inodes with_inodes]. lia. }
    eexists _, _, _. split; [done|]. split; [exact Hi'|]. split; [|exact Hv]. cbn [ino_reply]. apply AMkdirFails.
    by eapply add_fails_view; [done|done|eapply so_type, Hx; apply Hi|].
  - cbn [negb E_OK Z.eqb]. rewrite S1 in S3.
    assert (zget (inodes s3) d = Some x') as Hx3.
    { rewrite S3, (zget_insert _ _ x), decide_True; [done|done|by rewrite (zget_insert _ _ x0), decide_False]. }
    rewrite (upd_inode_ok s3 d x') by done. cbn [mbind option_bind]. set (x'' := set_nlink _ x').
    assert (inode_ok x'') as Hok'' by (by destruct Hok').
    assert (0 < d < MAX_INODES) as Hdr.
    { destruct (fi_zero _ Hi) as (w0 & Hw & Hw0). assert (d ≠ 0) by (intros ->; congruence). lia. }
    destruct (link_ok s ino x0 y d x x'' (take 63 nm) (with_inodes s3 (<[Z.to_nat d := x'']> (inodes s3)) (num_inodes s3)) Hi Hino Hx0 Ht0 Hy
      (or_intror (conj Hty (conj Hey Hdr))) Hx Hdt Hok'' Ht' He') as [Hi' Hv].
    { cbn [inodes with_inodes]. by rewrite S3, list_insert_insert_eq. }
    { cbn [num_inodes with_inodes]. lia. }
    eexists _, _, _. split; [done|]. split; [exact Hi'|]. rewrite (node_is_dir y Hty), Hey in Hv. split; [|exact Hv]. cbn [ino_reply].
    apply (AMkdir _ d nm mode (ents x) ino); [|by apply can_add_view]. split; [done|].
    rewrite (view_some (inodes s) ino x0) by done. by apply node_is_free.
Qed.

Lemma delete_elem (l : list (Z * list Z)) i k m : (k, m) ∈ delete i l -> (k, m) ∈ l.
Proof.
  rewrite delete_take_drop. intros [H|H]%elem_of_app.
  - apply list_elem_of_lookup in H as [j Hj]. apply lookup_take_Some in Hj as [Hj _]. by eapply list_elem_of_lookup_2.
  - apply list_elem_of_lookup in H as [j Hj]. rewrite lookup_drop in Hj. by eapply list_elem_of_lookup_2.
Qed.

(** The file behind an entry is freed and the entry removed. *)
Lemma unlink_ok s d x x' i k nm xk s' :
  fs_inv s -> zget (inodes s) d = Some x -> i_type x = INODE_DIR -> ents x !! i = Some (k, nm) ->
  zget (inodes s) k = Some xk -> i_type xk = INODE_FILE -> inode_ok x' -> i_type x' = INODE_DIR -> ents x' = delete i (ents x) ->
  inodes s' = <[Z.to_nat d := x']> (<[Z.to_nat k := set_type INODE_FREE (set_nlink 0 xk)]> (inodes s)) ->
  num_inodes s' = num_inodes s - 1 ->
  fs_inv s' /\ veq (view (inodes s')) (put (put (view (inodes s)) k None) d (Some (Dir (delete i (ents x))))).
Proof.
  intros [H1 (x1 & H2 & H2') (z0 & H3 & H3') H4] Hx Htx Hi Hk Htk Hx' Htx' He' E1 E2.
  assert (d ≠ k) as Hdk by (intros ->; rewrite Hk in Hx; injection Hx as ->; rewrite Htk in Htx; done).
  assert (k ≠ 1) as Hk1 by (intros ->; rewrite H2 in Hk; injection Hk as ->; rewrite H2' in Htk; done).
  assert (k ≠ 0) as Hk0 by (intros ->; rewrite H3 in Hk; injection Hk as ->; rewrite H3' in Htk; done).
  assert (d ≠ 0) as Hd0 by (intros ->; rewrite H3 in Hx; injection Hx as <-; rewrite H3' in Htx; done).
  set (y := set_type INODE_FREE (set_nlink 0 xk)) in *. set (l1 := <[Z.to_nat k := y]> (inodes s)) in *.
  assert (zget l1 d = Some x) as Hx1 by (unfold l1; rewrite (zget_insert _ _ xk), decide_False; done).
  assert (inode_ok y) as Hy by (by destruct (so_inode _ _ H1 _ _ Hk)).
  assert (forall f, names f y = names f xk) as Hny by (intros f; by rewrite !names_other by (cbn; rewrite ?Htk; done)).
  assert (inodes_ex (fun f => f = k) l1) as Hl1.
  { eapply set_inode_ok; [done|done|done|by left|done| |tauto|tauto].
    intros f z Hf Hfi _ _. left. split; [tauto|apply Hny]. }
  assert (forall f, names f x = (names f x' + if decide (k = f) then 1 else 0)%nat) as Hnx.
  { intros f. apply (names_remove f x x' i k nm); [congruence|done|done|done]. }
  assert (nrefs (<[Z.to_nat d := x']> l1) k = 0%nat) as Hzero.
  { pose proof (nrefs_insert l1 d x x' k Hx1) as N1. pose proof (nrefs_insert _ _ _ y k Hk) as N2. fold l1 in N2.
    rewrite Hny in N2. destruct (so_file _ _ H1 k xk) as [N3 _]; [tauto|done|done|]. rewrite Hnx, decide_True in N1 by done. lia. }
  split.
  - split; rewrite ?E1.
    + eapply (set_inode_ok (fun f => f = k) (fun _ => False)); [done|done|done|by right; right| | |by rewrite Htx'|by rewrite Htx'].
      * intros k' m _ Hin. rewrite He' in Hin. apply delete_elem in Hin. by eapply so_ents.
      * intros f z _ Hfd Hz Hzt. destruct (decide (f = k)) as [->|Hfk].
        -- right. unfold l1 in Hz. rewrite (zget_insert _ _ xk), decide_True in Hz by done. injection Hz as <-. by split.
        -- left. split; [done|]. rewrite (Hnx f), decide_False by done. lia.
    + rewrite (zget_insert _ _ x) by done. case_decide; [by exists x'|]. unfold l1.
      rewrite (zget_insert _ _ xk), decide_False by done. by exists x1.
    + rewrite (zget_insert _ _ x), decide_False by done. unfold l1.
      rewrite (zget_insert _ _ xk), decide_False by done. by exists z0.
    + rewrite E2, H4. pose proof Hk as Hk'. apply zget_lookup in Hx1 as [_ Hx1], Hk' as [_ Hk'].
      pose proof (tally_insert in_use _ _ _ y Hk') as N1. pose proof (tally_insert in_use _ _ _ x' Hx1) as N2. fold l1 in N1.
      assert (in_use xk = 1%nat) by (unfold in_use; by rewrite Htk). assert (in_use y = 0%nat) by done.
      assert (in_use x' = in_use x) by (unfold in_use; by rewrite Htx, Htx'). lia.
  - intros j. rewrite E1, (view_insert _ _ x) by done. unfold put. rewrite (node_is_dir x' Htx'), He'. case_decide; [done|].
    unfold l1. rewrite (view_insert _ _ xk) by done. unfold put. case_decide; [by apply node_is_free|done].
Qed.

Lemma serve_unlink s d nm : fs_inv s -> req_ok (view (inodes s)) (Unlink d nm) -> served s (Unlink d nm).
Proof.
  intros Hi [Hd Hn]. destruct (inode_at _ _ d (fi_inodes _ Hi) Hd) as (x & Hx & Hok & Hpos).
  destruct (dir_lookup_ok s d x nm Hx Hok) as (k & E & Hr).
  destruct Hr as [[-> Hno]|[Ht (i & Hf)]].
  { eapply served_same; [cbn [serve]; unfold handle_unlink; by rewrite E|done|done|]. apply AUnlinkNone. by eapply not_found. }
  pose proof Hf as [Hl _]. pose proof (list_elem_of_lookup_2 _ _ _ Hl) as Hin. pose proof (Hpos k nm Ht Hin) as Hk.
  destruct (inode_at _ _ k (fi_inodes _ Hi) ltac:(lia)) as (xk & Hxk & Hokk & _).
  assert (view (inodes s) d = Some (Dir (ents x))) as Hvd by (rewrite (view_some _ _ _ Hx); by apply node_is_dir).
  destruct (Z.eqb_spec (i_type xk) INODE_DIR) as [Hkd|Hkd].
  { eapply served_same; [cbn [serve]; unfold handle_unlink; rewrite E; cbn [mbind option_bind];
      rewrite (proj2 (Z.ltb_ge _ _)) by lia; cbn [inodes count_ops]; rewrite Hxk; cbn [mbind option_bind]; rewrite Hkd; done|done|done|].
    eapply AUnlinkDir; [done|done|rewrite (view_some _ _ _ Hxk); by apply node_is_dir]. }
  assert (i_type xk = INODE_FILE) as Hkf.
  { destruct (so_type _ _ (fi_inodes _ Hi) _ _ Hxk) as [Hfree|[?|?]]; [|done|done]. exfalso.
    pose proof (nrefs_member _ _ _ _ _ Hx Ht Hin) as H1. rewrite (so_free _ _ (fi_inodes _ Hi) k xk) in H1; [lia|tauto|done|done]. }
  destruct (so_file _ _ (fi_inodes _ Hi) k xk) as [_ Hnl]; [tauto|done|done|].
  assert (d ≠ k) as Hdk by (intros ->; rewrite Hxk in Hx; injection Hx as ->; done).
  unfold served, serve, handle_unlink. rewrite E. cbn [mbind option_bind]. rewrite (proj2 (Z.ltb_ge _ _)) by lia.
  cbn [inodes count_ops]. rewrite Hxk. cbn [mbind option_bind]. rewrite (proj2 (Z.eqb_neq _ _) Hkd), Hnl.
  change (u32 (1 - 1)) with 0. cbn [Z.eqb]. set (s1 := count_ops 0 0 1 0 s).
  rewrite (upd_inode_ok s1 k xk) by done. cbn [mbind option_bind]. set (s2 := with_inodes s1 _ _).
  rewrite (release_eq s2 k (set_nlink 0 xk)) by (cbn [inodes s2 with_inodes]; rewrite (zget_insert _ _ xk), decide_True; done).
  cbn [mbind option_bind]. set (s3 := with_inodes s2 _ _). cbn [inodes s2 with_inodes] in s3.
  assert (inodes s3 = <[Z.to_nat k := set_type INODE_FREE (set_nlink 0 xk)]> (inodes s)) as E3 by (cbn; by rewrite list_insert_insert_eq).
  assert (zget (inodes s3) d = Some x) as Hx3 by (by rewrite E3, (zget_insert _ _ xk), decide_False).
  unfold dir_remove_entry. rewrite Hx3. cbn [mbind option_bind]. rewrite Ht. cbn [negb Z.eqb INODE_DIR Pos.eqb].
  destruct (find_entry_ok x nm Hok) as [[_ Hno]|(j & ino & -> & Hf2 & e & _ & _ & Hlt)]; [by apply Hno in Hin|].
  assert (j = i /\ ino = k) as [-> ->].
  { destruct Hf as [A1 A2], Hf2 as [B1 B2]. assert (j = i) as ->; [|split; [done|congruence]].
    destruct (Nat.lt_trichotomy j i) as [H|[H|H]]; [exfalso; by eapply A2|done|exfalso; by eapply B2]. }
  cbn [mbind option_bind]. rewrite (proj2 (Z.ltb_ge _ _)) by lia.
  destruct (remove_entry_ok x (Z.of_nat i) Hok ltac:(lia)) as (es & -> & Hok' & He'). cbn [mbind option_bind]. rewrite Nat2Z.id in He'.
  rewrite (upd_inode_ok s3 d x) by done. cbn [mbind option_bind]. set (x' := set_dir _ _ x) in *.
  destruct (unlink_ok s d x x' i k nm xk (with_inodes s3 (<[Z.to_nat d := x']> (inodes s3)) (num_inodes s3)) Hi Hx Ht Hl Hxk Hkf Hok' Ht He') as [Hi' Hv].
  { cbn [inodes with_inodes]. by rewrite E3. }
  { done. }
  eexists _, _, _. split; [done|]. split; [exact Hi'|]. split; [|exact Hv]. cbn [Z.eqb E_OK].
  eapply (AUnlink _ d nm (ents x) i k); [done|done|]. rewrite (view_some _ _ _ Hxk). by apply node_is_file.
Qed.

(** ** Histories *)

Lemma serve_ok s r : fs_inv s -> req_ok (view (inodes s)) r -> served s r.
Proof.
  destruct r; [apply serve_lookup|apply serve_create|apply serve_mkdir|apply serve_read|apply serve_write|apply serve_unlink].
Qed.

Definition zero_fs : ramfs := mk_ramfs (replicate 128 zero_inode) 0 0 0 0 0.

Definition root_fs : afs := fun i => if decide (i = 1) then Some (Dir [(1, dot); (1, dotdot)]) else None.

Lemma zget_replicate {A} (n : nat) (x : A) i : zget (replicate n x) i = if decide (0 <= i < Z.of_nat n) then Some x else None.
Proof.
  unfold zget. case_decide as H0; [|by rewrite decide_False by lia]. case_decide as H1.
  - apply lookup_replicate. split; [done|lia].
  - apply lookup_ge_None_2. rewrite length_replicate. lia.
Qed.

Lemma zero_inode_ok : inode_ok zero_inode.
Proof. destruct (new_inode_ok 0 0) as [[D1 D2 D3 D4 D5 D6] _]. by split. Qed.

Lemma nrefs_zero l f : Forall (fun x => i_type x ≠ INODE_DIR) l -> nrefs l f = 0%nat.
Proof.
  unfold nrefs. induction 1 as [|x l Hx _ IH]; [done|]. cbn [tally]. by rewrite names_other, IH.
Qed.

Lemma tally_zero l : Forall (fun x => i_type x = INODE_FREE) l -> tally in_use l = 0%nat.
Proof. induction 1 as [|x l Hx _ IH]; [done|]. cbn [tally]. unfold in_use at 1. by rewrite Hx, IH. Qed.

(** The file system after ramfs_init holds the root directory only. *)
Lemma ramfs_init_ok :
  exists s, ramfs_init zero_fs = Some s /\ fs_inv s /\ veq (view (inodes s)) root_fs.
Proof.
  set (s0 := with_inodes zero_fs (replicate (Z.to_nat MAX_INODES) zero_inode) 0).
  assert (forall i, zget (inodes s0) i = if decide (0 <= i < 128) then Some zero_inode else None) as Hz
    by (intros i; apply (zget_replicate 128)).
  destruct (mkdir_inode s0 1 zero_inode 493 1) as (s & y & E & S1 & S2 & Hy & Ht & He); [done|by rewrite Hz|].
  exists s. split; [exact E|].
  assert (forall i, zget (inodes s) i = if decide (i = 1) then Some y else if decide (0 <= i < 128) then Some zero_inode else None) as Hg.
  { intros i. rewrite S1, (zget_insert _ _ zero_inode) by (by rewrite Hz). by rewrite Hz. }
  assert (Forall (fun x => i_type x = INODE_FREE) (inodes s0)) as Hfree by (by apply Forall_replicate).
  assert (forall f, nrefs (inodes s) f = names f y) as Hnr.
  { intros f. rewrite S1. pose proof (nrefs_insert (inodes s0) 1 zero_inode y f (Hz 1)) as N.
    rewrite (nrefs_zero (inodes s0)), (names_other f zero_inode) in N; [lia|done|]. eapply Forall_impl; [exact Hfree|]. by intros x ->. }
  assert (forall f, f ≠ 1 -> names f y = 0%nat) as Hny.
  { intros f Hf. unfold names. rewrite Ht, He, Z.eqb_refl. change ([(1, dot); (1, dotdot)].*1) with [1; 1].
    by rewrite !filter_cons, !decide_False by congruence. }
  split; [split|].
  - split.
    + rewrite S1. unfold zlen. by rewrite length_insert.
    + intros i x. rewrite Hg. repeat case_decide; intros [= <-]; [done|apply zero_inode_ok].
    + intros i x. rewrite Hg. repeat case_decide; intros [= <-]; [by right; right|by left].
    + intros i x k nm. rewrite Hg. repeat case_decide; intros [= <-]; [|done]. intros _. rewrite He.
      intros [[= -> _]|Hk]%elem_of_cons; [unfold MAX_INODES; lia|]. apply list_elem_of_singleton in Hk as [= -> _]. unfold MAX_INODES; lia.
    + intros f x _. rewrite Hg, Hnr. repeat case_decide; intros [= <-]; [by rewrite Ht|]. intros _. by apply Hny.
    + intros f x _. rewrite Hg. repeat case_decide; intros [= <-]; [by rewrite Ht|done].
  - exists y. by rewrite Hg.
  - exists zero_inode. by rewrite Hg.
  - rewrite S2, S1. pose proof (tally_insert in_use (inodes s0) 1 zero_inode y eq_refl) as N.
    rewrite (tally_zero (inodes s0)) in N by done. cbn [in_use zero_inode i_type INODE_FREE Z.eqb] in N.
    assert (in_use y = 1%nat) by (unfold in_use; by rewrite Ht). cbn [num_inodes s0 with_inodes]. change (Z.to_nat 1) with 1%nat. lia.
  - intros i. unfold view, root_fs. rewrite Hg. repeat case_decide; cbn [mbind option_bind]; [|done..]. by rewrite (node_is_dir y Ht), He.
Qed.

Fixpoint run (reqs : list req) (s : ramfs) : option (list reply * ramfs) :=
  match reqs with
  | [] => Some ([], s)
  | r :: reqs' => '(rep, s) ← serve s r; '(reps, s) ← run reqs' s; Some (rep :: reps, s)
  end.

Fixpoint run_ok (reqs : list req) (s : ramfs) : Prop :=
  match reqs with
  | [] => True
  | r :: reqs' => req_ok (view (inodes s)) r /\ forall rep s', serve s r = Some (rep, s') -> run_ok reqs' s'
  end.

(** The same requests and replies on the abstract file system. *)
Inductive aruns : afs -> list req -> list reply -> afs -> Prop :=
  | aruns_nil a a' : veq a' a -> aruns a [] [] a'
  | aruns_cons a r rep a1 a1' rs reps a' :
      astep a r rep a1 -> veq a1' a1 -> aruns a1' rs reps a' -> aruns a (r :: rs) (rep :: reps) a'.

Lemma run_refines reqs : forall s, fs_inv s -> run_ok reqs s ->
  exists reps s', run reqs s = Some (reps, s') /\ fs_inv s' /\ aruns (view (inodes s)) reqs reps (view (inodes s')).
Proof.
  induction reqs as [|r reqs IH]; intros s Hi Hr; cbn [run run_ok] in *.
  { exists [], s. split; [done|]. split; [done|]. by constructor. }
  destruct Hr as [Hrq Hr]. destruct (serve_ok s r Hi Hrq) as (rep & s1 & a1 & E & Hi1 & Ha & Hv).
  destruct (IH s1 Hi1 (Hr rep s1 E)) as (reps & s' & E' & Hi' & Ha'). rewrite E. cbn [mbind option_bind]. rewrite E'.
  exists (rep :: reps), s'. split; [done|]. split; [done|]. by econstructor.
Qed.

(** What the invariant says of the view: no entry names a free inode. *)
Definition no_dangling (a : afs) : Prop := forall d es k nm, a d = Some (Dir es) -> (k, nm) ∈ es -> a k ≠ None.

Lemma inv_no_dangling s : fs_inv s -> no_dangling (view (inodes s)).
Proof.
  intros Hi d es k nm Hd Hk. unfold view in Hd. destruct (zget (inodes s) d) as [x|] eqn:Hx; [|done]. cbn [mbind option_bind] in Hd.
  apply node_dir in Hd as (-> & H1 & H2). pose proof (so_type _ _ (fi_inodes _ Hi) _ _ Hx) as Ht.
  assert (i_type x = INODE_DIR) as Hdir by tauto. pose proof (so_ents _ _ (fi_inodes _ Hi) _ _ _ _ Hx Hdir Hk) as Hr.
  destruct (inode_at _ _ k (fi_inodes _ Hi) ltac:(lia)) as (y & Hy & _). rewrite (view_some _ _ _ Hy), node_is_free. intros Hf.
  pose proof (nrefs_member _ _ _ _ _ Hx Hdir Hk) as N. rewrite (so_free _ _ (fi_inodes _ Hi) k y) in N; [lia|tauto|done|done].
Qed.

(** ** Theorems *)

(** C26.  Whatever sequence of requests is served from ramfs_init on, with inode numbers inside
    the table and writes that start inside a file's 4096 bytes: no handler leaves its arrays,
    each reply and each change is the one of the abstract file system, and at the end no
    directory entry names a free inode, every file is named by exactly one entry and
    [num_inodes] is the number of inodes in use. *)
Theorem ramfs_history reqs :
  (forall s, ramfs_init zero_fs = Some s -> run_ok reqs s) ->
  exists s reps s', ramfs_init zero_fs = Some s /\ run reqs s = Some (reps, s') /\
    veq (view (inodes s)) root_fs /\ aruns (view (inodes s)) reqs reps (view (inodes s')) /\
    no_dangling (view (inodes s')) /\
    (forall f x, zget (inodes s') f = Some x -> i_type x = INODE_FILE -> nrefs (inodes s') f = 1%nat) /\
    num_inodes s' = Z.of_nat (tally in_use (inodes s')).
Proof.
  intros Hr. destruct ramfs_init_ok as (s & E & Hi & Hv). destruct (run_refines reqs s Hi (Hr s E)) as (reps & s' & E' & Hi' & Ha).
  exists s, reps, s'. split_and!; [done|done|done|done|by apply inv_no_dangling| |apply Hi'].
  intros f x Hf Ht. apply (so_file _ _ (fi_inodes _ Hi') f x); [tauto|done|done].
Qed.

(** A write to a file is what a later read returns: [handle_write] at an offset inside the
    file's 4096 bytes stores as many bytes as fit and reports their number, and reading that
    range gives exactly these bytes back. *)
Theorem write_read_roundtrip s i off b c :
  fs_inv s -> 0 <= i < MAX_INODES -> 0 <= off <= MAX_DATA_SIZE -> zlen b < 2 ^ 63 -> view (inodes s) i = Some (File c) ->
  exists n s1 s2, serve s (Write i off b) = Some (RCount n, s1) /\ n = Z.min (zlen b) (MAX_DATA_SIZE - off) /\
    serve s1 (Read i off n) = Some (RData (take (Z.to_nat n) b), s2) /\ fs_inv s2.
Proof.
  intros Hi Hir Ho Hb Hc. pose proof (zlen_nonneg b) as Hb0.
  destruct (serve_ok s (Write i off b) Hi) as (rep & s1 & a1 & E & Hi1 & Ha & Hv); [done|].
  inversion Ha as [| | | | | | | | | |? ? ? c' Hc' n|? ? ? Hno| | |]; subst; [|by apply Hno in Hc].
  rewrite Hc in Hc'. injection Hc' as <-. fold n in Hv, E, Ha. unfold MAX_DATA_SIZE in *.
  assert (view (inodes s1) i = Some (File (fwrite c (Z.to_nat off) (take (Z.to_nat n) b)))) as Hc1
    by (rewrite Hv; unfold put; by rewrite decide_True).
  destruct (serve_ok s1 (Read i off n) Hi1) as (rep2 & s2 & a2 & E2 & Hi2 & Ha2 & Hv2); [cbn; unfold n; lia|].
  inversion Ha2 as [| | | | | | | |? ? ? c2 Hc2|? ? ? Hno2| | | | |]; subst; [|by apply Hno2 in Hc1].
  rewrite Hc1 in Hc2. injection Hc2 as <-. exists n, s1, s2. split; [done|]. split; [done|]. split; [|done].
  rewrite E2. do 3 f_equal. unfold fwrite. set (h := take (Z.to_nat off) _).
  assert (length h = Z.to_nat off) as Hh by (unfold h; rewrite length_take, length_app, length_replicate; lia).
  rewrite drop_app, Hh, drop_ge by lia. rewrite Nat.sub_diag, drop_0. cbn [app].
  assert (length (take (Z.to_nat n) b) = Z.to_nat n) as Ht by (rewrite length_take; unfold n, zlen in *; lia).
  rewrite take_app, Ht, Nat.sub_diag, take_0, app_nil_r. rewrite take_take. f_equal. lia.
Qed.

(** A file that was created is found under its name, empty, if the name has at most 63
    bytes; a longer name is cut when it is stored, so the new file is not found under the name
    it was created with (unless an older entry has it), and creating it again succeeds. *)
Theorem create_lookup s d nm mode ino s1 :
  fs_inv s -> 0 <= d < MAX_INODES -> is_name nm -> serve s (Create d nm mode) = Some (RIno ino, s1) ->
  exists r s2, serve s1 (Lookup d nm) = Some (r, s2) /\ view (inodes s1) ino = Some (File []) /\
    r = if decide (length nm <= 63)%nat then RIno ino else RErr E_NOENT.
Proof.
  intros Hi Hd Hn E. destruct (serve_ok s (Create d nm mode) Hi (conj Hd Hn)) as (rep & s1' & a1 & E' & Hi1 & Ha & Hv).
  rewrite E in E'. injection E' as <- <-. inversion Ha as [| |? ? ? es ? [Hfr Hnone] (Hdir & Hlen & Hno)| | | | | | | | | | | |]; subst.
  assert (d ≠ ino) as Hdi by congruence.
  assert (view (inodes s1) ino = Some (File [])) as Hf.
  { rewrite Hv. unfold put. rewrite decide_False, decide_True by done. done. }
  assert (view (inodes s1) d = Some (Dir (es ++ [(ino, take 63 nm)]))) as Hd1 by (rewrite Hv; unfold put; by rewrite decide_True).
  destruct (serve_ok s1 (Lookup d nm) Hi1 (conj Hd Hn)) as (r & s2 & a2 & E2 & Hi2 & Ha2 & Hv2).
  exists r, s2. split; [done|]. split; [done|].
  inversion Ha2 as [? ? es2 i2 ino2 Hes2 [Hl2 Hlt2]|? ? Hnone2| | | | | | | | | | | | |]; subst.
  - rewrite Hd1 in Hes2. injection Hes2 as <-. apply lookup_app_Some in Hl2 as [Hl2|[_ Hl2]].
    + exfalso. apply (Hno ino2). by eapply list_elem_of_lookup_2.
    + apply list_lookup_singleton_Some in Hl2 as [_ [= -> Hnm]]. rewrite decide_True; [done|].
      rewrite <- Hnm, length_take. lia.
  - case_decide as Hle; [|done]. exfalso. apply (Hnone2 _ ino Hd1). rewrite take_ge by done. set_solver.
Qed.

(** [handle_write] does not check that the offset lies inside the file: beyond 4096 bytes
    the remaining space is computed as a huge number, and the copy leaves the file's data. *)
Theorem write_past_end s i off b x :
  zget (inodes s) i = Some x -> inode_ok x -> i_type x = INODE_FILE -> MAX_DATA_SIZE < off < 2 ^ 63 -> zlen b < 2 ^ 62 ->
  handle_write s i off b (zlen b) = None.
Proof.
  intros Hx Hok Ht Ho Hb. pose proof (zlen_nonneg b) as Hb0. unfold handle_write. cbn [inodes count_ops]. rewrite Hx. cbn [mbind option_bind].
  rewrite Ht. cbn [negb Z.eqb INODE_FILE Pos.eqb]. unfold MAX_DATA_SIZE in *. rewrite (u64_small (off + zlen b)) by lia.
  rewrite (proj2 (Z.ltb_lt _ _)) by lia. unfold slice. rewrite decide_False; [done|].
  assert (u64 (4096 - off) = 4096 - off + 2 ^ 64) as ->; [|lia].
  unfold u64, wrap. replace (4096 - off) with (4096 - off + 2 ^ 64 + (-1) * 2 ^ 64) by lia.
  rewrite Z.mod_add, Z.mod_small; lia.
Qed.

(** ** Witnesses *)

Definition req_okb (a : afs) (r : req) : bool :=
  match r with
  | Lookup d nm | Create d nm _ | Unlink d nm => (0 <=? d) && (d <? MAX_INODES) && bool_decide (0 ∉ nm)
  | Mkdir d nm _ => (0 <=? d) && (d <? MAX_INODES) && bool_decide (0 ∉ nm) && match a d with Some _ => true | None => false end
  | Read i off n => (0 <=? i) && (i <? MAX_INODES) && (0 <=? off) && (0 <=? n)
  | Write i off b => (0 <=? i) && (i <? MAX_INODES) && (0 <=? off) && (off <=? MAX_DATA_SIZE) && (zlen b <? 2 ^ 63)
  end.

Fixpoint run_okb (reqs : list req) (s : ramfs) : bool :=
  match reqs with
  | [] => true
  | r :: reqs' => req_okb (view (inodes s)) r && match serve s r with Some (_, s') => run_okb reqs' s' | None => true end
  end.

Lemma run_okb_ok reqs s : run_okb reqs s = true -> run_ok reqs s.
Proof.
  revert s. induction reqs as [|r reqs IH]; intros s H; cbn [run_okb run_ok] in *; [done|].
  apply andb_true_iff in H as [Hr H]. split; [|intros rep s' E; rewrite E in H; by apply IH].
  destruct r; cbn [req_okb req_ok] in *; rewrite ?andb_true_iff, ?Z.leb_le, ?Z.ltb_lt, ?bool_decide_eq_true in Hr; unfold is_name; try tauto.
  destruct Hr as [[? ?] Hl]. split; [done|]. split; [done|]. by destruct (view _ _).
Qed.

Definition ex_name : list Z := [116; 101; 115; 116].
Definition ex_reqs : list req :=
  [Create 1 ex_name 420; Write 2 0 [72; 101; 108; 108; 111]; Read 2 1 63; Mkdir 1 [98; 105; 110] 493; Create 3 [115; 104] 493;
   Unlink 1 ex_name; Lookup 1 ex_name; Unlink 1 [98; 105; 110]; Create 3 [97] 420; Read 2 0 10].

Lemma ramfs_history_witness :
  exists s reps s', ramfs_init zero_fs = Some s /\ run ex_reqs s = Some (reps, s') /\
    veq (view (inodes s)) root_fs /\ aruns (view (inodes s)) ex_reqs reps (view (inodes s')) /\
    no_dangling (view (inodes s')) /\
    (forall f x, zget (inodes s') f = Some x -> i_type x = INODE_FILE -> nrefs (inodes s') f = 1%nat) /\
    num_inodes s' = Z.of_nat (tally in_use (inodes s')).
Proof.
  apply (ramfs_history ex_reqs). intros s E. apply run_okb_ok.
  assert (match ramfs_init zero_fs with Some s => run_okb ex_reqs s | None => false end = true) as H by (vm_compute; reflexivity).
  rewrite E in H. exact H.
Defined.

(** What the example is answered. *)
Example ex_replies :
  (s ← ramfs_init zero_fs; '(reps, _) ← run ex_reqs s; Some reps) =
  Some [RIno 2; RCount 5; RData [101; 108; 108; 111]; RIno 3; RIno 4; ROk; RErr E_NOENT; RErr E_PERM; RIno 2; RData []].
Proof. vm_compute. reflexivity. Qed.

(** The file system with one file, of inode 2. *)
Definition ex_fs : ramfs :=
  match ramfs_init zero_fs with
  | Some s => match serve s (Create 1 ex_name 420) with Some (_, s') => s' | None => zero_fs end
  | None => zero_fs end.

Lemma ex_fs_ok :
  fs_inv ex_fs /\ view (inodes ex_fs) 2 = Some (File []) /\ exists s, fs_inv s /\ serve s (Create 1 ex_name 420) = Some (RIno 2, ex_fs).
Proof.
  destruct ramfs_init_ok as (s & E & Hi & _).
  assert (is_name ex_name) as Hn by (intros H; repeat (apply elem_of_cons in H as [H|H]; [done|]); by apply not_elem_of_nil in H).
  destruct (serve_ok s (Create 1 ex_name 420) Hi) as (rep & s' & a & E' & Hi' & Ha & Hv); [split; [unfold MAX_INODES; lia|done]|].
  assert (s' = ex_fs) as -> by (unfold ex_fs; rewrite E, E'; done). split; [done|]. split; [vm_compute; reflexivity|].
  exists s. split; [done|]. rewrite E'. do 2 f_equal.
  assert (match ramfs_init zero_fs with Some s => match serve s (Create 1 ex_name 420) with Some (RIno 2, _) => true | _ => false end | None => false end = true) as H
    by (vm_compute; reflexivity).
  rewrite E, E' in H. destruct rep as [|[|p|]| | |]; try discriminate. destruct p as [|p|]; try discriminate. by destruct p.
Qed.

Lemma write_read_roundtrip_witness :
  exists n s1 s2, serve ex_fs (Write 2 4090 [1; 2; 3; 4; 5; 6; 7; 8; 9; 10]) = Some (RCount n, s1) /\ n = Z.min 10 (MAX_DATA_SIZE - 4090) /\
    serve s1 (Read 2 4090 n) = Some (RData (take (Z.to_nat n) [1; 2; 3; 4; 5; 6; 7; 8; 9; 10]), s2) /\ fs_inv s2.
Proof.
  destruct ex_fs_ok as (Hi & Hv & _).
  apply (write_read_roundtrip ex_fs 2 4090 [1; 2; 3; 4; 5; 6; 7; 8; 9; 10] [] Hi); [done|done|done|exact Hv].
Defined.

Lemma create_lookup_witness :
  exists r s2, serve ex_fs (Lookup 1 ex_name) = Some (r, s2) /\ view (inodes ex_fs) 2 = Some (File []) /\ r = RIno 2.
Proof.
  destruct ex_fs_ok as (_ & _ & s & Hi & E).
  destruct (create_lookup s 1 ex_name 420 2 ex_fs Hi) as (r & s2 & E2 & Hf & Hr); [done| |exact E|].
  - intros H. repeat (apply elem_of_cons in H as [H|H]; [done|]). by apply not_elem_of_nil in H.
  - exists r, s2. split; [exact E2|]. split; [exact Hf|exact Hr].
Defined.

Lemma write_past_end_witness : handle_write ex_fs 2 5000 [7] 1 = None.
Proof.
  destruct ex_fs_ok as (Hi & _). destruct (inode_at _ _ 2 (fi_inodes _ Hi)) as (x & Hx & Hok & _); [done|].
  apply (write_past_end ex_fs 2 5000 [7] x Hx Hok); [|done|done].
  assert (zget (inodes ex_fs) 2 = Some x -> i_type x = INODE_FILE) as H; [|exact (H Hx)].
  vm_compute. by intros [= <-].
Defined.
