(* ===== verification/Vfs.v ===== *)
(** * VFS server (servers/vfs/main.c)

    The mount table and the table of open files of the VFS server, and its request handlers.
    Paths are the bytes of C strings; the paths of mounts are 256-byte fields.  An index outside
    a table, and an overflow of one of the int counters, is [None].  The handlers are given the
    caller's PID, as in the source; printing is left out. *)
From S2P Require Import Prelude Defs Server.

(** ** The code *)

Definition MAX_MOUNTS : Z := 16.
Definition MAX_OPEN_FILES : Z := 128.
Definition MAX_PATH : Z := 256.

Definition O_WRONLY : Z := 1.
Definition O_RDWR : Z := 2.

Definition SEEK_SET : Z := 0.
Definition SEEK_CUR : Z := 1.
Definition SEEK_END : Z := 2.

Record mount_entry := mk_mount {
  m_path : list Z;
  fs_endpoint : Z;
  root_inode : Z;
  m_flags : Z
}.

Record open_file := mk_open_file {
  owner_pid : Z;
  mount_idx : Z;
  f_inode : Z;
  f_offset : Z;
  f_flags : Z;
  refcount : Z
}.

Record vfs := mk_vfs {
  mounts : list mount_entry;
  files : list open_file;
  num_mounts : Z;
  num_open_files : Z;
  open_count : Z;
  read_count : Z;
  write_count : Z;
  close_count : Z
}.

Definition zero_mount : mount_entry := mk_mount (replicate 256 0) 0 0 0.
Definition zero_file : open_file := mk_open_file 0 0 0 0 0 0.

(** The static tables as the program starts, and after vfs_init (which creates the endpoint). *)
Definition vfs_start : vfs :=
  mk_vfs (replicate 16 zero_mount) (replicate 128 zero_file) 0 0 0 0 0 0.
Definition vfs_init (s : vfs) : vfs :=
  mk_vfs (replicate 16 zero_mount) (replicate 128 zero_file) (num_mounts s) (num_open_files s)
    (open_count s) (read_count s) (write_count s) (close_count s).

Definition with_mounts (s : vfs) (l : list mount_entry) (n : Z) : vfs :=
  mk_vfs l (files s) n (num_open_files s) (open_count s) (read_count s) (write_count s) (close_count s).
Definition with_files (s : vfs) (l : list open_file) (n : Z) : vfs :=
  mk_vfs (mounts s) l (num_mounts s) n (open_count s) (read_count s) (write_count s) (close_count s).
Definition count_vfs (o r w c : Z) (s : vfs) : vfs :=
  mk_vfs (mounts s) (files s) (num_mounts s) (num_open_files s) (u64 (open_count s + o)) (u64 (read_count s + r))
    (u64 (write_count s + w)) (u64 (close_count s + c)).

(** An int: overflow is undefined. *)
Definition int (x : Z) : option Z := if decide (- 2 ^ 31 <= x < 2 ^ 31) then Some x else None.

(** [strncmp(path, mpath, strlen(mpath)) == 0] and the test of the byte behind the prefix. *)
Definition path_covers (mpath path : list Z) : bool :=
  bool_decide (take (length mpath) path = mpath) &&
  match (path ++ [0]) !! length mpath with
  | Some c => (c =? 0) || (c =? 47)
  | None => false
  end.

Definition find_mount (s : vfs) (path : list Z) : option Z :=
  '(best_match, _) ← for_range (Z.to_nat MAX_MOUNTS) 0
    (fun i '(best_match, best_len) =>
       m ← zget (mounts s) i;
       if fs_endpoint m =? 0 then Some (best_match, best_len) else
       let mpath := c_string (m_path m) in
       let mount_len := zlen mpath in
       Some (if path_covers mpath path
             then if best_len <? mount_len then (i, mount_len) else (best_match, best_len)
             else (best_match, best_len)))
    (-1, 0);
  Some best_match.

Definition alloc_file (s : vfs) : option Z :=
  r ← for_return (Z.to_nat MAX_OPEN_FILES) 0
        (fun i (_ : unit) => f ← zget (files s) i; Some (if refcount f =? 0 then inr i else inl tt)) tt;
  Some (match r with inr i => i | inl _ => -1 end).

Definition free_mount_slot (s : vfs) : option Z :=
  r ← for_return (Z.to_nat MAX_MOUNTS) 0
        (fun i (_ : unit) => m ← zget (mounts s) i; Some (if fs_endpoint m =? 0 then inr i else inl tt)) tt;
  Some (match r with inr i => i | inl _ => -1 end).

Definition handle_mount (s : vfs) (target : list Z) (ep flags : Z) : option (Z * vfs) :=
  if MAX_MOUNTS <=? num_mounts s then Some (E_NOMEM, s) else
  slot ← free_mount_slot s;
  if slot <? 0 then Some (E_NOMEM, s) else
  m ← find_mount s target;
  if 0 <=? m then Some (E_EXIST, s) else
  l ← zupd (mounts s) slot
        (fun m => mk_mount (strncpy_field (m_path m) target (Z.to_nat (MAX_PATH - 1))) ep 1 flags);
  n ← int (num_mounts s + 1);
  Some (E_OK, with_mounts s l n).

(** The status and the descriptor stored through [out_fd]. *)
Definition handle_open (s : vfs) (pid : Z) (path : list Z) (flags : Z) : option (Z * option Z * vfs) :=
  let s := count_vfs 1 0 0 0 s in
  midx ← find_mount s path;
  if midx <? 0 then Some (E_NOENT, None, s) else
  fd ← alloc_file s;
  if fd <? 0 then Some (E_NOMEM, None, s) else
  l ← zset (files s) fd (mk_open_file pid (u32 midx) 42 0 flags 1);
  n ← int (num_open_files s + 1);
  Some (E_OK, Some fd, with_files s l n).

Definition handle_close (s : vfs) (pid fd : Z) : option (Z * vfs) :=
  let s := count_vfs 0 0 0 1 s in
  if (fd <? 0) || (MAX_OPEN_FILES <=? fd) then Some (E_INVAL, s) else
  f ← zget (files s) fd;
  if refcount f =? 0 then Some (E_INVAL, s) else
  if negb (owner_pid f =? pid) then Some (E_PERM, s) else
  let r := u32 (refcount f - 1) in
  if r =? 0 then
    l ← zset (files s) fd zero_file; n ← int (num_open_files s - 1); Some (E_OK, with_files s l n)
  else
    l ← zset (files s) fd (mk_open_file (owner_pid f) (mount_idx f) (f_inode f) (f_offset f) (f_flags f) r);
    Some (E_OK, with_files s l (num_open_files s)).

Definition set_offset (o : Z) (f : open_file) : open_file :=
  mk_open_file (owner_pid f) (mount_idx f) (f_inode f) o (f_flags f) (refcount f).

(** The status and the number of bytes stored through [bytes_read]. *)
Definition handle_read (s : vfs) (pid fd count : Z) : option (Z * option Z * vfs) :=
  let s := count_vfs 0 1 0 0 s in
  if (fd <? 0) || (MAX_OPEN_FILES <=? fd) then Some (E_INVAL, None, s) else
  f ← zget (files s) fd;
  if (refcount f =? 0) || negb (owner_pid f =? pid) then Some (E_INVAL, None, s) else
  let n := if 0 <? count then 1 else 0 in
  l ← zset (files s) fd (set_offset (u64 (f_offset f + n)) f);
  Some (E_OK, Some n, with_files s l (num_open_files s)).

Definition handle_write (s : vfs) (pid fd count : Z) : option (Z * option Z * vfs) :=
  let s := count_vfs 0 0 1 0 s in
  if (fd <? 0) || (MAX_OPEN_FILES <=? fd) then Some (E_INVAL, None, s) else
  f ← zget (files s) fd;
  if (refcount f =? 0) || negb (owner_pid f =? pid) then Some (E_INVAL, None, s) else
  if (Z.land (f_flags f) O_WRONLY =? 0) && (Z.land (f_flags f) O_RDWR =? 0) then Some (E_PERM, None, s) else
  l ← zset (files s) fd (set_offset (u64 (f_offset f + count)) f);
  Some (E_OK, Some count, with_files s l (num_open_files s)).

(** The status and the position stored through [new_offset]. *)
Definition handle_lseek (s : vfs) (pid fd offset whence : Z) : option (Z * option Z * vfs) :=
  if (fd <? 0) || (MAX_OPEN_FILES <=? fd) then Some (E_INVAL, None, s) else
  f ← zget (files s) fd;
  if (refcount f =? 0) || negb (owner_pid f =? pid) then Some (E_INVAL, None, s) else
  let file_size := 1024 in
  let go (new_pos : Z) :=
    l ← zset (files s) fd (set_offset new_pos f);
    Some (E_OK, Some new_pos, with_files s l (num_open_files s)) in
  if whence =? SEEK_SET then go (u64 offset) else
  if whence =? SEEK_CUR then go (u64 (f_offset f + offset)) else
  if whence =? SEEK_END then go (u64 (file_size + offset)) else
  Some (E_INVAL, None, s).
