(* ===== verification/VfsSpec.v ===== *)
(** * The VFS server refines its specification

    A name space is a sequence of mounts and a map from descriptors to open files; a path belongs to
    the longest mount that covers it, and a process reaches its own files only.  [spec_step] is the
    specification; [code_step] is what the handlers of servers/vfs/main.c do, which is the same for
    mounts at paths that do not end in a slash and are not below one another. *)
From S2P Require Import Prelude Defs Server Vfs.

(** ** The abstract name space *)

Record amount := mk_amount { am_path : list Z; am_ep : Z; am_flags : Z }.
Record afile := mk_afile { af_owner : Z; af_mount : Z; af_pos : Z; af_flags : Z }.
Record avfs := mk_avfs { a_mounts : list amount; a_files : Z -> option afile }.

Definition slash : Z := 47.

(** The mount at [p] covers [p] itself and the paths that continue it with a slash; the mount at the
    root covers every absolute path. *)
Definition continues (p path : list Z) : Prop := path = p \/ exists r, path = p ++ slash :: r.
Definition covers (p path : list Z) : Prop := continues p path \/ (p = [slash] /\ exists r, path = slash :: r).

(** What [find_mount] looks for.  It differs from [covers] for mounts that end in a slash. *)
Definition matches (p path : list Z) : Prop := p ≠ [] /\ continues p path.

(** Mount [i] is the longest that covers the path, and the first of that length. *)
Definition resolves (cov : list Z -> list Z -> Prop) (ms : list amount) (path : list Z) (i : nat) : Prop :=
  exists m, ms !! i = Some m /\ cov (am_path m) path /\
    forall j m', ms !! j = Some m' -> cov (am_path m') path ->
      (length (am_path m') <= length (am_path m))%nat /\ ((j < i)%nat -> (length (am_path m') < length (am_path m))%nat).
Definition unresolved (cov : list Z -> list Z -> Prop) (ms : list amount) (path : list Z) : Prop :=
  forall m, m ∈ ms -> ~ cov (am_path m) path.

(** A mount at this very path; and what [handle_mount] takes for one. *)
Definition mounted_at (ms : list amount) (t : list Z) : Prop := exists m, m ∈ ms /\ am_path m = t.
Definition reached (ms : list amount) (t : list Z) : Prop := exists m, m ∈ ms /\ matches (am_path m) t.

Inductive req :=
  | Mount (target : list Z) (ep flags : Z)
  | Open (pid : Z) (path : list Z) (flags : Z)
  | Close (pid fd : Z)
  | Read (pid fd count : Z)
  | Write (pid fd count : Z)
  | Lseek (pid fd offset whence : Z).

Inductive reply := RErr (e : Z) | ROk | RFd (fd : Z) | RNum (n : Z).

Definition out_reply (f : Z -> reply) (e : Z) (o : option Z) : reply := match o with Some n => f n | None => RErr e end.

(** The handler of each request. *)
Definition serve (s : vfs) (r : req) : option (reply * vfs) :=
  match r with
  | Mount t ep fl => '(e, s) ← handle_mount s t ep fl; Some (if e =? E_OK then ROk else RErr e, s)
  | Open p path fl => '(e, o, s) ← handle_open s p path fl; Some (out_reply RFd e o, s)
  | Close p fd => '(e, s) ← handle_close s p fd; Some (if e =? E_OK then ROk else RErr e, s)
  | Read p fd n => '(e, o, s) ← handle_read s p fd n; Some (out_reply RNum e o, s)
  | Write p fd n => '(e, o, s) ← handle_write s p fd n; Some (out_reply RNum e o, s)
  | Lseek p fd o w => '(e, n, s) ← handle_lseek s p fd o w; Some (out_reply RNum e n, s)
  end.

Definition put (a : avfs) (fd : Z) (o : option afile) : avfs :=
  mk_avfs (a_mounts a) (fun x => if decide (x = fd) then o else a_files a x).
Definition seek (n : Z) (f : afile) : afile := mk_afile (af_owner f) (af_mount f) n (af_flags f).
Definition owned (a : avfs) (pid fd : Z) (f : afile) : Prop := a_files a fd = Some f /\ af_owner f = pid.

(** Where a seek starts: files have no size yet, the server takes 1024. *)
Definition seek_base (f : afile) (whence : Z) : option Z :=
  if whence =? SEEK_SET then Some 0 else if whence =? SEEK_CUR then Some (af_pos f)
  else if whence =? SEEK_END then Some 1024 else None.

Definition may_write (f : afile) : Prop := Z.testbit (af_flags f) 0 = true \/ Z.testbit (af_flags f) 1 = true.

(** The least descriptor not in use. *)
Definition least_free (a : avfs) (fd : Z) : Prop :=
  0 <= fd < MAX_OPEN_FILES /\ a_files a fd = None /\ forall x, 0 <= x < fd -> a_files a x ≠ None.

(** The steps of a name space in which a mount covers paths by [cov] and a path that is [taken] cannot
    be mounted. *)
Inductive astep (cov : list Z -> list Z -> Prop) (taken : list amount -> list Z -> Prop) (a : avfs) : req -> reply -> avfs -> Prop :=
  | AMount t ep fl : zlen (a_mounts a) < MAX_MOUNTS -> ~ taken (a_mounts a) t ->
      astep cov taken a (Mount t ep fl) ROk (mk_avfs (a_mounts a ++ [mk_amount t ep fl]) (a_files a))
  | AMountFull t ep fl : zlen (a_mounts a) = MAX_MOUNTS -> astep cov taken a (Mount t ep fl) (RErr E_NOMEM) a
  | AMountExists t ep fl : taken (a_mounts a) t -> zlen (a_mounts a) < MAX_MOUNTS ->
      astep cov taken a (Mount t ep fl) (RErr E_EXIST) a
  | AOpen p path fl i fd : resolves cov (a_mounts a) path i -> least_free a fd ->
      astep cov taken a (Open p path fl) (RFd fd) (put a fd (Some (mk_afile p (Z.of_nat i) 0 fl)))
  | AOpenNone p path fl : unresolved cov (a_mounts a) path -> astep cov taken a (Open p path fl) (RErr E_NOENT) a
  | AOpenFull p path fl i : resolves cov (a_mounts a) path i -> (forall x, 0 <= x < MAX_OPEN_FILES -> a_files a x ≠ None) ->
      astep cov taken a (Open p path fl) (RErr E_NOMEM) a
  | AClose p fd f : owned a p fd f -> astep cov taken a (Close p fd) ROk (put a fd None)
  | ACloseNone p fd : a_files a fd = None -> astep cov taken a (Close p fd) (RErr E_INVAL) a
  | ACloseOther p fd f : a_files a fd = Some f -> af_owner f ≠ p -> astep cov taken a (Close p fd) (RErr E_PERM) a
  | ARead p fd n f : owned a p fd f ->
      astep cov taken a (Read p fd n) (RNum (Z.min 1 n)) (put a fd (Some (seek (u64 (af_pos f + Z.min 1 n)) f)))
  | AReadNone p fd n : (forall f, ~ owned a p fd f) -> astep cov taken a (Read p fd n) (RErr E_INVAL) a
  | AWrite p fd n f : owned a p fd f -> may_write f ->
      astep cov taken a (Write p fd n) (RNum n) (put a fd (Some (seek (u64 (af_pos f + n)) f)))
  | AWriteRead p fd n f : owned a p fd f -> ~ may_write f -> astep cov taken a (Write p fd n) (RErr E_PERM) a
  | AWriteNone p fd n : (forall f, ~ owned a p fd f) -> astep cov taken a (Write p fd n) (RErr E_INVAL) a
  | ALseek p fd off w f b : owned a p fd f -> seek_base f w = Some b ->
      astep cov taken a (Lseek p fd off w) (RNum (u64 (b + off))) (put a fd (Some (seek (u64 (b + off)) f)))
  | ALseekWhence p fd off w f : owned a p fd f -> seek_base f w = None -> astep cov taken a (Lseek p fd off w) (RErr E_INVAL) a
  | ALseekNone p fd off w : (forall f, ~ owned a p fd f) -> astep cov taken a (Lseek p fd off w) (RErr E_INVAL) a.

(** The specification, and the steps of the code. *)
Notation spec_step := (astep covers mounted_at).
Notation code_step := (astep matches reached).

(** Arguments of the requests: C strings as paths, of which a mount keeps 255 bytes, an endpoint that
    is not 0, sizes. *)
Definition req_ok (r : req) : Prop :=
  match r with
  | Mount t ep _ => is_name t /\ (length t <= 255)%nat /\ ep ≠ 0
  | Open _ path _ => is_name path
  | Read _ _ n | Write _ _ n => 0 <= n < 2 ^ 64
  | _ => True
  end.

(** ** The invariant and the view of the tables *)

Definition mount_of (m : mount_entry) : amount := mk_amount (c_string (m_path m)) (fs_endpoint m) (m_flags m).
Definition file_of (f : open_file) : option afile :=
  if refcount f =? 0 then None else Some (mk_afile (owner_pid f) (mount_idx f) (f_offset f) (f_flags f)).

Definition used (f : open_file) : nat := if refcount f =? 0 then 0%nat else 1%nat.

(** Mounts fill the table from the front; an open file has one reference; the counters count. *)
Record vfs_inv (s : vfs) (k : nat) : Prop := {
  vi_mounts : length (mounts s) = 16%nat;
  vi_k : (k <= 16)%nat;
  vi_num : num_mounts s = Z.of_nat k;
  vi_paths : Forall (fun m => str_field 255 (m_path m)) (mounts s);
  vi_used : forall i m, mounts s !! i = Some m -> (i < k)%nat <-> fs_endpoint m ≠ 0;
  vi_files : length (files s) = 128%nat;
  vi_refs : Forall (fun f => refcount f = 0 \/ refcount f = 1 /\ 0 <= mount_idx f < Z.of_nat k) (files s);
  vi_open : num_open_files s = Z.of_nat (tally used (files s))
}.

Definition view (s : vfs) (k : nat) : avfs :=
  mk_avfs (mount_of <$> take k (mounts s)) (fun fd => f ← zget (files s) fd; file_of f).

Definition aeq (a b : avfs) : Prop := a_mounts a = a_mounts b /\ forall fd, a_files a fd = a_files b fd.

(** ** Paths *)

Lemma path_covers_iff p path : is_name path -> path_covers p path = true <-> continues p path.
Proof.
  intros Hn. unfold path_covers, continues. rewrite andb_true_iff, bool_decide_eq_true. split.
  - intros [Ht H]. rewrite <- (take_drop (length p) path), Ht.
    assert (length p <= length path)%nat as Hl by (rewrite <- Ht, length_take; lia).
    destruct (drop (length p) path) as [|c r] eqn:Ed; [left; by rewrite app_nil_r|right].
    assert (path !! length p = Some c) as Hc by (rewrite <- (Nat.add_0_r (length p)), <- lookup_drop, Ed; done).
    rewrite lookup_app_l, Hc in H by (by eapply lookup_lt_Some).
    apply orb_true_iff in H as [H%Z.eqb_eq|H%Z.eqb_eq]; subst c; [|by exists r].
    destruct Hn. by eapply list_elem_of_lookup_2.
  - intros [->|[r ->]].
    + rewrite take_ge by lia. by rewrite lookup_app_r, Nat.sub_diag by lia.
    + rewrite take_app_length. rewrite <- app_assoc, lookup_app_r, Nat.sub_diag by lia. done.
Qed.

(** The mounts of a table that has [k] of them. *)
Notation mounted s k := (mount_of <$> take k (mounts s)).

Lemma mounted_lookup s k i m : vfs_inv s k -> mounts s !! i = Some m ->
  if fs_endpoint m =? 0 then mounted s k !! i = None else mounted s k !! i = Some (mount_of m).
Proof.
  intros Hi Hm. pose proof (vi_used _ _ Hi _ _ Hm) as Hu. rewrite list_lookup_fmap.
  destruct (Z.eqb_spec (fs_endpoint m) 0) as [E|E].
  - rewrite lookup_take_ge; [done|]. destruct (decide (i < k)%nat) as [H%Hu|]; [done|lia].
  - rewrite lookup_take_lt by tauto. by rewrite Hm.
Qed.

(** The best match among the first [i] mounts. *)
Definition best_among (ms : list amount) (path : list Z) (i : Z) (b : Z * Z) : Prop :=
  (b = (-1, 0) /\ forall j m, Z.of_nat j < i -> ms !! j = Some m -> continues (am_path m) path -> am_path m = []) \/
  exists j m, b = (Z.of_nat j, zlen (am_path m)) /\ Z.of_nat j < i /\ ms !! j = Some m /\ continues (am_path m) path /\ am_path m ≠ [] /\
    forall j' m', Z.of_nat j' < i -> ms !! j' = Some m' -> continues (am_path m') path ->
      (length (am_path m') <= length (am_path m))%nat /\ ((j' < j)%nat -> (length (am_path m') < length (am_path m))%nat).

Lemma best_skip ms path i b :
  0 <= i -> (forall m, ms !! Z.to_nat i = Some m -> ~ continues (am_path m) path) -> best_among ms path i b -> best_among ms path (i + 1) b.
Proof.
  intros Hi0 Hno [[-> H]|(j & m & -> & Hj & Hm & Hc & Hne & H)].
  - left. split; [done|]. intros j m Hj Hm Hc. destruct (decide (Z.of_nat j = i)) as [<-|]; [|by apply (H j m); [lia|..]].
    rewrite Nat2Z.id in Hno. by destruct (Hno _ Hm).
  - right. exists j, m. split_and!; [done|lia|done|done|done|]. intros j' m' Hj' Hm' Hc'.
    destruct (decide (Z.of_nat j' = i)) as [<-|]; [|by apply (H j' m'); [lia|..]]. rewrite Nat2Z.id in Hno. by destruct (Hno _ Hm').
Qed.

Lemma best_step ms path i b m :
  0 <= i -> ms !! Z.to_nat i = Some m -> continues (am_path m) path -> best_among ms path i b ->
  best_among ms path (i + 1) (if b.2 <? zlen (am_path m) then (i, zlen (am_path m)) else b).
Proof.
  intros Hi0 Hm Hc Hb. unfold zlen. destruct (Z.ltb_spec b.2 (Z.of_nat (length (am_path m)))) as [Hlt|Hge].
  - right. exists (Z.to_nat i), m. split_and!; [f_equal; lia|lia|done|done| |].
    { intros E. rewrite E in Hlt. destruct Hb as [[-> _]|(j & m0 & -> & _)]; cbn in Hlt; unfold zlen in *; lia. }
    intros j' m' Hj' Hm' Hc'. destruct (decide (Z.of_nat j' = i)) as [<-|Hne].
    { rewrite Nat2Z.id in *. assert (m' = m) as -> by congruence. split; lia. }
    destruct Hb as [[-> H]|(j & m0 & -> & Hj & Hm0 & Hc0 & Hne0 & H)]; cbn in Hlt.
    + rewrite (H j' m') by (done || lia). cbn. split; lia.
    + destruct (H j' m') as [H1 _]; [lia|done|done|]. unfold zlen in *. split; lia.
  - destruct Hb as [[-> H]|(j & m0 & -> & Hj & Hm0 & Hc0 & Hne0 & H)]; cbn in Hge.
    + left. split; [done|]. intros j' m' Hj' Hm' Hc'. destruct (decide (Z.of_nat j' = i)) as [<-|]; [|by apply (H j' m'); [lia|..]].
      rewrite Nat2Z.id in *. assert (m' = m) as -> by congruence. destruct (am_path m); cbn in *; [done|lia].
    + right. exists j, m0. split_and!; [done|lia|done|done|done|]. intros j' m' Hj' Hm' Hc'. unfold zlen in *.
      destruct (decide (Z.of_nat j' = i)) as [<-|]; [|by apply (H j' m'); [lia|..]]. rewrite Nat2Z.id in *. assert (m' = m) as -> by congruence. split; lia.
Qed.

Lemma find_mount_ok s k path : vfs_inv s k -> is_name path ->
  (find_mount s path = Some (-1) /\ unresolved matches (mounted s k) path) \/
  exists i, find_mount s path = Some (Z.of_nat i) /\ resolves matches (mounted s k) path i /\ (i < k)%nat.
Proof.
  intros Hi Hn. unfold find_mount.
  match goal with |- context [for_range ?n0 ?i0 ?f0 ?b0] =>
    destruct (for_range_ind (fun i b => 0 <= i /\ best_among (mounted s k) path i b) n0 i0 f0 b0) as (b' & E & _ & Hb) end.
  - split; [lia|]. left. split; [done|]. intros; lia.
  - intros j [bm bl] Hj [_ Hb]. destruct (proj2 (zget_Some (mounts s) j)) as [m Hm].
    { unfold zlen. rewrite (vi_mounts _ _ Hi). change (Z.to_nat MAX_MOUNTS) with 16%nat in Hj. lia. }
    rewrite Hm. cbn [mbind option_bind]. apply zget_lookup in Hm as [Hj0 Hm]. pose proof (mounted_lookup _ _ _ _ Hi Hm) as Hl.
    destruct (fs_endpoint m =? 0).
    { eexists. split; [done|]. split; [lia|]. apply best_skip; [done| |done]. congruence. }
    eexists. split; [done|]. split; [lia|]. destruct (path_covers _ path) eqn:Ec.
    + apply (best_step _ _ _ (bm, bl) (mount_of m)); [done|done| |done]. by apply path_covers_iff.
    + apply best_skip; [done| |done]. intros m' Hm' Hc. rewrite Hl in Hm'. injection Hm' as <-.
      apply path_covers_iff in Hc; [|done]. cbn [mount_of am_path] in Hc. congruence.
  - rewrite E. cbn [mbind option_bind]. destruct b' as [bm bl].
    assert (forall j m, mounted s k !! j = Some m -> Z.of_nat j < 0 + Z.of_nat (Z.to_nat MAX_MOUNTS) /\ (j < k)%nat) as Hall.
    { intros j m Hm. apply lookup_lt_Some in Hm. rewrite length_fmap, length_take in Hm. pose proof (vi_k _ _ Hi).
      change (Z.to_nat MAX_MOUNTS) with 16%nat. lia. }
    destruct Hb as [[[= -> ->] H]|(j & m & [= -> ->] & Hj & Hm & Hc & Hne & H)].
    + left. split; [done|]. intros m [j Hm]%list_elem_of_lookup [Hne Hc]. apply Hne. eapply H; [by eapply Hall|done..].
    + right. exists j. split; [done|]. split; [|by eapply Hall]. exists m. split; [done|]. split; [done|].
      intros j' m' Hm' [_ Hc']. eapply H; [by eapply Hall|done..].
Qed.

(** ** Tables *)

Lemma count_inv o r w c s k : vfs_inv s k -> vfs_inv (count_vfs o r w c s) k.
Proof. by intros []. Qed.

Lemma view_file s k fd f : zget (files s) fd = Some f -> a_files (view s k) fd = file_of f.
Proof. intros H. cbn [view a_files]. by rewrite H. Qed.

Lemma view_outside s k fd : vfs_inv s k -> (fd <? 0) || (MAX_OPEN_FILES <=? fd) = true -> a_files (view s k) fd = None.
Proof.
  intros Hi H. cbn [view a_files]. destruct (zget (files s) fd) as [f|] eqn:E; [|done]. apply zget_range in E.
  unfold zlen in E. rewrite (vi_files _ _ Hi) in E. apply orb_true_iff in H as [H%Z.ltb_lt|H%Z.leb_le]; unfold MAX_OPEN_FILES in *; lia.
Qed.

Definition file_ok (k : nat) (f : open_file) : Prop := refcount f = 0 \/ refcount f = 1 /\ 0 <= mount_idx f < Z.of_nat k.

Lemma file_at s k fd : vfs_inv s k -> (fd <? 0) || (MAX_OPEN_FILES <=? fd) = false ->
  exists f, zget (files s) fd = Some f /\ file_ok k f.
Proof.
  intros Hi [H1%Z.ltb_ge H2%Z.leb_gt]%orb_false_iff. destruct (proj2 (zget_Some (files s) fd)) as [f Hf].
  { unfold zlen. rewrite (vi_files _ _ Hi). unfold MAX_OPEN_FILES in *. lia. }
  exists f. split; [done|]. apply zget_lookup in Hf as [_ Hf]. exact (Forall_lookup_1 _ _ _ _ (vi_refs _ _ Hi) Hf).
Qed.

Lemma tally_used_le l : (tally used l <= length l)%nat.
Proof. induction l as [|f l IH]; [done|]. cbn [tally length]. unfold used at 1. destruct (refcount f =? 0); lia. Qed.

(** Writing an entry of the file table; the counter of open files follows it. *)
Lemma set_file_ok s k fd f f' : vfs_inv s k -> zget (files s) fd = Some f -> file_ok k f' ->
  let n := num_open_files s + Z.of_nat (used f') - Z.of_nat (used f) in
  exists l s', zset (files s) fd f' = Some l /\ int n = Some n /\ s' = with_files s l n /\
    vfs_inv s' k /\ aeq (view s' k) (put (view s k) fd (file_of f')).
Proof.
  intros Hi Hf Hok n. pose proof (zget_lookup _ _ _ Hf) as [Hfd Hf']. exists (<[Z.to_nat fd := f']> (files s)). eexists.
  split; [by rewrite zset_zupd, (zupd_ok _ _ _ _ Hf)|].
  pose proof (tally_insert used _ _ _ f' Hf') as Ht. pose proof (vi_open _ _ Hi) as Ho.
  pose proof (tally_used_le (<[Z.to_nat fd := f']> (files s))) as Hle. rewrite length_insert, (vi_files _ _ Hi) in Hle.
  split; [unfold int; rewrite decide_True; [done|unfold n; lia]|]. split; [done|]. split.
  - destruct Hi as [H1 H2 H3 H4 H5 H6 H7 H8]. split; cbn [mounts files num_mounts num_open_files with_files]; [done..| | |].
    + by rewrite length_insert.
    + by apply Forall_insert.
    + unfold n. lia.
  - split; [done|]. intros x. cbn [view put a_files files with_files]. rewrite (zget_insert _ _ f) by done. by case_decide.
Qed.

Lemma alloc_file_ok s k : vfs_inv s k ->
  (alloc_file s = Some (-1) /\ forall x, 0 <= x < MAX_OPEN_FILES -> a_files (view s k) x ≠ None) \/
  exists fd f, alloc_file s = Some fd /\ least_free (view s k) fd /\ zget (files s) fd = Some f /\ refcount f = 0.
Proof.
  intros Hi. unfold alloc_file.
  set (p := fun i => match zget (files s) i with Some f => if refcount f =? 0 then Some i else None | None => None end).
  assert (forall x, 0 <= x < MAX_OPEN_FILES -> exists f, zget (files s) x = Some f) as Hz.
  { intros x Hx. apply zget_Some. unfold zlen. rewrite (vi_files _ _ Hi). unfold MAX_OPEN_FILES in Hx. lia. }
  assert (forall x, 0 <= x < MAX_OPEN_FILES -> p x = None -> a_files (view s k) x ≠ None) as Hnone.
  { intros x Hx Hp. destruct (Hz x Hx) as [f Hf]. rewrite (view_file _ _ _ _ Hf). unfold p in Hp. rewrite Hf in Hp.
    unfold file_of. by destruct (refcount f =? 0). }
  rewrite (for_return_ext _ _ _ (fun k (_ : unit) => Some (match p k with Some r => inr r | None => inl tt end))).
  2:{ intros x [] Hx. destruct (Hz x) as [f Hf]; [unfold MAX_OPEN_FILES in *; lia|]. unfold p. rewrite Hf. cbn [mbind option_bind].
      by destruct (refcount f =? 0). }
  destruct (for_return_find (Z.to_nat MAX_OPEN_FILES) 0 p) as [(j & r & E & Hj & Hp & Hlt)|[E Hn]]; rewrite E; cbn [mbind option_bind].
  - right. assert (0 <= j < MAX_OPEN_FILES) as Hj' by (unfold MAX_OPEN_FILES in *; lia). destruct (Hz j Hj') as [f Hf].
    unfold p in Hp. rewrite Hf in Hp. destruct (Z.eqb_spec (refcount f) 0) as [Hr|]; [|done]. injection Hp as <-.
    exists j, f. split; [done|]. split; [|done]. split; [done|]. split.
    + rewrite (view_file _ _ _ _ Hf). unfold file_of. by rewrite Hr.
    + intros x Hx. apply Hnone; [lia|]. apply Hlt. lia.
  - left. split; [done|]. intros x Hx. apply Hnone; [done|]. apply Hn. unfold MAX_OPEN_FILES in *; lia.
Qed.

Lemma free_mount_slot_ok s k : vfs_inv s k -> (k < 16)%nat -> free_mount_slot s = Some (Z.of_nat k).
Proof.
  intros Hi Hk. unfold free_mount_slot.
  set (p := fun i => match zget (mounts s) i with Some m => if fs_endpoint m =? 0 then Some i else None | None => None end).
  assert (forall x, 0 <= x < MAX_MOUNTS -> exists m, zget (mounts s) x = Some m) as Hz.
  { intros x Hx. apply zget_Some. unfold zlen. rewrite (vi_mounts _ _ Hi). unfold MAX_MOUNTS in Hx. lia. }
  assert (forall x, 0 <= x < MAX_MOUNTS -> p x = if decide (x < Z.of_nat k) then None else Some x) as Hpx.
  { intros x Hx. destruct (Hz x Hx) as [m Hm]. unfold p. rewrite Hm. apply zget_lookup in Hm as [_ Hm].
    pose proof (vi_used _ _ Hi _ _ Hm). destruct (Z.eqb_spec (fs_endpoint m) 0); case_decide; try done; exfalso; [assert (fs_endpoint m ≠ 0) by (apply H; lia); done|].
    assert (Z.to_nat x < k)%nat by tauto. lia. }
  rewrite (for_return_ext _ _ _ (fun k (_ : unit) => Some (match p k with Some r => inr r | None => inl tt end))).
  2:{ intros x [] Hx. destruct (Hz x) as [f Hf]; [unfold MAX_MOUNTS in *; lia|]. unfold p. rewrite Hf. cbn [mbind option_bind].
      by destruct (fs_endpoint f =? 0). }
  destruct (for_return_find (Z.to_nat MAX_MOUNTS) 0 p) as [(j & r & E & Hj & Hp & Hlt)|[E Hn]]; rewrite E; cbn [mbind option_bind].
  - rewrite Hpx in Hp by (unfold MAX_MOUNTS in *; lia). case_decide; [done|]. injection Hp as <-.
    assert (~ Z.of_nat k < j); [|f_equal; lia]. intros Hkj. specialize (Hlt (Z.of_nat k)). rewrite Hpx, decide_False in Hlt by (unfold MAX_MOUNTS in *; lia).
    by specialize (Hlt ltac:(lia)).
  - specialize (Hn (Z.of_nat k)). rewrite Hpx, decide_False in Hn by (unfold MAX_MOUNTS in *; lia). specialize (Hn ltac:(unfold MAX_MOUNTS; lia)). done.
Qed.

(** ** The handlers *)

(** The outcome of a request: the invariant and an abstract step. *)
Definition served (s : vfs) (k : nat) (r : req) : Prop :=
  exists rep s' k' a', serve s r = Some (rep, s') /\ vfs_inv s' k' /\ code_step (view s k) r rep a' /\ aeq (view s' k') a'.

Definition afile_of (f : open_file) : afile := mk_afile (owner_pid f) (mount_idx f) (f_offset f) (f_flags f).

(** The access check of the handlers of read, write and seek decides ownership. *)
Lemma access_denied s k p fd f :
  zget (files s) fd = Some f -> (refcount f =? 0) || negb (owner_pid f =? p) = true -> forall g, ~ owned (view s k) p fd g.
Proof.
  intros Hf Ha g [Hg Ho]. rewrite (view_file _ _ _ _ Hf) in Hg. unfold file_of in Hg.
  destruct (refcount f =? 0); [done|]. injection Hg as <-. cbn [af_owner] in Ho. subst p. by rewrite Z.eqb_refl in Ha.
Qed.

Lemma access_granted s k p fd f :
  zget (files s) fd = Some f -> file_ok k f -> (refcount f =? 0) || negb (owner_pid f =? p) = false ->
  owned (view s k) p fd (afile_of f) /\ refcount f = 1 /\ 0 <= mount_idx f < Z.of_nat k.
Proof.
  intros Hf Hok [Hr Ho]%orb_false_iff. apply negb_false_iff, Z.eqb_eq in Ho. split; [split; [|done]|].
  - rewrite (view_file _ _ _ _ Hf). unfold file_of. by rewrite Hr.
  - apply Z.eqb_neq in Hr. by destruct Hok.
Qed.

(** Moving the position of an open file. *)
Lemma set_offset_ok s k fd f o : vfs_inv s k -> zget (files s) fd = Some f -> refcount f = 1 -> 0 <= mount_idx f < Z.of_nat k ->
  exists l, zset (files s) fd (set_offset o f) = Some l /\ vfs_inv (with_files s l (num_open_files s)) k /\
    aeq (view (with_files s l (num_open_files s)) k) (put (view s k) fd (Some (seek o (afile_of f)))).
Proof.
  intros Hi Hf Hr Hm. destruct (set_file_ok s k fd f (set_offset o f) Hi Hf) as (l & s' & E & _ & -> & Hi' & Hv); [by right|].
  exists l. split; [done|]. unfold used in Hi', Hv. cbn [set_offset refcount] in Hi', Hv. rewrite Hr in Hi', Hv.
  cbn [Z.eqb] in Hi', Hv. rewrite Z.add_simpl_r in Hi', Hv. split; [done|].
  replace (file_of (set_offset o f)) with (Some (seek o (afile_of f))) in Hv; [done|]. unfold file_of. cbn [set_offset refcount]. by rewrite Hr.
Qed.

Lemma vfs_serve_read s k p fd n : vfs_inv s k -> req_ok (Read p fd n) -> served s k (Read p fd n).
Proof.
  intros Hi Hn. pose proof (count_inv 0 1 0 0 s k Hi) as Hi1. unfold served. cbn [serve]. unfold handle_read. set (s1 := count_vfs 0 1 0 0 s) in *.
  destruct (_ || _) eqn:Er.
  { eexists _, _, k, _. split; [done|]. split; [done|]. split; [|done]. apply AReadNone. intros f [Hf _]. by rewrite (view_outside s k) in Hf. }
  destruct (file_at s1 k fd Hi1 Er) as (f & Hf & Hok). rewrite Hf. cbn [mbind option_bind]. destruct (_ || negb _) eqn:Ea.
  { eexists _, _, k, _. split; [done|]. split; [done|]. split; [|done]. apply AReadNone. by eapply (access_denied s). }
  destruct (access_granted s1 k p fd f Hf Hok Ea) as (Ho & Hr & Hm).
  assert ((if 0 <? n then 1 else 0) = Z.min 1 n) as -> by (cbn in Hn; destruct (Z.ltb_spec 0 n); lia).
  destruct (set_offset_ok s1 k fd f (u64 (f_offset f + Z.min 1 n)) Hi1 Hf Hr Hm) as (l & -> & Hi' & Hv). cbn [mbind option_bind].
  eexists _, _, k, _. split; [done|]. split; [done|]. split; [|exact Hv]. cbn [out_reply]. exact (ARead _ _ _ p fd n _ Ho).
Qed.

Lemma may_write_iff f : (Z.land (f_flags f) O_WRONLY =? 0) && (Z.land (f_flags f) O_RDWR =? 0) = false <-> may_write (afile_of f).
Proof.
  unfold may_write. cbn [afile_of af_flags]. rewrite andb_false_iff. change O_WRONLY with (Z.shiftl 1 0). change O_RDWR with (Z.shiftl 1 1).
  rewrite <- !ztrue_land_bit by done. unfold ztrue. rewrite !negb_true_iff. done.
Qed.

Lemma vfs_serve_write s k p fd n : vfs_inv s k -> req_ok (Write p fd n) -> served s k (Write p fd n).
Proof.
  intros Hi Hn. pose proof (count_inv 0 0 1 0 s k Hi) as Hi1. unfold served. cbn [serve]. unfold handle_write. set (s1 := count_vfs 0 0 1 0 s) in *.
  destruct (_ || _) eqn:Er.
  { eexists _, _, k, _. split; [done|]. split; [done|]. split; [|done]. apply AWriteNone. intros f [Hf _]. by rewrite (view_outside s k) in Hf. }
  destruct (file_at s1 k fd Hi1 Er) as (f & Hf & Hok). rewrite Hf. cbn [mbind option_bind]. destruct (_ || negb _) eqn:Ea.
  { eexists _, _, k, _. split; [done|]. split; [done|]. split; [|done]. apply AWriteNone. by eapply (access_denied s). }
  destruct (access_granted s1 k p fd f Hf Hok Ea) as (Ho & Hr & Hm). pose proof (may_write_iff f) as Hw. destruct (_ && _).
  { eexists _, _, k, _. split; [done|]. split; [done|]. split; [|done]. eapply AWriteRead; [exact Ho|]. intros H%Hw. done. }
  destruct (set_offset_ok s1 k fd f (u64 (f_offset f + n)) Hi1 Hf Hr Hm) as (l & -> & Hi' & Hv). cbn [mbind option_bind].
  eexists _, _, k, _. split; [done|]. split; [done|]. split; [|exact Hv]. cbn [out_reply]. apply (AWrite _ _ _ p fd n _ Ho). by apply Hw.
Qed.

Lemma serve_lseek s k p fd off w : vfs_inv s k -> served s k (Lseek p fd off w).
Proof.
  intros Hi. unfold served. cbn [serve]. unfold handle_lseek. destruct (_ || _) eqn:Er.
  { eexists _, _, k, _. split; [done|]. split; [done|]. split; [|done]. apply ALseekNone. intros f [Hf _]. by rewrite (view_outside s k) in Hf. }
  destruct (file_at s k fd Hi Er) as (f & Hf & Hok). rewrite Hf. cbn [mbind option_bind]. destruct (_ || negb _) eqn:Ea.
  { eexists _, _, k, _. split; [done|]. split; [done|]. split; [|done]. apply ALseekNone. by eapply (access_denied s). }
  destruct (access_granted s k p fd f Hf Hok Ea) as (Ho & Hr & Hm).
  pose proof (fun b => ALseek matches reached (view s k) p fd off w (afile_of f) b Ho) as Hstep.
  pose proof (ALseekWhence matches reached (view s k) p fd off w (afile_of f) Ho) as Hbad. unfold seek_base in Hstep, Hbad.
  repeat match goal with |- context [if w =? ?c then _ else _] => destruct (w =? c) end.
  all: cycle -1.
  { eexists _, _, k, _. split; [done|]. split; [done|]. split; [|done]. by apply Hbad. }
  all: match goal with |- context [set_offset ?o ?g] => destruct (set_offset_ok s k fd g o Hi Hf Hr Hm) as (l & -> & Hi' & Hv) end;
    cbn [mbind option_bind]; eexists _, _, k, _; split; [done|]; split; [done|]; split; [|exact Hv]; cbn [out_reply]; exact (Hstep _ eq_refl).
Qed.

Lemma serve_close s k p fd : vfs_inv s k -> served s k (Close p fd).
Proof.
  intros Hi. pose proof (count_inv 0 0 0 1 s k Hi) as Hi1. unfold served. cbn [serve]. unfold handle_close. set (s1 := count_vfs 0 0 0 1 s) in *.
  destruct (_ || _) eqn:Er.
  { eexists _, _, k, _. split; [done|]. split; [done|]. split; [|done]. apply ACloseNone. by apply view_outside. }
  destruct (file_at s1 k fd Hi1 Er) as (f & Hf & Hok). rewrite Hf. cbn [mbind option_bind].
  pose proof (view_file s k fd f Hf) as Hvf. unfold file_of in Hvf. destruct (refcount f =? 0) eqn:Ez.
  { eexists _, _, k, _. split; [done|]. split; [done|]. split; [|done]. by apply ACloseNone. }
  destruct (Z.eqb_spec (owner_pid f) p) as [Hp|Hp]; cbn [negb].
  2:{ eexists _, _, k, _. split; [done|]. split; [done|]. split; [|done]. by eapply ACloseOther. }
  assert (refcount f = 1) as Hr by (apply Z.eqb_neq in Ez; by destruct Hok as [|[]]). rewrite Hr. change (u32 (1 - 1) =? 0) with true. cbv iota.
  destruct (set_file_ok s1 k fd f zero_file Hi1 Hf) as (l & s' & -> & En & -> & Hi' & Hv); [by left|]. cbn [mbind option_bind].
  unfold used in En, Hi', Hv. rewrite Ez in En, Hi', Hv. cbn [zero_file refcount Z.eqb] in En, Hi', Hv.
  change (Z.of_nat 0) with 0 in *. change (Z.of_nat 1) with 1 in *. rewrite Z.add_0_r in En, Hi', Hv. rewrite En. cbn [mbind option_bind].
  eexists _, _, k, _. split; [done|]. split; [done|]. split; [|exact Hv]. apply (AClose _ _ _ p fd (afile_of f)). by split.
Qed.

Lemma serve_open s k p path fl : vfs_inv s k -> req_ok (Open p path fl) -> served s k (Open p path fl).
Proof.
  intros Hi Hn. pose proof (count_inv 1 0 0 0 s k Hi) as Hi1. unfold served. cbn [serve]. unfold handle_open. set (s1 := count_vfs 1 0 0 0 s) in *.
  destruct (find_mount_ok s1 k path Hi1 Hn) as [[-> Hno]|(i & -> & Hres & Hik)]; cbn [mbind option_bind].
  { eexists _, _, k, _. split; [done|]. split; [done|]. split; [|done]. by apply AOpenNone. }
  rewrite (proj2 (Z.ltb_ge _ _)) by lia.
  destruct (alloc_file_ok s1 k Hi1) as [[-> Hfull]|(fd & f & -> & Hfree & Hf & Hr)]; cbn [mbind option_bind].
  { eexists _, _, k, _. split; [done|]. split; [done|]. split; [|done]. by eapply AOpenFull. }
  rewrite (proj2 (Z.ltb_ge _ _)) by (destruct Hfree; lia). pose proof (vi_k _ _ Hi). rewrite u32_small by lia.
  set (f' := mk_open_file p (Z.of_nat i) 42 0 fl 1).
  destruct (set_file_ok s1 k fd f f' Hi1 Hf) as (l & s' & -> & En & -> & Hi' & Hv); [right; cbn; lia|]. cbn [mbind option_bind].
  unfold used in En, Hi', Hv. rewrite Hr in En, Hi', Hv. cbn [f' refcount Z.eqb] in En, Hi', Hv.
  change (Z.of_nat 0) with 0 in *. change (Z.of_nat 1) with 1 in *. rewrite Z.sub_0_r in En, Hi', Hv. rewrite En. cbn [mbind option_bind].
  eexists _, _, k, _. split; [done|]. split; [done|]. split; [|exact Hv]. by apply (AOpen _ _ _ p path fl i fd).
Qed.

Lemma add_mount_ok s k m t ep fl :
  vfs_inv s k -> (k < 16)%nat -> mounts s !! k = Some m -> is_name t -> (length t <= 255)%nat -> ep ≠ 0 ->
  let m' := mk_mount (strncpy_field (m_path m) t 255) ep 1 fl in
  let s' := with_mounts s (<[k := m']> (mounts s)) (num_mounts s + 1) in
  vfs_inv s' (S k) /\ aeq (view s' (S k)) (mk_avfs (mounted s k ++ [mk_amount t ep fl]) (a_files (view s k))).
Proof.
  intros Hi Hk Hm Ht Hlen Hep m' s'.
  destruct (strncpy_str_field 255 (m_path m) t) as [F1 F2]; [exact (Forall_lookup_1 _ _ _ _ (vi_paths _ _ Hi) Hm)|done|]. split.
  - destruct Hi as [H1 H2 H3 H4 H5 H6 H7 H8]. split; cbn [mounts files num_mounts num_open_files s' with_mounts]; [by rewrite length_insert|lia|lia| | |done| |done].
    + by apply Forall_insert.
    + intros i x Hx. destruct (decide (i = k)) as [->|Hik].
      * rewrite list_lookup_insert_eq in Hx by (by eapply lookup_lt_Some). injection Hx as <-. cbn [m' fs_endpoint]. split; [done|lia].
      * rewrite list_lookup_insert_ne in Hx by done. rewrite <- (H5 _ _ Hx). lia.
    + eapply Forall_impl; [exact H7|]. intros f [|[? ?]]; [by left|right]. split; [done|lia].
  - split; [|done]. cbn [view a_mounts mounts s' with_mounts].
    rewrite (take_S_r _ _ m') by (apply list_lookup_insert_eq; by eapply lookup_lt_Some).
    rewrite take_insert_ge, fmap_app by lia. f_equal. cbn. unfold mount_of, m'. cbn [m_path fs_endpoint m_flags]. by rewrite F2, take_ge.
Qed.

Lemma serve_mount s k t ep fl : vfs_inv s k -> req_ok (Mount t ep fl) -> served s k (Mount t ep fl).
Proof.
  intros Hi (Ht & Ht255 & Hep). unfold served. cbn [serve]. unfold handle_mount. rewrite (vi_num _ _ Hi). pose proof (vi_k _ _ Hi) as Hk.
  assert (zlen (mounted s k) = Z.of_nat k) as Hlen by (unfold zlen; rewrite length_fmap, length_take, (vi_mounts _ _ Hi); lia).
  destruct (Z.leb_spec MAX_MOUNTS (Z.of_nat k)) as [Hfull|Hfree]; unfold MAX_MOUNTS in *.
  { eexists _, _, k, _. split; [done|]. split; [done|]. split; [|done]. apply AMountFull. cbn [view a_mounts]. rewrite Hlen. unfold MAX_MOUNTS. lia. }
  rewrite (free_mount_slot_ok s k Hi) by lia. cbn [mbind option_bind]. rewrite (proj2 (Z.ltb_ge _ _)) by lia.
  destruct (find_mount_ok s k t Hi Ht) as [[-> Hno]|(i & -> & Hres & Hik)]; cbn [mbind option_bind].
  2:{ rewrite (proj2 (Z.leb_le _ _)) by lia. eexists _, _, k, _. split; [done|]. split; [done|]. split; [|done]. apply AMountExists; [destruct Hres as (m & Hm & Hc & _); exists m; split; [by eapply list_elem_of_lookup_2|done]|].
      cbn [view a_mounts]. rewrite Hlen. unfold MAX_MOUNTS. lia. }
  change (0 <=? -1) with false. cbv iota. destruct (lookup_lt_is_Some_2 (mounts s) k) as [m Hm]; [rewrite (vi_mounts _ _ Hi); lia|].
  rewrite (zupd_ok _ _ _ m) by (by rewrite zget_nat). cbn [mbind option_bind]. unfold int. rewrite decide_True by lia. cbn [mbind option_bind].
  change (Z.to_nat (MAX_PATH - 1)) with 255%nat. rewrite Nat2Z.id.
  destruct (add_mount_ok s k m t ep fl Hi ltac:(lia) Hm Ht Ht255 Hep) as [Hi' Hv]. rewrite (vi_num _ _ Hi) in Hi', Hv.
  eexists _, _, (S k), _. split; [done|]. split; [exact Hi'|]. split; [|exact Hv]. cbn [E_OK Z.eqb]. apply AMount.
  - cbn [view a_mounts]. rewrite Hlen. unfold MAX_MOUNTS. lia.
  - intros (m0 & Hm0 & Hc). by apply (Hno m0).
Qed.

Lemma vfs_serve_ok s k r : vfs_inv s k -> req_ok r -> served s k r.
Proof.
  destruct r; [apply serve_mount|apply serve_open|intros ? _; by apply serve_close|apply vfs_serve_read|apply vfs_serve_write|intros ? _; by apply serve_lseek].
Qed.

(** ** Histories *)

Fixpoint serve_all (s : vfs) (rs : list req) : option (list reply * vfs) :=
  match rs with
  | [] => Some ([], s)
  | r :: rs => '(rep, s) ← serve s r; '(reps, s) ← serve_all s rs; Some (rep :: reps, s)
  end.

Inductive asteps (step : avfs -> req -> reply -> avfs -> Prop) : avfs -> list req -> list reply -> avfs -> Prop :=
  | asteps_nil a a' : aeq a' a -> asteps step a [] [] a'
  | asteps_cons a a0 r rep a1 rs reps a2 : aeq a0 a -> step a0 r rep a1 -> asteps step a1 rs reps a2 -> asteps step a (r :: rs) (rep :: reps) a2.

Lemma serve_all_ok s k rs a : vfs_inv s k -> Forall req_ok rs -> aeq (view s k) a ->
  exists reps s' k', serve_all s rs = Some (reps, s') /\ vfs_inv s' k' /\ asteps code_step a rs reps (view s' k').
Proof.
  intros Hi Hrs. revert s k a Hi. induction Hrs as [|r rs Hr _ IH]; intros s k a Hi Ha.
  { exists [], s, k. split; [done|]. split; [done|]. by apply asteps_nil. }
  destruct (vfs_serve_ok s k r Hi Hr) as (rep & s1 & k1 & a1 & E & Hi1 & Hstep & Hv). cbn [serve_all]. rewrite E. cbn [mbind option_bind].
  destruct (IH s1 k1 a1 Hi1 Hv) as (reps & s2 & k2 & E2 & Hi2 & Has). rewrite E2. cbn [mbind option_bind].
  exists (rep :: reps), s2, k2. split; [done|]. split; [done|]. by eapply asteps_cons.
Qed.

Lemma tally_replicate_used n : tally used (replicate n zero_file) = 0%nat.
Proof. by induction n as [|n IH]. Qed.

Lemma vfs_init_inv : vfs_inv (vfs_init vfs_start) 0.
Proof.
  split; cbn [vfs_init vfs_start mounts files num_mounts num_open_files]; [done|lia|done| | |done| |by rewrite tally_replicate_used].
  - apply Forall_replicate. done.
  - intros i m [-> _]%lookup_replicate. cbn. split; [lia|done].
  - apply Forall_replicate. by left.
Qed.

Definition empty_vfs : avfs := mk_avfs [] (fun _ => None).

Lemma init_view : aeq (view (vfs_init vfs_start) 0) empty_vfs.
Proof.
  split; [done|]. intros fd. cbn [view a_files empty_vfs]. destruct (zget _ fd) as [f|] eqn:E; [|done].
  apply zget_lookup in E as [_ E]. cbn [vfs_init vfs_start files] in E. apply lookup_replicate in E as [-> _]. done.
Qed.

(** ** From the code's steps to the specification *)

(** An absolute path without a slash at its end (so not the root). *)
Definition mount_path (t : list Z) : Prop := (exists r, t = slash :: r) /\ last t ≠ Some slash.

Definition target (r : req) : option (list Z) := match r with Mount t _ _ => Some t | _ => None end.
Definition mounts_plainly (r : req) : Prop := forall t, target r = Some t -> mount_path t.

(** The second request does not mount strictly below the path of the first. *)
Definition not_below (r r' : req) : Prop := forall t t', target r = Some t -> target r' = Some t' -> covers t t' -> t = t'.

Lemma matches_covers p path : mount_path p -> matches p path <-> covers p path.
Proof.
  intros [[r ->] Hl]. unfold matches, covers. split; [tauto|]. intros [H|[Hp _]]; [done|]. by rewrite Hp in Hl.
Qed.

Lemma unresolved_covers ms path : Forall (fun m => mount_path (am_path m)) ms -> unresolved matches ms path -> unresolved covers ms path.
Proof. intros HF Hu m Hm Hc. apply (Hu m Hm), matches_covers; [|done]. exact (proj1 (Forall_forall _ _) HF m Hm). Qed.

Lemma resolves_covers ms path i : Forall (fun m => mount_path (am_path m)) ms -> resolves matches ms path i -> resolves covers ms path i.
Proof.
  intros HF (m & Hm & Hc & Hall). exists m. split; [done|]. split; [left; apply Hc|]. intros j m' Hm' Hc'. apply (Hall j m' Hm').
  apply matches_covers; [exact (Forall_lookup_1 _ _ _ _ HF Hm')|done].
Qed.

(** Where no mount is requested below another, the code steps as the specification does. *)
Lemma code_step_spec a r rep a' :
  Forall (fun m => mount_path (am_path m)) (a_mounts a) -> (forall m t, m ∈ a_mounts a -> target r = Some t -> covers (am_path m) t -> am_path m = t) ->
  code_step a r rep a' -> spec_step a r rep a'.
Proof.
  intros HF HT H. destruct H; try (by econstructor; eauto using unresolved_covers, resolves_covers).
  - apply AMount; [done|]. intros (m & Hm & Ht). apply H0. exists m. split; [done|]. rewrite Ht.
    apply matches_covers; [rewrite <- Ht; exact (proj1 (Forall_forall _ _) HF m Hm)|]. left. by left.
  - apply AMountExists; [|done]. destruct H as (m & Hm & [_ Hc]). exists m. split; [done|]. apply (HT m t); [done|done|by left].
Qed.

(** The mounts of a name space that the requests to come do not go below. *)
Definition clear_of (ms : list amount) (rs : list req) : Prop :=
  Forall (fun m => mount_path (am_path m) /\ forall r t, r ∈ rs -> target r = Some t -> covers (am_path m) t -> am_path m = t) ms.

Lemma step_mounts cov taken a r rep a' : astep cov taken a r rep a' ->
  a_mounts a' = a_mounts a \/ exists t ep fl, r = Mount t ep fl /\ a_mounts a' = a_mounts a ++ [mk_amount t ep fl].
Proof. destruct 1; cbn [put a_mounts]; auto. right. eauto. Qed.

Lemma asteps_spec a rs reps a' :
  asteps code_step a rs reps a' -> clear_of (a_mounts a) rs -> Forall mounts_plainly rs -> ForallOrdPairs not_below rs -> asteps spec_step a rs reps a'.
Proof.
  induction 1 as [a a' Ha|a a0 r rep a1 rs reps a2 [Hm Hf] Hs _ IH]; intros HC HP HO; [by apply asteps_nil|].
  apply Forall_cons in HP as [HPr HP]. inversion HO as [|? ? HO1 HO2]; subst.
  apply (asteps_cons _ _ a0 _ _ a1); [done| |apply IH; [|done..] ].
  - apply code_step_spec; [| |done]; rewrite Hm.
    + eapply Forall_impl; [exact HC|]. by intros m [? _].
    + intros m t Hin Ht. destruct (proj1 (Forall_forall _ _) HC m Hin) as [_ H]. by apply (H r t); [left|].
  - assert (clear_of (a_mounts a) rs) as HC'.
    { eapply Forall_impl; [exact HC|]. intros m [H1 H2]. split; [done|]. intros r' t Hr'. apply H2. by right. }
    destruct (step_mounts _ _ _ _ _ _ Hs) as [->|(t & ep & fl & -> & ->)]; rewrite Hm; [done|]. apply Forall_app. split; [done|].
    apply Forall_singleton. split; [by apply HPr|]. intros r' t' Hr' Ht' Hc.
    exact (proj1 (Forall_forall _ _) HO1 r' Hr' t t' eq_refl Ht' Hc).
Qed.

(** C28.  The VFS server answers every sequence of mount, open, close, read, write and seek requests
    as the abstract name space does, never leaves a table and never overflows a counter, if paths are
    C strings and each mount request names an endpoint that is not 0 and an absolute path of at most
    255 bytes that does not end in a slash (which leaves out the root) and is not strictly below the
    path of an earlier mount request.  In the name space a path belongs to the longest mount that is
    the path or one of its ancestors, a path is mounted once, descriptors are the least free ones and
    a process reaches only its own files; files have no contents yet, so that a read is answered
    with one byte and the end of a file is at 1024, as the server has it.  The counters of mounts and
    of open files are right at every point, and every open file names a mount that is still there.
    What the server does outside these conditions is in [mount_paths] and [unbound_mounts_fill]. *)
Theorem vfs_history rs : Forall req_ok rs -> Forall mounts_plainly rs -> ForallOrdPairs not_below rs -> exists reps s' a',
  serve_all (vfs_init vfs_start) rs = Some (reps, s') /\
  asteps spec_step empty_vfs rs reps a' /\ aeq (view s' (length (a_mounts a'))) a' /\
  num_mounts s' = zlen (a_mounts a') /\ num_open_files s' = Z.of_nat (tally used (files s')) /\
  (forall fd f, a_files a' fd = Some f -> 0 <= fd < MAX_OPEN_FILES /\ exists m, a_mounts a' !! Z.to_nat (af_mount f) = Some m).
Proof.
  intros Hrs HP HO. destruct (serve_all_ok _ 0 rs _ vfs_init_inv Hrs init_view) as (reps & s' & k & E & Hi & Ha).
  exists reps, s', (view s' k). split; [done|].
  assert (length (a_mounts (view s' k)) = k) as Hlen.
  { cbn [view a_mounts]. rewrite length_fmap, length_take, (vi_mounts _ _ Hi). pose proof (vi_k _ _ Hi). lia. }
  rewrite Hlen. split; [|split; [done|] ].
  - apply asteps_spec; [done|apply Forall_nil_2|done|done].
  - split; [unfold zlen; rewrite Hlen; apply Hi|]. split; [apply Hi|]. intros fd f Hf. cbn [view a_files] in Hf.
    destruct (zget (files s') fd) as [g|] eqn:Eg; [|done]. cbn [mbind option_bind] in Hf. split.
    + apply zget_range in Eg. unfold zlen in Eg. rewrite (vi_files _ _ Hi) in Eg. unfold MAX_OPEN_FILES. lia.
    + apply zget_lookup in Eg as [_ Eg]. pose proof (Forall_lookup_1 _ _ _ _ (vi_refs _ _ Hi) Eg) as Hok. unfold file_of in Hf.
      destruct (Z.eqb_spec (refcount g) 0); [done|]. injection Hf as <-. destruct Hok as [|[_ Hm]]; [done|]. cbn [af_mount].
      apply lookup_lt_is_Some_2. rewrite Hlen. lia.
Qed.

Definition ex_slash_a : list Z := [47; 97].
Definition ex_slash_a_b : list Z := [47; 97; 47; 98].

Definition ex_slash_c : list Z := [47; 99].
Definition ex_requests : list req :=
  [Mount ex_slash_a 100 0; Mount ex_slash_c 101 0; Mount ex_slash_a 102 0; Open 7 ex_slash_a_b 2; Open 7 [47; 97; 98] 2; Write 7 0 5; Read 8 0 1; Lseek 7 0 (-2) SEEK_CUR; Close 7 0].

Lemma ex_is_name l : forallb (fun b => negb (b =? 0)) l = true -> is_name l.
Proof. intros H H0. apply list_elem_of_In in H0. rewrite forallb_forall in H. by apply H in H0. Qed.

Lemma ex_requests_ok : Forall req_ok ex_requests /\ Forall mounts_plainly ex_requests /\ ForallOrdPairs not_below ex_requests.
Proof.
  split; [|split].
  - unfold ex_requests. repeat (apply Forall_cons; split); try apply Forall_nil_2; cbn [req_ok]; try exact I; try (by apply ex_is_name); try lia;
      (split; [by apply ex_is_name|]; split; [cbn; lia|lia]).
  - unfold ex_requests. repeat (apply Forall_cons; split); try apply Forall_nil_2; intros t [= <-]; (split; [by eexists|by cbn]).
  - assert (forall r r' t t', r ∈ ex_requests -> r' ∈ ex_requests -> target r = Some t -> target r' = Some t' -> covers t t' -> t = t') as H.
    { assert (forall r t, r ∈ ex_requests -> target r = Some t -> t = ex_slash_a \/ t = ex_slash_c) as Ht.
      { intros r t Hr. unfold ex_requests in Hr. repeat (apply elem_of_cons in Hr as [->|Hr]; [intros [= <-]; auto|]). by apply not_elem_of_nil in Hr. }
      intros r r' t t' Hr Hr' E E'. destruct (Ht r t Hr E) as [->| ->], (Ht r' t' Hr' E') as [->| ->]; try done;
        intros [[?|[? ?] ]|[? _] ]; discriminate. }
    revert H. generalize ex_requests as l. intros l H. induction l as [|r l IH]; constructor.
    + apply List.Forall_forall. intros r' Hr'%list_elem_of_In t t' E E'. apply (H r r'); [by left|by right|done|done].
    + apply IH. intros x y t t' Hx Hy. apply H; by right.
Qed.

Lemma vfs_history_witness : exists s' a',
  serve_all (vfs_init vfs_start) ex_requests = Some ([ROk; ROk; RErr E_EXIST; RFd 0; RErr E_NOENT; RNum 5; RErr E_INVAL; RNum 3; ROk], s') /\
  aeq (view s' (length (a_mounts a'))) a' /\ num_open_files s' = 0.
Proof.
  destruct (vfs_history ex_requests (proj1 ex_requests_ok) (proj1 (proj2 ex_requests_ok)) (proj2 (proj2 ex_requests_ok))) as (reps & s' & a' & E & _ & Hv & _).
  exists s', a'. revert E Hv. vm_compute serve_all. intros [= <- <-] Hv. split; [reflexivity|]. split; [exact Hv|reflexivity].
Defined.

(** Processes are isolated: a request of one process never changes an open file of another,
    whatever descriptor it names. *)
Theorem vfs_isolation s k r pid fd f : vfs_inv s k -> req_ok r ->
  (match r with Mount _ _ _ => True | Open p _ _ | Close p _ | Read p _ _ | Write p _ _ | Lseek p _ _ _ => p ≠ pid end) ->
  a_files (view s k) fd = Some f -> af_owner f = pid ->
  exists rep s' k', serve s r = Some (rep, s') /\ vfs_inv s' k' /\ a_files (view s' k') fd = Some f.
Proof.
  intros Hi Hr Hp Hf Ho. destruct (vfs_serve_ok s k r Hi Hr) as (rep & s' & k' & a' & E & Hi' & Ha & _ & Hv).
  exists rep, s', k'. split; [done|]. split; [done|]. rewrite Hv. clear E Hv.
  assert (forall p x g o, owned (view s k) p x g -> p ≠ pid -> a_files (put (view s k) x o) fd = Some f) as Hput.
  { intros p x g o [Hg Hgo] Hne. cbn [put a_files]. case_decide as Hx; [|done]. subst x. congruence. }
  destruct Ha as [| | |p path fl i x _ (_ & Hx & _)| | | | | | | | | | | | |]; try done; try by eapply Hput.
  cbn [put a_files]. case_decide; [|done]. congruence.
Qed.

Definition ex_open : vfs := from_option snd vfs_start (serve_all (vfs_init vfs_start) [Mount ex_slash_a 100 0; Open 7 ex_slash_a_b 2]).

Lemma ex_open_inv : exists k, vfs_inv ex_open k.
Proof.
  destruct (serve_all_ok _ 0 [Mount ex_slash_a 100 0; Open 7 ex_slash_a_b 2] empty_vfs vfs_init_inv) as (reps & s' & k & E & Hi & _).
  { apply Forall_cons. split; [split; [by apply ex_is_name|split; [cbn; lia|lia] ]|]. apply Forall_singleton. by apply ex_is_name. }
  { apply init_view. }
  exists k. unfold ex_open. by rewrite E.
Qed.

Lemma vfs_isolation_witness : exists rep s' k', serve ex_open (Close 8 0) = Some (rep, s') /\ a_files (view s' k') 0 = Some (mk_afile 7 0 0 2).
Proof.
  destruct ex_open_inv as [k Hi].
  destruct (vfs_isolation ex_open k (Close 8 0) 7 0 (mk_afile 7 0 0 2) Hi) as (rep & s' & k' & E & _ & Hf); [exact I|done|vm_compute; reflexivity|reflexivity|].
  exists rep, s', k'. split; [exact E|exact Hf].
Defined.

(** ** What a mount covers *)

Lemma asteps_one a r reps a' : asteps code_step a [r] reps a' -> exists rep a0 a1, reps = [rep] /\ aeq a0 a /\ code_step a0 r rep a1.
Proof. inversion 1 as [|? a0 ? rep a1 ? ? ? H0 H1 H2]; subst. inversion H2; subst. by exists rep, a0, a1. Qed.

(** The first mount of a server succeeds; a request after it finds that mount only. *)
Lemma after_first_mount p ep fl r reps a' : asteps code_step empty_vfs [Mount p ep fl; r] reps a' ->
  exists rep a0 a1, reps = [ROk; rep] /\ a_mounts a0 = [mk_amount p ep fl] /\ code_step a0 r rep a1.
Proof.
  inversion 1 as [|? a0 ? rep a1 ? ? ? [Hm _] H1 H2]; subst. cbn [empty_vfs a_mounts] in Hm.
  apply asteps_one in H2 as (rep2 & a2 & a3 & -> & [Hm2 _] & H3).
  inversion H1 as [? ? ? _ _|? ? ? Hfull|? ? ? (m & Hi & _) _| | | | | | | | | | | | | |]; subst; rewrite ?Hm in *; [|done|by apply not_elem_of_nil in Hi].
  exists rep2, a2, a3. done.
Qed.

(** A mount at "/" covers "/" but no path in it: every open of a path such as "/test.txt"
    is refused with E_NOENT, whatever the file system (the byte behind the prefix must be a
    slash or the end).  And once "/a" is mounted, a mount at "/a/b" is refused as existing. *)
Theorem mount_paths ep fl pid c r flags p q : ep ≠ 0 -> is_name (slash :: c :: r) -> c ≠ slash -> is_name (p ++ slash :: q) ->
  p ≠ [] -> (length (p ++ slash :: q) <= 255)%nat ->
  (exists s', serve_all (vfs_init vfs_start) [Mount [slash] ep fl; Open pid (slash :: c :: r) flags] = Some ([ROk; RErr E_NOENT], s')) /\
  (exists s', serve_all (vfs_init vfs_start) [Mount p ep fl; Mount (p ++ slash :: q) ep fl] = Some ([ROk; RErr E_EXIST], s')).
Proof.
  intros Hep Hn Hc Hp Hp0 Hlen. assert (is_name p) as Hp1 by (intros H; apply Hp, elem_of_app; by left). split.
  - destruct (serve_all_ok _ 0 [Mount [slash] ep fl; Open pid (slash :: c :: r) flags] empty_vfs vfs_init_inv) as (reps & s' & k & E & _ & Ha).
    { apply Forall_cons; split; [split; [by apply ex_is_name|split; [cbn; lia|done] ]|by apply Forall_singleton]. }
    { apply init_view. }
    apply after_first_mount in Ha as (rep & a0 & a1 & -> & Hm & Hs). exists s'.
    assert (forall i, ~ resolves matches (a_mounts a0) (slash :: c :: r) i) as Hno.
    { intros i (m & Hi & [_ [Hcv|[t Hcv] ] ] & _); rewrite Hm in Hi; apply list_elem_of_lookup_2, list_elem_of_singleton in Hi; subst m; cbn in Hcv; congruence. }
    inversion Hs as [| | |? ? ? i fd Hr _|? ? ? _|? ? ? i Hr _| | | | | | | | | | |]; subst; [by destruct (Hno i)|done|by destruct (Hno i)].
  - destruct (serve_all_ok _ 0 [Mount p ep fl; Mount (p ++ slash :: q) ep fl] empty_vfs vfs_init_inv) as (reps & s' & k & E & _ & Ha).
    { rewrite length_app in Hlen. apply Forall_cons; split; [split; [done|split; [lia|done] ]|]. apply Forall_singleton. split; [done|]. rewrite length_app. done. }
    { apply init_view. }
    apply after_first_mount in Ha as (rep & a0 & a1 & -> & Hm & Hs). exists s'.
    inversion Hs as [? ? ? _ Hu|? ? ? Hfull|? ? ? _ _| | | | | | | | | | | | | |]; subst; rewrite ?Hm in *; [|done|done].
    exfalso. apply Hu. exists (mk_amount p ep fl). split; [by apply list_elem_of_singleton|]. split; [done|]. right. by exists q.
Qed.

Lemma mount_paths_witness :
  (exists s', serve_all (vfs_init vfs_start) [Mount [slash] 100 0; Open 1 (slash :: 116 :: []) 0] = Some ([ROk; RErr E_NOENT], s')) /\
  (exists s', serve_all (vfs_init vfs_start) [Mount ex_slash_a 100 0; Mount (ex_slash_a ++ slash :: [98]) 100 0] = Some ([ROk; RErr E_EXIST], s')).
Proof.
  apply (mount_paths 100 0 1 116 [] 0 ex_slash_a [98]); try done; [| |cbn; lia];
    intros H; repeat (apply elem_of_cons in H as [H|H]; [done|]); by apply not_elem_of_nil in H.
Defined.

(** A mount request without an endpoint takes no entry but is counted: 16 of them close the table. *)
Example unbound_mounts_fill : exists reps s, serve_all (vfs_init vfs_start) (replicate 16 (Mount ex_slash_a 0 0)) = Some (reps, s) /\
  Forall (fun m => fs_endpoint m = 0) (mounts s) /\ serve s (Mount ex_slash_a 100 0) = Some (RErr E_NOMEM, s).
Proof. eexists _, _. split; [vm_compute; reflexivity|]. split; [repeat constructor|vm_compute; reflexivity]. Qed.
