(* ===== verification/Pid.v ===== *)
(** * Process identifiers (kernel/proc/process.c)

    The bitmap of process identifiers: [alloc_pid] takes the first free one from a moving start
    on, wrapping around once, [free_pid] gives one back.  Both run under [pid_lock]. *)
From S2P Require Import Prelude Defs.

Definition PID_MAX : Z := 32768.

(** [static u64 pid_bitmap[PID_MAX / 64]] and [static pid_t next_pid] *)
Record pids := mk_pids {
  pid_bitmap : list Z;
  next_pid : Z
}.

(** One of the two search loops: the first identifier from [i] on, [n] of them, that is free. *)
Definition pid_search (b : list Z) (i : Z) (n : nat) : option (unit + Z * list Z) :=
  for_return n i (fun i _ =>
    let word := i / 64 in
    let bit := i mod 64 in
    w ← zget b word;
    if negb (ztrue (Z.land w (Z.shiftl 1 bit))) then
      b ← zset b word (Z.lor w (Z.shiftl 1 bit)); Some (inr (i, b))
    else Some (inl tt)) tt.

Definition alloc_pid (s : pids) : option (Z * pids) :=
  r ← pid_search (pid_bitmap s) (next_pid s) (Z.to_nat (PID_MAX - next_pid s));
  match r with
  | inr (i, b) => Some (i, mk_pids b (if PID_MAX <=? i + 1 then 1 else i + 1))
  | inl _ =>
      r ← pid_search (pid_bitmap s) 1 (Z.to_nat (next_pid s - 1));
      match r with
      | inr (i, b) => Some (i, mk_pids b (i + 1))
      | inl _ => Some (-1, s)
      end
  end.

Definition free_pid (s : pids) (pid : Z) : option pids :=
  if (pid <=? 0) || (PID_MAX <=? pid) then Some s else
  let word := pid / 64 in
  let bit := pid mod 64 in
  b ← zupd (pid_bitmap s) word (fun w => Z.land w (lnotw 64 (Z.shiftl 1 bit)));
  Some (mk_pids b (next_pid s)).

(** The part of [process_init] that concerns the bitmap *)
Definition pids_init (s : pids) : option pids :=
  b ← zupd (replicate (Z.to_nat (PID_MAX / 64)) 0) 0 (fun w => Z.lor w 1);
  Some (mk_pids b (next_pid s)).

(** ** The invariant *)

Record pids_inv (s : pids) : Prop := {
  pi_len : zlen (pid_bitmap s) = PID_MAX / 64;
  pi_words : Forall (fits 64) (pid_bitmap s);
  pi_next : 1 <= next_pid s < PID_MAX
}.

(** Identifier [i] is taken. *)
Definition pid_used (s : pids) (i : Z) : bool := wbit (pid_bitmap s) i.

Lemma pid_word s i : pids_inv s -> 0 <= i < PID_MAX ->
  exists w, zget (pid_bitmap s) (i / 64) = Some w /\ fits 64 w /\ pid_used s i = Z.testbit w (i mod 64).
Proof.
  intros [L W _] Hi. assert (is_Some (zget (pid_bitmap s) (i / 64))) as [w Hw].
  { apply zget_Some. rewrite L. unfold PID_MAX in *. divlia. }
  exists w. split; [done|]. split.
  - apply zget_lookup in Hw as [_ Hw]. by eapply Forall_lookup_1.
  - unfold pid_used, wbit. by rewrite Hw.
Qed.

Lemma pids_upd s s' i f v :
  pids_inv s -> 0 <= i < PID_MAX -> zupd (pid_bitmap s) (i / 64) f = Some (pid_bitmap s') ->
  writes_bit f (i mod 64) v -> (forall w, fits 64 w -> fits 64 (f w)) -> 1 <= next_pid s' < PID_MAX ->
  pids_inv s' /\ forall j, 0 <= j -> pid_used s' j = if decide (j = i) then v else pid_used s j.
Proof.
  intros [L W N] Hi E Hf Hfit N'. split.
  - split; [by rewrite (zupd_length _ _ _ _ E)| |done]. revert E. unfold zupd.
    destruct (zget (pid_bitmap s) (i / 64)) as [w|] eqn:Ew; [|done]. cbn [mbind option_bind]. intros [= <-].
    apply Forall_insert; [done|]. apply Hfit. apply zget_lookup in Ew as [_ Ew]. by eapply Forall_lookup_1.
  - intros j Hj. apply (wbit_upd (pid_bitmap s) (pid_bitmap s') i f v j); [lia|done..].
Qed.

(** ** Allocation *)

Lemma zset_zupd_at {A} (l : list A) i x f : zget l i = Some x -> zset l i (f x) = zupd l i f.
Proof. intros E. unfold zset, zupd. by rewrite E. Qed.

Lemma pid_search_ok s i n :
  pids_inv s -> 0 <= i -> i + Z.of_nat n <= PID_MAX ->
  (pid_search (pid_bitmap s) i n = Some (inl tt) /\ forall k, i <= k < i + Z.of_nat n -> pid_used s k = true) \/
  exists j b, pid_search (pid_bitmap s) i n = Some (inr (j, b)) /\ i <= j < i + Z.of_nat n /\
    pid_used s j = false /\ (forall k, i <= k < j -> pid_used s k = true) /\
    zupd (pid_bitmap s) (j / 64) (fun w => Z.lor w (Z.shiftl 1 (j mod 64))) = Some b.
Proof.
  intros HI. revert i. induction n as [|n IH]; intros i Hi Hn; unfold pid_search; cbn [for_return].
  { left. split; [done|lia]. }
  fold (pid_search (pid_bitmap s) (i + 1) n). destruct (pid_word s i HI) as (w & Hw & _ & Eu); [lia|].
  rewrite Hw. cbn [mbind option_bind]. rewrite ztrue_land_bit, <- Eu by divlia.
  destruct (pid_used s i) eqn:Ei; cbn [negb].
  - cbn [mbind option_bind]. destruct (IH (i + 1)) as [[E H]|(j & b & E & Hj & Hu & Hk & Hb)]; [lia|lia| |].
    + left. split; [exact E|]. intros k Hk. destruct (decide (k = i)) as [->|]; [done|apply H; lia].
    + right. exists j, b. split; [exact E|]. split; [lia|]. split; [done|]. split; [|done].
      intros k Hk'. destruct (decide (k = i)) as [->|]; [done|apply Hk; lia].
  - right. rewrite (zset_zupd_at _ _ w (fun w => Z.lor w (Z.shiftl 1 (i mod 64)))) by done.
    destruct (zupd_Some (pid_bitmap s) (i / 64) (fun w => Z.lor w (Z.shiftl 1 (i mod 64)))) as [b Hb].
    { by apply zget_range in Hw. }
    rewrite Hb. cbn [mbind option_bind]. exists i, b. split; [done|]. split; [lia|]. split; [done|]. split; [lia|done].
Qed.

Lemma pid_taken s i b next :
  pids_inv s -> 0 <= i < PID_MAX -> 1 <= next < PID_MAX ->
  zupd (pid_bitmap s) (i / 64) (fun w => Z.lor w (Z.shiftl 1 (i mod 64))) = Some b ->
  pids_inv (mk_pids b next) /\ forall j, 0 <= j -> pid_used (mk_pids b next) j = if decide (j = i) then true else pid_used s j.
Proof.
  intros HI Hi Hn E. eapply pids_upd; [done|done|exact E| | |done].
  - apply or_writes. divlia.
  - intros w Hw. apply or_fits; [divlia|done].
Qed.

(** [pid] is the first free identifier in the circular order from [start] on. *)
Definition first_free (s : pids) (start pid : Z) : Prop :=
  pid_used s pid = false /\
  ((start <= pid /\ forall k, start <= k < pid -> pid_used s k = true) \/
   (pid < start /\ (forall k, start <= k < PID_MAX -> pid_used s k = true) /\
    forall k, 1 <= k < pid -> pid_used s k = true)).

(** [alloc_pid] makes no access outside the bitmap and keeps it well formed.  It takes the
    first free identifier in circular order from [next_pid] on, marks that one and no other as
    used, and the next search starts behind it; it returns -1, changing nothing, only when every
    identifier from 1 to PID_MAX - 1 is in use.  Identifier 0 is never handed out. *)
Theorem alloc_pid_spec s :
  pids_inv s ->
  exists pid s', alloc_pid s = Some (pid, s') /\ pids_inv s' /\
    ((1 <= pid < PID_MAX /\ first_free s (next_pid s) pid /\
      (forall j, 0 <= j -> pid_used s' j = if decide (j = pid) then true else pid_used s j) /\
      next_pid s' = if decide (pid + 1 = PID_MAX) then 1 else pid + 1) \/
     (pid = -1 /\ s' = s /\ forall j, 1 <= j < PID_MAX -> pid_used s j = true)).
Proof.
  intros HI. pose proof (pi_next s HI) as Hn. unfold alloc_pid.
  destruct (pid_search_ok s (next_pid s) (Z.to_nat (PID_MAX - next_pid s)) HI) as [[-> H]|(j & b & -> & Hj & Hu & Hk & Hb)]; [lia|lia| |]; cbn [mbind option_bind].
  - destruct (pid_search_ok s 1 (Z.to_nat (next_pid s - 1)) HI) as [[-> H']|(j & b & -> & Hj & Hu & Hk & Hb)]; [lia|lia| |]; cbn [mbind option_bind].
    + exists (-1), s. split; [done|]. split; [done|]. right. split; [done|]. split; [done|]. intros j Hj.
      destruct (decide (j < next_pid s)); [apply H'|apply H]; lia.
    + destruct (pid_taken s j b (j + 1) HI ltac:(lia) ltac:(lia) Hb) as [HI' Hu'].
      exists j, (mk_pids b (j + 1)). split; [done|]. split; [done|]. left. split; [lia|]. split; [|split; [done|]].
      * split; [done|]. right. split; [lia|]. split; [intros k Hk'; apply H; lia|done].
      * rewrite decide_False by lia. done.
  - exists j, (mk_pids b (if PID_MAX <=? j + 1 then 1 else j + 1)). split; [done|].
    destruct (pid_taken s j b (if PID_MAX <=? j + 1 then 1 else j + 1) HI) as [HI' Hu']; [lia| |done|].
    { destruct (Z.leb_spec PID_MAX (j + 1)); unfold PID_MAX in *; lia. }
    split; [done|]. left. split; [lia|]. split; [split; [done|left; split; [lia|done]]|]. split; [done|]. cbn [next_pid].
    destruct (Z.leb_spec PID_MAX (j + 1)); case_decide; unfold PID_MAX in *; lia.
Qed.

Lemma free_pid_ok s pid :
  pids_inv s -> 1 <= pid < PID_MAX ->
  exists s', free_pid s pid = Some s' /\ pids_inv s' /\ next_pid s' = next_pid s /\
    forall j, 0 <= j -> pid_used s' j = if decide (j = pid) then false else pid_used s j.
Proof.
  intros HI Hp. unfold free_pid. rewrite (proj2 (Z.leb_gt pid 0)), (proj2 (Z.leb_gt PID_MAX pid)) by lia. cbn [orb].
  destruct (pid_word s pid HI) as (w & Hw & _); [lia|].
  destruct (zupd_Some (pid_bitmap s) (pid / 64) (fun w => Z.land w (lnotw 64 (Z.shiftl 1 (pid mod 64))))) as [b Hb].
  { by apply zget_range in Hw. }
  rewrite Hb. cbn [mbind option_bind]. exists (mk_pids b (next_pid s)). split; [done|].
  destruct (pids_upd s (mk_pids b (next_pid s)) pid (fun w => Z.land w (lnotw 64 (Z.shiftl 1 (pid mod 64)))) false HI) as [HI' Hu]; [lia|done| | |apply HI|done].
  - apply andnot_writes. divlia.
  - intros v Hv. by apply land_fits.
Qed.

(** Giving an identifier back undoes [alloc_pid] as far as the set of identifiers in use is
    concerned, but the search has moved on: the identifier just given back is not the next one
    handed out as long as another one is free. *)
Theorem pid_roundtrip s pid s1 s2 :
  pids_inv s -> alloc_pid s = Some (pid, s1) -> 0 <= pid -> free_pid s1 pid = Some s2 ->
  pids_inv s2 /\ (forall j, 0 <= j -> pid_used s2 j = pid_used s j) /\
  forall pid' s3, alloc_pid s2 = Some (pid', s3) ->
    (exists j, 1 <= j < PID_MAX /\ j ≠ pid /\ pid_used s j = false) -> 1 <= pid' < PID_MAX /\ pid' ≠ pid.
Proof.
  intros HI E Hp Ef. destruct (alloc_pid_spec s HI) as (p & s' & E' & HI1 & D). rewrite E in E'. injection E' as <- <-.
  destruct D as [(Hr & [Hfree _] & Hu & Hn)|(-> & _)]; [|lia].
  destruct (free_pid_ok s1 pid HI1 Hr) as (s2' & Ef' & HI2 & Hn2 & Hu2). rewrite Ef in Ef'. injection Ef' as <-.
  assert (forall j, 0 <= j -> pid_used s2 j = pid_used s j) as Hback.
  { intros j Hj. rewrite Hu2, Hu by done. destruct (decide (j = pid)) as [->|]; [by rewrite Hfree|done]. }
  split; [done|]. split; [done|]. intros pid' s3 E3 (j & Hj & Hne & Hf).
  destruct (alloc_pid_spec s2 HI2) as (p' & s3' & E3' & _ & D3). rewrite E3 in E3'. injection E3' as <- <-.
  rewrite <- Hback in Hf by lia. destruct D3 as [(Hr3 & [_ HC] & _)|(_ & _ & Hall)]; [|by rewrite Hall in Hf].
  split; [done|]. intros ->. rewrite Hn2, Hn in HC.
  assert (forall k, 1 <= k < PID_MAX -> k ≠ pid -> pid_used s2 k = true) as Hall; [|by rewrite Hall in Hf].
  intros k Hk Hkne. destruct (decide (pid + 1 = PID_MAX)) as [El|El].
  - destruct HC as [[_ H]|[H _]]; [apply H|]; lia.
  - destruct HC as [[H _]|(_ & H1 & H2)]; [lia|]. destruct (decide (k < pid)); [apply H2|apply H1]; lia.
Qed.

(** After [process_init] only identifier 0 is in use. *)
Lemma pids_init_ok b n : 1 <= n < PID_MAX ->
  exists s, pids_init (mk_pids b n) = Some s /\ pids_inv s /\ next_pid s = n /\ forall j, 0 <= j -> pid_used s j = bool_decide (j = 0).
Proof.
  intros Hn. eexists (mk_pids _ n). split; [reflexivity|].
  set (s0 := mk_pids (replicate 512 0) n). assert (pids_inv s0) as H0.
  { split; [done| |done]. apply Forall_replicate. done. }
  edestruct (pids_upd s0 (mk_pids (1 :: replicate 511 0) n) 0 (fun w => Z.lor w (Z.shiftl 1 0)) true H0) as [HI Hu]; [done|reflexivity|by apply or_writes|intros w Hw; by apply or_fits|done|].
  split; [exact HI|]. split; [done|]. intros j Hj. etransitivity; [exact (Hu j Hj)|].
  case_decide; [by rewrite bool_decide_true|]. rewrite bool_decide_false by done. unfold pid_used, wbit.
  destruct (zget (pid_bitmap s0) (j / 64)) as [w|] eqn:E; [|apply Z.testbit_0_l].
  apply zget_lookup in E as [_ E]. apply lookup_replicate in E as [-> _]. apply Z.testbit_0_l.
Qed.

(** ** Witnesses *)

Definition ex_pids : pids := default (mk_pids [] 1) (pids_init (mk_pids [] 1)).

Lemma ex_pids_inv : pids_inv ex_pids /\ forall j, 0 <= j -> pid_used ex_pids j = bool_decide (j = 0).
Proof.
  destruct (pids_init_ok [] 1) as (s & E & HI & _ & Hu); [done|]. unfold ex_pids. by rewrite E.
Qed.

Lemma alloc_pid_spec_witness :
  exists pid s', alloc_pid ex_pids = Some (pid, s') /\ pid = 1 /\ pids_inv s' /\ pid_used s' 1 = true /\ next_pid s' = 2.
Proof.
  destruct (alloc_pid_spec ex_pids (proj1 ex_pids_inv)) as (pid & s' & E & HI & _).
  exists pid, s'. split; [exact E|]. vm_compute in E. injection E as <- <-. done.
Defined.

Definition ex_pids1 : pids := mk_pids (3 :: replicate 511 0) 2.

Lemma pid_roundtrip_witness :
  alloc_pid ex_pids = Some (1, ex_pids1) /\ free_pid ex_pids1 1 = Some (mk_pids (pid_bitmap ex_pids) 2) /\
  pids_inv (mk_pids (pid_bitmap ex_pids) 2).
Proof.
  assert (alloc_pid ex_pids = Some (1, ex_pids1)) as E by (vm_compute; reflexivity).
  assert (free_pid ex_pids1 1 = Some (mk_pids (pid_bitmap ex_pids) 2)) as E2 by (vm_compute; reflexivity).
  split; [exact E|]. split; [exact E2|].
  exact (proj1 (pid_roundtrip ex_pids 1 ex_pids1 _ (proj1 ex_pids_inv) E ltac:(lia) E2)).
Defined.
