(* ===== verification/Process.v ===== *)
(** * Processes and threads: the code (kernel/proc/process.c, kernel/proc/files.c)

    The life of processes and their threads: creation, fork, exit, wait and destruction, composed
    from the scheduler ([Sched]), the IPC system ([Ipc]), the PID allocator ([Pid]) and two
    interfaces: the kernel heap and the address spaces.

    A structure lives in several maps with the same key, its address: [struct thread] is in
    [threads] (scheduler fields), [its] (call/reply fields) and [k_xts] (the rest);
    [struct process] is in [k_procs], [iprocs] (endpoints and IPC window) and [procs] (the address
    space).  [kfree] removes it from all of them, so that a later access through a stale pointer
    fails.  Nothing sets the thread fields [regs] and [wait_result] or the process field
    [exit_signal]; they are left out. *)
From S2P Require Import Prelude Defs Sched Ipc Pid.

(** ** What the process code needs of the heap and of the memory manager *)

(** kmalloc, kfree (slab.c).  [kh_live h a n]: the object in use at [a] was asked for with size [n]. *)
Class KernelHeap (H : Type) := {
  kmalloc : H -> Z -> option (Z * H);            (* an address, 0 for NULL *)
  kfree : H -> Z -> option H;
  kh_ok : H -> Prop;
  kh_live : H -> Z -> Z -> Prop
}.

Class KernelHeapLaws (H : Type) `{KernelHeap H} := {
  kh_size : forall h a n, kh_ok h -> kh_live h a n -> 0 < n /\ 0 < a /\ a + n <= 2 ^ 64;
  kh_apart : forall h a n b m, kh_ok h -> kh_live h a n -> kh_live h b m ->
    (a, n) = (b, m) \/ no_overlap (a, n) (b, m);
  kmalloc_law : forall h n, kh_ok h -> 0 < n <= 8192 ->
    exists a h', kmalloc h n = Some (a, h') /\ kh_ok h' /\
      ((a = 0 /\ forall b m, kh_live h' b m <-> kh_live h b m) \/
       (0 < a /\ a mod 8 = 0 /\ a + n <= 2 ^ 64 /\ (forall b m, kh_live h b m -> no_overlap (a, n) (b, m)) /\
        forall b m, kh_live h' b m <-> kh_live h b m \/ (b, m) = (a, n)));
  kfree_law : forall h a n, kh_ok h -> kh_live h a n ->
    exists h', kfree h a = Some h' /\ kh_ok h' /\ forall b m, kh_live h' b m <-> kh_live h b m /\ b ≠ a
}.

(** vmm_clone_address_space, vmm_destroy_address_space (vmm.c), and the look-up of
    process_adopt_ipc_window (ipc_window.c) with the bytes of the page it finds.
    [as_live]: the pointer is that of an address space with one reference.  [as_user]: the byte and the
    page protection that user code finds at an address outside the IPC window, if it is mapped.
    The kernel writes the page of an IPC window directly; [as_clone] is given that page's address and
    its present contents, when the process has a window. *)
Class AddressSpaces (A : Type) := {
  as_clone : A -> option (Z * list Z) -> Z -> option (Z * A);   (* 0 for NULL *)
  as_destroy : A -> Z -> option A;
  as_window : A -> Z -> option (Z * list Z);     (* physical address, 0 for none, and contents *)
  as_user : A -> Z -> Z -> option (Z * Z);
  as_ok : A -> Prop;
  as_live : A -> Z -> Prop
}.

(** The page at [w] holds [l] unless the kernel has written it since. *)
Definition page_now (fr : option (Z * list Z)) (w : Z) (l : list Z) : list Z :=
  match fr with Some (w1, l1) => if w1 =? w then l1 else l | None => l end.

Definition page_of_bytes (l : list Z) : Prop := zlen l = 4096 /\ Forall (fun b => 0 <= b < 2 ^ 8) l.

(** The address spaces that exist before and after a step look the same to their users, with the window
    at the same page. *)
Definition spaces_kept {A : Type} `{AddressSpaces A} (s s' : A) : Prop :=
  forall b, as_live s b -> as_live s' b ->
    (forall u, as_user s' b u = as_user s b u) /\ fst <$> as_window s' b = fst <$> as_window s b.

(** [r] is a copy of [m]: the same user memory, and a window, if [m] has one, with the same contents in
    a page that is no other space's window. *)
Definition copy_of {A : Type} `{AddressSpaces A} (s : A) (fr : option (Z * list Z)) (m : Z) (s' : A) (r : Z) : Prop :=
  (forall u, as_user s' r u = as_user s m u) /\
  exists w l w' l', as_window s m = Some (w, l) /\ as_window s' r = Some (w', l') /\ (w = 0 <-> w' = 0) /\
    (w ≠ 0 -> l' = page_now fr w l) /\ (w' ≠ 0 -> forall b, as_live s b -> fst <$> as_window s b ≠ Some w').

Class AddressSpacesLaws (A : Type) `{AddressSpaces A} := {
  as_clone_law : forall s fr m, as_ok s -> as_live s m -> (forall w l, fr = Some (w, l) -> page_of_bytes l) ->
    exists r s', as_clone s fr m = Some (r, s') /\ as_ok s' /\ spaces_kept s s' /\
      ((r = 0 /\ forall b, as_live s' b <-> as_live s b) \/
       (r ≠ 0 /\ ~ as_live s r /\ (forall b, as_live s' b <-> as_live s b \/ b = r) /\ copy_of s fr m s' r));
  as_destroy_law : forall s m, as_ok s -> as_live s m ->
    exists s', as_destroy s m = Some s' /\ as_ok s' /\ spaces_kept s s' /\ forall b, as_live s' b <-> as_live s b /\ b ≠ m;
  as_window_law : forall s m, as_ok s -> as_live s m ->
    exists w l, as_window s m = Some (w, l) /\ (w ≠ 0 -> zlen l = 4096 /\ w mod 4096 = 0)
}.

(** ** Data *)

Definition TF_EXITING : Z := Z.shiftl 1 3.
Definition TF_FORKING : Z := Z.shiftl 1 4.
Definition KERNEL_STACK_SIZE : Z := 8 * 1024.

(** [sizeof] of the structures *)
Definition SIZEOF_PROCESS : Z := 200.
Definition SIZEOF_THREAD : Z := 360.
Definition SIZEOF_FILES : Z := 384.

Definition PROCESS_MAX_OPEN_FILES : Z := 16.

(** The instruction a thread starts at: a trampoline, or an address saved by a context switch. *)
Inductive code_addr := user_thread_start | kthread_start | ret_from_fork | At (rip : Z).

Record cpu_context := mk_ctx {
  r15 : Z; r14 : Z; r13 : Z; r12 : Z; rbx : Z; rbp : Z; rsp : Z; rip : code_addr
}.

(** The fields of struct thread that the scheduler and the IPC code do not use *)
Record xthread := mk_xt {
  x_pid : Z;
  x_static_prio : Z;
  x_context : cpu_context;
  x_user_stack : Z;
  x_start_time : Z;
  x_user_time : Z
}.

(** uid, euid, suid, gid, egid, sgid *)
Record credentials := mk_cred { uid : Z; euid : Z; suid : Z; gid : Z; egid : Z; sgid : Z }.

Record process := mk_proc {
  p_pid : Z;
  p_ppid : Z;
  p_pgid : Z;
  p_sid : Z;
  p_cred : credentials;
  p_threads : list Z;
  p_nr_threads : Z;
  p_main_thread : Z;
  p_parent : Z;
  p_children : list Z;
  p_exit_code : Z;
  p_files : Z;
  p_name : list Z              (* char name[16] *)
}.

(** struct process_file: kind, flags, module, offset *)
Record process_file := mk_file { f_kind : Z; f_flags : Z; f_module : Z; f_offset : Z }.

Section code.
Context {H A : Type} `{KernelHeap H} `{AddressSpaces A}.

Record kernel := mk_k {
  k_ipc : ipc;
  k_heap : H;
  k_as : A;
  k_procs : gmap Z process;
  k_files : gmap Z (list process_file);
  k_xts : gmap Z xthread;
  k_stacks : gmap Z Z;             (* the memory of kernel stacks: address -> 64-bit word *)
  k_pids : pids;
  process_list : list Z;
  init_process : Z;
  kernel_space : Z;                (* &kernel_space *)
  boot_rsp : Z                     (* percpu_data.kernel_rsp before the first switch *)
}.

Implicit Types st : kernel.

Definition with_ipc st (i : ipc) : kernel :=
  mk_k i (k_heap st) (k_as st) (k_procs st) (k_files st) (k_xts st) (k_stacks st) (k_pids st)
    (process_list st) (init_process st) (kernel_space st) (boot_rsp st).
Definition with_heap st (h : H) : kernel :=
  mk_k (k_ipc st) h (k_as st) (k_procs st) (k_files st) (k_xts st) (k_stacks st) (k_pids st)
    (process_list st) (init_process st) (kernel_space st) (boot_rsp st).
Definition with_as st (a : A) : kernel :=
  mk_k (k_ipc st) (k_heap st) a (k_procs st) (k_files st) (k_xts st) (k_stacks st) (k_pids st)
    (process_list st) (init_process st) (kernel_space st) (boot_rsp st).
Definition with_procs st (m : gmap Z process) : kernel :=
  mk_k (k_ipc st) (k_heap st) (k_as st) m (k_files st) (k_xts st) (k_stacks st) (k_pids st)
    (process_list st) (init_process st) (kernel_space st) (boot_rsp st).
Definition with_files st (m : gmap Z (list process_file)) : kernel :=
  mk_k (k_ipc st) (k_heap st) (k_as st) (k_procs st) m (k_xts st) (k_stacks st) (k_pids st)
    (process_list st) (init_process st) (kernel_space st) (boot_rsp st).
Definition with_xts st (m : gmap Z xthread) : kernel :=
  mk_k (k_ipc st) (k_heap st) (k_as st) (k_procs st) (k_files st) m (k_stacks st) (k_pids st)
    (process_list st) (init_process st) (kernel_space st) (boot_rsp st).
Definition with_stacks st (m : gmap Z Z) : kernel :=
  mk_k (k_ipc st) (k_heap st) (k_as st) (k_procs st) (k_files st) (k_xts st) m (k_pids st)
    (process_list st) (init_process st) (kernel_space st) (boot_rsp st).
Definition with_pids st (p : pids) : kernel :=
  mk_k (k_ipc st) (k_heap st) (k_as st) (k_procs st) (k_files st) (k_xts st) (k_stacks st) p
    (process_list st) (init_process st) (kernel_space st) (boot_rsp st).
Definition with_process_list st (l : list Z) : kernel :=
  mk_k (k_ipc st) (k_heap st) (k_as st) (k_procs st) (k_files st) (k_xts st) (k_stacks st)
    (k_pids st) l (init_process st) (kernel_space st) (boot_rsp st).

Definition k_sch st : sched := sch (k_ipc st).
Definition with_sched st (s : sched) : kernel := with_ipc st (with_sch (k_ipc st) s).

(** [t->field = ...], [proc->field = ...] *)
Definition upd_proc st (p : Z) (f : process -> process) : option kernel :=
  x ← k_procs st !! p; Some (with_procs st (<[p := f x]> (k_procs st))).
Definition upd_kthread st (t : Z) (f : thread -> thread) : option kernel :=
  s ← upd_thread (k_sch st) t f; Some (with_sched st s).
Definition sched_procs (s : sched) (m : gmap Z Z) : sched :=
  mk_sched (threads s) m (runqueues s) (current_thread s) (preempt s) (global_ticks s)
    (boot_time_ns s) (waitqs s) (all_threads s) (hw s).
Definition sched_all (s : sched) (l : list Z) : sched :=
  mk_sched (threads s) (procs s) (runqueues s) (current_thread s) (preempt s) (global_ticks s)
    (boot_time_ns s) (waitqs s) l (hw s).

Definition get_mm st (p : Z) : option Z := procs (k_sch st) !! p.
Definition set_mm st (p mm : Z) : kernel :=
  with_sched st (sched_procs (k_sch st) (<[p := mm]> (procs (k_sch st)))).
Definition set_window st (p w : Z) : option kernel :=
  x ← iprocs (k_ipc st) !! p;
  Some (with_ipc st (with_iprocs (k_ipc st) (<[p := mk_ip (owned_endpoints x) w]> (iprocs (k_ipc st))))).

Definition p_set_exit_code (c : Z) (p : process) : process :=
  mk_proc (p_pid p) (p_ppid p) (p_pgid p) (p_sid p) (p_cred p) (p_threads p) (p_nr_threads p)
    (p_main_thread p) (p_parent p) (p_children p) c (p_files p) (p_name p).
Definition p_set_files (f : Z) (p : process) : process :=
  mk_proc (p_pid p) (p_ppid p) (p_pgid p) (p_sid p) (p_cred p) (p_threads p) (p_nr_threads p)
    (p_main_thread p) (p_parent p) (p_children p) (p_exit_code p) f (p_name p).
Definition p_set_parent (q : Z) (p : process) : process :=
  mk_proc (p_pid p) (p_ppid p) (p_pgid p) (p_sid p) (p_cred p) (p_threads p) (p_nr_threads p)
    (p_main_thread p) q (p_children p) (p_exit_code p) (p_files p) (p_name p).
Definition p_set_children (l : list Z) (p : process) : process :=
  mk_proc (p_pid p) (p_ppid p) (p_pgid p) (p_sid p) (p_cred p) (p_threads p) (p_nr_threads p)
    (p_main_thread p) (p_parent p) l (p_exit_code p) (p_files p) (p_name p).
Definition p_set_threads (l : list Z) (n main : Z) (p : process) : process :=
  mk_proc (p_pid p) (p_ppid p) (p_pgid p) (p_sid p) (p_cred p) l n main (p_parent p)
    (p_children p) (p_exit_code p) (p_files p) (p_name p).
Definition p_set_main (t : Z) (p : process) : process :=
  p_set_threads (p_threads p) (p_nr_threads p) t p.
Definition p_inherit (parent p : process) : process :=
  mk_proc (p_pid p) (p_pid parent) (p_pgid parent) (p_sid parent) (p_cred parent) (p_threads p)
    (p_nr_threads p) (p_main_thread p) (p_parent p) (p_children p) (p_exit_code p) (p_files p)
    (p_name p).

(** ** files.c *)

Definition empty_files : list process_file :=
  replicate (Z.to_nat PROCESS_MAX_OPEN_FILES) (mk_file 0 0 0 0).

Definition process_files_create st : option (Z * kernel) :=
  '(files, h) ← kmalloc (k_heap st) SIZEOF_FILES;
  let st := with_heap st h in
  if files =? 0 then Some (0, st) else
  Some (files, with_files st (<[files := empty_files]> (k_files st))).

Definition process_files_clone st (src : Z) : option (Z * kernel) :=
  '(files, st) ← process_files_create st;
  if files =? 0 then Some (0, st) else
  if negb (src =? 0) then
    x ← k_files st !! src; Some (files, with_files st (<[files := x]> (k_files st)))
  else Some (files, st).

Definition process_files_destroy st (files : Z) : option kernel :=
  if files =? 0 then Some st else
  h ← kfree (k_heap st) files;
  Some (with_files (with_heap st h) (delete files (k_files st))).

(** ** process.c: lists *)

Definition thread_global_add st (t : Z) : kernel :=
  with_sched st (sched_all (k_sch st) (all_threads (k_sch st) ++ [t])).

Definition thread_global_remove st (t : Z) : kernel :=
  with_sched st (sched_all (k_sch st) (without t (all_threads (k_sch st)))).

(** [list_del_init(&child->sibling)]: off the list it is on *)
Definition unlink_sibling (c : Z) (m : gmap Z process) : gmap Z process :=
  (fun p => p_set_children (without c (p_children p)) p) <$> m.

(** [!list_empty(&child->sibling)] *)
Definition sibling_linked (c : Z) (m : gmap Z process) : bool :=
  existsb (fun p => bool_decide (c ∈ p_children p.2)) (map_to_list m).

(** [list_del_init(&t->thread_list)] *)
Definition unlink_thread (t : Z) (m : gmap Z process) : gmap Z process :=
  (fun p => p_set_threads (without t (p_threads p)) (p_nr_threads p) (p_main_thread p) p) <$> m.

(** ** Kernel stacks: [n] words from address [a] on are cleared, given up, or copied from [src] *)

Fixpoint zero_words (n : nat) (a : Z) (m : gmap Z Z) : gmap Z Z :=
  match n with O => m | S n => zero_words n (a + 8) (<[a := 0]> m) end.

Fixpoint drop_words (n : nat) (a : Z) (m : gmap Z Z) : gmap Z Z :=
  match n with O => m | S n => drop_words n (a + 8) (delete a m) end.

(** [memcpy], and the loop [dst[i] = src[i]]: the words written must be there. *)
Fixpoint copy_words (n : nat) (dst src : Z) (m : gmap Z Z) : option (gmap Z Z) :=
  match n with
  | O => Some m
  | S n => w ← m !! src; _ ← m !! dst; copy_words n (dst + 8) (src + 8) (<[dst := w]> m)
  end.

Definition STACK_WORDS : nat := Z.to_nat (KERNEL_STACK_SIZE / 8).

Definition alloc_kernel_stack st : option (Z * kernel) :=
  '(stack, h) ← kmalloc (k_heap st) KERNEL_STACK_SIZE;
  let st := with_heap st h in
  if stack =? 0 then Some (0, st) else
  Some (stack, with_stacks st (zero_words STACK_WORDS stack (k_stacks st))).

Definition free_kernel_stack st (stack : Z) : option kernel :=
  if stack =? 0 then Some st else
  h ← kfree (k_heap st) stack;
  Some (with_stacks (with_heap st h) (drop_words STACK_WORDS stack (k_stacks st))).

(** [kfree(t)] of a struct thread, [kfree(proc)] of a struct process *)
Definition free_thread st (t : Z) : option kernel :=
  h ← kfree (k_heap st) t;
  let st := with_heap st h in
  let i := with_its (k_ipc st) (delete t (its (k_ipc st))) in
  let i := with_sch i (with_threads (sch i) (delete t (threads (sch i)))) in
  Some (with_xts (with_ipc st i) (delete t (k_xts st))).

Definition free_process st (p : Z) : option kernel :=
  h ← kfree (k_heap st) p;
  let st := with_heap st h in
  let i := with_iprocs (k_ipc st) (delete p (iprocs (k_ipc st))) in
  let i := with_sch i (sched_procs (sch i) (delete p (procs (sch i)))) in
  Some (with_procs (with_ipc st i) (delete p (k_procs st))).

Definition k_free_pid st (pid : Z) : option kernel :=
  s ← free_pid (k_pids st) pid; Some (with_pids st s).

Definition destroy_owned st (p : Z) : option kernel :=
  i ← ipc_destroy_owned_by_process (k_ipc st) p; Some (with_ipc st i).

Definition destroy_mm st (mm : Z) : option kernel :=
  a ← as_destroy (k_as st) mm; Some (with_as st a).

(** ** process_destroy *)

(** The parts of it once the process [child], with the fields [c], is off its parent's list: *)

(** its main thread, *)
Definition free_main_thread st (child : Z) (c : process) : option kernel :=
  if negb (p_main_thread c =? 0) then
    let t := p_main_thread c in
    let st := thread_global_remove st t in
    x ← threads (k_sch st) !! t;
    st ← free_kernel_stack st (t_kernel_stack x);
    st ← free_thread st t;
    upd_proc st child (p_set_main 0)
  else Some st.

(** its files, *)
Definition free_files st (child : Z) (c : process) : option kernel :=
  if negb (p_files c =? 0) then
    st ← process_files_destroy st (p_files c); upd_proc st child (p_set_files 0)
  else Some st.

(** its memory, *)
Definition free_mm st (child : Z) : option kernel :=
  mm ← get_mm st child;
  if negb (mm =? 0) then st ← destroy_mm st mm; Some (set_mm st child 0) else Some st.

(** and the process itself. *)
Definition forget_process st (child : Z) (c : process) : option kernel :=
  let st := with_process_list st (without child (process_list st)) in
  st ← k_free_pid st (p_pid c);
  free_process st child.

Definition process_teardown st (child : Z) (c : process) : option kernel :=
  st ← free_main_thread st child c;
  st ← free_files st child c;
  st ← free_mm st child;
  forget_process st child c.

Definition process_destroy st (child : Z) : option kernel :=
  if child =? 0 then Some st else
  st ← destroy_owned st child;
  c ← k_procs st !! child;
  st ← (if negb (p_parent c =? 0) && sibling_linked child (k_procs st) then
          _ ← k_procs st !! p_parent c;
          Some (with_procs st (unlink_sibling child (k_procs st)))
        else Some st);
  process_teardown st child c.

(** ** Initialisation *)

Definition process_init st : option kernel :=
  p ← pids_init (k_pids st);
  Some (with_pids (with_sched st (sched_all (k_sch st) [])) p).

(** ** Creation *)

(** The bytes of a C string up to its NUL; reading on without one is undefined. *)
Fixpoint c_string (l : list Z) : option (list Z) :=
  match l with
  | [] => None
  | c :: l => if c =? 0 then Some [] else s ← c_string l; Some (c :: s)
  end.

Definition NAME_SIZE : Z := 16.

(** [proc->name], zeroed before *)
Definition process_name (name : option (list Z)) : option (list Z) :=
  match name with
  | None => Some (replicate (Z.to_nat NAME_SIZE) 0)
  | Some l =>
      s ← c_string l;
      let len := if NAME_SIZE <=? zlen s then NAME_SIZE - 1 else zlen s in
      Some (take (Z.to_nat len) s ++ replicate (Z.to_nat (NAME_SIZE - len)) 0)
  end.

(** [name] is the memory it points to, [None] for NULL. *)
Definition process_create st (name : option (list Z)) : option (Z * kernel) :=
  '(proc, h) ← kmalloc (k_heap st) SIZEOF_PROCESS;
  let st := with_heap st h in
  if proc =? 0 then Some (0, st) else
  '(pid, p) ← alloc_pid (k_pids st);
  let st := with_pids st p in
  if pid <? 0 then h ← kfree (k_heap st) proc; Some (0, with_heap st h) else
  nm ← process_name name;
  '(files, st) ← process_files_create st;
  if files =? 0 then
    st ← k_free_pid st pid; h ← kfree (k_heap st) proc; Some (0, with_heap st h)
  else
    let x := mk_proc pid 0 0 0 (mk_cred 0 0 0 0 0 0) [] 0 0 0 [] 0 files nm in
    let i := with_iprocs (k_ipc st) (<[proc := mk_ip [] 0]> (iprocs (k_ipc st))) in
    let st := set_mm (with_ipc st i) proc 0 in
    Some (proc, with_process_list (with_procs st (<[proc := x]> (k_procs st))) (process_list st ++ [proc])).

(** A zeroed struct thread at [t] with its fields *)
Definition add_thread st (t : Z) (x : thread) (i : ithread) (xt : xthread) : kernel :=
  let ip := with_its (k_ipc st) (<[t := i]> (its (k_ipc st))) in
  let ip := with_sch ip (with_threads (sch ip) (<[t := x]> (threads (sch ip)))) in
  with_xts (with_ipc st ip) (<[t := xt]> (k_xts st)).

Definition zero_ithread : ithread := mk_it 0 0 0 0 0 (replicate (Z.to_nat IPC_FAST_REGS) 0).

Definition link_thread (t : Z) (p : process) : process :=
  p_set_threads (p_threads p ++ [t]) (p_nr_threads p + 1) t p.

(** What [process_create_main_thread] and [kthread_create] share: a struct thread of process
    [proc], its stack and its initial context; NULL after a failure. *)
Definition new_thread st (proc flags entry arg : Z) (start : code_addr) (user_stack : Z)
  : option (Z * kernel) :=
  '(t, h) ← kmalloc (k_heap st) SIZEOF_THREAD;
  let st := with_heap st h in
  if t =? 0 then Some (0, st) else
  p ← k_procs st !! proc;
  '(stack, st) ← alloc_kernel_stack st;
  if stack =? 0 then h ← kfree (k_heap st) t; Some (0, with_heap st h) else
  let kstack_top := u64 (stack + KERNEL_STACK_SIZE) in
  let ctx := mk_ctx 0 0 arg entry 0 0 (u64 (kstack_top - 8)) start in
  let x := mk_thread (p_pid p) proc TASK_RUNNING flags DEFAULT_PRIO 0 DEFAULT_TIME_SLICE stack
             KERNEL_STACK_SIZE 0 0 0 0 (2 ^ 64 - 1) in
  let xt := mk_xt (p_pid p) DEFAULT_PRIO ctx user_stack (get_ticks (k_sch st)) 0 in
  let st := add_thread st t x zero_ithread xt in
  st ← upd_proc st proc (link_thread t);
  Some (t, thread_global_add st t).

Definition process_create_main_thread st (proc entry stack_top : Z) : option (Z * kernel) :=
  new_thread st proc 0 entry stack_top user_thread_start stack_top.

Definition kthread_create st (fn arg : Z) (name : option (list Z)) : option (Z * kernel) :=
  '(proc, st) ← process_create st name;
  if proc =? 0 then Some (0, st) else
  let st := set_mm st proc 0 in
  '(t, st) ← new_thread st proc TF_KTHREAD fn arg kthread_start 0;
  if t =? 0 then st ← process_destroy st proc; Some (0, st) else Some (t, st).

Definition thread_start st (t : Z) : option kernel :=
  if t =? 0 then Some st else
  s ← sched_add (k_sch st) t; Some (with_sched st s).

(** ** Look-up *)

Fixpoint find_proc (m : gmap Z process) (l : list Z) (pid : Z) : option Z :=
  match l with
  | [] => Some 0
  | p :: l => x ← m !! p; if p_pid x =? pid then Some p else find_proc m l pid
  end.

Definition process_find st (pid : Z) : option Z := find_proc (k_procs st) (process_list st) pid.

Fixpoint find_tid (ts : gmap Z thread) (l : list Z) (tid : Z) : option Z :=
  match l with
  | [] => Some 0
  | t :: l => x ← ts !! t; if t_tid x =? tid then Some t else find_tid ts l tid
  end.

Fixpoint find_thread st (l : list Z) (tid : Z) : option Z :=
  match l with
  | [] => Some 0
  | p :: l =>
      x ← k_procs st !! p;
      t ← find_tid (threads (k_sch st)) (p_threads x) tid;
      if t =? 0 then find_thread st l tid else Some t
  end.

Definition thread_find st (tid : Z) : option Z := find_thread st (process_list st) tid.

(** ** Exit *)

(** [schedule()] called by a thread that is not to run on: the state of the next thread *)
Definition k_schedule (fuel : nat) st : option (option kernel) :=
  r ← schedule fuel (k_sch st); Some (option_map (with_sched st) r).

Definition thread_yield (fuel : nat) st : option (option kernel) :=
  r ← sched_yield fuel (k_sch st); Some (option_map (with_sched st) r).

Definition thread_exit (fuel : nat) st (code : Z) : option (option kernel) :=
  let t := current_thread (k_sch st) in
  x ← threads (k_sch st) !! t;
  let proc := t_process x in
  st ← upd_kthread st t (fun x => set_flags (Z.lor (t_flags x) TF_EXITING) x);
  i ← ipc_thread_cleanup (k_ipc st) t;
  let st := with_ipc st i in
  _ ← k_procs st !! proc;
  let st := with_procs st (unlink_thread t (k_procs st)) in
  st ← upd_proc st proc (fun p => p_set_threads (p_threads p) (p_nr_threads p - 1) (p_main_thread p) p);
  let st := thread_global_remove st t in
  p ← k_procs st !! proc;
  st ← (if p_nr_threads p =? 0 then
          st ← upd_proc st proc (p_set_exit_code code);
          st ← upd_kthread st t (set_state TASK_ZOMBIE);
          let parent := p_parent p in
          if negb (parent =? 0) then
            _ ← k_procs st !! parent;
            s ← thread_wakeup (k_sch st) parent; Some (with_sched st s)
          else Some st
        else upd_kthread st t (set_state TASK_DEAD));
  k_schedule fuel st.

(** The loop that moves the children to init, [fuel] bounding their number *)
Fixpoint reparent_loop (fuel : nat) (m : gmap Z process) (proc init : Z) : option (gmap Z process) :=
  p ← m !! proc;
  match p_children p with
  | [] => Some m
  | child :: _ =>
      match fuel with
      | O => None
      | S n =>
          let m := unlink_sibling child m in
          c ← m !! child;
          let m := <[child := p_set_parent init c]> m in
          i ← m !! init;
          let m := <[init := p_set_children (p_children i ++ [child]) i]> m in
          reparent_loop n m proc init
      end
  end.

(** The children move to init, if there is one. *)
Definition reparent_children st (proc : Z) : option kernel :=
  if negb (init_process st =? 0) && negb (init_process st =? proc) then
    p ← k_procs st !! proc;
    m ← reparent_loop (length (p_children p)) (k_procs st) proc (init_process st);
    Some (with_procs st m)
  else Some st.

(** The pointers to the files and the memory are cleared first, then both are given back. *)
Definition release_resources st (proc : Z) : option kernel :=
  p ← k_procs st !! proc;
  let old_files := p_files p in
  st ← (if negb (old_files =? 0) then upd_proc st proc (p_set_files 0) else Some st);
  old_mm ← get_mm st proc;
  let st := if negb (old_mm =? 0)
            then let st := set_mm st proc 0 in with_sched st (emit (k_sch st) (PagingSwitch (kernel_space st)))
            else st in
  st ← (if negb (old_files =? 0) then process_files_destroy st old_files else Some st);
  if negb (old_mm =? 0) then destroy_mm st old_mm else Some st.

(** [Some None]: the caller has no process and halts for ever. *)
Definition process_exit (fuel : nat) st (code : Z) : option (option kernel) :=
  let t := current_thread (k_sch st) in
  proc ← (if t =? 0 then Some 0 else x ← threads (k_sch st) !! t; Some (t_process x));
  if proc =? 0 then Some None else
  st ← upd_proc st proc (p_set_exit_code code);
  st ← destroy_owned st proc;
  st ← reparent_children st proc;
  st ← release_resources st proc;
  thread_exit fuel st code.

(** A kernel thread's first instructions: its function runs, and the thread exits.  [run] is the
    function called. *)
Definition kthread_entry (run : Z -> Z -> kernel -> option (Z * kernel)) (fuel : nat) st
  : option (option kernel) :=
  let t := current_thread (k_sch st) in
  xt ← k_xts st !! t;
  let fn := r12 (x_context xt) in
  let arg := r13 (x_context xt) in
  '(rc, st) ← (if negb (fn =? 0) then run fn arg st else Some (0, st));
  thread_exit fuel st rc.

(** ** Fork *)

(** [get_percpu_kernel_rsp()]: what the last context switch set *)
Fixpoint percpu_kernel_rsp (boot : Z) (es : list hw_event) : Z :=
  match es with
  | [] => boot
  | SetKernelRsp r :: _ => r
  | _ :: es => percpu_kernel_rsp boot es
  end.

Definition get_percpu_kernel_rsp st : Z := percpu_kernel_rsp (boot_rsp st) (hw (k_sch st)).

(** sizeof the frame that the system call entry pushes *)
Definition FRAME_SIZE : Z := 176.

(** [process_adopt_ipc_window(proc)]; from here on the kernel writes the page it finds. *)
Definition adopt_ipc_window st (proc : Z) : option kernel :=
  mm ← get_mm st proc;
  if mm =? 0 then Some st else
  '(w, l) ← as_window (k_as st) mm;
  st ← set_window st proc w;
  Some (if w =? 0 then st
        else with_ipc st (with_frames (k_ipc st) (<[w := l]> (frames (k_ipc st))))).

(** The window page of a process and what is in it now *)
Definition window_page st (proc : Z) : option (Z * list Z) :=
  x ← iprocs (k_ipc st) !! proc; l ← window (k_ipc st) proc; Some (ipc_window_phys x, l).

(** The child gets a copy of the files of [pp], the parent, instead of its own; [false] without memory. *)
Definition fork_files st (pp : process) (child : Z) : option (bool * kernel) :=
  if negb (p_files pp =? 0) then
    c ← k_procs st !! child;
    st ← process_files_destroy st (p_files c);
    '(files, st) ← process_files_clone st (p_files pp);
    st ← upd_proc st child (p_set_files files);
    Some (negb (files =? 0), st)
  else Some (true, st).

(** And a clone of its memory. *)
Definition fork_memory st (parent child : Z) : option (bool * kernel) :=
  mm ← get_mm st parent;
  if negb (mm =? 0) then
    '(m, a) ← as_clone (k_as st) (window_page st parent) mm;
    let st := set_mm (with_as st a) child m in
    if m =? 0 then Some (false, st) else
    st ← adopt_ipc_window st child; Some (true, st)
  else Some (true, st).

(** The child's files, its place in the tree and its memory; [false] after a failure, with what
    was set up so far still in place. *)
Definition fork_process st (parent child : Z) : option (bool * kernel) :=
  pp ← k_procs st !! parent;
  st ← upd_proc st child (p_inherit pp);
  '(ok, st) ← fork_files st pp child;
  if negb ok then Some (false, st) else
  st ← upd_proc st child (p_set_parent parent);
  st ← upd_proc st parent (fun p => p_set_children (p_children p ++ [child]) p);
  fork_memory st parent child.

(** The child's thread, a copy of the parent's on a stack of its own; 0 after a failure. *)
Definition fork_thread st (parent_thread child : Z) : option (Z * kernel) :=
  '(t, h) ← kmalloc (k_heap st) SIZEOF_THREAD;
  let st := with_heap st h in
  if t =? 0 then Some (0, st) else
  x ← threads (k_sch st) !! parent_thread;
  i ← its (k_ipc st) !! parent_thread;
  xt ← k_xts st !! parent_thread;
  '(stack, st) ← alloc_kernel_stack st;
  if stack =? 0 then h ← kfree (k_heap st) t; Some (0, with_heap st h) else
  m ← copy_words (Z.to_nat (t_kernel_stack_size x / 8)) stack (t_kernel_stack x) (k_stacks st);
  c ← k_procs st !! child;
  let top := u64 (stack + t_kernel_stack_size x) in
  m ← copy_words (Z.to_nat (FRAME_SIZE / 8)) (u64 (top - FRAME_SIZE))
        (u64 (get_percpu_kernel_rsp st - FRAME_SIZE)) m;
  let flags := Z.lor (t_flags x) TF_FORKING in
  let x := mk_thread (p_pid c) child (t_state x) flags (t_priority x) (t_nice x) DEFAULT_TIME_SLICE
             stack (t_kernel_stack_size x) 0 (t_last_run x) (t_wait_channel x) (t_cpu x) (t_cpu_mask x) in
  let ctx := mk_ctx 0 0 0 top 0 0 (u64 (top - 256)) ret_from_fork in
  let xt := mk_xt (p_pid c) (x_static_prio xt) ctx (x_user_stack xt) (get_ticks (k_sch st)) 0 in
  let st := add_thread (with_stacks st m) t x i xt in
  st ← upd_proc st child (link_thread t);
  let st := thread_global_add st t in
  st ← upd_kthread st t (fun x => set_flags (Z.land (t_flags x) (lnotw 32 TF_FORKING)) x);
  s ← sched_add (k_sch st) t;
  Some (t, with_sched st s).

Definition process_fork st : option (Z * kernel) :=
  let parent_thread := current_thread (k_sch st) in
  x ← threads (k_sch st) !! parent_thread;
  let parent := t_process x in
  pp ← k_procs st !! parent;
  '(child, st) ← process_create st (Some (p_name pp));
  if child =? 0 then Some (-1, st) else
  '(ok, st) ← fork_process st parent child;
  if negb ok then st ← process_destroy st child; Some (-1, st) else
  '(t, st) ← fork_thread st parent_thread child;
  if t =? 0 then st ← process_destroy st child; Some (-1, st) else
  c ← k_procs st !! child; Some (p_pid c, st).

(** switch.asm: the registers [ret_from_fork] pops off the child's stack, [r15] first, with [rax]
    (word 14) cleared *)
Definition fork_return st (t : Z) : option (list Z) :=
  xt ← k_xts st !! t;
  ws ← mapM (fun k => k_stacks st !! (u64 (r12 (x_context xt) - FRAME_SIZE) + 8 * Z.of_nat k)) (seq 0 22);
  Some (<[14%nat := 0]> ws).

(** ** Wait *)

(** [process_wait] returns (with the exit status, if it found a zombie), or sleeps; the state is
    then that of the next thread, or [None] when there was no fuel for [schedule]. *)
Inductive wait_result := Waited (pid : Z) (status : option Z) st | Asleep (next : option kernel).

Fixpoint find_zombie st (l : list Z) : option (option Z) :=
  match l with
  | [] => Some None
  | c :: l =>
      x ← k_procs st !! c;
      z ← (if p_main_thread x =? 0 then Some false
           else t ← threads (k_sch st) !! p_main_thread x; Some (bool_decide (t_state t = TASK_ZOMBIE)));
      if z : bool then Some (Some c) else find_zombie st l
  end.

Definition process_wait (fuel : nat) st : option wait_result :=
  let self := current_thread (k_sch st) in
  proc ← (if self =? 0 then Some 0 else x ← threads (k_sch st) !! self; Some (t_process x));
  if (proc =? 0) || (self =? 0) then Some (Waited (-1) None st) else
  p ← k_procs st !! proc;
  if bool_decide (p_children p = []) then Some (Waited (-1) None st) else
  z ← find_zombie st (p_children p);
  match z with
  | Some zombie =>
      c ← k_procs st !! zombie;
      let st := with_procs st (unlink_sibling zombie (k_procs st)) in
      st ← process_destroy st zombie;
      Some (Waited (p_pid c) (Some (p_exit_code c)) st)
  | None =>
      st ← upd_kthread st self (fun x => set_state TASK_INTERRUPTIBLE (set_wait_channel proc x));
      r ← k_schedule fuel st; Some (Asleep r)
  end.

(** What the thread does once it runs again *)
Definition process_wait_resume (fuel : nat) st : option wait_result :=
  st ← upd_kthread st (current_thread (k_sch st)) (set_wait_channel 0);
  process_wait fuel st.

(** ** Kill *)

Definition process_kill st (pid sig : Z) : option (Z * kernel) :=
  proc ← process_find st pid;
  if proc =? 0 then Some (-1, st) else
  p ← k_procs st !! proc;
  if negb (p_main_thread p =? 0) then
    st ← upd_kthread st (p_main_thread p) (fun x => set_flags (Z.lor (t_flags x) TF_EXITING) x);
    Some (0, st)
  else Some (0, st).

End code.

Arguments kernel : clear implicits.
