(* ===== verification/ProcessTable.v ===== *)
(** * The process table (kernel/proc/process.c)

    The global process list, the PID bitmap and the tree of parents and children, with the changes
    the process code makes to them: a process is added, becomes a child, its children move to
    init, it is taken off the tree and removed. *)
From S2P Require Import Prelude Defs Sched Ipc Pid Process.

Implicit Types (m : gmap Z process) (l : list Z) (x y : process).

(** What the table is about in a process. *)
Definition node (x : process) : Z * Z * list Z := (p_pid x, p_parent x, p_children x).

(** Every process has a PID of its own and exactly those PIDs are in use; the list holds every
    process once; the children of a process are the processes whose parent it is, once each, and
    a parent is a process. *)
Record table_inv m l (s : pids) : Prop := {
  ti_pids : pids_inv s;
  ti_list : NoDup l /\ forall p, p ∈ l <-> is_Some (m !! p);
  ti_null : m !! 0 = None;
  ti_pid : forall p x, m !! p = Some x -> 1 <= p_pid x < PID_MAX;
  ti_uniq : forall p q x y, m !! p = Some x -> m !! q = Some y -> p_pid x = p_pid y -> p = q;
  ti_used : forall i, 1 <= i < PID_MAX ->
    pid_used s i = true <-> exists p x, m !! p = Some x /\ p_pid x = i;
  ti_tree : forall p x, m !! p = Some x -> NoDup (p_children x) /\
    forall c, c ∈ p_children x <-> exists y, m !! c = Some y /\ p_parent y = p;
  ti_parent : forall c y, m !! c = Some y -> p_parent y ≠ 0 -> is_Some (m !! p_parent y)
}.

(** Changes that do not concern the table. *)
Definition same_nodes m m' : Prop := forall p, node <$> m' !! p = node <$> m !! p.

Lemma same_nodes_look m m' p x' : same_nodes m m' -> m' !! p = Some x' ->
  exists x, m !! p = Some x /\ node x' = node x.
Proof.
  intros S Hx. specialize (S p). rewrite Hx in S. destruct (m !! p) as [x|]; [|done]. injection S as S. exists x. split; [done|].
  unfold node. congruence.
Qed.

Lemma same_nodes_dom m m' p : same_nodes m m' -> is_Some (m' !! p) <-> is_Some (m !! p).
Proof. intros S. specialize (S p). destruct (m' !! p), (m !! p); split; intros []; try done; by eexists. Qed.

Lemma same_nodes_sym m m' : same_nodes m m' -> same_nodes m' m.
Proof. intros S p. by rewrite S. Qed.

Lemma same_nodes_upd m p x x' : m !! p = Some x -> node x' = node x -> same_nodes m (<[p := x']> m).
Proof.
  intros Hx E q. destruct (decide (q = p)) as [->|Hq]; [|by rewrite lookup_insert_ne].
  rewrite lookup_insert_eq, Hx. simpl. by rewrite E.
Qed.

Lemma same_nodes_fmap m f : (forall x, node (f x) = node x) -> same_nodes m (f <$> m).
Proof. intros E p. rewrite lookup_fmap. destruct (m !! p); [|done]. simpl. by rewrite E. Qed.

Lemma table_same m l s m' : table_inv m l s -> same_nodes m m' -> table_inv m' l s.
Proof.
  intros [A1 [A2 A3] A4 A5 A6 A7 A8 A9] S.
  assert (forall p y, m !! p = Some y -> exists x', m' !! p = Some x' /\ node x' = node y) as Hfwd.
  { intros p y Hy. destruct (same_nodes_look m' m p y (same_nodes_sym _ _ S) Hy) as (x' & Hx & E). by exists x'. }
  split; [done| | | | | | |].
  - split; [done|]. intros p. by rewrite A3, (same_nodes_dom m m' p S).
  - specialize (S 0). rewrite A4 in S. by destruct (m' !! 0).
  - intros p x' Hx. destruct (same_nodes_look _ _ _ _ S Hx) as (x & Hx' & [= -> _ _]). by eapply A5.
  - intros p q x' y' Hx Hy. destruct (same_nodes_look _ _ _ _ S Hx) as (x & Hx' & [= -> _ _]).
    destruct (same_nodes_look _ _ _ _ S Hy) as (y & Hy' & [= -> _ _]). by apply (A6 p q x y).
  - intros i Hi. rewrite A7 by done. split.
    + intros (p & x & Hx & <-). destruct (Hfwd p x Hx) as (x' & Hx' & [= E _ _]). by exists p, x'.
    + intros (p & x' & Hx & <-). destruct (same_nodes_look _ _ _ _ S Hx) as (x & Hx' & [= -> _ _]). by exists p, x.
  - intros p x' Hx. destruct (same_nodes_look _ _ _ _ S Hx) as (x & Hx' & [= _ _ ->]). destruct (A8 p x Hx') as [N C].
    split; [done|]. intros c. rewrite C. split.
    + intros (y & Hy & <-). destruct (Hfwd c y Hy) as (y' & Hy' & [= _ E _]). by exists y'.
    + intros (y' & Hy & <-). destruct (same_nodes_look _ _ _ _ S Hy) as (y & Hy' & [= _ -> _]). by exists y.
  - intros c y' Hy. destruct (same_nodes_look _ _ _ _ S Hy) as (y & Hy' & [= _ -> _]). intros Hn.
    rewrite (same_nodes_dom m m' _ S). by eapply A9.
Qed.

(** A process without relatives comes in with a PID that was free. *)
Lemma table_add m l s s' p x :
  table_inv m l s -> m !! p = None -> p ≠ 0 -> pids_inv s' -> 1 <= p_pid x < PID_MAX ->
  pid_used s (p_pid x) = false ->
  (forall j, 0 <= j -> pid_used s' j = if decide (j = p_pid x) then true else pid_used s j) ->
  p_parent x = 0 -> p_children x = [] -> table_inv (<[p := x]> m) (l ++ [p]) s'.
Proof.
  intros [A1 [A2 A3] A4 A5 A6 A7 A8 A9] Hp Hp0 HI Hr Hfree Hu Hpar Hch.
  assert (forall q y, m !! q = Some y -> p_pid y ≠ p_pid x) as Hne.
  { intros q y Hy E. assert (pid_used s (p_pid x) = true) by (apply A7; [done|]; by exists q, y). congruence. }
  split; [done| | | | | | |].
  - split.
    + apply NoDup_app. split; [done|]. split; [|apply NoDup_singleton]. intros a Ha ->%list_elem_of_singleton.
      apply A3 in Ha as [? ?]. congruence.
    + intros q. rewrite elem_of_app, list_elem_of_singleton, A3. destruct (decide (q = p)) as [->|Hq].
      * rewrite lookup_insert_eq. split; [by eexists|by right].
      * rewrite lookup_insert_ne by done. naive_solver.
  - by rewrite lookup_insert_ne.
  - intros q y. rewrite lookup_insert_Some. intros [[<- <-]|[_ Hy]]; [done|by eapply A5].
  - intros q r y z. rewrite !lookup_insert_Some. intros [[<- <-]|[Hq Hy]] [[<- <-]|[Hr' Hz]] E; try done.
    + by destruct (Hne r z).
    + by destruct (Hne q y).
    + by eapply A6.
  - intros i Hi. rewrite Hu by lia. case_decide as Ei.
    + split; [|done]. intros _. exists p, x. by rewrite lookup_insert_eq.
    + rewrite A7 by done. split; intros (q & y & Hy & E).
      * exists q, y. split; [|done]. rewrite lookup_insert_ne; [done|]. congruence.
      * exists q, y. split; [|done]. apply lookup_insert_Some in Hy as [[<- <-]|[_ Hy]]; [congruence|done].
  - intros q y. rewrite lookup_insert_Some. intros [[<- <-]|[Hq Hy]].
    + rewrite Hch. split; [constructor|]. intros c. split; [by intros ?%not_elem_of_nil|].
      intros (z & [[<- <-]|[_ Hz]]%lookup_insert_Some & E); [congruence|].
      destruct (A9 c z Hz) as [? ?]; [congruence|congruence].
    + destruct (A8 q y Hy) as [N C]. split; [done|]. intros c. rewrite C. split; intros (z & Hz & E).
      * exists z. split; [|done]. rewrite lookup_insert_ne; [done|]. congruence.
      * apply lookup_insert_Some in Hz as [[<- <-]|[_ Hz]]; [|by exists z]. assert (q = 0) as -> by congruence. congruence.
  - intros c y. rewrite lookup_insert_Some. intros [[<- <-]|[Hc Hy]] Hn; [done|]. destruct (A9 c y Hy Hn) as [z Hz].
    destruct (decide (p_parent y = p)) as [->|?]; [rewrite lookup_insert_eq|rewrite lookup_insert_ne by done]; by eexists.
Qed.

(** ** A process changes its parent *)

Definition hung_node (c n q : Z) (v : Z * Z * list Z) : Z * Z * list Z :=
  let '(pid, par, ch) := v in
  (pid, if decide (q = c) then n else par,
   if decide (q = n) then without c ch ++ [c] else without c ch).

(** [c] is moved to the end of the children of [n]. *)
Definition hung (c n : Z) m m' : Prop := forall q, node <$> m' !! q = hung_node c n q <$> (node <$> m !! q).

Lemma hung_look c n m m' q x' : hung c n m m' -> m' !! q = Some x' ->
  exists x, m !! q = Some x /\ p_pid x' = p_pid x /\ p_parent x' = (if decide (q = c) then n else p_parent x) /\
    p_children x' = (if decide (q = n) then without c (p_children x) ++ [c] else without c (p_children x)).
Proof.
  intros R Hx. specialize (R q). rewrite Hx in R. destruct (m !! q) as [x|]; [|done]. injection R as R1 R2 R3.
  by exists x.
Qed.

Lemma hung_fwd c n m m' q x : hung c n m m' -> m !! q = Some x ->
  exists x', m' !! q = Some x' /\ p_pid x' = p_pid x /\ p_parent x' = (if decide (q = c) then n else p_parent x).
Proof.
  intros R Hx. specialize (R q). rewrite Hx in R. destruct (m' !! q) as [x'|]; [|done]. injection R as R1 R2 R3.
  by exists x'.
Qed.

Lemma hung_dom c n m m' q : hung c n m m' -> is_Some (m' !! q) <-> is_Some (m !! q).
Proof. intros R. specialize (R q). destruct (m' !! q), (m !! q); split; intros []; try done; by eexists. Qed.

Lemma NoDup_snoc_without c (ch : list Z) : NoDup ch -> NoDup (without c ch ++ [c]).
Proof.
  intros H. apply NoDup_app. split; [by apply NoDup_filter|]. split; [|apply NoDup_singleton].
  intros a Ha ->%list_elem_of_singleton. apply elem_of_without in Ha. tauto.
Qed.

Lemma table_hung m l s c n m' :
  table_inv m l s -> is_Some (m !! c) -> is_Some (m !! n) -> hung c n m m' -> table_inv m' l s.
Proof.
  intros [A1 [A2 A3] A4 A5 A6 A7 A8 A9] [yc Hc] Hn R. split; [done| | | | | | |].
  - split; [done|]. intros p. by rewrite A3, (hung_dom _ _ _ _ p R).
  - destruct (m' !! 0) as [x'|] eqn:E; [|done]. destruct (hung_look _ _ _ _ _ _ R E) as (x & Hx & _). congruence.
  - intros p x' Hx. destruct (hung_look _ _ _ _ _ _ R Hx) as (x & Hx' & -> & _). by eapply A5.
  - intros p q x' y' Hx Hy. destruct (hung_look _ _ _ _ _ _ R Hx) as (x & Hx' & -> & _).
    destruct (hung_look _ _ _ _ _ _ R Hy) as (y & Hy' & -> & _). by apply (A6 p q x y).
  - intros i Hi. rewrite A7 by done. split.
    + intros (p & x & Hx & <-). destruct (hung_fwd _ _ _ _ _ _ R Hx) as (x' & Hx' & E & _). by exists p, x'.
    + intros (p & x' & Hx & <-). destruct (hung_look _ _ _ _ _ _ R Hx) as (x & Hx' & -> & _). by exists p, x.
  - intros p x' Hx. destruct (hung_look _ _ _ _ _ _ R Hx) as (x & Hx' & _ & _ & ->). destruct (A8 p x Hx') as [N C].
    split; [case_decide; [by apply NoDup_snoc_without|by apply NoDup_filter]|].
    assert (forall d, (exists y', m' !! d = Some y' /\ p_parent y' = p) <->
              if decide (d = c) then p = n else d ∈ p_children x) as Hd.
    { intros d. split.
      - intros (y' & Hy' & E). destruct (hung_look _ _ _ _ _ _ R Hy') as (y & Hy & _ & E' & _). rewrite E' in E.
        destruct (decide (d = c)); [done|]. apply C. by exists y.
      - destruct (decide (d = c)) as [->|Hdc].
        + intros ->. destruct (hung_fwd _ _ _ _ _ _ R Hc) as (y' & Hy' & _ & E). rewrite decide_True in E by done.
          by exists y'.
        + intros (y & Hy & <-)%C. destruct (hung_fwd _ _ _ _ _ _ R Hy) as (y' & Hy' & _ & E).
          rewrite decide_False in E by done. by exists y'. }
    intros d. rewrite Hd. destruct (decide (p = n)) as [->|Hpn].
    + rewrite elem_of_app, elem_of_without, list_elem_of_singleton. destruct (decide (d = c)); tauto.
    + rewrite elem_of_without. destruct (decide (d = c)); tauto.
  - intros d y' Hy. destruct (hung_look _ _ _ _ _ _ R Hy) as (y & Hy' & _ & -> & _). rewrite (hung_dom _ _ _ _ _ R).
    case_decide; [done|]. by eapply A9.
Qed.

(** How the code does it: off the old list, the new parent, and onto the new list. *)
Lemma hang_ok m c n y x :
  unlink_sibling c m !! c = Some y -> let m1 := <[c := p_set_parent n y]> (unlink_sibling c m) in
  m1 !! n = Some x -> hung c n m (<[n := p_set_children (p_children x ++ [c]) x]> m1).
Proof.
  intros Hy m1 Hx q. unfold m1 in *. clear m1. unfold unlink_sibling in *. rewrite lookup_fmap in Hy.
  destruct (m !! c) as [yc|] eqn:Ec; [|done]. injection Hy as <-. unfold hung_node.
  destruct (decide (q = n)) as [->|Hqn].
  - rewrite lookup_insert_eq. destruct (decide (n = c)) as [->|Hnc].
    + rewrite lookup_insert_eq in Hx. injection Hx as <-. by rewrite Ec.
    + rewrite lookup_insert_ne, lookup_fmap in Hx by done. destruct (m !! n) as [xn|]; [|done]. by injection Hx as <-.
  - rewrite lookup_insert_ne by done. destruct (decide (q = c)) as [->|Hqc].
    + rewrite lookup_insert_eq, Ec. done.
    + rewrite lookup_insert_ne, lookup_fmap by done. by destruct (m !! q).
Qed.

(** ** Every child moves to init *)

(** What the move keeps of a process. *)
Definition kin_only (x x' : process) : Prop :=
  x' = p_set_parent (p_parent x') (p_set_children (p_children x') x).

(** [m'] is [m] after the children [ch] of [proc] have moved to [init]. *)
Record moved m m' (proc init : Z) (ch : list Z) : Prop := {
  mv_kin : forall q, match m !! q, m' !! q with
    | Some x, Some x' => kin_only x x' /\ p_parent x' = (if decide (q ∈ ch) then init else p_parent x)
    | None, None => True
    | _, _ => False
    end;
  mv_empty : forall x', m' !! proc = Some x' -> p_children x' = [];
  mv_init : forall x x', m !! init = Some x -> m' !! init = Some x' -> init ∉ ch ->
    p_children x' = p_children x ++ ch
}.

Lemma kin_only_refl x : kin_only x x.
Proof. by destruct x. Qed.

Lemma kin_only_trans x y z : kin_only x y -> kin_only y z -> kin_only x z.
Proof. unfold kin_only. intros -> ->. done. Qed.

Lemma hang_kin m c n y x :
  unlink_sibling c m !! c = Some y -> let m1 := <[c := p_set_parent n y]> (unlink_sibling c m) in
  m1 !! n = Some x -> forall q, match m !! q, <[n := p_set_children (p_children x ++ [c]) x]> m1 !! q with
    | Some z, Some z' => kin_only z z' /\ p_parent z' = if decide (q = c) then n else p_parent z
    | None, None => True
    | _, _ => False
    end.
Proof.
  intros Hy m1 Hx q. unfold m1 in *. clear m1. unfold unlink_sibling in *. rewrite lookup_fmap in Hy.
  destruct (m !! c) as [yc|] eqn:Ec; [|done]. injection Hy as <-.
  destruct (decide (q = n)) as [->|Hqn].
  - rewrite lookup_insert_eq. destruct (decide (n = c)) as [->|Hnc].
    + rewrite lookup_insert_eq in Hx. injection Hx as <-. by rewrite Ec.
    + rewrite lookup_insert_ne, lookup_fmap in Hx by done. destruct (m !! n) as [xn|]; [|done]. by injection Hx as <-.
  - rewrite lookup_insert_ne by done. destruct (decide (q = c)) as [->|Hqc].
    + rewrite lookup_insert_eq, Ec. done.
    + rewrite lookup_insert_ne, lookup_fmap by done. by destruct (m !! q).
Qed.

Lemma moved_refl m proc init : (forall x, m !! proc = Some x -> p_children x = []) -> moved m m proc init [].
Proof.
  intros He. split; [|done|].
  - intros q. destruct (m !! q) as [x|]; [|done]. rewrite decide_False by apply not_elem_of_nil. split; [apply kin_only_refl|done].
  - intros x x' Hx Hx' _. assert (x' = x) as -> by congruence. by rewrite app_nil_r.
Qed.

Lemma moved_cons m m1 m' proc init c ch :
  (forall q, match m !! q, m1 !! q with
    | Some z, Some z' => kin_only z z' /\ p_parent z' = if decide (q = c) then init else p_parent z
    | None, None => True
    | _, _ => False
    end) ->
  (forall x x1, m !! init = Some x -> m1 !! init = Some x1 -> init ≠ c -> p_children x1 = p_children x ++ [c]) ->
  moved m1 m' proc init ch -> moved m m' proc init (c :: ch).
Proof.
  intros K I [A1 A2 A3]. split; [|done|].
  - intros q. specialize (K q). specialize (A1 q). destruct (m !! q) as [x|], (m1 !! q) as [x1|], (m' !! q) as [x'|]; try done.
    destruct K as [K1 K2], A1 as [B1 B2]. split; [by eapply kin_only_trans|]. rewrite B2, K2.
    destruct (decide (q = c)) as [->|Hqc].
    + rewrite (decide_True (P := c ∈ c :: ch)) by by left. by case_decide.
    + destruct (decide (q ∈ ch)); [rewrite decide_True by by right|rewrite decide_False by (rewrite elem_of_cons; naive_solver)]; done.
  - intros x x' Hx Hx' [Hc Hn]%not_elem_of_cons. specialize (K init). rewrite Hx in K.
    destruct (m1 !! init) as [x1|] eqn:E1; [|done]. rewrite (A3 x1 x' eq_refl Hx' Hn), (I x x1 Hx eq_refl Hc).
    by rewrite <- (assoc_L (++)).
Qed.

Lemma reparent_ok ch : forall m l s proc init p,
  table_inv m l s -> m !! proc = Some p -> p_children p = ch -> proc ≠ init -> is_Some (m !! init) ->
  exists m', reparent_loop (length ch) m proc init = Some m' /\ table_inv m' l s /\ moved m m' proc init ch.
Proof.
  induction ch as [|c ch IH]; intros m l s proc init p T Hp Ech Hpi Hi; cbn [reparent_loop length];
    rewrite Hp; cbn [mbind option_bind]; rewrite Ech.
  - exists m. split; [done|]. split; [done|]. apply moved_refl. intros x Hx. congruence.
  - destruct (ti_tree _ _ _ T proc p Hp) as [N C]. rewrite Ech in N, C.
    destruct (proj1 (C c)) as (yc & Hyc & Epar); [by left|].
    assert (unlink_sibling c m !! c = Some (p_set_children (without c (p_children yc)) yc)) as Hy.
    { unfold unlink_sibling. by rewrite lookup_fmap, Hyc. }
    rewrite Hy. cbn [mbind option_bind]. set (m1 := <[c := p_set_parent init _]> (unlink_sibling c m)).
    assert (is_Some (m1 !! init)) as [xi Hxi].
    { unfold m1. destruct (decide (init = c)) as [->|?]; [rewrite lookup_insert_eq; by eexists|].
      rewrite lookup_insert_ne by done. unfold unlink_sibling. rewrite lookup_fmap. destruct Hi as [? ->]. by eexists. }
    rewrite Hxi. cbn [mbind option_bind]. set (m2 := <[init := _]> m1).
    pose proof (hang_ok m c init _ xi Hy Hxi) as R. pose proof (hang_kin m c init _ xi Hy Hxi) as K. fold m1 m2 in R, K.
    assert (table_inv m2 l s) as T2 by (eapply table_hung; [exact T|by eexists|done|exact R]).
    destruct (proj2 (hung_dom c init m m2 proc R)) as [p2 Hp2]; [by eexists|].
    destruct (hung_look _ _ _ _ _ _ R Hp2) as (p' & Hp' & _ & _ & Ech2). rewrite decide_False in Ech2 by done.
    assert (p' = p) as -> by congruence. rewrite Ech, without_head in Ech2 by done.
    destruct (IH m2 l s proc init p2 T2 Hp2 Ech2 Hpi) as (m' & E & T' & M).
    { by apply (hung_dom c init m m2 init R). }
    exists m'. split; [exact E|]. split; [done|]. eapply moved_cons; [exact K| |exact M].
    intros x x1 Hx Hx1 Hic. destruct (hung_look _ _ _ _ _ _ R Hx1) as (x0 & Hx0 & _ & _ & ->).
    rewrite decide_True by done. assert (x0 = x) as -> by congruence. rewrite without_id; [done|].
    intros Hin. apply (ti_tree _ _ _ T init x Hx) in Hin as (y & Hy' & E'). congruence.
Qed.

(** ** A process goes *)

(** [m'] is [m] without [c]: it is off the list it was on, and gone. *)
Definition removed (c : Z) m m' : Prop :=
  m' !! c = None /\ forall q, q ≠ c ->
    node <$> m' !! q = (fun v => (v.1, without c v.2)) <$> (node <$> m !! q).

Lemma removed_look c m m' q x' : removed c m m' -> m' !! q = Some x' ->
  q ≠ c /\ exists x, m !! q = Some x /\ p_pid x' = p_pid x /\ p_parent x' = p_parent x /\
    p_children x' = without c (p_children x).
Proof.
  intros [R0 R] Hx. assert (q ≠ c) as Hq by (intros ->; congruence). split; [done|]. specialize (R q Hq).
  rewrite Hx in R. destruct (m !! q) as [x|]; [|done]. injection R as R1 R2 R3. by exists x.
Qed.

Lemma removed_fwd c m m' q x : removed c m m' -> q ≠ c -> m !! q = Some x ->
  exists x', m' !! q = Some x' /\ p_pid x' = p_pid x /\ p_parent x' = p_parent x.
Proof.
  intros [_ R] Hq Hx. specialize (R q Hq). rewrite Hx in R. destruct (m' !! q) as [x'|]; [|done].
  injection R as R1 R2 R3. by exists x'.
Qed.

Lemma table_remove m l s c y m' s' :
  table_inv m l s -> m !! c = Some y -> p_children y = [] -> removed c m m' -> pids_inv s' ->
  (forall j, 0 <= j -> pid_used s' j = if decide (j = p_pid y) then false else pid_used s j) ->
  table_inv m' (without c l) s'.
Proof.
  intros [A1 [A2 A3] A4 A5 A6 A7 A8 A9] Hy Hch R HI Hu.
  assert (forall q z, m !! q = Some z -> p_parent z ≠ c) as Hno.
  { intros q z Hz E. destruct (A8 c y Hy) as [_ C]. assert (q ∈ p_children y) as Hin by (apply C; by exists z).
    rewrite Hch in Hin. by apply not_elem_of_nil in Hin. }
  assert (forall q, is_Some (m' !! q) <-> is_Some (m !! q) /\ q ≠ c) as Hdom.
  { intros q. split.
    - intros [x' Hx]. destruct (removed_look _ _ _ _ _ R Hx) as (Hq & x & Hx' & _). split; [by eexists|done].
    - intros [[x Hx] Hq]. destruct (removed_fwd _ _ _ _ _ R Hq Hx) as (x' & ? & _). by eexists. }
  split; [done| | | | | | |].
  - split; [by apply NoDup_filter|]. intros p. by rewrite elem_of_without, A3, Hdom.
  - destruct (m' !! 0) as [x'|] eqn:E; [|done]. destruct (removed_look _ _ _ _ _ R E) as (_ & x & Hx & _). congruence.
  - intros p x' Hx. destruct (removed_look _ _ _ _ _ R Hx) as (_ & x & Hx' & -> & _). by eapply A5.
  - intros p q x' y' Hx Hy'. destruct (removed_look _ _ _ _ _ R Hx) as (_ & x & Hx' & -> & _).
    destruct (removed_look _ _ _ _ _ R Hy') as (_ & z & Hz & -> & _). by apply (A6 p q x z).
  - intros i Hi. rewrite Hu by lia. case_decide as Ei.
    + split; [done|]. intros (p & x' & Hx & E). destruct (removed_look _ _ _ _ _ R Hx) as (Hp & x & Hx' & E' & _).
      destruct Hp. apply (A6 p c x y); congruence.
    + rewrite A7 by done. split.
      * intros (p & x & Hx & E). assert (p ≠ c) as Hp by (intros ->; congruence).
        destruct (removed_fwd _ _ _ _ _ R Hp Hx) as (x' & Hx' & E' & _). exists p, x'. split; [done|congruence].
      * intros (p & x' & Hx & E). destruct (removed_look _ _ _ _ _ R Hx) as (_ & x & Hx' & E' & _). exists p, x. split; [done|congruence].
  - intros p x' Hx. destruct (removed_look _ _ _ _ _ R Hx) as (Hp & x & Hx' & _ & _ & ->). destruct (A8 p x Hx') as [N C].
    split; [by apply NoDup_filter|]. intros d. rewrite elem_of_without, C. split.
    + intros [(z & Hz & E) Hd]. destruct (removed_fwd _ _ _ _ _ R Hd Hz) as (z' & Hz' & _ & E'). exists z'. split; [done|congruence].
    + intros (z' & Hz & E). destruct (removed_look _ _ _ _ _ R Hz) as (Hd & z & Hz' & _ & E' & _). split; [exists z; split; [done|congruence]|done].
  - intros d z' Hz. destruct (removed_look _ _ _ _ _ R Hz) as (Hd & z & Hz' & _ & -> & _). intros Hn. rewrite Hdom.
    split; [by eapply A9|by eapply Hno].
Qed.
