(* ===== verification/ProcessFrame.v ===== *)
(** * What the scheduler and the IPC teardown leave alone

    The process code calls into the scheduler and the IPC system; these lemmas say which parts of
    their state such a call cannot change: the identity of threads, the address spaces of
    processes, and every thread that nothing waits for. *)
From S2P Require Import Prelude Defs Sched Ipc Endpoint.

(** ** The scheduler *)

(** The fields of a thread that the scheduler never writes. *)
Definition static (x : thread) : Z * Z * Z * Z :=
  (t_tid x, t_process x, t_kernel_stack x, t_kernel_stack_size x).

Record sframe (s s' : sched) : Prop := {
  sf_procs : procs s' = procs s;
  sf_all : all_threads s' = all_threads s;
  sf_static : forall t, static <$> threads s' !! t = static <$> threads s !! t;
  sf_zombie : forall t x', threads s' !! t = Some x' -> t_state x' = TASK_ZOMBIE ->
    exists x, threads s !! t = Some x /\ t_state x = TASK_ZOMBIE
}.

#[export] Instance sframe_preorder : PreOrder sframe.
Proof.
  split.
  - intros s. split; eauto.
  - intros s1 s2 s3 [A1 A2 A3 A4] [B1 B2 B3 B4]. split; [congruence..| |].
    + intros t. by rewrite B3, A3.
    + intros t x Hx Hz. destruct (B4 t x Hx Hz) as (y & Hy & Hz'). by eapply A4.
Qed.

(** A change of the other parts of the scheduler's state *)
Lemma sframe_same s s' :
  procs s' = procs s -> all_threads s' = all_threads s -> threads s' = threads s -> sframe s s'.
Proof. intros E1 E2 E3. split; [done|done|by rewrite E3|]. rewrite E3. eauto. Qed.

Ltac same_threads := by apply sframe_same.

(** Besides, only thread [t] changes, and the current thread stays the same. *)
Definition only_thread (s : sched) (t : Z) (s' : sched) : Prop :=
  sframe s s' /\ current_thread s' = current_thread s /\ forall u, u ≠ t -> threads s' !! u = threads s !! u.

Lemma only_thread_refl s t : only_thread s t s.
Proof. split; [reflexivity|done]. Qed.

Lemma only_thread_trans s1 t s2 s3 : only_thread s1 t s2 -> only_thread s2 t s3 -> only_thread s1 t s3.
Proof.
  intros (A1 & A2 & A3) (B1 & B2 & B3). split; [by etransitivity|]. split; [congruence|].
  intros u Hu. by rewrite B3, A3.
Qed.

Lemma upd_thread_only s t f s' :
  (forall x, static (f x) = static x /\ (t_state (f x) = TASK_ZOMBIE -> t_state x = TASK_ZOMBIE)) ->
  upd_thread s t f = Some s' -> only_thread s t s'.
Proof.
  intros Hf. unfold upd_thread. destruct (threads s !! t) as [x|] eqn:Ex; [|done]. cbn [mbind option_bind].
  intros [= <-]. split; [split; [done..| |]|split; [done|]].
  - intros u. cbn [threads with_threads]. destruct (decide (u = t)) as [->|Hu].
    + rewrite lookup_insert_eq, Ex. simpl. by rewrite (proj1 (Hf x)).
    + by rewrite lookup_insert_ne.
  - intros u y. cbn [threads with_threads]. destruct (decide (u = t)) as [->|Hu].
    + rewrite lookup_insert_eq. intros [= <-] Hz. exists x. split; [done|by apply Hf].
    + rewrite lookup_insert_ne by done. eauto.
  - intros u Hu. cbn [threads with_threads]. by rewrite lookup_insert_ne.
Qed.

Lemma enqueue_only s t s' : enqueue_thread_locked s t = Some s' -> only_thread s t s'.
Proof.
  unfold enqueue_thread_locked. destruct (runqueues s) as [q|]; [|done]. cbn [mbind option_bind].
  destruct (threads s !! t) as [x|]; [|done]. cbn [mbind option_bind].
  destruct (on_rq q t); [intros [= <-]; apply only_thread_refl|].
  destruct (zupd _ _ _); [|done]. cbn [mbind option_bind]. destruct (bitmap_set _ _); [|done].
  cbn [mbind option_bind]. intros E. apply upd_thread_only in E as (F & ? & ?); [|done]. split; [|done]. destruct F. by split.
Qed.

Lemma sched_add_only s t s' : sched_add s t = Some s' -> only_thread s t s'.
Proof.
  unfold sched_add. destruct (upd_thread s t _) as [s1|] eqn:E1; [|done]. cbn [mbind option_bind]. intros E.
  apply upd_thread_only in E1; [|done]. eapply only_thread_trans; [exact E1|by apply enqueue_only].
Qed.

Lemma sched_wakeup_only s t s' : sched_wakeup s t = Some s' -> only_thread s t s'.
Proof.
  unfold sched_wakeup. destruct (threads s !! t) as [x|]; [|done]. cbn [mbind option_bind].
  case_bool_decide; [intros [= <-]; apply only_thread_refl|].
  destruct (upd_thread s t _) as [s1|] eqn:E1; [|done]. cbn [mbind option_bind].
  apply upd_thread_only in E1; [|done]. destruct (_ =? _); [by intros [= <-]|]. intros E.
  eapply only_thread_trans; [exact E1|by apply sched_add_only].
Qed.

Lemma wakeup_loop_frame ch l : forall s s', wakeup_loop s l ch = Some s' ->
  sframe s s' /\ current_thread s' = current_thread s /\ forall u, u ∉ l -> threads s' !! u = threads s !! u.
Proof.
  induction l as [|t l IH]; intros s s'; cbn [wakeup_loop].
  { intros [= <-]. split; [reflexivity|done]. }
  destruct (threads s !! t) as [x|]; [|done]. cbn [mbind option_bind].
  destruct (if wakes x ch then sched_wakeup s t else Some s) as [s1|] eqn:E1; [|done]. cbn [mbind option_bind].
  assert (only_thread s t s1) as (A1 & A2 & A3).
  { destruct (wakes x ch); [by apply sched_wakeup_only|]. injection E1 as <-. apply only_thread_refl. }
  intros (B1 & B2 & B3)%IH. split; [by etransitivity|]. split; [congruence|]. intros u [Hu Hl]%not_elem_of_cons.
  by rewrite B3, A3.
Qed.

Lemma switch_to_frame s prev next s' : switch_to s prev next = Some s' -> sframe s s'.
Proof.
  unfold switch_to. destruct (runqueues s) as [q|]; [|done]. cbn [mbind option_bind].
  set (s1 := with_current _ _). assert (sframe s s1) as H1 by same_threads. revert H1. generalize s1. clear s1. intros s1 H1.
  destruct (threads s1 !! prev) as [p|]; [|done]. cbn [mbind option_bind].
  destruct (threads s1 !! next) as [n|]; [|done]. cbn [mbind option_bind].
  match goal with |- context [mbind _ (if ?b then ?x else ?y)] => destruct (if b then x else y) as [s2|] eqn:E2 end; [|done].
  assert (sframe s1 s2) as H2.
  { revert E2. destruct (negb _); [|intros [= <-]; same_threads]. destruct (negb _); [|intros [= <-]; same_threads].
    destruct (procs s1 !! _) as [mm|]; [|done]. cbn [mbind option_bind]. intros [= <-]. destruct (negb _); same_threads. }
  cbn [mbind option_bind]. match goal with |- context [mbind _ (runqueues ?e)] => set (s3 := e) end.
  assert (sframe s2 s3) as H3 by (unfold s3; destruct (negb (t_kernel_stack n =? 0)); same_threads). destruct (runqueues s3) as [q3|]; [|done].
  cbn [mbind option_bind]. destruct (upd_thread _ next _) as [s4|] eqn:E4; [|done]. cbn [mbind option_bind].
  destruct (upd_thread s4 next _) as [s5|] eqn:E5; [|done]. cbn [mbind option_bind]. intros [= <-].
  apply upd_thread_only in E4 as [H4 _]; [|done]. apply upd_thread_only in E5 as [H5 _]; [|done].
  assert (sframe s3 s4) as H34 by (destruct H4; by split).
  transitivity s5; [|same_threads]. by do 4 (etransitivity; [eassumption|]).
Qed.

Lemma schedule_body_frame s r : schedule_body s = Some r -> sframe s (match r with inl s' => s' | inr s' => s' end).
Proof.
  unfold schedule_body. destruct (runqueues s) as [q|]; [|done]. cbn [mbind option_bind].
  match goal with |- context [let '(_, _) := ?e in _] => destruct e as [prev s1] eqn:E1 end.
  assert (sframe s s1) as H1 by (destruct (_ =? 0); injection E1 as <- <-; same_threads).
  match goal with |- context [mbind _ (if ?b then ?x else ?y)] => destruct (if b then x else y) as [rn|] end; [|done].
  cbn [mbind option_bind].
  match goal with |- context [mbind _ (if ?b then ?x else ?y)] => destruct (if b then x else y) as [s2|] eqn:E2 end; [|done].
  cbn [mbind option_bind]. assert (sframe s1 s2) as H2.
  { destruct rn; [|injection E2 as <-; same_threads]. apply enqueue_only in E2 as [[] _]. by split. }
  destruct (runqueues s2) as [q2|]; [|done]. cbn [mbind option_bind].
  destruct (pick_next_thread q2) as [[next q3]|]; [|done]. cbn [mbind option_bind].
  destruct (negb _).
  - destruct (switch_to _ prev next) as [s3|] eqn:E3; [|done]. cbn [mbind option_bind]. intros [= <-].
    apply switch_to_frame in E3. do 2 (etransitivity; [eassumption|]). destruct E3. by split.
  - intros [= <-]. etransitivity; [eassumption|]. destruct H2. by split.
Qed.

Lemma preempt_enable_dec_frame s s' b : preempt_enable_dec s = Some (s', b) -> sframe s s'.
Proof.
  unfold preempt_enable_dec. destruct (0 <? preempt s).
  all: destruct (_ || _); [intros [= <- _]; same_threads|]; destruct (threads _ !! _); [|done]; cbn [mbind option_bind];
    intros [= <- _]; same_threads.
Qed.

Lemma schedule_frame fuel : forall s s', schedule fuel s = Some (Some s') -> sframe s s'.
Proof.
  induction fuel as [|n IH]; intros s s'; cbn [schedule]; [done|].
  destruct (schedule_body s) as [r|] eqn:E; [|done]. cbn [mbind option_bind]. apply schedule_body_frame in E.
  destruct r as [s1|s1]; [by intros [= <-]|].
  destruct (preempt_enable_dec s1) as [[s2 again]|] eqn:E2; [|done]. cbn [mbind option_bind].
  apply preempt_enable_dec_frame in E2. assert (sframe s s2) as H by by etransitivity.
  destruct again; [|by intros [= <-]]. intros E'. etransitivity; [exact H|by apply IH].
Qed.

(** A thread that is not to run on never gets it wrong: [schedule] switches away for good. *)
Lemma schedule_blocked_ok s q x :
  sched_inv s q -> threads s !! current_thread s = Some x -> t_state x ≠ TASK_RUNNING ->
  exists s' q', schedule 1 s = Some (Some s') /\ sched_inv s' q' /\ idle q' = idle q /\
    current_thread s' ≠ current_thread s /\ threads_kept (threads s) (threads s') /\
    (exists z, threads s !! current_thread s' = Some z /\ t_state z = TASK_RUNNING).
Proof.
  intros HI Hx Hst. assert (current_thread s ≠ idle q) as Hid.
  { intros E. destruct (si_idle _ _ HI) as (_ & _ & xi & Hxi & Si & _). congruence. }
  destruct (schedule_body_ok s q HI) as (next & s' & q' & E & [HI' HC HId _ HCh HK HD _ _]).
  assert (forall p, ready s q p = queue_at q p) as Hr.
  { intros p. unfold ready, competes. rewrite Hx. by rewrite bool_decide_false. }
  assert (next ≠ current_thread s) as Hne.
  { intros ->. destruct HCh as [(p & l & (B1 & B2 & _) & _)|(_ & ? & _)]; [|done].
    rewrite Hr in B2. destruct (si_current _ _ HI) as (_ & Hq & _). apply Hq.
    apply queued_in_queue_at. exists p. rewrite B2. apply elem_of_cons. by left. }
  rewrite decide_False in E by done. exists s', q'. cbn [schedule]. rewrite E. cbn [mbind option_bind].
  split; [done|]. split; [done|]. split; [done|]. split; [congruence|]. split; [done|]. rewrite HC.
  destruct HCh as [(p & l & (B1 & B2 & _) & _)|(_ & -> & _)].
  - rewrite Hr in B2. unfold queue_at in B2. destruct (zget (queue q) p) as [l'|] eqn:El; [|done]. cbn in B2.
    destruct (rw_queued _ _ (si_wf _ _ HI) p l' next El) as (z & Hz & _ & Sz & _); [rewrite B2; by left|]. by exists z.
  - destruct (si_idle _ _ HI) as (_ & _ & z & Hz & Sz & _). by exists z.
Qed.

(** A thread ends: it leaves the list of all threads, becomes a zombie, wakes those that sleep on
    [ch] (unless it is 0) and gives up the processor for good. *)
Definition end_thread (s : sched) (t : Z) (y : thread) : sched :=
  with_threads (mk_sched (threads s) (procs s) (runqueues s) (current_thread s) (preempt s) (global_ticks s)
    (boot_time_ns s) (waitqs s) (without t (all_threads s)) (hw s)) (<[t := set_state TASK_ZOMBIE y]> (threads s)).

Lemma end_thread_ok s q y ch :
  let t := current_thread s in
  sched_inv s q -> threads s !! t = Some y -> t_process y ≠ 0 ->
  (forall u, u ∈ all_threads s -> is_Some (threads s !! u)) ->
  exists s1 s2 q2, (if negb (ch =? 0) then thread_wakeup (end_thread s t y) ch else Some (end_thread s t y)) = Some s1 /\
    schedule 1 s1 = Some (Some s2) /\ sched_inv s2 q2 /\ sframe (end_thread s t y) s2 /\ current_thread s2 ≠ t /\
    (exists z, threads s2 !! current_thread s2 = Some z /\ t_state z = TASK_RUNNING) /\
    (forall u x, u ∉ without t (all_threads s) -> threads (end_thread s t y) !! u = Some x ->
       exists x', threads s2 !! u = Some x' /\ t_state x' = t_state x) /\
    (forall u x, u ≠ t -> threads s !! u = Some x ->
       t_state x = TASK_RUNNING \/ (ch ≠ 0 /\ u ∈ all_threads s /\ wakes x ch = true) ->
       exists x', threads s2 !! u = Some x' /\ t_state x' = TASK_RUNNING).
Proof.
  intros t HI Hy Hp Hall. set (s0 := end_thread s t y).
  assert (t ≠ idle q) as Hid.
  { intros E. destruct (si_idle _ _ HI) as (_ & _ & xi & Hxi & _ & Ep). congruence. }
  assert (sched_inv s0 q) as HI0.
  { assert (sched_inv (with_threads s (<[t := set_state TASK_ZOMBIE y]> (threads s))) q) as HJ.
    { eapply sched_inv_upd; [done|exact Hy|exact (si_prio _ _ _ _ HI Hy)|done|intros Hq; by destruct (si_current _ _ HI) as (_ & ? & _)|done]. }
    destruct HJ. by split. }
  assert (forall u, u ∈ all_threads s0 -> is_Some (threads s0 !! u)) as Hall0.
  { intros u [Hu _]%elem_of_without. apply lookup_insert_is_Some'. right. by apply Hall. }
  assert (threads s0 !! t = Some (set_state TASK_ZOMBIE y)) as Ht0 by apply lookup_insert_eq.
  assert (exists s1 q1, (if negb (ch =? 0) then thread_wakeup s0 ch else Some s0) = Some s1 /\ sched_inv s1 q1 /\
    sframe s0 s1 /\ current_thread s1 = t /\ (forall u, u ∉ without t (all_threads s) -> threads s1 !! u = threads s0 !! u) /\
    (forall u x, u ≠ t -> threads s !! u = Some x ->
       t_state x = TASK_RUNNING \/ (ch ≠ 0 /\ u ∈ all_threads s /\ wakes x ch = true) ->
       exists x', threads s1 !! u = Some x' /\ t_state x' = TASK_RUNNING)) as (s1 & q1 & E1 & HI1 & F1 & C1 & U1 & W1).
  { destruct (Z.eqb_spec ch 0) as [->|Hch]; cbn [negb]; [exists s0, q; split; [done|]; split; [done|]; split; [reflexivity|]; split; [done|]; split; [done|]|].
    { intros u x Hu Hx [Sx|[? _]]; [|done]. exists x. unfold s0, end_thread. cbn [threads with_threads]. by rewrite lookup_insert_ne. }
    destruct (thread_wakeup_spec s0 q ch HI0 Hall0) as (s1 & q1 & E & HI1 & HW). exists s1, q1.
    pose proof (wakeup_loop_frame ch _ _ _ E) as (F & C & U). split; [done|]. split; [done|]. split; [done|]. split; [done|].
    split; [exact U|]. intros u x Hu Hx Hw. destruct (HW u x) as (x' & Hx' & _ & _ & S').
    { unfold s0, end_thread. cbn [threads with_threads]. by rewrite lookup_insert_ne. }
    exists x'. split; [done|]. rewrite S'. destruct Hw as [Sx|(_ & Hin & Hw)]; [by destruct (_ && _)|].
    rewrite Hw, bool_decide_true; [done|]. by apply elem_of_without. }
  exists s1. assert (threads s1 !! current_thread s1 = Some (set_state TASK_ZOMBIE y)) as Hc1.
  { rewrite C1, U1; [done|]. rewrite elem_of_without. tauto. }
  destruct (schedule_blocked_ok s1 q1 _ HI1 Hc1) as (s2 & q2 & E2 & HI2 & _ & C2 & K2 & z & Hz & Sz); [done|].
  exists s2, q2. split; [done|]. split; [done|]. split; [done|]. pose proof (schedule_frame 1 s1 s2 E2) as F2.
  split; [by etransitivity|]. split; [congruence|]. split; [|split].
  - destruct (K2 _ _ Hz) as (z' & Hz' & _ & S' & _). exists z'. split; [done|congruence].
  - intros u x Hu Hx. rewrite <- U1 in Hx by done. destruct (K2 _ _ Hx) as (x' & Hx' & _ & S' & _). by exists x'.
  - intros u x Hu Hx Hw. destruct (W1 u x Hu Hx Hw) as (x1 & Hx1 & S1).
    destruct (K2 _ _ Hx1) as (x' & Hx' & _ & S' & _). exists x'. split; [done|congruence].
Qed.

(** ** The IPC system: destroying the endpoints of a process *)

(** No queued wait is thread [t]'s. *)
Definition unqueued (i : ipc) (t : Z) : Prop :=
  forall a e w x, eps i !! a = Some e -> w ∈ waiters e -> waits i !! w = Some x -> w_partner x ≠ t.

(** The owner's window and endpoint lists, as far as they are kept. *)
Definition lists_shrink (m m' : gmap Z iproc) : Prop :=
  forall p : Z, match m !! p, m' !! p with
    | Some x, Some x' => ipc_window_phys x' = ipc_window_phys x /\ (forall a, a ∈ owned_endpoints x' -> a ∈ owned_endpoints x) /\
        (NoDup (owned_endpoints x) -> NoDup (owned_endpoints x'))
    | None, None => True
    | _, _ => False
    end.

#[export] Instance lists_shrink_preorder : PreOrder lists_shrink.
Proof.
  split.
  - intros m p. by destruct (m !! p).
  - intros m1 m2 m3 A B p. specialize (A p). specialize (B p). destruct (m1 !! p), (m2 !! p), (m3 !! p); try done.
    destruct A as (A1 & A2 & A3), B as (B1 & B2 & B3). split; [congruence|]. split; auto.
Qed.

Lemma lists_shrink_without m p x a :
  m !! p = Some x -> lists_shrink m (<[p := mk_ip (without a (owned_endpoints x)) (ipc_window_phys x)]> m).
Proof.
  intros Hx q. destruct (decide (q = p)) as [->|Hq].
  - rewrite lookup_insert_eq, Hx. cbn. split; [done|]. split; [intros b; by rewrite elem_of_without; intros []|].
    intros ?. by apply NoDup_filter.
  - rewrite lookup_insert_ne by done. by destruct (m !! q).
Qed.

Record iframe (i i' : ipc) : Prop := {
  if_sched : sframe (sch i) (sch i') /\ current_thread (sch i') = current_thread (sch i);
  if_same : its i' = its i /\ msgs i' = msgs i /\ frames i' = frames i;
  if_lists : lists_shrink (iprocs i) (iprocs i');
  if_unqueued : forall t, unqueued i t -> unqueued i' t /\ threads (sch i') !! t = threads (sch i) !! t
}.

#[export] Instance iframe_preorder : PreOrder iframe.
Proof.
  split.
  - intros i. by split; [split|..].
  - intros i1 i2 i3 [[A1 A1'] (A2 & A3 & A4) A5 A6] [[B1 B1'] (B2 & B3 & B4) B5 B6].
    split; [split; [by etransitivity|congruence]|split_and!; congruence|by etransitivity|].
    intros t Ht. destruct (A6 t Ht) as [H2 E2]. destruct (B6 t H2) as [H3 E3]. split; [done|congruence].
Qed.

(** A change of endpoints that queues nobody. *)
Lemma iframe_eps i es : (forall a e', es !! a = Some e' -> exists e, eps i !! a = Some e /\ waiters e' ⊆ waiters e) ->
  iframe i (with_eps i es).
Proof.
  intros H. split; [by split|done|by cbn|]. intros t Ht. split; [|done]. intros a e' w x He Hw Hx.
  destruct (H a e' He) as (e & He' & Hsub). eapply (Ht a e w x); [done|by apply Hsub|done].
Qed.

Lemma iframe_upd_ep i a f i' : (forall e, waiters (f e) ⊆ waiters e) -> upd_ep i a f = Some i' -> iframe i i'.
Proof.
  intros Hf. unfold upd_ep. destruct (eps i !! a) as [e|] eqn:Ee; [|done]. cbn [mbind option_bind]. intros [= <-].
  apply iframe_eps. intros b e'. destruct (decide (b = a)) as [->|Hb].
  - rewrite lookup_insert_eq. intros [= <-]. by exists e.
  - rewrite lookup_insert_ne by done. intros Hb'. by exists e'.
Qed.

Lemma iframe_put i a i' : endpoint_put i a = Some i' -> iframe i i'.
Proof.
  unfold endpoint_put. destruct (a =? 0); [by intros [= <-]|]. destruct (eps i !! a) as [e|] eqn:Ee; [|done].
  cbn [mbind option_bind]. set (i1 := with_eps i _). assert (iframe i i1) as H1.
  { apply (iframe_upd_ep i a (ep_set_refs (refcount e - 1))); [done|]. unfold upd_ep. by rewrite Ee. }
  destruct (_ =? 0); intros [= <-]; [|done]. etransitivity; [exact H1|]. apply iframe_eps. intros b e'.
  rewrite lookup_delete_Some. intros [_ Hb]. by exists e'.
Qed.

Lemma iframe_iprocs i m : lists_shrink (iprocs i) m -> iframe i (with_iprocs i m).
Proof. intros H. split; [by split|done|done|]. intros t Ht. by split. Qed.

Lemma iframe_unlink i a i' : unlink_from_owner i a = Some i' -> iframe i i'.
Proof.
  unfold unlink_from_owner. destruct (eps i !! a) as [e|]; [|done]. cbn [mbind option_bind].
  destruct (_ =? 0); [by intros [= <-]|]. destruct (iprocs i !! _) as [p|] eqn:Ep; [|done]. cbn [mbind option_bind].
  intros [= <-]. by apply iframe_iprocs, lists_shrink_without.
Qed.

(** What waking the records [l] with an error leaves alone. *)
Lemma wake_dead_frame l : forall i i', wake_dead i l = Some i' ->
  i' = with_sch (with_waits i (waits i')) (sch i') /\ sframe (sch i) (sch i') /\
  current_thread (sch i') = current_thread (sch i) /\
  (forall w, w_partner <$> waits i' !! w = w_partner <$> waits i !! w) /\
  (forall t, (forall w x, w ∈ l -> waits i !! w = Some x -> w_partner x ≠ t) ->
     threads (sch i') !! t = threads (sch i) !! t).
Proof.
  induction l as [|w l IH]; intros i i'; cbn [wake_dead].
  { intros [= <-]. split; [by destruct i|]. by split. }
  destruct (waits i !! w) as [x|] eqn:Ew; [|done]. cbn [mbind option_bind]. unfold upd_wait. rewrite Ew.
  cbn [mbind option_bind]. set (i1 := with_waits i _).
  destruct (if negb (w_partner x =? 0) then wakeup i1 (w_partner x) else Some i1) as [i2|] eqn:E2; [|done].
  cbn [mbind option_bind].
  assert (i2 = with_sch i1 (sch i2) /\ only_thread (sch i) (w_partner x) (sch i2)) as [Ei2 (A1 & A2 & A3)].
  { revert E2. destruct (negb _); [|intros [= <-]; by split]. unfold wakeup.
    destruct (sched_wakeup (sch i1) (w_partner x)) as [s|] eqn:E; [|done]. cbn [mbind option_bind]. intros [= <-].
    split; [done|]. by apply sched_wakeup_only in E. }
  intros (B1 & B2 & B3 & B4 & B5)%IH.
  assert (forall v, w_partner <$> waits i2 !! v = w_partner <$> waits i !! v) as H2.
  { intros v. rewrite Ei2. cbn [waits with_sch]. unfold i1. cbn [waits with_waits]. destruct (decide (v = w)) as [->|Hv].
    - by rewrite lookup_insert_eq, Ew.
    - by rewrite lookup_insert_ne. }
  split; [rewrite B1, Ei2; done|]. split; [by etransitivity|]. split; [congruence|]. split; [intros v; by rewrite B4, H2|].
  intros t Ht. rewrite B5.
  - apply A3. intros ->. apply (Ht w x); [by left|done|done].
  - intros v y Hv Hy Et. specialize (H2 v). rewrite Hy in H2. destruct (waits i !! v) as [z|] eqn:Ez; [|done].
    injection H2 as H2. apply (Ht v z); [by right|done|congruence].
Qed.

Lemma iframe_wake_dead i l i' :
  (forall w, w ∈ l -> exists a e, eps i !! a = Some e /\ w ∈ waiters e) -> wake_dead i l = Some i' ->
  iframe i i' /\ eps i' = eps i.
Proof.
  intros Hl (E & S & C & P & T)%wake_dead_frame. assert (eps i' = eps i) as Ee by (by rewrite E).
  split; [|done]. split; [done|by rewrite E|by rewrite E|]. intros t Ht. split.
  - intros a e w x' He Hw Hx. rewrite Ee in He. specialize (P w). rewrite Hx in P.
    destruct (waits i !! w) as [x|] eqn:Ew; [|done]. injection P as P. rewrite P. by eapply Ht.
  - apply T. intros w x Hw Hx. destruct (Hl w Hw) as (a & e & He & Hwe). by eapply Ht.
Qed.

Lemma iframe_destroy i a i' : endpoint_destroy i a = Some i' -> iframe i i'.
Proof.
  unfold endpoint_destroy. destruct (a =? 0); [by intros [= <-]|]. destruct (eps i !! a) as [e|] eqn:Ee; [|done].
  cbn [mbind option_bind]. destruct (ztrue _); [by intros [= <-]|].
  set (fl := Z.lor _ _). set (listed := ztrue (Z.land fl EP_FLAG_LISTED)). set (fl' := if listed then _ else fl).
  set (i1 := with_eps i _). assert (iframe i i1) as H1.
  { apply (iframe_upd_ep i a (ep_set_flags fl')); [done|]. unfold upd_ep. by rewrite Ee. }
  assert (eps i1 !! a = Some (ep_set_flags fl' e)) as Ea by apply lookup_insert_eq.
  destruct (wake_dead i1 (send_queue e)) as [i2|] eqn:E2; [|done]. cbn [mbind option_bind].
  apply iframe_wake_dead in E2 as [H2 Ee2].
  2: { intros w Hw. exists a, (ep_set_flags fl' e). split; [done|]. by apply elem_of_app; left. }
  destruct (wake_dead i2 (recv_queue e)) as [i3|] eqn:E3; [|done]. cbn [mbind option_bind].
  apply iframe_wake_dead in E3 as [H3 Ee3].
  2: { intros w Hw. exists a, (ep_set_flags fl' e). rewrite Ee2. split; [done|]. by apply elem_of_app; right. }
  destruct (upd_ep i3 a _) as [i4|] eqn:E4; [|done]. cbn [mbind option_bind].
  apply iframe_upd_ep in E4; [|intros y w; cbn; by rewrite elem_of_nil].
  assert (iframe i i4) as H4 by by do 3 (etransitivity; [eassumption|]).
  match goal with |- context [mbind _ (if ?b then ?x else ?y)] => destruct (if b then x else y) as [i5|] eqn:E5 end; [|done].
  cbn [mbind option_bind]. destruct (eps i5 !! a); [|done]. cbn [mbind option_bind]. intros [= <-].
  destruct listed; [|by injection E5 as <-].
  destruct (unlink_from_owner _ a) as [i6|] eqn:E6; [|done]. cbn [mbind option_bind] in E5.
  apply iframe_unlink in E6. apply iframe_put in E5. etransitivity; [exact H4|]. etransitivity; [|exact E5].
  destruct E6. by split.
Qed.

Lemma iframe_destroy_owned n : forall i p i', destroy_owned_loop n i p = Some i' -> iframe i i'.
Proof.
  induction n as [|n IH]; intros i p i'; cbn [destroy_owned_loop]; (destruct (iprocs i !! p) as [x|] eqn:Ex; [|done]);
    cbn [mbind option_bind]; (destruct (owned_endpoints x) as [|a l] eqn:El; [by intros [= <-]|]); [done|].
  destruct (upd_ep i a _) as [i1|] eqn:E1; [|done]. cbn [mbind option_bind].
  assert (iprocs i1 = iprocs i) as Ep.
  { revert E1. unfold upd_ep. destruct (eps i !! a); [|done]. cbn [mbind option_bind]. by intros [= <-]. }
  apply iframe_upd_ep in E1; [|done]. set (i2 := with_iprocs i1 _). assert (iframe i1 i2) as H2.
  { apply iframe_iprocs. rewrite Ep, <- El. by apply lists_shrink_without. }
  destruct (endpoint_destroy i2 a) as [i3|] eqn:E3; [|done]. cbn [mbind option_bind]. apply iframe_destroy in E3.
  destruct (endpoint_put i3 a) as [i4|] eqn:E4; [|done]. cbn [mbind option_bind]. apply iframe_put in E4.
  intros E5%IH. by do 4 (etransitivity; [eassumption|]).
Qed.

Lemma destroy_owned_frame i p i' : ipc_destroy_owned_by_process i p = Some i' -> iframe i i'.
Proof.
  unfold ipc_destroy_owned_by_process. destruct (p =? 0); [by intros [= <-]|].
  destruct (iprocs i !! p); [|done]. cbn [mbind option_bind]. apply iframe_destroy_owned.
Qed.

(** ** The IPC system: the end of a thread *)

Lemma upd_it_frame i t f i' : upd_it i t f = Some i' -> i' = with_its i (its i').
Proof. unfold upd_it. destruct (its i !! t); [|done]. cbn [mbind option_bind]. by intros [= <-]. Qed.

(** Only the caller that waits for the thread's reply is woken. *)
Lemma cleanup_frame i t x i' :
  its i !! t = Some x -> ipc_thread_cleanup i t = Some i' ->
  i' = with_sch (with_its i (its i')) (sch i') /\ sframe (sch i) (sch i') /\
  current_thread (sch i') = current_thread (sch i) /\
  forall u, u ≠ ipc_caller x -> threads (sch i') !! u = threads (sch i) !! u.
Proof.
  intros Hx. unfold ipc_thread_cleanup. destruct (t =? 0); [intros [= <-]; by split; [destruct i|split]|].
  rewrite Hx. cbn [mbind option_bind].
  match goal with |- context [mbind _ (if ?b then ?x else ?y)] => destruct (if b then x else y) as [i1|] eqn:E1 end; [|done].
  assert (i1 = with_sch (with_its i (its i1)) (sch i1) /\ only_thread (sch i) (ipc_caller x) (sch i1)) as [A1 (A2 & A3 & A4)].
  { revert E1. destruct (negb _).
    2: { intros [= <-]. split; [by destruct i|apply only_thread_refl]. }
    destruct (upd_it i t _) as [j1|] eqn:F1; [|done]. cbn [mbind option_bind]. apply upd_it_frame in F1.
    destruct (upd_it j1 _ _) as [j2|] eqn:F2; [|done]. cbn [mbind option_bind]. apply upd_it_frame in F2.
    assert (sch j2 = sch i) as Es by (rewrite F2, F1; done). unfold wakeup. rewrite Es.
    destruct (sched_wakeup (sch i) _) as [s|] eqn:F3; [|done]. cbn [mbind option_bind]. intros [= <-].
    split; [rewrite F2, F1; done|]. by apply sched_wakeup_only in F3. }
  cbn [mbind option_bind]. destruct (its i1 !! t) as [x1|]; [|done]. cbn [mbind option_bind].
  match goal with |- context [mbind _ (if ?b then ?x else ?y)] => destruct (if b then x else y) as [i2|] eqn:E2 end; [|done].
  assert (i2 = with_its i1 (its i2)) as B.
  { clear E1. revert E2. destruct (negb _); [|intros [= <-]; by destruct i1].
    destruct (upd_it i1 t _) as [j1|] eqn:F1; [|done]. cbn [mbind option_bind]. apply upd_it_frame in F1.
    intros F2%upd_it_frame. rewrite F2, F1. done. }
  cbn [mbind option_bind]. intros E3%upd_it_frame. assert (sch i' = sch i1) as Es by (rewrite E3, B; done).
  split; [rewrite E3, B, A1; done|]. rewrite Es. done.
Qed.
