(* ===== verification/ProcessInv.v ===== *)
(** * The invariant of the process subsystem (kernel/proc/process.c)

    What the process code keeps true of the whole state: the process table, the scheduler, the IPC
    system, the heap and the address spaces agree on which processes and threads there are and
    what each of them owns. *)
From S2P Require Import Prelude Defs Sched Ipc Endpoint Pid Process ProcessTable ProcessFrame.

Section inv.
Context {H A : Type} `{KH : KernelHeap H} {KHL : KernelHeapLaws H} `{AS : AddressSpaces A} {ASL : AddressSpacesLaws A}.
Implicit Types (st : kernel H A) (q : run_queue).

(** Nobody refers to thread [t] any more: it can be freed. *)
Record forgotten (i : ipc) (t : Z) : Prop := {
  fg_current : t ≠ current_thread (sch i);
  fg_all : t ∉ all_threads (sch i);
  fg_unqueued : unqueued i t;
  fg_links : forall u y, its i !! u = Some y -> ipc_caller y ≠ t /\ ipc_reply_server y ≠ t
}.

(** The words of the kernel stack at [a]. *)
Definition stack_words (m : gmap Z Z) (a : Z) : Prop :=
  forall k, 0 <= k < KERNEL_STACK_SIZE / 8 -> is_Some (m !! (a + 8 * k)).

(** The memory of a thread: its structure and its stack. *)
Record thread_mem st (t : Z) (y : thread) : Prop := {
  tm_live : kh_live (k_heap st) t SIZEOF_THREAD;
  tm_x : is_Some (k_xts st !! t);
  tm_stack : t_kernel_stack y ≠ 0 /\ kh_live (k_heap st) (t_kernel_stack y) KERNEL_STACK_SIZE;
  tm_size : t_kernel_stack_size y = KERNEL_STACK_SIZE;
  tm_words : stack_words (k_stacks st) (t_kernel_stack y)
}.

(** A process has no thread yet, or its main thread, which runs or is a zombie. *)
Definition no_thread (x : process) : Prop := p_main_thread x = 0 /\ p_threads x = [] /\ p_nr_threads x = 0.

Definition has_thread st (p : Z) (x : process) (y : thread) : Prop :=
  p_main_thread x ≠ 0 /\ threads (k_sch st) !! p_main_thread x = Some y /\ t_process y = p /\
  thread_mem st (p_main_thread x) y.

Definition live_thread st (p : Z) (x : process) : Prop :=
  exists y, has_thread st p x y /\ p_threads x = [p_main_thread x] /\ p_nr_threads x = 1 /\
    p_main_thread x ∈ all_threads (k_sch st) /\ t_state y ≠ TASK_ZOMBIE.

Definition zombie st (p : Z) (x : process) : Prop :=
  exists y, has_thread st p x y /\ p_threads x = [] /\ p_nr_threads x = 0 /\ t_state y = TASK_ZOMBIE /\
    forgotten (k_ipc st) (p_main_thread x).

Definition thread_ok st (p : Z) (x : process) : Prop := no_thread x \/ live_thread st p x \/ zombie st p x.

(** What a process owns besides: its structure, a name, endpoints, files. *)
Record proc_mem st (p : Z) (x : process) : Prop := {
  pm_live : kh_live (k_heap st) p SIZEOF_PROCESS;
  pm_name : zlen (p_name x) = NAME_SIZE /\ 0 ∈ p_name x;
  pm_files : p_files x ≠ 0 -> kh_live (k_heap st) (p_files x) SIZEOF_FILES /\ is_Some (k_files st !! p_files x)
}.

Record kernel_inv st q : Prop := {
  ki_table : table_inv (k_procs st) (process_list st) (k_pids st);
  ki_ipc : ipc_inv (k_ipc st) q;
  ki_ep : ep_inv (k_ipc st);
  ki_heap : kh_ok (k_heap st);
  ki_as : as_ok (k_as st);
  ki_dom : forall p, (is_Some (iprocs (k_ipc st) !! p) <-> is_Some (k_procs st !! p)) /\
    (is_Some (procs (k_sch st) !! p) <-> is_Some (k_procs st !! p));
  ki_proc : forall p x, k_procs st !! p = Some x -> proc_mem st p x /\ thread_ok st p x;
  ki_files : forall p r x y, k_procs st !! p = Some x -> k_procs st !! r = Some y ->
    p_files x ≠ 0 -> p_files x = p_files y -> p = r;
  ki_mm : forall p m, procs (k_sch st) !! p = Some m -> m ≠ 0 ->
    as_live (k_as st) m /\ forall r, procs (k_sch st) !! r = Some m -> p = r;
  ki_owns : forall p x, iprocs (k_ipc st) !! p = Some x -> owns (k_ipc st) p x;
  ki_owned : forall a e, eps (k_ipc st) !! a = Some e -> alive e -> ep_owner e ≠ 0 ->
    exists x, iprocs (k_ipc st) !! ep_owner e = Some x /\ a ∈ owned_endpoints x;
  ki_owner : forall t y, threads (k_sch st) !! t = Some y -> t_process y ≠ 0 ->
    exists x, k_procs st !! t_process y = Some x /\ p_main_thread x = t;
  ki_stack : forall t u y z, threads (k_sch st) !! t = Some y -> threads (k_sch st) !! u = Some z ->
    t_process y ≠ 0 -> t_process z ≠ 0 -> t_kernel_stack y = t_kernel_stack z -> t = u;
  ki_all : forall t, t ∈ all_threads (k_sch st) -> is_Some (threads (k_sch st) !! t);
  ki_tlive : forall t, is_Some (threads (k_sch st) !! t) -> kh_live (k_heap st) t SIZEOF_THREAD
}.

(** ** Steps that leave threads alone *)

Definition body (x : process) : list Z * Z * Z * Z * list Z :=
  (p_threads x, p_nr_threads x, p_main_thread x, p_files x, p_name x).

(** Thread [t] stays what it is: it is not freed, not made a zombie and not woken as one. *)
Record thread_kept st st' (t : Z) : Prop := {
  tk_static : static <$> threads (k_sch st') !! t = static <$> threads (k_sch st) !! t;
  tk_zombie : forall y', threads (k_sch st') !! t = Some y' -> t_state y' = TASK_ZOMBIE ->
    exists y, threads (k_sch st) !! t = Some y /\ t_state y = TASK_ZOMBIE;
  tk_all : t ∈ all_threads (k_sch st) -> t ∈ all_threads (k_sch st');
  tk_mem : forall y, threads (k_sch st) !! t = Some y -> thread_mem st t y -> thread_mem st' t y;
  tk_forgotten : forall y, threads (k_sch st) !! t = Some y -> t_state y = TASK_ZOMBIE -> forgotten (k_ipc st) t ->
    forgotten (k_ipc st') t /\ exists y', threads (k_sch st') !! t = Some y' /\ t_state y' = TASK_ZOMBIE
}.

Lemma has_thread_kept st st' p x x' y :
  has_thread st p x y -> body x' = body x -> thread_kept st st' (p_main_thread x) ->
  exists y', has_thread st' p x' y' /\ static y' = static y.
Proof using.
  intros (H0 & Hy & Ep & M) [= B1 B2 B3 B4 B5] [K1 _ _ K4 _]. rewrite Hy in K1.
  destruct (threads (k_sch st') !! p_main_thread x) as [y'|] eqn:Ey'; [|done]. injection K1 as E1 E2 E3 E4.
  exists y'. split; [|unfold static; congruence]. unfold has_thread. rewrite B3. split; [done|]. split; [done|].
  split; [congruence|]. destruct (K4 _ Hy M) as [M1 M2 [M3 M3'] M4 M5]. by split; rewrite ?E3, ?E4.
Qed.

Lemma thread_ok_kept st st' p x x' :
  thread_ok st p x -> body x' = body x -> (p_main_thread x ≠ 0 -> thread_kept st st' (p_main_thread x)) ->
  thread_ok st' p x'.
Proof using.
  intros [(N1 & N2 & N3)|[(y & HT & L1 & L2 & L3 & L4)|(y & HT & Z1 & Z2 & Z3 & Z4)]] B K; pose proof B as [= B1 B2 B3 _ _].
  - left. unfold no_thread. by rewrite B1, B2, B3.
  - right. left. specialize (K (proj1 HT)). destruct (has_thread_kept _ _ _ _ _ _ HT B K) as (y' & HT' & Es).
    exists y'. split; [done|]. rewrite B1, B2, B3. split; [done|]. split; [done|]. split; [by apply (tk_all _ _ _ K)|].
    intros Hz. destruct HT' as (_ & Hy' & _). rewrite B3 in Hy'. destruct (tk_zombie _ _ _ K y' Hy' Hz) as (y0 & Hy0 & Hz0).
    destruct HT as (_ & Hy & _). congruence.
  - right. right. specialize (K (proj1 HT)). destruct (has_thread_kept _ _ _ _ _ _ HT B K) as (y' & HT' & Es).
    exists y'. split; [done|]. rewrite B1, B2, B3. split; [done|]. split; [done|]. destruct HT as (_ & Hy & _).
    destruct (tk_forgotten _ _ _ K y Hy Z3 Z4) as (F & y1 & Hy1 & Hz1). split; [|done].
    destruct HT' as (_ & Hy' & _). rewrite B3 in Hy'. congruence.
Qed.

Lemma proc_mem_kept st st' p x x' :
  proc_mem st p x -> body x' = body x -> kh_live (k_heap st') p SIZEOF_PROCESS ->
  (p_files x ≠ 0 -> kh_live (k_heap st') (p_files x) SIZEOF_FILES /\ is_Some (k_files st' !! p_files x)) ->
  proc_mem st' p x'.
Proof using. intros [M1 M2 M3] [= B1 B2 B3 B4 B5] Hl Hf. split; [done|by rewrite B5|]. by rewrite B4. Qed.

Lemma static_look s s' t y : (forall t, static <$> threads s' !! t = static <$> threads s !! t) ->
  threads s' !! t = Some y -> exists x, threads s !! t = Some x /\ static y = static x.
Proof using.
  intros S Hy. specialize (S t). rewrite Hy in S. destruct (threads s !! t) as [x|]; [|done]. injection S as E1 E2 E3 E4.
  exists x. split; [done|]. unfold static. congruence.
Qed.

(** A step of the IPC system that frees no thread. *)
Lemma kernel_inv_ipc st q i q' :
  kernel_inv st q -> iframe (k_ipc st) i -> ipc_inv i q' -> ep_inv i ->
  (forall p x, iprocs i !! p = Some x -> owns i p x) ->
  (forall a e, eps i !! a = Some e -> alive e -> ep_owner e ≠ 0 ->
     exists x, iprocs i !! ep_owner e = Some x /\ a ∈ owned_endpoints x) ->
  kernel_inv (with_ipc st i) q'.
Proof using.
  intros [K1 K2 K3 K4 K5 K6 K7 K8 K9 K10 K11 K12 K13 K14 K15] [[[F1 F2 F3 F3'] F4] (F5 & F6 & F7) F8 F9] HI HE HO HO'.
  assert (forall p, is_Some (iprocs i !! p) <-> is_Some (iprocs (k_ipc st) !! p)) as Hdom.
  { intros p. specialize (F8 p). destruct (iprocs i !! p), (iprocs (k_ipc st) !! p); try done; split; by eexists. }
  unfold k_sch in *. split; cbn [k_ipc k_procs process_list k_pids k_heap k_as with_ipc k_files k_sch]; unfold k_sch;
    cbn [k_ipc with_ipc]; rewrite ?F1, ?F2; try done.
  - intros p. by rewrite Hdom.
  - intros p x Hx. destruct (K7 p x Hx) as [M T]. split; [destruct M; by split|].
    eapply thread_ok_kept; [exact T|done|]. intros _. split; unfold k_sch; cbn [k_ipc with_ipc].
    + apply F3.
    + apply F3'.
    + by rewrite F2.
    + intros y _ My. destruct My; by split.
    + intros y Hy Hz [G1 G2 G3 G4]. destruct (F9 _ G3) as [U E]. rewrite E. split; [|by eauto].
      split; [by rewrite F4|by rewrite F2|done|by rewrite F5].
  - intros t y Hy Hn. destruct (static_look _ _ _ _ F3 Hy) as (y0 & Hy0 & [= _ E2 _ _]). rewrite E2 in *. by eapply K12.
  - intros t u y z Hy Hz Hny Hnz. destruct (static_look _ _ _ _ F3 Hy) as (y0 & Hy0 & [= _ E2 -> _]).
    destruct (static_look _ _ _ _ F3 Hz) as (z0 & Hz0 & [= _ E2' -> _]). rewrite E2, E2' in *. by eapply K13.
  - intros t Ht. specialize (F3 t). destruct (K14 t Ht) as [y Hy]. rewrite Hy in F3. destruct (threads (sch i) !! t); [by eexists|done].
  - intros t [y Hy]. apply K15. destruct (static_look _ _ _ _ F3 Hy) as (y0 & Hy0 & _). by eexists.
Qed.

Lemma destroy_owned_inv st q p :
  kernel_inv st q -> is_Some (k_procs st !! p) ->
  exists i q' x x', destroy_owned st p = Some (with_ipc st i) /\ kernel_inv (with_ipc st i) q' /\ iframe (k_ipc st) i /\
    iprocs (k_ipc st) !! p = Some x /\ iprocs i !! p = Some x' /\ owned_endpoints x' = [] /\
    all_gone (k_ipc st) i (owned_endpoints x).
Proof using.
  intros K Hp. pose proof K as [K1 K2 K3 K4 K5 K6 K7 K8 K9 K10 K11 K12 K13 K14 K15].
  assert (p ≠ 0) as Hp0. { intros ->. rewrite (ti_null _ _ _ K1) in Hp. by destruct Hp. }
  destruct (proj2 (proj1 (K6 p)) Hp) as [x Hx].
  destruct (destroy_owned_ok (owned_endpoints x) (k_ipc st) q p x K2 K3 Hp0 (K10 p x Hx) eq_refl)
    as (i & q' & E & HI & HE & P & AG & _).
  assert (ipc_destroy_owned_by_process (k_ipc st) p = Some i) as E'.
  { unfold ipc_destroy_owned_by_process. rewrite (proj2 (Z.eqb_neq p 0) Hp0), Hx. exact E. }
  pose proof (destroy_owned_frame _ _ _ E') as F. exists i, q', x, (mk_ip [] (ipc_window_phys x)).
  split; [unfold destroy_owned; by rewrite E'|]. split; [|split; [done|]; split; [done|]; split; [by rewrite P, decide_True|done] ].
  assert (forall r y', iprocs i !! r = Some y' -> exists y, iprocs (k_ipc st) !! r = Some y /\
            owned_endpoints y' = if decide (r = p) then [] else owned_endpoints y) as Hown.
  { intros r y'. rewrite P. destruct (decide (r = p)) as [->|Hr]; [|by exists y'].
    intros [= <-]. by exists x. }
  eapply kernel_inv_ipc; [exact K|exact F|exact HI|exact HE| |].
  - intros r y' Hy'. destruct (Hown r y' Hy') as (y & Hy & Eo). split; [done|]. rewrite Eo.
    destruct (decide (r = p)) as [->|Hr]; [split; [constructor|by intros a ?%not_elem_of_nil]|].
    destruct (K10 r y Hy) as (_ & ND & Ho). split; [done|]. intros a Ha. destruct (Ho a Ha) as (e & He & Hin & Er).
    assert (~ doomed (k_ipc st) (owned_endpoints x) a) as Hnd.
    { intros [Hax _]. destruct (K10 p x Hx) as (_ & _ & Ho'). destruct (Ho' a Hax) as (e' & ? & _ & ?). congruence. }
    destruct (ag_kept _ _ _ AG a Hnd) as [E1 E2]. exists e. rewrite E1. split; [done|]. split; [by apply E2|done].
  - intros a e He Hal Hn. assert (~ doomed (k_ipc st) (owned_endpoints x) a) as Hnd.
    { intros Hd. by destruct (proj2 (ag_gone _ _ _ AG a Hd) e He). }
    rewrite (proj1 (ag_kept _ _ _ AG a Hnd)) in He. destruct (K11 a e He Hal Hn) as (y & Hy & Hay).
    assert (ep_owner e ≠ p) as Hr.
    { intros Er. rewrite Er in Hy. assert (y = x) as -> by congruence. apply Hnd. split; [done|by exists e]. }
    exists y. split; [by rewrite P, decide_False|done].
Qed.

(** ** Changes of processes that concern their place in the table only *)

Lemma kernel_inv_procs st q m :
  kernel_inv st q -> table_inv m (process_list st) (k_pids st) ->
  (forall p, body <$> m !! p = body <$> k_procs st !! p) -> kernel_inv (with_procs st m) q.
Proof using.
  intros [K1 K2 K3 K4 K5 K6 K7 K8 K9 K10 K11 K12 K13 K14 K15] T B.
  assert (forall p x, m !! p = Some x -> exists x0, k_procs st !! p = Some x0 /\ body x = body x0) as Hlook.
  { intros p x Hx. specialize (B p). rewrite Hx in B. destruct (k_procs st !! p) as [x0|]; [|done]. injection B as B1 B2 B3 B4 B5.
    exists x0. split; [done|]. unfold body. congruence. }
  assert (forall p, is_Some (m !! p) <-> is_Some (k_procs st !! p)) as Hdom.
  { intros p. specialize (B p). destruct (m !! p), (k_procs st !! p); try done; split; by eexists. }
  split; try done.
  - intros p. cbn. rewrite Hdom. apply K6.
  - intros p x Hx. destruct (Hlook p x Hx) as (x0 & Hx0 & Eb). destruct (K7 p x0 Hx0) as [[M1 M2 M3] T0]. split.
    + apply (proc_mem_kept st _ p x0 x); [by split|done|done|done].
    + apply (thread_ok_kept st _ p x0 x); [done|done|]. intros _. split; [done|by eauto|done|intros y _ []; by split|].
      intros y Hy Hz F. split; [done|by eauto].
  - intros p r x y Hx Hy. destruct (Hlook p x Hx) as (x0 & Hx0 & [= _ _ _ -> _]).
    destruct (Hlook r y Hy) as (y0 & Hy0 & [= _ _ _ -> _]). by apply (K8 p r x0 y0).
  - intros t y Hy Hn. destruct (K12 t y Hy Hn) as (x & Hx & Em). destruct (proj2 (Hdom (t_process y))) as [x' Hx']; [by eexists|].
    exists x'. split; [done|]. destruct (Hlook _ _ Hx') as (x0 & Hx0 & [= _ _ -> _ _]). congruence.
Qed.

Lemma kernel_inv_upd st q p x x' :
  kernel_inv st q -> k_procs st !! p = Some x -> node x' = node x -> body x' = body x ->
  kernel_inv (with_procs st (<[p := x']> (k_procs st))) q.
Proof using.
  intros K Hx En Eb. apply kernel_inv_procs; [done| |].
  - eapply table_same; [apply K|]. by eapply same_nodes_upd.
  - intros r. destruct (decide (r = p)) as [->|Hr]; [rewrite lookup_insert_eq, Hx; simpl; by rewrite Eb|by rewrite lookup_insert_ne].
Qed.

(** ** Resources given up by a process *)

(** The file table goes: first the pointer, then the object. *)
Lemma drop_files_inv st q p x :
  kernel_inv st q -> k_procs st !! p = Some x ->
  kernel_inv (with_procs st (<[p := p_set_files 0 x]> (k_procs st))) q.
Proof using.
  intros [K1 K2 K3 K4 K5 K6 K7 K8 K9 K10 K11 K12 K13 K14 K15] Hx. set (m := <[p := _]> _).
  assert (forall r y, m !! r = Some y -> exists y0, k_procs st !! r = Some y0 /\
            (y = y0 \/ r = p /\ y = p_set_files 0 y0)) as Hlook.
  { intros r y [[<- <-]|[_ Hy]]%lookup_insert_Some; eauto. }
  split; try done.
  - eapply table_same; [exact K1|]. by eapply same_nodes_upd.
  - intros r. cbn. rewrite (same_nodes_dom (k_procs st) m r) by by eapply same_nodes_upd. apply K6.
  - intros r y Hy. destruct (Hlook r y Hy) as (y0 & Hy0 & D). destruct (K7 r y0 Hy0) as [[M1 M2 M3] T]. split.
    + destruct D as [->|[-> ->]]; by split.
    + assert (thread_ok (with_procs st m) r y0) as T'.
      { apply (thread_ok_kept st _ r y0 y0); [done|done|]. intros _. split; [done|by eauto|done|intros z _ []; by split|].
        intros z Hz Hz' F. split; [done|by eauto]. }
      destruct D as [->|[-> ->]]; [done|]. destruct T' as [N|[(z & ?)|(z & ?)]]; [by left|right; left; by exists z|right; right; by exists z].
  - intros r r' y y' Hy Hy'. destruct (Hlook r y Hy) as (y0 & Hy0 & [->|[-> ->]]); [|done].
    destruct (Hlook r' y' Hy') as (y0' & Hy0' & [->|[-> ->]]); [by apply (K8 r r' y0 y0')|]. intros Hn E. by cbn in E.
  - intros t y Hy Hn. destruct (K12 t y Hy Hn) as (x0 & Hx0 & Em). destruct (decide (t_process y = p)) as [Ep|Ep].
    + exists (p_set_files 0 x). unfold m. cbn [k_procs with_procs]. rewrite Ep in *. rewrite lookup_insert_eq. split; [done|]. cbn. congruence.
    + exists x0. cbn [k_procs with_procs]. unfold m. by rewrite lookup_insert_ne.
Qed.

Lemma live_ne (h : H) a n b m : kh_ok h -> kh_live h a n -> kh_live h b m -> 0 < n -> 0 < m -> n ≠ m -> a ≠ b.
Proof using KHL.
  intros Hok Ha Hb Hn Hm Hne ->. destruct (kh_apart h b n b m Hok Ha Hb) as [E|[E|E]]; [congruence|cbn in E; lia..].
Qed.

(** An object that is nobody's is freed. *)
Lemma kernel_inv_free st q h a :
  kernel_inv st q -> kh_ok h -> (forall b m, kh_live h b m <-> kh_live (k_heap st) b m /\ b ≠ a) ->
  (forall p x, k_procs st !! p = Some x -> p ≠ a /\ p_files x ≠ a) ->
  (forall t y, threads (k_sch st) !! t = Some y -> t ≠ a /\ (t_process y ≠ 0 -> t_kernel_stack y ≠ a)) ->
  kernel_inv (with_heap st h) q.
Proof using.
  intros [K1 K2 K3 K4 K5 K6 K7 K8 K9 K10 K11 K12 K13 K14 K15] Hok Hl Hp Ht. split; try done.
  2: { intros t [y Hy]. apply Hl. split; [apply K15; by eexists|by apply (Ht t y)]. }
  intros p x Hx. destruct (K7 p x Hx) as [[M1 M2 M3] T]. destruct (Hp p x Hx) as [N1 N2]. split.
  - split; cbn; [by apply Hl|done|]. intros Hf. destruct (M3 Hf) as [L S]. split; [by apply Hl|done].
  - assert (forall y, has_thread st p x y -> has_thread (with_heap st h) p x y) as HH.
    { intros y (H0 & Hy & Ep & [T1 T2 [T3 T3'] T4 T5]). split; [done|]. split; [done|]. split; [done|].
      assert (p ≠ 0) as Hp0 by (intros ->; pose proof (ti_null _ _ _ K1) as E0; cbn in Hx; congruence).
      destruct (Ht _ _ Hy) as [Q1 Q2]. split; [by apply Hl|done| |done|done]. split; [done|]. apply Hl. split; [done|]. apply Q2. congruence. }
    destruct T as [N|[(y & HT & R)|(y & HT & R)]]; [by left|right; left|right; right]; exists y; (split; [by apply HH|exact R]).
Qed.

Lemma kernel_inv_files st q m :
  kernel_inv st q -> (forall p x, k_procs st !! p = Some x -> p_files x ≠ 0 -> is_Some (m !! p_files x)) ->
  kernel_inv (with_files st m) q.
Proof using.
  intros [K1 K2 K3 K4 K5 K6 K7 K8 K9 K10 K11 K12 K13 K14 K15] Hm. split; try done.
  intros p x Hx. destruct (K7 p x Hx) as [[M1 M2 M3] T]. split.
  - split; [done|done|]. intros Hf. split; [by apply M3|by apply (Hm p)].
  - apply (thread_ok_kept st _ p x x); [done|done|]. intros _. split; [done|by eauto|done|intros z _ []; by split|].
    intros z Hz Hz' F. split; [done|by eauto].
Qed.

(** [process_files_destroy] on a table that no process has any more *)
Lemma files_destroy_inv st q f :
  kernel_inv st q -> f ≠ 0 -> kh_live (k_heap st) f SIZEOF_FILES ->
  (forall p x, k_procs st !! p = Some x -> p_files x ≠ f) ->
  exists h, process_files_destroy st f = Some (with_files (with_heap st h) (delete f (k_files st))) /\
    kernel_inv (with_files (with_heap st h) (delete f (k_files st))) q /\
    forall b m, kh_live h b m <-> kh_live (k_heap st) b m /\ b ≠ f.
Proof using KHL.
  intros K Hf Hl Hno. destruct (kfree_law (k_heap st) f SIZEOF_FILES (ki_heap _ _ K) Hl) as (h & E & Hok & Hlive).
  exists h. unfold process_files_destroy. rewrite (proj2 (Z.eqb_neq f 0) Hf), E. split; [done|]. split; [|done].
  apply kernel_inv_files.
  - apply (kernel_inv_free st q h f K Hok Hlive).
    + intros p x Hx. destruct (ki_proc _ _ K p x Hx) as [M _]. split; [|by eapply Hno].
      eapply (live_ne (k_heap st)); [apply K|apply M|exact Hl|done..].
    + intros t y Hy. assert (kh_live (k_heap st) t SIZEOF_THREAD) as Lt by (apply K; by eexists).
      split; [by eapply (live_ne (k_heap st)); [apply K|exact Lt|exact Hl|..]|].
      intros Hn. destruct (ki_owner _ _ K t y Hy Hn) as (x & Hx & Em). destruct (ki_proc _ _ K _ x Hx) as [_ T].
      assert (has_thread st (t_process y) x y) as (_ & _ & _ & [T1 _ [_ T3] _ _]).
      { destruct T as [(N & _)|[(z & HT & _)|(z & HT & _)]].
        - pose proof (proj1 (si_threads _ _ (ii_sched _ _ (ki_ipc _ _ K)))) as E0. rewrite <- Em, N in Hy. unfold k_sch in Hy. congruence.
        - pose proof HT as (_ & Hz & _). rewrite Em in Hz. assert (z = y) as -> by congruence. done.
        - pose proof HT as (_ & Hz & _). rewrite Em in Hz. assert (z = y) as -> by congruence. done. }
      eapply (live_ne (k_heap st)); [apply K|eassumption|exact Hl|done..].
  - intros p x Hx Hn. cbn. rewrite lookup_delete_ne by (intros Ef; by apply (Hno p x Hx)). by apply (ki_proc _ _ K p x Hx).
Qed.

(** The scheduler's map of address spaces *)
Lemma sched_inv_procs (s : sched) q m :
  sched_inv s q -> (forall t x, threads s !! t = Some x -> t_process x ≠ 0 -> is_Some (m !! t_process x)) ->
  sched_inv (sched_procs s m) q.
Proof using. intros [A1 A2 (A3 & A4 & _) A5 A6 A7] Hm. split; try done. Qed.

Lemma ipc_inv_sch (i : ipc) q s :
  ipc_inv i q -> sched_inv s q -> threads s = threads (sch i) -> ipc_inv (with_sch i s) q.
Proof using.
  intros [B1 B2 B3 B4 B5 B6] HS Et. split; try done; cbn; unfold links_ok, is_thread in *; try rewrite Et; try done.
Qed.

Lemma set_mm_inv st q p :
  kernel_inv st q -> is_Some (k_procs st !! p) -> kernel_inv (set_mm st p 0) q.
Proof using.
  intros [K1 K2 K3 K4 K5 K6 K7 K8 K9 K10 K11 K12 K13 K14 K15] Hp.
  assert (forall r, is_Some (<[p := 0]> (procs (k_sch st)) !! r) <-> is_Some (procs (k_sch st) !! r)) as Hdom.
  { intros r. rewrite lookup_insert_is_Some'. split; [intros [<-|?]; [by apply K6|done]|by right]. }
  split; try done.
  - apply ipc_inv_sch; [done| |done]. apply sched_inv_procs; [apply K2|]. intros t y Hy Hn. apply Hdom.
    by apply (si_threads _ _ (ii_sched _ _ K2)) with t.
  - destruct K3. by split.
  - intros r. unfold k_sch. cbn. fold (k_sch st). rewrite Hdom. apply K6.
  - intros r x Hx. destruct (K7 r x Hx) as [[M1 M2 M3] T]. split; [by split|].
    apply (thread_ok_kept st _ r x x); [done|done|]. intros _. split; [done|by eauto|done|intros z _ []; by split|].
    intros z Hz Hz' [G1 G2 G3 G4]. split; [by split|by eauto].
  - intros r m Hm Hn. unfold k_sch in Hm. cbn in Hm. apply lookup_insert_Some in Hm as [[<- <-]|[Hr Hm]]; [done|].
    destruct (K9 r m Hm Hn) as [L U]. split; [done|]. intros r' Hm'. unfold k_sch in Hm'. cbn in Hm'.
    apply lookup_insert_Some in Hm' as [[<- <-]|[_ Hm']]; [done|by apply U].
Qed.

Lemma emit_inv st q e : kernel_inv st q -> kernel_inv (with_sched st (emit (k_sch st) e)) q.
Proof using.
  intros [K1 K2 K3 K4 K5 K6 K7 K8 K9 K10 K11 K12 K13 K14 K15]. split; try done.
  - apply ipc_inv_sch; [done| |done]. destruct (ii_sched _ _ K2). by split.
  - destruct K3. by split.
  - intros r x Hx. destruct (K7 r x Hx) as [[M1 M2 M3] T]. split; [by split|].
    apply (thread_ok_kept st _ r x x); [done|done|]. intros _. split; [done|by eauto|done|intros z _ []; by split|].
    intros z Hz Hz' [G1 G2 G3 G4]. split; [by split|by eauto].
Qed.

(** [vmm_destroy_address_space] on one that no process has any more *)
Lemma destroy_mm_inv st q mm :
  kernel_inv st q -> as_live (k_as st) mm -> (forall p, procs (k_sch st) !! p ≠ Some mm) ->
  exists a, destroy_mm st mm = Some (with_as st a) /\ kernel_inv (with_as st a) q /\ spaces_kept (k_as st) a /\
    forall b, as_live a b <-> as_live (k_as st) b /\ b ≠ mm.
Proof using ASL.
  intros [K1 K2 K3 K4 K5 K6 K7 K8 K9 K10 K11 K12 K13 K14 K15] Hl Hno.
  destruct (as_destroy_law (k_as st) mm K5 Hl) as (a & E & Hok & HK & Hlive). exists a. unfold destroy_mm. rewrite E.
  split; [done|]. split; [|done]. split; try done.
  - intros r x Hx. destruct (K7 r x Hx) as [[M1 M2 M3] T]. split; [by split|].
    apply (thread_ok_kept st _ r x x); [done|done|]. intros _. split; [done|by eauto|done|intros z _ []; by split|].
    intros z Hz Hz' [G1 G2 G3 G4]. split; [by split|by eauto].
  - intros r m Hm Hn. destruct (K9 r m Hm Hn) as [L U]. split; [|done]. apply Hlive. split; [done|].
    intros ->. by apply (Hno r).
Qed.

(** ** The end of a thread *)

(** The threads in a call with [t] are those it knows of, and no wait of [t] is queued. *)
Definition settled (i : ipc) (t : Z) (x : ithread) : Prop :=
  its i !! 0 = None /\ its i !! t = Some x /\ unqueued i t /\
  forall u y, its i !! u = Some y ->
    (ipc_caller y = t -> ipc_reply_server x = u) /\ (ipc_reply_server y = t -> ipc_caller x = u).

Lemma cleaned_forgets i t x i' u y :
  settled i t x -> t ≠ 0 -> (forall u, its i' !! u = clean_fields t (ipc_caller x) (ipc_reply_server x) u <$> its i !! u) ->
  its i' !! u = Some y -> ipc_caller y ≠ t /\ ipc_reply_server y ≠ t.
Proof using.
  intros (H0 & Hx & _ & S) Ht0 L Hy. rewrite L in Hy. destruct (its i !! u) as [y0|] eqn:E; [|done]. injection Hy as <-.
  destruct (S u y0 E) as [S1 S2]. assert (u ≠ 0) as Hu0 by (intros ->; congruence).
  unfold clean_fields. cbn [ipc_caller ipc_reply_server]. case_bool_decide; cbn [orb]; [done|]. split.
  - destruct (Z.eqb_spec (ipc_caller y0) t) as [E1|E1].
    + rewrite (S1 E1), (proj2 (Z.eqb_neq u 0) Hu0), bool_decide_true by done. done.
    + by rewrite andb_false_r.
  - destruct (Z.eqb_spec (ipc_reply_server y0) t) as [E1|E1].
    + rewrite (S2 E1), (proj2 (Z.eqb_neq u 0) Hu0), bool_decide_true by done. done.
    + by rewrite andb_false_r.
Qed.

(** The thread that runs is the live main thread of its process. *)
Lemma current_live st q y :
  kernel_inv st q -> threads (k_sch st) !! current_thread (k_sch st) = Some y -> t_process y ≠ 0 ->
  exists x, k_procs st !! t_process y = Some x /\ p_main_thread x = current_thread (k_sch st) /\
    has_thread st (t_process y) x y /\ p_threads x = [p_main_thread x] /\ p_nr_threads x = 1 /\
    p_main_thread x ∈ all_threads (k_sch st) /\ t_state y ≠ TASK_ZOMBIE.
Proof using.
  intros K Hy Hp. destruct (ki_owner _ _ K _ _ Hy Hp) as (x & Hx & Em). exists x. split; [done|]. split; [done|].
  destruct (si_current _ _ (ii_sched _ _ (ki_ipc _ _ K))) as (H0 & _).
  destruct (ki_proc _ _ K _ _ Hx) as [_ [(N & _)|[(z & HT & R)|(z & HT & _ & _ & _ & F)]]].
  - unfold k_sch in Em. congruence.
  - pose proof HT as (_ & Hz & _). rewrite Em in Hz. assert (z = y) as -> by congruence. done.
  - destruct (fg_current _ _ F). by rewrite Em.
Qed.

(** What the end of a thread leaves of the state of its process. *)
Definition exited (code : Z) (x : process) : process :=
  p_set_exit_code code (p_set_threads [] 0 (p_main_thread x) x).

Lemma unlink_thread_eq st q p x y :
  kernel_inv st q -> k_procs st !! p = Some x -> has_thread st p x y -> p_threads x = [p_main_thread x] ->
  unlink_thread (p_main_thread x) (k_procs st) =
    <[p := p_set_threads [] (p_nr_threads x) (p_main_thread x) x]> (k_procs st).
Proof using.
  intros K Hx (H0 & Hy & Ep & _) Et. apply map_eq. intros r. unfold unlink_thread. rewrite lookup_fmap.
  destruct (decide (r = p)) as [->|Hr].
  - rewrite lookup_insert_eq, Hx. simpl. rewrite Et. do 2 f_equal. unfold without. rewrite filter_cons.
    rewrite decide_False by tauto. done.
  - rewrite lookup_insert_ne by done. destruct (k_procs st !! r) as [z|] eqn:Ez; [|done]. simpl. f_equal.
    rewrite without_id; [by destruct z|]. destruct (ki_proc _ _ K r z Ez) as [_ [(_ & -> & _)|[(w & HT & -> & _)|(w & _ & -> & _)]]];
      [apply not_elem_of_nil| |apply not_elem_of_nil].
    intros E%list_elem_of_singleton. destruct HT as (_ & Hw & Er & _). rewrite <- E in Hw. congruence.
Qed.

Lemma static_processes (ts ts' : gmap Z thread) :
  (forall t, static <$> ts' !! t = static <$> ts !! t) -> processes_kept ts ts'.
Proof using. intros S t. specialize (S t). destruct (ts' !! t), (ts !! t); try done. injection S as _ E _ _. simpl. by rewrite E. Qed.

(** A step of the scheduler alone. *)
Lemma ipc_inv_static (i : ipc) q s q' :
  ipc_inv i q -> sched_inv s q' -> (forall t, static <$> threads s !! t = static <$> threads (sch i) !! t) ->
  ipc_inv (with_sch i s) q'.
Proof using.
  intros HI HS S. eapply ipc_inv_step; [exact HI|exact HS|by apply static_processes|done|apply HI|done|apply HI|done|apply HI|apply HI].
Qed.

Lemma end_thread_static s t y : threads s !! t = Some y ->
  forall u, static <$> threads (end_thread s t y) !! u = static <$> threads s !! u.
Proof using.
  intros Hy u. unfold end_thread. cbn [threads with_threads]. destruct (decide (u = t)) as [->|Hu];
    [by rewrite lookup_insert_eq, Hy|by rewrite lookup_insert_ne].
Qed.

(** The state in which the next thread goes on. *)
Definition after_exit st (i : ipc) (s : sched) (p : Z) (x : process) : kernel H A :=
  with_procs (with_ipc st (with_sch i s)) (<[p := x]> (k_procs st)).

(** What happened to the threads on the way: [t] ended, and nothing was woken that nobody waits for. *)
Record ended st (t : Z) (i : ipc) (s : sched) : Prop := {
  en_static : forall u, static <$> threads s !! u = static <$> threads (k_sch st) !! u;
  en_same : procs s = procs (k_sch st) /\ all_threads s = without t (all_threads (k_sch st));
  en_eps : eps i = eps (k_ipc st) /\ waits i = waits (k_ipc st) /\ iprocs i = iprocs (k_ipc st) /\
    endpoint_list i = endpoint_list (k_ipc st) /\ next_endpoint_id i = next_endpoint_id (k_ipc st);
  en_zombie : exists z, threads s !! t = Some z /\ t_state z = TASK_ZOMBIE;
  en_live : forall u z, u ≠ t -> threads s !! u = Some z -> t_state z = TASK_ZOMBIE ->
    exists z0, threads (k_sch st) !! u = Some z0 /\ t_state z0 = TASK_ZOMBIE;
  en_dead : forall u z, threads (k_sch st) !! u = Some z -> t_state z = TASK_ZOMBIE -> forgotten (k_ipc st) u ->
    exists z', threads s !! u = Some z' /\ t_state z' = TASK_ZOMBIE;
  en_current : exists z, threads s !! current_thread s = Some z /\ t_state z = TASK_RUNNING;
  en_links : forall v u y, v ≠ 0 -> its i !! u = Some y -> v = t \/ forgotten (k_ipc st) v ->
    ipc_caller y ≠ v /\ ipc_reply_server y ≠ v
}.

Lemma after_exit_inv st q p x y i s q' code :
  kernel_inv st q -> k_procs st !! p = Some x -> has_thread st p x y -> p_threads x = [p_main_thread x] ->
  unqueued (k_ipc st) (p_main_thread x) ->
  ended st (p_main_thread x) i s -> ipc_inv (with_sch i s) q' ->
  kernel_inv (after_exit st i s p (exited code x)) q' /\
  zombie (after_exit st i s p (exited code x)) p (exited code x).
Proof using.
  intros K Hx HT Et Hun [N1 [N2 N3] (N4 & N5 & N6 & N7 & N8) N9 N10 N11 N12 N13] HI. pose proof K as [K1 K2 K3 K4 K5 K6 K7 K8 K9 K10 K11 K12 K13 K14 K15].
  set (t := p_main_thread x) in *. set (st' := after_exit st i s p (exited code x)).
  assert (forall u, u = t \/ forgotten (k_ipc st) u -> (exists z, threads s !! u = Some z /\ t_state z = TASK_ZOMBIE) ->
            forgotten (k_ipc st') u) as HF.
  { intros u Hu (z & Hz & Sz). assert (unqueued (k_ipc st) u) as Uu by (destruct Hu as [->|[]]; done). split.
    - intros E. destruct N12 as (z' & Hz' & Sz'). cbn in E. rewrite <- E in Hz'. congruence.
    - cbn. rewrite N3, elem_of_without. destruct Hu as [->|[_ Hu _ _]]; tauto.
    - intros a e w z'. cbn. rewrite N4, N5. apply Uu.
    - intros v y'. cbn. intros Hv. apply (N13 u v y'); [|done|done]. intros ->.
      pose proof (proj1 (si_threads _ _ (ii_sched _ _ HI))) as E0. cbn in E0. congruence. }
  assert (forall u z, thread_mem st u z -> thread_mem st' u z) as HM by (intros u z []; by split).
  assert (zombie st' p (exited code x)) as HZ.
  { destruct N9 as (z & Hz & Sz). exists z. destruct HT as (H0 & Hy & Ep & M). split; [|split; [done|split; [done|split; [done|]]]].
    - split; [done|]. split; [exact Hz|]. pose proof (N1 t) as E. rewrite Hz in E. unfold t in E. rewrite Hy in E.
      injection E as E1 E2 E3 E4. split; [congruence|]. destruct (HM _ _ M) as [M1 M2 [M3 M3'] M4 M5]. by split; cbn; rewrite ?E3, ?E4.
    - apply HF; [by left|by exists z]. }
  split; [|exact HZ]. split; try done.
  - eapply table_same; [exact K1|]. by eapply same_nodes_upd.
  - cbn. destruct K3 as [E1 E2 E3 E4 E5 E6]. split; cbn; rewrite ?N4, ?N7, ?N8; try done.
    intros a Ha. destruct (E3 a Ha) as (e & ? & ? & Hpo). exists e. unfold proc_ok in *. cbn. by rewrite N6.
  - intros r. unfold k_sch. cbn. rewrite N2, N6. rewrite (same_nodes_dom (k_procs st)) by by eapply same_nodes_upd. apply K6.
  - intros r z Hz. cbn in Hz. apply lookup_insert_Some in Hz as [[<- <-]|[Hr Hz]].
    + split; [|by right; right]. destruct (K7 p x Hx) as [[M1 M2 M3] _]. by split.
    + destruct (K7 r z Hz) as [[M1 M2 M3] T]. split; [by split|]. apply (thread_ok_kept st st' r z z); [done|done|].
      intros Hn. assert (p_main_thread z ≠ t) as Hzt.
      { intros E. assert (exists w, has_thread st r z w) as (w & _ & Hw & Er & _).
        { destruct T as [(? & _)|[(w & ? & _)|(w & ? & _)]]; [done|by exists w..]. }
        destruct HT as (_ & Hy & Ep & _). rewrite E in Hw. unfold t in Hw. congruence. }
      split; [apply N1| |cbn; unfold k_sch; cbn; rewrite N3, elem_of_without; tauto|intros w _; apply HM|].
      * intros w Hw Sw. by apply (N10 _ w).
      * intros w Hw Sw F. destruct (N11 _ _ Hw Sw F) as (w' & Hw' & Sw'). split; [|by exists w'].
        apply HF; [by right|by exists w'].
  - intros r r' z z'. cbn. rewrite !lookup_insert_Some.
    intros [[<- <-]|[Hr Hz]] [[<- <-]|[Hr' Hz']]; [done| | |by eapply K8].
    + intros Hn Ef. cbn in *. exact (K8 p r' x z' Hx Hz' Hn Ef).
    + intros Hn Ef. cbn in *. exact (K8 r p z x Hz Hx Hn Ef).
  - unfold k_sch. cbn. rewrite N2. exact K9.
  - cbn. rewrite N6. intros r z Hz. destruct (K10 r z Hz) as (_ & ND & Ho). split; [cbn; by rewrite N6|]. split; [done|]. cbn. by rewrite N4, N7.
  - cbn. rewrite N4, N6. exact K11.
  - intros u z Hz Hn. destruct (static_look (k_sch st) s u z N1 Hz) as (z0 & Hz0 & [= _ E2 _ _]). rewrite E2 in *.
    destruct (K12 u z0 Hz0 Hn) as (x0 & Hx0 & Em). cbn. destruct (decide (t_process z0 = p)) as [Ep|Ep].
    + rewrite Ep in *. rewrite lookup_insert_eq. exists (exited code x). split; [done|]. cbn. congruence.
    + exists x0. by rewrite lookup_insert_ne.
  - intros u v y0 z0 Hy Hz Hny Hnz. destruct (static_look (k_sch st) s _ _ N1 Hy) as (y1 & Hy1 & [= _ E2 -> _]).
    destruct (static_look (k_sch st) s _ _ N1 Hz) as (z1 & Hz1 & [= _ E2' -> _]). rewrite E2, E2' in *. by eapply K13.
  - intros u. unfold k_sch. cbn. rewrite N3. intros [Hu _]%elem_of_without. destruct (K14 u Hu) as [z Hz].
    specialize (N1 u). rewrite Hz in N1. destruct (threads s !! u); [by eexists|done].
  - intros u [z Hz]. apply K15. destruct (static_look (k_sch st) s u z N1 Hz) as (z0 & Hz0 & _). by eexists.
Qed.

Lemma upd_proc_eq st p f x : k_procs st !! p = Some x -> upd_proc st p f = Some (with_procs st (<[p := f x]> (k_procs st))).
Proof using. intros Hx. unfold upd_proc. by rewrite Hx. Qed.

Lemma upd_kthread_eq st t f x : threads (k_sch st) !! t = Some x ->
  upd_kthread st t f = Some (with_sched st (with_threads (k_sch st) (<[t := f x]> (threads (k_sch st))))).
Proof using. intros Hx. unfold upd_kthread, upd_thread. by rewrite Hx. Qed.

(** The thread marked as exiting, before the IPC system forgets it. *)
Lemma exiting_inv st q y :
  let t := current_thread (k_sch st) in
  kernel_inv st q -> threads (k_sch st) !! t = Some y ->
  ipc_inv (with_sch (k_ipc st) (with_threads (k_sch st)
    (<[t := set_flags (Z.lor (t_flags y) TF_EXITING) y]> (threads (k_sch st))))) q.
Proof using.
  intros t K Hy. pose proof (ki_ipc _ _ K) as HI. pose proof (ii_sched _ _ HI) as HS.
  apply ipc_inv_static with q; [done| |].
  - eapply sched_inv_upd; [exact HS|exact Hy|exact (si_prio _ _ _ _ HS Hy)|done|done|]. intros Hid.
    destruct (si_idle _ _ HS) as (_ & _ & z & Hz & Sz & _). unfold k_sch in *. cbn. congruence.
  - intros u. cbn. destruct (decide (u = t)) as [->|Hu].
    + rewrite lookup_insert_eq. fold (k_sch st). by rewrite Hy.
    + by rewrite lookup_insert_ne.
Qed.

(** The thread as it leaves the IPC system and the scheduler. *)
Definition exiting st (y : thread) : ipc :=
  with_sch (k_ipc st) (with_threads (k_sch st)
    (<[current_thread (k_sch st) := set_flags (Z.lor (t_flags y) TF_EXITING) y]> (threads (k_sch st)))).

Lemma exit_steps st q y ix ch :
  let t := current_thread (k_sch st) in
  kernel_inv st q -> threads (k_sch st) !! t = Some y -> t_process y ≠ 0 -> settled (k_ipc st) t ix ->
  exists i y2 s1 s2 q', ipc_thread_cleanup (exiting st y) t = Some i /\ threads (sch i) !! t = Some y2 /\
    (if negb (ch =? 0) then thread_wakeup (end_thread (sch i) t y2) ch else Some (end_thread (sch i) t y2)) = Some s1 /\
    schedule 1 s1 = Some (Some s2) /\ ended st t i s2 /\ ipc_inv (with_sch i s2) q' /\
    (ch ≠ 0 -> forall u z, u ≠ t -> u ∈ all_threads (k_sch st) -> threads (k_sch st) !! u = Some z ->
       wakes z ch = true -> exists z', threads s2 !! u = Some z' /\ t_state z' = TASK_RUNNING).
Proof using.
  intros t K Hy Hp HS. pose proof HS as (S0 & Six & Sun & _).
  pose proof (exiting_inv st q y K Hy : ipc_inv (exiting st y) q) as HI1.
  pose proof (si_current _ _ (ii_sched _ _ (ki_ipc _ _ K))) as (Ht0 & _). fold (k_sch st) in Ht0. fold t in Ht0.
  destruct (ipc_thread_cleanup_ok (exiting st y) q t ix HI1 Ht0) as (i2 & q2 & E2 & HI2 & _ & _ & Rn & L).
  { apply lookup_insert_is_Some'. by left. } { done. }
  destruct (cleanup_frame (exiting st y) t ix i2) as (F1 & F2 & F3 & F4); [done|done|].
  assert (forall u, u ≠ t -> u ≠ ipc_caller ix -> threads (sch i2) !! u = threads (k_sch st) !! u) as Hsame.
  { intros u Hu Hc. rewrite F4 by done. cbn. by rewrite lookup_insert_ne. }
  assert (forall u, static <$> threads (sch i2) !! u = static <$> threads (k_sch st) !! u) as Hst.
  { intros u. rewrite (sf_static _ _ F2). cbn. destruct (decide (u = t)) as [->|Hu]; [by rewrite lookup_insert_eq, Hy|by rewrite lookup_insert_ne]. }
  destruct (threads (sch i2) !! t) as [y2|] eqn:Hy2; [|specialize (Hst t); rewrite Hy, Hy2 in Hst; done].
  pose proof (Hst t) as Ey2. rewrite Hy, Hy2 in Ey2. injection Ey2 as Ey1 Ey2 Ey3 Ey4.
  assert (current_thread (sch i2) = t) as Ec by done.
  destruct (end_thread_ok (sch i2) q2 y2 ch) as (s1 & s2 & q' & E3 & E4 & HS4 & F5 & C5 & Cr & Dd & Wk); rewrite ?Ec; try done.
  { apply HI2. } { by rewrite Ey2. }
  { intros u. rewrite (sf_all _ _ F2). intros Hu. destruct (ki_all _ _ K u Hu) as [z Hz]. specialize (Hst u). rewrite Hz in Hst.
    destruct (threads (sch i2) !! u); [by eexists|done]. }
  rewrite Ec in *. exists i2, y2, s1, s2, q'. do 4 (split; [done|]).
  split; [|split].
  - split.
    + intros u. rewrite (sf_static _ _ F5), end_thread_static by done. apply Hst.
    + rewrite (sf_procs _ _ F5), (sf_all _ _ F5). cbn. by rewrite (sf_procs _ _ F2), (sf_all _ _ F2).
    + by rewrite F1.
    + destruct (Dd t (set_state TASK_ZOMBIE y2)) as (z & Hz & Sz); [rewrite elem_of_without; tauto|apply lookup_insert_eq|by exists z].
    + intros u z Hu Hz Sz. destruct (sf_zombie _ _ F5 u z Hz Sz) as (z1 & Hz1 & Sz1). cbn in Hz1. rewrite lookup_insert_ne in Hz1 by done.
      destruct (sf_zombie _ _ F2 u z1 Hz1 Sz1) as (z2 & Hz2 & Sz2). cbn in Hz2. rewrite lookup_insert_ne in Hz2 by done. by exists z2.
    + intros u z Hz Sz [G1 G2 G3 G4]. destruct (G4 t ix Six) as [G5 _]. destruct (Dd u z) as (z' & Hz' & Sz').
      * rewrite (sf_all _ _ F2), elem_of_without. tauto.
      * cbn. rewrite lookup_insert_ne by done. by rewrite Hsame.
      * exists z'. split; [done|congruence].
    + done.
    + intros v u z Hv Hz [->|[_ _ _ G4]]; [by apply (cleaned_forgets (k_ipc st) t ix i2 u z HS Ht0)|].
      rewrite L in Hz. cbn in Hz. destruct (its (k_ipc st) !! u) as [z0|] eqn:Ez; [|done]. injection Hz as <-.
      destruct (G4 u z0 Ez). unfold clean_fields. cbn [ipc_caller ipc_reply_server]. split; match goal with |- context [if ?b then _ else _] => destruct b end; congruence.
  - apply ipc_inv_static with q2; [done|done|]. intros u. by rewrite (sf_static _ _ F5), end_thread_static.
  - intros Hpar u z Hu Hua Hz Hw. destruct (decide (u = ipc_caller ix)) as [->|Hc].
    + specialize (Hst (ipc_caller ix)). rewrite Hz in Hst. destruct (threads (sch i2) !! ipc_caller ix) as [z2|] eqn:Ez2; [|done].
      apply (Wk _ z2 Hu Ez2). left. apply Rn; [|done]. intros E0. rewrite E0 in Hz.
      pose proof (proj1 (si_threads _ _ (ii_sched _ _ (ki_ipc _ _ K)))) as H0. unfold k_sch in Hz. congruence.
    + apply (Wk u z Hu); [by rewrite Hsame|]. right. split; [done|]. split; [by rewrite (sf_all _ _ F2)|done].
Qed.

Lemma thread_exit_eq st q code y x i y2 s1 s2 :
  let t := current_thread (k_sch st) in let p := t_process y in
  kernel_inv st q -> threads (k_sch st) !! t = Some y -> k_procs st !! p = Some x -> p_main_thread x = t ->
  has_thread st p x y -> p_threads x = [p_main_thread x] -> p_nr_threads x = 1 ->
  ipc_thread_cleanup (exiting st y) t = Some i -> threads (sch i) !! t = Some y2 ->
  (if negb (p_parent x =? 0) then thread_wakeup (end_thread (sch i) t y2) (p_parent x) else Some (end_thread (sch i) t y2)) = Some s1 ->
  schedule 1 s1 = Some (Some s2) ->
  thread_exit 1 st code = Some (Some (after_exit st i s2 p (exited code x))).
Proof using.
  intros t p K Hy Hx Em HT Et En E2 Hy2 E3 E4.
  unfold thread_exit. fold t. rewrite Hy. cbn [mbind option_bind]. fold p. rewrite (upd_kthread_eq st t _ y Hy).
  cbn [mbind option_bind]. change (ipc_thread_cleanup (k_ipc _) t) with (ipc_thread_cleanup (exiting st y) t). rewrite E2. cbn [mbind option_bind].
  cbn [k_procs with_ipc with_sched]. rewrite Hx. cbn [mbind option_bind].
  pose proof (unlink_thread_eq st q p x y K Hx HT Et) as EU. rewrite Em in EU. rewrite EU.
  rewrite (upd_proc_eq _ p _ (p_set_threads [] (p_nr_threads x) t x)) by apply lookup_insert_eq. cbn [mbind option_bind].
  set (st1 := thread_global_remove _ t).
  assert (k_procs st1 = <[p := p_set_threads [] 0 t x]> (k_procs st)) as P1.
  { etransitivity; [apply insert_insert_eq|]. cbn [p_set_threads p_threads p_nr_threads]. by rewrite En. }
  rewrite P1, lookup_insert_eq. cbn [mbind option_bind]. change (p_nr_threads _ =? 0) with true. cbv iota.
  rewrite (upd_proc_eq st1 p _ (p_set_threads [] 0 t x)) by (rewrite P1; apply lookup_insert_eq). rewrite P1, insert_insert_eq.
  cbn [mbind option_bind]. rewrite (upd_kthread_eq _ t _ y2) by done. cbn [mbind option_bind].
  set (st2 := with_sched _ _). change (k_sch st2) with (end_thread (sch i) t y2). cbn [p_parent p_set_threads].
  assert ((if negb (p_parent x =? 0) then _ ← k_procs st2 !! p_parent x; s ← thread_wakeup (end_thread (sch i) t y2) (p_parent x); Some (with_sched st2 s)
           else Some st2) = Some (with_sched st2 s1)) as ->.
  { destruct (Z.eqb_spec (p_parent x) 0) as [E0|E0]; cbn [negb] in *; [by injection E3 as <-|].
    destruct (ti_parent _ _ _ (ki_table _ _ K) p x Hx E0) as [px Hpx].
    assert (is_Some (k_procs st2 !! p_parent x)) as [px' ->] by (apply lookup_insert_is_Some'; right; by eexists).
    cbn [mbind option_bind]. by rewrite E3. }
  cbn [mbind option_bind]. unfold k_schedule. change (k_sch (with_sched st2 s1)) with s1. rewrite E4. cbn [mbind option_bind option_map].
  do 2 f_equal. unfold after_exit, exited. by rewrite Em.
Qed.

(** The current thread ends: its process becomes a zombie with the exit code, and every thread that
    sleeps on the parent process is runnable. *)
Lemma thread_exit_ok st q code y x ix :
  let t := current_thread (k_sch st) in let p := t_process y in
  kernel_inv st q -> threads (k_sch st) !! t = Some y -> p ≠ 0 -> k_procs st !! p = Some x -> settled (k_ipc st) t ix ->
  exists i s q', thread_exit 1 st code = Some (Some (after_exit st i s p (exited code x))) /\
    kernel_inv (after_exit st i s p (exited code x)) q' /\
    zombie (after_exit st i s p (exited code x)) p (exited code x) /\ ended st t i s /\
    (p_parent x ≠ 0 -> forall u z, u ≠ t -> u ∈ all_threads (k_sch st) -> threads (k_sch st) !! u = Some z ->
       wakes z (p_parent x) = true -> exists z', threads s !! u = Some z' /\ t_state z' = TASK_RUNNING).
Proof using.
  intros t p K Hy Hp Hx HS. destruct (current_live st q y K Hy Hp) as (x0 & Hx0 & Em & HT & Et & En & _).
  fold t p in Hx0, Em, HT. assert (x0 = x) as -> by congruence. clear Hx0.
  destruct (exit_steps st q y ix (p_parent x) K Hy Hp HS) as (i & y2 & s1 & s2 & q' & E1 & E2 & E3 & E4 & EN & HI & W).
  exists i, s2, q'. split; [by eapply thread_exit_eq|]. pose proof HS as (_ & _ & Sun & _). pose proof EN as EN'. fold t in EN, Sun.
  rewrite <- Em in EN, Sun. destruct (after_exit_inv st q p x y i s2 q' code K Hx HT Et Sun EN HI) as [K' Z']. done.
Qed.

(** ** The end of a process *)

Lemma settled_frame i i' t x : iframe i i' -> settled i t x -> settled i' t x.
Proof using.
  intros [_ (F1 & _) _ F4] (S0 & S1 & S2 & S3). unfold settled. rewrite F1. destruct (F4 t S2) as [U _]. done.
Qed.

Lemma kin_body x x' : kin_only x x' -> body x' = body x /\ p_pid x' = p_pid x /\ p_exit_code x' = p_exit_code x.
Proof using. unfold kin_only. intros ->. done. Qed.

Lemma reparent_children_inv st q p x :
  kernel_inv st q -> k_procs st !! p = Some x -> (init_process st ≠ 0 -> is_Some (k_procs st !! init_process st)) ->
  exists m x', reparent_children st p = Some (with_procs st m) /\ kernel_inv (with_procs st m) q /\ m !! p = Some x' /\
    body x' = body x /\ p_pid x' = p_pid x /\ p_exit_code x' = p_exit_code x /\
    (p ∉ p_children x -> p_parent x' = p_parent x) /\
    (init_process st ≠ 0 -> init_process st ≠ p -> moved (k_procs st) m p (init_process st) (p_children x)) /\
    (init_process st = 0 \/ init_process st = p -> m = k_procs st) /\ (p_children x = [] -> m = k_procs st).
Proof using.
  intros K Hx Hinit. unfold reparent_children. destruct (Z.eqb_spec (init_process st) 0) as [E0|E0].
  { exists (k_procs st), x. split; [by destruct st|]. split; [by destruct st|]. split; [done|]. split; [done|]. split; [done|].
    split; [done|]. split; [done|]. split; [by intros ?|done]. }
  destruct (Z.eqb_spec (init_process st) p) as [E1|E1]; cbn [negb andb].
  { exists (k_procs st), x. split; [by destruct st|]. split; [by destruct st|]. split; [done|]. split; [done|]. split; [done|].
    split; [done|]. split; [done|]. split; [by intros ?|done]. }
  rewrite Hx. cbn [mbind option_bind].
  destruct (reparent_ok (p_children x) (k_procs st) (process_list st) (k_pids st) p (init_process st) x) as (m & E & T & M);
    [apply K|done|done|congruence|by apply Hinit|]. rewrite E. cbn [mbind option_bind].
  pose proof (mv_kin _ _ _ _ _ M p) as Kp. rewrite Hx in Kp. destruct (m !! p) as [x'|] eqn:Ex'; [|done]. destruct Kp as [Kk Kpar].
  destruct (kin_body _ _ Kk) as (B1 & B2 & B3). exists m, x'. split; [done|]. split.
  { apply kernel_inv_procs; [done|done|]. intros r. pose proof (mv_kin _ _ _ _ _ M r) as Kr.
    destruct (k_procs st !! r) as [z|], (m !! r) as [z'|]; try done. destruct Kr as [Kr _]. destruct (kin_body _ _ Kr) as (B & _). simpl. by rewrite B. }
  split; [done|]. do 3 (split; [done|]). split; [intros Hn; by rewrite Kpar, decide_False|]. split; [done|].
  split; [intros [?|?]; done|]. intros Hch. rewrite Hch in E. cbn [reparent_loop length] in E. rewrite Hx in E. cbn [mbind option_bind] in E.
  rewrite Hch in E. congruence.
Qed.

Lemma files_step st q p x :
  kernel_inv st q -> k_procs st !! p = Some x -> p_files x ≠ 0 ->
  let st1 := with_procs st (<[p := p_set_files 0 x]> (k_procs st)) in
  kernel_inv st1 q /\ kh_live (k_heap st1) (p_files x) SIZEOF_FILES /\
  forall r y, k_procs st1 !! r = Some y -> p_files y ≠ p_files x.
Proof using.
  intros K Hx Hf st1. split; [by apply drop_files_inv|]. split; [by apply (ki_proc _ _ K p x Hx)|].
  intros r y Hy. unfold st1 in Hy. cbn [k_procs with_procs] in Hy.
  apply lookup_insert_Some in Hy as [[<- <-]|[Hr Hy]]; [intros E; cbn in E; congruence|]. intros E.
  apply Hr. by apply (ki_files _ _ K p r x y).
Qed.

Lemma mm_step st q p mm :
  kernel_inv st q -> is_Some (k_procs st !! p) -> get_mm st p = Some mm -> mm ≠ 0 ->
  let st1 := set_mm st p 0 in let st2 := with_sched st1 (emit (k_sch st1) (PagingSwitch (kernel_space st1))) in
  kernel_inv st2 q /\ as_live (k_as st2) mm /\ forall r, procs (k_sch st2) !! r ≠ Some mm.
Proof using.
  intros K Hp Em Hmm st1 st2. split; [by apply emit_inv, set_mm_inv|]. destruct (ki_mm _ _ K p mm Em Hmm) as [L U].
  split; [done|]. intros r Hr. unfold st2, st1, k_sch in Hr. cbn in Hr.
  apply lookup_insert_Some in Hr as [[_ E]|[Hr Hr']]; [congruence|]. apply Hr. by apply U.
Qed.

(** What is left alone when a process gives up its files and memory. *)
Record dropped st (p : Z) (x : process) st' : Prop := {
  dr_procs : k_procs st' = <[p := p_set_files 0 x]> (k_procs st);
  dr_mm : procs (k_sch st') = <[p := 0]> (procs (k_sch st));
  dr_ipc : k_ipc st' = with_sch (k_ipc st) (k_sch st') /\ threads (k_sch st') = threads (k_sch st) /\
    all_threads (k_sch st') = all_threads (k_sch st) /\ current_thread (k_sch st') = current_thread (k_sch st);
  dr_rest : process_list st' = process_list st /\ k_pids st' = k_pids st /\ k_xts st' = k_xts st /\
    k_stacks st' = k_stacks st /\ init_process st' = init_process st;
  dr_files : p_files x ≠ 0 -> forall n, ~ kh_live (k_heap st') (p_files x) n;
  dr_space : forall mm, get_mm st p = Some mm -> mm ≠ 0 -> ~ as_live (k_as st') mm
}.

Lemma insert_same {V} (m : gmap Z V) k v : m !! k = Some v -> <[k := v]> m = m.
Proof using. apply insert_id. Qed.

Lemma clear_files_ok st q p x :
  kernel_inv st q -> k_procs st !! p = Some x ->
  let st1 := with_procs st (<[p := p_set_files 0 x]> (k_procs st)) in
  (if negb (p_files x =? 0) then upd_proc st p (p_set_files 0) else Some st) = Some st1 /\ kernel_inv st1 q.
Proof using.
  intros K Hx st1. destruct (Z.eqb_spec (p_files x) 0) as [E|E]; cbn [negb].
  - assert (p_set_files 0 x = x) as Ex by (rewrite <- E; by destruct x). unfold st1. rewrite Ex, insert_same by done.
    split; by destruct st.
  - split; [by apply upd_proc_eq|by apply drop_files_inv].
Qed.

Lemma release_resources_ok st q p x :
  kernel_inv st q -> k_procs st !! p = Some x ->
  exists st', release_resources st p = Some st' /\ kernel_inv st' q /\ dropped st p x st'.
Proof using KHL ASL.
  intros K Hx. unfold release_resources. rewrite Hx. cbn [mbind option_bind].
  destruct (clear_files_ok st q p x K Hx) as [-> K1]. cbn [mbind option_bind]. set (st1 := with_procs st _) in *.
  assert (is_Some (k_procs st1 !! p)) as Hp1 by (apply lookup_insert_is_Some'; by left).
  destruct (proj2 (proj2 (ki_dom _ _ K1 p)) Hp1) as [mm Hmm]. unfold get_mm at 1. rewrite Hmm. cbn [mbind option_bind].
  set (st2 := if negb (mm =? 0) then _ else st1).
  assert (kernel_inv st2 q /\ (mm ≠ 0 -> as_live (k_as st2) mm /\ forall r, procs (k_sch st2) !! r ≠ Some mm) /\
    procs (k_sch st2) = <[p := 0]> (procs (k_sch st)) /\ k_heap st2 = k_heap st /\ k_files st2 = k_files st /\
    k_procs st2 = k_procs st1 /\ k_ipc st2 = with_sch (k_ipc st) (k_sch st2) /\ threads (k_sch st2) = threads (k_sch st) /\
    all_threads (k_sch st2) = all_threads (k_sch st) /\ current_thread (k_sch st2) = current_thread (k_sch st) /\
    process_list st2 = process_list st /\ k_pids st2 = k_pids st /\ k_xts st2 = k_xts st /\ k_stacks st2 = k_stacks st /\
    init_process st2 = init_process st) as (K2 & M2 & P2 & H2 & L2 & R2 & I2 & T2 & A2 & C2 & X2).
  { unfold st2. destruct (Z.eqb_spec mm 0) as [->|Hmm0]; cbn [negb].
    - split; [done|]. split; [done|]. split; [symmetry; by apply insert_same|]. do 3 (split; [done|]). split; [by destruct st as [[]]|done].
    - destruct (mm_step st1 q p mm K1 Hp1 Hmm Hmm0) as (K2 & L & U). done. }
  assert (exists st3, (if negb (p_files x =? 0) then process_files_destroy st2 (p_files x) else Some st2) = Some st3 /\
    kernel_inv st3 q /\ st3 = with_files (with_heap st2 (k_heap st3)) (k_files st3) /\
    (p_files x ≠ 0 -> forall n, ~ kh_live (k_heap st3) (p_files x) n)) as (st3 & -> & K3 & E3 & F3).
  { destruct (Z.eqb_spec (p_files x) 0) as [E0|E0]; cbn [negb]; [exists st2; split; [done|]; split; [done|]; split; [by destruct st2|done]|].
    destruct (files_step st q p x K Hx E0) as (_ & L & U). destruct (files_destroy_inv st2 q (p_files x) K2 E0) as (h & E & K3 & Lh).
    - by rewrite H2.
    - intros r y. rewrite R2. apply U.
    - eexists. split; [exact E|]. split; [done|]. split; [done|]. intros _ n. cbn. rewrite Lh. tauto. }
  cbn [mbind option_bind].
  assert (exists st4, (if negb (mm =? 0) then destroy_mm st3 mm else Some st3) = Some st4 /\ kernel_inv st4 q /\
    st4 = with_as st3 (k_as st4) /\ (mm ≠ 0 -> ~ as_live (k_as st4) mm)) as (st4 & -> & K4 & E4 & F4).
  { destruct (Z.eqb_spec mm 0) as [E0|E0]; cbn [negb]; [exists st3; split; [done|]; split; [done|]; split; [by destruct st3|done]|].
    destruct (M2 E0) as [L U]. destruct (destroy_mm_inv st3 q mm K3) as (a & E & K4 & Ka & La).
    - by rewrite E3.
    - rewrite E3. exact U.
    - eexists. split; [exact E|]. split; [done|]. split; [done|]. intros _. cbn. rewrite La. tauto. }
  exists st4. split; [done|]. split; [done|]. assert (k_ipc st4 = k_ipc st2) as Ei by (rewrite E4, E3; done).
  unfold k_sch in *. split; unfold k_sch; rewrite ?Ei; try done.
  - rewrite E4, E3. exact R2.
  - rewrite E4, E3. exact X2.
  - rewrite E4. exact F3.
  - intros m' Hm' Hn. assert (mm = m') as <- by (unfold get_mm, k_sch in *; cbn in Hmm; congruence). by apply F4.
Qed.

End inv.
