(* ===== verification/ProcessLife.v ===== *)
(** * The end of a process: exit, destruction and wait (kernel/proc/process.c) *)
From S2P Require Import Prelude Defs Sched Ipc Endpoint Pid Process ProcessTable ProcessFrame ProcessInv.

Section life.
Context {H A : Type} `{KH : KernelHeap H} {KHL : KernelHeapLaws H} `{AS : AddressSpaces A} {ASL : AddressSpacesLaws A}.
Implicit Types (st : kernel H A) (q : run_queue).

(** ** process_exit *)

(** What a process that has ended leaves. *)
Record exit_result st (p : Z) (x : process) (code : Z) st' (x' : process) : Prop := {
  er_proc : k_procs st' !! p = Some x' /\ zombie st' p x';
  er_code : p_exit_code x' = code /\ p_pid x' = p_pid x /\ p_files x' = 0;
  er_parent : p ∉ p_children x -> p_parent x' = p_parent x;
  er_children : init_process st ≠ 0 -> init_process st ≠ p -> p_children x' = [] /\
    forall c y, c ∈ p_children x -> k_procs st' !! c = Some y -> p_parent y = init_process st;
  er_files : p_files x ≠ 0 -> forall n, ~ kh_live (k_heap st') (p_files x) n;
  er_mm : get_mm st' p = Some 0 /\ forall mm, get_mm st p = Some mm -> mm ≠ 0 -> ~ as_live (k_as st') mm;
  er_owned : exists o, iprocs (k_ipc st') !! p = Some o /\ owned_endpoints o = [];
  er_woken : p_parent x' ≠ 0 -> forall u z, u ≠ current_thread (k_sch st) -> u ∈ all_threads (k_sch st) ->
    unqueued (k_ipc st) u -> threads (k_sch st) !! u = Some z -> wakes z (p_parent x') = true ->
    exists z', threads (k_sch st') !! u = Some z' /\ t_state z' = TASK_RUNNING;
  er_rest : process_list st' = process_list st /\ init_process st' = init_process st;
  er_others : p_children x = [] -> p_children x' = [] /\ forall r, r ≠ p -> k_procs st' !! r = k_procs st !! r;
  er_live : forall u z, u ≠ current_thread (k_sch st) -> threads (k_sch st') !! u = Some z -> t_state z = TASK_ZOMBIE ->
    exists z0, threads (k_sch st) !! u = Some z0 /\ t_state z0 = TASK_ZOMBIE
}.

Lemma process_exit_ok st q code y x ix :
  let t := current_thread (k_sch st) in let p := t_process y in
  kernel_inv st q -> threads (k_sch st) !! t = Some y -> p ≠ 0 -> k_procs st !! p = Some x ->
  settled (k_ipc st) t ix -> (init_process st ≠ 0 -> is_Some (k_procs st !! init_process st)) ->
  exists st' q' x', process_exit 1 st code = Some (Some st') /\ kernel_inv st' q' /\ exit_result st p x code st' x'.
Proof using KHL ASL.
  intros t p K Hy Hp Hx HS Hinit. unfold process_exit. fold t.
  pose proof (si_current _ _ (ii_sched _ _ (ki_ipc _ _ K))) as (Ht0 & _). fold (k_sch st) in Ht0. fold t in Ht0.
  rewrite (proj2 (Z.eqb_neq t 0) Ht0), Hy. cbn [mbind option_bind]. fold p. rewrite (proj2 (Z.eqb_neq p 0) Hp).
  rewrite (upd_proc_eq st p _ x Hx). cbn [mbind option_bind]. set (x1 := p_set_exit_code code x). set (st1 := with_procs st _).
  assert (kernel_inv st1 q) as K1 by by apply (kernel_inv_upd st q p x).
  assert (k_procs st1 !! p = Some x1) as Hx1 by apply lookup_insert_eq.
  destruct (destroy_owned_inv st1 q p K1) as (i & q2 & o & o' & -> & K2 & F2 & _ & Ho' & Eo' & _); [by eexists|].
  cbn [mbind option_bind]. set (st2 := with_ipc st1 i) in *.
  destruct (reparent_children_inv st2 q2 p x1 K2 Hx1) as (m & x3 & -> & K3 & Hx3 & B3 & Ep3 & Ec3 & Par3 & Mv3 & _ & Me3).
  { intros Hn. apply lookup_insert_is_Some'. right. by apply Hinit. }
  cbn [mbind option_bind]. set (st3 := with_procs st2 m) in *.
  destruct (release_resources_ok st3 q2 p x3 K3 Hx3) as (st4 & -> & K4 & D4). cbn [mbind option_bind].
  assert (threads (k_sch st4) = threads (sch i)) as T4 by apply D4.
  assert (current_thread (k_sch st4) = t) as C4.
  { destruct D4 as [_ _ (_ & _ & _ & ->) _ _ _]. exact (proj2 (if_sched _ _ F2)). }
  destruct HS as (S0 & Six & Sun & Sl). assert (settled i t ix) as HSi by by apply (settled_frame (k_ipc st)).
  assert (settled (k_ipc st4) t ix) as HS4 by (rewrite (proj1 (dr_ipc _ _ _ _ D4)); exact HSi).
  destruct (if_unqueued _ _ F2 t Sun) as [_ Et]. change (sch (k_ipc st1)) with (k_sch st) in Et.
  destruct (thread_exit_ok st4 q2 code y (p_set_files 0 x3) ix) as (i5 & s5 & q5 & E5 & K5 & Z5 & EN5 & W5);
    [done|by rewrite C4, T4, Et|done|by rewrite (dr_procs _ _ _ _ D4), lookup_insert_eq|by rewrite C4|].
  fold p in E5, K5, Z5. set (st5 := after_exit st4 i5 s5 p _) in *. exists st5, q5, (exited code (p_set_files 0 x3)).
  split; [exact E5|]. split; [exact K5|]. destruct EN5 as [_ [N2 N3] (_ & _ & N6 & _) _ N10 _ _ _].
  injection B3 as B31 B32 B33 B34 B35.
  split.
  - split; [apply lookup_insert_eq|exact Z5].
  - cbn. split; [done|]. split; [by rewrite Ep3|done].
  - intros Hn. cbn. by rewrite Par3.
  - intros Hi0 Hip. specialize (Mv3 Hi0 Hip). split; [exact (mv_empty _ _ _ _ _ Mv3 x3 Hx3)|]. intros c z Hc Hz.
    cbn [k_procs st5 after_exit with_procs] in Hz. rewrite (dr_procs _ _ _ _ D4), insert_insert_eq in Hz.
    pose proof (mv_kin _ _ _ _ _ Mv3 c) as Kc. destruct (decide (c = p)) as [->|Hcp].
    + rewrite lookup_insert_eq in Hz. injection Hz as <-. cbn. change (k_procs st2 !! p) with (k_procs st1 !! p) in Kc.
      rewrite Hx1, Hx3 in Kc. destruct Kc as [_ ->]. by rewrite decide_True.
    + rewrite lookup_insert_ne in Hz by done. change (k_procs st3) with m in Hz. rewrite Hz in Kc.
      destruct (k_procs st2 !! c); [|done]. destruct Kc as [_ ->]. by rewrite decide_True.
  - intros Hf n. rewrite <- B34 in Hf |- *. exact (dr_files _ _ _ _ D4 Hf n).
  - split.
    + unfold get_mm, k_sch. cbn. rewrite N2, (dr_mm _ _ _ _ D4). apply lookup_insert_eq.
    + intros mm Hmm Hn. apply (dr_space _ _ _ _ D4 mm); [|done]. unfold get_mm, k_sch. cbn.
      by rewrite (sf_procs _ _ (proj1 (if_sched _ _ F2))).
  - exists o'. cbn. rewrite N6, (proj1 (dr_ipc _ _ _ _ D4)). done.
  - cbn. intros Hpar u z Hu Hua Hun Hz Hw. rewrite C4 in W5. destruct (if_unqueued _ _ F2 u Hun) as [_ Eu].
    change (sch (k_ipc st1)) with (k_sch st) in Eu. apply (W5 Hpar u z Hu); [|by rewrite T4, Eu|exact Hw].
    destruct D4 as [_ _ (_ & _ & -> & _) _ _ _]. change (u ∈ all_threads (sch i)). by rewrite (sf_all _ _ (proj1 (if_sched _ _ F2))).
  - destruct (dr_rest _ _ _ _ D4) as (R1 & _ & _ & _ & R2). cbn. by rewrite R1, R2.
  - intros Hch. specialize (Me3 Hch). assert (x3 = x1) as -> by (rewrite Me3 in Hx3; change (k_procs st2) with (k_procs st1) in Hx3; congruence).
    split; [exact Hch|]. intros r Hr. cbn [k_procs st5 after_exit with_procs]. rewrite lookup_insert_ne by done.
    rewrite (dr_procs _ _ _ _ D4), lookup_insert_ne by done. change (k_procs st3) with m. rewrite Me3. cbn. by rewrite lookup_insert_ne.
  - intros u z Hu Hz Sz. rewrite C4 in N10. destruct (N10 u z Hu Hz Sz) as (z0 & Hz0 & Sz0). rewrite T4 in Hz0.
    exact (sf_zombie _ _ (proj1 (if_sched _ _ F2)) u z0 Hz0 Sz0).
Qed.

(** ** process_destroy *)

(** Taking [c] off the list of its parent commutes with everything else that is done to it. *)
Definition orphan (c : Z) st : kernel H A := with_procs st (unlink_sibling c (k_procs st)).

Lemma unlink_insert c m x g :
  m !! c = Some x -> (forall l y, g (p_set_children l y) = p_set_children l (g y)) -> p_children (g x) = p_children x ->
  unlink_sibling c m !! c = Some (p_set_children (without c (p_children x)) x) /\
  <[c := g (p_set_children (without c (p_children x)) x)]> (unlink_sibling c m) = unlink_sibling c (<[c := g x]> m).
Proof using.
  intros Hx Hg Ec. unfold unlink_sibling. split; [by rewrite lookup_fmap, Hx|]. rewrite fmap_insert. by rewrite Ec, Hg.
Qed.

Lemma upd_orphan c st g :
  (forall l y, g (p_set_children l y) = p_set_children l (g y)) -> (forall x, p_children (g x) = p_children x) ->
  upd_proc (orphan c st) c g = option_map (orphan c) (upd_proc st c g).
Proof using.
  intros Hg Ec. unfold upd_proc. change (k_procs (orphan c st)) with (unlink_sibling c (k_procs st)).
  destruct (k_procs st !! c) as [x|] eqn:Ex.
  - destruct (unlink_insert c (k_procs st) x g Ex Hg (Ec x)) as [E1 E2]. rewrite E1. cbn [mbind option_bind option_map].
    rewrite E2. done.
  - unfold unlink_sibling. rewrite lookup_fmap, Ex. done.
Qed.

Lemma orphan_thread st c x : free_main_thread (orphan c st) c x = option_map (orphan c) (free_main_thread st c x).
Proof using.
  unfold free_main_thread. destruct (negb _); [|done]. cbv zeta. set (t := p_main_thread x). set (s := thread_global_remove st t).
  change (thread_global_remove (orphan c st) t) with (orphan c s). change (k_sch (orphan c s)) with (k_sch s).
  destruct (threads (k_sch s) !! t) as [y|]; [|done]. cbn [mbind option_bind]. unfold free_kernel_stack.
  change (k_heap (orphan c s)) with (k_heap s).
  assert (forall s1, (st ← free_thread (orphan c s1) t; upd_proc st c (p_set_main 0)) =
    option_map (orphan c) (st ← free_thread s1 t; upd_proc st c (p_set_main 0))) as Hfree.
  { intros s1. unfold free_thread. change (k_heap (orphan c s1)) with (k_heap s1). destruct (kfree (k_heap s1) t); [|done].
    cbn [mbind option_bind]. match goal with |- _ = option_map _ (upd_proc ?s2 _ _) =>
      exact (upd_orphan c s2 (p_set_main 0) (fun _ _ => eq_refl) (fun _ => eq_refl)) end. }
  destruct (t_kernel_stack y =? 0); cbn [mbind option_bind]; [apply Hfree|].
  destruct (kfree (k_heap s) _) as [h|]; [|done]. cbn [mbind option_bind].
  change (with_stacks (with_heap (orphan c s) h) (drop_words STACK_WORDS (t_kernel_stack y) (k_stacks (orphan c s))))
    with (orphan c (with_stacks (with_heap s h) (drop_words STACK_WORDS (t_kernel_stack y) (k_stacks s)))). apply Hfree.
Qed.

Lemma orphan_files st c x : free_files (orphan c st) c x = option_map (orphan c) (free_files st c x).
Proof using.
  unfold free_files, process_files_destroy. destruct (p_files x =? 0); cbn [negb]; [done|].
  change (k_heap (orphan c st)) with (k_heap st). destruct (kfree (k_heap st) _) as [h|]; [|done]. cbn [mbind option_bind].
  exact (upd_orphan c (with_files (with_heap st h) _) (p_set_files 0) (fun _ _ => eq_refl) (fun _ => eq_refl)).
Qed.

Lemma orphan_mm st c : free_mm (orphan c st) c = option_map (orphan c) (free_mm st c).
Proof using.
  unfold free_mm, destroy_mm. change (get_mm (orphan c st) c) with (get_mm st c). destruct (get_mm st c) as [mm|]; [|done].
  cbn [mbind option_bind]. destruct (negb _); [|done]. change (k_as (orphan c st)) with (k_as st).
  by destruct (as_destroy (k_as st) mm).
Qed.

Lemma orphan_forget st c x : forget_process (orphan c st) c x = option_map (orphan c) (forget_process st c x).
Proof using.
  unfold forget_process, k_free_pid, free_process. cbn [k_pids orphan with_procs with_process_list].
  destruct (free_pid (k_pids st) (p_pid x)) as [s|]; [|done]. cbn [mbind option_bind k_heap with_pids with_process_list with_procs orphan].
  destruct (kfree (k_heap st) c) as [h|]; [|done]. cbn [mbind option_bind option_map]. f_equal. unfold orphan.
  cbn [k_procs with_procs]. unfold unlink_sibling. rewrite fmap_delete. done.
Qed.

Lemma teardown_orphan st c x : process_teardown (orphan c st) c x = option_map (orphan c) (process_teardown st c x).
Proof using.
  unfold process_teardown. rewrite orphan_thread. destruct (free_main_thread st c x) as [s1|]; [|done]. cbn [mbind option_bind option_map].
  rewrite orphan_files. destruct (free_files s1 c x) as [s2|]; [|done]. cbn [mbind option_bind option_map].
  rewrite orphan_mm. destruct (free_mm s2 c) as [s3|]; [|done]. cbn [mbind option_bind option_map]. apply orphan_forget.
Qed.

(** ** Freeing a zombie thread *)

Lemma drop_words_ne n : forall a m k, (forall j, 0 <= j < Z.of_nat n -> k ≠ a + 8 * j) -> drop_words n a m !! k = m !! k.
Proof using.
  induction n as [|n IH]; intros a m k Hk; cbn [drop_words]; [done|]. rewrite IH.
  - apply lookup_delete_ne. intros <-. apply (Hk 0); lia.
  - intros j Hj E. apply (Hk (j + 1)); lia.
Qed.

Lemma sched_inv_forget (s : sched) q t y :
  sched_inv s q -> threads s !! t = Some y -> t_state y = TASK_ZOMBIE -> t ≠ current_thread s ->
  sched_inv (with_threads s (delete t (threads s))) q.
Proof using.
  intros [R W (N & P & Pr) C (I0 & I1 & (xi & Hxi & Si & Pi)) (K0 & K1 & K2)] Hy Sy Hc. split; cbn; try done.
  - destruct W as [W1 W2 W3 W4 W5 W6]. split; try done. intros p l u Hl Hu. destruct (W4 p l u Hl Hu) as (x & Hx & Ep & Sx & Ec).
    exists x. rewrite lookup_delete_ne; [done|]. intros E. congruence.
  - split; [by rewrite lookup_delete_None; right|]. split; intros u x [_ Hx]%lookup_delete_Some; [by eapply P|by eapply Pr].
  - split; [done|]. split; [done|]. exists xi. rewrite lookup_delete_ne; [done|]. intros E. congruence.
  - split; [done|]. split; [done|]. by rewrite lookup_delete_ne.
Qed.

Lemma ipc_inv_forget (i : ipc) q t y :
  ipc_inv i q -> threads (sch i) !! t = Some y -> t_state y = TASK_ZOMBIE -> forgotten i t ->
  ipc_inv (with_sch (with_its i (delete t (its i))) (with_threads (sch i) (delete t (threads (sch i))))) q.
Proof using.
  intros [B1 B2 B3 B4 B5 B6] Hy Sy [F1 F2 F3 F4]. split; cbn; try done.
  - by eapply sched_inv_forget.
  - intros u x [Hu Hx]%lookup_delete_Some. destruct (B2 u x Hx) as [Hi Hp]. by rewrite lookup_delete_ne.
  - intros a e He. destruct (B5 a e He) as [ND HW]. split; [done|]. intros w Hw. destruct (HW w Hw) as (z & Hz & E & Ht & Hm).
    exists z. split; [done|]. split; [done|]. split; [|done]. unfold is_thread in *. cbn. rewrite lookup_delete_ne; [done|].
    intros E'. by apply (F3 a e w z).
  - intros u x [Hu Hx]%lookup_delete_Some. destruct (B6 u x Hx) as [L1 L2]. destruct (F4 u x Hx) as [G1 G2]. unfold is_thread in *. cbn.
    split; intros Hn; rewrite lookup_delete_ne by congruence; auto.
Qed.

Lemma thread_global_remove_id st t : t ∉ all_threads (k_sch st) -> thread_global_remove st t = st.
Proof using.
  intros Ht. unfold thread_global_remove. rewrite (without_id _ _ Ht). by destruct st as [[[]]].
Qed.

(** The state once thread [t], with its stack at [k], is gone. *)
Definition without_thread st (h : H) (t k p : Z) (c : process) : kernel H A :=
  let i := with_its (k_ipc st) (delete t (its (k_ipc st))) in
  let i := with_sch i (with_threads (sch i) (delete t (threads (sch i)))) in
  with_procs (with_xts (with_ipc (with_heap (with_stacks st (drop_words STACK_WORDS k (k_stacks st))) h) i) (delete t (k_xts st)))
    (<[p := p_set_main 0 c]> (k_procs st)).

Lemma other_thread_mem st q h t y u z :
  kernel_inv st q -> threads (k_sch st) !! t = Some y -> threads (k_sch st) !! u = Some z -> u ≠ t ->
  t_process y ≠ 0 -> t_process z ≠ 0 -> thread_mem st t y -> thread_mem st u z ->
  (forall b m, kh_live h b m <-> kh_live (k_heap st) b m /\ b ≠ t_kernel_stack y /\ b ≠ t) ->
  kh_live h u SIZEOF_THREAD /\ kh_live h (t_kernel_stack z) KERNEL_STACK_SIZE /\
  stack_words (drop_words STACK_WORDS (t_kernel_stack y) (k_stacks st)) (t_kernel_stack z).
Proof using KHL.
  intros K Hy Hz Hu Hpy Hpz [M1 _ [M3 M3'] M4 M5] [N1 _ [N3 N3'] N4 N5] Hl. pose proof (ki_heap _ _ K) as Hok.
  assert (t_kernel_stack z ≠ t_kernel_stack y) as Hne.
  { intros E. apply Hu. by apply (ki_stack _ _ K u t z y). }
  split; [|split].
  - apply Hl. split; [done|]. split; [|done]. by eapply (live_ne (k_heap st)).
  - apply Hl. split; [done|]. split; [done|]. by eapply (live_ne (k_heap st)).
  - intros k Hk. rewrite drop_words_ne; [by apply N5|]. intros j Hj E.
    destruct (kh_apart _ _ _ _ _ Hok M3' N3') as [E'|[E'|E']]; [congruence|..];
      change (Z.of_nat STACK_WORDS) with 1024 in Hj; change (KERNEL_STACK_SIZE / 8) with 1024 in Hk;
      change KERNEL_STACK_SIZE with 8192 in E'; cbn [fst snd] in E'; lia.
Qed.

Lemma without_thread_inv st q h p c y :
  kernel_inv st q -> k_procs st !! p = Some c -> has_thread st p c y -> p_threads c = [] -> p_nr_threads c = 0 ->
  t_state y = TASK_ZOMBIE -> forgotten (k_ipc st) (p_main_thread c) -> kh_ok h ->
  (forall b m, kh_live h b m <-> kh_live (k_heap st) b m /\ b ≠ t_kernel_stack y /\ b ≠ p_main_thread c) ->
  kernel_inv (without_thread st h (p_main_thread c) (t_kernel_stack y) p c) q.
Proof using KHL.
  intros K Hc HT Et En Sy F Hok Hl. pose proof K as [K1 K2 K3 K4 K5 K6 K7 K8 K9 K10 K11 K12 K13 K14 K15].
  set (t := p_main_thread c) in *. set (st' := without_thread st h t (t_kernel_stack y) p c).
  pose proof HT as (H0 & Hy & Ep & M). fold t in H0, Hy, M.
  assert (p ≠ 0) as Hp0 by (intros ->; rewrite (ti_null _ _ _ K1) in Hc; done).
  assert (forall a n, kh_live (k_heap st) a n -> n = SIZEOF_PROCESS \/ n = SIZEOF_FILES -> kh_live h a n) as Hkeep.
  { intros a n Ha Hn. destruct M as [M1 _ [_ M3'] _ _]. apply Hl. split; [done|].
    split; (eapply (live_ne (k_heap st)); [done|done|eassumption|by destruct Hn as [->| ->]..]). }
  split; try done.
  - eapply table_same; [exact K1|]. by eapply same_nodes_upd.
  - by apply (ipc_inv_forget (k_ipc st) q t y).
  - destruct K3. by split.
  - intros r. change (k_procs st') with (<[p := p_set_main 0 c]> (k_procs st)).
    rewrite (same_nodes_dom (k_procs st)) by by eapply same_nodes_upd. apply K6.
  - intros r z Hz. change (k_procs st') with (<[p := p_set_main 0 c]> (k_procs st)) in Hz.
    apply lookup_insert_Some in Hz as [[<- <-]|[Hr Hz]].
    + destruct (K7 p c Hc) as [[M1 M2 M3] _]. split; [|left; done]. split; [by apply Hkeep; [|left]|done|].
      intros Hf. destruct (M3 Hf) as [L S]. split; [by apply Hkeep; [|right]|done].
    + destruct (K7 r z Hz) as [[M1 M2 M3] T]. split.
      { split; [by apply Hkeep; [|left]|done|]. intros Hf. destruct (M3 Hf) as [L S]. split; [by apply Hkeep; [|right]|done]. }
      assert (r ≠ 0) as Hr0 by (intros ->; rewrite (ti_null _ _ _ K1) in Hz; done).
      assert (p_main_thread z ≠ 0 -> exists w, has_thread st r z w) as HW.
      { destruct T as [(? & _)|[(w & ? & _)|(w & ? & _)]]; [done|by exists w..]. }
      apply (thread_ok_kept st st' r z z); [done|done|]. intros Hn. destruct (HW Hn) as (w & _ & Hw & Er & Mw).
      assert (p_main_thread z ≠ t) as Hzt by (intros E; rewrite E in Hw; congruence).
      assert (threads (k_sch st') !! p_main_thread z = threads (k_sch st) !! p_main_thread z) as Ez by by apply lookup_delete_ne.
      split; rewrite ?Ez; [done|by eauto|done| |].
      * intros w' Hw' Mw'. assert (w' = w) as -> by congruence.
        destruct (other_thread_mem st q h t y (p_main_thread z) w K Hy Hw Hzt) as (O1 & O2 & O3);
          [by rewrite Ep|by rewrite Er|done|done|done|].
        destruct Mw as [P1 [px P2] [P3 P3'] P4 P5]. split; [done| |done|done|done].
        exists px. by apply lookup_delete_Some.
      * intros w' Hw' Sw [G1 G2 G3 G4]. split; [|by eauto]. split; [done|done|done|]. intros u v Hv.
        change (its (k_ipc st')) with (delete t (its (k_ipc st))) in Hv. apply lookup_delete_Some in Hv as [_ Hv]. by apply (G4 u v).
  - intros r r' z z'. change (k_procs st') with (<[p := p_set_main 0 c]> (k_procs st)). rewrite !lookup_insert_Some.
    intros [[<- <-]|[Hr Hz]] [[<- <-]|[Hr' Hz']]; [done| | |by eapply K8].
    + intros Hn Ef. exact (K8 p r' c z' Hc Hz' Hn Ef).
    + intros Hn Ef. exact (K8 r p z c Hz Hc Hn Ef).
  - change (threads (k_sch st')) with (delete t (threads (k_sch st))). intros u z [Hu Hz]%lookup_delete_Some Hn.
    destruct (K12 u z Hz Hn) as (x0 & Hx0 & Em). change (k_procs st') with (<[p := p_set_main 0 c]> (k_procs st)). exists x0. split; [|done]. rewrite lookup_insert_ne; [done|].
    intros E. rewrite <- E in Hx0. assert (x0 = c) as -> by congruence. done.
  - change (threads (k_sch st')) with (delete t (threads (k_sch st))).
    intros u v w z [_ Hw]%lookup_delete_Some [_ Hz]%lookup_delete_Some. by eapply K13.
  - change (threads (k_sch st')) with (delete t (threads (k_sch st))).
    intros u Hu. destruct (K14 u Hu) as [z Hz]. exists z. apply lookup_delete_Some. split; [|done]. intros <-. by destruct F.
  - change (threads (k_sch st')) with (delete t (threads (k_sch st))). intros u [z [Hu Hz]%lookup_delete_Some].
    assert (kh_live (k_heap st) u SIZEOF_THREAD) as Lu by (apply K15; by eexists). apply Hl. split; [done|]. split; [|done].
    destruct M as [_ _ [_ M3'] _ _]. by eapply (live_ne (k_heap st)).
Qed.

(** Exactly the objects at [l] were freed. *)
Definition freed (h h' : H) (l : list Z) : Prop := forall b m, kh_live h' b m <-> kh_live h b m /\ b ∉ l.

Lemma nothing_freed h : freed h h [].
Proof using. intros b m. rewrite elem_of_nil. tauto. Qed.

Lemma freed_trans h1 h2 h3 l1 l2 : freed h1 h2 l1 -> freed h2 h3 l2 -> freed h1 h3 (l1 ++ l2).
Proof using. intros F1 F2 b m. rewrite (F2 b m), (F1 b m), elem_of_app. tauto. Qed.

(** What the steps of the destruction of process [p] leave alone. *)
Record step_rest st st' : Prop := {
  sr_ipc : iprocs (k_ipc st') = iprocs (k_ipc st) /\ eps (k_ipc st') = eps (k_ipc st) /\
    endpoint_list (k_ipc st') = endpoint_list (k_ipc st);
  sr_list : process_list st' = process_list st /\ k_pids st' = k_pids st /\ init_process st' = init_process st;
  sr_sched : current_thread (k_sch st') = current_thread (k_sch st)
}.

Lemma step_rest_trans st1 st2 st3 : step_rest st1 st2 -> step_rest st2 st3 -> step_rest st1 st3.
Proof using.
  intros [(A1 & A2 & A3) (A4 & A5 & A6) A7] [(B1 & B2 & B3) (B4 & B5 & B6) B7]. split; split_and?; congruence.
Qed.

Lemma step_rest_refl st : step_rest st st.
Proof using. by split. Qed.

(** The objects of a thread: none, or the stack and the structure. *)
Definition thread_objects st (c : process) : list Z :=
  match threads (k_sch st) !! p_main_thread c with
  | Some y => [t_kernel_stack y; p_main_thread c]
  | None => []
  end.

Lemma no_thread_null st q c : kernel_inv st q -> p_main_thread c = 0 -> threads (k_sch st) !! p_main_thread c = None.
Proof using. intros K ->. exact (proj1 (si_threads _ _ (ii_sched _ _ (ki_ipc _ _ K)))). Qed.

Lemma free_main_thread_ok st q p c :
  kernel_inv st q -> k_procs st !! p = Some c -> no_thread c \/ zombie st p c ->
  exists st', free_main_thread st p c = Some st' /\ kernel_inv st' q /\ step_rest st st' /\
    k_procs st' = <[p := p_set_main 0 c]> (k_procs st) /\ procs (k_sch st') = procs (k_sch st) /\ k_as st' = k_as st /\
    freed (k_heap st) (k_heap st') (thread_objects st c) /\
    (forall t, t ≠ p_main_thread c -> threads (k_sch st') !! t = threads (k_sch st) !! t).
Proof using KHL.
  intros K Hc [(N1 & N2 & N3)|(y & HT & Z1 & Z2 & Z3 & F)].
  - unfold free_main_thread. rewrite N1. cbn. exists st. split; [done|]. split; [done|]. split; [apply step_rest_refl|].
    split; [symmetry; apply insert_same; rewrite Hc; f_equal; rewrite <- N1; by destruct c|]. split; [done|]. split; [done|].
    split; [|done]. unfold thread_objects. rewrite (no_thread_null st q c K N1). apply nothing_freed.
  - pose proof HT as (H0 & Hy & Ep & [M1 _ [M3 M3'] _ _]). set (t := p_main_thread c) in *. pose proof (ki_heap _ _ K) as Hok.
    destruct (kfree_law (k_heap st) (t_kernel_stack y) KERNEL_STACK_SIZE Hok M3') as (h1 & E1 & Hok1 & L1).
    assert (kh_live h1 t SIZEOF_THREAD) as M1'. { apply L1. split; [done|]. by eapply (live_ne (k_heap st)). }
    destruct (kfree_law h1 t SIZEOF_THREAD Hok1 M1') as (h2 & E2 & Hok2 & L2).
    assert (forall b m, kh_live h2 b m <-> kh_live (k_heap st) b m /\ b ≠ t_kernel_stack y /\ b ≠ t) as L.
    { intros b m. rewrite L2, L1. tauto. }
    exists (without_thread st h2 t (t_kernel_stack y) p c). split; [|split; [by apply without_thread_inv|]].
    + unfold free_main_thread. fold t. rewrite (proj2 (Z.eqb_neq t 0) H0). cbn [negb]. cbv zeta.
      rewrite (thread_global_remove_id st t) by apply F. rewrite Hy. cbn [mbind option_bind]. unfold free_kernel_stack.
      rewrite (proj2 (Z.eqb_neq _ 0) M3), E1. cbn [mbind option_bind]. unfold free_thread. cbn [k_heap with_stacks with_heap].
      rewrite E2. cbn [mbind option_bind]. erewrite upd_proc_eq by exact Hc. clear. by destruct st as [[[]]].
    + split; [done|]. split; [done|]. split; [done|]. split; [done|]. split.
      * intros b m. cbn. rewrite L. unfold thread_objects. fold t. rewrite Hy. rewrite !not_elem_of_cons, elem_of_nil. tauto.
      * intros u Hu. apply lookup_delete_ne. congruence.
Qed.

Definition file_objects (c : process) : list Z := if p_files c =? 0 then [] else [p_files c].

Lemma free_files_ok st q p c x :
  kernel_inv st q -> k_procs st !! p = Some c -> p_files x = p_files c ->
  exists st', free_files st p x = Some st' /\ kernel_inv st' q /\ step_rest st st' /\
    k_procs st' = <[p := p_set_files 0 c]> (k_procs st) /\ k_sch st' = k_sch st /\ k_as st' = k_as st /\
    freed (k_heap st) (k_heap st') (file_objects c).
Proof using KHL.
  intros K Hc Ef. unfold free_files, file_objects. rewrite Ef. destruct (Z.eqb_spec (p_files c) 0) as [E0|E0]; cbn [negb].
  - exists st. split; [done|]. split; [done|]. split; [apply step_rest_refl|].
    split; [symmetry; apply insert_same; rewrite Hc; f_equal; rewrite <- E0; by destruct c|]. split; [done|]. split; [done|apply nothing_freed].
  - destruct (files_step st q p c K Hc E0) as (K1 & L & U). set (st1 := with_procs st _) in *.
    destruct (files_destroy_inv st1 q (p_files c) K1 E0 L U) as (h & E & K2 & Lh).
    exists (with_files (with_heap st1 h) (delete (p_files c) (k_files st1))). split; [|split; [done|]].
    + revert E. unfold process_files_destroy. rewrite (proj2 (Z.eqb_neq _ 0) E0). change (k_heap st1) with (k_heap st).
      destruct (kfree (k_heap st) (p_files c)) as [h'|]; [|done]. cbn [mbind option_bind]. intros [= ->].
      erewrite upd_proc_eq by exact Hc. done.
    + split; [done|]. split; [done|]. split; [done|]. split; [done|]. intros b m. cbn. rewrite Lh, not_elem_of_cons, elem_of_nil. tauto.
Qed.

Lemma free_mm_ok st q p :
  kernel_inv st q -> is_Some (k_procs st !! p) ->
  exists st' mm, free_mm st p = Some st' /\ kernel_inv st' q /\ step_rest st st' /\ get_mm st p = Some mm /\
    k_procs st' = k_procs st /\ procs (k_sch st') = <[p := 0]> (procs (k_sch st)) /\ threads (k_sch st') = threads (k_sch st) /\
    k_heap st' = k_heap st /\ spaces_kept (k_as st) (k_as st') /\
    (forall b, as_live (k_as st') b <-> as_live (k_as st) b /\ (mm ≠ 0 -> b ≠ mm)).
Proof using ASL.
  intros K Hp. destruct (proj2 (proj2 (ki_dom _ _ K p)) Hp) as [mm Hmm]. unfold free_mm, get_mm. rewrite Hmm. cbn [mbind option_bind].
  destruct (Z.eqb_spec mm 0) as [->|E0]; cbn [negb].
  - exists st, 0. split; [done|]. split; [done|]. split; [apply step_rest_refl|]. split; [done|]. split; [done|].
    split; [symmetry; by apply insert_same|]. split; [done|]. split; [done|]. split; [done|]. intros b. tauto.
  - destruct (ki_mm _ _ K p mm Hmm E0) as [L U]. pose proof (set_mm_inv st q p K Hp) as K1.
    destruct (destroy_mm_inv (set_mm st p 0) q mm K1 L) as (a & E & K2 & Ka & La).
    { intros r Hr. unfold k_sch in Hr. cbn in Hr. apply lookup_insert_Some in Hr as [[_ E]|[Hr Hr']]; [congruence|]. apply Hr. by apply U. }
    exists (with_as (set_mm st p 0) a), mm. split; [|split; [done|]].
    + revert E. unfold destroy_mm. change (k_as (set_mm st p 0)) with (k_as st). destruct (as_destroy (k_as st) mm) as [a'|]; [|done].
      cbn [mbind option_bind]. intros [= ->]. done.
    + do 6 (split; [done|]). split; [exact Ka|]. intros b. cbn. rewrite La.
      change (k_as (set_mm st p 0)) with (k_as st). tauto.
Qed.

(** The process itself goes. *)
Definition without_process st (h : H) (s : pids) (p : Z) : kernel H A :=
  let i := with_iprocs (k_ipc st) (delete p (iprocs (k_ipc st))) in
  let i := with_sch i (sched_procs (sch i) (delete p (procs (sch i)))) in
  with_procs (with_ipc (with_heap (with_pids (with_process_list st (without p (process_list st))) s) h) i)
    (unlink_sibling p (delete p (k_procs st))).

(** A process that owns nothing any more. *)
Record bare st (p : Z) (c : process) : Prop := {
  ba_proc : k_procs st !! p = Some c;
  ba_thread : no_thread c;
  ba_files : p_files c = 0;
  ba_children : p_children c = [];
  ba_owned : exists o, iprocs (k_ipc st) !! p = Some o /\ owned_endpoints o = []
}.

Lemma bare_no_thread st q p c t y :
  kernel_inv st q -> bare st p c -> threads (k_sch st) !! t = Some y -> t_process y ≠ 0 -> t_process y ≠ p.
Proof using.
  intros K [Hc (N & _) _ _ _] Hy Hn E. destruct (ki_owner _ _ K t y Hy Hn) as (x & Hx & Em). rewrite E in Hx.
  assert (x = c) as -> by congruence. rewrite <- Em, (no_thread_null st q c K N) in Hy. done.
Qed.

Lemma ipc_inv_remove (i : ipc) q p :
  ipc_inv i q -> (forall t y, threads (sch i) !! t = Some y -> t_process y ≠ 0 -> t_process y ≠ p) ->
  ipc_inv (with_sch (with_iprocs i (delete p (iprocs i))) (sched_procs (sch i) (delete p (procs (sch i))))) q.
Proof using.
  intros [B1 B2 B3 B4 B5 B6] Hno. split; cbn; try done.
  - apply sched_inv_procs; [done|]. intros t y Hy Hn. rewrite lookup_delete_ne by (intros E; by apply (Hno t y Hy Hn)).
    by apply (si_threads _ _ B1) with t.
  - intros t y Hy. destruct (B2 t y Hy) as [Hi Hp]. split; [done|]. intros Hn. cbn.
    rewrite lookup_delete_ne by (intros E; by apply (Hno t y Hy Hn)). by apply Hp.
  - intros r z Hz. cbn [iprocs with_sch with_iprocs] in Hz. apply lookup_delete_Some in Hz as [_ Hz]. by eapply B3.
Qed.

Lemma removed_unlink p m : removed p m (unlink_sibling p (delete p m)).
Proof using.
  unfold unlink_sibling. split; [by rewrite lookup_fmap, lookup_delete_eq|]. intros r Hr.
  rewrite lookup_fmap, lookup_delete_ne by done. by destruct (m !! r).
Qed.

Lemma without_process_inv st q p c h s :
  kernel_inv st q -> bare st p c -> kh_ok h -> (forall b m, kh_live h b m <-> kh_live (k_heap st) b m /\ b ≠ p) ->
  pids_inv s -> (forall j, 0 <= j -> pid_used s j = if decide (j = p_pid c) then false else pid_used (k_pids st) j) ->
  kernel_inv (without_process st h s p) q.
Proof using KHL.
  intros K Hb Hok Hl Hs Hu. pose proof K as [K1 K2 K3 K4 K5 K6 K7 K8 K9 K10 K11 K12 K13 K14 K15].
  pose proof Hb as [Hc N Hf Hch (o & Ho & Eo)]. set (st' := without_process st h s p). set (m := unlink_sibling p (delete p (k_procs st))).
  assert (forall r z, m !! r = Some z -> r ≠ p /\ exists z0, k_procs st !! r = Some z0 /\ body z = body z0) as Hlook.
  { intros r z. unfold m, unlink_sibling. rewrite lookup_fmap. destruct (delete p (k_procs st) !! r) as [z0|] eqn:E; [|done].
    intros [= <-]. apply lookup_delete_Some in E as [Hr E]. split; [done|]. by exists z0. }
  assert (forall r, is_Some (m !! r) <-> is_Some (k_procs st !! r) /\ r ≠ p) as Hdom.
  { intros r. unfold m, unlink_sibling. rewrite lookup_fmap, fmap_is_Some, lookup_delete_is_Some. naive_solver. }
  assert (kh_live (k_heap st) p SIZEOF_PROCESS) as Hpl by apply (K7 p c Hc).
  assert (forall a n, kh_live (k_heap st) a n -> 0 < n -> n ≠ SIZEOF_PROCESS -> kh_live h a n) as Hkeep.
  { intros a n Ha Hn Hne. apply Hl. split; [done|]. by eapply (live_ne (k_heap st)). }
  split; try done.
  - eapply table_remove; [exact K1|exact Hc|done|apply removed_unlink|done|exact Hu].
  - apply (ipc_inv_remove (k_ipc st) q p K2). intros t y. exact (bare_no_thread st q p c t y K Hb).
  - destruct K3 as [E1 E2 E3 E4 E5 E6]. split; try done. intros a Ha. destruct (E3 a Ha) as (e & He & Hr & Hpo).
    exists e. split; [done|]. split; [done|]. intros Hal Hn. cbn. rewrite lookup_delete_ne; [by apply Hpo|].
    intros E. destruct (K11 a e He Hal Hn) as (o' & Ho' & Hin). rewrite <- E, Ho in Ho'. injection Ho' as <-. rewrite Eo in Hin.
    by apply not_elem_of_nil in Hin.
  - intros r. change (k_procs st') with m. rewrite Hdom. unfold k_sch. cbn. rewrite !lookup_delete_is_Some.
    destruct (K6 r) as [D1 D2]. unfold k_sch in D2. rewrite D1, D2. naive_solver.
  - intros r z Hz. destruct (Hlook r z Hz) as (Hr & z0 & Hz0 & Eb). destruct (K7 r z0 Hz0) as [[M1 M2 M3] T]. split.
    + apply (proc_mem_kept st st' r z0 z); [done|done|by apply Hl|]. intros Hn. destruct (M3 Hn) as [L S]. split; [by apply Hkeep|done].
    + apply (thread_ok_kept st st' r z0 z); [done|done|]. intros Hn. split; [done|by eauto|done| |].
      * intros w _ [P1 P2 [P3 P3'] P4 P5]. split; [by apply Hkeep|done|split; [done|by apply Hkeep]|done|done].
      * intros w Hw Sw [G1 G2 G3 G4]. split; [by split|by eauto].
  - intros r r' z z' Hz Hz'. destruct (Hlook r z Hz) as (_ & z0 & Hz0 & [= _ _ _ -> _]).
    destruct (Hlook r' z' Hz') as (_ & z0' & Hz0' & [= _ _ _ -> _]). by apply (K8 r r' z0 z0').
  - unfold k_sch. cbn. intros r mm [_ Hmm]%lookup_delete_Some Hn. destruct (K9 r mm Hmm Hn) as [L U]. split; [done|].
    intros r' [_ Hmm']%lookup_delete_Some. by apply U.
  - cbn. intros r z [Hr Hz]%lookup_delete_Some. destruct (K10 r z Hz) as (_ & ND & Ho'). split; [|done].
    cbn. by apply lookup_delete_Some.
  - cbn. intros a e He Hal Hn. destruct (K11 a e He Hal Hn) as (o' & Ho' & Hin). exists o'. split; [|done]. apply lookup_delete_Some.
    split; [|done]. intros E. rewrite <- E, Ho in Ho'. injection Ho' as <-. rewrite Eo in Hin. by apply not_elem_of_nil in Hin.
  - intros t y Hy Hn. destruct (K12 t y Hy Hn) as (x & Hx & Em). pose proof (bare_no_thread st q p c t y K Hb Hy Hn) as Hp.
    destruct (proj2 (Hdom (t_process y))) as [x' Hx']; [split; [by eexists|done]|]. exists x'. split; [done|].
    destruct (Hlook _ _ Hx') as (_ & x0 & Hx0 & [= _ _ -> _ _]). congruence.
  - intros t Ht. apply Hkeep; [by apply K15|done|done].
Qed.

(** What the destruction of process [p], with the fields [c], comes to. *)
Record reaped st (p : Z) (c : process) st' : Prop := {
  re_procs : forall r, k_procs st' !! r =
    if decide (r = p) then None else (fun x => p_set_children (without p (p_children x)) x) <$> k_procs st !! r;
  re_list : process_list st' = without p (process_list st) /\ init_process st' = init_process st;
  re_pid : forall j, 0 <= j -> pid_used (k_pids st') j = if decide (j = p_pid c) then false else pid_used (k_pids st) j;
  re_heap : freed (k_heap st) (k_heap st') (thread_objects st c ++ file_objects c ++ [p]);
  re_as : exists mm, get_mm st p = Some mm /\ get_mm st' p = None /\ spaces_kept (k_as st) (k_as st') /\
    forall b, as_live (k_as st') b <-> as_live (k_as st) b /\ (mm ≠ 0 -> b ≠ mm);
  re_current : current_thread (k_sch st') = current_thread (k_sch st);
  re_iproc : iprocs (k_ipc st') !! p = None
}.

Lemma forget_process_ok st q p c x :
  kernel_inv st q -> bare st p c -> p_pid x = p_pid c ->
  exists h s, option_map (orphan p) (forget_process st p x) = Some (without_process st h s p) /\
    kernel_inv (without_process st h s p) q /\ freed (k_heap st) h [p] /\
    forall j, 0 <= j -> pid_used s j = if decide (j = p_pid c) then false else pid_used (k_pids st) j.
Proof using KHL.
  intros K Hb Ex. pose proof (ba_proc _ _ _ Hb) as Hc. pose proof (ki_table _ _ K) as T.
  destruct (free_pid_ok (k_pids st) (p_pid c) (ti_pids _ _ _ T) (ti_pid _ _ _ T p c Hc)) as (s & Es & HI & _ & Hu).
  destruct (kfree_law (k_heap st) p SIZEOF_PROCESS (ki_heap _ _ K)) as (h & Eh & Hok & L); [apply (ki_proc _ _ K p c Hc)|].
  exists h, s. unfold forget_process, k_free_pid, free_process. cbn [k_pids with_process_list]. rewrite Ex, Es.
  cbn [mbind option_bind k_heap with_pids with_process_list]. rewrite Eh. cbn [mbind option_bind option_map].
  split; [done|]. split; [by eapply without_process_inv|]. split; [|done]. intros b m. rewrite L, not_elem_of_cons, elem_of_nil. tauto.
Qed.

Lemma teardown_ok st q p c :
  kernel_inv st q -> k_procs st !! p = Some c -> no_thread c \/ zombie st p c -> p_children c = [] ->
  (exists o, iprocs (k_ipc st) !! p = Some o /\ owned_endpoints o = []) ->
  exists st', process_teardown (orphan p st) p c = Some st' /\ kernel_inv st' q /\ reaped st p c st'.
Proof using KHL ASL.
  intros K Hc Hz Hch Ho. rewrite teardown_orphan. unfold process_teardown.
  destruct (free_main_thread_ok st q p c K Hc Hz) as (s1 & -> & K1 & R1 & P1 & M1 & A1 & F1 & _). cbn [mbind option_bind].
  assert (k_procs s1 !! p = Some (p_set_main 0 c)) as Hc1 by (rewrite P1; apply lookup_insert_eq).
  destruct (free_files_ok s1 q p _ c K1 Hc1 eq_refl) as (s2 & -> & K2 & R2 & P2 & M2 & A2 & F2). cbn [mbind option_bind].
  rewrite P1, insert_insert_eq in P2. set (c2 := p_set_files 0 (p_set_main 0 c)) in P2.
  assert (k_procs s2 !! p = Some c2) as Hc2 by (rewrite P2; apply lookup_insert_eq).
  destruct (free_mm_ok s2 q p K2) as (s3 & mm & -> & K3 & R3 & Emm & P3 & M3 & T3 & H3 & KS & L3); [by eexists|]. cbn [mbind option_bind].
  pose proof (step_rest_trans _ _ _ (step_rest_trans _ _ _ R1 R2) R3) as [(S1 & S2 & S3) (S4 & S5 & S6) S7].
  assert (bare s3 p c2) as Hb.
  { split; [by rewrite P3|split; [done|]|done|done|by rewrite S1]. cbn.
    destruct Hz as [(_ & ? & ?)|(y & _ & ? & ? & _)]; done. }
  destruct (forget_process_ok s3 q p c2 c K3 Hb eq_refl) as (h & s & E & K4 & F4 & U4). rewrite E. eexists. split; [done|]. split; [done|].
  split.
  - intros r. cbn. unfold unlink_sibling. rewrite lookup_fmap, P3, P2. case_decide as Er; [subst r; by rewrite lookup_delete_eq|].
    rewrite lookup_delete_ne, lookup_insert_ne by done. done.
  - cbn. by rewrite S4, S6.
  - intros j Hj. cbn. rewrite U4, S5 by done. done.
  - cbn. change (file_objects c) with (file_objects (p_set_main 0 c)). eapply freed_trans; [exact F1|].
    eapply freed_trans; [exact F2|]. by rewrite <- H3.
  - exists mm. split; [unfold get_mm in *; by rewrite <- M1, <- M2|]. split; [unfold get_mm, k_sch; cbn; apply lookup_delete_eq|].
    cbn. rewrite <- A1, <- A2. split; [exact KS|]. exact L3.
  - cbn. exact S7.
  - cbn. apply lookup_delete_eq.
Qed.

Lemma sibling_linked_spec c m : sibling_linked c m = true <-> exists p x, m !! p = Some x /\ c ∈ p_children x.
Proof using.
  unfold sibling_linked. rewrite existsb_exists. split.
  - intros ([p x] & Hin & Hc%bool_decide_eq_true). exists p, x. split; [|done]. apply elem_of_map_to_list. by apply list_elem_of_In.
  - intros (p & x & Hx & Hc). exists (p, x). split; [|by apply bool_decide_eq_true]. apply list_elem_of_In. by apply elem_of_map_to_list.
Qed.

Lemma unlink_id c m : sibling_linked c m = false -> unlink_sibling c m = m.
Proof using.
  intros E. apply map_eq. intros p. unfold unlink_sibling. rewrite lookup_fmap. destruct (m !! p) as [x|] eqn:Ex; [|done].
  simpl. rewrite without_id; [by destruct x|]. intros Hc.
  assert (sibling_linked c m = true) by (apply sibling_linked_spec; by exists p, x). congruence.
Qed.

(** The step that takes a process off the tree always amounts to [orphan]. *)
Lemma off_the_tree st q p c :
  kernel_inv st q -> k_procs st !! p = Some c ->
  (if negb (p_parent c =? 0) && sibling_linked p (k_procs st) then
     _ ← k_procs st !! p_parent c; Some (with_procs st (unlink_sibling p (k_procs st)))
   else Some st) = Some (orphan p st).
Proof using.
  intros K Hc. destruct (sibling_linked p (k_procs st)) eqn:El.
  - apply sibling_linked_spec in El as (r & x & Hx & Hin). apply (ti_tree _ _ _ (ki_table _ _ K) r x Hx) in Hin as (c' & Hc' & Er).
    assert (c' = c) as -> by congruence. assert (r ≠ 0) as Hr by (intros ->; rewrite (ti_null _ _ _ (ki_table _ _ K)) in Hx; done).
    rewrite Er, (proj2 (Z.eqb_neq r 0) Hr), Hx. done.
  - rewrite andb_false_r. unfold orphan. rewrite unlink_id by done. by destruct st.
Qed.

Lemma thread_objects_static st st' c :
  (forall t, static <$> threads (k_sch st') !! t = static <$> threads (k_sch st) !! t) -> thread_objects st' c = thread_objects st c.
Proof using.
  intros S. unfold thread_objects. specialize (S (p_main_thread c)).
  destruct (threads (k_sch st') !! _), (threads (k_sch st) !! _); try done. injection S as _ _ E _. by rewrite E.
Qed.

(** A zombie stays one when endpoints are destroyed. *)
Lemma zombie_again st st' q p c :
  kernel_inv st' q -> k_procs st' !! p = Some c -> no_thread c \/ zombie st p c -> no_thread c \/ zombie st' p c.
Proof using.
  intros K Hc [N|(y & (H0 & _) & Z1 & _)]; [by left|]. destruct (ki_proc _ _ K p c Hc) as [_ [N|[(z & _ & L & _)|Z]]]; [by left| |by right].
  rewrite Z1 in L. done.
Qed.

Lemma process_destroy_ok st q p c :
  kernel_inv st q -> k_procs st !! p = Some c -> no_thread c \/ zombie st p c -> p_children c = [] ->
  exists st' q', process_destroy st p = Some st' /\ process_destroy (orphan p st) p = Some st' /\
    kernel_inv st' q' /\ reaped st p c st'.
Proof using KHL ASL.
  intros K Hc Hz Hch. assert (p ≠ 0) as Hp0 by (intros ->; rewrite (ti_null _ _ _ (ki_table _ _ K)) in Hc; done).
  destruct (destroy_owned_inv st q p K) as (i & q1 & o & o' & E1 & K1 & F & Ho & Ho' & Eo' & _); [by eexists|].
  set (st1 := with_ipc st i) in *.
  destruct (teardown_ok st1 q1 p c K1 Hc (zombie_again st st1 q1 p c K1 Hc Hz) Hch) as (st' & E & K' & R); [by exists o'|].
  exists st', q1. unfold process_destroy. rewrite (proj2 (Z.eqb_neq p 0) Hp0). split; [|split; [|split; [done|]]].
  - rewrite E1. cbn [mbind option_bind]. change (k_procs st1) with (k_procs st). rewrite Hc. cbn [mbind option_bind].
    change (k_procs st) with (k_procs st1). rewrite (off_the_tree st1 q1 p c K1 Hc). exact E.
  - assert (destroy_owned (orphan p st) p = Some (orphan p st1)) as ->.
    { revert E1. unfold destroy_owned. change (k_ipc (orphan p st)) with (k_ipc st).
      destruct (ipc_destroy_owned_by_process (k_ipc st) p) as [i'|]; [|done]. cbn [mbind option_bind].
      by intros [= ->]. }
    cbn [mbind option_bind]. change (k_procs (orphan p st1)) with (unlink_sibling p (k_procs st)).
    assert (unlink_sibling p (k_procs st) !! p = Some c) as ->.
    { unfold unlink_sibling. rewrite lookup_fmap, Hc. simpl. rewrite Hch. cbn. f_equal. rewrite <- Hch. by destruct c. }
    cbn [mbind option_bind]. assert (sibling_linked p (unlink_sibling p (k_procs st)) = false) as ->.
    { destruct (sibling_linked p _) eqn:El; [|done]. apply sibling_linked_spec in El as (r & x & Hx & Hin). revert Hx.
      unfold unlink_sibling. rewrite lookup_fmap. destruct (k_procs st !! r); [|done]. intros [= <-]. cbn in Hin.
      apply elem_of_without in Hin. tauto. }
    rewrite andb_false_r. exact E.
  - destruct R as [R1 R2 R3 R4 (mm & R5 & R5') R6 R7]. destruct F as [[[F1 F2 F3 F4] F5] _ _ _].
    split; [done|done|done| | | |done].
    + by rewrite <- (thread_objects_static st st1 c).
    + exists mm. split; [|done]. unfold get_mm, k_sch in *. cbn in R5. by rewrite <- F1.
    + rewrite R6. exact F5.
Qed.

(** ** process_wait *)

Definition is_zombie st (c : Z) : bool :=
  match k_procs st !! c with
  | Some x => match threads (k_sch st) !! p_main_thread x with
              | Some y => bool_decide (t_state y = TASK_ZOMBIE)
              | None => false
              end
  | None => false
  end.

(** The first zombie among the children. *)
Lemma find_zombie_ok st q l :
  kernel_inv st q -> (forall c, c ∈ l -> is_Some (k_procs st !! c)) ->
  (find_zombie st l = Some None /\ forall c, c ∈ l -> is_zombie st c = false) \/
  exists c l1 l2, find_zombie st l = Some (Some c) /\ l = l1 ++ c :: l2 /\ is_zombie st c = true /\
    forall d, d ∈ l1 -> is_zombie st d = false.
Proof using.
  intros K. induction l as [|c l IH]; intros Hl; cbn [find_zombie].
  { left. split; [done|]. by intros c ?%not_elem_of_nil. }
  destruct (Hl c) as [x Hx]; [by left|]. rewrite Hx. cbn [mbind option_bind].
  assert ((if p_main_thread x =? 0 then Some false else t ← threads (k_sch st) !! p_main_thread x;
            Some (bool_decide (t_state t = TASK_ZOMBIE))) = Some (is_zombie st c)) as ->.
  { unfold is_zombie. rewrite Hx. destruct (Z.eqb_spec (p_main_thread x) 0) as [E|E].
    - by rewrite (no_thread_null st q x K E).
    - destruct (ki_proc _ _ K c x Hx) as [_ [(? & _)|[(y & (_ & -> & _) & _)|(y & (_ & -> & _) & _)]]]; done. }
  cbn [mbind option_bind]. destruct (is_zombie st c) eqn:Ez.
  - right. exists c, [], l. split; [done|]. split; [done|]. split; [done|]. by intros d ?%not_elem_of_nil.
  - destruct IH as [[E Hn]|(d & l1 & l2 & E & -> & Hd & Hn)]; [intros d Hd; apply Hl; by right| |].
    + left. split; [done|]. intros d [->|Hd]%elem_of_cons; [done|by apply Hn].
    + right. exists d, (c :: l1), l2. split; [done|]. split; [done|]. split; [done|]. intros e [->|He]%elem_of_cons; [done|by apply Hn].
Qed.

Lemma is_zombie_spec st q c x : kernel_inv st q -> k_procs st !! c = Some x -> is_zombie st c = true -> zombie st c x.
Proof using.
  intros K Hx Hz. unfold is_zombie in Hz. rewrite Hx in Hz.
  destruct (ki_proc _ _ K c x Hx) as [_ [(N & _)|[(y & (_ & Hy & _) & _ & _ & _ & Hs)|Z]]]; [| |done].
  - by rewrite (no_thread_null st q x K N) in Hz.
  - rewrite Hy in Hz. by apply bool_decide_eq_true in Hz.
Qed.

(** A step of the scheduler that wakes no zombie and makes none. *)
Lemma kernel_inv_sched st q s q' :
  kernel_inv st q -> sched_inv s q' -> sframe (k_sch st) s ->
  (forall u z, threads (k_sch st) !! u = Some z -> t_state z = TASK_ZOMBIE -> exists z', threads s !! u = Some z' /\ t_state z' = TASK_ZOMBIE) ->
  (exists z, threads s !! current_thread s = Some z /\ t_state z ≠ TASK_ZOMBIE) -> kernel_inv (with_sched st s) q'.
Proof using.
  intros [K1 K2 K3 K4 K5 K6 K7 K8 K9 K10 K11 K12 K13 K14 K15] HS [F1 F2 F3 F4] Hz (zc & Hzc & Szc).
  split; unfold k_sch in *; cbn [k_procs k_ipc sch with_sch with_sched with_ipc process_list k_pids k_heap k_as k_files];
    rewrite ?F1, ?F2; try done.
  - by apply ipc_inv_static with q.
  - destruct K3. by split.
  - intros p x Hx. destruct (K7 p x Hx) as [[M1 M2 M3] T]. split; [by split|]. apply (thread_ok_kept st _ p x x); [done|done|].
    intros _. split; unfold k_sch; cbn [k_ipc sch with_sch with_sched with_ipc]; [apply F3|apply F4|by rewrite F2|intros y _ []; by split|].
    intros y Hy Sy [G1 G2 G3 G4]. destruct (Hz _ _ Hy Sy) as (z' & Hz' & Sz'). split; [|by exists z'].
    split; cbn; [intros E; rewrite <- E in Hzc; congruence|by rewrite F2|done|done].
  - intros t y Hy Hn. destruct (static_look _ _ _ _ F3 Hy) as (y0 & Hy0 & [= _ E2 _ _]). rewrite E2 in *. by eapply K12.
  - intros t u y z Hy Hz' Hny Hnz. destruct (static_look _ _ _ _ F3 Hy) as (y0 & Hy0 & [= _ E2 -> _]).
    destruct (static_look _ _ _ _ F3 Hz') as (z0 & Hz0 & [= _ E2' -> _]). rewrite E2, E2' in *. by eapply K13.
  - intros t Ht. specialize (F3 t). destruct (K14 t Ht) as [y Hy]. rewrite Hy in F3. destruct (threads s !! t); [by eexists|done].
  - intros t [y Hy]. apply K15. destruct (static_look _ _ _ _ F3 Hy) as (y0 & Hy0 & _). by eexists.
Qed.

(** The current thread goes to sleep on [ch]. *)
Lemma sleep_ok st q y ch :
  let t := current_thread (k_sch st) in
  kernel_inv st q -> threads (k_sch st) !! t = Some y -> t_process y ≠ 0 ->
  exists s q', (st ← upd_kthread st t (fun x => set_state TASK_INTERRUPTIBLE (set_wait_channel ch x)); k_schedule 1 st)
      = Some (Some (with_sched st s)) /\ kernel_inv (with_sched st s) q' /\ sframe (k_sch st) s /\ current_thread s ≠ t /\
    (exists z, threads s !! t = Some z /\ t_state z = TASK_INTERRUPTIBLE /\ t_wait_channel z = ch).
Proof using.
  intros t K Hy Hp. pose proof (ii_sched _ _ (ki_ipc _ _ K)) as HS. set (y1 := set_state TASK_INTERRUPTIBLE (set_wait_channel ch y)).
  destruct (current_live st q y K Hy Hp) as (_ & _ & _ & _ & _ & _ & _ & Hnz).
  rewrite (upd_kthread_eq st t _ y Hy). cbn [mbind option_bind]. fold y1. set (s1 := with_threads _ _).
  assert (sched_inv s1 q) as HS1.
  { eapply sched_inv_upd; [exact HS|exact Hy|exact (si_prio _ _ _ _ HS Hy)|done| |].
    - intros Hq. by destruct (si_current _ _ HS) as (_ & ? & _).
    - intros E. destruct (si_idle _ _ HS) as (_ & _ & z & Hz & _ & Ez). unfold k_sch in *. congruence. }
  assert (threads s1 !! t = Some y1) as Hy1 by apply lookup_insert_eq.
  destruct (schedule_blocked_ok s1 q y1 HS1 Hy1) as (s2 & q2 & E2 & HS2 & _ & C2 & T2 & z & Hz & Sz); [done|].
  pose proof (schedule_frame 1 s1 s2 E2) as F2.
  assert (sframe (k_sch st) s1) as F1.
  { assert (upd_thread (k_sch st) t (fun x => set_state TASK_INTERRUPTIBLE (set_wait_channel ch x)) = Some s1) as E.
    { unfold upd_thread. by rewrite Hy. }
    by apply upd_thread_only in E as [E _]. }
  assert (sframe (k_sch st) s2) as F by by etransitivity.
  exists s2, q2. unfold k_schedule. change (k_sch (with_sched st s1)) with s1. rewrite E2. cbn [mbind option_bind option_map].
  split; [done|]. split; [|split; [done|split; [done|]]].
  - apply kernel_inv_sched with q; [done|done|done| |].
    + intros u w Hw Sw. assert (u ≠ t) as Hu by (intros ->; congruence).
      destruct (T2 u w) as (w' & Hw' & _ & Sw' & _); [unfold s1; cbn; by rewrite lookup_insert_ne|]. exists w'. split; [done|congruence].
    + destruct (T2 _ _ Hz) as (z' & Hz' & _ & Sz' & _). exists z'. split; [done|congruence].
  - destruct (T2 _ _ Hy1) as (z' & Hz' & _ & Sz' & _ & Wz'). exists z'. split; [done|]. split; [by rewrite Sz'|by rewrite Wz'].
Qed.

(** [process_wait] on every branch. *)
Lemma process_wait_ok st q y p :
  let t := current_thread (k_sch st) in
  kernel_inv st q -> threads (k_sch st) !! t = Some y -> t_process y ≠ 0 -> k_procs st !! t_process y = Some p ->
  (forall c x, c ∈ p_children p -> k_procs st !! c = Some x -> is_zombie st c = true -> p_children x = []) ->
  (p_children p = [] /\ process_wait 1 st = Some (Waited (-1) None st)) \/
  (exists c l1 l2 x st' q', p_children p = l1 ++ c :: l2 /\ (forall d, d ∈ l1 -> is_zombie st d = false) /\
     k_procs st !! c = Some x /\ zombie st c x /\
     process_wait 1 st = Some (Waited (p_pid x) (Some (p_exit_code x)) st') /\ kernel_inv st' q' /\ reaped st c x st') \/
  (p_children p ≠ [] /\ (forall c, c ∈ p_children p -> is_zombie st c = false) /\
   exists s q', process_wait 1 st = Some (Asleep (Some (with_sched st s))) /\ kernel_inv (with_sched st s) q' /\
     current_thread s ≠ t /\
     exists z, threads s !! t = Some z /\ t_state z = TASK_INTERRUPTIBLE /\ t_wait_channel z = t_process y).
Proof using KHL ASL.
  intros t K Hy Hp Hx Hch. unfold process_wait. fold t.
  pose proof (si_current _ _ (ii_sched _ _ (ki_ipc _ _ K))) as (Ht0 & _). fold (k_sch st) in Ht0. fold t in Ht0.
  rewrite (proj2 (Z.eqb_neq t 0) Ht0), Hy. cbn [mbind option_bind]. rewrite (proj2 (Z.eqb_neq _ 0) Hp). cbn [orb]. rewrite Hx.
  cbn [mbind option_bind]. case_bool_decide as He; [by left|].
  assert (forall c, c ∈ p_children p -> is_Some (k_procs st !! c)) as Hl.
  { intros c Hc. apply (ti_tree _ _ _ (ki_table _ _ K) _ p Hx) in Hc as (z & Hz & _). by eexists. }
  destruct (find_zombie_ok st q (p_children p) K Hl) as [[-> Hn]|(c & l1 & l2 & -> & El & Hz & Hn)]; cbn [mbind option_bind]; right.
  - right. split; [done|]. split; [done|]. destruct (sleep_ok st q y (t_process y) K Hy Hp) as (s & q' & E & K' & _ & C & Z).
    exists s, q'. split; [|done]. fold t in E. revert E.
    destruct (upd_kthread st t _) as [st1|]; [|done]. cbn [mbind option_bind]. intros ->. done.
  - left. assert (c ∈ p_children p) as Hin by (rewrite El; set_solver). destruct (Hl c Hin) as [x Hcx].
    pose proof (is_zombie_spec st q c x K Hcx Hz) as Zc.
    destruct (process_destroy_ok st q c x K Hcx (or_intror Zc) (Hch c x Hin Hcx Hz)) as (st' & q' & _ & E & K' & R).
    exists c, l1, l2, x, st', q'. split; [done|]. split; [done|]. split; [done|]. split; [done|]. split; [|done].
    rewrite Hcx. cbn [mbind option_bind]. fold (orphan c st). rewrite E. done.
Qed.

End life.
