(* ===== verification/ProcessCreate.v ===== *)
(** * The beginning of a process: creation and its first thread (kernel/proc/process.c) *)
From S2P Require Import Prelude Defs Sched Ipc Endpoint Pid Process ProcessTable ProcessFrame ProcessInv ProcessLife.

Section create.
Context {H A : Type} `{KH : KernelHeap H} {KHL : KernelHeapLaws H} `{AS : AddressSpaces A} {ASL : AddressSpacesLaws A}.
Implicit Types (st : kernel H A) (q : run_queue).

(** ** Names *)

Lemma c_string_nonzero l s : c_string l = Some s -> 0 ∉ s.
Proof using.
  revert s. induction l as [|c l IH]; intros s; cbn [c_string]; [done|]. destruct (Z.eqb_spec c 0); [intros [= <-]; apply not_elem_of_nil|].
  destruct (c_string l); [|done]. cbn [mbind option_bind]. intros [= <-]. apply not_elem_of_cons. split; [done|by apply IH].
Qed.

Lemma c_string_Some l : 0 ∈ l -> is_Some (c_string l).
Proof using.
  induction l as [|c l IH]; [by intros ?%not_elem_of_nil|]. intros Hin. cbn [c_string]. destruct (Z.eqb_spec c 0); [by eexists|].
  destruct IH as [s ->]; [by apply elem_of_cons in Hin as [?|?]|]. by eexists.
Qed.

(** The bytes of a C string, at most 15, and zeros. *)
Definition name_of (s : list Z) : list Z :=
  let len := Z.min (zlen s) (NAME_SIZE - 1) in
  take (Z.to_nat len) s ++ replicate (Z.to_nat (NAME_SIZE - len)) 0.

Definition name_ok (name : option (list Z)) : Prop := forall l, name = Some l -> 0 ∈ l.

Lemma process_name_ok name : name_ok name ->
  exists n, process_name name = Some n /\ zlen n = NAME_SIZE /\ 0 ∈ n /\
    forall l s, name = Some l -> c_string l = Some s -> n = name_of s.
Proof using.
  intros Hn. unfold process_name. destruct name as [l|].
  - destruct (c_string_Some l (Hn l eq_refl)) as [s Hs]. rewrite Hs. cbn [mbind option_bind]. eexists. split; [done|].
    pose proof (zlen_nonneg s) as Hs0. unfold NAME_SIZE.
    assert ((if 16 <=? zlen s then 16 - 1 else zlen s) = Z.min (zlen s) 15) as -> by (destruct (Z.leb_spec 16 (zlen s)); lia).
    split; [|split].
    + unfold zlen in *. rewrite length_app, length_take, length_replicate. lia.
    + apply elem_of_app. right. apply elem_of_replicate. split; [done|]. lia.
    + intros l' s' [= <-] Hs'. assert (s' = s) as -> by congruence. done.
  - eexists. split; [done|]. split; [done|]. split; [apply elem_of_replicate; split; [done|by vm_compute]|]. by intros.
Qed.

(** The name of a process is what a child gets. *)
Lemma name_of_again n s : zlen n = NAME_SIZE -> 0 ∈ n -> c_string n = Some s -> name_of s = s ++ replicate (Z.to_nat (NAME_SIZE - zlen s)) 0.
Proof using.
  intros Hn H0 Hs. assert (zlen s < zlen n) as Hlt.
  { clear Hn. revert s Hs H0. induction n as [|c n IH]; intros s; cbn [c_string]; [done|]. destruct (Z.eqb_spec c 0) as [->|Hc].
    - intros [= <-] _. rewrite zlen_cons. pose proof (zlen_nonneg n). change (zlen []) with 0. lia.
    - destruct (c_string n) as [s'|]; [|done]. cbn [mbind option_bind]. intros [= <-] [E|Hin]%elem_of_cons; [congruence|].
      rewrite !zlen_cons. specialize (IH s' eq_refl Hin). lia. }
  unfold name_of. rewrite Z.min_l by (unfold NAME_SIZE in *; lia). by rewrite zlen_to_nat, take_ge.
Qed.

(** ** The heap grows, the PID bitmap changes *)

Definition more_live (h h' : H) : Prop := forall b m, kh_live h b m -> kh_live h' b m.

Lemma thread_mem_more st st' t y :
  thread_mem st t y -> more_live (k_heap st) (k_heap st') -> k_xts st' = k_xts st -> k_stacks st' = k_stacks st -> thread_mem st' t y.
Proof using.
  intros [M1 M2 [M3 M3'] M4 M5] Hl Ex Ek. split; [by apply Hl|by rewrite Ex|split; [done|by apply Hl]|done|]. by rewrite Ek.
Qed.

Lemma kernel_inv_base st q h s :
  kernel_inv st q -> table_inv (k_procs st) (process_list st) s -> kh_ok h -> more_live (k_heap st) h ->
  kernel_inv (with_heap (with_pids st s) h) q.
Proof using.
  intros [K1 K2 K3 K4 K5 K6 K7 K8 K9 K10 K11 K12 K13 K14 K15] T Hok Hl. split; try done.
  2: { intros t Ht. by apply Hl, K15. }
  intros p x Hx. destruct (K7 p x Hx) as [[M1 M2 M3] T']. split.
  - split; [by apply Hl|done|]. intros Hf. destruct (M3 Hf) as [L S]. split; [by apply Hl|done].
  - apply (thread_ok_kept st _ p x x); [done|done|]. intros _. split; [done|by eauto|done| |].
    + intros y _ M. by apply (thread_mem_more st).
    + intros y Hy Sy F. split; [done|by eauto].
Qed.

Lemma kernel_inv_heap st q h : kernel_inv st q -> kh_ok h -> more_live (k_heap st) h -> kernel_inv (with_heap st h) q.
Proof using.
  intros K Hok Hl. assert (with_heap st h = with_heap (with_pids st (k_pids st)) h) as -> by by destruct st.
  apply kernel_inv_base; [done|apply K|done|done].
Qed.

Lemma table_pids m l s s' :
  table_inv m l s -> pids_inv s' -> (forall j, 0 <= j -> pid_used s' j = pid_used s j) -> table_inv m l s'.
Proof using. intros [T1 T2 T3 T4 T5 T6 T7 T8] HI E. split; try done. intros i Hi. rewrite E by lia. by apply T6. Qed.

(** ** process_create *)

(** Process [p] with the fields [x] is added. *)
Definition add_process st (h : H) (fs : gmap Z (list process_file)) (s : pids) (p : Z) (x : process) : kernel H A :=
  let st := with_files (with_heap (with_pids st s) h) fs in
  let i := with_iprocs (k_ipc st) (<[p := mk_ip [] 0]> (iprocs (k_ipc st))) in
  let st := set_mm (with_ipc st i) p 0 in
  with_process_list (with_procs st (<[p := x]> (k_procs st))) (process_list st ++ [p]).

Lemma ipc_inv_add (i : ipc) q p :
  ipc_inv i q -> iprocs i !! p = None ->
  ipc_inv (with_sch (with_iprocs i (<[p := mk_ip [] 0]> (iprocs i))) (sched_procs (sch i) (<[p := 0]> (procs (sch i))))) q.
Proof using.
  intros [B1 B2 B3 B4 B5 B6] Hp. split; cbn; try done.
  - apply sched_inv_procs; [done|]. intros t y Hy Hn. apply lookup_insert_is_Some'. right. by apply (si_threads _ _ B1) with t.
  - intros t y Hy. destruct (B2 t y Hy) as [Hi Hpo]. split; [done|]. intros Hn. apply lookup_insert_is_Some'. right. by apply Hpo.
  - intros r z Hz. cbn [iprocs with_sch with_iprocs] in Hz. apply lookup_insert_Some in Hz as [[_ <-]|[_ Hz]]; [done|]. by eapply B3.
Qed.

Lemma fresh_proc st q p n : kernel_inv st q -> 0 < n -> (forall b m, kh_live (k_heap st) b m -> no_overlap (p, n) (b, m)) -> k_procs st !! p = None.
Proof using.
  intros K Hn Hf. destruct (k_procs st !! p) as [x|] eqn:Ex; [|done]. destruct (ki_proc _ _ K p x Ex) as [[M1 _ _] _].
  destruct (Hf p _ M1) as [E|E]; cbn in E; unfold SIZEOF_PROCESS in E; lia.
Qed.

Lemma add_process_inv st q h fs s p x :
  kernel_inv st q -> kh_ok h -> more_live (k_heap st) h -> k_procs st !! p = None -> p ≠ 0 ->
  kh_live h p SIZEOF_PROCESS -> zlen (p_name x) = NAME_SIZE -> 0 ∈ p_name x -> no_thread x ->
  kh_live h (p_files x) SIZEOF_FILES -> is_Some (fs !! p_files x) -> (forall f, is_Some (k_files st !! f) -> is_Some (fs !! f)) ->
  (forall r y, k_procs st !! r = Some y -> p_files y ≠ 0 -> p_files y ≠ p_files x) ->
  pids_inv s -> 1 <= p_pid x < PID_MAX -> pid_used (k_pids st) (p_pid x) = false ->
  (forall j, 0 <= j -> pid_used s j = if decide (j = p_pid x) then true else pid_used (k_pids st) j) ->
  p_parent x = 0 -> p_children x = [] -> kernel_inv (add_process st h fs s p x) q.
Proof using.
  intros K Hok Hl Hp Hp0 Hpl Hn1 Hn2 HN Hf1 Hf2 Hfs Hfu Hs Hpid Hfree Hu Hpar Hch.
  pose proof K as [K1 K2 K3 K4 K5 K6 K7 K8 K9 K10 K11 K12 K13 K14 K15]. set (st' := add_process st h fs s p x).
  assert (iprocs (k_ipc st) !! p = None) as Hip.
  { destruct (iprocs (k_ipc st) !! p) eqn:E; [|done]. destruct (proj1 (proj1 (K6 p))) as [? ?]; [by eexists|congruence]. }
  split; try done.
  - by apply (table_add (k_procs st) (process_list st) (k_pids st) s p x).
  - by apply (ipc_inv_add (k_ipc st) q p).
  - destruct K3 as [E1 E2 E3 E4 E5 E6]. split; try done. intros a Ha. destruct (E3 a Ha) as (e & He & Hr & Hpo).
    exists e. split; [done|]. split; [done|]. intros Hal Hn. apply lookup_insert_is_Some'. right. by apply Hpo.
  - intros r. destruct (K6 r) as [D1 D2]. unfold k_sch in *. cbn. rewrite !lookup_insert_is_Some', D1, D2. done.
  - intros r y Hy. change (k_procs st') with (<[p := x]> (k_procs st)) in Hy. apply lookup_insert_Some in Hy as [[<- <-]|[Hr Hy]].
    + split; [|by left]. by split.
    + destruct (K7 r y Hy) as [[M1 M2 M3] T]. split.
      * split; [by apply Hl|done|]. intros Hf. destruct (M3 Hf) as [L S]. split; [by apply Hl|by apply Hfs].
      * apply (thread_ok_kept st st' r y y); [done|done|]. intros _. split; [done|by eauto|done| |].
        -- intros z _ M. by apply (thread_mem_more st).
        -- intros z Hz Sz [G1 G2 G3 G4]. split; [by split|by eauto].
  - intros r r' y y'. change (k_procs st') with (<[p := x]> (k_procs st)). rewrite !lookup_insert_Some.
    intros [[<- <-]|[Hr Hy]] [[<- <-]|[Hr' Hy']] Hn Ef; [done| | |by eapply K8].
    + destruct (Hfu r' y' Hy'); congruence.
    + by destruct (Hfu r y Hy).
  - intros r m. unfold k_sch. cbn. rewrite lookup_insert_Some. intros [[<- <-]|[Hr Hm]] Hn; [done|].
    destruct (K9 r m Hm Hn) as [L U]. split; [done|]. intros r'. rewrite lookup_insert_Some. intros [[<- <-]|[_ Hm']]; [done|by apply U].
  - intros r y. cbn. rewrite lookup_insert_Some. intros [[<- <-]|[Hr Hy]].
    + split; [apply lookup_insert_eq|]. split; [constructor|]. by intros a ?%not_elem_of_nil.
    + destruct (K10 r y Hy) as (_ & ND & Ho). split; [cbn; by rewrite lookup_insert_ne|done].
  - intros a e He Hal Hn. cbn. destruct (K11 a e He Hal Hn) as (y & Hy & Hin). exists y. split; [|done]. rewrite lookup_insert_ne; [done|].
    intros E. rewrite <- E in Hy. congruence.
  - intros t y Hy Hn. destruct (K12 t y Hy Hn) as (z & Hz & Em). exists z. split; [|done].
    change (k_procs st') with (<[p := x]> (k_procs st)). rewrite lookup_insert_ne; [done|]. congruence.
  - intros t Ht. by apply Hl, K15.
Qed.

Definition same_live (h h' : H) : Prop := forall b m, kh_live h' b m <-> kh_live h b m.

(** What [kmalloc] gives. *)
Record fresh_object (h : H) (a n : Z) (h' : H) : Prop := {
  fo_addr : 0 < a /\ a mod 8 = 0 /\ a + n <= 2 ^ 64;
  fo_apart : forall b m, kh_live h b m -> no_overlap (a, n) (b, m);
  fo_live : forall b m, kh_live h' b m <-> kh_live h b m \/ (b, m) = (a, n)
}.

Lemma kmalloc_cases (h : H) n : kh_ok h -> 0 < n <= 8192 ->
  exists a h', kmalloc h n = Some (a, h') /\ kh_ok h' /\ ((a = 0 /\ same_live h h') \/ (a ≠ 0 /\ fresh_object h a n h')).
Proof using KHL.
  intros Hok Hn. destruct (kmalloc_law h n Hok Hn) as (a & h' & E & Hok' & [[-> L]|(A1 & A2 & A3 & A4 & A5)]).
  - exists 0, h'. split; [done|]. split; [done|]. left. by split.
  - exists a, h'. split; [done|]. split; [done|]. right. split; [lia|by split].
Qed.

Lemma fresh_more h a n h' : fresh_object h a n h' -> more_live h h' /\ kh_live h' a n.
Proof using. intros [_ _ L]. split; [intros b m Hb; apply L; by left|]. apply L. by right. Qed.

Lemma fresh_ne h a n h' b m : kh_ok h -> 0 < n -> fresh_object h a n h' -> kh_live h b m -> b ≠ a.
Proof using KHL.
  intros Hok Hn [_ F _] Hb ->. pose proof (kh_size h a m Hok Hb). destruct (F a m Hb) as [E|E]; cbn in E; lia.
Qed.

(** Giving the object just taken back leaves what was there. *)
Lemma fresh_free h a n h' h'' :
  kh_ok h -> 0 < n -> fresh_object h a n h' -> (forall b m, kh_live h'' b m <-> kh_live h' b m /\ b ≠ a) -> same_live h h''.
Proof using KHL.
  intros Hok Hn F L b m. rewrite L, (fo_live _ _ _ _ F). split.
  - intros [[?|E] Hne]; [done|]. congruence.
  - intros Hb. split; [by left|]. by eapply fresh_ne.
Qed.

(** What [process_create] gives: a new process in a table otherwise unchanged, or nothing. *)
Record created st (name : option (list Z)) (p : Z) (x : process) st' : Prop := {
  cr_fresh : k_procs st !! p = None /\ p ≠ 0;
  cr_procs : k_procs st' = <[p := x]> (k_procs st);
  cr_list : process_list st' = process_list st ++ [p] /\ init_process st' = init_process st /\ boot_rsp st' = boot_rsp st;
  cr_pid : 1 <= p_pid x < PID_MAX /\ first_free (k_pids st) (next_pid (k_pids st)) (p_pid x);
  cr_fields : p_parent x = 0 /\ p_children x = [] /\ no_thread x /\ p_files x ≠ 0 /\ p_exit_code x = 0;
  cr_name : forall l s, name = Some l -> c_string l = Some s -> p_name x = name_of s;
  cr_files : k_files st' = <[p_files x := empty_files]> (k_files st);
  cr_ipc : k_ipc st' = with_sch (with_iprocs (k_ipc st) (<[p := mk_ip [] 0]> (iprocs (k_ipc st))))
    (sched_procs (k_sch st) (<[p := 0]> (procs (k_sch st))));
  cr_rest : k_as st' = k_as st /\ k_xts st' = k_xts st /\ k_stacks st' = k_stacks st;
  cr_heap : forall b m, kh_live (k_heap st') b m <->
    kh_live (k_heap st) b m \/ (b, m) = (p, SIZEOF_PROCESS) \/ (b, m) = (p_files x, SIZEOF_FILES);
  cr_new : forall b m, kh_live (k_heap st) b m -> b ≠ p /\ b ≠ p_files x;
  cr_pids : forall j, 0 <= j -> pid_used (k_pids st') j = if decide (j = p_pid x) then true else pid_used (k_pids st) j
}.

Record unchanged st st' : Prop := {
  un_procs : k_procs st' = k_procs st /\ process_list st' = process_list st /\ k_ipc st' = k_ipc st /\ k_as st' = k_as st /\
    k_xts st' = k_xts st /\ k_stacks st' = k_stacks st /\ k_files st' = k_files st /\ init_process st' = init_process st;
  un_heap : same_live (k_heap st) (k_heap st');
  un_pids : forall j, 0 <= j -> pid_used (k_pids st') j = pid_used (k_pids st) j
}.

Lemma process_create_ok st q name :
  kernel_inv st q -> name_ok name ->
  exists r st', process_create st name = Some (r, st') /\ kernel_inv st' q /\
    ((r = 0 /\ unchanged st st') \/ (exists x, created st name r x st')).
Proof using KHL.
  intros K Hname. pose proof (ki_heap _ _ K) as Hok. pose proof (ki_table _ _ K) as T. unfold process_create.
  destruct (kmalloc_cases (k_heap st) SIZEOF_PROCESS Hok) as (p & h1 & -> & Hok1 & D1); [done|]. cbn [mbind option_bind].
  destruct D1 as [[-> L1]|[Hp0 F1]].
  { exists 0, (with_heap st h1). split; [done|]. split; [|left; by split].
    apply kernel_inv_heap; [done|done|]. intros b m. apply L1. }
  rewrite (proj2 (Z.eqb_neq p 0) Hp0). cbn [k_pids with_heap]. destruct (fresh_more _ _ _ _ F1) as [M1 Lp].
  destruct (alloc_pid_spec (k_pids st) (ti_pids _ _ _ T)) as (pid & s1 & -> & HI1 & D2). cbn [mbind option_bind].
  destruct D2 as [(Hr & Hff & Hu & _)|(-> & -> & _)].
  2: { change (-1 <? 0) with true. cbv iota. cbn [k_heap with_pids with_heap].
       destruct (kfree_law h1 p SIZEOF_PROCESS Hok1 Lp) as (h2 & -> & Hok2 & L2). cbn [mbind option_bind].
       pose proof (fresh_free (k_heap st) p SIZEOF_PROCESS h1 h2 Hok ltac:(done) F1 L2) as SL. eexists 0, _. split; [done|]. split; [|left; by split].
       apply (kernel_inv_base st q h2 (k_pids st)); [done|apply K|done|]. intros b m. apply SL. }
  rewrite (proj2 (Z.ltb_ge pid 0)) by lia. destruct (process_name_ok name Hname) as (n & -> & Hn1 & Hn2 & Hn3). cbn [mbind option_bind].
  unfold process_files_create. cbn [k_heap with_pids with_heap].
  destruct (kmalloc_cases h1 SIZEOF_FILES Hok1) as (f & h3 & -> & Hok3 & D3); [done|]. cbn [mbind option_bind].
  destruct D3 as [[-> L3]|[Hf0 F3]].
  { cbn [Z.eqb mbind option_bind]. unfold k_free_pid. cbn [k_pids with_heap with_pids].
    destruct (free_pid_ok s1 pid HI1 Hr) as (s2 & -> & HI2 & _ & Hu2). cbn [mbind option_bind k_heap with_pids with_heap].
    assert (kh_live h3 p SIZEOF_PROCESS) as Lp3 by by apply L3.
    destruct (kfree_law h3 p SIZEOF_PROCESS Hok3 Lp3) as (h4 & -> & Hok4 & L4). cbn [mbind option_bind].
    assert (same_live (k_heap st) h4) as SL.
    { apply (fresh_free (k_heap st) p SIZEOF_PROCESS h1 h4 Hok ltac:(done) F1). intros b m. rewrite L4, (L3 b m). done. }
    assert (forall j, 0 <= j -> pid_used s2 j = pid_used (k_pids st) j) as Hback.
    { intros j Hj. rewrite Hu2, Hu by done. destruct Hff as [Hff _]. destruct (decide (j = pid)) as [->|]; [by rewrite Hff|done]. }
    eexists 0, _. split; [done|]. split; [|left; by split].
    apply (kernel_inv_base st q h4 s2); [done|by apply (table_pids _ _ (k_pids st))|done|]. intros b m. apply SL. }
  rewrite (proj2 (Z.eqb_neq f 0) Hf0). cbn [mbind option_bind]. rewrite (proj2 (Z.eqb_neq f 0) Hf0).
  destruct (fresh_more _ _ _ _ F3) as [M3 Lf]. pose proof (fresh_proc st q p SIZEOF_PROCESS K ltac:(done) (fo_apart _ _ _ _ F1)) as Hp.
  eexists p, _. split; [done|]. set (x := mk_proc pid _ _ _ _ _ _ _ _ _ _ _ _). assert (more_live (k_heap st) h3) as M by (intros b m Hb; by apply M3, M1).
  split.
  - apply (add_process_inv st q h3 (<[f := empty_files]> (k_files st)) s1 p x); try done.
    + by apply M3.
    + apply lookup_insert_is_Some'. by left.
    + intros g Hg. apply lookup_insert_is_Some'. by right.
    + intros r y Hy Hn. destruct (ki_proc _ _ K r y Hy) as [[_ _ Mf] _]. destruct (Mf Hn) as [Ly _].
      apply (fresh_ne h1 f SIZEOF_FILES h3 (p_files y) SIZEOF_FILES Hok1 ltac:(done) F3). by apply M1.
    + apply Hff.
  - right. exists x. split; try done.
    + intros b m. cbn. rewrite (fo_live _ _ _ _ F3), (fo_live _ _ _ _ F1). tauto.
    + intros b m Hb. split; [by apply (fresh_ne (k_heap st) p SIZEOF_PROCESS h1 b m Hok ltac:(done) F1)|].
      apply (fresh_ne h1 f SIZEOF_FILES h3 b m Hok1 ltac:(done) F3). by apply M1.
Qed.

(** ** A process gets its thread *)

Lemma zero_words_ne n : forall a m k, (forall j, 0 <= j < Z.of_nat n -> k ≠ a + 8 * j) -> zero_words n a m !! k = m !! k.
Proof using.
  induction n as [|n IH]; intros a m k Hk; cbn [zero_words]; [done|]. rewrite IH.
  - apply lookup_insert_ne. intros <-. apply (Hk 0); lia.
  - intros j Hj E. apply (Hk (j + 1)); lia.
Qed.

Lemma zero_words_eq n : forall a m j, 0 <= j < Z.of_nat n -> zero_words n a m !! (a + 8 * j) = Some 0.
Proof using.
  induction n as [|n IH]; intros a m j Hj; cbn [zero_words]; [lia|]. destruct (decide (j = 0)) as [->|Hj0].
  - rewrite zero_words_ne; [|lia]. rewrite Z.mul_0_r, Z.add_0_r. apply lookup_insert_eq.
  - replace (a + 8 * j) with (a + 8 + 8 * (j - 1)) by lia. apply IH. lia.
Qed.

(** Writing words keeps those that were there. *)
Definition words_kept (m m' : gmap Z Z) : Prop := forall k, is_Some (m !! k) -> is_Some (m' !! k).

Lemma zero_words_kept n : forall a m, words_kept m (zero_words n a m).
Proof using.
  induction n as [|n IH]; intros a m k Hk; cbn [zero_words]; [done|]. apply IH. apply lookup_insert_is_Some'. by right.
Qed.

(** The state once thread [t] of process [p] is there, on the list of all threads and on that of its process. *)
Definition spawn st (h : H) (m : gmap Z Z) (t : Z) (x : thread) (i : ithread) (xt : xthread) (p : Z) (c : process) : kernel H A :=
  let ip := with_its (k_ipc st) (<[t := i]> (its (k_ipc st))) in
  let ip := with_sch ip (sched_all (with_threads (k_sch st) (<[t := x]> (threads (k_sch st)))) (all_threads (k_sch st) ++ [t])) in
  with_procs (with_xts (with_ipc (with_stacks (with_heap st h) m) ip) (<[t := xt]> (k_xts st)))
    (<[p := link_thread t c]> (k_procs st)).

Lemma spawn_eq st h m t x i xt p c :
  k_procs st !! p = Some c ->
  (st ← upd_proc (add_thread (with_stacks (with_heap st h) m) t x i xt) p (link_thread t); Some (t, thread_global_add st t)) =
    Some (t, spawn st h m t x i xt p c).
Proof using. intros Hc. unfold upd_proc. change (k_procs (add_thread _ _ _ _ _)) with (k_procs st). rewrite Hc. by destruct st as [[[]]]. Qed.

(** What the thread must be. *)
Record new_body st (h : H) (m : gmap Z Z) (t : Z) (x : thread) (i : ithread) (p : Z) : Prop := {
  nb_fresh : threads (k_sch st) !! t = None /\ t ≠ 0;
  nb_process : t_process x = p /\ t_state x ≠ TASK_ZOMBIE /\ 0 <= t_priority x < MAX_PRIO;
  nb_live : kh_live h t SIZEOF_THREAD;
  nb_stack : t_kernel_stack x ≠ 0 /\ kh_live h (t_kernel_stack x) KERNEL_STACK_SIZE /\ t_kernel_stack_size x = KERNEL_STACK_SIZE;
  nb_own : forall u z, threads (k_sch st) !! u = Some z -> t_process z ≠ 0 -> t_kernel_stack z ≠ t_kernel_stack x;
  nb_words : stack_words m (t_kernel_stack x) /\ words_kept (k_stacks st) m;
  nb_links : (ipc_caller i ≠ 0 -> is_thread (k_sch st) (ipc_caller i)) /\ (ipc_reply_server i ≠ 0 -> is_thread (k_sch st) (ipc_reply_server i));
  nb_forgets : forall u, u ≠ 0 -> forgotten (k_ipc st) u -> ipc_caller i ≠ u /\ ipc_reply_server i ≠ u
}.

Lemma sched_inv_new (s : sched) q t x l :
  sched_inv s q -> threads s !! t = None -> t ≠ 0 -> 0 <= t_priority x < MAX_PRIO -> (t_process x ≠ 0 -> is_Some (procs s !! t_process x)) ->
  sched_inv (sched_all (with_threads s (<[t := x]> (threads s))) l) q.
Proof using.
  intros [R W (N & P & Pr) C (I0 & I1 & (xi & Hxi & Si & Pi)) (K0 & K1 & K2)] Ht Ht0 Hp Hpr. split; cbn; try done.
  - eapply rq_wf_threads; [exact W|]. intros u y Hu Hy. exists y. rewrite lookup_insert_ne by congruence. done.
  - split; [by rewrite lookup_insert_ne|]. split; intros u y [[<- <-]|[_ Hy]]%lookup_insert_Some; [done|by eapply P|done|by eapply Pr].
  - split; [done|]. split; [done|]. exists xi. rewrite lookup_insert_ne by congruence. done.
  - split; [done|]. split; [done|]. apply lookup_insert_is_Some'. by right.
Qed.

Lemma ipc_inv_new (i : ipc) q t x ix l :
  ipc_inv i q -> threads (sch i) !! t = None -> t ≠ 0 -> 0 <= t_priority x < MAX_PRIO -> (t_process x ≠ 0 -> is_Some (procs (sch i) !! t_process x)) ->
  is_Some (iprocs i !! t_process x) ->
  (ipc_caller ix ≠ 0 -> is_thread (sch i) (ipc_caller ix)) -> (ipc_reply_server ix ≠ 0 -> is_thread (sch i) (ipc_reply_server ix)) ->
  ipc_inv (with_sch (with_its i (<[t := ix]> (its i))) (sched_all (with_threads (sch i) (<[t := x]> (threads (sch i)))) l)) q.
Proof using.
  intros [B1 B2 B3 B4 B5 B6] Ht Ht0 Hp Hpr Hip L1 L2.
  assert (forall u, is_thread (sch i) u -> is_Some (<[t := x]> (threads (sch i)) !! u)) as Hm by (intros u Hu; apply lookup_insert_is_Some'; by right).
  split; cbn; try done.
  - by apply sched_inv_new.
  - intros u y [[<- <-]|[_ Hy]]%lookup_insert_Some; (split; [apply lookup_insert_is_Some'|]); [by left|by intros _|right; by eapply B2|].
    by destruct (B2 u y Hy).
  - by eapply queues_ok_mono; [exact Hm|done|exact B5].
  - intros u y. cbn. intros [[<- <-]|[_ Hy]]%lookup_insert_Some; (split; intros Hn; apply Hm); [by apply L1|by apply L2|by eapply B6|by eapply B6].
Qed.

Lemma spawn_forgotten st h m t x i xt p c u :
  new_body st h m t x i p -> u ≠ 0 -> u ≠ t -> forgotten (k_ipc st) u -> forgotten (k_ipc (spawn st h m t x i xt p c)) u.
Proof using.
  intros NB Hu0 Hut F. pose proof F as [F1 F2 F3 F4]. split; [done| |done|].
  - cbn. rewrite elem_of_app, list_elem_of_singleton. tauto.
  - intros v y. cbn. intros [[<- <-]|[_ Hy]]%lookup_insert_Some; [by apply (nb_forgets _ _ _ _ _ _ _ NB)|by eapply F4].
Qed.

Lemma spawn_kept st q h m t x i xt p c r z :
  kernel_inv st q -> new_body st h m t x i p -> more_live (k_heap st) h -> k_procs st !! r = Some z -> p_main_thread z ≠ 0 ->
  thread_kept st (spawn st h m t x i xt p c) (p_main_thread z).
Proof using.
  intros K NB Hl Hz Hn. pose proof NB as [[N1 N2] _ _ _ _ [_ N7] _ _]. set (u := p_main_thread z) in *.
  assert (u ≠ t) as Hut.
  { intros E. destruct (ki_proc _ _ K r z Hz) as [_ [(? & _)|[(y & (_ & Hy & _) & _)|(y & (_ & Hy & _) & _)]]]; [done|fold u in Hy; congruence..]. }
  set (st' := spawn st h m t x i xt p c). assert (threads (k_sch st') !! u = threads (k_sch st) !! u) as El by (by apply lookup_insert_ne).
  split.
  - by rewrite El.
  - rewrite El. eauto.
  - intros Ha. apply elem_of_app. by left.
  - intros y Hy [M1 M2 [M3 M3'] M4 M5]. split; [by apply Hl| |split; [done|by apply Hl]|done|].
    + apply lookup_insert_is_Some'. by right.
    + intros k Hk. by apply N7, M5.
  - intros y Hy Sy F. rewrite El. split; [|by eauto]. by apply (spawn_forgotten st h m t x i xt p c u).
Qed.

Lemma add_thread_inv st q h m t x i xt p c :
  kernel_inv st q -> k_procs st !! p = Some c -> no_thread c -> kh_ok h -> more_live (k_heap st) h -> new_body st h m t x i p ->
  kernel_inv (spawn st h m t x i xt p c) q /\ live_thread (spawn st h m t x i xt p c) p (link_thread t c).
Proof using.
  intros K Hc (NT1 & NT2 & NT3) Hok Hl NB. pose proof K as [K1 K2 K3 K4 K5 K6 K7 K8 K9 K10 K11 K12 K13 K14 K15].
  pose proof NB as [[N1 N2] (N3 & N4 & N5) N6 (S1 & S2 & S3) N7 [W1 W2] [L1 L2] N8]. set (st' := spawn st h m t x i xt p c).
  assert (threads (k_sch st') = <[t := x]> (threads (k_sch st))) as Eth by done.
  assert (p ≠ 0) as Hp0 by (intros ->; pose proof (ti_null _ _ _ K1); congruence).
  assert (live_thread st' p (link_thread t c)) as HL.
  { exists x. cbn [p_main_thread p_threads p_nr_threads link_thread p_set_threads]. rewrite NT2, NT3. split; [|split; [done|split; [done|split]]].
    - split; [done|]. rewrite Eth. split; [apply lookup_insert_eq|]. split; [done|]. split; try done. apply lookup_insert_is_Some'. by left.
    - cbn. apply elem_of_app. right. by apply list_elem_of_singleton.
    - done. }
  split; [|exact HL]. split; try done.
  - eapply table_same; [exact K1|]. by eapply same_nodes_upd.
  - apply (ipc_inv_new (k_ipc st) q t x i); try done; rewrite N3; [intros _|]; apply K6; by eexists.
  - destruct K3. by split.
  - intros r. cbn. rewrite (same_nodes_dom (k_procs st)) by by eapply same_nodes_upd. apply K6.
  - intros r z Hz. change (k_procs st') with (<[p := link_thread t c]> (k_procs st)) in Hz. apply lookup_insert_Some in Hz as [[<- <-]|[Hr Hz]].
    + split; [|by right; left]. destruct (K7 p c Hc) as [[M1 M2 M3] _]. split; [by apply Hl|done|]. intros Hf. destruct (M3 Hf). split; [by apply Hl|done].
    + destruct (K7 r z Hz) as [[M1 M2 M3] T]. split.
      * split; [by apply Hl|done|]. intros Hf. destruct (M3 Hf). split; [by apply Hl|done].
      * apply (thread_ok_kept st st' r z z); [done|done|]. by eapply spawn_kept.
  - intros r r' z z'. change (k_procs st') with (<[p := link_thread t c]> (k_procs st)). rewrite !lookup_insert_Some.
    intros [[<- <-]|[Hr Hz]] [[<- <-]|[Hr' Hz']] Hn Ef; [done|exact (K8 p r' c z' Hc Hz' Hn Ef)|exact (K8 r p z c Hz Hc Hn Ef)|by eapply K8].
  - intros u z. rewrite Eth, lookup_insert_Some. change (k_procs st') with (<[p := link_thread t c]> (k_procs st)). intros [[<- <-]|[Hu Hz]] Hn.
    + rewrite N3, lookup_insert_eq. by eexists.
    + destruct (K12 u z Hz Hn) as (y & Hy & Em). exists y. rewrite lookup_insert_ne; [done|]. intros E.
      assert (y = c) as -> by congruence. rewrite <- Em, (no_thread_null st q c K NT1) in Hz. done.
  - intros u v y z. rewrite Eth, !lookup_insert_Some. intros [[<- <-]|[Hu Hy]] [[<- <-]|[Hv Hz]] Hny Hnz E; [done| | |by eapply K13].
    + by destruct (N7 v z Hz Hnz).
    + by destruct (N7 u y Hy Hny).
  - intros u. cbn. rewrite elem_of_app, list_elem_of_singleton, lookup_insert_is_Some'. intros [Hu| ->]; [right; by apply K14|by left].
  - intros u. rewrite Eth, lookup_insert_is_Some'. intros [<-|Hu]; [done|by apply Hl, K15].
Qed.

(** The memory of a thread is taken: its structure at [t] and its stack at [k]. *)
Record thread_memory st (h : H) (t k : Z) : Prop := {
  tn_ok : kh_ok h;
  tn_more : more_live (k_heap st) h;
  tn_live : kh_live h t SIZEOF_THREAD /\ kh_live h k KERNEL_STACK_SIZE;
  tn_null : t ≠ 0 /\ k ≠ 0;
  tn_fresh : threads (k_sch st) !! t = None;
  tn_stack : 0 < k /\ k mod 8 = 0 /\ k + KERNEL_STACK_SIZE <= 2 ^ 64;
  tn_apart : forall b m, kh_live (k_heap st) b m -> no_overlap (k, KERNEL_STACK_SIZE) (b, m)
}.

Lemma thread_alloc st q :
  kernel_inv st q -> exists t h1, kmalloc (k_heap st) SIZEOF_THREAD = Some (t, h1) /\
    ((t = 0 /\ kernel_inv (with_heap st h1) q /\ same_live (k_heap st) h1) \/
     (t ≠ 0 /\ exists k h2, kmalloc h1 KERNEL_STACK_SIZE = Some (k, h2) /\
        ((k = 0 /\ exists h3, kfree h2 t = Some h3 /\ kernel_inv (with_heap st h3) q /\ same_live (k_heap st) h3) \/
         (k ≠ 0 /\ thread_memory st h2 t k)))).
Proof using KHL.
  intros K. pose proof (ki_heap _ _ K) as Hok.
  destruct (kmalloc_cases (k_heap st) SIZEOF_THREAD Hok) as (t & h1 & -> & Hok1 & D1); [done|]. exists t, h1. split; [done|].
  destruct D1 as [[-> L1]|[Ht0 F1]].
  { left. split; [done|]. split; [|done]. apply kernel_inv_heap; [done|done|]. intros b m. apply L1. }
  right. split; [done|]. destruct (fresh_more _ _ _ _ F1) as [M1 Lt].
  destruct (kmalloc_cases h1 KERNEL_STACK_SIZE Hok1) as (k & h2 & -> & Hok2 & D2); [done|]. exists k, h2. split; [done|].
  destruct D2 as [[-> L2]|[Hk0 F2]].
  - left. split; [done|]. destruct (kfree_law h2 t SIZEOF_THREAD Hok2) as (h3 & E3 & Hok3 & L3); [by apply L2|].
    assert (same_live (k_heap st) h3) as SL.
    { apply (fresh_free (k_heap st) t SIZEOF_THREAD h1 h3 Hok ltac:(done) F1). intros b m. rewrite L3, (L2 b m). done. }
    exists h3. split; [done|]. split; [|done]. apply kernel_inv_heap; [done|done|]. intros b m. apply SL.
  - right. split; [done|]. destruct (fresh_more _ _ _ _ F2) as [M2 Lk]. pose proof (fo_addr _ _ _ _ F2) as (A1 & A2 & A3). split; try done.
    + intros b m Hb. by apply M2, M1.
    + split; [by apply M2|done].
    + destruct (threads (k_sch st) !! t) eqn:E; [|done]. destruct (fresh_ne (k_heap st) t SIZEOF_THREAD h1 t SIZEOF_THREAD Hok ltac:(done) F1); [|done].
      apply K. by eexists.
    + intros b m Hb. apply (fo_apart _ _ _ _ F2). by apply M1.
Qed.

Lemma process_stack st q u z :
  kernel_inv st q -> threads (k_sch st) !! u = Some z -> t_process z ≠ 0 -> thread_mem st u z.
Proof using.
  intros K Hz Hn. destruct (ki_owner _ _ K u z Hz Hn) as (x & Hx & Em). destruct (ki_proc _ _ K _ x Hx) as [_ T].
  destruct T as [(N & _)|[(w & HT & _)|(w & HT & _)]].
  - pose proof (no_thread_null st q x K N) as E. rewrite Em in E. congruence.
  - destruct HT as (_ & Hw & _ & M). rewrite Em in Hw, M. assert (w = z) as -> by congruence. done.
  - destruct HT as (_ & Hw & _ & M). rewrite Em in Hw, M. assert (w = z) as -> by congruence. done.
Qed.

Lemma new_body_of st q h t k m x i p :
  kernel_inv st q -> thread_memory st h t k -> t_kernel_stack x = k -> t_kernel_stack_size x = KERNEL_STACK_SIZE ->
  t_process x = p -> t_state x ≠ TASK_ZOMBIE -> 0 <= t_priority x < MAX_PRIO ->
  words_kept (zero_words STACK_WORDS k (k_stacks st)) m ->
  (ipc_caller i ≠ 0 -> is_thread (k_sch st) (ipc_caller i)) -> (ipc_reply_server i ≠ 0 -> is_thread (k_sch st) (ipc_reply_server i)) ->
  (forall u, u ≠ 0 -> forgotten (k_ipc st) u -> ipc_caller i ≠ u /\ ipc_reply_server i ≠ u) -> new_body st h m t x i p.
Proof using.
  intros K [T1 T2 [T3 T3'] [T4 T4'] T5 T6 T7] Ek Es Ep Est Hpr Hw L1 L2 HF. split; rewrite ?Ek; try done.
  - intros u z Hz Hn E. destruct (process_stack st q u z K Hz Hn) as [_ _ [_ M] _ _]. specialize (T7 _ _ M).
    rewrite E in T7. destruct T7 as [?|?]; cbn in *; unfold KERNEL_STACK_SIZE in *; lia.
  - split.
    + intros j Hj. apply Hw. rewrite zero_words_eq; [by eexists|]. unfold STACK_WORDS. unfold KERNEL_STACK_SIZE in *. lia.
    + intros a Ha. apply Hw. by apply zero_words_kept.
Qed.

(** ** process_create_main_thread, kthread_create *)

(** The thread that is made: it starts at [start] with [entry] and [arg] in its registers, on top of its own stack. *)
Definition first_thread (c : process) (proc flags k : Z) : thread :=
  mk_thread (p_pid c) proc TASK_RUNNING flags DEFAULT_PRIO 0 DEFAULT_TIME_SLICE k KERNEL_STACK_SIZE 0 0 0 0 (2 ^ 64 - 1).

Definition first_context (c : process) (entry arg k : Z) (start : code_addr) (user_stack now : Z) : xthread :=
  mk_xt (p_pid c) DEFAULT_PRIO (mk_ctx 0 0 arg entry 0 0 (u64 (u64 (k + KERNEL_STACK_SIZE) - 8)) start) user_stack now 0.

Lemma new_thread_ok st q proc flags entry arg start ustack c :
  kernel_inv st q -> k_procs st !! proc = Some c -> no_thread c ->
  exists t st', new_thread st proc flags entry arg start ustack = Some (t, st') /\ kernel_inv st' q /\
    ((t = 0 /\ unchanged st st') \/
     (exists h k, thread_memory st h t k /\
        st' = spawn st h (zero_words STACK_WORDS k (k_stacks st)) t (first_thread c proc flags k) zero_ithread
                (first_context c entry arg k start ustack (get_ticks (k_sch st))) proc c /\
        live_thread st' proc (link_thread t c))).
Proof using KHL.
  intros K Hc N. unfold new_thread. destruct (thread_alloc st q K) as (t & h1 & -> & D). cbn [mbind option_bind].
  destruct D as [(-> & K1 & L1)|(Ht0 & k & h2 & E2 & D)].
  { eexists 0, _. split; [done|]. split; [exact K1|]. left. by split. }
  rewrite (proj2 (Z.eqb_neq t 0) Ht0). cbn [k_procs with_heap]. rewrite Hc. cbn [mbind option_bind].
  unfold alloc_kernel_stack. cbn [k_heap with_heap]. rewrite E2. cbn [mbind option_bind].
  destruct D as [(-> & h3 & E3 & K3 & L3)|(Hk0 & TM)].
  { cbn [Z.eqb mbind option_bind k_heap with_heap]. rewrite E3. cbn [mbind option_bind]. eexists 0, _. split; [done|]. split; [exact K3|]. left. by split. }
  rewrite (proj2 (Z.eqb_neq k 0) Hk0). cbn [mbind option_bind]. rewrite (proj2 (Z.eqb_neq k 0) Hk0).
  change (with_heap (with_heap st h1) h2) with (with_heap st h2). change (k_stacks (with_heap st h2)) with (k_stacks st).
  rewrite (spawn_eq st h2 _ t _ _ _ proc c Hc).
  assert (new_body st h2 (zero_words STACK_WORDS k (k_stacks st)) t (first_thread c proc flags k) zero_ithread proc) as NB.
  { apply (new_body_of st q h2 t k); try done. by intros a. }
  destruct (add_thread_inv st q h2 _ t _ _ (first_context c entry arg k start ustack (get_ticks (k_sch st))) proc c K Hc N (tn_ok _ _ _ _ TM) (tn_more _ _ _ _ TM) NB) as [K' L'].
  eexists t, _. split; [done|]. split; [exact K'|]. right. by exists h2, k.
Qed.

(** A kernel thread is a process of its own without an address space; when its thread cannot be
    made, the process is destroyed again. *)
Lemma kthread_create_ok st q fn arg name :
  kernel_inv st q -> name_ok name ->
  exists t st' q', kthread_create st fn arg name = Some (t, st') /\ kernel_inv st' q' /\
    ((t = 0 /\ forall r, k_procs st' !! r = k_procs st !! r) \/
     (exists p c k, k_procs st !! p = None /\ k_procs st' = <[p := link_thread t c]> (k_procs st) /\ p_pid c ≠ 0 /\
        live_thread st' p (link_thread t c) /\ get_mm st' p = Some 0 /\
        threads (k_sch st') !! t = Some (first_thread c p TF_KTHREAD k) /\
        k_xts st' !! t = Some (first_context c fn arg k kthread_start 0 (get_ticks (k_sch st))))).
Proof using KHL ASL.
  intros K Hn. unfold kthread_create. destruct (process_create_ok st q name K Hn) as (p & s1 & -> & K1 & D). cbn [mbind option_bind].
  destruct D as [(-> & U)|(c & [[Cf Cf0] Cp _ [Cpid _] (Cpar & Cch & CN & _) _ _ Ci _ _ _ _])].
  { exists 0, s1, q. split; [done|]. split; [done|]. left. split; [done|]. intros r. by rewrite (proj1 (un_procs _ _ U)). }
  rewrite (proj2 (Z.eqb_neq p 0) Cf0). assert (k_procs s1 !! p = Some c) as Hc by (rewrite Cp; apply lookup_insert_eq).
  set (s2 := set_mm s1 p 0). assert (kernel_inv s2 q) as K2 by (apply set_mm_inv; [done|by eexists]).
  destruct (new_thread_ok s2 q p TF_KTHREAD fn arg kthread_start 0 c K2 Hc CN) as (t & s3 & -> & K3 & D3). cbn [mbind option_bind].
  destruct D3 as [(-> & U)|(h & k & TM & E3 & L3)].
  - change (0 =? 0) with true. cbv iota. assert (k_procs s3 !! p = Some c) as Hc3 by (by rewrite (proj1 (un_procs _ _ U))).
    destruct (process_destroy_ok s3 q p c K3 Hc3 (or_introl CN) Cch) as (s4 & q4 & -> & _ & K4 & R). cbn [mbind option_bind].
    exists 0, s4, q4. split; [done|]. split; [done|]. left. split; [done|]. intros r. rewrite (re_procs _ _ _ _ R r), (proj1 (un_procs _ _ U)).
    change (k_procs s2) with (k_procs s1). rewrite Cp. destruct (decide (r = p)) as [->|Hr]; [done|]. rewrite lookup_insert_ne by done.
    destruct (k_procs st !! r) as [y|] eqn:Ey; [|done]. simpl. f_equal. rewrite without_id; [by destruct y|]. intros Hin.
    destruct (ti_tree _ _ _ (ki_table _ _ K) r y Ey) as [_ TT]. destruct (proj1 (TT p) Hin) as (z & Hz & _). congruence.
  - assert (t ≠ 0) as Ht0 by apply TM. rewrite (proj2 (Z.eqb_neq t 0) Ht0). exists t, s3, q. split; [done|]. split; [done|]. right.
    exists p, c, k. split; [done|]. split; [|split; [lia|split; [done|]]].
    + rewrite E3. cbn. change (k_procs s2) with (k_procs s1). by rewrite Cp, insert_insert_eq.
    + rewrite E3. split; [apply lookup_insert_eq|]. split; [apply lookup_insert_eq|].
      cbn [k_xts spawn with_procs with_xts]. rewrite lookup_insert_eq. change (get_ticks (k_sch s2)) with (get_ticks (sch (k_ipc s1))). by rewrite Ci.
Qed.

End create.
