(* ===== verification/ProcessFork.v ===== *)
(** * Fork (kernel/proc/process.c) *)
From S2P Require Import Prelude Defs Sched IpcTag Ipc Endpoint Pid Process ProcessTable ProcessFrame ProcessInv ProcessLife ProcessCreate.

Section fork.
Context {H A : Type} `{KH : KernelHeap H} {KHL : KernelHeapLaws H} `{AS : AddressSpaces A} {ASL : AddressSpacesLaws A}.
Implicit Types (st : kernel H A) (q : run_queue).

(** ** The files *)

(** A process without files gets the table [f], which nobody else has. *)
Lemma set_files_inv st q p x f :
  kernel_inv st q -> k_procs st !! p = Some x -> (f ≠ 0 -> kh_live (k_heap st) f SIZEOF_FILES /\ is_Some (k_files st !! f)) ->
  (forall r y, k_procs st !! r = Some y -> r ≠ p -> p_files y ≠ 0 -> p_files y ≠ f) ->
  kernel_inv (with_procs st (<[p := p_set_files f x]> (k_procs st))) q.
Proof using.
  intros [K1 K2 K3 K4 K5 K6 K7 K8 K9 K10 K11 K12 K13 K14 K15] Hx Hf Hu. set (m := <[p := _]> _). set (st' := with_procs st m).
  assert (same_nodes (k_procs st) m) as SN by by eapply same_nodes_upd.
  assert (forall r y, thread_ok st r y -> thread_ok st' r y) as HT.
  { intros r y T. apply (thread_ok_kept st st' r y y); [done|done|]. intros _.
    split; [done|by eauto|done|intros z _ []; by split|]. intros z Hz Sz F. split; [done|by eauto]. }
  split; try done.
  - by eapply table_same; [exact K1|].
  - intros r. cbn. rewrite (same_nodes_dom (k_procs st) m r) by done. apply K6.
  - intros r y Hy. change (k_procs st') with m in Hy. apply lookup_insert_Some in Hy as [[<- <-]|[Hr Hy]].
    + destruct (K7 p x Hx) as [[M1 M2 M3] T]. split; [split; [exact M1|exact M2|exact Hf]|].
      apply (HT p x) in T. destruct T as [N|[(z & ?)|(z & ?)]]; [by left|right; left; by exists z|right; right; by exists z].
    + destruct (K7 r y Hy) as [[M1 M2 M3] T]. split; [by split|by apply HT].
  - intros r r' y y'. change (k_procs st') with m. unfold m. rewrite !lookup_insert_Some.
    intros [[<- <-]|[Hr Hy]] [[<- <-]|[Hr' Hy']] Hn Ef; [done| | |by eapply K8].
    + cbn in Hn, Ef. destruct (Hu r' y' Hy'); congruence.
    + cbn in Ef. by destruct (Hu r y Hy (not_eq_sym Hr)).
  - intros t y Hy Hn. destruct (K12 t y Hy Hn) as (x0 & Hx0 & Em). change (k_procs st') with m. unfold m.
    destruct (decide (t_process y = p)) as [Ep|Ep].
    + exists (p_set_files f x). rewrite Ep in *. rewrite lookup_insert_eq. split; [done|]. cbn. congruence.
    + exists x0. by rewrite lookup_insert_ne.
Qed.

(** [process_files_clone]: the new table has the entries of the old one. *)
Lemma files_clone_ok st q src l :
  kernel_inv st q -> src ≠ 0 -> kh_live (k_heap st) src SIZEOF_FILES -> k_files st !! src = Some l ->
  exists f h fs, process_files_clone st src = Some (f, with_files (with_heap st h) fs) /\ kernel_inv (with_files (with_heap st h) fs) q /\
    (forall b n, kh_live h b n <-> kh_live (k_heap st) b n \/ (f ≠ 0 /\ (b, n) = (f, SIZEOF_FILES))) /\
    (forall g, g ≠ f -> fs !! g = k_files st !! g) /\
    (f ≠ 0 -> kh_live h f SIZEOF_FILES /\ fs !! f = Some l /\ forall b n, kh_live (k_heap st) b n -> b ≠ f).
Proof using KHL.
  intros K Hs Ls Hl. unfold process_files_clone, process_files_create.
  destruct (kmalloc_cases (k_heap st) SIZEOF_FILES (ki_heap _ _ K)) as (f & h & -> & Hok & D); [done|]. cbn [mbind option_bind].
  destruct D as [[-> L]|[Hf0 F]].
  - cbn [Z.eqb mbind option_bind]. assert (more_live (k_heap st) h) as M by (intros b m; apply L).
    exists 0, h, (k_files st). split; [by destruct st|]. split; [|split; [|done]].
    2: { intros b n. rewrite (L b n). split; [by left|]. intros [?|[? _]]; done. }
    assert (with_files (with_heap st h) (k_files st) = with_heap st h) as -> by by destruct st. by apply kernel_inv_heap.
  - rewrite (proj2 (Z.eqb_neq f 0) Hf0). cbn [mbind option_bind]. rewrite (proj2 (Z.eqb_neq f 0) Hf0), (proj2 (Z.eqb_neq src 0) Hs). cbn [negb].
    destruct (fresh_more _ _ _ _ F) as [M Lf]. assert (forall b n, kh_live (k_heap st) b n -> b ≠ f) as Hne.
    { intros b n Hb. by apply (fresh_ne (k_heap st) f SIZEOF_FILES h b n (ki_heap _ _ K) ltac:(done) F). }
    cbn [k_files with_files]. rewrite lookup_insert_ne by (intros E; by apply (Hne src SIZEOF_FILES Ls)). cbn [k_files with_heap]. rewrite Hl. cbn [mbind option_bind].
    rewrite insert_insert_eq. exists f, h, (<[f := l]> (k_files st)). split; [done|]. split; [|split; [|split]].
    + apply kernel_inv_files; [by apply kernel_inv_heap|]. intros p x Hx Hn. apply lookup_insert_is_Some'. right. by apply (ki_proc _ _ K p x Hx).
    + intros b n. rewrite (fo_live _ _ _ _ F). tauto.
    + intros g Hg. by rewrite lookup_insert_ne.
    + intros _. split; [done|]. split; [apply lookup_insert_eq|done].
Qed.

(** What changed when [child], with the fields [c], got other files. *)
Record refiled st (child : Z) (c : process) (f : Z) st' : Prop := {
  rf_procs : k_procs st' = <[child := p_set_files f c]> (k_procs st);
  rf_rest : st' = with_procs (with_files (with_heap st (k_heap st')) (k_files st')) (k_procs st');
  rf_other : forall g, g ≠ f -> g ≠ p_files c -> k_files st' !! g = k_files st !! g;
  rf_heap : forall b n, kh_live (k_heap st') b n <->
    (kh_live (k_heap st) b n /\ b ≠ p_files c) \/ (f ≠ 0 /\ (b, n) = (f, SIZEOF_FILES));
  rf_new : forall b n, kh_live (k_heap st) b n -> b ≠ p_files c -> f ≠ 0 -> b ≠ f
}.

Lemma files_destroy_procs st m f st1 :
  process_files_destroy st f = Some st1 -> process_files_destroy (with_procs st m) f = Some (with_procs st1 m).
Proof using.
  unfold process_files_destroy. destruct (f =? 0); [by intros [= <-]|]. change (k_heap (with_procs st m)) with (k_heap st).
  destruct (kfree (k_heap st) f); [|done]. cbn [mbind option_bind]. by intros [= <-].
Qed.

Lemma files_clone_procs st m f g st1 :
  process_files_clone st f = Some (g, st1) -> process_files_clone (with_procs st m) f = Some (g, with_procs st1 m).
Proof using.
  unfold process_files_clone, process_files_create. change (k_heap (with_procs st m)) with (k_heap st).
  destruct (kmalloc (k_heap st) SIZEOF_FILES) as [[a h]|]; [|done]. cbn [mbind option_bind]. destruct (a =? 0) eqn:Ea; cbn [mbind option_bind]; rewrite ?Ea.
  - by intros [= <- <-].
  - destruct (f =? 0); cbn [negb]; [by intros [= <- <-]|]. change (k_files (with_files (with_heap (with_procs st m) h) _)) with (<[a := empty_files]> (k_files st)).
    change (k_files (with_files (with_heap st h) _)) with (<[a := empty_files]> (k_files st)).
    destruct (_ !! f); [|done]. cbn [mbind option_bind]. by intros [= <- <-].
Qed.

Lemma live_size (h : H) a n m : kh_ok h -> kh_live h a n -> kh_live h a m -> n = m.
Proof using KHL.
  intros Hok Hn Hm. pose proof (kh_size h a n Hok Hn). pose proof (kh_size h a m Hok Hm).
  destruct (kh_apart h a n a m Hok Hn Hm) as [[= ?]|[?|?]]; cbn in *; lia.
Qed.

Lemma fork_files_ok st q parent pp child c :
  kernel_inv st q -> k_procs st !! child = Some c -> k_procs st !! parent = Some pp -> parent ≠ child -> p_files c ≠ 0 ->
  exists ok f st', fork_files st pp child = Some (ok, st') /\ kernel_inv st' q /\ refiled st child c f st' /\
    (ok = true -> f ≠ 0 /\ (p_files pp ≠ 0 -> k_files st' !! f = k_files st !! p_files pp)) /\
    (p_files pp = 0 -> st' = st).
Proof using KHL.
  intros K Hc Hpp Hne Hf0. unfold fork_files. destruct (Z.eqb_spec (p_files pp) 0) as [E0|E0]; cbn [negb].
  { exists true, (p_files c), st. split; [done|]. split; [done|]. split; [|done]. assert (p_set_files (p_files c) c = c) as Ec by by destruct c.
    split; [by rewrite Ec, insert_id|by destruct st|done| |done]. intros b n. destruct (proj1 (ki_proc _ _ K child c Hc)) as [_ _ MF].
    destruct (MF Hf0) as [Lf _]. split; [|intros [[? _]|[_ [= -> ->]]]; done].
    intros Hb. destruct (decide (b = p_files c)) as [->|Hbf]; [|by left]. right. split; [done|]. f_equal.
    by apply (live_size (k_heap st) (p_files c)); [apply K|..]. }
  rewrite Hc. cbn [mbind option_bind]. destruct (files_step st q child c K Hc Hf0) as (K1 & L1 & U1). set (st1 := with_procs st _) in *.
  destruct (files_destroy_inv st1 q (p_files c) K1 Hf0 L1 U1) as (h1 & E1 & K2 & L2).
  assert (st = with_procs st1 (k_procs st)) as Est by by destruct st.
  pose proof (files_destroy_procs _ (k_procs st) _ _ E1) as E1'. rewrite <- Est in E1'. rewrite E1'. cbn [mbind option_bind].
  set (st2 := with_files (with_heap st1 h1) _) in *. assert (p_files pp ≠ p_files c) as Hfne.
  { intros E. apply Hne. by apply (ki_files _ _ K parent child pp c). }
  destruct (proj1 (ki_proc _ _ K parent pp Hpp)) as [_ _ MF]. destruct (MF E0) as [Lp [l Hl]].
  destruct (files_clone_ok st2 q (p_files pp) l K2 E0) as (f & h3 & fs & E3 & K3 & M3 & O3 & F3).
  { apply L2. done. } { cbn. by rewrite lookup_delete_ne. }
  rewrite (files_clone_procs _ _ _ _ _ E3). cbn [mbind option_bind]. set (st3 := with_files (with_heap st2 h3) fs) in *.
  rewrite (upd_proc_eq _ child _ c) by exact Hc. cbn [mbind option_bind k_procs with_procs].
  exists (negb (f =? 0)), f. eexists. split; [done|].
  assert (with_procs st3 (<[child := p_set_files f c]> (k_procs st)) = with_procs st3 (<[child := p_set_files f (p_set_files 0 c)]> (k_procs st3))) as Efin.
  { cbn. by rewrite insert_insert_eq. }
  split; [|split; [|split; [|done]]].
  - change (kernel_inv (with_procs st3 (<[child := p_set_files f c]> (k_procs st))) q). rewrite Efin. apply set_files_inv; [done|apply lookup_insert_eq| |].
    + intros Hf. destruct (F3 Hf) as (Lf & Hfl & _). split; [done|by eexists].
    + intros r y Hy Hr Hn. change (k_procs st3) with (k_procs st1) in Hy. destruct (decide (f = 0)) as [->|Hf]; [done|]. destruct (F3 Hf) as (_ & _ & Fr).
      apply (Fr _ SIZEOF_FILES). apply L2. split; [by apply (ki_proc _ _ K1 r y Hy)|by apply (U1 r)].
  - split; [done|by destruct st| | |].
    + intros g Hg Hgc. change (fs !! g = k_files st !! g). rewrite O3 by done. cbn. by rewrite lookup_delete_ne.
    + intros b n. change (kh_live h3 b n <-> (kh_live (k_heap st) b n /\ b ≠ p_files c) \/ (f ≠ 0 /\ (b, n) = (f, SIZEOF_FILES))). rewrite M3. change (k_heap st2) with h1. by rewrite L2.
    + intros b n Hb Hbc Hf. destruct (F3 Hf) as (_ & _ & Fr). apply (Fr b n). by apply L2.
  - intros Hf%negb_true_iff%Z.eqb_neq. split; [done|]. intros _. rewrite Hl. apply (F3 Hf).
Qed.

(** ** The place in the tree *)

Lemma hang_inv st q parent pp child c :
  kernel_inv st q -> k_procs st !! child = Some c -> k_procs st !! parent = Some pp -> parent ≠ child -> p_parent c = 0 ->
  let m := <[parent := p_set_children (p_children pp ++ [child]) pp]> (<[child := p_set_parent parent c]> (k_procs st)) in
  (st ← upd_proc st child (p_set_parent parent); upd_proc st parent (fun p => p_set_children (p_children p ++ [child]) p)) = Some (with_procs st m) /\
  kernel_inv (with_procs st m) q.
Proof using.
  intros K Hc Hpp Hne Hpar m. split.
  { rewrite (upd_proc_eq st child _ c Hc). cbn [mbind option_bind]. rewrite (upd_proc_eq _ parent _ pp); [done|]. cbn. by rewrite lookup_insert_ne. }
  assert (unlink_sibling child (k_procs st) = k_procs st) as EU.
  { apply unlink_id. destruct (sibling_linked child (k_procs st)) eqn:E; [|done]. apply sibling_linked_spec in E as (r & x & Hx & Hin).
    destruct (ti_tree _ _ _ (ki_table _ _ K) r x Hx) as [_ TT]. destruct (proj1 (TT child) Hin) as (y & Hy & Er).
    assert (r = 0) as -> by congruence. by rewrite (ti_null _ _ _ (ki_table _ _ K)) in Hx. }
  apply kernel_inv_procs; [done| |].
  - apply (table_hung (k_procs st) _ _ child parent); [apply K|by eexists|by eexists|]. 
    pose proof (hang_ok (k_procs st) child parent c pp) as HK. cbv zeta in HK. rewrite EU in HK. apply HK; [done|]. by rewrite lookup_insert_ne.
  - intros r. unfold m. destruct (decide (r = parent)) as [->|Hr]; [by rewrite lookup_insert_eq, Hpp|]. rewrite lookup_insert_ne by done.
    destruct (decide (r = child)) as [->|Hr']; [by rewrite lookup_insert_eq, Hc|by rewrite lookup_insert_ne].
Qed.

(** ** The memory *)

Lemma clone_mm_inv st q p a m :
  kernel_inv st q -> is_Some (k_procs st !! p) -> as_ok a -> (forall b, as_live (k_as st) b -> as_live a b) ->
  (m ≠ 0 -> as_live a m /\ ~ as_live (k_as st) m) -> kernel_inv (set_mm (with_as st a) p m) q.
Proof using.
  intros [K1 K2 K3 K4 K5 K6 K7 K8 K9 K10 K11 K12 K13 K14 K15] Hp Hok Ha Hm.
  assert (forall r, is_Some (<[p := m]> (procs (k_sch st)) !! r) <-> is_Some (procs (k_sch st) !! r)) as Hdom.
  { intros r. rewrite lookup_insert_is_Some'. split; [intros [<-|?]; [by apply K6|done]|by right]. }
  split; try done.
  - apply (ipc_inv_sch (k_ipc st)); [done| |done]. apply sched_inv_procs; [apply K2|]. intros t y Hy Hn. apply Hdom.
    by apply (si_threads _ _ (ii_sched _ _ K2)) with t.
  - destruct K3. by split.
  - intros r. unfold k_sch. cbn. fold (k_sch st). rewrite Hdom. apply K6.
  - intros r x Hx. destruct (K7 r x Hx) as [[M1 M2 M3] T]. split; [by split|].
    apply (thread_ok_kept st _ r x x); [done|done|]. intros _. split; [done|by eauto|done|intros z _ []; by split|].
    intros z Hz Hz' [G1 G2 G3 G4]. split; [by split|by eauto].
  - intros r mm. unfold k_sch. cbn. fold (k_sch st). rewrite lookup_insert_Some. intros [[<- <-]|[Hr Hmm]] Hn.
    + destruct (Hm Hn) as [L N]. split; [done|]. intros r'. rewrite lookup_insert_Some. intros [[<- _]|[Hr Hmm]]; [done|]. by destruct N, (K9 r' m Hmm Hn).
    + destruct (K9 r mm Hmm Hn) as [L U]. split; [by apply Ha|]. intros r'. rewrite lookup_insert_Some.
      intros [[<- <-]|[_ Hm']]; [by destruct (proj2 (Hm Hn))|by apply U].
Qed.

(** The child's IPC window: [w] with the contents [l]. *)
Lemma window_inv st q p x w l :
  kernel_inv st q -> iprocs (k_ipc st) !! p = Some x -> (w ≠ 0 -> zlen l = OCEAN_IPC_WINDOW_SIZE) ->
  kernel_inv (with_ipc st (with_frames (with_iprocs (k_ipc st) (<[p := mk_ip (owned_endpoints x) w]> (iprocs (k_ipc st))))
    (if w =? 0 then frames (k_ipc st) else <[w := l]> (frames (k_ipc st))))) q.
Proof using.
  intros [K1 K2 K3 K4 K5 K6 K7 K8 K9 K10 K11 K12 K13 K14 K15] Hx Hl. set (m := <[p := _]> _). set (fs := if w =? 0 then _ else _).
  assert (forall r, is_Some (m !! r) <-> is_Some (iprocs (k_ipc st) !! r)) as Hdom.
  { intros r. unfold m. rewrite lookup_insert_is_Some'. split; [intros [<-|?]; [by eexists|done]|by right]. }
  split; try done.
  - destruct K2 as [B1 B2 B3 B4 B5 B6]. split; try done.
    + intros t y Hy. destruct (B2 t y Hy) as [Hi Hpo]. split; [done|]. intros Hn. apply Hdom. by apply Hpo.
    + intros r z. cbn. unfold m. rewrite lookup_insert_Some. intros [[<- <-]|[Hr Hz]] Hn; cbn in *; unfold fs.
      * rewrite (proj2 (Z.eqb_neq w 0) Hn), lookup_insert_eq. exists l. split; [done|by apply Hl].
      * destruct (B3 r z Hz Hn) as (f & Hf & Ef). destruct (Z.eqb_spec w 0) as [|Hw]; [by exists f|].
        destruct (decide (ipc_window_phys z = w)) as [->|Hne]; [rewrite lookup_insert_eq; exists l; split; [done|by apply Hl]|].
        rewrite lookup_insert_ne by done. by exists f.
  - destruct K3 as [E1 E2 E3 E4 E5 E6]. split; try done. intros b Hb. destruct (E3 b Hb) as (e & He & Hr & Hpo).
    exists e. split; [done|]. split; [done|]. intros Hal Hn. apply Hdom. by apply Hpo.
  - intros r. cbn. rewrite Hdom. apply K6.
  - intros r y Hy. destruct (K7 r y Hy) as [[M1 M2 M3] T]. split; [by split|].
    apply (thread_ok_kept st _ r y y); [done|done|]. intros _. split; [done|by eauto|done|intros z _ []; by split|].
    intros z Hz Hz' [G1 G2 G3 G4]. split; [by split|by eauto].
  - intros r y. cbn. unfold m. rewrite lookup_insert_Some. intros [[<- <-]|[Hr Hy]].
    + destruct (K10 p x Hx) as (_ & ND & Ho). split; [apply lookup_insert_eq|done].
    + destruct (K10 r y Hy) as (_ & ND & Ho). split; [cbn; by rewrite lookup_insert_ne|done].
  - intros b e He Hal Hn. destruct (K11 b e He Hal Hn) as (y & Hy & Hin). cbn. unfold m. destruct (decide (ep_owner e = p)) as [Ep|Ep].
    + rewrite Ep in *. rewrite lookup_insert_eq. eexists. split; [done|]. cbn. assert (y = x) as -> by congruence. done.
    + rewrite lookup_insert_ne by done. by exists y.
Qed.

(** What [fork_memory] leaves alone, and what the child gets. *)
Record remapped st (parent child : Z) (ok : bool) st' : Prop := {
  rm_rest : st' = with_as (with_ipc st (k_ipc st')) (k_as st');
  rm_ipc : its (k_ipc st') = its (k_ipc st) /\ eps (k_ipc st') = eps (k_ipc st) /\ waits (k_ipc st') = waits (k_ipc st);
  rm_sched : k_sch st' = sched_procs (k_sch st) (procs (k_sch st'));
  rm_kept : spaces_kept (k_as st) (k_as st');
  rm_windows : forall r, r ≠ child -> iprocs (k_ipc st') !! r = iprocs (k_ipc st) !! r;
  rm_mm : exists mm mm', get_mm st parent = Some mm /\ procs (k_sch st') = <[child := mm']> (procs (k_sch st)) /\
    (mm = 0 -> mm' = 0) /\ (forall b, as_live (k_as st') b <-> as_live (k_as st) b \/ (mm' ≠ 0 /\ b = mm')) /\ (mm' ≠ 0 -> ~ as_live (k_as st) mm') /\
    (mm ≠ 0 -> ok = true -> mm' ≠ 0 /\ as_live (k_as st') mm' /\ as_live (k_as st') mm /\ ~ as_live (k_as st) mm' /\
       copy_of (k_as st) (window_page st parent) mm (k_as st') mm' /\
       exists l w, as_window (k_as st') mm' = Some (w, l) /\ (ipc_window_phys <$> iprocs (k_ipc st') !! child = Some w) /\
         (w ≠ 0 -> window (k_ipc st') child = Some l))
}.

(** The window of a process, if it has one, is a page of bytes. *)
Definition window_bytes st (p : Z) : Prop := forall l, window (k_ipc st) p = Some l -> Forall (fun b => 0 <= b < 2 ^ 8) l.

Lemma window_page_ok st q p w l :
  kernel_inv st q -> window_bytes st p -> window_page st p = Some (w, l) -> page_of_bytes l.
Proof using.
  intros K WB. unfold window_page. destruct (iprocs (k_ipc st) !! p) as [x|] eqn:Ex; [|done]. cbn [mbind option_bind].
  destruct (window (k_ipc st) p) as [l'|] eqn:El; [|done]. intros [= _ <-]. split; [|by apply WB]. revert El. unfold window. rewrite Ex. cbn [mbind option_bind].
  destruct (Z.eqb_spec (ipc_window_phys x) 0) as [|Hn]; [done|]. intros Hl.
  destruct (ii_windows _ _ (ki_ipc _ _ K) p x Ex Hn) as (f & Hf & Ef). assert (f = l') as -> by congruence. exact Ef.
Qed.

Lemma adopt_ok st q child m :
  kernel_inv st q -> is_Some (k_procs st !! child) -> get_mm st child = Some m -> m ≠ 0 ->
  exists st' w l x, adopt_ipc_window st child = Some st' /\ kernel_inv st' q /\ as_window (k_as st) m = Some (w, l) /\
    iprocs (k_ipc st) !! child = Some x /\
    st' = with_ipc st (with_frames (with_iprocs (k_ipc st) (<[child := mk_ip (owned_endpoints x) w]> (iprocs (k_ipc st))))
      (if w =? 0 then frames (k_ipc st) else <[w := l]> (frames (k_ipc st)))).
Proof using ASL.
  intros K Hc Hm Hn. unfold adopt_ipc_window. rewrite Hm. cbn [mbind option_bind]. rewrite (proj2 (Z.eqb_neq m 0) Hn).
  destruct (as_window_law (k_as st) m (ki_as _ _ K)) as (w & l & -> & HW); [by apply (ki_mm _ _ K child m)|]. cbn [mbind option_bind].
  destruct (proj2 (proj1 (ki_dom _ _ K child)) Hc) as [x Hx]. unfold set_window. rewrite Hx. cbn [mbind option_bind].
  eexists _, w, l, x. split; [done|]. set (st' := if w =? 0 then _ else _).
  assert (st' = with_ipc st (with_frames (with_iprocs (k_ipc st) (<[child := mk_ip (owned_endpoints x) w]> (iprocs (k_ipc st))))
      (if w =? 0 then frames (k_ipc st) else <[w := l]> (frames (k_ipc st))))) as E.
  { unfold st'. by destruct (w =? 0). }
  split; [|done]. rewrite E. apply window_inv; [done|done|]. intros Hw. by destruct (HW Hw).
Qed.

Lemma fork_memory_ok st q parent child :
  kernel_inv st q -> is_Some (k_procs st !! parent) -> is_Some (k_procs st !! child) -> get_mm st child = Some 0 -> window_bytes st parent ->
  exists ok st', fork_memory st parent child = Some (ok, st') /\ kernel_inv st' q /\ remapped st parent child ok st'.
Proof using ASL.
  intros K Hp Hc Hc0 WB. unfold fork_memory. destruct (proj2 (proj2 (ki_dom _ _ K parent)) Hp) as [mm Hmm].
  unfold get_mm at 1. rewrite Hmm. cbn [mbind option_bind]. destruct (Z.eqb_spec mm 0) as [->|Hn]; cbn [negb].
  { exists true, st. split; [done|]. split; [done|]. split; [by destruct st|done|by destruct st as [[[]]]|done|done|]. exists 0, 0. split; [done|].
    split; [symmetry; by apply insert_id|]. split; [done|]. split; [intros b; tauto|done]. }
  destruct (ki_mm _ _ K parent mm Hmm Hn) as [Lm _].
  destruct (as_clone_law (k_as st) (window_page st parent) mm (ki_as _ _ K) Lm) as (m & a & -> & Hok & HK & D).
  { intros w l. by apply (window_page_ok st q). }
  cbn [mbind option_bind].
  assert ((forall b, as_live (k_as st) b -> as_live a b) /\ (m ≠ 0 -> as_live a m /\ ~ as_live (k_as st) m)) as [Ha Hm].
  { destruct D as [[-> L]|(M0 & M1 & L & _)]; [split; [intros b; apply L|done]|]. split; [intros b Hb; apply L; by left|]. intros _. split; [|done]. apply L. by right. }
  pose proof (clone_mm_inv st q child a m K Hc Hok Ha Hm) as K1. set (st1 := set_mm (with_as st a) child m) in *.
  destruct (Z.eqb_spec m 0) as [->|Hm0].
  { exists false, st1. split; [done|]. split; [done|]. split; [done|done|done|exact HK|done|]. exists mm, 0. do 3 (split; [done|]).
    split; [|done]. intros b. destruct D as [[_ L]|(? & _)]; [|done]. change (as_live a b <-> as_live (k_as st) b \/ 0 ≠ 0 /\ b = 0). rewrite L. tauto. }
  destruct (adopt_ok st1 q child m K1 Hc) as (st' & w & l & x & -> & K' & Ew & Hx & E'); [apply lookup_insert_eq|done|]. cbn [mbind option_bind].
  exists true, st'. split; [done|]. split; [done|]. rewrite E'. split; [done|done|done|exact HK|intros r Hr; cbn; by rewrite lookup_insert_ne|]. exists mm, m. do 3 (split; [done|]). split.
  { intros b. destruct D as [[? _]|(_ & _ & L & _)]; [done|]. change (as_live a b <-> as_live (k_as st) b \/ m ≠ 0 /\ b = m). rewrite L. tauto. }
  destruct (Hm Hm0) as [L N]. split; [done|]. intros _ _. split; [done|]. split; [done|]. split; [by apply Ha|]. split; [done|].
  split; [destruct D as [[? _]|(_ & _ & _ & C)]; [done|exact C]|].
  exists l, w. split; [done|]. cbn. rewrite lookup_insert_eq. split; [done|]. intros Hw. unfold window. cbn. rewrite lookup_insert_eq. cbn.
  rewrite (proj2 (Z.eqb_neq w 0) Hw). apply lookup_insert_eq.
Qed.

(** ** The process *)

(** The threads and what they see are left alone. *)
Record threads_same st st' : Prop := {
  ts_sched : k_sch st' = sched_procs (k_sch st) (procs (k_sch st'));
  ts_its : its (k_ipc st') = its (k_ipc st) /\ eps (k_ipc st') = eps (k_ipc st) /\ waits (k_ipc st') = waits (k_ipc st);
  ts_mem : k_xts st' = k_xts st /\ k_stacks st' = k_stacks st /\ boot_rsp st' = boot_rsp st
}.

(** The child's fields, [f] being its files and [r] its parent. *)
Definition inherited (pp : process) (f r : Z) (c : process) : process := p_set_parent r (p_set_files f (p_inherit pp c)).

Record forked_process st (parent : Z) (pp : process) (child : Z) (c : process) (ok : bool) st' : Prop := {
  fp_child : exists f r, k_procs st' !! child = Some (inherited pp f r c) /\
    (forall b n, kh_live (k_heap st') b n <-> (kh_live (k_heap st) b n /\ b ≠ p_files c) \/ (f ≠ 0 /\ (b, n) = (f, SIZEOF_FILES))) /\
    (forall b n, kh_live (k_heap st) b n -> b ≠ p_files c -> f ≠ 0 -> b ≠ f);
  fp_other : forall r, r ≠ child -> k_procs st' !! r = k_procs st !! r \/
    r = parent /\ k_procs st' !! r = Some (p_set_children (p_children pp ++ [child]) pp);
  fp_as : spaces_kept (k_as st) (k_as st') /\ exists m, get_mm st' child = Some m /\ (m ≠ 0 -> ~ as_live (k_as st) m) /\
    forall b, as_live (k_as st') b <-> as_live (k_as st) b \/ (m ≠ 0 /\ b = m);
  fp_procs : ok = true -> exists f, k_procs st' =
      <[parent := p_set_children (p_children pp ++ [child]) pp]> (<[child := inherited pp f parent c]> (k_procs st)) /\
    f ≠ 0 /\ (p_files pp ≠ 0 -> k_files st' !! f = k_files st !! p_files pp);
  fp_list : process_list st' = process_list st /\ k_pids st' = k_pids st /\ init_process st' = init_process st;
  fp_threads : threads_same st st';
  fp_mm : ok = true -> exists s, k_as s = k_as st /\ k_sch s = k_sch st /\ k_ipc s = k_ipc st /\ remapped s parent child true st'
}.

Lemma fork_process_ok st q parent pp child c :
  kernel_inv st q -> k_procs st !! parent = Some pp -> k_procs st !! child = Some c -> parent ≠ child -> p_files c ≠ 0 -> p_parent c = 0 ->
  get_mm st child = Some 0 -> window_bytes st parent ->
  exists ok st', fork_process st parent child = Some (ok, st') /\ kernel_inv st' q /\ forked_process st parent pp child c ok st'.
Proof using KHL ASL.
  intros K Hpp Hc Hne Hf Hpar Hmm WB. unfold fork_process. rewrite Hpp. cbn [mbind option_bind].
  rewrite (upd_proc_eq st child _ c Hc). cbn [mbind option_bind]. set (c1 := p_inherit pp c). set (st1 := with_procs st (<[child := c1]> _)).
  assert (kernel_inv st1 q) as K1 by by apply (kernel_inv_upd st q child c c1).
  assert (k_procs st1 !! child = Some c1) as Hc1 by apply lookup_insert_eq.
  assert (k_procs st1 !! parent = Some pp) as Hp1 by (cbn; by rewrite lookup_insert_ne).
  destruct (fork_files_ok st1 q parent pp child c1 K1 Hc1 Hp1 Hne Hf) as (ok & f & st2 & -> & K2 & [RP RR _ RH RN] & Hok & _). cbn [mbind option_bind].
  set (c2 := p_set_files f c1) in *. assert (k_procs st2 = <[child := c2]> (k_procs st)) as P2 by (rewrite RP; apply insert_insert_eq).
  destruct ok; cbn [negb].
  2: { exists false, st2. split; [done|]. split; [done|]. assert (k_ipc st2 = k_ipc st) as Ei by (by rewrite RR). split; try done.
       - exists f, 0. rewrite P2, lookup_insert_eq. split; [|by split]. f_equal. unfold inherited, c2, c1. destruct c. cbn in *. by subst.
       - intros r Hr. left. by rewrite P2, lookup_insert_ne.
       - split; [by rewrite RR|]. exists 0. split; [unfold get_mm, k_sch in *; by rewrite Ei|]. split; [done|]. intros b. rewrite RR. cbn. tauto.
       - by rewrite RR.
       - rewrite RR. split; [by destruct st as [[[]]]|done|done]. }
  destruct (Hok eq_refl) as [Hf0 Hfl].
  assert (k_procs st2 !! child = Some c2) as Hc2 by (rewrite P2; apply lookup_insert_eq).
  assert (k_procs st2 !! parent = Some pp) as Hp2 by (rewrite P2; by rewrite lookup_insert_ne).
  destruct (hang_inv st2 q parent pp child c2 K2 Hc2 Hp2 Hne Hpar) as [E3 K3]. cbv zeta in E3, K3. set (st3 := with_procs st2 _) in *.
  destruct (upd_proc st2 child (p_set_parent parent)) as [s|] eqn:Es; [|done]. cbn [mbind option_bind] in *. rewrite E3. cbn [mbind option_bind].
  assert (is_Some (k_procs st3 !! parent)) as H3p by (apply lookup_insert_is_Some'; by left).
  assert (is_Some (k_procs st3 !! child)) as H3c by (apply lookup_insert_is_Some'; right; apply lookup_insert_is_Some'; by left).
  assert (k_ipc st3 = k_ipc st) as Ei by (by change (k_ipc st2 = k_ipc st); rewrite RR).
  destruct (fork_memory_ok st3 q parent child K3 H3p H3c) as (ok & st4 & -> & K4 & RM); [unfold get_mm, k_sch in *; by rewrite Ei|unfold window_bytes; by rewrite Ei|].
  pose proof RM as [MR MI MS MK _ _]. exists ok, st4. split; [done|]. split; [done|].
  assert (k_procs st4 = k_procs st3) as P4 by (by rewrite MR). assert (k_files st4 = k_files st2) as F4 by (by rewrite MR).
  assert (k_procs st3 = <[parent := p_set_children (p_children pp ++ [child]) pp]> (<[child := inherited pp f parent c]> (k_procs st))) as P3.
  { change (k_procs st3) with (<[parent := p_set_children (p_children pp ++ [child]) pp]> (<[child := p_set_parent parent c2]> (k_procs st2))).
    by rewrite P2, insert_insert_eq. }
  split.
  - exists f, parent. rewrite P4, P3, lookup_insert_ne by done. split; [apply lookup_insert_eq|]. assert (k_heap st4 = k_heap st2) as -> by (by rewrite MR). by split.
  - intros r Hr. rewrite P4, P3. destruct (decide (r = parent)) as [->|Hrp]; [right; split; [done|apply lookup_insert_eq]|left]. by rewrite !lookup_insert_ne.
  - destruct (rm_mm _ _ _ _ _ RM) as (mm & mm' & _ & Ep & _ & La & Ln & _).
    assert (k_as st3 = k_as st) as <- by (change (k_as st2 = k_as st); by rewrite RR). split; [exact MK|].
    exists mm'. unfold get_mm. rewrite Ep. split; [apply lookup_insert_eq|by split].
  - intros _. exists f. rewrite P4, P3, F4. split; [done|]. split; [done|]. intros Hfp. exact (Hfl Hfp).
  - rewrite MR. change (process_list st2 = process_list st /\ k_pids st2 = k_pids st /\ init_process st2 = init_process st). by rewrite RR.
  - split.
    + rewrite MS at 1. unfold k_sch at 1. by rewrite Ei.
    + by rewrite <- Ei.
    + rewrite MR. change (k_xts st2 = k_xts st /\ k_stacks st2 = k_stacks st /\ boot_rsp st2 = boot_rsp st). by rewrite RR.
  - intros ->. exists st3. split; [change (k_as st2 = k_as st); by rewrite RR|]. split; [unfold k_sch; by rewrite Ei|done].
Qed.

(** ** The thread *)

Lemma stack_copy_ok n : forall dst src m,
  (forall j, 0 <= j < Z.of_nat n -> is_Some (m !! (src + 8 * j)) /\ is_Some (m !! (dst + 8 * j))) ->
  (forall i j, 0 <= i < Z.of_nat n -> 0 <= j < Z.of_nat n -> src + 8 * i ≠ dst + 8 * j) ->
  exists m', copy_words n dst src m = Some m' /\ (forall j, 0 <= j < Z.of_nat n -> m' !! (dst + 8 * j) = m !! (src + 8 * j)) /\
    (forall k, (forall j, 0 <= j < Z.of_nat n -> k ≠ dst + 8 * j) -> m' !! k = m !! k).
Proof using.
  induction n as [|n IH]; intros dst src m Hw Hd; cbn [copy_words]; [exists m; split; [done|]; split; [lia|done]|].
  destruct (Hw 0 ltac:(lia)) as [[w Hs] [v Hv]]. rewrite Z.mul_0_r, Z.add_0_r in Hs, Hv. rewrite Hs, Hv. cbn [mbind option_bind].
  destruct (IH (dst + 8) (src + 8) (<[dst := w]> m)) as (m' & E & In & Out).
  - intros j Hj. destruct (Hw (j + 1) ltac:(lia)) as [S1 S2]. replace (src + 8 + 8 * j) with (src + 8 * (j + 1)) by lia.
    replace (dst + 8 + 8 * j) with (dst + 8 * (j + 1)) by lia. split; apply lookup_insert_is_Some'; by right.
  - intros i j Hi Hj. specialize (Hd (i + 1) (j + 1) ltac:(lia) ltac:(lia)). lia.
  - exists m'. split; [done|]. split.
    + intros j Hj. destruct (decide (j = 0)) as [->|Hj0].
      * rewrite Z.mul_0_r, !Z.add_0_r, Out by lia. rewrite lookup_insert_eq. by rewrite Hs.
      * replace (dst + 8 * j) with (dst + 8 + 8 * (j - 1)) by lia. rewrite In by lia. replace (src + 8 + 8 * (j - 1)) with (src + 8 * j) by lia.
        apply lookup_insert_ne. specialize (Hd j 0 ltac:(lia) ltac:(lia)). lia.
    + intros k Hk. rewrite Out.
      * apply lookup_insert_ne. intros <-. apply (Hk 0); lia.
      * intros j Hj E'. apply (Hk (j + 1)); lia.
Qed.

(** A thread that does not run yet is put on the run queue. *)
Lemma sched_add_ok st q t y :
  kernel_inv st q -> threads (k_sch st) !! t = Some y -> t_state y ≠ TASK_ZOMBIE -> t_process y ≠ 0 -> t ∉ concat (queue q) ->
  t ≠ current_thread (k_sch st) -> (exists z, threads (k_sch st) !! current_thread (k_sch st) = Some z /\ t_state z ≠ TASK_ZOMBIE) ->
  exists s q', sched_add (k_sch st) t = Some s /\ kernel_inv (with_sched st s) q' /\ only_thread (k_sch st) t s /\
    threads s !! t = Some (set_cpu 0 (set_state TASK_RUNNING y)) /\
    (forall u, u ∈ concat (queue q') <-> u = t \/ u ∈ concat (queue q)).
Proof using.
  intros K Hy Sy Hp Hq Hc (z & Hz & Sz). pose proof (ii_sched _ _ (ki_ipc _ _ K)) as HS. fold (k_sch st) in HS.
  assert (t ≠ idle q) as Hid.
  { intros ->. destruct (si_idle _ _ HS) as (_ & _ & w & Hw & _ & Pw). congruence. }
  set (s1 := with_threads (k_sch st) (<[t := set_state TASK_RUNNING y]> (threads (k_sch st)))).
  assert (sched_inv s1 q) as HS1 by (apply (sched_inv_upd _ _ t y); [done|done|exact (si_prio _ _ _ _ HS Hy)|done|done|done]).
  assert (threads s1 !! t = Some (set_state TASK_RUNNING y)) as Hy1 by apply lookup_insert_eq.
  destruct (enqueue_ok s1 q t (set_state TASK_RUNNING y)) as (q0 & E & _ & _ & _ & _); [apply HS1|apply HS1|apply HS1|done|exact (si_prio _ _ _ _ HS1 Hy1)|done|done|].
  destruct (enqueue_inv s1 q t (set_state TASK_RUNNING y)) as (s & q' & E' & HS' & _ & C' & Q'); [done..|].
  assert (sched_add (k_sch st) t = Some s) as ES by (unfold sched_add, upd_thread; rewrite Hy; exact E').
  exists s, q'. split; [done|]. pose proof (sched_add_only _ _ _ ES) as O. pose proof O as (O1 & O2 & O3).
  assert (threads s !! t = Some (set_cpu 0 (set_state TASK_RUNNING y))) as Hs by (rewrite E in E'; injection E' as <-; apply lookup_insert_eq).
  split; [|done]. apply (kernel_inv_sched st q s q'); [done|done|done| |].
  - intros u w Hw Sw. exists w. rewrite O3; [done|]. intros ->. congruence.
  - exists z. rewrite C'. change (current_thread s1) with (current_thread (k_sch st)). by rewrite O3.
Qed.

(** Fields of a live thread change that matter neither to its process nor to the scheduler's queues. *)
Lemma set_thread_inv st q t y y' :
  kernel_inv st q -> threads (k_sch st) !! t = Some y -> static y' = static y -> t_priority y' = t_priority y -> t_state y' = t_state y ->
  t_cpu y' = t_cpu y -> (exists z, threads (k_sch st) !! current_thread (k_sch st) = Some z /\ t_state z ≠ TASK_ZOMBIE) ->
  kernel_inv (with_sched st (with_threads (k_sch st) (<[t := y']> (threads (k_sch st))))) q.
Proof using.
  intros K Hy Es Ep Est Ec (z & Hz & Sz). pose proof (ii_sched _ _ (ki_ipc _ _ K)) as HS. fold (k_sch st) in HS. injection Es as Es1 Es2 Es3 Es4.
  assert (forall u w, threads (k_sch st) !! u = Some w -> exists w', <[t := y']> (threads (k_sch st)) !! u = Some w' /\ t_state w' = t_state w) as Hall.
  { intros u w Hw. destruct (decide (u = t)) as [->|Hu]; [rewrite lookup_insert_eq; eexists; split; [done|]; cbn; congruence|].
    rewrite lookup_insert_ne by done. by exists w. }
  apply (kernel_inv_sched st q _ q); [done| | | |].
  - apply (sched_inv_upd _ _ t y); [done|done|rewrite Ep; exact (si_prio _ _ _ _ HS Hy)|done|done|]. intros ->.
    destruct (si_idle _ _ HS) as (_ & _ & w & Hw & Sw & _). congruence.
  - split; [done|done| |].
    + intros u. cbn. destruct (decide (u = t)) as [->|Hu]; [rewrite lookup_insert_eq, Hy; unfold static; simpl; congruence|by rewrite lookup_insert_ne].
    + intros u w. cbn. intros [[<- <-]|[_ Hw]]%lookup_insert_Some Sw; [exists y; split; [done|congruence]|by exists w].
  - intros u w Hw Sw. destruct (Hall u w Hw) as (w' & Hw' & E). exists w'. split; [done|congruence].
  - destruct (Hall _ z Hz) as (z' & Hz' & E). exists z'. split; [done|congruence].
Qed.

Lemma copy_words_kept n : forall dst src m m', copy_words n dst src m = Some m' -> words_kept m m'.
Proof using.
  induction n as [|n IH]; intros dst src m m'; cbn [copy_words]; [by intros [= <-] k|]. destruct (m !! src) as [w|]; [|done].
  destruct (m !! dst); [|done]. cbn [mbind option_bind]. intros E k Hk. apply (IH _ _ _ _ E). apply lookup_insert_is_Some'. by right.
Qed.

(** Where the entry of a system call has put the registers of the thread: below the top of its
    kernel stack, whose last word is not used. *)
Definition FRAME_OFFSET : Z := KERNEL_STACK_SIZE - 8 - FRAME_SIZE.

Definition frame_on_stack st (x : thread) : Prop :=
  u64 (get_percpu_kernel_rsp st - FRAME_SIZE) = t_kernel_stack x + FRAME_OFFSET.

(** The words of the child's stack, at [k]: those of the parent's, at [k0], and the frame at its top. *)
Record forked_stack (m : gmap Z Z) (k0 k : Z) (m' : gmap Z Z) : Prop := {
  fs_frame : forall j, 0 <= j < FRAME_SIZE / 8 -> m' !! (k + KERNEL_STACK_SIZE - FRAME_SIZE + 8 * j) = m !! (k0 + FRAME_OFFSET + 8 * j);
  fs_copy : forall j, 0 <= j < (KERNEL_STACK_SIZE - FRAME_SIZE) / 8 -> m' !! (k + 8 * j) = m !! (k0 + 8 * j);
  fs_other : forall a, a < k \/ k + KERNEL_STACK_SIZE <= a -> m' !! a = m !! a
}.

Lemma fork_stack_ok st q u x h t k :
  kernel_inv st q -> thread_mem st u x -> thread_memory st h t k ->
  exists m1 m2, copy_words STACK_WORDS k (t_kernel_stack x) (zero_words STACK_WORDS k (k_stacks st)) = Some m1 /\
    copy_words (Z.to_nat (FRAME_SIZE / 8)) (u64 (u64 (k + KERNEL_STACK_SIZE) - FRAME_SIZE)) (t_kernel_stack x + FRAME_OFFSET) m1 = Some m2 /\
    words_kept (zero_words STACK_WORDS k (k_stacks st)) m2 /\ forked_stack (k_stacks st) (t_kernel_stack x) k m2.
Proof using.
  intros K [_ _ [_ ML] _ MW] TM. change (forall j, 0 <= j < 1024 -> is_Some (k_stacks st !! (t_kernel_stack x + 8 * j))) in MW. set (k0 := t_kernel_stack x) in *. set (m0 := zero_words STACK_WORDS k (k_stacks st)).
  pose proof (tn_apart _ _ _ _ TM _ _ ML) as Hap. pose proof (tn_stack _ _ _ _ TM) as (Hk & _ & Htop). unfold KERNEL_STACK_SIZE, FRAME_OFFSET, FRAME_SIZE in *.
  assert (forall j, 0 <= j < 1024 -> m0 !! (k0 + 8 * j) = k_stacks st !! (k0 + 8 * j)) as Z1.
  { intros j Hj. apply zero_words_ne. change (Z.of_nat STACK_WORDS) with 1024. intros i Hi. destruct Hap as [?|?]; cbn in *; lia. }
  destruct (stack_copy_ok STACK_WORDS k k0 m0) as (m1 & E1 & In1 & Out1); change (Z.of_nat STACK_WORDS) with 1024 in *.
  { intros j Hj. rewrite Z1 by done. split; [by apply MW|]. unfold m0. rewrite zero_words_eq by done. by eexists. }
  { intros i j Hi Hj. destruct Hap as [?|?]; cbn in *; lia. }
  assert (u64 (u64 (k + 8 * 1024) - 176) = k + 8016) as Ed.
  { rewrite u64_sub_l, u64_small; lia. }
  rewrite Ed. assert (forall j, 0 <= j < 1024 -> m1 !! (k0 + 8 * j) = k_stacks st !! (k0 + 8 * j)) as S1.
  { intros j Hj. rewrite Out1; [by apply Z1|]. intros i Hi. destruct Hap as [?|?]; cbn in *; lia. }
  assert (forall j, 0 <= j < 22 -> k0 + (8 * 1024 - 8 - 176) + 8 * j = k0 + 8 * (1001 + j)) as EF by lia.
  destruct (stack_copy_ok (Z.to_nat (176 / 8)) (k + 8016) (k0 + (8 * 1024 - 8 - 176)) m1) as (m2 & E2 & In2 & Out2); change (Z.of_nat (Z.to_nat (176 / 8))) with 22 in *.
  { intros j Hj. rewrite EF by done. rewrite S1 by lia. split; [apply MW; lia|]. replace (k + 8016 + 8 * j) with (k + 8 * (1002 + j)) by lia. rewrite In1, Z1 by lia. apply MW. lia. }
  { intros i j Hi Hj. destruct Hap as [?|?]; cbn in *; lia. }
  exists m1, m2. split; [done|]. split; [done|]. split.
  { intros a Ha. apply (copy_words_kept _ _ _ _ _ E2), (copy_words_kept _ _ _ _ _ E1). done. }
  split; unfold KERNEL_STACK_SIZE, FRAME_OFFSET, FRAME_SIZE.
  - change (176 / 8) with 22. intros j Hj. replace (k + 8 * 1024 - 176 + 8 * j) with (k + 8016 + 8 * j) by lia. rewrite In2, EF, S1 by lia. by rewrite <- EF.
  - change ((8 * 1024 - 176) / 8) with 1002. intros j Hj. rewrite Out2 by lia. rewrite In1 by lia. apply Z1. lia.
  - intros a Ha. rewrite Out2 by lia. rewrite Out1 by lia. apply zero_words_ne. change (Z.of_nat STACK_WORDS) with 1024. lia.
Qed.

(** The registers of the parent as the system call saved them. *)
Definition saved_frame st (x : thread) : option (list Z) :=
  mapM (fun j => k_stacks st !! (t_kernel_stack x + FRAME_OFFSET + 8 * Z.of_nat j)) (seq 0 22).

Definition forked_thread_of (x : thread) (c : process) (child k : Z) : thread :=
  set_cpu 0 (set_state TASK_RUNNING (mk_thread (p_pid c) child (t_state x)
    (Z.land (Z.lor (t_flags x) TF_FORKING) (lnotw 32 TF_FORKING)) (t_priority x) (t_nice x) DEFAULT_TIME_SLICE
    k (t_kernel_stack_size x) 0 (t_last_run x) (t_wait_channel x) (t_cpu x) (t_cpu_mask x))).

(** Thread [t] of process [child] is a runnable copy of the thread with the fields [x] and [i]. *)
Record forked_thread st q (x : thread) (i : ithread) (child : Z) (c : process) (t : Z) st' q' : Prop := {
  ft_proc : k_procs st' = <[child := link_thread t c]> (k_procs st) /\ live_thread st' child (link_thread t c);
  ft_fresh : threads (k_sch st) !! t = None /\ t ≠ 0;
  ft_thread : exists k, threads (k_sch st') !! t = Some (forked_thread_of x c child k) /\
    forked_stack (k_stacks st) (t_kernel_stack x) k (k_stacks st');
  ft_queue : forall u, u ∈ concat (queue q') <-> u = t \/ u ∈ concat (queue q);
  ft_others : forall u, u ≠ t -> threads (k_sch st') !! u = threads (k_sch st) !! u;
  ft_its : its (k_ipc st') = <[t := i]> (its (k_ipc st));
  ft_return : fork_return st' t = (fun ws => <[14%nat := 0]> ws) <$> saved_frame st x /\ is_Some (fork_return st' t);
  ft_same : process_list st' = process_list st /\ init_process st' = init_process st /\ k_files st' = k_files st /\ k_as st' = k_as st /\
    procs (k_sch st') = procs (k_sch st) /\ iprocs (k_ipc st') = iprocs (k_ipc st) /\ frames (k_ipc st') = frames (k_ipc st) /\
    current_thread (k_sch st') = current_thread (k_sch st) /\ k_pids st' = k_pids st
}.

Lemma mapM_same {B} (f g : nat -> option B) l : (forall j, j ∈ l -> f j = g j) -> mapM f l = mapM g l.
Proof using.
  induction l as [|j l IH]; intros E; [done|]. cbn. rewrite (E j) by by left. destruct (g j); [|done]. cbn. rewrite IH; [done|].
  intros i Hi. apply E. by right.
Qed.

Lemma fork_return_ok st st' q u x t xt k :
  kernel_inv st q -> thread_mem st u x -> 0 < k -> k + KERNEL_STACK_SIZE <= 2 ^ 64 ->
  k_xts st' !! t = Some xt -> r12 (x_context xt) = u64 (k + KERNEL_STACK_SIZE) -> forked_stack (k_stacks st) (t_kernel_stack x) k (k_stacks st') ->
  fork_return st' t = (fun ws => <[14%nat := 0]> ws) <$> saved_frame st x /\ is_Some (fork_return st' t).
Proof using.
  intros K [_ _ _ _ MW] Hk Htop Hxt Er [F1 _ _].
  assert (fork_return st' t = (fun ws => <[14%nat := 0]> ws) <$> saved_frame st x) as E.
  { unfold fork_return, saved_frame. rewrite Hxt. cbn [mbind option_bind]. rewrite Er.
    assert (u64 (u64 (k + KERNEL_STACK_SIZE) - FRAME_SIZE) = k + KERNEL_STACK_SIZE - FRAME_SIZE) as ->.
    { rewrite u64_sub_l, u64_small; [done|]. unfold KERNEL_STACK_SIZE, FRAME_SIZE in *. lia. }
    rewrite (mapM_same _ (fun j => k_stacks st !! (t_kernel_stack x + FRAME_OFFSET + 8 * Z.of_nat j))).
    - by destruct (mapM _ _).
    - intros j Hj%elem_of_seq. apply F1. change (FRAME_SIZE / 8) with 22. lia. }
  split; [done|]. rewrite E. apply fmap_is_Some. apply mapM_is_Some. apply Forall_forall. intros j Hj%elem_of_seq.
  cbn. replace (t_kernel_stack x + FRAME_OFFSET + 8 * Z.of_nat j) with (t_kernel_stack x + 8 * (1001 + Z.of_nat j)) by (unfold FRAME_OFFSET, KERNEL_STACK_SIZE, FRAME_SIZE; lia).
  apply MW. change (KERNEL_STACK_SIZE / 8) with 1024. lia.
Qed.

Lemma live_of st q p x : kernel_inv st q -> k_procs st !! p = Some x -> p_threads x ≠ [] -> live_thread st p x.
Proof using.
  intros K Hx Hn. destruct (ki_proc _ _ K p x Hx) as [_ [(_ & E & _)|[L|(y & _ & E & _)]]]; [done|done|done].
Qed.

Lemma fork_thread_ok st q x child c :
  let u := current_thread (k_sch st) in
  kernel_inv st q -> threads (k_sch st) !! u = Some x -> t_process x ≠ 0 -> k_procs st !! child = Some c -> no_thread c -> frame_on_stack st x ->
  exists t st' q', fork_thread st u child = Some (t, st') /\ kernel_inv st' q' /\
    ((t = 0 /\ unchanged st st') \/ exists i, its (k_ipc st) !! u = Some i /\ forked_thread st q x i child c t st' q').
Proof using KHL.
  intros u K Hx Hp Hc HN Hfr. unfold fork_thread. destruct (thread_alloc st q K) as (t & h1 & -> & D). cbn [mbind option_bind].
  destruct D as [(-> & K1 & L1)|(Ht0 & k & h2 & E2 & D)].
  { eexists 0, _, q. split; [done|]. split; [exact K1|]. left. by split. }
  pose proof (process_stack st q u x K Hx Hp) as TMx. pose proof TMx as [_ [xt Hxt] _ Tsz _].
  destruct (ii_threads _ _ (ki_ipc _ _ K) u x Hx) as [[i Hi] _].
  rewrite (proj2 (Z.eqb_neq t 0) Ht0). change (k_sch (with_heap st h1)) with (k_sch st). rewrite Hx. cbn [mbind option_bind k_ipc k_xts with_heap].
  rewrite Hi. cbn [mbind option_bind]. rewrite Hxt. cbn [mbind option_bind].
  unfold alloc_kernel_stack. cbn [k_heap with_heap]. rewrite E2. cbn [mbind option_bind].
  destruct D as [(-> & h3 & E3 & K3 & L3)|(Hk0 & TM)].
  { cbn [Z.eqb mbind option_bind k_heap with_heap]. rewrite E3. cbn [mbind option_bind]. eexists 0, _, q. split; [done|]. split; [exact K3|]. left. by split. }
  rewrite (proj2 (Z.eqb_neq k 0) Hk0). cbn [mbind option_bind]. rewrite (proj2 (Z.eqb_neq k 0) Hk0). rewrite Tsz.
  destruct (fork_stack_ok st q u x h2 t k K TMx TM) as (m1 & m2 & EM1 & EM2 & WK & FS).
  change (Z.to_nat (KERNEL_STACK_SIZE / 8)) with STACK_WORDS. cbn [k_stacks with_stacks with_heap]. rewrite EM1. cbn [mbind option_bind].
  cbn [k_procs with_stacks with_heap]. rewrite Hc. cbn [mbind option_bind].
  change (get_percpu_kernel_rsp (with_stacks _ _)) with (get_percpu_kernel_rsp st). rewrite Hfr, EM2. cbn [mbind option_bind].
  destruct (current_live st q x K Hx Hp) as (_ & _ & _ & _ & _ & _ & _ & Sx).
  set (x1 := mk_thread _ _ _ _ _ _ _ _ _ _ _ _ _ _). set (xt1 := mk_xt _ _ _ _ _ _).
  assert (new_body st h2 m2 t x1 i child) as NB.
  { destruct (ii_links _ _ (ki_ipc _ _ K) u i Hi) as [LK1 LK2].
    apply (new_body_of st q h2 t k m2 x1 i child K TM eq_refl eq_refl eq_refl Sx (si_prio _ _ _ _ (ii_sched _ _ (ki_ipc _ _ K)) Hx) WK LK1 LK2).
    intros v Hv F. by apply (fg_links _ _ F u i). }
  destruct (add_thread_inv st q h2 m2 t x1 i xt1 child c K Hc HN (tn_ok _ _ _ _ TM) (tn_more _ _ _ _ TM) NB) as [K1 L1].
  erewrite upd_proc_eq by exact Hc. cbn [mbind option_bind]. set (st1 := spawn st h2 m2 t x1 i xt1 child c) in *.
  set (st1' := thread_global_add _ t). change st1' with st1. clear st1'.
  assert (threads (k_sch st1) !! t = Some x1) as H1 by apply lookup_insert_eq.
  assert (exists z, threads (k_sch st1) !! u = Some z /\ t_state z ≠ TASK_ZOMBIE) as Hcur.
  { exists x. split; [|done]. change (threads (k_sch st1)) with (<[t := x1]> (threads (k_sch st))). rewrite lookup_insert_ne; [done|].
    intros E. pose proof (tn_fresh _ _ _ _ TM) as E'. congruence. }
  rewrite (upd_kthread_eq st1 t _ x1 H1). cbn [mbind option_bind].
  pose proof (set_thread_inv st1 q t x1 (set_flags (Z.land (t_flags x1) (lnotw 32 TF_FORKING)) x1) K1 H1 eq_refl eq_refl eq_refl eq_refl Hcur) as K2. set (st2 := with_sched st1 _) in *.
  assert (threads (k_sch st2) !! t = Some (set_flags (Z.land (t_flags x1) (lnotw 32 TF_FORKING)) x1)) as H2 by apply lookup_insert_eq.
  assert (t ≠ u) as Htu by (intros ->; pose proof (tn_fresh _ _ _ _ TM); congruence).
  assert (exists z, threads (k_sch st2) !! u = Some z /\ t_state z ≠ TASK_ZOMBIE) as Hcur2.
  { destruct Hcur as (z & Hz & Sz). exists z. split; [|done]. change (threads (k_sch st2)) with (<[t := set_flags (Z.land (t_flags x1) (lnotw 32 TF_FORKING)) x1]> (threads (k_sch st1))).
    by rewrite lookup_insert_ne. }
  assert (t ∉ concat (queue q)) as Hq.
  { intros Hin. apply elem_of_queues in Hin as (p & l & Hl & Hin). destruct (rw_queued _ _ (si_wf _ _ (ii_sched _ _ (ki_ipc _ _ K))) p l t Hl Hin) as (z & Hz & _).
    pose proof (tn_fresh _ _ _ _ TM) as E. unfold k_sch in E. congruence. }
  assert (child ≠ 0) as Hch0 by (intros ->; pose proof (ti_null _ _ _ (ki_table _ _ K)); congruence).
  destruct (sched_add_ok st2 q t _ K2 H2 Sx Hch0 Hq Htu Hcur2) as (s & q' & -> & K' & O & Hs & Q'). cbn [mbind option_bind].
  exists t, (with_sched st2 s), q'. split; [done|]. split; [done|]. right. exists i. split; [done|]. pose proof O as (O1 & O2 & O3).
  assert (forall v, v ≠ t -> threads s !! v = threads (k_sch st) !! v) as Hoth.
  { intros v Hv. rewrite O3 by done. change (threads (k_sch st2)) with (<[t := set_flags (Z.land (t_flags x1) (lnotw 32 TF_FORKING)) x1]> (<[t := x1]> (threads (k_sch st)))).
    by rewrite !lookup_insert_ne. }
  pose proof (tn_stack _ _ _ _ TM) as (S1 & _ & S2).
  split.
  - split; [done|]. apply (live_of _ q' _ _ K'); [apply lookup_insert_eq|]. cbn. by destruct (p_threads c).
  - split; [apply TM|done].
  - exists k. split; [|done]. change (threads s !! t = Some (forked_thread_of x c child k)). rewrite Hs. by destruct x; cbn in *; subst.
  - done.
  - done.
  - done.
  - apply (fork_return_ok st _ q u x t xt1 k K TMx S1 S2); [apply lookup_insert_eq|done|done].
  - do 4 (split; [done|]). split; [exact (sf_procs _ _ O1)|]. split; [done|]. split; [done|]. split; [exact O2|done].
Qed.

(** ** process_fork *)

(** Every process, PID, heap object and address space is what it was. *)
Record nothing_left st st' : Prop := {
  nl_procs : forall r, k_procs st' !! r = k_procs st !! r;
  nl_list : process_list st' = process_list st /\ init_process st' = init_process st;
  nl_pids : forall j, 0 <= j -> pid_used (k_pids st') j = pid_used (k_pids st) j;
  nl_heap : same_live (k_heap st) (k_heap st');
  nl_as : forall b, as_live (k_as st') b <-> as_live (k_as st) b;
  nl_user : spaces_kept (k_as st) (k_as st')
}.

Lemma unchanged_nothing st st' : unchanged st st' -> nothing_left st st'.
Proof using. intros [(E1 & E2 & _ & E3 & _ & _ & _ & E4) E5 E6]. split; [by rewrite E1|done|done|done|by rewrite E3|by rewrite E3]. Qed.

Lemma fork_undo st q0 name parent pp child c st1 ok st2 st3 q :
  kernel_inv st q0 -> created st name child c st1 -> k_procs st1 !! parent = Some pp -> parent ≠ child ->
  kernel_inv st1 q0 -> forked_process st1 parent pp child c ok st2 -> unchanged st2 st3 -> kernel_inv st3 q ->
  exists st4 q4, process_destroy st3 child = Some st4 /\ kernel_inv st4 q4 /\ nothing_left st st4.
Proof using KHL ASL.
  intros K0 CR Hpp Hne K1 FP [(U1 & U2 & U3 & U4 & _ & _ & _ & U5) U6 U7] K.
  pose proof CR as [[Cf Cf0] Cp (Cl & Ci & _) _ (Cpar & Cch & CN & Cfi & _) _ _ _ (Ca & _) Ch Cn Cu].
  pose proof FP as [(f & r & Hc2 & FH & FN) FO [FK (m & Hm & FN' & FA)] _ (FL & FPi & FI) _ _].
  assert (k_procs st3 !! child = Some (inherited pp f r c)) as Hc3 by (by rewrite U1).
  destruct (process_destroy_ok st3 q child (inherited pp f r c) K Hc3) as (st4 & q4 & E & _ & K4 & [R1 [R2 R2'] R3 R4 R5 _]); [by left|done|].
  exists st4, q4. split; [done|]. split; [done|]. assert (forall y z, k_procs st !! z = Some y -> child ∉ p_children y) as Hno.
  { intros y z Hy Hin. destruct (ti_tree _ _ _ (ki_table _ _ K0) z y Hy) as [_ TT]. destruct (proj1 (TT child) Hin) as (w & Hw & _). congruence. }
  assert (k_procs st !! parent = Some pp) as Hpp0 by (rewrite Cp, lookup_insert_ne in Hpp by done; done).
  split.
  - intros z. rewrite R1, U1. destruct (decide (z = child)) as [->|Hz]; [done|].
    assert (k_procs st1 !! z = k_procs st !! z) as E1 by (by rewrite Cp, lookup_insert_ne).
    destruct (FO z Hz) as [->|[-> ->]].
    + rewrite E1. destruct (k_procs st !! z) as [y|] eqn:Ey; [|done]. simpl. rewrite without_id; [by destruct y|by eapply Hno].
    + rewrite Hpp0. simpl. unfold without. rewrite filter_app. cbn [filter]. rewrite filter_cons, decide_False by tauto. cbn.
      rewrite app_nil_r. fold (without child (p_children pp)). rewrite without_id; [by destruct pp|by eapply Hno].
  - rewrite R2, R2', U2, U5, FL, FI, Cl, Ci. split; [|done]. unfold without. rewrite filter_app, filter_cons, decide_False by tauto.
    cbn. rewrite app_nil_r. apply without_id. rewrite (proj2 (ti_list _ _ _ (ki_table _ _ K0))). rewrite Cf. by intros [].
  - intros j Hj. rewrite R3 by done. rewrite U7, FPi, Cu by done. cbn [p_pid inherited p_set_parent p_set_files p_inherit].
    destruct (decide (j = p_pid c)) as [->|]; [|done]. symmetry.
    destruct (pid_used (k_pids st) (p_pid c)) eqn:Eu; [|done]. apply (ti_used _ _ _ (ki_table _ _ K0)) in Eu; [|by apply CR].
    destruct Eu as (z & y & Hy & Ey). destruct (ti_uniq _ _ _ (ki_table _ _ K1) z child y c); [|by rewrite Cp, lookup_insert_eq|done|congruence].
    rewrite Cp, lookup_insert_ne; [done|congruence].
  - intros b n. rewrite (R4 b n), !not_elem_of_app, list_elem_of_singleton. unfold thread_objects. rewrite (no_thread_null st3 q) by (done || apply CN).
    rewrite (U6 b n), FH, Ch. change (file_objects (inherited pp f r c)) with (if f =? 0 then [] else [f]). split.
    + intros ([[[?|[[= -> ->]|[= -> ->]]] ?]|[Hf0 [= -> ->]]] & _ & Hnf & Hnc); [done|done|done|]. exfalso. apply Hnf.
      rewrite (proj2 (Z.eqb_neq f 0) Hf0). by left.
    + intros Hb. destruct (Cn b n Hb) as [N1 N2]. split; [left; split; [by left|done]|]. split; [apply not_elem_of_nil|]. split; [|done].
      destruct (Z.eqb_spec f 0) as [_|Hf0]; [apply not_elem_of_nil|]. rewrite list_elem_of_singleton. apply (FN b n); [apply Ch; by left|done|done].
  - destruct R5 as (mm & Hmm & _ & _ & LA). assert (mm = m) as -> by (unfold get_mm, k_sch in *; rewrite U3 in Hmm; congruence).
    intros b. rewrite LA, U4, FA, Ca. split; [tauto|]. intros Hb. split; [by left|]. intros Hm0 ->. apply (FN' Hm0). by rewrite Ca.
  - destruct R5 as (mm & _ & _ & KS & _). rewrite U4 in KS. rewrite Ca in FK, FA. intros b Hb Hb4.
    assert (as_live (k_as st2) b) as Hb2 by (apply FA; by left). destruct (FK b Hb Hb2) as [A1 A2], (KS b Hb2 Hb4) as [B1 B2].
    split; [intros u; by rewrite B1, A1|by rewrite B2, A2].
Qed.

(** What a fork that succeeds gives: process [child] with the fields [c] and the runnable thread [t]. *)
Record forked st q (parent : Z) (pp : process) (x : thread) st' q' (child : Z) (c : process) (t : Z) : Prop := {
  fk_fresh : k_procs st !! child = None /\ threads (k_sch st) !! t = None;
  fk_procs : k_procs st' = <[child := c]> (<[parent := p_set_children (p_children pp ++ [child]) pp]> (k_procs st)) /\
    process_list st' = process_list st ++ [child];
  fk_pid : 1 <= p_pid c < PID_MAX /\ pid_used (k_pids st) (p_pid c) = false;
  fk_fields : p_ppid c = p_pid pp /\ p_pgid c = p_pgid pp /\ p_sid c = p_sid pp /\ p_cred c = p_cred pp /\ p_parent c = parent /\
    p_children c = [] /\ p_main_thread c = t /\ p_exit_code c = 0;
  fk_name : forall s, c_string (p_name pp) = Some s -> p_name c = name_of s;
  fk_files : p_files c ≠ 0 /\ (p_files pp ≠ 0 -> k_files st' !! p_files c = k_files st !! p_files pp);
  fk_mm : exists mm mm', get_mm st parent = Some mm /\ get_mm st' child = Some mm' /\ (mm = 0 <-> mm' = 0) /\
    (forall b, as_live (k_as st') b <-> as_live (k_as st) b \/ (mm' ≠ 0 /\ b = mm')) /\ (mm' ≠ 0 -> ~ as_live (k_as st) mm') /\
    spaces_kept (k_as st) (k_as st') /\
    (mm ≠ 0 -> copy_of (k_as st) (window_page st parent) mm (k_as st') mm' /\
       exists l w, as_window (k_as st') mm' = Some (w, l) /\ ipc_window_phys <$> iprocs (k_ipc st') !! child = Some w /\
         (w ≠ 0 -> window (k_ipc st') child = Some l));
  fk_thread : live_thread st' child c /\ t ∈ concat (queue q') /\
    exists k, threads (k_sch st') !! t = Some (forked_thread_of x c child k) /\
      forked_stack (k_stacks st) (t_kernel_stack x) k (k_stacks st');
  fk_its : its (k_ipc st') !! t = its (k_ipc st) !! current_thread (k_sch st);
  fk_return : fork_return st' t = (fun ws => <[14%nat := 0]> ws) <$> saved_frame st x /\ is_Some (fork_return st' t);
  fk_others : (forall u, u ≠ t -> threads (k_sch st') !! u = threads (k_sch st) !! u) /\
    current_thread (k_sch st') = current_thread (k_sch st) /\ (forall r, r ≠ child -> iprocs (k_ipc st') !! r = iprocs (k_ipc st) !! r)
}.

Lemma fork_threads st name child c st1 parent pp ok st2 :
  created st name child c st1 -> forked_process st1 parent pp child c ok st2 ->
  threads (k_sch st2) = threads (k_sch st) /\ current_thread (k_sch st2) = current_thread (k_sch st) /\ its (k_ipc st2) = its (k_ipc st) /\
  k_stacks st2 = k_stacks st /\ get_percpu_kernel_rsp st2 = get_percpu_kernel_rsp st.
Proof using.
  intros CR FP. pose proof (cr_ipc _ _ _ _ _ CR) as Ci. pose proof (cr_list _ _ _ _ _ CR) as (_ & _ & Cb). pose proof (cr_rest _ _ _ _ _ CR) as (_ & _ & Cs).
  pose proof (fp_threads _ _ _ _ _ _ _ FP) as [T1 (T2 & _) (_ & T3 & T4)]. unfold get_percpu_kernel_rsp. rewrite T4, T3, T2, T1, Cb, Cs.
  cbn. unfold k_sch. rewrite Ci. done.
Qed.

Lemma forked_of st q parent pp x child c st1 st2 i t st3 q' :
  kernel_inv st q -> k_procs st !! parent = Some pp -> parent ≠ child -> created st (Some (p_name pp)) child c st1 ->
  forked_process st1 parent pp child c true st2 -> its (k_ipc st2) !! current_thread (k_sch st2) = Some i ->
  (forall c2, k_procs st2 !! child = Some c2 -> forked_thread st2 q x i child c2 t st3 q') ->
  exists c3, k_procs st3 !! child = Some c3 /\ forked st q parent pp x st3 q' child c3 t.
Proof using.
  intros K Hpp Hne CR FP Hi HT. destruct (fork_threads _ _ _ _ _ _ _ _ _ CR FP) as (ET & EC & EI & EK & _).
  pose proof CR as [[Cf Cf0] Cp (Cl & Ci & Cb) [Cpid [Cff _]] (Cpar & Cch & CN & Cfi & Cx) Cnm Cfs Cipc (Ca & Cxt & Cst) Ch Cn Cu].
  pose proof FP as [_ _ [FK _] FC (FL & FPi & FI) _ FM]. destruct (FC eq_refl) as (f & FC1 & FC2 & FC3). set (c2 := inherited pp f parent c) in *.
  assert (k_procs st2 !! child = Some c2) as Hc2 by (rewrite FC1, lookup_insert_ne by done; apply lookup_insert_eq).
  pose proof (HT c2 Hc2) as [[FT1 FT1'] [FT2 FT2'] (k & FT3 & FT3') FT4 FT5 FT6 FT7 (F1 & F2 & F3 & F4 & F5 & F6 & F7 & F8 & F9)].
  exists (link_thread t c2). split; [by rewrite FT1, lookup_insert_eq|].
  destruct (FM eq_refl) as (s & Es1 & Es2 & Es3 & [_ _ _ _ MW (mm & mm' & M1 & M2 & M3 & M4 & M5 & M6)]).
  rewrite Es1, Ca in M4, M5, M6.
  assert (procs (k_sch st1) = <[child := 0]> (procs (k_sch st))) as EP1 by (unfold k_sch in *; rewrite Cipc; done). split.
  - split; [done|]. by rewrite <- ET.
  - rewrite FT1, FC1, Cp, F1, FL, Cl. split; [|done]. rewrite (insert_insert_ne (<[child := c2]> _) child parent) by done.
    rewrite !insert_insert_eq. by rewrite insert_insert_ne.
  - split; done.
  - by split_and!.
  - intros s' Hs. by apply (Cnm (p_name pp)).
  - split; [done|]. intros Hf. rewrite F3. cbn. rewrite (FC3 Hf), Cfs, lookup_insert_ne; [done|].
    intros E. destruct (proj1 (ki_proc _ _ K parent pp Hpp)) as [_ _ MF]. destruct (MF Hf) as [L _]. by destruct (Cn _ _ L).
  - exists mm, mm'. unfold get_mm in *. rewrite F5, M2, F4, lookup_insert_eq. rewrite Es2, EP1, lookup_insert_ne in M1 by done.
    split; [done|]. split; [done|]. split.
    { split; [done|]. intros ->. destruct (decide (mm = 0)) as [|Hmm]; [done|]. by destruct (M6 Hmm eq_refl). }
    split; [done|]. split; [done|]. split; [by rewrite <- Ca|]. intros Hmm. destruct (M6 Hmm eq_refl) as (_ & _ & _ & _ & HC & l & w & W1 & W2 & W3).
    split.
    + assert (window_page s parent = window_page st parent) as <-; [|done]. unfold window_page, window. rewrite Es3, Cipc. cbn.
      by rewrite lookup_insert_ne.
    + exists l, w. split; [done|]. unfold window in *. rewrite F6, F7. done.
  - split; [done|]. split; [apply FT4; by left|]. exists k. split; [exact FT3|by rewrite <- EK].
  - rewrite FT6, lookup_insert_eq, <- Hi. by rewrite EI, EC.
  - unfold saved_frame in *. by rewrite <- EK.
  - split; [intros u Hu; by rewrite FT5, ET|]. split; [by rewrite F8|]. intros r Hr. rewrite F6, MW, Es3, Cipc by done. cbn. by rewrite lookup_insert_ne.
Qed.

Lemma process_fork_ok st q x pp :
  let parent := t_process x in
  kernel_inv st q -> threads (k_sch st) !! current_thread (k_sch st) = Some x -> parent ≠ 0 -> k_procs st !! parent = Some pp -> frame_on_stack st x -> window_bytes st parent ->
  exists r st' q', process_fork st = Some (r, st') /\ kernel_inv st' q' /\
    ((r = -1 /\ nothing_left st st') \/ (exists child c t, r = p_pid c /\ forked st q parent pp x st' q' child c t)).
Proof using KHL ASL.
  intros parent K Hx Hp Hpp Hfr WB. unfold process_fork. rewrite Hx. cbn [mbind option_bind]. fold parent. rewrite Hpp. cbn [mbind option_bind].
  destruct (process_create_ok st q (Some (p_name pp)) K) as (child & st1 & -> & K1 & D).
  { intros l [= <-]. apply (ki_proc _ _ K parent pp Hpp). }
  cbn [mbind option_bind]. destruct D as [(-> & U)|(c & CR)].
  { exists (-1), st1, q. split; [done|]. split; [done|]. left. split; [done|]. by apply unchanged_nothing. }
  pose proof CR as [[Cf Cf0] Cp (Cl & Ci & Cb) [Cpid Cff] (Cpar & Cch & CN & Cfi & Cx) Cnm Cfs Cipc (Ca & Cxt & Cst) Ch Cn Cu].
  rewrite (proj2 (Z.eqb_neq child 0) Cf0). assert (parent ≠ child) as Hne by congruence.
  assert (k_procs st1 !! parent = Some pp) as Hpp1 by (by rewrite Cp, lookup_insert_ne).
  assert (k_procs st1 !! child = Some c) as Hc1 by (by rewrite Cp, lookup_insert_eq).
  assert (k_sch st1 = sched_procs (k_sch st) (<[child := 0]> (procs (k_sch st)))) as ES1 by (unfold k_sch at 1; by rewrite Cipc).
  destruct (fork_process_ok st1 q parent pp child c K1 Hpp1 Hc1 Hne Cfi Cpar) as (ok & st2 & -> & K2 & FP); [unfold get_mm; rewrite ES1; apply lookup_insert_eq|unfold window_bytes, window; rewrite Cipc; cbn; by rewrite lookup_insert_ne|].
  cbn [mbind option_bind]. destruct ok; cbn [negb].
  2: { destruct (fork_undo st q _ parent pp child c st1 false st2 st2 q K CR Hpp1 Hne K1 FP) as (st4 & q4 & -> & K4 & NL); [by split|done|].
       cbn [mbind option_bind]. exists (-1), st4, q4. split; [done|]. split; [done|]. by left. }
  destruct (fork_threads _ _ _ _ _ _ _ _ _ CR FP) as (ET & EC & EI & EK & ER).
  destruct (fp_child _ _ _ _ _ _ _ FP) as (f & r & Hc2 & _). set (c2 := inherited pp f r c) in *.
  destruct (fork_thread_ok st2 q x child c2 K2) as (t & st3 & q' & E3 & K3 & D); [by rewrite EC, ET|done|done|done|by unfold frame_on_stack; rewrite ER|].
  rewrite EC in E3. rewrite E3. cbn [mbind option_bind]. destruct D as [(-> & U)|(i & Hi & FT)].
  { change (0 =? 0) with true. cbv iota. destruct (fork_undo st q _ parent pp child c st1 true st2 st3 q' K CR Hpp1 Hne K1 FP U K3) as (st4 & q4 & -> & K4 & NL).
    cbn [mbind option_bind]. exists (-1), st4, q4. split; [done|]. split; [done|]. by left. }
  rewrite (proj2 (Z.eqb_neq t 0) (proj2 (ft_fresh _ _ _ _ _ _ _ _ _ FT))).
  destruct (forked_of st q parent pp x child c st1 st2 i t st3 q' K Hpp Hne CR FP Hi) as (c3 & Hc3 & FK); [intros y Hy; by assert (y = c2) as -> by congruence|].
  rewrite Hc3. cbn [mbind option_bind]. exists (p_pid c3), st3, q'. split; [done|]. split; [done|]. right. by exists child, c3, t.
Qed.

End fork.
