(* ===== verification/ProcessSpec.v ===== *)
(** * Processes: what the code promises (kernel/proc/process.c, kernel/proc/files.c) *)
From S2P Require Import Prelude Defs Sched IpcTag Ipc Endpoint Pid Process ProcessTable ProcessFrame ProcessInv ProcessLife ProcessCreate ProcessFork.

Section spec.
Context {H A : Type} `{KH : KernelHeap H} {KHL : KernelHeapLaws H} `{AS : AddressSpaces A} {ASL : AddressSpacesLaws A}.
Implicit Types (st : kernel H A) (q : run_queue).

(** ** Context switches *)

Lemma ready_running s q p t :
  sched_inv s q -> t ∈ ready s q p -> exists z, threads s !! t = Some z /\ t_state z = TASK_RUNNING.
Proof using.
  intros HS Hin. assert (t ∈ queue_at q p -> exists z, threads s !! t = Some z /\ t_state z = TASK_RUNNING) as HQ.
  { unfold queue_at. destruct (zget (queue q) p) as [l|] eqn:El; [|by intros ?%not_elem_of_nil]. cbn. intros Hl.
    destruct (rw_queued _ _ (si_wf _ _ HS) p l t El Hl) as (z & Hz & _ & Sz & _). by exists z. }
  unfold ready in Hin. destruct (threads s !! current_thread s) as [x|] eqn:Ex; [|by apply HQ].
  destruct (competes s q x) eqn:Ec; [|by apply HQ]. unfold append_at in Hin. destruct (decide _); [|by apply HQ].
  apply elem_of_app in Hin as [Hin|Hin%list_elem_of_singleton]; [by apply HQ|]. subst t. exists x. split; [done|].
  unfold competes in Ec. apply andb_true_iff in Ec as [Ec _]. by apply bool_decide_eq_true in Ec.
Qed.

(** A context switch keeps the invariant. *)
Lemma switch_inv st q s :
  kernel_inv st q -> schedule_body (k_sch st) = Some (inl s) -> exists q', kernel_inv (with_sched st s) q'.
Proof using.
  intros K E. pose proof (ii_sched _ _ (ki_ipc _ _ K)) as HS. fold (k_sch st) in HS.
  destruct (schedule_body_ok (k_sch st) q HS) as (next & s' & q' & E' & [HI' HC HId _ HCh HK HD _ _]).
  rewrite E' in E. assert (s' = s) as -> by (destruct (decide (next = current_thread (k_sch st))); congruence). exists q'.
  assert (exists z, threads (k_sch st) !! next = Some z /\ t_state z = TASK_RUNNING) as (z & Hz & Sz).
  { destruct HCh as [(p & l & (B1 & B2 & _) & _)|(_ & -> & _)].
    - apply (ready_running _ q p); [done|]. rewrite B2. by left.
    - destruct (si_idle _ _ HS) as (_ & _ & z & Hz & Sz & _). by exists z. }
  apply (kernel_inv_sched st q s q'); [done|done| | |].
  - apply (schedule_frame 1). cbn [schedule]. rewrite E', E. done.
  - intros u w Hw Sw. destruct (HK u w Hw) as (w' & Hw' & _ & Sw' & _). exists w'. split; [done|congruence].
  - rewrite HC. destruct (HK _ _ Hz) as (z' & Hz' & _ & Sz' & _). exists z'. split; [done|congruence].
Qed.

Lemma switch_to_rsp s prev next s' b :
  switch_to s prev next = Some s' -> exists x, threads s' !! current_thread s' = Some x /\
    (t_kernel_stack x ≠ 0 -> percpu_kernel_rsp b (hw s') = u64 (t_kernel_stack x + t_kernel_stack_size x - 8)).
Proof using.
  unfold switch_to. destruct (runqueues s) as [rq|]; [|done]. cbn [mbind option_bind]. set (s1 := with_current _ _).
  destruct (threads s1 !! prev) as [p|]; [|done]. cbn [mbind option_bind]. destruct (threads s1 !! next) as [n|] eqn:En; [|done]. cbn [mbind option_bind].
  assert (forall s2, threads s2 = threads s1 -> current_thread s2 = next ->
    (let st := if negb (t_kernel_stack n =? 0) then emit (emit s2 (SetKernelRsp (u64 (t_kernel_stack n + t_kernel_stack_size n - 8))))
        (SetTssRsp0 (u64 (t_kernel_stack n + t_kernel_stack_size n))) else s2 in
     q ← runqueues st;
     let st := with_rq st (rq_stats (u64 (switches q + 1)) (total_time q) (idle_time q) (tick_count q) q) in
     st ← upd_thread st next (set_last_run (global_ticks st));
     st ← upd_thread st next (fun n => set_flags (Z.land (t_flags n) (lnotw 32 TF_NEED_RESCHED)) n);
     Some (emit st (SwitchContext prev next))) = Some s' ->
    exists x, threads s' !! current_thread s' = Some x /\
      (t_kernel_stack x ≠ 0 -> percpu_kernel_rsp b (hw s') = u64 (t_kernel_stack x + t_kernel_stack_size x - 8))) as HH.
  { intros s2 Et Ec. cbv zeta. set (s3 := if negb _ then _ else _).
    assert (threads s3 = threads s1 /\ current_thread s3 = next /\ (t_kernel_stack n ≠ 0 -> percpu_kernel_rsp b (hw s3) = u64 (t_kernel_stack n + t_kernel_stack_size n - 8))) as (T3 & C3 & R3).
    { unfold s3. destruct (Z.eqb_spec (t_kernel_stack n) 0); cbn [negb]; [done|]. done. }
    destruct (runqueues s3) as [q3|]; [|done]. cbn [mbind option_bind]. unfold upd_thread. cbn [threads with_rq]. rewrite T3, En. cbn [mbind option_bind].
    cbn [threads with_threads]. rewrite lookup_insert_eq. cbn [mbind option_bind]. intros [= <-]. cbn [current_thread emit with_threads with_rq threads hw]. rewrite C3.
    rewrite lookup_insert_eq. eexists. split; [done|]. exact R3. }
  destruct (negb (t_process p =? t_process n)); [|by apply HH]. destruct (negb (t_process n =? 0)); [|by apply HH].
  destruct (procs s1 !! t_process n) as [mm|]; [|done]. cbn [mbind option_bind]. apply HH; by destruct (negb (mm =? 0)).
Qed.

Lemma switch_rsp s s' b :
  schedule_body s = Some (inl s') -> exists x, threads s' !! current_thread s' = Some x /\
    (t_kernel_stack x ≠ 0 -> percpu_kernel_rsp b (hw s') = u64 (t_kernel_stack x + t_kernel_stack_size x - 8)).
Proof using.
  unfold schedule_body. destruct (runqueues s) as [rq|]; [|done]. cbn [mbind option_bind]. destruct (if current_thread s =? 0 then _ else _) as [prev s1].
  intros E. repeat match type of E with
  | (mbind _ ?o) = Some _ => destruct o as [?|]; [cbn [mbind option_bind] in E|done]
  end.
  destruct p as [next q2]. destruct (negb (next =? prev)); [|done].
  destruct (switch_to _ prev next) as [s2|] eqn:E2; [|done]. cbn in E. injection E as <-. by eapply switch_to_rsp.
Qed.

(** After every context switch to a thread of a process, the per-CPU kernel stack pointer is
    set so that the registers a system call of that thread saves lie on the thread's own kernel
    stack, where [process_fork] copies them from. *)
Theorem switch_frame_on_stack st q s x :
  kernel_inv st q -> schedule_body (k_sch st) = Some (inl s) -> threads s !! current_thread s = Some x -> t_process x ≠ 0 ->
  frame_on_stack (with_sched st s) x.
Proof using KHL.
  intros K E Hx Hp. destruct (switch_inv st q s K E) as [q' K']. destruct (switch_rsp _ _ (boot_rsp st) E) as (y & Hy & R).
  assert (y = x) as -> by congruence. destruct (process_stack _ q' _ x K' Hx Hp) as [_ _ [T1 T2] T3 _].
  pose proof (kh_size _ _ _ (ki_heap _ _ K') T2) as (_ & B1 & B2). 
  change (u64 (percpu_kernel_rsp (boot_rsp st) (hw s) - FRAME_SIZE) = t_kernel_stack x + FRAME_OFFSET).
  rewrite (R T1), T3, u64_sub_l. unfold FRAME_OFFSET. unfold KERNEL_STACK_SIZE, FRAME_SIZE in *. rewrite u64_small; lia.
Qed.

(** ** Look-up *)

Lemma find_proc_ok (m : gmap Z process) l pid :
  (forall p, p ∈ l -> is_Some (m !! p)) -> exists r, find_proc m l pid = Some r /\
    ((r ∈ l /\ exists x, m !! r = Some x /\ p_pid x = pid) \/ (r = 0 /\ forall p x, p ∈ l -> m !! p = Some x -> p_pid x ≠ pid)).
Proof using.
  induction l as [|p l IH]; intros Hl; cbn [find_proc].
  - exists 0. split; [done|]. right. split; [done|]. by intros p x ?%not_elem_of_nil.
  - destruct (Hl p) as [x Hx]; [by left|]. rewrite Hx. cbn [mbind option_bind]. destruct (Z.eqb_spec (p_pid x) pid) as [E|E].
    + exists p. split; [done|]. left. split; [by left|by exists x].
    + destruct IH as (r & Er & D); [intros r Hr; apply Hl; by right|]. exists r. split; [done|].
      destruct D as [(D1 & D2)|(D1 & D2)]; [left; split; [by right|done]|right; split; [done|]].
      intros r' y [->|Hr]%elem_of_cons Hy; [congruence|by eapply D2].
Qed.

(** [process_find] gives the one process that has the PID, or NULL when no process has it. *)
Theorem process_find_spec st q pid :
  kernel_inv st q -> exists r, process_find st pid = Some r /\
    ((exists x, k_procs st !! r = Some x /\ p_pid x = pid /\ forall p y, k_procs st !! p = Some y -> p_pid y = pid -> p = r) \/
     (r = 0 /\ forall p x, k_procs st !! p = Some x -> p_pid x ≠ pid)).
Proof using.
  intros K. pose proof (ki_table _ _ K) as T. destruct (find_proc_ok (k_procs st) (process_list st) pid) as (r & E & D).
  { intros p Hp. by apply (ti_list _ _ _ T). }
  exists r. split; [done|]. destruct D as [(D1 & x & Hx & Ex)|(D1 & D2)]; [left|right].
  - exists x. split; [done|]. split; [done|]. intros p y Hy Ey. apply (ti_uniq _ _ _ T p r y x); congruence.
  - split; [done|]. intros p x Hx. apply (D2 p x); [|done]. apply (ti_list _ _ _ T). by eexists.
Qed.

(** ** Kill *)

(** [process_kill] ends nothing: it fails for a PID that no process has, and otherwise leaves
    every process, and every thread but for one flag of the main thread, as it is. *)
Theorem process_kill_only_marks st q pid sig :
  kernel_inv st q -> exists r st', process_kill st pid sig = Some (r, st') /\ k_procs st' = k_procs st /\
    ((r = -1 /\ st' = st /\ forall p x, k_procs st !! p = Some x -> p_pid x ≠ pid) \/
     (r = 0 /\ exists p x, k_procs st !! p = Some x /\ p_pid x = pid /\
        (forall t, t ≠ p_main_thread x -> threads (k_sch st') !! t = threads (k_sch st) !! t) /\
        (forall y, threads (k_sch st) !! p_main_thread x = Some y ->
           threads (k_sch st') !! p_main_thread x = Some (set_flags (Z.lor (t_flags y) TF_EXITING) y)))).
Proof using.
  intros K. pose proof (ki_table _ _ K) as T. unfold process_kill.
  destruct (find_proc_ok (k_procs st) (process_list st) pid) as (r & E & D).
  { intros p Hp. by apply (ti_list _ _ _ T). }
  unfold process_find. rewrite E. cbn [mbind option_bind]. destruct D as [(_ & x & Hx & Ex)|(-> & D2)].
  2: { exists (-1), st. split; [done|]. split; [done|]. left. split; [done|]. split; [done|]. intros p x Hx. apply (D2 p x); [|done].
       apply (ti_list _ _ _ T). by eexists. }
  assert (r ≠ 0) as Hr by (intros ->; rewrite (ti_null _ _ _ T) in Hx; done). rewrite (proj2 (Z.eqb_neq r 0) Hr), Hx. cbn [mbind option_bind].
  destruct (Z.eqb_spec (p_main_thread x) 0) as [E0|E0]; cbn [negb].
  - exists 0, st. split; [done|]. split; [done|]. right. split; [done|]. exists r, x. split; [done|]. split; [done|]. split; [done|].
    intros y. by rewrite (no_thread_null st q x K E0).
  - assert (exists y, threads (k_sch st) !! p_main_thread x = Some y) as [y Hy].
    { destruct (ki_proc _ _ K r x Hx) as [_ [(? & _)|[(y & (_ & Hy & _) & _)|(y & (_ & Hy & _) & _)]]]; [done|by exists y..]. }
    rewrite (upd_kthread_eq st _ _ y Hy). cbn [mbind option_bind]. eexists 0, _. split; [done|]. split; [done|]. right. split; [done|].
    exists r, x. split; [done|]. split; [done|]. split; [intros t Ht; by apply lookup_insert_ne|]. intros y' Hy'. assert (y' = y) as -> by congruence.
    apply lookup_insert_eq.
Qed.

(** ** Creation *)

(** [process_create] keeps the kernel consistent.  It gives a process that was not there, with
    a PID no process had, without threads, parent or children and with an empty table of open
    files; or it fails and gives back everything it took. *)
Theorem process_create_spec st q name :
  kernel_inv st q -> name_ok name ->
  exists r st', process_create st name = Some (r, st') /\ kernel_inv st' q /\
    ((r = 0 /\ unchanged st st') \/ (exists x, created st name r x st')).
Proof using KHL. apply process_create_ok. Qed.

(** [kthread_create] gives a runnable kernel thread that is the main thread of a new process
    without an address space, set up to enter its function with its argument; or, when there is no
    memory for the thread, the process just made is destroyed and the table is what it was. *)
Theorem kthread_create_spec st q fn arg name :
  kernel_inv st q -> name_ok name ->
  exists t st' q', kthread_create st fn arg name = Some (t, st') /\ kernel_inv st' q' /\
    ((t = 0 /\ forall r, k_procs st' !! r = k_procs st !! r) \/
     (exists p c k, k_procs st !! p = None /\ k_procs st' = <[p := link_thread t c]> (k_procs st) /\ p_pid c ≠ 0 /\
        live_thread st' p (link_thread t c) /\ get_mm st' p = Some 0 /\
        threads (k_sch st') !! t = Some (first_thread c p TF_KTHREAD k) /\
        k_xts st' !! t = Some (first_context c fn arg k kthread_start 0 (get_ticks (k_sch st))))).
Proof using KHL ASL. apply kthread_create_ok. Qed.

(** ** Fork *)

(** C11.  [process_fork], called by a thread of a process whose system call has saved its registers on
    its kernel stack and whose IPC window, if it has one, holds bytes, keeps the kernel consistent (over
    any address spaces that meet the interface's laws, which [VmmSpaces] proves of vmm.c).  When it succeeds, the parent gets the PID of a
    new child with the parent's credentials, group and session, a copy of its files, and an address
    space of its own that is a copy of the parent's: the same bytes with the same protection at every user
    address, and an IPC window, if the parent has one, with the present contents of the parent's in a page
    that is nobody else's window; the address spaces there were look to their users as they did.  The child
    has a runnable thread whose kernel stack is a copy of the parent's and which returns to user mode
    with the registers the parent's system call saved, but 0 in [rax].  When it fails it returns -1, and
    every process, PID and heap object, the set of address spaces and what each shows its user are as they
    were (that a failed clone loses physical pages below that is the business of [vmm_clone_spec]). *)
Theorem process_fork_spec st q x pp :
  kernel_inv st q -> threads (k_sch st) !! current_thread (k_sch st) = Some x -> t_process x ≠ 0 ->
  k_procs st !! t_process x = Some pp -> frame_on_stack st x -> window_bytes st (t_process x) ->
  exists r st' q', process_fork st = Some (r, st') /\ kernel_inv st' q' /\
    ((r = -1 /\ nothing_left st st') \/
     (exists child c t, r = p_pid c /\ forked st q (t_process x) pp x st' q' child c t)).
Proof using KHL ASL. apply process_fork_ok. Qed.

(** ** Exit and wait *)

(** C20.  [process_exit] always hands the processor over.  The process is then a zombie with its exit
    code and its PID; its endpoints, files and address space are gone, its children are init's (if
    there is an init), and every thread that sleeps on the parent process is runnable. *)
Theorem process_exit_spec st q code y x ix :
  kernel_inv st q -> threads (k_sch st) !! current_thread (k_sch st) = Some y -> t_process y ≠ 0 ->
  k_procs st !! t_process y = Some x -> settled (k_ipc st) (current_thread (k_sch st)) ix ->
  (init_process st ≠ 0 -> is_Some (k_procs st !! init_process st)) ->
  exists st' q' x', process_exit 1 st code = Some (Some st') /\ kernel_inv st' q' /\ exit_result st (t_process y) x code st' x'.
Proof using KHL ASL. apply process_exit_ok. Qed.

(** C34.  [process_wait] returns -1 when there are no children; it returns the PID and the exit code
    of the first zombie among them, which is then gone with everything it owned and its PID free
    again; and it sleeps on its process when no child has ended. *)
Theorem process_wait_spec st q y p :
  kernel_inv st q -> threads (k_sch st) !! current_thread (k_sch st) = Some y -> t_process y ≠ 0 -> k_procs st !! t_process y = Some p ->
  (forall c x, c ∈ p_children p -> k_procs st !! c = Some x -> is_zombie st c = true -> p_children x = []) ->
  (p_children p = [] /\ process_wait 1 st = Some (Waited (-1) None st)) \/
  (exists c l1 l2 x st' q', p_children p = l1 ++ c :: l2 /\ (forall d, d ∈ l1 -> is_zombie st d = false) /\
     k_procs st !! c = Some x /\ zombie st c x /\
     process_wait 1 st = Some (Waited (p_pid x) (Some (p_exit_code x)) st') /\ kernel_inv st' q' /\ reaped st c x st') \/
  (p_children p ≠ [] /\ (forall c, c ∈ p_children p -> is_zombie st c = false) /\
   exists s q', process_wait 1 st = Some (Asleep (Some (with_sched st s))) /\ kernel_inv (with_sched st s) q' /\
     current_thread s ≠ current_thread (k_sch st) /\
     exists z, threads s !! current_thread (k_sch st) = Some z /\ t_state z = TASK_INTERRUPTIBLE /\ t_wait_channel z = t_process y).
Proof using KHL ASL. apply process_wait_ok. Qed.

(** A parent's thread that sleeps in [process_wait]. *)
Record waiting_parent st (p : Z) (x : process) (px : process) (w : thread) : Prop := {
  wp_parent : p_parent x ≠ 0 /\ p_parent x ≠ p /\ k_procs st !! p_parent x = Some px;
  wp_thread : threads (k_sch st) !! p_main_thread px = Some w /\ p_main_thread px ∈ all_threads (k_sch st);
  wp_asleep : t_state w = TASK_INTERRUPTIBLE /\ t_wait_channel w = p_parent x;
  wp_unqueued : unqueued (k_ipc st) (p_main_thread px);
  wp_first : forall d, d ∈ p_children px -> d ≠ p -> is_zombie st d = false
}.

(** A child that is a zombie after another process has ended was one before. *)
Lemma zombie_before st q st' y x code x' d :
  kernel_inv st q -> threads (k_sch st) !! current_thread (k_sch st) = Some y -> t_process y ≠ 0 ->
  exit_result st (t_process y) x code st' x' -> p_children x = [] -> d ≠ t_process y ->
  is_zombie st' d = true -> is_zombie st d = true.
Proof using.
  intros K Hy Hp R Hch Hd Hz. unfold is_zombie in *. rewrite (proj2 (er_others _ _ _ _ _ _ R Hch) d Hd) in Hz.
  destruct (k_procs st !! d) as [z|] eqn:Ed; [|done]. destruct (threads (k_sch st') !! p_main_thread z) as [w|] eqn:Ew; [|done].
  apply bool_decide_eq_true in Hz. destruct (er_live _ _ _ _ _ _ R (p_main_thread z) w) as (w0 & Hw0 & Sw0); [|done|done|by rewrite Hw0, bool_decide_true].
  intros E. destruct (ki_proc _ _ K d z Ed) as [_ [(N & _)|[(v & (_ & Hv & Ev & _) & _)|(v & (_ & Hv & Ev & _) & _)]]].
  - destruct (si_current _ _ (ii_sched _ _ (ki_ipc _ _ K))) as (H0 & _). unfold k_sch in E. congruence.
  - rewrite E in Hv. congruence.
  - rewrite E in Hv. congruence.
Qed.

Lemma zombie_is st p x : k_procs st !! p = Some x -> zombie st p x -> is_zombie st p = true.
Proof using. intros Hx (y & (_ & Hy & _) & _ & _ & Sy & _). unfold is_zombie. rewrite Hx, Hy. by apply bool_decide_eq_true. Qed.

(** C14.  An exit answers a wait.  Let a process without children of its own end while its parent's thread
    sleeps in [process_wait], queued on no endpoint, and no other child of the parent has ended
    ([waiting_parent]); let the ending thread be in no call but those it knows of ([settled]), and init, if
    there is one, exist.  Then [process_exit] makes the parent's thread runnable, and if that thread is
    the one that runs next, its wait returns the PID and the exit code of the process, after which the
    process is gone and its PID is free.  (When other children end before the parent runs, the wait
    returns the first zombie in the parent's list instead: [process_wait_spec].) *)
Theorem exit_then_wait st q code y x ix px w :
  kernel_inv st q -> threads (k_sch st) !! current_thread (k_sch st) = Some y -> t_process y ≠ 0 ->
  k_procs st !! t_process y = Some x -> settled (k_ipc st) (current_thread (k_sch st)) ix ->
  (init_process st ≠ 0 -> is_Some (k_procs st !! init_process st)) -> p_children x = [] ->
  waiting_parent st (t_process y) x px w ->
  exists st' q', process_exit 1 st code = Some (Some st') /\ kernel_inv st' q' /\
    (exists w', threads (k_sch st') !! p_main_thread px = Some w' /\ t_state w' = TASK_RUNNING) /\
    (current_thread (k_sch st') = p_main_thread px ->
     exists st'' q'', process_wait_resume 1 st' = Some (Waited (p_pid x) (Some code) st'') /\ kernel_inv st'' q'' /\
       k_procs st'' !! t_process y = None /\ pid_used (k_pids st'') (p_pid x) = false).
Proof using KHL ASL.
  intros K Hy Hp Hx HS Hi Hch [(P1 & P2 & P3) [T1 T2] [A1 A2] U F]. set (p := t_process y) in *. set (t := current_thread (k_sch st)) in *.
  destruct (process_exit_ok st q code y x ix K Hy Hp Hx HS Hi) as (st' & q' & x' & E & K' & R). exists st', q'. split; [done|]. split; [done|].
  destruct (er_others _ _ _ _ _ _ R Hch) as [Hch' Hoth]. assert (p_parent x' = p_parent x) as Epar.
  { apply (er_parent _ _ _ _ _ _ R). rewrite Hch. apply not_elem_of_nil. }
  destruct (er_proc _ _ _ _ _ _ R) as [Hx' Zx']. fold p in Hx', Zx'. destruct (er_code _ _ _ _ _ _ R) as (Ec & Epid & _).
  assert (p_main_thread px ≠ t) as Hut.
  { intros E'. destruct (ki_proc _ _ K _ px P3) as [_ [(N & _)|[(z & (_ & Hz & Ez & _) & _)|(z & (_ & Hz & Ez & _) & _)]]];
      [rewrite E' in N; by destruct (si_current _ _ (ii_sched _ _ (ki_ipc _ _ K)))|rewrite E' in Hz; unfold p in P2; congruence..]. }
  destruct (er_woken _ _ _ _ _ _ R) with (u := p_main_thread px) (z := w) as (w' & Hw' & Sw'); [by rewrite Epar|done..| |].
  { unfold wakes. rewrite Epar, A2, Z.eqb_refl, A1. done. }
  split; [by exists w'|]. intros Ecur. set (u := p_main_thread px) in *.
  assert (k_procs st' !! p_parent x = Some px) as Hpx' by (by rewrite Hoth).
  assert (t_process w' = p_parent x) as Epw.
  { destruct (ki_proc _ _ K' _ px Hpx') as [_ [(N & _)|[(z & (_ & Hz & Ez & _) & _)|(z & (_ & Hz & Ez & _) & _)]]];
      [unfold u in Hw'; by rewrite (no_thread_null st' q' px K' N) in Hw'|fold u in Hz; congruence..]. }
  unfold process_wait_resume. rewrite Ecur, (upd_kthread_eq st' u _ w' Hw'). cbn [mbind option_bind]. set (st2 := with_sched st' _).
  assert (kernel_inv st2 q') as K2.
  { apply (set_thread_inv st' q' u w'); [done..|]. exists w'. rewrite Ecur. split; [done|by rewrite Sw']. }
  assert (threads (k_sch st2) !! current_thread (k_sch st2) = Some (set_wait_channel 0 w')) as Hc2.
  { change (current_thread (k_sch st2)) with (current_thread (k_sch st')). rewrite Ecur. apply lookup_insert_eq. }
  assert (forall d, is_zombie st2 d = is_zombie st' d) as Ez.
  { intros d. unfold is_zombie. change (k_procs st2) with (k_procs st'). destruct (k_procs st' !! d) as [z|]; [|done].
    change (threads (k_sch st2)) with (<[u := set_wait_channel 0 w']> (threads (k_sch st'))).
    destruct (decide (p_main_thread z = u)) as [->|Hn]; [rewrite lookup_insert_eq, Hw'; done|by rewrite lookup_insert_ne]. }
  assert (forall d, d ∈ p_children px -> is_zombie st2 d = true -> d = p) as Honly.
  { intros d Hd Hz. destruct (decide (d = p)) as [|Hdp]; [done|]. rewrite Ez in Hz. specialize (F d Hd Hdp).
    rewrite (zombie_before st q st' y x code x' d K Hy Hp R Hch Hdp Hz) in F. done. }
  assert (p ∈ p_children px) as Hin by (apply (ti_tree _ _ _ (ki_table _ _ K) _ px P3); by exists x).
  destruct (process_wait_ok st2 q' (set_wait_channel 0 w') px K2 Hc2) as [(E0 & _)|[(c & l1 & l2 & xc & s3 & q3 & El & _ & Hxc & Zc & EW & K3 & RE)|(_ & Hno & _)]].
  { cbn. by rewrite Epw. } { cbn. by rewrite Epw. }
  { intros c xc Hc Hxc Hz. rewrite (Honly c Hc Hz) in Hxc. change (k_procs st' !! p = Some xc) in Hxc.
    rewrite Hx' in Hxc. by injection Hxc as <-. }
  { rewrite E0 in Hin. by apply not_elem_of_nil in Hin. }
  2: { specialize (Hno p Hin). rewrite Ez, (zombie_is st' p x' Hx' Zx') in Hno. done. }
  assert (c = p) as -> by (apply Honly; [rewrite El; set_solver|by apply (zombie_is st2 c xc)]).
  assert (xc = x') as -> by (change (k_procs st' !! p = Some xc) in Hxc; rewrite Hx' in Hxc; by injection Hxc). rewrite Epid, Ec in EW.
  exists s3, q3. split; [done|]. split; [done|]. split; [rewrite (re_procs _ _ _ _ RE); by rewrite decide_True|].
  rewrite (re_pid _ _ _ _ RE), decide_True by (done || apply (ti_pid _ _ _ (ki_table _ _ K) p x) in Hx; lia). done.
Qed.

End spec.
