(* ===== verification/ProcessExample.v ===== *)
(** * Processes: a run of the code

    The theorems about processes at work on a small machine: a heap that hands out ever higher
    addresses, address spaces that are numbers, and a kernel that has just started.  It creates the
    first process, switches to it, forks, waits and sees its child exit. *)
From S2P Require Import Prelude Defs Sched IpcTag Ipc Endpoint Pid Process ProcessTable ProcessFrame ProcessInv ProcessLife ProcessCreate ProcessFork ProcessSpec.

(** ** A heap: the list of the blocks in use *)

Definition block_end (h : list (Z * Z)) : Z := foldr (fun e m => Z.max (e.1 + e.2) m) 4096 h.
Definition next_block (h : list (Z * Z)) : Z := (block_end h + 7) / 8 * 8.

#[export] Instance block_heap : KernelHeap (list (Z * Z)) := {|
  kmalloc h n := let a := next_block h in if 2 ^ 32 <? a + n then Some (0, h) else Some (a, (a, n) :: h);
  kfree h a := if existsb (fun e => e.1 =? a) h then Some (filter (fun e => e.1 ≠ a) h) else None;
  kh_ok h := forall e, e ∈ h -> 0 < e.1 /\ 0 < e.2 /\ e.1 + e.2 <= 2 ^ 32 /\ forall f, f ∈ h -> e = f \/ no_overlap e f;
  kh_live h a n := (a, n) ∈ h
|}.

Lemma block_end_spec h : 4096 <= block_end h /\ forall e, e ∈ h -> e.1 + e.2 <= block_end h.
Proof.
  unfold block_end. induction h as [|e h [IH1 IH2]]; cbn [foldr]; [split; [lia|by intros e ?%not_elem_of_nil]|]. split; [lia|].
  intros f [->|Hf]%elem_of_cons; [lia|]. specialize (IH2 f Hf). lia.
Qed.

#[export] Instance block_heap_laws : KernelHeapLaws (list (Z * Z)).
Proof.
  split.
  - intros h a n Hok Hl. destruct (Hok _ Hl) as (? & ? & ? & _). cbn [fst snd] in *. lia.
  - intros h a n b m Hok Ha Hb. destruct (Hok _ Ha) as (_ & _ & _ & D). by apply D.
  - intros h n Hok Hn. pose proof (block_end_spec h) as [E1 E2]. cbn [kmalloc block_heap].
    assert (block_end h <= next_block h) as Hnb by (unfold next_block; pose proof (Z.div_mod (block_end h + 7) 8); pose proof (Z.mod_pos_bound (block_end h + 7) 8); lia). set (a := next_block h) in *.
    assert (a mod 8 = 0) as Ha by (unfold a, next_block; apply Z.mod_mul; lia).
    destruct (Z.ltb_spec (2 ^ 32) (a + n)) as [Hb|Hb].
    { exists 0, h. split; [done|]. split; [done|]. left. done. }
    assert (forall f, f ∈ h -> no_overlap (a, n) f) as Hap.
    { intros [b m] Hf. specialize (E2 _ Hf). right. cbn in *. lia. }
    exists a, ((a, n) :: h). split; [done|]. split; [|right; split; [lia|split; [done|split; [lia|split]]]].
    + intros e [->|He]%elem_of_cons.
      * cbn. split; [lia|]. split; [lia|]. split; [lia|]. intros f [->|Hf]%elem_of_cons; [by left|right; by apply Hap].
      * destruct (Hok e He) as (? & ? & ? & D). do 3 (split; [done|]). intros f [->|Hf]%elem_of_cons; [|by apply D].
        right. destruct (Hap e He) as [?|?]; [by right|by left].
    + intros b m Hbm. by apply Hap.
    + intros b m. cbn [kh_live block_heap]. rewrite elem_of_cons. tauto.
  - intros h a n Hok Hl. cbn [kfree block_heap kh_live] in *.
    assert (existsb (fun e => e.1 =? a) h = true) as ->.
    { apply existsb_exists. exists (a, n). split; [by apply list_elem_of_In|]. cbn. lia. }
    eexists. split; [done|]. split.
    + intros e [_ He]%list_elem_of_filter. destruct (Hok e He) as (? & ? & ? & D). do 3 (split; [done|]). intros f [_ Hf]%list_elem_of_filter. by apply D.
    + intros b m. rewrite list_elem_of_filter. cbn. tauto.
Qed.

(** ** Address spaces: the bytes of user memory from address 0 on, and an IPC window, a page of its own *)

Notation spaces := (gmap Z (list Z * list Z)).

Definition fresh_space (s : spaces) : Z := foldr Z.max 0 (map_to_list s).*1 + 1.

#[export] Instance number_spaces : AddressSpaces spaces := {|
  as_clone s fr m := x ← s !! m; let r := fresh_space s in Some (r, <[r := (x.1, page_now fr (m * 4096) x.2)]> s);
  as_destroy s m := _ ← s !! m; Some (delete m s);
  as_window s m := x ← s !! m; Some (m * 4096, x.2);
  as_user s m u := x ← s !! m; b ← x.1 !! Z.to_nat u; Some (b, 7);
  as_ok s := s !! 0 = None /\ forall m x, s !! m = Some x -> zlen x.2 = 4096;
  as_live s m := is_Some (s !! m)
|}.

Lemma max_spec (s : list Z) : 0 <= foldr Z.max 0 s /\ forall m, m ∈ s -> m <= foldr Z.max 0 s.
Proof.
  induction s as [|m s [IH1 IH2]]; cbn [foldr]; [split; [lia|by intros m ?%not_elem_of_nil]|]. split; [lia|].
  intros k [->|Hk]%elem_of_cons; [lia|]. specialize (IH2 k Hk). lia.
Qed.

Lemma fresh_space_ok (s : spaces) : 0 < fresh_space s /\ s !! fresh_space s = None.
Proof.
  destruct (max_spec (map_to_list s).*1) as [M1 M2]. unfold fresh_space. split; [lia|].
  destruct (s !! _) as [x|] eqn:Ex; [|done]. apply elem_of_map_to_list in Ex. specialize (M2 _ (list_elem_of_fmap_2 fst _ _ Ex)). cbn in M2. lia.
Qed.

#[export] Instance number_spaces_laws : AddressSpacesLaws spaces.
Proof.
  split.
  - intros s fr m [H0 Hok] [x Hx] Hfr. destruct (fresh_space_ok s) as [F1 F2]. cbn [as_clone number_spaces]. rewrite Hx. cbn [mbind option_bind].
    set (r := fresh_space s) in *. set (x' := (x.1, _)). exists r, (<[r := x']> s). split; [done|].
    assert (forall b, is_Some (s !! b) -> b ≠ r) as Hne by (intros b [y Hy] ->; congruence).
    split; [|split; [|right; split; [lia|split; [|split]] ] ].
    + split; [rewrite lookup_insert_ne by lia; done|]. intros b y [[<- <-]|[_ Hy]]%lookup_insert_Some; [|by eapply Hok].
      unfold x', page_now. cbn. destruct fr as [[w l]|]; [|by eapply Hok]. destruct (w =? _); [by eapply Hfr|by eapply Hok].
    + intros b Hb _. specialize (Hne b Hb). cbn. rewrite lookup_insert_ne by done. done.
    + cbn. rewrite F2. by intros [].
    + intros b. cbn. rewrite lookup_insert_is_Some'. split; [intros [->|?]; [by right|by left]|intros [?| ->]; [by right|by left]].
    + split; [intros u; cbn; by rewrite lookup_insert_eq, Hx|]. exists (m * 4096), x.2, (r * 4096), x'.2. cbn. rewrite Hx, lookup_insert_eq.
      split; [done|]. split; [done|]. assert (m ≠ 0) by (intros ->; congruence). split; [lia|]. split; [done|]. intros _ b Hb E.
      specialize (Hne b Hb). destruct Hb as [y Hy]. rewrite Hy in E. cbn in E. injection E as E. lia.
  - intros s m [H0 Hok] [x Hx]. cbn [as_destroy number_spaces]. rewrite Hx. cbn [mbind option_bind]. exists (delete m s). split; [done|].
    split; [split; [by apply lookup_delete_None; right|intros b y [_ Hy]%lookup_delete_Some; by eapply Hok]|]. split.
    + intros b _ Hb. cbn in *. apply lookup_delete_is_Some in Hb as [Hb _]. by rewrite lookup_delete_ne.
    + intros b. cbn. rewrite lookup_delete_is_Some. naive_solver.
  - intros s m [H0 Hok] [x Hx]. exists (m * 4096), x.2. cbn. rewrite Hx. split; [done|]. intros _. split; [by eapply Hok|apply Z.mod_mul; lia].
Qed.

(** ** The kernel once the scheduler is up: the idle thread runs, and there are no processes *)

Definition boot_sched : sched :=
  mk_sched {[ 100 := idle_thread 0 ]} ∅ (Some (rq_idle 100 (rq_init 0))) 100 0 0 0 ∅ [] [].

Definition boot_ipc : ipc := mk_ipc boot_sched {[ 100 := zero_ithread ]} ∅ ∅ ∅ ∅ ∅ [] 16 0 0.

Definition boot_kernel : kernel (list (Z * Z)) spaces :=
  mk_k boot_ipc [(100, SIZEOF_THREAD)] ∅ ∅ ∅ ∅ ∅ ex_pids [] 0 1 0.

Lemma boot_thread t x : threads boot_sched !! t = Some x -> t = 100 /\ x = idle_thread 0.
Proof. intros [<- <-]%(lookup_singleton_Some 100 t (idle_thread 0) x). done. Qed.

Lemma boot_sched_inv : sched_inv boot_sched (rq_idle 100 (rq_init 0)).
Proof.
  pose proof ex_base_inv as [_ [W1 W2 W3 W4 W5 W6] _ _ (I0 & I1 & _) _]. split; [done| |split; [done|split]|done| |].
  - split; try done. intros p l t Hl Ht. exfalso. destruct (W4 p l t Hl Ht) as (x & _).
    apply zget_lookup in Hl as [_ Hl]. apply lookup_replicate in Hl as [-> _]. by apply not_elem_of_nil in Ht.
  - intros t x [-> ->]%boot_thread. done.
  - intros t x [-> ->]%boot_thread Hn. done.
  - split; [done|]. split; [done|]. exists (idle_thread 0). done.
  - split; [done|]. split; [exact I1|]. by eexists.
Qed.

Lemma boot_inv : kernel_inv boot_kernel (rq_idle 100 (rq_init 0)).
Proof.
  split; try done.
  - destruct ex_pids_inv as [P1 P2]. split; try done.
    + split; [constructor|]. intros p. cbn. rewrite elem_of_nil. split; [done|]. intros [x Hx]. by rewrite lookup_empty in Hx.
    + intros i Hi. cbn. rewrite P2 by lia. rewrite bool_decide_false by lia. split; [done|]. intros (p & x & Hx & _). by rewrite lookup_empty in Hx.
  - split; try done.
    + exact boot_sched_inv.
    + intros t x [-> ->]%boot_thread. split; [by eexists|]. intros Hn. by destruct Hn.
    + intros t x Hx. apply (lookup_singleton_Some 100 t zero_ithread x) in Hx as [<- <-]. done.
  - split; try done; [constructor|]. intros a Ha. by apply not_elem_of_nil in Ha.
  - intros e [->|?%not_elem_of_nil]%elem_of_cons; [|done]. cbn. split; [lia|]. split; [done|]. split; [done|].
    intros f [->|?%not_elem_of_nil]%elem_of_cons; [by left|done].
  - intros p. unfold k_sch. cbn. rewrite !lookup_empty. split; split; by intros [].
  - intros t y [-> ->]%boot_thread Hn. by destruct Hn.
  - intros t u y z [-> ->]%boot_thread _ Hn. by destruct Hn.
  - intros t ?%not_elem_of_nil. done.
  - intros t [y [-> _]%boot_thread]. cbn. by left.
Qed.

(** ** The run *)

Definition after {X} (d : kernel (list (Z * Z)) spaces) (r : option (X * kernel (list (Z * Z)) spaces)) := default d (snd <$> r).
Definition reg {X} (d : X) {Y} (r : option (X * Y)) : X := default d (fst <$> r).

(** The first process, its address space and its thread, and the switch to it *)
Definition init_name : list Z := [105; 110; 105; 116; 0].
Definition k_created := after boot_kernel (process_create boot_kernel (Some init_name)).
Definition init_p : Z := reg 0 (process_create boot_kernel (Some init_name)).
Definition k_space := set_mm (with_as k_created {[ 7 := ([72; 105; 33], replicate 4096 1) ]}) init_p 7.
Definition init_t : Z := reg 0 (process_create_main_thread k_space init_p 4194304 8388608).
Definition k_thread := after k_space (process_create_main_thread k_space init_p 4194304 8388608).
Definition k_started := default k_thread (thread_start k_thread init_t).
Definition k_running :=
  match schedule_body (k_sch k_started) with Some (inl s) => with_sched k_started s | _ => k_started end.

(** It forks, and waits *)
Definition k_forked := after k_running (process_fork k_running).
Definition k_waiting := match process_wait 1 k_forked with Some (Asleep (Some st)) => st | _ => k_forked end.
(** and the child exits. *)
Definition k_exited := match process_exit 1 k_waiting 42 with Some (Some st) => st | _ => k_waiting end.
Definition k_final := match process_wait_resume 1 k_exited with Some (Waited pid status st) => Some (pid, status) | _ => None end.

(** ** The invariant holds all along *)

Definition rq_of (st : kernel (list (Z * Z)) spaces) : run_queue := default (rq_init 0) (runqueues (k_sch st)).
Definition sound (st : kernel (list (Z * Z)) spaces) : Prop := kernel_inv st (rq_of st).

Lemma sound_of st q : kernel_inv st q -> sound st.
Proof. intros K. unfold sound, rq_of. unfold k_sch. by rewrite (si_rq _ _ (ii_sched _ _ (ki_ipc _ _ K))). Qed.

Lemma boot_sound : sound boot_kernel.
Proof. exact (sound_of _ _ boot_inv). Qed.

Lemma init_name_ok : name_ok (Some init_name).
Proof. intros l [= <-]. unfold init_name. set_solver. Qed.

(** The fields of the object at an address that the machine computes *)
Definition proc_at (st : kernel (list (Z * Z)) spaces) (p : Z) : process :=
  default (mk_proc 0 0 0 0 (mk_cred 0 0 0 0 0 0) [] 0 0 0 [] 0 0 []) (k_procs st !! p).
Definition thread_at (st : kernel (list (Z * Z)) spaces) (t : Z) : thread := default (idle_thread 0) (threads (k_sch st) !! t).
Definition ithread_at (st : kernel (list (Z * Z)) spaces) (t : Z) : ithread := default zero_ithread (its (k_ipc st) !! t).
Notation current_of st := (thread_at st (current_thread (k_sch st))).

Lemma created_sound : sound k_created.
Proof.
  destruct (process_create_ok boot_kernel _ _ boot_inv init_name_ok) as (r & st' & E & K & _).
  unfold k_created, after. rewrite E. exact (sound_of _ _ K).
Qed.

Lemma space_sound : sound k_space.
Proof.
  apply (sound_of _ (rq_of k_created)). apply clone_mm_inv; [exact created_sound| | | |].
  - exists (proc_at k_created init_p). by vm_compute.
  - split; [by vm_compute|]. intros m x [<- <-]%lookup_singleton_Some. by vm_compute.
  - intros b Hb. assert (k_as k_created = ∅) as E by (by vm_compute). rewrite E in Hb. cbn in Hb. rewrite lookup_empty in Hb. by destruct Hb.
  - intros _. assert (k_as k_created = ∅) as -> by (by vm_compute). split; [by eexists|]. cbn. rewrite lookup_empty. by intros [].
Qed.

Lemma thread_sound : sound k_thread.
Proof.
  destruct (new_thread_ok k_space _ init_p 0 4194304 8388608 user_thread_start 8388608 (proc_at k_space init_p) space_sound) as (t & st' & E & K & _).
  - by vm_compute.
  - by vm_compute.
  - unfold k_thread, after, process_create_main_thread. rewrite E. exact (sound_of _ _ K).
Qed.

Lemma thread_start_eq (st : kernel (list (Z * Z)) spaces) t s : t ≠ 0 -> sched_add (k_sch st) t = Some s -> thread_start st t = Some (with_sched st s).
Proof. intros Ht E. unfold thread_start. by rewrite (proj2 (Z.eqb_neq t 0) Ht), E. Qed.

Lemma started_sound : sound k_started.
Proof.
  destruct (sched_add_ok k_thread (rq_of k_thread) init_t (thread_at k_thread init_t) thread_sound) as (s & q' & E & K & _).
  - by vm_compute.
  - by vm_compute.
  - by vm_compute.
  - assert (concat (queue (rq_of k_thread)) = []) as -> by by vm_compute. apply not_elem_of_nil.
  - by vm_compute.
  - exists (current_of k_thread). by vm_compute.
  - unfold k_started. rewrite (thread_start_eq k_thread init_t s); [exact (sound_of _ _ K)|by vm_compute|exact E].
Qed.

Lemma switch_of (st : kernel (list (Z * Z)) spaces) :
  match schedule_body (k_sch st) with Some (inl _) => true | _ => false end = true ->
  exists s, schedule_body (k_sch st) = Some (inl s) /\
    match schedule_body (k_sch st) with Some (inl s) => with_sched st s | _ => st end = with_sched st s.
Proof. destruct (schedule_body (k_sch st)) as [[s|s]|]; [|done|done]. intros _. by exists s. Qed.

Lemma started_switches : exists s, schedule_body (k_sch k_started) = Some (inl s) /\ k_running = with_sched k_started s.
Proof. apply (switch_of k_started). by vm_compute. Qed.

Lemma running_sound : sound k_running.
Proof. destruct started_switches as (s & E & ->). destruct (switch_inv k_started _ s started_sound E) as [q' K]. exact (sound_of _ _ K). Qed.

Lemma forked_sound : sound k_forked.
Proof.
  destruct (process_fork_ok k_running _ (current_of k_running) (proc_at k_running init_p) running_sound) as (r & st' & q' & E & K & _); [by vm_compute..|].
  unfold k_forked, after. rewrite E. exact (sound_of _ _ K).
Qed.

Lemma wait_sound (st : kernel (list (Z * Z)) spaces) y p :
  sound st -> threads (k_sch st) !! current_thread (k_sch st) = Some y -> t_process y ≠ 0 -> k_procs st !! t_process y = Some p ->
  (forall c x, c ∈ p_children p -> k_procs st !! c = Some x -> is_zombie st c = true -> p_children x = []) ->
  sound (match process_wait 1 st with Some (Asleep (Some st')) => st' | _ => st end).
Proof.
  intros K Hy Hp Hx Hch. destruct (process_wait_ok st _ y p K Hy Hp Hx Hch) as [(_ & ->)|[(c & l1 & l2 & x & st' & q' & _ & _ & _ & _ & -> & _)|(_ & _ & s & q' & -> & K' & _)]];
    [done|done|]. exact (sound_of _ _ K').
Qed.

Lemma waiting_sound : sound k_waiting.
Proof.
  apply (wait_sound k_forked (current_of k_forked) (proc_at k_forked init_p) forked_sound); [by vm_compute..|].
  intros c x Hc. assert (p_children (proc_at k_forked init_p) = [13232]) as Ec by by vm_compute. rewrite Ec in Hc.
  apply list_elem_of_singleton in Hc as ->. intros _ Hz. by vm_compute in Hz.
Qed.

(** No thread is in a call. *)
Lemma no_calls_settled (i : ipc) t x :
  map_Forall (fun _ y => ipc_caller y = 0 /\ ipc_reply_server y = 0) (its i) -> eps i = ∅ -> its i !! 0 = None -> its i !! t = Some x -> t ≠ 0 ->
  settled i t x.
Proof.
  intros HF He H0 Hx Ht. split; [done|]. split; [done|]. split.
  - intros a e w z Ha. by rewrite He, lookup_empty in Ha.
  - intros u y Hy. destruct (HF u y Hy) as [-> ->]. split; intros E; by subst t.
Qed.

Lemma waiting_settled : settled (k_ipc k_waiting) (current_thread (k_sch k_waiting)) (ithread_at k_waiting (current_thread (k_sch k_waiting))).
Proof. apply no_calls_settled; [refine (bool_decide_unpack _ _)|..]; by vm_compute. Qed.

Lemma exited_sound : sound k_exited.
Proof.
  destruct (process_exit_ok k_waiting _ 42 (current_of k_waiting) (proc_at k_waiting 13232) (ithread_at k_waiting (current_thread (k_sch k_waiting))) waiting_sound) as (st' & q' & x' & E & K & _);
    [by vm_compute|by vm_compute|by vm_compute|exact waiting_settled|intros Hn; exfalso; apply Hn; by vm_compute|].
  unfold k_exited. rewrite E. exact (sound_of _ _ K).
Qed.

(** ** The theorems at work *)

Lemma process_create_spec_witness :
  exists r st', process_create boot_kernel (Some init_name) = Some (r, st') /\ kernel_inv st' (rq_idle 100 (rq_init 0)) /\
    ((r = 0 /\ unchanged boot_kernel st') \/ (exists x, created boot_kernel (Some init_name) r x st')).
Proof. apply (process_create_spec boot_kernel _ _ boot_inv init_name_ok). Defined.

Lemma kthread_create_spec_witness :
  exists t st' q', kthread_create boot_kernel 1000 5 (Some init_name) = Some (t, st') /\ kernel_inv st' q'.
Proof.
  destruct (kthread_create_spec boot_kernel _ 1000 5 _ boot_inv init_name_ok) as (t & st' & q' & E & K & _). by exists t, st', q'.
Defined.

Lemma switch_frame_on_stack_witness :
  exists s x, schedule_body (k_sch k_started) = Some (inl s) /\ frame_on_stack (with_sched k_started s) x.
Proof.
  destruct started_switches as (s & E & R). assert (k_sch k_running = s) as Es by (rewrite R; reflexivity). clear R. subst s.
  exists (k_sch k_running), (current_of k_running). split; [exact E|].
  apply (switch_frame_on_stack k_started _ (k_sch k_running) _ started_sound E); by vm_compute.
Defined.

Lemma process_find_spec_witness : exists r, process_find k_forked 2 = Some r /\ r = 13232 /\
  ((exists x, k_procs k_forked !! r = Some x /\ p_pid x = 2 /\ forall p y, k_procs k_forked !! p = Some y -> p_pid y = 2 -> p = r) \/
   (r = 0 /\ forall p x, k_procs k_forked !! p = Some x -> p_pid x ≠ 2)).
Proof.
  destruct (process_find_spec k_forked _ 2 forked_sound) as (r & E & D). exists r. split; [exact E|]. split; [|exact D].
  assert (process_find k_forked 2 = Some 13232) as E' by (vm_compute; reflexivity). congruence.
Defined.

Lemma process_kill_only_marks_witness :
  exists r st', process_kill k_forked 2 9 = Some (r, st') /\ r = 0 /\ k_procs st' = k_procs k_forked.
Proof.
  destruct (process_kill_only_marks k_forked _ 2 9 forked_sound) as (r & st' & E & P & _). exists r, st'. split; [exact E|]. split; [|exact P].
  assert (fst <$> process_kill k_forked 2 9 = Some 0) as E' by (vm_compute; reflexivity). rewrite E in E'. by injection E'.
Defined.

Lemma process_fork_spec_witness :
  exists r st' q', process_fork k_running = Some (r, st') /\ r = 2 /\ kernel_inv st' q' /\
    exists child c t, forked k_running (rq_of k_running) init_p (proc_at k_running init_p) (current_of k_running) st' q' child c t.
Proof.
  destruct (process_fork_spec k_running _ (current_of k_running) (proc_at k_running init_p) running_sound) as (r & st' & q' & E & K & D); [by vm_compute..|].
  assert (fst <$> process_fork k_running = Some 2) as E' by (vm_compute; reflexivity). rewrite E in E'. injection E' as ->.
  exists 2, st', q'. split; [exact E|]. split; [reflexivity|]. split; [exact K|]. destruct D as [[D _]|(child & c & t & _ & F)]; [discriminate D|].
  exists child, c, t. assert (t_process (current_of k_running) = init_p) as Ep by (vm_compute; reflexivity). rewrite Ep in F. exact F.
Defined.

Lemma process_exit_spec_witness :
  exists st' q' x', process_exit 1 k_waiting 42 = Some (Some st') /\ kernel_inv st' q' /\
    exit_result k_waiting (t_process (current_of k_waiting)) (proc_at k_waiting 13232) 42 st' x'.
Proof.
  apply (process_exit_spec k_waiting _ 42 (current_of k_waiting) (proc_at k_waiting 13232) (ithread_at k_waiting (current_thread (k_sch k_waiting))) waiting_sound); [by vm_compute|by vm_compute|by vm_compute|exact waiting_settled|].
  intros Hn. exfalso. apply Hn. by vm_compute.
Defined.

Lemma process_wait_spec_witness :
  exists st', process_wait 1 k_exited = Some (Waited 2 (Some 42) st') /\ k_procs st' !! 13232 = None.
Proof.
  destruct (process_wait_spec k_exited _ (current_of k_exited) (proc_at k_exited init_p) exited_sound)
    as [(D & _)|[(c & l1 & l2 & x & st' & q' & El & _ & Hx & _ & E & _ & R)|(_ & Hn & _)]]; [by vm_compute|by vm_compute|by vm_compute| | | |].
  - intros c x Hc Hx _. assert (p_children (proc_at k_exited init_p) = [13232]) as Ec by (by vm_compute). rewrite Ec in Hc.
    apply list_elem_of_singleton in Hc as ->. assert (x = proc_at k_exited 13232) as ->; [|by vm_compute].
    unfold proc_at. by rewrite Hx.
  - exfalso. vm_compute in D. discriminate D.
  - assert (p_children (proc_at k_exited init_p) = [13232]) as Ec by (by vm_compute). rewrite Ec in El.
    assert (c = 13232) as -> by (destruct l1 as [|? [|]]; by injection El).
    assert (x = proc_at k_exited 13232) as -> by (unfold proc_at; by rewrite Hx). exists st'. split; [exact E|].
    rewrite (re_procs _ _ _ _ R). by rewrite decide_True.
  - specialize (Hn 13232). assert (is_zombie k_exited 13232 = true) as Ez by (by vm_compute). rewrite Ez in Hn.
    assert (13232 ∈ p_children (proc_at k_exited init_p)) as Hin; [|discriminate (Hn Hin)]. assert (p_children (proc_at k_exited init_p) = [13232]) as -> by (by vm_compute). by left.
Defined.

Lemma exit_then_wait_witness :
  exists st' st'', process_exit 1 k_waiting 42 = Some (Some st') /\ process_wait_resume 1 st' = Some (Waited 2 (Some 42) st'') /\
    pid_used (k_pids st'') 2 = false.
Proof.
  destruct (exit_then_wait k_waiting _ 42 (current_of k_waiting) (proc_at k_waiting 13232) (ithread_at k_waiting (current_thread (k_sch k_waiting))) (proc_at k_waiting init_p) (thread_at k_waiting init_t) waiting_sound)
    as (st' & q' & E & _ & _ & W); [by vm_compute|by vm_compute|by vm_compute|exact waiting_settled|intros Hn; exfalso; apply Hn; by vm_compute|by vm_compute| |].
  - assert (t_process (current_of k_waiting) = 13232) as -> by (by vm_compute). split.
    + by vm_compute.
    + split; [by vm_compute|]. refine (bool_decide_unpack _ _). by vm_compute.
    + by vm_compute.
    + intros a e w z Ha. assert (eps (k_ipc k_waiting) = ∅) as He by (by vm_compute). rewrite He, lookup_empty in Ha. discriminate Ha.
    + assert (p_children (proc_at k_waiting init_p) = [13232]) as -> by (by vm_compute). intros d Hd%list_elem_of_singleton Hn. congruence.
  - destruct W as (st'' & q'' & E2 & _ & _ & Hpid).
    + assert (k_exited = st') as <- by (unfold k_exited; rewrite E; reflexivity). by vm_compute.
    + exists st', st''. split; [exact E|]. split; [exact E2|exact Hpid].
Defined.
