(* ===== verification/Spinlock.v ===== *)
(** * Spinlocks and atomic counters (kernel/include/ocean/spinlock.h)

    The locks at the grain of the atomic accesses they are made of: a state is a lock and the place
    in the code of every CPU, and a step is one access by one CPU, in any order.  The accesses of the
    kernel's lock words are sequentially consistent on x86-64 for the lock word itself, which is what
    the interleaving takes for granted.  Interrupt flags are bit 9 of the flags register. *)
From S2P Require Import Prelude Defs.

(** ** The ticket lock *)

Record spinlock := mk_spin { next_ticket : Z; now_serving : Z }.   (* u32 each *)

Definition spin_init : spinlock := mk_spin 0 0.

(** Where a CPU is: outside; in the loop of [spin_lock] with its ticket; in [spin_trylock] before the
    second load, and before the compare-and-exchange, with the ticket it read; and inside. *)
Inductive pc := Idle | Spinning (my_ticket : Z) | Trying (ticket : Z) | Swapping (ticket : Z) | Holding.

#[export] Instance pc_eq_dec : EqDecision pc.
Proof. solve_decision. Defined.

(** [my_ticket = __atomic_fetch_add(&lock->next_ticket, 1)] *)
Definition spin_lock_take (l : spinlock) : spinlock * pc :=
  (mk_spin (u32 (next_ticket l + 1)) (now_serving l), Spinning (next_ticket l)).

(** one test of the loop *)
Definition spin_lock_wait (l : spinlock) (my_ticket : Z) : spinlock * pc :=
  (l, if now_serving l =? my_ticket then Holding else Spinning my_ticket).

Definition spin_unlock (l : spinlock) : spinlock * pc :=
  (mk_spin (next_ticket l) (u32 (now_serving l + 1)), Idle).

Definition spin_trylock_load (l : spinlock) : spinlock * pc := (l, Trying (next_ticket l)).

Definition spin_trylock_check (l : spinlock) (ticket : Z) : spinlock * pc :=
  (l, if negb (ticket =? now_serving l) then Idle else Swapping ticket).

Definition spin_trylock_swap (l : spinlock) (ticket : Z) : spinlock * pc :=
  if next_ticket l =? ticket then (mk_spin (u32 (ticket + 1)) (now_serving l), Holding) else (l, Idle).

Definition spin_is_locked (l : spinlock) : bool := negb (next_ticket l =? now_serving l).

(** What a CPU that is outside calls next *)
Inductive call := Lock | Trylock.

Definition spin_step (l : spinlock) (c : pc) (r : call) : spinlock * pc :=
  match c with
  | Idle => match r with Lock => spin_lock_take l | Trylock => spin_trylock_load l end
  | Spinning t => spin_lock_wait l t
  | Trying t => spin_trylock_check l t
  | Swapping t => spin_trylock_swap l t
  | Holding => spin_unlock l
  end.

Record spins := mk_spins { the_lock : spinlock; pcs : list pc }.

(** CPU [i] makes its next access. *)
Definition spin_move (st : spins) (e : nat * call) : spins :=
  match pcs st !! e.1 with
  | Some c => let '(l, c') := spin_step (the_lock st) c e.2 in mk_spins l (<[e.1 := c']> (pcs st))
  | None => st
  end.

Definition spin_run (st : spins) (es : list (nat * call)) : spins := foldl spin_move st es.
Definition spin_start (n : nat) : spins := mk_spins spin_init (replicate n Idle).

(** ** What a run shows

    The events of a run are read off the places of the CPUs in the code: a CPU takes a ticket, gets out
    of the loop of [spin_lock], releases the lock, or wins the compare-and-exchange of [spin_trylock]. *)

Inductive lock_event := Arrives (i : nat) | Enters (i : nat) | Leaves (i : nat) | Tries (i : nat).

Definition pc_event (i : nat) (c c' : pc) : list lock_event :=
  match c, c' with
  | Idle, Spinning _ => [Arrives i]
  | Spinning _, Holding => [Enters i]
  | Holding, Idle => [Leaves i]
  | Swapping _, Holding => [Tries i]
  | _, _ => []
  end.

Definition move_event (st : spins) (e : nat * call) : list lock_event :=
  match pcs st !! e.1, pcs (spin_move st e) !! e.1 with Some c, Some c' => pc_event e.1 c c' | _, _ => [] end.

Fixpoint spin_trace (st : spins) (es : list (nat * call)) : list lock_event :=
  match es with [] => [] | e :: es => move_event st e ++ spin_trace (spin_move st e) es end.

(** The CPUs in the order in which they join the line, and in the order in which they get the lock *)
Definition arrivals (tr : list lock_event) : list nat :=
  omap (fun ev => match ev with Arrives i | Tries i => Some i | _ => None end) tr.
Definition entries (tr : list lock_event) : list nat :=
  omap (fun ev => match ev with Enters i | Tries i => Some i | _ => None end) tr.

(** ** The specification: a queue *)

Record fifo := mk_fifo { inside : option nat; waiting : list nat }.

Definition fifo_init : fifo := mk_fifo None [].

Inductive fifo_step : fifo -> lock_event -> fifo -> Prop :=
| fifo_arrive i h w : h ≠ Some i -> i ∉ w -> fifo_step (mk_fifo h w) (Arrives i) (mk_fifo h (w ++ [i]))
| fifo_enter i w : fifo_step (mk_fifo None (i :: w)) (Enters i) (mk_fifo (Some i) w)
| fifo_leave i w : fifo_step (mk_fifo (Some i) w) (Leaves i) (mk_fifo None w)
| fifo_try i : fifo_step (mk_fifo None []) (Tries i) (mk_fifo (Some i) []).

(** The queue goes through the events of a trace, in its order. *)
Inductive fifo_run : fifo -> list lock_event -> fifo -> Prop :=
| fifo_done f : fifo_run f [] f
| fifo_next f ev f' tr f'' : fifo_step f ev f' -> fifo_run f' tr f'' -> fifo_run f (ev :: tr) f''.

Lemma fifo_run_app f t1 f' t2 f'' : fifo_run f t1 f' -> fifo_run f' t2 f'' -> fifo_run f (t1 ++ t2) f''.
Proof. induction 1; intros; [done|]. econstructor; eauto. Qed.

Lemma fifo_run_one f ev f' : fifo_step f ev f' -> fifo_run f [ev] f'.
Proof. intros. econstructor; [done|constructor]. Qed.

(** First come, first served: who has arrived has entered, in that order, or is still waiting. *)
Lemma fifo_order f tr f' : fifo_run f tr f' -> waiting f ++ arrivals tr = entries tr ++ waiting f'.
Proof.
  induction 1 as [f|f ev f' tr f'' Hs Hr IH]; [apply app_nil_r|]. unfold arrivals, entries in *. destruct Hs; cbn [waiting omap list_omap] in *.
  - by rewrite <- IH, <- app_assoc.
  - cbn. by rewrite <- IH.
  - exact IH.
  - cbn. f_equal. exact IH.
Qed.

(** The CPUs are where the queue says. *)
Definition fifo_shows (f : fifo) (cs : list pc) : Prop :=
  forall i, (cs !! i = Some Holding <-> inside f = Some i) /\ ((exists t, cs !! i = Some (Spinning t)) <-> i ∈ waiting f).

(** ** The invariant: the CPUs in line, with consecutive tickets from the one being served *)

Definition in_line (f : fifo) : list nat := match inside f with Some i => i :: waiting f | None => waiting f end.

(** A CPU outside, when [s] tickets have been served and [m] taken since the start: the ticket that
    [spin_trylock] read is at most [k] behind. *)
Definition outside_ok (c : pc) (s m k : Z) : Prop :=
  match c with
  | Idle => True
  | Trying t => exists n, t = u32 n /\ n <= m <= n + k
  | Swapping t => exists n, t = u32 n /\ n <= s /\ m <= n + k
  | _ => False
  end.

Lemma outside_later c s s' m m' k : s <= s' -> m <= m' <= m + 1 -> outside_ok c s m k -> outside_ok c s' m' (k + 1).
Proof. intros Hs Hm. destruct c; cbn; try done; intros (n & E & ?); exists n; (split; [done|lia]). Qed.

(** [s] tickets have been served since the start, [k] steps taken. *)
Record spin_inv (st : spins) (f : fifo) (s k : Z) : Prop := {
  sv_lock : the_lock st = mk_spin (u32 (s + zlen (in_line f))) (u32 s);
  sv_nodup : NoDup (in_line f);
  sv_cpus : forall i, i ∈ in_line f -> (i < length (pcs st))%nat;
  sv_inside : forall i, inside f = Some i -> pcs st !! i = Some Holding;
  sv_waiting : forall j i, waiting f !! j = Some i ->
    pcs st !! i = Some (Spinning (u32 (s + (if inside f then 1 else 0) + Z.of_nat j)));
  sv_outside : forall i c, pcs st !! i = Some c -> i ∉ in_line f -> outside_ok c s (s + zlen (in_line f)) k
}.

Lemma u32_inj a b : a - b < 2 ^ 32 -> b - a < 2 ^ 32 -> u32 a = u32 b -> a = b.
Proof.
  intros H1 H2 E. unfold u32, wrap in E. pose proof (Z.div_mod a (2 ^ 32)). pose proof (Z.div_mod b (2 ^ 32)).
  pose proof (Z.mod_pos_bound a (2 ^ 32)). nia.
Qed.

Lemma u32_add_l a b : u32 (u32 a + b) = u32 (a + b).
Proof. unfold u32, wrap. by rewrite Zplus_mod_idemp_l. Qed.

Lemma in_line_short n f : NoDup (in_line f) -> (forall i, i ∈ in_line f -> (i < n)%nat) -> zlen (in_line f) <= Z.of_nat n.
Proof.
  intros HN Hb. unfold zlen. apply inj_le. rewrite <- (length_seq n 0). apply submseteq_length, NoDup_submseteq; [done|].
  intros i Hi. apply elem_of_seq. specialize (Hb i Hi). lia.
Qed.

Lemma in_line_elem f i : i ∈ in_line f <-> inside f = Some i \/ i ∈ waiting f.
Proof.
  unfold in_line. destruct (inside f) as [j|]; [rewrite elem_of_cons|]; split; try tauto.
  - intros [->|?]; [by left|by right].
  - intros [[= ->]|?]; [by left|by right].
  - intros [?|?]; done.
Qed.

(** The place of a CPU that is in line. *)
Lemma in_line_pc st f s k i : spin_inv st f s k -> i ∈ in_line f ->
  (inside f = Some i /\ pcs st !! i = Some Holding) \/
  (exists j, waiting f !! j = Some i /\ pcs st !! i = Some (Spinning (u32 (s + (if inside f then 1 else 0) + Z.of_nat j)))).
Proof.
  intros [_ _ _ H4 H5 _] [Hi|Hi]%in_line_elem; [left; split; [done|by apply H4]|right].
  apply list_elem_of_lookup in Hi as [j Hj]. exists j. split; [done|by apply H5].
Qed.

Lemma outside_pc st f s k i c : spin_inv st f s k -> pcs st !! i = Some c ->
  (forall t, c ≠ Spinning t) -> c ≠ Holding -> i ∉ in_line f.
Proof. intros HI Hc H1 H2 Hi. destruct (in_line_pc _ _ _ _ _ HI Hi) as [[_ E]|(j & _ & E)]; [congruence|]. eapply H1. by rewrite E in Hc; injection Hc as <-. Qed.

(** A CPU outside moves and stays outside. *)
Lemma stay_outside st f s k i c c' :
  spin_inv st f s k -> pcs st !! i = Some c -> i ∉ in_line f ->
  outside_ok c' s (s + zlen (in_line f)) (k + 1) -> spin_inv (mk_spins (the_lock st) (<[i := c']> (pcs st))) f s (k + 1).
Proof.
  intros [H1 H2 H3 H4 H5 H6] Hc Hi Hc'. split; cbn [the_lock pcs]; try done.
  - intros j Hj. rewrite length_insert. by apply H3.
  - intros j Hj. rewrite list_lookup_insert_ne; [by apply H4|]. intros ->. apply Hi, in_line_elem. by left.
  - intros j x Hx. rewrite list_lookup_insert_ne; [by apply H5|]. intros ->. apply Hi, in_line_elem. right. by apply list_elem_of_lookup_2 in Hx.
  - intros j x Hx Hj. destruct (decide (j = i)) as [->|Hji].
    + rewrite list_lookup_insert_eq in Hx by (by eapply lookup_lt_Some). by injection Hx as <-.
    + rewrite list_lookup_insert_ne in Hx by done. specialize (H6 j x Hx Hj). revert H6. apply outside_later; lia.
Qed.

(** ** Every step is a step of the queue, or none *)

(** A CPU joins the line: it takes a ticket, or finds the lock free. *)
Lemma arrive_ok st f s k i :
  spin_inv st f s k -> pcs st !! i = Some Idle ->
  let f' := mk_fifo (inside f) (waiting f ++ [i]) in
  spin_inv (spin_move st (i, Lock)) f' s (k + 1) /\ fifo_step f (Arrives i) f'.
Proof.
  intros HI Hc f'. assert (i ∉ in_line f) as Hi by (by eapply outside_pc). pose proof HI as [H1 H2 H3 H4 H5 H6].
  assert (in_line f' = in_line f ++ [i]) as EL by (unfold in_line; cbn; by destruct (inside f)).
  assert (zlen (in_line f') = zlen (in_line f) + 1) as EZ by (rewrite EL, zlen_app; reflexivity).
  assert (i < length (pcs st))%nat as Hlen by (by eapply lookup_lt_Some).
  unfold spin_move. cbn [fst snd]. rewrite Hc. cbn [spin_step spin_lock_take]. split.
  2: { destruct f as [h w]. apply fifo_arrive; intros E; apply Hi, in_line_elem; [by left|by right]. }
  split; cbn [the_lock pcs].
  - rewrite H1. cbn [next_ticket now_serving]. rewrite u32_add_l, EZ. do 2 f_equal. lia.
  - rewrite EL. apply NoDup_app. split; [done|]. split; [|apply NoDup_singleton]. intros x Hx ->%list_elem_of_singleton. done.
  - intros x Hx. rewrite length_insert. rewrite EL, elem_of_app, list_elem_of_singleton in Hx. destruct Hx as [Hx| ->]; [by apply H3|done].
  - intros x Hx. rewrite list_lookup_insert_ne; [by apply H4|]. intros ->. apply Hi, in_line_elem. by left.
  - intros j x Hx. cbn [inside f']. apply lookup_app_Some in Hx as [Hx|[Hj Hx]].
    + rewrite list_lookup_insert_ne; [by apply H5|]. intros ->. apply Hi, in_line_elem. right. by apply list_elem_of_lookup_2 in Hx.
    + apply list_lookup_singleton_Some in Hx as [Hj0 <-]. rewrite list_lookup_insert_eq by done. rewrite H1. cbn [next_ticket]. do 3 f_equal.
      assert (zlen (in_line f) = (if inside f then 1 else 0) + zlen (waiting f)) by (unfold in_line; destruct (inside f); [rewrite zlen_cons|]; lia).
      unfold zlen in *. lia.
  - intros x c Hx Hn. rewrite EL, not_elem_of_app in Hn. destruct Hn as [Hn1 Hn2].
    assert (x ≠ i) as Hxi by (intros ->; by apply Hn2; left). rewrite list_lookup_insert_ne in Hx by done. specialize (H6 x c Hx Hn1). rewrite EZ. revert H6. apply outside_later; lia.
Qed.

Lemma enter_ok st f s k i t :
  spin_inv st f s k -> pcs st !! i = Some (Spinning t) -> zlen (in_line f) < 2 ^ 32 -> now_serving (the_lock st) = t ->
  exists w, f = mk_fifo None (i :: w) /\ spin_inv (mk_spins (the_lock st) (<[i := Holding]> (pcs st))) (mk_fifo (Some i) w) s (k + 1).
Proof.
  intros HI Hc Hlen Et. pose proof HI as [H1 H2 H3 H4 H5 H6]. assert (i ∈ in_line f) as Hi.
  { destruct (decide (i ∈ in_line f)) as [|Hn]; [done|]. by destruct (H6 i _ Hc Hn). }
  destruct (in_line_pc _ _ _ _ _ HI Hi) as [[_ E]|(j & Hj & E)]; [congruence|]. rewrite H1 in Et. cbn in Et.
  assert (zlen (in_line f) = (if inside f then 1 else 0) + zlen (waiting f)) as EZ by (unfold in_line; destruct (inside f); [rewrite zlen_cons|]; lia).
  pose proof (lookup_lt_Some _ _ _ Hj) as Hjl. assert (s = s + (if inside f then 1 else 0) + Z.of_nat j) as Es.
  { rewrite E in Hc. injection Hc as Hc. unfold zlen in *. apply u32_inj; [| |congruence]; destruct (inside f); lia. }
  destruct (inside f) as [h|] eqn:Eh; [lia|]. assert (j = 0%nat) as -> by lia. destruct f as [h w]. cbn in Eh, Hj. subst h.
  destruct w as [|x w]; [done|]. injection Hj as ->. exists w. split; [done|]. assert (i ∉ w) as Hiw by (by apply NoDup_cons in H2 as [? _]).
  split; cbn [the_lock pcs]; try done.
  - intros x Hx. rewrite length_insert. by apply H3.
  - intros x [= <-]. apply list_lookup_insert_eq. by eapply lookup_lt_Some.
  - intros n x Hx. cbn [inside] in *. rewrite list_lookup_insert_ne.
    + rewrite (H5 (S n) x Hx). do 3 f_equal. lia.
    + intros ->. apply Hiw. by apply list_elem_of_lookup_2 in Hx.
  - intros x c Hx Hn. destruct (decide (x = i)) as [->|Hxi]; [by destruct Hn; left|]. rewrite list_lookup_insert_ne in Hx by done.
    specialize (H6 x c Hx Hn). change (in_line (mk_fifo (Some i) w)) with (in_line (mk_fifo None (i :: w))). revert H6. apply outside_later; lia.
Qed.

Lemma leave_ok st f s k i :
  spin_inv st f s k -> pcs st !! i = Some Holding ->
  inside f = Some i /\ spin_inv (mk_spins (fst (spin_unlock (the_lock st))) (<[i := Idle]> (pcs st))) (mk_fifo None (waiting f)) (s + 1) (k + 1).
Proof.
  intros HI Hc. pose proof HI as [H1 H2 H3 H4 H5 H6]. assert (i ∈ in_line f) as Hi.
  { destruct (decide (i ∈ in_line f)) as [|Hn]; [done|]. by destruct (H6 i _ Hc Hn). }
  destruct (in_line_pc _ _ _ _ _ HI Hi) as [[Eh _]|(j & Hj & E)]; [|congruence]. split; [done|]. destruct f as [h w]. cbn in Eh. subst h.
  apply NoDup_cons in H2 as [Hiw H2]. change (in_line (mk_fifo (Some i) w)) with (i :: w) in *. rewrite zlen_cons in *.
  split; cbn [the_lock pcs]; change (in_line (mk_fifo None (waiting (mk_fifo (Some i) w)))) with w; try done.
  - rewrite H1. cbn. rewrite u32_add_l. f_equal. f_equal. lia.
  - intros x Hx. rewrite length_insert. apply H3. by right.
  - intros n x Hx. cbn [inside waiting] in *. rewrite list_lookup_insert_ne.
    + rewrite (H5 n x Hx). do 3 f_equal. lia.
    + intros ->. apply Hiw. by apply list_elem_of_lookup_2 in Hx.
  - intros x c Hx Hn. destruct (decide (x = i)) as [->|Hxi].
    + rewrite list_lookup_insert_eq in Hx by (by eapply lookup_lt_Some). by injection Hx as <-.
    + rewrite list_lookup_insert_ne in Hx by done. specialize (H6 x c Hx ltac:(by intros [?|?]%elem_of_cons)). revert H6. apply outside_later; lia.
Qed.

(** [spin_trylock]: both loads agree, so at the second one nobody was in line. *)
Lemma check_ok st f s k i t :
  spin_inv st f s k -> pcs st !! i = Some (Trying t) -> zlen (in_line f) < 2 ^ 32 -> k < 2 ^ 32 ->
  spin_inv (mk_spins (the_lock st) (<[i := snd (spin_trylock_check (the_lock st) t)]> (pcs st))) f s (k + 1).
Proof.
  intros HI Hc Hl Hk. pose proof (zlen_nonneg (in_line f)) as Hz. assert (i ∉ in_line f) as Hi by (by eapply outside_pc). apply (stay_outside _ _ _ _ _ _ _ HI Hc Hi).
  destruct (sv_outside _ _ _ _ HI _ _ Hc Hi) as (n & -> & Hn). unfold spin_trylock_check. rewrite (sv_lock _ _ _ _ HI). cbn.
  destruct (Z.eqb_spec (u32 n) (u32 s)) as [E|]; cbn; [|done]. apply u32_inj in E as ->; [|lia..]. exists s. split; [done|lia].
Qed.

Lemma swap_ok st f s k i t :
  spin_inv st f s k -> pcs st !! i = Some (Swapping t) -> zlen (in_line f) < 2 ^ 32 -> k < 2 ^ 32 -> next_ticket (the_lock st) = t ->
  f = fifo_init /\
  spin_inv (mk_spins (fst (spin_trylock_swap (the_lock st) t)) (<[i := Holding]> (pcs st))) (mk_fifo (Some i) []) s (k + 1).
Proof.
  intros HI Hc Hl Hk Et. assert (i ∉ in_line f) as Hi by (by eapply outside_pc).
  destruct (sv_outside _ _ _ _ HI _ _ Hc Hi) as (n & -> & Hn & Hk'). pose proof HI as [H1 H2 H3 H4 H5 H6].
  rewrite H1 in Et. cbn in Et. pose proof (zlen_nonneg (in_line f)) as Hz. apply u32_inj in Et; [|lia..].
  assert (n = s) as -> by lia. assert (in_line f = []) as EL by (apply nil_length_inv; unfold zlen in *; lia).
  assert (f = fifo_init) as -> by (destruct f as [[h|] w]; [done|]; cbn in EL; by subst w). split; [done|].
  unfold spin_trylock_swap. rewrite H1. cbn [next_ticket now_serving]. change (in_line fifo_init) with (@nil nat) in *. change (zlen (@nil nat)) with 0 in *. rewrite Z.add_0_r in *. rewrite Z.eqb_refl.
  split; cbn [the_lock pcs fst in_line inside waiting].
  - by rewrite u32_add_l.
  - apply NoDup_singleton.
  - intros x ->%list_elem_of_singleton. rewrite length_insert. by eapply lookup_lt_Some.
  - intros x [= <-]. apply list_lookup_insert_eq. by eapply lookup_lt_Some.
  - intros j x Hx. done.
  - intros x c Hx Hn'. change (zlen [i]) with 1. rewrite list_lookup_insert_ne in Hx by (intros ->; by apply Hn'; left).
    specialize (H6 x c Hx ltac:(apply not_elem_of_nil)). revert H6. apply outside_later; lia.
Qed.

Lemma insert_stays st f s k i c : spin_inv st f s k -> pcs st !! i = Some c -> i ∈ in_line f ->
  spin_inv (mk_spins (the_lock st) (<[i := c]> (pcs st))) f s (k + 1).
Proof.
  intros [H1 H2 H3 H4 H5 H6] Hc Hi. rewrite list_insert_id by done. split; try done.
  intros x c' Hx Hn. specialize (H6 x c' Hx Hn). revert H6. apply outside_later; lia.
Qed.

Lemma spin_move_length st e : length (pcs (spin_move st e)) = length (pcs st).
Proof. unfold spin_move. destruct (pcs st !! e.1); [|done]. destruct (spin_step _ _ _) as [l c']. apply length_insert. Qed.

Lemma move_event_eq st i r c c' l :
  pcs st !! i = Some c -> spin_step (the_lock st) c r = (l, c') -> move_event st (i, r) = pc_event i c c'.
Proof.
  intros Hc E. unfold move_event, spin_move. cbn [fst snd]. rewrite Hc, E. cbn [pcs].
  by rewrite list_lookup_insert_eq by (by eapply lookup_lt_Some).
Qed.

Lemma spin_inv_older st f s k : spin_inv st f s k -> spin_inv st f s (k + 1).
Proof.
  intros [H1 H2 H3 H4 H5 H6]. split; try done. intros x c' Hx Hn'. specialize (H6 x c' Hx Hn'). revert H6. apply outside_later; lia.
Qed.

Lemma spin_move_ok st f s k e :
  spin_inv st f s k -> 0 <= k < 2 ^ 32 -> Z.of_nat (length (pcs st)) < 2 ^ 32 ->
  exists f' s', spin_inv (spin_move st e) f' s' (k + 1) /\ fifo_run f (move_event st e) f'.
Proof.
  intros HI Hk Hn. destruct e as [i r]. assert (zlen (in_line f) < 2 ^ 32) as Hl.
  { pose proof (in_line_short _ f (sv_nodup _ _ _ _ HI) (sv_cpus _ _ _ _ HI)). lia. }
  destruct (pcs st !! i) as [c|] eqn:Hc.
  2: { exists f, s. unfold move_event, spin_move. cbn. rewrite Hc. split; [by apply spin_inv_older|constructor]. }
  destruct (spin_step (the_lock st) c r) as [l c'] eqn:Es. rewrite (move_event_eq _ _ _ _ _ _ Hc Es).
  destruct c as [|t|t|t|]; cbn in Es.
  - destruct r; injection Es as <- <-.
    + destruct (arrive_ok _ _ _ _ _ HI Hc) as [HI' HF]. eexists _, s. split; [exact HI'|by apply fifo_run_one].
    + exists f, s. split; [|constructor]. unfold spin_move. cbn. rewrite Hc. cbn. apply (stay_outside _ _ _ _ _ _ _ HI Hc); [by eapply outside_pc|].
      rewrite (sv_lock _ _ _ _ HI). cbn. eexists. split; [done|lia].
  - unfold spin_lock_wait in Es. injection Es as <- <-. unfold spin_move. cbn. rewrite Hc. cbn.
    destruct (Z.eqb_spec (now_serving (the_lock st)) t) as [E|E].
    + destruct (enter_ok _ _ _ _ _ _ HI Hc Hl E) as (w & -> & HI'). eexists _, s. split; [exact HI'|apply fifo_run_one; constructor].
    + exists f, s. split; [|constructor]. apply insert_stays; [done..|]. destruct (decide (i ∈ in_line f)) as [|Hn']; [done|]. by destruct (sv_outside _ _ _ _ HI i _ Hc Hn').
  - exists f, s. split; [|unfold spin_trylock_check in Es; injection Es as <- <-; destruct (negb _); constructor].
    unfold spin_move. cbn. rewrite Hc. cbn. apply (check_ok _ _ _ _ _ _ HI Hc Hl). lia.
  - unfold spin_move. cbn. rewrite Hc. cbn. unfold spin_trylock_swap in Es. destruct (Z.eqb_spec (next_ticket (the_lock st)) t) as [E|E]; injection Es as <- <-.
    + destruct (swap_ok _ _ _ _ _ _ HI Hc Hl ltac:(lia) E) as [-> HI']. exists (mk_fifo (Some i) []), s.
      unfold spin_trylock_swap in *. rewrite (proj2 (Z.eqb_eq _ _) E) in *. split; [exact HI'|apply fifo_run_one; constructor].
    + exists f, s. split; [|constructor]. unfold spin_trylock_swap. rewrite (proj2 (Z.eqb_neq _ _) E). apply (stay_outside _ _ _ _ _ _ _ HI Hc); [by eapply outside_pc|done].
  - injection Es as <- <-. unfold spin_move. cbn. rewrite Hc. cbn. destruct (leave_ok _ _ _ _ _ HI Hc) as [Eh HI']. eexists _, (s + 1). split; [exact HI'|].
    destruct f as [h w]. cbn in Eh. subst h. apply fifo_run_one. constructor.
Qed.

Lemma spin_run_ok es : forall st f s k,
  spin_inv st f s k -> 0 <= k -> k + zlen es <= 2 ^ 32 -> Z.of_nat (length (pcs st)) < 2 ^ 32 ->
  exists f' s', spin_inv (spin_run st es) f' s' (k + zlen es) /\ fifo_run f (spin_trace st es) f' /\ length (pcs (spin_run st es)) = length (pcs st).
Proof.
  induction es as [|e es IH]; intros st f s k HI Hk0 Hk Hn.
  { exists f, s. change (zlen (@nil (nat * call))) with 0. rewrite Z.add_0_r. split; [exact HI|split; [constructor|done]]. }
  rewrite zlen_cons in *. pose proof (zlen_nonneg es) as Hz. pose proof (spin_move_length st e) as HL.
  destruct (spin_move_ok st f s k e HI ltac:(lia) Hn) as (f1 & s1 & HI1 & HF).
  destruct (IH _ _ _ _ HI1) as (f2 & s2 & HI2 & HR & HL2); [lia|lia|by rewrite HL|]. exists f2, s2.
  replace (k + (zlen es + 1)) with (k + 1 + zlen es) by lia. rewrite HL in HL2. split; [exact HI2|split; [|exact HL2]].
  by eapply fifo_run_app.
Qed.

Lemma spin_start_inv n : spin_inv (spin_start n) fifo_init 0 0.
Proof.
  split; cbn; try done.
  - apply NoDup_nil_2.
  - intros i Hi%not_elem_of_nil. done.
  - intros i c Hc _. apply lookup_replicate in Hc as [-> _]. done.
Qed.

Lemma spin_inv_shows st f s k : spin_inv st f s k -> fifo_shows f (pcs st).
Proof.
  intros HI i. pose proof HI as [_ HN _ H4 H5 _]. split; split.
  - intros Hc. by destruct (leave_ok _ _ _ _ _ HI Hc).
  - apply H4.
  - intros [t Hc]. destruct (decide (i ∈ in_line f)) as [Hi|Hn]; [|by destruct (sv_outside _ _ _ _ HI i _ Hc Hn)].
    destruct (in_line_pc _ _ _ _ _ HI Hi) as [[_ E]|(j & Hj & _)]; [congruence|]. by apply list_elem_of_lookup_2 in Hj.
  - intros [j Hj]%list_elem_of_lookup. eexists. by apply H5.
Qed.

(** ** The theorems *)

(** The CPUs in line hold consecutive tickets, from the one that [now_serving] names. *)
Definition tickets_in_order (f : fifo) (st : spins) : Prop :=
  forall j i, waiting f !! j = Some i ->
    pcs st !! i = Some (Spinning (u32 (now_serving (the_lock st) + (if inside f then 1 else 0) + Z.of_nat j))).

(** The CPU at the front gets in at its next test when nobody is inside. *)
Definition front_enters (f : fifo) (st : spins) : Prop :=
  forall i w r, inside f = None -> waiting f = i :: w -> pcs (spin_move st (i, r)) !! i = Some Holding.

Lemma spin_inv_tickets st f s k : spin_inv st f s k -> tickets_in_order f st.
Proof.
  intros HI j i Hj. rewrite (sv_waiting _ _ _ _ HI j i Hj), (sv_lock _ _ _ _ HI). cbn [now_serving].
  by rewrite <- Z.add_assoc, <- Z.add_assoc, u32_add_l.
Qed.

Lemma spin_inv_front st f s k : spin_inv st f s k -> front_enters f st.
Proof.
  intros HI i w r Eh Ew. pose proof (sv_waiting _ _ _ _ HI 0%nat i) as Hc. rewrite Eh, Ew in Hc. specialize (Hc eq_refl).
  rewrite !Z.add_0_r in Hc. unfold spin_move. cbn [fst snd]. rewrite Hc. cbn. rewrite (sv_lock _ _ _ _ HI). cbn. rewrite Z.eqb_refl.
  apply list_lookup_insert_eq. by eapply lookup_lt_Some.
Qed.

(** C15.  The ticket lock is a first-come-first-served queue.  Whatever the interleaving of the accesses
    of fewer than [2^32] CPUs, over any run of at most [2^32] accesses from a fresh lock, the events of
    that very run - a CPU takes its ticket, leaves the loop of [spin_lock], unlocks, or wins the
    compare-and-exchange of [spin_trylock] - are in this order a run of the abstract queue, where one
    arrives at the back, only the front enters and only when nobody is inside, and [spin_trylock] enters
    only an empty queue.  At its end the CPU inside is the only one past [spin_lock] or [spin_trylock],
    the CPUs in line are those that spin and hold consecutive tickets from [now_serving] on, the
    front of the line gets in at its next test when nobody is inside, and the CPUs that joined the line
    are, in order, those that got the lock followed by those still waiting - although both counters
    wrap around. *)
Theorem spin_refines_fifo n es :
  Z.of_nat n < 2 ^ 32 -> zlen es <= 2 ^ 32 ->
  let st := spin_run (spin_start n) es in
  let tr := spin_trace (spin_start n) es in
  exists f, fifo_run fifo_init tr f /\ fifo_shows f (pcs st) /\ tickets_in_order f st /\ front_enters f st /\
    arrivals tr = entries tr ++ waiting f.
Proof.
  intros Hn Hes st tr. destruct (spin_run_ok es _ _ _ _ (spin_start_inv n)) as (f & s & HI & HR & _); [lia|lia|by cbn; rewrite length_replicate|].
  exists f. split; [exact HR|]. split; [by eapply spin_inv_shows|]. split; [by eapply spin_inv_tickets|].
  split; [by eapply spin_inv_front|by apply fifo_order in HR].
Qed.

Definition three_cpus : list (nat * call) :=
  [(0, Lock); (1, Trylock); (2, Lock); (0, Lock); (1, Lock); (1, Lock); (0, Lock); (2, Lock)]%nat.

Lemma spin_refines_fifo_witness :
  exists f, fifo_run fifo_init [Arrives 0; Arrives 2; Enters 0; Arrives 1; Leaves 0; Enters 2] f /\
    fifo_shows f [Idle; Spinning 2; Holding] /\ waiting f = [1%nat].
Proof.
  destruct (spin_refines_fifo 3 three_cpus) as (f & HR & HS & _ & _ & HO); [by vm_compute..|]. exists f.
  split; [exact HR|]. split; [exact HS|]. by injection HO.
Defined.

(** The next access of the CPU at the front takes the line one further: it leaves, or it enters. *)
Lemma front_moves st f s k i l :
  spin_inv st f s k -> 0 <= k < 2 ^ 32 -> Z.of_nat (length (pcs st)) < 2 ^ 32 -> in_line f = i :: l ->
  exists f' s', spin_inv (spin_move st (i, Lock)) f' s' (k + 1) /\ length (pcs (spin_move st (i, Lock))) = length (pcs st) /\
    (inside f = Some i /\ f' = mk_fifo None l \/ inside f = None /\ f' = mk_fifo (Some i) l).
Proof.
  intros HI Hk Hn EL. assert (zlen (in_line f) < 2 ^ 32) as Hl.
  { pose proof (in_line_short _ f (sv_nodup _ _ _ _ HI) (sv_cpus _ _ _ _ HI)). lia. }
  destruct f as [[h|] w]; cbn in EL.
  - injection EL as -> ->. pose proof (sv_inside _ _ _ _ HI i eq_refl) as Hc. destruct (leave_ok _ _ _ _ _ HI Hc) as [_ HI'].
    eexists _, _. unfold spin_move. cbn. rewrite Hc. cbn. split; [exact HI'|]. split; [apply length_insert|by left].
  - subst w. pose proof (sv_waiting _ _ _ _ HI 0%nat i eq_refl) as Hc. cbn in Hc. rewrite !Z.add_0_r in Hc.
    assert (now_serving (the_lock st) = u32 s) as Es by (by rewrite (sv_lock _ _ _ _ HI)).
    destruct (enter_ok _ _ _ _ _ _ HI Hc Hl Es) as (w & [= <-] & HI'). eexists _, _. unfold spin_move. cbn. rewrite Hc. cbn. rewrite Es, Z.eqb_refl.
    split; [exact HI'|]. split; [apply length_insert|by right].
Qed.

(** Every CPU in line enters and leaves in turn. *)
Definition turn_of (f : fifo) : list nat :=
  match inside f with Some i => i :: concat (map (fun j => [j; j]) (waiting f)) | None => concat (map (fun j => [j; j]) (waiting f)) end.

Lemma drain st : forall js f s k,
  spin_inv st f s k -> turn_of f = js -> 0 <= k -> k + zlen js <= 2 ^ 32 -> Z.of_nat (length (pcs st)) < 2 ^ 32 ->
  exists s', spin_inv (spin_run st (map (fun i => (i, Lock)) js)) fifo_init s' (k + zlen js).
Proof.
  intros js. revert st. induction js as [|i js IH]; intros st f s k HI ET Hk0 Hk Hn.
  { destruct f as [[h|] [|x w]]; try done. exists s. change (zlen (@nil nat)) with 0. by rewrite Z.add_0_r. }
  rewrite zlen_cons in *. pose proof (zlen_nonneg js) as Hz. assert (exists l, in_line f = i :: l) as [l EL].
  { destruct f as [[h|] [|x w]]; try done; injection ET as <- _; by eexists. }
  destruct (front_moves _ _ _ _ _ _ HI ltac:(lia) Hn EL) as (f' & s1 & HI' & HL & Hf').
  destruct (IH _ f' s1 (k + 1) HI') as [s2 HI2].
  - destruct f as [[h|] w]; destruct Hf' as [[Eh ->]|[Eh ->]]; try done; cbn in EL.
    + injection EL as -> ->. by injection ET as <-.
    + subst w. by injection ET as <-.
  - lia.
  - lia.
  - by rewrite HL.
  - exists s2. replace (k + (zlen js + 1)) with (k + 1 + zlen js) by lia. exact HI2.
Qed.

Lemma turn_of_short f : zlen (turn_of f) <= 2 * zlen (in_line f).
Proof.
  assert (forall w : list nat, zlen (concat (map (fun j => [j; j]) w)) = 2 * zlen w) as Hw.
  { induction w as [|x w IH]; [done|]. cbn [map concat]. rewrite zlen_app, IH, !zlen_cons. change (zlen (@nil nat)) with 0. lia. }
  unfold turn_of, in_line. destruct (inside f); rewrite ?zlen_cons, Hw; lia.
Qed.

(** No deadlock: from every state that [n] CPUs can reach, the CPUs in line get the lock one
    after the other and release it, in at most [2 n] accesses (each of those CPUs tests once and
    unlocks once), after which nobody holds the lock and nobody waits. *)
Theorem spin_lock_drains n es :
  Z.of_nat n < 2 ^ 32 -> zlen es + 2 * Z.of_nat n <= 2 ^ 32 ->
  exists es', zlen es' <= 2 * Z.of_nat n /\
    forall i c, pcs (spin_run (spin_start n) (es ++ es')) !! i = Some c -> c ≠ Holding /\ forall t, c ≠ Spinning t.
Proof.
  intros Hn Hes. pose proof (zlen_nonneg es) as Hz.
  destruct (spin_run_ok es _ _ _ _ (spin_start_inv n)) as (f & s & HI & _ & HL); [lia|lia|by cbn; rewrite length_replicate|].
  cbn in HL. rewrite length_replicate in HL. pose proof (in_line_short _ f (sv_nodup _ _ _ _ HI) (sv_cpus _ _ _ _ HI)) as Hs. rewrite HL in Hs.
  pose proof (turn_of_short f) as Ht. destruct (drain _ (turn_of f) f s _ HI eq_refl) as [s' HI']; [lia|lia|lia|].
  exists (map (fun i => (i, Lock)) (turn_of f)). split; [|unfold spin_run; rewrite foldl_app; intros i c Hc].
  { unfold zlen. rewrite length_map. unfold zlen in Ht, Hs. lia. }
  pose proof (sv_outside _ _ _ _ HI' i c Hc ltac:(apply not_elem_of_nil)) as Ho. by destruct c.
Qed.

Lemma spin_lock_drains_witness :
  exists es', zlen es' <= 2 * 3 /\
    forall i c, pcs (spin_run (spin_start 3) ([(0, Lock); (2, Lock); (1, Lock); (0, Lock)]%nat ++ es')) !! i = Some c -> c ≠ Holding /\ forall t, c ≠ Spinning t.
Proof. by apply (spin_lock_drains 3); vm_compute. Defined.

(** Taking and releasing the lock [m] times moves both counters by [m]. *)
Definition spin_cycle (i : nat) : list (nat * call) := [(i, Lock); (i, Lock); (i, Lock)].

Lemma spin_cycles m : forall a c,
  spin_run (mk_spins (mk_spin (u32 a) (u32 a)) [c; Idle]) (concat (replicate m (spin_cycle 1))) =
  mk_spins (mk_spin (u32 (a + Z.of_nat m)) (u32 (a + Z.of_nat m))) [c; Idle].
Proof.
  induction m as [|m IH]; intros a c; [by rewrite Z.add_0_r|]. cbn [replicate concat spin_cycle app]. unfold spin_run in *. cbn.
  rewrite Z.eqb_refl. cbn. rewrite u32_add_l, IH. do 2 f_equal; f_equal; lia.
Qed.

Definition delayed_trylock (m : nat) : list (nat * call) :=
  [(0, Trylock); (0, Trylock)]%nat ++ concat (replicate m (spin_cycle 1)) ++ [(1, Lock); (1, Lock); (0, Trylock)]%nat.

Lemma delayed_trylock_run m : u32 (Z.of_nat m) = 2 ^ 32 - 1 -> pcs (spin_run (spin_start 2) (delayed_trylock m)) = [Holding; Holding].
Proof.
  intros Hm. unfold spin_run, delayed_trylock. rewrite !foldl_app.
  change (foldl spin_move (spin_start 2) _) with (mk_spins (mk_spin (u32 0) (u32 0)) [Swapping 0; Idle]).
  pose proof (spin_cycles m 0 (Swapping 0)) as E. unfold spin_run in E. rewrite E, Z.add_0_l, Hm. reflexivity.
Qed.

(** The bound on the run is needed because of [spin_trylock]: a CPU delayed between its loads
    and its compare-and-exchange while the other one takes [2^32] tickets finds [next_ticket] at the
    value it read, although the lock is held, and enters as well. *)
Theorem trylock_wraps_around : exists es, pcs (spin_run (spin_start 2) es) = [Holding; Holding].
Proof.
  assert (exists m, u32 (Z.of_nat m) = 2 ^ 32 - 1) as [m Hm] by (exists (Z.to_nat (2 ^ 32 - 1)); by rewrite Z2Nat.id).
  exists (delayed_trylock m). by apply delayed_trylock_run.
Qed.
