(* ===== verification/Rwlock.v ===== *)
(** * Reader-writer locks, interrupt-safe sections and atomic counters
    (kernel/include/ocean/spinlock.h, kernel/include/ocean/defs.h)

    The reader-writer lock is modelled like the ticket lock, one access of one CPU at a time.  The
    interrupt flag is bit 9 of the flags register of the CPU that runs.  An atomic counter is its
    value, and each operation gives the new value and the one it returns. *)
From S2P Require Import Prelude Defs Uaccess Spinlock.

(** ** The reader-writer lock *)

Record rwlock := mk_rwlock { rw_count : Z; wait_lock : spinlock }.   (* i32; the second is never used *)

Definition rwlock_init : rwlock := mk_rwlock 0 spin_init.
Definition set_count (c : Z) (l : rwlock) : rwlock := mk_rwlock c (wait_lock l).

(** Where a CPU is: outside; in the inner loop of [read_lock], before its second load, before its
    compare-and-exchange with the count it read, and reading; the same for [write_lock]. *)
Inductive rw_pc := RwIdle | RWait | RLoad | RSwap (count : Z) | Reading | WWait | WSwap | Writing.

#[export] Instance rw_pc_eq_dec : EqDecision rw_pc.
Proof. solve_decision. Defined.

Definition read_lock_wait (l : rwlock) : rwlock * rw_pc := (l, if rw_count l <? 0 then RWait else RLoad).
Definition read_lock_load (l : rwlock) : rwlock * rw_pc := (l, if 0 <=? rw_count l then RSwap (rw_count l) else RWait).

Definition read_lock_swap (l : rwlock) (count : Z) : rwlock * rw_pc :=
  if rw_count l =? count then (set_count (s32 (count + 1)) l, Reading) else (l, RWait).

Definition read_unlock (l : rwlock) : rwlock * rw_pc := (set_count (s32 (rw_count l - 1)) l, RwIdle).

Definition write_lock_wait (l : rwlock) : rwlock * rw_pc := (l, if negb (rw_count l =? 0) then WWait else WSwap).
Definition write_lock_swap (l : rwlock) : rwlock * rw_pc := if rw_count l =? 0 then (set_count (-1) l, Writing) else (l, WWait).
Definition write_unlock (l : rwlock) : rwlock * rw_pc := (set_count 0 l, RwIdle).

Inductive rw_call := Read | Write_.

Definition rw_step (l : rwlock) (c : rw_pc) (r : rw_call) : rwlock * rw_pc :=
  match c with
  | RwIdle => match r with Read => read_lock_wait l | Write_ => write_lock_wait l end
  | RWait => read_lock_wait l
  | RLoad => read_lock_load l
  | RSwap c => read_lock_swap l c
  | Reading => read_unlock l
  | WWait => write_lock_wait l
  | WSwap => write_lock_swap l
  | Writing => write_unlock l
  end.

Record rws := mk_rws { rw_lock : rwlock; rw_pcs : list rw_pc }.

Definition rw_move (st : rws) (e : nat * rw_call) : rws :=
  match rw_pcs st !! e.1 with
  | Some c => let '(l, c') := rw_step (rw_lock st) c e.2 in mk_rws l (<[e.1 := c']> (rw_pcs st))
  | None => st
  end.

Definition rw_run (st : rws) (es : list (nat * rw_call)) : rws := foldl rw_move st es.
Definition rw_start (n : nat) : rws := mk_rws rwlock_init (replicate n RwIdle).

(** *** The invariant: the count is the number of readers, or -1 with the one writer *)

Definition is_reading (c : rw_pc) : nat := match c with Reading => 1 | _ => 0 end.
Definition is_writing (c : rw_pc) : nat := match c with Writing => 1 | _ => 0 end.
Definition readers (st : rws) : nat := tally is_reading (rw_pcs st).
Definition writers (st : rws) : nat := tally is_writing (rw_pcs st).

Record rw_inv (st : rws) : Prop := {
  rw_holders : rw_count (rw_lock st) = Z.of_nat (readers st) /\ writers st = 0%nat \/
               rw_count (rw_lock st) = -1 /\ readers st = 0%nat /\ writers st = 1%nat;
  rw_swaps : forall i c, rw_pcs st !! i = Some (RSwap c) -> 0 <= c
}.

Lemma s32_small x : - 2 ^ 31 <= x < 2 ^ 31 -> s32 x = x.
Proof.
  intros H. unfold s32, u32, wrap. destruct (decide (0 <= x)).
  - rewrite Z.mod_small by lia. by destruct (Z.ltb_spec x (2 ^ 31)); [|lia].
  - replace (x mod 2 ^ 32) with (x + 2 ^ 32) by (apply (Z.mod_unique_pos _ _ (-1)); lia). destruct (Z.ltb_spec (x + 2 ^ 32) (2 ^ 31)); lia.
Qed.

Lemma tally_le {A} (w : A -> nat) l : (forall x, w x <= 1)%nat -> (tally w l <= length l)%nat.
Proof. intros Hw. induction l as [|x l IH]; [done|]. cbn [tally length]. specialize (Hw x). lia. Qed.

Lemma tally_lookup {A} (w : A -> nat) l i x : l !! i = Some x -> (w x <= tally w l)%nat.
Proof. revert i. induction l as [|y l IH]; intros [|i] Hi; cbn [tally]; [done|done|injection Hi as ->; lia|]. specialize (IH i Hi). lia. Qed.

Lemma rw_tally_zero {A} (w : A -> nat) l : (forall x, x ∈ l -> w x = 0%nat) -> tally w l = 0%nat.
Proof. intros Hw. induction l as [|x l IH]; [done|]. cbn [tally]. rewrite (Hw x) by left. apply IH. intros y Hy. apply Hw. by right. Qed.

(** Counting the two kinds of holder across one move. *)
Lemma rw_move_counts st i c l c' :
  rw_pcs st !! i = Some c ->
  (readers (mk_rws l (<[i := c']> (rw_pcs st))) + is_reading c = readers st + is_reading c')%nat /\
  (writers (mk_rws l (<[i := c']> (rw_pcs st))) + is_writing c = writers st + is_writing c')%nat.
Proof. intros Hc. split; exact (tally_insert _ _ _ _ _ Hc). Qed.

Lemma rw_step_inv st i c r :
  rw_inv st -> rw_pcs st !! i = Some c -> Z.of_nat (length (rw_pcs st)) < 2 ^ 31 ->
  rw_inv (mk_rws (fst (rw_step (rw_lock st) c r)) (<[i := snd (rw_step (rw_lock st) c r)]> (rw_pcs st))).
Proof.
  intros [HH HS] Hc Hn. set (l' := fst (rw_step (rw_lock st) c r)). set (c' := snd (rw_step (rw_lock st) c r)).
  pose proof (rw_move_counts st i c l' c' Hc) as [ER EW]. split; cbn [rw_lock rw_pcs].
  - pose proof (tally_lookup is_reading _ _ _ Hc) as TR. pose proof (tally_lookup is_writing _ _ _ Hc) as TW.
    fold (readers st) in TR. fold (writers st) in TW. assert (readers st <= length (rw_pcs st))%nat as HL by (apply tally_le; intros []; cbn; lia).
    subst l' c'. revert ER EW TR TW. destruct c as [| | |x| | | |]; cbn [rw_step].
    + destruct r; unfold read_lock_wait, write_lock_wait; cbn [fst snd]; destruct (_ : bool); cbn; lia.
    + unfold read_lock_wait. cbn [fst snd]. destruct (_ <? _); cbn; lia.
    + unfold read_lock_load. cbn [fst snd]. destruct (_ <=? _); cbn; lia.
    + pose proof (HS _ _ Hc). unfold read_lock_swap. destruct (Z.eqb_spec (rw_count (rw_lock st)) x); cbn; [|lia]. intros.
      pose proof (tally_le is_reading (<[i := Reading]> (rw_pcs st)) ltac:(intros []; cbn; lia)) as HL'. rewrite length_insert in HL'.
      unfold readers in *. cbn in *. rewrite s32_small by lia. lia.
    + unfold read_unlock. cbn. intros. rewrite s32_small by lia. lia.
    + unfold write_lock_wait. cbn [fst snd]. destruct (negb _); cbn; lia.
    + unfold write_lock_swap. destruct (Z.eqb_spec (rw_count (rw_lock st)) 0); cbn; lia.
    + unfold write_unlock. cbn. lia.
  - intros j x Hx. destruct (decide (j = i)) as [->|Hj]; [|rewrite list_lookup_insert_ne in Hx by done; by eapply HS].
    rewrite list_lookup_insert_eq in Hx by (by eapply lookup_lt_Some). injection Hx as Ex. subst c'.
    destruct c as [| | |y| | | |]; cbn [rw_step] in Ex;
      unfold read_lock_wait, write_lock_wait, read_lock_load, read_lock_swap, read_unlock, write_lock_swap, write_unlock in Ex; cbn in Ex;
      repeat (case_match; cbn in *; try discriminate); first [discriminate | injection Ex as <-; by apply Z.leb_le].
Qed.

Lemma rw_move_inv st e : rw_inv st -> Z.of_nat (length (rw_pcs st)) < 2 ^ 31 ->
  rw_inv (rw_move st e) /\ length (rw_pcs (rw_move st e)) = length (rw_pcs st).
Proof.
  intros HI Hn. destruct e as [i r]. unfold rw_move. cbn. destruct (rw_pcs st !! i) as [c|] eqn:Hc; [|done].
  pose proof (rw_step_inv st i c r HI Hc Hn) as HI'. destruct (rw_step _ _ _) as [l c']. split; [exact HI'|apply length_insert].
Qed.

Lemma rw_run_inv es : forall st, rw_inv st -> Z.of_nat (length (rw_pcs st)) < 2 ^ 31 -> rw_inv (rw_run st es).
Proof.
  induction es as [|e es IH]; intros st HI Hn; [done|]. destruct (rw_move_inv st e HI Hn) as [HI' HL].
  apply IH; [exact HI'|by rewrite HL].
Qed.

Lemma rw_start_inv n : rw_inv (rw_start n).
Proof.
  split; [left; split|].
  - unfold readers, rw_start. cbn. rewrite rw_tally_zero; [done|]. intros x [-> _]%elem_of_replicate. done.
  - unfold writers, rw_start. cbn. apply rw_tally_zero. intros x [-> _]%elem_of_replicate. done.
  - intros i c [[=] _]%lookup_replicate.
Qed.

(** C27.  The reader-writer lock excludes.  Whatever the interleaving of the accesses of fewer than
    [2^31] CPUs and however long the run, a CPU in the write section is alone - no other CPU writes
    or reads - and the count is the number of CPUs that read, or -1 while one writes. *)
Theorem rwlock_excludes n es st :
  Z.of_nat n < 2 ^ 31 -> st = rw_run (rw_start n) es ->
  (forall i j c, rw_pcs st !! i = Some Writing -> rw_pcs st !! j = Some c -> i ≠ j -> c ≠ Writing /\ c ≠ Reading) /\
  rw_count (rw_lock st) = (if decide (Writing ∈ rw_pcs st) then -1 else Z.of_nat (readers st)).
Proof.
  intros Hn ->. assert (rw_inv (rw_run (rw_start n) es)) as HI by (apply rw_run_inv; [apply rw_start_inv|by cbn; rewrite length_replicate]).
  set (st := rw_run (rw_start n) es) in *. clearbody st. destruct HI as [HH _]. split.
  - intros i j c Hi Hj Hij. pose proof (rw_move_counts st i Writing (rw_lock st) RwIdle Hi) as [ER EW]. cbn in ER, EW.
    assert (<[i := RwIdle]> (rw_pcs st) !! j = Some c) as Hj' by (by rewrite list_lookup_insert_ne).
    pose proof (tally_lookup is_reading _ _ _ Hj') as TR. pose proof (tally_lookup is_writing _ _ _ Hj') as TW.
    unfold readers, writers in *. cbn in *. split; intros ->; cbn in *; lia.
  - destruct (decide (Writing ∈ rw_pcs st)) as [Hw|Hw].
    + apply list_elem_of_lookup in Hw as [i Hi]. pose proof (tally_lookup is_writing _ _ _ Hi) as TW. cbn in TW. unfold writers in HH. lia.
    + assert (writers st = 0%nat) as EW by (apply rw_tally_zero; intros [] Hx; done). lia.
Qed.

Lemma rwlock_excludes_witness :
  (forall i j c, rw_pcs (rw_run (rw_start 2) [(0, Write_); (1, Read); (0, Write_); (1, Read)]%nat) !! i = Some Writing ->
     rw_pcs (rw_run (rw_start 2) [(0, Write_); (1, Read); (0, Write_); (1, Read)]%nat) !! j = Some c -> i ≠ j -> c ≠ Writing /\ c ≠ Reading) /\
  rw_pcs (rw_run (rw_start 2) [(0, Write_); (1, Read); (0, Write_); (1, Read)]%nat) !! 0%nat = Some Writing.
Proof. split; [|reflexivity]. apply (rwlock_excludes 2 [(0, Write_); (1, Read); (0, Write_); (1, Read)]%nat); [lia|reflexivity]. Defined.

(** Two readers whose sections overlap, and a writer that tests the count once per round. *)
Definition reader_round : list (nat * rw_call) :=
  [(1, Read); (1, Read); (1, Read); (0, Read); (2, Write_); (0, Read); (0, Read); (0, Read); (1, Read)]%nat.

(** A writer can starve: two readers whose sections overlap keep the count above zero forever,
    so after any number of rounds, each with one more test by the writer, the writer still waits
    and new readers still come in. *)
Theorem writer_starves m :
  rw_pcs (rw_run (rw_start 3) ([(0, Read); (0, Read); (0, Read)]%nat ++ concat (replicate (S m) reader_round))) = [Reading; RwIdle; WWait].
Proof.
  unfold rw_run. rewrite foldl_app. change (foldl rw_move (rw_start 3) _) with (mk_rws (mk_rwlock 1 spin_init) [Reading; RwIdle; RwIdle]).
  cbn [replicate concat]. rewrite foldl_app. set (st := mk_rws (mk_rwlock 1 spin_init) [Reading; RwIdle; WWait]).
  change (foldl rw_move _ reader_round) with st. assert (foldl rw_move st (concat (replicate m reader_round)) = st) as ->; [|done].
  induction m as [|m IH]; [done|]. cbn [replicate concat]. rewrite foldl_app. exact IH.
Qed.

(** ** The interrupt flag and the interrupt-safe lock *)

Definition IF_MASK : Z := 0x200.
Definition cli (flags : Z) : Z := Z.clearbit flags 9.
Definition sti (flags : Z) : Z := Z.setbit flags 9.

(** The saved flags, and the flags after. *)
Definition local_irq_save (flags : Z) : Z * Z := (flags, cli flags).
Definition local_irq_restore (saved flags : Z) : Z := if ztrue (Z.land saved IF_MASK) then sti flags else flags.

(** The saved flags, the flags after, and the lock and place after the ticket is taken. *)
Definition spin_lock_irqsave (l : spinlock) (flags : Z) : Z * Z * (spinlock * pc) :=
  let '(saved, flags) := local_irq_save flags in (saved, flags, spin_lock_take l).

Definition spin_unlock_irqrestore (l : spinlock) (saved flags : Z) : Z * spinlock :=
  let '(l, _) := spin_unlock l in (local_irq_restore saved flags, l).

Definition spin_lock_irq (l : spinlock) (flags : Z) : Z * (spinlock * pc) := (cli flags, spin_lock_take l).
Definition spin_unlock_irq (l : spinlock) (flags : Z) : Z * spinlock := (sti flags, fst (spin_unlock l)).

(** Code made of work and of interrupt-safe sections, on one CPU that nobody competes with.  It does
    not come back from a lock that it waits for, since only it could release it. *)
Inductive code := Work | Then (a b : code) | Locked (l : nat) (body : code).

Record cpu := mk_cpu { rflags : Z; locks : list spinlock }.

(** Each piece of work notes the locks held and whether interrupts were on. *)
Fixpoint exec (c : code) (held : list nat) (s : cpu) : option (cpu * list (list nat * bool)) :=
  match c with
  | Work => Some (s, [(held, Z.testbit (rflags s) 9)])
  | Then a b => '(s, ta) ← exec a held s; '(s, tb) ← exec b held s; Some (s, ta ++ tb)
  | Locked l body =>
      lk ← locks s !! l;
      let '(saved, flags, (lk, p)) := spin_lock_irqsave lk (rflags s) in
      match p with
      | Spinning t =>
          match spin_lock_wait lk t with
          | (lk, Holding) =>
              '(s, tr) ← exec body (l :: held) (mk_cpu flags (<[l := lk]> (locks s)));
              lk ← locks s !! l;
              let '(flags, lk) := spin_unlock_irqrestore lk saved (rflags s) in
              Some (mk_cpu flags (<[l := lk]> (locks s)), tr)
          | _ => None
          end
      | _ => None
      end
  end.

(** No section is opened inside a section of the same lock; the locks exist. *)
Fixpoint no_relock (c : code) (held : list nat) (n : nat) : bool :=
  match c with
  | Work => true
  | Then a b => no_relock a held n && no_relock b held n
  | Locked l body => bool_decide (l ∉ held) && bool_decide (l < n)%nat && no_relock body (l :: held) n
  end.

Definition lock_free (l : spinlock) : Prop := next_ticket l = now_serving l.

(** What one execution keeps: the flags, the locks held before, and all other locks free. *)
Record kept (held : list nat) (s s' : cpu) : Prop := {
  kp_flags : rflags s' = rflags s;
  kp_length : length (locks s') = length (locks s);
  kp_held : forall l, l ∈ held -> locks s' !! l = locks s !! l;
  kp_free : forall l lk, l ∉ held -> locks s' !! l = Some lk -> lock_free lk
}.

Lemma irq_restored f : local_irq_restore f (cli f) = f.
Proof.
  unfold local_irq_restore, ztrue, cli, sti, IF_MASK. apply Z.bits_inj'. intros n Hn. change 0x200 with (2 ^ 9).
  destruct (Z.testbit f 9) eqn:E.
  - destruct (Z.eqb_spec (Z.land f (2 ^ 9)) 0) as [E0|]; cbn [negb].
    + exfalso. assert (Z.testbit (Z.land f (2 ^ 9)) 9 = true) as E1 by (by rewrite Z.land_spec, E). by rewrite E0 in E1.
    + rewrite Z.setbit_eqb, Z.clearbit_eqb by lia. destruct (Z.eqb_spec 9 n) as [<-|]; [done|]. by rewrite andb_true_r.
  - replace (Z.land f (2 ^ 9)) with 0; [cbn [negb Z.eqb]|].
    + rewrite Z.clearbit_eqb. destruct (Z.eqb_spec 9 n) as [<-|]; [by rewrite E|]. by rewrite andb_true_r.
    + apply Z.bits_inj'. intros m Hm. rewrite Z.bits_0, Z.land_spec, Z.pow2_bits_eqb by lia. destruct (Z.eqb_spec 9 m) as [<-|]; [by rewrite E|by rewrite andb_false_r].
Qed.

Lemma cli_off f : Z.testbit (cli f) 9 = false.
Proof. unfold cli. by rewrite Z.clearbit_eqb, andb_false_r. Qed.

Definition quiet (tr : list (list nat * bool)) : Prop := forall h b, (h, b) ∈ tr -> h ≠ [] -> b = false.

Lemma exec_ok c : forall held s,
  no_relock c held (length (locks s)) = true -> (forall l lk, l ∉ held -> locks s !! l = Some lk -> lock_free lk) ->
  (held ≠ [] -> Z.testbit (rflags s) 9 = false) ->
  exists s' tr, exec c held s = Some (s', tr) /\ kept held s s' /\ quiet tr.
Proof.
  induction c as [|a IHa b IHb|l body IH]; intros held s HN HF HQ.
  - eexists _, _. split; [reflexivity|]. split; [by split|]. intros h b [= -> ->]%list_elem_of_singleton Hh. by apply HQ.
  - apply andb_true_iff in HN as [Ha Hb]. destruct (IHa held s Ha HF HQ) as (s1 & ta & E1 & [K1 K2 K3 K4] & Q1).
    destruct (IHb held s1) as (s2 & tb & E2 & [J1 J2 J3 J4] & Q2); [by rewrite K2|done|by rewrite K1|].
    exists s2, (ta ++ tb). cbn [exec]. rewrite E1. cbn. rewrite E2. split; [reflexivity|]. split.
    + split; [congruence|congruence|intros l Hl; by rewrite J3, K3|done].
    + intros h x [Hx|Hx]%elem_of_app; [by apply Q1|by apply Q2].
  - cbn [no_relock] in HN. apply andb_true_iff in HN as [[Hl Hlt]%andb_true_iff HN]. apply bool_decide_eq_true_1 in Hl, Hlt.
    destruct (locks s !! l) as [lk|] eqn:El; [|apply lookup_ge_None in El; lia]. pose proof (HF l lk Hl El) as Hfree.
    set (lk1 := mk_spin (u32 (next_ticket lk + 1)) (now_serving lk)). set (s1 := mk_cpu (cli (rflags s)) (<[l := lk1]> (locks s))).
    destruct (IH (l :: held) s1) as (s2 & tr & E2 & [J1 J2 J3 J4] & Q2).
    + cbn. by rewrite length_insert.
    + intros j x Hj Hx. apply not_elem_of_cons in Hj as [Hjl Hj]. cbn in Hx. rewrite list_lookup_insert_ne in Hx by done. by eapply HF.
    + intros _. apply cli_off.
    + assert (locks s2 !! l = Some lk1) as El2. { rewrite (J3 l) by left. apply list_lookup_insert_eq. by eapply lookup_lt_Some. }
      exists (mk_cpu (rflags s) (<[l := mk_spin (next_ticket lk1) (u32 (now_serving lk1 + 1))]> (locks s2))), tr.
      cbn [exec]. rewrite El. cbn. rewrite (proj2 (Z.eqb_eq _ _) (eq_sym Hfree)). fold lk1 s1. rewrite E2. cbn. rewrite El2. cbn.
      rewrite J1. cbn. rewrite irq_restored. split; [reflexivity|]. split; [|done]. split; cbn.
      * done.
      * rewrite length_insert, J2. apply length_insert.
      * intros j Hj. rewrite list_lookup_insert_ne by (intros ->; done). rewrite J3 by (by right). cbn. by rewrite list_lookup_insert_ne by (intros ->; done).
      * intros j x Hj Hx. destruct (decide (j = l)) as [->|Hjl].
        -- rewrite list_lookup_insert_eq in Hx by (by eapply lookup_lt_Some). injection Hx as <-. unfold lock_free. cbn. by rewrite Hfree.
        -- rewrite list_lookup_insert_ne in Hx by done. apply (J4 j x); [by intros [?|?]%elem_of_cons|done].
Qed.

(** Interrupt-safe sections nest.  Code whose sections never open a lock they are inside of
    comes back, from free locks: the flags register is what it was, so interrupts are on again
    exactly when they were before, every lock is free again, and no work inside a section, at any
    depth, ran with interrupts on. *)
Theorem irqsave_nests c s :
  no_relock c [] (length (locks s)) = true -> Forall lock_free (locks s) ->
  exists s' tr, exec c [] s = Some (s', tr) /\ rflags s' = rflags s /\ Forall lock_free (locks s') /\
    forall h on, (h, on) ∈ tr -> h ≠ [] -> on = false.
Proof.
  intros HN HF. rewrite Forall_lookup in HF. destruct (exec_ok c [] s HN) as (s' & tr & E & [K1 K2 K3 K4] & Q); [intros l lk _; apply HF|done|].
  exists s', tr. split; [done|]. split; [done|]. split; [|done]. apply Forall_lookup. intros l lk. apply K4, not_elem_of_nil.
Qed.

Lemma irqsave_nests_witness :
  exists s' tr, exec (Then (Locked 0 (Then Work (Locked 1 Work))) Work) [] (mk_cpu 0x202 [spin_init; spin_init]) = Some (s', tr) /\ rflags s' = 0x202.
Proof.
  destruct (irqsave_nests (Then (Locked 0 (Then Work (Locked 1 Work))) Work) (mk_cpu 0x202 [spin_init; spin_init]) eq_refl ltac:(by repeat constructor)) as (s' & tr & E & F & _).
  exists s', tr. split; [exact E|exact F].
Defined.

(** Opening a section of a lock already held never comes back. *)
Example relock_hangs : exec (Locked 0 (Locked 0 Work)) [] (mk_cpu 0x202 [spin_init]) = None.
Proof. reflexivity. Qed.

(** ** Atomic counters: each operation gives the value it returns and the value it leaves *)

Definition s64 (x : Z) : Z := let y := u64 x in if y <? 2 ^ 63 then y else y - 2 ^ 64.

Definition atomic_read (v : Z) : Z := v.
Definition atomic_set (_ i : Z) : Z := i.
Definition atomic_add (v i : Z) : Z := s32 (v + i).
Definition atomic_sub (v i : Z) : Z := s32 (v - i).
Definition atomic_inc (v : Z) : Z := s32 (v + 1).
Definition atomic_dec (v : Z) : Z := s32 (v - 1).
Definition atomic_fetch_add (v i : Z) : Z * Z := (v, s32 (v + i)).
Definition atomic_fetch_sub (v i : Z) : Z * Z := (v, s32 (v - i)).
Definition atomic_dec_and_test (v : Z) : bool * Z := (v =? 1, s32 (v - 1)).
Definition atomic64_fetch_add (v i : Z) : Z * Z := (v, s64 (v + i)).
Definition atomic_ulong_fetch_add (v i : Z) : Z * Z := (v, u64 (v + i)).
Definition atomic_ulong_fetch_sub (v i : Z) : Z * Z := (v, u64 (v - i)).
Definition atomic_ulong_fetch_or (v i : Z) : Z * Z := (v, Z.lor v i).
Definition atomic_ulong_fetch_and (v i : Z) : Z * Z := (v, Z.land v i).

(** A reference count: [atomic_inc] for each new reference, [atomic_dec_and_test] for each one
    given back, by any CPUs; the answers of the latter in order. *)
Inductive ref_op := Get | Put.

Fixpoint ref_run (v : Z) (ops : list ref_op) : Z * list bool :=
  match ops with
  | [] => (v, [])
  | Get :: ops => ref_run (atomic_inc v) ops
  | Put :: ops => let '(last, v) := atomic_dec_and_test v in let '(v, rs) := ref_run v ops in (v, last :: rs)
  end.

(** The references that are left, when nobody uses the object without one. *)
Fixpoint refs_left (v : Z) (ops : list ref_op) : option Z :=
  match ops with
  | [] => Some v
  | Get :: ops => if 0 <? v then refs_left (v + 1) ops else None
  | Put :: ops => if 0 <? v then refs_left (v - 1) ops else None
  end.

Lemma ref_run_ok ops : forall v x, 0 <= v -> v + zlen ops < 2 ^ 31 -> refs_left v ops = Some x ->
  fst (ref_run v ops) = x /\ (x = 0 -> ops ≠ [] -> snd (ref_run v ops) ≠ []) /\
  forall i, snd (ref_run v ops) !! i = Some true <-> x = 0 /\ S i = length (snd (ref_run v ops)).
Proof.
  induction ops as [|[] ops IH]; intros v x Hv Hb HR; cbn in HR.
  { injection HR as <-. cbn. split; [done|]. split; [done|]. intros i. split; [done|]. by intros [_ ?]. }
  all: rewrite zlen_cons in Hb; destruct (Z.ltb_spec 0 v); [|done]; pose proof (zlen_nonneg ops) as Hz; cbn [ref_run].
  - unfold atomic_inc. rewrite s32_small by lia. destruct (IH (v + 1) x) as (E & Hne & HT); [lia|lia|done|].
    split; [done|]. split; [|done]. intros -> _. apply Hne; [done|]. intros ->. cbn in HR. injection HR as HR. lia.
  - unfold atomic_dec_and_test. rewrite s32_small by lia. destruct (IH (v - 1) x) as (E & Hne & HT); [lia|lia|done|].
    destruct (ref_run (v - 1) ops) as [x' rs] eqn:ER. cbn in *. split; [done|]. split; [done|]. intros [|i]; cbn.
    + destruct ops as [|o ops].
      * injection HR as <-. cbn in ER. injection ER as <- <-. cbn. rewrite <- Z.eqb_eq. destruct (Z.eqb_spec v 1); destruct (Z.eqb_spec (v - 1) 0); split; intros; try lia; try done; by destruct_and?.
      * assert (v ≠ 1) as Hv1. { intros ->. by destruct o; cbn in HR. } destruct (Z.eqb_spec v 1); [done|]. split; [done|]. intros [-> Hlen].
        destruct rs; [by destruct (Hne eq_refl)|done].
    + rewrite HT. split; intros [? ?]; (split; [done|lia]).
Qed.

(** A reference count is exact: while every reference is taken and given back by somebody who
    has one, the counter is the number of references left, and [atomic_dec_and_test] answers true
    exactly once, to the last one to give its reference back. *)
Theorem refcount_last_put ops x :
  1 + zlen ops < 2 ^ 31 -> refs_left 1 ops = Some x ->
  fst (ref_run 1 ops) = x /\ forall i, snd (ref_run 1 ops) !! i = Some true <-> x = 0 /\ S i = length (snd (ref_run 1 ops)).
Proof. intros Hb HR. destruct (ref_run_ok ops 1 x) as (E & _ & HT); [lia|lia|done|]. by split. Qed.

Lemma refcount_last_put_witness :
  fst (ref_run 1 [Get; Put; Get; Put; Put]) = 0 /\
  forall i, snd (ref_run 1 [Get; Put; Get; Put; Put]) !! i = Some true <-> 0 = 0 /\ S i = length (snd (ref_run 1 [Get; Put; Get; Put; Put])).
Proof. by apply refcount_last_put. Defined.
