(* ===== verification/PageBytes.v ===== *)
(** * The bytes of a page

    Pages of memory are kept as 512 words (Paging.v).  The program loader writes them byte by byte:
    here are the bytes of a page, and the page after bytes were written into it. *)
From stdpp Require Import list_numbers.
From S2P Require Import Prelude Defs Paging.

Definition page_bytes (l : list Z) : list Z := l ≫= Z_to_little_endian 8 8.

Fixpoint words_of (bs : list Z) : list Z :=
  match bs with
  | b0 :: b1 :: b2 :: b3 :: b4 :: b5 :: b6 :: b7 :: bs => little_endian_to_Z 8 [b0; b1; b2; b3; b4; b5; b6; b7] :: words_of bs
  | _ => []
  end.

(** The bytes [bs] are written from offset [off] on; beyond the end of the page there is no result. *)
Definition write_bytes (l : list Z) (off : Z) (bs : list Z) : option (list Z) :=
  if (0 <=? off) && (off + zlen bs <=? 4096) then
    let old := page_bytes l in
    Some (words_of (take (Z.to_nat off) old ++ bs ++ drop (Z.to_nat (off + zlen bs)) old))
  else None.

Definition bytes (bs : list Z) : Prop := Forall (fun b => 0 <= b < 2 ^ 8) bs.

Lemma page_bytes_length l : zlen (page_bytes l) = 8 * zlen l.
Proof.
  induction l as [|w l IH]; [done|]. unfold page_bytes in *. cbn [mbind list_bind]. rewrite zlen_app, zlen_cons, IH.
  unfold zlen at 1. rewrite length_Z_to_little_endian by lia. lia.
Qed.

Lemma page_bytes_ok l : bytes (page_bytes l).
Proof.
  induction l as [|w l IH]; [constructor|]. unfold page_bytes, bytes in *. cbn [mbind list_bind]. apply Forall_app. split; [|done].
  by apply Z_to_little_endian_bound.
Qed.

Ltac all_bytes := repeat first [apply Forall_nil_2 | apply Forall_cons; split; [done|]].

Lemma words_of_bytes n : forall bs, length bs = (8 * n)%nat -> bytes bs ->
  page_bytes (words_of bs) = bs /\ length (words_of bs) = n /\ Forall (fits 64) (words_of bs).
Proof.
  induction n as [|n IH]; intros bs Hl HB; [by destruct bs|].
  do 8 (destruct bs as [|? bs]; [cbn in Hl; lia|]). cbn [words_of]. unfold bytes in HB. rewrite !Forall_cons in HB.
  destruct HB as (? & ? & ? & ? & ? & ? & ? & ? & HB). destruct (IH bs) as (E & L & F); [cbn in Hl; lia|done|].
  split; [|split; [cbn; by rewrite L|]].
  - unfold page_bytes in *. cbn [mbind list_bind]. rewrite E, Z_to_little_endian_to_Z; [done|done|lia|]. all_bytes.
  - constructor; [|done]. apply (little_endian_to_Z_bound 8 [_; _; _; _; _; _; _; _]); [lia|]. all_bytes.
Qed.

(** What a write leaves: the page is still one, its bytes are the written ones and the old ones. *)
Lemma write_bytes_ok l off bs :
  table_words l -> bytes bs -> 0 <= off -> off + zlen bs <= 4096 ->
  exists l', write_bytes l off bs = Some l' /\ table_words l' /\
    page_bytes l' = take (Z.to_nat off) (page_bytes l) ++ bs ++ drop (Z.to_nat (off + zlen bs)) (page_bytes l).
Proof.
  intros [Ll _] HB H0 H1. unfold write_bytes. rewrite (proj2 (Z.leb_le _ _) H0), (proj2 (Z.leb_le _ _) H1). cbn [andb].
  pose proof (page_bytes_length l) as Lb. pose proof (page_bytes_ok l) as Hb.
  set (new := take _ _ ++ _). assert (length new = (8 * 512)%nat) as Ln.
  { unfold new. rewrite !length_app, length_take, length_drop. unfold zlen in *. lia. }
  destruct (words_of_bytes 512 new Ln) as (E & L & F).
  { unfold new, bytes. apply Forall_app. split; [by apply Forall_take|]. apply Forall_app. split; [done|by apply Forall_drop]. }
  exists (words_of new). split; [done|]. split; [|done]. split; [unfold zlen; rewrite L; lia|done].
Qed.

(** Byte [j] of a string, and of a page. *)
Definition byte_at (bs : list Z) (j : Z) : Z := default 0 (bs !! Z.to_nat j).
Definition page_byte (l : list Z) (j : Z) : Z := byte_at (page_bytes l) j.

Lemma write_bytes_lookup l off bs l' j :
  table_words l -> bytes bs -> 0 <= off -> off + zlen bs <= 4096 -> write_bytes l off bs = Some l' -> 0 <= j < 4096 ->
  page_byte l' j = if decide (off <= j < off + zlen bs) then byte_at bs (j - off) else page_byte l j.
Proof.
  intros W HB H0 H1 E Hj. destruct (write_bytes_ok l off bs W HB H0 H1) as (l1 & E1 & _ & EB).
  rewrite E1 in E. injection E as ->. unfold page_byte, byte_at. rewrite EB. pose proof (page_bytes_length l) as Lb. destruct W as [Ll _].
  assert (length (page_bytes l) = 4096%nat) as L4 by (unfold zlen in *; lia).
  assert (length (take (Z.to_nat off) (page_bytes l)) = Z.to_nat off) as Lt by (rewrite length_take; unfold zlen in *; lia).
  case_decide as Hin; f_equal.
  - rewrite lookup_app_r, Lt by lia. rewrite lookup_app_l by (unfold zlen in *; lia). f_equal. lia.
  - destruct (decide (j < off)) as [Hlt|Hge].
    + rewrite lookup_app_l by lia. apply lookup_take_lt. lia.
    + rewrite lookup_app_r, Lt by lia. rewrite lookup_app_r by (unfold zlen in *; lia). rewrite lookup_drop. f_equal. unfold zlen in *. lia.
Qed.

Lemma zero_page_byte j : page_byte zero_page j = 0.
Proof.
  unfold page_byte, byte_at. assert (page_bytes zero_page = replicate 4096 0) as -> by (vm_compute; reflexivity).
  destruct (replicate 4096 0 !! Z.to_nat j) as [x|] eqn:E; [|reflexivity].
  apply lookup_replicate in E as [-> _]. reflexivity.
Qed.

Lemma zero_page_words : table_words zero_page.
Proof. split; [done|]. by apply Forall_replicate. Qed.
