(* ===== verification/Elf.v ===== *)
(** * ELF headers (kernel/include/ocean/elf.h)

    A file is its bytes; a header is read out of it field by field, little-endian, and a read
    beyond the end of the file has no result. *)
From stdpp Require Import list_numbers.
From S2P Require Import Prelude Defs PageBytes.

Record Elf64_Ehdr := mk_ehdr {
  e_ident : list Z; e_type : Z; e_machine : Z; e_version : Z; e_entry : Z; e_phoff : Z; e_shoff : Z; e_flags : Z;
  e_ehsize : Z; e_phentsize : Z; e_phnum : Z; e_shentsize : Z; e_shnum : Z; e_shstrndx : Z
}.

Record Elf64_Phdr := mk_phdr {
  p_type : Z; p_flags : Z; p_offset : Z; p_vaddr : Z; p_paddr : Z; p_filesz : Z; p_memsz : Z; p_align : Z
}.

Definition SIZEOF_EHDR : Z := 64.
Definition SIZEOF_PHDR : Z := 56.

Definition EI_CLASS : Z := 4.
Definition EI_DATA : Z := 5.
Definition ELFMAG : list Z := [0x7f; 69; 76; 70].
Definition ELFCLASS64 : Z := 2.
Definition ELFDATA2LSB : Z := 1.
Definition ET_EXEC : Z := 2.
Definition ET_DYN : Z := 3.
Definition EM_X86_64 : Z := 62.
Definition PT_LOAD : Z := 1.
Definition PF_X : Z := 1.
Definition PF_W : Z := 2.

Definition ELF_OK : Z := 0.
Definition ELF_ERR_MAGIC : Z := -1.
Definition ELF_ERR_CLASS : Z := -2.
Definition ELF_ERR_ENDIAN : Z := -3.
Definition ELF_ERR_TYPE : Z := -4.
Definition ELF_ERR_MACHINE : Z := -5.

(** [n] bytes of the file from [off] on, and the field they hold. *)
Definition read (elf : list Z) (off n : Z) : option (list Z) :=
  if (0 <=? off) && (0 <=? n) && (off + n <=? zlen elf) then Some (take (Z.to_nat n) (drop (Z.to_nat off) elf)) else None.
Definition field (elf : list Z) (off n : Z) : option Z := bs ← read elf off n; Some (little_endian_to_Z 8 bs).

Definition ehdr_at (elf : list Z) : option Elf64_Ehdr :=
  ident ← read elf 0 16;
  ty ← field elf 16 2; ma ← field elf 18 2; ve ← field elf 20 4; en ← field elf 24 8; po ← field elf 32 8; so ← field elf 40 8;
  fl ← field elf 48 4; eh ← field elf 52 2; ps ← field elf 54 2; pn ← field elf 56 2; ss ← field elf 58 2; sn ← field elf 60 2;
  sx ← field elf 62 2;
  Some (mk_ehdr ident ty ma ve en po so fl eh ps pn ss sn sx).

Definition phdr_at (elf : list Z) (off : Z) : option Elf64_Phdr :=
  ty ← field elf off 4; fl ← field elf (off + 4) 4; fo ← field elf (off + 8) 8; va ← field elf (off + 16) 8;
  pa ← field elf (off + 24) 8; fs ← field elf (off + 32) 8; ms ← field elf (off + 40) 8; al ← field elf (off + 48) 8;
  Some (mk_phdr ty fl fo va pa fs ms al).

(** [ehdr->e_ident[i]] *)
Definition ident (h : Elf64_Ehdr) (i : Z) : Z := byte_at (e_ident h) i.

Definition bad_magic (h : Elf64_Ehdr) : bool :=
  negb (ident h 0 =? 0x7f) || negb (ident h 1 =? 69) || negb (ident h 2 =? 76) || negb (ident h 3 =? 70).

Definition elf_validate (h : Elf64_Ehdr) : Z :=
  if bad_magic h then ELF_ERR_MAGIC
  else if negb (ident h EI_CLASS =? ELFCLASS64) then ELF_ERR_CLASS
  else if negb (ident h EI_DATA =? ELFDATA2LSB) then ELF_ERR_ENDIAN
  else if negb (e_type h =? ET_EXEC) && negb (e_type h =? ET_DYN) then ELF_ERR_TYPE
  else if negb (e_machine h =? EM_X86_64) then ELF_ERR_MACHINE
  else ELF_OK.

(** ** Reading *)

Lemma read_ok elf off n : 0 <= off -> 0 <= n -> off + n <= zlen elf ->
  exists bs, read elf off n = Some bs /\ zlen bs = n /\ forall j, 0 <= j < n -> byte_at bs j = byte_at elf (off + j).
Proof.
  intros H0 Hn He. unfold read. rewrite (proj2 (Z.leb_le _ _) H0), (proj2 (Z.leb_le _ _) Hn), (proj2 (Z.leb_le _ _) He). cbn [andb].
  eexists. split; [done|]. unfold zlen in *. rewrite length_take, length_drop. split; [lia|].
  intros j Hj. unfold byte_at. rewrite lookup_take_lt by lia. rewrite lookup_drop. do 2 f_equal. lia.
Qed.

Lemma read_bytes elf off n bs : bytes elf -> read elf off n = Some bs -> bytes bs.
Proof. intros H. unfold read. destruct (_ && _); [|done]. intros [= <-]. by apply Forall_take, Forall_drop. Qed.

Lemma field_range elf off n x : bytes elf -> field elf off n = Some x -> 0 <= x < 2 ^ (n * 8).
Proof.
  intros H. unfold field. destruct (read elf off n) as [bs|] eqn:E; [|done]. intros [= <-]. pose proof (read_bytes _ _ _ _ H E) as HB.
  assert (zlen bs = n) as <-.
  { unfold read in E. destruct ((0 <=? off) && (0 <=? n) && (off + n <=? zlen elf)) eqn:Eb; [|done]. injection E as <-.
    apply andb_true_iff in Eb as [[H1 H2]%andb_true_iff H3]. apply Z.leb_le in H1, H2, H3. unfold zlen in *. rewrite length_take, length_drop. lia. }
  apply (little_endian_to_Z_bound 8 bs); [lia|done].
Qed.
