(* ===== verification/Exec.v ===== *)
(** * Program loading: the code (kernel/proc/exec.c)

    The loader over the model of address spaces (Vmm.v).  The file is its bytes, the arguments are
    their strings.  [get_free_page(GFP_USER)] is the page allocator's [simple_get_free_page]: the
    flag has no meaning there (exec.c gives it the value 1). *)
From stdpp Require Import list_numbers.
From S2P Require Import Prelude Defs Paging Vmm PageBytes Elf.

Definition USER_STACK_TOP : Z := 0x00007FFFFFFFE000.
Definition USER_STACK_SIZE : Z := 16 * PAGE_SIZE.

Fixpoint segment_overlaps (l : list vm_area) (start fin : Z) : bool :=
  match l with
  | [] => false
  | v :: l => if (vma_start v <? fin) && (start <? vma_end v) then true else if fin <=? vma_start v then false else segment_overlaps l start fin
  end.

(** The part of the file that goes into the page at [page_offset]: where in the page, and the bytes. *)
Definition file_part (elf : list Z) (offset filesz offset_in_page page_offset : Z) : option (option (Z * list Z)) :=
  let file_end := u64 (offset_in_page + filesz) in
  if page_offset <? file_end then
    let copy_start := if page_offset =? 0 then offset_in_page else 0 in
    let copy_end := if file_end <? u64 (page_offset + PAGE_SIZE) then u64 (file_end - page_offset) else PAGE_SIZE in
    if copy_start <? copy_end then
      let file_offset := u64 (u64 (offset + u64 (page_offset - offset_in_page)) + (if page_offset =? 0 then 0 else copy_start)) in
      let copy_len := copy_end - copy_start in
      let limit := u64 (offset + filesz) in
      if file_offset <? limit then
        let copy_len := if limit <? u64 (file_offset + copy_len) then limit - file_offset else copy_len in
        bs ← read elf file_offset copy_len; Some (Some (copy_start, bs))
      else Some None
    else Some None
  else Some None.

Definition segment_pte_flags (p_flags : Z) : Z :=
  let flags := Z.lor PTE_PRESENT PTE_USER in
  let flags := if ztrue (Z.land p_flags PF_W) then Z.lor flags PTE_WRITABLE else flags in
  if negb (ztrue (Z.land p_flags PF_X)) then Z.lor flags PTE_NX else flags.

Definition segment_vma_flags (p_flags : Z) : Z :=
  let flags := VMA_READ in
  let flags := if ztrue (Z.land p_flags PF_W) then Z.lor flags VMA_WRITE else flags in
  if ztrue (Z.land p_flags PF_X) then Z.lor flags VMA_EXEC else flags.

Section code.
Context {S : Type} `{PageAllocator S}.
Implicit Types (st : mmu S) (a : address_space).

(** [memcpy] into one page, at an address of the direct map. *)
Definition write_page st (page off : Z) (bs : list Z) : option (mmu S) :=
  l ← mem st !! page; l ← write_bytes l off bs; Some (with_mem st (<[page := l]> (mem st))).

(** 0 for NULL *)
Definition user_ptr_to_kernel st a (user_addr : Z) : option Z :=
  phys ← paging_get_phys st (pml4 a) user_addr;
  Some (if phys =? u64 (-1) then 0 else u64 (phys + boot_hhdm (frames_of st))).

Fixpoint write_user_loop (n : nat) st a (addr : Z) (bs : list Z) : option (Z * mmu S) :=
  match bs with
  | [] => Some (0, st)
  | _ =>
      match n with
      | O => None
      | Datatypes.S n =>
          let page_offset := Z.land addr (PAGE_SIZE - 1) in
          let chunk := PAGE_SIZE - page_offset in
          let chunk := if zlen bs <? chunk then zlen bs else chunk in
          dst ← user_ptr_to_kernel st a addr;
          if dst =? 0 then Some (-1, st) else
          st ← write_page st (dst - dst mod PAGE_SIZE) (dst mod PAGE_SIZE) (take (Z.to_nat chunk) bs);
          write_user_loop n st a (u64 (addr + chunk)) (drop (Z.to_nat chunk) bs)
      end
  end.

(** Every round writes a byte at least. *)
Definition write_user_bytes st a (user_addr : Z) (bs : list Z) : option (Z * mmu S) := write_user_loop (length bs) st a user_addr bs.

Definition push_u64 st a (sp value : Z) : option (Z * Z * mmu S) :=
  let sp := u64 (sp - 8) in
  '(ret, st) ← write_user_bytes st a sp (Z_to_little_endian 8 8 value); Some (ret, sp, st).

(** One page of a segment; [inr] is the failure to get it.  The result of [paging_map] is ignored. *)
Definition load_page st (root : Z) (elf : list Z) (offset filesz offset_in_page vaddr_aligned flags page_offset : Z) : option (mmu S + mmu S) :=
  let target_vaddr := u64 (vaddr_aligned + page_offset) in
  '(page, st) ← get_free_page st;
  if page =? 0 then Some (inr st) else
  let phys_addr := u64 (page - boot_hhdm (frames_of st)) in
  let st := clear_page st page in
  part ← file_part elf offset filesz offset_in_page page_offset;
  st ← match part with Some (off, bs) => write_page st page off bs | None => Some st end;
  '(_, st) ← paging_map st root target_vaddr phys_addr flags;
  Some (inl st).

Definition load_segment st a (elf : list Z) (ph : Elf64_Phdr) : option (Z * address_space * mmu S) :=
  if negb (p_type ph =? PT_LOAD) then Some (0, a, st) else
  let vaddr := p_vaddr ph in
  let filesz := p_filesz ph in
  let memsz := p_memsz ph in
  let offset := p_offset ph in
  let vaddr_aligned := Z.land vaddr (lnotw 64 (PAGE_SIZE - 1)) in
  let offset_in_page := vaddr - vaddr_aligned in
  let memsz_aligned := Z.land (u64 (memsz + offset_in_page + PAGE_SIZE - 1)) (lnotw 64 (PAGE_SIZE - 1)) in
  if memsz <? filesz then Some (-1, a, st) else
  if (zlen elf <? offset) || (zlen elf - offset <? filesz) then Some (-1, a, st) else
  if (USER_SPACE_END <=? vaddr_aligned) || (USER_SPACE_END - vaddr_aligned <? memsz_aligned) then Some (-1, a, st) else
  if segment_overlaps (vma_list a) vaddr_aligned (u64 (vaddr_aligned + memsz_aligned)) then Some (-1, a, st) else
  let flags := segment_pte_flags (p_flags ph) in
  r ← page_loop (pages_in 0 memsz_aligned) 0 memsz_aligned
        (fun page_offset st => load_page st (pml4 a) elf offset filesz offset_in_page vaddr_aligned flags page_offset) st;
  match r with
  | inr st => Some (-1, a, st)
  | inl st =>
      '(new, st) ← vma_alloc st;
      if vma_ptr new =? 0 then Some (-1, a, st) else
      Some (0, vma_insert a (mk_vma (vma_ptr new) vaddr_aligned (u64 (vaddr_aligned + memsz_aligned)) (segment_vma_flags (p_flags ph)) flags), st)
  end.

(** ** The user stack *)

Definition STACK_PROT : Z := Z.lor (Z.lor (Z.lor PTE_PRESENT PTE_USER) PTE_WRITABLE) PTE_NX.
Definition STACK_FLAGS : Z := Z.lor (Z.lor (Z.lor VMA_READ VMA_WRITE) VMA_STACK) VMA_ANONYMOUS.

Definition stack_page st (root addr : Z) : option (mmu S + mmu S) :=
  '(page, st) ← get_free_page st;
  if page =? 0 then Some (inr st) else
  let phys_addr := u64 (page - boot_hhdm (frames_of st)) in
  let st := clear_page st page in
  '(_, st) ← paging_map st root addr phys_addr STACK_PROT;
  Some (inl st).

(** At most [n] more arguments ([arg_addrs] has 32 places); the stack pointer and the addresses, or a failure. *)
Fixpoint write_args (n : nat) st a (sp : Z) (argv : list (list Z)) (arg_addrs : list Z) : option (option (Z * list Z) * mmu S) :=
  match n, argv with
  | Datatypes.S n, arg :: argv =>
      let sp := u64 (sp - (zlen arg + 1)) in
      '(ret, st) ← write_user_bytes st a sp (arg ++ [0]);
      if ret <? 0 then Some (None, st) else write_args n st a sp argv (arg_addrs ++ [sp])
  | _, _ => Some (Some (sp, arg_addrs), st)
  end.

Fixpoint push_all st a (sp : Z) (vs : list Z) : option (option Z * mmu S) :=
  match vs with
  | [] => Some (Some sp, st)
  | v :: vs => '(ret, sp, st) ← push_u64 st a sp v; if ret <? 0 then Some (None, st) else push_all st a sp vs
  end.

(** The stack pointer, 0 for a failure. *)
Definition setup_user_stack st a (argv : option (list (list Z))) : option (Z * address_space * mmu S) :=
  let stack_bottom := USER_STACK_TOP - USER_STACK_SIZE in
  r ← page_loop (pages_in stack_bottom USER_STACK_TOP) stack_bottom USER_STACK_TOP (fun addr st => stack_page st (pml4 a) addr) st;
  match r with
  | inr st => Some (0, a, st)
  | inl st =>
      '(new, st) ← vma_alloc st;
      if vma_ptr new =? 0 then Some (0, a, st) else
      let a := vma_insert a (mk_vma (vma_ptr new) stack_bottom USER_STACK_TOP STACK_FLAGS STACK_PROT) in
      '(r, st) ← write_args 32 st a USER_STACK_TOP (default [] argv) [];
      match r with
      | None => Some (0, a, st)
      | Some (sp, arg_addrs) =>
          let sp := Z.land sp (lnotw 64 7) in
          '(r, st) ← push_all st a sp (0 :: reverse arg_addrs ++ [zlen arg_addrs]);
          match r with None => Some (0, a, st) | Some sp => Some (sp, a, st) end
      end
  end.

(** ** Replacing the program of a process *)

Fixpoint load_segments (n : nat) st a (elf : list Z) (off : Z) : option (bool * address_space * mmu S) :=
  match n with
  | O => Some (true, a, st)
  | Datatypes.S n =>
      ph ← phdr_at elf off;
      if p_type ph =? PT_LOAD then
        '(ret, a, st) ← load_segment st a elf ph;
        if ret <? 0 then Some (false, a, st) else load_segments n st a elf (off + SIZEOF_PHDR)
      else load_segments n st a elf (off + SIZEOF_PHDR)
  end.

(** The fields of [struct process] that loading uses, and the outcome. *)
Record image := mk_image { i_mm : option address_space; ipc_window_phys : Z; i_name : list Z }.
Inductive outcome := Fails | Enters (entry sp : Z).

(** The name up to its end or 15 bytes, and a NUL. *)
Definition set_name (old name : list Z) : list Z :=
  let n := Nat.min (length name) 15 in take n name ++ [0] ++ drop (Datatypes.S n) old.

Definition exec_accepts (elf : list Z) (h : Elf64_Ehdr) : bool :=
  negb (bad_magic h) && (ident h EI_CLASS =? ELFCLASS64) && (e_type h =? ET_EXEC) && (e_machine h =? EM_X86_64).

(** What [exec_replace] leaves of the address space it gives up. *)
Definition drop_space st a : option (mmu S) := '(_, st) ← vmm_destroy_address_space st a; Some st.

Definition exec_replace st (current : option Z) (proc : option image) (elf : list Z) (name : option (list Z)) (argv : option (list (list Z)))
  : option (outcome * option image * option Z * mmu S) :=
  if zlen elf <? SIZEOF_EHDR then Some (Fails, proc, current, st) else
  h ← ehdr_at elf;
  if negb (exec_accepts elf h) then Some (Fails, proc, current, st) else
  match proc with
  | None => Some (Fails, proc, current, st)
  | Some p =>
      '(new_mm, st) ← vmm_create_address_space st;
      match new_mm with
      | None => Some (Fails, proc, current, st)
      | Some new_mm =>
          '(ok, new_mm, st) ← load_segments (Z.to_nat (e_phnum h)) st new_mm elf (e_phoff h);
          if negb ok then st ← drop_space st new_mm; Some (Fails, proc, current, st) else
          '(user_sp, new_mm, st) ← setup_user_stack st new_mm argv;
          if user_sp =? 0 then st ← drop_space st new_mm; Some (Fails, proc, current, st) else
          '(ret, mm, w, st) ← process_setup_ipc_window st (Some new_mm) 0;
          new_mm ← mm;
          if negb (ret =? 0) then st ← drop_space st new_mm; Some (Fails, proc, current, st) else
          let nm := match name with Some (b :: s) => set_name (i_name p) (b :: s) | _ => i_name p end in
          let '(st, current) := paging_switch st current (Some new_mm) in
          st ← match i_mm p with Some old_mm => drop_space st old_mm | None => Some st end;
          Some (Enters (e_entry h) user_sp, Some (mk_image (Some new_mm) w nm), current, st)
      end
  end.

End code.
