(* ===== verification/ExecPages.v ===== *)
(** * Program loading: pages (kernel/proc/exec.c)

    One page of a segment or of the stack, and runs of them.  The loader does not look at what
    [paging_map] returns.  Without huge pages in the user half, which nothing in the kernel makes,
    [paging_map] fails only when the allocator has no page left, and then the loader fails at its
    next allocation. *)
From S2P Require Import Prelude Defs Paging PagingSpace Vmm VmmSpace VmmRegion VmmLife PageBytes Elf Exec.

Section pages.
Context {S : Type} `{PA : PageAllocator S} {PAL : PageAllocatorLaws S}.
Implicit Types (st : mmu S) (a : address_space) (R : gmap Z role).

(** ** No huge pages in the user half *)

Definition no_huge st (root : Z) : Prop := forall q i, user_path (q ++ [i]) -> ~ huge_at st root q i.

Lemma no_huge_path st root v : no_huge st root -> user_addr v -> ~ huge_on_path st root v.
Proof using PAL.
  intros HN Hv. pose proof (path_user v Hv) as P3. unfold path in P3.
  destruct (user_path_snoc [PML4_INDEX v; PDPT_INDEX v] _ P3) as (P2 & _).
  intros [H1|H1]; [exact (HN [PML4_INDEX v] _ P2 H1)|exact (HN [PML4_INDEX v; PDPT_INDEX v] _ P3 H1)].
Qed.

(** A state in which the walks and the loads of the upper tables are the same. *)
Lemma no_huge_same st st' root :
  (forall q, user_path q -> walk st' false root q = walk st false root q) ->
  (forall q t i, user_path (q ++ [i]) -> walk st false root q = Some t -> load st' t i = load st t i) ->
  no_huge st root -> no_huge st' root.
Proof using PAL.
  intros HW HL HN q i Hq (t & e & Hne & Hw & He & Hp & Hh). destruct (user_path_snoc _ _ Hq) as (Hq' & _). rewrite HW in Hw by done.
  apply (HN q i Hq). exists t, e. rewrite (HL q t i Hq Hw) in He. done.
Qed.

Lemma grown_no_huge st root own t p i new st' e0 :
  tree st root own -> own !! t = Some p -> load st t i = Some e0 -> ~ present e0 -> own !! new = None ->
  grown st t i new st' -> no_huge st root -> no_huge st' root.
Proof using PAL.
  intros T Ht He0 Hp0 Hn G HN q j Hq (t' & e & Hne & Hw & He & Hp & Hh). destruct (user_path_snoc _ _ Hq) as (Hq' & _).
  pose proof Hq' as (L & _ & Hhd).
  destruct (grown_walk st root own t p i new st' e0 q root []) as [E|[E1 E2]]; try done; [apply T|..];
    rewrite bool_decide_false in * by (intros X; by apply X).
  - rewrite E in Hw. pose proof (walk_owned st root own q t' T Hq' Hw) as Ho. destruct (decide (t' = t /\ j = i)) as [[-> ->]|Hd].
    + destruct (gr_entry _ _ _ _ _ G) as (z & Hz & _ & _ & Hzh & _). congruence.
    + rewrite (gr_loads _ _ _ _ _ G) in He; [|congruence|intros -> ->; tauto]. apply (HN q j Hq). by exists t', e.
  - rewrite E2 in Hw. injection Hw as <-. apply load_zero in He; [subst|apply G]. by apply not_present_0 in Hp.
Qed.

Lemma next_table_no_huge st root own q t i r st' :
  tree st root own -> user_path (q ++ [i]) -> walk st false root q = Some t -> no_huge st root ->
  next_table (bool_decide (q ≠ [])) st t i true = Some (r, st') -> no_huge st' root.
Proof using PAL.
  intros T Hq Ht HN E. destruct (user_path_snoc _ _ Hq) as (Hq' & Hl & Hi & H4).
  pose proof (walk_owned st root own q t T Hq' Ht) as Ho. destruct (load_ok st root own t q i T Ho Hi) as (e & He & _).
  destruct (ztrue (Z.land e PTE_PRESENT)) eqn:Ep.
  - unfold next_table in E. rewrite He in E. cbn [mbind option_bind] in E. rewrite Ep in E. cbn [negb] in E.
    by destruct (_ && _); injection E as _ <-.
  - assert (~ present e) as Hnp by (unfold present; congruence).
    destruct (next_table_grow st root own t q i (bool_decide (q ≠ [])) e T Ho Hi He Hnp) as [[E' _]|(new & st1 & E' & Hn & G)];
      rewrite E' in E; injection E as <- <-; [done|]. by apply (grown_no_huge st root own t q i new st1 e).
Qed.

Lemma get_or_create_no_huge st root own v r st' :
  tree st root own -> user_addr v -> no_huge st root -> get_or_create_pte st root v true = Some (r, st') -> no_huge st' root.
Proof using PAL.
  intros T Hv HN. pose proof (path_user v Hv) as P3. unfold path in P3.
  destruct (user_path_snoc [PML4_INDEX v; PDPT_INDEX v] _ P3) as (P2 & _). destruct (user_path_snoc [PML4_INDEX v] _ P2) as (P1 & _).
  unfold get_or_create_pte.
  destruct (next_table_create st root own [] root (PML4_INDEX v) T P1 eq_refl) as (r1 & st1 & own1 & E1 & G1 & R1).
  pose proof (next_table_no_huge st root own [] root (PML4_INDEX v) r1 st1 T P1 eq_refl HN E1) as N1.
  rewrite bool_decide_false in E1 by (intros X; by apply X). rewrite E1. cbn [mbind option_bind].
  destruct r1 as [t1|]; [|by intros [= _ <-]]. pose proof (gs_tree _ _ _ _ _ G1) as T1.
  destruct (next_table_create st1 root own1 [PML4_INDEX v] t1 (PDPT_INDEX v) T1 P2 R1) as (r2 & st2 & own2 & E2 & G2 & R2).
  pose proof (next_table_no_huge st1 root own1 [PML4_INDEX v] t1 (PDPT_INDEX v) r2 st2 T1 P2 R1 N1 E2) as N2. rewrite bool_decide_true in E2 by done. rewrite E2. cbn [mbind option_bind].
  destruct r2 as [t2|]; [|by intros [= _ <-]]. pose proof (gs_tree _ _ _ _ _ G2) as T2.
  destruct (next_table_create st2 root own2 [PML4_INDEX v; PDPT_INDEX v] t2 (PD_INDEX v) T2 P3 R2) as (r3 & st3 & own3 & E3 & G3 & R3).
  pose proof (next_table_no_huge st2 root own2 [PML4_INDEX v; PDPT_INDEX v] t2 (PD_INDEX v) r3 st3 T2 P3 R2 N2 E3) as N3. rewrite bool_decide_true in E3 by done. rewrite E3. cbn [mbind option_bind].
  by destruct r3; intros [= _ <-].
Qed.

Lemma paging_map_no_huge st root own v phys flags ret st' :
  tree st root own -> user_addr v -> no_huge st root -> paging_map st root v phys flags = Some (ret, st') -> no_huge st' root.
Proof using PAL.
  intros T Hv HN. destruct (get_or_create_ok st root own v T Hv) as (r & st1 & own1 & E1 & G1 & R1). unfold paging_map.
  pose proof (get_or_create_no_huge _ _ _ _ _ _ T Hv HN E1) as N1. rewrite E1. cbn [mbind option_bind].
  pose proof (gs_tree _ _ _ _ _ G1) as T1. destruct r as [[t i]|]; [|by intros [= _ <-]]. destruct R1 as [-> Hw].
  destruct (load st1 t (PT_INDEX v)) as [e0|] eqn:He0; [|done]. cbn [mbind option_bind].
  set (st2 := if ztrue (Z.land e0 PTE_PRESENT) then _ else _).
  assert (mem st2 = mem st1 /\ frames_of st2 = frames_of st1) as [Em Ef] by (unfold st2; by destruct (ztrue _)). clearbody st2.
  unfold store. rewrite Em. destruct (mem st1 !! t) as [l|] eqn:El; [|done]. cbn [mbind option_bind].
  destruct (zset l _ _) as [l'|]; [|done]. cbn [mbind option_bind]. intros [= _ <-].
  pose proof (proj2 (get_pte_ok st1 root own1 v T1 Hv) t Hw) as Ho.
  assert (forall q t' i, user_path (q ++ [i]) -> walk st1 false root q = Some t' -> t' ≠ t) as Hnt.
  { intros q t' i Hq Hw' ->. destruct (user_path_snoc _ _ Hq) as (Hq' & Hl & _).
    pose proof (walk_owned st1 root own1 q t T1 Hq' Hw') as Ho'. assert (q = path v) as -> by congruence. cbn in Hl. lia. }
  apply (no_huge_same st1).
  - intros q Hq. apply walk_agree; [by cbn; rewrite Ef|]. intros n t' Hlt Hw' i. unfold load. cbn. rewrite lookup_insert_ne; [done|].
    intros <-. assert (user_path (take n q ++ [default 0 (q !! n)])) as Hq2.
    { destruct (lookup_lt_is_Some_2 q n Hlt) as [x Hx]. rewrite Hx. cbn. rewrite <- (take_S_r _ _ _ Hx). destruct Hq as (L & F & Hh).
      split; [rewrite length_take; lia|]. split; [by apply Forall_take|]. intros j Hj. apply Hh. by destruct q. }
    by apply (Hnt _ _ _ Hq2 Hw').
  - intros q t' i Hq Hw'. unfold load. cbn. rewrite lookup_insert_ne; [done|]. intros <-. by apply (Hnt _ _ _ Hq Hw').
  - done.
Qed.


(** ** One page *)

(** What [load_page] and [stack_page] do with the words [l] the page ends up with. *)
Definition place st (root flags addr : Z) (l : list Z) : option (mmu S + mmu S) :=
  '(page, st) ← get_free_page st;
  if page =? 0 then Some (inr st) else
  let st' := with_mem st (<[page := l]> (mem st)) in
  '(_, st) ← paging_map st' root addr (u64 (page - boot_hhdm (frames_of st))) flags;
  Some (inl st).

(** Page [q] translates to a page of its own with the words [l]. *)
Definition placed st (root flags q : Z) (l : list Z) : Prop :=
  exists f, translation st root (q * 4096) = Some (leaf_entry (f * 4096) flags) /\
    pa_managed (frames_of st) f /\ mem st !! hhdm_page (frames_of st) f = Some l.

(** Pages were taken and not given back, as tables, as pages of the run, or lost. *)
Definition spoiled R R' (p n : Z) : Prop :=
  forall t, R' !! t = R !! t \/ R !! t = None /\ match R' !! t with Some (Data q) => p <= q < p + n | _ => True end.

Lemma spoiled_refl R p n : spoiled R R p n.
Proof using. intros t. by left. Qed.

Lemma spoiled_weaken R R' p n p' n' : p' <= p -> p + n <= p' + n' -> spoiled R R' p n -> spoiled R R' p' n'.
Proof using. intros H1 H2 H t. destruct (H t) as [?|[Hn E]]; [by left|right]. split; [done|]. destruct (R' !! t) as [[]|]; try done. lia. Qed.

Lemma spoiled_trans R R1 R2 p n : spoiled R R1 p n -> spoiled R1 R2 p n -> spoiled R R2 p n.
Proof using.
  intros A B t. destruct (B t) as [E|[Hn E]].
  - rewrite E. apply A.
  - destruct (A t) as [E1|[Hn1 _]]; [rewrite E1 in Hn|]; right; by split.
Qed.

Lemma data_added_spoiled R R' p n : data_added R R' p n -> spoiled R R' p n.
Proof using. intros H t. destruct (H t) as [?|[Hn [[q Hq]|(q & Hq & E)]]]; [by left|right..]; split; try done; [by rewrite Hq|by rewrite E]. Qed.

Lemma tables_added_struct_spoiled R R1 t p n : tables_added (<[t := Struct]> R) R1 -> R !! t = None -> spoiled R R1 p n.
Proof using.
  intros TA Hn t'. specialize (TA t'). destruct (decide (t' = t)) as [->|Hne].
  - rewrite lookup_insert_eq in TA. right. split; [done|]. destruct TA as [->|[? _]]; done.
  - rewrite lookup_insert_ne in TA by done. destruct TA as [?|[? [q ->]]]; [by left|right; by split].
Qed.

Lemma write_no_huge st root R t l :
  core_inv st root R -> own_of R !! t = None -> no_huge st root -> no_huge (with_mem st (<[t := l]> (mem st))) root.
Proof using PAL.
  intros C Hn HN. apply (no_huge_same st); [|..|done].
  - intros q Hq. by apply (write_walk st root (own_of R) _ _ _ (ci_tree _ _ _ C)).
  - intros q t' i Hq Hw. apply write_load. intros ->. destruct (user_path_snoc _ _ Hq) as (Hq' & _).
    pose proof (walk_owned st root (own_of R) q t (ci_tree _ _ _ C) Hq' Hw). congruence.
Qed.

Lemma get_page_no_huge st root R page st' :
  core_inv st root R -> get_free_page st = Some (page, st') -> no_huge st root -> no_huge st' root.
Proof using PAL.
  intros C E HN. pose proof (tr_alloc _ _ _ (ci_tree _ _ _ C)) as Hok. unfold get_free_page in E.
  destruct (pa_get_ok (frames_of st) Hok) as [E1|(f & s' & E1 & Hok' & HS & _)]; rewrite E1 in E; injection E as <- <-;
    (apply (no_huge_same st); [intros q _; by apply frames_walk|done|done]).
Qed.

Lemma place_ok st root R flags p l :
  core_inv st root R -> no_huge st root -> 0 <= p < space_pages -> flag_bits flags -> table_words l ->
  translation st root (p * 4096) = None ->
  exists r R', place st root flags (p * 4096) l = Some r /\
    match r with
    | inr st' => st' = st /\ R' = R /\ exhausted st
    | inl st' => core_inv st' root R' /\ no_huge st' root /\ vstep st R st' R' /\
        (data_kept st R st' /\ data_added R R' p 1 /\ placed st' root flags p l /\ same_outside st root st' p 1 \/
         exhausted st' /\ spoiled R R' p 1)
    end.
Proof using PAL.
  intros C HN Hp Hg Wl Hnone. unfold place.
  destruct (get_page_ok st root R C) as [[-> Hx]|(f & st1 & E1 & Hn0 & Hm & Hnr & C1 & Em & TR1 & V1)]; [|pose proof (get_page_no_huge _ _ _ _ _ C E1 HN) as N1; rewrite E1]; cbn [mbind option_bind].
  { exists (inr st), R. by split. }
  rewrite (proj2 (Z.eqb_neq _ 0) Hn0). pose proof (vs_same _ _ _ _ V1) as HS1. cbn zeta.
  pose proof (tr_alloc _ _ _ (ci_tree _ _ _ C)) as Hok. rewrite (page_phys st st1 f Hok Hm HS1). set (t := hhdm_page (frames_of st) f) in *.
  destruct (core_write st1 root (<[t := Struct]> R) t Struct l C1 (lookup_insert_eq _ _ _) eq_refl Wl) as [C2 V2].
  assert (own_of (<[t := Struct]> R) !! t = None) as Hown by (unfold own_of; by rewrite lookup_omap, lookup_insert_eq).
  pose proof (write_no_huge st1 root _ t l C1 Hown N1) as N2. set (st2 := with_mem st1 (<[t := l]> (mem st1))) in *.
  assert (forall v, user_addr v -> translation st2 root v = translation st root v) as TR2.
  { intros v Hv. unfold st2. rewrite (write_translation st1 root (own_of (<[t := Struct]> R))); [apply TR1|apply C1|done|done]. }
  assert (hhdm_page (frames_of st2) f = t) as Et2 by (by apply (hhdm_page_same (frames_of st) (frames_of st1))).
  destruct (page_user p Hp) as [Hu Ev].
  destruct (map_page_ok st2 root (<[t := Struct]> R) p f flags C2 Hp) as (ret & st3 & R3 & E3 & C3 & V3 & K3 & D);
    [by apply (sm_managed _ _ HS1)|by rewrite Et2, lookup_insert_eq|by rewrite TR2|done|].
  pose proof (paging_map_no_huge _ _ _ _ _ _ _ _ (ci_tree _ _ _ C2) Hu N2 E3) as N3. rewrite E3. cbn [mbind option_bind]. rewrite Et2 in D.
  pose proof (vstep_trans _ _ _ _ _ _ V1 (vstep_trans _ _ _ _ _ _ V2 V3)) as V13. pose proof (vs_same _ _ _ _ V3) as HS3.
  exists (inl st3), R3. split; [done|]. split; [done|]. split; [done|]. split; [done|].
  destruct D as [(_ & TA & TR3)|(_ & TA & [Hx|Hx] & _)].
  - left. split; [|split; [by eapply tables_added_data|split]].
    + intros t' r Hr Hnt. assert (t' ≠ t) as Hne by (intros ->; congruence).
      rewrite (K3 t' r); [|by rewrite lookup_insert_ne|done]. unfold st2. cbn [mem with_mem]. by rewrite lookup_insert_ne, Em by done.
    + exists f. rewrite TR3 by done. unfold remap. rewrite decide_True by done. split; [done|].
      split; [by apply (sm_managed _ _ HS3), (sm_managed _ _ HS1)|].
      rewrite (hhdm_page_same _ _ f HS3), Et2, (K3 t Struct (lookup_insert_eq _ _ _) eq_refl). unfold st2. cbn [mem with_mem]. by rewrite lookup_insert_eq.
    + intros v Hv Hout. rewrite TR3 by done. unfold remap. rewrite Ev, decide_False by lia. by apply TR2.
  - right. split; [done|]. by apply (tables_added_struct_spoiled R R3 t).
  - by destruct (no_huge_path _ _ _ N3 Hu).
Qed.

(** ** Runs of pages *)

Record run_ok st R st' R' (root flags p n : Z) (l : Z -> list Z) : Prop := {
  rn_kept : data_kept st R st';
  rn_added : data_added R R' p n;
  rn_placed : forall q, p <= q < p + n -> placed st' root flags q (l q);
  rn_outside : same_outside st root st' p n
}.

Lemma exhausted_place st root flags addr l : exhausted st -> place st root flags addr l = Some (inr st).
Proof using. unfold exhausted, place, get_free_page. intros ->. cbn. by destruct st. Qed.

Lemma placed_later st root R flags q l st' R' :
  core_inv st root R -> 0 <= q < space_pages -> flag_bits flags -> vstep st R st' R' -> data_kept st R st' ->
  translation st' root (q * 4096) = translation st root (q * 4096) -> placed st root flags q l -> placed st' root flags q l.
Proof using PAL.
  intros C Hq Hg V K ET (f & E & Hm & Hl). exists f. rewrite ET. split; [done|]. pose proof (vs_same _ _ _ _ V) as HS.
  split; [by apply (sm_managed _ _ HS)|]. rewrite (hhdm_page_same _ _ f HS), <- Hl. apply (K _ (Data q)); [|done].
  apply (ci_data _ _ _ C). split; [done|]. eexists. split; [exact E|]. apply leaf_target; [apply (ci_tree _ _ _ C)|done|done].
Qed.

Lemma place_loop root flags l (body : Z -> mmu S -> option (mmu S + mmu S)) m : forall o p st R,
  core_inv st root R -> no_huge st root -> 0 <= o -> 0 <= p -> p + Z.of_nat m <= space_pages -> o + Z.of_nat m <= space_pages -> flag_bits flags ->
  (forall q, p <= q < p + Z.of_nat m -> table_words (l q) /\ forall st, body ((o + (q - p)) * 4096) st = place st root flags (q * 4096) (l q)) ->
  (forall q, p <= q < p + Z.of_nat m -> translation st root (q * 4096) = None) ->
  exists r R', page_loop m (o * 4096) ((o + Z.of_nat m) * 4096) body st = Some r /\
    let st' := match r with inl st' => st' | inr st' => st' end in
    core_inv st' root R' /\ no_huge st' root /\ vstep st R st' R' /\
    (run_ok st R st' R' root flags p (Z.of_nat m) l /\ r = inl st' \/ exhausted st' /\ spoiled R R' p (Z.of_nat m)).
Proof using PAL.
  induction m as [|m IH]; intros o p st R C HN Ho Hp Hs Hs' Hg HB Hnone; cbn [page_loop].
  { rewrite (proj2 (Z.ltb_ge _ _)) by lia. exists (inl st), R. split; [done|]. split; [done|]. split; [done|]. split; [apply vstep_refl|].
    left. split; [|done]. split; [done|intros t; by left|intros q Hq; lia|done]. }
  rewrite (proj2 (Z.ltb_lt _ _)) by lia. destruct (HB p ltac:(lia)) as [Wl Eb]. rewrite Z.sub_diag, Z.add_0_r in Eb. rewrite Eb.
  destruct (place_ok st root R flags p (l p) C HN ltac:(lia) Hg Wl (Hnone p ltac:(lia))) as (r1 & R1 & -> & H1). cbn [mbind option_bind].
  destruct r1 as [st1|st1].
  2: { destruct H1 as (-> & -> & Hx). exists (inr st), R. split; [done|]. split; [done|]. split; [done|]. split; [apply vstep_refl|].
       right. split; [done|apply spoiled_refl]. }
  destruct H1 as (C1 & N1 & V1 & D1). replace (Z.of_nat (Datatypes.S m)) with (Z.of_nat m + 1) in * by lia. rewrite (next_page o (Z.of_nat m + 1)) by lia.
  destruct D1 as [(K1 & A1 & P1 & SO1)|[Hx SP]].
  - destruct (IH (o + 1) (p + 1) st1 R1 C1 N1) as (r & R2 & E2 & C2 & N2 & V2 & D2); try lia; try done.
    { intros q Hq. destruct (HB q ltac:(lia)) as [? Eq]. split; [done|]. intros s. rewrite <- Eq. f_equal. lia. }
    { intros q Hq. destruct (page_user q ltac:(lia)) as [Hu Ev]. rewrite SO1 by (try done; lia). apply Hnone. lia. }
    replace (o + (Z.of_nat m + 1)) with (o + 1 + Z.of_nat m) by lia. exists r, R2. split; [exact E2|]. split; [done|]. split; [done|].
    split; [by eapply vstep_trans|]. cbn zeta. destruct D2 as [[[K2 A2 P2 SO2] Er]|[Hx SP]].
    + left. split; [|exact Er]. set (st2 := match r with inl st' => st' | inr st' => st' end) in *. clearbody st2. split.
      * intros t r' Hr Hnt. rewrite (K2 t r'); [by eapply K1| |done]. destruct (A1 t) as [->|[Hn _]]; [done|congruence].
      * eapply data_added_trans; [lia|done|done].
      * intros q Hq. destruct (decide (q = p)) as [->|Hne]; [|apply P2; lia].
        apply (placed_later st1 root R1 flags p (l p) st2 R2); try done; [lia|]. destruct (page_user p ltac:(lia)) as [Hu Ev]. apply SO2; [done|lia].
      * intros v Hv Hout. rewrite SO2 by (try done; lia). apply SO1; [done|lia].
    + right. split; [done|]. eapply spoiled_trans; [eapply spoiled_weaken; [| |by apply data_added_spoiled]; lia|eapply spoiled_weaken; [| |done]; lia].
  - destruct m as [|m].
    + cbn [page_loop]. rewrite (proj2 (Z.ltb_ge _ _)) by lia. exists (inl st1), R1. split; [done|]. split; [done|]. split; [done|]. split; [done|]. by right.
    + cbn [page_loop]. rewrite (proj2 (Z.ltb_lt _ _)) by lia. destruct (HB (p + 1) ltac:(lia)) as [_ Eb1]. replace (o + (p + 1 - p)) with (o + 1) in Eb1 by lia.
      rewrite Eb1, exhausted_place by done. cbn [mbind option_bind]. exists (inr st1), R1. split; [done|]. split; [done|]. split; [done|]. split; [done|].
      right. split; [done|]. eapply spoiled_weaken; [| |done]; lia.
Qed.

End pages.
