(* ===== verification/ExecSegment.v ===== *)
(** * Program loading: segments (kernel/proc/exec.c, load_segment)

    The part of the file that each page of a segment gets, and the whole of [load_segment]. *)
From S2P Require Import Prelude Defs Paging PagingSpace Vmm VmmSpace VmmRegion VmmLife PageBytes Elf Exec ExecPages.

(** ** What a page gets of the file *)

Definition page_content (elf : list Z) (offset filesz offset_in_page page_offset : Z) : list Z :=
  match file_part elf offset filesz offset_in_page page_offset with
  | Some (Some (off, bs)) => default zero_page (write_bytes zero_page off bs)
  | _ => zero_page
  end.

(** Whatever the header says, the loader reads inside the file and writes inside the page. *)
Lemma file_part_ok elf offset filesz oip po :
  bytes elf -> 0 <= offset -> 0 <= filesz -> offset + filesz <= zlen elf -> zlen elf < 2 ^ 63 -> 0 <= oip < 4096 -> 0 <= po < 2 ^ 48 ->
  exists part, file_part elf offset filesz oip po = Some part /\
    forall off bs, part = Some (off, bs) -> bytes bs /\ 0 <= off /\ off + zlen bs <= 4096.
Proof.
  intros HB Ho Hf He Hz Hi Hp. unfold file_part. change PAGE_SIZE with 4096. rewrite (u64_small (oip + filesz)), (u64_small (offset + filesz)), (u64_small (po + 4096)) by lia.
  destruct (Z.ltb_spec po (oip + filesz)); [|by exists None]. set (cs := if po =? 0 then oip else 0).
  assert (0 <= cs < 4096) as Hcs by (unfold cs; destruct (po =? 0); lia).
  set (ce := if oip + filesz <? po + 4096 then _ else 4096). assert (ce <= 4096) as Hce.
  { unfold ce. destruct (Z.ltb_spec (oip + filesz) (po + 4096)); [rewrite u64_small by lia|]; lia. }
  destruct (Z.ltb_spec cs ce); [|by exists None]. set (fo := u64 (_ + _)).
  pose proof (u64_range (u64 (offset + u64 (po - oip)) + (if po =? 0 then 0 else cs))) as Hfo. fold fo in Hfo.
  destruct (Z.ltb_spec fo (offset + filesz)); [|by exists None]. rewrite (u64_small (fo + (ce - cs))) by lia.
  set (n := if offset + filesz <? fo + (ce - cs) then _ else _). assert (0 <= n <= ce - cs /\ fo + n <= offset + filesz) as [Hn Hn'].
  { unfold n. destruct (Z.ltb_spec (offset + filesz) (fo + (ce - cs))); lia. }
  destruct (read_ok elf fo n) as (bs & E & L & _); [lia|lia|lia|]. rewrite E. cbn [mbind option_bind]. eexists. split; [done|].
  intros off b [= <- <-]. split; [by eapply read_bytes|lia].
Qed.

Lemma page_content_words elf offset filesz oip po :
  bytes elf -> 0 <= offset -> 0 <= filesz -> offset + filesz <= zlen elf -> zlen elf < 2 ^ 63 -> 0 <= oip < 4096 -> 0 <= po < 2 ^ 48 ->
  table_words (page_content elf offset filesz oip po).
Proof.
  intros. destruct (file_part_ok elf offset filesz oip po) as (part & E & Hp); try done. unfold page_content. rewrite E.
  destruct part as [[off bs]|]; [|apply zero_page_words]. destruct (Hp off bs eq_refl) as (HB & Hb0 & Hb1).
  destruct (write_bytes_ok zero_page off bs zero_page_words HB Hb0 Hb1) as (l' & -> & W & _). exact W.
Qed.

(** A segment that starts at a page boundary: its bytes are those of the file, then zeros. *)
Lemma page_content_aligned elf offset filesz k j :
  bytes elf -> 0 <= offset -> 0 <= filesz -> offset + filesz <= zlen elf -> zlen elf < 2 ^ 63 -> 0 <= k < 2 ^ 36 -> 0 <= j < 4096 ->
  page_byte (page_content elf offset filesz 0 (k * 4096)) j =
    if decide (k * 4096 + j < filesz) then byte_at elf (offset + (k * 4096 + j)) else 0.
Proof.
  intros HB Ho Hf He Hz Hk Hj. unfold page_content, file_part. change PAGE_SIZE with 4096. rewrite Z.add_0_l, Z.sub_0_r.
  rewrite (u64_small filesz), (u64_small (k * 4096)), (u64_small (offset + k * 4096)), (u64_small (offset + filesz)), (u64_small (k * 4096 + 4096)) by lia.
  destruct (Z.ltb_spec (k * 4096) filesz); [|rewrite decide_False by lia; apply zero_page_byte].
  assert ((if k * 4096 =? 0 then 0 else 0) = 0) as -> by (by destruct (k * 4096 =? 0)).
  assert ((if k * 4096 =? 0 then 0 else 0) = 0) as Ez by (by destruct (k * 4096 =? 0)). rewrite Ez, Z.add_0_r, (u64_small (offset + k * 4096)) by lia. clear Ez.
  set (ce := if filesz <? k * 4096 + 4096 then _ else 4096). assert (ce = Z.min 4096 (filesz - k * 4096)) as ->.
  { unfold ce. destruct (Z.ltb_spec filesz (k * 4096 + 4096)); [rewrite u64_small by lia|]; lia. }
  rewrite (proj2 (Z.ltb_lt 0 _)), (proj2 (Z.ltb_lt (offset + k * 4096) _)) by lia. rewrite Z.sub_0_r, (u64_small (_ + Z.min _ _)) by lia.
  rewrite (proj2 (Z.ltb_ge (offset + filesz) _)) by lia. set (n := Z.min 4096 (filesz - k * 4096)) in *.
  destruct (read_ok elf (offset + k * 4096) n) as (bs & E & L & Hbs); [lia|lia|lia|]. rewrite E. cbn [mbind option_bind].
  pose proof (read_bytes _ _ _ _ HB E) as HBs. destruct (write_bytes_ok zero_page 0 bs zero_page_words HBs) as (l' & El & _); [lia|lia|]. rewrite El. change (default zero_page (Some l')) with l'.
  rewrite (write_bytes_lookup zero_page 0 bs l' j zero_page_words HBs ltac:(lia) ltac:(lia) El Hj), zero_page_byte.
  destruct (decide (k * 4096 + j < filesz)).
  - rewrite decide_True by lia. rewrite Hbs by lia. f_equal. lia.
  - by rewrite decide_False by lia.
Qed.

Lemma segment_pte_flags_ok x : flag_bits (segment_pte_flags x).
Proof. unfold segment_pte_flags. destruct (ztrue (Z.land x PF_W)), (negb (ztrue (Z.land x PF_X))); (split; [by split|done]). Qed.

Lemma segment_overlaps_ref l start fin : segment_overlaps l start fin = is_some (find_intersect l start fin).
Proof. induction l as [|v l IH]; [done|]. cbn. destruct (_ && _); [done|]. by destruct (fin <=? vma_start v). Qed.

Section segment.
Context {S : Type} `{PA : PageAllocator S} {PAL : PageAllocatorLaws S}.
Implicit Types (st : mmu S) (a : address_space) (R : gmap Z role).

(** ** One page of the code is one page of the model *)

Lemma with_mem_twice st m1 m2 : with_mem (with_mem st m1) m2 = with_mem st m2.
Proof using. done. Qed.

Lemma load_page_place st root elf offset filesz oip va flags po :
  bytes elf -> 0 <= offset -> 0 <= filesz -> offset + filesz <= zlen elf -> zlen elf < 2 ^ 63 -> 0 <= oip < 4096 -> 0 <= po < 2 ^ 48 ->
  0 <= va < 2 ^ 48 ->
  load_page st root elf offset filesz oip va flags po = place st root flags (va + po) (page_content elf offset filesz oip po).
Proof using.
  intros HB Ho Hf He Hz Hi Hp Hv. destruct (file_part_ok elf offset filesz oip po) as (part & E & Hpart); try done.
  unfold load_page, place, page_content. rewrite (u64_small (va + po)) by lia. destruct (get_free_page st) as [[page st1]|]; [|done]. cbn [mbind option_bind].
  destruct (page =? 0); [done|]. rewrite E. cbn [mbind option_bind]. destruct part as [[off bs]|]; [|reflexivity].
  destruct (Hpart off bs eq_refl) as (HBs & H0 & H1). destruct (write_bytes_ok zero_page off bs zero_page_words HBs H0 H1) as (l' & El & _).
  unfold write_page. cbn [mem with_mem clear_page]. rewrite lookup_insert_eq. cbn [mbind option_bind]. rewrite El. cbn [mbind option_bind].
  unfold clear_page. rewrite with_mem_twice, insert_insert_eq. reflexivity.
Qed.

Lemma stack_page_place st root addr : stack_page st root addr = place st root STACK_PROT addr zero_page.
Proof using. reflexivity. Qed.

(** ** A run of pages and its VMA *)

Record mapped_run st a R st' a' R' (p n flags prot : Z) (l : Z -> list Z) : Prop := {
  mr_space : space_inv st' a' R';
  mr_huge : no_huge st' (pml4 a);
  mr_step : vstep st R st' R';
  mr_kept : data_kept st R st';
  mr_roles : forall t r, R !! t = Some r -> R' !! t = Some r;
  mr_same : pml4 a' = pml4 a /\ as_ptr a' = as_ptr a /\ ref_count a' = ref_count a;
  mr_vma : exists t, vma_list a' = insert_sorted (vma_list a) (mk_vma t (p * 4096) ((p + n) * 4096) flags prot);
  mr_placed : forall q, p <= q < p + n -> placed st' (pml4 a) prot q (l q);
  mr_outside : same_outside st (pml4 a) st' p n
}.

(** No memory is left, and pages are mapped that no VMA covers, or lost. *)
Record out_of_memory st a R st' R' (p n : Z) : Prop := {
  om_core : core_inv st' (pml4 a) R';
  om_step : vstep st R st' R';
  om_empty : exhausted st';
  om_spoiled : spoiled R R' p n
}.

Definition finish_run st a (p n flags prot : Z) (r : mmu S + mmu S) : option (option (address_space * mmu S) * mmu S) :=
  match r with
  | inr st => Some (None, st)
  | inl st =>
      '(new, st) ← vma_alloc st;
      if vma_ptr new =? 0 then Some (None, st) else
      Some (Some (vma_insert a (mk_vma (vma_ptr new) (p * 4096) ((p + n) * 4096) flags prot), st), st)
  end.

Lemma data_added_roles R R' p n t r : data_added R R' p n -> R !! t = Some r -> R' !! t = Some r.
Proof using. intros A Hr. destruct (A t) as [->|[Hn _]]; [done|congruence]. Qed.

Lemma vma_alloc_exhausted st : exhausted st -> vma_alloc st = Some (mk_vma 0 0 0 0 0, st).
Proof using. unfold exhausted, vma_alloc, get_free_page. intros ->. cbn. by destruct st. Qed.

Lemma run_and_vma st a R body o p n flags prot l :
  space_inv st a R -> no_huge st (pml4 a) -> 0 <= o -> 0 <= p -> 0 < n -> p + n <= space_pages -> o + n <= space_pages -> flag_bits prot ->
  Forall (fun v => vma_end v <= p * 4096 \/ (p + n) * 4096 <= vma_start v) (vma_list a) ->
  (forall q, p <= q < p + n -> table_words (l q) /\ forall st, body ((o + (q - p)) * 4096) st = place st (pml4 a) prot (q * 4096) (l q)) ->
  exists r st2 R', page_loop (Z.to_nat n) (o * 4096) ((o + n) * 4096) body st = Some r /\
    ((exists a', finish_run st a p n flags prot r = Some (Some (a', st2), st2) /\ mapped_run st a R st2 a' R' p n flags prot l) \/
     (finish_run st a p n flags prot r = Some (None, st2) /\ out_of_memory st a R st2 R' p n)).
Proof using PAL.
  intros SI HN Ho Hp Hn Hs Hs' Hg HF HB.
  assert (forall q, p <= q < p + n -> translation st (pml4 a) (q * 4096) = None) as Hnone.
  { intros q Hq. apply (unmapped_outside st a R); [done|lia|]. rewrite Exists_exists. intros (v & Hv & Hx).
    pose proof (proj1 (Forall_forall _ _) HF v Hv) as Hd. simpl in Hd. lia. }
  destruct (place_loop (pml4 a) prot l body (Z.to_nat n) o p st R (sp_core _ _ _ SI) HN) as (r & R1 & E & C1 & N1 & V1 & D); rewrite ?Z2Nat.id in * by lia; try done.
  exists r. set (st1 := match r with inl s => s | inr s => s end) in *. destruct D as [[[K1 A1 P1 SO1] Er]|[Hx SP]].
  - clearbody st1. subst r. unfold finish_run, vma_alloc.
    destruct (get_page_ok st1 (pml4 a) R1 C1) as [[Eg Hx]|(f & st2 & Eg & Hn0 & Hm & Hnr & C2 & Em & TR2 & V2)].
    + exists st1, R1. split; [exact E|]. right. rewrite Eg. cbn. split; [done|]. split; try done. by apply data_added_spoiled.
    + pose proof (get_page_no_huge _ _ _ _ _ C1 Eg N1) as N2. set (t := hhdm_page (frames_of st1) f) in *. exists st2, (<[t := Struct]> R1). split; [exact E|]. left.
      rewrite Eg. cbn. rewrite (proj2 (Z.eqb_neq _ 0) Hn0). eexists. split; [reflexivity|].
      set (new := mk_vma t (p * 4096) ((p + n) * 4096) flags prot).
      assert (vma_wf new) as Wn by (exists p, n; by split_and!). pose proof SI as [C Cov ND HSt Wl Hc].
      pose proof (insert_sorted_perm (vma_list a) new) as HP.
      assert (t ∉ structs a) as Hfr by (intros Hin%HSt; apply (data_added_roles _ _ _ _ _ _ A1) in Hin; congruence).
      assert (structs (vma_insert a new) ≡ₚ t :: structs a) as HPs by (unfold structs; cbn; rewrite HP; cbn; by constructor).
      split; try done; [|by eapply vstep_trans|..|by exists t| |].
      * split; [done| |by rewrite HPs; apply NoDup_cons| |by cbn; apply insert_sorted_wf|].
        -- intros t' q. destruct (decide (t' = t)) as [->|Hne]; [by rewrite lookup_insert_eq|]. rewrite lookup_insert_ne by done. intros Hd. cbn. rewrite HP.
           destruct (A1 t') as [Ea|[_ [[x Hx]|(x & Hx & Ea)]]]; [|congruence|].
           ++ apply Exists_cons_tl. apply (Cov t'). congruence.
           ++ apply Exists_cons_hd. rewrite Ea in Hd. injection Hd as ->. cbn. lia.
        -- intros t'. rewrite HPs, elem_of_cons, <- HSt. destruct (decide (t' = t)) as [->|Hne]; [rewrite lookup_insert_eq; naive_solver|].
           rewrite lookup_insert_ne, (data_added_other R R1 p n t' A1) by done. naive_solver.
        -- cbn. rewrite Hc, u64_add_l. apply u64_eq. unfold zlen. rewrite (Permutation_length HP). simpl. lia.
      * intros t' r Hr Hnt. rewrite Em. by apply (K1 t' r).
      * intros t' r Hr. apply (data_added_roles _ _ _ _ _ _ A1) in Hr. rewrite lookup_insert_ne; [done|]. intros <-. congruence.
      * intros q Hq. apply (placed_later st1 (pml4 a) R1 prot q (l q) st2 (<[t := Struct]> R1)); try done; [lia| |by apply P1].
        intros t' r _ _. by rewrite Em.
      * intros v Hv Hout. rewrite TR2. by apply SO1.
  - exists st1, R1. split; [exact E|]. right. unfold finish_run. subst st1. destruct r as [s|s].
    + rewrite (vma_alloc_exhausted s Hx). cbn. split; [done|]. by split.
    + split; [done|]. by split.
Qed.


(** ** The whole of [load_segment] *)

Definition seg_page (ph : Elf64_Phdr) : Z := p_vaddr ph / 4096.
Definition seg_pages (ph : Elf64_Phdr) : Z := (p_memsz ph + p_vaddr ph mod 4096 + 4095) / 4096.
Definition seg_words (elf : list Z) (ph : Elf64_Phdr) (q : Z) : list Z :=
  page_content elf (p_offset ph) (p_filesz ph) (p_vaddr ph mod 4096) ((q - seg_page ph) * 4096).

(** The checks: the file part is inside the file and not longer than the segment, which lies in user
    space and meets no VMA. *)
Definition segment_valid a (elf : list Z) (ph : Elf64_Phdr) : Prop :=
  p_filesz ph <= p_memsz ph /\ p_offset ph + p_filesz ph <= zlen elf /\ (seg_page ph + seg_pages ph) * 4096 <= USER_SPACE_END /\
  Forall (fun v => vma_end v <= seg_page ph * 4096 \/ (seg_page ph + seg_pages ph) * 4096 <= vma_start v) (vma_list a).

(** A header as the linker makes them: 64-bit fields, and a size that does not wrap around. *)
Record phdr_ok (ph : Elf64_Phdr) : Prop := {
  ph_load : p_type ph = PT_LOAD;
  ph_vaddr : fits 64 (p_vaddr ph);
  ph_offset : 0 <= p_offset ph;
  ph_filesz : 0 <= p_filesz ph;
  ph_memsz : 0 < p_memsz ph <= 2 ^ 64 - 8192
}.

Lemma align_page x : fits 64 x -> Z.land x (lnotw 64 (PAGE_SIZE - 1)) = x / 4096 * 4096.
Proof using. intros Hx. change (PAGE_SIZE - 1) with (2 ^ 12 - 1). rewrite (land_lnotw_ones x 12 64) by (done || lia). divlia. Qed.

Lemma load_segment_ok st a R elf ph :
  space_inv st a R -> no_huge st (pml4 a) -> bytes elf -> zlen elf < 2 ^ 63 -> phdr_ok ph ->
  exists ret a' st' R', load_segment st a elf ph = Some (ret, a', st') /\
    ((ret = 0 /\ segment_valid a elf ph /\
       mapped_run st a R st' a' R' (seg_page ph) (seg_pages ph) (segment_vma_flags (p_flags ph)) (segment_pte_flags (p_flags ph)) (seg_words elf ph)) \/
     (ret = -1 /\ a' = a /\
       ((st' = st /\ R' = R /\ ~ segment_valid a elf ph) \/ (segment_valid a elf ph /\ out_of_memory st a R st' R' (seg_page ph) (seg_pages ph))))).
Proof using PAL.
  intros SI HN HB Hz [Hty Hva Hof Hfs Hms]. unfold load_segment. rewrite Hty. change (PT_LOAD =? PT_LOAD) with true. cbn [negb]. cbv zeta.
  rewrite (align_page (p_vaddr ph) Hva). change (p_vaddr ph / 4096) with (seg_page ph). set (p := seg_page ph).
  assert (p_vaddr ph - p * 4096 = p_vaddr ph mod 4096) as -> by (unfold p, seg_page; divlia). set (oip := p_vaddr ph mod 4096).
  assert (0 <= oip < 4096) as Hoip by (unfold oip; divlia).
  replace (p_memsz ph + oip + PAGE_SIZE - 1) with (p_memsz ph + oip + 4095) by (change PAGE_SIZE with 4096; lia). rewrite (u64_small (p_memsz ph + oip + 4095)) by lia.
  rewrite align_page by (unfold fits; lia). change ((p_memsz ph + oip + 4095) / 4096) with (seg_pages ph). set (n := seg_pages ph).
  assert (0 < n) as Hn by (unfold n, seg_pages; fold oip; divlia). assert (0 <= p) as Hp by (unfold p, seg_page, fits in *; divlia).
  destruct (Z.ltb_spec (p_memsz ph) (p_filesz ph)) as [Hc|Hc1].
  { exists (-1), a, st, R. split; [done|]. right. split; [done|]. split; [done|]. left. split; [done|]. split; [done|]. intros (? & _). lia. }
  destruct ((zlen elf <? p_offset ph) || (zlen elf - p_offset ph <? p_filesz ph)) eqn:Ec.
  { exists (-1), a, st, R. split; [done|]. right. split; [done|]. split; [done|]. left. split; [done|]. split; [done|]. intros (_ & ? & _).
    apply orb_true_iff in Ec as [Ec%Z.ltb_lt|Ec%Z.ltb_lt]; lia. }
  apply orb_false_iff in Ec as [_ Hc2%Z.ltb_ge].
  destruct ((USER_SPACE_END <=? p * 4096) || (USER_SPACE_END - p * 4096 <? n * 4096)) eqn:Ec.
  { exists (-1), a, st, R. split; [done|]. right. split; [done|]. split; [done|]. left. split; [done|]. split; [done|]. intros (_ & _ & ? & _). fold p n in H.
    apply orb_true_iff in Ec as [Ec%Z.leb_le|Ec%Z.ltb_lt]; lia. }
  apply orb_false_iff in Ec as [_ Hc3%Z.ltb_ge]. unfold USER_SPACE_END in Hc3.
  assert (p + n <= space_pages) as Hs by (unfold space_pages; lia). rewrite (u64_small (p * 4096 + n * 4096)) by (unfold space_pages in *; lia).
  rewrite <- Z.mul_add_distr_r, segment_overlaps_ref. destruct (find_intersect (vma_list a) (p * 4096) ((p + n) * 4096)) as [v|] eqn:Ei; cbn [is_some].
  { exists (-1), a, st, R. split; [done|]. right. split; [done|]. split; [done|]. left. split; [done|]. split; [done|]. intros (_ & _ & _ & F).
    apply (find_intersect_None _ _ _ (sp_vmas _ _ _ SI)) in F. fold p n in F. congruence. }
  apply (find_intersect_None _ _ _ (sp_vmas _ _ _ SI)) in Ei as F.
  assert (segment_valid a elf ph) as HV by (split; [done|]; split; [lia|]; split; [fold p n; unfold USER_SPACE_END; lia|exact F]).
  set (body := fun po s => load_page s (pml4 a) elf (p_offset ph) (p_filesz ph) oip (p * 4096) (segment_pte_flags (p_flags ph)) po).
  destruct (run_and_vma st a R body 0 p n (segment_vma_flags (p_flags ph)) (segment_pte_flags (p_flags ph)) (seg_words elf ph) SI HN) as (r & st2 & R' & E & D);
    try done; try lia; [apply segment_pte_flags_ok| |].
  { intros q Hq. unfold space_pages in Hs. split; [apply page_content_words; try done; fold p; lia|]. intros s. unfold body, seg_words. fold oip p.
    rewrite load_page_place by (done || lia). rewrite Z.add_0_l. f_equal; lia. }
  rewrite Z.add_0_l, Z.mul_0_l in E. change (pages_in 0 (n * 4096)) with (pages_in (0 * 4096) (n * 4096)).
  replace (pages_in (0 * 4096) (n * 4096)) with (Z.to_nat n) by (symmetry; apply (pages_in_exact 0 n); lia). rewrite E. cbn [mbind option_bind].
  destruct D as [(a' & Ef & MR)|[Ef OM]]; destruct r as [s|s]; cbn [finish_run] in Ef; try (injection Ef as <-).
  - destruct (vma_alloc s) as [[new s1]|]; [|done]. cbn [mbind option_bind] in *. destruct (vma_ptr new =? 0); [done|]. injection Ef as <- <-.
    eexists 0, _, _, R'. split; [done|]. left. done.
  - done.
  - destruct (vma_alloc s) as [[new s1]|]; [|done]. cbn [mbind option_bind] in *. destruct (vma_ptr new =? 0); [|done]. injection Ef as <-.
    exists (-1), a, s1, R'. split; [done|]. right. split; [done|]. split; [done|]. by right.
  - exists (-1), a, s, R'. split; [done|]. right. split; [done|]. split; [done|]. by right.
Qed.

End segment.
