(* ===== verification/ExecStack.v ===== *)
(** * Program loading: the user stack (kernel/proc/exec.c)

    Bytes written through the page tables, and the stack that a program starts with. *)
From stdpp Require Import list_numbers.
From S2P Require Import Prelude Defs Paging PagingSpace Vmm VmmSpace VmmRegion VmmLife PageBytes Elf Exec ExecPages ExecSegment.

Lemma masked_frame e : exists g, 0 <= g < 2 ^ 40 /\ Z.land e PTE_ADDR_MASK = g * 4096.
Proof.
  exists (Z.land (Z.shiftr e 12) (Z.ones 40)). rewrite Z.land_ones by lia. split; [apply Z.mod_pos_bound; lia|].
  change 4096 with (2 ^ 12). rewrite <- Z.shiftl_mul_pow2, <- Z.land_ones by lia. apply Z.bits_inj'. intros i Hi.
  rewrite Z.land_spec, addr_mask_testbit, Z.shiftl_spec by done. destruct (decide (12 <= i)) as [H|H].
  - rewrite Z.land_spec, Z.shiftr_spec, Z.testbit_ones_nonneg by lia. replace (i - 12 + 12) with i by lia. f_equal.
    destruct (Z.ltb_spec (i - 12) 40); [rewrite bool_decide_true by lia|rewrite bool_decide_false by lia]; done.
  - rewrite bool_decide_false, andb_false_r by lia. symmetry. apply Z.testbit_neg_r. lia.
Qed.

Section stack.
Context {S : Type} `{PA : PageAllocator S} {PAL : PageAllocatorLaws S}.
Implicit Types (st : mmu S) (a : address_space) (R : gmap Z role).

(** The byte a program finds at [v]. *)
Definition user_byte st (root v : Z) : option Z :=
  e ← translation st root v; l ← mem st !! target st e; Some (page_byte l (v mod 4096)).

Definition user_bytes st (root v : Z) (bs : list Z) : Prop :=
  forall i, 0 <= i < zlen bs -> user_byte st root (v + i) = Some (byte_at bs i).

(** Where the direct map shows the byte at [v]. *)
Lemma user_ptr_ok st a R v e :
  core_inv st (pml4 a) R -> user_addr v -> translation st (pml4 a) v = Some e ->
  user_ptr_to_kernel st a v = Some (target st e + v mod 4096) /\ target st e mod 4096 = 0 /\ 0 < target st e /\
  R !! target st e = Some (Data (vpage v)).
Proof using PAL.
  intros C Hv He. pose proof (ci_tree _ _ _ C) as T. pose proof (tr_alloc _ _ _ T) as Hok.
  assert (R !! target st e = Some (Data (vpage v))) as Hd.
  { apply (ci_data _ _ _ C). split; [unfold user_addr, space_pages, vpage in *; divlia|]. exists e. by rewrite <- translation_page. }
  destruct (ci_held _ _ _ C _ _ Hd) as (f & Ef & Hm & _). destruct (pa_hhdm_ok _ Hok) as (H1 & H2 & H3). destruct (pa_frame_ok _ _ Hok Hm) as [Hf Hf'].
  destruct (masked_frame e) as (g & Hg & Eg). unfold target, phys_to_virt_local in Ef |- *. rewrite Eg in Ef |- *.
  assert (0 <= v mod 4096 < 4096) as Ho by (apply Z.mod_pos_bound; lia).
  unfold user_ptr_to_kernel. rewrite (paging_get_phys_ok st (pml4 a) _ v T Hv), He, Eg. cbn [mbind option_bind].
  rewrite PAGE_SIZE_val. change (4096 - 1) with (2 ^ 12 - 1). rewrite land_ones_mod by lia. change (2 ^ 12) with 4096. rewrite frame_offset by done.
  rewrite (proj2 (Z.eqb_neq _ _)) by (change (u64 (-1)) with (2 ^ 64 - 1); lia).
  unfold hhdm_page in *. set (h := boot_hhdm (frames_of st)) in *. rewrite Ef.
  assert ((f * 4096 + h) mod 4096 = 0) as Ez by (rewrite Z.add_comm, Z_mod_plus_full; done).
  split; [|split; [done|split; [lia|]]].
  - f_equal. replace (g * 4096 + v mod 4096 + h) with (g * 4096 + h + v mod 4096) by lia. rewrite <- u64_add_l, Ef. apply u64_small. divlia.
  - rewrite <- Hd. f_equal. unfold target, phys_to_virt_local. by rewrite Eg.
Qed.

(** Data pages were written, nothing else happened. *)
Record user_write st R st' (root : Z) : Prop := {
  uw_core : core_inv st' root R;
  uw_step : vstep st R st' R;
  uw_huge : no_huge st root -> no_huge st' root;
  uw_frames : frames_of st' = frames_of st;
  uw_mem : forall t, (forall q, R !! t ≠ Some (Data q)) -> mem st' !! t = mem st !! t;
  uw_translation : forall v, user_addr v -> translation st' root v = translation st root v
}.

Lemma user_write_refl st R root : core_inv st root R -> user_write st R st root.
Proof using. intros C. by split. Qed.

Lemma user_write_trans st R st1 st2 root : user_write st R st1 root -> user_write st1 R st2 root -> user_write st R st2 root.
Proof using PAL.
  intros [A1 A2 A3 A4 A5 A6] [B1 B2 B3 B4 B5 B6]. split; [done|by eapply vstep_trans|auto|congruence| |].
  - intros t Ht. rewrite B5 by done. by apply A5.
  - intros v Hv. rewrite B6 by done. by apply A6.
Qed.

(** One chunk, inside one page. *)
Lemma write_chunk st a R v e bs :
  core_inv st (pml4 a) R -> user_addr v -> translation st (pml4 a) v = Some e -> bytes bs -> v mod 4096 + zlen bs <= 4096 ->
  exists st', write_page st (target st e) (v mod 4096) bs = Some st' /\ user_write st R st' (pml4 a) /\
    forall u, user_addr u -> user_byte st' (pml4 a) u = if decide (v <= u < v + zlen bs) then Some (byte_at bs (u - v)) else user_byte st (pml4 a) u.
Proof using PAL.
  intros C Hv He HB Hlen. destruct (user_ptr_ok st a R v e C Hv He) as (_ & _ & _ & Hd). pose proof (zlen_nonneg bs) as Hz.
  destruct (ci_held _ _ _ C _ _ Hd) as (f & Ef & Hm & _). destruct (ci_mem _ _ _ C f Hm) as (l & Hl & Wl). rewrite <- Ef in Hl.
  set (t := target st e) in *. assert (0 <= v mod 4096 < 4096) as Ho by (apply Z.mod_pos_bound; lia).
  destruct (write_bytes_ok l (v mod 4096) bs Wl HB ltac:(lia) Hlen) as (l' & El & Wl' & _). unfold write_page. rewrite Hl. cbn [mbind option_bind]. rewrite El. cbn [mbind option_bind].
  eexists. split; [done|]. destruct (core_write st (pml4 a) R t (Data (vpage v)) l' C Hd eq_refl Wl') as [C' V'].
  assert (own_of R !! t = None) as Hown by (unfold own_of; by rewrite lookup_omap, Hd).
  assert (forall u, user_addr u -> translation (with_mem st (<[t := l']> (mem st))) (pml4 a) u = translation st (pml4 a) u) as TR.
  { intros u Hu. apply (write_translation st (pml4 a) (own_of R)); [apply C|done|done]. }
  split; [split; try done|].
  - intros HN. by apply (write_no_huge st (pml4 a) R).
  - intros x Hx. cbn. rewrite lookup_insert_ne; [done|]. intros <-. by apply (Hx (vpage v)).
  - intros u Hu. unfold user_byte. rewrite TR by done. destruct (decide (vpage u = vpage v)) as [Ep|Ep].
    + assert (translation st (pml4 a) u = Some e) as -> by (by rewrite translation_page, Ep, <- translation_page). cbn [mbind option_bind].
      change (target (with_mem st (<[t := l']> (mem st))) e) with t. cbn [mem with_mem]. rewrite lookup_insert_eq. cbn [mbind option_bind].
      fold t. rewrite Hl. cbn [mbind option_bind]. rewrite (write_bytes_lookup l (v mod 4096) bs l' (u mod 4096) Wl HB ltac:(lia) Hlen El) by (apply Z.mod_pos_bound; lia).
      unfold vpage in Ep. pose proof (Z.div_mod u 4096). pose proof (Z.div_mod v 4096). repeat case_decide; try lia; [|done]. do 2 f_equal. lia.
    + assert (~ v <= u < v + zlen bs) as Hout. { intros Hin. apply Ep. unfold vpage. divlia. } rewrite decide_False by done.
      destruct (translation st (pml4 a) u) as [e'|] eqn:E'; [|done]. cbn [mbind option_bind].
      change (target (with_mem st (<[t := l']> (mem st))) e') with (target st e'). cbn [mem with_mem]. rewrite lookup_insert_ne; [done|].
      intros Et. destruct (user_ptr_ok st a R u e' C Hu E') as (_ & _ & _ & Hd'). rewrite <- Et, Hd in Hd'. congruence.
Qed.

Lemma write_user_loop_ok n : forall st a R v bs,
  core_inv st (pml4 a) R -> bytes bs -> (length bs <= n)%nat -> 0 <= v -> v + zlen bs <= 2 ^ 47 ->
  (forall u, v <= u < v + zlen bs -> translation st (pml4 a) u ≠ None) ->
  exists st', write_user_loop n st a v bs = Some (0, st') /\ user_write st R st' (pml4 a) /\
    forall u, user_addr u -> user_byte st' (pml4 a) u = if decide (v <= u < v + zlen bs) then Some (byte_at bs (u - v)) else user_byte st (pml4 a) u.
Proof using PAL.
  induction n as [|n IH]; intros st a R v bs C HB Hlen Hv Hend Hmap.
  { destruct bs; [|cbn in Hlen; lia]. exists st. split; [done|]. split; [by apply user_write_refl|]. intros u _. rewrite decide_False; [done|].
    change (zlen (@nil Z)) with 0. lia. }
  destruct bs as [|b bs0]; [exists st; split; [done|]; split; [by apply user_write_refl|]; intros u _; rewrite decide_False; [done|]; change (zlen (@nil Z)) with 0; lia|].
  cbn [write_user_loop]. set (bs := b :: bs0) in *. assert (0 < zlen bs) as Hpos by (unfold bs; rewrite zlen_cons; pose proof (zlen_nonneg bs0); lia).
  rewrite PAGE_SIZE_val. change (4096 - 1) with (2 ^ 12 - 1). rewrite land_ones_mod by lia. change (2 ^ 12) with 4096.
  assert (0 <= v mod 4096 < 4096) as Ho by (apply Z.mod_pos_bound; lia).
  set (c := if zlen bs <? 4096 - v mod 4096 then zlen bs else 4096 - v mod 4096). assert (c = Z.min (zlen bs) (4096 - v mod 4096)) as Ec.
  { unfold c. destruct (Z.ltb_spec (zlen bs) (4096 - v mod 4096)); lia. } clearbody c.
  destruct (translation st (pml4 a) v) as [e|] eqn:He; [|by destruct (Hmap v ltac:(lia))].
  assert (user_addr v) as Hu by (unfold user_addr; lia). destruct (user_ptr_ok st a R v e C Hu He) as (-> & Ha & Hp0 & _). cbn [mbind option_bind].
  rewrite (proj2 (Z.eqb_neq _ 0)) by lia. assert ((target st e + v mod 4096) mod 4096 = v mod 4096) as -> by divlia.
  replace (target st e + v mod 4096 - v mod 4096) with (target st e) by lia.
  assert (zlen (take (Z.to_nat c) bs) = c) as Lc by (unfold zlen in *; rewrite length_take; lia).
  destruct (write_chunk st a R v e (take (Z.to_nat c) bs) C Hu He) as (st1 & -> & U1 & B1); [by apply Forall_take|lia|]. cbn [mbind option_bind].
  rewrite (u64_small (v + c)) by lia. assert (zlen (drop (Z.to_nat c) bs) = zlen bs - c) as Ld by (unfold zlen in *; rewrite length_drop; lia).
  destruct (IH st1 a R (v + c) (drop (Z.to_nat c) bs)) as (st2 & E2 & U2 & B2); try lia.
  { apply U1. }
  { by apply Forall_drop. }
  { unfold zlen in *. lia. }
  { intros u Hx. rewrite (uw_translation _ _ _ _ U1) by (unfold user_addr; lia). apply Hmap. lia. }
  exists st2. split; [exact E2|]. split; [by eapply user_write_trans|]. intros u Hux. rewrite B2, B1 by done. rewrite Lc, Ld.
  destruct (decide (v <= u < v + c)) as [Hin|Hout].
  - rewrite decide_False by lia. rewrite !decide_True by lia. unfold byte_at. rewrite lookup_take_lt by lia. done.
  - destruct (decide (v + c <= u < v + zlen bs)) as [Hin2|Hout2].
    + rewrite !decide_True by lia. unfold byte_at. rewrite lookup_drop. do 3 f_equal. lia.
    + rewrite !decide_False by lia. done.
Qed.


Lemma write_user_ok st a R v bs :
  core_inv st (pml4 a) R -> bytes bs -> 0 <= v -> v + zlen bs <= 2 ^ 47 ->
  (forall u, v <= u < v + zlen bs -> translation st (pml4 a) u ≠ None) ->
  exists st', write_user_bytes st a v bs = Some (0, st') /\ user_write st R st' (pml4 a) /\ user_bytes st' (pml4 a) v bs /\
    forall u, user_addr u -> ~ v <= u < v + zlen bs -> user_byte st' (pml4 a) u = user_byte st (pml4 a) u.
Proof using PAL.
  intros C HB Hv He Hm. destruct (write_user_loop_ok (length bs) st a R v bs C HB ltac:(lia) Hv He Hm) as (st' & E & U & B).
  exists st'. split; [exact E|]. split; [done|]. split.
  - intros i Hi. rewrite B by (unfold user_addr; lia). rewrite decide_True by lia. do 2 f_equal. lia.
  - intros u Hu Ho. rewrite B by done. by rewrite decide_False.
Qed.

Lemma user_bytes_kept st st' root v bs :
  (forall u, v <= u < v + zlen bs -> user_byte st' root u = user_byte st root u) -> user_bytes st root v bs -> user_bytes st' root v bs.
Proof using. intros H HB i Hi. rewrite H by lia. by apply HB. Qed.

(** ** Words and strings on the stack *)

(** The words [ws] from [v] upwards. *)
Definition user_words st (root v : Z) (ws : list Z) : Prop :=
  forall i w, ws !! i = Some w -> user_bytes st root (v + 8 * Z.of_nat i) (Z_to_little_endian 8 8 w).

Lemma word_zlen w : zlen (Z_to_little_endian 8 8 w) = 8.
Proof using. unfold zlen. by rewrite length_Z_to_little_endian. Qed.

(** From [lo] up to [hi] the stack is mapped. *)
Definition mapped_between st (root lo hi : Z) : Prop := 0 <= lo /\ hi <= 2 ^ 47 /\ forall u, lo <= u < hi -> translation st root u ≠ None.

Lemma mapped_write st R st' root lo hi : user_write st R st' root -> mapped_between st root lo hi -> mapped_between st' root lo hi.
Proof using.
  intros U (H1 & H2 & H3). split; [done|]. split; [done|]. intros u Hu. rewrite (uw_translation _ _ _ _ U) by (unfold user_addr; lia). by apply H3.
Qed.

Lemma push_all_ok vs : forall st a R lo sp,
  core_inv st (pml4 a) R -> mapped_between st (pml4 a) lo sp -> lo + 8 * zlen vs <= sp ->
  exists st', push_all st a sp vs = Some (Some (sp - 8 * zlen vs), st') /\ user_write st R st' (pml4 a) /\
    user_words st' (pml4 a) (sp - 8 * zlen vs) (reverse vs) /\
    forall u, user_addr u -> ~ sp - 8 * zlen vs <= u < sp -> user_byte st' (pml4 a) u = user_byte st (pml4 a) u.
Proof using PAL.
  induction vs as [|w vs IH]; intros st a R lo sp C M Hlo.
  { exists st. change (zlen (@nil Z)) with 0. rewrite Z.sub_0_r. split; [done|]. split; [by apply user_write_refl|]. split; [|done]. intros i w Hw. done. }
  rewrite zlen_cons in *. pose proof (zlen_nonneg vs) as Hz. pose proof M as (M1 & M2 & M3). cbn [push_all]. unfold push_u64.
  rewrite (u64_small (sp - 8)) by lia.
  destruct (write_user_ok st a R (sp - 8) (Z_to_little_endian 8 8 w) C) as (st1 & -> & U1 & B1 & O1); rewrite ?word_zlen in *;
    [by apply Z_to_little_endian_bound|lia|lia|intros u Hu; apply M3; lia|]. cbn [mbind option_bind]. change (0 <? 0) with false. cbv iota.
  destruct (IH st1 a R lo (sp - 8)) as (st2 & -> & U2 & B2 & O2); [apply U1|by split_and!; [lia|lia|intros u Hu; rewrite (uw_translation _ _ _ _ U1) by (unfold user_addr; lia); apply M3; lia]|lia|].
  replace (sp - 8 - 8 * zlen vs) with (sp - 8 * (zlen vs + 1)) in * by lia. exists st2. split; [done|]. split; [by eapply user_write_trans|]. split.
  - intros i x Hx. rewrite reverse_cons in Hx. apply lookup_app_Some in Hx as [Hx|[Hi Hx]]; [by apply B2|].
    apply list_lookup_singleton_Some in Hx as [Hi0 <-]. rewrite length_reverse in *. assert (i = length vs) as -> by lia.
    replace (sp - 8 * (zlen vs + 1) + 8 * Z.of_nat (length vs)) with (sp - 8) by (unfold zlen; lia).
    apply (user_bytes_kept st1); [|done]. intros u Hu. rewrite word_zlen in Hu. apply O2; [unfold user_addr; lia|lia].
  - intros u Hu Ho. rewrite O2 by (done || lia). apply O1; [done|lia].
Qed.

(** The strings, each below the one before. *)
Fixpoint args_size (argv : list (list Z)) : Z := match argv with [] => 0 | arg :: argv => zlen arg + 1 + args_size argv end.
Fixpoint arg_places (sp : Z) (argv : list (list Z)) : list Z :=
  match argv with [] => [] | arg :: argv => (sp - (zlen arg + 1)) :: arg_places (sp - (zlen arg + 1)) argv end.

Lemma args_size_nonneg argv : 0 <= args_size argv.
Proof using. induction argv as [|arg argv IH]; [done|]. cbn [args_size]. pose proof (zlen_nonneg arg). lia. Qed.

Lemma arg_places_length sp argv : length (arg_places sp argv) = length argv.
Proof using. revert sp. induction argv as [|arg argv IH]; intros sp; [done|]. cbn. by rewrite IH. Qed.

(** Every argument stands at its place as a C string. *)
Definition user_args st (root : Z) (places : list Z) (argv : list (list Z)) : Prop :=
  forall i place arg, places !! i = Some place -> argv !! i = Some arg -> user_bytes st root place (arg ++ [0]).

Lemma arg_places_range sp argv i place arg :
  arg_places sp argv !! i = Some place -> argv !! i = Some arg -> sp - args_size argv <= place /\ place + zlen arg + 1 <= sp.
Proof using.
  revert sp i. induction argv as [|x argv IH]; intros sp [|i] Hp Ha; cbn in *; try done.
  - injection Hp as <-. injection Ha as <-. pose proof (args_size_nonneg argv). lia.
  - destruct (IH _ _ Hp Ha). pose proof (zlen_nonneg x). lia.
Qed.

Lemma write_args_ok n : forall argv st a R lo sp acc,
  core_inv st (pml4 a) R -> mapped_between st (pml4 a) lo sp -> Forall bytes argv -> lo + args_size (take n argv) <= sp ->
  let args := take n argv in
  exists st', write_args n st a sp argv acc = Some (Some (sp - args_size args, acc ++ arg_places sp args), st') /\ user_write st R st' (pml4 a) /\
    user_args st' (pml4 a) (arg_places sp args) args /\
    forall u, user_addr u -> ~ sp - args_size args <= u < sp -> user_byte st' (pml4 a) u = user_byte st (pml4 a) u.
Proof using PAL.
  induction n as [|n IH]; intros argv st a R lo sp acc C M HB Hlo.
  1: rewrite take_0; cbn; exists st; rewrite Z.sub_0_r, app_nil_r; split; [done|]; split; [by apply user_write_refl|]; split; [by intros i p q|done].
  destruct argv as [|arg argv]; [cbn; exists st; rewrite Z.sub_0_r, app_nil_r; split; [done|]; split; [by apply user_write_refl|]; split; [by intros i p q|done]|].
  cbn [take args_size arg_places write_args] in *. set (args := take n argv) in *. apply Forall_cons in HB as [Ha HB].
  pose proof (zlen_nonneg arg) as Hz. pose proof (args_size_nonneg args) as Hs. pose proof M as (M1 & M2 & M3).
  assert (zlen (arg ++ [0]) = zlen arg + 1) as L by (by rewrite zlen_app). rewrite (u64_small (sp - (zlen arg + 1))) by lia.
  destruct (write_user_ok st a R (sp - (zlen arg + 1)) (arg ++ [0]) C) as (st1 & -> & U1 & B1 & O1); rewrite ?L in *;
    [apply Forall_app; split; [done|by apply Forall_singleton]|lia|lia|intros u Hu; apply M3; lia|]. cbn [mbind option_bind]. change (0 <? 0) with false. cbv iota.
  destruct (IH argv st1 a R lo (sp - (zlen arg + 1)) (acc ++ [sp - (zlen arg + 1)])) as (st2 & E2 & U2 & B2 & O2); [apply U1| |done|fold args; lia|].
  { split_and!; [lia|lia|]. intros u Hu. rewrite (uw_translation _ _ _ _ U1) by (unfold user_addr; lia). apply M3. lia. }
  fold args in E2, B2, O2. exists st2. split; [rewrite E2, <- app_assoc; do 4 f_equal; lia|]. split; [by eapply user_write_trans|]. split.
  - intros [|i] place x Hp Hx; [|by apply (B2 i)]. cbn in Hp, Hx. injection Hp as <-. injection Hx as <-. apply (user_bytes_kept st1); [|done].
    intros u Hu. rewrite L in Hu. apply O2; [unfold user_addr; lia|lia].
  - intros u Hu Ho. rewrite O2 by (done || lia). apply O1; [done|lia].
Qed.


(** ** What the program sees of a run of pages *)

Lemma placed_user_byte st root R flags q l j :
  core_inv st root R -> 0 <= q < space_pages -> flag_bits flags -> 0 <= j < 4096 -> placed st root flags q l ->
  user_byte st root (q * 4096 + j) = Some (page_byte l j).
Proof using PAL.
  intros C Hq Hg Hj (f & E & Hm & Hl). unfold user_byte. rewrite translation_page. replace (vpage (q * 4096 + j)) with q by (unfold vpage; divlia).
  rewrite E. cbn [mbind option_bind]. rewrite leaf_target by (done || apply (ci_tree _ _ _ C)). rewrite Hl. cbn [mbind option_bind]. do 2 f_equal. divlia.
Qed.

(** Pages outside a run show what they showed before. *)
Lemma kept_user_byte st root R st' R' p n u :
  core_inv st root R -> vstep st R st' R' -> data_kept st R st' -> same_outside st root st' p n -> user_addr u -> ~ p <= vpage u < p + n ->
  user_byte st' root u = user_byte st root u.
Proof using PAL.
  intros C V K SO Hu Ho. unfold user_byte. rewrite SO by done. destruct (translation st root u) as [e|] eqn:E; [|done]. cbn [mbind option_bind].
  rewrite (target_same st st' e (vs_same _ _ _ _ V)). assert (R !! target st e = Some (Data (vpage u))) as Hd.
  { apply (ci_data _ _ _ C). split; [unfold user_addr, space_pages, vpage in *; divlia|]. exists e. by rewrite <- translation_page. }
  by rewrite (K _ _ Hd eq_refl).
Qed.

(** ** The stack *)

Definition STACK_PAGE : Z := (USER_STACK_TOP - USER_STACK_SIZE) / 4096.
Definition on_stack (u : Z) : Prop := USER_STACK_TOP - USER_STACK_SIZE <= u < USER_STACK_TOP.
Definition stack_args (argv : option (list (list Z))) : list (list Z) := take 32 (default [] argv).

(** The arguments fit: strings, the pointers to them, NULL and the count, and up to 7 bytes of padding. *)
Definition args_fit (args : list (list Z)) : Prop := args_size args + 8 * (zlen args + 2) + 7 <= USER_STACK_SIZE.

(** The image: at [sp] the count, the pointers and NULL, and the strings where the pointers say. *)
Definition stack_image st (root sp : Z) (args : list (list Z)) : Prop :=
  (USER_STACK_TOP - USER_STACK_SIZE <= sp /\ sp + 8 * (zlen args + 2) + args_size args <= USER_STACK_TOP) /\ sp mod 8 = 0 /\
  user_words st root sp (zlen args :: arg_places USER_STACK_TOP args ++ [0]) /\
  user_args st root (arg_places USER_STACK_TOP args) args.

Record stack_ready st a R st' a' R' (sp : Z) (args : list (list Z)) : Prop := {
  sr_space : space_inv st' a' R';
  sr_huge : no_huge st' (pml4 a);
  sr_step : vstep st R st' R';
  sr_roles : forall t r, R !! t = Some r -> R' !! t = Some r;
  sr_same : pml4 a' = pml4 a /\ as_ptr a' = as_ptr a /\ ref_count a' = ref_count a;
  sr_vma : exists t, vma_list a' = insert_sorted (vma_list a) (mk_vma t (USER_STACK_TOP - USER_STACK_SIZE) USER_STACK_TOP STACK_FLAGS STACK_PROT);
  sr_image : stack_image st' (pml4 a) sp args;
  sr_prot : forall u, on_stack u -> exists f, translation st' (pml4 a) u = Some (leaf_entry (f * 4096) STACK_PROT);
  sr_outside : forall u, user_addr u -> ~ on_stack u -> translation st' (pml4 a) u = translation st (pml4 a) u /\ user_byte st' (pml4 a) u = user_byte st (pml4 a) u
}.

Lemma space_write st a R st' : space_inv st a R -> user_write st R st' (pml4 a) -> space_inv st' a R.
Proof using. intros [C Cov ND HSt Wl Hc] U. split; try done. apply U. Qed.

Lemma stack_page_range u : on_stack u <-> STACK_PAGE <= vpage u < STACK_PAGE + 16.
Proof using. unfold on_stack, vpage. change USER_STACK_TOP with ((STACK_PAGE + 16) * 4096). change USER_STACK_SIZE with (16 * 4096). divlia. Qed.

Lemma fill_stack st a R argv :
  core_inv st (pml4 a) R -> mapped_between st (pml4 a) (USER_STACK_TOP - USER_STACK_SIZE) USER_STACK_TOP -> Forall bytes (default [] argv) -> args_fit (stack_args argv) ->
  let args := stack_args argv in
  exists sp st1 st2, write_args 32 st a USER_STACK_TOP (default [] argv) [] = Some (Some (USER_STACK_TOP - args_size args, arg_places USER_STACK_TOP args), st1) /\
    push_all st1 a (Z.land (USER_STACK_TOP - args_size args) (lnotw 64 7)) (0 :: reverse (arg_places USER_STACK_TOP args) ++ [zlen (arg_places USER_STACK_TOP args)]) = Some (Some sp, st2) /\
    user_write st R st2 (pml4 a) /\ stack_image st2 (pml4 a) sp args /\
    forall u, user_addr u -> ~ on_stack u -> user_byte st2 (pml4 a) u = user_byte st (pml4 a) u.
Proof using PAL.
  intros C M HB Hfit args. unfold args_fit in Hfit. fold args in Hfit. pose proof (args_size_nonneg args) as Hs. pose proof (zlen_nonneg args) as Hz.
  assert (USER_STACK_SIZE < USER_STACK_TOP < 2 ^ 47) as HST by (by split).
  destruct (write_args_ok 32 (default [] argv) st a R _ USER_STACK_TOP [] C M HB) as (st1 & E1 & U1 & B1 & O1); [fold args; unfold args, stack_args in *; lia|].
  change (take 32 (default [] argv)) with args in *. set (places := arg_places USER_STACK_TOP args) in *.
  assert (zlen places = zlen args) as Lp by (unfold zlen, places; by rewrite arg_places_length).
  set (top := USER_STACK_TOP - args_size args) in *. assert (fits 64 top) as Ft by (unfold fits, top; lia).
  assert (Z.land top (lnotw 64 7) = top - top mod 8) as Etop by (change 7 with (2 ^ 3 - 1); by rewrite (land_lnotw_ones top 3 64) by (done || lia)).
  rewrite Etop. assert (0 <= top mod 8 < 8) as Hm by (apply Z.mod_pos_bound; lia). set (vs := 0 :: reverse places ++ [zlen places]).
  assert (zlen vs = zlen args + 2) as Lvs by (unfold vs; rewrite zlen_cons, zlen_app; unfold zlen in *; rewrite length_reverse; cbn; lia).
  destruct (push_all_ok vs st1 a R (USER_STACK_TOP - USER_STACK_SIZE) (top - top mod 8)) as (st2 & E2 & U2 & B2 & O2); [apply U1| |lia|].
  { destruct (mapped_write _ _ _ _ _ _ U1 M) as (M1 & M2 & M3). split; [done|]. split; [lia|]. intros u Hu. apply M3. lia. }
  rewrite Lvs in *. set (sp := top - top mod 8 - 8 * (zlen args + 2)) in *. exists sp, st1, st2. split; [exact E1|]. split; [exact E2|].
  split; [by eapply user_write_trans|]. split; [split; [unfold sp, top in *; lia|]; split; [unfold sp; divlia|]; split|].
  - unfold vs in B2. rewrite reverse_cons, reverse_app, reverse_involutive in B2. rewrite Lp in B2. exact B2.
  - intros i place arg Hp Ha. apply (user_bytes_kept st1); [|by apply (B1 i)]. intros u Hu. rewrite zlen_app in Hu. change (zlen [0]) with 1 in Hu.
    destruct (arg_places_range _ _ _ _ _ Hp Ha). apply O2; [unfold user_addr; lia|lia].
  - intros u Hu Ho. unfold on_stack in Ho. rewrite O2 by (done || lia). apply O1; [done|lia].
Qed.

Lemma setup_user_stack_ok st a R argv :
  space_inv st a R -> no_huge st (pml4 a) -> Forall (fun v => vma_end v <= USER_STACK_TOP - USER_STACK_SIZE \/ USER_STACK_TOP <= vma_start v) (vma_list a) ->
  Forall bytes (default [] argv) -> args_fit (stack_args argv) ->
  exists sp a' st' R', setup_user_stack st a argv = Some (sp, a', st') /\
    ((sp ≠ 0 /\ stack_ready st a R st' a' R' sp (stack_args argv)) \/ (sp = 0 /\ a' = a /\ out_of_memory st a R st' R' STACK_PAGE 16)).
Proof using PAL.
  intros SI HN HF HB Hfit. unfold setup_user_stack. cbv zeta.
  change (USER_STACK_TOP - USER_STACK_SIZE) with (STACK_PAGE * 4096) in *. change USER_STACK_TOP with ((STACK_PAGE + 16) * 4096) in HF |- * at 1.
  replace (pages_in (STACK_PAGE * 4096) USER_STACK_TOP) with (Z.to_nat 16) by reflexivity.
  destruct (run_and_vma st a R (fun addr s => stack_page s (pml4 a) addr) STACK_PAGE STACK_PAGE 16 STACK_FLAGS STACK_PROT (fun _ => zero_page) SI HN)
    as (r & st1 & R1 & E & D); try done.
  { intros q Hq. split; [apply zero_page_words|]. intros s. rewrite stack_page_place. do 2 f_equal. lia. }
  change ((STACK_PAGE + 16) * 4096) with USER_STACK_TOP in *. rewrite E. cbn [mbind option_bind]. destruct D as [(a1 & Ef & MR)|[Ef OM]].
  - destruct r as [s|s]; cbn [finish_run] in Ef; [|done]. change ((STACK_PAGE + 16) * 4096) with USER_STACK_TOP in Ef.
    destruct (vma_alloc s) as [[new s1]|]; [|done]. cbn [mbind option_bind] in *. destruct (vma_ptr new =? 0); [done|]. injection Ef as Ea <-. rewrite Ea.
    pose proof MR as [SI1 N1 V1 K1 RO1 (Ep & Eas & Erc) Hvma P1 SO1]. pose proof (sp_core _ _ _ SI1) as C1.
    assert (mapped_between s1 (pml4 a1) (USER_STACK_TOP - USER_STACK_SIZE) USER_STACK_TOP) as M.
    { split; [done|]. split; [done|]. intros u Hu. apply stack_page_range in Hu. destruct (P1 _ Hu) as (f & Hf & _). rewrite Ep, translation_page, Hf. done. }
    destruct (fill_stack s1 a1 R1 argv C1 M HB Hfit) as (sp & st2 & st3 & -> & E3 & U & Him & O). cbn [mbind option_bind]. rewrite E3. cbn [mbind option_bind].
    exists sp, a1, st3, R1. split; [done|]. left. rewrite Ep in Him. split; [intros ->; by destruct Him as [[Hx _] _]|]. split; try done.
    + by apply (space_write s1).
    + rewrite <- Ep. apply U. by rewrite Ep.
    + eapply vstep_trans; [exact V1|apply U].
    + intros u Hu. assert (user_addr u) as Hua by (unfold on_stack, user_addr, USER_STACK_TOP, USER_STACK_SIZE in *; change PAGE_SIZE with 4096 in *; lia).
      rewrite <- Ep, (uw_translation _ _ _ _ U) by done. apply stack_page_range in Hu. destruct (P1 _ Hu) as (f & Hf & _). exists f. by rewrite Ep, translation_page, Hf.
    + intros u Hu Ho. rewrite <- Ep. rewrite (uw_translation _ _ _ _ U), O by done. rewrite Ep. rewrite stack_page_range in Ho. split; [by apply SO1|].
      by apply (kept_user_byte st (pml4 a) R s1 R1 STACK_PAGE 16 u (sp_core _ _ _ SI) V1 K1 SO1).
  - exists 0, a, st1, R1. split; [|right; done]. destruct r as [s|s]; cbn [finish_run] in Ef; [|by injection Ef as <-].
    destruct (vma_alloc s) as [[new s1]|]; [|done]. cbn [mbind option_bind] in *. destruct (vma_ptr new =? 0); [|done]. by injection Ef as <-.
Qed.

End stack.
