(* ===== verification/ExecSpec.v ===== *)
(** * Program loading: the theorems (kernel/proc/exec.c)

    A segment is loaded as its header says, a program starts with its arguments on its stack, and
    [exec_replace] either replaces the program of the process or leaves it as it was. *)
From stdpp Require Import list_numbers.
From S2P Require Import Prelude Defs Buddy Pmm Paging PagingSpace PagingPmm IpcTag Vmm VmmSpace VmmRegion VmmLife VmmClone VmmSpec PageBytes Elf Exec ExecPages ExecSegment ExecStack.

Section program.
Context {S : Type} `{PA : PageAllocator S} {PAL : PageAllocatorLaws S}.
Implicit Types (st : mmu S) (a : address_space) (R : gmap Z role).

(** ** The segments of a program *)

Fixpoint headers (n : nat) (elf : list Z) (off : Z) : option (list Elf64_Phdr) :=
  match n with
  | O => Some []
  | Datatypes.S n => ph ← phdr_at elf off; l ← headers n elf (off + SIZEOF_PHDR); Some (ph :: l)
  end.

Definition loads (phs : list Elf64_Phdr) : list Elf64_Phdr := base.filter (fun ph => p_type ph = PT_LOAD) phs.

Definition in_segment (ph : Elf64_Phdr) (u : Z) : Prop := seg_page ph <= vpage u < seg_page ph + seg_pages ph.

(** The byte that a segment promises at an address, as the ELF format defines it: the file's byte at
    the same distance from [p_offset] as the address has from [p_vaddr], and zero past the file's
    part. *)
Definition segment_byte (elf : list Z) (ph : Elf64_Phdr) (u : Z) : Z :=
  if decide (u - p_vaddr ph < p_filesz ph) then byte_at elf (p_offset ph + (u - p_vaddr ph)) else 0.

(** What the program sees of a segment: the protection and the bytes of the header. *)
Definition segment_loaded st (root : Z) (elf : list Z) (ph : Elf64_Phdr) : Prop :=
  forall u, user_addr u -> in_segment ph u ->
    (exists f, translation st root u = Some (leaf_entry (f * 4096) (segment_pte_flags (p_flags ph)))) /\
    user_byte st root u = Some (segment_byte elf ph u).

(** A segment the loader is meant for: a header whose size does not wrap around, at a page boundary. *)
Definition loadable (ph : Elf64_Phdr) : Prop := phdr_ok ph /\ p_vaddr ph mod 4096 = 0.

(** What the loader copies into the pages of such a segment is what the header promises. *)
Lemma seg_words_byte a elf ph u :
  segment_valid a elf ph -> bytes elf -> zlen elf < 2 ^ 63 -> loadable ph -> user_addr u -> in_segment ph u ->
  page_byte (seg_words elf ph (vpage u)) (u mod 4096) = segment_byte elf ph u.
Proof using.
  intros (HV1 & HV2 & HV3 & _) HB Hz ([_ Hva Hof Hfs Hms] & Hal) Hu Hin. unfold seg_words, segment_byte. rewrite Hal.
  assert (seg_page ph * 4096 = p_vaddr ph) as Ep by (unfold seg_page; divlia). unfold in_segment, USER_SPACE_END, user_addr in *.
  rewrite page_content_aligned; try done; [| |apply Z.mod_pos_bound; lia].
  - assert (vpage u * 4096 + u mod 4096 = u) as Eu by (unfold vpage; pose proof (Z.div_mod u 4096); lia).
    by replace ((vpage u - seg_page ph) * 4096 + u mod 4096) with (u - p_vaddr ph) by lia.
  - unfold vpage, fits in *. divlia.
Qed.

Definition spans (ph : Elf64_Phdr) (v : vm_area) : Prop := vma_start v = seg_page ph * 4096 /\ vma_end v = (seg_page ph + seg_pages ph) * 4096.
Definition apart (ph : Elf64_Phdr) (v : vm_area) : Prop := vma_end v <= seg_page ph * 4096 \/ (seg_page ph + seg_pages ph) * 4096 <= vma_start v.

Record program_loaded st a R st' a' R' (elf : list Z) (phs : list Elf64_Phdr) : Prop := {
  pl_space : space_inv st' a' R';
  pl_huge : no_huge st' (pml4 a);
  pl_step : vstep st R st' R';
  pl_roles : forall t r, R !! t = Some r -> R' !! t = Some r;
  pl_same : pml4 a' = pml4 a /\ as_ptr a' = as_ptr a /\ ref_count a' = ref_count a;
  pl_vmas : forall v, v ∈ vma_list a' -> v ∈ vma_list a \/ exists ph, ph ∈ phs /\ spans ph v;
  pl_apart : forall ph v, ph ∈ phs -> v ∈ vma_list a -> apart ph v;
  pl_segments : Forall (segment_loaded st' (pml4 a) elf) phs;
  pl_outside : forall u, user_addr u -> (forall ph, ph ∈ phs -> ~ in_segment ph u) ->
    translation st' (pml4 a) u = translation st (pml4 a) u /\ user_byte st' (pml4 a) u = user_byte st (pml4 a) u
}.

Lemma program_nil st a R elf : space_inv st a R -> no_huge st (pml4 a) -> program_loaded st a R st a R elf [].
Proof using. intros SI HN. split; try done; [by left|by intros ph v ?%not_elem_of_nil]. Qed.

(** A segment is a program of one segment. *)
Lemma segment_program st a R st' a' R' elf ph :
  space_inv st a R -> segment_valid a elf ph -> bytes elf -> zlen elf < 2 ^ 63 -> loadable ph ->
  mapped_run st a R st' a' R' (seg_page ph) (seg_pages ph) (segment_vma_flags (p_flags ph)) (segment_pte_flags (p_flags ph)) (seg_words elf ph) ->
  program_loaded st a R st' a' R' elf [ph].
Proof using PAL.
  intros SI HV HB Hz HP [SI1 N1 V1 K1 RO1 SA (t & EL) P1 SO1]. pose proof HV as (_ & _ & HE & HF). split; try done.
  - intros v Hv. rewrite EL in Hv. apply insert_sorted_elem in Hv as [->|Hv]; [right; exists ph; split; [by left|by split]|by left].
  - intros ph' v ->%list_elem_of_singleton Hv. exact (proj1 (Forall_forall _ _) HF v Hv).
  - apply Forall_singleton. intros u Hu Hin. destruct SA as (Ep & _). split.
    + destruct (P1 _ Hin) as (f & Hf & _). exists f. by rewrite translation_page.
    + rewrite <- (seg_words_byte a elf ph u HV HB Hz HP Hu Hin).
      pose proof (Z.div_mod u 4096) as Hdm. replace u with (vpage u * 4096 + u mod 4096) at 1 by (unfold vpage; lia).
      apply (placed_user_byte st' (pml4 a) R' (segment_pte_flags (p_flags ph))); [rewrite <- Ep; apply SI1|unfold user_addr, space_pages, vpage in *; divlia|apply segment_pte_flags_ok|apply Z.mod_pos_bound; lia|by apply P1].
  - intros u Hu Ho. specialize (Ho ph ltac:(by left)). split; [by apply SO1|].
    by apply (kept_user_byte st (pml4 a) R st' R' (seg_page ph) (seg_pages ph) u (sp_core _ _ _ SI) V1 K1 SO1).
Qed.

(** One program after another. *)
Lemma program_app st a R st1 a1 R1 st2 a2 R2 elf ph phs :
  program_loaded st a R st1 a1 R1 elf [ph] -> (exists v, v ∈ vma_list a1 /\ spans ph v) -> (forall v, v ∈ vma_list a -> v ∈ vma_list a1) ->
  program_loaded st1 a1 R1 st2 a2 R2 elf phs -> program_loaded st a R st2 a2 R2 elf (ph :: phs).
Proof using PAL.
  intros [A1 A2 A3 A4 (A5 & A6 & A7) A8 A9 A10 A11] (v0 & Hv0 & Es & Ee) Hsub [B1 B2 B3 B4 (B5 & B6 & B7) B8 B9 B10 B11].
  rewrite A5 in *. rewrite Forall_singleton in A10.
  assert (forall u, in_segment ph u -> forall ph', ph' ∈ phs -> ~ in_segment ph' u) as Hdis.
  { intros u Hu ph' Hph' Hu'. destruct (B9 ph' v0 Hph' Hv0); unfold in_segment in *; lia. }
  split; try done; [by eapply vstep_trans|auto|split_and!; congruence|..].
  - intros v Hv. destruct (B8 v Hv) as [Hv'|(ph' & Hp' & Hs)].
    + destruct (A8 v Hv') as [?|(ph' & Hp'%list_elem_of_singleton & Hs)]; [by left|subst ph'; right; exists ph; split; [by left|done]].
    + right. exists ph'. split; [by right|done].
  - intros ph' v [->|Hp']%elem_of_cons Hv; [apply A9; [by left|done]|]. apply B9; auto.
  - constructor; [|done]. intros u Hu Hin. destruct (B11 u Hu (Hdis u Hin)) as [-> ->]. by apply A10.
  - intros u Hu Ho. destruct (B11 u Hu) as [-> ->]; [intros ph' Hp'; apply Ho; by right|]. apply A11; [done|]. intros ph' ->%list_elem_of_singleton. apply Ho. by left.
Qed.


(** Loading stopped: at a header that is not accepted, or for lack of memory. *)
Definition load_stopped st R st' a' : Prop :=
  (exists R', space_inv st' a' R' /\ vstep st R st' R') \/
  (exists st1 R1 R' p n, space_inv st1 a' R1 /\ vstep st R st1 R1 /\ out_of_memory st1 a' R1 st' R' p n).

Lemma load_stopped_later st R st1 R1 st' a' : vstep st R st1 R1 -> load_stopped st1 R1 st' a' -> load_stopped st R st' a'.
Proof using PAL.
  intros V [(R' & SI & V')|(st2 & R2 & R' & p & n & SI & V' & OM)]; [left|right].
  - exists R'. split; [done|by eapply vstep_trans].
  - exists st2, R2, R', p, n. split; [done|]. split; [by eapply vstep_trans|done].
Qed.

Lemma load_segments_ok n : forall st a R elf off phs,
  space_inv st a R -> no_huge st (pml4 a) -> bytes elf -> zlen elf < 2 ^ 63 -> headers n elf off = Some phs -> Forall loadable (loads phs) ->
  exists ok a' st', load_segments n st a elf off = Some (ok, a', st') /\ ref_count a' = ref_count a /\
    if ok : bool then exists R', program_loaded st a R st' a' R' elf (loads phs) else load_stopped st R st' a'.
Proof using PAL.
  induction n as [|n IH]; intros st a R elf off phs SI HN HB Hz HH HP; cbn [headers load_segments] in *.
  { injection HH as <-. exists true, a, st. split; [done|]. split; [done|]. exists R. by apply program_nil. }
  destruct (phdr_at elf off) as [ph|]; [|done]. cbn [mbind option_bind] in *. destruct (headers n elf (off + SIZEOF_PHDR)) as [phs'|] eqn:EH; [|done].
  injection HH as <-. unfold loads in *. rewrite filter_cons in *. destruct (decide (p_type ph = PT_LOAD)) as [Ht|Ht].
  - rewrite (proj2 (Z.eqb_eq _ _) Ht). apply Forall_cons in HP as [Hph HP].
    destruct (load_segment_ok st a R elf ph SI HN HB Hz (proj1 Hph)) as (ret & a1 & st1 & R1 & -> & [(-> & HV & MR)|(-> & -> & D)]); cbn [mbind option_bind].
    + change (0 <? 0) with false. cbv iota. pose proof (segment_program st a R st1 a1 R1 elf ph SI HV HB Hz Hph MR) as P1.
      pose proof MR as [SI1 N1 V1 _ _ (Ep & Eas & Er) (t & EL) _ _].
      destruct (IH st1 a1 R1 elf (off + SIZEOF_PHDR) phs' SI1) as (ok & a2 & st2 & -> & Er2 & D2); try done; [by rewrite Ep|].
      exists ok, a2, st2. split; [done|]. split; [congruence|]. destruct ok; [|by eapply load_stopped_later]. destruct D2 as (R2 & P2). exists R2.
      eapply program_app; [exact P1| | |exact P2].
      * eexists. split; [rewrite EL; apply insert_sorted_elem; by left|by split].
      * intros v Hv. rewrite EL. apply insert_sorted_elem. by right.
    + change (-1 <? 0) with true. cbv iota. exists false, a, st1. split; [done|]. split; [done|]. destruct D as [(-> & -> & _)|(HV & OM)]; [left|right].
      * exists R. split; [done|apply vstep_refl].
      * exists st, R, R1, (seg_page ph), (seg_pages ph). split; [done|]. split; [apply vstep_refl|done].
  - rewrite (proj2 (Z.eqb_neq _ _) Ht). by apply IH.
Qed.

(** ** Giving up an address space *)

Lemma core_structs st root R R0 :
  core_inv st root R -> (forall t r, R0 !! t = Some r -> R !! t = Some r) -> (forall t r, R !! t = Some r -> r ≠ Struct -> R0 !! t = Some r) -> core_inv st root R0.
Proof using.
  intros [A1 A2 A3 A4 A5] Hsub Hother. assert (own_of R0 = own_of R) as Eo.
  { apply own_of_ext. intros t p. split; [apply Hsub|]. intros E. by apply Hother. }
  split; rewrite ?Eo; try done.
  - intros t r Hr. by apply (A3 t r), Hsub.
  - intros t p. rewrite <- A4. split; [apply Hsub|]. intros E. by apply Hother.
Qed.

Lemma vstep_union st R st' R' L : vstep st R st' R' -> vstep st (R ∪ L) st' (R' ∪ L).
Proof using.
  intros [A1 A2 A3 A4]. split; [done| | |done].
  - intros f. specialize (A2 f). rewrite !lookup_union_is_Some. tauto.
  - intros t Ht Hf. apply lookup_union_None in Ht as [Ht HL]. destruct (A3 t Ht Hf) as [E1 E2]. split; [done|]. by apply lookup_union_None.
Qed.

Lemma exec_mem_total_same st st' : mem_total st -> same_memory (frames_of st) (frames_of st') -> mem st' = mem st -> mem_total st'.
Proof using PAL. intros M HS Em f Hf. rewrite (hhdm_page_same _ _ f HS), Em. apply M. by apply (sm_managed _ _ HS). Qed.

Lemma drop_spoiled st a R st' R' p n :
  space_inv st a R -> out_of_memory st a R st' R' p n -> ref_count a = 1 ->
  exists st'' L, drop_space st' a = Some st'' /\ vstep st R st'' L /\ pa_ok (frames_of st'') /\ mem_total st''.
Proof using PAL.
  intros SI [C V _ SP] Hr. pose proof SI as [_ _ ND HSt Wl _].
  set (R0 := base.filter (fun x : Z * role => x.2 ≠ Struct \/ x.1 ∈ structs a) R').
  set (L := base.filter (fun x : Z * role => ~ (x.2 ≠ Struct \/ x.1 ∈ structs a)) R').
  assert (R0 ∪ L = R') as EU by (apply map_filter_union_complement).
  assert (forall t, t ∈ structs a -> R0 !! t = Some Struct) as HS0.
  { intros t Ht. apply map_lookup_filter_Some. split; [|by right]. pose proof Ht as Ht'%HSt. destruct (SP t) as [->|[Hn _]]; [done|congruence]. }
  destruct (destroy_pre_ok st' a R0) as (st2 & R2 & E & Hok & Em & V2 & _); [|..|done|].
  - split; try done. apply (core_structs st' (pml4 a) R' R0 C); [by intros t r [? _]%map_lookup_filter_Some|].
    intros t r Hx Hs. apply map_lookup_filter_Some. split; [done|by left].
  - intros t [_ [Hx|Hx]]%map_lookup_filter_Some; [done|exact Hx].
  - exists st2, (R2 ∪ L). unfold drop_space. rewrite E. cbn. split; [done|]. split; [|split; [done|]].
    + eapply vstep_trans; [exact V|]. rewrite <- EU. by apply vstep_union.
    + apply (exec_mem_total_same st'); [apply C|apply V2|done].
Qed.

Lemma drop_ok st a R : space_inv st a R -> ref_count a = 1 ->
  exists st', drop_space st a = Some st' /\ vstep st R st' ∅ /\ pa_ok (frames_of st') /\ mem_total st' /\ mem st' = mem st.
Proof using PAL.
  intros SI Hr. destruct (destroy_ok st a R SI Hr) as (st' & E & Hok & Em & V). exists st'. unfold drop_space. rewrite E. split; [done|]. split; [done|].
  split; [done|]. split; [|done]. apply (exec_mem_total_same st); [apply SI|apply V|done].
Qed.

(** Whatever stopped the loading, giving up gives a good allocator. *)
Lemma drop_stopped st R st' a' : load_stopped st R st' a' -> ref_count a' = 1 ->
  exists st'' L, drop_space st' a' = Some st'' /\ vstep st R st'' L /\ pa_ok (frames_of st'') /\ mem_total st''.
Proof using PAL.
  intros [(R' & SI & V)|(st1 & R1 & R' & p & n & SI & V & OM)] Hr.
  - destruct (drop_ok st' a' R' SI Hr) as (s & E & V2 & Hok & M & _). exists s, ∅. split; [done|]. split; [by eapply vstep_trans|done].
  - destruct (drop_spoiled st1 a' R1 st' R' p n SI OM Hr) as (s & L & E & V2 & Hok & M). exists s, L. split; [done|]. split; [by eapply vstep_trans|done].
Qed.


(** ** The IPC window *)

Definition WINDOW_PAGE : Z := OCEAN_IPC_WINDOW_VA / 4096.
Definition WINDOW_PROT : Z := vma_to_pte_flags (Z.lor (Z.lor VMA_READ VMA_WRITE) VMA_ANONYMOUS).

(** The window: one zeroed page of its own at its fixed address, at physical address [w]. *)
Record window_ready st a R st' a' R' (w : Z) : Prop := {
  wr_before : translation st (pml4 a) OCEAN_IPC_WINDOW_VA = None;
  wr_phys : w ≠ 0 /\ exists f, w = f * 4096 /\ translation st' (pml4 a) OCEAN_IPC_WINDOW_VA = Some (leaf_entry (f * 4096) WINDOW_PROT) /\
    mem st' !! hhdm_page (frames_of st') f = Some zero_page;
  wr_outside : forall u, user_addr u -> vpage u ≠ WINDOW_PAGE ->
    translation st' (pml4 a) u = translation st (pml4 a) u /\ user_byte st' (pml4 a) u = user_byte st (pml4 a) u
}.

Lemma setup_window_ok st a R :
  space_inv st a R ->
  exists ret a' w st' R', process_setup_ipc_window st (Some a) 0 = Some (ret, Some a', w, st') /\
    space_inv st' a' R' /\ vstep st R st' R' /\ pml4 a' = pml4 a /\ ref_count a' = ref_count a /\
    (ret = 0 -> window_ready st a R st' a' R' w).
Proof using PAL.
  intros SI. unfold process_setup_ipc_window. change (ztrue 0) with false. cbv iota. cbn [mbind option_bind].
  set (fl := Z.lor (Z.lor VMA_READ VMA_WRITE) VMA_ANONYMOUS). change OCEAN_IPC_WINDOW_VA with (WINDOW_PAGE * 4096). change OCEAN_IPC_WINDOW_SIZE with (1 * 4096).
  destruct (map_region_ok st a R WINDOW_PAGE 1 fl SI) as (ret & a1 & st1 & R1 & -> & SI1 & V1 & Ep & [Eas Er] & D); try done. cbn [mbind option_bind].
  destruct D as [(-> & Hfree & _ & FZ & SO & K)|(-> & _)].
  2: { change (negb (-1 =? 0)) with true. cbv iota. exists (-1), a1, 0, st1, R1. split; [done|]. split; [done|]. split; [done|]. split; [done|]. split; [done|]. done. }
  change (negb (0 =? 0)) with false. cbv iota. destruct (FZ WINDOW_PAGE ltac:(lia)) as (f & Ef & Hm & Hz). pose proof (sp_core _ _ _ SI1) as C1.
  pose proof (tr_alloc _ _ _ (ci_tree _ _ _ C1)) as Hok. destruct (pa_frame_ok _ _ Hok Hm) as [Hf _].
  assert (user_addr (WINDOW_PAGE * 4096)) as Hu by (by split). assert (flag_bits (vma_to_pte_flags fl)) as Hg by apply vma_to_pte_flags_ok.
  rewrite (paging_get_phys_ok st1 (pml4 a1) _ (WINDOW_PAGE * 4096) (ci_tree _ _ _ C1) Hu). rewrite Ep, Ef. cbn [mbind option_bind]. rewrite leaf_entry_addr by done.
  change (Z.land (WINDOW_PAGE * 4096) (PAGE_SIZE - 1)) with 0. rewrite Z.lor_0_r.
  rewrite (proj2 (Z.eqb_neq (f * 4096) (u64 (-1)))) by (change (u64 (-1)) with (2 ^ 64 - 1); lia). rewrite orb_false_r.
  destruct (Z.eqb_spec (f * 4096) 0) as [E0|E0].
  - destruct (unmap_region_ok st1 a1 R1 WINDOW_PAGE 1 SI1) as (a2 & st2 & R2 & -> & SI2 & V2 & Ep2 & [Eas2 Er2] & _); try done.
    cbn [mbind option_bind]. exists (-1), a2, 0, st2, R2. split; [done|]. split; [done|]. split; [by eapply vstep_trans|]. split; [congruence|]. split; [congruence|done].
  - exists 0, a1, (f * 4096), st1, R1. split; [done|]. split; [done|]. split; [done|]. split; [done|]. split; [done|]. intros _. split.
    + apply (unmapped_outside st a R WINDOW_PAGE SI); [done|]. apply (find_intersect_None _ _ _ (sp_vmas _ _ _ SI)) in Hfree.
      rewrite Exists_exists. intros (v & Hv & Hx). pose proof (proj1 (Forall_forall _ _) Hfree v Hv) as Hd. cbn in Hd. lia.
    + split; [done|]. exists f. split; [done|]. split; [exact Ef|done].
    + intros u Hua Hne. split; [apply SO; [done|lia]|]. apply (kept_user_byte st (pml4 a) R st1 R1 WINDOW_PAGE 1 u (sp_core _ _ _ SI) V1 K SO Hua). lia.
Qed.

(** ** Seen from another address space *)

Lemma isolated_bytes st a R Rb st' Rb' u :
  space_inv st a R -> R ##ₘ Rb -> vstep st Rb st' Rb' -> pa_ok (frames_of st') -> mem_total st' -> user_addr u ->
  translation st' (pml4 a) u = translation st (pml4 a) u /\ user_byte st' (pml4 a) u = user_byte st (pml4 a) u.
Proof using PAL.
  intros SI HD V Hok M Hu. destruct (space_isolated st a R Rb st' Rb' SI HD V Hok M) as (_ & _ & Hm & HT). split; [by apply HT|].
  unfold user_byte. rewrite HT by done. destruct (translation st (pml4 a) u) as [e|] eqn:E; [|done]. cbn [mbind option_bind].
  rewrite (target_same st st' e (vs_same _ _ _ _ V)). destruct (user_ptr_ok st a R u e (sp_core _ _ _ SI) Hu E) as (_ & _ & _ & Hd). by rewrite (Hm _ _ Hd).
Qed.

(** A fresh address space has no huge pages. *)
Lemma fresh_no_huge st a R : space_inv st a R -> R = {[as_ptr a := Struct; pml4 a := Table []]} -> no_huge st (pml4 a).
Proof using PAL.
  intros SI ER q i Hq (t & e & Hne & Hw & _). destruct (user_path_snoc _ _ Hq) as (Hq' & _). pose proof (sp_core _ _ _ SI) as C.
  pose proof (walk_owned st (pml4 a) (own_of R) q t (ci_tree _ _ _ C) Hq' Hw) as Ho. apply own_of_lookup in Ho. rewrite ER in Ho.
  apply lookup_insert_Some in Ho as [[_ ?]|[_ [_ Ho]%lookup_singleton_Some]]; [done|]. by injection Ho as <-.
Qed.


(** Writing CR3 changes nothing that matters here. *)
Lemma cr3_walk st x h t q : walk (write_cr3 st x) h t q = walk st h t q.
Proof using.
  revert h t. induction q as [|i q IH]; intros h t; [done|]. cbn [walk]. change (load (write_cr3 st x) t i) with (load st t i).
  destruct (load st t i); [|done]. cbn [mbind option_bind]. destruct (_ && _); [|done]. apply IH.
Qed.

Lemma cr3_space st x a R : space_inv st a R -> space_inv (write_cr3 st x) a R.
Proof using.
  intros [[C1 C2 C3 C4 C5] A2 A3 A4 A5 A6]. split; try done. split; try done.
  - destruct C1 as [T1 T2 T3 T4]. by split.
  - intros t p Ho. rewrite cr3_walk. by apply C2.
Qed.

(** ** Replacing a program *)

(** A segment that keeps off the stack, which [setup_user_stack] maps without looking. *)
Definition off_stack (ph : Elf64_Phdr) : Prop := (seg_page ph + seg_pages ph) * 4096 <= USER_STACK_TOP - USER_STACK_SIZE \/ USER_STACK_TOP <= seg_page ph * 4096.

(** The program and its process: what [exec_replace] takes for granted.  The conditions on the program
    headers are about files that pass the checks of the ELF header; the code does not check them. *)
Record exec_pre st (lk : list Z) (p : image) (old : address_space) (Ro : gmap Z role) (elf : list Z) (h : Elf64_Ehdr) (phs : list Elf64_Phdr)
  (argv : option (list (list Z))) : Prop := {
  xp_kernel : kernel_tables st lk;
  xp_old : i_mm p = Some old /\ space_inv st old Ro /\ ref_count old = 1;
  xp_file : bytes elf /\ SIZEOF_EHDR <= zlen elf < 2 ^ 63 /\ ehdr_at elf = Some h;
  xp_headers : exec_accepts elf h = true -> headers (Z.to_nat (e_phnum h)) elf (e_phoff h) = Some phs;
  xp_segments : exec_accepts elf h = true -> Forall (fun ph => loadable ph /\ off_stack ph) (loads phs);
  xp_args : Forall bytes (default [] argv) /\ args_fit (stack_args argv)
}.

(** The address space of the new program: its segments, its stack with the arguments, its window, and
    nothing else. *)
Record program_ready st a R (elf : list Z) (phs : list Elf64_Phdr) (sp w : Z) (args : list (list Z)) : Prop := {
  pr_space : space_inv st a R /\ ref_count a = 1;
  pr_segments : Forall (segment_loaded st (pml4 a) elf) (loads phs);
  pr_stack : stack_image st (pml4 a) sp args;
  pr_window : w ≠ 0 /\ exists f, w = f * 4096 /\ translation st (pml4 a) OCEAN_IPC_WINDOW_VA = Some (leaf_entry (f * 4096) WINDOW_PROT);
  pr_nothing_else : forall u, user_addr u -> translation st (pml4 a) u ≠ None ->
    on_stack u \/ vpage u = WINDOW_PAGE \/ exists ph, ph ∈ loads phs /\ in_segment ph u
}.

(** The same view of the program in another state. *)
Lemma segment_loaded_same st st' root elf ph :
  (forall u, user_addr u -> in_segment ph u -> translation st' root u = translation st root u /\ user_byte st' root u = user_byte st root u) ->
  segment_loaded st root elf ph -> segment_loaded st' root elf ph.
Proof using. intros H HS u Hu Hin. destruct (H u Hu Hin) as [-> ->]. by apply HS. Qed.

Lemma on_stack_user u : on_stack u -> user_addr u /\ vpage u ≠ WINDOW_PAGE.
Proof using.
  intros Hu. pose proof (proj1 (stack_page_range u) Hu) as Hp. change STACK_PAGE with 0x7FFFFFFEE in Hp. change WINDOW_PAGE with 0x700000000. split; [|lia].
  unfold on_stack in Hu. change (USER_STACK_TOP - USER_STACK_SIZE) with 0x7FFFFFFEE000 in Hu. change USER_STACK_TOP with 0x7FFFFFFFE000 in Hu. unfold user_addr. lia.
Qed.

Lemma stack_image_same st st' root sp args :
  (forall u, on_stack u -> user_byte st' root u = user_byte st root u) -> stack_image st root sp args -> stack_image st' root sp args.
Proof using.
  intros H ((Hlo & Hhi) & Hm & HW & HA). pose proof (args_size_nonneg args) as Hs. pose proof (zlen_nonneg args) as Hz. split; [done|]. split; [done|]. split.
  - intros i w Hw. apply (user_bytes_kept st); [|by apply HW]. intros u Hu. rewrite word_zlen in Hu. apply H. apply lookup_lt_Some in Hw.
    cbn in Hw. rewrite length_app, arg_places_length in Hw. cbn in Hw. unfold zlen, on_stack in *. lia.
  - intros i place arg Hp Ha. apply (user_bytes_kept st); [|by apply (HA i)]. intros u Hu. rewrite zlen_app in Hu. change (zlen [0]) with 1 in Hu.
    destruct (arg_places_range _ _ _ _ _ Hp Ha). apply H. unfold on_stack. lia.
Qed.


Lemma ready_build st a R st1 a1 R1 st2 a2 R2 st3 a3 R3 elf phs sp w args :
  (forall u, user_addr u -> translation st (pml4 a) u = None) -> ref_count a = 1 ->
  Forall off_stack (loads phs) ->
  program_loaded st a R st1 a1 R1 elf (loads phs) -> stack_ready st1 a1 R1 st2 a2 R2 sp args ->
  space_inv st3 a3 R3 -> pml4 a3 = pml4 a2 -> ref_count a3 = ref_count a2 -> window_ready st2 a2 R2 st3 a3 R3 w ->
  program_ready st3 a3 R3 elf phs sp w args.
Proof using PAL.
  intros Hempty Hr HS P1 S2 SI3 Ep3 Er3 [Wb Wp Wo]. destruct (pl_same _ _ _ _ _ _ _ _ P1) as (Ep1 & _ & Er1). destruct (sr_same _ _ _ _ _ _ _ _ S2) as (Ep2 & _ & Er2).
  pose proof (sr_outside _ _ _ _ _ _ _ _ S2) as So. pose proof (pl_outside _ _ _ _ _ _ _ _ P1) as Po. pose proof (pl_segments _ _ _ _ _ _ _ _ P1) as Ps.
  pose proof (sr_image _ _ _ _ _ _ _ _ S2) as Si. rewrite Ep2, Ep1 in Wb, Wp. rewrite Ep1 in So, Si. setoid_rewrite Ep2 in Wo. setoid_rewrite Ep1 in Wo.
  assert (forall ph u, ph ∈ loads phs -> in_segment ph u -> ~ on_stack u) as Hns.
  { intros ph u Hph Hin Hu. pose proof (proj1 (Forall_forall _ _) HS ph Hph) as Hd. unfold off_stack, on_stack, in_segment, vpage in *. divlia. }
  split; rewrite ?Ep3, ?Ep2, ?Ep1.
  - split; [done|congruence].
  - apply Forall_forall. intros ph Hph. pose proof (proj1 (Forall_forall _ _) Ps ph Hph) as HL.
    assert (segment_loaded st2 (pml4 a) elf ph) as HL2 by (apply (segment_loaded_same st1); [intros u Hu Hin; apply So; [done|by eapply Hns]|done]).
    apply (segment_loaded_same st2); [|done]. intros u Hu Hin. apply Wo; [done|]. intros Ew. destruct (HL2 u Hu Hin) as [[f Hf] _].
    rewrite translation_page, Ew in Hf. change (WINDOW_PAGE * 4096) with OCEAN_IPC_WINDOW_VA in Hf. congruence.
  - apply (stack_image_same st2); [|done]. intros u Hu. destruct (on_stack_user u Hu). by apply Wo.
  - destruct Wp as (Hw & f & Ew & Ef & _). split; [done|]. by exists f.
  - intros u Hu Ht. destruct (decide (vpage u = WINDOW_PAGE)) as [|Hw]; [by right; left|]. destruct (Wo u Hu Hw) as [E3 _]. rewrite E3 in Ht.
    destruct (decide (STACK_PAGE <= vpage u < STACK_PAGE + 16)) as [Hs|Hs]; [left; by apply stack_page_range|]. rewrite <- stack_page_range in Hs.
    destruct (So u Hu Hs) as [E2 _]. rewrite E2 in Ht. right. right.
    destruct (decide (Exists (fun ph => in_segment ph u) (loads phs))) as [He|He]; [by apply Exists_exists in He|].
    destruct (Po u Hu) as [E1 _]; [intros ph Hph Hin; apply He, Exists_exists; by exists ph|]. rewrite E1, Hempty in Ht by done. done.
Qed.

Lemma ready_later st a R st' elf phs sp w args :
  program_ready st a R elf phs sp w args -> space_inv st' a R ->
  (forall u, user_addr u -> translation st' (pml4 a) u = translation st (pml4 a) u /\ user_byte st' (pml4 a) u = user_byte st (pml4 a) u) ->
  program_ready st' a R elf phs sp w args.
Proof using.
  intros [[_ A2] A3 A4 (A5 & f & A6 & A7) A8] SI H. split.
  - done.
  - eapply Forall_impl; [exact A3|]. intros ph Hph. apply (segment_loaded_same st); [|done]. intros u Hu _. by apply H.
  - apply (stack_image_same st); [|done]. intros u Hu. destruct (on_stack_user u Hu). by apply H.
  - split; [done|]. exists f. split; [done|]. rewrite <- A7. by apply H.
  - intros u Hu Ht. apply A8; [done|]. by rewrite <- (proj1 (H u Hu)).
Qed.

(** A failed replacement, seen from the process: nothing happened to its memory. *)
Definition untouched st (old : address_space) (Ro : gmap Z role) st' : Prop :=
  space_inv st' old Ro /\ (forall t r, Ro !! t = Some r -> mem st' !! t = mem st !! t) /\
  forall u, user_addr u -> translation st' (pml4 old) u = translation st (pml4 old) u /\ user_byte st' (pml4 old) u = user_byte st (pml4 old) u.

Lemma untouched_ok st old Ro st' L :
  space_inv st old Ro -> vstep st ∅ st' L -> pa_ok (frames_of st') -> mem_total st' -> untouched st old Ro st' /\ Ro ##ₘ L.
Proof using PAL.
  intros SI V Hok M. pose proof (map_disjoint_empty_r Ro) as HD. destruct (space_isolated st old Ro ∅ st' L SI HD V Hok M) as (SI' & HD' & Hm & _).
  split; [|done]. split; [done|]. split; [done|]. intros u Hu. by apply (isolated_bytes st old Ro ∅ st' L).
Qed.


(** A successful replacement: the new program is ready, and the pages of the old one are free or used by it. *)
Record replaced st (p : image) (old : address_space) (Ro : gmap Z role) st' (img : image) (current : option Z) (elf : list Z) (phs : list Elf64_Phdr) (sp : Z) (name : option (list Z)) (args : list (list Z)) : Prop := {
  rp_image : exists new Rn, img = mk_image (Some new) (ipc_window_phys img) (match name with Some (b :: s) => set_name (i_name p) (b :: s) | _ => i_name p end) /\
    program_ready st' new Rn elf phs sp (ipc_window_phys img) args /\
    (pml4_phys new ≠ 0 -> current = Some (as_ptr new) /\ cr3 st' = pml4_phys new) /\
    (forall f, (pa_free (frames_of st') f \/ is_Some (Rn !! hhdm_page (frames_of st) f)) <-> (pa_free (frames_of st) f \/ is_Some (Ro !! hhdm_page (frames_of st) f)));
  rp_others : forall t, Ro !! t = None -> (forall f, t = hhdm_page (frames_of st) f -> ~ pa_free (frames_of st) f) -> mem st' !! t = mem st !! t
}.

(** The last steps of [exec_replace]: the switch and the end of the old address space. *)
Lemma replace_finish st old Ro st3 new Rn x elf phs sp w args :
  space_inv st old Ro -> ref_count old = 1 -> vstep st ∅ st3 Rn -> program_ready st3 new Rn elf phs sp w args ->
  exists st4, drop_space (write_cr3 st3 x) old = Some st4 /\ cr3 st4 = x /\ program_ready st4 new Rn elf phs sp w args /\
    (forall f, (pa_free (frames_of st4) f \/ is_Some (Rn !! hhdm_page (frames_of st) f)) <-> (pa_free (frames_of st) f \/ is_Some (Ro !! hhdm_page (frames_of st) f))) /\
    forall t, Ro !! t = None -> (forall f, t = hhdm_page (frames_of st) f -> ~ pa_free (frames_of st) f) -> mem st4 !! t = mem st !! t.
Proof using PAL.
  intros SI Hr V PR. destruct (pr_space _ _ _ _ _ _ _ _ PR) as [SIn _]. pose proof (sp_core _ _ _ SIn) as Cn.
  destruct (untouched_ok st old Ro st3 Rn SI V (tr_alloc _ _ _ (ci_tree _ _ _ Cn)) (ci_mem _ _ _ Cn)) as [(SIo & _ & _) HD].
  pose proof (cr3_space st3 x _ _ SIo) as SIo'. pose proof (cr3_space st3 x _ _ SIn) as SIn'.
  destruct (drop_ok (write_cr3 st3 x) old Ro SIo' Hr) as (st4 & E & V4 & Hok4 & M4 & Em4). exists st4. split; [exact E|]. split; [apply V4|]. split.
  - assert (program_ready (write_cr3 st3 x) new Rn elf phs sp w args) as PR' by (apply (ready_later st3); [done|done|intros u _; unfold user_byte, translation, pte_at; by rewrite cr3_walk]).
    destruct (space_isolated (write_cr3 st3 x) new Rn Ro st4 ∅ SIn' (symmetry HD) V4 Hok4 M4) as (SI4 & _).
    apply (ready_later (write_cr3 st3 x)); [done|done|]. intros u Hu. by apply (isolated_bytes (write_cr3 st3 x) new Rn Ro st4 ∅ u SIn' (symmetry HD)).
  - pose proof (vs_same _ _ _ _ V) as HS. split.
    + intros f. pose proof (vs_conserve _ _ _ _ V f) as A. pose proof (vs_conserve _ _ _ _ V4 f) as B. cbn [frames_of write_cr3] in B.
      rewrite (hhdm_page_same _ _ f HS) in B. rewrite lookup_empty in A, B. assert (forall y : option role, y = None -> ~ is_Some y) as Hno by (by intros y -> [? ?]).
      assert (is_Some (Ro !! hhdm_page (frames_of st) f) -> ~ is_Some (Rn !! hhdm_page (frames_of st) f)) as Hx.
      { intros [r1 H1] [r2 H2]. by apply (proj1 (map_disjoint_spec _ _) HD _ _ _ H1 H2). }
      pose proof (Hno None eq_refl). tauto.
    + intros t Ht Hf. rewrite Em4. cbn [mem write_cr3]. by apply V.
Qed.

(** C7.  Replacing the program of a process that has an address space of its own (reference count
    1).  For a file at least as long as an ELF header, whose program headers lie in the file, whose
    PT_LOAD segments start at page boundaries, have a size from 1 to [2^64 - 8192] and keep off the
    stack range (conditions on the program headers only where the file passes the checks of the ELF
    header; the code itself does not check them), and for arguments that fit on the stack: the call
    either fails, and then the process has the memory, the window and the name it had, with the same
    contents and translations; or it enters the program at its entry point, and then the address
    space of the process has at each address of a segment the byte that the ELF format defines, with
    the header's protection, the stack with the argument count, the pointers, NULL and the strings,
    and a window of its own, and maps nothing else; every page of the old address space is free
    again or used by the new one, and no page of anybody else was written.  Segments that do not
    start at a page boundary are loaded wrongly ([unaligned_segment_shifted]), and larger sizes wrap
    around ([huge_segment_accepted]). *)
Theorem exec_replace_spec st lk p old Ro elf h phs argv current name :
  exec_pre st lk p old Ro elf h phs argv ->
  exists out img current' st', exec_replace st current (Some p) elf name argv = Some (out, Some img, current', st') /\
    match out with
    | Fails => img = p /\ current' = current /\ untouched st old Ro st' /\ exists L, vstep st ∅ st' L /\ Ro ##ₘ L
    | Enters entry sp => entry = e_entry h /\ exec_accepts elf h = true /\ replaced st p old Ro st' img current' elf phs sp name (stack_args argv)
    end.
Proof using PAL.
  intros [KT (Emm & SI & Hr) (HB & [Hlo Hhi] & EH) HH HS [HA Hfit]]. unfold exec_replace. rewrite (proj2 (Z.ltb_ge _ _) Hlo), EH. cbn [mbind option_bind].
  pose proof (sp_core _ _ _ SI) as C. pose proof (tr_alloc _ _ _ (ci_tree _ _ _ C)) as Hok. pose proof (ci_mem _ _ _ C) as M.
  assert (forall st' L (P : Z -> Z -> image -> option Z -> mmu S -> Prop), vstep st ∅ st' L -> pa_ok (frames_of st') -> mem_total st' ->
    exists out img current' s, Some (Fails, Some p, current, st') = Some (out, Some img, current', s) /\
      match out with Fails => img = p /\ current' = current /\ untouched st old Ro s /\ exists L, vstep st ∅ s L /\ Ro ##ₘ L | Enters e sp => P e sp img current' s end) as HF.
  { intros st' L P V Ho' M'. exists Fails, p, current, st'. destruct (untouched_ok st old Ro st' L SI V Ho' M') as [HU HD]. split_and!; eauto. }
  set (P := fun e sp img current' s => e = e_entry h /\ exec_accepts elf h = true /\ replaced st p old Ro s img current' elf phs sp name (stack_args argv)).
  destruct (exec_accepts elf h) eqn:Eacc; cbn [negb]; [|exact (HF st ∅ P (vstep_refl _ _) Hok M)]. specialize (HH eq_refl). specialize (HS eq_refl).
  destruct (create_ok st lk Hok KT M) as (r & st0 & R0 & -> & V0 & D0). cbn [mbind option_bind].
  destruct r as [a0|]; [|destruct D0 as (-> & Ho0 & M0); exact (HF st0 ∅ P V0 Ho0 M0)]. destruct D0 as (SI0 & ER0 & EL0 & Er0 & HT0 & _).
  destruct (load_segments_ok (Z.to_nat (e_phnum h)) st0 a0 R0 elf (e_phoff h) phs SI0 (fresh_no_huge _ _ _ SI0 ER0) HB Hhi HH) as (ok & a1 & st1 & -> & Er1 & D1).
  { eapply Forall_impl; [exact HS|]. by intros ph [? _]. }
  cbn [mbind option_bind]. destruct ok; cbn [negb].
  2: { destruct (drop_stopped st0 R0 st1 a1 D1) as (s & L & -> & V & Ho' & M'); [congruence|]. exact (HF s L P (vstep_trans _ _ _ _ _ _ V0 V) Ho' M'). }
  destruct D1 as (R1 & P1). pose proof P1 as [SI1 N1 V1 _ (Ep1 & _ & _) HV1 _ _ _].
  destruct (setup_user_stack_ok st1 a1 R1 argv SI1) as (sp & a2 & st2 & R2 & -> & D2); [by rewrite Ep1| |done|done|].
  { apply Forall_forall. intros v Hv. destruct (HV1 v Hv) as [Hv'|(ph & Hph & -> & ->)]; [rewrite EL0 in Hv'; by apply not_elem_of_nil in Hv'|].
    destruct (proj1 (Forall_forall _ _) HS ph Hph) as [_ Hd]. exact Hd. }
  cbn [mbind option_bind]. destruct D2 as [(Hsp & S2)|(-> & -> & OM)].
  2: { change (0 =? 0) with true. cbv iota. destruct (drop_spoiled st1 a1 R1 st2 R2 _ _ SI1 OM) as (s & L & -> & V & Ho' & M'); [congruence|].
       exact (HF s L P (vstep_trans _ _ _ _ _ _ V0 (vstep_trans _ _ _ _ _ _ V1 V)) Ho' M'). }
  rewrite (proj2 (Z.eqb_neq _ _) Hsp). pose proof (sr_space _ _ _ _ _ _ _ _ S2) as SI2. pose proof (sr_step _ _ _ _ _ _ _ _ S2) as V2. destruct (sr_same _ _ _ _ _ _ _ _ S2) as (_ & _ & Er2).
  destruct (setup_window_ok st2 a2 R2 SI2) as (ret & a3 & w & st3 & R3 & -> & SI3 & V3 & Ep3 & Er3 & HW). cbn [mbind option_bind].
  pose proof (vstep_trans _ _ _ _ _ _ V0 (vstep_trans _ _ _ _ _ _ V1 (vstep_trans _ _ _ _ _ _ V2 V3))) as V03.
  destruct (Z.eqb_spec ret 0) as [->|Hret]; cbn [negb].
  2: { destruct (drop_ok st3 a3 R3 SI3) as (s & -> & V & Ho' & M' & _); [congruence|]. exact (HF s ∅ P (vstep_trans _ _ _ _ _ _ V03 V) Ho' M'). }
  assert (program_ready st3 a3 R3 elf phs sp w (stack_args argv)) as PR.
  { apply (ready_build st0 a0 R0 st1 a1 R1 st2 a2 R2 st3 a3 R3); try done; [|by apply HW]. eapply Forall_impl; [exact HS|]. by intros ph [_ ?]. }
  set (x := if negb (pml4_phys a3 =? 0) then pml4_phys a3 else cr3 st3).
  destruct (replace_finish st old Ro st3 a3 R3 x elf phs sp w (stack_args argv) SI Hr V03 PR) as (st4 & E4 & Ec & PR4 & HC & HO).
  assert (paging_switch st3 current (Some a3) = (write_cr3 st3 x, if negb (pml4_phys a3 =? 0) then Some (as_ptr a3) else current)) as ->.
  { unfold paging_switch, x. destruct (negb _); [done|]. by destruct st3. }
  rewrite Emm, E4. cbn [mbind option_bind]. eexists (Enters (e_entry h) sp), _, _, st4. split; [reflexivity|]. split; [done|]. split; [done|].
  split; [|done]. exists a3, R3. split; [reflexivity|]. split; [exact PR4|]. split; [|exact HC].
  intros Hp. unfold x in Ec. rewrite (proj2 (Z.eqb_neq _ _) Hp) in *. done.
Qed.


(** C30.  Loading a segment that starts at a page boundary, as the linker script makes them, and has
    a size from 1 to [2^64 - 8192] (a larger size wraps around: [huge_segment_accepted]).  It is
    accepted exactly when its part of the file lies in the file and is not longer than the segment,
    the segment lies in user space and it meets no VMA.  If it is loaded, the program sees at every
    address of its pages the byte of the file, or zero past the file's part, with the header's
    protection; all other addresses translate and read as before.  It fails without a trace when it
    is not accepted, and otherwise only when memory runs out. *)
Theorem load_segment_spec st a R elf ph :
  space_inv st a R -> no_huge st (pml4 a) -> bytes elf -> zlen elf < 2 ^ 63 -> phdr_ok ph -> p_vaddr ph mod 4096 = 0 ->
  exists ret a' st' R', load_segment st a elf ph = Some (ret, a', st') /\
    ((ret = 0 /\ segment_valid a elf ph /\ space_inv st' a' R' /\ vstep st R st' R' /\
       (exists t, vma_list a' = insert_sorted (vma_list a)
          (mk_vma t (p_vaddr ph) (p_vaddr ph + seg_pages ph * 4096) (segment_vma_flags (p_flags ph)) (segment_pte_flags (p_flags ph)))) /\
       forall u, user_addr u ->
         if decide (p_vaddr ph <= u < p_vaddr ph + seg_pages ph * 4096) then
           (exists f, translation st' (pml4 a) u = Some (leaf_entry (f * 4096) (segment_pte_flags (p_flags ph)))) /\
           user_byte st' (pml4 a) u = Some (if decide (u - p_vaddr ph < p_filesz ph) then byte_at elf (p_offset ph + (u - p_vaddr ph)) else 0)
         else translation st' (pml4 a) u = translation st (pml4 a) u /\ user_byte st' (pml4 a) u = user_byte st (pml4 a) u) \/
     (ret = -1 /\ a' = a /\ ((st' = st /\ ~ segment_valid a elf ph) \/
       (segment_valid a elf ph /\ exhausted st' /\ core_inv st' (pml4 a) R' /\ vstep st R st' R')))).
Proof using PAL.
  intros SI HN HB Hz Hph Hal. destruct (load_segment_ok st a R elf ph SI HN HB Hz Hph) as (ret & a' & st' & R' & E & D).
  exists ret, a', st', R'. split; [done|]. assert (seg_page ph * 4096 = p_vaddr ph) as Ep by (unfold seg_page; divlia).
  destruct D as [(-> & HV & MR)|(-> & -> & D)].
  - left. split; [done|]. split; [done|]. pose proof (segment_program _ _ _ _ _ _ _ _ SI HV HB Hz (conj Hph Hal) MR) as [A1 _ A3 _ _ _ _ A7 A8].
    rewrite Forall_singleton in A7. split; [done|]. split; [done|]. split.
    { destruct (mr_vma _ _ _ _ _ _ _ _ _ _ _ MR) as (t & ->). exists t. rewrite Z.mul_add_distr_r, Ep. done. }
    intros u Hu. assert (p_vaddr ph <= u < p_vaddr ph + seg_pages ph * 4096 <-> in_segment ph u) as Hin by (unfold in_segment, vpage; rewrite <- Ep; divlia).
    destruct (decide (p_vaddr ph <= u < p_vaddr ph + seg_pages ph * 4096)) as [Hd|Hd]; rewrite Hin in Hd.
    + exact (A7 u Hu Hd).
    + apply A8; [done|]. by intros ph' ->%list_elem_of_singleton.
  - right. split; [done|]. split; [done|]. destruct D as [(-> & _ & HV)|(HV & [C V Hx _])]; [by left|by right].
Qed.

(** A segment that does not start at a page boundary gets the wrong bytes in its first page: the
    copy goes to the right place but is taken from the file [p_vaddr mod 4096] bytes too early. *)
Theorem unaligned_segment_shifted elf ph j :
  bytes elf -> zlen elf < 2 ^ 63 -> phdr_ok ph -> p_offset ph + p_filesz ph <= zlen elf ->
  0 < p_vaddr ph mod 4096 <= p_offset ph -> 0 <= j < p_filesz ph -> p_vaddr ph mod 4096 + j < 4096 ->
  page_byte (seg_words elf ph (seg_page ph)) (p_vaddr ph mod 4096 + j) = byte_at elf (p_offset ph - p_vaddr ph mod 4096 + j).
Proof using.
  intros HB Hz [_ Hva Hof Hfs _] He Ho Hj Hj'. unfold seg_words, page_content, file_part. rewrite Z.sub_diag, Z.mul_0_l. change PAGE_SIZE with 4096.
  set (oip := p_vaddr ph mod 4096) in *. set (offset := p_offset ph) in *. set (filesz := p_filesz ph) in *. assert (0 <= oip < 4096) as Hoip by (apply Z.mod_pos_bound; lia).
  rewrite (u64_small (oip + filesz)), (u64_small (offset + filesz)) by lia. change (0 =? 0) with true. cbv iota. change (u64 (0 + 4096)) with 4096.
  rewrite (proj2 (Z.ltb_lt 0 _)) by lia. rewrite Z.add_0_r, Z.sub_0_r, Z.sub_0_l. rewrite (u64_small (oip + filesz)) by lia.
  assert (u64 (offset + u64 (- oip)) = offset - oip) as E1.
  { rewrite Z.add_comm, u64_add_l. rewrite u64_small by lia. lia. } rewrite !E1. rewrite (u64_small (offset - oip)) by lia.
  set (ce := if oip + filesz <? 4096 then oip + filesz else 4096). assert (oip + j < ce <= 4096 /\ ce <= oip + filesz) as [Hce Hce'].
  { unfold ce. destruct (Z.ltb_spec (oip + filesz) 4096); lia. }
  rewrite (proj2 (Z.ltb_lt oip ce)), (proj2 (Z.ltb_lt (offset - oip) _)) by lia. rewrite (u64_small (offset - oip + (ce - oip))) by lia.
  rewrite (proj2 (Z.ltb_ge (offset + filesz) _)) by lia. destruct (read_ok elf (offset - oip) (ce - oip)) as (bs & E & L & Hbs); [lia|lia|lia|]. rewrite E. cbn [mbind option_bind].
  pose proof (read_bytes _ _ _ _ HB E) as HBs. destruct (write_bytes_ok zero_page oip bs zero_page_words HBs) as (l' & El & _); [lia|lia|]. rewrite El.
  change (default zero_page (Some l')) with l'. rewrite (write_bytes_lookup zero_page oip bs l' (oip + j) zero_page_words HBs ltac:(lia) ltac:(lia) El ltac:(lia)).
  rewrite decide_True by lia. replace (oip + j - oip) with j by lia. rewrite Hbs by lia. f_equal.
Qed.

(** A size near [2^64] wraps around: a segment that asks for almost all of the address space is
    accepted, gets no page, and leaves a VMA that is empty. *)
Theorem huge_segment_accepted st a elf ph t st1 :
  p_type ph = PT_LOAD -> fits 64 (p_vaddr ph) -> p_vaddr ph mod 4096 = 0 -> p_vaddr ph < USER_SPACE_END -> 2 ^ 64 - 4096 < p_memsz ph < 2 ^ 64 -> p_filesz ph = 0 ->
  0 <= p_offset ph <= zlen elf -> vma_list a = [] -> get_free_page st = Some (t, st1) -> t ≠ 0 ->
  load_segment st a elf ph =
    Some (0, vma_insert a (mk_vma t (p_vaddr ph) (p_vaddr ph) (segment_vma_flags (p_flags ph)) (segment_pte_flags (p_flags ph))), st1).
Proof using.
  intros Ht Hva Hal Hu Hms Hfs Hof HL Hg Ht0. unfold load_segment. rewrite Ht. change (PT_LOAD =? PT_LOAD) with true. cbn [negb]. cbv zeta.
  rewrite (align_page (p_vaddr ph) Hva). assert (p_vaddr ph / 4096 * 4096 = p_vaddr ph) as -> by divlia. rewrite Z.sub_diag, Z.add_0_r, Hfs.
  assert (Z.land (u64 (p_memsz ph + PAGE_SIZE - 1)) (lnotw 64 (PAGE_SIZE - 1)) = 0) as ->.
  { change PAGE_SIZE with 4096 at 1. assert (u64 (p_memsz ph + 4096 - 1) = p_memsz ph + 4096 - 1 - 2 ^ 64) as ->.
    { unfold u64, wrap. symmetry. apply (Z.mod_unique_pos _ _ 1); lia. }
    rewrite align_page by (unfold fits; lia). rewrite Z.div_small by lia. done. }
  rewrite (proj2 (Z.ltb_ge (p_memsz ph) 0)), (proj2 (Z.ltb_ge (zlen elf) _)), (proj2 (Z.ltb_ge (_ - p_offset ph) 0)) by lia. cbn [orb].
  rewrite (proj2 (Z.leb_gt USER_SPACE_END _)), (proj2 (Z.ltb_ge (_ - p_vaddr ph) 0)) by lia. cbn [orb]. rewrite HL. cbn [segment_overlaps].
  change (pages_in 0 0) with 0%nat. cbn [page_loop]. change (0 <? 0) with false. cbv iota. cbn [mbind option_bind]. unfold vma_alloc. rewrite Hg. cbn [mbind option_bind vma_ptr].
  rewrite (proj2 (Z.eqb_neq _ _) Ht0), Z.add_0_r, u64_small by done. done.
Qed.

End program.

(** ** Witnesses: a program of four bytes of code and a page of zeros *)

Definition ex_elf : list Z :=
  [0x7f; 69; 76; 70; 2; 1; 1; 0; 0; 0; 0; 0; 0; 0; 0; 0] ++
  Z_to_little_endian 2 8 2 ++ Z_to_little_endian 2 8 62 ++ Z_to_little_endian 4 8 1 ++ Z_to_little_endian 8 8 0x400000 ++ Z_to_little_endian 8 8 64 ++
  Z_to_little_endian 8 8 0 ++ Z_to_little_endian 4 8 0 ++ Z_to_little_endian 2 8 64 ++ Z_to_little_endian 2 8 56 ++ Z_to_little_endian 2 8 1 ++ [0; 0; 0; 0; 0; 0] ++
  Z_to_little_endian 4 8 1 ++ Z_to_little_endian 4 8 5 ++ Z_to_little_endian 8 8 120 ++ Z_to_little_endian 8 8 0x400000 ++ Z_to_little_endian 8 8 0 ++
  Z_to_little_endian 8 8 4 ++ Z_to_little_endian 8 8 4100 ++ Z_to_little_endian 8 8 4096 ++ [0x90; 0x90; 0xeb; 0xfe].

Definition ex_ehdr : Elf64_Ehdr := mk_ehdr [0x7f; 69; 76; 70; 2; 1; 1; 0; 0; 0; 0; 0; 0; 0; 0; 0] 2 62 1 0x400000 64 0 0 64 56 1 0 0 0.
Definition ex_phdr : Elf64_Phdr := mk_phdr 1 5 120 0x400000 0 4 4100 4096.
Definition ex_argv : list (list Z) := [[115; 104]; [45; 99]].
Definition ex_image : image := mk_image (Some ex_as) 0 (replicate 16 0).

Lemma ex_elf_bytes : bytes ex_elf.
Proof. apply Forall_forall. intros b Hb. assert (forallb (fun b => (0 <=? b) && (b <? 2 ^ 8)) ex_elf = true) as H by (vm_compute; reflexivity).
  rewrite forallb_forall in H. apply list_elem_of_In in Hb. specialize (H b Hb). apply andb_true_iff in H as [? ?]. split; [by apply Z.leb_le|by apply Z.ltb_lt].
Qed.

Lemma ex_phdr_ok : phdr_ok ex_phdr.
Proof. split; cbn; (reflexivity || lia || by split). Qed.

Lemma ex_ref : ref_count ex_as = 1.
Proof. exact (proj1 (proj2 (proj2 (created_space ex_vm ex_st ex_kernel ex_as ex_vm_ok ex_vm_kernel ex_vm_mem ex_create_eq)))). Qed.

Lemma ex_no_vma : vma_list ex_as = [].
Proof. exact (proj1 (proj2 (created_space ex_vm ex_st ex_kernel ex_as ex_vm_ok ex_vm_kernel ex_vm_mem ex_create_eq))). Qed.

Lemma ex_no_huge : no_huge ex_st (pml4 ex_as).
Proof. exact (fresh_no_huge ex_st ex_as ex_R ex_inv eq_refl). Qed.

Lemma ex_exec_pre : exec_pre ex_st ex_kernel ex_image ex_as ex_R ex_elf ex_ehdr [ex_phdr] (Some ex_argv).
Proof.
  split.
  - exact ex_st_kernel.
  - split; [reflexivity|]. split; [exact ex_inv|exact ex_ref].
  - split; [exact ex_elf_bytes|]. split; [by vm_compute|by vm_compute].
  - intros _. vm_compute. reflexivity.
  - intros _. change (loads [ex_phdr]) with [ex_phdr]. apply Forall_singleton. split; [by split; [exact ex_phdr_ok|]|]. left. by vm_compute.
  - split; [|by vm_compute]. apply Forall_forall. intros b Hb. apply Forall_forall. intros x Hx.
    assert (forallb (forallb (fun b => (0 <=? b) && (b <? 2 ^ 8))) ex_argv = true) as H by (vm_compute; reflexivity).
    rewrite forallb_forall in H. apply list_elem_of_In in Hb, Hx. specialize (H b Hb). rewrite forallb_forall in H. specialize (H x Hx).
    apply andb_true_iff in H as [? ?]. split; [by apply Z.leb_le|by apply Z.ltb_lt].
Qed.

Lemma exec_replace_spec_witness :
  exists out img current' st', exec_replace ex_st None (Some ex_image) ex_elf (Some [115; 104]) (Some ex_argv) = Some (out, Some img, current', st') /\
    match out with
    | Fails => img = ex_image /\ current' = None /\ untouched ex_st ex_as ex_R st' /\ exists L, vstep ex_st ∅ st' L /\ ex_R ##ₘ L
    | Enters entry sp => entry = 0x400000 /\ exec_accepts ex_elf ex_ehdr = true /\
        replaced ex_st ex_image ex_as ex_R st' img current' ex_elf [ex_phdr] sp (Some [115; 104]) ex_argv
    end.
Proof. exact (exec_replace_spec ex_st ex_kernel ex_image ex_as ex_R ex_elf ex_ehdr [ex_phdr] (Some ex_argv) None (Some [115; 104]) ex_exec_pre). Defined.

(** The run of that program: it is entered, with its stack pointer below two strings of three bytes. *)
Example exec_enters :
  match exec_replace ex_st None (Some ex_image) ex_elf (Some [115; 104]) (Some ex_argv) with
  | Some (Enters entry sp, Some img, _, st') => entry = 0x400000 /\ sp = USER_STACK_TOP - 8 - 8 * 4 /\ take 3 (i_name img) = [115; 104; 0]
  | _ => False
  end.
Proof. vm_compute. done. Qed.

Lemma load_segment_spec_witness :
  exists ret a' st' R', load_segment ex_st ex_as ex_elf ex_phdr = Some (ret, a', st') /\
    ((ret = 0 /\ segment_valid ex_as ex_elf ex_phdr /\ space_inv st' a' R' /\ vstep ex_st ex_R st' R' /\
       (exists t, vma_list a' = insert_sorted (vma_list ex_as) (mk_vma t 0x400000 (0x400000 + seg_pages ex_phdr * 4096) (segment_vma_flags 5) (segment_pte_flags 5))) /\
       forall u, user_addr u ->
         if decide (0x400000 <= u < 0x400000 + seg_pages ex_phdr * 4096) then
           (exists f, translation st' (pml4 ex_as) u = Some (leaf_entry (f * 4096) (segment_pte_flags 5))) /\
           user_byte st' (pml4 ex_as) u = Some (if decide (u - 0x400000 < 4) then byte_at ex_elf (120 + (u - 0x400000)) else 0)
         else translation st' (pml4 ex_as) u = translation ex_st (pml4 ex_as) u /\ user_byte st' (pml4 ex_as) u = user_byte ex_st (pml4 ex_as) u) \/
     (ret = -1 /\ a' = ex_as /\ ((st' = ex_st /\ ~ segment_valid ex_as ex_elf ex_phdr) \/
       (segment_valid ex_as ex_elf ex_phdr /\ exhausted st' /\ core_inv st' (pml4 ex_as) R' /\ vstep ex_st ex_R st' R')))).
Proof.
  refine (load_segment_spec ex_st ex_as ex_R ex_elf ex_phdr ex_inv ex_no_huge ex_elf_bytes _ ex_phdr_ok eq_refl). by vm_compute.
Defined.

(** The same program linked 16 bytes into the page: its first byte is the file's byte 104. *)
Definition ex_phdr16 : Elf64_Phdr := mk_phdr 1 5 120 0x400010 0 4 4100 4096.

Lemma unaligned_segment_shifted_witness :
  page_byte (seg_words ex_elf ex_phdr16 (seg_page ex_phdr16)) 16 = byte_at ex_elf 104 /\ byte_at ex_elf 104 ≠ byte_at ex_elf 120.
Proof.
  split; [|by vm_compute].
  refine (unaligned_segment_shifted ex_elf ex_phdr16 0 ex_elf_bytes _ _ _ _ _ _); [by vm_compute|split; cbn; (reflexivity || lia || by split)|by vm_compute|by vm_compute|by vm_compute|by vm_compute].
Defined.

Definition ex_phdr_huge : Elf64_Phdr := mk_phdr 1 5 120 0x400000 0 0 (2 ^ 64 - 1) 4096.
Definition ex_taken_page : Z * mmu pmm_state := default (0, ex_st) (Vmm.get_free_page ex_st).

Lemma ex_taken_page_eq : Vmm.get_free_page ex_st = Some (ex_taken_page.1, ex_taken_page.2) /\ ex_taken_page.1 ≠ 0.
Proof.
  assert (match Vmm.get_free_page ex_st with Some (p, _) => negb (p =? 0) | None => false end = true) as H by (vm_compute; reflexivity).
  unfold ex_taken_page. destruct (Vmm.get_free_page ex_st) as [[p s]|]; [|discriminate H]. split; [reflexivity|]. cbn. intros ->. discriminate H.
Qed.

Lemma huge_segment_accepted_witness :
  load_segment ex_st ex_as ex_elf ex_phdr_huge =
    Some (0, vma_insert ex_as (mk_vma ex_taken_page.1 0x400000 0x400000 (segment_vma_flags 5) (segment_pte_flags 5)), ex_taken_page.2).
Proof.
  refine (huge_segment_accepted ex_st ex_as ex_elf ex_phdr_huge ex_taken_page.1 ex_taken_page.2 _ _ _ _ _ _ _ ex_no_vma (proj1 ex_taken_page_eq) (proj2 ex_taken_page_eq));
    [reflexivity|by split|reflexivity|reflexivity|by split|reflexivity|by vm_compute].
Defined.
