(* ===== verification/VmmSpaces.v ===== *)
(** * The address spaces of the processes (kernel/mm/vmm.c, kernel/ipc/ipc_window.c)

    Processes are modelled over an interface of address spaces (Process.v).  Here the interface is
    implemented with the code of vmm.c and ipc_window.c over the page tables: the state is the memory
    with its allocator and a table of the [struct address_space] by their pointers.  The laws of the
    interface are proved for it. *)
From S2P Require Import Prelude Defs Buddy Pmm Paging PagingSpace PagingPmm Vmm VmmSpace VmmRegion VmmLife VmmClone VmmSpec PageBytes ExecPages ExecStack ExecSpec Process.

Section spaces.
Context {S : Type} `{PA : PageAllocator S} {PAL : PageAllocatorLaws S}.
Implicit Types (st : mmu S) (a : address_space) (R : gmap Z role).

Record vm_spaces := mk_spaces { sv_mmu : mmu S; sv_table : gmap Z address_space }.
Implicit Types s : vm_spaces.

(** ** The operations *)

(** The window of an address space: the page that [process_adopt_ipc_window] finds, and its bytes. *)
Definition space_window st a : option (Z * list Z) :=
  w ← process_adopt_ipc_window st (Some a) 0;
  if w =? 0 then Some (0, []) else l ← mem st !! hhdm_page (frames_of st) (w / 4096); Some (w, page_bytes l).

(** The kernel writes windows through the direct map; [fr] is the page it has written. *)
Definition window_written st a (fr : option (Z * list Z)) : option (mmu S) :=
  w ← process_adopt_ipc_window st (Some a) 0;
  match fr with
  | Some (w1, l1) => Some (if (w1 =? w) && negb (w =? 0) then with_mem st (<[hhdm_page (frames_of st) (w / 4096) := words_of l1]> (mem st)) else st)
  | None => Some st
  end.

Definition space_user st a (u : Z) : option (Z * Z) :=
  if decide (user_addr u /\ vpage u ≠ WINDOW_PAGE) then
    e ← translation st (pml4 a) u; b ← user_byte st (pml4 a) u; Some (b, entry_flags e)
  else None.

(** ** What holds of the table *)

(** Each address space owns its pages alone, and has one reference; no page of them is the kernel's PML4
    or the page frame 0, which is not free either. *)
Record spaces_ok s (lk : list Z) (Rs : Z -> gmap Z role) : Prop := {
  so_alloc : pa_ok (frames_of (sv_mmu s)) /\ mem_total (sv_mmu s);
  so_kernel : kernel_tables (sv_mmu s) lk;
  so_space : forall m a, sv_table s !! m = Some a -> as_ptr a = m /\ ref_count a = 1 /\ space_inv (sv_mmu s) a (Rs m);
  so_apart : forall m m' a a', sv_table s !! m = Some a -> sv_table s !! m' = Some a' -> m ≠ m' -> Rs m ##ₘ Rs m';
  so_clear : forall m a, sv_table s !! m = Some a -> Rs m !! kernel_pml4 (sv_mmu s) = None /\ Rs m !! hhdm_page (frames_of (sv_mmu s)) 0 = None;
  so_zero : ~ pa_free (frames_of (sv_mmu s)) 0
}.

#[export] Instance vmm_address_spaces : AddressSpaces vm_spaces := {|
  as_clone s fr m :=
    a ← sv_table s !! m; st ← window_written (sv_mmu s) a fr;
    '(r, st) ← vmm_clone_address_space st a;
    Some (match r with
          | Some dst => (as_ptr dst, mk_spaces st (<[as_ptr dst := dst]> (sv_table s)))
          | None => (0, mk_spaces st (sv_table s))
          end);
  as_destroy s m :=
    a ← sv_table s !! m; '(r, st) ← vmm_destroy_address_space (sv_mmu s) a;
    Some (mk_spaces st (match r with Some a => <[m := a]> (sv_table s) | None => delete m (sv_table s) end));
  as_window s m := a ← sv_table s !! m; space_window (sv_mmu s) a;
  as_user s m u := a ← sv_table s !! m; space_user (sv_mmu s) a u;
  as_ok s := exists lk Rs, spaces_ok s lk Rs;
  as_live s m := is_Some (sv_table s !! m)
|}.

(** ** Entries *)

(** The page behind a mapped address. *)
Lemma entry_frame st a R u e :
  core_inv st (pml4 a) R -> user_addr u -> translation st (pml4 a) u = Some e ->
  exists f, Z.land e PTE_ADDR_MASK = f * 4096 /\ target st e = hhdm_page (frames_of st) f /\ pa_managed (frames_of st) f /\
    R !! hhdm_page (frames_of st) f = Some (Data (vpage u)).
Proof using PAL.
  intros C Hu He. destruct (user_ptr_ok st a R u e C Hu He) as (_ & _ & _ & Hd). destruct (ci_held _ _ _ C _ _ Hd) as (f & Ef & Hm & _).
  pose proof (tr_alloc _ _ _ (ci_tree _ _ _ C)) as Hok. destruct (pa_hhdm_ok _ Hok) as (H1 & H2 & H3). destruct (pa_frame_ok _ _ Hok Hm) as [Hf Hf'].
  destruct (masked_frame e) as (g & Hg & Eg). exists f. rewrite Ef in Hd. split; [|done].
  unfold target, phys_to_virt_local in Ef. rewrite Eg in Ef |- *. unfold hhdm_page in *. unfold u64, wrap in Ef. f_equal.
  destruct (Z.lt_ge_cases (g * 4096 + boot_hhdm (frames_of st)) (2 ^ 64)) as [Hlt|Hge].
  - rewrite Z.mod_small in Ef by lia. lia.
  - assert ((g * 4096 + boot_hhdm (frames_of st)) mod 2 ^ 64 = g * 4096 + boot_hhdm (frames_of st) - 2 ^ 64) as E.
    { symmetry. apply (Z.mod_unique_pos _ _ 1); lia. } lia.
Qed.

Lemma leaf_entry_flags f e : 0 <= f < 2 ^ 40 -> present e -> entry_flags (leaf_entry (f * 4096) (entry_flags e)) = entry_flags e.
Proof using.
  intros Hf Hp. unfold leaf_entry, entry_flags at 1. rewrite mask_frame by done. apply Z.bits_inj'. intros i Hi.
  rewrite Z.land_spec, !Z.lor_spec, lnotw_testbit, addr_mask_testbit by lia. unfold entry_flags.
  rewrite Z.land_spec, lnotw_testbit, addr_mask_testbit by lia. change PTE_PRESENT with (2 ^ 0). rewrite Z.pow2_bits_eqb by lia.
  assert (Z.testbit e 0 = true) as H0.
  { unfold present in Hp. change PTE_PRESENT with (Z.shiftl 1 0) in Hp. by rewrite ztrue_land_bit in Hp. }
  destruct (decide (12 <= i < 52)) as [Hin|Hout]; [rewrite !(bool_decide_true (12 <= i < 52)), !(bool_decide_true (i < 64)) by lia; by rewrite !andb_false_r|].
  rewrite !(bool_decide_false (12 <= i < 52)) by lia. cbn [xorb].
  assert (Z.testbit (f * 4096) i = false) as ->.
  { change 4096 with (2 ^ 12). rewrite <- Z.shiftl_mul_pow2 by lia. rewrite Z.shiftl_spec by done. destruct (decide (i < 12)); [apply Z.testbit_neg_r; lia|].
    rewrite <- (Z.mod_small f (2 ^ 40)) by lia. apply Z.mod_pow2_bits_high. lia. }
  cbn [orb]. destruct (Z.eqb_spec 0 i) as [<-|]; [rewrite H0; by cbn|]. rewrite orb_false_r. by destruct (Z.testbit e i), (bool_decide (i < 64)).
Qed.

Lemma translation_present st root u e : translation st root u = Some e -> present e.
Proof using. unfold translation. destruct (ztrue _) eqn:E; [|done]. by intros [= <-]. Qed.

(** ** The window *)

Lemma WINDOW_user : user_addr OCEAN_IPC_WINDOW_VA.
Proof using. by split. Qed.

(** The window is the page mapped at its address. *)
Lemma window_adopt_ok st a R : core_inv st (pml4 a) R ->
  (translation st (pml4 a) OCEAN_IPC_WINDOW_VA = None /\ process_adopt_ipc_window st (Some a) 0 = Some 0) \/
  exists e f, translation st (pml4 a) OCEAN_IPC_WINDOW_VA = Some e /\ process_adopt_ipc_window st (Some a) 0 = Some (f * 4096) /\
    target st e = hhdm_page (frames_of st) f /\ pa_managed (frames_of st) f /\ R !! hhdm_page (frames_of st) f = Some (Data WINDOW_PAGE).
Proof using PAL.
  intros C. unfold process_adopt_ipc_window. rewrite (paging_get_phys_ok st (pml4 a) _ _ (ci_tree _ _ _ C) WINDOW_user).
  destruct (translation st (pml4 a) OCEAN_IPC_WINDOW_VA) as [e|] eqn:E; [right|left; split; [done|reflexivity] ].
  destruct (entry_frame st a R _ e C WINDOW_user E) as (f & Ea & Et & Hm & Hd). exists e, f. split; [done|]. split; [|done].
  pose proof (tr_alloc _ _ _ (ci_tree _ _ _ C)) as Hok. destruct (pa_frame_ok _ _ Hok Hm) as [Hf _]. cbn [mbind option_bind]. rewrite Ea.
  change (Z.land OCEAN_IPC_WINDOW_VA (PAGE_SIZE - 1)) with 0. rewrite Z.lor_0_r.
  rewrite (proj2 (Z.eqb_neq (f * 4096) (u64 (-1)))) by (change (u64 (-1)) with (2 ^ 64 - 1); lia). done.
Qed.

(** The window of a space that does not own the page frame 0: none, or a page of 4096 bytes. *)
Lemma window_ok st a R :
  core_inv st (pml4 a) R -> R !! hhdm_page (frames_of st) 0 = None ->
  (translation st (pml4 a) OCEAN_IPC_WINDOW_VA = None /\ process_adopt_ipc_window st (Some a) 0 = Some 0 /\ space_window st a = Some (0, [])) \/
  exists e f l, translation st (pml4 a) OCEAN_IPC_WINDOW_VA = Some e /\ process_adopt_ipc_window st (Some a) 0 = Some (f * 4096) /\
    space_window st a = Some (f * 4096, page_bytes l) /\ f ≠ 0 /\ mem st !! hhdm_page (frames_of st) f = Some l /\ table_words l /\
    target st e = hhdm_page (frames_of st) f /\ R !! hhdm_page (frames_of st) f = Some (Data WINDOW_PAGE).
Proof using PAL.
  intros C H0. unfold space_window. destruct (window_adopt_ok st a R C) as [[Et ->]|(e & f & Et & -> & Eg & Hm & Hd)]; [left; done|right].
  assert (f ≠ 0) as Hf by (intros ->; congruence). destruct (ci_mem _ _ _ C f Hm) as (l & El & Wl). exists e, f, l. split; [done|]. split; [done|]. split; [|done].
  cbn [mbind option_bind]. rewrite (proj2 (Z.eqb_neq _ _)) by lia. rewrite Z.div_mul by lia. by rewrite El.
Qed.

(** ** A space seen by its user *)

Lemma user_same st st' a R :
  core_inv st (pml4 a) R -> same_memory (frames_of st) (frames_of st') ->
  (forall u, user_addr u -> translation st' (pml4 a) u = translation st (pml4 a) u) ->
  (forall t q, R !! t = Some (Data q) -> q ≠ WINDOW_PAGE -> mem st' !! t = mem st !! t) -> forall u, space_user st' a u = space_user st a u.
Proof using PAL.
  intros C HS HT HM u. unfold space_user, user_byte. destruct (decide _) as [[Hu Hw]|]; [|done]. rewrite HT by done.
  destruct (translation st (pml4 a) u) as [e|] eqn:Et; [|done]. cbn [mbind option_bind]. rewrite (target_same st st' e HS).
  destruct (entry_frame st a R u e C Hu Et) as (f & _ & -> & _ & Hd). by rewrite (HM _ _ Hd Hw).
Qed.

Lemma window_same st st' a R :
  core_inv st (pml4 a) R -> core_inv st' (pml4 a) R -> same_memory (frames_of st) (frames_of st') -> R !! hhdm_page (frames_of st) 0 = None ->
  (forall u, user_addr u -> translation st' (pml4 a) u = translation st (pml4 a) u) -> fst <$> space_window st' a = fst <$> space_window st a.
Proof using PAL.
  intros C C' HS H0 HT. pose proof (HT _ WINDOW_user) as Ew. assert (R !! hhdm_page (frames_of st') 0 = None) as H0' by (by rewrite (hhdm_page_same _ _ 0 HS)).
  destruct (window_ok st a R C H0) as [(E1 & _ & ->)|(e & f & l & E1 & _ & -> & _ & _ & _ & Eg & _)];
    destruct (window_ok st' a R C' H0') as [(E2 & _ & ->)|(e' & f' & l' & E2 & _ & -> & _ & _ & _ & Eg' & _)]; [done|congruence|congruence|].
  assert (e' = e) as -> by congruence. rewrite (target_same st st' e HS), Eg, (hhdm_page_same _ _ f' HS) in Eg'. cbn. do 2 f_equal. unfold hhdm_page in Eg'. lia.
Qed.

(** The page of the window gets the bytes that the kernel has written. *)
Lemma written_ok st a R fr :
  space_inv st a R -> R !! hhdm_page (frames_of st) 0 = None -> (forall w l, fr = Some (w, l) -> page_of_bytes l) ->
  exists st1 w l, window_written st a fr = Some st1 /\ space_inv st1 a R /\ vstep st R st1 R /\ space_window st a = Some (w, l) /\
    (forall u, user_addr u -> translation st1 (pml4 a) u = translation st (pml4 a) u) /\
    (forall t q, R !! t = Some (Data q) -> q ≠ WINDOW_PAGE -> mem st1 !! t = mem st !! t) /\
    exists l1, space_window st1 a = Some (w, l1) /\ (w ≠ 0 -> l1 = page_now fr w l).
Proof using PAL.
  intros SI H0 Hfr. pose proof (sp_core _ _ _ SI) as C. unfold window_written.
  assert (forall w l, process_adopt_ipc_window st (Some a) 0 = Some w -> space_window st a = Some (w, l) ->
    (forall w1 l1, fr = Some (w1, l1) -> w1 ≠ w \/ w = 0) -> exists st1 w l,
    (w ← process_adopt_ipc_window st (Some a) 0;
     match fr with
     | Some (w1, l1) => Some (if (w1 =? w) && negb (w =? 0) then with_mem st (<[hhdm_page (frames_of st) (w / 4096) := words_of l1]> (mem st)) else st)
     | None => Some st
     end) = Some st1 /\ space_inv st1 a R /\ vstep st R st1 R /\ space_window st a = Some (w, l) /\
    (forall u, user_addr u -> translation st1 (pml4 a) u = translation st (pml4 a) u) /\
    (forall t q, R !! t = Some (Data q) -> q ≠ WINDOW_PAGE -> mem st1 !! t = mem st !! t) /\
    exists l1, space_window st1 a = Some (w, l1) /\ (w ≠ 0 -> l1 = page_now fr w l)) as Hkeep.
  { intros w l Ea Ew Hno. exists st, w, l. rewrite Ea. cbn [mbind option_bind]. split.
    - destruct fr as [[w1 l1]|]; [|done]. destruct (Hno w1 l1 eq_refl) as [Hne| ->]; [by rewrite (proj2 (Z.eqb_neq _ _) Hne)|]. by rewrite andb_false_r.
    - split; [done|]. split; [apply vstep_refl|]. split; [done|]. split; [done|]. split; [done|]. exists l. split; [done|]. intros Hw.
      destruct fr as [[w1 l1]|]; [|done]. destruct (Hno w1 l1 eq_refl) as [Hne|?]; [|done]. cbn. by rewrite (proj2 (Z.eqb_neq _ _) Hne). }
  destruct (window_ok st a R C H0) as [(E1 & Ea & Ew)|(e & f & l & E1 & Ea & Ew & Hf & El & Wl & Eg & Hd)]; [apply (Hkeep 0 [] Ea Ew); by right|].
  destruct fr as [[w1 l1]|]; [|by apply (Hkeep _ _ Ea Ew)]. destruct (Z.eq_dec w1 (f * 4096)) as [->|Hne]; [|apply (Hkeep _ _ Ea Ew); intros w2 l2 [= -> ->]; by left].
  clear Hkeep. destruct (Hfr _ _ eq_refl) as [Ll HB]. destruct (words_of_bytes 512 l1) as (EB & L & F); [unfold zlen in Ll; lia|exact HB|].
  assert (table_words (words_of l1)) as W1 by (split; [unfold zlen; rewrite L; lia|done]). set (t := hhdm_page (frames_of st) f) in *.
  destruct (core_write st (pml4 a) R t _ (words_of l1) C Hd eq_refl W1) as [C1 V1]. set (st1 := with_mem st (<[t := words_of l1]> (mem st))) in *.
  assert (forall u, user_addr u -> translation st1 (pml4 a) u = translation st (pml4 a) u) as HT.
  { intros u Hu. apply (write_translation st (pml4 a) (own_of R)); [apply C| |done]. destruct (own_of R !! t) as [q|] eqn:Eo; [|done]. apply own_of_lookup in Eo. congruence. }
  exists st1, (f * 4096), (page_bytes l). rewrite Ea. cbn [mbind option_bind]. rewrite Z.eqb_refl, (proj2 (Z.eqb_neq (f * 4096) 0)), Z.div_mul by lia. cbn [andb negb].
  split; [done|]. destruct SI as [_ A2 A3 A4 A5 A6]. split; [by split|]. split; [done|]. split; [done|]. split; [done|]. split.
  - intros t' q Hq Hn. cbn. rewrite lookup_insert_ne; [done|]. intros <-. congruence.
  - destruct (window_ok st1 a R C1 H0) as [(E2 & _)|(e' & f' & l' & E2 & _ & Ew' & _ & El' & _ & Eg' & _)]; [rewrite HT in E2 by done; congruence|].
    rewrite HT in E2 by done. assert (e' = e) as -> by congruence. change (target st1 e) with (target st e) in Eg'.
    change (frames_of st1) with (frames_of st) in *. assert (f' = f) as -> by (unfold t, hhdm_page in *; lia). exists l1. split; [|by cbn; rewrite Z.eqb_refl].
    rewrite Ew'. cbn in El'. fold t in El'. rewrite lookup_insert_eq in El'. injection El' as <-. by rewrite EB.
Qed.

(** ** A step beside the kernel and beside a space *)

Lemma step_kernel st lk R st' R' :
  kernel_tables st lk -> R !! kernel_pml4 st = None -> R !! hhdm_page (frames_of st) 0 = None -> ~ pa_free (frames_of st) 0 -> vstep st R st' R' ->
  kernel_tables st' lk /\ R' !! kernel_pml4 st' = None /\ R' !! hhdm_page (frames_of st') 0 = None /\ ~ pa_free (frames_of st') 0.
Proof using PAL.
  intros (K1 & K2 & K3 & K4) Hk H0 Hz [HS HC HF [Ek _] ]. rewrite Ek, (hhdm_page_same _ _ 0 HS).
  destruct (HF _ Hk) as [Em Hk']; [intros f Ef Hf; by apply (K4 f Hf)|].
  destruct (HF _ H0) as [_ H0']; [intros f Ef Hf; unfold hhdm_page in Ef; by replace f with 0 in Hf by lia|].
  split; [|split; [done|split; [done|] ] ].
  - split; [by rewrite Ek, Em|]. rewrite Ek. split; [done|]. split; [done|]. intros f Hf. rewrite (hhdm_page_same _ _ f HS). intros Ef.
    destruct (proj1 (HC f) (or_introl Hf)) as [Hx|[x Hx] ]; [by apply (K4 f Hx)|congruence].
  - intros Hf. destruct (proj1 (HC 0) (or_introl Hf)) as [Hx|[x Hx] ]; [done|congruence].
Qed.

(** What a space keeps when pages of others change. *)
Definition space_kept st a R st' : Prop :=
  space_inv st' a R /\ (forall u, space_user st' a u = space_user st a u) /\ fst <$> space_window st' a = fst <$> space_window st a.

Lemma kept_by_step st a R Rx st' Ry :
  space_inv st a R -> R !! hhdm_page (frames_of st) 0 = None -> R ##ₘ Rx -> vstep st Rx st' Ry -> pa_ok (frames_of st') -> mem_total st' ->
  space_kept st a R st' /\ R ##ₘ Ry.
Proof using PAL.
  intros SI H0 HD V Hok M. destruct (space_isolated st a R Rx st' Ry SI HD V Hok M) as (SI' & HD' & Hm & HT). split; [|done].
  pose proof (sp_core _ _ _ SI) as C. split; [done|]. split.
  - apply (user_same st st' a R C (vs_same _ _ _ _ V) HT). intros t q Hq _. by eapply Hm.
  - by apply (window_same st st' a R C (sp_core _ _ _ SI') (vs_same _ _ _ _ V)).
Qed.

Lemma kept_trans st a R st1 st2 : space_kept st a R st1 -> space_kept st1 a R st2 -> space_kept st a R st2.
Proof using. intros (_ & A2 & A3) (B1 & B2 & B3). split; [done|]. split; [intros u; by rewrite B2|congruence]. Qed.

(** A new table over a state in which every old space is kept. *)
Lemma kept_spaces s st' t' :
  (forall b a, sv_table s !! b = Some a -> is_Some (t' !! b) -> t' !! b = Some a /\ exists R, space_kept (sv_mmu s) a R st') ->
  spaces_kept s (mk_spaces st' t').
Proof using.
  intros H b [a Ha] Hb. cbn [as_live vmm_address_spaces sv_table] in Hb. destruct (H b a Ha Hb) as (Et & R & _ & HU & HW).
  cbn [as_user as_window vmm_address_spaces sv_table sv_mmu]. rewrite Ha, Et. cbn [mbind option_bind]. done.
Qed.

(** ** Destruction *)

Lemma spaces_destroy s m :
  as_ok s -> as_live s m -> exists s', as_destroy s m = Some s' /\ as_ok s' /\ spaces_kept s s' /\ forall b, as_live s' b <-> as_live s b /\ b ≠ m.
Proof using PAL.
  intros (lk & Rs & [[Hok M] K Sp Ap Cl Z0]) [a Ha]. destruct (Sp m a Ha) as (Ep & Er & SI). destruct (Cl m a Ha) as [Ck C0].
  destruct (destroy_ok (sv_mmu s) a (Rs m) SI Er) as (st' & E & Hok' & Em & V). cbn [as_destroy vmm_address_spaces]. rewrite Ha. cbn [mbind option_bind].
  rewrite E. cbn [mbind option_bind]. eexists. split; [done|]. pose proof (exec_mem_total_same _ st' M (vs_same _ _ _ _ V) Em) as M'.
  assert (forall b x, sv_table s !! b = Some x -> b ≠ m -> space_kept (sv_mmu s) x (Rs b) st') as HK.
  { intros b x Hx Hne. destruct (Sp b x Hx) as (_ & _ & SIx). apply (kept_by_step _ _ _ (Rs m) _ ∅ SIx (proj2 (Cl b x Hx)) (Ap _ _ _ _ Hx Ha Hne) V Hok' M'). }
  destruct (step_kernel _ lk _ _ _ K Ck C0 Z0 V) as (K' & _ & _ & Z0'). pose proof (vs_same _ _ _ _ V) as HS. split; [|split].
  - exists lk, Rs. split; cbn [sv_mmu sv_table]; [done|done| | | |done].
    + intros b x [Hne Hx]%lookup_delete_Some. destruct (Sp b x Hx) as (? & ? & _). split; [done|]. split; [done|]. by apply (HK b x Hx).
    + intros b b' x x' [_ Hx]%lookup_delete_Some [_ Hx']%lookup_delete_Some. by apply (Ap b b' x x').
    + intros b x [_ Hx]%lookup_delete_Some. rewrite (hhdm_page_same _ _ 0 HS), (proj1 (vs_rest _ _ _ _ V)). by apply (Cl b x).
  - apply kept_spaces. intros b x Hx [y [Hne Hy]%lookup_delete_Some]. rewrite lookup_delete_ne by done. split; [done|]. exists (Rs b). by apply HK.
  - intros b. cbn [as_live vmm_address_spaces sv_table]. rewrite lookup_delete_is_Some. naive_solver.
Qed.

(** ** Cloning *)

(** The copy of a space looks like the space: page by page the same contents and protection. *)
Lemma copied_user st a R st' dst Rd u :
  core_inv st (pml4 a) R -> core_inv st' (pml4 dst) Rd -> (forall q, 0 <= q < space_pages -> page_copied st (pml4 a) st' (pml4 dst) q) ->
  space_user st' dst u = space_user st a u.
Proof using PAL.
  intros C C' HP. unfold space_user, user_byte. destruct (decide _) as [[Hu Hw]|]; [|done].
  specialize (HP (vpage u) ltac:(unfold user_addr, space_pages, vpage in *; divlia)). unfold page_copied in HP.
  rewrite (translation_page st' _ u), (translation_page st _ u). destruct (translation st (pml4 a) (vpage u * 4096)) as [e|] eqn:Et; [|by rewrite HP].
  destruct HP as (f & -> & Hm & Em). cbn [mbind option_bind]. pose proof (tr_alloc _ _ _ (ci_tree _ _ _ C')) as Hok. destruct (pa_frame_ok _ _ Hok Hm) as [Hf _].
  rewrite (leaf_target st' f _ Hok Hm (entry_flags_ok e)), Em. rewrite leaf_entry_flags; [done|done|]. by eapply translation_present.
Qed.

Lemma copied_window st a R st' dst Rd :
  core_inv st (pml4 a) R -> R !! hhdm_page (frames_of st) 0 = None -> core_inv st' (pml4 dst) Rd -> Rd !! hhdm_page (frames_of st') 0 = None ->
  page_copied st (pml4 a) st' (pml4 dst) WINDOW_PAGE ->
  exists w l w' l', space_window st a = Some (w, l) /\ space_window st' dst = Some (w', l') /\ (w = 0 <-> w' = 0) /\ (w ≠ 0 -> l' = l) /\
    (w' ≠ 0 -> exists f, w' = f * 4096 /\ is_Some (Rd !! hhdm_page (frames_of st') f)).
Proof using PAL.
  intros C H0 C' H0' HP. unfold page_copied in HP. change (WINDOW_PAGE * 4096) with OCEAN_IPC_WINDOW_VA in HP.
  destruct (window_ok st a R C H0) as [(E1 & _ & ->)|(e & f & l & E1 & _ & -> & Hf & El & _ & Eg & _)];
    destruct (window_ok st' dst Rd C' H0') as [(E2 & _ & ->)|(e' & f' & l' & E2 & _ & -> & Hf' & El' & _ & Eg' & Hd')]; rewrite E1 in HP.
  - exists 0, [], 0, []. done.
  - congruence.
  - destruct HP as (g & Eq & _). congruence.
  - destruct HP as (g & Eq & Hm & Em). exists (f * 4096), (page_bytes l), (f' * 4096), (page_bytes l'). split; [done|]. split; [done|]. split; [lia|].
    rewrite E2 in Eq. injection Eq as ->. rewrite (leaf_target st' g _ (tr_alloc _ _ _ (ci_tree _ _ _ C')) Hm (entry_flags_ok e)) in Eg'.
    split; [intros _; f_equal; rewrite Eg' in Em; congruence|]. intros _. exists f'. split; [done|]. by rewrite Hd'.
Qed.

(** A window is a page that its space owns. *)
Lemma window_owned st a R w l f :
  core_inv st (pml4 a) R -> R !! hhdm_page (frames_of st) 0 = None -> space_window st a = Some (w, l) -> w = f * 4096 -> w ≠ 0 -> is_Some (R !! hhdm_page (frames_of st) f).
Proof using PAL.
  intros C H0 Ew -> Hw. destruct (window_ok st a R C H0) as [(_ & _ & E)|(e & g & l' & _ & _ & E & _ & _ & _ & _ & Hd)]; rewrite E in Ew; injection Ew as E1 E2; [lia|].
  replace f with g by lia. by rewrite Hd.
Qed.

Lemma spaces_clone s fr m :
  as_ok s -> as_live s m -> (forall w l, fr = Some (w, l) -> page_of_bytes l) ->
  exists r s', as_clone s fr m = Some (r, s') /\ as_ok s' /\ spaces_kept s s' /\
    ((r = 0 /\ forall b, as_live s' b <-> as_live s b) \/
     (r ≠ 0 /\ ~ as_live s r /\ (forall b, as_live s' b <-> as_live s b \/ b = r) /\ copy_of s fr m s' r)).
Proof using PAL.
  intros (lk & Rs & [[Hok M] K Sp Ap Cl Z0]) [a Ha] Hfr. destruct (Sp m a Ha) as (Ep & Er & SI). destruct (Cl m a Ha) as [Ck C0]. set (st := sv_mmu s) in *.
  destruct (written_ok st a (Rs m) fr SI C0 Hfr) as (st1 & w & l & E1 & SI1 & V1 & Ew & HT1 & HM1 & l1 & Ew1 & El1).
  pose proof (sp_core _ _ _ SI1) as C1. pose proof (tr_alloc _ _ _ (ci_tree _ _ _ C1)) as Hok1. pose proof (ci_mem _ _ _ C1) as M1.
  destruct (step_kernel _ lk _ _ _ K Ck C0 Z0 V1) as (K1 & Ck1 & C01 & Z01).
  destruct (clone_ok st1 a (Rs m) lk SI1 K1) as (r & st2 & E2 & SI2 & Hm2 & HT2 & D).
  pose proof (sp_core _ _ _ SI2) as C2. pose proof (tr_alloc _ _ _ (ci_tree _ _ _ C2)) as Hok2. pose proof (ci_mem _ _ _ C2) as M2.
  assert (exists Rd, vstep st1 ∅ st2 Rd /\ match r with Some dst => space_inv st2 dst Rd /\ Rs m ##ₘ Rd /\ ref_count dst = 1 /\
    (forall q, 0 <= q < space_pages -> page_copied st1 (pml4 a) st2 (pml4 dst) q) | None => True end) as (Rd & V2 & D2).
  { destruct r as [dst|]; [destruct D as (Rd & ? & ? & ? & _ & ? & _ & ?); by exists Rd|]. destruct D as (R' & V & _). by exists R'. }
  clear D. destruct (step_kernel st1 lk ∅ st2 Rd K1 (lookup_empty _) (lookup_empty _) Z01 V2) as (K2 & Ckd & C0d & Z02).
  pose proof (vs_same _ _ _ _ V1) as HS1. pose proof (vs_same _ _ _ _ V2) as HS2.
  assert (forall b x, sv_table s !! b = Some x -> space_kept st x (Rs b) st2 /\ Rs b ##ₘ Rd) as HK.
  { intros b x Hx. destruct (Sp b x Hx) as (_ & _ & SIx). assert (space_kept st x (Rs b) st1) as HK1.
    { destruct (decide (b = m)) as [->|Hne]; [|by apply (kept_by_step st x (Rs b) (Rs m) st1 (Rs m) SIx (proj2 (Cl b x Hx)) (Ap _ _ _ _ Hx Ha Hne) V1)].
      assert (x = a) as -> by congruence. split; [done|]. split; [by apply (user_same st st1 a (Rs m) (sp_core _ _ _ SI) HS1)|]. rewrite Ew, Ew1. done. }
    destruct HK1 as (SIx1 & HU & HW). destruct (kept_by_step st1 x (Rs b) ∅ st2 Rd SIx1) as [HK2 HD]; [|apply map_disjoint_empty_r|done|done|done|].
    { rewrite (hhdm_page_same _ _ 0 HS1). by apply (Cl b x). }
    split; [|done]. eapply kept_trans; [|exact HK2]. done. }
  assert (forall b x, sv_table s !! b = Some x -> Rs b !! kernel_pml4 st2 = None /\ Rs b !! hhdm_page (frames_of st2) 0 = None) as HC.
  { intros b x Hx. rewrite (proj1 (vs_rest _ _ _ _ V2)), (proj1 (vs_rest _ _ _ _ V1)), (hhdm_page_same _ _ 0 HS2), (hhdm_page_same _ _ 0 HS1). by apply (Cl b x). }
  cbn [as_clone vmm_address_spaces]. rewrite Ha. cbn [mbind option_bind]. fold st. rewrite E1. cbn [mbind option_bind]. rewrite E2. cbn [mbind option_bind]. destruct r as [dst|].
  - destruct D2 as (SId & HD & Erd & HP). pose proof (sp_core _ _ _ SId) as Cd. set (d := as_ptr dst). eexists d, _. split; [done|].
    assert (Rd !! d = Some Struct) as Hd by (apply (sp_structs _ _ _ SId); by left).
    assert (sv_table s !! d = None) as Hnew.
    { destruct (sv_table s !! d) as [x|] eqn:Hx; [|done]. destruct (Sp d x Hx) as (Epx & _ & SIx). destruct (HK d x Hx) as [_ HDx].
      assert (Rs d !! d = Some Struct) as Hs by (apply (sp_structs _ _ _ SIx); rewrite <- Epx at 1; by left).
      by destruct (proj1 (map_disjoint_spec _ _) HDx d Struct Struct). }
    split; [|split; [|right] ].
    + exists lk, (fun b => if decide (b = d) then Rd else Rs b). split; cbn [sv_mmu sv_table]; [done|done| | | |done].
      * intros b x [[<- <-]|[Hne Hx] ]%lookup_insert_Some; [by rewrite decide_True|]. rewrite decide_False by done. destruct (Sp b x Hx) as (? & ? & _).
        split; [done|]. split; [done|]. by apply (HK b x Hx).
      * intros b b' x x' [[<- <-]|[Hne Hx] ]%lookup_insert_Some [[<- <-]|[Hne' Hx'] ]%lookup_insert_Some Hbb; [done|..].
        -- rewrite decide_True, decide_False by done. symmetry. by apply (HK b' x' Hx').
        -- rewrite decide_False, decide_True by done. by apply (HK b x Hx).
        -- rewrite !decide_False by done. by apply (Ap b b' x x').
      * intros b x [[<- <-]|[Hne Hx] ]%lookup_insert_Some; [by rewrite decide_True|]. rewrite decide_False by done. by apply (HC b x).
    + apply kept_spaces. intros b x Hx _. split; [rewrite lookup_insert_ne; [done|]; intros <-; congruence|]. exists (Rs b). by apply HK.
    + assert (d ≠ 0) as Hd0.
      { destruct (ci_held _ _ _ Cd d _ Hd) as (f & Ef & Hm & _). destruct (pa_hhdm_ok _ Hok2) as (? & _). destruct (pa_frame_ok _ _ Hok2 Hm). unfold hhdm_page in Ef. lia. }
      split; [done|]. split; [cbn; rewrite Hnew; by intros []|]. split.
      { intros b. cbn [as_live vmm_address_spaces sv_table]. rewrite lookup_insert_is_Some'. split; [intros [->|?]; [by right|by left]|intros [?| ->]; [by right|by left] ]. }
      split.
      * intros u. cbn [as_user vmm_address_spaces sv_table sv_mmu]. rewrite lookup_insert_eq, Ha. cbn [mbind option_bind]. fold st.
        rewrite (copied_user st1 a (Rs m) st2 dst Rd u C1 Cd HP). apply (user_same st st1 a (Rs m) (sp_core _ _ _ SI) HS1 HT1 HM1).
      * destruct (copied_window st1 a (Rs m) st2 dst Rd C1 C01 Cd C0d (HP WINDOW_PAGE ltac:(by split))) as (w1 & l1' & w' & l' & Ea & Ed & Hw & Hl & Hown).
        rewrite Ew1 in Ea. injection Ea as <- <-. exists w, l, w', l'. cbn [as_window vmm_address_spaces sv_table sv_mmu]. rewrite lookup_insert_eq, Ha. cbn [mbind option_bind]. fold st.
        split; [done|]. split; [done|]. split; [done|]. split; [intros Hw0; rewrite Hl by done; by apply El1|].
        intros Hw' b [x Hx] Eb. rewrite Hx in Eb. cbn [mbind option_bind] in Eb. fold st in Eb. destruct (HK b x Hx) as [(SIx & _ & HWx) HDx]. rewrite <- HWx in Eb.
        destruct (space_window st2 x) as [[wx lx]|] eqn:Ex; [|done]. cbn in Eb. injection Eb as ->. destruct (Hown Hw') as (f & Ef & y & Hy).
        destruct (window_owned st2 x (Rs b) w' lx f (sp_core _ _ _ SIx) (proj2 (HC b x Hx)) Ex Ef Hw') as [z Hz]. by apply (proj1 (map_disjoint_spec _ _) HDx _ _ _ Hz Hy).
  - exists 0, (mk_spaces st2 (sv_table s)). split; [done|]. split; [|split; [|left; done] ].
    + exists lk, Rs. split; cbn [sv_mmu sv_table]; [done|done| |done|done|done]. intros b x Hx. destruct (Sp b x Hx) as (? & ? & _).
      split; [done|]. split; [done|]. by apply (HK b x Hx).
    + apply kept_spaces. intros b x Hx _. split; [done|]. exists (Rs b). by apply HK.
Qed.

(** The laws that the process code relies on hold of the code of vmm.c and ipc_window.c. *)
#[export] Instance vmm_address_spaces_laws : AddressSpacesLaws vm_spaces.
Proof using PAL.
  split; [exact spaces_clone|exact spaces_destroy|]. intros s m (lk & Rs & [_ _ Sp _ Cl _]) [a Ha]. destruct (Sp m a Ha) as (_ & _ & SI).
  destruct (window_ok (sv_mmu s) a (Rs m) (sp_core _ _ _ SI) (proj2 (Cl m a Ha))) as [(_ & _ & E)|(e & f & l & _ & _ & E & _ & _ & [Ll _] & _)];
    (eexists _, _; cbn [as_window vmm_address_spaces]; rewrite Ha; cbn [mbind option_bind]; split; [exact E|]; intros Hw); [done|].
  split; [rewrite page_bytes_length, Ll; done|apply Z.mod_mul; lia].
Qed.

End spaces.

(** ** A machine with one such address space: the second of the examples, since the first has the page
    frame 0 *)

#[local] Opaque ex_create ex_as ex_st ex_create2 ex_as2 ex_st2 ex_kernel.

Definition ex_spaces : vm_spaces (S := pmm_state) := mk_spaces ex_st2 {[as_ptr ex_as2 := ex_as2]}.

Lemma ex_spaces_ok : as_ok ex_spaces /\ as_live ex_spaces (as_ptr ex_as2).
Proof.
  split; [|cbn; by rewrite lookup_singleton_eq]. pose proof (sp_core _ _ _ ex_inv) as C.
  destruct (created_space ex_st ex_st2 ex_kernel ex_as2 (tr_alloc _ _ _ (ci_tree _ _ _ C)) ex_st_kernel (ci_mem _ _ _ C) ex_create2_eq) as (SI2 & _ & Er & V).
  pose proof (sp_core _ _ _ SI2) as C2. assert (as_ptr ex_as = hhdm_page (frames_of ex_st) 0) as Ep by (vm_compute; reflexivity).
  assert (ex_R !! as_ptr ex_as = Some Struct) as H0 by (apply (sp_structs _ _ _ ex_inv); by left).
  assert (~ pa_free (frames_of ex_st) 0) as Hz.
  { destruct (ci_held _ _ _ C _ _ H0) as (f & Ef & _ & Hf). rewrite Ep in Ef. unfold hhdm_page in Ef. by replace f with 0 in Hf by lia. }
  destruct (step_kernel ex_st ex_kernel ∅ ex_st2 _ ex_st_kernel (lookup_empty _) (lookup_empty _) Hz V) as (K & Hk & H0' & Hz').
  exists ex_kernel, (fun _ => ex_R2). split; cbn [sv_mmu sv_table ex_spaces].
  - split; [apply C2|apply C2].
  - exact K.
  - intros m a [<- <-]%lookup_singleton_Some. split; [exact eq_refl|]. split; [exact Er|exact SI2].
  - intros m m' a a' [<- _]%lookup_singleton_Some [<- _]%lookup_singleton_Some Hne. destruct (Hne eq_refl).
  - intros m a _. split; [exact Hk|exact H0'].
  - exact Hz'.
Qed.
