(* ===== verification/Ext2.v ===== *)
(** * ext2 driver (fs/ext2/main.c)

    The read-only ext2 driver: inodes, the block map with its indirect blocks, file data,
    directory look-up and path resolution.  read_block is a stub in the source (it clears the
    buffer); the driver is modelled over an interface of the blocks it reads, of which the stub
    is an instance.

    All functions share the one block buffer, and the table of group descriptors points into it.
    A read or write outside the buffer, a division by zero and the use of an uninitialised
    variable are [Fault]; [Fuel] is a loop that needs more rounds than it was given. *)
From S2P Require Import Prelude Defs Server PageBytes Elf.

(** ** Results *)

Inductive run (A : Type) := Ret (x : A) | Fault | Fuel.
Arguments Ret {A} x.
Arguments Fault {A}.
Arguments Fuel {A}.

#[export] Instance run_bind : MBind run :=
  fun A B f r => match r with Ret x => f x | Fault => Fault | Fuel => Fuel end.
Definition lift {A} (o : option A) : run A := match o with Some x => Ret x | None => Fault end.

(** ** Data *)

Definition EXT2_MAGIC : Z := 0xEF53.
Definition EXT2_ROOT_INODE : Z := 2.
Definition EXT2_S_IFDIR : Z := 0x4000.
Definition EXT2_S_IFMT : Z := 0xF000.
Definition EXT2_FT_REG_FILE : Z := 1.
Definition EXT2_FT_DIR : Z := 2.
Definition EXT2_FT_CHRDEV : Z := 3.
Definition EXT2_FT_BLKDEV : Z := 4.
Definition EXT2_FT_SYMLINK : Z := 7.

Record ext2_superblock := mk_superblock {
  s_inodes_count : Z; s_blocks_count : Z; s_r_blocks_count : Z; s_free_blocks_count : Z; s_free_inodes_count : Z;
  s_first_data_block : Z; s_log_block_size : Z; s_log_frag_size : Z; s_blocks_per_group : Z; s_frags_per_group : Z;
  s_inodes_per_group : Z; s_mtime : Z; s_wtime : Z; s_mnt_count : Z; s_max_mnt_count : Z; s_magic : Z; s_state : Z;
  s_errors : Z; s_minor_rev_level : Z; s_lastcheck : Z; s_checkinterval : Z; s_creator_os : Z; s_rev_level : Z;
  s_def_resuid : Z; s_def_resgid : Z; s_first_ino : Z; s_inode_size : Z; s_block_group_nr : Z; s_feature_compat : Z;
  s_feature_incompat : Z; s_feature_ro_compat : Z; s_uuid : list Z; s_volume_name : list Z; s_last_mounted : list Z;
  s_algo_bitmap : Z; s_prealloc_blocks : Z; s_prealloc_dir_blocks : Z; s_padding1 : Z; s_journal_uuid : list Z;
  s_journal_inum : Z; s_journal_dev : Z; s_last_orphan : Z
}.

Record ext2_inode := mk_ext2_inode {
  i_mode : Z; i_uid : Z; i_size : Z; i_atime : Z; i_ctime : Z; i_mtime : Z; i_dtime : Z; i_gid : Z; i_links_count : Z;
  i_blocks : Z; i_flags : Z; i_osd1 : Z; i_block : list Z; i_generation : Z; i_file_acl : Z; i_dir_acl : Z; i_faddr : Z;
  i_osd2 : list Z
}.

Definition SIZEOF_GROUP_DESC : Z := 32.

(** [groups] is the offset in the block buffer that it points to. *)
Record ext2_fs := mk_ext2 {
  block_size : Z;
  inodes_per_group : Z;
  blocks_per_group : Z;
  inode_size : Z;
  group_count : Z;
  first_data_block : Z;
  dev_id : Z;
  sb : ext2_superblock;
  groups : option Z;
  block_buffer : list Z;
  mounted : bool;
  blocks_read : Z;
  inodes_read : Z;
  dir_lookups : Z
}.

Definition with_buffer (l : list Z) (fs : ext2_fs) : ext2_fs :=
  mk_ext2 (block_size fs) (inodes_per_group fs) (blocks_per_group fs) (inode_size fs) (group_count fs) (first_data_block fs)
    (dev_id fs) (sb fs) (groups fs) l (mounted fs) (blocks_read fs) (inodes_read fs) (dir_lookups fs).
Definition count_ext2 (b i d : Z) (fs : ext2_fs) : ext2_fs :=
  mk_ext2 (block_size fs) (inodes_per_group fs) (blocks_per_group fs) (inode_size fs) (group_count fs) (first_data_block fs)
    (dev_id fs) (sb fs) (groups fs) (block_buffer fs) (mounted fs) (u64 (blocks_read fs + b)) (u64 (inodes_read fs + i))
    (u64 (dir_lookups fs + d)).

(** The fields of an inode in memory. *)
Definition inode_words (l : list Z) (off : Z) : option (list Z) := mapM (fun k => field l (off + 4 * k) 4) (seqZ 0 15).
Definition inode_at (l : list Z) (o : Z) : option ext2_inode :=
  mode ← field l o 2; uid ← field l (o + 2) 2; size ← field l (o + 4) 4; atime ← field l (o + 8) 4; ctime ← field l (o + 12) 4;
  mtime ← field l (o + 16) 4; dtime ← field l (o + 20) 4; gid ← field l (o + 24) 2; links ← field l (o + 26) 2;
  blocks ← field l (o + 28) 4; flags ← field l (o + 32) 4; osd1 ← field l (o + 36) 4; blk ← inode_words l (o + 40);
  gen ← field l (o + 100) 4; facl ← field l (o + 104) 4; dacl ← field l (o + 108) 4; faddr ← field l (o + 112) 4;
  osd2 ← read l (o + 116) 12;
  Some (mk_ext2_inode mode uid size atime ctime mtime dtime gid links blocks flags osd1 blk gen facl dacl faddr osd2).

(** ** The blocks of the device *)

(** The bytes of a block, as many as the block size given. *)
Class BlockSource := {
  block_bytes : Z -> Z -> list Z;
  block_bytes_len : forall bs b, 0 <= bs -> zlen (block_bytes bs b) = bs;
  block_bytes_ok : forall bs b, bytes (block_bytes bs b)
}.

(** The stub: [memset(buffer, 0, ext2.block_size)]. *)
#[export] Program Instance zero_blocks : BlockSource := {| block_bytes bs _ := replicate (Z.to_nat bs) 0 |}.
Next Obligation. intros bs b H. cbn. rewrite zlen_replicate. lia. Qed.
Next Obligation. intros bs b. cbn. apply Forall_replicate. lia. Qed.

Section Driver.
Context `{BlockSource}.

(** ** The code *)

(** The bytes put in place of those from [off] on. *)
Definition overwrite (l : list Z) (off : Z) (bs : list Z) : run (list Z) :=
  if (0 <=? off) && (off + zlen bs <=? zlen l)
  then Ret (take (Z.to_nat off) l ++ bs ++ drop (Z.to_nat (off + zlen bs)) l) else Fault.

(** read_block into the block buffer. *)
Definition read_block (block_num : Z) (fs : ext2_fs) : run (Z * ext2_fs) :=
  l ← overwrite (block_buffer fs) 0 (block_bytes (block_size fs) block_num);
  Ret (E_OK, count_ext2 1 0 0 (with_buffer l fs)).

(** Blocks one after the other into the caller's buffer. *)
Fixpoint read_blocks_loop (n : nat) (i start_block : Z) (buffer : list Z) (buf : Z) (fs : ext2_fs) : run (Z * list Z * ext2_fs) :=
  match n with
  | O => Ret (E_OK, buffer, fs)
  | S n =>
      buffer ← overwrite buffer buf (block_bytes (block_size fs) (u32 (start_block + i)));
      read_blocks_loop n (i + 1) start_block buffer (buf + block_size fs) (count_ext2 1 0 0 fs)
  end.
Definition read_blocks (start_block count : Z) (buffer : list Z) (fs : ext2_fs) : run (Z * list Z * ext2_fs) :=
  read_blocks_loop (Z.to_nat count) 0 start_block buffer 0 fs.

(** Division by zero has no result. *)
Definition udiv (x y : Z) : run Z := if y =? 0 then Fault else Ret (x / y).
Definition umod (x y : Z) : run Z := if y =? 0 then Fault else Ret (x mod y).

(** [ext2.groups[group].bg_inode_table] *)
Definition bg_inode_table (fs : ext2_fs) (group : Z) : run Z :=
  match groups fs with
  | Some off => lift (field (block_buffer fs) (off + SIZEOF_GROUP_DESC * group + 8) 4)
  | None => Fault
  end.

(** The status and, on success, the inode. *)
Definition read_inode (inode_num : Z) (fs : ext2_fs) : run (Z * option ext2_inode * ext2_fs) :=
  if (inode_num =? 0) || (s_inodes_count (sb fs) <? inode_num) then Ret (E_INVAL, None, fs) else
  group ← udiv (inode_num - 1) (inodes_per_group fs);
  index ← umod (inode_num - 1) (inodes_per_group fs);
  inode_table ← bg_inode_table fs group;
  inodes_per_block ← udiv (block_size fs) (inode_size fs);
  q ← udiv index inodes_per_block;
  r ← umod index inodes_per_block;
  let block := u32 (inode_table + q) in
  let offset := u32 (r * inode_size fs) in
  '(err, fs) ← read_block block fs;
  if negb (err =? E_OK) then Ret (err, None, fs) else
  inode ← lift (inode_at (block_buffer fs) offset);
  Ret (E_OK, Some inode, count_ext2 0 1 0 fs).

(** [((uint32_t * )ext2.block_buffer)[i]] *)
Definition buffer_word (fs : ext2_fs) (i : Z) : run Z := lift (field (block_buffer fs) (4 * i) 4).

Definition get_data_block (inode : ext2_inode) (block_index : Z) (fs : ext2_fs) : run (Z * ext2_fs) :=
  let ptrs_per_block := block_size fs / 4 in
  if block_index <? 12 then b ← lift (zget (i_block inode) block_index); Ret (b, fs) else
  let block_index := u32 (block_index - 12) in
  if block_index <? ptrs_per_block then
    b ← lift (zget (i_block inode) 12);
    if b =? 0 then Ret (0, fs) else
    '(_, fs) ← read_block b fs;
    w ← buffer_word fs block_index; Ret (w, fs)
  else
  let block_index := u32 (block_index - ptrs_per_block) in
  if block_index <? u32 (ptrs_per_block * ptrs_per_block) then
    b ← lift (zget (i_block inode) 13);
    if b =? 0 then Ret (0, fs) else
    '(_, fs) ← read_block b fs;
    q ← udiv block_index ptrs_per_block;
    indirect ← buffer_word fs q;
    if indirect =? 0 then Ret (0, fs) else
    '(_, fs) ← read_block indirect fs;
    r ← umod block_index ptrs_per_block;
    w ← buffer_word fs r; Ret (w, fs)
  else
  b ← lift (zget (i_block inode) 14);
  Ret (0, fs).

(** The block with the given number in the buffer; block 0 is a hole and reads as zeros. *)
Definition load_or_zero (block_num : Z) (fs : ext2_fs) : run (Z * ext2_fs) :=
  if block_num =? 0 then
    l ← overwrite (block_buffer fs) 0 (replicate (Z.to_nat (block_size fs)) 0); Ret (E_OK, with_buffer l fs)
  else read_block block_num fs.

(** The loop of read_file_data: [out] is what was written to the caller's buffer so far. *)
Fixpoint read_file_loop (fuel : nat) (inode : ext2_inode) (offset size : Z) (out : list Z) (fs : ext2_fs)
    : run (Z * list Z * ext2_fs) :=
  if size =? 0 then Ret (E_OK, out, fs) else
  match fuel with
  | O => Fuel
  | S fuel =>
      block_index ← udiv offset (block_size fs);
      block_offset ← umod offset (block_size fs);
      '(block_num, fs) ← get_data_block inode (u32 block_index) fs;
      '(err, fs) ← load_or_zero block_num fs;
      if negb (err =? E_OK) then Ret (err, out, fs) else
      let chunk := u32 (block_size fs - block_offset) in
      let chunk := if size <? chunk then size else chunk in
      bs ← lift (read (block_buffer fs) block_offset chunk);
      read_file_loop fuel inode (u64 (offset + chunk)) (size - chunk) (out ++ bs) fs
  end.

(** The bytes written to the caller's buffer; their number is what is stored through [bytes_read]. *)
Definition read_file_data (fuel : nat) (inode : ext2_inode) (offset size : Z) (fs : ext2_fs) : run (Z * list Z * ext2_fs) :=
  if i_size inode <=? offset then Ret (E_OK, [], fs) else
  let size := if i_size inode <? u64 (offset + size) then u64 (i_size inode - offset) else size in
  read_file_loop fuel inode offset size [] fs.

(** ** Directories *)

(** [memcmp] of the bytes at [off] with a name. *)
Fixpoint same_bytes (l : list Z) (off : Z) (name : list Z) : option bool :=
  match name with
  | [] => Some true
  | c :: name => b ← zget l off; if b =? c then same_bytes l (off + 1) name else Some false
  end.

(** [entry->inode != 0 && entry->name_len == name_len && memcmp(...) == 0] *)
Definition entry_matches (l : list Z) (off : Z) (name : list Z) : option bool :=
  ino ← field l off 4;
  if ino =? 0 then Some false else
  nl ← field l (off + 6) 1;
  if negb (nl =? zlen name) then Some false else same_bytes l (off + 8) name.

(** The inner loop over the entries of the block in the buffer: the inode found, or the offset
    reached. *)
Fixpoint scan_block (fuel : nat) (name : list Z) (block_offset offset : Z) (fs : ext2_fs) : run (Z + Z) :=
  if block_size fs <=? block_offset then Ret (inr offset) else
  match fuel with
  | O => Fuel
  | S fuel =>
      rec_len ← lift (field (block_buffer fs) (block_offset + 4) 2);
      if rec_len =? 0 then Ret (inr offset) else
      found ← lift (entry_matches (block_buffer fs) block_offset name);
      if (found : bool) then ino ← lift (field (block_buffer fs) block_offset 4); Ret (inl ino) else
      scan_block fuel name (u32 (block_offset + rec_len)) (u32 (offset + rec_len)) fs
  end.

Fixpoint dir_lookup_loop (fuel : nat) (dir : ext2_inode) (name : list Z) (offset : Z) (fs : ext2_fs)
    : run (Z * option Z * ext2_fs) :=
  if i_size dir <=? offset then Ret (E_NOENT, None, fs) else
  match fuel with
  | O => Fuel
  | S n =>
      block_index ← udiv offset (block_size fs);
      block_offset ← umod offset (block_size fs);
      '(block_num, fs) ← get_data_block dir block_index fs;
      if block_num =? 0 then dir_lookup_loop n dir name (u32 (offset + block_size fs)) fs else
      '(err, fs) ← read_block block_num fs;
      if negb (err =? E_OK) then Ret (err, None, fs) else
      res ← scan_block fuel name block_offset offset fs;
      match res with
      | inl ino => Ret (E_OK, Some ino, fs)
      | inr offset => dir_lookup_loop n dir name offset fs
      end
  end.

Definition dir_lookup (fuel : nat) (dir : ext2_inode) (name : list Z) (fs : ext2_fs) : run (Z * option Z * ext2_fs) :=
  let fs := count_ext2 0 0 1 fs in
  if negb (Z.land (i_mode dir) EXT2_S_IFMT =? EXT2_S_IFDIR) then Ret (E_INVAL, None, fs) else
  dir_lookup_loop fuel dir name 0 fs.

Fixpoint skip_slashes (path : list Z) : list Z :=
  match path with c :: r => if c =? 47 then skip_slashes r else path | [] => [] end.

(** [while ( *path && *path != '/' && i < 255) component[i++] = *path++;] *)
Fixpoint component (n : nat) (path : list Z) : list Z * list Z :=
  match n, path with
  | S n, c :: r => if c =? 47 then ([], path) else let '(a, b) := component n r in (c :: a, b)
  | _, _ => ([], path)
  end.

(** [n] bounds the rounds of the loop over the path, [fuel] those of each look-up. *)
Fixpoint resolve_loop (n fuel : nat) (current_inode : Z) (path : list Z) (fs : ext2_fs) : run (Z * option Z * ext2_fs) :=
  match path with
  | [] => Ret (E_OK, Some current_inode, fs)
  | _ =>
    match n with
    | O => Fuel
    | S n =>
        let path := skip_slashes path in
        match path with
        | [] => Ret (E_OK, Some current_inode, fs)
        | _ =>
          let '(comp, path) := component 255 path in
          '(err, inode, fs) ← read_inode current_inode fs;
          if negb (err =? E_OK) then Ret (err, None, fs) else
          inode ← lift inode;
          '(err, found, fs) ← dir_lookup fuel inode comp fs;
          if negb (err =? E_OK) then Ret (err, None, fs) else
          ino ← lift found;
          resolve_loop n fuel ino path fs
        end
    end
  end.

Definition resolve_path (fuel : nat) (path : option (list Z)) (fs : ext2_fs) : run (Z * option Z * ext2_fs) :=
  match path with
  | Some (c :: path) => if c =? 47 then resolve_loop (S (length path)) fuel EXT2_ROOT_INODE path fs else Ret (E_INVAL, None, fs)
  | _ => Ret (E_INVAL, None, fs)
  end.

(** A line that list_directory prints: inode number, size, type, name. *)
Inductive file_kind := KFile | KDir | KLink | KChr | KBlk | KUnknown.
Definition kind_of (file_type : Z) : file_kind :=
  if file_type =? EXT2_FT_REG_FILE then KFile else if file_type =? EXT2_FT_DIR then KDir else if file_type =? EXT2_FT_SYMLINK then KLink
  else if file_type =? EXT2_FT_CHRDEV then KChr else if file_type =? EXT2_FT_BLKDEV then KBlk else KUnknown.
Definition listing : Type := list (Z * Z * file_kind * list Z).

(** The inner loop of list_directory.  The entry is read again from the buffer after read_inode
    has read another block into it; the size printed is uninitialised when read_inode fails. *)
Fixpoint list_block (fuel : nat) (block_offset offset : Z) (out : listing) (fs : ext2_fs) : run (Z * listing * ext2_fs) :=
  if block_size fs <=? block_offset then Ret (offset, out, fs) else
  match fuel with
  | O => Fuel
  | S fuel =>
      rec_len ← lift (field (block_buffer fs) (block_offset + 4) 2);
      if rec_len =? 0 then Ret (offset, out, fs) else
      ino ← lift (field (block_buffer fs) block_offset 4);
      '(out, fs) ←
        (if ino =? 0 then Ret (out, fs) else
         nl ← lift (field (block_buffer fs) (block_offset + 6) 1);
         name ← lift (read (block_buffer fs) (block_offset + 8) nl);
         ft ← lift (field (block_buffer fs) (block_offset + 7) 1);
         '(_, file_inode, fs) ← read_inode ino fs;
         shown ← lift (field (block_buffer fs) block_offset 4);
         file_inode ← lift file_inode;
         Ret (out ++ [(shown, i_size file_inode, kind_of ft, name)], fs));
      rec_len ← lift (field (block_buffer fs) (block_offset + 4) 2);
      list_block fuel (u32 (block_offset + rec_len)) (u32 (offset + rec_len)) out fs
  end.

Fixpoint list_directory_loop (fuel : nat) (dir : ext2_inode) (offset : Z) (out : listing) (fs : ext2_fs) : run (Z * listing * ext2_fs) :=
  if i_size dir <=? offset then Ret (E_OK, out, fs) else
  match fuel with
  | O => Fuel
  | S n =>
      block_index ← udiv offset (block_size fs);
      block_offset ← umod offset (block_size fs);
      '(block_num, fs) ← get_data_block dir block_index fs;
      if block_num =? 0 then list_directory_loop n dir (u32 (offset + block_size fs)) out fs else
      '(_, fs) ← read_block block_num fs;
      '(offset, out, fs) ← list_block fuel block_offset offset out fs;
      list_directory_loop n dir offset out fs
  end.

Definition list_directory (fuel : nat) (dir : ext2_inode) (fs : ext2_fs) : run (Z * listing * ext2_fs) :=
  if negb (Z.land (i_mode dir) EXT2_S_IFMT =? EXT2_S_IFDIR) then Ret (E_INVAL, [], fs) else
  list_directory_loop fuel dir 0 [] fs.

End Driver.

(** ** Mounting *)

Definition zero_superblock : ext2_superblock :=
  mk_superblock 0 0 0 0 0 0 0 0 0 0 0 0 0 0 0 0 0 0 0 0 0 0 0 0 0 0 0 0 0 0 0 (replicate 16 0) (replicate 16 0) (replicate 64 0)
    0 0 0 0 (replicate 16 0) 0 0 0.

(** "ocean-root" *)
Definition volume_name : list Z := [111; 99; 101; 97; 110; 45; 114; 111; 111; 116].

(** The superblock that ext2_mount makes up. *)
Definition fake_superblock : ext2_superblock :=
  mk_superblock 1024 8192 0 0 0 1 0 0 8192 0 1024 0 0 0 0 EXT2_MAGIC 0 0 0 0 0 0 1 0 0 0 128 0 0 0 0 (replicate 16 0)
    (strncpy_field (replicate 16 0) volume_name 15) (replicate 64 0) 0 0 0 0 (replicate 16 0) 0 0 0.

Definition ext2_mount (dev : Z) (fs : ext2_fs) : run (Z * ext2_fs) :=
  let sb := fake_superblock in
  if negb (s_magic sb =? EXT2_MAGIC) then
    Ret (E_INVAL, mk_ext2 (block_size fs) (inodes_per_group fs) (blocks_per_group fs) (inode_size fs) (group_count fs)
      (first_data_block fs) dev sb (groups fs) (block_buffer fs) (mounted fs) (blocks_read fs) (inodes_read fs) (dir_lookups fs))
  else
  let bs := u32 (Z.shiftl 1024 (s_log_block_size sb)) in
  let isz := if 1 <=? s_rev_level sb then s_inode_size sb else 128 in
  gc ← udiv (u32 (s_blocks_count sb + s_blocks_per_group sb - 1)) (s_blocks_per_group sb);
  l ← overwrite (block_buffer fs) 0 (replicate (Z.to_nat SIZEOF_GROUP_DESC) 0);
  l ← overwrite l 8 [3; 0; 0; 0];
  Ret (E_OK, mk_ext2 bs (s_inodes_per_group sb) (s_blocks_per_group sb) isz gc (s_first_data_block sb) dev sb (Some 0) l true
    (blocks_read fs) (inodes_read fs) (dir_lookups fs)).

(** [memset(&ext2, 0, sizeof(ext2))] and the mount of device 1; the creation of the endpoint is
    left out. *)
Definition ext2_init (fs : ext2_fs) : run ext2_fs :=
  '(_, fs) ← ext2_mount 1 (mk_ext2 0 0 0 0 0 0 0 zero_superblock None (replicate 4096 0) (mounted fs) (blocks_read fs) (inodes_read fs)
    (dir_lookups fs));
  Ret fs.
