(* ===== verification/Ext2Spec.v ===== *)
(** * The ext2 driver reads what is on the device

    The block map, the contents and the directories of an ext2 file system, stated on the blocks
    of the device, and what the functions of fs/ext2/main.c return of them. *)
From S2P Require Import Prelude Defs Server PageBytes Elf Ext2.

Section Spec.
Context `{BlockSource}.

(** ** The file system on the device *)

Section Layout.
Variable bs : Z.

(** Pointer [i] of an indirect block; block 0 is a hole. *)
Definition ptr (b i : Z) : Z := if b =? 0 then 0 else default 0 (field (block_bytes bs b) (4 * i) 4).

Definition direct (inode : ext2_inode) (k : Z) : Z := default 0 (zget (i_block inode) k).

(** Number of blocks that the direct, single and double indirect pointers reach. *)
Definition reach : Z := 12 + bs / 4 + bs / 4 * (bs / 4).

(** The ext2 block map: the block of the device that holds block [idx] of a file. *)
Definition file_block (inode : ext2_inode) (idx : Z) : Z :=
  let p := bs / 4 in
  if idx <? 12 then direct inode idx
  else if idx <? 12 + p then ptr (direct inode 12) (idx - 12)
  else if idx <? reach then
    let j := idx - 12 - p in ptr (ptr (direct inode 13) (j / p)) (j mod p)
  else let j := idx - reach in ptr (ptr (ptr (direct inode 14) (j / (p * p))) (j / p mod p)) (j mod p).

(** The byte of a file at a position. *)
Definition block_byte (b k : Z) : Z := if b =? 0 then 0 else byte_at (block_bytes bs b) k.
Definition file_byte (inode : ext2_inode) (pos : Z) : Z := block_byte (file_block inode (pos / bs)) (pos mod bs).
Definition file_range (inode : ext2_inode) (pos n : Z) : list Z := file_byte inode <$> seqZ pos n.

(** The entries of a directory block from an offset on: they fill the block. *)
Inductive chain (blk : list Z) : Z -> list (Z * list Z) -> Prop :=
  | chain_end : chain blk (zlen blk) []
  | chain_entry off ino rl nl name es :
      0 <= off -> field blk off 4 = Some ino -> field blk (off + 4) 2 = Some rl -> field blk (off + 6) 1 = Some nl ->
      read blk (off + 8) nl = Some name -> 8 + nl <= rl -> off + rl <= zlen blk ->
      chain blk (off + rl) es -> chain blk off ((ino, name) :: es).

(** The entries of a directory from a block on, holes skipped. *)
Inductive dir_from (dir : ext2_inode) : Z -> list (Z * list Z) -> Prop :=
  | dir_end idx : idx * bs = i_size dir -> dir_from dir idx []
  | dir_hole idx es : idx * bs < i_size dir -> file_block dir idx = 0 -> dir_from dir (idx + 1) es -> dir_from dir idx es
  | dir_block idx es1 es2 : idx * bs < i_size dir -> file_block dir idx ≠ 0 ->
      chain (block_bytes bs (file_block dir idx)) 0 es1 -> dir_from dir (idx + 1) es2 -> dir_from dir idx (es1 ++ es2).

End Layout.

(** An entry in use under a name. *)
Definition names (name : list Z) (e : Z * list Z) : Prop := e.1 ≠ 0 /\ e.2 = name.
#[local] Instance names_dec name e : Decision (names name e).
Proof. unfold names. apply _. Defined.

(** ** The driver's state *)

(** A block size that ext2 allows, and a buffer of bytes that holds a block. *)
Record fs_ok (fs : ext2_fs) : Prop := {
  fo_size : block_size fs = 1024 \/ block_size fs = 2048 \/ block_size fs = 4096;
  fo_buffer : zlen (block_buffer fs) = 4096;
  fo_bytes : bytes (block_buffer fs)
}.

(** Only the buffer and the statistics differ. *)
Record same_fs (fs fs' : ext2_fs) : Prop := {
  sf_size : block_size fs' = block_size fs;
  sf_ipg : inodes_per_group fs' = inodes_per_group fs;
  sf_isize : inode_size fs' = inode_size fs;
  sf_sb : sb fs' = sb fs;
  sf_groups : groups fs' = groups fs
}.

(** The buffer starts with a block. *)
Definition holds (fs : ext2_fs) (blk : list Z) : Prop :=
  zlen blk = block_size fs /\ exists rest, block_buffer fs = blk ++ rest.

(** The pointers of an inode are 32-bit words. *)
Definition inode_ok (i : ext2_inode) : Prop := length (i_block i) = 15%nat /\ Forall (fits 32) (i_block i) /\ 0 <= i_size i < 2 ^ 32.

Lemma same_fs_refl fs : same_fs fs fs.
Proof. done. Qed.

Lemma same_fs_trans a b c : same_fs a b -> same_fs b c -> same_fs a c.
Proof. intros [] []. split; congruence. Qed.

Lemma fs_ok_pos fs : fs_ok fs -> 0 < block_size fs <= 4096 /\ block_size fs = 4 * (block_size fs / 4).
Proof. intros [Hs _ _]. destruct Hs as [Hs|[Hs|Hs] ]; by rewrite Hs. Qed.

(** ** Reading bytes *)

Lemma read_prefix l1 l2 off n : off + n <= zlen l1 -> read (l1 ++ l2) off n = read l1 off n.
Proof.
  intros Hn. unfold read. rewrite zlen_app. pose proof (zlen_nonneg l2).
  destruct (Z.leb_spec 0 off); [|done]. destruct (Z.leb_spec 0 n); [|done]. cbn [andb].
  rewrite !(proj2 (Z.leb_le _ _)) by lia. f_equal. unfold zlen in *. rewrite drop_app_le by lia. rewrite take_app_le; [done|].
  rewrite length_drop. lia.
Qed.

Lemma field_prefix l1 l2 off n : off + n <= zlen l1 -> field (l1 ++ l2) off n = field l1 off n.
Proof. intros Hn. unfold field. by rewrite read_prefix. Qed.

Lemma field_Some l off n : 0 <= off -> 0 <= n -> off + n <= zlen l -> exists x, field l off n = Some x.
Proof. intros H0 Hn Hl. destruct (read_ok l off n H0 Hn Hl) as (b & E & _). unfold field. rewrite E. by eexists. Qed.

Lemma field_holds fs blk off n : holds fs blk -> off + n <= block_size fs -> field (block_buffer fs) off n = field blk off n.
Proof. intros [Hl [rest ->]] Hn. apply field_prefix. lia. Qed.

Lemma overwrite_ok l bs' : zlen bs' <= zlen l -> bytes l -> bytes bs' ->
  exists l', overwrite l 0 bs' = Ret l' /\ zlen l' = zlen l /\ bytes l' /\ l' = bs' ++ drop (length bs') l.
Proof.
  intros Hl Hb Hb'. unfold overwrite. rewrite (proj2 (Z.leb_le _ _)) by lia. rewrite Z.add_0_l, (proj2 (Z.leb_le _ _) Hl). cbn [andb].
  exists (bs' ++ drop (length bs') l). split; [by rewrite zlen_to_nat|]. unfold zlen, bytes in *. rewrite length_app, length_drop.
  split; [lia|]. split; [|done]. apply Forall_app. split; [done|]. by apply Forall_drop.
Qed.

Lemma load_block_ok fs blk b i d : fs_ok fs -> zlen blk = block_size fs -> bytes blk ->
  exists l, overwrite (block_buffer fs) 0 blk = Ret l /\
    let fs' := count_ext2 b i d (with_buffer l fs) in fs_ok fs' /\ same_fs fs fs' /\ holds fs' blk.
Proof.
  intros Hok Hl Hb. pose proof (fs_ok_pos _ Hok) as [Hbs _]. destruct Hok as [H1 H2 H3].
  destruct (overwrite_ok (block_buffer fs) blk) as (l & E & Hll & Hbl & ->); [lia|done|done|].
  eexists. split; [exact E|]. split; [split; [done|cbn [count_ext2 with_buffer block_buffer]; lia|done]|]. split; [done|]. split; [done|]. by eexists.
Qed.

Lemma read_block_ok fs b : fs_ok fs ->
  exists fs', read_block b fs = Ret (E_OK, fs') /\ fs_ok fs' /\ same_fs fs fs' /\ holds fs' (block_bytes (block_size fs) b).
Proof.
  intros Hok. pose proof (fs_ok_pos _ Hok) as [Hbs _].
  destruct (load_block_ok fs (block_bytes (block_size fs) b) 1 0 0 Hok) as (l & E & R); [apply block_bytes_len; lia|apply block_bytes_ok|].
  unfold read_block. rewrite E. cbn [mbind run_bind]. by eexists.
Qed.

(** ** The block map *)

Lemma direct_ok inode k : inode_ok inode -> 0 <= k < 15 -> zget (i_block inode) k = Some (direct inode k) /\ 0 <= direct inode k < 2 ^ 32.
Proof.
  intros (Hl & Hf & _) Hk. unfold direct. destruct (proj2 (zget_Some (i_block inode) k)) as [b Hb]; [unfold zlen; lia|].
  rewrite Hb. split; [done|]. apply zget_lookup in Hb as [_ Hb]. exact (Forall_lookup_1 _ _ _ _ Hf Hb).
Qed.

Lemma ptr_range bs b i : 0 <= ptr bs b i < 2 ^ 32.
Proof.
  unfold ptr. destruct (b =? 0); [lia|]. destruct (field _ _ _) as [x|] eqn:E; cbn [default]; [|lia].
  exact (field_range _ _ 4 _ (block_bytes_ok _ _) E).
Qed.

(** Following a pointer that is not a hole. *)
Lemma follow_ok fs b i : fs_ok fs -> b ≠ 0 -> 0 <= i < block_size fs / 4 ->
  exists fs', read_block b fs = Ret (E_OK, fs') /\ buffer_word fs' i = Ret (ptr (block_size fs) b i) /\ fs_ok fs' /\ same_fs fs fs'.
Proof.
  intros Hok Hb Hi. pose proof (fs_ok_pos _ Hok) as [Hbs Hq]. destruct (read_block_ok fs b Hok) as (fs' & E & Hok' & Hs & Hh).
  exists fs'. split; [done|]. split; [|done]. unfold buffer_word, ptr. rewrite (field_holds fs' _ _ _ Hh) by (rewrite (sf_size _ _ Hs); lia).
  rewrite (proj2 (Z.eqb_neq _ _) Hb). destruct (field_Some (block_bytes (block_size fs) b) (4 * i) 4) as [x Hx]; [lia|lia|rewrite block_bytes_len; lia|].
  by rewrite Hx.
Qed.

(** The block that the driver finds: beyond the double indirect blocks it finds none. *)
Definition found_block (bs : Z) (inode : ext2_inode) (idx : Z) : Z := if idx <? reach bs then file_block bs inode idx else 0.

Lemma get_data_block_ok fs inode idx : fs_ok fs -> inode_ok inode -> 0 <= idx < 2 ^ 32 ->
  exists fs', get_data_block inode idx fs = Ret (found_block (block_size fs) inode idx, fs') /\ fs_ok fs' /\ same_fs fs fs'.
Proof.
  intros Hok Hi Hidx. pose proof (fs_ok_pos _ Hok) as [Hbs Hq]. unfold get_data_block, found_block, file_block, reach.
  set (p := block_size fs / 4) in *. assert (0 < p <= 1024) as Hp by lia.
  destruct (Z.ltb_spec idx 12).
  { destruct (direct_ok inode idx Hi) as [E _]; [lia|]. rewrite E, (proj2 (Z.ltb_lt _ _)) by nia. by exists fs. }
  rewrite (u32_small (idx - 12)) by lia. destruct (Z.ltb_spec (idx - 12) p) as [H1|H1].
  { rewrite !(proj2 (Z.ltb_lt _ _)) by nia. destruct (direct_ok inode 12 Hi) as [E _]; [lia|]. rewrite E. cbn [lift mbind run_bind].
    destruct (Z.eqb_spec (direct inode 12) 0) as [Ez|Ez]; [exists fs; unfold ptr; by rewrite Ez|].
    destruct (follow_ok fs (direct inode 12) (idx - 12) Hok Ez ltac:(fold p; lia)) as (fs' & -> & E1 & Hok' & Hs).
    exists fs'. cbn [mbind run_bind]. by rewrite E1. }
  rewrite (u32_small (idx - 12 - p)) by lia. rewrite (u32_small (p * p)) by nia. rewrite (proj2 (Z.ltb_ge idx (12 + p))) by lia.
  destruct (Z.ltb_spec (idx - 12 - p) (p * p)) as [H2|H2].
  2:{ rewrite (proj2 (Z.ltb_ge _ _)) by lia. destruct (direct_ok inode 14 Hi) as [E _]; [lia|]. rewrite E. by exists fs. }
  rewrite (proj2 (Z.ltb_lt idx _)) by lia. destruct (direct_ok inode 13 Hi) as [E _]; [lia|]. rewrite E. cbn [lift mbind run_bind].
  set (j := idx - 12 - p) in *. assert (0 <= j / p < p) by (split; [apply Z.div_pos; lia|apply Z.div_lt_upper_bound; lia]).
  pose proof (Z.mod_pos_bound j p ltac:(lia)). destruct (Z.eqb_spec (direct inode 13) 0) as [Ez|Ez]; [exists fs; unfold ptr; by rewrite Ez|].
  destruct (follow_ok fs (direct inode 13) (j / p) Hok Ez ltac:(fold p; lia)) as (fs1 & -> & E1 & Hok1 & Hs1). cbn [mbind run_bind].
  unfold udiv, umod. rewrite (proj2 (Z.eqb_neq p 0)) by lia. cbn [mbind run_bind]. rewrite E1. cbn [mbind run_bind].
  set (b := ptr (block_size fs) (direct inode 13) (j / p)).
  destruct (Z.eqb_spec b 0) as [Eb|Eb]; [exists fs1; unfold ptr at 1; by rewrite Eb|].
  destruct (follow_ok fs1 b (j mod p) Hok1 Eb ltac:(rewrite (sf_size _ _ Hs1); fold p; lia)) as (fs2 & -> & E2 & Hok2 & Hs2). cbn [mbind run_bind].
  rewrite E2, (sf_size _ _ Hs1). exists fs2. split; [done|]. split; [done|]. by eapply same_fs_trans.
Qed.

(** ** File contents *)

Lemma load_or_zero_ok fs b : fs_ok fs ->
  exists fs', load_or_zero b fs = Ret (E_OK, fs') /\ fs_ok fs' /\ same_fs fs fs' /\
    forall k n, 0 <= k -> 0 <= n -> k + n <= block_size fs ->
      read (block_buffer fs') k n = Some (block_byte (block_size fs) b <$> seqZ k n).
Proof.
  intros Hok. pose proof (fs_ok_pos _ Hok) as [Hbs _]. unfold load_or_zero.
  assert (exists blk fs', (if b =? 0 then l ← overwrite (block_buffer fs) 0 (replicate (Z.to_nat (block_size fs)) 0); Ret (E_OK, with_buffer l fs)
    else read_block b fs) = Ret (E_OK, fs') /\ fs_ok fs' /\ same_fs fs fs' /\ holds fs' blk /\ forall k, 0 <= k < block_size fs -> byte_at blk k = block_byte (block_size fs) b k)
    as (blk & fs' & E & Hok' & Hs & Hh & Hb).
  { unfold block_byte. destruct (b =? 0).
    - exists (replicate (Z.to_nat (block_size fs)) 0).
      destruct (overwrite_ok (block_buffer fs) (replicate (Z.to_nat (block_size fs)) 0)) as (l & E & Hl & Hbl & ->);
        [rewrite zlen_replicate, (fo_buffer _ Hok); lia|apply Hok|apply Forall_replicate; lia|].
      rewrite E. cbn [mbind run_bind]. eexists. split; [done|]. pose proof (fo_buffer _ Hok). split; [split; [apply Hok|cbn [with_buffer block_buffer]; lia|done]|].
      split; [done|]. split; [split; [rewrite zlen_replicate; cbn; lia|by eexists]|]. intros k Hk. unfold byte_at.
      by rewrite lookup_replicate_2 by lia.
    - destruct (read_block_ok fs b Hok) as (fs' & E & R). exists (block_bytes (block_size fs) b), fs'. split; [done|]. destruct R as (R1 & R2 & R3). by split_and!. }
  exists fs'. split; [done|]. split; [done|]. split; [done|]. intros k n Hk Hn Hkn. destruct Hh as [Hl [rest ->]]. rewrite (sf_size _ _ Hs) in Hl.
  rewrite read_prefix by lia. destruct (read_ok blk k n Hk Hn ltac:(lia)) as (r & -> & Hr & Hrb). f_equal.
  apply list_eq_same_length with (length r); [rewrite length_fmap, length_seqZ; unfold zlen in Hr; lia|done|].
  intros i x y Hilt Hx Hy. apply list_lookup_fmap_Some in Hy as (z & -> & Hz). apply lookup_seqZ in Hz as [-> Hz]. specialize (Hrb (Z.of_nat i) ltac:(unfold zlen in Hr; lia)).
  unfold byte_at in Hrb at 1. rewrite Nat2Z.id, Hx in Hrb. cbn in Hrb. rewrite Hrb. rewrite <- Hb by (unfold zlen in *; lia). done.
Qed.

(** The bytes of a file as the driver finds them. *)
Definition found_byte (bs : Z) (inode : ext2_inode) (pos : Z) : Z := block_byte bs (found_block bs inode (pos / bs)) (pos mod bs).
Definition found_range (bs : Z) (inode : ext2_inode) (pos n : Z) : list Z := found_byte bs inode <$> seqZ pos n.

(** Within one block the bytes of the file are those of the block. *)
Lemma found_range_block bs inode pos n : 0 < bs -> 0 <= n -> pos mod bs + n <= bs ->
  found_range bs inode pos n = block_byte bs (found_block bs inode (pos / bs)) <$> seqZ (pos mod bs) n.
Proof.
  intros Hbs Hn Hin. unfold found_range. apply list_eq. intros i. rewrite !list_lookup_fmap.
  destruct (decide (Z.of_nat i < n)) as [Hi|Hi]; [|by rewrite !lookup_seqZ_ge by lia].
  rewrite !lookup_seqZ_lt by lia. cbn [fmap option_fmap option_map]. unfold found_byte.
  pose proof (Z.mod_pos_bound pos bs Hbs). pose proof (Z.div_mod pos bs ltac:(lia)) as Hd.
  rewrite <- (Z.div_unique (pos + Z.of_nat i) bs (pos / bs) (pos mod bs + Z.of_nat i)) by lia.
  by rewrite <- (Z.mod_unique (pos + Z.of_nat i) bs (pos / bs) (pos mod bs + Z.of_nat i)) by lia.
Qed.

Lemma found_range_app bs inode pos n m : 0 <= n -> 0 <= m ->
  found_range bs inode pos (n + m) = found_range bs inode pos n ++ found_range bs inode (pos + n) m.
Proof. intros Hn Hm. unfold found_range. by rewrite seqZ_app, fmap_app by lia. Qed.

Lemma read_file_loop_ok fuel inode offset size out fs :
  fs_ok fs -> inode_ok inode -> 0 <= offset -> 0 <= size -> offset + size <= i_size inode -> (Z.to_nat size <= fuel)%nat ->
  exists fs', read_file_loop fuel inode offset size out fs = Ret (E_OK, out ++ found_range (block_size fs) inode offset size, fs') /\
    fs_ok fs' /\ same_fs fs fs'.
Proof.
  intros Hok Hi. revert offset size out fs Hok. induction fuel as [|fuel IH]; intros offset size out fs Hok Ho Hs Hos Hf;
    cbn [read_file_loop]; destruct (Z.eqb_spec size 0) as [->|Hs0].
  1,3: exists fs; unfold found_range; by rewrite app_nil_r.
  { lia. }
  pose proof (fs_ok_pos _ Hok) as [Hbs _]. destruct Hi as (Hi1 & Hi2 & Hi3). unfold udiv, umod.
  rewrite (proj2 (Z.eqb_neq (block_size fs) 0)) by lia. cbn [mbind run_bind].
  assert (0 <= offset / block_size fs < 2 ^ 32) as Hidx.
  { split; [apply Z.div_pos; lia|]. apply Z.div_lt_upper_bound; [lia|]. nia. }
  rewrite (u32_small _ Hidx). pose proof (Z.mod_pos_bound offset (block_size fs) ltac:(lia)) as Hm.
  destruct (get_data_block_ok fs inode _ Hok (conj Hi1 (conj Hi2 Hi3)) Hidx) as (fs1 & -> & Hok1 & Hs1). cbn [mbind run_bind].
  destruct (load_or_zero_ok fs1 (found_block (block_size fs) inode (offset / block_size fs)) Hok1) as (fs2 & -> & Hok2 & Hs2 & Hrd).
  cbn [mbind run_bind]. change (negb (E_OK =? E_OK)) with false. cbv iota.
  pose proof (same_fs_trans _ _ _ Hs1 Hs2) as Hs12. rewrite (sf_size _ _ Hs12). rewrite (sf_size _ _ Hs1) in Hrd.
  rewrite (u32_small (block_size fs - _)) by lia. set (bs := block_size fs) in *. set (bo := offset mod bs) in *.
  assert (exists c, (if size <? bs - bo then size else bs - bo) = c /\ 0 < c <= size /\ bo + c <= bs) as (c & -> & Hc & Hcb).
  { destruct (Z.ltb_spec size (bs - bo)); eexists; (split; [done|]); lia. }
  rewrite Hrd by lia. cbn [lift mbind run_bind]. rewrite u64_small by lia.
  destruct (IH (offset + c) (size - c) (out ++ (block_byte bs (found_block bs inode (offset / bs)) <$> seqZ bo c)) fs2 Hok2) as (fs3 & -> & Hok3 & Hs3); [lia..|].
  exists fs3. rewrite (sf_size _ _ Hs12). fold bs. split; [|split; [done|by eapply same_fs_trans]].
  unfold bo. rewrite <- (found_range_block bs inode offset c) by lia. rewrite <- app_assoc, <- found_range_app by lia. by replace (c + (size - c)) with size by lia.
Qed.

(** ** Directories *)

(** The inode of the first entry in use under a name. *)
Fixpoint find_name (name : list Z) (es : list (Z * list Z)) : option Z :=
  match es with [] => None | e :: es => if decide (names name e) then Some e.1 else find_name name es end.

Lemma find_name_app name es1 es2 :
  find_name name (es1 ++ es2) = match find_name name es1 with Some i => Some i | None => find_name name es2 end.
Proof. induction es1 as [|e es1 IH]; [done|]. cbn [app find_name]. by case_decide. Qed.

Lemma read_cons l off n r : 0 <= n -> read l off (n + 1) = Some r ->
  exists b r', r = b :: r' /\ zget l off = Some b /\ read l (off + 1) n = Some r'.
Proof.
  intros Hn. unfold read, zget. destruct (Z.leb_spec 0 off); [|done]. rewrite (proj2 (Z.leb_le 0 (n + 1))) by lia. cbn [andb].
  destruct (Z.leb_spec (off + (n + 1)) (zlen l)) as [Hl|]; [|done]. intros [= <-]. rewrite decide_True by done.
  rewrite (proj2 (Z.leb_le 0 (off + 1))), (proj2 (Z.leb_le 0 n)), (proj2 (Z.leb_le (off + 1 + n) (zlen l))) by lia. cbn [andb].
  destruct (lookup_lt_is_Some_2 l (Z.to_nat off)) as [b Hb]; [unfold zlen in Hl; lia|]. exists b.
  rewrite (drop_S _ _ _ Hb). replace (Z.to_nat (n + 1)) with (S (Z.to_nat n)) by lia. replace (Z.to_nat (off + 1)) with (S (Z.to_nat off)) by lia.
  eexists. split; [done|]. done.
Qed.

Lemma same_bytes_ok l off name nm : read l off (zlen name) = Some nm -> same_bytes l off name = Some (bool_decide (nm = name)).
Proof.
  revert off nm. induction name as [|c name IH]; intros off nm Hr; cbn [same_bytes].
  { unfold read in Hr. destruct (_ && _); [|done]. injection Hr as <-. done. }
  rewrite zlen_cons in Hr. apply read_cons in Hr as (b & r' & -> & Hb & Hr); [|apply zlen_nonneg]. rewrite Hb. cbn [mbind option_bind].
  destruct (Z.eqb_spec b c) as [->|Hne].
  - rewrite (IH _ _ Hr). f_equal. apply bool_decide_ext. split; [by intros ->|by intros [= ->]].
  - rewrite bool_decide_false; [done|]. congruence.
Qed.

Lemma read_len l off n r : read l off n = Some r -> zlen r = n.
Proof.
  unfold read. destruct (_ && _) eqn:E; [|done]. intros [= <-]. apply andb_true_iff in E as [[E1 E2]%andb_true_iff E3]. apply Z.leb_le in E1, E2, E3.
  unfold zlen in *. rewrite length_take, length_drop. lia.
Qed.

Lemma read_holds fs blk off n r : holds fs blk -> read blk off n = Some r -> read (block_buffer fs) off n = Some r.
Proof.
  intros [Hl [rest ->]] Hr. rewrite read_prefix; [done|]. unfold read in Hr. destruct (_ && _) eqn:E; [|done].
  apply andb_true_iff in E as [_ E%Z.leb_le]. done.
Qed.

(** Scanning the entries of the block in the buffer. *)
Lemma scan_block_ok fuel name blk off es fs offset :
  fs_ok fs -> holds fs blk -> chain blk off es -> 0 <= off -> (length es <= fuel)%nat -> 0 <= offset -> offset + (block_size fs - off) < 2 ^ 32 ->
  scan_block fuel name off offset fs =
    Ret (match find_name name es with Some ino => inl ino | None => inr (offset + (block_size fs - off)) end).
Proof.
  intros Hok Hh Hc. pose proof (fs_ok_pos _ Hok) as [Hbs _]. pose proof Hh as [Hl _]. revert fuel offset.
  induction Hc as [|off ino rl nl nm es Ho0 Hino Hrl Hnl Hnm Hfit Hend Hc IH]; intros fuel offset Hoff Hf Ho Hlim.
  { rewrite Hl. destruct fuel; cbn [scan_block]; rewrite (proj2 (Z.leb_le _ _)) by lia; cbn [find_name]; do 2 f_equal; lia. }
  assert (0 <= nl) as Hnl0 by (rewrite <- (read_len _ _ _ _ Hnm); apply zlen_nonneg).
  destruct fuel as [|fuel]; [cbn in Hf; lia|]. cbn [scan_block]. rewrite (proj2 (Z.leb_gt _ _)) by lia.
  rewrite (field_holds _ _ (off + 4) _ Hh), Hrl by lia. cbn [lift mbind run_bind]. rewrite (proj2 (Z.eqb_neq rl 0)) by lia.
  assert (entry_matches (block_buffer fs) off name = Some (bool_decide (names name (ino, nm)))) as ->.
  { unfold entry_matches, names. cbn [fst snd]. rewrite (field_holds _ _ off _ Hh), Hino by lia. cbn [mbind option_bind].
    destruct (Z.eqb_spec ino 0) as [->|Hi0]; [rewrite bool_decide_false; [done|tauto]|].
    rewrite (field_holds _ _ (off + 6) _ Hh), Hnl by lia. cbn [mbind option_bind]. destruct (Z.eqb_spec nl (zlen name)) as [->|Hne]; cbn [negb].
    - rewrite (same_bytes_ok _ _ _ nm) by (by eapply read_holds). f_equal. apply bool_decide_ext. tauto.
    - rewrite bool_decide_false; [done|]. intros [_ ->]. apply Hne. symmetry. by eapply read_len. }
  cbn [lift mbind run_bind find_name]. rewrite (field_holds _ _ off _ Hh), Hino by lia. case_bool_decide as Hm; [by rewrite decide_True|rewrite decide_False by done].
  rewrite (u32_small (off + rl)), (u32_small (offset + rl)) by lia. rewrite IH by (cbn in Hf; lia). destruct (find_name name es); [done|]. do 2 f_equal. lia.
Qed.

Definition lookup_result (o : option Z) : Z * option Z := match o with Some ino => (E_OK, Some ino) | None => (E_NOENT, None) end.

Lemma dir_from_blocks bs dir idx es : dir_from bs dir idx es -> exists k, k * bs = i_size dir /\ idx <= k.
Proof. induction 1 as [idx He|idx es _ _ _ (k & E & Hk)|idx es1 es2 _ _ _ _ (k & E & Hk)]; [exists idx|exists k|exists k]; (split; [done|lia]). Qed.

Lemma dir_lookup_loop_ok fuel dir name idx es fs :
  fs_ok fs -> inode_ok dir -> i_size dir <= reach (block_size fs) * block_size fs ->
  dir_from (block_size fs) dir idx es -> 0 <= idx -> Z.of_nat (length es) + (i_size dir / block_size fs - idx) <= Z.of_nat fuel ->
  exists fs', dir_lookup_loop fuel dir name (idx * block_size fs) fs = Ret (lookup_result (find_name name es), fs') /\ fs_ok fs' /\ same_fs fs fs'.
Proof.
  intros Hok Hi Hreach. set (bs := block_size fs) in *. assert (block_size fs = bs) as Ebs by done. clearbody bs. intros Hd.
  pose proof (fs_ok_pos _ Hok) as [Hbs _]. rewrite Ebs in Hbs. revert fuel fs Hok Ebs.
  induction Hd as [idx He|idx es Hlt Hz Hd IH|idx es1 es2 Hlt Hz Hc Hd IH]; intros fuel fs Hok Ebs Hidx Hf.
  { exists fs. rewrite He. destruct fuel; cbn [dir_lookup_loop]; rewrite (proj2 (Z.leb_le _ _)) by lia; done. }
  all: assert (idx + 1 <= i_size dir / bs) as Hdiv by
    (destruct (dir_from_blocks _ _ _ _ Hd) as (k & Ek & Hk); rewrite <- Ek, Z.div_mul by lia; lia).
  all: assert ((idx + 1) * bs <= i_size dir) as Hnext by (destruct (dir_from_blocks _ _ _ _ Hd) as (k & Ek & Hk); nia).
  all: destruct fuel as [|fuel]; [exfalso; lia|]; cbn [dir_lookup_loop]; rewrite (proj2 (Z.leb_gt (i_size dir) (idx * bs)) Hlt); rewrite Ebs.
  all: unfold udiv, umod; rewrite (proj2 (Z.eqb_neq bs 0)) by lia; cbn [mbind run_bind]; rewrite Z.div_mul, Z.mod_mul by lia.
  all: pose proof Hi as (_ & _ & Hsz); assert (idx < reach bs) as Hre by nia; assert (0 <= idx < 2 ^ 32) as Hr32 by nia.
  all: destruct (get_data_block_ok fs dir idx Hok Hi Hr32) as (fs1 & -> & Hok1 & Hs1); cbn [mbind run_bind].
  all: unfold found_block; rewrite Ebs, (proj2 (Z.ltb_lt _ _) Hre); pose proof (sf_size _ _ Hs1) as Ebs1; rewrite Ebs in Ebs1.
  - rewrite Hz. change (0 =? 0) with true. cbv iota. rewrite Ebs1, u32_small by nia. replace (idx * bs + bs) with ((idx + 1) * bs) by lia.
    destruct (IH fuel fs1 Hok1 Ebs1) as (fs' & E & Hok' & Hs'); [lia|lia|]. exists fs'. split; [done|]. split; [done|]. by eapply same_fs_trans.
  - rewrite (proj2 (Z.eqb_neq _ _) Hz). destruct (read_block_ok fs1 (file_block bs dir idx) Hok1) as (fs2 & -> & Hok2 & Hs2 & Hh). rewrite Ebs1 in Hh.
    cbn [mbind run_bind]. change (negb (E_OK =? E_OK)) with false. cbv iota. pose proof (sf_size _ _ Hs2) as Ebs2. rewrite Ebs1 in Ebs2.
    rewrite length_app in Hf. rewrite (scan_block_ok (S fuel) name _ 0 es1 fs2 (idx * bs) Hok2 Hh Hc) by (rewrite ?Ebs2; nia). cbn [mbind run_bind].
    pose proof (same_fs_trans _ _ _ Hs1 Hs2) as Hs12. rewrite find_name_app. destruct (find_name name es1) as [ino|]; [by exists fs2|].
    rewrite Ebs2. replace (idx * bs + (bs - 0)) with ((idx + 1) * bs) by lia.
    destruct (IH fuel fs2 Hok2 Ebs2) as (fs' & E & Hok' & Hs'); [lia|lia|]. exists fs'. split; [done|]. split; [done|]. by eapply same_fs_trans.
Qed.

(** A block whose first entry has length 0 is never left. *)
Lemma dir_lookup_loop_hangs fuel dir name fs :
  fs_ok fs -> inode_ok dir -> 0 < i_size dir -> direct dir 0 ≠ 0 -> field (block_bytes (block_size fs) (direct dir 0)) 4 2 = Some 0 ->
  dir_lookup_loop fuel dir name 0 fs = Fuel.
Proof.
  intros Hok Hi Hs Hd Hrl. revert fs Hok Hrl. induction fuel as [|fuel IH]; intros fs Hok Hrl; cbn [dir_lookup_loop];
    rewrite (proj2 (Z.leb_gt _ _) Hs); [done|].
  pose proof (fs_ok_pos _ Hok) as [Hbs _]. unfold udiv, umod. rewrite (proj2 (Z.eqb_neq (block_size fs) 0)) by lia. cbn [mbind run_bind].
  rewrite Z.div_0_l, Z.mod_0_l by lia. destruct (get_data_block_ok fs dir 0 Hok Hi) as (fs1 & -> & Hok1 & Hs1); [lia|]. cbn [mbind run_bind].
  assert (found_block (block_size fs) dir 0 = direct dir 0) as ->.
  { unfold found_block, file_block, reach. rewrite (proj2 (Z.ltb_lt 0 _)); [done|]. pose proof (fs_ok_pos _ Hok) as [? ?]. nia. }
  rewrite (proj2 (Z.eqb_neq _ _) Hd). destruct (read_block_ok fs1 (direct dir 0) Hok1) as (fs2 & -> & Hok2 & Hs2 & Hh). cbn [mbind run_bind].
  change (negb (E_OK =? E_OK)) with false. cbv iota. rewrite (sf_size _ _ Hs1) in Hh. pose proof (same_fs_trans _ _ _ Hs1 Hs2) as Hs12.
  cbn [scan_block]. rewrite (proj2 (Z.leb_gt _ _)) by (rewrite (sf_size _ _ Hs12); lia).
  assert (4 + 2 <= block_size fs2) as Hfit by (rewrite (sf_size _ _ Hs12); destruct (fo_size _ Hok) as [E|[E|E] ]; rewrite E; lia).
  rewrite (field_holds _ _ (0 + 4) 2 Hh) by done. rewrite Z.add_0_l, Hrl. cbn [lift mbind run_bind]. change (0 =? 0) with true. cbv iota. cbn [mbind run_bind].
  apply IH; [done|]. by rewrite (sf_size _ _ Hs12).
Qed.

(** ** Inodes *)

Lemma inode_words_prefix l1 l2 o : o + 60 <= zlen l1 -> inode_words (l1 ++ l2) o = inode_words l1 o.
Proof.
  intros Hl. unfold inode_words. assert (seqZ 0 15 = [0; 1; 2; 3; 4; 5; 6; 7; 8; 9; 10; 11; 12; 13; 14]) as -> by done.
  cbn [mapM]. by rewrite !field_prefix by lia.
Qed.

Lemma inode_at_prefix l1 l2 o : o + 128 <= zlen l1 -> inode_at (l1 ++ l2) o = inode_at l1 o.
Proof. intros Hl. unfold inode_at. by rewrite !field_prefix, inode_words_prefix, read_prefix by lia. Qed.

Lemma inode_words_ok l o : bytes l -> 0 <= o -> o + 60 <= zlen l ->
  exists ws, inode_words l o = Some ws /\ length ws = 15%nat /\ Forall (fits 32) ws.
Proof.
  intros Hb Ho Hl. unfold inode_words. destruct (mapM_is_Some_2 (fun k => field l (o + 4 * k) 4) (seqZ 0 15)) as [ws E].
  { apply Forall_forall. intros k Hk%elem_of_seqZ. destruct (field_Some l (o + 4 * k) 4) as [x Hx]; [lia..|]. by exists x. }
  exists ws. split; [done|]. apply mapM_Some_1 in E. split; [by rewrite <- (Forall2_length _ _ _ E)|].
  eapply Forall2_Forall_r; [exact E|]. apply Forall_forall. intros k _ w Hw. exact (field_range l _ 4 w Hb Hw).
Qed.

(** Every field of an inode inside the bytes can be read, and its pointers are words. *)
Lemma inode_at_ok l o : bytes l -> 0 <= o -> o + 128 <= zlen l -> exists i, inode_at l o = Some i /\ inode_ok i.
Proof.
  intros Hb Ho Hl. unfold inode_at. destruct (inode_words_ok l (o + 40) Hb) as (ws & Ew & Hw); [lia..|].
  destruct (read_ok l (o + 116) 12) as (osd & Er & _); [lia..|].
  repeat match goal with |- context [field l ?k ?n] =>
    let x := fresh "x" in let E := fresh "E" in destruct (field_Some l k n) as [x E]; [lia..|]; rewrite E; pose proof (field_range l k n x Hb E); cbn [mbind option_bind] end.
  rewrite Ew. cbn [mbind option_bind]. rewrite Er. cbn [mbind option_bind]. eexists. split; [done|]. split; [apply Hw|]. split; [apply Hw|]. done.
Qed.

(** The place of an inode: its block, given the start of the inode table, and its offset there. *)
Definition inode_place (fs : ext2_fs) (table n : Z) : Z * Z :=
  let index := (n - 1) mod inodes_per_group fs in
  let ipb := block_size fs / inode_size fs in
  (u32 (table + index / ipb), index mod ipb * inode_size fs).

(** Inodes of at least 128 bytes that fit into a block. *)
Definition inodes_fit (fs : ext2_fs) : Prop := 0 < inodes_per_group fs /\ 128 <= inode_size fs <= block_size fs.

Lemma inode_place_fits fs table n : fs_ok fs -> inodes_fit fs ->
  0 <= (inode_place fs table n).2 /\ (inode_place fs table n).2 + 128 <= block_size fs.
Proof.
  intros Hok [Hp Hs]. unfold inode_place. cbn [snd]. pose proof (fs_ok_pos _ Hok) as [Hbs _].
  assert (0 < block_size fs / inode_size fs) as Hq by (apply Z.div_str_pos; lia).
  pose proof (Z.mod_pos_bound ((n - 1) mod inodes_per_group fs) _ Hq) as Hm.
  pose proof (Z.mul_div_le (block_size fs) (inode_size fs) ltac:(lia)). nia.
Qed.

Lemma read_inode_ok fs n table : fs_ok fs -> inodes_fit fs -> 0 < n <= s_inodes_count (sb fs) ->
  bg_inode_table fs ((n - 1) / inodes_per_group fs) = Ret table ->
  let '(b, o) := inode_place fs table n in
  exists i fs', read_inode n fs = Ret (E_OK, Some i, fs') /\ inode_at (block_bytes (block_size fs) b) o = Some i /\ inode_ok i /\
    fs_ok fs' /\ same_fs fs fs' /\ holds fs' (block_bytes (block_size fs) b).
Proof.
  intros Hok Hfit Hn Ht. pose proof (inode_place_fits fs table n Hok Hfit) as Hpl. unfold inode_place in *. cbn [fst snd] in *.
  pose proof (fs_ok_pos _ Hok) as [Hbs _]. destruct Hfit as [Hp Hs].
  set (ipb := block_size fs / inode_size fs) in *. assert (0 < ipb) as Hq by (apply Z.div_str_pos; lia).
  set (index := (n - 1) mod inodes_per_group fs) in *. set (b := u32 (table + index / ipb)). set (o := index mod ipb * inode_size fs) in *.
  unfold read_inode. rewrite (proj2 (Z.eqb_neq n 0)), (proj2 (Z.ltb_ge _ n)) by lia. cbn [orb]. unfold udiv, umod.
  rewrite (proj2 (Z.eqb_neq (inodes_per_group fs) 0)) by lia. cbn [mbind run_bind]. rewrite Ht. cbn [mbind run_bind].
  rewrite (proj2 (Z.eqb_neq (inode_size fs) 0)) by lia. cbn [mbind run_bind]. fold ipb index. rewrite (proj2 (Z.eqb_neq ipb 0)) by lia. cbn [mbind run_bind].
  fold b. fold o. rewrite (u32_small o) by lia. destruct (read_block_ok fs b Hok) as (fs1 & -> & Hok1 & Hs1 & Hh). cbn [mbind run_bind].
  change (negb (E_OK =? E_OK)) with false. cbv iota. pose proof (block_bytes_len (block_size fs) b ltac:(lia)) as Hlen.
  destruct (inode_at_ok (block_bytes (block_size fs) b) o (block_bytes_ok _ _)) as (i & Ei & Hi); [lia|lia|].
  exists i, (count_ext2 0 1 0 fs1). pose proof Hh as [_ [rest Er] ]. rewrite Er, inode_at_prefix, Ei by lia. cbn [lift mbind run_bind].
  split; [done|]. split; [done|]. split; [done|]. split; [by destruct Hok1|]. split; [by destruct Hs1|done].
Qed.

(** ** Paths *)

(** The segments of a path between slashes, empty ones left out; [cur] is the one under way. *)
Fixpoint segments_from (cur path : list Z) : list (list Z) :=
  match path with
  | [] => match cur with [] => [] | _ => [cur] end
  | c :: r => if c =? 47 then match cur with [] => segments_from [] r | _ => cur :: segments_from [] r end
              else segments_from (cur ++ [c]) r
  end.
Definition segments (path : list Z) : list (list Z) := segments_from [] path.

(** The first segment of a path and what follows it. *)
Fixpoint span (path : list Z) : list Z * list Z :=
  match path with
  | [] => ([], [])
  | c :: r => if c =? 47 then ([], path) else let '(a, b) := span r in (c :: a, b)
  end.

Lemma segments_skip path : segments (skip_slashes path) = segments path.
Proof. induction path as [|c r IH]; [done|]. unfold segments in *. cbn [skip_slashes segments_from]. by destruct (c =? 47) eqn:E; [|cbn [segments_from]; rewrite E]. Qed.

Lemma segments_span path a b cur : span path = (a, b) -> cur ++ a ≠ [] -> segments_from cur path = (cur ++ a) :: segments b.
Proof.
  revert a cur. induction path as [|c r IH]; intros a cur; cbn [span segments_from].
  - intros [= <- <-]. rewrite app_nil_r. intros Hc. by destruct cur.
  - destruct (c =? 47) eqn:Ec.
    + intros [= <- <-]. rewrite app_nil_r. intros Hc. unfold segments. cbn [segments_from]. rewrite Ec. by destruct cur.
    + destruct (span r) as [a' b'] eqn:E. intros [= <- <-] Hc. replace (cur ++ c :: a') with ((cur ++ [c]) ++ a') by (by rewrite <- app_assoc).
      apply (IH a' (cur ++ [c]) eq_refl). by destruct cur.
Qed.

Lemma component_span n path a b : span path = (a, b) -> (length a <= n)%nat -> component n path = (a, b).
Proof.
  revert n a. induction path as [|c r IH]; intros n a; cbn [span].
  - intros [= <- <-] _. by destruct n.
  - destruct (c =? 47) eqn:Ec; [intros [= <- <-] _; destruct n; cbn [component]; rewrite ?Ec; done|].
    destruct (span r) as [a' b'] eqn:E. intros [= <- <-] Hl. destruct n as [|n]; [cbn in Hl; lia|]. cbn [component]. rewrite Ec.
    by rewrite (IH n a' eq_refl) by (cbn in Hl; lia).
Qed.

Lemma segment_span_length path a b : span path = (a, b) -> length path = (length a + length b)%nat.
Proof.
  revert a. induction path as [|c r IH]; intros a; cbn [span]; [by intros [= <- <-]|].
  destruct (c =? 47); [by intros [= <- <-]|]. destruct (span r) as [a' b'] eqn:E. intros [= <- <-]. cbn [length]. by rewrite (IH a' eq_refl).
Qed.

Lemma skip_slashes_length path : (length (skip_slashes path) <= length path)%nat.
Proof. induction path as [|c r IH]; [done|]. cbn [skip_slashes]. destruct (c =? 47); cbn [length]; lia. Qed.

Lemma skip_slashes_head path c r : skip_slashes path = c :: r -> (c =? 47) = false.
Proof. induction path as [|d q IH]; [done|]. cbn [skip_slashes]. destruct (d =? 47) eqn:E; [done|]. by intros [= <- <-]. Qed.

(** One directory after the other: the reference for path resolution. *)
Fixpoint walk (fuel : nat) (cur : Z) (segs : list (list Z)) (fs : ext2_fs) : run (Z * option Z * ext2_fs) :=
  match segs with
  | [] => Ret (E_OK, Some cur, fs)
  | name :: segs =>
      '(err, inode, fs) ← read_inode cur fs;
      if negb (err =? E_OK) then Ret (err, None, fs) else
      inode ← lift inode;
      '(err, found, fs) ← dir_lookup fuel inode name fs;
      if negb (err =? E_OK) then Ret (err, None, fs) else
      ino ← lift found; walk fuel ino segs fs
  end.

Lemma resolve_loop_walk n fuel cur path fs :
  (length path <= n)%nat -> Forall (fun s => (length s <= 255)%nat) (segments path) ->
  resolve_loop n fuel cur path fs = walk fuel cur (segments path) fs.
Proof.
  revert cur path fs. induction n as [|n IH]; intros cur path fs Hn Hs; [by destruct path; [|cbn in Hn; lia]|].
  destruct path as [|c0 r0]; [done|]. set (path := c0 :: r0) in *.
  assert (resolve_loop (S n) fuel cur path fs = match skip_slashes path with [] => Ret (E_OK, Some cur, fs) | _ =>
    let '(comp, path) := component 255 (skip_slashes path) in
    '(err, inode, fs) ← read_inode cur fs; if negb (err =? E_OK) then Ret (err, None, fs) else inode ← lift inode;
    '(err, found, fs) ← dir_lookup fuel inode comp fs; if negb (err =? E_OK) then Ret (err, None, fs) else
    ino ← lift found; resolve_loop n fuel ino path fs end) as -> by done.
  rewrite <- segments_skip in Hs |- *. pose proof (skip_slashes_length path) as Hl. pose proof (skip_slashes_head path) as Hh.
  destruct (skip_slashes path) as [|c r]; [done|]. specialize (Hh c r eq_refl). cbn [span] in *.
  destruct (span (c :: r)) as [a b] eqn:E. assert (exists a', a = c :: a') as [a' ->].
  { cbn [span] in E. rewrite Hh in E. destruct (span r). injection E as <- <-. by eexists. }
  unfold segments in Hs |- *. rewrite (segments_span _ _ _ [] E ltac:(done)) in Hs |- *. cbn [app] in *.
  apply Forall_cons in Hs as [Hs1 Hs2]. rewrite (component_span 255 _ _ _ E Hs1). cbn [walk].
  destruct (read_inode cur fs) as [[[err inode] fs1]| |]; [|done..]. cbn [mbind run_bind]. destruct (negb _); [done|].
  destruct (lift inode) as [i| |]; [|done..]. cbn [mbind run_bind].
  destruct (dir_lookup fuel i (c :: a') fs1) as [[[err2 found] fs2]| |]; [|done..]. cbn [mbind run_bind]. destruct (negb _); [done|].
  destruct (lift found) as [ino| |]; [|done..]. cbn [mbind run_bind]. apply IH; [|done].
  pose proof (segment_span_length _ _ _ E). cbn [length] in *. lia.
Qed.

(** ** Theorems *)

Lemma reach_pos bs : 0 <= bs -> 12 <= reach bs.
Proof. intros Hbs. unfold reach. pose proof (Z.div_pos bs 4 Hbs ltac:(lia)). nia. Qed.

Lemma found_range_reach bs inode pos n : 0 < bs -> 0 <= pos -> pos + n <= reach bs * bs -> found_range bs inode pos n = file_range bs inode pos n.
Proof.
  intros Hbs Hp Hr. unfold found_range, file_range. apply list_fmap_ext. intros i x Hx. apply lookup_seqZ in Hx as [-> Hx].
  unfold found_byte, file_byte, found_block. rewrite (proj2 (Z.ltb_lt _ _)); [done|]. apply Z.div_lt_upper_bound; [done|]. lia.
Qed.

(** C22.  Reading a file returns its bytes: read_file_data fetches exactly the bytes of the file
    from the offset on that the request asks for and the file has, through direct, single and
    double indirect blocks and with holes as zeros, for every device contents, block size and
    alignment of the range; the loop ends after at most one round per byte. *)
Theorem read_file_data_spec fs inode offset size fuel :
  fs_ok fs -> inode_ok inode -> 0 <= offset -> 0 <= size -> offset + size < 2 ^ 64 ->
  i_size inode <= reach (block_size fs) * block_size fs -> (Z.to_nat size <= fuel)%nat ->
  exists fs', read_file_data fuel inode offset size fs =
      Ret (E_OK, file_range (block_size fs) inode offset (Z.max 0 (Z.min size (i_size inode - offset))), fs') /\
    fs_ok fs' /\ same_fs fs fs'.
Proof.
  intros Hok Hi Ho Hs Hos Hr Hf. pose proof (fs_ok_pos _ Hok) as [Hbs _]. unfold read_file_data.
  destruct (Z.leb_spec (i_size inode) offset); [exists fs; rewrite Z.max_l by lia; done|].
  pose proof Hi as (_ & _ & Hsz). rewrite (u64_small (offset + size)), (u64_small (i_size inode - offset)) by lia.
  assert ((if i_size inode <? offset + size then i_size inode - offset else size) = Z.min size (i_size inode - offset)) as ->
    by (destruct (Z.ltb_spec (i_size inode) (offset + size)); lia).
  set (n := Z.min size (i_size inode - offset)) in *. destruct (read_file_loop_ok fuel inode offset n [] fs Hok Hi) as (fs' & E & R); [lia..|].
  exists fs'. split; [|done]. rewrite E. cbn [app]. rewrite found_range_reach, Z.max_r by lia. done.
Qed.

(** Beyond the double indirect blocks a file reads as zeros, whatever its triple indirect
    blocks hold. *)
Theorem triple_indirect_reads_zero fs inode offset size fuel :
  fs_ok fs -> inode_ok inode -> reach (block_size fs) * block_size fs <= offset -> 0 < size -> offset + size <= i_size inode ->
  (Z.to_nat size <= fuel)%nat ->
  exists fs', read_file_data fuel inode offset size fs = Ret (E_OK, replicate (Z.to_nat size) 0, fs').
Proof.
  intros Hok Hi Ho Hs Hos Hf. pose proof (fs_ok_pos _ Hok) as [Hbs _]. unfold read_file_data. pose proof Hi as (_ & _ & Hsz).
  assert (0 <= offset) as Ho0 by (pose proof (reach_pos (block_size fs) ltac:(lia)); nia). rewrite (proj2 (Z.leb_gt _ _)), (u64_small (offset + size)), (proj2 (Z.ltb_ge _ _)) by lia.
  destruct (read_file_loop_ok fuel inode offset size [] fs Hok Hi) as (fs' & E & _); [lia..|]. exists fs'. rewrite E. do 2 f_equal. cbn [app]. f_equal.
  unfold found_range. apply list_eq. intros i. rewrite list_lookup_fmap. destruct (decide (Z.of_nat i < size)) as [Hlt|Hge].
  - rewrite lookup_seqZ_lt, lookup_replicate_2 by lia. cbn [fmap option_fmap option_map]. unfold found_byte, found_block.
    rewrite (proj2 (Z.ltb_ge _ _)); [done|]. apply Z.div_le_lower_bound; lia.
  - rewrite lookup_seqZ_ge by lia. symmetry. apply lookup_ge_None. rewrite length_replicate. lia.
Qed.

Definition is_dir (i : ext2_inode) : Prop := Z.land (i_mode i) EXT2_S_IFMT = EXT2_S_IFDIR.

Lemma ext2_lookup_ok fs dir name es fuel :
  fs_ok fs -> inode_ok dir -> is_dir dir -> i_size dir <= reach (block_size fs) * block_size fs -> dir_from (block_size fs) dir 0 es ->
  Z.of_nat (length es) + i_size dir / block_size fs <= Z.of_nat fuel ->
  exists fs', dir_lookup fuel dir name fs = Ret (lookup_result (find_name name es), fs') /\ fs_ok fs' /\ same_fs fs fs'.
Proof.
  intros Hok Hi Hd Hr Hfrom Hf. unfold dir_lookup. rewrite Hd, Z.eqb_refl. cbn [negb].
  assert (fs_ok (count_ext2 0 0 1 fs)) as Hok' by (by destruct Hok).
  destruct (dir_lookup_loop_ok fuel dir name 0 es (count_ext2 0 0 1 fs) Hok' Hi Hr Hfrom) as (fs' & E & Hok1 & Hs1); [lia|cbn; lia|].
  exists fs'. split; [exact E|]. split; [done|]. by destruct Hs1.
Qed.

(** Directory look-up is right: in a directory whose blocks are filled with entries,
    dir_lookup returns the inode of the first entry in use that has exactly the name, skipping
    unused entries and holes, and E_NOENT if there is none; it ends after as many rounds as the
    directory has entries and blocks. *)
Theorem dir_lookup_spec fs dir name es fuel :
  fs_ok fs -> inode_ok dir -> is_dir dir -> i_size dir <= reach (block_size fs) * block_size fs -> dir_from (block_size fs) dir 0 es ->
  Z.of_nat (length es) + i_size dir / block_size fs <= Z.of_nat fuel ->
  exists fs', dir_lookup fuel dir name fs = Ret (lookup_result (find_name name es), fs') /\ fs_ok fs' /\ same_fs fs fs'.
Proof. apply ext2_lookup_ok. Qed.

(** A directory block that starts with a record of length 0 makes the look-up run forever:
    the inner loop is left without advancing the offset.  The blocks that read_block returns in
    the source (all zero) are such blocks. *)
Theorem dir_lookup_hangs fs dir name fuel :
  fs_ok fs -> inode_ok dir -> is_dir dir -> 0 < i_size dir -> direct dir 0 ≠ 0 ->
  field (block_bytes (block_size fs) (direct dir 0)) 4 2 = Some 0 -> dir_lookup fuel dir name fs = Fuel.
Proof.
  intros Hok Hi Hd Hs H0 Hf. unfold dir_lookup. rewrite Hd, Z.eqb_refl. cbn [negb]. apply dir_lookup_loop_hangs; try done. by destruct Hok.
Qed.

(** Path resolution walks the segments of the path from the root: resolve_path equals the
    look-up of one segment after the other, repeated and trailing slashes ignored, for every path
    whose segments have at most 255 bytes, whatever the device returns. *)
Theorem resolve_path_walks fuel path fs : Forall (fun s => (length s <= 255)%nat) (segments path) ->
  resolve_path fuel (Some (47 :: path)) fs = walk fuel EXT2_ROOT_INODE (segments path) fs.
Proof. intros Hs. unfold resolve_path. change (47 =? 47) with true. cbv iota. apply resolve_loop_walk; [lia|done]. Qed.

(** An inode is read from its place in the inode table, and the group descriptors, which
    share the block buffer, are then the bytes of that block: the next read_inode takes the
    start of the inode table from them. *)
Theorem read_inode_spec fs n off table g : fs_ok fs -> inodes_fit fs -> 0 < n <= s_inodes_count (sb fs) -> groups fs = Some off ->
  bg_inode_table fs ((n - 1) / inodes_per_group fs) = Ret table -> off + SIZEOF_GROUP_DESC * (g + 1) <= block_size fs ->
  let '(b, o) := inode_place fs table n in
  exists i fs', read_inode n fs = Ret (E_OK, Some i, fs') /\ inode_at (block_bytes (block_size fs) b) o = Some i /\
    bg_inode_table fs' g = lift (field (block_bytes (block_size fs) b) (off + SIZEOF_GROUP_DESC * g + 8) 4).
Proof.
  intros Hok Hfit Hn Hg Ht Hd. pose proof (read_inode_ok fs n table Hok Hfit Hn Ht) as R. destruct (inode_place fs table n) as [b o].
  destruct R as (i & fs' & E & Ei & _ & _ & Hs & Hh). exists i, fs'. split; [done|]. split; [done|].
  unfold bg_inode_table. rewrite (sf_groups _ _ Hs), Hg. rewrite (field_holds _ _ _ _ Hh); [done|]. rewrite (sf_size _ _ Hs). unfold SIZEOF_GROUP_DESC in *. lia.
Qed.

(** A path with one segment resolves to the entry of the root directory, or fails with
    E_NOENT if there is none. *)
Theorem resolve_root_entry fs table root name es fuel :
  fs_ok fs -> inodes_fit fs -> 2 <= s_inodes_count (sb fs) ->
  bg_inode_table fs ((EXT2_ROOT_INODE - 1) / inodes_per_group fs) = Ret table ->
  (let '(b, o) := inode_place fs table EXT2_ROOT_INODE in inode_at (block_bytes (block_size fs) b) o = Some root) ->
  is_dir root -> i_size root <= reach (block_size fs) * block_size fs -> dir_from (block_size fs) root 0 es ->
  Z.of_nat (length es) + i_size root / block_size fs <= Z.of_nat fuel ->
  segments name = [name] -> (length name <= 255)%nat ->
  exists fs', resolve_path fuel (Some (47 :: name)) fs = Ret (lookup_result (find_name name es), fs').
Proof.
  intros Hok Hfit Hn Ht Hroot Hd Hr Hfrom Hf Hseg Hlen. unfold resolve_path. change (47 =? 47) with true. cbv iota.
  rewrite resolve_loop_walk by (try lia; rewrite Hseg; by apply Forall_singleton). rewrite Hseg. cbn [walk].
  pose proof (read_inode_ok fs EXT2_ROOT_INODE table Hok Hfit ltac:(unfold EXT2_ROOT_INODE; lia) Ht) as R.
  destruct (inode_place fs table EXT2_ROOT_INODE) as [b o]. destruct R as (i & fs1 & -> & Ei & Hi & Hok1 & Hs1 & _). rewrite Hroot in Ei. injection Ei as <-.
  cbn [mbind run_bind lift]. change (negb (E_OK =? E_OK)) with false. cbv iota. cbn [mbind run_bind]. rewrite <- (sf_size _ _ Hs1) in Hr, Hfrom, Hf.
  destruct (ext2_lookup_ok fs1 root name es fuel Hok1 Hi Hd Hr Hfrom Hf) as (fs2 & -> & _). exists fs2. cbn [mbind run_bind].
  destruct (find_name name es); done.
Qed.

Lemma list_directory_loop_hangs fuel fs dir ino rl nl t out :
  fs_ok fs -> inodes_fit fs -> groups fs = Some 0 -> inode_ok dir -> 0 < i_size dir -> direct dir 0 ≠ 0 ->
  let blk := block_bytes (block_size fs) (direct dir 0) in
  field blk 0 4 = Some ino -> 0 < ino <= s_inodes_count (sb fs) -> ino <= inodes_per_group fs -> field blk 4 2 = Some rl -> rl ≠ 0 ->
  field blk 6 1 = Some nl -> field blk 8 4 = Some t ->
  field (block_bytes (block_size fs) (inode_place fs t ino).1) 4 2 = Some 0 ->
  list_directory_loop fuel dir 0 out fs = Fuel.
Proof.
  intros Hok Hfit Hg Hi Hs Hd blk Hino Hin Hgrp Hrl Hrl0 Hnl Ht Hz. revert fs out Hok Hfit Hg blk Hino Hin Hgrp Hrl Hnl Ht Hz.
  induction fuel as [|fuel IH]; intros fs out Hok Hfit Hg blk Hino Hin Hgrp Hrl Hnl Ht Hz; cbn [list_directory_loop]; rewrite (proj2 (Z.leb_gt _ _) Hs); [done|].
  pose proof (fs_ok_pos _ Hok) as [Hbs _]. assert (1024 <= block_size fs) as Hbs' by (destruct (fo_size _ Hok) as [E|[E|E] ]; lia).
  unfold udiv, umod. rewrite (proj2 (Z.eqb_neq (block_size fs) 0)) by lia. cbn [mbind run_bind].
  rewrite Z.div_0_l, Z.mod_0_l by lia. destruct (get_data_block_ok fs dir 0 Hok Hi) as (fs1 & -> & Hok1 & Hs1); [lia|]. cbn [mbind run_bind].
  assert (found_block (block_size fs) dir 0 = direct dir 0) as ->.
  { unfold found_block, file_block. rewrite (proj2 (Z.ltb_lt 0 _)); [done|]. pose proof (reach_pos (block_size fs)). lia. }
  rewrite (proj2 (Z.eqb_neq _ _) Hd). destruct (read_block_ok fs1 (direct dir 0) Hok1) as (fs2 & -> & Hok2 & Hs2 & Hh). cbn [mbind run_bind].
  rewrite (sf_size _ _ Hs1) in Hh. fold blk in Hh. pose proof (same_fs_trans _ _ _ Hs1 Hs2) as Hs12. pose proof (sf_size _ _ Hs12) as Ebs.
  assert (nl < 256) as Hnl8 by (apply (field_range blk 6 1 nl (block_bytes_ok _ _) Hnl)). assert (0 <= nl) as Hnl0 by (apply (field_range blk 6 1 nl (block_bytes_ok _ _) Hnl)).
  assert (zlen blk = block_size fs) as Hlen by (apply block_bytes_len; lia).
  destruct (read_ok blk (0 + 8) nl) as (name & Hname & _); [lia..|]. destruct (field_Some blk (0 + 7) 1) as [ft Hft]; [lia..|].
  assert (inodes_fit fs2) as Hfit2 by (unfold inodes_fit in *; by rewrite (sf_ipg _ _ Hs12), (sf_isize _ _ Hs12), Ebs).
  assert (bg_inode_table fs2 ((ino - 1) / inodes_per_group fs2) = Ret t) as Htab.
  { unfold bg_inode_table. rewrite (sf_groups _ _ Hs12), Hg, (sf_ipg _ _ Hs12), Z.div_small by lia.
    change (0 + SIZEOF_GROUP_DESC * 0 + 8) with 8. rewrite (field_holds _ _ _ _ Hh) by lia. by rewrite Ht. }
  pose proof (read_inode_ok fs2 ino t Hok2 Hfit2 ltac:(rewrite (sf_sb _ _ Hs12); lia) Htab) as R.
  replace (inode_place fs2 t ino) with (inode_place fs t ino) in R by (unfold inode_place; by rewrite Ebs, (sf_ipg _ _ Hs12), (sf_isize _ _ Hs12)).
  destruct (inode_place fs t ino) as [b o] eqn:Epl. cbn [fst] in Hz. destruct R as (i & fs3 & Eri & _ & _ & Hok3 & Hs3 & Hh3). rewrite Ebs in Hh3.
  pose proof (same_fs_trans _ _ _ Hs12 Hs3) as Hs13. pose proof (sf_size _ _ Hs13) as Ebs3.
  cbn [list_block]. rewrite Ebs, (proj2 (Z.leb_gt (block_size fs) 0)) by lia.
  rewrite !(field_holds fs2 _ _ _ Hh) by lia. rewrite !Z.add_0_l in *. rewrite Hrl, Hino, Hnl, Hft. cbn [lift mbind run_bind].
  rewrite (proj2 (Z.eqb_neq _ _) Hrl0), (proj2 (Z.eqb_neq ino 0)) by lia. rewrite (read_holds _ _ _ _ _ Hh Hname). cbn [lift mbind run_bind].
  rewrite Eri. cbn [lift mbind run_bind].
  destruct (field_Some (block_bytes (block_size fs) b) 0 4) as [shown Hshown]; [lia|lia|rewrite block_bytes_len; lia|].
  rewrite !(field_holds fs3 _ _ _ Hh3) by lia. rewrite Hshown. cbn [lift mbind run_bind].
  rewrite !(field_holds fs3 _ _ _ Hh3) by lia. rewrite Hz. cbn [lift mbind run_bind]. change (u32 (0 + 0)) with 0.
  destruct fuel as [|fuel']; cbn [list_block]; rewrite Ebs3, (proj2 (Z.leb_gt (block_size fs) 0)) by lia; [done|].
  rewrite !(field_holds fs3 _ (0 + 4) _ Hh3) by lia. rewrite Z.add_0_l, Hz. cbn [lift mbind run_bind]. change (0 =? 0) with true. cbv iota. cbn [mbind run_bind].
  eapply IH; rewrite ?Ebs3, ?(sf_sb _ _ Hs13), ?(sf_ipg _ _ Hs13), ?(sf_groups _ _ Hs13); try done.
  - unfold inodes_fit in *. by rewrite (sf_ipg _ _ Hs13), (sf_isize _ _ Hs13), Ebs3.
  - replace (inode_place fs3 t ino) with (inode_place fs t ino) by (unfold inode_place; by rewrite Ebs3, (sf_ipg _ _ Hs13), (sf_isize _ _ Hs13)).
    by rewrite Epl.
Qed.

(** Listing a directory never ends on ordinary directories: printing the first entry reads
    its inode into the buffer that holds the directory block, from an inode table whose start is
    taken from the directory's bytes; when that block has zeros where the record length stood,
    the listing goes back to the same block for ever. *)
Theorem list_directory_hangs fuel fs dir ino rl nl t :
  fs_ok fs -> inodes_fit fs -> groups fs = Some 0 -> inode_ok dir -> is_dir dir -> 0 < i_size dir -> direct dir 0 ≠ 0 ->
  let blk := block_bytes (block_size fs) (direct dir 0) in
  field blk 0 4 = Some ino -> 0 < ino <= s_inodes_count (sb fs) -> ino <= inodes_per_group fs -> field blk 4 2 = Some rl -> rl ≠ 0 ->
  field blk 6 1 = Some nl -> field blk 8 4 = Some t ->
  field (block_bytes (block_size fs) (inode_place fs t ino).1) 4 2 = Some 0 ->
  list_directory fuel dir fs = Fuel.
Proof.
  intros Hok Hfit Hg Hi Hd. intros. unfold list_directory. rewrite Hd, Z.eqb_refl. cbn [negb]. by eapply list_directory_loop_hangs.
Qed.
End Spec.

(** ** An example file system *)

Definition pad (bs : Z) (l : list Z) : list Z := take (Z.to_nat bs) ((u8 <$> l) ++ replicate (Z.to_nat bs) 0).

Lemma pad_ok bs l : 0 <= bs -> zlen (pad bs l) = bs.
Proof. intros H. unfold pad, zlen. rewrite length_take, length_app, length_replicate. lia. Qed.

Lemma pad_bytes bs l : bytes (pad bs l).
Proof.
  apply Forall_take, Forall_app. split; [|apply Forall_replicate; lia]. apply Forall_fmap, Forall_true. intros x. exact (wrap_fits 8 x ltac:(lia)).
Qed.

Definition le32 (x : Z) : list Z := Z_to_little_endian 4 8 x.
Definition le16 (x : Z) : list Z := Z_to_little_endian 2 8 x.
Definition raw_inode (mode size : Z) (blocks : list Z) : list Z :=
  le16 mode ++ le16 0 ++ le32 size ++ replicate 32 0 ++ (blocks ≫= le32) ++ replicate (88 - 4 * length blocks) 0.

(** Block 3 holds inodes 1 to 8 and block 4 inodes 9 to 16; the root directory is in block 5 and
    names the file 12, whose first block is block 7 and whose second is a hole. *)
Definition ex_contents (b : Z) : list Z :=
  if b =? 3 then replicate 128 0 ++ raw_inode 0x41ed 1024 [5]
  else if b =? 4 then replicate 384 0 ++ raw_inode 0x81a4 1030 [7; 0]
  else if b =? 5 then le32 2 ++ le16 12 ++ [1; 2; 46; 0; 0; 0] ++ le32 12 ++ le16 1012 ++ [2; 1; 104; 105]
  else if b =? 7 then replicate 1023 0 ++ [33]
  else [].

Definition ex_device : BlockSource :=
  {| block_bytes bs b := pad bs (ex_contents b); block_bytes_len bs b H := pad_ok bs _ H; block_bytes_ok bs b := pad_bytes bs _ |}.

Definition ex_zero_fs : ext2_fs := mk_ext2 0 0 0 0 0 0 0 zero_superblock None [] false 0 0 0.
Definition ex_mounted : ext2_fs := match ext2_init ex_zero_fs with Ret fs => fs | _ => ex_zero_fs end.

Lemma ex_mounted_ok : fs_ok ex_mounted /\ inodes_fit ex_mounted.
Proof.
  split; [split; [by left|by vm_compute|]|by vm_compute]. apply Forall_forall. intros x Hx.
  assert (forallb (fun b => (0 <=? b) && (b <? 2 ^ 8)) (block_buffer ex_mounted) = true) as Hall by (vm_compute; reflexivity).
  rewrite forallb_forall in Hall. apply list_elem_of_In in Hx. specialize (Hall x Hx). apply andb_true_iff in Hall as [?%Z.leb_le ?%Z.ltb_lt]. done.
Qed.

Definition ex_root : ext2_inode := match inode_at (pad 1024 (ex_contents 3)) 128 with Some i => i | None => mk_ext2_inode 0 0 0 0 0 0 0 0 0 0 0 0 [] 0 0 0 0 [] end.
Definition ex_file : ext2_inode := match inode_at (pad 1024 (ex_contents 4)) 384 with Some i => i | None => mk_ext2_inode 0 0 0 0 0 0 0 0 0 0 0 0 [] 0 0 0 0 [] end.

Lemma ex_inodes_ok : inode_ok ex_root /\ inode_ok ex_file.
Proof.
  split.
  - destruct (inode_at_ok (pad 1024 (ex_contents 3)) 128 (pad_bytes _ _)) as (i & E & Hi); [lia|by vm_compute|]. unfold ex_root. by rewrite E.
  - destruct (inode_at_ok (pad 1024 (ex_contents 4)) 384 (pad_bytes _ _)) as (i & E & Hi); [lia|by vm_compute|]. unfold ex_file. by rewrite E.
Qed.

Lemma ex_chain : @dir_from ex_device 1024 ex_root 0 [(2, [46]); (12, [104; 105])].
Proof.
  apply (dir_block 1024 ex_root 0 [(2, [46]); (12, [104; 105])] []); [by vm_compute|by vm_compute| |apply dir_end; by vm_compute].
  eapply (chain_entry _ 0 2 12 1); [lia|by vm_compute..|]. eapply (chain_entry _ 12 12 1012 2); [lia|by vm_compute..|].
  replace (12 + 1012) with (zlen (@block_bytes ex_device 1024 (@file_block ex_device 1024 ex_root 0))) by (by vm_compute). apply chain_end.
Qed.

Lemma read_file_data_spec_witness : exists fs',
  @read_file_data ex_device 8 ex_file 1020 8 ex_mounted = Ret (E_OK, [0; 0; 0; 33; 0; 0; 0; 0], fs').
Proof.
  destruct (@read_file_data_spec ex_device ex_mounted ex_file 1020 8 8) as (fs' & E & _);
    [apply ex_mounted_ok|apply ex_inodes_ok|lia|lia|lia|by vm_compute|by vm_compute|]. exists fs'. rewrite E. vm_compute. reflexivity.
Defined.

(** A large file: 100 MB, with a triple indirect block. *)
Definition ex_large : ext2_inode := mk_ext2_inode 0x81a4 0 104857600 0 0 0 0 0 1 0 0 0 (replicate 14 0 ++ [9]) 0 0 0 0 (replicate 12 0).

Lemma ex_large_ok : inode_ok ex_large.
Proof. split; [done|]. split; [|done]. apply Forall_app. split; [apply Forall_replicate; done|]. by apply Forall_singleton. Qed.

Lemma triple_indirect_reads_zero_witness : exists fs', @read_file_data ex_device 3 ex_large 67383300 3 ex_mounted = Ret (E_OK, [0; 0; 0], fs').
Proof.
  destruct (@triple_indirect_reads_zero ex_device ex_mounted ex_large 67383300 3 3) as (fs' & E);
    [apply ex_mounted_ok|apply ex_large_ok|by vm_compute|lia|by vm_compute|by vm_compute|]. exists fs'. exact E.
Defined.

Lemma dir_lookup_spec_witness : exists fs', @dir_lookup ex_device 3 ex_root [104; 105] ex_mounted = Ret (E_OK, Some 12, fs').
Proof.
  destruct (@dir_lookup_spec ex_device ex_mounted ex_root [104; 105] [(2, [46]); (12, [104; 105])] 3) as (fs' & E & _);
    [apply ex_mounted_ok|apply ex_inodes_ok|by vm_compute|by vm_compute|exact ex_chain|by vm_compute|]. exists fs'. exact E.
Defined.

(** With the blocks that the source's read_block returns. *)
Lemma dir_lookup_hangs_witness : @dir_lookup zero_blocks 100 ex_root [104; 105] ex_mounted = Fuel.
Proof.
  apply (@dir_lookup_hangs zero_blocks ex_mounted ex_root [104; 105] 100);
    [apply ex_mounted_ok|apply ex_inodes_ok|by vm_compute|by vm_compute|by vm_compute|by vm_compute].
Defined.

(** "/a//b/" *)
Lemma resolve_path_walks_witness :
  @resolve_path ex_device 5 (Some [47; 97; 47; 47; 98; 47]) ex_mounted = @walk ex_device 5 EXT2_ROOT_INODE [[97]; [98]] ex_mounted.
Proof.
  apply (@resolve_path_walks ex_device 5 [97; 47; 47; 98; 47] ex_mounted). vm_compute. repeat constructor.
Defined.

(** After the first inode was read from the blocks of the source, the inode table is at block 0. *)
Lemma read_inode_spec_witness : exists i fs', @read_inode zero_blocks 2 ex_mounted = Ret (E_OK, Some i, fs') /\
  bg_inode_table ex_mounted 0 = Ret 3 /\ bg_inode_table fs' 0 = Ret 0.
Proof.
  destruct (@read_inode_spec zero_blocks ex_mounted 2 0 3 0) as (i & fs' & E & _ & Ht);
    [apply ex_mounted_ok|apply ex_mounted_ok|by vm_compute|by vm_compute|by vm_compute|by vm_compute|].
  exists i, fs'. split; [exact E|]. split; [by vm_compute|]. rewrite Ht. by vm_compute.
Defined.

Lemma resolve_root_entry_witness : exists fs', @resolve_path ex_device 3 (Some [47; 104; 105]) ex_mounted = Ret (E_OK, Some 12, fs').
Proof.
  destruct (@resolve_root_entry ex_device ex_mounted 3 ex_root [104; 105] [(2, [46]); (12, [104; 105])] 3) as (fs' & E);
    [apply ex_mounted_ok|apply ex_mounted_ok|by vm_compute|by vm_compute|by vm_compute|by vm_compute|by vm_compute|exact ex_chain|by vm_compute|by vm_compute|cbn; lia|].
  exists fs'. exact E.
Defined.

Lemma list_directory_hangs_witness : @list_directory ex_device 100 ex_root ex_mounted = Fuel.
Proof.
  apply (@list_directory_hangs ex_device 100 ex_mounted ex_root 2 12 1 46);
    [apply ex_mounted_ok|apply ex_mounted_ok|by vm_compute|apply ex_inodes_ok|by vm_compute..].
Defined.
