(* ===== verification/Syscall.v ===== *)
(** * System calls (kernel/syscall/dispatch.c)

    The system-call table and the handlers that work on the console, on the open files of a
    process (boot modules opened for reading) and on user memory.  User and kernel memory are
    one function from addresses to bytes, as in Uaccess.v; the handlers' local buffers have
    addresses there.  [None] is an access outside an array or an overflow of a signed integer.
    Waiting for console input ends the call with no result yet. *)
From stdpp Require Import list_numbers.
From S2P Require Import Prelude Defs Paging Vmm VmmRegion Uaccess Process.

(** ** Constants *)

Definition EIO : Z := 5.
Definition E2BIG : Z := 7.
Definition EROFS : Z := 30.

Definition PROCESS_FD_STDIN : Z := 0.
Definition PROCESS_FD_STDERR : Z := 2.
Definition PROCESS_FD_FIRST_USER : Z := 3.
Definition PROCESS_FILE_NONE : Z := 0.
Definition PROCESS_FILE_BOOT_MODULE : Z := 1.

Definition O_WRONLY : Z := 1.
Definition O_RDWR : Z := 2.
Definition O_CREAT : Z := 0x100.
Definition O_TRUNC : Z := 0x200.
Definition O_APPEND : Z := 0x400.
Definition SEEK_SET : Z := 0.
Definition SEEK_CUR : Z := 1.
Definition SEEK_END : Z := 2.

Definition EXEC_MAX_ARGS : Z := 16.
Definition EXEC_MAX_ARG_BYTES : Z := 512.

(** Conversion to i64; an addition of i64 values that overflows is undefined. *)
Definition s64 (x : Z) : Z := let y := u64 x in if y <? 2 ^ 63 then y else y - 2 ^ 64.
Definition i64_add (x y : Z) : option Z := if decide (- 2 ^ 63 <= x + y < 2 ^ 63) then Some (x + y) else None.

(** ** Boot modules *)

(** struct cached_module; the command line as a C string. *)
Record cached_module := mk_module { mod_address : Z; mod_size : Z; cmdline : list Z }.
Definition SIZEOF_MODULE : Z := 80.

(** What follows the last slash. *)
Fixpoint basename_from (best path : list Z) : list Z :=
  match path with [] => best | c :: r => if c =? 47 then basename_from r r else basename_from best r end.
Definition path_basename (path : list Z) : list Z := basename_from path path.

(** ".elf" *)
Definition elf_suffix : list Z := [46; 101; 108; 102].

Definition module_name_matches (module_name query : list Z) : bool :=
  bool_decide (module_name = query) ||
  ((0 <? zlen query) && bool_decide (take (length query) module_name = query) &&
   bool_decide (drop (length query) module_name = elf_suffix)).

Definition boot_module_matches (m : cached_module) (name : list Z) : bool :=
  let module_path := cmdline m in
  let module_base := path_basename module_path in
  let query_base := path_basename name in
  if bool_decide (module_path = name) || bool_decide (module_base = name) ||
     bool_decide (module_path = query_base) || bool_decide (module_base = query_base)
  then true else module_name_matches module_base query_base.

(** ** State *)

(** The current process: its identifiers and its table of open files. *)
Record proc_view := mk_pv { pv_pid : Z; pv_ppid : Z; pv_files : option (list process_file) }.

(** Memory, the address space and the process that make the call, what was written to the
    console and what will be typed. *)
Record sys := mk_sys { s_mem : memory; s_mm : option address_space; s_proc : option proc_view; s_out : list Z; s_in : list Z }.

Definition with_mem (m : memory) (s : sys) : sys := mk_sys m (s_mm s) (s_proc s) (s_out s) (s_in s).
Definition with_out (l : list Z) (s : sys) : sys := mk_sys (s_mem s) (s_mm s) (s_proc s) l (s_in s).
Definition with_in (l : list Z) (s : sys) : sys := mk_sys (s_mem s) (s_mm s) (s_proc s) (s_out s) l.
Definition with_files (f : list process_file) (s : sys) : sys :=
  mk_sys (s_mem s) (s_mm s) (match s_proc s with Some p => Some (mk_pv (pv_pid p) (pv_ppid p) (Some f)) | None => None end) (s_out s) (s_in s).
Definition serial_putc (c : Z) (s : sys) : sys := with_out (s_out s ++ [c]) s.

(** [n] bytes of memory, and the C string at an address inside a buffer of [n] bytes. *)
Definition mem_bytes (m : memory) (a n : Z) : list Z := m <$> seqZ a n.
Fixpoint kstring (n : nat) (m : memory) (a : Z) : option (list Z) :=
  match n with
  | O => None
  | S n => if m a =? 0 then Some [] else l ← kstring n m (a + 1); Some (m a :: l)
  end.

Definition get_process_files (s : sys) : option (list process_file) := p ← s_proc s; pv_files p.
Definition get_open_process_file (s : sys) (fd : Z) : option (option process_file) :=
  match get_process_files s with
  | None => Some None
  | Some files =>
      if (fd <? PROCESS_FD_FIRST_USER) || (PROCESS_MAX_OPEN_FILES <=? fd) then Some None else
      f ← zget files fd; Some (if f_kind f =? PROCESS_FILE_NONE then None else Some f)
  end.

Definition sys_getpid (s : sys) : Z := match s_proc s with Some p => pv_pid p | None => -1 end.
Definition sys_getppid (s : sys) : Z := match s_proc s with Some p => pv_ppid p | None => -1 end.

Section Handlers.
(** The boot modules and the address of their array; the addresses of the handlers' buffers: the
    chunk, path or character, the argument storage and the argument pointer. *)
Variables (modules : list cached_module) (mods_at buf_at args_at tmp_at : Z).

(** The address of the module found, 0 if there is none. *)
Definition find_boot_module (name : list Z) : option Z :=
  r ← for_return (length modules) 0
        (fun i (_ : unit) => m ← zget modules i; Some (if boot_module_matches m name then inr (mods_at + SIZEOF_MODULE * i) else inl tt)) tt;
  Some (match r with inr p => p | inl _ => 0 end).

Definition module_at (p : Z) : option cached_module :=
  if (p - mods_at) mod SIZEOF_MODULE =? 0 then zget modules ((p - mods_at) / SIZEOF_MODULE) else None.

(** ** Console output *)

(** The loop of sys_debug_print and sys_write: 128 bytes at a time. *)
Fixpoint put_chunks (fuel : nat) (buf count total : Z) (s : sys) : option (Z * sys) :=
  if total <? count then
    match fuel with
    | O => None
    | S fuel =>
        let n := Z.min 128 (u64 (count - total)) in
        '(ret, m) ← copy_from_user (s_mm s) (s_mem s) buf_at (u64 (buf + total)) n;
        let s := with_mem m s in
        if ret <? 0 then Some (if 0 <? total then s64 total else ret, s) else
        let s := with_out (s_out s ++ mem_bytes (s_mem s) buf_at n) s in
        put_chunks fuel buf count (u64 (total + n)) s
    end
  else Some (s64 total, s).

Definition sys_debug_print (msg len : Z) (s : sys) : option (Z * sys) :=
  if len =? 0 then Some (0, s) else
  if msg =? 0 then Some (- EFAULT, s) else put_chunks (Z.to_nat len) msg len 0 s.

Definition sys_write (fd buf count : Z) (s : sys) : option (Z * sys) :=
  if negb (fd =? 1) && negb (fd =? 2) then Some (- EBADF, s) else
  if count =? 0 then Some (0, s) else
  if buf =? 0 then Some (- EFAULT, s) else put_chunks (Z.to_nat count) buf count 0 s.

(** ** Reading *)

(** [copy_to_user(buf + i, &out, 1)] *)
Definition store_char (out buf i : Z) (s : sys) : option (Z * sys) :=
  '(ret, m) ← copy_to_user (s_mm s) (poke (s_mem s) buf_at out) (u64 (buf + i)) buf_at 1;
  Some (ret, with_mem m s).

(** The loop over the characters typed, [inp] those to come; [None] as a result when it waits
    for one. *)
Fixpoint read_console (inp : list Z) (buf count i : Z) (s : sys) : option (option Z * sys) :=
  if i <? count then
    match inp with
    | [] => Some (None, with_in [] s)
    | c :: inp =>
        let s := serial_putc c (with_in inp s) in
        if (c =? 10) || (c =? 13) then
          let s := if c =? 13 then serial_putc 10 s else s in
          '(ret, s) ← store_char 10 buf i s;
          Some (Some (if ret <? 0 then if 0 <? i then s64 i else ret else s64 (u64 (i + 1))), s)
        else
          '(ret, s) ← store_char c buf i s;
          if ret <? 0 then Some (Some (if 0 <? i then s64 i else ret), s)
          else read_console inp buf count (u64 (i + 1)) s
    end
  else Some (Some (s64 i), s).

(** The open file of a boot module under a descriptor. *)
Definition open_module (s : sys) (fd : Z) : option (option (process_file * cached_module)) :=
  o ← get_open_process_file s fd;
  match o with
  | None => Some None
  | Some f =>
      if negb (f_kind f =? PROCESS_FILE_BOOT_MODULE) || (f_module f =? 0) then Some None
      else m ← module_at (f_module f); Some (Some (f, m))
  end.

Definition set_file (s : sys) (fd : Z) (f : process_file) : option sys :=
  files ← get_process_files s; l ← zset files fd f; Some (with_files l s).

Definition sys_read (fd buf count : Z) (s : sys) : option (option Z * sys) :=
  if buf =? 0 then Some (Some (- EFAULT), s) else
  if count =? 0 then Some (Some 0, s) else
  if fd =? PROCESS_FD_STDIN then read_console (s_in s) buf count 0 s else
  match s_proc s with
  | None => Some (Some (- EBADF), s)
  | Some _ =>
      o ← open_module s fd;
      match o with
      | None => Some (Some (- EBADF), s)
      | Some (f, m) =>
          let available := if f_offset f <? mod_size m then Z.min count (u64 (mod_size m - f_offset f)) else 0 in
          let src := u64 (mod_address m + f_offset f) in
          if available =? 0 then Some (Some 0, s) else
          '(ret, mem) ← copy_to_user (s_mm s) (s_mem s) buf src available;
          let s := with_mem mem s in
          if ret <? 0 then Some (Some ret, s) else
          o ← open_module s fd;
          match o with
          | None => Some (Some (- EBADF), s)
          | Some (f, _) =>
              s ← set_file s fd (mk_file (f_kind f) (f_flags f) (f_module f) (u64 (f_offset f + available)));
              Some (Some (s64 available), s)
          end
      end
  end.

(** ** Files *)

Definition sys_open (path flags : Z) (s : sys) : option (Z * sys) :=
  if bool_decide (s_proc s = None) || (path =? 0) then Some (- EINVAL, s) else
  if negb (Z.land flags O_WRONLY =? 0) || negb (Z.land flags O_RDWR =? 0) ||
     negb (Z.land flags (Z.lor (Z.lor O_CREAT O_TRUNC) O_APPEND) =? 0) then Some (- EROFS, s) else
  '(path_len, m) ← copy_string_from_user (s_mm s) (s_mem s) buf_at 256 path;
  let s := with_mem m s in
  if path_len <? 0 then Some (path_len, s) else
  kpath ← kstring 256 (s_mem s) buf_at;
  modp ← find_boot_module kpath;
  if modp =? 0 then Some (- ENOENT, s) else
  match get_process_files s with
  | None => Some (- EMFILE, s)
  | Some files =>
      r ← for_return (Z.to_nat (PROCESS_MAX_OPEN_FILES - PROCESS_FD_FIRST_USER)) PROCESS_FD_FIRST_USER
            (fun fd (_ : unit) => f ← zget files fd; Some (if f_kind f =? PROCESS_FILE_NONE then inr fd else inl tt)) tt;
      match r with
      | inr fd => s ← set_file s fd (mk_file PROCESS_FILE_BOOT_MODULE (u32 flags) modp 0); Some (fd, s)
      | inl _ => Some (- EMFILE, s)
      end
  end.

Definition sys_close (fd : Z) (s : sys) : option (Z * sys) :=
  if (0 <=? fd) && (fd <=? PROCESS_FD_STDERR) then Some (0, s) else
  if bool_decide (s_proc s = None) then Some (- EBADF, s) else
  o ← get_open_process_file s fd;
  match o with
  | None => Some (- EBADF, s)
  | Some _ => s ← set_file s fd (mk_file 0 0 0 0); Some (0, s)
  end.

Definition sys_lseek (fd offset whence : Z) (s : sys) : option (Z * sys) :=
  if bool_decide (s_proc s = None) then Some (- EBADF, s) else
  o ← open_module s fd;
  match o with
  | None => Some (- EBADF, s)
  | Some (f, m) =>
      let go (base : Z) :=
        new_offset ← i64_add base offset;
        if (new_offset <? 0) || (mod_size m <? u64 new_offset) then Some (- EINVAL, s) else
        s ← set_file s fd (mk_file (f_kind f) (f_flags f) (f_module f) (u64 new_offset));
        Some (new_offset, s) in
      if whence =? SEEK_SET then go 0 else
      if whence =? SEEK_CUR then go (s64 (f_offset f)) else
      if whence =? SEEK_END then go (s64 (mod_size m)) else Some (- EINVAL, s)
  end.

(** ** exec *)

(** What sys_exec passes to exec_replace: the module, the name and the arguments. *)
Inductive exec_call := ExecFails (r : Z) | ExecRun (m : cached_module) (name : list Z) (args : list (list Z)).

(** [copy_from_user(&user_arg, argv + argc, sizeof(user_arg))] *)
Definition read_pointer (argv argc : Z) (s : sys) : option (Z * Z * sys) :=
  '(ret, m) ← copy_from_user (s_mm s) (s_mem s) tmp_at (u64 (argv + 8 * argc)) 8;
  Some (ret, little_endian_to_Z 8 (mem_bytes m tmp_at 8), with_mem m s).

(** The loop over the arguments: an error, or the arguments copied (by position in the storage). *)
Fixpoint copy_args (n : nat) (argv argc used : Z) (kargv : list Z) (s : sys) : option ((Z + list Z) * sys) :=
  match n with
  | O => Some (inr kargv, s)
  | S n =>
      '(ret, user_arg, s) ← read_pointer argv argc s;
      if ret <? 0 then Some (inl ret, s) else
      if user_arg =? 0 then Some (inr kargv, s) else
      if EXEC_MAX_ARG_BYTES <=? used then Some (inl (- E2BIG), s) else
      '(ret, m) ← copy_string_from_user (s_mm s) (s_mem s) (args_at + used) (EXEC_MAX_ARG_BYTES - used) user_arg;
      let s := with_mem m s in
      if ret <? 0 then Some (inl ret, s) else
      copy_args n argv (argc + 1) (used + ret + 1) (kargv ++ [args_at + used]) s
  end.

(** The strings that the pointers name; each ends inside the argument storage. *)
Definition arg_strings (m : memory) (kargv : list Z) : option (list (list Z)) :=
  mapM (fun p => kstring (Z.to_nat (args_at + EXEC_MAX_ARG_BYTES - p)) m p) kargv.

Definition sys_exec (path argv : Z) (s : sys) : option (exec_call * sys) :=
  if path =? 0 then Some (ExecFails (- EINVAL), s) else
  '(path_len, m) ← copy_string_from_user (s_mm s) (s_mem s) buf_at 256 path;
  let s := with_mem m s in
  if path_len <? 0 then Some (ExecFails path_len, s) else
  kpath ← kstring 256 (s_mem s) buf_at;
  modp ← find_boot_module kpath;
  if modp =? 0 then Some (ExecFails (- ENOENT), s) else
  '(res, s) ← (if argv =? 0 then Some (inr [], s) else
    '(res, s) ← copy_args (Z.to_nat EXEC_MAX_ARGS) argv 0 0 [] s;
    match res with
    | inl e => Some (inl e, s)
    | inr kargv =>
        if zlen kargv =? EXEC_MAX_ARGS then
          '(ret, overflow, s) ← read_pointer argv EXEC_MAX_ARGS s;
          Some (if ret <? 0 then inl ret else if negb (overflow =? 0) then inl (- E2BIG) else inr kargv, s)
        else Some (inr kargv, s)
    end);
  match res with
  | inl e => Some (ExecFails e, s)
  | inr kargv =>
      x ← module_at modp;
      name ← kstring 256 (s_mem s) buf_at;
      args ← arg_strings (s_mem s) kargv;
      let name := path_basename name in
      Some (ExecRun x name (if bool_decide (kargv = []) then [name] else args), s)
  end.

(** exec_replace does not return on success. *)
Definition exec_returned (rc : Z) : Z := if rc <? 0 then rc else - EIO.

(** ** wait *)

(** What follows process_wait, which returned [pid] and the status. *)
Definition sys_wait_done (status pid kstatus : Z) (s : sys) : option (Z * sys) :=
  if pid <? 0 then Some (pid, s) else
  if status =? 0 then Some (pid, s) else
  let m := fun x => if (buf_at <=? x) && (x <? buf_at + 4) then default 0 (Z_to_little_endian 4 8 kstatus !! Z.to_nat (x - buf_at)) else s_mem s x in
  '(ret, m) ← copy_to_user (s_mm s) m status buf_at 4;
  Some (if ret <? 0 then ret else pid, with_mem m s).

End Handlers.
