(* ===== verification/SyscallTable.v ===== *)
(** * The system-call table (kernel/syscall/dispatch.c, lib/libocean/include/ocean/syscall.h)

    How a system call gets from the wrapper a program calls, through the registers, to the
    handler with its arguments: the wrappers of the user library, the dispatch functions that
    convert the registers to the handlers' types, and the table.  A call is the handler with the
    arguments it receives; envp, mode and other arguments that handlers ignore are kept. *)
From S2P Require Import Prelude Defs Uaccess Syscall.

Definition NR_SYSCALLS : Z := 128.
Definition SYS_EXIT : Z := 0.
Definition SYS_FORK : Z := 1.
Definition SYS_EXEC : Z := 2.
Definition SYS_WAIT : Z := 3.
Definition SYS_GETPID : Z := 4.
Definition SYS_GETPPID : Z := 5.
Definition SYS_YIELD : Z := 10.
Definition SYS_OPEN : Z := 30.
Definition SYS_CLOSE : Z := 31.
Definition SYS_READ : Z := 32.
Definition SYS_WRITE : Z := 33.
Definition SYS_LSEEK : Z := 34.
Definition SYS_IPC_SEND : Z := 50.
Definition SYS_IPC_RECV : Z := 51.
Definition SYS_IPC_CALL : Z := 52.
Definition SYS_IPC_REPLY : Z := 53.
Definition SYS_ENDPOINT_CREATE : Z := 60.
Definition SYS_ENDPOINT_DESTROY : Z := 61.
Definition SYS_ENDPOINT_CREATE_WKE : Z := 66.
Definition SYS_DEBUG_PRINT : Z := 99.

(** The handlers and what they are called with. *)
Inductive call :=
  | CExit (code : Z)
  | CFork
  | CExec (path argv envp : Z)
  | CWait (status : Z)
  | CGetpid
  | CGetppid
  | CYield
  | COpen (path flags mode : Z)
  | CClose (fd : Z)
  | CRead (fd buf count : Z)
  | CWrite (fd buf count : Z)
  | CLseek (fd offset whence : Z)
  | CIpcSend (ep tag m1 m2 m3 m4 : Z)
  | CIpcRecv (ep tag_ptr p1 p2 p3 p4 : Z)
  | CIpcCall (ep frame_ptr : Z)
  | CIpcReply (tag m1 m2 m3 m4 : Z)
  | CEndpointCreate (flags : Z)
  | CEndpointDestroy (ep_id : Z)
  | CEndpointCreateWke (id flags : Z)
  | CDebugPrint (msg len : Z).

(** ** The kernel side *)

(** The six arguments. *)
Record args := mk_args { arg1 : Z; arg2 : Z; arg3 : Z; arg4 : Z; arg5 : Z; arg6 : Z }.

Definition sys_exit_dispatch (a : args) : call := CExit (s32 (arg1 a)).
Definition sys_fork_dispatch (a : args) : call := CFork.
Definition sys_exec_dispatch (a : args) : call := CExec (arg1 a) (arg2 a) (arg3 a).
Definition sys_wait_dispatch (a : args) : call := CWait (arg1 a).
Definition sys_getpid_dispatch (a : args) : call := CGetpid.
Definition sys_getppid_dispatch (a : args) : call := CGetppid.
Definition sys_yield_dispatch (a : args) : call := CYield.
Definition sys_open_dispatch (a : args) : call := COpen (arg1 a) (arg2 a) (arg3 a).
Definition sys_close_dispatch (a : args) : call := CClose (s32 (arg1 a)).
Definition sys_read_dispatch (a : args) : call := CRead (s32 (arg1 a)) (arg2 a) (arg3 a).
Definition sys_write_dispatch (a : args) : call := CWrite (s32 (arg1 a)) (arg2 a) (arg3 a).
Definition sys_lseek_dispatch (a : args) : call := CLseek (s32 (arg1 a)) (s64 (arg2 a)) (s32 (arg3 a)).
Definition sys_ipc_send_dispatch (a : args) : call := CIpcSend (u32 (arg1 a)) (arg2 a) (arg3 a) (arg4 a) (arg5 a) (arg6 a).
Definition sys_ipc_recv_dispatch (a : args) : call := CIpcRecv (u32 (arg1 a)) (arg2 a) (arg3 a) (arg4 a) (arg5 a) (arg6 a).
Definition sys_ipc_call_dispatch (a : args) : call := CIpcCall (u32 (arg1 a)) (arg2 a).
Definition sys_ipc_reply_dispatch (a : args) : call := CIpcReply (arg1 a) (arg2 a) (arg3 a) (arg4 a) (arg5 a).
Definition sys_endpoint_create_dispatch (a : args) : call := CEndpointCreate (u32 (arg1 a)).
Definition sys_endpoint_destroy_dispatch (a : args) : call := CEndpointDestroy (u32 (arg1 a)).
Definition sys_endpoint_create_wke_dispatch (a : args) : call := CEndpointCreateWke (u32 (arg1 a)) (u32 (arg2 a)).
Definition sys_debug_print_dispatch (a : args) : call := CDebugPrint (arg1 a) (arg2 a).

(** The entry of the table under a number; the others are NULL. *)
Definition syscall_table (nr : Z) : option (args -> call) :=
  if nr =? SYS_EXIT then Some sys_exit_dispatch
  else if nr =? SYS_FORK then Some sys_fork_dispatch
  else if nr =? SYS_EXEC then Some sys_exec_dispatch
  else if nr =? SYS_WAIT then Some sys_wait_dispatch
  else if nr =? SYS_GETPID then Some sys_getpid_dispatch
  else if nr =? SYS_GETPPID then Some sys_getppid_dispatch
  else if nr =? SYS_YIELD then Some sys_yield_dispatch
  else if nr =? SYS_OPEN then Some sys_open_dispatch
  else if nr =? SYS_CLOSE then Some sys_close_dispatch
  else if nr =? SYS_READ then Some sys_read_dispatch
  else if nr =? SYS_WRITE then Some sys_write_dispatch
  else if nr =? SYS_LSEEK then Some sys_lseek_dispatch
  else if nr =? SYS_IPC_SEND then Some sys_ipc_send_dispatch
  else if nr =? SYS_IPC_RECV then Some sys_ipc_recv_dispatch
  else if nr =? SYS_IPC_CALL then Some sys_ipc_call_dispatch
  else if nr =? SYS_IPC_REPLY then Some sys_ipc_reply_dispatch
  else if nr =? SYS_ENDPOINT_CREATE then Some sys_endpoint_create_dispatch
  else if nr =? SYS_ENDPOINT_DESTROY then Some sys_endpoint_destroy_dispatch
  else if nr =? SYS_ENDPOINT_CREATE_WKE then Some sys_endpoint_create_wke_dispatch
  else if nr =? SYS_DEBUG_PRINT then Some sys_debug_print_dispatch
  else None.

(** The error, or the handler to run. *)
Definition syscall_dispatch (nr : Z) (a : args) : Z + call :=
  if NR_SYSCALLS <=? nr then inl (- ENOSYS) else
  match syscall_table nr with
  | None => inl (- ENOSYS)
  | Some handler => inr (handler a)
  end.

(** From the registers saved on the kernel stack. *)
Definition syscall_dispatch_frame (nr : Z) (frame : list Z) : option (Z + call) :=
  a1 ← zget frame 9; a2 ← zget frame 10; a3 ← zget frame 11; a4 ← zget frame 5; a5 ← zget frame 7; a6 ← zget frame 6;
  Some (syscall_dispatch nr (mk_args a1 a2 a3 a4 a5 a6)).

(** ** The user side *)

(** The registers of a system call; a wrapper leaves those it does not set. *)
Record regs := mk_regs { rax : Z; rdi : Z; rsi : Z; rdx : Z; r10 : Z; r8 : Z; r9 : Z }.

Definition syscall0 (nr : Z) (r : regs) : regs := mk_regs (u64 nr) (rdi r) (rsi r) (rdx r) (r10 r) (r8 r) (r9 r).
Definition syscall1 (nr a1 : Z) (r : regs) : regs := mk_regs (u64 nr) (u64 a1) (rsi r) (rdx r) (r10 r) (r8 r) (r9 r).
Definition syscall2 (nr a1 a2 : Z) (r : regs) : regs := mk_regs (u64 nr) (u64 a1) (u64 a2) (rdx r) (r10 r) (r8 r) (r9 r).
Definition syscall3 (nr a1 a2 a3 : Z) (r : regs) : regs := mk_regs (u64 nr) (u64 a1) (u64 a2) (u64 a3) (r10 r) (r8 r) (r9 r).
Definition syscall5 (nr a1 a2 a3 a4 a5 : Z) (r : regs) : regs := mk_regs (u64 nr) (u64 a1) (u64 a2) (u64 a3) (u64 a4) (u64 a5) (r9 r).
Definition syscall6 (nr a1 a2 a3 a4 a5 a6 : Z) (r : regs) : regs :=
  mk_regs (u64 nr) (u64 a1) (u64 a2) (u64 a3) (u64 a4) (u64 a5) (u64 a6).

Definition u_exit (code : Z) (r : regs) : regs := syscall1 SYS_EXIT code r.
Definition u_fork (r : regs) : regs := syscall0 SYS_FORK r.
Definition execv (path argv : Z) (r : regs) : regs := syscall3 SYS_EXEC path argv 0 r.
Definition u_wait (status : Z) (r : regs) : regs := syscall1 SYS_WAIT status r.
Definition u_getpid (r : regs) : regs := syscall0 SYS_GETPID r.
Definition u_getppid (r : regs) : regs := syscall0 SYS_GETPPID r.
Definition u_yield (r : regs) : regs := syscall0 SYS_YIELD r.
Definition u_open (path flags mode : Z) (r : regs) : regs := syscall3 SYS_OPEN path flags mode r.
Definition u_close (fd : Z) (r : regs) : regs := syscall1 SYS_CLOSE fd r.
Definition u_read (fd buf count : Z) (r : regs) : regs := syscall3 SYS_READ fd buf count r.
Definition u_write (fd buf count : Z) (r : regs) : regs := syscall3 SYS_WRITE fd buf count r.
Definition u_lseek (fd offset whence : Z) (r : regs) : regs := syscall3 SYS_LSEEK fd offset whence r.
Definition u_ipc_send (ep tag m1 m2 m3 m4 : Z) (r : regs) : regs := syscall6 SYS_IPC_SEND ep tag m1 m2 m3 m4 r.
Definition u_ipc_recv (ep tag_ptr p1 p2 p3 p4 : Z) (r : regs) : regs := syscall6 SYS_IPC_RECV ep tag_ptr p1 p2 p3 p4 r.
Definition u_ipc_call (ep frame_ptr : Z) (r : regs) : regs := syscall2 SYS_IPC_CALL ep frame_ptr r.
Definition u_ipc_reply (tag m1 m2 m3 m4 : Z) (r : regs) : regs := syscall5 SYS_IPC_REPLY tag m1 m2 m3 m4 r.
Definition u_endpoint_create (flags : Z) (r : regs) : regs := syscall1 SYS_ENDPOINT_CREATE flags r.
Definition u_endpoint_destroy (ep_id : Z) (r : regs) : regs := syscall1 SYS_ENDPOINT_DESTROY ep_id r.
Definition u_endpoint_create_well_known (id flags : Z) (r : regs) : regs := syscall2 SYS_ENDPOINT_CREATE_WKE id flags r.
Definition u_debug_print (msg len : Z) (r : regs) : regs := syscall2 SYS_DEBUG_PRINT msg len r.

(** The wrapper for a call. *)
Definition wrapper (c : call) : regs -> regs :=
  match c with
  | CExit code => u_exit code
  | CFork => u_fork
  | CExec path argv _ => execv path argv
  | CWait status => u_wait status
  | CGetpid => u_getpid
  | CGetppid => u_getppid
  | CYield => u_yield
  | COpen path flags mode => u_open path flags mode
  | CClose fd => u_close fd
  | CRead fd buf count => u_read fd buf count
  | CWrite fd buf count => u_write fd buf count
  | CLseek fd offset whence => u_lseek fd offset whence
  | CIpcSend ep tag m1 m2 m3 m4 => u_ipc_send ep tag m1 m2 m3 m4
  | CIpcRecv ep tag_ptr p1 p2 p3 p4 => u_ipc_recv ep tag_ptr p1 p2 p3 p4
  | CIpcCall ep frame_ptr => u_ipc_call ep frame_ptr
  | CIpcReply tag m1 m2 m3 m4 => u_ipc_reply tag m1 m2 m3 m4
  | CEndpointCreate flags => u_endpoint_create flags
  | CEndpointDestroy ep_id => u_endpoint_destroy ep_id
  | CEndpointCreateWke id flags => u_endpoint_create_well_known id flags
  | CDebugPrint msg len => u_debug_print msg len
  end.

(** The kernel's entry passes the registers on in order. *)
Definition syscall_entry (r : regs) : Z + call := syscall_dispatch (rax r) (mk_args (rdi r) (rsi r) (rdx r) (r10 r) (r8 r) (r9 r)).

(** ** Theorems *)

Definition int_ok (x : Z) : Prop := - 2 ^ 31 <= x < 2 ^ 31.
Definition i64_ok (x : Z) : Prop := - 2 ^ 63 <= x < 2 ^ 63.
Definition u32_ok (x : Z) : Prop := 0 <= x < 2 ^ 32.
Definition u64_ok (x : Z) : Prop := 0 <= x < 2 ^ 64.

(** The arguments have the types of the wrapper's parameters; execv passes no environment. *)
Definition call_ok (c : call) : Prop :=
  match c with
  | CExit code => int_ok code
  | CFork => True
  | CExec path argv envp => u64_ok path /\ u64_ok argv /\ envp = 0
  | CWait status => u64_ok status
  | CGetpid => True
  | CGetppid => True
  | CYield => True
  | COpen path flags mode => u64_ok path /\ u64_ok flags /\ u64_ok mode
  | CClose fd => int_ok fd
  | CRead fd buf count => int_ok fd /\ u64_ok buf /\ u64_ok count
  | CWrite fd buf count => int_ok fd /\ u64_ok buf /\ u64_ok count
  | CLseek fd offset whence => int_ok fd /\ i64_ok offset /\ int_ok whence
  | CIpcSend ep tag m1 m2 m3 m4 => u32_ok ep /\ u64_ok tag /\ u64_ok m1 /\ u64_ok m2 /\ u64_ok m3 /\ u64_ok m4
  | CIpcRecv ep tag_ptr p1 p2 p3 p4 => u32_ok ep /\ u64_ok tag_ptr /\ u64_ok p1 /\ u64_ok p2 /\ u64_ok p3 /\ u64_ok p4
  | CIpcCall ep frame_ptr => u32_ok ep /\ u64_ok frame_ptr
  | CIpcReply tag m1 m2 m3 m4 => u64_ok tag /\ u64_ok m1 /\ u64_ok m2 /\ u64_ok m3 /\ u64_ok m4
  | CEndpointCreate flags => u32_ok flags
  | CEndpointDestroy ep_id => u32_ok ep_id
  | CEndpointCreateWke id flags => u32_ok id /\ u32_ok flags
  | CDebugPrint msg len => u64_ok msg /\ u64_ok len
  end.

Lemma s32_u64 x : int_ok x -> s32 (u64 x) = x.
Proof.
  unfold int_ok, s32. intros Hx. assert (u32 (u64 x) = u32 x) as ->.
  { unfold u32, u64, wrap. apply Z.mod_mod_divide. by exists (2 ^ 32). }
  destruct (Z.ltb_spec x 0) as [Hn|Hn].
  - replace (u32 x) with (x + 2 ^ 32); [destruct (Z.ltb_spec (x + 2 ^ 32) (2 ^ 31)); lia|].
    unfold u32, wrap. apply (Z.mod_unique _ _ (-1)); lia.
  - rewrite u32_small by lia. destruct (Z.ltb_spec x (2 ^ 31)); lia.
Qed.

Lemma s64_u64 x : i64_ok x -> s64 (u64 x) = x.
Proof.
  unfold i64_ok, s64. intros Hx. rewrite u64_idemp. destruct (Z.ltb_spec x 0) as [Hn|Hn].
  - replace (u64 x) with (x + 2 ^ 64); [destruct (Z.ltb_spec (x + 2 ^ 64) (2 ^ 63)); lia|].
    unfold u64, wrap. apply (Z.mod_unique _ _ (-1)); lia.
  - rewrite u64_small by lia. destruct (Z.ltb_spec x (2 ^ 63)); lia.
Qed.

Lemma u32_u64 x : u32_ok x -> u32 (u64 x) = x.
Proof. unfold u32_ok. intros Hx. rewrite u64_small, u32_small by lia. done. Qed.

Lemma u64_ok_id x : u64_ok x -> u64 x = x.
Proof. apply u64_small. Qed.

(** The registers as the handlers convert them. *)
Definition received (c : call) : call :=
  match c with
  | CExit code => CExit (s32 (u64 code))
  | CFork => CFork
  | CExec path argv _ => CExec (u64 path) (u64 argv) (u64 0)
  | CWait status => CWait (u64 status)
  | CGetpid => CGetpid
  | CGetppid => CGetppid
  | CYield => CYield
  | COpen path flags mode => COpen (u64 path) (u64 flags) (u64 mode)
  | CClose fd => CClose (s32 (u64 fd))
  | CRead fd buf count => CRead (s32 (u64 fd)) (u64 buf) (u64 count)
  | CWrite fd buf count => CWrite (s32 (u64 fd)) (u64 buf) (u64 count)
  | CLseek fd offset whence => CLseek (s32 (u64 fd)) (s64 (u64 offset)) (s32 (u64 whence))
  | CIpcSend ep tag m1 m2 m3 m4 => CIpcSend (u32 (u64 ep)) (u64 tag) (u64 m1) (u64 m2) (u64 m3) (u64 m4)
  | CIpcRecv ep tag_ptr p1 p2 p3 p4 => CIpcRecv (u32 (u64 ep)) (u64 tag_ptr) (u64 p1) (u64 p2) (u64 p3) (u64 p4)
  | CIpcCall ep frame_ptr => CIpcCall (u32 (u64 ep)) (u64 frame_ptr)
  | CIpcReply tag m1 m2 m3 m4 => CIpcReply (u64 tag) (u64 m1) (u64 m2) (u64 m3) (u64 m4)
  | CEndpointCreate flags => CEndpointCreate (u32 (u64 flags))
  | CEndpointDestroy ep_id => CEndpointDestroy (u32 (u64 ep_id))
  | CEndpointCreateWke id flags => CEndpointCreateWke (u32 (u64 id)) (u32 (u64 flags))
  | CDebugPrint msg len => CDebugPrint (u64 msg) (u64 len)
  end.

Lemma entry_received c r : syscall_entry (wrapper c r) = inr (received c).
Proof. by destruct c. Qed.

(** C31.  System calls arrive as they were made: through every wrapper of the user library, with
    any arguments of its parameter types (negative descriptors and offsets included) and whatever
    the other registers hold, the kernel runs the handler of that call with those arguments. *)
Theorem syscall_roundtrip c r : call_ok c -> syscall_entry (wrapper c r) = inr c.
Proof.
  intros Hc. rewrite entry_received. f_equal. destruct c; cbn [call_ok] in Hc; destruct_and?; cbn [received];
    rewrite ?s32_u64, ?s64_u64, ?u32_u64, ?u64_ok_id by done; congruence || done.
Qed.

Lemma syscall_roundtrip_witness : syscall_entry (wrapper (CLseek (-1) (-5) 2) (mk_regs 1 2 3 4 5 6 7)) = inr (CLseek (-1) (-5) 2).
Proof. apply (syscall_roundtrip (CLseek (-1) (-5) 2) (mk_regs 1 2 3 4 5 6 7)). done. Defined.

(** The numbers in use. *)
Definition syscall_numbers : list Z :=
  [SYS_EXIT; SYS_FORK; SYS_EXEC; SYS_WAIT; SYS_GETPID; SYS_GETPPID; SYS_YIELD; SYS_OPEN; SYS_CLOSE; SYS_READ; SYS_WRITE; SYS_LSEEK; SYS_IPC_SEND; SYS_IPC_RECV; SYS_IPC_CALL; SYS_IPC_REPLY; SYS_ENDPOINT_CREATE; SYS_ENDPOINT_DESTROY; SYS_ENDPOINT_CREATE_WKE; SYS_DEBUG_PRINT].

(** Every other number, however large, is refused with -ENOSYS and no handler runs; the
    frame variant passes on the same registers. *)
Theorem syscall_dispatch_spec nr a frame r : 0 <= nr ->
  (nr ∉ syscall_numbers <-> syscall_dispatch nr a = inl (- ENOSYS)) /\
  (nr ∈ syscall_numbers <-> exists c, syscall_dispatch nr a = inr c) /\
  ([frame !! 5%nat; frame !! 6%nat; frame !! 7%nat; frame !! 9%nat; frame !! 10%nat; frame !! 11%nat] =
     [Some (r10 r); Some (r9 r); Some (r8 r); Some (rdi r); Some (rsi r); Some (rdx r)] ->
   syscall_dispatch_frame (rax r) frame = Some (syscall_entry r)).
Proof.
  intros Hnr. assert ((nr ∈ syscall_numbers /\ exists c, syscall_dispatch nr a = inr c) \/ (nr ∉ syscall_numbers /\ syscall_dispatch nr a = inl (- ENOSYS))) as Hd.
  { destruct (decide (nr ∈ syscall_numbers)) as [Hin|Hout]; [left|right]; (split; [done|]).
    - repeat (apply elem_of_cons in Hin as [->|Hin]; [by eexists|]). by apply not_elem_of_nil in Hin.
    - unfold syscall_dispatch, syscall_table. repeat (apply not_elem_of_cons in Hout as [?%Z.eqb_neq Hout]).
      repeat match goal with E : (nr =? _) = false |- _ => rewrite E; clear E end. by destruct (NR_SYSCALLS <=? nr). }
  split; [|split].
  - destruct Hd as [[Hin [c Hc] ]|[Hout Hd] ]; [|done]. split; [done|]. by rewrite Hc.
  - destruct Hd as [[Hin Hc]|[Hout Hd] ]; [done|]. split; [done|]. intros [c Hc]. by rewrite Hd in Hc.
  - intros [= E5 E6 E7 E9 E10 E11]. unfold syscall_dispatch_frame.
    rewrite (zget_nat frame 5 : zget frame 5 = _), (zget_nat frame 6 : zget frame 6 = _), (zget_nat frame 7 : zget frame 7 = _),
      (zget_nat frame 9 : zget frame 9 = _), (zget_nat frame 10 : zget frame 10 = _), (zget_nat frame 11 : zget frame 11 = _).
    by rewrite E5, E6, E7, E9, E10, E11.
Qed.

Lemma syscall_dispatch_spec_witness : 0 <= 11 /\ syscall_dispatch 11 (mk_args 0 0 0 0 0 0) = inl (- ENOSYS).
Proof.
  split; [lia|]. apply (syscall_dispatch_spec 11 (mk_args 0 0 0 0 0 0) [] (mk_regs 0 0 0 0 0 0 0)); [lia|].
  intros H. repeat (apply elem_of_cons in H as [H|H]; [discriminate H|]). by apply not_elem_of_nil in H.
Defined.
