(* ===== verification/SyscallSpec.v ===== *)
(** * What the system calls do

    Console output and input, the open files of a process and the arguments of exec, stated on
    user memory and on the bytes of the boot modules. *)
From stdpp Require Import list_numbers.
From S2P Require Import Prelude Defs Paging Vmm VmmRegion Uaccess Process Syscall.

(** ** Memory *)

Definition apart (a n b k : Z) : Prop := a + n <= b \/ b + k <= a.

(** Nothing but the [n] bytes at [a] changed. *)
Definition only_at (a n : Z) (m m' : memory) : Prop := forall x, ~ a <= x < a + n -> m' x = m x.

Definition mm_wf (s : sys) : Prop := forall a, s_mm s = Some a -> vmas_wf (vma_list a).

Lemma mem_bytes_length m a n : 0 <= n -> zlen (mem_bytes m a n) = n.
Proof. intros Hn. unfold mem_bytes, zlen. rewrite length_fmap, length_seqZ. lia. Qed.

Lemma mem_bytes_app m a n k : 0 <= n -> 0 <= k -> mem_bytes m a (n + k) = mem_bytes m a n ++ mem_bytes m (a + n) k.
Proof. intros. unfold mem_bytes. by rewrite seqZ_app, fmap_app by lia. Qed.

Lemma mem_bytes_ext m m' a a' n : (forall k, 0 <= k < n -> m' (a' + k) = m (a + k)) -> mem_bytes m' a' n = mem_bytes m a n.
Proof.
  intros H. unfold mem_bytes. apply list_eq. intros i. rewrite !list_lookup_fmap. destruct (decide (Z.of_nat i < n)).
  - rewrite !lookup_seqZ_lt by lia. cbn [fmap option_fmap option_map]. by rewrite H by lia.
  - by rewrite !lookup_seqZ_ge by lia.
Qed.

Lemma memcpy_in m d s n x : d <= x < d + n -> memcpy m d s n x = m (s + (x - d)).
Proof. intros H. unfold memcpy. by rewrite (proj2 (Z.leb_le _ _)), (proj2 (Z.ltb_lt _ _)) by lia. Qed.

Lemma memcpy_out m d s n : only_at d n m (memcpy m d s n).
Proof.
  intros x Hx. unfold memcpy. destruct (Z.leb_spec d x); [|done]. destruct (Z.ltb_spec x (d + n)); [lia|done].
Qed.

Lemma range_ok_app mm p n k r : 0 <= n -> 0 <= k -> user_range_ok mm p n r -> user_range_ok mm (p + n) k r -> user_range_ok mm p (n + k) r.
Proof.
  intros Hn Hk [Hp H1] [_ H2]. split; [done|]. destruct (decide (k = 0)) as [->|]; [rewrite Z.add_0_r; done|].
  destruct (decide (n = 0)) as [->|]; [rewrite Z.add_0_r in H2; done|].
  destruct H1 as [|(_ & a & -> & H1)]; [lia|]. destruct H2 as [|(Hle & b & E & H2)]; [lia|]. injection E as <-. right. split; [lia|]. exists a. split; [done|].
  intros x Hx. destruct (decide (x < p + n)); [apply H1|apply H2]; lia.
Qed.

(** The copies as the handlers use them. *)
Lemma copy_in_ok s k u n : mm_wf s -> k ≠ 0 -> 0 <= u < 2 ^ 64 -> 0 < n < 2 ^ 64 ->
  (copy_from_user (s_mm s) (s_mem s) k u n = Some (0, memcpy (s_mem s) k u n) /\ user_range_ok (s_mm s) u n VMA_READ) \/
  (copy_from_user (s_mm s) (s_mem s) k u n = Some (- EFAULT, s_mem s) /\ ~ user_range_ok (s_mm s) u n VMA_READ).
Proof.
  intros W Hk Hu Hn. unfold copy_from_user. rewrite (proj2 (Z.eqb_neq k 0)), (proj2 (Z.eqb_neq n 0)) by lia.
  destruct (validate_ok (s_mm s) u n VMA_READ W) as [[-> H]|[-> H] ]; [unfold fits; lia..|left|right]; done.
Qed.

Lemma copy_out_ok mm m k u n : (forall a, mm = Some a -> vmas_wf (vma_list a)) -> k ≠ 0 -> 0 <= u < 2 ^ 64 -> 0 < n < 2 ^ 64 ->
  (copy_to_user mm m u k n = Some (0, memcpy m u k n) /\ user_range_ok mm u n VMA_WRITE) \/
  (copy_to_user mm m u k n = Some (- EFAULT, m) /\ ~ user_range_ok mm u n VMA_WRITE).
Proof.
  intros W Hk Hu Hn. unfold copy_to_user. rewrite (proj2 (Z.eqb_neq k 0)), (proj2 (Z.eqb_neq n 0)) by lia.
  destruct (validate_ok mm u n VMA_WRITE W) as [[-> H]|[-> H] ]; [unfold fits; lia..|left|right]; done.
Qed.

Section Console.
Variable buf_at : Z.
Hypothesis Hbuf : 2 ^ 47 <= buf_at.

(** What a write of [count] bytes from [buf] did: [k] of them were printed. *)
Definition printed (s : sys) (buf count k ret : Z) (s' : sys) : Prop :=
  only_at buf_at 128 (s_mem s) (s_mem s') /\ s_mm s' = s_mm s /\ s_proc s' = s_proc s /\ s_in s' = s_in s /\
  s_out s' = s_out s ++ mem_bytes (s_mem s) buf k /\ user_range_ok (s_mm s) buf k VMA_READ /\
  ((k = count /\ ret = count) \/
   (0 <= k < count /\ k mod 128 = 0 /\ ~ user_range_ok (s_mm s) (buf + k) (Z.min 128 (count - k)) VMA_READ /\
    ret = if 0 <? k then k else - EFAULT)).

Lemma s64_small x : 0 <= x < 2 ^ 63 -> s64 x = x.
Proof. intros H. unfold s64. rewrite u64_small by lia. by rewrite (proj2 (Z.ltb_lt _ _)) by lia. Qed.

Lemma put_chunks_ok fuel buf count total s0 s :
  mm_wf s0 -> 0 < buf < 2 ^ 64 -> 0 < count < 2 ^ 64 -> 0 <= total <= count -> count - total <= Z.of_nat fuel ->
  (total = count \/ total mod 128 = 0) -> (total = 0 \/ user_range_ok (s_mm s0) buf total VMA_READ) ->
  only_at buf_at 128 (s_mem s0) (s_mem s) -> s_mm s = s_mm s0 -> s_proc s = s_proc s0 -> s_in s = s_in s0 ->
  s_out s = s_out s0 ++ mem_bytes (s_mem s0) buf total ->
  exists k ret s', put_chunks buf_at fuel buf count total s = Some (ret, s') /\ printed s0 buf count k ret s'.
Proof using Hbuf.
  intros W Hb Hc. revert total s. induction fuel as [|fuel IH]; intros total s Ht Hf Hal Hok Hm Emm Ep Ei Eo; cbn [put_chunks].
  all: destruct (Z.ltb_spec total count) as [Hlt|Hge];
    [|assert (total = count) as -> by lia; assert (user_range_ok (s_mm s0) buf count VMA_READ) as Hr by (by destruct Hok as [->|]; [lia|]);
      assert (count < 2 ^ 63) by (destruct Hr as [_ [|[? _] ] ]; lia);
      exists count, count, s; rewrite s64_small by lia; (split; [done|]); split_and!; try done; by left].
  { lia. }
  assert (buf + total < 2 ^ 64) as Hbt by (destruct Hok as [->|[_ [->|[? _] ] ] ]; lia).
  rewrite (u64_small (count - total)), (u64_small (buf + total)) by lia. set (n := Z.min 128 (count - total)). rewrite Emm.
  assert (mm_wf s) as W' by (unfold mm_wf; by rewrite Emm).
  assert (user_range_ok (s_mm s0) buf total VMA_READ) as Hr by (destruct Hok as [->|]; [split; [lia|by left]|done]).
  pose proof (copy_in_ok s buf_at (buf + total) n W' ltac:(lia) ltac:(lia) ltac:(lia)) as Hcp. rewrite Emm in Hcp.
  destruct Hcp as [[-> Hrd]|[-> Hrd] ]; cbn [mbind option_bind].
  - change (0 <? 0) with false. cbv iota. assert (buf + total + n <= 2 ^ 47) as Hend by (destruct Hrd as [_ [|[? _] ] ]; lia).
    rewrite u64_small by lia. apply IH; try done; try lia.
    + destruct (decide (n = 128)) as [En|En]; [right|left; lia]. destruct Hal as [->|Hal]; [lia|]. rewrite En. rewrite <- (Z.mul_1_l 128) at 1. by rewrite Z.mod_add.
    + right. by apply range_ok_app; [lia|lia|..].
    + intros x Hx. cbn [with_mem with_out s_mem]. rewrite memcpy_out by lia. by apply Hm.
    + cbn [with_mem with_out s_mem s_out]. rewrite Eo, <- app_assoc, mem_bytes_app by lia. do 2 f_equal. apply mem_bytes_ext.
      intros k Hk. rewrite memcpy_in by lia. replace (buf + total + (buf_at + k - buf_at)) with (buf + total + k) by lia. apply Hm. lia.
  - change (- EFAULT <? 0) with true. cbv iota. eexists total, _, _. split; [done|]. assert (total < 2 ^ 63) by (destruct Hr as [_ [->|[? _] ] ]; lia). rewrite s64_small by lia.
    split_and!; try done. right. destruct Hal as [->|Hal]; [lia|]. split_and!; try done; lia.
Qed.

(** Writing to the console prints exactly user bytes: sys_write and sys_debug_print print the
    first [k] of the bytes asked for, all of them readable memory of the process, and change
    nothing but their chunk buffer.  They print everything and return the count if every byte is
    readable; otherwise they stop at a chunk of 128 bytes that is not and return how many were
    printed before it, or -EFAULT if none was. *)
Theorem console_write_spec s fd buf count : mm_wf s -> fd = 1 \/ fd = 2 -> 0 < buf < 2 ^ 64 -> 0 < count < 2 ^ 64 ->
  exists k ret s', sys_write buf_at fd buf count s = Some (ret, s') /\ sys_debug_print buf_at buf count s = Some (ret, s') /\
    printed s buf count k ret s'.
Proof using Hbuf.
  intros W Hfd Hb Hc. unfold sys_write, sys_debug_print. assert (negb (fd =? 1) && negb (fd =? 2) = false) as -> by (destruct Hfd as [->| ->]; done).
  rewrite (proj2 (Z.eqb_neq count 0)), (proj2 (Z.eqb_neq buf 0)) by lia.
  destruct (put_chunks_ok (Z.to_nat count) buf count 0 s s W Hb Hc) as (k & ret & s' & E & R); try done; [lia|lia|by right|by left|by rewrite app_nil_r|].
  by exists k, ret, s'.
Qed.

(** ** Console input *)

(** The bytes [l] are at [a]; nothing else changed but the handler's character. *)
Definition stored (a : Z) (l : list Z) (m m' : memory) : Prop :=
  mem_bytes m' a (zlen l) = l /\ forall x, x ≠ buf_at -> ~ a <= x < a + zlen l -> m' x = m x.

Lemma store_char_ok s c buf i : mm_wf s -> 0 <= buf + i < 2 ^ 64 -> user_range_ok (s_mm s) (buf + i) 1 VMA_WRITE ->
  exists m', store_char buf_at c buf i s = Some (0, with_mem m' s) /\ stored (buf + i) [c] (s_mem s) m'.
Proof using Hbuf.
  intros W Hb Hw. unfold store_char. rewrite u64_small by lia.
  destruct (copy_out_ok (s_mm s) (poke (s_mem s) buf_at c) buf_at (buf + i) 1 W) as [[-> _]|[_ Hn] ]; [lia..| |done].
  eexists. split; [done|]. assert (buf + i < 2 ^ 47) by (destruct Hw as [_ [|[? _] ] ]; lia). split.
  - unfold mem_bytes. change (seqZ (buf + i) (zlen [c])) with [buf + i]. cbn [fmap list_fmap]. rewrite memcpy_in by lia. f_equal.
    unfold poke. replace (buf_at + (buf + i - (buf + i))) with buf_at by lia. by rewrite Z.eqb_refl.
  - intros x Hx Hr. change (zlen [c]) with 1 in Hr. rewrite memcpy_out by lia. unfold poke. by rewrite (proj2 (Z.eqb_neq _ _)).
Qed.

Lemma stored_app a l1 l2 m m1 m2 : a + zlen l1 + zlen l2 <= 2 ^ 47 -> stored a l1 m m1 -> stored (a + zlen l1) l2 m1 m2 -> stored a (l1 ++ l2) m m2.
Proof using Hbuf.
  intros Hu [A1 A2] [B1 B2]. pose proof (zlen_nonneg l1). pose proof (zlen_nonneg l2). split.
  - rewrite zlen_app, mem_bytes_app, B1 by lia. f_equal. rewrite <- A1 at 2. apply mem_bytes_ext. intros k Hk. apply B2; lia.
  - intros x Hx Hr. rewrite zlen_app in Hr. rewrite B2 by lia. apply A2; lia.
Qed.

(** Characters that do not end the line. *)
Definition plain_chars (l : list Z) : Prop := Forall (fun c => c ≠ 10 /\ c ≠ 13) l.

Lemma read_console_line line inp buf count i s : mm_wf s -> plain_chars line -> 0 <= i -> i + zlen line <= count -> count < 2 ^ 64 -> 0 < buf ->
  user_range_ok (s_mm s) (buf + i) (zlen line) VMA_WRITE ->
  exists m', stored (buf + i) line (s_mem s) m' /\
    read_console buf_at (line ++ inp) buf count i s =
      read_console buf_at inp buf count (i + zlen line) (mk_sys m' (s_mm s) (s_proc s) (s_out s ++ line) (if line then s_in s else inp)).
Proof using Hbuf.
  intros W Hl. revert i s W. induction Hl as [|c line [H10 H13] Hl IH]; intros i s W Hi Hlen Hc Hb Hw.
  { exists (s_mem s). split; [split; [done|done]|]. rewrite Z.add_0_r, app_nil_r. by destruct s. }
  rewrite zlen_cons in *. pose proof (zlen_nonneg line) as Hz. cbn [app read_console]. rewrite (proj2 (Z.ltb_lt i count)) by lia.
  rewrite (proj2 (Z.eqb_neq c 10)), (proj2 (Z.eqb_neq c 13)) by done. cbn [orb].
  set (s1 := serial_putc c (with_in (line ++ inp) s)). destruct Hw as [Hb0 [|(Hend & a & Ha & Hacc)] ]; [lia|].
  destruct (store_char_ok s1 c buf i) as (m1 & -> & Hst); [done|lia|split; [lia|right; split; [lia|exists a; split; [done|intros x Hx; apply Hacc; lia]]]|].
  cbn [mbind option_bind]. change (0 <? 0) with false. cbv iota. rewrite u64_small by lia.
  destruct (IH (i + 1) (with_mem m1 s1)) as (m2 & Hst2 & E); [done|lia|lia|lia|lia|split; [lia|right; split; [lia|exists a; split; [done|intros x Hx; apply Hacc; lia]]]|].
  exists m2. split.
  - apply (stored_app (buf + i) [c] line (s_mem s) m1 m2); [change (zlen [c]) with 1; lia|done|]. change (zlen [c]) with 1. by rewrite <- Z.add_assoc.
  - rewrite E. cbn [with_mem s1 serial_putc with_out with_in s_mem s_mm s_proc s_out s_in]. rewrite <- app_assoc. cbn [app].
    replace (i + 1 + zlen line) with (i + (zlen line + 1)) by lia. f_equal. f_equal. by destruct line.
Qed.

(** Reading from the console reads one line: the characters typed are echoed and put into the
    process's buffer up to the end of the line, which is stored as a newline whichever key ended
    it, or up to the number asked for; the call waits while the line is not complete, and input
    after it is left for the next read. *)
Theorem console_read_spec s buf count line modules mods_at :
  mm_wf s -> plain_chars line -> 0 < buf -> 0 < count < 2 ^ 63 -> zlen line <= count ->
  user_range_ok (s_mm s) buf (Z.min count (zlen line + 1)) VMA_WRITE ->
  let read := sys_read modules mods_at buf_at PROCESS_FD_STDIN buf count in
  (forall c rest, c = 10 \/ c = 13 -> zlen line < count -> s_in s = line ++ c :: rest ->
     exists m', read s = Some (Some (zlen line + 1), mk_sys m' (s_mm s) (s_proc s) (s_out s ++ line ++ (if c =? 13 then [13; 10] else [10])) rest) /\
       stored buf (line ++ [10]) (s_mem s) m') /\
  (forall rest, zlen line = count -> s_in s = line ++ rest ->
     exists m', read s = Some (Some count, mk_sys m' (s_mm s) (s_proc s) (s_out s ++ line) rest) /\ stored buf line (s_mem s) m') /\
  (zlen line < count -> s_in s = line ->
     exists m', read s = Some (None, mk_sys m' (s_mm s) (s_proc s) (s_out s ++ line) []) /\ stored buf line (s_mem s) m').
Proof using Hbuf.
  intros W Hl Hb Hc Hlen Hw read. pose proof (zlen_nonneg line) as Hz.
  assert (forall inp, s_in s = inp -> read s = read_console buf_at inp buf count 0 s) as Hread.
  { intros inp <-. unfold read, sys_read. rewrite (proj2 (Z.eqb_neq buf 0)), (proj2 (Z.eqb_neq count 0)) by lia. done. }
  destruct Hw as [_ [|(Hend & a & Ha & Hacc)] ]; [lia|].
  assert (user_range_ok (s_mm s) (buf + 0) (zlen line) VMA_WRITE) as Hw0.
  { split; [lia|]. destruct (decide (zlen line = 0)); [by left|right]. split; [lia|]. exists a. split; [done|]. intros x Hx. apply Hacc. lia. }
  split; [|split].
  - intros c rest Hcc Hlt Hin. rewrite (Hread _ Hin). destruct (read_console_line line (c :: rest) buf count 0 s W Hl) as (m1 & Hst & ->); [lia..|done|].
    rewrite Z.add_0_r in Hst. cbn [read_console]. rewrite Z.add_0_l, (proj2 (Z.ltb_lt _ _)) by lia.
    assert ((c =? 10) || (c =? 13) = true) as -> by (destruct Hcc as [->| ->]; done).
    set (s1 := if c =? 13 then _ else _).
    assert (s1 = mk_sys m1 (s_mm s) (s_proc s) (s_out s ++ line ++ (if c =? 13 then [13; 10] else [10])) rest) as E1.
    { unfold s1, serial_putc, with_out, with_in. destruct Hcc as [->| ->]; cbn; by rewrite <- ?app_assoc. }
    destruct (store_char_ok s1 10 buf (zlen line)) as (m2 & -> & Hst2); [by rewrite E1|lia| |].
    { rewrite E1. split; [lia|]. right. split; [lia|]. exists a. split; [done|]. intros x Hx. apply Hacc. lia. }
    cbn [mbind option_bind]. change (0 <? 0) with false. cbv iota. rewrite u64_small, s64_small by lia. exists m2. rewrite E1 in *. split; [done|].
    eapply stored_app; [change (zlen [10]) with 1; lia|exact Hst|exact Hst2].
  - intros rest Hfull Hin. rewrite (Hread _ Hin). destruct (read_console_line line rest buf count 0 s W Hl) as (m1 & Hst & ->); [lia..|done|].
    rewrite Z.add_0_r in Hst. exists m1. split; [|done]. rewrite Z.add_0_l. destruct line; [change (zlen []) with 0 in *; lia|].
    destruct rest; cbn [read_console]; rewrite (proj2 (Z.ltb_ge _ _)) by lia; rewrite s64_small by lia; by rewrite Hfull.
  - intros Hlt Hin. destruct (read_console_line line [] buf count 0 s W Hl) as (m1 & Hst & E); [lia..|done|]. rewrite app_nil_r in E.
    rewrite (Hread _ Hin), E. rewrite Z.add_0_r in Hst. exists m1. split; [|done]. cbn [read_console]. rewrite Z.add_0_l, (proj2 (Z.ltb_lt _ _)) by lia. done.
Qed.

End Console.

(** ** Open files *)

Section Files.
Variables (modules : list cached_module) (mods_at buf_at : Z).

(** The handlers' buffers and the modules are kernel memory, apart from each other. *)
Definition layout_ok : Prop :=
  2 ^ 47 <= buf_at /\ 0 < mods_at /\
  Forall (fun m => 2 ^ 47 <= mod_address m /\ 0 <= mod_size m < 2 ^ 63 /\ mod_address m + mod_size m <= 2 ^ 64 /\
                   apart (mod_address m) (mod_size m) buf_at 256) modules.
Hypothesis L : layout_ok.

(** An open file: the module and the position in it. *)
Definition file_view (f : process_file) : option (Z * Z) :=
  if f_kind f =? PROCESS_FILE_NONE then None else Some ((f_module f - mods_at) / SIZEOF_MODULE, f_offset f).
Definition open_files (s : sys) (fd : Z) : option (Z * Z) :=
  files ← get_process_files s; f ← zget files fd; file_view f.

(** An entry in use is a boot module at a position inside it. *)
Definition entry_ok (f : process_file) : Prop :=
  f_kind f = PROCESS_FILE_NONE \/
  exists i m, f_kind f = PROCESS_FILE_BOOT_MODULE /\ f_module f = mods_at + SIZEOF_MODULE * i /\ zget modules i = Some m /\ 0 <= f_offset f <= mod_size m.

Record files_inv (s : sys) : Prop := {
  fi_mm : mm_wf s;
  fi_files : exists files, get_process_files s = Some files /\ zlen files = PROCESS_MAX_OPEN_FILES /\ Forall entry_ok files;
  fi_std : forall fd, 0 <= fd < PROCESS_FD_FIRST_USER -> open_files s fd = None
}.

(** The bytes of a module. *)
Definition contents (m : memory) (x : cached_module) : list Z := mem_bytes m (mod_address x) (mod_size x).
Definition modules_kept (s s' : sys) : Prop := forall i x, zget modules i = Some x -> contents (s_mem s') x = contents (s_mem s) x.

(** The first module that a name matches. *)
Definition names_module (name : list Z) (i : Z) : Prop :=
  exists m, zget modules i = Some m /\ boot_module_matches m name = true /\
    forall j m', 0 <= j < i -> zget modules j = Some m' -> boot_module_matches m' name = false.

Lemma module_ok i m : zget modules i = Some m ->
  2 ^ 47 <= mod_address m /\ 0 <= mod_size m < 2 ^ 63 /\ mod_address m + mod_size m <= 2 ^ 64 /\ apart (mod_address m) (mod_size m) buf_at 256.
Proof using L. intros Hm. apply zget_lookup in Hm as [_ Hm]. destruct L as (_ & _ & F). exact (Forall_lookup_1 _ _ _ _ F Hm). Qed.

Lemma module_at_ok i : module_at modules mods_at (mods_at + SIZEOF_MODULE * i) = zget modules i.
Proof using.
  unfold module_at, SIZEOF_MODULE. replace (mods_at + 80 * i - mods_at) with (i * 80) by lia. by rewrite Z.mod_mul, Z.div_mul by lia.
Qed.

Lemma find_boot_module_ok name :
  (find_boot_module modules mods_at name = Some 0 /\ forall i m, zget modules i = Some m -> boot_module_matches m name = false) \/
  exists i, find_boot_module modules mods_at name = Some (mods_at + SIZEOF_MODULE * i) /\ 0 <= i /\ names_module name i.
Proof using.
  unfold find_boot_module.
  set (p := fun i => match zget modules i with Some m => if boot_module_matches m name then Some (mods_at + SIZEOF_MODULE * i) else None | None => None end).
  rewrite (for_return_ext _ _ _ (fun k (_ : unit) => Some (match p k with Some r => inr r | None => inl tt end))).
  2:{ intros k [] Hk. destruct (proj2 (zget_Some modules k)) as [m Hm]; [unfold zlen; lia|]. unfold p. rewrite Hm. cbn [mbind option_bind].
      by destruct (boot_module_matches m name). }
  destruct (for_return_find (length modules) 0 p) as [(j & r & E & Hj & Hp & Hlt)|[E Hn] ]; rewrite E; cbn [mbind option_bind].
  - right. unfold p in Hp. destruct (zget modules j) as [m|] eqn:Em; [|done]. destruct (boot_module_matches m name) eqn:Eb; [|done]. injection Hp as <-.
    exists j. split; [done|]. split; [lia|]. exists m. split; [done|]. split; [done|]. intros k m' Hk Hm'. specialize (Hlt k ltac:(lia)). unfold p in Hlt. rewrite Hm' in Hlt.
    by destruct (boot_module_matches m' name).
  - left. split; [done|]. intros i m Hm. pose proof (zget_range _ _ _ Hm) as Hi. unfold zlen in Hi. specialize (Hn i ltac:(lia)). unfold p in Hn. rewrite Hm in Hn.
    by destruct (boot_module_matches m name).
Qed.

(** An open descriptor gives its module. *)
Lemma open_module_ok s fd : files_inv s ->
  (open_module modules mods_at s fd = Some None /\ open_files s fd = None) \/
  exists f i m, open_module modules mods_at s fd = Some (Some (f, m)) /\ open_files s fd = Some (i, f_offset f) /\ zget modules i = Some m /\
    f_kind f = PROCESS_FILE_BOOT_MODULE /\ f_module f = mods_at + SIZEOF_MODULE * i /\ 0 <= f_offset f <= mod_size m /\
    (exists files, get_process_files s = Some files /\ zget files fd = Some f) /\ PROCESS_FD_FIRST_USER <= fd < PROCESS_MAX_OPEN_FILES.
Proof using L.
  intros Hi. destruct (fi_files _ Hi) as (files & Ef & Hlen & Hok). unfold open_module, get_open_process_file. rewrite Ef.
  destruct (_ || _) eqn:Er.
  { left. split; [done|]. apply orb_true_iff in Er. destruct (decide (0 <= fd < PROCESS_FD_FIRST_USER)) as [Hs|Hs]; [by apply Hi|].
    unfold open_files. rewrite Ef. cbn [mbind option_bind]. destruct (zget files fd) eqn:Eg; [|done]. apply zget_range in Eg. rewrite Z.ltb_lt, Z.leb_le in Er. lia. }
  apply orb_false_iff in Er as [E1%Z.ltb_ge E2%Z.leb_gt]. destruct (proj2 (zget_Some files fd)) as [f Hf]; [unfold PROCESS_FD_FIRST_USER in *; lia|].
  rewrite Hf. cbn [mbind option_bind]. assert (open_files s fd = file_view f) as Ev by (unfold open_files; rewrite Ef; cbn [mbind option_bind]; by rewrite Hf).
  pose proof (Forall_lookup_1 _ _ _ _ Hok (proj2 (zget_lookup _ _ _ Hf))) as He. unfold file_view in Ev.
  destruct He as [Ek|(i & m & Ek & Em & Hm & Hpos)]; rewrite Ek in *; [left; by rewrite Ev|].
  change (PROCESS_FILE_BOOT_MODULE =? PROCESS_FILE_NONE) with false in *. cbv iota in *. rewrite Ek. change (negb (PROCESS_FILE_BOOT_MODULE =? PROCESS_FILE_BOOT_MODULE)) with false. cbn [orb].
  destruct L as (_ & Hmods & _). apply zget_range in Hm as Hir. rewrite (proj2 (Z.eqb_neq (f_module f) 0)) by (rewrite Em; unfold SIZEOF_MODULE; lia).
  rewrite Em, module_at_ok, Hm. cbn [mbind option_bind]. right. exists f, i, m. rewrite Ev. split_and!; try done; try lia.
  - do 2 f_equal. rewrite Em. unfold SIZEOF_MODULE. replace (mods_at + 80 * i - mods_at) with (i * 80) by lia. by rewrite Z.div_mul.
  - by exists files.
Qed.

Definition put (a : Z -> option (Z * Z)) (fd : Z) (o : option (Z * Z)) : Z -> option (Z * Z) := fun x => if decide (x = fd) then o else a x.

(** Writing an entry of the table. *)
Lemma file_set_ok s files fd f f' : files_inv s -> get_process_files s = Some files -> zget files fd = Some f -> entry_ok f' ->
  PROCESS_FD_FIRST_USER <= fd ->
  exists s', set_file s fd f' = Some s' /\ files_inv s' /\ (forall x, open_files s' x = put (open_files s) fd (file_view f') x) /\
    s_mem s' = s_mem s /\ s_mm s' = s_mm s /\ s_out s' = s_out s /\ s_in s' = s_in s.
Proof using.
  intros Hi Ef Hf Hok Hfd. unfold set_file. rewrite Ef. cbn [mbind option_bind]. unfold zset. rewrite Hf. cbn [mbind option_bind].
  set (files' := <[Z.to_nat fd := f']> files). assert (get_process_files (with_files files' s) = Some files') as Ef'.
  { unfold get_process_files in *. cbn [with_files s_proc]. by destruct (s_proc s). }
  assert (zset files fd f' = Some files') as Ez by (unfold zset; by rewrite Hf).
  assert (forall x, open_files (with_files files' s) x = put (open_files s) fd (file_view f') x) as Hv.
  { intros x. unfold open_files at 1. rewrite Ef'. cbn [mbind option_bind]. rewrite (zget_zset _ _ _ _ x Ez). unfold put.
    destruct (decide (x = fd)); [done|]. unfold open_files. by rewrite Ef. }
  eexists. split; [done|]. split; [|done]. destruct (fi_files _ Hi) as (files0 & Ef0 & Hlen & HF). rewrite Ef in Ef0. injection Ef0 as <-. split.
  - apply Hi.
  - exists files'. split; [done|]. split; [unfold zlen, files'; by rewrite length_insert|]. by apply Forall_insert.
  - intros x Hx. rewrite Hv. unfold put. rewrite decide_False by lia. by apply Hi.
Qed.

(** *** The calls *)

Inductive file_call := FOpen (path flags : Z) | FClose (fd : Z) | FRead (fd buf count : Z) | FLseek (fd offset whence : Z).

Definition run_call (c : file_call) (s : sys) : option (option Z * sys) :=
  match c with
  | FOpen p fl => '(r, s) ← sys_open modules mods_at buf_at p fl s; Some (Some r, s)
  | FClose fd => '(r, s) ← sys_close fd s; Some (Some r, s)
  | FRead fd b n => sys_read modules mods_at buf_at fd b n s
  | FLseek fd o w => '(r, s) ← sys_lseek modules mods_at fd o w s; Some (Some r, s)
  end.

(** Arguments as the dispatcher passes them; console input is not a file, and seeking does not
    overflow an i64. *)
Definition call_args_ok (c : file_call) : Prop :=
  match c with
  | FOpen p fl => fits 64 p /\ fits 64 fl
  | FClose fd => True
  | FRead fd b n => fd ≠ PROCESS_FD_STDIN /\ fits 64 b /\ fits 64 n
  | FLseek fd o w => - 2 ^ 63 <= o < 2 ^ 63 /\ forall i m, zget modules i = Some m -> o + mod_size m < 2 ^ 63
  end.

Definition read_only (flags : Z) : Prop :=
  Z.land flags O_WRONLY = 0 /\ Z.land flags O_RDWR = 0 /\ Z.land flags (Z.lor (Z.lor O_CREAT O_TRUNC) O_APPEND) = 0.

(** The C string in user memory at an address, and why there is none that fits into 256 bytes. *)
Definition user_string (s : sys) (a : Z) (l : list Z) : Prop :=
  zlen l < 256 /\ string_prefix (s_mm s) (s_mem s) a (zlen l) /\ user_range_ok (s_mm s) (a + zlen l) 1 VMA_READ /\
  mem_bytes (s_mem s) a (zlen l + 1) = l ++ [0].
Inductive no_string (s : sys) (a : Z) : Z -> Prop :=
  | StringFault j : 0 <= j < 256 -> string_prefix (s_mm s) (s_mem s) a j -> ~ user_range_ok (s_mm s) (a + j) 1 VMA_READ -> no_string s a (- EFAULT)
  | StringLong : string_prefix (s_mm s) (s_mem s) a 256 -> no_string s a (- ENAMETOOLONG).

Definition least_free (a : Z -> option (Z * Z)) (fd : Z) : Prop :=
  PROCESS_FD_FIRST_USER <= fd < PROCESS_MAX_OPEN_FILES /\ a fd = None /\ forall x, PROCESS_FD_FIRST_USER <= x < fd -> a x ≠ None.

Definition seek_base (pos size whence : Z) : option Z :=
  if whence =? SEEK_SET then Some 0 else if whence =? SEEK_CUR then Some pos else if whence =? SEEK_END then Some size else None.

(** What a call returns, what it makes of the open files [a], and what it writes to user memory. *)
Inductive file_step (s : sys) (a : Z -> option (Z * Z)) : file_call -> Z -> (Z -> option (Z * Z)) -> option (Z * list Z) -> Prop :=
  | SOpen p fl name i fd : p ≠ 0 -> read_only fl -> user_string s p name -> names_module name i -> least_free a fd ->
      file_step s a (FOpen p fl) fd (put a fd (Some (i, 0))) None
  | SOpenNull fl : file_step s a (FOpen 0 fl) (- EINVAL) a None
  | SOpenWrite p fl : p ≠ 0 -> ~ read_only fl -> file_step s a (FOpen p fl) (- EROFS) a None
  | SOpenFault p fl e : p ≠ 0 -> read_only fl -> no_string s p e -> file_step s a (FOpen p fl) e a None
  | SOpenNone p fl name : p ≠ 0 -> read_only fl -> user_string s p name ->
      (forall i m, zget modules i = Some m -> boot_module_matches m name = false) -> file_step s a (FOpen p fl) (- ENOENT) a None
  | SOpenFull p fl name : p ≠ 0 -> read_only fl -> user_string s p name ->
      (forall x, PROCESS_FD_FIRST_USER <= x < PROCESS_MAX_OPEN_FILES -> a x ≠ None) -> file_step s a (FOpen p fl) (- EMFILE) a None
  | SClose fd x : a fd = Some x -> file_step s a (FClose fd) 0 (put a fd None) None
  | SCloseStd fd : 0 <= fd <= PROCESS_FD_STDERR -> file_step s a (FClose fd) 0 a None
  | SCloseBad fd : a fd = None -> ~ 0 <= fd <= PROCESS_FD_STDERR -> file_step s a (FClose fd) (- EBADF) a None
  | SRead fd b n i pos m k : b ≠ 0 -> a fd = Some (i, pos) -> zget modules i = Some m -> k = Z.min n (mod_size m - pos) ->
      (k = 0 \/ user_range_ok (s_mm s) b k VMA_WRITE) ->
      file_step s a (FRead fd b n) k (put a fd (Some (i, pos + k))) (Some (b, take (Z.to_nat k) (drop (Z.to_nat pos) (contents (s_mem s) m))))
  | SReadZero fd b : b ≠ 0 -> file_step s a (FRead fd b 0) 0 a None
  | SReadNull fd n : file_step s a (FRead fd 0 n) (- EFAULT) a None
  | SReadFault fd b n i pos m : b ≠ 0 -> a fd = Some (i, pos) -> zget modules i = Some m ->
      ~ user_range_ok (s_mm s) b (Z.min n (mod_size m - pos)) VMA_WRITE -> file_step s a (FRead fd b n) (- EFAULT) a None
  | SReadBad fd b n : b ≠ 0 -> n ≠ 0 -> a fd = None -> file_step s a (FRead fd b n) (- EBADF) a None
  | SLseek fd o w i pos m base : a fd = Some (i, pos) -> zget modules i = Some m -> seek_base pos (mod_size m) w = Some base ->
      0 <= base + o <= mod_size m -> file_step s a (FLseek fd o w) (base + o) (put a fd (Some (i, base + o))) None
  | SLseekOut fd o w i pos m base : a fd = Some (i, pos) -> zget modules i = Some m -> seek_base pos (mod_size m) w = Some base ->
      ~ 0 <= base + o <= mod_size m -> file_step s a (FLseek fd o w) (- EINVAL) a None
  | SLseekWhence fd o w i pos m : a fd = Some (i, pos) -> zget modules i = Some m -> seek_base pos (mod_size m) w = None ->
      file_step s a (FLseek fd o w) (- EINVAL) a None
  | SLseekBad fd o w : a fd = None -> file_step s a (FLseek fd o w) (- EBADF) a None.

(** User memory after a call: the bytes written, and nothing else. *)
Definition user_memory (m m' : memory) (w : option (Z * list Z)) : Prop :=
  match w with
  | None => forall x, x < 2 ^ 47 -> m' x = m x
  | Some (b, l) => mem_bytes m' b (zlen l) = l /\ forall x, x < 2 ^ 47 -> ~ b <= x < b + zlen l -> m' x = m x
  end.

(** The call ran as one of the steps. *)
Definition ran (s : sys) (c : file_call) : Prop :=
  exists ret s' a' w, run_call c s = Some (Some ret, s') /\ file_step s (open_files s) c ret a' w /\ (forall fd, open_files s' fd = a' fd) /\
    files_inv s' /\ modules_kept s s' /\ user_memory (s_mem s) (s_mem s') w /\ s_out s' = s_out s /\ s_in s' = s_in s.

Lemma ran_same s c ret : files_inv s -> run_call c s = Some (Some ret, s) -> file_step s (open_files s) c ret (open_files s) None -> ran s c.
Proof using. intros Hi E Hs. exists ret, s, (open_files s), None. by split_and!. Qed.

Lemma ran_set s c ret files fd f f' o : files_inv s -> get_process_files s = Some files -> zget files fd = Some f -> entry_ok f' ->
  PROCESS_FD_FIRST_USER <= fd -> file_view f' = o ->
  (forall s', set_file s fd f' = Some s' -> run_call c s = Some (Some ret, s')) ->
  file_step s (open_files s) c ret (put (open_files s) fd o) None -> ran s c.
Proof using.
  intros Hi Ef Hf Hok Hfd <- Hrun Hs. destruct (file_set_ok s files fd f f' Hi Ef Hf Hok Hfd) as (s' & E & Hi' & Hv & Em & _ & Eo & Ein).
  exists ret, s', (put (open_files s) fd (file_view f')), None. split_and!; try done; [by apply Hrun| |].
  - intros i x Hx. by rewrite Em.
  - intros x Hx. by rewrite Em.
Qed.

Lemma close_ok s fd : files_inv s -> ran s (FClose fd).
Proof using L.
  intros Hi. destruct (Z.leb_spec 0 fd) as [H0|H0], (Z.leb_spec fd PROCESS_FD_STDERR) as [H2|H2].
  1:{ apply (ran_same s _ 0 Hi); [|by apply SCloseStd]. cbn [run_call]. unfold sys_close. by rewrite (proj2 (Z.leb_le _ _) H0), (proj2 (Z.leb_le _ _) H2). }
  all: assert ((0 <=? fd) && (fd <=? PROCESS_FD_STDERR) = false) as Estd by (apply andb_false_iff; rewrite !Z.leb_gt; lia).
  all: destruct (fi_files _ Hi) as (files & Ef & Hlen & Hok); assert (bool_decide (s_proc s = None) = false) as Ep by
    (apply bool_decide_false; unfold get_process_files in Ef; by destruct (s_proc s)).
  all: pose proof (open_module_ok s fd Hi) as Ho; unfold open_module in Ho; cbn [run_call]; destruct (get_open_process_file s fd) as [[f|]|] eqn:Eg;
    [|apply (ran_same s _ (- EBADF) Hi); [cbn [run_call]; unfold sys_close; by rewrite Estd, Ep, Eg|apply SCloseBad; [|lia]]; by destruct Ho as [[_ ?]|(? & ? & ? & [=] & _)]|
     destruct Ho as [[[=] _]|(? & ? & ? & [=] & _)]].
  all: destruct Ho as [[Eo Ev]|(f' & i & m & Eo & Ev & Hm & Hk & Hmod & Hpos & (files' & Ef' & Hf) & Hr)].
  1,3,5: exfalso; unfold get_open_process_file in Eg; rewrite Ef in Eg; destruct (_ || _); [done|]; destruct (zget files fd) as [g|] eqn:Ez; [|done];
    cbn [mbind option_bind] in Eg; unfold open_files, file_view in Ev; rewrite Ef in Ev; cbn [mbind option_bind] in Ev; rewrite Ez in Ev; cbn [mbind option_bind] in Ev;
    destruct (f_kind g =? PROCESS_FILE_NONE); done.
  all: eapply (ran_set s _ 0 files' fd f' (mk_file 0 0 0 0)); [done|done|done|by left|lia|done| |by eapply SClose].
  all: intros s' Es; cbn [run_call]; unfold sys_close; rewrite Estd, Ep, Eg; cbn [mbind option_bind]; by rewrite Es.
Qed.

Lemma proc_there s : files_inv s -> exists p, s_proc s = Some p.
Proof using. intros Hi. destruct (fi_files _ Hi) as (files & Ef & _). unfold get_process_files in Ef. destruct (s_proc s) as [p|]; [by exists p|done]. Qed.

Lemma lseek_ok s fd o w : files_inv s -> call_args_ok (FLseek fd o w) -> ran s (FLseek fd o w).
Proof using L.
  intros Hi [Ho Hmax]. destruct (proc_there s Hi) as [p Ep].
  assert (forall r, sys_lseek modules mods_at fd o w s = r -> run_call (FLseek fd o w) s = ('(x, s) ← r; Some (Some x, s))) as Hrun by (by intros r <-).
  unfold sys_lseek in Hrun. rewrite bool_decide_false in Hrun by (by rewrite Ep).
  destruct (open_module_ok s fd Hi) as [[Eo Ev]|(f & i & m & Eo & Ev & Hm & Hk & Hmod & Hpos & (files & Ef & Hf) & Hr)]; rewrite Eo in Hrun; cbn [mbind option_bind] in Hrun.
  { eapply ran_same; [done|by rewrite (Hrun _ eq_refl)|by apply SLseekBad]. }
  destruct (module_ok i m Hm) as (_ & Hsz & _). specialize (Hmax i m Hm).
  rewrite !s64_small in Hrun by lia.
  assert (forall base, seek_base (f_offset f) (mod_size m) w = Some base -> 0 <= base <= mod_size m ->
    run_call (FLseek fd o w) s = ('(x, s) ← (new_offset ← i64_add base o;
      if (new_offset <? 0) || (mod_size m <? u64 new_offset) then Some (- EINVAL, s) else
      s ← set_file s fd (mk_file (f_kind f) (f_flags f) (f_module f) (u64 new_offset)); Some (new_offset, s)); Some (Some x, s)) -> ran s (FLseek fd o w)) as Hgo.
  { intros base Hb Hbr E. unfold i64_add in E. rewrite decide_True in E by lia. cbn [mbind option_bind] in E.
    destruct (decide (0 <= base + o <= mod_size m)) as [Hin|Hout].
    - rewrite u64_small in E by lia. rewrite (proj2 (Z.ltb_ge _ _)), (proj2 (Z.ltb_ge _ _)) in E by lia. cbn [orb] in E.
      eapply (ran_set s _ (base + o) files fd f (mk_file (f_kind f) (f_flags f) (f_module f) (base + o))); [done|done|done| |lia| | |by eapply SLseek].
      + right. exists i, m. by split_and!; cbn; try lia.
      + unfold file_view. cbn [f_kind f_module f_offset]. rewrite Hk, Hmod. change (PROCESS_FILE_BOOT_MODULE =? PROCESS_FILE_NONE) with false. cbv iota.
        do 2 f_equal. unfold SIZEOF_MODULE. replace (mods_at + 80 * i - mods_at) with (i * 80) by lia. by rewrite Z.div_mul.
      + intros s' Es. rewrite E, Es. done.
    - eapply (ran_same s _ (- EINVAL)); [done| |by eapply SLseekOut]. rewrite E.
      assert ((base + o <? 0) || (mod_size m <? u64 (base + o)) = true) as ->; [|done].
      apply orb_true_iff. rewrite !Z.ltb_lt. destruct (decide (base + o < 0)); [by left|right]. rewrite u64_small by lia. lia. }
  unfold seek_base in Hgo. destruct (w =? SEEK_SET) eqn:E0; [apply (Hgo 0 eq_refl ltac:(lia)); by apply Hrun|].
  destruct (w =? SEEK_CUR) eqn:E1; [apply (Hgo (f_offset f) eq_refl ltac:(lia)); by apply Hrun|].
  destruct (w =? SEEK_END) eqn:E2; [apply (Hgo (mod_size m) eq_refl ltac:(lia)); by apply Hrun|].
  eapply (ran_same s _ (- EINVAL)); [done|by rewrite (Hrun _ eq_refl)|]. eapply SLseekWhence; [done|done|]. unfold seek_base. by rewrite E0, E1, E2.
Qed.

(** Part of a module read out of memory. *)
Lemma contents_part m x pos k : 0 <= pos -> 0 <= k -> pos + k <= mod_size x ->
  take (Z.to_nat k) (drop (Z.to_nat pos) (contents m x)) = mem_bytes m (mod_address x + pos) k.
Proof using.
  intros Hp Hk Hs. unfold contents. replace (mod_size x) with (pos + (k + (mod_size x - pos - k))) by lia. rewrite !mem_bytes_app by lia.
  pose proof (mem_bytes_length m (mod_address x) pos Hp) as L1. pose proof (mem_bytes_length m (mod_address x + pos) k Hk) as L2. unfold zlen in L1, L2.
  rewrite drop_app_length' by lia. by rewrite take_app_length' by lia.
Qed.

(** Writing user memory keeps the invariant and the modules. *)
Lemma user_write_ok s m' b k : files_inv s -> b + k <= 2 ^ 47 -> only_at b k (s_mem s) m' ->
  files_inv (with_mem m' s) /\ modules_kept s (with_mem m' s) /\ forall fd, open_files (with_mem m' s) fd = open_files s fd.
Proof using L.
  intros Hi Hb Hm. split; [by destruct Hi|]. split; [|done]. intros i x Hx. destruct (module_ok i x Hx) as (Ha & _ & _). unfold contents. apply mem_bytes_ext.
  intros j Hj. apply Hm. lia.
Qed.

Lemma read_file_ok s fd b n : files_inv s -> call_args_ok (FRead fd b n) -> ran s (FRead fd b n).
Proof using L.
  intros Hi (Hfd & Hb & Hn). unfold fits in *. destruct (proc_there s Hi) as [p Ep]. pose proof L as (Hbuf & _).
  assert (forall r, sys_read modules mods_at buf_at fd b n s = r -> run_call (FRead fd b n) s = r) as Hrun by (by intros r <-). unfold sys_read in Hrun.
  destruct (Z.eqb_spec b 0) as [->|Hb0]; [eapply ran_same; [done|by rewrite (Hrun _ eq_refl)|apply SReadNull]|].
  destruct (Z.eqb_spec n 0) as [->|Hn0]; [eapply ran_same; [done|by rewrite (Hrun _ eq_refl)|by apply SReadZero]|].
  rewrite (proj2 (Z.eqb_neq _ _) Hfd), Ep in Hrun.
  destruct (open_module_ok s fd Hi) as [[Eo Ev]|(f & i & m & Eo & Ev & Hm & Hk & Hmod & Hpos & (files & Ef & Hf) & Hr)]; rewrite Eo in Hrun; cbn [mbind option_bind] in Hrun.
  { eapply ran_same; [done|by rewrite (Hrun _ eq_refl)|by apply SReadBad]. }
  destruct (module_ok i m Hm) as (Ha & Hsz & Hend & Hap). set (k := Z.min n (mod_size m - f_offset f)) in *.
  assert ((if f_offset f <? mod_size m then Z.min n (u64 (mod_size m - f_offset f)) else 0) = k) as Ek.
  { unfold k. destruct (Z.ltb_spec (f_offset f) (mod_size m)); [rewrite u64_small by lia; done|lia]. }
  rewrite Ek in Hrun. destruct (Z.eqb_spec k 0) as [Ek0|Ek0].
  { exists 0, s, (put (open_files s) fd (Some (i, f_offset f + 0))), (Some (b, [])). split_and!; try done; [by apply Hrun| |].
    - replace ([] : list Z) with (take (Z.to_nat 0) (drop (Z.to_nat (f_offset f)) (contents (s_mem s) m))) by done. apply (SRead s _ fd b n i (f_offset f) m 0); first [done|lia|by left].
    - intros x. unfold put. case_decide as Hx; [|done]. by rewrite Hx, Ev, Z.add_0_r. }
  rewrite u64_small in Hrun by (unfold k in *; lia).
  destruct (copy_out_ok (s_mm s) (s_mem s) (mod_address m + f_offset f) b k (fi_mm _ Hi)) as [[Ec Hw]|[Ec Hw] ]; [unfold k in *; lia..| |]; rewrite Ec in Hrun; cbn [mbind option_bind] in Hrun.
  2:{ change (- EFAULT <? 0) with true in Hrun. cbv iota in Hrun. eapply (ran_same s _ (- EFAULT)); [done| |by eapply SReadFault]. rewrite (Hrun _ eq_refl). by destruct s. }
  change (0 <? 0) with false in Hrun. cbv iota in Hrun. set (m' := memcpy _ _ _ _) in *.
  assert (b + k <= 2 ^ 47) as Hbk by (destruct Hw as [_ [|[? _] ] ]; [unfold k in *; lia|done]).
  destruct (user_write_ok s m' b k Hi Hbk (memcpy_out _ _ _ _)) as (Hi1 & Hkept & Hv1). set (s1 := with_mem m' s) in *.
  assert (open_module modules mods_at s1 fd = Some (Some (f, m))) as Eo1 by exact Eo. rewrite Eo1 in Hrun. cbn [mbind option_bind] in Hrun.
  rewrite u64_small, s64_small in Hrun by (unfold k in *; lia).
  destruct (file_set_ok s1 files fd f (mk_file (f_kind f) (f_flags f) (f_module f) (f_offset f + k)) Hi1 Ef Hf) as (s2 & Es & Hi2 & Hv2 & Em2 & _ & Eo2 & Ein2); [|lia|].
  { right. exists i, m. split_and!; cbn; try done; unfold k in *; lia. }
  rewrite Es in Hrun. cbn [mbind option_bind] in Hrun. eexists k, s2, _, _. split; [by apply Hrun|]. split; [apply (SRead s _ fd b n i (f_offset f) m k); try done; by right|].
  split.
  { intros x. rewrite Hv2. unfold put. case_decide; [|by rewrite Hv1]. unfold file_view. cbn [f_kind f_module f_offset]. rewrite Hk, Hmod.
    change (PROCESS_FILE_BOOT_MODULE =? PROCESS_FILE_NONE) with false. cbv iota. do 2 f_equal. unfold SIZEOF_MODULE.
    replace (mods_at + 80 * i - mods_at) with (i * 80) by lia. by rewrite Z.div_mul. }
  split; [done|]. split; [intros j x Hx; rewrite Em2; by apply Hkept with j|].
  rewrite contents_part by (unfold k in *; lia). split; [|by rewrite Eo2, Ein2]. rewrite Em2. cbn [user_memory]. rewrite mem_bytes_length by (unfold k in *; lia). split.
  - apply mem_bytes_ext. intros j Hj. cbn [s1 with_mem s_mem]. unfold m'. rewrite memcpy_in by lia. f_equal. lia.
  - intros x _ Hx. by apply memcpy_out.
Qed.

Lemma kstring_ok n m a j : (forall k, 0 <= k < j -> m (a + k) ≠ 0) -> m (a + j) = 0 -> 0 <= j < Z.of_nat n -> kstring n m a = Some (mem_bytes m a j).
Proof using.
  revert a j. induction n as [|n IH]; intros a j Hne Hz Hj; [lia|]. cbn [kstring]. destruct (decide (j = 0)) as [->|Hj0].
  - rewrite Z.add_0_r in Hz. by rewrite Hz.
  - pose proof (Hne 0 ltac:(lia)) as H0. rewrite Z.add_0_r in H0. rewrite (proj2 (Z.eqb_neq _ _) H0).
    rewrite (IH (a + 1) (j - 1)); [|intros k Hk; rewrite <- Z.add_assoc; apply Hne; lia|by replace (a + 1 + (j - 1)) with (a + j) by lia|lia].
    cbn [mbind option_bind]. f_equal. replace (mem_bytes m a j) with (mem_bytes m a (1 + (j - 1))) by (f_equal; lia). rewrite mem_bytes_app by lia. done.
Qed.

(** The path of open and exec in the kernel's buffer: the user's string, or the error. *)
Lemma copy_path_ok s path : mm_wf s -> 0 < path < 2 ^ 64 ->
  exists ret m', copy_string_from_user (s_mm s) (s_mem s) buf_at 256 path = Some (ret, m') /\ only_at buf_at 256 (s_mem s) m' /\
    ((ret < 0 /\ no_string s path ret) \/
     (0 <= ret /\ exists l, user_string s path l /\ kstring 256 m' buf_at = Some l /\ ret = zlen l)).
Proof using L.
  intros W Hp. destruct L as (Hbuf & _). unfold copy_string_from_user. rewrite (proj2 (Z.eqb_neq buf_at 0)), (proj2 (Z.eqb_neq path 0)) by lia. change (256 =? 0) with false. cbn [orb].
  destruct (copy_string_ok (s_mm s) (s_mem s) buf_at 256 path 256 0 (s_mem s) W) as (ret & m' & j & E & Hj & Hpre & Hcase); [lia|lia|lia|lia|lia|lia|intros k Hk; lia|split; [done|intros k Hk; lia]|].
  change (Z.to_nat 256) with 256%nat. rewrite E. exists ret, m'. split; [done|].
  destruct Hcase as [(-> & Hlt & Hz & Hr & Ho & Hb)|[(-> & Hlt & Hr & Ho & Hb)|(-> & -> & [Ho Hb] & Hend)] ]; (split; [exact Ho|]).
  - right. split; [lia|]. exists (mem_bytes (s_mem s) path j). assert (zlen (mem_bytes (s_mem s) path j) = j) as Hl by (apply mem_bytes_length; lia).
    split; [|split; [|done]].
    + unfold user_string. rewrite Hl. split; [done|]. split; [done|]. split; [done|]. rewrite mem_bytes_app by lia. f_equal. unfold mem_bytes.
      change (seqZ (path + j) 1) with [path + j]. cbn. by rewrite Hz.
    + rewrite (kstring_ok 256 m' buf_at j); [| |by rewrite Hb by lia|lia].
      * f_equal. apply mem_bytes_ext. intros k Hk. apply Hb. lia.
      * intros k Hk. rewrite Hb by lia. by apply Hpre.
  - left. split; [done|]. by apply (StringFault s path j); [lia|..].
  - left. split; [done|]. by apply StringLong.
Qed.

Lemma least_free_ok s files : files_inv s -> get_process_files s = Some files ->
  let search := for_return (Z.to_nat (PROCESS_MAX_OPEN_FILES - PROCESS_FD_FIRST_USER)) PROCESS_FD_FIRST_USER
    (fun fd (_ : unit) => f ← zget files fd; Some (if f_kind f =? PROCESS_FILE_NONE then inr fd else inl tt)) tt in
  (search = Some (inl tt) /\ forall x, PROCESS_FD_FIRST_USER <= x < PROCESS_MAX_OPEN_FILES -> open_files s x ≠ None) \/
  exists fd f, search = Some (inr fd) /\ least_free (open_files s) fd /\ zget files fd = Some f.
Proof using.
  intros Hi Ef search. destruct (fi_files _ Hi) as (files0 & Ef0 & Hlen & Hok). rewrite Ef in Ef0. injection Ef0 as <-.
  assert (forall x, PROCESS_FD_FIRST_USER <= x < PROCESS_MAX_OPEN_FILES -> exists f, zget files x = Some f /\ (f_kind f =? PROCESS_FILE_NONE = false -> open_files s x ≠ None) /\
    (f_kind f =? PROCESS_FILE_NONE = true -> open_files s x = None)) as Hz.
  { intros x Hx. destruct (proj2 (zget_Some files x)) as [f Hf]; [unfold PROCESS_FD_FIRST_USER in *; lia|]. exists f. split; [done|]. unfold open_files, file_view. rewrite Ef. cbn [mbind option_bind].
    rewrite Hf. cbn [mbind option_bind]. by destruct (f_kind f =? PROCESS_FILE_NONE). }
  set (p := fun x => match zget files x with Some f => if f_kind f =? PROCESS_FILE_NONE then Some x else None | None => None end). unfold search.
  rewrite (for_return_ext _ _ _ (fun k (_ : unit) => Some (match p k with Some r => inr r | None => inl tt end))).
  2:{ intros k [] Hk. destruct (Hz k) as (f & Hf & _); [unfold PROCESS_FD_FIRST_USER, PROCESS_MAX_OPEN_FILES in *; lia|]. unfold p. rewrite Hf. cbn [mbind option_bind]. by destruct (f_kind f =? PROCESS_FILE_NONE). }
  destruct (for_return_find (Z.to_nat (PROCESS_MAX_OPEN_FILES - PROCESS_FD_FIRST_USER)) PROCESS_FD_FIRST_USER p) as [(j & r & E & Hj & Hp & Hlt)|[E Hn] ]; rewrite E.
  - right. assert (PROCESS_FD_FIRST_USER <= j < PROCESS_MAX_OPEN_FILES) as Hj' by (unfold PROCESS_FD_FIRST_USER, PROCESS_MAX_OPEN_FILES in *; lia).
    destruct (Hz j Hj') as (f & Hf & _ & Hfree). unfold p in Hp. rewrite Hf in Hp. destruct (f_kind f =? PROCESS_FILE_NONE) eqn:Ek; [|done]. injection Hp as <-.
    exists j, f. split; [done|]. split; [|done]. split; [done|]. split; [by apply Hfree|]. intros x Hx. destruct (Hz x) as (g & Hg & Hused & _); [lia|].
    specialize (Hlt x Hx). unfold p in Hlt. rewrite Hg in Hlt. apply Hused. by destruct (f_kind g =? PROCESS_FILE_NONE).
  - left. split; [done|]. intros x Hx. destruct (Hz x Hx) as (g & Hg & Hused & _). specialize (Hn x ltac:(unfold PROCESS_FD_FIRST_USER, PROCESS_MAX_OPEN_FILES in *; lia)).
    unfold p in Hn. rewrite Hg in Hn. apply Hused. by destruct (f_kind g =? PROCESS_FILE_NONE).
Qed.

Lemma open_ok s path fl : files_inv s -> call_args_ok (FOpen path fl) -> ran s (FOpen path fl).
Proof using L.
  intros Hi [Hp Hfl]. unfold fits in Hp. destruct (proc_there s Hi) as [p Ep]. pose proof L as (Hbuf & Hmods & _).
  assert (forall r, sys_open modules mods_at buf_at path fl s = r -> run_call (FOpen path fl) s = ('(x, s) ← r; Some (Some x, s))) as Hrun by (by intros r <-).
  unfold sys_open in Hrun. rewrite bool_decide_false in Hrun by (by rewrite Ep). cbn [orb] in Hrun.
  destruct (Z.eqb_spec path 0) as [->|Hp0]; [eapply ran_same; [done|by rewrite (Hrun _ eq_refl)|apply SOpenNull]|].
  match type of Hrun with context [negb ?a || negb ?b || negb ?c] => destruct (negb a || negb b || negb c) eqn:Ero end.
  { eapply ran_same; [done|by rewrite (Hrun _ eq_refl)|]. apply SOpenWrite; [done|]. intros (H1 & H2 & H3). by rewrite H1, H2, H3 in Ero. }
  assert (read_only fl) as Hro by (apply orb_false_iff in Ero as [[H1 H2]%orb_false_iff H3]; apply negb_false_iff, Z.eqb_eq in H1, H2, H3; done).
  destruct (copy_path_ok s path (fi_mm _ Hi) ltac:(lia)) as (ret & m' & E & Ho & Hcase). rewrite E in Hrun. cbn [mbind option_bind] in Hrun.
  set (s1 := with_mem m' s) in *. assert (files_inv s1) as Hi1 by (by destruct Hi).
  assert (modules_kept s s1) as Hkept.
  { intros i x Hx. destruct (module_ok i x Hx) as (_ & _ & _ & Hap). unfold contents. apply mem_bytes_ext. intros k Hk. apply Ho. unfold apart in Hap. lia. }
  assert (user_memory (s_mem s) (s_mem s1) None) as Hum by (intros x Hx; apply Ho; lia).
  assert (forall r, run_call (FOpen path fl) s = Some (Some r, s1) -> file_step s (open_files s) (FOpen path fl) r (open_files s) None -> ran s (FOpen path fl)) as Hsame.
  { intros r Er Hst. exists r, s1, (open_files s), None. by split_and!. }
  destruct Hcase as [[Hneg Hno]|(Hpos & l & Hstr & Hk & _)].
  { rewrite (proj2 (Z.ltb_lt _ _) Hneg) in Hrun. eapply Hsame; [by rewrite (Hrun _ eq_refl)|by apply SOpenFault]. }
  rewrite (proj2 (Z.ltb_ge _ _) Hpos) in Hrun. cbn [s1 with_mem s_mem] in Hrun. rewrite Hk in Hrun. cbn [mbind option_bind] in Hrun.
  destruct (find_boot_module_ok l) as [[Ef Hnone]|(i & Ef & Hi0 & Hnm)]; rewrite Ef in Hrun; cbn [mbind option_bind] in Hrun.
  { change (0 =? 0) with true in Hrun. cbv iota in Hrun. eapply Hsame; [by rewrite (Hrun _ eq_refl)|by eapply SOpenNone]. }
  rewrite (proj2 (Z.eqb_neq _ 0)) in Hrun by (unfold SIZEOF_MODULE; lia). fold s1 in Hrun. destruct (fi_files _ Hi1) as (files & Efs & Hlen & Hok). rewrite Efs in Hrun.
  destruct (least_free_ok s1 files Hi1 Efs) as [[Es Hfull]|(fd & f & Es & Hfree & Hf)]; rewrite Es in Hrun; cbn [mbind option_bind] in Hrun.
  { eapply Hsame; [by rewrite (Hrun _ eq_refl)|by eapply SOpenFull]. }
  destruct Hnm as (m & Hm & Hmatch). destruct (module_ok i m Hm) as (_ & Hsz & _).
  destruct (file_set_ok s1 files fd f (mk_file PROCESS_FILE_BOOT_MODULE (u32 fl) (mods_at + SIZEOF_MODULE * i) 0) Hi1 Efs Hf) as (s2 & E2 & Hi2 & Hv2 & Em2 & _ & Eo2 & Ein2);
    [right; exists i, m; split_and!; cbn; first [done|lia]|destruct Hfree; lia|].
  rewrite E2 in Hrun. cbn [mbind option_bind] in Hrun. exists fd, s2, (put (open_files s) fd (Some (i, 0))), None. split; [by rewrite (Hrun _ eq_refl)|].
  split; [apply (SOpen s _ path fl l i fd); try done; by exists m|]. split.
  { intros x. rewrite Hv2. unfold put. case_decide; [|done]. unfold file_view. cbn [f_kind f_module f_offset]. change (PROCESS_FILE_BOOT_MODULE =? PROCESS_FILE_NONE) with false. cbv iota.
    do 2 f_equal. unfold SIZEOF_MODULE. replace (mods_at + 80 * i - mods_at) with (i * 80) by lia. by rewrite Z.div_mul. }
  split; [done|]. split; [intros j x Hx; rewrite Em2; by apply (Hkept j)|]. rewrite Em2, Eo2, Ein2. by split_and!.
Qed.

(** C18.  The system calls on files implement read-only files over the boot modules: open finds the
    first module that the path in user memory names and returns the least free descriptor; read
    copies exactly the module's bytes from the position on, never past its end, into memory the
    process may write, and moves the position; lseek moves within the module; close frees the
    descriptor; every error is the one its cause asks for and changes nothing.  Positions stay
    inside their modules, the modules and the rest of user memory are not changed, and no access
    leaves a table. *)
Theorem file_calls_refine s c : files_inv s -> call_args_ok c -> ran s c.
Proof using L.
  intros Hi Hc. destruct c as [p fl|fd|fd b n|fd o w]; [by apply open_ok|by apply close_ok|by apply read_file_ok|by apply lseek_ok].
Qed.

End Files.

(** ** exec *)

Section Exec.
Variables (modules : list cached_module) (mods_at buf_at args_at tmp_at : Z).
Hypothesis L : layout_ok modules mods_at buf_at.

(** The buffers of sys_exec are kernel memory, apart from each other. *)
Definition buffers_apart : Prop :=
  2 ^ 47 <= args_at /\ 2 ^ 47 <= tmp_at /\ apart buf_at 256 args_at 512 /\ apart buf_at 256 tmp_at 8 /\ apart args_at 512 tmp_at 8.
Hypothesis B : buffers_apart.

Definition user_same (m m' : memory) : Prop := forall x, x < 2 ^ 47 -> m' x = m x.

(** The pointer at position [k] of the argument vector. *)
Definition argv_at (s : sys) (argv k v : Z) : Prop :=
  user_range_ok (s_mm s) (argv + 8 * k) 8 VMA_READ /\ little_endian_to_Z 8 (mem_bytes (s_mem s) (argv + 8 * k) 8) = v.

(** A C string of the process. *)
Definition user_cstring (s : sys) (p : Z) (l : list Z) : Prop :=
  0 < p /\ string_prefix (s_mm s) (s_mem s) p (zlen l) /\ user_range_ok (s_mm s) (p + zlen l) 1 VMA_READ /\ mem_bytes (s_mem s) p (zlen l + 1) = l ++ [0].

(** The argument vector from position [k] on: the strings and the final NULL. *)
Inductive user_argv (s : sys) (argv : Z) : Z -> list (list Z) -> Prop :=
  | argv_end k : argv_at s argv k 0 -> user_argv s argv k []
  | argv_arg k p l ls : argv_at s argv k p -> user_cstring s p l -> user_argv s argv (k + 1) ls -> user_argv s argv k (l :: ls).

Definition args_size (ls : list (list Z)) : Z := foldr (fun l n => zlen l + 1 + n) 0 ls.

Lemma args_size_ge ls : 0 <= args_size ls.
Proof using. induction ls as [|l ls IH]; [done|]. cbn [args_size foldr]. fold (args_size ls). pose proof (zlen_nonneg l). lia. Qed.

Lemma user_bytes_same s m' a n : user_same (s_mem s) m' -> a + n <= 2 ^ 47 -> mem_bytes m' a n = mem_bytes (s_mem s) a n.
Proof using. intros Hm Ha. apply mem_bytes_ext. intros k Hk. apply Hm. lia. Qed.

Lemma argv_at_same s m' argv k v : user_same (s_mem s) m' -> argv_at s argv k v -> argv_at (with_mem m' s) argv k v.
Proof using.
  intros Hm [Hr Hv]. split; [done|]. cbn [with_mem s_mem]. rewrite (user_bytes_same s); [done|done|]. destruct Hr as [_ [|[? _] ] ]; lia.
Qed.

Lemma user_cstring_same s m' p l : user_same (s_mem s) m' -> user_cstring s p l -> user_cstring (with_mem m' s) p l.
Proof using.
  intros Hm (Hp & Hpre & Hr & Hb). pose proof (range_ok_user _ _ _ Hr) as Hlt. split; [done|]. split; [|split; [done|]].
  - intros k Hk. destruct (Hpre k Hk) as [H1 H2]. split; [done|]. cbn [with_mem s_mem]. rewrite Hm by lia. done.
  - cbn [with_mem s_mem]. rewrite (user_bytes_same s); [done|done|lia].
Qed.

Lemma user_argv_same s m' argv k ls : user_same (s_mem s) m' -> user_argv s argv k ls -> user_argv (with_mem m' s) argv k ls.
Proof using.
  intros Hm. induction 1 as [k H|k p l ls H1 H2 _ IH].
  - apply argv_end. by apply argv_at_same.
  - apply (argv_arg _ _ k p); [by apply argv_at_same|by apply user_cstring_same|exact IH].
Qed.

Lemma read_pointer_ok s argv k v : mm_wf s -> 0 <= argv -> 0 <= k -> argv_at s argv k v ->
  exists m', read_pointer tmp_at argv k s = Some (0, v, with_mem m' s) /\ only_at tmp_at 8 (s_mem s) m'.
Proof using B.
  intros W Ha Hk [Hr Hv]. destruct B as (_ & Ht & _). assert (argv + 8 * k + 8 <= 2 ^ 47) by (destruct Hr as [_ [|[? _] ] ]; lia).
  unfold read_pointer. rewrite u64_small by lia. destruct (copy_in_ok s tmp_at (argv + 8 * k) 8 W) as [[-> _]|[_ Hn] ]; [lia..| |done].
  cbn [mbind option_bind]. eexists. split; [|apply memcpy_out]. do 3 f_equal. rewrite <- Hv. f_equal. apply mem_bytes_ext.
  intros j Hj. rewrite memcpy_in by lia. f_equal. lia.
Qed.

Lemma cstring_at s p l : user_cstring s p l -> s_mem s (p + zlen l) = 0.
Proof using.
  intros (_ & _ & _ & Hb). pose proof (zlen_nonneg l). rewrite mem_bytes_app in Hb by lia. apply app_inj_1 in Hb as [_ Hb]; [|].
  - unfold mem_bytes in Hb. change (seqZ (p + zlen l) 1) with [p + zlen l] in Hb. by injection Hb.
  - pose proof (mem_bytes_length (s_mem s) p (zlen l)) as E. unfold zlen in *. lia.
Qed.

Lemma cstring_bytes s p l : user_cstring s p l -> mem_bytes (s_mem s) p (zlen l) = l.
Proof using.
  intros (_ & _ & _ & Hb). pose proof (zlen_nonneg l). rewrite mem_bytes_app in Hb by lia. apply app_inj_1 in Hb as [Hb _]; [done|].
  pose proof (mem_bytes_length (s_mem s) p (zlen l)) as E. unfold zlen in *. lia.
Qed.

(** One argument copied into the storage. *)
Lemma copy_arg_ok s p l dst size : mm_wf s -> user_cstring s p l -> 2 ^ 47 <= dst -> zlen l < size <= 512 ->
  exists m', copy_string_from_user (s_mm s) (s_mem s) dst size p = Some (zlen l, m') /\ only_at dst size (s_mem s) m' /\
    kstring (Z.to_nat size) m' dst = Some l /\ mem_bytes m' dst (zlen l + 1) = l ++ [0].
Proof using.
  intros W Hs Hd Hsz. pose proof (zlen_nonneg l) as Hz. pose proof (cstring_at _ _ _ Hs) as H0. pose proof (cstring_bytes _ _ _ Hs) as Hby.
  destruct Hs as (Hp & Hpre & Hr & Hb). pose proof (range_ok_user _ _ _ Hr) as Hlt.
  unfold copy_string_from_user. rewrite (proj2 (Z.eqb_neq dst 0)), (proj2 (Z.eqb_neq p 0)), (proj2 (Z.eqb_neq size 0)) by lia. cbn [orb].
  destruct (copy_string_ok (s_mm s) (s_mem s) dst size p (Z.to_nat size) 0 (s_mem s) W) as (ret & m' & j & E & Hj & Hprej & Hcase);
    [lia|lia|lia|lia|lia|lia|intros k Hk; lia|split; [done|intros k Hk; lia]|]. rewrite E.
  assert (j <= zlen l) as Hjl by (destruct (decide (j <= zlen l)); [done|]; destruct (Hprej (zlen l)) as [_ Hne]; [lia|done]).
  destruct Hcase as [(-> & _ & Hzj & _ & Ho & Hbuf)|[(_ & _ & Hnr & _)|(_ & -> & _)] ]; [| |lia].
  - assert (j = zlen l) as -> by (destruct (decide (j = zlen l)); [done|]; destruct (Hpre j) as [_ Hne]; [lia|done]). exists m'. split; [done|]. split; [exact Ho|].
    assert (mem_bytes m' dst (zlen l + 1) = l ++ [0]) as Hall by (rewrite <- Hb; apply mem_bytes_ext; intros k Hk; apply Hbuf; lia).
    split; [|done]. rewrite (kstring_ok _ m' dst (zlen l)); [| |by rewrite Hbuf by lia|lia].
    + rewrite <- Hby at 2. f_equal. apply mem_bytes_ext. intros k Hk. apply Hbuf. lia.
    + intros k Hk. rewrite Hbuf by lia. by apply Hpre.
  - exfalso. apply Hnr. destruct (decide (j = zlen l)) as [->|]; [done|]. apply Hpre. lia.
Qed.

(** A string with its NUL inside the argument storage. *)
Definition arg_stored (m : memory) (p : Z) (l : list Z) : Prop :=
  mem_bytes m p (zlen l + 1) = l ++ [0] /\ 0 ∉ l /\ args_at <= p /\ p + zlen l < args_at + 512.

Lemma mem_bytes_lookup m a n k b : mem_bytes m a n !! k = Some b -> b = m (a + Z.of_nat k).
Proof using. unfold mem_bytes. intros H. apply list_lookup_fmap_Some in H as (x & -> & Hx). by apply lookup_seqZ in Hx as [-> _]. Qed.

Lemma arg_stored_kstring m p l : arg_stored m p l -> kstring (Z.to_nat (args_at + EXEC_MAX_ARG_BYTES - p)) m p = Some l.
Proof using.
  intros (Hb & Hn & Hp & Hend). pose proof (zlen_nonneg l) as Hz.
  assert (forall k b, (l ++ [0]) !! k = Some b -> b = m (p + Z.of_nat k)) as Hl by (intros k b Hk; rewrite <- Hb in Hk; by apply mem_bytes_lookup in Hk).
  rewrite (kstring_ok _ m p (zlen l)).
  - f_equal. rewrite mem_bytes_app in Hb by lia. apply app_inj_1 in Hb as [Hb _]; [done|]. pose proof (mem_bytes_length m p (zlen l)) as E. unfold zlen in *. lia.
  - intros k Hk. destruct (lookup_lt_is_Some_2 l (Z.to_nat k)) as [b Hlb]; [unfold zlen in Hk; lia|].
    specialize (Hl (Z.to_nat k) b). rewrite lookup_app_l, Z2Nat.id in Hl by (unfold zlen in *; lia). rewrite <- (Hl Hlb). intros ->. apply Hn. by eapply list_elem_of_lookup_2.
  - symmetry. unfold zlen. apply Hl. by rewrite lookup_app_r, Nat.sub_diag by lia.
  - unfold EXEC_MAX_ARG_BYTES. lia.
Qed.

Lemma arg_stored_same m m' p l : arg_stored m p l -> (forall x, p <= x < p + zlen l + 1 -> m' x = m x) -> arg_stored m' p l.
Proof using. intros (Hb & Hr) Hm. split; [|done]. rewrite <- Hb. apply mem_bytes_ext. intros k Hk. apply Hm. lia. Qed.

Lemma cstring_no_nul s p l : user_cstring s p l -> 0 ∉ l.
Proof using.
  intros Hs H%list_elem_of_lookup. destruct H as [k Hk]. pose proof (lookup_lt_Some _ _ _ Hk) as Hlt. rewrite <- (cstring_bytes _ _ _ Hs) in Hk. apply mem_bytes_lookup in Hk.
  destruct Hs as (_ & Hpre & _). destruct (Hpre (Z.of_nat k)) as [_ Hne]; [unfold zlen; lia|]. congruence.
Qed.

(** Nothing changed but the argument storage from [used] on and the pointer. *)
Definition args_changed (used : Z) (m m' : memory) : Prop :=
  forall x, ~ args_at + used <= x < args_at + 512 -> ~ tmp_at <= x < tmp_at + 8 -> m' x = m x.

Lemma copy_args_ok ls : forall n argv k used kargv s,
  mm_wf s -> 0 <= argv -> 0 <= k -> user_argv s argv k ls -> 0 <= used -> used + args_size ls <= 512 -> (length ls <= n)%nat ->
  exists kps m', copy_args args_at tmp_at n argv k used kargv s = Some (inr (kargv ++ kps), with_mem m' s) /\
    args_changed used (s_mem s) m' /\ Forall2 (arg_stored m') kps ls.
Proof using B.
  pose proof B as (Hargs & Htmp & _ & _ & Hap).
  induction ls as [|l ls IH]; intros n argv k used kargv s W Ha Hk Hv Hu Hs Hn; inversion Hv as [? He|? p ? ? Hp Hstr Hrest]; subst.
  { destruct n as [|n]; cbn [copy_args].
    - exists [], (s_mem s). rewrite app_nil_r. by split_and!; [destruct s|..].
    - destruct (read_pointer_ok s argv k 0 W Ha Hk He) as (m1 & -> & Hm1). cbn [mbind option_bind]. exists [], m1. rewrite app_nil_r.
      split_and!; [done| |constructor]. intros x _ Hx. by apply Hm1. }
  destruct n as [|n]; [cbn in Hn; lia|]. cbn [copy_args]. destruct (read_pointer_ok s argv k p W Ha Hk Hp) as (m1 & -> & Hm1). cbn [mbind option_bind].
  change (0 <? 0) with false. cbv iota. pose proof Hstr as (Hp0 & _). rewrite (proj2 (Z.eqb_neq p 0)) by lia.
  cbn [args_size foldr] in Hs. fold (args_size ls) in Hs. pose proof (args_size_ge ls) as Has. pose proof (zlen_nonneg l) as Hzl.
  unfold EXEC_MAX_ARG_BYTES. rewrite (proj2 (Z.leb_gt 512 used)) by lia.
  assert (user_same (s_mem s) m1) as Hus1 by (intros x Hx; apply Hm1; lia).
  destruct (copy_arg_ok (with_mem m1 s) p l (args_at + used) (512 - used)) as (m2 & E2 & Ho2 & _ & Hb2); [done|by apply user_cstring_same|lia|lia|].
  cbn [with_mem s_mem s_mm] in E2 |- *. rewrite E2. cbn [mbind option_bind]. rewrite (proj2 (Z.ltb_ge (zlen l) 0)) by lia.
  assert (user_same m1 m2) as Hus2 by (intros x Hx; apply Ho2; lia).
  destruct (IH n argv (k + 1) (used + zlen l + 1) (kargv ++ [args_at + used]) (with_mem m2 s)) as (kps & m3 & E3 & Hc3 & HF); [done|done|lia| |lia|lia|cbn in Hn; lia|].
  { apply user_argv_same; [|done]. intros x Hx. rewrite Hus2 by done. by apply Hus1. }
  exists ((args_at + used) :: kps), m3. change (with_mem m2 (with_mem m1 s)) with (with_mem m2 s). rewrite E3, <- app_assoc. cbn [app]. split; [done|].
  cbn [with_mem s_mem] in Hc3. split.
  - intros x Hx Hx2. rewrite Hc3 by lia. rewrite Ho2 by (cbn; lia). by apply Hm1.
  - constructor; [|done]. apply (arg_stored_same m2); [|intros x Hx; apply Hc3; [lia|unfold apart in Hap; lia]].
    split; [done|]. split; [by eapply cstring_no_nul|lia].
Qed.

Lemma arg_strings_ok m kps ls : Forall2 (arg_stored m) kps ls -> arg_strings args_at m kps = Some ls.
Proof using. intros HF. unfold arg_strings. apply mapM_Some_2. eapply Forall2_impl; [exact HF|]. intros p l. apply arg_stored_kstring. Qed.

Lemma find_named name i : names_module modules name i -> find_boot_module modules mods_at name = Some (mods_at + SIZEOF_MODULE * i).
Proof using.
  intros (m & Hm & Hb & Hfirst). destruct (find_boot_module_ok modules mods_at name) as [[_ Hno]|(j & E & Hj & m' & Hm' & Hb' & Hfirst')]; [by rewrite (Hno i m Hm) in Hb|].
  rewrite E. do 3 f_equal. apply zget_range in Hm as Hi. destruct (Z.lt_trichotomy j i) as [Hlt|[->|Hlt] ]; [|done|].
  - by rewrite (Hfirst j m' ltac:(lia) Hm') in Hb'.
  - by rewrite (Hfirst' i m ltac:(lia) Hm) in Hb.
Qed.

Lemma argv_last s argv k ls : user_argv s argv k ls -> argv_at s argv (k + zlen ls) 0.
Proof using.
  induction 1 as [k H|k p l ls _ _ _ IH]; [change (zlen []) with 0; by rewrite Z.add_0_r|].
  rewrite zlen_cons. by replace (k + (zlen ls + 1)) with (k + 1 + zlen ls) by lia.
Qed.

(** The argument vector as sys_exec reads it: at most 16 strings and the final NULL. *)
Lemma exec_args_ok s argv ls : mm_wf s -> 0 <= argv -> (if decide (argv = 0) then ls = [] else user_argv s argv 0 ls) -> (length ls <= 16)%nat -> args_size ls <= 512 ->
  exists kps m', (if argv =? 0 then Some (inr [], s) else
    '(res, s) ← copy_args args_at tmp_at (Z.to_nat EXEC_MAX_ARGS) argv 0 0 [] s;
    match res with
    | inl e => Some (inl e, s)
    | inr kargv =>
        if zlen kargv =? EXEC_MAX_ARGS then
          '(ret, overflow, s) ← read_pointer tmp_at argv EXEC_MAX_ARGS s;
          Some (if ret <? 0 then inl ret else if negb (overflow =? 0) then inl (- E2BIG) else inr kargv, s)
        else Some (inr kargv, s)
    end) = Some (inr kps : Z + list Z, with_mem m' s) /\ args_changed 0 (s_mem s) m' /\ Forall2 (arg_stored m') kps ls.
Proof using B.
  intros W Ha Hv Hlen Hsize. pose proof B as (Hargs & Htmp & _ & _ & Hap). destruct (Z.eqb_spec argv 0) as [->|Ha0].
  { rewrite decide_True in Hv by done. subst ls. exists [], (s_mem s). by split_and!; [destruct s|..]. }
  rewrite decide_False in Hv by done.
  destruct (copy_args_ok ls (Z.to_nat EXEC_MAX_ARGS) argv 0 0 [] s W Ha ltac:(lia) Hv ltac:(lia) ltac:(lia) ltac:(done)) as (kps & m1 & E & Hc & HF).
  rewrite E. cbn [mbind option_bind app]. destruct (Z.eqb_spec (zlen kps) EXEC_MAX_ARGS) as [Hz|Hz]; [|by exists kps, m1].
  assert (user_same (s_mem s) m1) as Hus by (intros x Hx; apply Hc; lia).
  assert (argv_at (with_mem m1 s) argv EXEC_MAX_ARGS 0) as He.
  { apply argv_at_same; [done|]. assert (EXEC_MAX_ARGS = 0 + zlen ls) as -> by (rewrite <- Hz; unfold zlen; by rewrite (Forall2_length _ _ _ HF)).
    by apply argv_last. }
  destruct (read_pointer_ok (with_mem m1 s) argv EXEC_MAX_ARGS 0) as (m2 & E2 & Hm2); [done|done|done|done|]. rewrite E2. cbn [mbind option_bind].
  exists kps, m2. split; [done|]. cbn [with_mem s_mem] in Hm2. split.
  - intros x Hx Hx2. rewrite Hm2 by done. by apply Hc.
  - eapply Forall2_impl; [exact HF|]. intros p l Hpl. apply (arg_stored_same m1); [done|]. intros x Hx. apply Hm2. destruct Hpl as (_ & _ & H1 & H2). unfold apart in Hap. lia.
Qed.

(** C35.  exec runs the program the process named with the arguments it passed: if the path is a
    string of the process that names a boot module, and the argument vector holds at most 16
    strings that fit into 512 bytes, then exec_replace is called with that module, the last
    component of the path as the name, and exactly those strings as arguments (the name alone if
    there are none). *)
Theorem sys_exec_spec s path argv name i m ls :
  mm_wf s -> 0 < path < 2 ^ 64 -> 0 <= argv < 2 ^ 64 -> user_string s path name -> names_module modules name i -> zget modules i = Some m ->
  (if decide (argv = 0) then ls = [] else user_argv s argv 0 ls) -> (length ls <= 16)%nat -> args_size ls <= 512 ->
  exists s', sys_exec modules mods_at buf_at args_at tmp_at path argv s =
      Some (ExecRun m (path_basename name) (if decide (ls = []) then [path_basename name] else ls), s') /\
    user_same (s_mem s) (s_mem s').
Proof using L B.
  intros W Hp Ha Hs Hnm Hm Hargv Hlen Hsize. pose proof B as (Hargs & Htmp & Hap1 & Hap2 & Hap3). pose proof L as (Hbuf & Hmods & _). unfold sys_exec. rewrite (proj2 (Z.eqb_neq path 0)) by lia.
  assert (user_cstring s path name) as Hcs by (destruct Hs as (_ & H1 & H2 & H3); split; [lia|done]). pose proof Hs as (Hl256 & _).
  destruct (copy_arg_ok s path name buf_at 256 W Hcs Hbuf ltac:(lia)) as (m1 & E1 & Ho1 & Hk1 & Hb1). change (Z.to_nat 256) with 256%nat in Hk1.
  rewrite E1. cbn [mbind option_bind]. pose proof (zlen_nonneg name) as Hzn. rewrite (proj2 (Z.ltb_ge (zlen name) 0)) by lia. cbn [with_mem s_mem]. rewrite Hk1. cbn [mbind option_bind].
  rewrite (find_named name i Hnm). cbn [mbind option_bind]. apply zget_range in Hm as Hir. rewrite (proj2 (Z.eqb_neq _ 0)) by (unfold SIZEOF_MODULE; lia).
  assert (user_same (s_mem s) m1) as Hus by (intros x Hx; apply Ho1; lia). fold (with_mem m1 s).
  destruct (exec_args_ok (with_mem m1 s) argv ls) as (kps & m2 & E2 & Hc2 & HF); [done|lia| |done|done|].
  { destruct (decide (argv = 0)); [done|]. by apply user_argv_same. }
  rewrite E2. cbn [mbind option_bind with_mem s_mem] in Hc2 |- *. rewrite module_at_ok, Hm. cbn [mbind option_bind].
  assert (kstring 256 m2 buf_at = Some name) as Hk2.
  { assert (forall x, buf_at <= x < buf_at + 256 -> m2 x = m1 x) as Hsame by (intros x Hx; unfold apart in *; apply Hc2; lia).
    assert (forall k b, (name ++ [0]) !! k = Some b -> b = m2 (buf_at + Z.of_nat k)) as Hl.
    { intros k b Hk. assert (Z.of_nat k < 256) by (apply lookup_lt_Some in Hk; rewrite length_app in Hk; cbn in Hk; unfold zlen in *; lia).
      rewrite Hsame by lia. rewrite <- Hb1 in Hk. by apply mem_bytes_lookup in Hk. }
    rewrite (kstring_ok 256 m2 buf_at (zlen name)); [| | |lia].
    - f_equal. rewrite (mem_bytes_ext m1 m2 buf_at buf_at) by (intros k Hk; apply Hsame; lia). rewrite mem_bytes_app in Hb1 by lia. apply app_inj_1 in Hb1 as [Hb1 _]; [done|].
      pose proof (mem_bytes_length m1 buf_at (zlen name)) as E. unfold zlen in *. lia.
    - intros k Hk. destruct (lookup_lt_is_Some_2 name (Z.to_nat k)) as [b Hlb]; [unfold zlen in Hk; lia|].
      specialize (Hl (Z.to_nat k) b). rewrite lookup_app_l, Z2Nat.id in Hl by (unfold zlen in *; lia). rewrite <- (Hl Hlb). intros ->.
      apply (cstring_no_nul _ _ _ Hcs). by eapply list_elem_of_lookup_2.
    - symmetry. unfold zlen. apply Hl. by rewrite lookup_app_r, Nat.sub_diag by lia. }
  rewrite Hk2. cbn [mbind option_bind]. rewrite (arg_strings_ok m2 kps ls HF). cbn [mbind option_bind]. eexists. split.
  - do 3 f_equal. pose proof (Forall2_length _ _ _ HF) as Hl. destruct kps, ls; try done.
  - intros x Hx. cbn. rewrite Hc2 by lia. by apply Hus.
Qed.
End Exec.

(** ** Seeking and signed overflow *)

(** A seek whose target exceeds the largest i64 has no defined result: the sum of the position
    and the offset overflows before it is checked against the size. *)
Theorem lseek_overflows modules mods_at s fd f m o :
  s_proc s ≠ None -> open_module modules mods_at s fd = Some (Some (f, m)) -> 0 <= f_offset f < 2 ^ 63 -> o < 2 ^ 63 -> 2 ^ 63 <= f_offset f + o ->
  sys_lseek modules mods_at fd o SEEK_CUR s = None.
Proof.
  intros Hp Ho Hf Hom Hov. unfold sys_lseek. rewrite bool_decide_false by done. rewrite Ho. cbn [mbind option_bind].
  change (SEEK_CUR =? SEEK_SET) with false. change (SEEK_CUR =? SEEK_CUR) with true. cbv iota. rewrite s64_small by done.
  unfold i64_add. rewrite decide_False by lia. done.
Qed.

(** ** Example: a process with the file "hi" open *)

Definition ex_buf : Z := 2 ^ 50.
Definition ex_mods : Z := 2 ^ 51.
Definition ex_modules : list cached_module := [mk_module (2 ^ 52) 5 [47; 104; 105; 46; 101; 108; 102]].   (* "/hi.elf" *)

(** "hi" is at 0x401ffe, the argument vector { "hi", NULL } at 0x402100; the module holds 9, 8, 7, 6, 5. *)
Definition ex_mem : memory := fun x =>
  if x =? 0x401ffe then 104 else if x =? 0x401fff then 105
  else if x =? 0x402100 then 0xfe else if x =? 0x402101 then 0x1f else if x =? 0x402102 then 0x40
  else if (2 ^ 52 <=? x) && (x <? 2 ^ 52 + 5) then 9 - (x - 2 ^ 52) else 0.

Definition ex_proc : proc_view := mk_pv 7 1 (Some (replicate 3 (mk_file 0 0 0 0) ++ mk_file 1 0 (2 ^ 51) 2 :: replicate 12 (mk_file 0 0 0 0))).
Definition ex_sys : sys := mk_sys ex_mem (Some ex_user) (Some ex_proc) [] [111; 107; 13; 120].   (* "ok", return, "x" *)

Lemma ex_layout : layout_ok ex_modules ex_mods ex_buf.
Proof. split; [done|]. split; [done|]. apply Forall_singleton. unfold apart, ex_buf. cbn [mod_address mod_size]. lia. Qed.

Lemma ex_files_inv : files_inv ex_modules ex_mods ex_sys.
Proof.
  split.
  - exact ex_user_wf.
  - eexists. split; [reflexivity|]. split; [reflexivity|]. assert (entry_ok ex_modules ex_mods (mk_file 0 0 0 0)) as H0 by (by left).
    apply Forall_app. split; [by apply Forall_replicate|]. apply Forall_cons. split; [|by apply Forall_replicate].
    right. exists 0, (mk_module (2 ^ 52) 5 [47; 104; 105; 46; 101; 108; 102]). split_and!; try done; unfold ex_mods, SIZEOF_MODULE; cbn; lia.
  - intros fd Hfd. assert (fd = 0 \/ fd = 1 \/ fd = 2) as [->|[->| ->] ] by (unfold PROCESS_FD_FIRST_USER in Hfd; lia); reflexivity.
Qed.

Lemma range_by_check mm p n r : (forall a, mm = Some a -> vmas_wf (vma_list a)) -> 0 <= p < 2 ^ 64 -> 0 <= n < 2 ^ 64 ->
  validate_user_range mm p n r = Some 0 -> user_range_ok mm p n r.
Proof. intros W Hp Hn E. destruct (validate_ok mm p n r W) as [[_ H]|[E' _] ]; [unfold fits; lia..|done|by rewrite E in E']. Qed.

Lemma console_write_spec_witness : exists k ret s', sys_write ex_buf 1 0x401ffe 2 ex_sys = Some (ret, s') /\
  sys_debug_print ex_buf 0x401ffe 2 ex_sys = Some (ret, s') /\ printed ex_buf ex_sys 0x401ffe 2 k ret s'.
Proof. apply (console_write_spec ex_buf ltac:(done) ex_sys 1 0x401ffe 2); [exact ex_user_wf|by left|lia|lia]. Defined.

Lemma console_read_spec_witness : exists m',
  sys_read ex_modules ex_mods ex_buf PROCESS_FD_STDIN 0x402000 10 ex_sys =
    Some (Some 3, mk_sys m' (Some ex_user) (Some ex_proc) [111; 107; 13; 10] [120]) /\ stored ex_buf 0x402000 [111; 107; 10] ex_mem m'.
Proof.
  destruct (console_read_spec ex_buf ltac:(done) ex_sys 0x402000 10 [111; 107] ex_modules ex_mods) as (H & _ & _).
  - exact ex_user_wf.
  - repeat constructor; done.
  - lia.
  - lia.
  - by vm_compute.
  - apply range_by_check; [exact ex_user_wf|lia|by vm_compute|reflexivity].
  - destruct (H 13 [120]) as (m' & E & Hs); [by right|by vm_compute|reflexivity|]. exists m'. split; [exact E|exact Hs].
Defined.

Lemma file_calls_refine_witness : ran ex_modules ex_mods ex_buf ex_sys (FRead 3 0x402000 100).
Proof.
  apply (file_calls_refine ex_modules ex_mods ex_buf ex_layout ex_sys (FRead 3 0x402000 100)); [exact ex_files_inv|].
  split; [done|]. unfold fits. split; lia.
Defined.

Lemma lseek_overflows_witness : sys_lseek ex_modules ex_mods 3 (2 ^ 63 - 1) SEEK_CUR ex_sys = None.
Proof.
  apply (lseek_overflows ex_modules ex_mods ex_sys 3 (mk_file 1 0 (2 ^ 51) 2) (mk_module (2 ^ 52) 5 [47; 104; 105; 46; 101; 108; 102]) (2 ^ 63 - 1));
    [done|reflexivity|by vm_compute|lia|by vm_compute].
Defined.

Lemma ex_string : user_cstring ex_sys 0x401ffe [104; 105].
Proof.
  split; [lia|]. split; [|split; [|reflexivity]].
  - intros k Hk. assert (k = 0 \/ k = 1) as [->| ->] by (change (zlen [104; 105]) with 2 in Hk; lia); (split; [apply range_by_check; [exact ex_user_wf|by vm_compute|by vm_compute|reflexivity]|done]).
  - apply range_by_check; [exact ex_user_wf|by vm_compute|by vm_compute|reflexivity].
Qed.

(** The file was named "hi.elf" by its path. *)
Lemma sys_exec_spec_witness : exists s',
  sys_exec ex_modules ex_mods ex_buf (2 ^ 50 + 1024) (2 ^ 50 + 2048) 0x401ffe 0x402100 ex_sys =
    Some (ExecRun (mk_module (2 ^ 52) 5 [47; 104; 105; 46; 101; 108; 102]) [104; 105] [[104; 105]], s').
Proof.
  destruct (sys_exec_spec ex_modules ex_mods ex_buf (2 ^ 50 + 1024) (2 ^ 50 + 2048) ex_layout) with (s := ex_sys) (path := 0x401ffe) (argv := 0x402100)
    (name := [104; 105]) (i := 0) (m := mk_module (2 ^ 52) 5 [47; 104; 105; 46; 101; 108; 102]) (ls := [[104; 105]]) as (s' & E & _).
  - unfold buffers_apart, apart, ex_buf. lia.
  - exact ex_user_wf.
  - lia.
  - lia.
  - destruct ex_string as (_ & H1 & H2 & H3). split; [by vm_compute|]. by split_and!.
  - exists (mk_module (2 ^ 52) 5 [47; 104; 105; 46; 101; 108; 102]). split_and!; [reflexivity|reflexivity|]. intros; lia.
  - reflexivity.
  - rewrite decide_False by lia. apply (argv_arg _ _ 0 0x401ffe); [|exact ex_string|apply argv_end];
      (split; [apply range_by_check; [exact ex_user_wf|by vm_compute|by vm_compute|reflexivity]|reflexivity]).
  - simpl. lia.
  - by vm_compute.
  - exists s'. exact E.
Defined.
