(* ===== verification/Manifest.v ===== *)
(** * The boot modules and services that user programs know
      (include/ocean/userspace_manifest.h)

    Strings are lists of bytes; [bytes] gives those of a literal. *)
From stdpp Require Import strings.
From S2P Require Import Prelude.

Definition bytes (s : string) : list Z := (fun c => Z.of_N (Ascii.N_of_ascii c)) <$> String.list_ascii_of_string s.

Definition EP_INIT : Z := 1.
Definition EP_MEM : Z := 2.
Definition EP_PROC : Z := 3.
Definition EP_VFS : Z := 4.
Definition EP_BLK : Z := 5.

Record ocean_boot_module_spec := mk_bms {
  bm_name : list Z; bm_path : list Z; bm_summary : list Z; runnable_from_shell : Z
}.
Record ocean_service_spec := mk_svs {
  sv_name : list Z; sv_path : list Z; sv_summary : list Z; well_known_ep : Z; sv_priority : Z
}.

Definition ocean_boot_module_specs : list ocean_boot_module_spec := [
  mk_bms (bytes "init") (bytes "/boot/init.elf") (bytes "Initial userspace service manager") 0;
  mk_bms (bytes "sh") (bytes "/boot/sh.elf") (bytes "Interactive shell") 1;
  mk_bms (bytes "echo") (bytes "/boot/echo.elf") (bytes "Print arguments") 1;
  mk_bms (bytes "cat") (bytes "/boot/cat.elf") (bytes "Concatenate files or standard input") 1;
  mk_bms (bytes "ls") (bytes "/boot/ls.elf") (bytes "List the read-only boot directory") 1].

Definition ocean_service_specs : list ocean_service_spec := [
  mk_svs (bytes "mem") (bytes "/boot/mem.elf") (bytes "Memory policy server") EP_MEM 0;
  mk_svs (bytes "proc") (bytes "/boot/proc.elf") (bytes "Process lifecycle server") EP_PROC 1;
  mk_svs (bytes "blk") (bytes "/boot/blk.elf") (bytes "Block device multiplexer") EP_BLK 2;
  mk_svs (bytes "ata") (bytes "/boot/ata.elf") (bytes "ATA disk driver") 0 3;
  mk_svs (bytes "vfs") (bytes "/boot/vfs.elf") (bytes "Virtual filesystem server") EP_VFS 4;
  mk_svs (bytes "ramfs") (bytes "/boot/ramfs.elf") (bytes "In-memory bootstrap filesystem") 0 4;
  mk_svs (bytes "ext2") (bytes "/boot/ext2.elf") (bytes "Read-only ext2 filesystem driver") 0 4].

(** The first entry with this name or path. *)
Fixpoint find_spec {A} (name path : A -> list Z) (l : list A) (query : list Z) : option A :=
  match l with
  | [] => None
  | x :: l => if bool_decide (name x = query) || bool_decide (path x = query) then Some x else find_spec name path l query
  end.

Definition ocean_find_boot_module_spec (name : list Z) : option ocean_boot_module_spec :=
  if decide (name = []) then None else find_spec bm_name bm_path ocean_boot_module_specs name.
Definition ocean_find_service_spec (name : list Z) : option ocean_service_spec :=
  if decide (name = []) then None else find_spec sv_name sv_path ocean_service_specs name.
