(* ===== verification/Shell.v ===== *)
(** * The shell (servers/sh/main.c)

    Reading a line, cutting it into arguments in place, and the choice of the command.  [line]
    is the array of bytes, [argv] the positions of the arguments in it (the NULL that ends it is
    left out).  [None] is an access outside the array.  A line of input is a list of characters;
    its end makes [read] fail. *)
From stdpp Require Import strings.
From S2P Require Import Prelude Defs Server Manifest.

(** ** The code *)

Definition MAX_LINE : nat := 256.
Definition MAX_ARGS : nat := 32.
Definition MAX_PATH : nat := 64.
Definition READ_LINE_EOF : Z := -1.
Definition READ_LINE_TOO_LONG : Z := -2.

Definition is_shell_space (c : Z) : bool := (c =? 32) || (c =? 9).

(** A store into the line. *)
Definition set_at (l : list Z) (i : nat) (c : Z) : option (list Z) :=
  if decide (i < length l)%nat then Some (<[i := c]> l) else None.

(** *** Reading a line *)

(** The rest of the input after the newline; [false] when the input ends first. *)
Fixpoint drain_line (inp : list Z) : bool * list Z :=
  match inp with
  | [] => (false, [])
  | c :: inp => if c =? 10 then (true, inp) else drain_line inp
  end.

(** The result, the line and the rest of the input. *)
Fixpoint read_line (inp : list Z) (i : nat) (line : list Z) : option (Z * list Z * list Z) :=
  if decide (i < MAX_LINE - 1)%nat then
    match inp with
    | [] => Some (READ_LINE_EOF, line, [])
    | c :: inp =>
        if c =? 10 then line ← set_at line i 0; Some (Z.of_nat i, line, inp)
        else if (c =? 0x7F) || (c =? 8) then read_line inp (i - 1) line
        else line ← set_at line i c; read_line inp (S i) line
    end
  else line ← set_at line (MAX_LINE - 1) 0; Some (READ_LINE_TOO_LONG, line, (drain_line inp).2).

(** *** Cutting it *)

Definition DQ : Z := 34.
Definition SQ : Z := 39.
Definition BS : Z := 92.

(** One argument, from [src] to [dst]: every round reads a new position of the line. *)
Fixpoint word_loop (fuel : nat) (line : list Z) (src dst : nat) (quote : Z) : option (list Z * nat * nat * Z) :=
  match fuel with
  | O => None
  | S f =>
      c ← line !! src;
      if c =? 0 then Some (line, src, dst, quote) else
      let src := S src in
      if negb (quote =? 0) then
        if c =? quote then word_loop f line src dst 0 else
        '(c, src) ← (if (quote =? DQ) && (c =? BS)
                     then c' ← line !! src; Some (if c' =? 0 then (c, src) else (c', S src))
                     else Some (c, src));
        line ← set_at line dst c; word_loop f line src (S dst) quote
      else if (c =? DQ) || (c =? SQ) then word_loop f line src dst c
      else
        next ← (if c =? BS then c' ← line !! src; Some (if c' =? 0 then None else Some c') else Some None);
        match next with
        | Some c' => line ← set_at line dst c'; word_loop f line (S src) (S dst) 0
        | None =>
            if is_shell_space c then Some (line, src, dst, quote)
            else line ← set_at line dst c; word_loop f line src (S dst) 0
        end
  end.

Fixpoint skip_spaces (fuel : nat) (line : list Z) (src : nat) : option nat :=
  match fuel with
  | O => None
  | S f => c ← line !! src; if is_shell_space c then skip_spaces f line (S src) else Some src
  end.

(** All arguments: at most [MAX_ARGS - 1] rounds store one. *)
Fixpoint line_loop (fuel : nat) (line : list Z) (src dst : nat) (argv : list nat) : option (Z * list Z * list nat) :=
  match fuel with
  | O => None
  | S f =>
      c ← line !! src;
      if c =? 0 then Some (0, line, argv) else
      src ← skip_spaces (S (length line)) line src;
      c ← line !! src;
      if c =? 0 then Some (0, line, argv) else
      if decide (MAX_ARGS - 1 <= length argv)%nat then Some (-1, line, []) else
      let argv := argv ++ [dst] in
      '(line, src, dst, quote) ← word_loop (S (length line)) line src dst 0;
      if negb (quote =? 0) then Some (-1, line, []) else
      line ← set_at line dst 0;
      line_loop f line src (S dst) argv
  end.

Definition parse_line (line : list Z) : option (Z * list Z * list nat) := line_loop (S MAX_ARGS) line 0 0 [].

(** *** Commands *)

(** The current directory, when the path names one. *)
Definition set_current_dir (cwd path : list Z) : Z * list Z :=
  if bool_decide (path = []) || bool_decide (path = bytes "~") || bool_decide (path = bytes "/") then (0, bytes "/")
  else if bool_decide (path = bytes ".") then (0, cwd)
  else if bool_decide (path = bytes "..") then (0, bytes "/")
  else if bool_decide (path = bytes "boot") || bool_decide (path = bytes "/boot") then (0, bytes "/boot")
  else (-1, cwd).

(** The path that is executed, cut to the array it is printed to. *)
Definition resolve_external_path (name : list Z) (path_size : nat) : option (list Z) :=
  match name with
  | [] => None
  | c :: _ =>
      if c =? 47 then Some (take (path_size - 1) name) else
      match ocean_find_boot_module_spec name with
      | Some m => if runnable_from_shell m =? 0 then None else Some (take (path_size - 1) (bm_path m))
      | None => None
      end
  end.

(** What a command makes the shell do; [Show] prints a text, [Shows c] the text of a built-in. *)
Inductive builtin := Help | Pid | Clear | Modules | Services | Which | Version | CdUsage | CdFailed.
Inductive action :=
  | Nothing
  | Exit (code : Z)
  | Show (text : list Z)
  | Shows (b : builtin)
  | Run (path : list Z) (args : list (list Z))
  | NotFound (name : list Z).

(** The arguments behind the first one, with a blank between two of them, and a newline. *)
Fixpoint join (l : list (list Z)) : list Z :=
  match l with [] => [] | [a] => a | a :: l => a ++ 32 :: join l end.
Definition cmd_echo (argv : list (list Z)) : list Z := join (tail argv) ++ [10].

Definition cmd_cd (cwd : list Z) (argv : list (list Z)) : action * list Z :=
  match argv with
  | _ :: _ :: _ :: _ => (Shows CdUsage, cwd)
  | _ => let '(r, cwd) := set_current_dir cwd (match argv with _ :: t :: _ => t | _ => bytes "/" end) in
         (if r <? 0 then Shows CdFailed else Nothing, cwd)
  end.

Definition exec_external (argv : list (list Z)) : action :=
  match argv with
  | [] => Nothing
  | name :: _ => match resolve_external_path name 64 with Some path => Run path argv | None => NotFound name end
  end.

Definition execute (cwd : list Z) (argv : list (list Z)) : action * list Z :=
  match argv with
  | [] => (Nothing, cwd)
  | c :: _ =>
      let named s := bool_decide (c = bytes s) in
      if named "help" || named "?" then (Shows Help, cwd)
      else if named "exit" || named "quit" then (Exit 0, cwd)
      else if named "cd" then cmd_cd cwd argv
      else if named "pwd" then (Show (cwd ++ [10]), cwd)
      else if named "echo" then (Show (cmd_echo argv), cwd)
      else if named "pid" then (Shows Pid, cwd)
      else if named "clear" then (Shows Clear, cwd)
      else if named "modules" then (Shows Modules, cwd)
      else if named "services" then (Shows Services, cwd)
      else if named "which" then (Shows Which, cwd)
      else if named "version" then (Shows Version, cwd)
      else (exec_external argv, cwd)
  end.

(** The parent waits: the results of [wait], a child and its status, until its own child comes. *)
Fixpoint wait_for_pid (pid : Z) (results : list (Z * Z)) : option Z :=
  match results with
  | [] => None
  | (child, status) :: results =>
      if child =? pid then Some status else if child <? 0 then Some 1 else wait_for_pid pid results
  end.

(** The strings that [argv] points at. *)
Definition arg_strings (line : list Z) (argv : list nat) : list (list Z) := (fun p => c_string (drop p line)) <$> argv.

(** One round of the main loop: an action, the directory and the rest of the input; [None] at
    the end of the input. *)
Definition shell_round (cwd line inp : list Z) : option (option (action * list Z) * list Z * list Z) :=
  '(r, line, inp) ← read_line inp 0 line;
  if r =? READ_LINE_EOF then Some (None, line, inp)
  else if r =? READ_LINE_TOO_LONG then Some (Some (Nothing, cwd), line, inp)
  else '(r, line, argv) ← parse_line line;
       Some (Some (if r =? 0 then execute cwd (arg_strings line argv) else (Nothing, cwd)), line, inp).
