(* ===== verification/ShellSpec.v ===== *)
(** * The shell cuts lines as its quoting rules say

    [words] is the meaning of a line: arguments separated by blanks, with quotes and
    backslashes.  parse_line works in place, moving characters to the front of the line as it
    reads it; the theorems show that this never overwrites a character before it is read. *)
From stdpp Require Import strings.
From S2P Require Import Prelude Defs Server Manifest Shell.

(** ** The meaning of a line *)

Definition cons_word (c : Z) (r : list Z * list Z * Z) : list Z * list Z * Z :=
  let '(w, rest, q) := r in (c :: w, rest, q).

(** The argument at the start of the text, what follows it, and the quote that is still open. *)
Fixpoint word_of (q : Z) (l : list Z) : list Z * list Z * Z :=
  match l with
  | [] => ([], [], q)
  | c :: l1 =>
      if decide (q = 0) then
        if decide (c = DQ \/ c = SQ) then word_of c l1
        else if decide (c = BS) then
          match l1 with [] => cons_word c (word_of 0 l1) | c' :: l2 => cons_word c' (word_of 0 l2) end
        else if is_shell_space c then ([], l1, 0)
        else cons_word c (word_of 0 l1)
      else if decide (c = q) then word_of 0 l1
      else if decide (q = DQ /\ c = BS) then
        match l1 with [] => cons_word c (word_of q l1) | c' :: l2 => cons_word c' (word_of q l2) end
      else cons_word c (word_of q l1)
  end.

Fixpoint skip_blanks (l : list Z) : list Z :=
  match l with [] => [] | c :: l' => if is_shell_space c then skip_blanks l' else l end.

(** The arguments, when no quote stays open and there are at most [k] of them. *)
Fixpoint words (k : nat) (l : list Z) : option (list (list Z)) :=
  match skip_blanks l with
  | [] => Some []
  | l =>
      match k with
      | O => None
      | S k => let '(w, rest, q) := word_of 0 l in if decide (q = 0) then ws ← words k rest; Some (w :: ws) else None
      end
  end.

(** ** Reading and writing the line *)

(** The string [l] stands at [s], with its NUL. *)
Definition view (s : nat) (L l : list Z) : Prop := forall i c, (l ++ [0]) !! i = Some c -> L !! (s + i)%nat = Some c.

Lemma view_head s L l : view s L l -> L !! s = Some (default 0 (head l)).
Proof. intros H. rewrite <- (Nat.add_0_r s). apply H. by destruct l. Qed.

Lemma view_tail s L c l : view s L (c :: l) -> view (S s) L l.
Proof. intros H i b Hb. replace (S s + i)%nat with (s + S i)%nat by lia. by apply H. Qed.

Lemma view_lt s L l : view s L l -> (s + length l < length L)%nat.
Proof.
  intros H. apply lookup_lt_is_Some. exists 0. apply H. apply list_lookup_middle. done.
Qed.

Lemma view_set s L l d c : view s L l -> (d < s)%nat -> view s (<[d := c]> L) l.
Proof. intros H Hd i b Hb. rewrite list_lookup_insert_ne by lia. by apply H. Qed.

Lemma view_nul s L d : view s L [] -> (d <= s)%nat -> view s (<[d := 0]> L) [].
Proof.
  intros H Hd. destruct (decide (d = s)) as [->|]; [|apply view_set; [done|lia] ].
  intros i b Hb. apply list_lookup_singleton_Some in Hb as [-> <-]. rewrite Nat.add_0_r. apply list_lookup_insert_eq.
  pose proof (view_lt _ _ _ H). cbn in *. lia.
Qed.

Lemma set_at_ok L i c : (i < length L)%nat -> set_at L i c = Some (<[i := c]> L).
Proof. intros H. unfold set_at. by rewrite decide_True. Qed.

(** ** One argument *)

(** What the loop leaves: the word at [d], and the rest of the text where it was. *)
Record word_done (L : list Z) (d : nat) (w rest : list Z) (L' : list Z) (s' d' : nat) : Prop := {
  wd_line : L' = list_inserts d w L;
  wd_dst : d' = (d + length w)%nat;
  wd_view : view s' L' rest;
  wd_behind : (d' <= s')%nat;
  wd_end : d' = s' -> rest = [];
  wd_nul : 0 ∉ w /\ 0 ∉ rest
}.

Definition word_result (fuel : nat) (L : list Z) (l : list Z) (s d : nat) (q : Z) : Prop :=
  exists L' s' d', word_loop fuel L s d q = Some (L', s', d', (word_of q l).2)
    /\ word_done L d (word_of q l).1.1 (word_of q l).1.2 L' s' d'.

(** A character moved, and the rest of the word behind it. *)
Lemma word_step fuel L l s d q c (r := word_of q l) :
  (d < length L)%nat -> c ≠ 0 -> word_result fuel (<[d := c]> L) l s (S d) q ->
  exists L' s' d', (line ← set_at L d c; word_loop fuel line s (S d) q) = Some (L', s', d', (cons_word c r).2)
    /\ word_done L d (cons_word c r).1.1 (cons_word c r).1.2 L' s' d'.
Proof.
  intros Hd Hc (L' & s' & d' & E & [W1 W2 W3 W4 W5 W6]). unfold r in *. rewrite set_at_ok by done. cbn [mbind option_bind].
  destruct (word_of q l) as [ [w rest] q'] eqn:Ew. cbn [fst snd cons_word] in *. exists L', s', d'. split; [done|].
  split; [|cbn [length]; lia|done|done|done|].
  - subst L'. cbn [list_inserts]. by rewrite list_insert_inserts_lt by lia.
  - split; [|apply W6]. apply not_elem_of_cons. split; [congruence|apply W6].
Qed.

Lemma word_loop_ok fuel L l s d q :
  view s L l -> 0 ∉ l -> (d <= s)%nat -> (length l < fuel)%nat -> word_result fuel L l s d q.
Proof.
  revert L l s d q. induction fuel as [|f IH]; intros L l s d q Hv H0 Hd Hf; [lia|].
  unfold word_result. cbn [word_loop]. rewrite (view_head _ _ _ Hv). cbn [mbind option_bind]. pose proof (view_lt _ _ _ Hv) as Hlt.
  destruct l as [|c l]; cbn [head from_option id word_of length] in *.
  { exists L, s, d. split; [done|]. split; cbn; done. }
  apply not_elem_of_cons in H0 as [Hc0 H0]. pose proof (view_tail _ _ _ _ Hv) as Hv1.
  rewrite (proj2 (Z.eqb_neq c 0)) by congruence.
  destruct (decide (q = 0)) as [->|Hq]; [change (0 =? 0) with true|rewrite (proj2 (Z.eqb_neq q 0)) by done]; cbn [negb].
  - assert ((c =? DQ) || (c =? SQ) = bool_decide (c = DQ \/ c = SQ)) as ->.
    { case_bool_decide as H; [destruct H as [ ->| ->]; done|]. apply orb_false_iff. split; apply Z.eqb_neq; tauto. }
    destruct (decide (c = DQ \/ c = SQ)) as [H|H]; [rewrite bool_decide_true by done|rewrite bool_decide_false by done].
    { apply IH; [done|done|lia|lia]. }
    destruct (decide (c = BS)) as [->|Hb].
    + change (BS =? BS) with true. cbv iota. rewrite (view_head _ _ _ Hv1). cbn [mbind option_bind].
      destruct l as [|c' l]; cbn [head from_option id length] in *.
      * change (0 =? 0) with true. cbv iota beta. change (is_shell_space BS) with false. cbv iota.
        apply word_step; [lia|done|]. apply IH; [apply view_set; [done|lia]|done|lia|cbn; lia].
      * apply not_elem_of_cons in H0 as [Hc' H0]. rewrite (proj2 (Z.eqb_neq c' 0)) by congruence.
        apply word_step; [lia|congruence|]. apply view_tail in Hv1. apply IH; [apply view_set; [done|lia]|done|lia|lia].
    + rewrite (proj2 (Z.eqb_neq c BS)) by done. cbn [mbind option_bind]. destruct (is_shell_space c).
      * exists L, (S s), d. split; [done|]. split; cbn; try done; try lia. split; [apply not_elem_of_nil|done].
      * apply word_step; [lia|congruence|]. apply IH; [apply view_set; [done|lia]|done|lia|lia].
  - destruct (decide (c = q)) as [->|Hcq]; [rewrite Z.eqb_refl; apply IH; [done|done|lia|lia]|].
    rewrite (proj2 (Z.eqb_neq c q)) by done.
    assert ((q =? DQ) && (c =? BS) = bool_decide (q = DQ /\ c = BS)) as ->.
    { case_bool_decide as H; [destruct H as [-> ->]; done|]. apply andb_false_iff. destruct (Z.eqb_spec q DQ); [right|by left]. apply Z.eqb_neq. tauto. }
    destruct (decide (q = DQ /\ c = BS)) as [H|H]; [rewrite bool_decide_true by done|rewrite bool_decide_false by done].
    + rewrite (view_head _ _ _ Hv1). cbn [mbind option_bind]. destruct l as [|c' l]; cbn [head from_option id length] in *.
      * change (0 =? 0) with true. cbv iota beta.
        apply word_step; [lia|congruence|]. apply IH; [apply view_set; [done|lia]|done|lia|cbn; lia].
      * apply not_elem_of_cons in H0 as [Hc' H0]. rewrite (proj2 (Z.eqb_neq c' 0)) by congruence. cbn [mbind option_bind].
        apply word_step; [lia|congruence|]. apply view_tail in Hv1. apply IH; [apply view_set; [done|lia]|done|lia|lia].
    + cbn [mbind option_bind]. apply word_step; [lia|congruence|]. apply IH; [apply view_set; [done|lia]|done|lia|lia].
Qed.

(** ** The line *)

Lemma skip_spaces_ok fuel L l s : view s L l -> 0 ∉ l -> (length l < fuel)%nat ->
  exists s', skip_spaces fuel L s = Some s' /\ view s' L (skip_blanks l) /\ (s <= s')%nat /\ 0 ∉ skip_blanks l.
Proof.
  revert l s. induction fuel as [|f IH]; intros l s Hv H0 Hf; [lia|]. cbn [skip_spaces]. rewrite (view_head _ _ _ Hv). cbn [mbind option_bind].
  destruct l as [|c l]; cbn [head from_option id skip_blanks length] in *; [by exists s|].
  destruct (is_shell_space c); [|by exists s]. apply not_elem_of_cons in H0 as [_ H0].
  destruct (IH l (S s) (view_tail _ _ _ _ Hv) H0 ltac:(lia)) as (s' & E & ? & ? & ?). exists s'. split_and!; [done|done|lia|done].
Qed.

(** The argument [w] at [p], in front of [d]. *)
Definition arg_at (L : list Z) (d p : nat) (w : list Z) : Prop := view p L w /\ 0 ∉ w /\ (p + length w < d)%nat.

Lemma arg_at_inserts L d p w d1 k : arg_at L d p w -> (d <= d1)%nat -> arg_at (list_inserts d1 k L) d p w.
Proof.
  intros (Hv & H0 & Hp) Hd. split; [|done]. intros i c Hi. rewrite list_lookup_inserts_lt; [by apply Hv|].
  apply lookup_lt_Some in Hi. rewrite length_app in Hi. cbn in Hi. lia.
Qed.
Lemma arg_at_insert L d p w d1 c : arg_at L d p w -> (d <= d1)%nat -> arg_at (<[d1 := c]> L) d p w.
Proof. intros H Hd. exact (arg_at_inserts L d p w d1 [c] H Hd). Qed.
Lemma arg_at_mono L d d' p w : arg_at L d p w -> (d <= d')%nat -> arg_at L d' p w.
Proof. intros (? & ? & ?) ?. split_and!; [done|done|lia]. Qed.

(** The word just stored and its NUL. *)
Lemma arg_at_new L d w : (d + length w < length L)%nat -> 0 ∉ w ->
  arg_at (<[(d + length w)%nat := 0]> (list_inserts d w L)) (S (d + length w)) d w.
Proof.
  intros Hl H0. split; [|split; [done|lia] ]. intros i c Hi. apply lookup_snoc_Some in Hi as [ [Hi Hc]|[-> <-] ].
  - rewrite list_lookup_insert_ne by lia. rewrite list_lookup_inserts by lia. by replace (d + i - d)%nat with i by lia.
  - apply list_lookup_insert_eq. rewrite length_inserts. lia.
Qed.

Lemma words_blank k l : skip_blanks l = [] -> words k l = Some [].
Proof. intros H. destruct k; cbn [words]; by rewrite H. Qed.
Lemma words_none l : skip_blanks l ≠ [] -> words 0 l = None.
Proof. intros H. cbn [words]. by destruct (skip_blanks l). Qed.
Lemma words_more k l w rest q : skip_blanks l ≠ [] -> word_of 0 (skip_blanks l) = (w, rest, q) ->
  words (S k) l = if decide (q = 0) then ws ← words k rest; Some (w :: ws) else None.
Proof. intros H E. cbn [words]. destruct (skip_blanks l) eqn:Eb; [done|]. by rewrite E. Qed.

Lemma head_nonzero l : 0 ∉ l -> l ≠ [] -> default 0 (head l) ≠ 0.
Proof. intros H Hl. destruct l as [|c l]; [done|]. cbn. intros ->. apply H, elem_of_cons. by left. Qed.

Lemma line_loop_ok k fuel L l s d argv ws0 :
  view s L l -> 0 ∉ l -> (l ≠ [] -> (d <= s)%nat) -> (k + length argv = MAX_ARGS - 1)%nat -> (k < fuel)%nat ->
  Forall2 (arg_at L d) argv ws0 ->
  match words k l with
  | Some ws => exists L' argv' d', line_loop fuel L s d argv = Some (0, L', argv') /\ Forall2 (arg_at L' d') argv' (ws0 ++ ws)
  | None => exists L', line_loop fuel L s d argv = Some (-1, L', [])
  end.
Proof.
  revert fuel L l s d argv ws0. induction k as [|k IH]; intros [|f] L l s d argv ws0 Hv H0 Hd Hk Hf Ha; try lia;
    cbn [line_loop]; rewrite (view_head _ _ _ Hv); cbn [mbind option_bind].
  all: destruct (decide (l = [])) as [->|Hne]; [rewrite words_blank by done; cbn; exists L, argv, d; by rewrite app_nil_r|].
  all: rewrite (proj2 (Z.eqb_neq _ _) (head_nonzero _ H0 Hne)); pose proof (view_lt _ _ _ Hv).
  all: destruct (skip_spaces_ok (S (length L)) L l s Hv H0 ltac:(lia)) as (s1 & -> & Hv1 & Hs1 & H01); cbn [mbind option_bind];
    rewrite (view_head _ _ _ Hv1); cbn [mbind option_bind].
  all: destruct (decide (skip_blanks l = [])) as [Eb|Eb];
    [rewrite words_blank, Eb by done; cbn; exists L, argv, d; by rewrite app_nil_r|].
  all: rewrite (proj2 (Z.eqb_neq _ _) (head_nonzero _ H01 Eb)).
  { rewrite words_none, decide_True by (done || lia). eauto. }
  rewrite decide_False by lia. specialize (Hd Hne). pose proof (view_lt _ _ _ Hv1).
  destruct (word_loop_ok (S (length L)) L (skip_blanks l) s1 d 0 Hv1 H01 ltac:(lia) ltac:(lia)) as (L' & s' & d' & -> & W).
  cbn [mbind option_bind]. destruct (word_of 0 (skip_blanks l)) as [ [w rest] q] eqn:Ew. cbn [fst snd] in *.
  rewrite (words_more _ _ _ _ _ Eb Ew).
  destruct W as [-> -> W3 W4 W5 [W6 W7] ]. destruct (decide (q = 0)) as [->|Hq]; [|rewrite (proj2 (Z.eqb_neq q 0) Hq); cbn [negb]; eauto].
  change (0 =? 0) with true. cbn [negb]. pose proof (view_lt _ _ _ W3) as Hlt. rewrite length_inserts in Hlt.
  rewrite set_at_ok by (rewrite length_inserts; lia). cbn [mbind option_bind].
  assert (view s' (<[(d + length w)%nat := 0]> (list_inserts d w L)) rest) as Hv'.
  { destruct (decide (d + length w = s')%nat) as [E|E]; [|apply view_set; [done|lia] ]. rewrite (W5 E) in *. by apply view_nul. }
  specialize (IH f _ rest s' (S (d + length w)) (argv ++ [d]) (ws0 ++ [w]) Hv' W7).
  assert (rest ≠ [] -> (S (d + length w) <= s')%nat) as I1.
  { intros Hr. destruct (decide (d + length w = s')%nat) as [E|E]; [by specialize (W5 E)|lia]. }
  assert (Forall2 (arg_at (<[(d + length w)%nat := 0]> (list_inserts d w L)) (S (d + length w))) (argv ++ [d]) (ws0 ++ [w])) as I2.
  { apply Forall2_app; [|constructor; [apply arg_at_new; [lia|done]|constructor] ].
    eapply Forall2_impl; [exact Ha|]. intros p x Hx. eapply arg_at_mono with (d := d); [|lia].
    apply arg_at_insert; [|lia]. apply arg_at_inserts; [done|lia]. }
  assert (k + length (argv ++ [d]) = MAX_ARGS - 1)%nat as I3 by (rewrite length_app; cbn [length]; lia).
  specialize (IH I1 I3 ltac:(lia) I2).
  destruct (words k rest) as [ws|]; cbn [mbind option_bind]; [|done].
  by replace (ws0 ++ w :: ws) with ((ws0 ++ [w]) ++ ws) by (by rewrite <- app_assoc).
Qed.

(** The NUL-terminated strings at the positions are the arguments. *)
Lemma arg_at_string L d p w : arg_at L d p w -> c_string (drop p L) = w.
Proof.
  intros (Hv & H0 & _). assert (drop p L = w ++ 0 :: drop (S (p + length w)) L) as ->.
  { apply list_eq. intros i. rewrite lookup_drop. destruct (lt_eq_lt_dec i (length w)) as [ [Hi|Hi]|Hi].
    - rewrite lookup_app_l by done. destruct (lookup_lt_is_Some_2 w i Hi) as [c Hc]. rewrite Hc. apply Hv. by rewrite lookup_app_l.
    - subst i. rewrite list_lookup_middle by done. apply Hv. by apply list_lookup_middle.
    - rewrite lookup_app_r by lia. destruct (i - length w)%nat as [|j] eqn:E; [lia|].
      change ((0 :: drop (S (p + length w)) L) !! S j) with (drop (S (p + length w)) L !! j). rewrite lookup_drop. f_equal. lia. }
  rewrite c_string_app by done. cbn. apply app_nil_r.
Qed.

Lemma args_at_strings L d argv ws : Forall2 (arg_at L d) argv ws -> arg_strings L argv = ws.
Proof.
  unfold arg_strings. induction 1 as [|p w argv ws H _ IH]; [done|]. rewrite fmap_cons. by rewrite (arg_at_string _ _ _ _ H), IH.
Qed.

Lemma parse_line_ok L l : view 0 L l -> 0 ∉ l ->
  match words (MAX_ARGS - 1) l with
  | Some ws => exists L' argv, parse_line L = Some (0, L', argv) /\ arg_strings L' argv = ws
  | None => exists L', parse_line L = Some (-1, L', [])
  end.
Proof.
  intros Hv H0. unfold parse_line.
  pose proof (line_loop_ok (MAX_ARGS - 1) (S MAX_ARGS) L l 0 0 [] [] Hv H0 ltac:(lia) eq_refl ltac:(lia) (Forall2_nil_2 _ _ _)) as H.
  destruct (words _ l) as [ws|]; [|done]. destruct H as (L' & argv & d' & E & Ha). exists L', argv. split; [done|].
  by eapply args_at_strings.
Qed.

(** parse_line cuts a line into the arguments that the quoting rules give it, although it
    moves the characters within the line it is still reading: single quotes keep everything,
    double quotes everything but a backslash, a backslash the next character.  A line with an
    open quote or more than 31 arguments is refused with -1; the loops always end. *)
Theorem parse_line_spec L l : view 0 L l -> 0 ∉ l ->
  match words (MAX_ARGS - 1) l with
  | Some ws => exists L' argv, parse_line L = Some (0, L', argv) /\ arg_strings L' argv = ws
  | None => exists L', parse_line L = Some (-1, L', [])
  end.
Proof. apply parse_line_ok. Qed.

(** ** Reading a line *)

(** The characters left after the erasures. *)
Definition edit (l : list Z) (c : Z) : list Z := if decide (c = 0x7F \/ c = 8) then take (length l - 1) l else l ++ [c].
Definition edited (typed : list Z) : list Z := foldl edit [] typed.

(** The characters typed so far never fill the line. *)
Fixpoint fits_line (l typed : list Z) : Prop :=
  (length l < MAX_LINE - 1)%nat /\ match typed with [] => True | c :: typed => fits_line (edit l c) typed end.

Lemma read_line_ok typed rest l L :
  10 ∉ typed -> fits_line l typed -> length L = MAX_LINE -> take (length l) L = l ->
  exists L', read_line (typed ++ 10 :: rest) (length l) L = Some (zlen (foldl edit l typed), L', rest)
    /\ length L' = MAX_LINE /\ view 0 L' (foldl edit l typed).
Proof.
  revert l L. induction typed as [|c typed IH]; intros l L H10 Hf HL Hl; cbn [app read_line fits_line foldl] in *;
    destruct Hf as [Hlt Hf]; rewrite decide_True by done.
  - change (10 =? 10) with true. cbv iota. rewrite set_at_ok by (unfold MAX_LINE in *; lia). cbn [mbind option_bind].
    eexists. split; [done|]. rewrite length_insert. split; [done|]. intros i b Hb. cbn [Nat.add].
    apply lookup_snoc_Some in Hb as [ [Hi Hb]|[-> <-] ].
    + rewrite list_lookup_insert_ne by lia. rewrite <- Hb, <- Hl at 1. by rewrite lookup_take_lt.
    + apply list_lookup_insert_eq. unfold MAX_LINE in *. lia.
  - apply not_elem_of_cons in H10 as [Hc H10]. rewrite (proj2 (Z.eqb_neq c 10)) by congruence.
    assert ((c =? 0x7F) || (c =? 8) = bool_decide (c = 0x7F \/ c = 8)) as ->.
    { case_bool_decide as H; [destruct H as [ ->| ->]; done|]. apply orb_false_iff. split; apply Z.eqb_neq; tauto. }
    case_bool_decide as He.
    + assert (edit l c = take (length l - 1) l) as Ee by (unfold edit; by rewrite decide_True).
      replace (length l - 1)%nat with (length (edit l c)) by (rewrite Ee, length_take; lia).
      apply IH; [done|done|done|]. rewrite Ee, length_take. replace (_ `min` _)%nat with (length l - 1)%nat by lia.
      transitivity (take (length l - 1) (take (length l) L)); [rewrite take_take; f_equal; lia|by rewrite Hl].
    + assert (edit l c = l ++ [c]) as Ee by (unfold edit; by rewrite decide_False).
      rewrite set_at_ok by (unfold MAX_LINE in *; lia). cbn [mbind option_bind].
      replace (S (length l)) with (length (edit l c)) by (rewrite Ee, length_app; cbn; lia).
      apply IH; [done|done|by rewrite length_insert|]. rewrite Ee, length_app. cbn [length]. rewrite Nat.add_1_r.
      rewrite (take_S_r _ _ c) by (apply list_lookup_insert_eq; unfold MAX_LINE in *; lia). by rewrite take_insert_ge, Hl by lia.
Qed.

Lemma plain_typed typed l : 8 ∉ typed -> 0x7F ∉ typed -> (length l + length typed < MAX_LINE - 1)%nat ->
  foldl edit l typed = l ++ typed /\ fits_line l typed.
Proof.
  revert l. induction typed as [|c typed IH]; intros l H8 H7 Hl; cbn [foldl fits_line length] in *; [rewrite app_nil_r; split; [done|split; [lia|done] ]|].
  apply not_elem_of_cons in H8 as [? H8]. apply not_elem_of_cons in H7 as [? H7].
  assert (edit l c = l ++ [c]) as -> by (unfold edit; rewrite decide_False; [done|intros [ ->| ->]; done]).
  destruct (IH (l ++ [c]) H8 H7) as [-> Hf]; [rewrite length_app; cbn [length]; lia|]. rewrite <- app_assoc. split; [done|]. split; [lia|done].
Qed.

Lemma shell_round_ok cwd L typed rest :
  10 ∉ typed -> 0 ∉ typed -> fits_line [] typed -> length L = MAX_LINE ->
  exists L', shell_round cwd L (typed ++ 10 :: rest) =
    Some (Some (match words (MAX_ARGS - 1) (edited typed) with Some ws => execute cwd ws | None => (Nothing, cwd) end), L', rest).
Proof.
  intros H10 H0 Hf HL. unfold shell_round.
  destruct (read_line_ok typed rest [] L H10 Hf HL eq_refl) as (L1 & E & _ & Hv). change (length (@nil Z)) with 0%nat in E.
  rewrite E. cbn [mbind option_bind]. fold (edited typed) in *. pose proof (zlen_nonneg (edited typed)).
  unfold READ_LINE_EOF, READ_LINE_TOO_LONG. rewrite !(proj2 (Z.eqb_neq _ _)) by lia.
  assert (0 ∉ edited typed) as H0'.
  { unfold edited. assert (0 ∉ @nil Z) as Hn by apply not_elem_of_nil. clear -H0 Hn. revert Hn. generalize (@nil Z). induction typed as [|c typed IH]; intros l Hl; [done|].
    apply not_elem_of_cons in H0 as [Hc H0]. cbn [foldl]. apply IH; [done|]. unfold edit. case_decide; [|set_solver].
    intros Hin. apply elem_of_take in Hin as (i & Hi & _). apply Hl. by eapply list_elem_of_lookup_2. }
  pose proof (parse_line_ok L1 (edited typed) Hv H0') as Hp. destruct (words _ (edited typed)) as [ws|].
  - destruct Hp as (L' & argv & -> & <-). by exists L'.
  - destruct Hp as (L' & ->). by exists L'.
Qed.

(** What is typed is what is cut: after a line that is not too long, with the characters
    erased that were erased, the shell executes exactly the arguments of the edited line, and
    the input behind the newline is left for the next round. *)
Theorem shell_round_spec cwd L typed rest :
  10 ∉ typed -> 0 ∉ typed -> fits_line [] typed -> length L = MAX_LINE ->
  exists L', shell_round cwd L (typed ++ 10 :: rest) =
    Some (Some (match words (MAX_ARGS - 1) (edited typed) with Some ws => execute cwd ws | None => (Nothing, cwd) end), L', rest).
Proof. apply shell_round_ok. Qed.

(** ** Quoting *)

Definition quote_arg (a : list Z) : list Z := SQ :: SQ :: flat_map (fun c => [BS; c]) a.
Definition shell_text (args : list (list Z)) : list Z := join (quote_arg <$> args).

Lemma word_of_escaped a rest : rest = [] \/ head rest = Some 32 -> word_of 0 (flat_map (fun c => [BS; c]) a ++ rest) = (a, tail rest, 0).
Proof.
  intros Hr. induction a as [|c a IH]; cbn [flat_map app].
  - destruct Hr as [->|Hr]; [done|]. destruct rest as [|x rest]; [done|]. cbn in Hr. by injection Hr as ->.
  - change (word_of 0 (BS :: c :: flat_map (fun c => [BS; c]) a ++ rest)) with (cons_word c (word_of 0 (flat_map (fun c => [BS; c]) a ++ rest))).
    by rewrite IH.
Qed.

Lemma word_of_quoted a rest : rest = [] \/ head rest = Some 32 -> word_of 0 (quote_arg a ++ rest) = (a, tail rest, 0).
Proof. intros Hr. unfold quote_arg. cbn [app]. by apply word_of_escaped. Qed.

Lemma words_text k args : (length args <= k)%nat -> words k (shell_text args) = Some args.
Proof.
  revert k. induction args as [|a args IH]; intros k Hk; [by apply words_blank|]. destruct k as [|k]; cbn [length] in Hk; [lia|].
  assert (exists rest, shell_text (a :: args) = quote_arg a ++ rest /\ (rest = [] \/ head rest = Some 32) /\ tail rest = shell_text args) as (rest & -> & Hr & Et).
  { unfold shell_text. cbn [fmap list_fmap join]. destruct args as [|b args]; [exists []; by rewrite app_nil_r; auto|].
    cbn [fmap list_fmap]. eexists. split; [reflexivity|]. split; [by right|done]. }
  rewrite (words_more _ _ a (tail rest) 0); [|done|by apply word_of_quoted]. rewrite decide_True by done. rewrite Et, IH by lia. done.
Qed.

Lemma text_chars c args : c ∉ [SQ; BS; 32] -> Forall (fun a => c ∉ a) args -> c ∉ shell_text args.
Proof.
  intros Hc. unfold shell_text. assert (forall a, c ∉ a -> c ∉ quote_arg a) as Hq.
  { intros a Ha. unfold quote_arg. rewrite !not_elem_of_cons. split_and!; [set_solver..|].
    induction a as [|b a IH]; cbn [flat_map app]; [apply not_elem_of_nil|]. apply not_elem_of_cons in Ha as [? Ha].
    rewrite !not_elem_of_cons. split_and!; [set_solver|done|by apply IH]. }
  induction args as [|a args IH]; intros Ha; [apply not_elem_of_nil|]. apply Forall_cons in Ha as [Ha Has]. rewrite fmap_cons. cbn [join].
  destruct (quote_arg <$> args) as [|b l] eqn:El; [by apply Hq|]. rewrite not_elem_of_app, not_elem_of_cons.
  split_and!; [by apply Hq|set_solver|by apply IH].
Qed.

(** Any list of up to 31 arguments, with any characters in them that can be typed, reaches
    the command when it is typed in quoted form: the shell executes exactly these arguments. *)
Theorem shell_quoting_roundtrip cwd L args rest :
  (length args <= MAX_ARGS - 1)%nat -> Forall (fun a => 0 ∉ a /\ 8 ∉ a /\ 10 ∉ a /\ 0x7F ∉ a) args ->
  (length (shell_text args) < MAX_LINE - 1)%nat -> length L = MAX_LINE ->
  exists L', shell_round cwd L (shell_text args ++ 10 :: rest) = Some (Some (execute cwd args), L', rest).
Proof.
  intros Hn Ha Hl HL.
  assert (forall c, c = 0 \/ c = 8 \/ c = 10 \/ c = 0x7F -> c ∉ shell_text args) as Hc.
  { intros c Hc. apply text_chars; [unfold SQ, BS; rewrite !not_elem_of_cons; split_and!; [lia..|apply not_elem_of_nil]|]. eapply Forall_impl; [exact Ha|]. cbn. intros a (? & ? & ? & ?).
    by destruct Hc as [ ->|[ ->|[ ->| ->] ] ]. }
  destruct (plain_typed (shell_text args) [] (Hc 8 ltac:(auto)) (Hc 0x7F ltac:(auto)) Hl) as [E Hf].
  destruct (shell_round_ok cwd L (shell_text args) rest (Hc 10 ltac:(auto)) (Hc 0 ltac:(auto)) Hf HL) as [L' ->].
  exists L'. unfold edited. rewrite E. cbn [app]. by rewrite words_text.
Qed.

(** ** Examples *)

Definition ex_line : list Z := replicate 256 7.
Definition ex_argv : list (list Z) := [bytes "echo"; bytes "it's"; []; bytes "a  b"].

Lemma parse_line_spec_witness : exists L' argv,
  parse_line (bytes "echo 'a b' c\d" ++ 0 :: ex_line) = Some (0, L', argv) /\ arg_strings L' argv = [bytes "echo"; bytes "a b"; bytes "cd"].
Proof.
  apply (parse_line_spec (bytes "echo 'a b' c\d" ++ 0 :: ex_line) (bytes "echo 'a b' c\d")).
  - intros i c Hi. change (bytes "echo 'a b' c\d" ++ 0 :: ex_line) with ((bytes "echo 'a b' c\d" ++ [0]) ++ ex_line). by apply lookup_app_l_Some.
  - by apply (bool_decide_unpack _).
Defined.

Lemma shell_round_spec_witness : exists L',
  shell_round (bytes "/") ex_line (bytes "cx" ++ 8 :: bytes "d /boot" ++ 10 :: bytes "ls") = Some (Some (Nothing, bytes "/boot"), L', bytes "ls").
Proof.
  apply (shell_round_spec (bytes "/") ex_line (bytes "cx" ++ 8 :: bytes "d /boot") (bytes "ls"));
    [by apply (bool_decide_unpack _)|by apply (bool_decide_unpack _)|vm_compute; repeat (split; [lia|]); done|done].
Defined.

Lemma shell_quoting_roundtrip_witness : exists L',
  shell_round (bytes "/") ex_line (shell_text ex_argv ++ 10 :: []) = Some (Some (Show (bytes "it's  a  b" ++ [10]), bytes "/"), L', []).
Proof.
  apply (shell_quoting_roundtrip (bytes "/") ex_line ex_argv []); [cbn; lia|by apply (bool_decide_unpack _)|vm_compute; lia|done].
Defined.

(** A line of exactly 255 characters is refused as longer than 255. *)
Example full_line_refused : exists L', read_line (replicate 255 65 ++ [10]) 0 ex_line = Some (READ_LINE_TOO_LONG, L', []).
Proof. eexists. vm_compute. reflexivity. Qed.
